(* ===== verification/_CoqProject ===== *)
-Q . S2P
Prelude.v
Pmm.v
VmRegion.v
Handles.v
Ipc.v
IpcCalls.v
IpcStep.v
Policy.v
Tree.v
PageTable.v
Vm.v
VmSpace.v
Buffer.v
Dll.v
Alloc.v
AllocHeap.v
AllocRun.v
Slab.v
SlabRun.v
Tmpfs.v
TmpfsSpec.v
TmpfsInv.v
TmpfsOps.v
TmpfsMove.v
TmpfsRefine.v
TmpfsRun.v
