(* ===== verification/Prelude.v ===== *)
(** * bunix: a verification development

    bunix is a small capability-based operating system in C: a kernel with
    physical memory, address spaces, tasks, threads, handles and message
    passing, and user servers that provide names, files, processes and devices
    over messages.  This library translates parts of it into executable Rocq
    definitions and proves theorems about them.

    ** The parts and their files

    - [Prelude] (this file): machine integers ([u64], [u32] and their wrapping
      operations), the loops over arrays that several components share, sums
      over lists and finite maps, tactics.
    - [Pmm] (kernel/pmm.c): the physical page allocator.  The state is the page
      array, the free list in its order and the counter of free pages; there is
      one definition per function of the file, and the boot-time import of
      memory ranges.
    - [VmRegion] (kernel/sched.c, the vm_regions table of a task): adding,
      extending, protecting and removing mappings, and the decision on
      copy-on-write faults.
    - [Handles] (kernel/sched.c, the handle tables): objects (ports, tasks,
      buffers, hardware resources, policy capabilities) with reference counts,
      granting, looking up, duplicating, inheriting, closing and cloning
      handles, and the tear-down of a task.
    - [Ipc] (kernel/ipc.c and the IPC system calls of arch/x86_64/user.c):
      ports, queues, direct delivery, receiving from one or several ports, and
      the translation of user messages with capabilities.
    - [IpcCalls] (arch/x86_64/user.c, task_reply_port of kernel/sched.c): the
      port-create, call and receive-any system calls, with the points where
      they sleep, and runs ([sys_run]) of all handle operations and IPC system
      calls of any tasks.
    - [IpcStep]: the same critical sections interleaved between threads, as a
      step relation.
    - [Policy] (kernel/sched.c, scheduling-policy capabilities): attenuation,
      granting, reading and applying scheduling parameters.  What a capability
      covers and when one is within another ([covers], [attenuates]) is stated
      apart from the code's tests, which are shown to decide it.
    - [Tree] (kernel/tree.h, user/include/bunix/tree.h): the intrusive binary
      search trees behind the name spaces, on a heap of nodes with parent
      pointers, once for all four copies through a class of key orders.
    - [PageTable] (arch/x86_64/vm.c): the four-level page tables in a memory of
      64-bit words, with their tables taken from [Pmm].
    - [Vm] (kernel/vm.c): copies between the kernel and user memory, and
      allocating, protecting, unmapping, cloning and sharing user ranges.
    - [VmSpace] (kernel/vm.c): creating and destroying address spaces, their
      registry in a [Tree], the operations on the spaces that exist, and the
      frames that callers hold and fill before they map them ([vs_held]).
    - [Slab] (kernel/slab.c): the kernel heap, caches of objects of fixed sizes
      and whole pages for larger ones, on the frames of [Pmm]; [SlabRun] has
      what its clients rely on while others use frames too.
    - [Buffer] (kernel/buffer.c, the buffer system calls of arch/x86_64/user.c):
      the bytes of shared buffers, and the encodings servers keep in them.
    - [Dll]: doubly linked lists in a heap of records, the shape several
      components link their entries with.
    - [Alloc] (user/include/bunix/alloc.h): the heap of user programs, a buddy
      allocator over arenas from the kernel and a list of large blocks, on a
      map of block headers.  [AllocHeap] has the invariant and what each
      function does to it, [AllocRun] what programs rely on.
    - [Tmpfs] (user/tmpfs/main.c): the memory file system server, all of it:
      inodes, entries in a list and in a path tree, mounted roots, open
      handles, callers, and the handler of every request.  [TmpfsSpec] states
      what a file system promises; [TmpfsInv] has the invariant, [TmpfsOps],
      [TmpfsMove] and [TmpfsRefine] relate the operations, renaming and the
      handlers to the promise; [TmpfsRun] has the theorems on sequences of
      requests.

    [VmSpace] uses [Vm], [Vm] uses [PageTable], [PageTable] and [Slab] use [Pmm].
    [IpcCalls] uses [Ipc], [Ipc] the objects of [Handles], [Handles] the regions of [VmRegion];
    [Policy] uses the handle tables and the allocation of [Ipc]; [Tmpfs] uses
    [Tree] for its paths, handles and callers and [Buffer] for its messages.

    ** How code is represented

    Records stand for structs, [Z] with explicit reduction for machine
    integers, finite maps from addresses or identifiers for memory that is
    shared by pointers, 0 for the null pointer.  A definition that can touch a
    bad pointer returns an [option]; [None] is undefined behaviour, and the
    theorems show that it does not happen.  Error returns of the code are
    values.  Memory allocation ([slab_zalloc]) takes the sizes the allocator
    would satisfy from a list in the state, so every theorem covers every
    pattern of failures.  A section of code between a lock and its unlock is
    one definition; where the interleaving of sections matters ([IpcStep]) they
    are the steps of a relation.

    ** What the theorems show

    - Pages: every sequence of allocations, retains and frees refines an
      allocator over a set of page numbers; contiguous allocation returns the
      first fit; reserved memory is never granted; the boot-time import covers
      exactly the available memory and ends.
    - Regions: each operation changes what is mapped exactly as its name says
      and keeps regions disjoint; a protection change that needs a split and
      has no room for it tears that region, and only that one; two theorems exhibit inputs where the code
      loses information (a failed protection change, a stale file offset).
    - Handles: reference counts equal the references held at all times, freed
      objects are unreachable, handles only come from handles with at least
      their rights, tear-down releases everything.
    - Messages: sending and receiving keep references exact; messages of a port
      are received exactly once in the order they were sent; a registered
      receiver sleeps; over every run of system calls, rights come only from
      rights that existed, kernel grants and ports made in the run; further
      theorems exhibit schedules in which the code loses a wake-up, a lock or a
      reference.
    - Policy: scheduling parameters and capabilities stay within what the
      capabilities of the start permit, whatever is granted and set; granting
      and setting do what was asked for or fail for a cause that is named.
      Making a new system capability is not a step of these runs.
    - Page tables: a sequence of map, protect, unmap and translate behaves as a
      map from page numbers to entries, over the identity mapping; destroying
      a space returns exactly the frames of its tables.
    - Address spaces: every operation changes the map from user pages to frames
      as it describes; frames have as many references as pages map them and
      callers hold them; the copy loops equal byte-wise copies.  After a fork
      the two spaces stay isolated over every sequence of operations of all
      spaces that does not share the range on purpose or make its frames
      writable; one theorem shows that protecting the range writable, as the
      code allows, breaks the isolation.  [vm_map_kernel_page] is a definition
      of [Vm] but not an operation of these runs.
    - Trees: the pointer structure refines a finite map with an order, and the
      traversal visits the entries in that order.
    - Buffers: the copy loops end for all 64-bit arguments, stay inside the
      buffer and read back what was written.
    - Kernel heap: every correct sequence of calls, interleaved with other uses
      of frames, gets objects of at least the size asked for that overlap
      nothing and lie in frames the heap owns; a call fails only when no run of
      free frames is long enough; large objects return all their frames.
    - User heap: every correct sequence of calls is answered with blocks of the
      size asked for that overlap neither each other nor the headers; what a
      program stored is left alone; when everything is freed the arenas are
      whole again.  A call fails only when the kernel refuses memory; the
      theorems assume that the address space above the heap is not used up.
    - Memory files: the server refines an abstract file system (inodes by
      number, links by path, handles by identifier) over every sequence of
      requests, whatever allocations fail, for clients that respect
      [request_ok]: they do not unlink, remove or rename over an entry that is
      open, and give sizes of at most [2^63].  Further theorems show what
      happens otherwise: freed entries behind handles, bytes stored outside
      the block of a file.  A task without a grant is refused, except for the
      first grant and for the three requests the server does not guard, which
      remove no entry and change no contents.

    ** Fuel

    Loops that are not structural take fuel: the doubling of array capacities
    64 rounds (a [u32] overflows after 32), tear-down the number of tasks plus
    one (each nested tear-down removes a referenced task), tree loops the
    number of nodes of the heap plus one, copies to and from user memory the
    number of whole pages plus three (a range can start and end inside a page),
    the buffer loops the number of whole chunks plus two, the sizes of heap
    blocks 64 doublings, splitting and merging blocks 16 rounds (there are 15
    orders), the search for a free block two rounds (the second after a new
    arena), the lists of large blocks and of slabs the number of headers plus one, the growth of a
    file's block 65 rounds (64 doublings exhaust a [u64]), the search for a
    handle number the number of handles plus one, the creation of parent
    directories the length of the path plus one (the parent is shorter).
    The theorems show that the fuel
    suffices, so no statement is about a run that ends for lack of it.

    ** Not modelled

    The kernel reaches a frame at its physical address (the identity mapping of
    the low gigabyte); [PageTable] shows when a user mapping hides it, and
    the rest assumes it does not.  Device drivers, the TLB, interrupt entry, assembly, the console,
    and the user servers other than the memory file system are not modelled;
    nor are the instruction-level
    effects of locks and of memory ordering: sections under a lock are atomic. *)
From stdpp Require Import gmap list sorting strings.
From Stdlib Require Import ZArith Lia.

Open Scope Z_scope.

(** ** Machine integers

    A C integer of type [u64] (resp. [u32]) is a [Z]; every operation that can
    leave the range is followed by the reduction the hardware performs. *)

Declare Scope machine_scope.
Delimit Scope machine_scope with M.

Definition u64 (z : Z) : Z := z mod 2 ^ 64.
Definition u32 (z : Z) : Z := z mod 2 ^ 32.
Definition not64 (z : Z) : Z := u64 (Z.lnot z).

Notation "a +w b" := (u64 (a + b)) (at level 50, left associativity) : machine_scope.
Notation "a -w b" := (u64 (a - b)) (at level 50, left associativity) : machine_scope.
Notation "a *w b" := (u64 (a * b)) (at level 40, left associativity) : machine_scope.

Open Scope machine_scope.

Definition in_u64 (z : Z) : Prop := 0 <= z < 2 ^ 64.
Definition in_u32 (z : Z) : Prop := 0 <= z < 2 ^ 32.

(** [align_down] and [align_up], the helpers pmm.c, slab.c, elf.c, vm.c and
    alloc.h each define in the same words. *)
Definition align_down (value align : Z) : Z :=
  Z.land value (not64 (align -w 1)).
Definition align_up (value align : Z) : Z :=
  Z.land (value +w align -w 1) (not64 (align -w 1)).

(** ** Loops over arrays: [for (i = 0; i < n; i++) if (f(a[i])) return i;] *)
Fixpoint find_idx {A} (f : A -> bool) (l : list A) : option nat :=
  match l with
  | [] => None
  | x :: l' => if f x then Some 0%nat else S <$> find_idx f l'
  end.

(** ** Growing an array *)

(** [while (new_capacity < min_capacity) new_capacity *= 2;] on a [u32].  After
    32 doublings the value is 0 and the loop would not end; the arrays stay
    below that because no request above 64 GiB is satisfied. *)
Fixpoint double_capacity (fuel : nat) (new_capacity min_capacity : Z) : Z :=
  match fuel with
  | O => new_capacity
  | S fuel =>
      if new_capacity <? min_capacity
      then double_capacity fuel (u32 (new_capacity * 2)) min_capacity
      else new_capacity
  end.

(** ** Memory of bytes *)

(** [for (i = 0; i < n; i++) dst[i] = src[i]], the bytes from first to last. *)
Fixpoint copy_bytes (n : nat) (dst src : Z) (m : gmap Z Z) : gmap Z Z :=
  match n with
  | O => m
  | S n => copy_bytes n (dst + 1) (src + 1) (<[dst := default 0 (m !! src)]> m)
  end.

Fixpoint zero_bytes (n : nat) (dst : Z) (m : gmap Z Z) : gmap Z Z :=
  match n with O => m | S n => zero_bytes n (dst + 1) (<[dst := 0]> m) end.

(** ** Automation of the development *)

Create HintDb bunix.

(** Turn every boolean test of the context and the goal into the fact it
    decides. *)
Ltac bool_facts :=
  repeat match goal with
  | H : (_ && _)%bool = true |- _ => apply andb_true_iff in H as [? ?]
  | H : (_ || _)%bool = false |- _ => apply orb_false_iff in H as [? ?]
  | H : negb _ = true |- _ => apply negb_true_iff in H
  | H : negb _ = false |- _ => apply negb_false_iff in H
  | H : (_ =? _) = true |- _ => apply Z.eqb_eq in H
  | H : (_ =? _) = false |- _ => apply Z.eqb_neq in H
  | H : (_ <? _) = true |- _ => apply Z.ltb_lt in H
  | H : (_ <? _) = false |- _ => apply Z.ltb_ge in H
  | H : (_ <=? _) = true |- _ => apply Z.leb_le in H
  | H : (_ <=? _) = false |- _ => apply Z.leb_gt in H
  | H : bool_decide _ = true |- _ => apply bool_decide_eq_true in H
  | H : bool_decide _ = false |- _ => apply bool_decide_eq_false in H
  end.

(** Split the conditional the goal (or a hypothesis) is stuck on. *)
Ltac case_if :=
  match goal with
  | |- context [if ?b then _ else _] => destruct b eqn:?
  | H : context [if ?b then _ else _] |- _ => destruct b eqn:?
  end; bool_facts; try discriminate.

(** Decide by arithmetic every comparison the goal computes with. *)
Ltac decide_tests :=
  repeat match goal with
  | |- context [?a =? ?b] =>
      first [rewrite (proj2 (Z.eqb_eq a b)) by lia | rewrite (proj2 (Z.eqb_neq a b)) by lia]
  | |- context [?a <? ?b] =>
      first [rewrite (proj2 (Z.ltb_lt a b)) by lia | rewrite (proj2 (Z.ltb_ge a b)) by lia]
  | |- context [?a <=? ?b] =>
      first [rewrite (proj2 (Z.leb_le a b)) by lia | rewrite (proj2 (Z.leb_gt a b)) by lia]
  end; simpl negb; simpl andb; simpl orb; cbv iota.

(** ** Lemmas on machine integers *)

Lemma u64_range z : in_u64 (u64 z).
Proof. unfold in_u64, u64. apply Z.mod_pos_bound. lia. Qed.

Lemma u32_range z : in_u32 (u32 z).
Proof. unfold in_u32, u32. apply Z.mod_pos_bound. lia. Qed.

Lemma not64_bit z i : 0 <= i < 64 -> Z.testbit (not64 z) i = negb (Z.testbit z i).
Proof. intros Hi. unfold not64, u64. by rewrite Z.mod_pow2_bits_low, Z.lnot_spec by lia. Qed.

Lemma u64_small z : in_u64 z -> u64 z = z.
Proof. apply Z.mod_small. Qed.

Lemma u32_small z : in_u32 z -> u32 z = z.
Proof. apply Z.mod_small. Qed.

#[export] Hint Resolve u64_range u32_range : bunix.

(** Clearing the low [k] bits rounds down to a multiple of [2 ^ k]. *)
Lemma land_not64_pow2 v k :
  in_u64 v -> 0 <= k <= 63 ->
  Z.land v (not64 (u64 (2 ^ k - 1))) = v / 2 ^ k * 2 ^ k.
Proof.
  intros Hv Hk. unfold in_u64 in Hv.
  assert (0 < 2 ^ k <= 2 ^ 63) as Hp.
  { split; [lia|]. apply Z.pow_le_mono_r; lia. }
  rewrite (u64_small (2 ^ k - 1)) by (unfold in_u64; lia).
  rewrite <- Z.shiftl_mul_pow2, <- Z.shiftr_div_pow2 by lia.
  rewrite <- Z.ldiff_ones_r by lia.
  replace (2 ^ k - 1) with (Z.ones k) by (rewrite Z.ones_equiv; lia).
  unfold not64, u64. rewrite <- Z.land_ones by lia.
  apply Z.bits_inj'. intros i Hi.
  rewrite Z.land_spec, Z.land_spec, Z.ldiff_spec, Z.lnot_spec by lia.
  destruct (decide (i < 64)).
  - rewrite (Z.ones_spec_low 64) by lia. by rewrite andb_true_r.
  - rewrite <- (Z.mod_small v (2 ^ 64)) by lia.
    rewrite (Z.mod_pow2_bits_high v 64) by lia. done.
Qed.

Lemma align_down_pow2 v k :
  in_u64 v -> 0 <= k <= 63 -> align_down v (2 ^ k) = v / 2 ^ k * 2 ^ k.
Proof. intros. unfold align_down. by apply land_not64_pow2. Qed.

Lemma align_up_pow2 v k :
  in_u64 v -> 0 <= k <= 63 -> v + 2 ^ k - 1 < 2 ^ 64 ->
  align_up v (2 ^ k) = (v + 2 ^ k - 1) / 2 ^ k * 2 ^ k.
Proof.
  intros Hv Hk Hlt. unfold align_up. unfold in_u64 in *.
  assert (0 < 2 ^ k <= 2 ^ 63) by (split; [lia|apply Z.pow_le_mono_r; lia]).
  rewrite land_not64_pow2 by auto with bunix.
  assert (u64 (u64 (v + 2 ^ k) - 1) = v + 2 ^ k - 1) as ->; [|done].
  unfold u64. rewrite Zminus_mod_idemp_l. apply Z.mod_small. lia.
Qed.

(** When rounding up leaves the range, the result is 0. *)
Lemma align_up_wraps v k :
  in_u64 v -> 0 <= k <= 63 -> 2 ^ 64 <= v + 2 ^ k - 1 ->
  align_up v (2 ^ k) = 0.
Proof.
  intros Hv Hk Hge. unfold align_up. unfold in_u64 in *.
  assert (0 < 2 ^ k <= 2 ^ 63) by (split; [lia|apply Z.pow_le_mono_r; lia]).
  rewrite land_not64_pow2 by auto with bunix.
  assert (u64 (u64 (v + 2 ^ k) - 1) = v + 2 ^ k - 1 - 2 ^ 64) as ->.
  { unfold u64. rewrite Zminus_mod_idemp_l.
    symmetry. apply Zmod_unique with 1; lia. }
  rewrite Z.div_small by lia. done.
Qed.

(** ** Lemmas on loops *)

Lemma find_idx_Some {A} (f : A -> bool) (l : list A) i :
  find_idx f l = Some i <->
  (exists x, l !! i = Some x /\ f x = true) /\
  (forall j y, (j < i)%nat -> l !! j = Some y -> f y = false).
Proof.
  revert i. induction l as [|x l IH]; intros i; simpl.
  - split; [done|]. intros [(y & Hy & _) _]. by rewrite lookup_nil in Hy.
  - destruct (f x) eqn:Hx.
    + split.
      * intros [= <-]. split; [by exists x|]. lia.
      * intros [_ Hlt]. destruct i as [|i]; [done|].
        specialize (Hlt 0%nat x ltac:(lia) eq_refl). congruence.
    + split.
      * intros (k & Hk & ->)%fmap_Some. apply IH in Hk as [(y & Hy & Hf) Hlt].
        split; [by exists y|]. intros [|j] z Hj Hz; simpl in Hz; [congruence|].
        apply (Hlt j); [lia|done].
      * intros [(y & Hy & Hf) Hlt]. destruct i as [|i]; simpl in Hy; [congruence|].
        apply fmap_Some. exists i. split; [|done]. apply IH. split; [by exists y|].
        intros j z Hj Hz. apply (Hlt (S j)); [lia|done].
Qed.

Lemma find_idx_None {A} (f : A -> bool) (l : list A) :
  find_idx f l = None <-> (forall x, x ∈ l -> f x = false).
Proof.
  induction l as [|x l IH]; simpl.
  - split; [|done]. intros _ x Hx. by apply elem_of_nil in Hx.
  - destruct (f x) eqn:Hx.
    + split; [done|]. intros H. rewrite (H x) in Hx; [done|]. left.
    + rewrite fmap_None, IH. split.
      * intros H y [->|Hy]%elem_of_cons; auto.
      * intros H y Hy. apply H. by right.
Qed.

Lemma find_idx_lookup {A} (f : A -> bool) (l : list A) i :
  find_idx f l = Some i -> exists x, l !! i = Some x /\ f x = true.
Proof. by intros [H _]%find_idx_Some. Qed.

Lemma find_idx_lt {A} (f : A -> bool) (l : list A) i :
  find_idx f l = Some i -> (i < length l)%nat.
Proof. intros (x & Hx & _)%find_idx_lookup. by apply lookup_lt_Some in Hx. Qed.

Lemma NoDup_reverse {A} (l : list A) : NoDup l -> NoDup (reverse l).
Proof. by rewrite reverse_Permutation. Qed.

(** The same loop when the body also reads the index. *)
Fixpoint findi {A} (f : nat -> A -> bool) (i : nat) (l : list A) : option nat :=
  match l with
  | [] => None
  | x :: l' => if f i x then Some i else findi f (S i) l'
  end.

Lemma findi_Some {A} (f : nat -> A -> bool) i l k :
  findi f i l = Some k ->
  exists x, (i <= k)%nat /\ l !! (k - i)%nat = Some x /\ f k x = true.
Proof.
  revert i. induction l as [|x l IH]; intros i; simpl; [done|].
  destruct (f i x) eqn:Hf.
  - intros [= <-]. exists x. by rewrite Nat.sub_diag.
  - intros (y & Hle & Hy & Hfy)%IH. exists y.
    replace (k - i)%nat with (S (k - S i)) by lia. split; [lia|done].
Qed.

Lemma findi_None {A} (f : nat -> A -> bool) i l :
  findi f i l = None <-> forall j x, l !! j = Some x -> f (i + j)%nat x = false.
Proof.
  revert i. induction l as [|x l IH]; intros i; simpl.
  - split; [|done]. intros _ j x. by rewrite lookup_nil.
  - destruct (f i x) eqn:Hf.
    + split; [done|]. intros H. specialize (H 0%nat x eq_refl).
      rewrite Nat.add_0_r in H. congruence.
    + rewrite IH. split.
      * intros H [|j] y Hy; simpl in Hy.
        -- rewrite Nat.add_0_r. congruence.
        -- rewrite <- Nat.add_succ_comm. by apply H.
      * intros H j y Hy. rewrite Nat.add_succ_comm. by apply H.
Qed.

Lemma findi_first {A} (f : nat -> A -> bool) i l k j x :
  findi f i l = Some k -> (i + j < k)%nat -> l !! j = Some x -> f (i + j)%nat x = false.
Proof.
  revert i j. induction l as [|y l IH]; intros i j; simpl; [done|].
  destruct (f i y) eqn:Hf; [intros [= ->]; lia|].
  intros Hfind Hj Hx. destruct j as [|j]; simpl in Hx.
  - rewrite Nat.add_0_r. congruence.
  - rewrite <- Nat.add_succ_comm in *. by eapply IH.
Qed.

(** Writing into the middle of an array. *)
Lemma insert_middle {A} (l1 : list A) x y l2 :
  <[length l1 := y]> (l1 ++ x :: l2) = l1 ++ y :: l2.
Proof. rewrite insert_app_r_alt, Nat.sub_diag by lia. done. Qed.

Lemma lookup_split {A} (l : list A) i x :
  l !! i = Some x -> exists l1 l2, l = l1 ++ x :: l2 /\ length l1 = i.
Proof.
  intros Hx. exists (take i l), (drop (S i) l). split.
  - by rewrite take_drop_middle.
  - apply lookup_lt_Some in Hx. rewrite length_take. lia.
Qed.

(** Strictly fewer elements pass a stronger test that some element fails. *)
Lemma filter_lt {A} (P Q : A -> Prop) `{!forall x, Decision (P x), !forall x, Decision (Q x)}
    (l : list A) x :
  (forall y, P y -> Q y) -> x ∈ l -> Q x -> ~ P x ->
  (length (filter P l) < length (filter Q l))%nat.
Proof.
  intros Himp Hx HQ HP.
  assert (forall k, (length (filter P k) <= length (filter Q k))%nat) as Hle.
  { induction k as [|y k IH]; [done|]. rewrite !filter_cons.
    destruct (decide (P y)); [rewrite decide_True by auto; simpl; lia|].
    destruct (decide (Q y)); simpl; lia. }
  induction l as [|y l IH]; [by apply elem_of_nil in Hx|]. rewrite !filter_cons.
  specialize (Hle l). apply elem_of_cons in Hx as [<-|Hx].
  - rewrite decide_False, decide_True by done. simpl. lia.
  - specialize (IH Hx). destruct (decide (P y)); [rewrite decide_True by auto; simpl; lia|].
    destruct (decide (Q y)); simpl; lia.
Qed.

Lemma alter_middle {A} (f : A -> A) (l1 : list A) x l2 :
  alter f (length l1) (l1 ++ x :: l2) = l1 ++ f x :: l2.
Proof. rewrite alter_app_r_alt, Nat.sub_diag by lia. done. Qed.

(** Range facts about literals by computation. *)
Lemma in_u64_lit z : (0 <=? z) && (z <? 2 ^ 64) = true -> in_u64 z.
Proof. intros. bool_facts. done. Qed.

Lemma in_u32_lit z : (0 <=? z) && (z <? 2 ^ 32) = true -> in_u32 z.
Proof. intros. bool_facts. done. Qed.

(** Testing a flag. *)
Lemma land_pow2 p k : 0 <= k -> Z.land p (2 ^ k) = if Z.testbit p k then 2 ^ k else 0.
Proof.
  intros Hk. apply Z.bits_inj'. intros n Hn. rewrite Z.land_spec, Z.pow2_bits_eqb by done.
  destruct (Z.eqb_spec k n) as [->|Hne].
  - rewrite andb_true_r. destruct (Z.testbit p n); [by rewrite Z.pow2_bits_true|].
    by rewrite Z.bits_0.
  - rewrite andb_false_r. destruct (Z.testbit p k); [by rewrite Z.pow2_bits_false|].
    by rewrite Z.bits_0.
Qed.

Lemma flag_test p k : 0 <= k -> negb (Z.land p (2 ^ k) =? 0) = Z.testbit p k.
Proof.
  intros Hk. rewrite land_pow2 by done. pose proof (Z.pow_pos_nonneg 2 k ltac:(lia) Hk).
  destruct (Z.testbit p k); [|done]. by rewrite (proj2 (Z.eqb_neq _ _)) by lia.
Qed.

Lemma double_capacity_spec fuel c m :
  0 < c -> m <= 2 ^ 31 -> c < 2 ^ 32 -> m <= c * 2 ^ Z.of_nat fuel ->
  m <= double_capacity fuel c m < 2 ^ 32 /\ c <= double_capacity fuel c m.
Proof.
  revert c. induction fuel as [|fuel IH]; intros c Hc Hm Hc32 Hf; simpl double_capacity.
  - simpl in Hf. lia.
  - case_if; [|lia].
    rewrite Nat2Z.inj_succ, Z.pow_succ_r in Hf by lia.
    unfold u32. rewrite Z.mod_small by lia.
    destruct (IH (c * 2)); lia.
Qed.

(** ** Sums over lists and finite maps *)

Definition lsum {A} (f : A -> Z) (l : list A) : Z := foldr (fun x acc => f x + acc) 0 l.

Lemma lsum_cons {A} (f : A -> Z) x l : lsum f (x :: l) = f x + lsum f l.
Proof. done. Qed.

Lemma lsum_app {A} (f : A -> Z) l1 l2 : lsum f (l1 ++ l2) = lsum f l1 + lsum f l2.
Proof. induction l1 as [|x l1 IH]; [done|]. simpl app. rewrite !lsum_cons, IH. lia. Qed.

Lemma lsum_nonneg {A} (f : A -> Z) l : (forall x, x ∈ l -> 0 <= f x) -> 0 <= lsum f l.
Proof.
  induction l as [|x l IH]; intros Hf; [done|]. rewrite lsum_cons.
  assert (0 <= f x) by (apply Hf; left). assert (0 <= lsum f l) by (apply IH; set_solver). lia.
Qed.

Lemma lsum_insert {A} (f : A -> Z) l i x y :
  l !! i = Some x -> lsum f (<[i := y]> l) = lsum f l - f x + f y.
Proof.
  intros (l1 & l2 & -> & <-)%lookup_split. rewrite insert_middle, !lsum_app, !lsum_cons. lia.
Qed.

Lemma lsum_elem {A} (f : A -> Z) l x :
  (forall y, y ∈ l -> 0 <= f y) -> x ∈ l -> f x <= lsum f l.
Proof.
  induction l as [|y l IH]; intros Hf Hx; [by apply elem_of_nil in Hx|].
  rewrite lsum_cons. assert (0 <= f y) by (apply Hf; left).
  assert (0 <= lsum f l) by (apply lsum_nonneg; set_solver).
  apply elem_of_cons in Hx as [->|Hx]; [lia|].
  assert (f x <= lsum f l) by (apply IH; set_solver). lia.
Qed.

Definition msum {A} (f : A -> Z) (m : gmap Z A) : Z := map_fold (fun _ x acc => f x + acc) 0 m.

Lemma msum_empty {A} (f : A -> Z) : msum f ∅ = 0.
Proof. apply map_fold_empty. Qed.

Lemma msum_insert {A} (f : A -> Z) m k x :
  m !! k = None -> msum f (<[k := x]> m) = f x + msum f m.
Proof. intros Hk. unfold msum. rewrite map_fold_insert_L; [done| |done]. intros. lia. Qed.

Lemma msum_delete {A} (f : A -> Z) m k x :
  m !! k = Some x -> msum f m = f x + msum f (delete k m).
Proof.
  intros Hk. rewrite <- (insert_delete_id m k x) at 1 by done.
  apply msum_insert. apply lookup_delete_eq.
Qed.

Lemma msum_update {A} (f : A -> Z) m k x y :
  m !! k = Some x -> msum f (<[k := y]> m) = msum f m - f x + f y.
Proof.
  intros Hk. rewrite (msum_delete f m k x) by done.
  rewrite <- insert_delete_eq, msum_insert by apply lookup_delete_eq. lia.
Qed.

Lemma msum_nonneg {A} (f : A -> Z) m :
  (forall k x, m !! k = Some x -> 0 <= f x) -> 0 <= msum f m.
Proof.
  induction m as [|k x m Hk IH] using map_ind; intros Hf; [by rewrite msum_empty|].
  rewrite msum_insert by done.
  assert (0 <= f x) by (apply (Hf k), lookup_insert_eq).
  assert (0 <= msum f m); [|lia]. apply IH. intros k' x' Hk'. apply (Hf k').
  rewrite lookup_insert_ne; [done|]. congruence.
Qed.

Lemma msum_lookup {A} (f : A -> Z) m k x :
  (forall k x, m !! k = Some x -> 0 <= f x) -> m !! k = Some x -> f x <= msum f m.
Proof.
  intros Hf Hk. rewrite (msum_delete f m k x) by done.
  assert (0 <= msum f (delete k m)); [|lia]. apply msum_nonneg.
  intros k' x' [_ Hk']%lookup_delete_Some. by eapply Hf.
Qed.

Lemma msum_fmap {A B} (g : B -> Z) (f : A -> B) m : msum g (f <$> m) = msum (g ∘ f) m.
Proof.
  induction m as [|k x m Hk IH] using map_ind.
  - by rewrite fmap_empty, !msum_empty.
  - rewrite fmap_insert, !msum_insert, IH; [done|done|]. by rewrite lookup_fmap, Hk.
Qed.

Lemma msum_ext {A} (f : A -> Z) (m m' : gmap Z A) :
  (forall k, f <$> m !! k = f <$> m' !! k) -> msum f m = msum f m'.
Proof.
  intros Heq. change f with (id ∘ f). rewrite <- !(msum_fmap id f). f_equal.
  apply map_eq. intros k. by rewrite !lookup_fmap.
Qed.

Lemma lsum_pos {A} (f : A -> Z) l : 0 < lsum f l -> exists x, x ∈ l /\ 0 < f x.
Proof.
  induction l as [|y l IH]; [done|]. rewrite lsum_cons. intros H.
  destruct (decide (0 < f y)); [exists y; split; [left|done]|].
  destruct IH as (x & Hx & Hp); [lia|]. exists x. split; [by right|done].
Qed.

(** Entries that count for nothing may come and go. *)
Lemma msum_default {A} (f : A -> Z) (m m' : gmap Z A) :
  (forall k, default 0 (f <$> m !! k) = default 0 (f <$> m' !! k)) -> msum f m = msum f m'.
Proof.
  revert m'. induction m as [|k x m Hk IH] using map_ind; intros m' Heq.
  - rewrite msum_empty. induction m' as [|k y m' Hk IH] using map_ind; [by rewrite msum_empty|].
    rewrite msum_insert by done. rewrite <- IH.
    2: { intros k'. specialize (Heq k'). destruct (decide (k' = k)) as [->|Hne]; [by rewrite Hk|].
         by rewrite lookup_insert_ne in Heq. }
    specialize (Heq k). rewrite lookup_insert_eq, lookup_empty in Heq. simpl in Heq. lia.
  - rewrite msum_insert by done. rewrite (IH (delete k m')).
    + specialize (Heq k). rewrite lookup_insert_eq in Heq. simpl in Heq.
      destruct (m' !! k) as [y|] eqn:Hy; simpl in Heq.
      * rewrite (msum_delete f m' k y) by done. lia.
      * rewrite delete_id by done. lia.
    + intros k'. destruct (decide (k' = k)) as [->|Hne]; [by rewrite Hk, lookup_delete_eq|].
      rewrite lookup_delete_ne by done. specialize (Heq k'). by rewrite lookup_insert_ne in Heq.
Qed.

Lemma msum_pos {A} (f : A -> Z) m : 0 < msum f m -> exists k x, m !! k = Some x /\ 0 < f x.
Proof.
  induction m as [|k x m Hk IH] using map_ind; [by rewrite msum_empty|].
  rewrite msum_insert by done. intros Hp. destruct (decide (0 < f x)) as [|Hn].
  - exists k, x. by rewrite lookup_insert_eq.
  - destruct IH as (k' & y & Hk' & Hy); [lia|]. exists k', y. split; [|done].
    rewrite lookup_insert_ne; [done|]. congruence.
Qed.

(** ** Lemmas on memory of bytes *)

Lemma zero_bytes_lookup n : forall dst m x, zero_bytes n dst m !! x = if decide (dst <= x < dst + Z.of_nat n) then Some 0 else m !! x.
Proof.
  induction n as [|n IH]; intros dst m x; simpl; [by rewrite decide_False by lia|]. rewrite IH. repeat case_decide; try lia; try done.
  - replace x with dst by lia. apply lookup_insert_eq.
  - rewrite lookup_insert_ne by lia. done.
Qed.

Lemma copy_bytes_lookup n : forall dst src m x, dst + Z.of_nat n <= src \/ src + Z.of_nat n <= dst ->
  copy_bytes n dst src m !! x = if decide (dst <= x < dst + Z.of_nat n) then Some (default 0 (m !! (src + (x - dst)))) else m !! x.
Proof.
  induction n as [|n IH]; intros dst src m x Hd; simpl; [by rewrite decide_False by lia|]. rewrite IH by lia.
  destruct (decide (x = dst)) as [->|Hx].
  - rewrite decide_False, decide_True, lookup_insert_eq by lia. by replace (src + (dst - dst)) with src by lia.
  - repeat case_decide; try lia; rewrite lookup_insert_ne by lia; [|done]. do 3 f_equal. lia.
Qed.

