(* ===== verification/Pmm.v ===== *)
(** * The physical page allocator: kernel/pmm.c

    The page table of the allocator is the array [pages] in the metadata area;
    a [struct pmm_page *] is an index into it and [0] is [None].  The intrusive
    free list ([free_pages] and the [next] links) is the list of the indices
    the links visit, in order. *)
From stdpp Require Import gmap list.
From Stdlib Require Import ZArith Lia.
From S2P Require Import Prelude.
Open Scope Z_scope.
Open Scope machine_scope.

Definition PMM_PAGE_SIZE : Z := 4096.
(** [sizeof(struct pmm_page)] on the 64-bit targets. *)
Definition sizeof_pmm_page : Z := 24.

Record pmm_page := mk_page {
  page_addr : Z;
  page_is_free : bool;
  page_ref_count : Z;
}.

Record pmm_memory_range := mk_memory_range { range_base : Z; range_length : Z }.
Record pmm_reserved_range := mk_reserved_range { rsv_start : Z; rsv_end : Z }.

(** The static variables of pmm.c. *)
Record pmm := mk_pmm {
  pages : list pmm_page;
  free_pages : list nat;
  page_capacity : Z;
  total_pages : Z;
  free_pages_count : Z;
  metadata_start : Z;
  metadata_end : Z;
}.

Definition zero_page_entry : pmm_page := mk_page 0 false 0.
Definition pmm_zero : pmm := mk_pmm [] [] 0 0 0 0 0.

Definition set_pages (f : list pmm_page -> list pmm_page) (s : pmm) : pmm :=
  mk_pmm (f (pages s)) (free_pages s) (page_capacity s) (total_pages s)
         (free_pages_count s) (metadata_start s) (metadata_end s).
Definition set_free (l : list nat) (n : Z) (s : pmm) : pmm :=
  mk_pmm (pages s) l (page_capacity s) (total_pages s)
         n (metadata_start s) (metadata_end s).
Definition set_total (n : Z) (s : pmm) : pmm :=
  mk_pmm (pages s) (free_pages s) (page_capacity s) n
         (free_pages_count s) (metadata_start s) (metadata_end s).

(** ** Helpers *)

Definition ranges_overlap (a_start a_end b_start b_end : Z) : bool :=
  (a_start <? b_end) && (b_start <? a_end).

Definition mark_free (p : pmm_page) : pmm_page := mk_page (page_addr p) true 0.
Definition mark_used (r : Z) (p : pmm_page) : pmm_page := mk_page (page_addr p) false r.
Definition mark_reserved (p : pmm_page) : pmm_page :=
  mk_page (page_addr p) false (page_ref_count p).

Definition page_list_push (page : nat) (s : pmm) : pmm :=
  set_free (page :: free_pages s) (free_pages_count s +w 1)
    (set_pages (alter mark_free page) s).

(** The entries [find_page] and the contiguous search scan. *)
Definition live_pages (s : pmm) : list pmm_page :=
  take (Z.to_nat (total_pages s)) (pages s).

Definition find_page (addr : Z) (s : pmm) : option nat :=
  find_idx (fun p => page_addr p =? addr) (live_pages s).

Fixpoint page_list_remove (page : nat) (l : list nat) : list nat :=
  match l with
  | [] => []
  | q :: r => if Nat.eqb q page then r else q :: page_list_remove page r
  end.

(** ** Initialisation *)

Definition add_available_page (addr : Z) (s : pmm) : pmm :=
  if total_pages s <? page_capacity s then
    let i := Z.to_nat (total_pages s) in
    let s := set_pages (alter (fun p => mk_page addr false (page_ref_count p)) i) s in
    let s := page_list_push i s in
    set_total (total_pages s + 1) s
  else s.

Fixpoint import_pages (fuel : nat) (start stop : Z) (s : pmm) : pmm :=
  match fuel with
  | O => s
  | S fuel =>
      if start <? stop then
        import_pages fuel (start +w PMM_PAGE_SIZE) stop (add_available_page start s)
      else s
  end.

(** A usable range: not empty and not wrapping around the address space. *)
Definition range_ok (r : pmm_memory_range) : bool :=
  negb ((range_length r =? 0) || (range_base r +w range_length r <? range_base r)).
Definition range_first (r : pmm_memory_range) : Z := align_up (range_base r) PMM_PAGE_SIZE.
Definition range_last (r : pmm_memory_range) : Z :=
  align_down (range_base r +w range_length r) PMM_PAGE_SIZE.

(** The page loop runs at most once per page below [stop]. *)
Definition page_loop_fuel (start stop : Z) : nat :=
  Z.to_nat ((stop - start) / PMM_PAGE_SIZE + 1).

Definition import_available_range (r : pmm_memory_range) (s : pmm) : pmm :=
  if range_ok r then
    import_pages (page_loop_fuel (range_first r) (range_last r))
      (range_first r) (range_last r) s
  else s.

Definition count_available_pages (available : list pmm_memory_range) : Z :=
  fold_left (fun count r =>
    if range_ok r then
      if range_first r <? range_last r
      then count +w (range_last r - range_first r) / PMM_PAGE_SIZE
      else count
    else count) available 0.

Definition range_is_reserved_by_list (start stop : Z)
    (reserved : list pmm_reserved_range) : bool :=
  existsb (fun r => ranges_overlap start stop (rsv_start r) (rsv_end r)) reserved.

(** The inner [while] of [find_metadata_storage_from_ranges]. *)
Fixpoint find_storage_in_range (fuel : nat) (start stop bytes : Z)
    (reserved : list pmm_reserved_range) : option Z :=
  match fuel with
  | O => None
  | S fuel =>
      if (start <? stop) && (bytes <=? stop - start) then
        if negb (range_is_reserved_by_list start (start +w bytes) reserved)
        then Some start
        else find_storage_in_range fuel (start +w PMM_PAGE_SIZE) stop bytes reserved
      else None
  end.

Fixpoint find_metadata_storage_from_ranges (available : list pmm_memory_range)
    (reserved : list pmm_reserved_range) (page_count : Z) : option Z :=
  let bytes := align_up (page_count *w sizeof_pmm_page) PMM_PAGE_SIZE in
  match available with
  | [] => None
  | r :: rest =>
      match
        (if range_ok r then
           find_storage_in_range (page_loop_fuel (range_first r) (range_last r))
             (range_first r) (range_last r) bytes reserved
         else None)
      with
      | Some start => Some start
      | None => find_metadata_storage_from_ranges rest reserved page_count
      end
  end.

(** The loop of [reserve_range]: pop every free page, drop the ones that
    overlap, push the others on [new_free]. *)
Fixpoint reserve_loop (free new_free : list nat) (removed start stop : Z)
    (ps : list pmm_page) : list nat * Z * list pmm_page :=
  match free with
  | [] => (new_free, removed, ps)
  | i :: free =>
      let addr := match ps !! i with Some p => page_addr p | None => 0 end in
      if ranges_overlap addr (addr +w PMM_PAGE_SIZE) start stop then
        reserve_loop free new_free (removed +w 1) start stop (alter mark_reserved i ps)
      else reserve_loop free (i :: new_free) removed start stop ps
  end.

Definition reserve_range (start stop : Z) (s : pmm) : pmm :=
  let start := align_down start PMM_PAGE_SIZE in
  let stop := align_up stop PMM_PAGE_SIZE in
  let '(new_free, removed, ps) := reserve_loop (free_pages s) [] 0 start stop (pages s) in
  set_free new_free (free_pages_count s -w removed) (set_pages (fun _ => ps) s).

(** [None] is the [for (;;)] the code enters when no storage is found. *)
Definition pmm_init_from_ranges (available : list pmm_memory_range)
    (reserved : list pmm_reserved_range) : option pmm :=
  let detected_pages := count_available_pages available in
  let bytes := align_up (detected_pages *w sizeof_pmm_page) PMM_PAGE_SIZE in
  match find_metadata_storage_from_ranges available reserved detected_pages with
  | None => None
  | Some storage =>
      if (storage =? 0) || (storage +w bytes <=? storage) then None else
      let s := mk_pmm (replicate (Z.to_nat detected_pages) zero_page_entry) []
                 detected_pages 0 0 storage (storage +w bytes) in
      let s := fold_left (fun s r => import_available_range r s) available s in
      let s := fold_left (fun s r => reserve_range (rsv_start r) (rsv_end r) s) reserved s in
      Some (reserve_range (metadata_start s) (metadata_end s) s)
  end.

(** ** Allocation, retention and release *)

Definition pmm_page_alloc (s : pmm) : option nat * pmm :=
  match free_pages s with
  | [] => (None, s)
  | page :: rest =>
      (Some page,
       set_free rest (free_pages_count s -w 1) (set_pages (alter (mark_used 1) page) s))
  end.

(** [pages[i + j]] for [j = 0 .. count - 1] are free and consecutive. *)
Fixpoint run_usable (start : Z) (j : nat) (run : list pmm_page) : bool :=
  match run with
  | [] => true
  | p :: run =>
      page_is_free p && (page_addr p =? start +w (Z.of_nat j *w PMM_PAGE_SIZE)) &&
      run_usable start (S j) run
  end.

Definition run_start (i : nat) (s : pmm) : Z :=
  match pages s !! i with Some p => page_addr p | None => 0 end.

Fixpoint contiguous_scan (fuel i : nat) (count : Z) (s : pmm) : option nat :=
  match fuel with
  | O => None
  | S fuel =>
      if Z.of_nat i +w count <=? total_pages s then
        if run_usable (run_start i s) 0 (take (Z.to_nat count) (drop i (pages s)))
        then Some i
        else contiguous_scan fuel (S i) count s
      else None
  end.

(** Take [pages[i] .. pages[i + count - 1]] off the free list. *)
Fixpoint claim_run (i count : nat) (s : pmm) : pmm :=
  match count with
  | O => s
  | S count =>
      claim_run (S i) count
        (set_free (page_list_remove i (free_pages s)) (free_pages_count s)
          (set_pages (alter (mark_used 1) i) s))
  end.

Definition pmm_pages_alloc_contiguous (count : Z) (s : pmm) : Z * pmm :=
  if count =? 0 then (0, s) else
  match contiguous_scan (S (Z.to_nat (total_pages s))) 0 count s with
  | None => (0, s)
  | Some i =>
      let start := run_start i s in
      let s := claim_run i (Z.to_nat count) s in
      (start, set_free (free_pages s) (free_pages_count s -w count) s)
  end.

Definition pmm_page_retain_addr (addr : Z) (s : pmm) : Z * pmm :=
  match find_page addr s with
  | None => (-1, s)
  | Some i =>
      match pages s !! i with
      | None => (-1, s)
      | Some p =>
          if page_is_free p || (page_ref_count p =? 0) then (-1, s)
          else (0, set_pages (alter (mark_used (u32 (page_ref_count p + 1))) i) s)
      end
  end.

Definition pmm_page_free (page : option nat) (s : pmm) : pmm :=
  match page with
  | None => s
  | Some i =>
      match pages s !! i with
      | None => s
      | Some p =>
          if negb (bool_decide (find_page (page_addr p) s = Some i)) || page_is_free p
          then s
          else if 1 <? page_ref_count p
          then set_pages (alter (mark_used (page_ref_count p - 1)) i) s
          else page_list_push i s
      end
  end.

Definition pmm_page_free_addr (addr : Z) (s : pmm) : pmm :=
  pmm_page_free (find_page addr s) s.

Fixpoint free_contiguous_loop (n : nat) (i : Z) (addr : Z) (s : pmm) : pmm :=
  match n with
  | O => s
  | S n => free_contiguous_loop n (i + 1) addr
             (pmm_page_free_addr (addr +w (i *w PMM_PAGE_SIZE)) s)
  end.

Definition pmm_pages_free_contiguous (addr count : Z) (s : pmm) : pmm :=
  free_contiguous_loop (Z.to_nat count) 0 addr s.

Definition pmm_page_addr (page : option nat) (s : pmm) : Z :=
  match page with
  | Some i => match pages s !! i with Some p => page_addr p | None => 0 end
  | None => 0
  end.

Definition pmm_free_page_count (s : pmm) : Z := free_pages_count s.
Definition pmm_total_page_count (s : pmm) : Z := total_pages s.

(** ** The invariant *)

Record pmm_wf (s : pmm) : Prop := {
  wf_capacity : page_capacity s = Z.of_nat (length (pages s));
  wf_capacity_u64 : page_capacity s < 2 ^ 63;
  wf_total : 0 <= total_pages s <= page_capacity s;
  wf_nodup : NoDup (free_pages s);
  wf_free : forall i,
    i ∈ free_pages s <-> exists p, live_pages s !! i = Some p /\ page_is_free p = true;
  wf_count : free_pages_count s = Z.of_nat (length (free_pages s));
  wf_addrs : NoDup (page_addr <$> live_pages s);
  wf_refs : forall i p, live_pages s !! i = Some p ->
    in_u32 (page_ref_count p) /\ (page_is_free p = true -> page_ref_count p = 0);
}.

(** ** The abstract specification: a map from frames to their state *)

Inductive fstate := Free | Used (refs : Z).

Definition page_state (p : pmm_page) : fstate :=
  if page_is_free p then Free else Used (page_ref_count p).

Definition frames (s : pmm) : gmap Z fstate :=
  list_to_map ((fun p => (page_addr p, page_state p)) <$> live_pages s).

(** ** Lemmas *)

Lemma live_lookup s i p :
  live_pages s !! i = Some p <-> (i < Z.to_nat (total_pages s))%nat /\ pages s !! i = Some p.
Proof. unfold live_pages. rewrite lookup_take_Some. tauto. Qed.

Lemma live_set_pages f s i :
  live_pages (set_pages (alter f i) s) = alter f i (live_pages s).
Proof.
  unfold live_pages. simpl. apply list_eq. intros j.
  destruct (decide (j < Z.to_nat (total_pages s))%nat).
  - rewrite lookup_take_lt by done.
    destruct (decide (i = j)) as [->|].
    + rewrite !list_lookup_alter_eq. by rewrite lookup_take_lt.
    + rewrite !list_lookup_alter_ne by done. by rewrite lookup_take_lt.
  - rewrite lookup_take_ge by lia.
    symmetry. apply lookup_ge_None. rewrite length_alter, length_take. lia.
Qed.

Lemma live_set_free l n s : live_pages (set_free l n s) = live_pages s.
Proof. done. Qed.

Lemma find_page_Some s a i :
  pmm_wf s ->
  find_page a s = Some i <-> exists p, live_pages s !! i = Some p /\ page_addr p = a.
Proof.
  intros Hwf. unfold find_page. split.
  - intros (p & Hp & Ha)%find_idx_lookup. bool_facts. eauto.
  - intros (p & Hp & Ha). apply find_idx_Some. split.
    { exists p. split; [done|]. by apply Z.eqb_eq. }
    intros j q Hj Hq. apply Z.eqb_neq. intros Heq.
    assert (j = i); [|lia].
    eapply (NoDup_lookup (page_addr <$> live_pages s)); [apply Hwf| |];
      rewrite list_lookup_fmap; [rewrite Hq|rewrite Hp]; simpl; [done|congruence].
Qed.

Lemma frames_lookup s a st :
  pmm_wf s ->
  frames s !! a = Some st <->
  exists i p, live_pages s !! i = Some p /\ page_addr p = a /\ page_state p = st.
Proof.
  intros Hwf. unfold frames.
  rewrite <- elem_of_list_to_map.
  - rewrite list_elem_of_fmap. split.
    + intros (p & [= -> ->] & (i & Hi)%list_elem_of_lookup). eauto.
    + intros (i & p & Hi & <- & <-). exists p. split; [done|].
      apply list_elem_of_lookup. eauto.
  - rewrite <- list_fmap_compose. apply Hwf.
Qed.

Lemma frames_find s a st :
  pmm_wf s ->
  frames s !! a = Some st <->
  exists i p, find_page a s = Some i /\ pages s !! i = Some p /\ page_state p = st.
Proof.
  intros Hwf. rewrite frames_lookup by done. split.
  - intros (i & p & Hp & Ha & Hst). exists i, p. split; [|split; [|done]].
    + apply find_page_Some; eauto.
    + by apply live_lookup in Hp as [_ ?].
  - intros (i & p & Hf & Hp & Hst).
    apply find_page_Some in Hf as (q & Hq & Ha); [|done].
    exists i, q. split; [done|]. apply live_lookup in Hq as [_ Hq].
    simplify_eq. done.
Qed.

(** One page entry changes, and the free list with it. *)
Lemma wf_update s i p f l :
  pmm_wf s -> live_pages s !! i = Some p ->
  page_addr (f p) = page_addr p ->
  in_u32 (page_ref_count (f p)) ->
  (page_is_free (f p) = true -> page_ref_count (f p) = 0) ->
  NoDup l ->
  (forall j, j ∈ l <-> (j = i /\ page_is_free (f p) = true) \/ (j <> i /\ j ∈ free_pages s)) ->
  pmm_wf (set_free l (Z.of_nat (length l)) (set_pages (alter f i) s)).
Proof.
  intros Hwf Hp Ha Hr Hz Hnd Hl.
  assert (forall j q, alter f i (live_pages s) !! j = Some q <->
    (j = i /\ q = f p) \/ (j <> i /\ live_pages s !! j = Some q)) as Hlk.
  { intros j q. destruct (decide (j = i)) as [->|Hne].
    - rewrite list_lookup_alter_eq, Hp. simpl. naive_solver.
    - rewrite list_lookup_alter_ne by done. naive_solver. }
  constructor; simpl; try rewrite live_set_free; try rewrite live_set_pages.
  - rewrite length_alter. apply Hwf.
  - apply Hwf.
  - apply Hwf.
  - done.
  - intros j. rewrite Hl, (wf_free s Hwf). setoid_rewrite Hlk. naive_solver.
  - done.
  - assert (page_addr <$> alter f i (live_pages s) = page_addr <$> live_pages s) as ->;
      [|apply Hwf].
    apply list_eq. intros j. rewrite !list_lookup_fmap.
    destruct (decide (j = i)) as [->|Hne].
    + rewrite list_lookup_alter_eq, Hp. simpl. by rewrite Ha.
    + by rewrite list_lookup_alter_ne.
  - intros j q [[-> ->]|[_ Hq]]%Hlk; [done|]. by eapply (wf_refs s Hwf).
Qed.

Lemma frames_update s i p f l n :
  pmm_wf s -> live_pages s !! i = Some p ->
  page_addr (f p) = page_addr p ->
  frames (set_free l n (set_pages (alter f i) s)) =
  <[page_addr p := page_state (f p)]> (frames s).
Proof.
  intros Hwf Hp Ha. unfold frames. rewrite live_set_free, live_set_pages.
  pose proof (wf_addrs s Hwf) as Hnd. revert i Hp Hnd.
  generalize (live_pages s) as ps.
  induction ps as [|q ps IH]; intros i Hp Hnd; [by rewrite lookup_nil in Hp|].
  apply NoDup_cons in Hnd as [Hq Hnd].
  destruct i as [|i].
  - simpl in *. simplify_eq. rewrite Ha. by rewrite insert_insert_eq.
  - change (alter f (S i) (q :: ps)) with (q :: alter f i ps).
    rewrite !fmap_cons, !list_to_map_cons, (IH i Hp Hnd). apply insert_insert_ne.
    intros Heq. apply Hq. rewrite Heq.
    apply list_elem_of_fmap. exists p. split; [done|].
    apply list_elem_of_lookup. eauto.
Qed.

Lemma page_list_remove_elem i l j :
  NoDup l -> j ∈ page_list_remove i l <-> j <> i /\ j ∈ l.
Proof.
  induction l as [|q l IH]; simpl; intros Hnd; [set_solver|].
  apply NoDup_cons in Hnd as [Hq Hnd].
  destruct (Nat.eqb_spec q i) as [->|Hne]; [set_solver|].
  rewrite !elem_of_cons, IH by done. naive_solver.
Qed.

Lemma page_list_remove_nodup i l : NoDup l -> NoDup (page_list_remove i l).
Proof.
  induction l as [|q l IH]; simpl; intros Hnd; [done|].
  pose proof Hnd as [Hq Hnd']%NoDup_cons.
  destruct (Nat.eqb_spec q i); [done|].
  apply NoDup_cons. split; [|by apply IH].
  rewrite page_list_remove_elem by done. naive_solver.
Qed.

Lemma page_list_remove_length i l :
  i ∈ l -> length l = S (length (page_list_remove i l)).
Proof.
  induction l as [|q l IH]; simpl; [by intros ?%elem_of_nil|].
  destruct (Nat.eqb_spec q i) as [->|Hne]; [done|].
  intros [->|Hi]%elem_of_cons; [done|]. simpl. by rewrite <- IH.
Qed.

Lemma free_live s i :
  pmm_wf s -> i ∈ free_pages s ->
  exists p, live_pages s !! i = Some p /\ page_is_free p = true /\ page_ref_count p = 0.
Proof.
  intros Hwf (p & Hp & Hf)%(wf_free s Hwf). exists p. split; [done|split; [done|]].
  by eapply (wf_refs s Hwf).
Qed.

Lemma free_length s :
  pmm_wf s -> (length (free_pages s) <= length (pages s))%nat.
Proof.
  intros Hwf. rewrite <- (length_seq (length (pages s)) 0).
  apply submseteq_length, NoDup_submseteq; [apply Hwf|].
  intros i (p & Hp & _)%free_live; [|done].
  apply live_lookup in Hp as [_ Hp]. apply elem_of_seq.
  apply lookup_lt_Some in Hp. lia.
Qed.

Lemma free_count_u64 s : pmm_wf s -> in_u64 (free_pages_count s).
Proof.
  intros Hwf. pose proof (free_length s Hwf). unfold in_u64.
  rewrite (wf_count s Hwf). pose proof (wf_capacity s Hwf).
  pose proof (wf_capacity_u64 s Hwf). lia.
Qed.

(** Used pages may change their reference count. *)
Lemma wf_set_refs s i p r :
  pmm_wf s -> live_pages s !! i = Some p -> page_is_free p = false -> in_u32 r ->
  pmm_wf (set_pages (alter (mark_used r) i) s).
Proof.
  intros Hwf Hp Hf Hr.
  pose proof (wf_update s i p (mark_used r) (free_pages s) Hwf Hp) as H.
  rewrite <- (wf_count s Hwf) in H. apply H; try done; [apply Hwf|].
  intros j. simpl. split; [|naive_solver].
  intros Hj. right. split; [|done]. intros ->.
  apply free_live in Hj as (q & Hq & ? & _); [|done]. congruence.
Qed.

Lemma wf_push s i p :
  pmm_wf s -> live_pages s !! i = Some p -> page_is_free p = false ->
  pmm_wf (page_list_push i s).
Proof.
  intros Hwf Hp Hf. unfold page_list_push.
  assert (i ∉ free_pages s) as Hi.
  { intros (q & Hq & ? & _)%free_live; [|done]. congruence. }
  assert (free_pages_count s +w 1 = Z.of_nat (length (i :: free_pages s))) as ->.
  { rewrite (wf_count s Hwf). simpl. rewrite u64_small; [lia|].
    assert (length (i :: free_pages s) <= length (pages s))%nat.
    { rewrite <- (length_seq (length (pages s)) 0).
      apply submseteq_length, NoDup_submseteq.
      - apply NoDup_cons. split; [done|apply Hwf].
      - intros j [->|Hj]%elem_of_cons; apply elem_of_seq.
        + apply live_lookup in Hp as [_ Hp%lookup_lt_Some]. lia.
        + apply free_live in Hj as (q & Hq & _); [|done].
          apply live_lookup in Hq as [_ Hq%lookup_lt_Some]. lia. }
    pose proof (wf_capacity s Hwf). pose proof (wf_capacity_u64 s Hwf).
    simpl in *. unfold in_u64. lia. }
  eapply wf_update; try done.
  - apply NoDup_cons. split; [done|apply Hwf].
  - intros j. rewrite elem_of_cons. simpl. split; [|naive_solver].
    intros [->|Hj]; [naive_solver|]. right. split; [|done]. by intros ->.
Qed.

(** Taking one page off the free list, wherever it is. *)
Definition claim_page (i : nat) (s : pmm) : pmm :=
  set_free (page_list_remove i (free_pages s)) (free_pages_count s -w 1)
    (set_pages (alter (mark_used 1) i) s).

Lemma wf_claim s i :
  pmm_wf s -> i ∈ free_pages s -> pmm_wf (claim_page i s).
Proof.
  intros Hwf Hi. destruct (free_live s i Hwf Hi) as (p & Hp & Hf & _).
  unfold claim_page.
  assert (free_pages_count s -w 1 =
          Z.of_nat (length (page_list_remove i (free_pages s)))) as ->.
  { pose proof (free_count_u64 s Hwf). rewrite (wf_count s Hwf) in *.
    rewrite (page_list_remove_length i) in * by done.
    rewrite u64_small; [lia|]. unfold in_u64 in *. lia. }
  eapply wf_update; try done.
  - apply page_list_remove_nodup, Hwf.
  - intros j. rewrite page_list_remove_elem by apply Hwf. simpl. naive_solver.
Qed.

Lemma frames_claim s i p :
  pmm_wf s -> live_pages s !! i = Some p ->
  frames (claim_page i s) = <[page_addr p := Used 1]> (frames s).
Proof. intros Hwf Hp. unfold claim_page. by rewrite (frames_update s i p). Qed.

Lemma page_alloc_claim s i rest :
  free_pages s = i :: rest -> (pmm_page_alloc s) = (Some i, claim_page i s).
Proof.
  intros Hs. unfold pmm_page_alloc, claim_page. rewrite Hs. simpl.
  by rewrite Nat.eqb_refl.
Qed.

(** Claiming a run page by page, each with its own decrement of the count. *)
Fixpoint claim_pages (i n : nat) (s : pmm) : pmm :=
  match n with O => s | S n => claim_pages (S i) n (claim_page i s) end.

Lemma claim_run_set_free n i c s :
  claim_run i n (set_free (free_pages s) c s) =
  set_free (free_pages (claim_run i n s)) c (claim_run i n s).
Proof.
  revert i s. induction n as [|n IH]; intros i s; simpl; [done|].
  rewrite <- IH. done.
Qed.

Lemma claim_run_pages n i s :
  in_u64 (free_pages_count s) ->
  set_free (free_pages (claim_run i n s)) (free_pages_count s -w Z.of_nat n)
    (claim_run i n s) = claim_pages i n s.
Proof.
  revert i s. induction n as [|n IH]; intros i s Hc.
  - simpl. rewrite Z.sub_0_r, u64_small by done. by destruct s.
  - simpl claim_pages. rewrite <- IH by apply u64_range. simpl.
    set (t := set_free _ (free_pages_count s) _).
    assert (claim_page i s = set_free (free_pages t) (free_pages_count s -w 1) t) as -> by done.
    rewrite claim_run_set_free.
    replace (free_pages_count (set_free (free_pages t) (free_pages_count s -w 1) t))
      with (free_pages_count s -w 1) by done.
    replace (free_pages_count s -w 1 -w Z.of_nat n)
      with (free_pages_count s -w Z.of_nat (S n)); [done|].
    unfold u64. rewrite Zminus_mod_idemp_l. f_equal. lia.
Qed.

Lemma claim_page_free s i j : pmm_wf s -> j ∈ free_pages (claim_page i s) <-> j <> i /\ j ∈ free_pages s.
Proof. intros Hwf. apply page_list_remove_elem, Hwf. Qed.

Lemma wf_claim_pages n i s :
  pmm_wf s -> (forall j, (i <= j < i + n)%nat -> j ∈ free_pages s) ->
  pmm_wf (claim_pages i n s).
Proof.
  revert i s. induction n as [|n IH]; intros i s Hwf Hfree; simpl; [done|].
  apply IH.
  - apply wf_claim; [done|]. apply Hfree. lia.
  - intros j Hj. apply claim_page_free; [done|]. split; [lia|]. apply Hfree. lia.
Qed.

(** The frames of a run of [n] pages at [addr]. *)
Fixpoint use_run (n : nat) (i : Z) (addr : Z) (m : gmap Z fstate) : gmap Z fstate :=
  match n with
  | O => m
  | S n => use_run n (i + 1) addr (<[addr +w (i *w PMM_PAGE_SIZE) := Used 1]> m)
  end.

Lemma frames_claim_pages n i k addr s :
  pmm_wf s -> (forall j, (i <= j < i + n)%nat -> j ∈ free_pages s) ->
  (forall j, (j < n)%nat -> exists p, live_pages s !! (i + j)%nat = Some p /\
     page_addr p = addr +w ((k + Z.of_nat j) *w PMM_PAGE_SIZE)) ->
  frames (claim_pages i n s) = use_run n k addr (frames s).
Proof.
  revert i k s. induction n as [|n IH]; intros i k s Hwf Hfree Haddr; simpl; [done|].
  destruct (Haddr 0%nat ltac:(lia)) as (p & Hp & Hpa).
  rewrite Nat.add_0_r in Hp. rewrite Z.add_0_r in Hpa.
  rewrite (IH (S i) (k + 1)).
  - rewrite (frames_claim s i p) by done. by rewrite Hpa.
  - apply wf_claim; [done|]. apply Hfree. lia.
  - intros j Hj. apply claim_page_free; [done|]. split; [lia|]. apply Hfree. lia.
  - intros j Hj. destruct (Haddr (S j) ltac:(lia)) as (q & Hq & Hqa).
    exists q. split.
    + unfold claim_page. rewrite live_set_free, live_set_pages.
      rewrite list_lookup_alter_ne by lia. rewrite <- Hq. f_equal. lia.
    + rewrite Hqa. f_equal. f_equal. f_equal. lia.
Qed.

Lemma run_usable_spec start j run :
  run_usable start j run = true <->
  forall k p, run !! k = Some p -> page_is_free p = true /\
    page_addr p = start +w (Z.of_nat (j + k) *w PMM_PAGE_SIZE).
Proof.
  revert j. induction run as [|q run IH]; intros j; simpl.
  - split; [|done]. intros _ k p Hk. by rewrite lookup_nil in Hk.
  - rewrite !andb_true_iff, IH, Z.eqb_eq. split.
    + intros [[Hf Ha] Hr] [|k] p Hk; simpl in Hk.
      * simplify_eq. by rewrite Nat.add_0_r.
      * rewrite <- Nat.add_succ_comm. by apply Hr.
    + intros H. split.
      * destruct (H 0%nat q eq_refl) as [? Ha]. by rewrite Nat.add_0_r in Ha.
      * intros k p Hk. rewrite Nat.add_succ_comm. by apply (H (S k)).
Qed.

(** The address the search expects of the [j]th entry of a run. *)
Lemma run_addr start j :
  start +w (Z.of_nat (0 + j) *w PMM_PAGE_SIZE) = (start + Z.of_nat j * 4096) mod 2 ^ 64.
Proof.
  unfold u64, PMM_PAGE_SIZE. simpl (0 + j)%nat. by rewrite Zplus_mod_idemp_r.
Qed.

(** What the search tests at index [i]. *)
Definition usable_at (i : nat) (count : Z) (s : pmm) : bool :=
  run_usable (run_start i s) 0 (take (Z.to_nat count) (drop i (pages s))).

Lemma contiguous_scan_spec fuel i count s :
  pmm_wf s -> 0 < count <= total_pages s ->
  (i <= S (Z.to_nat (total_pages s)))%nat ->
  (Z.to_nat (total_pages s) < i + fuel)%nat ->
  match contiguous_scan fuel i count s with
  | Some k => (i <= k)%nat /\ Z.of_nat k + count <= total_pages s /\
      usable_at k count s = true /\
      forall j, (i <= j < k)%nat -> usable_at j count s = false
  | None => forall j, (i <= j)%nat -> Z.of_nat j + count <= total_pages s ->
      usable_at j count s = false
  end.
Proof.
  intros Hwf Hc. pose proof (wf_total s Hwf). pose proof (wf_capacity_u64 s Hwf).
  revert i. induction fuel as [|fuel IH]; intros i Hi Hfuel; simpl; [lia|].
  rewrite u64_small by (unfold in_u64; lia).
  fold (usable_at i count s).
  case_if; [|intros j Hj ?; lia].
  destruct (usable_at i count s) eqn:Hu.
  { repeat split; [lia|lia|done|]. intros j Hj. lia. }
  specialize (IH (S i) ltac:(lia) ltac:(lia)).
  destruct (contiguous_scan fuel (S i) count s) as [k|].
  - destruct IH as (? & ? & ? & Hmin). repeat split; [lia|lia|done|].
    intros j Hj. destruct (decide (j = i)) as [->|]; [done|]. apply Hmin. lia.
  - intros j Hj ?. destruct (decide (j = i)) as [->|]; [done|]. apply IH; lia.
Qed.

(** The entries [i], .., [i + count - 1] are free frames at consecutive
    addresses (modulo the 64 bits of an address). *)
Definition free_run (i : nat) (count : Z) (s : pmm) : Prop :=
  forall j, 0 <= j < count -> exists p, live_pages s !! (i + Z.to_nat j)%nat = Some p /\
    page_is_free p = true /\ page_addr p = (run_start i s + j * 4096) mod 2 ^ 64.

Lemma usable_free_run i count s :
  pmm_wf s -> 0 < count -> Z.of_nat i + count <= total_pages s ->
  usable_at i count s = true <-> free_run i count s.
Proof.
  intros Hwf Hc Ht. unfold usable_at. rewrite run_usable_spec.
  pose proof (wf_total s Hwf). pose proof (wf_capacity s Hwf).
  split.
  - intros Hu j Hj.
    assert (exists p, pages s !! (i + Z.to_nat j)%nat = Some p) as [p Hp] by (apply lookup_lt_is_Some; lia).
    exists p. split; [apply live_lookup; split; [lia|done]|].
    destruct (Hu (Z.to_nat j) p) as [Hf Ha]; [rewrite lookup_take_lt, lookup_drop by lia; done|].
    split; [done|]. rewrite Ha, run_addr. do 2 f_equal. lia.
  - intros Hr k p Hk. apply lookup_take_Some in Hk as [Hk Hlt]. rewrite lookup_drop in Hk.
    destruct (Hr (Z.of_nat k)) as (q & Hq & Hf & Ha); [lia|].
    rewrite Nat2Z.id, live_lookup, Hk in Hq. destruct Hq as [_ [= <-]]. split; [done|].
    rewrite Ha, run_addr. done.
Qed.

Lemma contiguous_scan_large count s :
  total_pages s < count < 2 ^ 64 ->
  0 <= total_pages s ->
  contiguous_scan (S (Z.to_nat (total_pages s))) 0 count s = None.
Proof.
  intros Hc Ht. simpl. rewrite u64_small by (unfold in_u64; lia).
  case_if; [lia|done].
Qed.

Lemma usable_pages i count s j :
  pmm_wf s -> usable_at i count s = true -> 0 < count ->
  Z.of_nat i + count <= total_pages s -> (j < Z.to_nat count)%nat ->
  (i + j)%nat ∈ free_pages s /\
  exists p, live_pages s !! (i + j)%nat = Some p /\
    page_addr p = run_start i s +w (Z.of_nat j *w PMM_PAGE_SIZE).
Proof.
  intros Hwf Hu Hc Ht Hj.
  assert (exists p, pages s !! (i + j)%nat = Some p) as [p Hp].
  { apply lookup_lt_is_Some. pose proof (wf_total s Hwf).
    pose proof (wf_capacity s Hwf). lia. }
  assert (live_pages s !! (i + j)%nat = Some p) as Hl.
  { apply live_lookup. split; [lia|done]. }
  unfold usable_at in Hu. rewrite run_usable_spec in Hu.
  destruct (Hu j p) as [Hf Ha].
  { rewrite lookup_take_lt, lookup_drop by lia. done. }
  split; [|by exists p]. apply (wf_free s Hwf). eauto.
Qed.

(** ** Operations and their abstract counterparts *)

Inductive pmm_op :=
  | PageAlloc
  | AllocContiguous (count : Z)
  | RetainAddr (addr : Z)
  | FreeAddr (addr : Z)
  | FreeContiguous (addr count : Z).

(** What the caller sees: the page's address ([None] is the null pointer), an
    address, a status, or nothing. *)
Inductive pmm_result :=
  | RPage (page : option Z)
  | RAddr (addr : Z)
  | RStatus (status : Z)
  | RVoid.

Definition pmm_exec (op : pmm_op) (s : pmm) : pmm_result * pmm :=
  match op with
  | PageAlloc =>
      let '(p, s') := pmm_page_alloc s in
      (RPage (match p with Some i => Some (pmm_page_addr (Some i) s') | None => None end), s')
  | AllocContiguous count =>
      let '(a, s') := pmm_pages_alloc_contiguous count s in (RAddr a, s')
  | RetainAddr a => let '(z, s') := pmm_page_retain_addr a s in (RStatus z, s')
  | FreeAddr a => (RVoid, pmm_page_free_addr a s)
  | FreeContiguous a count => (RVoid, pmm_pages_free_contiguous a count s)
  end.

Definition release_frame (a : Z) (m : gmap Z fstate) : gmap Z fstate :=
  match m !! a with
  | Some (Used n) => if 1 <? n then <[a := Used (n - 1)]> m else <[a := Free]> m
  | _ => m
  end.

Fixpoint release_run (n : nat) (i addr : Z) (m : gmap Z fstate) : gmap Z fstate :=
  match n with
  | O => m
  | S n => release_run n (i + 1) addr (release_frame (addr +w (i *w PMM_PAGE_SIZE)) m)
  end.

(** The specification: what each operation may do to the map of frames. *)
Inductive frame_step (m : gmap Z fstate) : pmm_op -> pmm_result -> gmap Z fstate -> Prop :=
  | step_alloc a :
      m !! a = Some Free ->
      frame_step m PageAlloc (RPage (Some a)) (<[a := Used 1]> m)
  | step_alloc_none :
      (forall a, m !! a <> Some Free) ->
      frame_step m PageAlloc (RPage None) m
  | step_contiguous count a :
      0 < count ->
      (forall j, 0 <= j < count -> m !! (a +w (j *w PMM_PAGE_SIZE)) = Some Free) ->
      frame_step m (AllocContiguous count) (RAddr a) (use_run (Z.to_nat count) 0 a m)
  | step_contiguous_none count :
      frame_step m (AllocContiguous count) (RAddr 0) m
  | step_retain a n :
      m !! a = Some (Used n) -> n <> 0 ->
      frame_step m (RetainAddr a) (RStatus 0) (<[a := Used (u32 (n + 1))]> m)
  | step_retain_fail a :
      (forall n, m !! a = Some (Used n) -> n = 0) ->
      frame_step m (RetainAddr a) (RStatus (-1)) m
  | step_free a : frame_step m (FreeAddr a) RVoid (release_frame a m)
  | step_free_run a count :
      frame_step m (FreeContiguous a count) RVoid (release_run (Z.to_nat count) 0 a m).

Lemma page_state_free p : page_state p = Free <-> page_is_free p = true.
Proof. unfold page_state. by destruct (page_is_free p). Qed.

Lemma free_addr_refines a s :
  pmm_wf s ->
  pmm_wf (pmm_page_free_addr a s) /\
  frames (pmm_page_free_addr a s) = release_frame a (frames s).
Proof.
  intros Hwf. unfold pmm_page_free_addr, pmm_page_free, release_frame.
  destruct (find_page a s) as [i|] eqn:Hfind.
  2: { assert (frames s !! a = None) as ->; [|done].
       apply eq_None_ne_Some. intros st (i & p & Hf & _)%frames_find; congruence. }
  pose proof Hfind as (p & Hp & Ha)%find_page_Some; [|done].
  pose proof Hp as [_ Hp']%live_lookup. rewrite Hp', Ha.
  rewrite bool_decide_eq_true_2 by done. simpl.
  assert (frames s !! a = Some (page_state p)) as Hfr.
  { apply frames_find; eauto. }
  rewrite Hfr. unfold page_state. destruct (page_is_free p) eqn:Hfree; [done|].
  destruct (wf_refs s Hwf i p Hp) as [Hr _]. unfold in_u32 in Hr.
  case_if; rewrite <- Ha.
  - split; [by eapply wf_set_refs; try done; unfold in_u32; lia|].
    apply (frames_update s i p (mark_used (page_ref_count p - 1))
             (free_pages s) (free_pages_count s)); done.
  - split; [by eapply wf_push|].
    apply (frames_update s i p mark_free); done.
Qed.

Lemma free_run_refines n i a s :
  pmm_wf s ->
  pmm_wf (free_contiguous_loop n i a s) /\
  frames (free_contiguous_loop n i a s) = release_run n i a (frames s).
Proof.
  revert i s. induction n as [|n IH]; intros i s Hwf; simpl; [done|].
  destruct (free_addr_refines (a +w (i *w PMM_PAGE_SIZE)) s Hwf) as [Hwf' <-].
  by apply IH.
Qed.

Lemma claim_run_count n i s : free_pages_count (claim_run i n s) = free_pages_count s.
Proof.
  revert i s. induction n as [|n IH]; intros i s; simpl; [done|]. by rewrite IH.
Qed.

Lemma contiguous_claims count s i :
  pmm_wf s -> 0 < count ->
  contiguous_scan (S (Z.to_nat (total_pages s))) 0 count s = Some i ->
  pmm_pages_alloc_contiguous count s =
  (run_start i s, claim_pages i (Z.to_nat count) s).
Proof.
  intros Hwf Hc Hscan. unfold pmm_pages_alloc_contiguous.
  rewrite (proj2 (Z.eqb_neq _ _)), Hscan by lia.
  rewrite <- claim_run_pages by (by apply free_count_u64).
  by rewrite Z2Nat.id, claim_run_count by lia.
Qed.

Lemma claim_pages_free n i s :
  pmm_wf s -> (forall j, (i <= j < i + n)%nat -> j ∈ free_pages s) ->
  forall j, j ∈ free_pages (claim_pages i n s) <->
    j ∈ free_pages s /\ ~ (i <= j < i + n)%nat.
Proof.
  revert i s. induction n as [|n IH]; intros i s Hwf Hfree j; simpl.
  { split; [intros; split; [done|lia]|tauto]. }
  rewrite IH.
  - rewrite claim_page_free by done. split; intros []; repeat split; try done; try lia; tauto.
  - apply wf_claim; [done|]. apply Hfree. lia.
  - intros k Hk. apply claim_page_free; [done|]. split; [lia|]. apply Hfree. lia.
Qed.

Lemma claim_pages_count n i s :
  pmm_wf s -> (forall j, (i <= j < i + n)%nat -> j ∈ free_pages s) ->
  free_pages_count (claim_pages i n s) = free_pages_count s - Z.of_nat n.
Proof.
  revert i s. induction n as [|n IH]; intros i s Hwf Hfree; simpl claim_pages; [lia|].
  assert (i ∈ free_pages s) as Hi by (apply Hfree; lia).
  rewrite IH.
  - rewrite (wf_count _ (wf_claim s i Hwf Hi)), (wf_count s Hwf). simpl.
    rewrite (page_list_remove_length i (free_pages s)) by done. lia.
  - by apply wf_claim.
  - intros k Hk. apply claim_page_free; [done|]. split; [lia|]. apply Hfree. lia.
Qed.

Lemma usable_run i count s :
  pmm_wf s -> usable_at i count s = true -> 0 < count ->
  Z.of_nat i + count <= total_pages s ->
  forall j, (i <= j < i + Z.to_nat count)%nat -> j ∈ free_pages s.
Proof.
  intros Hwf Hu Hc Ht j Hj. replace j with (i + (j - i))%nat by lia.
  apply (usable_pages i count s); done || lia.
Qed.

Lemma contiguous_result count s :
  pmm_wf s -> in_u64 count -> 0 < count ->
  match contiguous_scan (S (Z.to_nat (total_pages s))) 0 count s with
  | Some k => Z.of_nat k + count <= total_pages s /\ usable_at k count s = true /\
      forall j, (j < k)%nat -> usable_at j count s = false
  | None => forall j, Z.of_nat j + count <= total_pages s -> usable_at j count s = false
  end.
Proof.
  intros Hwf Hc H0. pose proof (wf_total s Hwf).
  destruct (decide (count <= total_pages s)).
  - pose proof (contiguous_scan_spec (S (Z.to_nat (total_pages s))) 0 count s Hwf
      ltac:(lia) ltac:(lia) ltac:(lia)) as Hscan.
    destruct (contiguous_scan _ _ _ _) as [k|].
    + destruct Hscan as (_ & ? & ? & Hmin). repeat split; try done.
      intros j Hj. apply Hmin. lia.
    + intros j Hj. apply Hscan; lia.
  - rewrite contiguous_scan_large by (unfold in_u64 in Hc; lia). intros. lia.
Qed.

Lemma contiguous_refines count s :
  pmm_wf s -> in_u64 count ->
  let '(a, s') := pmm_pages_alloc_contiguous count s in
  pmm_wf s' /\ frame_step (frames s) (AllocContiguous count) (RAddr a) (frames s').
Proof.
  intros Hwf Hc. destruct (decide (count = 0)) as [->|H0].
  { split; [done|apply step_contiguous_none]. }
  unfold in_u64 in Hc. pose proof (contiguous_result count s Hwf Hc ltac:(lia)) as Hr.
  destruct (contiguous_scan (S (Z.to_nat (total_pages s))) 0 count s) as [i|] eqn:Hscan.
  2: { unfold pmm_pages_alloc_contiguous. rewrite (proj2 (Z.eqb_neq _ _)), Hscan by lia.
       split; [done|apply step_contiguous_none]. }
  destruct Hr as (Hi & Hu & _). rewrite (contiguous_claims count s i) by (done || lia).
  pose proof (usable_run i count s Hwf Hu ltac:(lia) Hi) as Hfree.
  pose proof (fun j => usable_pages i count s j Hwf Hu ltac:(lia) Hi) as Hpg.
  split; [by apply wf_claim_pages|].
  rewrite (frames_claim_pages _ i 0 (run_start i s)); [|done|done|].
  - apply step_contiguous; [lia|]. intros j Hj. apply frames_lookup; [done|].
    destruct (Hpg (Z.to_nat j) ltac:(lia)) as (Hin & p & Hp & Ha).
    exists (i + Z.to_nat j)%nat, p. rewrite Z2Nat.id in Ha by lia.
    repeat split; [done|done|]. apply page_state_free.
    apply free_live in Hin as (q & Hq & ? & _); [|done]. congruence.
  - intros j Hj. destruct (Hpg j Hj) as (_ & p & Hp & Ha).
    exists p. split; [done|]. by rewrite Z.add_0_l.
Qed.

Definition op_in_range (op : pmm_op) : Prop :=
  match op with AllocContiguous count => in_u64 count | _ => True end.

Lemma page_alloc_refines s :
  pmm_wf s ->
  let '(r, s') := pmm_exec PageAlloc s in
  pmm_wf s' /\ frame_step (frames s) PageAlloc r (frames s').
Proof.
  intros Hwf. simpl. destruct (free_pages s) as [|i rest] eqn:Hfree.
  - unfold pmm_page_alloc. rewrite Hfree. split; [done|]. apply step_alloc_none.
    intros a (i & p & Hp & _ & Hst)%frames_lookup; [|done].
    apply page_state_free in Hst.
    assert (i ∈ free_pages s) as Hi by (apply (wf_free s Hwf); eauto).
    rewrite Hfree in Hi. by apply elem_of_nil in Hi.
  - rewrite (page_alloc_claim s i rest Hfree). simpl.
    assert (i ∈ free_pages s) as Hi by (rewrite Hfree; left).
    destruct (free_live s i Hwf Hi) as (p & Hp & Hf & _).
    split; [by apply wf_claim|]. rewrite (frames_claim s i p) by done.
    pose proof Hp as [_ Hp']%live_lookup.
    rewrite list_lookup_alter_eq, Hp'. simpl.
    apply step_alloc. apply frames_lookup; [done|]. exists i, p.
    repeat split; [done|]. by apply page_state_free.
Qed.

Lemma retain_refines a s :
  pmm_wf s ->
  let '(r, s') := pmm_exec (RetainAddr a) s in
  pmm_wf s' /\ frame_step (frames s) (RetainAddr a) r (frames s').
Proof.
  intros Hwf. simpl. unfold pmm_page_retain_addr.
  destruct (find_page a s) as [i|] eqn:Hfind.
  2: { split; [done|]. apply step_retain_fail.
       intros n (i & p & Hf & _)%frames_find; congruence. }
  pose proof Hfind as (p & Hp & Ha)%find_page_Some; [|done].
  pose proof Hp as [_ Hp']%live_lookup. rewrite Hp'.
  assert (frames s !! a = Some (page_state p)) as Hfr by (apply frames_find; eauto).
  unfold page_state in Hfr. destruct (page_is_free p) eqn:Hfree; simpl.
  { split; [done|]. apply step_retain_fail. congruence. }
  case_if.
  { split; [done|]. apply step_retain_fail. congruence. }
  split; [by eapply wf_set_refs; eauto with bunix|].
  pose proof (frames_update s i p (mark_used (u32 (page_ref_count p + 1)))
                (free_pages s) (free_pages_count s) Hwf Hp eq_refl) as Hu.
  change (set_free (free_pages s) (free_pages_count s) ?x) with x in Hu.
  rewrite Hu, Ha. by apply step_retain.
Qed.

(** ** Initialisation *)

(** The frames of a memory range, in the order they are imported. *)
Definition range_pages (r : pmm_memory_range) : list Z :=
  if range_ok r then
    (fun i => range_first r + Z.of_nat i * PMM_PAGE_SIZE) <$>
      seq 0 (Z.to_nat ((range_last r - range_first r) / PMM_PAGE_SIZE))
  else [].

Definition avail_pages (available : list pmm_memory_range) : list Z :=
  concat (range_pages <$> available).

Lemma avail_pages_cons r rs : avail_pages (r :: rs) = range_pages r ++ avail_pages rs.
Proof. done. Qed.

(** Ranges as firmware reports them: in the address space, and not starting in
    its last page. *)
Definition range_valid (r : pmm_memory_range) : Prop :=
  0 <= range_base r <= 2 ^ 64 - 4096 /\ in_u64 (range_length r).

(** The state after importing the frames [l], before anything is reserved. *)
Definition imported (capacity : nat) (l : list Z) (ms me : Z) : pmm :=
  mk_pmm (((fun a => mk_page a true 0) <$> l) ++
          replicate (capacity - length l) zero_page_entry)
    (reverse (seq 0 (length l))) (Z.of_nat capacity)
    (Z.of_nat (length l)) (Z.of_nat (length l)) ms me.

Lemma add_imported cap l ms me a :
  (length l < cap)%nat -> Z.of_nat cap < 2 ^ 64 ->
  add_available_page a (imported cap l ms me) = imported cap (l ++ [a]) ms me.
Proof.
  intros Hl Hcap. unfold add_available_page, imported, page_list_push. simpl.
  rewrite (proj2 (Z.ltb_lt _ _)) by lia. simpl.
  unfold set_total, set_free, set_pages. simpl.
  rewrite length_app, Nat2Z.id. simpl. f_equal; [| |lia|].
  - replace (cap - length l)%nat with (S (cap - (length l + 1))) by lia. simpl.
    rewrite fmap_app, <- app_assoc. simpl.
    rewrite !alter_app_r_alt by (rewrite length_fmap; lia).
    by rewrite length_fmap, Nat.sub_diag.
  - rewrite seq_app, reverse_app. done.
  - rewrite u64_small by (unfold in_u64; lia). lia.
Qed.

Lemma import_all cap l l' ms me :
  (length (l ++ l') <= cap)%nat -> Z.of_nat cap < 2 ^ 64 ->
  fold_left (fun s a => add_available_page a s) l' (imported cap l ms me) =
  imported cap (l ++ l') ms me.
Proof.
  revert l. induction l' as [|a l' IH]; intros l Hl Hcap; simpl.
  - by rewrite app_nil_r.
  - rewrite length_app in Hl. simpl in Hl.
    rewrite add_imported by lia. rewrite IH.
    + by rewrite <- app_assoc.
    + rewrite !length_app. simpl. lia.
    + done.
Qed.

Lemma page_size_pow2 : PMM_PAGE_SIZE = 2 ^ 12.
Proof. done. Qed.

Lemma align_down_page v :
  in_u64 v -> align_down v PMM_PAGE_SIZE = v / 4096 * 4096.
Proof. intros. rewrite page_size_pow2, align_down_pow2 by (done || lia). done. Qed.

Lemma align_up_page v :
  0 <= v <= 2 ^ 64 - 4096 -> align_up v PMM_PAGE_SIZE = (v + 4095) / 4096 * 4096.
Proof.
  intros. rewrite page_size_pow2, align_up_pow2 by (unfold in_u64; lia).
  repeat f_equal. lia.
Qed.

Lemma range_bounds r :
  range_valid r -> range_ok r = true ->
  0 <= range_first r /\ range_first r mod 4096 = 0 /\
  range_last r mod 4096 = 0 /\ 0 <= range_last r <= 2 ^ 64 - 4096 /\
  range_base r <= range_first r /\ range_last r <= range_base r + range_length r.
Proof.
  unfold range_valid, range_ok, in_u64. intros [Hb Hl] Hok. bool_facts.
  assert (range_base r + range_length r < 2 ^ 64).
  { destruct (decide (range_base r + range_length r < 2 ^ 64)); [done|].
    unfold u64 in *. exfalso.
    assert ((range_base r + range_length r) mod 2 ^ 64 =
            range_base r + range_length r - 2 ^ 64) as Hm.
    { symmetry. apply Zmod_unique with 1; lia. }
    lia. }
  unfold range_first, range_last. rewrite align_up_page by lia.
  rewrite u64_small by (unfold in_u64; lia).
  rewrite align_down_page by (unfold in_u64; lia).
  rewrite !Z.mod_mul by lia. repeat split; try lia.
  all: Z.div_mod_to_equations; lia.
Qed.

Lemma import_pages_fold n fuel start stop s :
  0 <= start -> stop <= 2 ^ 64 - 4096 -> stop = start + Z.of_nat n * PMM_PAGE_SIZE ->
  (n < fuel)%nat ->
  import_pages fuel start stop s =
  fold_left (fun s a => add_available_page a s)
    ((fun i => start + Z.of_nat i * PMM_PAGE_SIZE) <$> seq 0 n) s.
Proof.
  unfold PMM_PAGE_SIZE in *.
  revert fuel start s. induction n as [|n IH]; intros fuel start s H0 Hs Hn Hf.
  - destruct fuel; simpl; [done|]. by rewrite (proj2 (Z.ltb_ge _ _)) by lia.
  - destruct fuel as [|fuel]; [lia|].
    simpl import_pages. rewrite (proj2 (Z.ltb_lt _ _)) by lia.
    unfold PMM_PAGE_SIZE. rewrite u64_small by (unfold in_u64; lia).
    rewrite IH by lia. simpl. rewrite Z.add_0_r.
    rewrite <- fmap_S_seq, <- list_fmap_compose. f_equal.
    apply list_fmap_ext. intros i j _. simpl. lia.
Qed.

Lemma import_range_fold r s :
  range_valid r ->
  import_available_range r s =
  fold_left (fun s a => add_available_page a s) (range_pages r) s.
Proof.
  intros Hv. unfold import_available_range, range_pages.
  destruct (range_ok r) eqn:Hok; [|done].
  destruct (range_bounds r Hv Hok) as (H0 & Hf & Hl & Hle & _).
  unfold page_loop_fuel, PMM_PAGE_SIZE.
  destruct (decide (range_first r <= range_last r)).
  - apply import_pages_fold; [done|lia| |]; unfold PMM_PAGE_SIZE;
      Z.div_mod_to_equations; lia.
  - replace (Z.to_nat ((range_last r - range_first r) / 4096)) with 0%nat
      by (Z.div_mod_to_equations; lia).
    destruct (Z.to_nat _); simpl; [done|].
    by rewrite (proj2 (Z.ltb_ge _ _)) by lia.
Qed.

Lemma import_ranges_fold available s :
  Forall range_valid available ->
  fold_left (fun s r => import_available_range r s) available s =
  fold_left (fun s a => add_available_page a s) (avail_pages available) s.
Proof.
  intros Hv. revert s.
  induction Hv as [|r rs Hr _ IH]; intros s; [done|].
  rewrite avail_pages_cons. simpl fold_left. rewrite fold_left_app, <- IH.
  by rewrite import_range_fold.
Qed.

Lemma count_available_length available c :
  Forall range_valid available ->
  0 <= c -> c + Z.of_nat (length (avail_pages available)) < 2 ^ 52 ->
  fold_left (fun count r =>
    if range_ok r then
      if range_first r <? range_last r
      then count +w (range_last r - range_first r) / PMM_PAGE_SIZE
      else count
    else count) available c = c + Z.of_nat (length (avail_pages available)).
Proof.
  intros Hv. revert c.
  induction Hv as [|r rs Hr _ IH]; intros c H0 Hc; [simpl; lia|].
  rewrite avail_pages_cons, length_app in *. simpl fold_left.
  assert ((if range_ok r then
      if range_first r <? range_last r
      then c +w (range_last r - range_first r) / PMM_PAGE_SIZE
      else c
    else c) = c + Z.of_nat (length (range_pages r))) as ->.
  { unfold range_pages in *. destruct (range_ok r) eqn:Hok; simpl in *; [|lia].
    destruct (range_bounds r Hr Hok) as (H1 & Hf & Hl & Hle & _).
    rewrite length_fmap, length_seq in *. unfold PMM_PAGE_SIZE in *.
    case_if.
    - assert (0 <= (range_last r - range_first r) / 4096) by (Z.div_mod_to_equations; lia).
      rewrite u64_small by (unfold in_u64; lia). lia.
    - replace (Z.to_nat ((range_last r - range_first r) / 4096)) with 0%nat
        by (Z.div_mod_to_equations; lia). lia. }
  rewrite IH by lia. lia.
Qed.

(** The page at index [i] overlaps [start, stop). *)
Definition index_overlaps (ps : list pmm_page) (start stop : Z) (i : nat) : bool :=
  let addr := match ps !! i with Some p => page_addr p | None => 0 end in
  ranges_overlap addr (addr +w PMM_PAGE_SIZE) start stop.

Lemma index_overlaps_alter ps start stop i j :
  index_overlaps (alter mark_reserved i ps) start stop j = index_overlaps ps start stop j.
Proof.
  unfold index_overlaps. destruct (decide (i = j)) as [->|Hne].
  - rewrite list_lookup_alter_eq. by destruct (ps !! j).
  - by rewrite list_lookup_alter_ne.
Qed.

Lemma reserve_loop_spec free new_free removed start stop (ov : nat -> bool) ps :
  NoDup free -> (forall j, index_overlaps ps start stop j = ov j) ->
  exists ps',
    reserve_loop free new_free removed start stop ps =
      (reverse (filter (fun i => ov i = false) free) ++ new_free,
       foldr (fun i r => if ov i then r +w 1 else r) removed (reverse free), ps') /\
    (forall j, ps' !! j =
       if bool_decide (j ∈ free) && ov j then mark_reserved <$> ps !! j else ps !! j) /\
    length ps' = length ps.
Proof.
  revert new_free removed ps.
  induction free as [|i free IH]; intros new_free removed ps Hnd Hov.
  { exists ps. split; [done|split; [|done]]. intros j.
    rewrite bool_decide_eq_false_2; [done|]. by intros ?%elem_of_nil. }
  apply NoDup_cons in Hnd as [Hi Hnd]. simpl reserve_loop.
  fold (index_overlaps ps start stop i). rewrite Hov.
  rewrite filter_cons, reverse_cons, foldr_app. simpl.
  assert (forall j, j <> i -> bool_decide (j ∈ i :: free) = bool_decide (j ∈ free)) as Hcons.
  { intros j Hj. apply bool_decide_ext. rewrite elem_of_cons. naive_solver. }
  destruct (ov i) eqn:Hi'.
  - rewrite decide_False by done.
    destruct (IH new_free (removed +w 1) (alter mark_reserved i ps) Hnd)
      as (ps' & -> & Hps & Hlen).
    { intros j. by rewrite index_overlaps_alter. }
    exists ps'. split; [done|split; [|by rewrite Hlen, length_alter]].
    intros j. rewrite Hps. destruct (decide (j = i)) as [->|Hne].
    + rewrite (bool_decide_eq_false_2 (i ∈ free)) by done.
      rewrite bool_decide_eq_true_2 by left. rewrite Hi'. apply list_lookup_alter_eq.
    + by rewrite list_lookup_alter_ne, Hcons.
  - rewrite decide_True by done.
    destruct (IH (i :: new_free) removed ps Hnd Hov) as (ps' & -> & Hps & Hlen).
    exists ps'. split; [by rewrite reverse_cons, <- app_assoc|split; [|done]].
    intros j. rewrite Hps. destruct (decide (j = i)) as [->|Hne].
    + by rewrite Hi', !andb_false_r.
    + by rewrite Hcons.
Qed.

Lemma removed_count (ov : nat -> bool) l :
  Z.of_nat (length l) < 2 ^ 64 ->
  foldr (fun i r => if ov i then r +w 1 else r) 0 (reverse l) =
  Z.of_nat (length l) - Z.of_nat (length (filter (fun i => ov i = false) l)).
Proof.
  rewrite <- (reverse_involutive l) at 1 3 4.
  generalize (reverse l) as k. clear l. intros k.
  rewrite <- (length_reverse (filter _ (reverse k))), <- filter_reverse, reverse_involutive.
  rewrite length_reverse.
  induction k as [|i k IH]; intros Hl; simpl; [done|].
  rewrite filter_cons. simpl in Hl.
  pose proof (length_filter (fun i => ov i = false) k).
  rewrite IH by lia. destruct (ov i) eqn:Hov.
  - rewrite decide_False by done. rewrite u64_small by (unfold in_u64; lia). lia.
  - rewrite decide_True by done. simpl. lia.
Qed.

(** Which frames [reserve_range start stop] takes away. *)
Definition frame_hit (start stop a : Z) : bool :=
  ranges_overlap a (a +w PMM_PAGE_SIZE) (align_down start PMM_PAGE_SIZE)
    (align_up stop PMM_PAGE_SIZE).

Section Reserve.
Context (start stop : Z) (s : pmm) (Hwf : pmm_wf s).

Let hit (i : nat) : bool :=
  index_overlaps (pages s) (align_down start PMM_PAGE_SIZE) (align_up stop PMM_PAGE_SIZE) i.
Let s' : pmm := reserve_range start stop s.

Lemma hit_frame j p :
  live_pages s !! j = Some p -> hit j = frame_hit start stop (page_addr p).
Proof. intros [_ Hp]%live_lookup. unfold hit, index_overlaps. by rewrite Hp. Qed.

Lemma live_free_iff j p :
  live_pages s !! j = Some p -> page_is_free p = true <-> j ∈ free_pages s.
Proof.
  intros Hp. rewrite (wf_free s Hwf). split; [eauto|]. intros (q & Hq & ?). congruence.
Qed.

(** The fields of the new state. *)
Lemma reserve_fields :
  free_pages s' = reverse (filter (fun i => hit i = false) (free_pages s)) /\
  free_pages_count s' = Z.of_nat (length (free_pages s')) /\
  length (pages s') = length (pages s) /\
  (forall j, live_pages s' !! j =
     if bool_decide (j ∈ free_pages s) && hit j
     then mark_reserved <$> live_pages s !! j else live_pages s !! j) /\
  page_capacity s' = page_capacity s /\ total_pages s' = total_pages s /\
  metadata_start s' = metadata_start s /\ metadata_end s' = metadata_end s.
Proof.
  unfold s', reserve_range.
  destruct (reserve_loop_spec (free_pages s) [] 0 _ _ hit (pages s) (wf_nodup s Hwf)
              (fun _ => eq_refl)) as (ps' & -> & Hps & Hlen).
  rewrite app_nil_r. simpl.
  pose proof (free_count_u64 s Hwf) as Hfc. rewrite (wf_count s Hwf) in *.
  pose proof (length_filter (fun i => hit i = false) (free_pages s)).
  rewrite removed_count by apply Hfc. rewrite length_reverse.
  repeat split; [| |].
  - rewrite u64_small; unfold in_u64 in *; lia.
  - done.
  - intros j. unfold live_pages. simpl.
    destruct (decide (j < Z.to_nat (total_pages s))%nat).
    + rewrite !lookup_take_lt by done. apply Hps.
    + rewrite !lookup_take_ge by lia. by case_if.
Qed.

Lemma reserve_addrs : page_addr <$> live_pages s' = page_addr <$> live_pages s.
Proof.
  destruct reserve_fields as (_ & _ & _ & Hlive & _).
  apply list_eq. intros j. rewrite !list_lookup_fmap, Hlive.
  case_if; [|done]. by destruct (live_pages s !! j).
Qed.

Lemma reserve_wf : pmm_wf s'.
Proof.
  destruct reserve_fields as (Hfree & Hcount & Hlen & Hlive & Hcap & Htot & _).
  constructor; try done.
  - rewrite Hcap, Hlen. apply Hwf.
  - rewrite Hcap. apply Hwf.
  - rewrite Hcap, Htot. apply Hwf.
  - rewrite Hfree. apply NoDup_reverse, NoDup_filter, Hwf.
  - intros j. rewrite Hfree, elem_of_reverse, list_elem_of_filter, Hlive. split.
    + intros [Hov Hin]. rewrite Hov, andb_false_r. by apply (wf_free s Hwf).
    + intros (p & Hp & Hpf). destruct (hit j) eqn:Hov.
      * exfalso. destruct (bool_decide (j ∈ free_pages s)) eqn:Hj; simpl in Hp.
        -- by apply fmap_Some in Hp as (q & _ & ->).
        -- bool_facts. apply Hj. by apply (live_free_iff j p Hp).
      * rewrite andb_false_r in Hp. split; [done|]. by apply (live_free_iff j p Hp).
  - rewrite reserve_addrs. apply Hwf.
  - intros j p. rewrite Hlive. case_if.
    + intros (q & Hq & ->)%fmap_Some. split; [|done]. apply (wf_refs s Hwf j q Hq).
    + apply (wf_refs s Hwf).
Qed.

Lemma reserve_frames a :
  frames s' !! a =
  match frames s !! a with
  | Some Free => Some (if frame_hit start stop a then Used 0 else Free)
  | o => o
  end.
Proof.
  destruct reserve_fields as (_ & _ & _ & Hlive & _).
  destruct (frames s !! a) as [st|] eqn:Hst.
  2: { apply eq_None_ne_Some. intros st (j & p & Hp & Ha & _)%frames_lookup;
         [|apply reserve_wf].
       assert (page_addr <$> live_pages s !! j = Some a) as Hin.
       { rewrite <- list_lookup_fmap, <- reserve_addrs, list_lookup_fmap, Hp.
         by rewrite <- Ha. }
       apply fmap_Some in Hin as (q & Hq & Hqa).
       assert (frames s !! a = Some (page_state q)); [|congruence].
       apply frames_lookup; eauto. }
  apply frames_lookup in Hst as (j & p & Hp & Ha & Hst); [|done].
  pose proof (hit_frame j p Hp) as Hhit. rewrite Ha in Hhit.
  pose proof (live_free_iff j p Hp) as Hiff.
  unfold page_state in Hst. destruct (page_is_free p) eqn:Hpf; subst st.
  - apply frames_lookup; [apply reserve_wf|]. rewrite <- Hhit.
    assert (page_ref_count p = 0) as Href by by eapply (wf_refs s Hwf).
    exists j, (if hit j then mark_reserved p else p).
    rewrite Hlive, Hp, bool_decide_eq_true_2 by by apply Hiff.
    destruct (hit j); unfold page_state; simpl; [by rewrite Href|by rewrite Hpf].
  - apply frames_lookup; [apply reserve_wf|]. exists j, p.
    rewrite Hlive, bool_decide_eq_false_2; simpl.
    + unfold page_state. by rewrite Hpf.
    + intros Hin. apply Hiff in Hin. congruence.
Qed.

End Reserve.

(** Reserving a list of ranges. *)
Definition reserve_all (reserved : list pmm_reserved_range) (s : pmm) : pmm :=
  fold_left (fun s r => reserve_range (rsv_start r) (rsv_end r) s) reserved s.

Definition frame_reserved (reserved : list pmm_reserved_range) (a : Z) : bool :=
  existsb (fun r => frame_hit (rsv_start r) (rsv_end r) a) reserved.

Lemma reserve_all_spec reserved s :
  pmm_wf s ->
  pmm_wf (reserve_all reserved s) /\
  (forall a, frames (reserve_all reserved s) !! a =
     match frames s !! a with
     | Some Free => Some (if frame_reserved reserved a then Used 0 else Free)
     | o => o
     end) /\
  metadata_start (reserve_all reserved s) = metadata_start s /\
  metadata_end (reserve_all reserved s) = metadata_end s /\
  total_pages (reserve_all reserved s) = total_pages s.
Proof.
  unfold reserve_all. revert s. induction reserved as [|r rs IH]; intros s Hwf; simpl.
  { split; [done|split; [|done]]. intros a. by destruct (frames s !! a) as [[]|]. }
  destruct (reserve_fields (rsv_start r) (rsv_end r) s Hwf)
    as (_ & _ & _ & _ & _ & Htot & Hms & Hme).
  destruct (IH _ (reserve_wf (rsv_start r) (rsv_end r) s Hwf)) as (Hwf' & Hfr & Hms' & Hme' & Htot').
  rewrite Hms', Hme', Htot'. split; [done|split; [|done]].
  intros a. rewrite Hfr, reserve_frames by done.
  destruct (frames s !! a) as [[]|]; [|done|done].
  by destruct (frame_hit _ _ a).
Qed.

Lemma imported_wf l ms me :
  NoDup l -> Z.of_nat (length l) < 2 ^ 52 ->
  pmm_wf (imported (length l) l ms me) /\
  (forall a, frames (imported (length l) l ms me) !! a =
     if bool_decide (a ∈ l) then Some Free else None).
Proof.
  intros Hnd Hlen. set (s := imported (length l) l ms me).
  assert (live_pages s = (fun a => mk_page a true 0) <$> l) as Hlive.
  { unfold live_pages, s, imported. simpl. rewrite Nat.sub_diag, Nat2Z.id.
    simpl. rewrite app_nil_r. rewrite take_ge; [done|]. by rewrite length_fmap. }
  assert (pmm_wf s) as Hwf.
  { constructor; try (rewrite Hlive).
    - simpl. rewrite Nat.sub_diag, length_app, length_fmap. simpl. lia.
    - simpl. lia.
    - simpl. lia.
    - apply NoDup_reverse, NoDup_seq.
    - intros i. simpl. rewrite elem_of_reverse, elem_of_seq, list_lookup_fmap.
      split.
      + intros Hi. destruct (lookup_lt_is_Some_2 l i ltac:(lia)) as [a Ha].
        rewrite Ha. simpl. eauto.
      + intros (p & (a & Ha & _)%fmap_Some & _). apply lookup_lt_Some in Ha. lia.
    - simpl. by rewrite length_reverse, length_seq.
    - rewrite <- list_fmap_compose. unfold compose. simpl. by rewrite list_fmap_id.
    - intros i p. rewrite list_lookup_fmap. intros (a & _ & ->)%fmap_Some.
      simpl. unfold in_u32. split; [lia|done]. }
  split; [done|]. intros a. case_bool_decide as Ha.
  - apply frames_lookup; [done|]. apply list_elem_of_lookup in Ha as [i Hi].
    exists i, (mk_page a true 0). by rewrite Hlive, list_lookup_fmap, Hi.
  - apply eq_None_ne_Some. intros st (i & p & Hp & Hpa & _)%frames_lookup; [|done].
    rewrite Hlive, list_lookup_fmap in Hp. apply fmap_Some in Hp as (b & Hb & ->).
    apply Ha. simpl in Hpa. subst b. apply list_elem_of_lookup. eauto.
Qed.

(** A place for the page array: whole pages of an available range that meet
    no reserved range. *)
Definition storage_fits (available : list pmm_memory_range)
    (reserved : list pmm_reserved_range) (bytes st : Z) : Prop :=
  exists r, r ∈ available /\ range_ok r = true /\
    range_first r <= st /\ st mod 4096 = 0 /\ st < range_last r /\
    bytes <= range_last r - st /\
    range_is_reserved_by_list st (st +w bytes) reserved = false.

Lemma find_storage_spec fuel start stop bytes reserved :
  0 <= start -> stop <= 2 ^ 64 - 4096 -> start mod 4096 = 0 ->
  (stop - start) / 4096 < Z.of_nat fuel -> 
  match find_storage_in_range fuel start stop bytes reserved with
  | Some st => start <= st /\ st mod 4096 = 0 /\ st < stop /\ bytes <= stop - st /\
      range_is_reserved_by_list st (st +w bytes) reserved = false
  | None => forall st, start <= st -> st mod 4096 = 0 -> st < stop -> bytes <= stop - st ->
      range_is_reserved_by_list st (st +w bytes) reserved = true
  end.
Proof.
  revert start. induction fuel as [|fuel IH]; intros start H0 Hs Hm Hf; simpl.
  { intros st ???. assert (stop - start < 0) by (Z.div_mod_to_equations; lia). lia. }
  case_if; [|intros; lia].
  destruct (range_is_reserved_by_list start _ reserved) eqn:Hr; simpl; [|done].
  rewrite u64_small by (unfold in_u64, PMM_PAGE_SIZE; lia). unfold PMM_PAGE_SIZE.
  specialize (IH (start + 4096) ltac:(lia) Hs
                 ltac:(Z.div_mod_to_equations; lia) ltac:(Z.div_mod_to_equations; lia)).
  destruct (find_storage_in_range _ _ _ _ _).
  - destruct IH. split; [lia|done].
  - intros st Hst Hstm ??. destruct (decide (st = start)) as [->|]; [done|].
    apply IH; [|done..]. Z.div_mod_to_equations; lia.
Qed.

Lemma find_metadata_spec available reserved n :
  Forall range_valid available ->
  let bytes := align_up (n *w sizeof_pmm_page) PMM_PAGE_SIZE in
  match find_metadata_storage_from_ranges available reserved n with
  | Some st => storage_fits available reserved bytes st
  | None => forall st, ~ storage_fits available reserved bytes st
  end.
Proof.
  intros Hv bytes. induction Hv as [|r rs Hr _ IH].
  { intros st (r & ?%elem_of_nil & _). done. }
  simpl find_metadata_storage_from_ranges. fold bytes. fold bytes in IH.
  assert (match (if range_ok r then find_storage_in_range
            (page_loop_fuel (range_first r) (range_last r)) (range_first r)
            (range_last r) bytes reserved else None) with
          | Some st => storage_fits [r] reserved bytes st
          | None => forall st, ~ storage_fits [r] reserved bytes st
          end) as Hone.
  { destruct (range_ok r) eqn:Hok.
    2: { intros st (q & ->%list_elem_of_singleton & ? & _). congruence. }
    destruct (range_bounds r Hr Hok) as (H1 & Hf & Hl & Hle & _).
    pose proof (find_storage_spec (page_loop_fuel (range_first r) (range_last r))
      (range_first r) (range_last r) bytes reserved H1 ltac:(lia) Hf
      ltac:(unfold page_loop_fuel, PMM_PAGE_SIZE; lia)) as Hfs.
    destruct (find_storage_in_range _ _ _ _ _) as [st|].
    - exists r. split; [by left|]. split; [done|apply Hfs].
    - intros st (q & ->%list_elem_of_singleton & _ & ? & ? & ? & ? & ?).
      rewrite Hfs in *; done. }
  destruct (if range_ok r then _ else None) as [st|].
  { destruct Hone as (q & ->%list_elem_of_singleton & Hq).
    exists r. split; [left|done]. }
  destruct (find_metadata_storage_from_ranges rs reserved n) as [st|].
  - destruct IH as (q & Hin & Hq). exists q. split; [by right|done].
  - intros st (q & [->|Hin]%elem_of_cons & Hq).
    + apply (Hone st). exists r. split; [by left|done].
    + apply (IH st). exists q. done.
Qed.

Lemma storage_bounds available reserved bytes st :
  Forall range_valid available -> storage_fits available reserved bytes st ->
  0 <= st /\ st + bytes <= 2 ^ 64 - 4096.
Proof.
  intros Hv (r & Hr & Hok & Hf & _ & _ & Hfit & _).
  rewrite Forall_forall in Hv. destruct (range_bounds r (Hv r Hr) Hok). lia.
Qed.

Lemma storage_first_frame available reserved bytes st :
  Forall range_valid available -> storage_fits available reserved bytes st ->
  st ∈ avail_pages available.
Proof.
  intros Hv (r & Hr & Hok & Hf & Hm & Hlt & _).
  rewrite Forall_forall in Hv. destruct (range_bounds r (Hv r Hr) Hok) as (? & Hfm & Hlm & _).
  unfold avail_pages. rewrite list_elem_of_In, in_concat. exists (range_pages r).
  rewrite <- !list_elem_of_In. split; [apply list_elem_of_fmap; eauto|].
  unfold range_pages. rewrite Hok. apply list_elem_of_fmap.
  exists (Z.to_nat ((st - range_first r) / 4096)). unfold PMM_PAGE_SIZE.
  rewrite elem_of_seq. split; Z.div_mod_to_equations; lia.
Qed.

(** Bytes of the page array for [available]. *)
Definition metadata_bytes (available : list pmm_memory_range) : Z :=
  align_up (count_available_pages available *w sizeof_pmm_page) PMM_PAGE_SIZE.

(** Firmware's memory map, as [pmm_init_from_ranges] needs it: ranges in the
    address space, no frame listed twice, and something to manage. *)
Record map_valid (available : list pmm_memory_range) : Prop := {
  mv_ranges : Forall range_valid available;
  mv_nodup : NoDup (avail_pages available);
  mv_length : Z.of_nat (length (avail_pages available)) < 2 ^ 52;
  mv_some : avail_pages available <> [];
}.

Lemma metadata_bytes_bounds available :
  map_valid available ->
  count_available_pages available = Z.of_nat (length (avail_pages available)) /\
  sizeof_pmm_page * count_available_pages available <= metadata_bytes available < 2 ^ 63 /\
  0 < metadata_bytes available /\ metadata_bytes available mod 4096 = 0.
Proof.
  intros [Hv _ Hl Hs].
  assert (count_available_pages available = Z.of_nat (length (avail_pages available))) as Hc.
  { unfold count_available_pages. rewrite count_available_length by (done || lia). lia. }
  assert (0 < length (avail_pages available))%nat
    by (destruct (avail_pages available); simpl; [done|lia]).
  unfold metadata_bytes, sizeof_pmm_page. rewrite Hc.
  rewrite u64_small by (unfold in_u64; lia).
  rewrite align_up_page by lia. rewrite Z.mod_mul by lia.
  repeat split; Z.div_mod_to_equations; lia.
Qed.

Lemma init_imported available reserved st :
  map_valid available ->
  find_metadata_storage_from_ranges available reserved
    (count_available_pages available) = Some st ->
  st <> 0 ->
  storage_fits available reserved (metadata_bytes available) st /\
  pmm_init_from_ranges available reserved =
    Some (reserve_range st (st + metadata_bytes available)
      (reserve_all reserved
        (imported (length (avail_pages available)) (avail_pages available)
           st (st + metadata_bytes available)))).
Proof.
  intros Hmv Hfind Hst. pose proof Hmv as [Hv Hnd Hl Hs].
  destruct (metadata_bytes_bounds available Hmv) as (Hc & Hb & Hb0 & _).
  pose proof (find_metadata_spec available reserved (count_available_pages available) Hv)
    as Hfits. rewrite Hfind in Hfits. fold (metadata_bytes available) in Hfits.
  split; [done|].
  destruct Hfits as (r & Hr & Hok & Hfst & _ & Hlt & Hfit & _).
  rewrite Forall_forall in Hv. specialize (Hv r Hr).
  destruct (range_bounds r Hv Hok) as (H1 & Hf & Hlm & Hle & _).
  unfold pmm_init_from_ranges. rewrite Hfind. fold (metadata_bytes available).
  rewrite u64_small by (unfold in_u64; lia).
  rewrite (proj2 (Z.eqb_neq _ _)), (proj2 (Z.leb_gt _ _)) by lia. simpl orb.
  rewrite import_ranges_fold by apply Hmv. rewrite Hc, Nat2Z.id.
  pose proof (import_all (length (avail_pages available)) [] (avail_pages available)
    st (st + metadata_bytes available) ltac:(done) ltac:(lia)) as Himp.
  unfold imported at 1 in Himp. simpl in Himp. rewrite Nat.sub_0_r in Himp.
  change (reverse []) with (@nil nat) in Himp. change (Z.of_nat 0) with 0 in Himp.
  rewrite Himp. fold (reserve_all reserved).
  destruct (reserve_all_spec reserved
    (imported (length (avail_pages available)) (avail_pages available)
       st (st + metadata_bytes available))) as (_ & _ & Hms & Hme & _).
  { by apply imported_wf. }
  unfold reserve_all in *. by rewrite Hms, Hme.
Qed.

(** The frame map a successful initialisation leaves. *)
Definition initial_frame (available : list pmm_memory_range)
    (reserved : list pmm_reserved_range) (st : Z) (a : Z) : option fstate :=
  if bool_decide (a ∈ avail_pages available) then
    Some (if frame_reserved reserved a || frame_hit st (st + metadata_bytes available) a
          then Used 0 else Free)
  else None.

Lemma init_spec available reserved s :
  map_valid available ->
  pmm_init_from_ranges available reserved = Some s ->
  pmm_wf s /\
  storage_fits available reserved (metadata_bytes available) (metadata_start s) /\
  metadata_end s = metadata_start s + metadata_bytes available /\
  total_pages s = Z.of_nat (length (avail_pages available)) /\
  forall a, frames s !! a = initial_frame available reserved (metadata_start s) a.
Proof.
  intros Hmv Hinit.
  destruct (find_metadata_storage_from_ranges available reserved
              (count_available_pages available)) as [st|] eqn:Hfind.
  2: { unfold pmm_init_from_ranges in Hinit. by rewrite Hfind in Hinit. }
  assert (st <> 0) as Hst.
  { intros ->. unfold pmm_init_from_ranges in Hinit. rewrite Hfind in Hinit. done. }
  destruct (init_imported available reserved st Hmv Hfind Hst) as [Hfits Heq].
  rewrite Heq in Hinit. injection Hinit as <-.
  destruct (imported_wf (avail_pages available) st (st + metadata_bytes available))
    as [Hwf0 Hfr0]; [apply Hmv..|].
  destruct (reserve_all_spec reserved _ Hwf0) as (Hwf1 & Hfr1 & Hms & Hme & Htot).
  destruct (reserve_fields st (st + metadata_bytes available) _ Hwf1)
    as (_ & _ & _ & _ & _ & Htot' & Hms' & Hme').
  rewrite Hms', Hme', Htot', Hms, Hme, Htot. simpl.
  split; [by apply reserve_wf|]. split; [done|]. split; [done|]. split; [done|].
  intros a. rewrite reserve_frames, Hfr1, Hfr0 by done. unfold initial_frame.
  case_if; [|done]. by destruct (frame_reserved reserved a).
Qed.

(** On page-aligned frames below the top of the address space, the test of
    [reserve_range] is exactly "the frame meets [start, stop)". *)
Lemma frame_hit_spec start stop a :
  0 <= a <= 2 ^ 64 - 8192 -> a mod 4096 = 0 ->
  0 <= start < stop -> stop <= 2 ^ 64 - 4096 ->
  frame_hit start stop a = true <-> a < stop /\ start < a + 4096.
Proof.
  intros Ha Hm Hs Hl. unfold frame_hit, ranges_overlap.
  rewrite align_down_page by (unfold in_u64; lia). rewrite align_up_page by lia.
  unfold PMM_PAGE_SIZE. rewrite u64_small by (unfold in_u64; lia).
  rewrite andb_true_iff, !Z.ltb_lt. Z.div_mod_to_equations; lia.
Qed.

Lemma avail_frame_bounds available a :
  Forall range_valid available -> a ∈ avail_pages available ->
  0 <= a <= 2 ^ 64 - 8192 /\ a mod 4096 = 0.
Proof.
  intros Hv. induction Hv as [|r rs Hr _ IH]; [by intros ?%elem_of_nil|].
  rewrite avail_pages_cons, elem_of_app. intros [Ha|Ha]; [|by apply IH].
  unfold range_pages in Ha. destruct (range_ok r) eqn:Hok; [|by apply elem_of_nil in Ha].
  destruct (range_bounds r Hr Hok) as (H1 & Hf & Hl & Hle & _).
  apply list_elem_of_fmap in Ha as (i & -> & Hi%elem_of_seq).
  unfold PMM_PAGE_SIZE in *. Z.div_mod_to_equations; lia.
Qed.

(** *** Boot in plain terms *)

(** Firmware lists frame [a]: the whole frame is inside an available range that
    does not wrap around the address space. *)
Definition listed (available : list pmm_memory_range) (a : Z) : Prop :=
  a mod 4096 = 0 /\ exists r, r ∈ available /\ range_base r + range_length r < 2 ^ 64 /\
    range_base r <= a /\ a + 4096 <= range_base r + range_length r.

(** Frame [a] meets the range [start, stop). *)
Definition meets (start stop a : Z) : Prop := a < stop /\ start < a + 4096.

Lemma range_ok_iff r :
  range_valid r -> range_ok r = true <-> range_length r <> 0 /\ range_base r + range_length r < 2 ^ 64.
Proof.
  unfold range_valid, range_ok, in_u64. intros [Hb Hl].
  rewrite negb_true_iff, orb_false_iff, Z.eqb_neq, Z.ltb_ge. unfold u64.
  destruct (decide (range_base r + range_length r < 2 ^ 64)).
  - rewrite Z.mod_small by lia. lia.
  - assert ((range_base r + range_length r) mod 2 ^ 64 = range_base r + range_length r - 2 ^ 64) as ->.
    { symmetry. apply Zmod_unique with 1; lia. }
    lia.
Qed.

Lemma range_pages_iff r a :
  range_valid r -> a ∈ range_pages r <->
  a mod 4096 = 0 /\ range_base r + range_length r < 2 ^ 64 /\
    range_base r <= a /\ a + 4096 <= range_base r + range_length r.
Proof.
  intros Hv. pose proof (range_ok_iff r Hv) as Hok. unfold range_valid, in_u64 in Hv.
  unfold range_pages. destruct (range_ok r).
  2: { rewrite elem_of_nil. split; [done|]. intros (_ & Hlt & Hle & Hle').
       assert (false = true) by (apply Hok; lia). done. }
  destruct Hok as [[Hnz Hlt] _]; [done|]. rewrite list_elem_of_fmap.
  unfold range_first, range_last, PMM_PAGE_SIZE in *.
  rewrite u64_small by (unfold in_u64; lia).
  rewrite align_up_page, align_down_page by (unfold in_u64; lia).
  set (b := range_base r) in *. set (e := b + range_length r) in *. split.
  - intros (i & -> & Hi%elem_of_seq). Z.div_mod_to_equations; lia.
  - intros (Hm & _ & Hb & He). exists (Z.to_nat ((a - (b + 4095) / 4096 * 4096) / 4096)).
    rewrite elem_of_seq. Z.div_mod_to_equations; lia.
Qed.

Lemma avail_listed available a :
  Forall range_valid available -> a ∈ avail_pages available <-> listed available a.
Proof.
  intros Hv. unfold listed. induction Hv as [|r rs Hr _ IH].
  - split; [by intros ?%elem_of_nil|]. by intros (_ & r & ?%elem_of_nil & _).
  - rewrite avail_pages_cons, elem_of_app, IH, range_pages_iff by done. split.
    + intros [(Hm & Hrest)|(Hm & q & Hq & Hrest)]; (split; [done|]).
      * exists r. split; [left|done].
      * exists q. split; [by right|done].
    + intros (Hm & q & [->|Hq]%elem_of_cons & Hrest); [by left|right]. eauto.
Qed.

(** Reserved ranges as the boot code passes them. *)
Definition reserved_valid (reserved : list pmm_reserved_range) : Prop :=
  Forall (fun r => 0 <= rsv_start r < rsv_end r /\ rsv_end r <= 2 ^ 64 - 4096) reserved.

Lemma reserved_meets reserved a :
  reserved_valid reserved -> 0 <= a <= 2 ^ 64 - 8192 -> a mod 4096 = 0 ->
  frame_reserved reserved a = true <-> exists r, r ∈ reserved /\ meets (rsv_start r) (rsv_end r) a.
Proof.
  intros Hres Hb Hm. unfold frame_reserved. rewrite existsb_exists. unfold reserved_valid in Hres.
  rewrite Forall_forall in Hres. split.
  - intros (r & Hr%list_elem_of_In & Hh). exists r. split; [done|]. specialize (Hres r Hr).
    apply frame_hit_spec in Hh; [done|done|done|lia|lia].
  - intros (r & Hr & Hh). exists r. split; [by apply list_elem_of_In|]. specialize (Hres r Hr).
    apply frame_hit_spec; [done|done|lia|lia|done].
Qed.

Lemma storage_clear st bytes reserved r :
  range_is_reserved_by_list st (st +w bytes) reserved = false -> r ∈ reserved ->
  0 <= st -> 0 <= bytes -> st + bytes < 2 ^ 64 -> st + bytes <= rsv_start r \/ rsv_end r <= st.
Proof.
  intros Hno Hr H0 Hb Hlt. unfold range_is_reserved_by_list in Hno.
  rewrite u64_small in Hno by (unfold in_u64; lia).
  destruct (ranges_overlap st (st + bytes) (rsv_start r) (rsv_end r)) eqn:Ho.
  - exfalso. assert (existsb (fun r => ranges_overlap st (st + bytes) (rsv_start r) (rsv_end r)) reserved = true)
      as He; [|congruence].
    apply existsb_exists. exists r. split; [by apply list_elem_of_In|done].
  - unfold ranges_overlap in Ho. apply andb_false_iff in Ho as [Ho|Ho]; bool_facts; lia.
Qed.

(** ** Traces *)

Fixpoint pmm_trace (ops : list pmm_op) (s : pmm) : list pmm_result * pmm :=
  match ops with
  | [] => ([], s)
  | op :: ops =>
      let '(r, s) := pmm_exec op s in
      let '(rs, s) := pmm_trace ops s in (r :: rs, s)
  end.

(** [op] gives frame [a] back. *)
Definition frees (op : pmm_op) (a : Z) : Prop :=
  match op with
  | FreeAddr b => a = b
  | FreeContiguous b count => exists i, 0 <= i < count /\ a = b +w (i *w PMM_PAGE_SIZE)
  | _ => False
  end.

(** The caller of [op] learns from [r] that it owns frame [a]. *)
Definition grants (op : pmm_op) (r : pmm_result) (a : Z) : Prop :=
  match op, r with
  | PageAlloc, RPage (Some b) => a = b
  | AllocContiguous count, RAddr b =>
      b <> 0 /\ exists i, 0 <= i < count /\ a = b +w (i *w PMM_PAGE_SIZE)
  | RetainAddr b, RStatus 0 => a = b
  | _, _ => False
  end.

Lemma use_run_other n i b m a :
  (forall j, i <= j < i + Z.of_nat n -> a <> b +w (j *w PMM_PAGE_SIZE)) ->
  use_run n i b m !! a = m !! a.
Proof.
  revert i m. induction n as [|n IH]; intros i m Hne; simpl; [done|].
  rewrite IH by (intros j Hj; apply Hne; lia).
  apply lookup_insert_ne. intros Heq. by apply (Hne i); [lia|].
Qed.

Lemma release_run_other n i b m a :
  (forall j, i <= j < i + Z.of_nat n -> a <> b +w (j *w PMM_PAGE_SIZE)) ->
  release_run n i b m !! a = m !! a.
Proof.
  revert i m. induction n as [|n IH]; intros i m Hne; simpl; [done|].
  rewrite IH by (intros j Hj; apply Hne; lia).
  unfold release_frame. destruct (m !! _) as [[|k]|]; [done| |done].
  assert (b +w (i *w PMM_PAGE_SIZE) <> a) by (intros Heq; by apply (Hne i); [lia|]).
  case_if; by apply lookup_insert_ne.
Qed.

Lemma reserved_step m op r m' a :
  frame_step m op r m' -> m !! a = Some (Used 0) -> ~ frees op a ->
  m' !! a = Some (Used 0) /\ ~ grants op r a.
Proof.
  intros Hstep Ha Hf.
  destruct Hstep as [b Hb| |count b Hc Hb| |b n Hb Hn|b Hb|b|b count]; simpl in *.
  - split; [rewrite lookup_insert_ne by congruence; done|congruence].
  - done.
  - split.
    + rewrite use_run_other; [done|]. intros j Hj ->. rewrite Hb in Ha by lia. done.
    + intros (_ & i & Hi & ->). rewrite Hb in Ha by lia. done.
  - naive_solver.
  - split; [rewrite lookup_insert_ne by congruence; done|congruence].
  - done.
  - split; [|tauto]. unfold release_frame. destruct (m !! b) as [[|k]|]; [done| |done].
    case_if; by rewrite lookup_insert_ne by congruence.
  - split; [|tauto]. rewrite release_run_other; [done|]. intros j Hj ->.
    apply Hf. exists j. split; [lia|done].
Qed.

Lemma exec_refines op s :
  pmm_wf s -> op_in_range op ->
  let '(r, s') := pmm_exec op s in
  pmm_wf s' /\ frame_step (frames s) op r (frames s').
Proof.
  intros Hwf Hop. destruct op as [|count|a|a|a count].
  - by apply page_alloc_refines.
  - simpl. pose proof (contiguous_refines count s Hwf Hop). by destruct (pmm_pages_alloc_contiguous _ _).
  - by apply retain_refines.
  - simpl. destruct (free_addr_refines a s Hwf) as [? ->]. split; [done|apply step_free].
  - simpl. destruct (free_run_refines (Z.to_nat count) 0 a s Hwf) as [? Hf].
    unfold pmm_pages_free_contiguous. rewrite Hf. split; [done|apply step_free_run].
Qed.

(** ** The properties *)

(** C17: Every operation of the allocator (page and contiguous allocation,
    retain, release of one frame and of a run) keeps the page array, the free
    list and the counters consistent, and acts on the map of frames exactly as
    the specification [frame_step] allows: only free frames are handed out,
    with one reference; a reference is dropped by a release, and the last one
    makes the frame free again. *)
Theorem pmm_exec_refines op s :
  pmm_wf s -> op_in_range op ->
  let '(r, s') := pmm_exec op s in
  pmm_wf s' /\ frame_step (frames s) op r (frames s').
Proof. apply exec_refines. Qed.

Definition demo_map : list pmm_memory_range :=
  [mk_memory_range 4096 20480; mk_memory_range 65536 8192].
Definition demo_reserved : list pmm_reserved_range := [mk_reserved_range 8192 8200].

Lemma demo_map_valid : map_valid demo_map.
Proof.
  constructor.
  - unfold demo_map. repeat constructor; unfold range_valid, in_u64; simpl; lia.
  - apply (bool_decide_unpack _). vm_compute. exact I.
  - vm_compute. done.
  - vm_compute. done.
Qed.

Definition demo_pmm : pmm :=
  match pmm_init_from_ranges demo_map demo_reserved with
  | Some s => s
  | None => mk_pmm [] [] 0 0 0 0 0
  end.

Lemma demo_init : pmm_init_from_ranges demo_map demo_reserved = Some demo_pmm.
Proof. vm_compute. reflexivity. Qed.

Lemma demo_wf : pmm_wf demo_pmm.
Proof. by destruct (init_spec _ _ _ demo_map_valid demo_init). Qed.

Lemma pmm_exec_refines_witness :
  (pmm_exec (AllocContiguous 2) demo_pmm).1 = RAddr 12288 /\
  let '(r, s') := pmm_exec (AllocContiguous 2) demo_pmm in
  pmm_wf s' /\ frame_step (frames demo_pmm) (AllocContiguous 2) r (frames s').
Proof.
  split; [vm_compute; reflexivity|].
  apply (pmm_exec_refines (AllocContiguous 2)); [exact demo_wf|split; [discriminate|reflexivity]].
Defined.

(** C40: Contiguous allocation is first fit and complete.  A run is a stretch
    of entries of the page array that are free and whose frames have
    consecutive addresses.  With a non-zero count the allocation returns the
    address of the run with the lowest index and takes exactly the frames of
    that run off the free list; it leaves the state alone and returns 0 only
    when there is no run of that length. *)
Theorem pmm_contiguous_first_fit count s :
  pmm_wf s -> in_u64 count -> 0 < count ->
  (exists i, Z.of_nat i + count <= total_pages s /\ free_run i count s /\
     (forall j, (j < i)%nat -> ~ free_run j count s) /\
     (pmm_pages_alloc_contiguous count s).1 = run_start i s /\
     free_pages_count (pmm_pages_alloc_contiguous count s).2 =
       free_pages_count s - count /\
     forall j, j ∈ free_pages (pmm_pages_alloc_contiguous count s).2 <->
       j ∈ free_pages s /\ ~ (i <= j < i + Z.to_nat count)%nat) \/
  ((forall i, Z.of_nat i + count <= total_pages s -> ~ free_run i count s) /\
   pmm_pages_alloc_contiguous count s = (0, s)).
Proof.
  intros Hwf Hc H0. pose proof (contiguous_result count s Hwf Hc H0) as Hr.
  assert (forall i, Z.of_nat i + count <= total_pages s -> usable_at i count s = false ->
    ~ free_run i count s) as Hno.
  { intros i Hi Hu Hf%usable_free_run; [congruence|done..]. }
  destruct (contiguous_scan _ _ _ _) as [k|] eqn:Hscan.
  - left. destruct Hr as (Hk & Hu & Hmin). exists k.
    rewrite (contiguous_claims count s k) by done. simpl.
    pose proof (usable_run k count s Hwf Hu H0 Hk) as Hfree.
    rewrite claim_pages_count, Z2Nat.id by (done || lia).
    split; [done|]. split; [by apply usable_free_run|]. split; [intros j Hj; apply Hno; [lia|auto]|].
    repeat (split; [done|]). by apply claim_pages_free.
  - right. split; [auto|]. unfold pmm_pages_alloc_contiguous.
    by rewrite (proj2 (Z.eqb_neq _ _)), Hscan by lia.
Qed.

Lemma pmm_contiguous_first_fit_witness :
  (pmm_pages_alloc_contiguous 2 demo_pmm).1 = 12288 /\
  exists i, run_start i demo_pmm = 12288 /\ free_run i 2 demo_pmm.
Proof.
  assert ((pmm_pages_alloc_contiguous 2 demo_pmm).1 = 12288) as Hv by (vm_compute; reflexivity).
  destruct (pmm_contiguous_first_fit 2 demo_pmm demo_wf) as [(i & _ & Hu & _ & Hr & _)|[_ H]].
  - split; [discriminate|reflexivity].
  - reflexivity.
  - split; [exact Hv|]. exists i. rewrite <- Hr. split; [exact Hv|exact Hu].
  - rewrite H in Hv. discriminate Hv.
Defined.

(** C39: Boot.  Reserved ranges end below the last page of the address space.
    When [pmm_init_from_ranges] does not halt, the allocator is consistent.
    The page array starts at a page boundary, has room for every frame, lies
    inside one available range, and is clear of every reserved range.  A frame
    is known exactly if firmware listed it; it is free exactly if moreover it
    meets no reserved range and not the page array, and otherwise it is in use
    with no references. *)
Theorem pmm_init_correct available reserved s :
  map_valid available -> reserved_valid reserved ->
  pmm_init_from_ranges available reserved = Some s ->
  pmm_wf s /\
  (metadata_start s mod 4096 = 0 /\
   24 * total_pages s <= metadata_end s - metadata_start s /\
   (exists r, r ∈ available /\ range_base r <= metadata_start s /\
      metadata_end s <= range_base r + range_length r) /\
   forall r, r ∈ reserved -> metadata_end s <= rsv_start r \/ rsv_end r <= metadata_start s) /\
  forall a,
    let taken := (exists r, r ∈ reserved /\ meets (rsv_start r) (rsv_end r) a) \/
                 meets (metadata_start s) (metadata_end s) a in
    match frames s !! a with
    | None => ~ listed available a
    | Some Free => listed available a /\ ~ taken
    | Some (Used n) => n = 0 /\ listed available a /\ taken
    end.
Proof.
  intros Hmv Hres Hinit.
  destruct (init_spec available reserved s Hmv Hinit) as (Hwf & Hfit & Hend & Htot & Hframes).
  pose proof (mv_ranges _ Hmv) as Hv.
  destruct (metadata_bytes_bounds available Hmv) as (Hcnt & [Hroom _] & Hpos & _).
  destruct (storage_bounds _ _ _ _ Hv Hfit) as (H0 & Hle).
  pose proof Hfit as (r & Hr & Hok & Hf & Hm & Hlt & Hfits & Hclear).
  split; [done|]. split.
  - split; [done|]. rewrite Hend, Htot. unfold sizeof_pmm_page in Hroom. split; [lia|]. split.
    + rewrite Forall_forall in Hv. destruct (range_bounds r (Hv r Hr) Hok). exists r. split; [done|]. lia.
    + intros q Hq. eapply storage_clear; try done; lia.
  - intros a taken. rewrite Hframes. unfold initial_frame. case_bool_decide as Ha.
    2: { by rewrite <- avail_listed. }
    destruct (avail_frame_bounds available a Hv Ha) as [Hb Hma]. apply avail_listed in Ha; [|done].
    assert (frame_reserved reserved a ||
      frame_hit (metadata_start s) (metadata_start s + metadata_bytes available) a = true <-> taken) as Htk.
    { rewrite orb_true_iff, reserved_meets, frame_hit_spec by (done || lia). unfold taken. by rewrite Hend. }
    destruct (frame_reserved reserved a || _).
    + split; [done|]. split; [done|]. by apply Htk.
    + split; [done|]. by rewrite <- Htk.
Qed.

Lemma pmm_init_correct_witness :
  frames demo_pmm !! 12288 = Some Free /\ listed demo_map 12288 /\
  ~ ((exists r, r ∈ demo_reserved /\ meets (rsv_start r) (rsv_end r) 12288) \/
     meets (metadata_start demo_pmm) (metadata_end demo_pmm) 12288).
Proof.
  destruct (pmm_init_correct demo_map demo_reserved demo_pmm demo_map_valid) as (_ & _ & Ha).
  - constructor; [|constructor]. simpl. lia.
  - exact demo_init.
  - assert (frames demo_pmm !! 12288 = Some Free) as Hf by (vm_compute; reflexivity).
    specialize (Ha 12288). cbv zeta in Ha. rewrite Hf in Ha. split; [exact Hf|exact Ha].
Defined.

(** Boot makes progress: when some place for the page array exists and
    firmware's map has no frame at address 0, [pmm_init_from_ranges] finds one
    and does not halt, however the ranges are ordered. *)
Theorem pmm_init_total available reserved st :
  map_valid available -> 0 ∉ avail_pages available ->
  storage_fits available reserved (metadata_bytes available) st ->
  exists s, pmm_init_from_ranges available reserved = Some s.
Proof.
  intros Hmv H0 Hst.
  pose proof (find_metadata_spec available reserved (count_available_pages available)
    (mv_ranges _ Hmv)) as Hf.
  destruct (find_metadata_storage_from_ranges _ _ _) as [st'|] eqn:Hfind.
  - destruct (init_imported available reserved st' Hmv Hfind) as [_ ->]; [|eauto].
    intros ->. apply H0. apply (storage_first_frame _ _ _ _ (mv_ranges _ Hmv) Hf).
  - by destruct (Hf st).
Qed.

Lemma pmm_init_total_witness :
  exists s, pmm_init_from_ranges demo_map demo_reserved = Some s.
Proof.
  apply (pmm_init_total demo_map demo_reserved 12288 demo_map_valid).
  - apply (bool_decide_unpack _). vm_compute. exact I.
  - exists (mk_memory_range 4096 20480). split; [left|].
    repeat split; discriminate || reflexivity.
Defined.

Lemma trace_reserved ops s a rs s' :
  pmm_wf s -> Forall op_in_range ops -> frames s !! a = Some (Used 0) ->
  Forall (fun op => ~ frees op a) ops -> pmm_trace ops s = (rs, s') ->
  pmm_wf s' /\ frames s' !! a = Some (Used 0) /\
  Forall2 (fun op r => ~ grants op r a) ops rs.
Proof.
  intros Hwf Hops Ha Hfr. revert s rs s' Hwf Hops Ha.
  induction Hfr as [|op ops Hop _ IH]; intros s rs s' Hwf Hops Ha Htr; simpl in Htr.
  { injection Htr as <- <-. done. }
  apply Forall_cons in Hops as [Hr Hops].
  pose proof (exec_refines op s Hwf Hr) as Hstep.
  destruct (pmm_exec op s) as [r s1] eqn:He. destruct Hstep as [Hwf1 Hstep].
  destruct (pmm_trace ops s1) as [rs1 s2] eqn:Ht. injection Htr as <- <-.
  destruct (reserved_step _ _ _ _ a Hstep Ha Hop) as [Ha1 Hg].
  destruct (IH s1 rs1 s2) as (? & ? & ?); auto.
Qed.

(** C19: Isolation of reserved memory: after boot, through any sequence of
    allocator calls that does not free it explicitly, a frame that meets a
    reserved range [start, end) (kernel image, boot modules) or the page array
    itself is never handed to a caller, neither alone nor inside a contiguous
    run, and cannot be retained. *)
Theorem pmm_reserved_never_granted available reserved s ops rs s' a :
  map_valid available ->
  Forall (fun r => 0 <= rsv_start r < rsv_end r /\ rsv_end r <= 2 ^ 64 - 4096) reserved ->
  pmm_init_from_ranges available reserved = Some s ->
  a ∈ avail_pages available ->
  (exists r, r ∈ reserved /\ a < rsv_end r /\ rsv_start r < a + 4096) \/
    (a < metadata_end s /\ metadata_start s < a + 4096) ->
  Forall op_in_range ops -> Forall (fun op => ~ frees op a) ops ->
  pmm_trace ops s = (rs, s') ->
  Forall2 (fun op r => ~ grants op r a) ops rs.
Proof.
  intros Hmv Hres Hinit Ha Hhit Hops Hfr Htr.
  destruct (init_spec available reserved s Hmv Hinit) as (Hwf & Hfit & Hend & _ & Hframes).
  eapply trace_reserved; try done. rewrite Hframes. unfold initial_frame.
  rewrite bool_decide_eq_true_2 by done. do 2 f_equal.
  assert (frame_reserved reserved a ||
    frame_hit (metadata_start s) (metadata_start s + metadata_bytes available) a = true) as ->;
    [|done].
  destruct (avail_frame_bounds available a (mv_ranges _ Hmv) Ha) as [Hb Hm].
  apply orb_true_iff. destruct Hhit as [(r & Hr & Hlt)|Hlt].
  - left. apply existsb_exists. exists r. split; [by apply list_elem_of_In|].
    rewrite Forall_forall in Hres. specialize (Hres r Hr). apply frame_hit_spec; done || lia.
  - right. destruct (storage_bounds _ _ _ _ (mv_ranges _ Hmv) Hfit) as (H0 & Hle).
    destruct (metadata_bytes_bounds available Hmv) as (_ & _ & Hpos & _).
    apply frame_hit_spec; try done; lia.
Qed.

Lemma pmm_reserved_never_granted_witness :
  Forall2 (fun op r => ~ grants op r 8192) [PageAlloc; RetainAddr 8192; AllocContiguous 2]
    (pmm_trace [PageAlloc; RetainAddr 8192; AllocContiguous 2] demo_pmm).1.
Proof.
  apply (pmm_reserved_never_granted demo_map demo_reserved demo_pmm _ _
    (pmm_trace [PageAlloc; RetainAddr 8192; AllocContiguous 2] demo_pmm).2 8192 demo_map_valid).
  - constructor; [|constructor]. simpl. lia.
  - exact demo_init.
  - apply (bool_decide_unpack _). vm_compute. exact I.
  - left. exists (mk_reserved_range 8192 8200). split; [left|]. simpl. lia.
  - repeat constructor; simpl; lia.
  - repeat constructor; simpl; tauto.
  - destruct (pmm_trace _ demo_pmm). reflexivity.
Defined.
