(* ===== verification/VmRegion.v ===== *)
(** * The table of address-space regions of a task (kernel/sched.c)

    A task's [vm_regions] array describes which addresses are mapped, with
    which protection and from which object.  The model keeps the live entries
    (the first [vm_region_count]) as a list, the capacity of the array, and for
    each [slab_zalloc] call to come the largest request it would satisfy,
    because an operation that splits a region may need a larger array.  Every operation runs under the
    task's lock and is one step.  The abstract view is a partial function from
    addresses to attributes ([vm_attr]); the theorems say what each operation
    does to it. *)
From stdpp Require Import gmap list sorting.
From Stdlib Require Import ZArith Lia.
From S2P Require Import Prelude.

Open Scope Z_scope.
Open Scope machine_scope.

(** ** Data *)

Definition TASK_VM_REGION_ELF : Z := 1.
Definition TASK_VM_REGION_STACK : Z := 2.
Definition TASK_VM_REGION_BRK : Z := 3.
Definition TASK_VM_REGION_MMAP : Z := 4.
Definition TASK_VM_PROT_READ : Z := 1.
Definition TASK_VM_PROT_WRITE : Z := 2.
Definition TASK_VM_PROT_EXEC : Z := 4.
Definition TASK_VM_MAP_PRIVATE : Z := 1.
Definition TASK_VM_MAP_ANONYMOUS : Z := 2.
Definition TASK_VM_OBJECT_ANON : Z := 1.
Definition TASK_VM_OBJECT_FILE : Z := 2.
Definition INITIAL_TASK_VM_REGIONS : Z := 32.
Definition VM_PAGE_SIZE : Z := 4096.

Record task_vm_region := mk_region {
  base : Z;
  len : Z;
  offset : Z;
  writable : bool;
  kind : Z;
  prot : Z;
  flags : Z;
  object_type : Z;
  object_id : Z;
}.

(** The part of [struct task] the operations use. *)
Record vm_table := mk_table {
  vm_regions : list task_vm_region;
  vm_region_capacity : Z;
  heap : list Z;
}.

Definition sizeof_task_vm_region : Z := 48.

Definition vm_region_count (t : vm_table) : Z := Z.of_nat (length (vm_regions t)).

Definition set_regions (rs : list task_vm_region) (t : vm_table) : vm_table :=
  mk_table rs (vm_region_capacity t) (heap t).

Definition with_base (b : Z) (r : task_vm_region) : task_vm_region :=
  mk_region b (len r) (offset r) (writable r) (kind r) (prot r) (flags r)
    (object_type r) (object_id r).
Definition with_len (l : Z) (r : task_vm_region) : task_vm_region :=
  mk_region (base r) l (offset r) (writable r) (kind r) (prot r) (flags r)
    (object_type r) (object_id r).
Definition with_offset (o : Z) (r : task_vm_region) : task_vm_region :=
  mk_region (base r) (len r) o (writable r) (kind r) (prot r) (flags r)
    (object_type r) (object_id r).

(** ** Growing the array *)

Definition task_grow_vm_regions_locked (min_capacity : Z) (t : vm_table) : Z * vm_table :=
  if min_capacity <=? vm_region_capacity t then (0, t) else
  let old_capacity := vm_region_capacity t in
  let new_capacity := if old_capacity =? 0 then INITIAL_TASK_VM_REGIONS else old_capacity in
  let new_capacity := double_capacity 32 new_capacity min_capacity in
  match heap t with
  | avail :: rest =>
      if new_capacity * sizeof_task_vm_region <=? avail
      then (0, mk_table (vm_regions t) new_capacity rest)
      else (-1, mk_table (vm_regions t) old_capacity rest)
  | [] => (-1, t)
  end.

(** ** Helpers *)

Definition region_end (r : task_vm_region) : Z := base r +w len r.

Definition writable_to_prot (writable : bool) : Z :=
  Z.lor TASK_VM_PROT_READ (if writable then TASK_VM_PROT_WRITE else 0).

Definition writable_to_flags (kind : Z) : Z :=
  Z.lor TASK_VM_MAP_PRIVATE
    (if (kind =? TASK_VM_REGION_MMAP) || (kind =? TASK_VM_REGION_BRK) ||
        (kind =? TASK_VM_REGION_STACK)
     then TASK_VM_MAP_ANONYMOUS else 0).

Definition kind_to_object_type (kind : Z) : Z :=
  if kind =? TASK_VM_REGION_ELF then TASK_VM_OBJECT_FILE else TASK_VM_OBJECT_ANON.

Definition regions_overlap (a_base a_len b_base b_len : Z) : bool :=
  let a_end := a_base +w a_len in
  let b_end := b_base +w b_len in
  (a_base <? b_end) && (b_base <? a_end).

Definition vm_region_metadata_matches (r : task_vm_region)
    (prot' flags' kind' object_type' object_id' : Z) : bool :=
  (kind r =? kind') && (prot r =? prot') && (flags r =? flags') &&
  (object_type r =? object_type') && (object_id r =? object_id').

Definition vm_region_append_offset_matches (r : task_vm_region)
    (object_type' object_id' offset' : Z) : bool :=
  (object_id' =? 0) || (object_type' =? TASK_VM_OBJECT_ANON) ||
  (offset r +w len r =? offset').

Definition vm_region_prepend_offset_matches (r : task_vm_region)
    (base' len' object_type' object_id' offset' : Z) : bool :=
  if (base r <=? base') || (object_id' =? 0) || (object_type' =? TASK_VM_OBJECT_ANON)
  then true
  else (u64 (offset' + (base r -w base')) =? offset r) &&
       (offset r <=? offset' +w len').

Definition task_vm_range_overlaps_other_locked (rs : list task_vm_region)
    (skip_index : nat) (base' len' : Z) : bool :=
  match findi (fun i r => negb (i =? skip_index)%nat &&
                          regions_overlap base' len' (base r) (len r)) 0 rs with
  | Some _ => true
  | None => false
  end.

Definition prot_writable (p : Z) : bool := negb (Z.land p TASK_VM_PROT_WRITE =? 0).

(** The common guard [len == 0 || base + len < base] of the entry points. *)
Definition bad_range (base' len' : Z) : bool :=
  (len' =? 0) || (base' +w len' <? base').

(** ** Adding mappings *)

Definition append_candidate (rs : list task_vm_region) (base' len' prot' map_flags kind'
    object_type' object_id' offset' : Z) (i : nat) (r : task_vm_region) : bool :=
  let new_len := len r +w len' in
  vm_region_metadata_matches r prot' map_flags kind' object_type' object_id' &&
  vm_region_append_offset_matches r object_type' object_id' offset' &&
  (region_end r =? base') && (len r <=? new_len) &&
  negb (task_vm_range_overlaps_other_locked rs i (base r) new_len).

Definition task_add_vm_mapping (base' len' prot' map_flags kind' object_type' object_id'
    offset' : Z) (t : vm_table) : Z * vm_table :=
  if bad_range base' len' then (-1, t) else
  let rs := vm_regions t in
  match findi (append_candidate rs base' len' prot' map_flags kind' object_type' object_id'
                 offset') 0 rs with
  | Some i => (0, set_regions (alter (fun r => with_len (len r +w len') r) i rs) t)
  | None =>
      if existsb (fun r => regions_overlap base' len' (base r) (len r)) rs then (-1, t)
      else
        let '(rc, t) := task_grow_vm_regions_locked (vm_region_count t + 1) t in
        if negb (rc =? 0) then (-1, t) else
        (0, set_regions (vm_regions t ++
              [mk_region base' len' offset' (prot_writable prot') kind' prot' map_flags
                 object_type' object_id']) t)
  end.

Definition task_add_vm_region (base' len' : Z) (writable' : bool) (kind' : Z)
    (t : vm_table) : Z * vm_table :=
  task_add_vm_mapping base' len' (writable_to_prot writable') (writable_to_flags kind')
    kind' (kind_to_object_type kind') 0 0 t.

Definition extend_candidate (rs : list task_vm_region) (base' len' prot' map_flags kind'
    object_type' object_id' offset' : Z) (i : nat) (r : task_vm_region) : bool :=
  let stop := region_end r in
  let req_end := base' +w len' in
  vm_region_metadata_matches r prot' map_flags kind' object_type' object_id' &&
  vm_region_prepend_offset_matches r base' len' object_type' object_id' offset' &&
  (base r <=? req_end) && (base' <=? stop) &&
  (let new_base := if base' <? base r then base' else base r in
   let new_end := if stop <? req_end then req_end else stop in
   let new_len := new_end -w new_base in
   negb ((new_end <? new_base) ||
         task_vm_range_overlaps_other_locked rs i new_base new_len)).

Definition extend_region (base' len' offset' : Z) (r : task_vm_region) : task_vm_region :=
  let stop := region_end r in
  let req_end := base' +w len' in
  let new_base := if base' <? base r then base' else base r in
  let new_end := if stop <? req_end then req_end else stop in
  let r' := if negb (new_base =? base r) then with_offset offset' (with_base new_base r)
            else r in
  with_len (new_end -w new_base) r'.

Definition task_add_or_extend_vm_mapping (base' len' prot' map_flags kind' object_type'
    object_id' offset' : Z) (t : vm_table) : Z * vm_table :=
  if bad_range base' len' then (-1, t) else
  let rs := vm_regions t in
  match findi (extend_candidate rs base' len' prot' map_flags kind' object_type' object_id'
                 offset') 0 rs with
  | Some i => (0, set_regions (alter (extend_region base' len' offset') i rs) t)
  | None => task_add_vm_mapping base' len' prot' map_flags kind' object_type' object_id'
              offset' t
  end.

Definition task_add_or_extend_vm_region (base' len' : Z) (writable' : bool) (kind' : Z)
    (t : vm_table) : Z * vm_table :=
  task_add_or_extend_vm_mapping base' len' (writable_to_prot writable')
    (writable_to_flags kind') kind' (kind_to_object_type kind') 0 0 t.

(** ** Queries *)

Definition task_vm_range_is_free (base' len' : Z) (t : vm_table) : bool :=
  if bad_range base' len' then false else
  negb (existsb (fun r => regions_overlap base' len' (base r) (len r)) (vm_regions t)).

(** The [while] of [task_vm_range_is_covered_locked]: each turn moves the
    cursor to the end of another region, so one turn per region is enough. *)
Fixpoint covered_loop (fuel : nat) (cursor stop : Z) (rs : list task_vm_region) : bool :=
  match fuel with
  | O => negb (cursor <? stop)
  | S fuel =>
      if cursor <? stop then
        match find_idx (fun r => (base r <=? cursor) && (cursor <? base r +w len r)) rs with
        | Some i =>
            match rs !! i with
            | Some r =>
                let region_end := base r +w len r in
                covered_loop fuel (if region_end <? stop then region_end else stop) stop rs
            | None => false
            end
        | None => false
        end
      else true
  end.

Definition task_vm_range_is_covered_locked (base' len' : Z) (t : vm_table) : bool :=
  covered_loop (length (vm_regions t)) base' (base' +w len') (vm_regions t).

(** ** Changing the protection of a range *)

Definition region_set_prot (p : Z) (r : task_vm_region) : task_vm_region :=
  mk_region (base r) (len r) (offset r) (prot_writable p) (kind r) p (flags r)
    (object_type r) (object_id r).

Definition task_append_vm_region_locked (r : task_vm_region) (t : vm_table) : Z * vm_table :=
  let '(rc, t) := task_grow_vm_regions_locked (vm_region_count t + 1) t in
  if negb (rc =? 0) then (-1, t) else (0, set_regions (vm_regions t ++ [r]) t).

(** One iteration of the loop of [task_protect_vm_region] on entry [i]. *)
Definition protect_entry (base' len' p : Z) (i : nat) (r : task_vm_region) (t : vm_table)
    : Z * vm_table :=
  let stop := base' +w len' in
  let region_base := base r in
  let region_end := base r +w len r in
  if negb (regions_overlap base' len' region_base (len r)) then (0, t) else
  let protect_base := if region_base <? base' then base' else region_base in
  let protect_end := if stop <? region_end then stop else region_end in
  if (protect_base =? region_base) && (protect_end =? region_end) then
    (0, set_regions (<[i := region_set_prot p r]> (vm_regions t)) t)
  else
  let middle := region_set_prot p (with_len (protect_end -w protect_base)
                                     (with_base protect_base r)) in
  if protect_base =? region_base then
    let r' := with_len (region_end -w protect_end) (with_base protect_end r) in
    task_append_vm_region_locked middle (set_regions (<[i := r']> (vm_regions t)) t)
  else
  let left := with_len (protect_base -w region_base) r in
  if protect_end =? region_end then
    task_append_vm_region_locked middle (set_regions (<[i := left]> (vm_regions t)) t)
  else
  let right := with_len (region_end -w protect_end) (with_base protect_end r) in
  let '(rc, t) := task_append_vm_region_locked middle
                    (set_regions (<[i := left]> (vm_regions t)) t) in
  if negb (rc =? 0) then (-1, t) else task_append_vm_region_locked right t.

(** The loop bound is read again at each turn, and a turn appends at most two
    entries, neither of which is split again: three turns per entry suffice. *)
Fixpoint protect_loop (fuel : nat) (i : nat) (base' len' p : Z) (t : vm_table)
    : Z * vm_table :=
  match fuel with
  | O => (0, t)
  | S fuel =>
      match vm_regions t !! i with
      | None => (0, t)
      | Some r =>
          let '(rc, t) := protect_entry base' len' p i r t in
          if negb (rc =? 0) then (-1, t) else protect_loop fuel (S i) base' len' p t
      end
  end.

Definition task_protect_vm_region (base' len' p : Z) (t : vm_table) : Z * vm_table :=
  if bad_range base' len' then (-1, t) else
  if negb (task_vm_range_is_covered_locked base' len' t) then (-1, t) else
  protect_loop (S (3 * length (vm_regions t))) 0 base' len' p t.

(** ** Removing a range *)

(** [vm_regions[i] = vm_regions[count - 1]; count--;] *)
Definition swap_remove (i : nat) (rs : list task_vm_region) : list task_vm_region :=
  match last rs with
  | Some r => removelast (<[i := r]> rs)
  | None => rs
  end.

Fixpoint remove_loop (fuel : nat) (i : nat) (base' len' : Z) (t : vm_table)
    : Z * vm_table :=
  match fuel with
  | O => (0, t)
  | S fuel =>
      match vm_regions t !! i with
      | None => (0, t)
      | Some r =>
          let stop := base' +w len' in
          let region_base := base r in
          let region_end := base r +w len r in
          if negb (regions_overlap base' len' region_base (len r))
          then remove_loop fuel (S i) base' len' t
          else
          let remove_base := if region_base <? base' then base' else region_base in
          let remove_end := if stop <? region_end then stop else region_end in
          if (remove_base =? region_base) && (remove_end =? region_end) then
            remove_loop fuel i base' len' (set_regions (swap_remove i (vm_regions t)) t)
          else if remove_base =? region_base then
            let r' := with_len (region_end -w remove_end) (with_base remove_end r) in
            remove_loop fuel (S i) base' len' (set_regions (<[i := r']> (vm_regions t)) t)
          else
          let left := with_len (remove_base -w region_base) r in
          if remove_end =? region_end then
            remove_loop fuel (S i) base' len' (set_regions (<[i := left]> (vm_regions t)) t)
          else
            let '(rc, t) := task_grow_vm_regions_locked (vm_region_count t + 1) t in
            if negb (rc =? 0) then (-1, t) else
            let right := with_len (region_end -w remove_end) (with_base remove_end r) in
            remove_loop fuel (S i) base' len'
              (set_regions (<[i := left]> (vm_regions t) ++ [right]) t)
      end
  end.

Definition task_remove_vm_region (base' len' : Z) (t : vm_table) : Z * vm_table :=
  if bad_range base' len' then (-1, t) else
  remove_loop (S (2 * length (vm_regions t))) 0 base' len' t.

(** ** Faults *)

Definition page_of (addr : Z) : Z := Z.land addr (not64 (VM_PAGE_SIZE -w 1)).

Definition task_vm_fault_is_file_backed (addr : Z) (t : vm_table) : bool :=
  let page := page_of addr in
  existsb (fun r => (base r <=? page) && (page <? region_end r) &&
                    (object_type r =? TASK_VM_OBJECT_FILE)) (vm_regions t).

Definition cow_candidate (page : Z) (r : task_vm_region) : bool :=
  (base r <=? page) && (page <? region_end r) &&
  negb (Z.land (prot r) TASK_VM_PROT_WRITE =? 0) &&
  negb (Z.land (flags r) TASK_VM_MAP_PRIVATE =? 0) &&
  negb (Z.land (flags r) TASK_VM_MAP_ANONYMOUS =? 0) &&
  (object_type r =? TASK_VM_OBJECT_ANON).

(** The page and the executable bit [vm_cow_user_page] is called with; [None]
    is the refusal of the fault. *)
Definition task_handle_cow_fault (addr : Z) (write_fault : bool) (t : vm_table)
    : option (Z * bool) :=
  let page := page_of addr in
  if negb write_fault then None else
  match find_idx (cow_candidate page) (vm_regions t) with
  | None => None
  | Some i =>
      (fun r => (page, negb (Z.land (prot r) TASK_VM_PROT_EXEC =? 0))) <$> vm_regions t !! i
  end.

Definition task_clear_vm_regions (t : vm_table) : vm_table := set_regions [] t.
Definition task_vm_region_count (t : vm_table) : Z := vm_region_count t.
Definition task_vm_region_at (index : Z) (t : vm_table) : option task_vm_region :=
  if vm_region_count t <=? index then None else vm_regions t !! Z.to_nat index.

(** ** The abstract view: what is mapped at an address *)

(** Attributes of an address; the object offset is the one of the address. *)
Record attrs := mk_attrs {
  a_kind : Z; a_prot : Z; a_flags : Z; a_object_type : Z; a_object_id : Z }.

Definition attrs_of (r : task_vm_region) : attrs :=
  mk_attrs (kind r) (prot r) (flags r) (object_type r) (object_id r).

Definition contains (a : Z) (r : task_vm_region) : bool :=
  (base r <=? a) && (a <? base r + len r).

Definition vm_attr (rs : list task_vm_region) (a : Z) : option attrs :=
  match find_idx (contains a) rs with
  | Some i => attrs_of <$> rs !! i
  | None => None
  end.

(** ** The invariant *)

Definition region_wf (r : task_vm_region) : Prop :=
  0 <= base r /\ 0 < len r /\ base r + len r < 2 ^ 64 /\
  writable r = prot_writable (prot r).

Definition apart (r q : task_vm_region) : Prop :=
  base r + len r <= base q \/ base q + len q <= base r.

Fixpoint apart_all (rs : list task_vm_region) : Prop :=
  match rs with
  | [] => True
  | r :: rs => (forall q, q ∈ rs -> apart r q) /\ apart_all rs
  end.

Record regions_wf (rs : list task_vm_region) : Prop := {
  rw_region : forall r, r ∈ rs -> region_wf r;
  rw_apart : apart_all rs;
}.

Record table_wf (t : vm_table) : Prop := {
  tw_regions : regions_wf (vm_regions t);
  tw_capacity : vm_region_count t <= vm_region_capacity t < 2 ^ 31;
  tw_heap : Forall (fun avail => avail <= 2 ^ 36) (heap t);
}.

(** ** Lemmas: machine arithmetic and membership *)

Lemma region_end_wf r : region_wf r -> base r +w len r = base r + len r.
Proof. intros (? & ? & ? & _). apply u64_small. unfold in_u64. lia. Qed.

Lemma bad_range_cases b l :
  in_u64 b -> in_u64 l -> bad_range b l = true -> l = 0 \/ 2 ^ 64 <= b + l.
Proof.
  unfold bad_range, in_u64. intros Hb Hl H. apply orb_true_iff in H as [H|H]; bool_facts; [by left|right].
  destruct (decide (b + l < 2 ^ 64)); [|lia]. rewrite u64_small in H by (unfold in_u64; lia). lia.
Qed.

Lemma bad_range_false b l :
  in_u64 b -> in_u64 l -> bad_range b l = false ->
  0 < l /\ b + l < 2 ^ 64 /\ b +w l = b + l.
Proof.
  unfold bad_range, in_u64. intros Hb Hl H. bool_facts.
  destruct (decide (b + l < 2 ^ 64)).
  - rewrite u64_small by (unfold in_u64; lia). lia.
  - exfalso. unfold u64 in *.
    assert ((b + l) mod 2 ^ 64 = b + l - 2 ^ 64) by (symmetry; apply Zmod_unique with 1; lia).
    lia.
Qed.

Lemma contains_spec a r : contains a r = true <-> base r <= a < base r + len r.
Proof. unfold contains. rewrite andb_true_iff, Z.leb_le, Z.ltb_lt. lia. Qed.

(** Two ranges overlap exactly when some address is in both. *)
Lemma regions_overlap_spec b l r :
  0 <= b -> 0 < l -> b + l < 2 ^ 64 -> region_wf r ->
  regions_overlap b l (base r) (len r) = true <->
  exists a, b <= a < b + l /\ contains a r = true.
Proof.
  intros Hb Hl Hbl Hr. unfold regions_overlap. rewrite (region_end_wf r Hr).
  rewrite u64_small by (unfold in_u64; lia). rewrite andb_true_iff, !Z.ltb_lt.
  destruct Hr as (? & ? & ? & _). setoid_rewrite contains_spec. split.
  - intros []. exists (Z.max b (base r)). lia.
  - intros (a & ? & ?). lia.
Qed.

Lemma apart_sym r q : apart r q -> apart q r.
Proof. unfold apart. lia. Qed.

Lemma apart_app l1 l2 :
  apart_all (l1 ++ l2) <->
  apart_all l1 /\ apart_all l2 /\ forall r q, r ∈ l1 -> q ∈ l2 -> apart r q.
Proof.
  induction l1 as [|r l1 IH]; simpl.
  - split; [|tauto]. intros. split; [done|split; [done|]]. by intros ?? ?%elem_of_nil.
  - rewrite IH. setoid_rewrite elem_of_app. setoid_rewrite elem_of_cons. naive_solver.
Qed.

#[export] Instance apart_all_perm : Proper (Permutation ==> iff) apart_all.
Proof.
  intros l l' Hp. induction Hp as [|r l l' Hp IH|r q l|]; simpl.
  - done.
  - rewrite IH. by setoid_rewrite Hp.
  - setoid_rewrite elem_of_cons. unfold apart. naive_solver.
  - by etrans.
Qed.

#[export] Instance regions_wf_perm : Proper (Permutation ==> iff) regions_wf.
Proof.
  intros l l' Hp. split; intros [H1 H2]; constructor.
  - by setoid_rewrite <- Hp.
  - by rewrite <- Hp.
  - by setoid_rewrite Hp.
  - by rewrite Hp.
Qed.

Lemma regions_wf_app l1 l2 :
  regions_wf (l1 ++ l2) <->
  regions_wf l1 /\ regions_wf l2 /\ forall r q, r ∈ l1 -> q ∈ l2 -> apart r q.
Proof.
  split.
  - intros [H1 H2]. rewrite apart_app in H2. setoid_rewrite elem_of_app in H1.
    split; [constructor; naive_solver|]. split; [constructor; naive_solver|naive_solver].
  - intros ([H1 H2] & [H3 H4] & H5). constructor.
    + intros r [?|?]%elem_of_app; auto.
    + rewrite apart_app. naive_solver.
Qed.

(** At most one region holds an address. *)
Lemma contains_unique rs a r q :
  regions_wf rs -> r ∈ rs -> q ∈ rs -> contains a r = true -> contains a q = true -> r = q.
Proof.
  intros [_ Hap] Hr Hq Hcr Hcq. rewrite contains_spec in Hcr, Hcq.
  induction rs as [|x rs IH]; [by apply elem_of_nil in Hr|].
  destruct Hap as [Hx Hap]. apply elem_of_cons in Hr as [->|Hr], Hq as [->|Hq]; [done| | |auto].
  - specialize (Hx q Hq). unfold apart in Hx. lia.
  - specialize (Hx r Hr). unfold apart in Hx. lia.
Qed.

Lemma vm_attr_Some rs a m :
  regions_wf rs ->
  vm_attr rs a = Some m <-> exists r, r ∈ rs /\ contains a r = true /\ attrs_of r = m.
Proof.
  intros Hd. unfold vm_attr. split.
  - destruct (find_idx _ rs) as [i|] eqn:Hf; [|done].
    apply find_idx_lookup in Hf as (r & Hr & Hc). rewrite Hr. intros [= <-].
    exists r. split; [|done]. apply list_elem_of_lookup. eauto.
  - intros (r & Hin & Hc & <-).
    destruct (find_idx _ rs) as [j|] eqn:Hf.
    + apply find_idx_lookup in Hf as (q & Hq & Hcq). rewrite Hq. simpl.
      f_equal. f_equal. eapply contains_unique; try done.
      apply list_elem_of_lookup. eauto.
    + rewrite find_idx_None in Hf. by rewrite Hf in Hc.
Qed.

Lemma vm_attr_None rs a :
  vm_attr rs a = None <-> forall r, r ∈ rs -> contains a r = false.
Proof.
  unfold vm_attr. destruct (find_idx _ rs) as [i|] eqn:Hf.
  - apply find_idx_lookup in Hf as (r & Hr & Hc). rewrite Hr. split; [done|].
    intros H. rewrite H in Hc; [done|]. apply list_elem_of_lookup. eauto.
  - by rewrite find_idx_None in Hf.
Qed.

Lemma vm_attr_perm rs rs' :
  regions_wf rs -> rs ≡ₚ rs' -> forall a, vm_attr rs a = vm_attr rs' a.
Proof.
  intros Hwf Hp a. apply option_eq. intros m.
  rewrite !vm_attr_Some by (by try rewrite <- Hp). by setoid_rewrite Hp.
Qed.

Lemma vm_attr_cons r rs a :
  vm_attr (r :: rs) a = if contains a r then Some (attrs_of r) else vm_attr rs a.
Proof.
  unfold vm_attr. simpl. destruct (contains a r); [done|]. by destruct (find_idx _ rs).
Qed.

Lemma vm_attr_app l1 l2 a :
  vm_attr (l1 ++ l2) a = match vm_attr l1 a with Some m => Some m | None => vm_attr l2 a end.
Proof.
  induction l1 as [|r l1 IH]; [done|].
  simpl. rewrite !vm_attr_cons. by destruct (contains a r).
Qed.

(** [pieces] are regions inside [r]. *)
Record pieces_of (r : task_vm_region) (pieces : list task_vm_region) : Prop := {
  po_wf : regions_wf pieces;
  po_inside : forall q, q ∈ pieces -> base r <= base q /\ base q + len q <= base r + len r;
}.

Lemma pieces_nil r : pieces_of r [].
Proof. constructor; [constructor; [|done]|]; by intros q ?%elem_of_nil. Qed.

Lemma pieces_cons r q l :
  region_wf q -> base r <= base q -> base q + len q <= base r + len r ->
  (forall x, x ∈ l -> apart q x) -> pieces_of r l -> pieces_of r (q :: l).
Proof.
  intros Hq H1 H2 Hap [[Hwf Hl] Hin]. constructor; [constructor|].
  - intros x [->|?]%elem_of_cons; auto.
  - done.
  - intros x [->|?]%elem_of_cons; auto.
Qed.

#[export] Hint Resolve pieces_nil : bunix.

(** Discharge [pieces_of r pieces] for an explicit list of subranges. *)
Ltac pieces :=
  repeat match goal with
  | |- pieces_of _ [] => apply pieces_nil
  | |- pieces_of _ (_ :: _) => apply pieces_cons
  | |- forall x, x ∈ _ -> _ =>
      let x := fresh "x" in let Hx := fresh "Hx" in
      intros x Hx; repeat (apply elem_of_cons in Hx as [->|Hx]); [..|by apply elem_of_nil in Hx]
  | |- region_wf _ => unfold region_wf in *; simpl; intuition (lia || done)
  | |- apart _ _ => unfold apart; simpl
  end; simpl; try lia.

Lemma pieces_replace r l pieces :
  regions_wf (r :: l) -> pieces_of r pieces -> regions_wf (pieces ++ l).
Proof.
  intros [Hwf [Hr Hl]] [Hp Hin]. apply regions_wf_app. split; [done|]. split.
  - constructor; [|done]. intros q Hq. apply Hwf. by right.
  - intros q x Hq Hx. specialize (Hr x Hx). specialize (Hin q Hq).
    pose proof (rw_region _ Hp q Hq). unfold region_wf in *. unfold apart in *. lia.
Qed.

Lemma vm_attr_inside r l a :
  regions_wf (r :: l) -> contains a r = true -> vm_attr l a = None.
Proof.
  intros [Hwf [Hr Hl]] Ha%contains_spec. apply vm_attr_None. intros q Hq.
  specialize (Hr q Hq). unfold apart in Hr. apply not_true_iff_false.
  rewrite contains_spec. lia.
Qed.

(** Replacing a region by pieces of it. *)
Lemma attr_replace r l pieces rs rs' a :
  regions_wf rs -> rs ≡ₚ r :: l -> rs' ≡ₚ pieces ++ l -> pieces_of r pieces ->
  regions_wf rs' /\
  vm_attr rs' a = if contains a r then vm_attr pieces a else vm_attr rs a.
Proof.
  intros Hwf Hp Hp' Hpo. rewrite Hp in Hwf.
  assert (regions_wf (pieces ++ l)) as Hwf' by by apply (pieces_replace r).
  split; [by rewrite Hp'|].
  rewrite (vm_attr_perm rs' _) with (2 := Hp') by by rewrite Hp'.
  rewrite (vm_attr_perm rs _) with (2 := Hp) by by rewrite Hp.
  rewrite vm_attr_app, vm_attr_cons. destruct (contains a r) eqn:Hc.
  - rewrite (vm_attr_inside r l a Hwf Hc). by destruct (vm_attr pieces a).
  - assert (vm_attr pieces a = None) as ->; [|done]. apply vm_attr_None. intros q Hq.
    destruct (po_inside r pieces Hpo q Hq). apply not_true_iff_false.
    intros Hq'%contains_spec. apply not_true_iff_false in Hc. apply Hc, contains_spec. lia.
Qed.

(** ** The array *)

(** The array has room for its entries, and will after it has grown. *)
Definition array_ok (t : vm_table) : Prop :=
  vm_region_count t <= vm_region_capacity t < 2 ^ 31 /\
  Forall (fun avail => avail <= 2 ^ 36) (heap t).

Lemma grow_spec t :
  array_ok t ->
  let '(rc, t') := task_grow_vm_regions_locked (vm_region_count t + 1) t in
  vm_regions t' = vm_regions t /\ array_ok t' /\
  (rc = 0 /\ vm_region_count t + 1 <= vm_region_capacity t' \/ rc = -1).
Proof.
  intros [Hcap Hheap]. unfold task_grow_vm_regions_locked.
  assert (0 <= vm_region_count t) by (unfold vm_region_count; lia).
  case_if; [split; [done|split; [done|left; lia]]|].
  set (c := if vm_region_capacity t =? 0 then INITIAL_TASK_VM_REGIONS
            else vm_region_capacity t).
  assert (0 < c < 2 ^ 31) by (unfold c, INITIAL_TASK_VM_REGIONS; case_if; lia).
  destruct (double_capacity_spec 32 c (vm_region_count t + 1)) as [Hd _];
    [lia|lia|lia|change (2 ^ Z.of_nat 32) with 4294967296; lia|].
  revert Hd. generalize (double_capacity 32 c (vm_region_count t + 1)) as n. intros n Hd.
  destruct (heap t) as [|avail rest] eqn:Hh; [by split; [|split; [rewrite <- Hh in Hheap|right]]|].
  apply Forall_cons in Hheap as [Hav Hrest]. unfold sizeof_task_vm_region.
  case_if; simpl.
  - split; [done|]. split; [|left; done || lia]. split; [|done]. unfold vm_region_count in *.
    simpl. lia.
  - split; [done|]. split; [by split|by right].
Qed.

Lemma append_spec r t :
  array_ok t ->
  let '(rc, t') := task_append_vm_region_locked r t in
  array_ok t' /\
  (rc = 0 /\ vm_regions t' = vm_regions t ++ [r] \/
   rc = -1 /\ vm_regions t' = vm_regions t).
Proof.
  intros Hok. unfold task_append_vm_region_locked.
  pose proof (grow_spec t Hok) as Hg.
  destruct (task_grow_vm_regions_locked _ t) as [rc t'].
  destruct Hg as (Hrs & [Hc Hh] & [[-> Hroom]| ->]); simpl.
  - split; [|left; by rewrite Hrs]. split; [|done]. unfold vm_region_count in *. simpl.
    rewrite Hrs, length_app in *. simpl. lia.
  - split; [by split|by right].
Qed.

Lemma append_full r t t' :
  array_ok t -> task_append_vm_region_locked r t = (-1, t') ->
  vm_region_count t' = vm_region_capacity t'.
Proof.
  intros [Hcap _]. unfold task_append_vm_region_locked, task_grow_vm_regions_locked.
  destruct (Z.leb_spec (vm_region_count t + 1) (vm_region_capacity t)); [done|].
  generalize (double_capacity 32 (if vm_region_capacity t =? 0 then INITIAL_TASK_VM_REGIONS else vm_region_capacity t)
    (vm_region_count t + 1)). intros c. destruct (heap t); simpl.
  - intros [= <-]. lia.
  - destruct (_ <=? _); simpl; [done|]. intros [= <-]. unfold vm_region_count in *. simpl. lia.
Qed.

(** ** Removal *)

Section Remove.
Context (b l : Z) (Hb : 0 <= b) (Hl : 0 < l) (Hbl : b + l < 2 ^ 64).

Definition hits (r : task_vm_region) : bool := regions_overlap b l (base r) (len r).

(** What is left of a region that meets the range. *)
Definition cut (r : task_vm_region) : list task_vm_region :=
  (if base r <? b then [with_len (b - base r) r] else []) ++
  (if b + l <? base r + len r
   then [with_len (base r + len r - (b + l)) (with_base (b + l) r)] else []).

(** Nothing outside the range changes; inside, mappings may only go. *)
Definition removed (rs rs' : list task_vm_region) : Prop :=
  forall a, (~ b <= a < b + l -> vm_attr rs' a = vm_attr rs a) /\
    (vm_attr rs' a = vm_attr rs a \/ vm_attr rs' a = None).

Lemma range_end : b +w l = b + l.
Proof using Hb Hl Hbl. apply u64_small. unfold in_u64. lia. Qed.

Lemma hits_spec r :
  region_wf r -> hits r = true <-> base r < b + l /\ b < base r + len r.
Proof using Hb Hl Hbl.
  intros Hr. unfold hits, regions_overlap. rewrite range_end, region_end_wf by done.
  rewrite andb_true_iff, !Z.ltb_lt. lia.
Qed.

Lemma removed_refl rs : removed rs rs.
Proof. intros a. auto. Qed.

Lemma removed_trans rs1 rs2 rs3 :
  removed rs1 rs2 -> removed rs2 rs3 -> removed rs1 rs3.
Proof.
  intros H1 H2 a. destruct (H1 a) as [H1o H1i], (H2 a) as [H2o H2i]. split.
  - intros Ha. by rewrite H2o, H1o.
  - destruct H2i as [->| ->]; auto.
Qed.

Lemma cut_pieces r : region_wf r -> hits r = true -> pieces_of r (cut r).
Proof using Hb Hl Hbl.
  intros Hr Hh. apply hits_spec in Hh; [|done]. unfold cut.
  pose proof Hr as (? & ? & ? & ?). repeat case_if; simpl; pieces.
Qed.

Lemma cut_attr r a :
  region_wf r -> contains a r = true ->
  vm_attr (cut r) a = if bool_decide (b <= a < b + l) then None else Some (attrs_of r).
Proof using Hl.
  intros Hr Ha%contains_spec. unfold cut. rewrite vm_attr_app.
  assert (forall q, contains a q = bool_decide (base q <= a < base q + len q)) as Hc.
  { intros q. apply eq_bool_prop_intro. rewrite !Is_true_true, contains_spec.
    by rewrite bool_decide_eq_true. }
  repeat (case_if || (rewrite vm_attr_cons, Hc; simpl) || case_bool_decide);
    try done; try lia.
Qed.

Lemma cut_clear r q : region_wf r -> hits r = true -> q ∈ cut r -> hits q = false.
Proof using Hb Hl Hbl.
  intros Hr Hh Hq. destruct (cut_pieces r Hr Hh) as [[Hwf _] _].
  pose proof (Hwf q Hq). apply hits_spec in Hh; [|done].
  apply not_true_iff_false. rewrite hits_spec by done.
  unfold cut in Hq. destruct Hr as (? & ? & ? & _).
  repeat case_if; simpl in Hq; set_unfold; destruct_or?; subst; simpl; tauto || lia.
Qed.

Lemma removed_step r rest rs rs' :
  regions_wf rs -> rs ≡ₚ r :: rest -> rs' ≡ₚ cut r ++ rest -> hits r = true ->
  regions_wf rs' /\ removed rs rs'.
Proof using Hb Hl Hbl.
  intros Hwf Hp Hp' Hh.
  assert (region_wf r) as Hr by (apply (rw_region _ Hwf); rewrite Hp; left).
  pose proof (fun a => attr_replace r rest (cut r) rs rs' a Hwf Hp Hp' (cut_pieces r Hr Hh))
    as Hrep.
  split; [apply (Hrep 0)|]. intros a. destruct (Hrep a) as [_ ->].
  destruct (contains a r) eqn:Hc; [|auto]. rewrite cut_attr by done.
  rewrite (vm_attr_perm rs (r :: rest)), vm_attr_cons, Hc by done.
  case_bool_decide; auto; tauto.
Qed.

(** Turns the loop may still take: an entry that meets the range may leave a
    remainder at the end of the array. *)
Definition cost (rs : list task_vm_region) : nat :=
  (length rs + length (filter (fun r => hits r = true) rs))%nat.

Lemma cost_cons r rs :
  cost (r :: rs) = (cost rs + if hits r then 2 else 1)%nat.
Proof.
  unfold cost. rewrite filter_cons. destruct (hits r); simpl; lia.
Qed.

Lemma cost_perm rs rs' : rs ≡ₚ rs' -> cost rs = cost rs'.
Proof. intros Hp. unfold cost. by rewrite Hp. Qed.

Lemma swap_remove_split done r rest :
  exists rest', swap_remove (length done) (done ++ r :: rest) = done ++ rest' /\
    rest' ≡ₚ rest.
Proof.
  unfold swap_remove. destruct rest as [|x rest _] using rev_ind.
  - rewrite last_snoc, insert_middle, removelast_last. exists []. by rewrite app_nil_r.
  - rewrite app_comm_cons, app_assoc, last_snoc.
    rewrite insert_app_l by (rewrite length_app; simpl; lia).
    rewrite removelast_last, insert_middle. exists (x :: rest). split; [done|].
    by rewrite Permutation_app_comm.
Qed.

(** What the loop promises from the state it is in. *)
Definition loop_post (t : vm_table) (res : Z * vm_table) : Prop :=
  let '(rc, t') := res in
  regions_wf (vm_regions t') /\ array_ok t' /\ removed (vm_regions t) (vm_regions t') /\
  (rc = 0 /\ (forall r, r ∈ vm_regions t' -> hits r = false) \/ rc = -1).

Lemma loop_post_step t t1 res :
  removed (vm_regions t) (vm_regions t1) -> loop_post t1 res -> loop_post t res.
Proof.
  intros H1. destruct res as [rc t']. intros (Hwf & Hok & Hrm & Hrc).
  split; [done|split; [done|split; [|done]]]. by eapply removed_trans.
Qed.

Lemma array_ok_set rs t :
  array_ok t -> (length rs <= length (vm_regions t))%nat -> array_ok (set_regions rs t).
Proof.
  intros [Hc Hh] Hle. split; [|done]. unfold vm_region_count in *. simpl. lia.
Qed.

(** One turn replaces the entry by what is left of it. *)
Lemma remove_turn done r rest pieces rest' t t1 :
  vm_regions t = done ++ r :: rest -> regions_wf (done ++ r :: rest) -> hits r = true ->
  vm_regions t1 = done ++ pieces ++ rest' -> pieces ++ rest' ≡ₚ cut r ++ rest ->
  regions_wf (done ++ pieces ++ rest') /\ removed (vm_regions t) (vm_regions t1).
Proof using Hb Hl Hbl.
  intros Ht Hwf Hh Ht1 Hp. rewrite Ht1, Ht.
  apply (removed_step r (done ++ rest)); [done| | |done].
  - by rewrite Permutation_middle.
  - rewrite Hp, !app_assoc. apply Permutation_app_tail, Permutation_app_comm.
Qed.

(** The four cases of the loop body. *)
Lemma remove_unfold fuel done r rest t :
  vm_regions t = done ++ r :: rest -> region_wf r -> hits r = true ->
  exists left right, 
    remove_loop (S fuel) (length done) b l t =
    match cut r with
    | [] => remove_loop fuel (length done) b l
              (set_regions (swap_remove (length done) (vm_regions t)) t)
    | [q] => remove_loop fuel (S (length done)) b l (set_regions (done ++ q :: rest) t)
    | _ =>
        let '(rc, t1) := task_grow_vm_regions_locked (vm_region_count t + 1) t in
        if negb (rc =? 0) then (-1, t1) else
        remove_loop fuel (S (length done)) b l
          (set_regions (<[length done := left]> (vm_regions t1) ++ [right]) t1)
    end /\ (forall q x rs, cut r = q :: x :: rs -> cut r = [left; right]).
Proof using Hb Hl Hbl.
  intros Ht Hr Hh. pose proof Hh as Hov%hits_spec; [|done].
  pose proof Hr as (Hr1 & Hr2 & Hr3 & _).
  exists (with_len (b - base r) r),
    (with_len (base r + len r - (b + l)) (with_base (b + l) r)).
  simpl remove_loop. rewrite Ht, list_lookup_middle by done. fold (hits r).
  rewrite Hh, range_end, region_end_wf by done. simpl negb. cbv iota. unfold cut.
  destruct (base r <? b) eqn:Hlo, (b + l <? base r + len r) eqn:Hhi; bool_facts; simpl app;
    decide_tests; rewrite ?insert_middle, ?u64_small by (unfold in_u64; lia);
    split; done || (intros ??? [=]; done).
Qed.

Definition loop_spec (fuel : nat) : Prop :=
  forall done rest t,
  vm_regions t = done ++ rest -> regions_wf (done ++ rest) -> array_ok t ->
  (cost rest < fuel)%nat -> (forall r, r ∈ done -> hits r = false) ->
  loop_post t (remove_loop fuel (length done) b l t).

(** Moving on to the next entry. *)
Lemma remove_next fuel done q rest t :
  loop_spec fuel -> vm_regions t = done ++ q :: rest -> regions_wf (done ++ q :: rest) ->
  array_ok t -> (cost rest < fuel)%nat ->
  (forall r, r ∈ done -> hits r = false) -> hits q = false ->
  loop_post t (remove_loop fuel (S (length done)) b l t).
Proof.
  intros IH Ht Hwf Hok Hf Hd Hq.
  replace (S (length done)) with (length (done ++ [q])) by (rewrite length_app; simpl; lia).
  apply (IH (done ++ [q]) rest); try (rewrite <- app_assoc); try done.
  intros x [?| ->%list_elem_of_singleton]%elem_of_app; auto.
Qed.

Lemma remove_loop_spec fuel : loop_spec fuel.
Proof using Hb Hl Hbl.
  induction fuel as [|fuel IH]; intros done rest t Ht Hwf Hok Hf Hd; [lia|].
  destruct rest as [|r rest].
  { simpl remove_loop. rewrite app_nil_r in *. rewrite Ht, lookup_ge_None_2 by done. simpl. rewrite Ht.
    split; [done|split; [done|split; [apply removed_refl|left; done]]]. }
  assert (region_wf r) as Hr by (apply (rw_region _ Hwf); set_solver).
  rewrite cost_cons in Hf. destruct (hits r) eqn:Hh.
  2: { simpl remove_loop. rewrite Ht, list_lookup_middle by done. fold (hits r). rewrite Hh. simpl.
       apply (remove_next fuel done r rest); done || lia. }
  destruct (remove_unfold fuel done r rest t Ht Hr Hh) as (left & right & -> & Hcut).
  pose proof (fun q Hq => cut_clear r q Hr Hh Hq) as Hclear.
  pose proof (remove_turn done r rest) as Hturn.
  destruct (cut r) as [|q [|x pieces]] eqn:Hc.
  - destruct (swap_remove_split done r rest) as (rest' & Hsw & Hp). rewrite Ht, Hsw.
    destruct (Hturn [] rest' t (set_regions (done ++ rest') t)) as [Hwf' Hrm]; try done.
    eapply loop_post_step; [exact Hrm|].
    apply (IH done rest'); try done; [apply array_ok_set; [done|]|].
    + rewrite Ht, !length_app, Hp. simpl. lia.
    + rewrite (cost_perm rest' rest) by done. lia.
  - destruct (Hturn [q] rest t (set_regions (done ++ q :: rest) t)) as [Hwf' Hrm]; try done.
    eapply loop_post_step; [exact Hrm|].
    apply (remove_next fuel done q rest); try done; [|lia|apply Hclear; left].
    apply array_ok_set; [done|]. rewrite Ht, !length_app. done.
  - specialize (Hcut _ _ _ eq_refl). injection Hcut as -> -> ->.
    pose proof (grow_spec t Hok) as Hg.
    destruct (task_grow_vm_regions_locked _ t) as [rc t1].
    destruct Hg as (Hrs & Hok1 & [[-> Hroom]| ->]); simpl.
    2: { rewrite Hrs. split; [by rewrite Ht|]. split; [done|]. split; [apply removed_refl|by right]. }
    rewrite Hrs, Ht, insert_middle.
    assert (set_regions ((done ++ left :: rest) ++ [right]) t1 =
            set_regions (done ++ left :: rest ++ [right]) t1) as -> by by rewrite <- app_assoc.
    destruct (Hturn [left] (rest ++ [right]) t (set_regions (done ++ left :: rest ++ [right]) t1))
      as [Hwf' Hrm]; try done.
    { simpl. by rewrite (Permutation_app_comm rest [right]). }
    eapply loop_post_step; [exact Hrm|].
    apply (remove_next fuel done left (rest ++ [right])); try done; [| |apply Hclear; left].
    + destruct Hok1 as [Hc1 Hh1]. split; [|done]. unfold vm_region_count in *. simpl.
      rewrite Ht, length_app in Hroom. simpl in Hroom.
      rewrite length_app. simpl. rewrite length_app. simpl. lia.
    + rewrite (cost_perm _ (right :: rest)) by by rewrite Permutation_app_comm.
      rewrite cost_cons, (Hclear right) by (right; left). lia.
Qed.

End Remove.

(** ** Coverage *)

Lemma find_containing rs a :
  regions_wf rs -> 
  find_idx (fun r => (base r <=? a) && (a <? base r +w len r)) rs = find_idx (contains a) rs.
Proof.
  intros Hwf. pose proof (rw_region _ Hwf) as Hr. clear Hwf.
  induction rs as [|r rs IH]; [done|]. simpl.
  rewrite (region_end_wf r) by (apply Hr; left). fold (contains a r).
  rewrite IH by (intros; apply Hr; by right). done.
Qed.

Lemma covered_loop_spec fuel cursor stop rs :
  regions_wf rs -> cursor <= stop ->
  (cursor < stop ->
   Z.of_nat (length (filter (fun r => cursor < base r + len r) rs)) <= Z.of_nat fuel) ->
  covered_loop fuel cursor stop rs = true <->
  forall a, cursor <= a < stop -> is_Some (vm_attr rs a).
Proof.
  intros Hwf. revert cursor. induction fuel as [|fuel IH]; intros cursor Hle Hf; simpl.
  { rewrite negb_true_iff, Z.ltb_ge. split; [intros ? a ?; lia|]. intros Hall.
    destruct (decide (stop <= cursor)); [done|]. exfalso.
    destruct (Hall cursor ltac:(lia)) as [m (r & Hr & Hc & _)%vm_attr_Some]; [|done].
    apply contains_spec in Hc.
    assert (r ∈ filter (fun r => cursor < base r + len r) rs) as Hin
      by (apply list_elem_of_filter; split; [lia|done]).
    specialize (Hf ltac:(lia)).
    destruct (filter _ rs); [by apply elem_of_nil in Hin|simpl in Hf; lia]. }
  case_if; [|split; [intros _ a ?; lia|done]].
  rewrite find_containing by done. destruct (find_idx _ rs) as [i|] eqn:Hfind.
  2: { split; [done|]. intros Hall. destruct (Hall cursor ltac:(lia)) as [m Hm].
       unfold vm_attr in Hm. by rewrite Hfind in Hm. }
  apply find_idx_lookup in Hfind as (r & Hr & Hc). rewrite Hr.
  assert (r ∈ rs) as Hin by (apply list_elem_of_lookup; eauto).
  rewrite (region_end_wf r) by by apply Hwf.
  pose proof Hc as Hcr%contains_spec.
  set (c := if base r + len r <? stop then base r + len r else stop).
  assert (cursor < c <= stop /\ c <= base r + len r) as Hcb by (unfold c; case_if; lia).
  rewrite IH; [|lia|].
  - split; intros Hall a Ha; [|apply Hall; lia].
    destruct (decide (c <= a)); [apply Hall; lia|].
    exists (attrs_of r). apply vm_attr_Some; [done|]. exists r.
    split; [done|split; [|done]]. apply contains_spec. lia.
  - unfold c in *. intros Hlt. case_if; [|lia]. specialize (Hf ltac:(lia)).
    apply (Z.le_trans _ (Z.of_nat (length (filter (fun q => cursor < base q + len q) rs)) - 1));
      [|lia].
    apply Z.lt_le_pred, inj_lt, (filter_lt _ _ rs r); cbv beta; [|done|lia..].
    intros q Hq. lia.
Qed.

Lemma covered_spec b l t :
  regions_wf (vm_regions t) -> 0 <= b -> 0 < l -> b + l < 2 ^ 64 ->
  task_vm_range_is_covered_locked b l t = true <->
  forall a, b <= a < b + l -> is_Some (vm_attr (vm_regions t) a).
Proof.
  intros Hwf Hb Hl Hbl. unfold task_vm_range_is_covered_locked.
  rewrite u64_small by (unfold in_u64; lia).
  apply covered_loop_spec; [done|lia|]. intros _.
  pose proof (length_filter (fun r => b < base r + len r) (vm_regions t)). lia.
Qed.

Lemma uncovered_spec b l t :
  regions_wf (vm_regions t) -> 0 <= b -> 0 < l -> b + l < 2 ^ 64 ->
  task_vm_range_is_covered_locked b l t = false ->
  exists a, b <= a < b + l /\ vm_attr (vm_regions t) a = None.
Proof.
  intros Hwf Hb Hl Hbl Hc.
  destruct (decide (Forall (fun a => is_Some (vm_attr (vm_regions t) a)) (seqZ b l))) as [Hall|Hno].
  - rewrite Forall_forall in Hall. assert (task_vm_range_is_covered_locked b l t = true); [|congruence].
    apply covered_spec; [done..|]. intros a Ha. by apply Hall, elem_of_seqZ.
  - apply not_Forall_Exists, Exists_exists in Hno as (a & Ha%elem_of_seqZ & Hn); [|apply _].
    exists a. split; [done|]. by apply eq_None_not_Some.
Qed.

(** ** Protection *)

Definition with_prot (p : Z) (m : attrs) : attrs :=
  mk_attrs (a_kind m) p (a_flags m) (a_object_type m) (a_object_id m).

Section Protect.
Context (b l p : Z) (Hb : 0 <= b) (Hl : 0 < l) (Hbl : b + l < 2 ^ 64).

Definition lo (r : task_vm_region) : Z := Z.max b (base r).
Definition hi (r : task_vm_region) : Z := Z.min (b + l) (base r + len r).

(** What replaces a region that meets the range: the entry's new content, and
    what is appended. *)
Definition mid_part (r : task_vm_region) : task_vm_region :=
  region_set_prot p (with_len (hi r - lo r) (with_base (lo r) r)).
Definition left_part (r : task_vm_region) : task_vm_region := with_len (lo r - base r) r.
Definition right_part (r : task_vm_region) : task_vm_region :=
  with_len (base r + len r - hi r) (with_base (hi r) r).

Definition split_prot (r : task_vm_region) : task_vm_region * list task_vm_region :=
  if (lo r =? base r) && (hi r =? base r + len r) then (region_set_prot p r, [])
  else if lo r =? base r then (right_part r, [mid_part r])
  else if hi r =? base r + len r then (left_part r, [mid_part r])
  else (left_part r, [mid_part r; right_part r]).

Fixpoint append_all (rs : list task_vm_region) (t : vm_table) : Z * vm_table :=
  match rs with
  | [] => (0, t)
  | r :: rs =>
      let '(rc, t) := task_append_vm_region_locked r t in
      if negb (rc =? 0) then (-1, t) else append_all rs t
  end.

Lemma append_all_spec rs t :
  array_ok t ->
  let '(rc, t') := append_all rs t in
  array_ok t' /\
  (rc = 0 /\ vm_regions t' = vm_regions t ++ rs \/
   rc = -1 /\ vm_region_count t' = vm_region_capacity t' /\
     exists l1 q l2, rs = l1 ++ q :: l2 /\ vm_regions t' = vm_regions t ++ l1).
Proof.
  revert t. induction rs as [|r rs IH]; intros t Hok; simpl.
  { split; [done|left]. by rewrite app_nil_r. }
  pose proof (append_spec r t Hok) as Ha. pose proof (append_full r t) as Hfull.
  destruct (task_append_vm_region_locked r t) as [rc t1].
  destruct Ha as (Hok1 & [[-> H1]|[-> H1]]); simpl.
  - specialize (IH t1 Hok1). destruct (append_all rs t1) as [rc t2].
    destruct IH as (Hok2 & [[-> H2]|(-> & Hf & l1 & q & l2 & -> & H2)]); split; try done.
    + left. by rewrite H2, H1, <- app_assoc.
    + right. split; [done|]. split; [done|]. exists (r :: l1), q, l2. by rewrite H2, H1, <- app_assoc.
  - split; [done|right]. split; [done|]. split; [by apply Hfull|]. exists [], r, rs. by rewrite app_nil_r.
Qed.

Lemma append_single r t :
  task_append_vm_region_locked r t = append_all [r] t.
Proof.
  simpl. unfold task_append_vm_region_locked.
  destruct (task_grow_vm_regions_locked _ t) as [rc t1]. by destruct (rc =? 0) eqn:?.
Qed.

Lemma protect_entry_split done r rest t :
  vm_regions t = done ++ r :: rest -> region_wf r -> hits b l r = true ->
  protect_entry b l p (length done) r t =
  append_all (split_prot r).2 (set_regions (done ++ (split_prot r).1 :: rest) t).
Proof using Hb Hl Hbl.
  intros Ht Hr Hh. pose proof Hh as Hov%hits_spec; [|done..].
  pose proof Hr as (Hr1 & Hr2 & Hr3 & _).
  unfold protect_entry. fold (hits b l r). rewrite Hh. simpl negb. cbv iota.
  rewrite range_end, region_end_wf by done. rewrite Ht, !insert_middle.
  assert ((if base r <? b then b else base r) = lo r) as -> by (unfold lo; case_if; lia).
  assert ((if b + l <? base r + len r then b + l else base r + len r) = hi r) as ->
    by (unfold hi; case_if; lia).
  assert (base r <= lo r < hi r /\ hi r <= base r + len r) as Hlh by (unfold lo, hi; lia).
  rewrite !u64_small by (unfold in_u64; lia).
  unfold split_prot. repeat case_if; try done; try (by rewrite append_single).
  simpl snd. simpl append_all at 1. destruct (task_append_vm_region_locked _ _) as [rc t1].
  case_if; [done|]. apply append_single.
Qed.

Definition split_list (r : task_vm_region) : list task_vm_region :=
  (split_prot r).1 :: (split_prot r).2.

Lemma lo_hi r :
  region_wf r -> hits b l r = true ->
  0 <= base r <= lo r /\ lo r < hi r /\ hi r <= base r + len r /\ base r + len r < 2 ^ 64 /\
  b <= lo r /\ hi r <= b + l /\ (lo r = base r \/ lo r = b) /\
  (hi r = base r + len r \/ hi r = b + l).
Proof using Hb Hl Hbl.
  intros Hr Hov%hits_spec; [|done..]. destruct Hr as (? & ? & ? & _). unfold lo, hi. lia.
Qed.

Lemma split_pieces r : region_wf r -> hits b l r = true -> pieces_of r (split_list r).
Proof using Hb Hl Hbl.
  intros Hr Hh. pose proof (lo_hi r Hr Hh). pose proof Hr as (? & ? & ? & ?).
  unfold split_list, split_prot, left_part, right_part, mid_part.
  repeat case_if; simpl; pieces.
Qed.

Lemma contains_bool a q : contains a q = bool_decide (base q <= a < base q + len q).
Proof.
  apply eq_bool_prop_intro. rewrite !Is_true_true, contains_spec.
  by rewrite bool_decide_eq_true.
Qed.

Lemma split_attr r a :
  region_wf r -> hits b l r = true -> contains a r = true ->
  vm_attr (split_list r) a =
  Some (if bool_decide (b <= a < b + l) then with_prot p (attrs_of r) else attrs_of r).
Proof using Hb Hl Hbl.
  intros Hr Hh Ha%contains_spec. pose proof (lo_hi r Hr Hh).
  unfold split_list, split_prot, left_part, right_part, mid_part.
  repeat case_if; simpl; rewrite !vm_attr_cons, !contains_bool; simpl;
    repeat case_bool_decide; try done; lia.
Qed.

(** The entry written back needs no second look, nor do the appended ones. *)
Definition settled (r : task_vm_region) : Prop := hits b l r = true -> prot r = p.

Definition inside (r : task_vm_region) : bool :=
  (b <=? base r) && (base r + len r <=? b + l).

Lemma split_settled r : region_wf r -> hits b l r = true -> settled (split_prot r).1.
Proof using Hb Hl Hbl.
  intros Hr Hh. pose proof (lo_hi r Hr Hh). pose proof (split_pieces r Hr Hh) as [[Hwf _] _].
  intros Hh'%hits_spec; [|done..|apply Hwf; left]. revert Hh'.
  unfold split_prot, left_part, right_part, mid_part.
  repeat case_if; simpl; try done; lia.
Qed.

Lemma split_appended r q :
  region_wf r -> hits b l r = true -> q ∈ (split_prot r).2 ->
  hits b l q = false \/ inside q = true.
Proof using Hb Hl Hbl.
  intros Hr Hh Hq. pose proof (lo_hi r Hr Hh). pose proof (split_pieces r Hr Hh) as [[Hwf _] _].
  assert (region_wf q) as Hqw by (apply Hwf; by right).
  destruct (inside q) eqn:Hi; [by right|left]. apply not_true_iff_false.
  rewrite hits_spec by done. apply andb_false_iff in Hi.
  rewrite !Z.leb_gt in Hi. revert Hq Hi.
  unfold split_prot, left_part, right_part, mid_part.
  repeat case_if; simpl; intros Hq Hi; repeat (apply elem_of_cons in Hq as [->|Hq]);
    try (by apply elem_of_nil in Hq); simpl in *; lia.
Qed.

Lemma split_inside r :
  region_wf r -> inside r = true -> (split_prot r).2 = [].
Proof.
  intros (? & ? & ? & _) Hi. unfold inside in Hi. bool_facts.
  unfold split_prot, lo, hi. decide_tests. done.
Qed.

Lemma split_length r : (length (split_prot r).2 <= 2)%nat.
Proof. unfold split_prot. repeat case_if; simpl; lia. Qed.

(** Turns the loop may still take. *)
Fixpoint pcost (rs : list task_vm_region) : nat :=
  match rs with
  | [] => 0
  | r :: rs => (pcost rs + if hits b l r && negb (inside r) then 3 else 1)%nat
  end.

Lemma pcost_app rs rs' : pcost (rs ++ rs') = (pcost rs + pcost rs')%nat.
Proof. induction rs as [|r rs IH]; simpl; lia. Qed.

Lemma pcost_le rs : (pcost rs <= 3 * length rs)%nat.
Proof. induction rs as [|r rs IH]; simpl; [lia|]. case_if; lia. Qed.

Lemma pcost_light rs :
  (forall q, q ∈ rs -> hits b l q = false \/ inside q = true) -> pcost rs = length rs.
Proof.
  induction rs as [|r rs IH]; intros Hq; simpl; [done|].
  rewrite IH by (intros; apply Hq; by right).
  destruct (Hq r) as [-> | ->]; [left| |]; simpl; [lia|]. rewrite andb_false_r. lia.
Qed.

Lemma pcost_split r rest :
  region_wf r -> hits b l r = true ->
  (pcost (rest ++ (split_prot r).2) < pcost (r :: rest))%nat.
Proof using Hb Hl Hbl.
  intros Hr Hh. rewrite pcost_app. simpl. rewrite Hh. simpl.
  rewrite (pcost_light (split_prot r).2) by (intros; by apply (split_appended r)).
  destruct (inside r) eqn:Hi; simpl.
  - rewrite split_inside by done. simpl. lia.
  - pose proof (split_length r). lia.
Qed.

(** Nothing outside the range changes; inside, only the protection may. *)
Definition protected (rs rs' : list task_vm_region) : Prop :=
  forall a, vm_attr rs' a = vm_attr rs a \/
    b <= a < b + l /\ vm_attr rs' a = with_prot p <$> vm_attr rs a.

Lemma protected_refl rs : protected rs rs.
Proof. intros a. by left. Qed.

Lemma protected_trans rs1 rs2 rs3 :
  protected rs1 rs2 -> protected rs2 rs3 -> protected rs1 rs3.
Proof.
  intros H1 H2 a. destruct (H1 a) as [E1|[Ha E1]], (H2 a) as [E2|[Ha' E2]];
    rewrite E2, E1; auto.
  right. split; [done|]. by destruct (vm_attr rs1 a).
Qed.

(** The array was full when region [r], which sticks out of the range, had to
    be split.  What [r] has before the range stays; of the range, [r] keeps
    nothing, or has the new protection; what [r] has after the range stays only
    if it has nothing before it. *)
Definition torn (r : task_vm_region) (rs rs' : list task_vm_region) : Prop :=
  r ∈ rs /\ base r < b + l /\ b < base r + len r /\ (base r < b \/ b + l < base r + len r) /\
  forall a,
    if bool_decide (base r <= a < base r + len r) then
      (a < b -> vm_attr rs' a = vm_attr rs a) /\
      (b <= a < b + l -> vm_attr rs' a = None \/ vm_attr rs' a = with_prot p <$> vm_attr rs a) /\
      (b + l <= a -> vm_attr rs' a = if base r <? b then None else vm_attr rs a)
    else vm_attr rs' a = vm_attr rs a \/
      b <= a < b + l /\ vm_attr rs' a = with_prot p <$> vm_attr rs a.

Definition protect_post (t : vm_table) (res : Z * vm_table) : Prop :=
  let '(rc, t') := res in
  regions_wf (vm_regions t') /\ array_ok t' /\
  (rc = 0 /\ protected (vm_regions t) (vm_regions t') /\
     (forall r, r ∈ vm_regions t' -> settled r) \/
   rc = -1 /\ vm_region_count t' = vm_region_capacity t' /\
     exists r, torn r (vm_regions t) (vm_regions t')).

Lemma attr_of_member rs r a :
  regions_wf rs -> r ∈ rs -> base r <= a < base r + len r -> vm_attr rs a = Some (attrs_of r).
Proof.
  intros Hwf Hr Ha. apply vm_attr_Some; [done|]. exists r. split_and!; [done| |done]. by apply contains_spec.
Qed.

Lemma torn_step r rs rs1 rs' :
  regions_wf rs -> regions_wf rs1 -> protected rs rs1 -> r ∈ rs -> torn r rs1 rs' -> torn r rs rs'.
Proof.
  intros Hwf Hwf1 Hp Hr (Hr1 & H1 & H2 & H3 & Ht). do 4 (split; [done|]). intros a. specialize (Ht a).
  case_bool_decide as Ha.
  - rewrite (attr_of_member rs r a) by done. by rewrite (attr_of_member rs1 r a) in Ht by done.
  - destruct (Hp a) as [Hs|[Hin Hs]]; rewrite Hs in Ht; [done|]. right. split; [done|].
    destruct Ht as [->|[_ ->]]; by destruct (vm_attr rs a).
Qed.

(** A region still to be split after a turn was there before it. *)
Definition keeps_open (rs rs1 : list task_vm_region) : Prop :=
  forall q, q ∈ rs1 -> hits b l q = true -> inside q = false -> q ∈ rs.

Lemma protect_post_step t t1 res :
  regions_wf (vm_regions t) -> regions_wf (vm_regions t1) ->
  protected (vm_regions t) (vm_regions t1) -> keeps_open (vm_regions t) (vm_regions t1) ->
  protect_post t1 res -> protect_post t res.
Proof using Hb Hl Hbl.
  intros Hwt Hwt1 H1 Hk. destruct res as [rc t']. intros (Hwf & Hok & Hrc).
  split; [done|split; [done|]]. destruct Hrc as [(-> & H2 & Hs)|(-> & Hf & r & Ht)]; [left|right].
  - split; [done|split; [|done]]. by eapply protected_trans.
  - split; [done|]. split; [done|]. exists r.
    apply (torn_step r _ (vm_regions t1)); [done..| |done].
    destruct Ht as (Hr & Hb1 & Hb2 & Hb3 & _). apply Hk; [done|..]; clear Hok Hf.
    + apply hits_spec; [done..| |lia]. by apply Hwt1.
    + unfold inside. apply andb_false_iff. rewrite !Z.leb_gt. lia.
Qed.

Lemma split_turn done r rest rs' :
  regions_wf (done ++ r :: rest) -> hits b l r = true ->
  rs' = (done ++ (split_prot r).1 :: rest) ++ (split_prot r).2 ->
  regions_wf rs' /\ protected (done ++ r :: rest) rs'.
Proof using Hb Hl Hbl.
  intros Hwf Hh ->.
  assert (region_wf r) as Hr by (apply (rw_region _ Hwf); set_solver).
  pose proof (fun a => attr_replace r (done ++ rest) (split_list r) _
    ((done ++ (split_prot r).1 :: rest) ++ (split_prot r).2) a Hwf) as Hrep.
  assert (done ++ r :: rest ≡ₚ r :: done ++ rest) as Hp by by rewrite Permutation_middle.
  assert ((done ++ (split_prot r).1 :: rest) ++ (split_prot r).2 ≡ₚ
          split_list r ++ done ++ rest) as Hp'.
  { unfold split_list. rewrite <- (Permutation_middle done rest). simpl. f_equiv.
    apply Permutation_app_comm. }
  specialize (Hrep 0 Hp Hp' (split_pieces r Hr Hh)) as Hrep0. split; [apply Hrep0|].
  intros a. destruct (Hrep a Hp Hp' (split_pieces r Hr Hh)) as [_ ->].
  destruct (contains a r) eqn:Hc; [|by left]. rewrite split_attr by done.
  rewrite (vm_attr_perm _ _ Hwf Hp), vm_attr_cons, Hc. case_bool_decide; auto.
Qed.

Lemma split_open done r rest rs' :
  regions_wf (done ++ r :: rest) -> hits b l r = true ->
  rs' = (done ++ (split_prot r).1 :: rest) ++ (split_prot r).2 -> keeps_open (done ++ r :: rest) rs'.
Proof using Hb Hl Hbl.
  intros Hwf Hh -> q Hq Hhq Hi.
  assert (region_wf r) as Hr by (apply (rw_region _ Hwf); set_solver).
  apply elem_of_app in Hq as [Hq|Hq]; [|destruct (split_appended r q Hr Hh Hq); congruence].
  apply elem_of_app in Hq as [Hq|Hq]; [set_solver|].
  apply elem_of_cons in Hq as [->|Hq]; [|set_solver]. exfalso.
  pose proof (lo_hi r Hr Hh). pose proof (split_pieces r Hr Hh) as [[Hw _] _].
  apply hits_spec in Hhq; [|done..|apply Hw; left]. revert Hhq Hi.
  unfold split_prot, left_part, right_part, inside. repeat case_if; simpl; intros Hhq Hi; try lia.
Qed.

(** When the array cannot grow, what was written so far is still a table. *)
Lemma split_partial done r rest l1 q l2 :
  regions_wf (done ++ r :: rest) -> hits b l r = true -> (split_prot r).2 = l1 ++ q :: l2 ->
  regions_wf ((done ++ (split_prot r).1 :: rest) ++ l1).
Proof using Hb Hl Hbl.
  intros Hwf Hh Hsp.
  destruct (split_turn done r rest _ Hwf Hh eq_refl) as [Hwf' _].
  rewrite Hsp, app_assoc in Hwf'. by apply regions_wf_app in Hwf' as [? _].
Qed.

Lemma pieces_prefix r l1 l2 : pieces_of r (l1 ++ l2) -> pieces_of r l1.
Proof.
  intros [Hw Hi]. apply regions_wf_app in Hw as [Hw _]. constructor; [done|]. intros q Hq. apply Hi.
  apply elem_of_app. by left.
Qed.

(** The parts of [r] that are left. *)
Lemma split_prefix r l1 q l2 :
  region_wf r -> hits b l r = true -> (split_prot r).2 = l1 ++ q :: l2 ->
  lo r = base r /\ hi r < base r + len r /\ (split_prot r).1 :: l1 = [right_part r] \/
  base r < lo r /\ (split_prot r).1 :: l1 = [left_part r] \/
  base r < lo r /\ (split_prot r).1 :: l1 = [left_part r; mid_part r].
Proof using Hb Hl Hbl.
  intros Hr Hh. pose proof (lo_hi r Hr Hh). unfold split_prot.
  destruct (Z.eqb_spec (lo r) (base r)), (Z.eqb_spec (hi r) (base r + len r)); simpl.
  - by destruct l1.
  - destruct l1 as [|x [|y l1]]; simpl; [|done..]. intros _. left. split_and!; [done|lia|done].
  - destruct l1 as [|x [|y l1]]; simpl; [|done..]. intros _. right. left. split; [lia|done].
  - destruct l1 as [|x [|y [|z l1]]]; simpl; [| |done..].
    + intros _. right. left. split; [lia|done].
    + intros [= -> _ _]. right. right. split; [lia|done].
Qed.

Lemma torn_parts r l1 q l2 a :
  region_wf r -> hits b l r = true -> (split_prot r).2 = l1 ++ q :: l2 ->
  base r <= a < base r + len r ->
  (base r < b \/ b + l < base r + len r) /\
  (a < b -> vm_attr ((split_prot r).1 :: l1) a = Some (attrs_of r)) /\
  (b <= a < b + l -> vm_attr ((split_prot r).1 :: l1) a = None \/
     vm_attr ((split_prot r).1 :: l1) a = Some (with_prot p (attrs_of r))) /\
  (b + l <= a -> vm_attr ((split_prot r).1 :: l1) a = if base r <? b then None else Some (attrs_of r)).
Proof using Hb Hl Hbl.
  intros Hr Hh Hsp Ha. pose proof (lo_hi r Hr Hh) as Hlh.
  assert ((base r <? b) = (base r <? lo r)) as -> by (unfold lo; destruct (Z.ltb_spec (base r) b),
    (Z.ltb_spec (base r) (Z.max b (base r))); lia).
  destruct (split_prefix r l1 q l2 Hr Hh Hsp) as [(Hlo & Hhi & ->)|[[Hlo ->]|[Hlo ->]]];
    rewrite !vm_attr_cons, !contains_bool; simpl; split_and!; try lia; intros Hr';
    decide_tests; repeat case_bool_decide; auto; lia.
Qed.

Lemma split_torn done r rest l1 q l2 :
  regions_wf (done ++ r :: rest) -> hits b l r = true -> (split_prot r).2 = l1 ++ q :: l2 ->
  torn r (done ++ r :: rest) ((done ++ (split_prot r).1 :: rest) ++ l1).
Proof using Hb Hl Hbl.
  intros Hwf Hh Hsp.
  assert (region_wf r) as Hr by (apply (rw_region _ Hwf); set_solver).
  assert (done ++ r :: rest ≡ₚ r :: done ++ rest) as Hp by by rewrite Permutation_middle.
  assert ((done ++ (split_prot r).1 :: rest) ++ l1 ≡ₚ ((split_prot r).1 :: l1) ++ done ++ rest) as Hp'.
  { rewrite <- (Permutation_middle done rest). simpl. f_equiv. apply Permutation_app_comm. }
  assert (pieces_of r ((split_prot r).1 :: l1)) as Hpo.
  { apply (pieces_prefix r _ (q :: l2)). simpl. rewrite <- Hsp. by apply split_pieces. }
  pose proof Hh as Hov%hits_spec; [|done..].
  assert (r ∈ done ++ r :: rest) as Hin by set_solver.
  pose proof (torn_parts r l1 q l2) as Hparts.
  split; [done|]. split; [lia|]. split; [lia|]. split.
  { destruct Hr as (? & ? & ? & ?). apply (Hparts (base r)); [done..|lia]. }
  intros a. destruct (attr_replace r (done ++ rest) _ _ _ a Hwf Hp Hp' Hpo) as [_ ->].
  rewrite contains_bool. case_bool_decide as Ha; [|by left].
  rewrite (attr_of_member (done ++ r :: rest) r a) by done. simpl. by apply (Hparts a).
Qed.

(** Once every region that meets the range is settled, the range is done. *)
Lemma protected_final rs rs' :
  regions_wf rs' -> protected rs rs' -> (forall r, r ∈ rs' -> settled r) ->
  forall a, vm_attr rs' a =
    if bool_decide (b <= a < b + l) then with_prot p <$> vm_attr rs a else vm_attr rs a.
Proof using Hb Hl Hbl.
  intros Hwf Hp Hset a. destruct (Hp a) as [Heq|[Ha Heq]]; case_bool_decide as Hin; try done.
  rewrite Heq. destruct (vm_attr rs a) as [m|]; [|done].
  apply vm_attr_Some in Heq as (r & Hr & Hc & Hm); [|done].
  assert (prot r = p) as Hpr.
  { apply (Hset r Hr). apply regions_overlap_spec; [lia..|by apply Hwf|eauto]. }
  rewrite <- Hm. unfold attrs_of, with_prot. simpl. by rewrite Hpr.
Qed.

Lemma protect_loop_spec fuel done rest t :
  vm_regions t = done ++ rest -> regions_wf (done ++ rest) -> array_ok t ->
  (pcost rest < fuel)%nat -> (forall r, r ∈ done -> settled r) ->
  protect_post t (protect_loop fuel (length done) b l p t).
Proof using Hb Hl Hbl.
  revert done rest t. induction fuel as [|fuel IH]; intros done rest t Ht Hwf Hok Hf Hd; [lia|].
  destruct rest as [|r rest].
  { simpl. rewrite app_nil_r in *. rewrite Ht, lookup_ge_None_2 by done. simpl. rewrite Ht.
    split; [done|split; [done|left; split; [done|split; [apply protected_refl|done]]]]. }
  assert (region_wf r) as Hr by (apply (rw_region _ Hwf); set_solver).
  simpl protect_loop. rewrite Ht, list_lookup_middle by done.
  assert (forall q rest' t1, vm_regions t1 = done ++ q :: rest' ->
    regions_wf (done ++ q :: rest') -> array_ok t1 -> (pcost rest' < fuel)%nat -> settled q ->
    protect_post t1 (protect_loop fuel (S (length done)) b l p t1)) as Hnext.
  { intros q rest' t1 Ht1 Hwf1 Hok1 Hf1 Hq.
    replace (S (length done)) with (length (done ++ [q])) by (rewrite length_app; simpl; lia).
    apply (IH (done ++ [q]) rest'); try (rewrite <- app_assoc); try done.
    intros x [?| ->%list_elem_of_singleton]%elem_of_app; auto. }
  destruct (hits b l r) eqn:Hh.
  2: { unfold protect_entry. fold (hits b l r). rewrite Hh. simpl.
       simpl in Hf. rewrite Hh in Hf. simpl in Hf.
       apply (Hnext r rest); try done; [lia|]. intros ?. congruence. }
  rewrite (protect_entry_split done r rest t) by done.
  pose proof (append_all_spec (split_prot r).2
    (set_regions (done ++ (split_prot r).1 :: rest) t)) as Ha.
  destruct (append_all _ _) as [rc t1].
  destruct Ha as (Hok1 & [[-> Ht1]|(-> & Hfull & l1 & q & l2 & Hsp & Ht1)]); simpl.
  { apply array_ok_set; [done|]. by rewrite Ht, !length_app. }
  2: { rewrite Ht1, Ht. split; [by apply (split_partial done r rest l1 q l2)|]. split; [done|right].
       split; [done|]. split; [done|]. exists r. by apply (split_torn done r rest l1 q l2). }
  simpl in Ht1. destruct (split_turn done r rest (vm_regions t1) Hwf Hh Ht1) as [Hwf1 Hp1].
  pose proof (split_open done r rest (vm_regions t1) Hwf Hh Ht1).
  apply (protect_post_step t t1); [by rewrite Ht|done|by rewrite Ht..|].
  pose proof (pcost_split r rest Hr Hh).
  rewrite <- app_assoc in Ht1. simpl in Ht1. rewrite Ht1 in Hwf1.
  apply (Hnext _ _ t1 Ht1 Hwf1 Hok1); [lia|by apply split_settled].
Qed.
End Protect.

(** ** Addition *)

Lemma overlap_apart b l x :
  0 <= b -> 0 < l -> b + l < 2 ^ 64 -> region_wf x ->
  regions_overlap b l (base x) (len x) = false ->
  b + l <= base x \/ base x + len x <= b.
Proof.
  intros Hb Hl Hbl Hx Hov. apply not_true_iff_false in Hov.
  change (regions_overlap b l (base x) (len x)) with (hits b l x) in Hov.
  rewrite hits_spec in Hov by done. lia.
Qed.

Lemma overlaps_other_false l1 r l2 b l :
  task_vm_range_overlaps_other_locked (l1 ++ r :: l2) (length l1) b l = false ->
  forall x, x ∈ l1 ++ l2 -> regions_overlap b l (base x) (len x) = false.
Proof.
  unfold task_vm_range_overlaps_other_locked. destruct (findi _ _ _) eqn:Hf; [done|].
  intros _ x Hx. rewrite findi_None in Hf.
  assert (exists j, (l1 ++ r :: l2) !! j = Some x /\ j <> length l1) as (j & Hj & Hne).
  { apply elem_of_app in Hx as [(j & Hj)%list_elem_of_lookup|(j & Hj)%list_elem_of_lookup].
    - exists j. pose proof (lookup_lt_Some _ _ _ Hj). rewrite lookup_app_l by done.
      split; [done|lia].
    - exists (length l1 + S j)%nat. rewrite lookup_app_r by lia.
      replace (length l1 + S j - length l1)%nat with (S j) by lia. split; [done|lia]. }
  specialize (Hf j x Hj). simpl in Hf. rewrite (proj2 (Nat.eqb_neq _ _)) in Hf by done. done.
Qed.

(** A region grows over addresses no other region holds. *)
Lemma attr_grow l1 r l2 q a :
  regions_wf (l1 ++ r :: l2) -> region_wf q -> attrs_of q = attrs_of r ->
  base q <= base r -> base r + len r <= base q + len q ->
  (forall x, x ∈ l1 ++ l2 -> regions_overlap (base q) (len q) (base x) (len x) = false) ->
  regions_wf (l1 ++ q :: l2) /\
  vm_attr (l1 ++ q :: l2) a =
    (if contains a q then Some (attrs_of r) else vm_attr (l1 ++ r :: l2) a) /\
  (contains a q = true ->
   vm_attr (l1 ++ r :: l2) a = if contains a r then Some (attrs_of r) else None).
Proof.
  intros Hwf Hq Hat H1 H2 Hov.
  assert (forall y, l1 ++ y :: l2 ≡ₚ y :: l1 ++ l2) as Hp by (intros; by rewrite Permutation_middle).
  assert (forall x, x ∈ l1 ++ l2 -> apart q x) as Hap.
  { intros x Hx. destruct Hq as (? & ? & ? & _). unfold apart.
    apply overlap_apart; [done..| |by apply Hov]. apply (rw_region _ Hwf). set_solver. }
  assert (regions_wf (q :: l1 ++ l2)) as Hwf'.
  { constructor.
    - intros x [->|Hx]%elem_of_cons; [done|]. apply (rw_region _ Hwf). set_solver.
    - split; [done|]. pose proof (rw_apart _ Hwf) as Hall. rewrite Hp in Hall. apply Hall. }
  split; [by rewrite (Hp q)|].
  rewrite (vm_attr_perm (l1 ++ q :: l2) (q :: l1 ++ l2)) by (done || by rewrite Hp).
  rewrite (vm_attr_perm (l1 ++ r :: l2) (r :: l1 ++ l2)) by (done || by rewrite Hp).
  rewrite !vm_attr_cons. split; [|intros Hc; by rewrite (vm_attr_inside q)].
  destruct (contains a q) eqn:Hc; [by rewrite Hat|].
  destruct (contains a r) eqn:Hcr; [|done]. apply contains_spec in Hcr.
  apply not_true_iff_false in Hc. rewrite contains_spec in Hc. lia.
Qed.

(** What a successful addition of [m] over the range promises. *)
Definition mapped (b l : Z) (m : attrs) (rs rs' : list task_vm_region) : Prop :=
  regions_wf rs' /\
  forall a, vm_attr rs' a = if bool_decide (b <= a < b + l) then Some m else vm_attr rs a.

Lemma table_wf_array t : table_wf t <-> regions_wf (vm_regions t) /\ array_ok t.
Proof.
  split; [intros []; done|]. intros [? [??]]. by constructor.
Qed.

Lemma metadata_matches_attrs r p f k o i :
  vm_region_metadata_matches r p f k o i = true -> attrs_of r = mk_attrs k p f o i.
Proof. unfold vm_region_metadata_matches, attrs_of. intros H. bool_facts. by subst. Qed.

Section Add.
Context (b l p f k o i off : Z) (t : vm_table).
Context (Hwf : table_wf t) (Hb : in_u64 b) (Hl : in_u64 l) (Hbad : bad_range b l = false).

Let m : attrs := mk_attrs k p f o i.

Lemma add_append j :
  findi (append_candidate (vm_regions t) b l p f k o i off) 0 (vm_regions t) = Some j ->
  let rs' := alter (fun r => with_len (len r +w l) r) j (vm_regions t) in
  mapped b l m (vm_regions t) rs' /\ length rs' = length (vm_regions t) /\
  forall a, b <= a < b + l -> vm_attr (vm_regions t) a = None.
Proof using Hwf Hb Hl Hbad.
  intros (r & _ & Hr & Hc)%findi_Some. rewrite Nat.sub_0_r in Hr.
  destruct (bad_range_false b l Hb Hl Hbad) as (Hl0 & Hbl & _).
  apply table_wf_array in Hwf as [Hrs _].
  assert (region_wf r) as Hrw
    by (apply (rw_region _ Hrs); apply list_elem_of_lookup; eauto).
  apply lookup_split in Hr as (l1 & l2 & Heq & <-). rewrite Heq in *.
  unfold append_candidate, region_end in Hc. rewrite region_end_wf in Hc by done. bool_facts.
  destruct Hrw as (Hr0 & Hr1 & Hr2 & Hr3).
  assert (len r +w l = len r + l) as Hlen by (apply u64_small; unfold in_u64; lia).
  rewrite Hlen in *. match goal with H : vm_region_metadata_matches _ _ _ _ _ _ = true |- _ =>
    apply metadata_matches_attrs in H as Hat end.
  rewrite alter_middle, Hlen.
  assert (region_wf (with_len (len r + l) r)) as Hqw
    by (unfold region_wf; simpl; repeat split; done || lia).
  pose proof (fun a => attr_grow l1 r l2 (with_len (len r + l) r) a Hrs Hqw eq_refl
    ltac:(simpl; lia) ltac:(simpl; lia) (overlaps_other_false l1 r l2 _ _ ltac:(eassumption)))
    as Hg.
  split; [split; [apply (Hg 0)|]|split; [by rewrite !length_app|]];
    intros a; destruct (Hg a) as (_ & Hout & Hin); rewrite contains_bool in Hin, Hout;
    simpl in Hin, Hout.
  - rewrite Hout. repeat case_bool_decide; try lia; [by rewrite Hat| |done].
    rewrite Hin by done. rewrite contains_bool, bool_decide_eq_true_2 by lia. done.
  - intros Ha. rewrite Hin by (apply bool_decide_eq_true_2; lia).
    by rewrite contains_bool, bool_decide_eq_false_2 by lia.
Qed.

Let fresh_region : task_vm_region := mk_region b l off (prot_writable p) k p f o i.

Lemma overlap_exists :
  existsb (fun r => regions_overlap b l (base r) (len r)) (vm_regions t) = true <->
  exists a, b <= a < b + l /\ is_Some (vm_attr (vm_regions t) a).
Proof using Hwf Hb Hl Hbad.
  destruct (bad_range_false b l Hb Hl Hbad) as (Hl0 & Hbl & _). unfold in_u64 in *.
  apply table_wf_array in Hwf as [Hrs _]. rewrite existsb_exists. split.
  - intros (r & Hr%list_elem_of_In & Hov).
    apply regions_overlap_spec in Hov as (a & Ha & Hc); [|lia..|by apply Hrs].
    exists a. split; [done|]. exists (attrs_of r). apply vm_attr_Some; eauto.
  - intros (a & Ha & m' & (r & Hr & Hc & _)%vm_attr_Some); [|done].
    exists r. split; [by apply list_elem_of_In|].
    apply regions_overlap_spec; [lia..|by apply Hrs|eauto].
Qed.

Lemma add_fresh :
  existsb (fun r => regions_overlap b l (base r) (len r)) (vm_regions t) = false ->
  mapped b l m (vm_regions t) (vm_regions t ++ [fresh_region]).
Proof using Hwf Hb Hl Hbad.
  intros Hno. destruct (bad_range_false b l Hb Hl Hbad) as (Hl0 & Hbl & _). unfold in_u64 in *.
  apply table_wf_array in Hwf as [Hrs _].
  assert (region_wf fresh_region) as Hq by (unfold region_wf; simpl; repeat split; done || lia).
  assert (vm_regions t ++ [fresh_region] ≡ₚ fresh_region :: vm_regions t) as Hp
    by by rewrite Permutation_app_comm.
  assert (regions_wf (fresh_region :: vm_regions t)) as Hwf'.
  { constructor; [intros x [->|?]%elem_of_cons; [done|by apply Hrs]|].
    split; [|apply Hrs]. intros x Hx. unfold apart. simpl. apply overlap_apart; [lia..|by apply Hrs|].
    apply not_true_iff_false in Hno. apply not_true_iff_false. intros Hov. apply Hno.
    apply existsb_exists. exists x. by rewrite <- list_elem_of_In. }
  assert (regions_wf (vm_regions t ++ [fresh_region])) as Hw by by rewrite Hp.
  split; [done|]. intros a. rewrite (vm_attr_perm _ _ Hw Hp), vm_attr_cons, contains_bool. simpl.
  by case_bool_decide.
Qed.

(** The outcome of [task_add_vm_mapping] and of [task_add_or_extend_vm_mapping],
    up to what the range held before. *)
Definition add_outcome (before : Z -> Prop) (res : Z * vm_table) : Prop :=
  let '(rc, t') := res in
  table_wf t' /\
  (rc = 0 /\ mapped b l m (vm_regions t) (vm_regions t') /\
     (forall a, b <= a < b + l -> before a) \/
   rc = -1 /\ vm_regions t' = vm_regions t /\
     ((exists a, b <= a < b + l /\ is_Some (vm_attr (vm_regions t) a)) \/
      vm_region_count t = vm_region_capacity t)).

Lemma add_spec :
  add_outcome (fun a => vm_attr (vm_regions t) a = None)
    (task_add_vm_mapping b l p f k o i off t).
Proof using Hwf Hb Hl Hbad.
  unfold task_add_vm_mapping. rewrite Hbad.
  pose proof Hwf as [Hrs Hok]%table_wf_array.
  destruct (findi _ 0 (vm_regions t)) as [j|] eqn:Hfind.
  { destruct (add_append j Hfind) as (Hm & Hlen & Hfree). split.
    - apply table_wf_array. split; [apply Hm|]. apply array_ok_set; [done|]. by rewrite Hlen.
    - left. split; [done|]. split; [exact Hm|done]. }
  destruct (existsb _ (vm_regions t)) eqn:Hex.
  { apply overlap_exists in Hex. split; [done|]. right. auto. }
  pose proof (append_spec fresh_region t Hok) as Ha.
  unfold task_append_vm_region_locked in Ha. fold fresh_region.
  assert (vm_region_count t < vm_region_capacity t ->
    task_grow_vm_regions_locked (vm_region_count t + 1) t = (0, t)) as Hroom.
  { intros Hlt. unfold task_grow_vm_regions_locked. by decide_tests. }
  assert (vm_region_count t = vm_region_capacity t \/
          vm_region_count t < vm_region_capacity t) as Hcases
    by (destruct Hok as [Hc _]; lia).
  destruct (task_grow_vm_regions_locked _ t) as [rc t1].
  destruct (negb (rc =? 0)) eqn:Hrc; destruct Ha as [Hok1 Ha].
  - destruct Ha as [[? _]|[_ Hsame]]; [done|]. split; [by apply table_wf_array; rewrite Hsame|].
    right. split; [done|]. split; [done|]. right. destruct Hcases as [?|Hlt]; [done|].
    specialize (Hroom Hlt). injection Hroom as -> _. done.
  - destruct Ha as [[_ Hnew]|[? _]]; [|done]. pose proof (add_fresh Hex) as Hm.
    rewrite <- Hnew in Hm. split; [apply table_wf_array; split; [apply Hm|done]|].
    left. split; [done|]. split; [done|]. intros a Ha.
    destruct (vm_attr (vm_regions t) a) eqn:Hat; [|done]. exfalso.
    apply not_true_iff_false in Hex. apply Hex, overlap_exists. eauto.
Qed.

Lemma extend_region_eq r :
  region_wf r -> base r <= b + l -> b <= base r + len r ->
  let q := extend_region b l off r in
  base q = Z.min b (base r) /\ len q = Z.max (b + l) (base r + len r) - Z.min b (base r) /\
  attrs_of q = attrs_of r /\ region_wf q.
Proof using Hb Hl Hbad.
  intros Hr H1 H2. destruct (bad_range_false b l Hb Hl Hbad) as (Hl0 & Hbl & Hend).
  unfold in_u64 in *. unfold extend_region, region_end. rewrite Hend, region_end_wf by done.
  destruct Hr as (? & ? & ? & ?).
  assert ((if b <? base r then b else base r) = Z.min b (base r)) as -> by (case_if; lia).
  assert ((if base r + len r <? b + l then b + l else base r + len r) =
          Z.max (b + l) (base r + len r)) as -> by (case_if; lia).
  rewrite u64_small by (unfold in_u64; lia). unfold region_wf. simpl.
  case_if; simpl; repeat split; try done; lia.
Qed.

(** What the test of the loop tells about the region it picks. *)
Lemma extend_candidate_true l1 r l2 :
  vm_regions t = l1 ++ r :: l2 -> region_wf r ->
  extend_candidate (vm_regions t) b l p f k o i off (length l1) r = true ->
  let q := extend_region b l off r in
  attrs_of r = m /\ base r <= b + l /\ b <= base r + len r /\
  forall x, x ∈ l1 ++ l2 -> regions_overlap (base q) (len q) (base x) (len x) = false.
Proof using Hb Hl Hbad.
  intros Heq Hrw Hc. destruct (bad_range_false b l Hb Hl Hbad) as (Hl0 & Hbl & Hend).
  unfold in_u64 in *. unfold extend_candidate, region_end in Hc.
  rewrite Hend, region_end_wf in Hc by done. bool_facts.
  destruct (extend_region_eq r Hrw) as (Hqb & Hql & _); [done..|].
  pose proof Hrw as (Hr0 & Hr1 & Hr2 & Hr3).
  split; [by apply metadata_matches_attrs|]. split; [done|]. split; [done|].
  apply (overlaps_other_false l1 r l2). rewrite <- Heq.
  match goal with H : task_vm_range_overlaps_other_locked _ _ _ _ = false |- _ =>
    rewrite <- H end.
  rewrite Hqb, Hql. f_equal; [case_if; lia|].
  rewrite u64_small by (unfold in_u64; repeat case_if; lia). repeat case_if; lia.
Qed.

Lemma extend_spec :
  add_outcome (fun a => vm_attr (vm_regions t) a = None \/ vm_attr (vm_regions t) a = Some m)
    (task_add_or_extend_vm_mapping b l p f k o i off t).
Proof using Hwf Hb Hl Hbad.
  unfold task_add_or_extend_vm_mapping. rewrite Hbad.
  destruct (findi _ 0 (vm_regions t)) as [j|] eqn:Hfind.
  2: { pose proof add_spec as Ha. unfold add_outcome in *.
       destruct (task_add_vm_mapping _ _ _ _ _ _ _ _ t) as [rc t'].
       destruct Ha as [Hw [(? & ? & Hn)|?]]; split; auto. left. auto. }
  apply findi_Some in Hfind as (r & _ & Hr & Hc). rewrite Nat.sub_0_r in Hr.
  destruct (bad_range_false b l Hb Hl Hbad) as (Hl0 & Hbl & _). unfold in_u64 in *.
  pose proof Hwf as [Hrs Hok]%table_wf_array.
  assert (region_wf r) as Hrw by (apply (rw_region _ Hrs), list_elem_of_lookup; eauto).
  apply lookup_split in Hr as (l1 & l2 & Heq & <-).
  destruct (extend_candidate_true l1 r l2 Heq Hrw Hc) as (Hat & H1 & H2 & Hno).
  destruct (extend_region_eq r Hrw H1 H2) as (Hqb & Hql & Hqa & Hqwf).
  set (q := extend_region b l off r) in *. pose proof Hrw as (Hr0 & Hr1 & Hr2 & Hr3).
  unfold add_outcome. rewrite Heq in *. rewrite alter_middle. fold q.
  pose proof (fun a => attr_grow l1 r l2 q a Hrs Hqwf Hqa ltac:(lia) ltac:(lia)
    Hno) as Hg.
  split; [apply table_wf_array; split; [apply (Hg 0)|]|left].
  { apply array_ok_set; [done|]. by rewrite Heq, !length_app. }
  split; [done|]. split; [split; [apply (Hg 0)|]|]; intros a; destruct (Hg a) as (_ & Hout & Hin);
    rewrite contains_bool, Hqb, Hql in Hin, Hout; simpl; rewrite Hat in *.
  - rewrite Hout. repeat case_bool_decide; try lia; [done| |done].
    rewrite Hin by done. rewrite contains_bool, bool_decide_eq_true_2 by lia. done.
  - intros Ha. rewrite Hin by (apply bool_decide_eq_true_2; lia). destruct (contains a r); auto.
Qed.
End Add.

(** ** The properties *)

Lemma bad_range_true b l :
  bad_range b l = true -> forall p f k o i off t,
  task_add_vm_mapping b l p f k o i off t = (-1, t) /\
  task_add_or_extend_vm_mapping b l p f k o i off t = (-1, t).
Proof.
  intros H **. unfold task_add_vm_mapping, task_add_or_extend_vm_mapping. by rewrite H.
Qed.

(** C24: Adding a mapping: the table stays a set of disjoint, non-wrapping
    regions that fit their array.  On success the whole range was unmapped
    before, maps to exactly the requested attributes after, and no other
    address changes, whether the new range was appended to a neighbour or got
    its own entry.  On failure the mappings are unchanged, and the request was
    empty or wrapped, met a mapping, or the array was full. *)
Theorem vm_add_mapping_correct b l p f k o i off t :
  table_wf t -> in_u64 b -> in_u64 l ->
  let '(rc, t') := task_add_vm_mapping b l p f k o i off t in
  table_wf t' /\
  (rc = 0 /\ bad_range b l = false /\
     (forall a, b <= a < b + l -> vm_attr (vm_regions t) a = None) /\
     (forall a, vm_attr (vm_regions t') a =
        if bool_decide (b <= a < b + l) then Some (mk_attrs k p f o i)
        else vm_attr (vm_regions t) a) \/
   rc = -1 /\ vm_regions t' = vm_regions t /\
     (bad_range b l = true \/
      (exists a, b <= a < b + l /\ is_Some (vm_attr (vm_regions t) a)) \/
      vm_region_count t = vm_region_capacity t)).
Proof.
  intros Hwf Hb Hl. destruct (bad_range b l) eqn:Hbad.
  { destruct (bad_range_true b l Hbad p f k o i off t) as [-> _]. split; auto. }
  pose proof (add_spec b l p f k o i off t Hwf Hb Hl Hbad) as Ha.
  destruct (task_add_vm_mapping b l p f k o i off t) as [rc t'].
  destruct Ha as [Hwf' [(-> & [_ Hm] & Hfree)|(-> & Hsame & Hwhy)]]; split; auto 10.
Qed.

(** A task with a stack and a two-page text region, in an array of four. *)
Definition demo_text : task_vm_region :=
  mk_region 4194304 8192 0 false TASK_VM_REGION_ELF 5 1 TASK_VM_OBJECT_FILE 7.
Definition demo_stack : task_vm_region :=
  mk_region 8388608 16384 0 true TASK_VM_REGION_STACK 3 3 TASK_VM_OBJECT_ANON 0.
Definition demo_table : vm_table := mk_table [demo_text; demo_stack] 2 [4096; 4096].

Lemma demo_table_wf : table_wf demo_table.
Proof.
  constructor; [constructor|..].
  - intros r Hr. simpl in Hr. repeat (apply elem_of_cons in Hr as [->|Hr]);
      [..|by apply elem_of_nil in Hr]; vm_compute; repeat split; discriminate.
  - simpl. repeat split; intros q Hq; repeat (apply elem_of_cons in Hq as [->|Hq]);
      try (by apply elem_of_nil in Hq). left. vm_compute. discriminate.
  - vm_compute. split; [discriminate|reflexivity].
  - repeat constructor; discriminate.
Qed.

Lemma vm_add_mapping_correct_witness :
  (task_add_vm_mapping 4202496 4096 5 1 1 2 7 8192 demo_table).1 = 0 /\
  vm_attr (vm_regions (task_add_vm_mapping 4202496 4096 5 1 1 2 7 8192 demo_table).2) 4202500 =
    Some (mk_attrs 1 5 1 2 7).
Proof.
  pose proof (vm_add_mapping_correct 4202496 4096 5 1 1 2 7 8192 demo_table demo_table_wf
    ltac:(apply in_u64_lit; reflexivity) ltac:(apply in_u64_lit; reflexivity)) as H.
  assert ((task_add_vm_mapping 4202496 4096 5 1 1 2 7 8192 demo_table).1 = 0) as Hrc by (vm_compute; reflexivity).
  destruct (task_add_vm_mapping 4202496 4096 5 1 1 2 7 8192 demo_table) as [rc t'].
  simpl in Hrc. subst rc.
  destruct H as [_ [(_ & _ & _ & H)|(? & _)]]; [|discriminate].
  split; [reflexivity|]. exact (H 4202500).
Defined.

(** Growing a mapping in place ([brk], stack growth): on success every
    address of the range maps to the requested attributes, nothing else
    changes, and what the range overlapped before already had those attributes;
    failure changes no mapping. *)
Theorem vm_add_or_extend_correct b l p f k o i off t :
  table_wf t -> in_u64 b -> in_u64 l ->
  let '(rc, t') := task_add_or_extend_vm_mapping b l p f k o i off t in
  table_wf t' /\
  (rc = 0 /\
     (forall a, b <= a < b + l -> vm_attr (vm_regions t) a = None \/
        vm_attr (vm_regions t) a = Some (mk_attrs k p f o i)) /\
     (forall a, vm_attr (vm_regions t') a =
        if bool_decide (b <= a < b + l) then Some (mk_attrs k p f o i)
        else vm_attr (vm_regions t) a) \/
   rc = -1 /\ vm_regions t' = vm_regions t).
Proof.
  intros Hwf Hb Hl. destruct (bad_range b l) eqn:Hbad.
  { destruct (bad_range_true b l Hbad p f k o i off t) as [_ ->]. split; auto. }
  pose proof (extend_spec b l p f k o i off t Hwf Hb Hl Hbad) as Ha.
  destruct (task_add_or_extend_vm_mapping b l p f k o i off t) as [rc t'].
  destruct Ha as [Hwf' [(-> & [_ Hm] & Hfree)|(-> & Hsame & _)]]; split; auto 10.
Qed.

Lemma vm_add_or_extend_correct_witness :
  vm_attr (vm_regions (task_add_or_extend_vm_mapping 8384512 8192 3 3 2 1 0 0 demo_table).2)
    8384600 = Some (mk_attrs 2 3 3 1 0).
Proof.
  pose proof (vm_add_or_extend_correct 8384512 8192 3 3 2 1 0 0 demo_table demo_table_wf
    ltac:(apply in_u64_lit; reflexivity) ltac:(apply in_u64_lit; reflexivity)) as H.
  assert ((task_add_or_extend_vm_mapping 8384512 8192 3 3 2 1 0 0 demo_table).1 = 0) as Hrc by (vm_compute; reflexivity).
  destruct (task_add_or_extend_vm_mapping 8384512 8192 3 3 2 1 0 0 demo_table) as [rc t'].
  simpl in Hrc. subst rc.
  destruct H as [_ [(_ & _ & H)|(? & _)]]; [|discriminate]. exact (H 8384600).
Defined.

(** C21: [munmap]: the loop ends, the table stays consistent, addresses outside
    the range keep their mapping in every case, and on success no address of
    the range is mapped any more.  When the array cannot take the second half
    of a split region, some of the range may be unmapped already. *)
Theorem vm_remove_correct b l t :
  table_wf t -> in_u64 b -> in_u64 l ->
  let '(rc, t') := task_remove_vm_region b l t in
  table_wf t' /\
  (rc = 0 /\
     (forall a, vm_attr (vm_regions t') a =
        if bool_decide (b <= a < b + l) then None else vm_attr (vm_regions t) a) \/
   rc = -1 /\
     (forall a, ~ b <= a < b + l -> vm_attr (vm_regions t') a = vm_attr (vm_regions t) a) /\
     (forall a, vm_attr (vm_regions t') a = vm_attr (vm_regions t) a \/
        vm_attr (vm_regions t') a = None)).
Proof.
  intros Hwf Hb Hl. unfold task_remove_vm_region. destruct (bad_range b l) eqn:Hbad.
  { split; auto. }
  destruct (bad_range_false b l Hb Hl Hbad) as (Hl0 & Hbl & _). unfold in_u64 in *.
  apply table_wf_array in Hwf as [Hrs Hok].
  pose proof (remove_loop_spec b l ltac:(lia) Hl0 Hbl (S (2 * length (vm_regions t))) []
    (vm_regions t) t eq_refl Hrs Hok) as Hloop.
  change (length []) with 0%nat in Hloop.
  destruct (remove_loop _ 0 b l t) as [rc t'].
  destruct Hloop as (Hwf' & Hok' & Hrm & Hrc).
  { unfold cost. pose proof (length_filter (fun r => hits b l r = true) (vm_regions t)). lia. }
  { by intros r ?%elem_of_nil. }
  split; [by apply table_wf_array|]. destruct Hrc as [[-> Hclear]| ->]; [left|right].
  - split; [done|]. intros a. case_bool_decide as Ha; [|by apply Hrm].
    apply vm_attr_None. intros r Hr. apply not_true_iff_false. intros Hc.
    specialize (Hclear r Hr). apply not_true_iff_false in Hclear. apply Hclear.
    apply regions_overlap_spec; [lia..|by apply Hwf'|]. eauto.
  - split; [done|]. split; intros a; apply Hrm.
Qed.

Lemma vm_remove_correct_witness :
  (task_remove_vm_region 8392704 4096 demo_table).1 = 0 /\
  vm_attr (vm_regions (task_remove_vm_region 8392704 4096 demo_table).2) 8392704 = None.
Proof.
  pose proof (vm_remove_correct 8392704 4096 demo_table demo_table_wf
    ltac:(apply in_u64_lit; reflexivity) ltac:(apply in_u64_lit; reflexivity)) as H.
  assert ((task_remove_vm_region 8392704 4096 demo_table).1 = 0) as Hrc by (vm_compute; reflexivity).
  destruct (task_remove_vm_region 8392704 4096 demo_table) as [rc t'].
  simpl in Hrc. subst rc.
  destruct H as [_ [(_ & H)|(? & _)]]; [|discriminate].
  split; [reflexivity|]. exact (H 8392704).
Defined.

(** C23: [mprotect]: the table stays consistent whatever splits were needed, and
    the call ends in one of three ways.  On success the range was mapped, every
    address of it has the new protection and keeps its kind, flags and object
    (the file offset is recorded apart), and no other address changes.  An
    empty, wrapping or not entirely mapped range is refused and nothing
    changes.  Otherwise a region that sticks out of a mapped range had to be
    split and the array was full and could not grow: that region is torn, with
    what it has after the range lost when it also begins before the range, and
    every address outside it is unchanged or, in the range, has the new
    protection. *)
Theorem vm_protect_correct b l p t :
  table_wf t -> in_u64 b -> in_u64 l ->
  let '(rc, t') := task_protect_vm_region b l p t in
  table_wf t' /\
  (rc = 0 /\ 0 < l /\ b + l < 2 ^ 64 /\
     (forall a, b <= a < b + l -> is_Some (vm_attr (vm_regions t) a)) /\
     (forall a, vm_attr (vm_regions t') a =
        if bool_decide (b <= a < b + l) then with_prot p <$> vm_attr (vm_regions t) a
        else vm_attr (vm_regions t) a) \/
   rc = -1 /\ t' = t /\
     (l = 0 \/ 2 ^ 64 <= b + l \/ exists a, b <= a < b + l /\ vm_attr (vm_regions t) a = None) \/
   rc = -1 /\ 0 < l /\ b + l < 2 ^ 64 /\
     (forall a, b <= a < b + l -> is_Some (vm_attr (vm_regions t) a)) /\
     vm_region_count t' = vm_region_capacity t' /\
     exists r, torn b l p r (vm_regions t) (vm_regions t')).
Proof.
  intros Hwf Hb Hl. unfold task_protect_vm_region. destruct (bad_range b l) eqn:Hbad.
  { split; [done|]. right. left. split; [done|]. split; [done|].
    destruct (bad_range_cases b l Hb Hl Hbad); auto. }
  destruct (bad_range_false b l Hb Hl Hbad) as (Hl0 & Hbl & _). unfold in_u64 in *.
  pose proof Hwf as [Hrs Hok]%table_wf_array.
  pose proof (covered_spec b l t Hrs ltac:(lia) Hl0 Hbl) as Hcov.
  destruct (task_vm_range_is_covered_locked b l t) eqn:Hc; simpl negb; cbv iota.
  2: { split; [done|]. right. left. split; [done|]. split; [done|]. right. right.
       apply (uncovered_spec b l t Hrs); done || lia. }
  pose proof (proj1 Hcov eq_refl) as Hall.
  pose proof (protect_loop_spec b l p ltac:(lia) Hl0 Hbl (S (3 * length (vm_regions t))) []
    (vm_regions t) t eq_refl Hrs Hok) as Hloop.
  change (length []) with 0%nat in Hloop.
  destruct (protect_loop _ 0 b l p t) as [rc t'].
  destruct Hloop as (Hwf' & Hok' & Hrc).
  { pose proof (pcost_le b l (vm_regions t)). lia. }
  { by intros r ?%elem_of_nil. }
  split; [by apply table_wf_array|]. destruct Hrc as [(-> & Hp & Hset)|(-> & Hfull & Htorn)].
  - left. split_and!; try done. apply protected_final; done || lia.
  - right. right. by split_and!.
Qed.

Lemma vm_protect_correct_witness :
  (task_protect_vm_region 8392704 4096 1 demo_table).1 = 0 /\
  vm_attr (vm_regions (task_protect_vm_region 8392704 4096 1 demo_table).2) 8392704 =
    Some (mk_attrs 2 1 3 1 0).
Proof.
  pose proof (vm_protect_correct 8392704 4096 1 demo_table demo_table_wf
    ltac:(apply in_u64_lit; reflexivity) ltac:(apply in_u64_lit; reflexivity)) as H.
  assert ((task_protect_vm_region 8392704 4096 1 demo_table).1 = 0) as Hrc
    by (vm_compute; reflexivity).
  destruct (task_protect_vm_region 8392704 4096 1 demo_table) as [rc t'].
  simpl in Hrc. subst rc.
  destruct H as (_ & [(_ & _ & _ & _ & H)|[(H & _)|(H & _)]]); [|discriminate H..].
  split; [reflexivity|]. exact (H 8392704).
Defined.

(** A defect of [mprotect]: when a region must be split in three and the
    array cannot grow, the region has already been shortened.  The call fails
    with -1 and yet addresses outside the requested range, mapped before, are
    not mapped any more. *)
Theorem vm_protect_failure_unmaps :
  exists t b l p a, table_wf t /\ in_u64 b /\ in_u64 l /\
    (task_protect_vm_region b l p t).1 = -1 /\ b + l <= a /\
    is_Some (vm_attr (vm_regions t) a) /\
    vm_attr (vm_regions (task_protect_vm_region b l p t).2) a = None.
Proof.
  exists (mk_table [demo_text; demo_stack] 2 []), 8392704, 4096, 1, 8396800.
  split; [by constructor; [apply demo_table_wf..|constructor]|].
  repeat split; try (vm_compute; discriminate || reflexivity).
  vm_compute. eauto.
Qed.

(** A defect of [munmap] and [mprotect] on file mappings: when the front of
    a region goes, its base moves and its file offset does not, so the pages
    that stay are recorded with the wrong offset. *)
Theorem vm_remove_stale_offset :
  exists t b l r r', table_wf t /\ r ∈ vm_regions t /\ object_type r = TASK_VM_OBJECT_FILE /\
    (task_remove_vm_region b l t).1 = 0 /\
    r' ∈ vm_regions (task_remove_vm_region b l t).2 /\ attrs_of r' = attrs_of r /\
    contains (base r') r = true /\
    offset r' <> offset r + (base r' - base r).
Proof.
  exists demo_table, 4194304, 4096, demo_text,
    (mk_region 4198400 4096 0 false TASK_VM_REGION_ELF 5 1 TASK_VM_OBJECT_FILE 7).
  split; [exact demo_table_wf|]. split; [left|]. split; [reflexivity|].
  split; [vm_compute; reflexivity|]. split; [vm_compute; left|].
  split; [reflexivity|]. split; [vm_compute; reflexivity|vm_compute; discriminate].
Qed.

Lemma page_of_spec addr :
  in_u64 addr -> page_of addr = addr / 4096 * 4096.
Proof. intros H. unfold page_of. apply (align_down_pow2 addr 12); [done|lia]. Qed.

Lemma cow_candidate_spec page r :
  region_wf r ->
  cow_candidate page r = true <->
  contains page r = true /\ Z.testbit (prot r) 1 = true /\ Z.testbit (flags r) 0 = true /\
  Z.testbit (flags r) 1 = true /\ object_type r = TASK_VM_OBJECT_ANON.
Proof.
  intros Hr. unfold cow_candidate, region_end. rewrite region_end_wf by done.
  change TASK_VM_PROT_WRITE with (2 ^ 1). change TASK_VM_MAP_PRIVATE with (2 ^ 0).
  change TASK_VM_MAP_ANONYMOUS with (2 ^ 1).
  rewrite (flag_test (prot r) 1), (flag_test (flags r) 0), (flag_test (flags r) 1) by lia.
  fold (contains page r). rewrite !andb_true_iff, Z.eqb_eq. tauto.
Qed.

(** Copy-on-write faults: the kernel copies a page only on a write fault
    inside a region that is writable, private and anonymous; the page is the
    one that holds the faulting address and it is executable exactly if the
    region is.  Every other fault is refused, and no such fault is. *)
Theorem vm_cow_fault_correct addr write_fault t page x :
  table_wf t -> in_u64 addr ->
  task_handle_cow_fault addr write_fault t = Some (page, x) <->
  write_fault = true /\ page = addr / 4096 * 4096 /\
  exists m, vm_attr (vm_regions t) page = Some m /\
    Z.testbit (a_prot m) 1 = true /\ Z.testbit (a_flags m) 0 = true /\
    Z.testbit (a_flags m) 1 = true /\ a_object_type m = TASK_VM_OBJECT_ANON /\
    x = Z.testbit (a_prot m) 2.
Proof.
  intros Hwf Haddr. apply table_wf_array in Hwf as [Hrs _].
  unfold task_handle_cow_fault. rewrite page_of_spec by done.
  set (pg := addr / 4096 * 4096). destruct write_fault; simpl; [|naive_solver].
  destruct (find_idx _ (vm_regions t)) as [i|] eqn:Hf.
  - apply find_idx_lookup in Hf as (r & Hr & Hc). rewrite Hr. simpl.
    assert (r ∈ vm_regions t) as Hin by (apply list_elem_of_lookup; eauto).
    apply cow_candidate_spec in Hc as (Hc & Hbits); [|by apply Hrs].
    assert (vm_attr (vm_regions t) pg = Some (attrs_of r)) as Hat by (apply vm_attr_Some; eauto).
    change TASK_VM_PROT_EXEC with (2 ^ 2). rewrite (flag_test (prot r) 2) by lia. split.
    + intros [= <- <-]. split; [done|split; [done|]]. exists (attrs_of r). naive_solver.
    + intros (_ & -> & m & Hm & _ & _ & _ & _ & ->). rewrite Hat in Hm. by injection Hm as <-.
  - rewrite find_idx_None in Hf. split; [done|].
    intros (_ & -> & m & (r & Hr & Hc & <-)%vm_attr_Some & Hbits); [|done].
    specialize (Hf r Hr). apply not_true_iff_false in Hf. exfalso. apply Hf.
    apply cow_candidate_spec; [by apply Hrs|]. simpl in Hbits. tauto.
Qed.

Lemma vm_cow_fault_correct_witness :
  task_handle_cow_fault 8390000 true demo_table = Some (8388608, false).
Proof.
  apply (vm_cow_fault_correct 8390000 true demo_table 8388608 false demo_table_wf).
  - apply in_u64_lit. reflexivity.
  - split; [reflexivity|]. split; [vm_compute; reflexivity|].
    exists (attrs_of demo_stack). repeat split; vm_compute; reflexivity.
Defined.
