(* ===== verification/Handles.v ===== *)
(** * Kernel objects, references and handle tables (kernel/sched.c, kernel/ipc.c,
      kernel/buffer.c)

    Tasks reach kernel objects (ports, tasks, shared buffers, hardware
    resources, scheduling policies) through the handles of their handle table;
    a handle carries rights.  Objects are reference counted by hand: granting a
    handle retains, closing it releases, and whoever looks an object up through
    a handle owns a reference until it releases it.

    The model keeps one map per kind of object.  An object is named by an
    identifier that is never used again, so an access to memory that has been
    freed is an access to a name the map does not have: the operations return
    [None] there.  The refcounting theorems say that this never happens.
    [held] is the number of references that are not handles (the caller's, a
    message's). *)
From stdpp Require Import gmap list sorting strings.
From Stdlib Require Import ZArith Lia.
From S2P Require Import Prelude VmRegion.

Open Scope Z_scope.
Open Scope machine_scope.

(** ** Data *)

(** [enum task_handle_type]; the capability types of messages
    ([enum ipc_cap_type], [enum task_cap_type]) name the same kinds. *)
Inductive handle_type :=
  | HEmpty | HPort | HTask | HBuffer | HHw | HPolicy.

#[export] Instance handle_type_eq_dec : EqDecision handle_type.
Proof. solve_decision. Defined.

Definition TASK_RIGHT_SEND : Z := 1.
Definition TASK_RIGHT_RECV : Z := 2.
Definition TASK_RIGHT_DUP : Z := 4.
Definition INITIAL_TASK_HANDLES : Z := 16.
Definition sizeof_task_handle : Z := 24.

Record task_handle := mk_handle {
  h_type : handle_type;
  h_rights : Z;
  h_tag : Z;
  h_object : Z;
}.

Definition empty_handle : task_handle := mk_handle HEmpty 0 0 0.

(** The part of [struct task] the operations of this file use.  The handle
    array has [length handles] entries, its capacity. *)
Record task := mk_task {
  handles : list task_handle;
  t_ref : Z;
  dead : bool;
  killing : bool;
  thread_count : Z;
  affinity : option Z;          (* ipc_affinity_cpu, ipc_affinity_valid *)
  reply_port : Z;               (* 0 is the null pointer *)
  t_vm : vm_table;
  owns_vm_space : bool;
}.

(** [struct ipc_message]; [m_reply_port] 0 is the null pointer. *)
Record ipc_message := mk_msg {
  m_protocol : Z;
  m_type : Z;
  m_sender : Z;
  m_cap_rights : Z;
  m_reply_port : Z;
  m_cap_type : handle_type;
  m_cap_object : Z;
  m_words : list Z;
}.

Record ipc_port := mk_port {
  p_name : string;
  p_ref : Z;
  immortal : bool;
  p_queue : list ipc_message;
  queued : Z;
  receiver : Z;                 (* a thread, 0 is null *)
  receiver_wait : Z;            (* its wait record, 0 is null *)
  receiver_index : Z;
  p_affinity : option Z;
}.

Record task_hw_resource := mk_hw { hw_owned : bool; hw_ref : Z }.

(** [struct ipc_wait], on the stack of a receiver. *)
Record ipc_wait := mk_wait { w_message : option ipc_message; w_index : Z; w_delivered : bool }.

(** The counters of [struct ipc_stats]. *)
Inductive ipc_counter :=
  | CntSends | CntQueued | CntDirectDelivered | CntDirectHandoff | CntCrossCpu | CntNested
  | CntScheduler | CntInvalid.

#[export] Instance ipc_counter_eq_dec : EqDecision ipc_counter.
Proof. solve_decision. Defined.

(** Calls into other parts of the kernel and statistics events, in order. *)
Inductive kcall :=
  | CCount (c : ipc_counter) (cpu : Z)
  | CNotifyDeath (pid : Z)
  | CUnmapUserRange (pid base len : Z)
  | CDestroySpace (pid : Z)
  | CUnblock (thread : Z)
  | CHandoff (thread : Z).

Record kernel := mk_kernel {
  tasks : gmap Z task;
  ports : gmap Z ipc_port;
  ports_by_name : gmap string Z;
  buffers : gmap Z Z;           (* reference counts *)
  hws : gmap Z task_hw_resource;
  policies : gmap Z Z;          (* reference counts *)
  waits : gmap Z ipc_wait;
  next_port_id : Z;
  kheap : list Z;               (* what the coming allocations would satisfy *)
  calls : list kcall;
}.

Definition kernel_task : Z := -1.

(** *** Record updates *)

Definition set_tasks (m : gmap Z task) (k : kernel) : kernel :=
  mk_kernel m (ports k) (ports_by_name k) (buffers k) (hws k) (policies k) (waits k)
    (next_port_id k) (kheap k) (calls k).
Definition set_ports (m : gmap Z ipc_port) (k : kernel) : kernel :=
  mk_kernel (tasks k) m (ports_by_name k) (buffers k) (hws k) (policies k) (waits k)
    (next_port_id k) (kheap k) (calls k).
Definition set_names (m : gmap string Z) (k : kernel) : kernel :=
  mk_kernel (tasks k) (ports k) m (buffers k) (hws k) (policies k) (waits k)
    (next_port_id k) (kheap k) (calls k).
Definition set_buffers (m : gmap Z Z) (k : kernel) : kernel :=
  mk_kernel (tasks k) (ports k) (ports_by_name k) m (hws k) (policies k) (waits k)
    (next_port_id k) (kheap k) (calls k).
Definition set_hws (m : gmap Z task_hw_resource) (k : kernel) : kernel :=
  mk_kernel (tasks k) (ports k) (ports_by_name k) (buffers k) m (policies k) (waits k)
    (next_port_id k) (kheap k) (calls k).
Definition set_policies (m : gmap Z Z) (k : kernel) : kernel :=
  mk_kernel (tasks k) (ports k) (ports_by_name k) (buffers k) (hws k) m (waits k)
    (next_port_id k) (kheap k) (calls k).
Definition set_waits (m : gmap Z ipc_wait) (k : kernel) : kernel :=
  mk_kernel (tasks k) (ports k) (ports_by_name k) (buffers k) (hws k) (policies k) m
    (next_port_id k) (kheap k) (calls k).
Definition set_heap (h : list Z) (k : kernel) : kernel :=
  mk_kernel (tasks k) (ports k) (ports_by_name k) (buffers k) (hws k) (policies k) (waits k)
    (next_port_id k) h (calls k).
Definition bump_port_id (k : kernel) : kernel :=
  mk_kernel (tasks k) (ports k) (ports_by_name k) (buffers k) (hws k) (policies k) (waits k)
    (next_port_id k + 1) (kheap k) (calls k).
Definition call (c : kcall) (k : kernel) : kernel :=
  mk_kernel (tasks k) (ports k) (ports_by_name k) (buffers k) (hws k) (policies k) (waits k)
    (next_port_id k) (kheap k) (calls k ++ [c]).

Definition put_task (tid : Z) (t : task) (k : kernel) : kernel :=
  set_tasks (<[tid := t]> (tasks k)) k.
Definition put_port (o : Z) (p : ipc_port) (k : kernel) : kernel :=
  set_ports (<[o := p]> (ports k)) k.

Definition with_handles (hs : list task_handle) (t : task) : task :=
  mk_task hs (t_ref t) (dead t) (killing t) (thread_count t) (affinity t) (reply_port t)
    (t_vm t) (owns_vm_space t).
Definition with_ref (r : Z) (t : task) : task :=
  mk_task (handles t) r (dead t) (killing t) (thread_count t) (affinity t) (reply_port t)
    (t_vm t) (owns_vm_space t).
Definition with_affinity (a : option Z) (t : task) : task :=
  mk_task (handles t) (t_ref t) (dead t) (killing t) (thread_count t) a (reply_port t)
    (t_vm t) (owns_vm_space t).
Definition with_reply_port (p : Z) (t : task) : task :=
  mk_task (handles t) (t_ref t) (dead t) (killing t) (thread_count t) (affinity t) p
    (t_vm t) (owns_vm_space t).
Definition with_vm (v : vm_table) (owns : bool) (t : task) : task :=
  mk_task (handles t) (t_ref t) (dead t) (killing t) (thread_count t) (affinity t)
    (reply_port t) v owns.
Definition mark_dead (t : task) : task :=
  mk_task (handles t) (t_ref t) true true (thread_count t) (affinity t) (reply_port t)
    (t_vm t) (owns_vm_space t).

Definition port_with_ref (r : Z) (p : ipc_port) : ipc_port :=
  mk_port (p_name p) r (immortal p) (p_queue p) (queued p) (receiver p) (receiver_wait p)
    (receiver_index p) (p_affinity p).

(** ** Retaining *)

Definition ipc_port_retain (o : Z) (k : kernel) : option kernel :=
  if o =? 0 then Some k else
  p ← ports k !! o;
  Some (put_port o (port_with_ref (u32 (p_ref p + 1)) p) k).

Definition buffer_retain (o : Z) (k : kernel) : option kernel :=
  if o =? 0 then Some k else
  r ← buffers k !! o;
  Some (set_buffers (<[o := u32 (r + 1)]> (buffers k)) k).

Definition task_hw_resource_retain (o : Z) (k : kernel) : option (Z * kernel) :=
  if o =? 0 then Some (-1, k) else
  h ← hws k !! o;
  if hw_owned h
  then Some (0, set_hws (<[o := mk_hw true (u32 (hw_ref h + 1))]> (hws k)) k)
  else Some (0, k).

Definition sched_policy_cap_retain (o : Z) (k : kernel) : option (Z * kernel) :=
  if o =? 0 then Some (-1, k) else
  r ← policies k !! o;
  Some (0, set_policies (<[o := u32 (r + 1)]> (policies k)) k).

Definition task_retain (o : Z) (k : kernel) : option (Z * kernel) :=
  if (o =? 0) || (o =? kernel_task) then Some (-1, k) else
  t ← tasks k !! o;
  if dead t then Some (-1, k)
  else Some (0, put_task o (with_ref (u32 (t_ref t + 1)) t) k).

Definition task_handle_retain (type : handle_type) (o : Z) (k : kernel)
    : option (Z * kernel) :=
  match type with
  | HPort => k ← ipc_port_retain o k; Some (0, k)
  | HBuffer => k ← buffer_retain o k; Some (0, k)
  | HTask =>
      t ← tasks k !! o;
      if dead t then Some (-1, k)
      else Some (0, put_task o (with_ref (u32 (t_ref t + 1)) t) k)
  | HHw => task_hw_resource_retain o k
  | HPolicy => sched_policy_cap_retain o k
  | HEmpty => Some (-1, k)
  end.

(** The variant for a caller that holds the lock of [locked_task]. *)
Definition task_handle_retain_from_locked_task (locked_task : Z) (type : handle_type)
    (o : Z) (k : kernel) : option (Z * kernel) :=
  if bool_decide (type = HTask) && (o =? locked_task) then
    if o =? 0 then Some (-1, k) else
    t ← tasks k !! o;
    if dead t then Some (-1, k)
    else Some (0, put_task o (with_ref (u32 (t_ref t + 1)) t) k)
  else task_handle_retain type o k.

(** ** Releasing *)

Definition ipc_port_release (o : Z) (k : kernel) : option kernel :=
  if o =? 0 then Some k else
  p ← ports k !! o;
  let p := if 0 <? p_ref p then port_with_ref (p_ref p - 1) p else p in
  if immortal p || negb (p_ref p =? 0) || negb (queued p =? 0) || negb (receiver p =? 0)
  then Some (put_port o p k)
  else
    let k := set_ports (delete o (ports k)) k in
    Some (if bool_decide (ports_by_name k !! p_name p = Some o)
          then set_names (delete (p_name p) (ports_by_name k)) k else k).

Definition buffer_release (o : Z) (k : kernel) : option kernel :=
  if o =? 0 then Some k else
  r ← buffers k !! o;
  let r := if 0 <? r then r - 1 else r in
  if r =? 0 then Some (set_buffers (delete o (buffers k)) k)   (* buffer_destroy *)
  else Some (set_buffers (<[o := r]> (buffers k)) k).

Definition task_hw_resource_release (o : Z) (k : kernel) : option kernel :=
  if o =? 0 then Some k else
  h ← hws k !! o;
  if hw_owned h then
    let r := u32 (hw_ref h - 1) in
    if r =? 0 then Some (set_hws (delete o (hws k)) k)
    else Some (set_hws (<[o := mk_hw true r]> (hws k)) k)
  else Some k.

Definition sched_policy_cap_release (o : Z) (k : kernel) : option kernel :=
  if o =? 0 then Some k else
  r ← policies k !! o;
  let r := u32 (r - 1) in
  if r =? 0 then Some (set_policies (delete o (policies k)) k)
  else Some (set_policies (<[o := r]> (policies k)) k).

(** The loop of [task_teardown] that unmaps the regions of an owned address
    space; each turn removes the first region. *)
Fixpoint teardown_regions (fuel : nat) (pid : Z) (v : vm_table) (log : list kcall)
    : vm_table * list kcall :=
  match fuel with
  | O => (v, log)
  | S fuel =>
      match vm_regions v with
      | [] => (v, log)
      | r :: _ =>
          teardown_regions fuel pid (task_remove_vm_region (base r) (len r) v).2
            (log ++ [CUnmapUserRange pid (base r) (len r)])
      end
  end.

Definition empty_table (v : vm_table) : vm_table := mk_table [] 0 (heap v).

(** What [task_teardown] does before it releases the references the task owns:
    it returns the task's handles and reply port. *)
Definition teardown_detach (tid : Z) (t : task) (k : kernel)
    : list task_handle * Z * kernel :=
  let k := call (CNotifyDeath tid) k in
  let log := if owns_vm_space t
             then (teardown_regions (length (vm_regions (t_vm t))) tid (t_vm t) []).2
             else [] in
  let k := fold_left (fun k c => call c k) log k in
  let t' := with_handles [] (with_reply_port 0 (with_vm (empty_table (t_vm t)) false t)) in
  (handles t, reply_port t, put_task tid t' k).

(** [task_handle_release], [task_release] and [task_teardown] call each other
    when a task dies with handles to other dead tasks.  Each level of teardown
    is a different task, so [size (tasks k)] levels are enough. *)
Fixpoint task_handle_release_fuel (fuel : nat) (type : handle_type) (o : Z) (k : kernel)
    : option kernel :=
  match fuel with
  | O => None
  | S fuel =>
      match type with
      | HPort => ipc_port_release o k
      | HBuffer => buffer_release o k
      | HHw => task_hw_resource_release o k
      | HPolicy => sched_policy_cap_release o k
      | HEmpty => Some k
      | HTask =>
          if (o =? 0) || (o =? kernel_task) then Some k else
          t ← tasks k !! o;
          let t := if 0 <? t_ref t then with_ref (t_ref t - 1) t else t in
          if (t_ref t =? 0) && dead t then
            let '(hs, reply, k) := teardown_detach o t (put_task o t k) in
            k ← foldl (fun ok h => k ← ok;
                         task_handle_release_fuel fuel (h_type h) (h_object h) k) (Some k) hs;
            k ← ipc_port_release reply k;
            let k := if owns_vm_space t then call (CDestroySpace o) k else k in
            Some (set_tasks (delete o (tasks k)) k)
          else Some (put_task o t k)
      end
  end.

Definition task_handle_release (type : handle_type) (o : Z) (k : kernel) : option kernel :=
  task_handle_release_fuel (S (size (tasks k))) type o k.

Definition task_release (o : Z) (k : kernel) : option kernel :=
  task_handle_release HTask o k.

(** ** Handle tables *)

Definition handle_capacity (t : task) : Z := Z.of_nat (length (handles t)).

Definition task_grow_handles_locked (min_capacity : Z) (tid : Z) (t : task) (k : kernel)
    : Z * task * kernel :=
  if min_capacity <=? handle_capacity t then (0, t, k) else
  let old_capacity := handle_capacity t in
  let new_capacity := if old_capacity =? 0 then INITIAL_TASK_HANDLES else old_capacity in
  let new_capacity := double_capacity 32 new_capacity min_capacity in
  match kheap k with
  | avail :: rest =>
      if new_capacity * sizeof_task_handle <=? avail then
        let t := with_handles (handles t ++
                   replicate (Z.to_nat (new_capacity - old_capacity)) empty_handle) t in
        (0, t, put_task tid t (set_heap rest k))
      else (-1, t, set_heap rest k)
  | [] => (-1, t, k)
  end.

Definition same_handle (type : handle_type) (o rights : Z) (h : task_handle) : bool :=
  bool_decide (h_type h = type) && (h_object h =? o) && (h_rights h =? rights).

Definition is_empty (h : task_handle) : bool := bool_decide (h_type h = HEmpty).

(** The [for (;;)] of the grant functions: the first empty entry, growing the
    table when there is none.  After the table has grown there is one, so the
    second turn ends the loop. *)
Fixpoint find_slot (fuel : nat) (tid : Z) (t : task) (k : kernel)
    : option (nat * task) * kernel :=
  match fuel with
  | O => (None, k)
  | S fuel =>
      match find_idx is_empty (handles t) with
      | Some i => (Some (i, t), k)
      | None =>
          let '(rc, t, k) := task_grow_handles_locked (handle_capacity t + 1) tid t k in
          if negb (rc =? 0) then (None, k) else find_slot fuel tid t k
      end
  end.

(** [handles[i].type = ...; .rights = ...; .object = ...;] keeps the tag. *)
Definition fill_handle (type : handle_type) (o rights : Z) (h : task_handle) : task_handle :=
  mk_handle type rights (h_tag h) o.

Definition install (i : nat) (type : handle_type) (o rights : Z) (t : task) : task :=
  with_handles (alter (fill_handle type o rights) i (handles t)) t.

Definition set_ipc_affinity (aff : option Z) (t : task) : task :=
  match aff with
  | Some cpu => if thread_count t =? 0 then with_affinity (Some cpu) t else t
  | None => t
  end.

Definition has_right (rights r : Z) : bool := negb (Z.land rights r =? 0).

(** [ipc_port_affinity_cpu], called only for a right to send. *)
Definition ipc_port_affinity_cpu (port rights : Z) (k : kernel) : option (option Z) :=
  if has_right rights TASK_RIGHT_SEND then p ← ports k !! port; Some (p_affinity p)
  else Some None.

Definition task_grant_port (tid port rights : Z) (k : kernel) : option (Z * kernel) :=
  if port =? 0 then Some (0, k) else
  aff ← ipc_port_affinity_cpu port rights k;
  t ← tasks k !! tid;
  match find_idx (same_handle HPort port rights) (handles t) with
  | Some i => Some (Z.of_nat i + 1, put_task tid (set_ipc_affinity aff t) k)
  | None =>
      match find_slot 2 tid t k with
      | (Some (i, t), k) =>
          let t := set_ipc_affinity aff (install i HPort port rights t) in
          k ← ipc_port_retain port (put_task tid t k);
          Some (Z.of_nat i + 1, k)
      | (None, k) => Some (0, k)
      end
  end.

Definition task_grant_buffer (tid buffer rights : Z) (k : kernel) : option (Z * kernel) :=
  if buffer =? 0 then Some (0, k) else
  t ← tasks k !! tid;
  match find_idx (same_handle HBuffer buffer rights) (handles t) with
  | Some i => Some (Z.of_nat i + 1, k)
  | None =>
      match find_slot 2 tid t k with
      | (Some (i, t), k) =>
          k ← buffer_retain buffer (put_task tid (install i HBuffer buffer rights t) k);
          Some (Z.of_nat i + 1, k)
      | (None, k) => Some (0, k)
      end
  end.

Definition clear_handle (i : nat) (t : task) : task :=
  with_handles (<[i := empty_handle]> (handles t)) t.

Definition task_grant_task (owner target rights : Z) (k : kernel) : option (Z * kernel) :=
  if (target =? 0) || (rights =? 0) then Some (0, k) else
  tt ← tasks k !! target;
  if dead tt then Some (0, k) else
  t ← tasks k !! owner;
  match find_idx (same_handle HTask target rights) (handles t) with
  | Some i => Some (Z.of_nat i + 1, k)
  | None =>
      match find_slot 2 owner t k with
      | (Some (i, t), k) =>
          let k := put_task owner (install i HTask target rights t) k in
          tt ← tasks k !! target;
          if dead tt then Some (0, put_task owner (clear_handle i t) k)
          else Some (Z.of_nat i + 1, put_task target (with_ref (u32 (t_ref tt + 1)) tt) k)
      | (None, k) => Some (0, k)
      end
  end.

Definition task_grant_hw_resource (tid resource rights : Z) (k : kernel)
    : option (Z * kernel) :=
  if (resource =? 0) || (rights =? 0) then Some (0, k) else
  t ← tasks k !! tid;
  match find_idx (same_handle HHw resource rights) (handles t) with
  | Some i => Some (Z.of_nat i + 1, k)
  | None =>
      match find_slot 2 tid t k with
      | (Some (i, t), k) =>
          '(rc, k) ← task_handle_retain HHw resource k;
          if negb (rc =? 0) then Some (0, k) else
          Some (Z.of_nat i + 1, put_task tid (install i HHw resource rights t) k)
      | (None, k) => Some (0, k)
      end
  end.

Definition task_grant_sched_policy (tid policy rights : Z) (k : kernel)
    : option (Z * kernel) :=
  if (policy =? 0) || (rights =? 0) then Some (0, k) else
  t ← tasks k !! tid;
  match find_idx (same_handle HPolicy policy rights) (handles t) with
  | Some i => Some (Z.of_nat i + 1, k)
  | None =>
      match find_slot 2 tid t k with
      | (Some (i, t), k) =>
          '(rc, k) ← task_handle_retain HPolicy policy k;
          if negb (rc =? 0) then Some (0, k) else
          Some (Z.of_nat i + 1, put_task tid (install i HPolicy policy rights t) k)
      | (None, k) => Some (0, k)
      end
  end.

(** [handles[handle - 1]] after the checks [handle == 0] and
    [handle > handle_capacity]. *)
Definition handle_at (handle : Z) (t : task) : option task_handle :=
  if (handle =? 0) || (handle_capacity t <? handle) then None
  else handles t !! Z.to_nat (handle - 1).

(** [(have & want) == want]. *)
Definition rights_include (have want : Z) : bool := Z.land have want =? want.

(** The common body of the five lookups: [0] is the null pointer. *)
Definition object_from_handle (type : handle_type) (tid handle rights : Z) (k : kernel)
    : option (Z * kernel) :=
  t ← tasks k !! tid;
  match handle_at handle t with
  | None => Some (0, k)
  | Some h =>
      if negb (bool_decide (h_type h = type)) || negb (rights_include (h_rights h) rights)
      then Some (0, k)
      else
        '(rc, k) ← task_handle_retain_from_locked_task tid (h_type h) (h_object h) k;
        Some (if rc =? 0 then h_object h else 0, k)
  end.

Definition task_port_from_handle := object_from_handle HPort.
Definition task_buffer_from_handle := object_from_handle HBuffer.
Definition task_hw_resource_from_handle := object_from_handle HHw.
Definition task_sched_policy_from_handle := object_from_handle HPolicy.

(** For tasks the dead flag of the object is read first. *)
Definition task_from_handle (owner handle rights : Z) (k : kernel) : option (Z * kernel) :=
  t ← tasks k !! owner;
  match handle_at handle t with
  | None => Some (0, k)
  | Some h =>
      if negb (bool_decide (h_type h = HTask)) then Some (0, k) else
      tt ← tasks k !! h_object h;
      if dead tt || negb (rights_include (h_rights h) rights) then Some (0, k) else
      '(rc, k) ← task_handle_retain_from_locked_task owner (h_type h) (h_object h) k;
      Some (if rc =? 0 then h_object h else 0, k)
  end.

Definition task_export_cap (tid handle rights : Z) (k : kernel)
    : option (option (handle_type * Z) * kernel) :=
  t ← tasks k !! tid;
  match handle_at handle t with
  | None => Some (None, k)
  | Some h =>
      if is_empty h || negb (rights_include (h_rights h) rights) then Some (None, k)
      else
        '(rc, k) ← task_handle_retain_from_locked_task tid (h_type h) (h_object h) k;
        Some (if rc =? 0 then Some (h_type h, h_object h) else None, k)
  end.

(** [type == EMPTY || (have & DUP) == 0 || (want & ~have) != 0] *)
Definition inherit_denied (h : task_handle) (rights : Z) : bool :=
  is_empty h || negb (has_right (h_rights h) TASK_RIGHT_DUP) ||
  negb (Z.land rights (Z.lnot (h_rights h)) =? 0).

Definition task_can_inherit_handle (src handle rights : Z) (k : kernel) : option Z :=
  if rights =? 0 then Some (-1) else
  t ← tasks k !! src;
  match handle_at handle t with
  | None => Some (-1)
  | Some h => Some (if inherit_denied h rights then -1 else 0)
  end.

Definition grant_any (type : handle_type) (tid o rights : Z) (k : kernel)
    : option (Z * kernel) :=
  match type with
  | HPort => task_grant_port tid o rights k
  | HBuffer => task_grant_buffer tid o rights k
  | HTask => task_grant_task tid o rights k
  | HHw => task_grant_hw_resource tid o rights k
  | HPolicy => task_grant_sched_policy tid o rights k
  | HEmpty => Some (0, k)
  end.

Definition task_grant_inherited_handle (dst src handle rights : Z) (k : kernel)
    : option (Z * kernel) :=
  if rights =? 0 then Some (0, k) else
  t ← tasks k !! src;
  match handle_at handle t with
  | None => Some (0, k)
  | Some h =>
      if inherit_denied h rights then Some (0, k) else
      '(rc, k) ← task_handle_retain_from_locked_task src (h_type h) (h_object h) k;
      if negb (rc =? 0) then Some (0, k) else
      '(granted, k) ← grant_any (h_type h) dst (h_object h) rights k;
      k ← task_handle_release (h_type h) (h_object h) k;
      Some (granted, k)
  end.

Definition task_set_handle_tag (tid handle tag : Z) (k : kernel) : option (Z * kernel) :=
  t ← tasks k !! tid;
  match handle_at handle t with
  | None => Some (-1, k)
  | Some h =>
      if is_empty h then Some (-1, k) else
      let h := mk_handle (h_type h) (h_rights h) tag (h_object h) in
      Some (0, put_task tid (with_handles (<[Z.to_nat (handle - 1) := h]> (handles t)) t) k)
  end.

Definition task_handle_find (tid tag : Z) (k : kernel) : option Z :=
  if tag =? 0 then Some 0 else
  t ← tasks k !! tid;
  Some (match find_idx (fun h => negb (is_empty h) && (h_tag h =? tag)) (handles t) with
        | Some i => Z.of_nat i + 1
        | None => 0
        end).

Definition task_close_handle (tid handle : Z) (k : kernel) : option (Z * kernel) :=
  t ← tasks k !! tid;
  match handle_at handle t with
  | None => Some (-1, k)
  | Some h =>
      if is_empty h then Some (-1, k) else
      let k := put_task tid (clear_handle (Z.to_nat (handle - 1)) t) k in
      k ← task_handle_release (h_type h) (h_object h) k;
      Some (0, k)
  end.

(** The body of the loop of [task_clone_handles] on entry [i]. *)
Definition clone_entry (dst src : Z) (i : nat) (h : task_handle) (k : kernel)
    : option kernel :=
  if is_empty h then Some k else
  if bool_decide (h_type h = HTask) && (h_object h =? src) then
    t ← tasks k !! dst;
    let h := mk_handle (h_type h) (h_rights h) (h_tag h) dst in
    Some (put_task dst (with_handles (<[i := h]> (handles t))
                          (with_ref (u32 (t_ref t + 1)) t)) k)
  else
    '(rc, k) ← task_handle_retain (h_type h) (h_object h) k;
    if negb (rc =? 0) then Some k else
    t ← tasks k !! dst;
    Some (put_task dst (with_handles (<[i := h]> (handles t)) t) k).

Fixpoint clone_loop (dst src : Z) (i : nat) (hs : list task_handle) (k : kernel)
    : option kernel :=
  match hs with
  | [] => Some k
  | h :: hs => k ← clone_entry dst src i h k; clone_loop dst src (S i) hs k
  end.

Definition task_clone_handles (dst src : Z) (k : kernel) : option (Z * kernel) :=
  s ← tasks k !! src;
  d ← tasks k !! dst;
  let '(rc, d, k) := task_grow_handles_locked (handle_capacity s) dst d k in
  if negb (rc =? 0) then Some (-1, k) else
  k ← clone_loop dst src 0 (handles s) k;
  Some (0, k).

Definition task_discard_unstarted (tid : Z) (k : kernel) : option (Z * kernel) :=
  if (tid =? 0) || (tid =? kernel_task) then Some (-1, k) else
  t ← tasks k !! tid;
  if dead t || negb (thread_count t =? 0) then Some (-1, k) else
  k ← task_release tid (put_task tid (mark_dead t) k);
  Some (0, k).

(** ** Reference counting *)

(** The counter of an object; static hardware resources have none. *)
Definition refs (k : kernel) (type : handle_type) (o : Z) : option Z :=
  match type with
  | HEmpty => None
  | HPort => p_ref <$> ports k !! o
  | HTask => t_ref <$> tasks k !! o
  | HBuffer => buffers k !! o
  | HHw => h ← hws k !! o; if hw_owned h then Some (hw_ref h) else None
  | HPolicy => policies k !! o
  end.

Definition live (k : kernel) (type : handle_type) (o : Z) : Prop :=
  match type with
  | HEmpty => False
  | HPort => is_Some (ports k !! o)
  | HTask => is_Some (tasks k !! o)
  | HBuffer => is_Some (buffers k !! o)
  | HHw => is_Some (hws k !! o)
  | HPolicy => is_Some (policies k !! o)
  end.

(** References that are entries of handle tables or reply ports of tasks. *)
Definition points (type : handle_type) (o : Z) (h : task_handle) : Z :=
  if bool_decide (h_type h = type /\ h_object h = o /\ type <> HEmpty) then 1 else 0.

Definition reply_points (type : handle_type) (o reply : Z) : Z :=
  if bool_decide (type = HPort /\ reply = o /\ o <> 0) then 1 else 0.

Definition task_points (type : handle_type) (o : Z) (t : task) : Z :=
  lsum (points type o) (handles t) + reply_points type o (reply_port t).

Definition table_refs (k : kernel) (type : handle_type) (o : Z) : Z :=
  msum (task_points type o) (tasks k).

(** The kernel's own task is static: it is never torn down. *)
Definition tracked (type : handle_type) (o : Z) : Prop := ~ (type = HTask /\ o = kernel_task).

(** References held outside the tables. *)
Definition holds := handle_type -> Z -> Z.

Definition bump (type : handle_type) (o d : Z) (held : holds) : holds :=
  fun type' o' => if bool_decide (type' = type /\ o' = o) then held type' o' + d else held type' o'.

(** The invariant: every entry of every handle table (and every reference held
    elsewhere) names a live object, and the counter of an object is the number
    of references there are to it. *)
Record caps_wf (held : holds) (k : kernel) : Prop := {
  cw_null : forall type, ~ live k type 0;
  cw_handle : forall tid t h, tasks k !! tid = Some t -> h ∈ handles t ->
    h_type h <> HEmpty -> live k (h_type h) (h_object h);
  cw_reply : forall tid t, tasks k !! tid = Some t -> reply_port t <> 0 ->
    live k HPort (reply_port t);
  cw_refs : forall type o r, tracked type o -> refs k type o = Some r ->
    r = table_refs k type o + held type o;
  cw_held : forall type o, 0 <= held type o;
  cw_held_live : forall type o, 0 < held type o -> live k type o;
}.

Lemma points_nonneg type o h : 0 <= points type o h.
Proof. unfold points. case_bool_decide; lia. Qed.

Lemma task_points_nonneg type o t : 0 <= task_points type o t.
Proof.
  unfold task_points, reply_points.
  pose proof (lsum_nonneg (points type o) (handles t) (fun h _ => points_nonneg type o h)).
  case_bool_decide; lia.
Qed.

Lemma table_refs_nonneg k type o : 0 <= table_refs k type o.
Proof. apply msum_nonneg. intros. apply task_points_nonneg. Qed.

Lemma table_refs_put k tid t t' type o :
  tasks k !! tid = Some t ->
  table_refs (put_task tid t' k) type o =
  table_refs k type o - task_points type o t + task_points type o t'.
Proof. intros Ht. unfold table_refs. simpl. by apply msum_update. Qed.

Lemma entry_counted k tid t h :
  tasks k !! tid = Some t -> h ∈ handles t -> h_type h <> HEmpty ->
  1 <= table_refs k (h_type h) (h_object h).
Proof.
  intros Ht Hh Hne. unfold table_refs.
  transitivity (task_points (h_type h) (h_object h) t).
  - unfold task_points.
    pose proof (lsum_elem (points (h_type h) (h_object h)) (handles t) h
      (fun x _ => points_nonneg _ _ x) Hh) as Hle.
    unfold points at 1 in Hle. rewrite bool_decide_eq_true_2 in Hle by done.
    unfold reply_points. case_bool_decide; lia.
  - eapply (msum_lookup (task_points (h_type h) (h_object h))); [|done].
    intros. apply task_points_nonneg.
Qed.

Lemma reply_counted k tid t :
  tasks k !! tid = Some t -> reply_port t <> 0 -> 1 <= table_refs k HPort (reply_port t).
Proof.
  intros Ht Hne. transitivity (task_points HPort (reply_port t) t).
  - unfold task_points, reply_points. rewrite bool_decide_eq_true_2 by done.
    pose proof (lsum_nonneg (points HPort (reply_port t)) (handles t)
      (fun h _ => points_nonneg _ _ h)). lia.
  - eapply (msum_lookup (task_points HPort (reply_port t))); [|done].
    intros. apply task_points_nonneg.
Qed.

(** States with the same tables: only counters and the like differ. *)
Definition task_tables (t : task) : list task_handle * Z := (handles t, reply_port t).

Definition same_tables (k k' : kernel) : Prop :=
  forall tid, task_tables <$> tasks k' !! tid = task_tables <$> tasks k !! tid.

Lemma same_tables_refs k k' type o : same_tables k k' -> table_refs k' type o = table_refs k type o.
Proof.
  intros Hs. apply msum_ext. intros tid.
  assert (forall t, task_points type o t =
    lsum (points type o) (task_tables t).1 + reply_points type o (task_tables t).2) as Hp by done.
  specialize (Hs tid).
  destruct (tasks k' !! tid) as [t'|], (tasks k !! tid) as [t|]; try done. simpl in *.
  injection Hs as Hh Hr. unfold task_points. by rewrite Hh, Hr.
Qed.

Lemma bump_eq type o d held : bump type o d held type o = held type o + d.
Proof. unfold bump. by rewrite bool_decide_eq_true_2. Qed.

Lemma bump_ne type o d held type' o' :
  ~ (type' = type /\ o' = o) -> bump type o d held type' o' = held type' o'.
Proof. intros. unfold bump. by rewrite bool_decide_eq_false_2. Qed.

(** A counter moves by [d], and with it what is held outside the tables. *)
Lemma caps_wf_counter held k k' type o d :
  caps_wf held k -> same_tables k k' ->
  (forall type' o', live k' type' o' <-> live k type' o') ->
  (forall type' o' r', tracked type' o' -> refs k' type' o' = Some r' ->
     exists r, refs k type' o' = Some r /\
       r' = r + if bool_decide (type' = type /\ o' = o) then d else 0) ->
  0 <= held type o + d -> live k type o ->
  caps_wf (bump type o d held) k'.
Proof.
  intros Hwf Hs Hlive Hrefs Hd Hlo.
  assert (forall tid t', tasks k' !! tid = Some t' -> exists t, tasks k !! tid = Some t /\
    handles t' = handles t /\ reply_port t' = reply_port t) as Hback.
  { intros tid t' Ht'. specialize (Hs tid). rewrite Ht' in Hs.
    destruct (tasks k !! tid) as [t|]; [|done]. exists t. by injection Hs. }
  constructor.
  - intros ty. rewrite Hlive. apply Hwf.
  - intros tid t' h Ht' Hh Hne. apply Hlive. destruct (Hback tid t' Ht') as (t & Ht & Hhs & _).
    rewrite Hhs in Hh. by eapply (cw_handle _ _ Hwf).
  - intros tid t' Ht' Hne. apply Hlive. destruct (Hback tid t' Ht') as (t & Ht & _ & Hr).
    rewrite Hr in *. by eapply (cw_reply _ _ Hwf).
  - intros ty o' r' Htr Hr'. destruct (Hrefs ty o' r' Htr Hr') as (r & Hr & ->).
    rewrite (cw_refs _ _ Hwf ty o' r Htr Hr), (same_tables_refs k k') by done.
    unfold bump. case_bool_decide; lia.
  - intros ty o'. destruct (decide (ty = type /\ o' = o)) as [[-> ->]|Hne].
    + by rewrite bump_eq.
    + rewrite bump_ne by done. apply Hwf.
  - intros ty o'. rewrite Hlive. destruct (decide (ty = type /\ o' = o)) as [[-> ->]|Hne].
    + done.
    + rewrite bump_ne by done. apply Hwf.
Qed.

Lemma same_tables_refl k : same_tables k k.
Proof. done. Qed.

Lemma same_tables_put k tid t t' :
  tasks k !! tid = Some t -> task_tables t' = task_tables t -> same_tables k (put_task tid t' k).
Proof.
  intros Ht Htt tid'. simpl. destruct (decide (tid' = tid)) as [->|Hne].
  - rewrite lookup_insert_eq, Ht. simpl. by rewrite Htt.
  - by rewrite lookup_insert_ne.
Qed.

Ltac lookup_cases :=
  repeat match goal with
  | |- context [<[?i := _]> ?m !! ?j] =>
      destruct (decide (j = i)) as [->|?];
      [rewrite lookup_insert_eq|rewrite lookup_insert_ne by done]
  | H : context [<[?i := _]> ?m !! ?j] |- _ =>
      destruct (decide (j = i)) as [->|?];
      [rewrite lookup_insert_eq in H|rewrite lookup_insert_ne in H by done]
  end.

(** How one counter is written. *)
Definition put_ref (type : handle_type) (o r : Z) (k : kernel) : kernel :=
  match type with
  | HEmpty => k
  | HPort => match ports k !! o with
             | Some p => put_port o (port_with_ref r p) k | None => k end
  | HTask => match tasks k !! o with
             | Some t => put_task o (with_ref r t) k | None => k end
  | HBuffer => set_buffers (<[o := r]> (buffers k)) k
  | HHw => set_hws (<[o := mk_hw true r]> (hws k)) k
  | HPolicy => set_policies (<[o := r]> (policies k)) k
  end.

Lemma put_ref_spec type o r0 r k :
  refs k type o = Some r0 ->
  same_tables k (put_ref type o r k) /\
  (forall type' o', live (put_ref type o r k) type' o' <-> live k type' o') /\
  (forall type' o', refs (put_ref type o r k) type' o' =
     if bool_decide (type' = type /\ o' = o) then Some r else refs k type' o').
Proof.
  intros Hr. assert (live k type o) as Hl.
  { destruct type; simpl in *; try done; by destruct (_ !! o). }
  split; [|split].
  - destruct type; simpl in *; try done; [by destruct (ports k !! o)|].
    destruct (tasks k !! o) as [t|] eqn:Ht; [|done]. by eapply same_tables_put.
  - intros type' o'. destruct type; simpl in *; try done;
      try destruct (ports k !! o) as [p|] eqn:?; try destruct (tasks k !! o) as [t|] eqn:?;
      destruct type'; simpl; try done; lookup_cases; try done; naive_solver eauto.
  - intros type' o'. destruct type; simpl in *; try done;
      try destruct (ports k !! o) as [p|] eqn:?; try destruct (tasks k !! o) as [t|] eqn:?;
      try done; case_bool_decide as Hc; try (destruct Hc as [-> ->]);
      try destruct type'; simpl; rewrite ?lookup_insert_eq; try done;
      rewrite lookup_insert_ne; naive_solver.
Qed.

Definition dead_task (k : kernel) (type : handle_type) (o : Z) : bool :=
  match type with
  | HTask => match tasks k !! o with Some t => dead t | None => false end
  | _ => false
  end.

(** All kinds of objects are retained alike. *)
Lemma retain_put type o k :
  live k type o -> o <> 0 ->
  task_handle_retain type o k =
  if dead_task k type o then Some (-1, k)
  else match refs k type o with
       | Some r => Some (0, put_ref type o (u32 (r + 1)) k)
       | None => Some (0, k)
       end.
Proof.
  intros Hl Ho. destruct type; simpl in *; try done.
  - unfold ipc_port_retain. decide_tests. destruct (ports k !! o); [done|by destruct Hl].
  - destruct (tasks k !! o) as [t|] eqn:Ht; [|by destruct Hl]. simpl. by destruct (dead t).
  - unfold buffer_retain. decide_tests. destruct (buffers k !! o); [done|by destruct Hl].
  - unfold task_hw_resource_retain. decide_tests.
    destruct (hws k !! o) as [h|]; [|by destruct Hl]. simpl. by destruct (hw_owned h).
  - unfold sched_policy_cap_retain. decide_tests. destruct (policies k !! o); [done|by destruct Hl].
Qed.

Lemma retain_locked locked type o k :
  o <> 0 -> task_handle_retain_from_locked_task locked type o k = task_handle_retain type o k.
Proof.
  intros Ho. unfold task_handle_retain_from_locked_task.
  destruct type; simpl; try done. case_if; [|done]. by decide_tests.
Qed.

(** No counter is about to overflow. *)
Definition refs_below (n : Z) (k : kernel) : Prop :=
  forall type o r, refs k type o = Some r -> 0 <= r /\ r + n < 2 ^ 32.

Lemma caps_wf_nonnull held k type o : caps_wf held k -> live k type o -> o <> 0.
Proof. intros Hwf Hl ->. by apply (cw_null _ _ Hwf type). Qed.

Lemma untracked_none held k type o d :
  caps_wf held k -> live k type o -> refs k type o = None -> 0 <= held type o + d ->
  caps_wf (bump type o d held) k.
Proof.
  intros Hwf Hl Hr Hd. eapply caps_wf_counter; try done.
  intros type' o' r' _ Hr'. exists r'. split; [done|].
  rewrite bool_decide_eq_false_2; [lia|]. intros [-> ->]. congruence.
Qed.

Lemma retain_ok held k type o :
  caps_wf held k -> live k type o -> refs_below 1 k ->
  exists rc k', task_handle_retain type o k = Some (rc, k') /\ same_tables k k' /\
    (forall type' o', live k' type' o' <-> live k type' o') /\
    (rc = 0 /\ caps_wf (bump type o 1 held) k' /\
       (forall n, refs_below (n + 1) k -> refs_below n k') \/
     rc = -1 /\ k' = k /\ dead_task k type o = true).
Proof.
  intros Hwf Hl Hb. rewrite retain_put by eauto using caps_wf_nonnull.
  pose proof (cw_held _ _ Hwf type o) as Hh.
  destruct (dead_task k type o) eqn:Hdead.
  { exists (-1), k. split; [done|]. split; [done|]. split; [done|]. by right. }
  destruct (refs k type o) as [r|] eqn:Hr.
  - destruct (put_ref_spec type o r (u32 (r + 1)) k Hr) as (Hs & Hlv & Hrf).
    exists 0, (put_ref type o (u32 (r + 1)) k). split; [done|]. split; [done|]. split; [done|].
    destruct (Hb type o r Hr) as [H0 Hb1].
    assert (u32 (r + 1) = r + 1) as Hu by (apply u32_small; unfold in_u32; lia).
    left. split; [done|]. split.
    + apply (caps_wf_counter held k); try done; [|lia].
      intros type' o' r' Htr. rewrite Hrf. case_bool_decide as Hc.
      * destruct Hc as [-> ->]. intros [= <-]. eauto.
      * intros Hr'. exists r'. split; [done|lia].
    + intros n Hn type' o' r'. rewrite Hrf. case_bool_decide as Hc.
      * intros [= <-]. specialize (Hn type o r Hr). lia.
      * intros Hr'. specialize (Hn type' o' r' Hr'). lia.
  - exists 0, k. split; [done|]. split; [done|]. split; [done|]. left. split; [done|]. split.
    + apply untracked_none; done || lia.
    + intros n Hn type' o' r' Hr'. specialize (Hn type' o' r' Hr'). lia.
Qed.

(** Dropping one held reference when the object stays. *)
Lemma unref_ok held k type o r :
  caps_wf held k -> 1 <= held type o -> refs k type o = Some r -> 0 <= r ->
  caps_wf (bump type o (-1) held) (put_ref type o (r - 1) k).
Proof.
  intros Hwf Hh Hr Hr0.
  destruct (put_ref_spec type o r (r - 1) k Hr) as (Hs & Hlv & Hrf).
  apply (caps_wf_counter held k); try done; [|lia|apply (cw_held_live _ _ Hwf); lia].
  intros type' o' r' Htr. rewrite Hrf. case_bool_decide as Hc.
  - destruct Hc as [-> ->]. intros [= <-]. exists r. split; [done|lia].
  - intros Hr'. exists r'. split; [done|lia].
Qed.

(** Freeing an object nothing refers to. *)
Lemma caps_wf_drop held k k' type o :
  caps_wf held k -> table_refs k type o = 0 -> held type o = 0 -> same_tables k k' ->
  (forall type' o', live k' type' o' <-> live k type' o' /\ ~ (type' = type /\ o' = o)) ->
  (forall type' o' r, refs k' type' o' = Some r -> refs k type' o' = Some r) ->
  caps_wf held k'.
Proof.
  intros Hwf Htr Hh Hs Hlive Hrefs.
  assert (forall tid t', tasks k' !! tid = Some t' -> exists t, tasks k !! tid = Some t /\
    handles t' = handles t /\ reply_port t' = reply_port t) as Hback.
  { intros tid t' Ht'. specialize (Hs tid). rewrite Ht' in Hs.
    destruct (tasks k !! tid) as [t|]; [|done]. exists t. by injection Hs. }
  constructor.
  - intros ty [Hl _]%Hlive. by apply (cw_null _ _ Hwf ty).
  - intros tid t' h Ht' Hin Hne. destruct (Hback tid t' Ht') as (t & Ht & Hhs & _).
    rewrite Hhs in Hin. apply Hlive. split; [by eapply (cw_handle _ _ Hwf)|].
    intros [<- <-]. pose proof (entry_counted k tid t h Ht Hin Hne). lia.
  - intros tid t' Ht' Hne. destruct (Hback tid t' Ht') as (t & Ht & _ & Hr).
    rewrite Hr in *. apply Hlive. split; [by eapply (cw_reply _ _ Hwf)|].
    intros [<- <-]. pose proof (reply_counted k tid t Ht Hne). lia.
  - intros ty o' r Htk Hr%Hrefs. rewrite (same_tables_refs k k') by done.
    by apply (cw_refs _ _ Hwf).
  - apply Hwf.
  - intros ty o' Hpos. apply Hlive. split; [by apply (cw_held_live _ _ Hwf)|].
    intros [-> ->]. lia.
Qed.

(** Counters only go down. *)
Definition refs_le (k k' : kernel) : Prop :=
  forall type o r', refs k' type o = Some r' ->
    exists r, refs k type o = Some r /\ r' <= r /\ (0 <= r -> 0 <= r').

Lemma refs_le_refl k : refs_le k k.
Proof. intros type o r Hr. eauto with lia. Qed.

Lemma refs_le_trans k1 k2 k3 : refs_le k1 k2 -> refs_le k2 k3 -> refs_le k1 k3.
Proof.
  intros H12 H23 type o r3 (r2 & (r1 & H1 & ? & ?)%H12 & ? & ?)%H23. exists r1. split; [done|lia].
Qed.

Lemma refs_le_below k k' n : refs_le k k' -> refs_below n k -> refs_below n k'.
Proof. intros Hle Hb type o r' (r & [? ?]%Hb & ? & ?)%Hle. lia. Qed.

Lemma refs_le_put type o r k :
  refs k type o = Some r -> 1 <= r -> refs_le k (put_ref type o (r - 1) k).
Proof.
  intros Hr H1 type' o' r'. destruct (put_ref_spec type o r (r - 1) k Hr) as (_ & _ & ->).
  case_bool_decide as Hc; [|eauto with lia]. destruct Hc as [-> ->]. intros [= <-].
  exists r. split; [done|lia].
Qed.

Lemma refs_le_sub k k' :
  (forall type o r, refs k' type o = Some r -> refs k type o = Some r) -> refs_le k k'.
Proof. intros Hsub type o r Hr. eauto with lia. Qed.

(** What a release must achieve. *)
Definition released (held : holds) (type : handle_type) (o : Z) (k k' : kernel) : Prop :=
  caps_wf (bump type o (-1) held) k' /\ refs_le k k'.

Lemma released_free held k k' type o :
  caps_wf (bump type o (-1) held) k' ->
  (forall type' o' r, refs k' type' o' = Some r ->
     refs k type' o' = Some r /\ ~ (type' = type /\ o' = o)) ->
  released held type o k k'.
Proof. intros Hwf Hsub. split; [done|]. apply refs_le_sub. naive_solver. Qed.

Lemma last_reference held k type o :
  caps_wf held k -> 1 <= held type o -> tracked type o -> refs k type o = Some 1 ->
  table_refs k type o = 0 /\ held type o = 1.
Proof.
  intros Hwf Hh Htr Hr. pose proof (cw_refs _ _ Hwf type o 1 Htr Hr).
  pose proof (table_refs_nonneg k type o). lia.
Qed.

Lemma tracked_positive held k type o r :
  caps_wf held k -> 1 <= held type o -> tracked type o -> refs k type o = Some r -> 1 <= r.
Proof.
  intros Hwf Hh Htr Hr. rewrite (cw_refs _ _ Hwf type o r Htr Hr).
  pose proof (table_refs_nonneg k type o). lia.
Qed.

(** The last reference goes: the counter reaches 0 and the object is freed. *)
Lemma free_ok held k k' type o :
  caps_wf held k -> 1 <= held type o -> tracked type o -> refs k type o = Some 1 ->
  same_tables k k' ->
  (forall type' o', live k' type' o' <-> live k type' o' /\ ~ (type' = type /\ o' = o)) ->
  (forall type' o' r, refs k' type' o' = Some r ->
     refs k type' o' = Some r /\ ~ (type' = type /\ o' = o)) ->
  released held type o k k'.
Proof.
  intros Hwf Hh Htr Hr Hs Hlive Hrefs. apply released_free; [|done].
  destruct (last_reference held k type o) as [Ht0 Hh1]; [done..|].
  pose proof (unref_ok held k type o 1 Hwf Hh Hr ltac:(lia)) as Hwf1.
  destruct (put_ref_spec type o 1 (1 - 1) k Hr) as (Hs1 & Hlv1 & Hrf1).
  apply (caps_wf_drop _ (put_ref type o (1 - 1) k) _ type o); try done.
  - by rewrite (same_tables_refs k).
  - rewrite bump_eq. lia.
  - intros tid. by rewrite (Hs tid), (Hs1 tid).
  - intros type' o'. by rewrite Hlv1.
  - intros type' o' r [Hr' Hne]%Hrefs. rewrite Hrf1. by rewrite bool_decide_eq_false_2.
Qed.

Lemma unref_released held k type o r :
  caps_wf held k -> 1 <= held type o -> refs k type o = Some r -> 1 <= r ->
  released held type o k (put_ref type o (r - 1) k).
Proof.
  intros Hwf Hh Hr H1. split; [apply unref_ok; done || lia|by apply refs_le_put].
Qed.

Lemma port_release_ok held k o :
  caps_wf held k -> 1 <= held HPort o ->
  exists k', ipc_port_release o k = Some k' /\ released held HPort o k k' /\ tasks k' = tasks k.
Proof.
  intros Hwf Hh. assert (live k HPort o) as Hl by (apply (cw_held_live _ _ Hwf); lia).
  unfold ipc_port_release. pose proof (caps_wf_nonnull _ _ _ _ Hwf Hl). decide_tests.
  destruct Hl as [p Hp]. rewrite Hp. simpl.
  assert (refs k HPort o = Some (p_ref p)) as Hr by (simpl; by rewrite Hp).
  pose proof (tracked_positive held k HPort o _ Hwf Hh ltac:(by intros []) Hr). decide_tests.
  case_if.
  - eexists. split; [done|]. split; [|done].
    pose proof (unref_released held k HPort o _ Hwf Hh Hr ltac:(lia)) as Hu. simpl in Hu.
    by rewrite Hp in Hu.
  - assert (p_ref p = 1) as Hp1 by (simpl in *; lia). rewrite Hp1 in Hr.
    eexists. split; [done|]. split; [|by case_if].
    apply (free_ok held k); try done; [by intros []|by case_if| |].
    + intros type' o'. destruct type'; case_if; simpl; rewrite ?lookup_delete_is_Some;
        naive_solver.
    + intros type' o' r. destruct type'; case_if; simpl; try naive_solver;
        intros (p' & [Hne Hp']%lookup_delete_Some & ->)%fmap_Some; rewrite Hp'; naive_solver.
Qed.

Lemma buffer_release_ok held k o :
  caps_wf held k -> 1 <= held HBuffer o ->
  exists k', buffer_release o k = Some k' /\ released held HBuffer o k k' /\ tasks k' = tasks k.
Proof.
  intros Hwf Hh. assert (live k HBuffer o) as Hl by (apply (cw_held_live _ _ Hwf); lia).
  unfold buffer_release. pose proof (caps_wf_nonnull _ _ _ _ Hwf Hl). decide_tests.
  destruct Hl as [r Hr]. rewrite Hr. simpl.
  assert (refs k HBuffer o = Some r) as Hrf by done.
  pose proof (tracked_positive held k HBuffer o _ Hwf Hh ltac:(by intros []) Hrf). decide_tests.
  case_if; eexists; (split; [done|]); (split; [|done]).
  - assert (r = 1) as -> by lia. apply (free_ok held k); try done; [by intros []| |].
    + intros type' o'. destruct type'; simpl; rewrite ?lookup_delete_is_Some; naive_solver.
    + intros type' o' r'. destruct type'; simpl; rewrite ?lookup_delete_Some; naive_solver.
  - apply (unref_released held k HBuffer o r Hwf Hh Hrf). lia.
Qed.

Lemma policy_release_ok held k o :
  caps_wf held k -> 1 <= held HPolicy o -> refs_below 0 k ->
  exists k', sched_policy_cap_release o k = Some k' /\ released held HPolicy o k k' /\ tasks k' = tasks k.
Proof.
  intros Hwf Hh Hb. assert (live k HPolicy o) as Hl by (apply (cw_held_live _ _ Hwf); lia).
  unfold sched_policy_cap_release. pose proof (caps_wf_nonnull _ _ _ _ Hwf Hl). decide_tests.
  destruct Hl as [r Hr]. rewrite Hr. simpl.
  assert (refs k HPolicy o = Some r) as Hrf by done. destruct (Hb HPolicy o r Hrf).
  pose proof (tracked_positive held k HPolicy o _ Hwf Hh ltac:(by intros []) Hrf).
  rewrite u32_small by (unfold in_u32; lia).
  case_if; eexists; (split; [done|]); (split; [|done]).
  - assert (r = 1) as -> by lia. apply (free_ok held k); try done; [by intros []| |].
    + intros type' o'. destruct type'; simpl; rewrite ?lookup_delete_is_Some; naive_solver.
    + intros type' o' r'. destruct type'; simpl; rewrite ?lookup_delete_Some; naive_solver.
  - apply (unref_released held k HPolicy o r Hwf Hh Hrf). lia.
Qed.

Lemma hw_release_ok held k o :
  caps_wf held k -> 1 <= held HHw o -> refs_below 0 k ->
  exists k', task_hw_resource_release o k = Some k' /\ released held HHw o k k' /\ tasks k' = tasks k.
Proof.
  intros Hwf Hh Hb. assert (live k HHw o) as Hl by (apply (cw_held_live _ _ Hwf); lia).
  unfold task_hw_resource_release. pose proof (caps_wf_nonnull _ _ _ _ Hwf Hl). decide_tests.
  pose proof Hl as [h Hr]. rewrite Hr. simpl. destruct (hw_owned h) eqn:Hown.
  2: { eexists. split; [done|]. split; [|done]. split; [|apply refs_le_refl].
       apply untracked_none; [done|done| |lia]. simpl. rewrite Hr. simpl. by rewrite Hown. }
  assert (refs k HHw o = Some (hw_ref h)) as Hrf by (simpl; rewrite Hr; simpl; by rewrite Hown).
  destruct (Hb HHw o _ Hrf).
  pose proof (tracked_positive held k HHw o _ Hwf Hh ltac:(by intros []) Hrf).
  rewrite u32_small by (unfold in_u32; lia).
  case_if; eexists; (split; [done|]); (split; [|done]).
  - assert (hw_ref h = 1) as Hone by lia. rewrite Hone in Hrf.
    apply (free_ok held k); try done; [by intros []| |].
    + intros type' o'. destruct type'; simpl; rewrite ?lookup_delete_is_Some; naive_solver.
    + intros type' o' r'. destruct type'; simpl; try naive_solver.
      destruct (decide (o = o')) as [<-|Hne]; [by rewrite lookup_delete_eq|].
      rewrite lookup_delete_ne by done. naive_solver.
  - apply (unref_released held k HHw o _ Hwf Hh Hrf). lia.
Qed.

(** *** Tearing tasks down *)

(** Tasks that still have references: one fewer at each level of teardown. *)
Definition referenced (k : kernel) : Z :=
  msum (fun t => if t_ref t =? 0 then 0 else 1) (tasks k).

Lemma referenced_bounds k : 0 <= referenced k <= Z.of_nat (size (tasks k)).
Proof.
  unfold referenced. split; [apply msum_nonneg; intros; case_if; lia|].
  induction (tasks k) as [|i t m Hi IH] using map_ind; [by rewrite msum_empty, map_size_empty|].
  rewrite msum_insert, map_size_insert_None by done. case_if; lia.
Qed.

Lemma referenced_put k tid t t' :
  tasks k !! tid = Some t ->
  referenced (put_task tid t' k) =
  referenced k - (if t_ref t =? 0 then 0 else 1) + (if t_ref t' =? 0 then 0 else 1).
Proof. intros Ht. unfold referenced. simpl. by rewrite (msum_update _ _ _ t). Qed.

(** Tasks without references are left alone. *)
Definition keeps_unreferenced (k k' : kernel) : Prop :=
  forall tid t, tasks k !! tid = Some t -> t_ref t = 0 -> tasks k' !! tid = Some t.

(** Everything a release guarantees. *)
Record release_post (held : holds) (k k' : kernel) : Prop := {
  rp_wf : caps_wf held k';
  rp_refs : refs_le k k';
  rp_referenced : referenced k' <= referenced k;
  rp_keeps : keeps_unreferenced k k';
}.

Lemma release_post_trans held1 held2 k1 k2 k3 :
  release_post held1 k1 k2 -> release_post held2 k2 k3 -> release_post held2 k1 k3.
Proof.
  intros [_ Hr1 Hm1 Hk1] [Hwf Hr2 Hm2 Hk2]. constructor; [done| |lia|].
  - by eapply refs_le_trans.
  - intros tid t Ht H0. auto.
Qed.

Lemma release_post_same held type o k k' :
  released held type o k k' -> tasks k' = tasks k ->
  release_post (bump type o (-1) held) k k'.
Proof.
  intros [Hwf Hle] Ht. constructor; [done|done| |].
  - unfold referenced. by rewrite Ht.
  - intros tid t. by rewrite Ht.
Qed.

Lemma release_post_ext held held' k k' :
  (forall type o, held type o = held' type o) -> release_post held k k' -> release_post held' k k'.
Proof.
  intros Heq [[H1 H2 H3 H4 H5 H6] Hr Hm Hk]. constructor; try done. constructor; try done.
  - intros type o r Ht Hrf. rewrite <- Heq. auto.
  - intros type o. rewrite <- Heq. auto.
  - intros type o. rewrite <- Heq. auto.
Qed.

(** The references a task's tables stand for, once detached, are held by the
    code that tears it down. *)
Definition hold_handles (hs : list task_handle) (held : holds) : holds :=
  fun type o => held type o + lsum (points type o) hs.
Definition hold_reply (reply : Z) (held : holds) : holds :=
  fun type o => held type o + reply_points type o reply.

Lemma detached_live held k tid t type o :
  caps_wf held k -> tasks k !! tid = Some t ->
  0 < hold_handles (handles t) (hold_reply (reply_port t) held) type o -> live k type o.
Proof.
  intros Hwf Ht. unfold hold_handles, hold_reply. intros Hpos.
  destruct (decide (0 < held type o)); [by apply (cw_held_live _ _ Hwf)|].
  destruct (decide (0 < reply_points type o (reply_port t))) as [Hr|].
  - unfold reply_points in Hr. case_bool_decide as Hc; [|lia]. destruct Hc as (-> & <- & Hne).
    by apply (cw_reply _ _ Hwf tid t).
  - destruct (lsum_pos (points type o) (handles t)) as (h & Hin & Hp); [lia|].
    unfold points in Hp. case_bool_decide as Hc; [|lia]. destruct Hc as (<- & <- & Hne).
    by apply (cw_handle _ _ Hwf tid t h).
Qed.

Lemma detach_ok held k k' tid t t' :
  caps_wf held k -> tasks k !! tid = Some t -> tasks k' = <[tid := t']> (tasks k) ->
  ports k' = ports k -> buffers k' = buffers k -> hws k' = hws k -> policies k' = policies k ->
  handles t' = [] -> reply_port t' = 0 -> t_ref t' = t_ref t ->
  caps_wf (hold_handles (handles t) (hold_reply (reply_port t) held)) k'.
Proof.
  intros Hwf Ht Htk Hp Hbf Hhw Hpo Hh' Hr' Href.
  assert (forall type o, live k' type o <-> live k type o) as Hlive.
  { intros [] o; simpl; rewrite ?Hp, ?Hbf, ?Hhw, ?Hpo, ?Htk; try done.
    destruct (decide (o = tid)) as [->|]; [rewrite lookup_insert_eq, Ht|rewrite lookup_insert_ne by done];
      naive_solver. }
  assert (forall type o, refs k' type o = refs k type o) as Hrefs.
  { intros [] o; simpl; rewrite ?Hp, ?Hbf, ?Hhw, ?Hpo, ?Htk; try done.
    destruct (decide (o = tid)) as [->|]; [rewrite lookup_insert_eq, Ht|by rewrite lookup_insert_ne by done].
    simpl. by rewrite Href. }
  assert (forall type o, table_refs k' type o = table_refs k type o - task_points type o t) as Htr.
  { intros type o. unfold table_refs. rewrite Htk, (msum_update _ _ _ t) by done.
    assert (task_points type o t' = 0) as ->; [|lia].
    unfold task_points, reply_points. rewrite Hh', Hr'. simpl.
    by rewrite bool_decide_eq_false_2 by naive_solver. }
  assert (forall tid2 t2, tasks k' !! tid2 = Some t2 -> t2 = t' \/ tasks k !! tid2 = Some t2) as Hback.
  { intros tid2 t2. rewrite Htk. intros [[_ ?]|[_ ?]]%lookup_insert_Some; auto. }
  constructor.
  - intros type. rewrite Hlive. apply Hwf.
  - intros tid2 t2 h [->|Ht2]%Hback Hin; [rewrite Hh' in Hin; by apply elem_of_nil in Hin|].
    rewrite Hlive. by eapply (cw_handle _ _ Hwf).
  - intros tid2 t2 [->|Ht2]%Hback; [congruence|]. rewrite Hlive. by eapply (cw_reply _ _ Hwf).
  - intros type o r Htk' Hr. rewrite Hrefs in Hr. rewrite (cw_refs _ _ Hwf type o r Htk' Hr), Htr.
    unfold hold_handles, hold_reply, task_points. lia.
  - intros type o. unfold hold_handles, hold_reply. pose proof (cw_held _ _ Hwf type o).
    pose proof (task_points_nonneg type o t). unfold task_points in *. lia.
  - intros type o Hpos. apply Hlive. by eapply detached_live.
Qed.

Lemma caps_wf_ext held held' k :
  (forall type o, held type o = held' type o) -> caps_wf held k -> caps_wf held' k.
Proof.
  intros Heq [H1 H2 H3 H4 H5 H6]. constructor; try done.
  - intros type o r Ht Hr. rewrite <- Heq. auto.
  - intros type o. rewrite <- Heq. auto.
  - intros type o. rewrite <- Heq. auto.
Qed.

(** A task that nothing refers to and that refers to nothing goes. *)
Lemma delete_task_ok held k k' tid t :
  caps_wf held k -> tasks k !! tid = Some t -> tasks k' = delete tid (tasks k) ->
  ports k' = ports k -> buffers k' = buffers k -> hws k' = hws k -> policies k' = policies k ->
  handles t = [] -> reply_port t = 0 -> t_ref t = 0 -> tid <> kernel_task ->
  caps_wf held k'.
Proof.
  intros Hwf Ht Htk Hp Hbf Hhw Hpo Hh Hr Href Hkt.
  assert (table_refs k HTask tid = 0 /\ held HTask tid = 0) as [Ht0 Hh0].
  { assert (refs k HTask tid = Some 0) as Hr0 by (simpl; by rewrite Ht, <- Href).
    pose proof (cw_refs _ _ Hwf HTask tid 0 ltac:(by intros []) Hr0).
    pose proof (table_refs_nonneg k HTask tid). pose proof (cw_held _ _ Hwf HTask tid). lia. }
  assert (forall type o, table_refs k' type o = table_refs k type o) as Htr.
  { intros type o. unfold table_refs. rewrite Htk, (msum_delete _ (tasks k) tid t) by done.
    unfold task_points, reply_points. rewrite Hh, Hr. simpl.
    rewrite bool_decide_eq_false_2 by naive_solver. lia. }
  assert (forall type o, live k' type o <-> live k type o /\ ~ (type = HTask /\ o = tid)) as Hlive.
  { intros [] o; simpl; rewrite ?Hp, ?Hbf, ?Hhw, ?Hpo, ?Htk, ?lookup_delete_is_Some; naive_solver. }
  assert (forall tid2 t2, tasks k' !! tid2 = Some t2 -> tasks k !! tid2 = Some t2) as Hback.
  { intros tid2 t2. rewrite Htk. by intros [_ ?]%lookup_delete_Some. }
  constructor.
  - intros type [Hl _]%Hlive. by apply (cw_null _ _ Hwf type).
  - intros tid2 t2 h Ht2%Hback Hin Hne. apply Hlive.
    split; [by eapply (cw_handle _ _ Hwf)|]. intros [He1 He2].
    pose proof (entry_counted k tid2 t2 h Ht2 Hin Hne) as Hc. rewrite He1, He2 in Hc. lia.
  - intros tid2 t2 Ht2%Hback Hne. apply Hlive. split; [by eapply (cw_reply _ _ Hwf)|].
    by intros [? _].
  - intros type o r Htk' Hrf. rewrite Htr. apply (cw_refs _ _ Hwf type o r Htk').
    destruct type; simpl in *; rewrite ?Hp, ?Hbf, ?Hhw, ?Hpo in Hrf; try done.
    rewrite Htk in Hrf. apply fmap_Some in Hrf as (t2 & [_ Ht2]%lookup_delete_Some & ->).
    by rewrite Ht2.
  - apply Hwf.
  - intros type o Hpos. apply Hlive. split; [by apply (cw_held_live _ _ Hwf)|].
    intros [-> ->]. lia.
Qed.

(** The contract of [task_handle_release] at a given depth. *)
Definition release_ok (fuel : nat) : Prop :=
  forall held k type o, caps_wf held k -> refs_below 0 k -> 1 <= held type o ->
  referenced k < Z.of_nat fuel ->
  exists k', task_handle_release_fuel fuel type o k = Some k' /\
    release_post (bump type o (-1) held) k k'.

Lemma release_post_refl held k : caps_wf held k -> release_post held k k.
Proof. intros Hwf. constructor; [done|apply refs_le_refl|lia|by intros ?]. Qed.

Lemma release_all_ok fuel hs held k :
  release_ok fuel -> caps_wf (hold_handles hs held) k -> (forall type o, 0 <= held type o) ->
  refs_below 0 k -> referenced k < Z.of_nat fuel ->
  exists k', foldl (fun ok h => k ← ok;
      task_handle_release_fuel fuel (h_type h) (h_object h) k) (Some k) hs = Some k' /\
    release_post held k k'.
Proof.
  intros IH. revert k. induction hs as [|h hs IHhs]; intros k Hwf H0 Hb Hf; simpl.
  { exists k. split; [done|]. apply release_post_refl.
    eapply caps_wf_ext; [|done]. intros. unfold hold_handles. simpl. lia. }
  destruct (decide (h_type h = HEmpty)) as [He|Hne].
  { rewrite He. destruct fuel as [|fuel]; [pose proof (referenced_bounds k); lia|].
    apply IHhs; try done. eapply caps_wf_ext; [|done]. intros. unfold hold_handles.
    rewrite lsum_cons. unfold points at 1. rewrite bool_decide_eq_false_2 by naive_solver. lia. }
  destruct (IH _ k (h_type h) (h_object h) Hwf Hb) as (k1 & -> & Hp1); [|done|].
  { unfold hold_handles. rewrite lsum_cons. unfold points at 1.
    rewrite bool_decide_eq_true_2 by done.
    pose proof (lsum_nonneg (points (h_type h) (h_object h)) hs (fun x _ => points_nonneg _ _ x)).
    specialize (H0 (h_type h) (h_object h)). lia. }
  pose proof Hp1 as [Hwf1 Hr1 Hm1 Hk1].
  destruct (IHhs k1) as (k2 & Hk2 & Hp2).
  - eapply caps_wf_ext; [|done]. intros type o. unfold bump, hold_handles. rewrite lsum_cons.
    unfold points at 1 3. repeat case_bool_decide; naive_solver lia.
  - done.
  - by eapply refs_le_below.
  - lia.
  - exists k2. split; [done|]. by eapply release_post_trans.
Qed.

Lemma reply_release_ok held k reply :
  caps_wf (hold_reply reply held) k -> (forall type o, 0 <= held type o) ->
  exists k', ipc_port_release reply k = Some k' /\ release_post held k k' /\ tasks k' = tasks k.
Proof.
  intros Hwf H0. destruct (decide (reply = 0)) as [->|Hne].
  { exists k. split; [done|]. split; [|done]. apply release_post_refl.
    eapply caps_wf_ext; [|done]. intros type o. unfold hold_reply, reply_points.
    rewrite bool_decide_eq_false_2 by naive_solver. lia. }
  destruct (port_release_ok (hold_reply reply held) k reply Hwf) as (k' & Hk' & Hrel & Ht).
  { unfold hold_reply, reply_points. rewrite bool_decide_eq_true_2 by done.
    specialize (H0 HPort reply). lia. }
  exists k'. split; [done|]. split; [|done].
  eapply release_post_ext; [|by eapply release_post_same].
  intros type o. unfold bump, hold_reply, reply_points. repeat case_bool_decide; naive_solver lia.
Qed.

Lemma fold_calls log k :
  let k' := fold_left (fun k c => call c k) log k in
  tasks k' = tasks k /\ ports k' = ports k /\ buffers k' = buffers k /\ hws k' = hws k /\
  policies k' = policies k.
Proof.
  revert k. induction log as [|c log IH]; intros k; simpl; [done|].
  destruct (IH (call c k)) as (-> & -> & -> & -> & ->). done.
Qed.

Lemma teardown_detach_spec tid t k :
  let '(hs, reply, k') := teardown_detach tid t k in
  exists t', tasks k' = <[tid := t']> (tasks k) /\ ports k' = ports k /\
    buffers k' = buffers k /\ hws k' = hws k /\ policies k' = policies k /\
    hs = handles t /\ reply = reply_port t /\
    handles t' = [] /\ reply_port t' = 0 /\ t_ref t' = t_ref t /\ dead t' = dead t.
Proof.
  unfold teardown_detach. simpl.
  match goal with |- context [fold_left _ ?log ?k0] =>
    destruct (fold_calls log k0) as (H1 & H2 & H3 & H4 & H5) end.
  eexists. rewrite H1, H2, H3, H4, H5. done.
Qed.

(** The states a teardown goes through. *)
Lemma teardown_ok fuel held k o t :
  release_ok fuel -> caps_wf held k -> refs_below 0 k -> tasks k !! o = Some t -> t_ref t = 0 ->
  o <> kernel_task -> referenced k < Z.of_nat fuel ->
  exists k',
    (let '(hs, reply, k1) := teardown_detach o t k in
     k2 ← foldl (fun ok h => k ← ok;
            task_handle_release_fuel fuel (h_type h) (h_object h) k) (Some k1) hs;
     k3 ← ipc_port_release reply k2;
     let k4 := if owns_vm_space t then call (CDestroySpace o) k3 else k3 in
     Some (set_tasks (delete o (tasks k4)) k4)) = Some k' /\
    caps_wf held k' /\ refs_le k k' /\ referenced k' <= referenced k /\
    (forall tid t', tid <> o -> tasks k !! tid = Some t' -> t_ref t' = 0 ->
       tasks k' !! tid = Some t').
Proof.
  intros IH Hwf Hb Ht H0 Hkt Hf.
  pose proof (teardown_detach_spec o t k) as Hd.
  destruct (teardown_detach o t k) as [[hs reply] k1].
  destruct Hd as (t' & Htk & Hp & Hbf & Hhw & Hpo & -> & -> & Hh' & Hr' & Href & _).
  assert (referenced k1 = referenced k) as Hm1.
  { unfold referenced. rewrite Htk, (msum_update _ _ _ t) by done. rewrite Href, H0. simpl. lia. }
  assert (refs_le k k1) as Hle1.
  { intros type o' r Hr. exists r. split; [|lia].
    destruct type; simpl in *; rewrite ?Hp, ?Hbf, ?Hhw, ?Hpo in Hr; try done.
    rewrite Htk in Hr. lookup_cases; [|done]. rewrite Ht. simpl in *. congruence. }
  pose proof (detach_ok held k k1 o t t' Hwf Ht Htk Hp Hbf Hhw Hpo Hh' Hr' Href) as Hwf1.
  assert (forall type o, 0 <= hold_reply (reply_port t) held type o) as Hn.
  { intros ty o'. unfold hold_reply, reply_points. pose proof (cw_held _ _ Hwf ty o').
    case_bool_decide; lia. }
  destruct (release_all_ok fuel (handles t) _ k1 IH Hwf1 Hn) as (k2 & -> & [Hwf2 Hle2 Hm2 Hk2]).
  { by eapply refs_le_below. }
  { lia. }
  simpl. destruct (reply_release_ok held k2 (reply_port t) Hwf2 (cw_held _ _ Hwf))
    as (k3 & -> & [Hwf3 Hle3 Hm3 _] & Ht3). simpl.
  assert (tasks k3 !! o = Some t') as Hto.
  { rewrite Ht3. apply Hk2; [by rewrite Htk, lookup_insert_eq|congruence]. }
  set (k4 := if owns_vm_space t then call (CDestroySpace o) k3 else k3).
  assert (tasks k4 = tasks k3 /\ ports k4 = ports k3 /\ buffers k4 = buffers k3 /\
          hws k4 = hws k3 /\ policies k4 = policies k3) as (E1 & E2 & E3 & E4 & E5)
    by (unfold k4; by case_if).
  eexists. split; [done|]. split; [|split; [|split]].
  - eapply (delete_task_ok held k3 _ o t'); simpl; try done; congruence.
  - eapply refs_le_trans; [done|]. eapply refs_le_trans; [done|]. eapply refs_le_trans; [done|].
    apply refs_le_sub. intros [] o' r; simpl; rewrite ?E1, ?E2, ?E3, ?E4, ?E5; try done.
    intros (x & [_ Hx]%lookup_delete_Some & ->)%fmap_Some. by rewrite Hx.
  - unfold referenced in *. simpl. rewrite E1.
    rewrite (msum_delete _ (tasks k3) o t') in Hm3 by done.
    rewrite Href, H0 in Hm3. simpl in Hm3. lia.
  - intros tid t2 Hne Ht2 Hz. simpl. rewrite E1, lookup_delete_ne, Ht3 by done.
    apply Hk2; [|done]. by rewrite Htk, lookup_insert_ne.
Qed.

Lemma kernel_task_unref held k :
  caps_wf held k -> 1 <= held HTask kernel_task -> 
  caps_wf (bump HTask kernel_task (-1) held) k.
Proof.
  intros Hwf Hh. apply (caps_wf_counter held k); try done; [|lia|apply (cw_held_live _ _ Hwf); lia].
  intros type o r Htr Hr. exists r. split; [done|].
  rewrite bool_decide_eq_false_2 by done. lia.
Qed.

Lemma release_spec fuel : release_ok fuel.
Proof.
  induction fuel as [|fuel IH]; intros held k type o Hwf Hb Hh Hf.
  { pose proof (referenced_bounds k). lia. }
  assert (live k type o) as Hl by (apply (cw_held_live _ _ Hwf); lia).
  pose proof (caps_wf_nonnull _ _ _ _ Hwf Hl) as Hnz.
  destruct type; simpl task_handle_release_fuel; [by destruct Hl|..].
  - destruct (port_release_ok held k o Hwf Hh) as (k' & -> & Hrel & Ht).
    exists k'. split; [done|]. by apply release_post_same.
  - destruct Hl as [t Ht]. rewrite Ht. destruct (decide (o = kernel_task)) as [->|Hkt].
    { exists k. split; [done|]. apply release_post_refl. by apply kernel_task_unref. }
    decide_tests. simpl.
    assert (refs k HTask o = Some (t_ref t)) as Hr by (simpl; by rewrite Ht).
    assert (tracked HTask o) as Htr by (by intros [_ ?]).
    pose proof (tracked_positive held k HTask o _ Hwf Hh Htr Hr) as Hpos. decide_tests.
    pose proof (unref_released held k HTask o _ Hwf Hh Hr Hpos) as [Hwf1 Hle1].
    simpl in Hwf1, Hle1. rewrite Ht in Hwf1, Hle1.
    assert (referenced (put_task o (with_ref (t_ref t - 1) t) k) =
            referenced k - (if t_ref t - 1 =? 0 then 1 else 0)) as Hm1.
    { rewrite (referenced_put k o t) by done. simpl. decide_tests. case_if; lia. }
    assert (forall tid t', tasks k !! tid = Some t' -> t_ref t' = 0 -> tid <> o) as Hother.
    { intros tid t' Ht' Hz ->. rewrite Ht in Ht'. injection Ht' as <-. lia. }
    case_if.
    + destruct (teardown_ok fuel _ _ o (with_ref (t_ref t - 1) t) IH Hwf1) as
        (k' & Hk' & Hwf' & Hle' & Hm' & Hkeep); simpl; try done.
      * by eapply refs_le_below.
      * by rewrite lookup_insert_eq.
      * rewrite Hm1. decide_tests. simpl in *. lia.
      * exists k'. split; [exact Hk'|]. constructor; [done|by eapply refs_le_trans|rewrite Hm1 in Hm'; revert Hm'; case_if; lia|].
        intros tid t' Ht' Hz. apply Hkeep; [by eapply Hother| |done].
        simpl. rewrite lookup_insert_ne by (apply not_eq_sym; by eapply Hother). done.
    + eexists. split; [done|]. constructor; [done|done|rewrite Hm1; case_if; lia|].
      intros tid t' Ht' Hz. simpl.
      rewrite lookup_insert_ne by (apply not_eq_sym; by eapply Hother). done.
  - destruct (buffer_release_ok held k o Hwf Hh) as (k' & -> & Hrel & Ht).
    exists k'. split; [done|]. by apply release_post_same.
  - destruct (hw_release_ok held k o Hwf Hh Hb) as (k' & -> & Hrel & Ht).
    exists k'. split; [done|]. by apply release_post_same.
  - destruct (policy_release_ok held k o Hwf Hh Hb) as (k' & -> & Hrel & Ht).
    exists k'. split; [done|]. by apply release_post_same.
Qed.

Lemma handle_release_ok held k type o :
  caps_wf held k -> refs_below 0 k -> 1 <= held type o ->
  exists k', task_handle_release type o k = Some k' /\
    release_post (bump type o (-1) held) k k'.
Proof.
  intros Hwf Hb Hh. apply release_spec; try done.
  pose proof (referenced_bounds k). lia.
Qed.

Lemma bump_bump type o d d' held type' o' :
  bump type o d (bump type o d' held) type' o' = bump type o (d + d') held type' o'.
Proof. unfold bump. case_bool_decide; lia. Qed.

Lemma bump_0 type o held type' o' : bump type o 0 held type' o' = held type' o'.
Proof. unfold bump. case_bool_decide; lia. Qed.

(** *** Writing handle tables *)

(** A task's handle array changes: the references its entries stand for move
    between the tables and [held]. *)
Lemma table_write_ok held held' k tid t t' :
  caps_wf held k -> tasks k !! tid = Some t ->
  reply_port t' = reply_port t -> t_ref t' = t_ref t ->
  (forall h, h ∈ handles t' -> h_type h <> HEmpty -> live k (h_type h) (h_object h)) ->
  (forall type o, held' type o =
     held type o + lsum (points type o) (handles t) - lsum (points type o) (handles t')) ->
  (forall type o, 0 <= held' type o) ->
  (forall type o, 0 < held' type o -> live k type o) ->
  caps_wf held' (put_task tid t' k).
Proof.
  intros Hwf Ht Hrep Href Hnew Hheld H0 Hpos.
  assert (forall type o, live (put_task tid t' k) type o <-> live k type o) as Hlive.
  { intros [] o; simpl; try done. lookup_cases; [rewrite Ht|done]. naive_solver. }
  assert (forall type o, refs (put_task tid t' k) type o = refs k type o) as Hrefs.
  { intros [] o; simpl; try done. lookup_cases; [rewrite Ht|done]. simpl. by rewrite Href. }
  assert (forall tid2 t2, tasks (put_task tid t' k) !! tid2 = Some t2 ->
    t2 = t' \/ tasks k !! tid2 = Some t2) as Hback.
  { intros tid2 t2. simpl. intros [[_ ?]|[_ ?]]%lookup_insert_Some; auto. }
  constructor.
  - intros type. rewrite Hlive. apply Hwf.
  - intros tid2 t2 h [->|Ht2]%Hback Hin Hne; apply Hlive; [auto|by eapply (cw_handle _ _ Hwf)].
  - intros tid2 t2 [->|Ht2]%Hback Hne; apply Hlive; [|by eapply (cw_reply _ _ Hwf)].
    rewrite Hrep in *. by eapply (cw_reply _ _ Hwf).
  - intros type o r Htr Hr. rewrite Hrefs in Hr. rewrite (cw_refs _ _ Hwf type o r Htr Hr).
    rewrite (table_refs_put k tid t), Hheld by done. unfold task_points. rewrite Hrep. lia.
  - done.
  - intros type o Hp. apply Hlive. auto.
Qed.

Lemma points_empty type o h : h_type h = HEmpty -> points type o h = 0.
Proof. intros He. unfold points. rewrite bool_decide_eq_false_2; [done|]. naive_solver. Qed.

Lemma points_self h type o :
  h_type h = type -> h_object h = o -> type <> HEmpty ->
  forall type' o', points type' o' h = if bool_decide (type' = type /\ o' = o) then 1 else 0.
Proof.
  intros <- <- Hne type' o'. unfold points. repeat case_bool_decide; naive_solver.
Qed.

(** Filling an empty entry with a reference that was held. *)
Lemma install_ok held k tid t t' i h0 h type o :
  caps_wf held k -> tasks k !! tid = Some t -> handles t !! i = Some h0 -> h_type h0 = HEmpty ->
  handles t' = <[i := h]> (handles t) -> reply_port t' = reply_port t -> t_ref t' = t_ref t ->
  h_type h = type -> h_object h = o -> type <> HEmpty -> 1 <= held type o ->
  caps_wf (bump type o (-1) held) (put_task tid t' k).
Proof.
  intros Hwf Ht Hi He Hh' Hrep Href Hty Ho Hne Hheld.
  assert (live k type o) as Hlo by (apply (cw_held_live _ _ Hwf); lia).
  apply (table_write_ok held _ k tid t); try done.
  - rewrite Hh'. intros x [j Hj]%list_elem_of_lookup Hx.
    apply list_lookup_insert_Some in Hj as [(<- & <- & _)|[_ Hj]]; [by subst|].
    eapply (cw_handle _ _ Hwf); [done| |done]. apply list_elem_of_lookup. eauto.
  - intros type' o'. rewrite Hh', (lsum_insert _ _ _ h0) by done.
    rewrite points_empty, (points_self h type o) by done. unfold bump. case_bool_decide; lia.
  - intros type' o'. unfold bump. case_bool_decide as Hc; [|apply Hwf].
    destruct Hc as [-> ->]. lia.
  - intros type' o' Hp. unfold bump in Hp. case_bool_decide as Hc; [by destruct Hc as [-> ->]|].
    by apply (cw_held_live _ _ Hwf).
Qed.

(** Emptying an entry: its reference is held by whoever emptied it. *)
Lemma clear_ok held k tid t i h :
  caps_wf held k -> tasks k !! tid = Some t -> handles t !! i = Some h -> h_type h <> HEmpty ->
  caps_wf (bump (h_type h) (h_object h) 1 held) (put_task tid (clear_handle i t) k).
Proof.
  intros Hwf Ht Hi Hne.
  assert (live k (h_type h) (h_object h)) as Hlo.
  { eapply (cw_handle _ _ Hwf); [done| |done]. apply list_elem_of_lookup. eauto. }
  apply (table_write_ok held _ k tid t); try done.
  - simpl. intros x [j Hj]%list_elem_of_lookup Hx.
    apply list_lookup_insert_Some in Hj as [(_ & <- & _)|[_ Hj]]; try done.
    eapply (cw_handle _ _ Hwf); [done| |done]. apply list_elem_of_lookup. eauto.
  - intros type' o'. simpl. rewrite (lsum_insert _ _ _ h) by done.
    rewrite (points_empty _ _ empty_handle), (points_self h _ _ eq_refl eq_refl) by done.
    unfold bump. case_bool_decide; lia.
  - intros type' o'. unfold bump. pose proof (cw_held _ _ Hwf type' o'). case_bool_decide; lia.
  - intros type' o' Hp. unfold bump in Hp. case_bool_decide as Hc; [by destruct Hc as [-> ->]|].
    by apply (cw_held_live _ _ Hwf).
Qed.

Lemma handle_at_Some handle t h :
  handle_at handle t = Some h ->
  handles t !! Z.to_nat (handle - 1) = Some h.
Proof. unfold handle_at. by case_if. Qed.

(** States that agree on the objects. *)
Record same_objects (k k' : kernel) : Prop := {
  so_ports : ports k' = ports k;
  so_buffers : buffers k' = buffers k;
  so_hws : hws k' = hws k;
  so_policies : policies k' = policies k;
}.

Lemma caps_wf_same held k k' :
  same_objects k k' -> tasks k' = tasks k -> caps_wf held k -> caps_wf held k'.
Proof.
  intros [Hp Hb Hh Hpo] Ht [H1 H2 H3 H4 H5 H6].
  assert (forall type o, live k' type o <-> live k type o) as Hlive
    by (intros [] o; simpl; rewrite ?Hp, ?Hb, ?Hh, ?Hpo, ?Ht; done).
  assert (forall type o, refs k' type o = refs k type o) as Hrefs
    by (intros [] o; simpl; rewrite ?Hp, ?Hb, ?Hh, ?Hpo, ?Ht; done).
  constructor; try setoid_rewrite Hlive; try (rewrite Ht); try done.
  intros type o r Htr. rewrite Hrefs. unfold table_refs. rewrite Ht. apply H4; done.
Qed.

Lemma lsum_replicate_empty type o n : lsum (points type o) (replicate n empty_handle) = 0.
Proof. induction n as [|n IH]; [done|]. rewrite replicate_S, lsum_cons, IH. by rewrite points_empty. Qed.

(** What growing a table may do. *)
Record grown (tid : Z) (t t1 : task) (k k1 : kernel) : Prop := {
  gr_tasks : tasks k1 = <[tid := t1]> (tasks k);
  gr_objects : same_objects k k1;
  gr_task : exists n, t1 = with_handles (handles t ++ replicate n empty_handle) t;
}.

Lemma with_handles_self t : with_handles (handles t ++ replicate 0 empty_handle) t = t.
Proof. simpl. rewrite app_nil_r. by destruct t. Qed.

Lemma grow_grown min tid t k :
  tasks k !! tid = Some t ->
  let '(rc, t1, k1) := task_grow_handles_locked min tid t k in grown tid t t1 k k1.
Proof.
  intros Ht. assert (forall k1, tasks k1 = tasks k -> same_objects k k1 -> grown tid t t k k1) as Hid.
  { intros k1 Hk1 Hso. constructor; [by rewrite insert_id|done|exists 0%nat].
    by rewrite with_handles_self. }
  unfold task_grow_handles_locked. case_if; [by apply Hid|].
  generalize (double_capacity 32 (if handle_capacity t =? 0 then INITIAL_TASK_HANDLES
    else handle_capacity t) min) as c. intros c.
  destruct (kheap k); [by apply Hid|]. case_if; [|by apply Hid].
  constructor; [done|done|]. eauto.
Qed.

Lemma grown_trans tid t t1 t2 k k1 k2 :
  grown tid t t1 k k1 -> grown tid t1 t2 k1 k2 -> grown tid t t2 k k2.
Proof.
  intros [Ht1 [] [n1 ->]] [Ht2 [] [n2 ->]]. constructor.
  - by rewrite Ht2, Ht1, insert_insert_eq.
  - constructor; congruence.
  - exists (n1 + n2)%nat. simpl. by rewrite <- app_assoc, replicate_add.
Qed.

Lemma find_slot_grown fuel tid t k :
  tasks k !! tid = Some t ->
  let '(r, k1) := find_slot fuel tid t k in
  (exists t1, grown tid t t1 k k1) /\
  match r with
  | Some (i, t1) => grown tid t t1 k k1 /\
      exists h0, handles t1 !! i = Some h0 /\ h_type h0 = HEmpty
  | None => True
  end.
Proof.
  revert t k. induction fuel as [|fuel IH]; intros t k Ht; simpl.
  { split; [|done]. exists t. constructor; [by rewrite insert_id|done|exists 0%nat].
    by rewrite with_handles_self. }
  destruct (find_idx is_empty (handles t)) as [i|] eqn:Hf.
  - apply find_idx_lookup in Hf as (h0 & Hi & He). unfold is_empty in He. bool_facts.
    assert (grown tid t t k k) as Hg.
    { constructor; [by rewrite insert_id|done|exists 0%nat]. by rewrite with_handles_self. }
    eauto 10.
  - pose proof (grow_grown (handle_capacity t + 1) tid t k Ht) as Hg.
    destruct (task_grow_handles_locked _ tid t k) as [[rc t1] k1].
    case_if; [eauto|].
    assert (tasks k1 !! tid = Some t1) as Ht1 by (rewrite (gr_tasks _ _ _ _ _ Hg); apply lookup_insert_eq).
    specialize (IH t1 k1 Ht1). destruct (find_slot fuel tid t1 k1) as [r k2].
    destruct IH as [[t2 Hg2] Hr]. split; [eauto using grown_trans|].
    destruct r as [[i t3]|]; [|done]. destruct Hr as [Hg3 ?]. eauto using grown_trans.
Qed.

#[global] Arguments find_slot : simpl never.

Lemma grown_ok held tid t t1 k k1 :
  caps_wf held k -> tasks k !! tid = Some t -> grown tid t t1 k k1 ->
  caps_wf held k1 /\ tasks k1 !! tid = Some t1 /\
  (forall type o, refs k1 type o = refs k type o) /\
  (forall type o, live k1 type o <-> live k type o) /\
  (forall type o, dead_task k1 type o = dead_task k type o).
Proof.
  intros Hwf Ht [Htk Hso [n ->]].
  set (t1 := with_handles (handles t ++ replicate n empty_handle) t) in *.
  split; [|split; [rewrite Htk; apply lookup_insert_eq|]].
  - apply (caps_wf_same held (put_task tid t1 k)); [by destruct Hso|done|].
    apply (table_write_ok held held k tid t); try done; simpl.
    + intros h [Hin|Hin]%elem_of_app; [by apply (cw_handle _ _ Hwf tid t)|].
      apply elem_of_replicate in Hin as [-> _]. done.
    + intros type o. rewrite lsum_app, lsum_replicate_empty. lia.
    + apply Hwf.
    + apply Hwf.
  - destruct Hso as [Hp Hb Hh Hpo].
    split; [|split]; intros [] o; simpl; rewrite ?Hp, ?Hb, ?Hh, ?Hpo, ?Htk; try done;
      lookup_cases; rewrite ?Ht; done.
Qed.

(** *** Granting *)

(** Task [tid] has a handle on the object with exactly these rights. *)
Definition has (k : kernel) (tid : Z) (type : handle_type) (o rights : Z) : Prop :=
  exists t h, tasks k !! tid = Some t /\ h ∈ handles t /\
    h_type h = type /\ type <> HEmpty /\ h_object h = o /\ h_rights h = rights.

(** The handle number [g] of [tid] is that entry. *)
Definition has_at (k : kernel) (tid g : Z) (type : handle_type) (o rights : Z) : Prop :=
  exists t h, tasks k !! tid = Some t /\ handle_at g t = Some h /\
    h_type h = type /\ type <> HEmpty /\ h_object h = o /\ h_rights h = rights.

Lemma handle_at_index t i h : handles t !! i = Some h -> handle_at (Z.of_nat i + 1) t = Some h.
Proof.
  intros Hi. unfold handle_at, handle_capacity. pose proof (lookup_lt_Some _ _ _ Hi).
  decide_tests. simpl. by replace (Z.to_nat (Z.of_nat i + 1 - 1)) with i by lia.
Qed.

Lemma has_at_has k tid g type o rights : has_at k tid g type o rights -> has k tid type o rights.
Proof.
  intros (t & h & Ht & Hat & Hrest). exists t, h. split; [done|]. split; [|done].
  unfold handle_at in Hat. case_if. apply list_elem_of_lookup. eauto.
Qed.

(** What granting promises. *)
Record grant_post (held : holds) (tid : Z) (type : handle_type) (o rights g : Z)
    (k k' : kernel) : Prop := {
  gp_wf : caps_wf held k';
  gp_below : forall n, refs_below (n + 1) k -> refs_below n k';
  gp_live : forall type' o', live k' type' o' <-> live k type' o';
  gp_only : forall tid' type' o' r', has k' tid' type' o' r' ->
    has k tid' type' o' r' \/ tid' = tid /\ type' = type /\ o' = o /\ r' = rights;
  gp_kept : forall tid' type' o' r', has k tid' type' o' r' -> has k' tid' type' o' r';
  gp_granted : g <> 0 -> has_at k' tid g type o rights;
}.

Lemma refs_below_weaken n k : refs_below (n + 1) k -> refs_below n k.
Proof. intros Hb type o r Hr. specialize (Hb type o r Hr). lia. Qed.

Lemma has_same k k' tid type o rights :
  same_tables k k' -> has k' tid type o rights <-> has k tid type o rights.
Proof.
  intros Hs. specialize (Hs tid). unfold has.
  destruct (tasks k' !! tid) as [t'|], (tasks k !! tid) as [t|]; try done; simpl in Hs.
  injection Hs as Hh _.
  split; intros (x & h & [= <-] & Hin & Hrest); eexists _, h; (split; [done|]);
    rewrite Hh in *; done.
Qed.

(** Nothing granted: only counters of no concern may have changed. *)
Lemma grant_none held tid type o rights k k' :
  caps_wf held k' -> (forall type' o', refs k' type' o' = refs k type' o') ->
  (forall type' o', live k' type' o' <-> live k type' o') ->
  (forall tid' type' o' r', has k' tid' type' o' r' <-> has k tid' type' o' r') ->
  grant_post held tid type o rights 0 k k'.
Proof.
  intros Hwf Hrefs Hlive Hhas. constructor; try done.
  - intros n Hb type' o' r. rewrite Hrefs. by apply refs_below_weaken.
  - intros tid' type' o' r' Hh. left. by apply Hhas.
  - intros tid' type' o' r' Hh. by apply Hhas.
Qed.

Lemma grown_has tid t t1 k k1 tid' type o rights :
  tasks k !! tid = Some t -> grown tid t t1 k k1 ->
  has k1 tid' type o rights <-> has k tid' type o rights.
Proof.
  intros Ht [Htk _ [n ->]]. unfold has. rewrite Htk.
  destruct (decide (tid' = tid)) as [->|Hne]; [|by rewrite lookup_insert_ne by done].
  rewrite lookup_insert_eq, Ht. split; intros (x & h & [= <-] & Hin & Hty & Hrest).
  - simpl in Hin. apply elem_of_app in Hin as [Hin|Hin]; [eauto 10|].
    apply elem_of_replicate in Hin as [-> _]. simpl in Hty. naive_solver.
  - eexists _, h. split; [done|]. simpl. rewrite elem_of_app. eauto 10.
Qed.

(** The object is retained and the entry written. *)
Lemma grant_fresh held tid t i h0 type o rights k k2 t2 t' :
  caps_wf (bump type o 1 held) k2 -> same_tables k k2 -> tasks k !! tid = Some t ->
  handles t !! i = Some h0 -> h_type h0 = HEmpty -> type <> HEmpty ->
  tasks k2 !! tid = Some t2 ->
  handles t' = alter (fill_handle type o rights) i (handles t2) ->
  reply_port t' = reply_port t2 -> t_ref t' = t_ref t2 -> (forall ty ob, 0 <= held ty ob) ->
  caps_wf held (put_task tid t' k2) /\
  (forall tid' type' o' r', has (put_task tid t' k2) tid' type' o' r' ->
     has k tid' type' o' r' \/ tid' = tid /\ type' = type /\ o' = o /\ r' = rights) /\
  (forall tid' type' o' r', has k tid' type' o' r' -> has (put_task tid t' k2) tid' type' o' r') /\
  has_at (put_task tid t' k2) tid (Z.of_nat i + 1) type o rights.
Proof.
  intros Hwf Hs Ht Hi He Hne Ht2 Hh' Hrep Href Hn.
  assert (handles t2 = handles t) as Hht.
  { specialize (Hs tid). rewrite Ht, Ht2 in Hs. by injection Hs. }
  set (h := fill_handle type o rights h0).
  assert (handles t' = <[i := h]> (handles t)) as Hins.
  { rewrite Hh', Hht. apply list_eq. intros j. destruct (decide (j = i)) as [->|].
    - rewrite list_lookup_alter_eq, list_lookup_insert_eq, Hi; [done|by eapply lookup_lt_Some].
    - by rewrite list_lookup_alter_ne, list_lookup_insert_ne by done. }
  split; [|split; [|split]].
  - eapply caps_wf_ext; [|apply (install_ok _ k2 tid t2 t' i h0 h type o Hwf)]; try done.
    + intros. rewrite bump_bump. apply bump_0.
    + by rewrite Hht.
    + by rewrite Hins, Hht.
    + rewrite bump_eq. specialize (Hn type o). lia.
  - intros tid' type' o' r' Hhas. destruct (decide (tid' = tid)) as [->|Hnt].
    + destruct Hhas as (x & y & Hx & Hin & Hy). simpl in Hx. rewrite lookup_insert_eq in Hx.
      injection Hx as <-. rewrite Hins in Hin. apply list_elem_of_lookup in Hin as [j Hj].
      apply list_lookup_insert_Some in Hj as [(_ & <- & _)|[_ Hj]].
      * right. simpl in Hy. naive_solver.
      * left. exists t, y. split; [done|]. split; [apply list_elem_of_lookup; eauto|done].
    + left. apply (has_same k k2); [done|]. destruct Hhas as (x & y & Hx & Hrest).
      simpl in Hx. rewrite lookup_insert_ne in Hx by done. exists x, y. done.
  - intros tid' type' o' r' Hhas. destruct (decide (tid' = tid)) as [->|Hnt].
    + destruct Hhas as (x & y & Hx & Hin & Hy). rewrite Ht in Hx. injection Hx as <-.
      exists t', y. simpl. rewrite lookup_insert_eq. split; [done|]. split; [|done].
      rewrite Hins. apply list_elem_of_lookup in Hin as [j Hj]. apply list_elem_of_lookup.
      exists j. rewrite list_lookup_insert_ne; [done|]. intros <-. naive_solver.
    + apply (has_same k k2) in Hhas; [|done]. destruct Hhas as (x & y & Hx & Hrest).
      exists x, y. simpl. by rewrite lookup_insert_ne.
  - exists t', h. simpl. rewrite lookup_insert_eq. split; [done|]. split; [|done].
    apply handle_at_index. rewrite Hins. apply list_lookup_insert_eq. by eapply lookup_lt_Some.
Qed.

Lemma put_task_frame k tid t t' :
  tasks k !! tid = Some t -> t_ref t' = t_ref t ->
  (forall type o, refs (put_task tid t' k) type o = refs k type o) /\
  (forall type o, live (put_task tid t' k) type o <-> live k type o).
Proof.
  intros Ht Href. split; intros [] o; simpl; try done; lookup_cases; rewrite ?Ht; try done.
  simpl. by rewrite Href.
Qed.

Lemma grant_slot held tid t type o rights k i t1 k1 :
  caps_wf held k -> tasks k !! tid = Some t -> find_slot 2 tid t k = (Some (i, t1), k1) ->
  live k type o -> type <> HEmpty -> refs_below 1 k -> dead_task k type o = false ->
  exists k2 t2, task_handle_retain type o k1 = Some (0, k2) /\
    tasks k1 !! tid = Some t1 /\ tasks k2 !! tid = Some t2 /\ same_tables k1 k2 /\
    forall t', handles t' = alter (fill_handle type o rights) i (handles t2) ->
      reply_port t' = reply_port t2 -> t_ref t' = t_ref t2 ->
      grant_post held tid type o rights (Z.of_nat i + 1) k (put_task tid t' k2).
Proof.
  intros Hwf Ht Hslot Hl Hne Hb Hdead.
  pose proof (find_slot_grown 2 tid t k Ht) as Hg. rewrite Hslot in Hg.
  destruct Hg as (_ & Hg & h0 & Hi & He).
  destruct (grown_ok held tid t t1 k k1 Hwf Ht Hg) as (Hwf1 & Ht1 & Hrefs1 & Hlive1 & Hdead1).
  assert (refs_below 1 k1) as Hb1 by (intros ty ob r; rewrite Hrefs1; apply Hb).
  destruct (retain_ok held k1 type o Hwf1 ltac:(by apply Hlive1) Hb1)
    as (rc & k2 & Hret & Hs & Hlive2 & [(-> & Hwf2 & Hbel)|(_ & _ & Hd)]).
  2: { rewrite Hdead1 in Hd. congruence. }
  assert (exists t2, tasks k2 !! tid = Some t2) as [t2 Ht2].
  { specialize (Hs tid). rewrite Ht1 in Hs. destruct (tasks k2 !! tid); [eauto|done]. }
  exists k2, t2. split; [done|]. split; [done|]. split; [done|]. split; [done|].
  intros t' Hh' Hrep Href.
  destruct (grant_fresh held tid t1 i h0 type o rights k1 k2 t2 t') as (Hwf' & Honly & Hkept & Hhas);
    try done; [apply Hwf|].
  destruct (put_task_frame k2 tid t2 t' Ht2 Href) as [Hrf Hlv].
  constructor; [done| | | | |done].
  - intros n Hn ty ob r. rewrite Hrf. apply Hbel. intros ty' ob' r'. rewrite Hrefs1. apply Hn.
  - intros ty ob. by rewrite Hlv, Hlive2, Hlive1.
  - intros tid' ty ob r' [Hh|Hh]%Honly; [left|by right]. by apply (grown_has tid t t1 k k1).
  - intros tid' ty ob r' Hh. apply Hkept. by apply (grown_has tid t t1 k k1).
Qed.

(** The table could not grow. *)
Lemma grant_full held tid t type o rights k k1 :
  caps_wf held k -> tasks k !! tid = Some t -> find_slot 2 tid t k = (None, k1) ->
  grant_post held tid type o rights 0 k k1.
Proof.
  intros Hwf Ht Hslot. pose proof (find_slot_grown 2 tid t k Ht) as Hg. rewrite Hslot in Hg.
  destruct Hg as [[t1 Hg] _].
  destruct (grown_ok held tid t t1 k k1 Hwf Ht Hg) as (Hwf1 & _ & Hrefs1 & Hlive1 & _).
  apply grant_none; try done. intros. by apply (grown_has tid t t1 k k1).
Qed.

(** The handle was there already. *)
Lemma grant_existing held tid t t' type o rights i k :
  caps_wf held k -> tasks k !! tid = Some t -> type <> HEmpty ->
  find_idx (same_handle type o rights) (handles t) = Some i ->
  task_tables t' = task_tables t -> t_ref t' = t_ref t ->
  grant_post held tid type o rights (Z.of_nat i + 1) k (put_task tid t' k).
Proof.
  intros Hwf Ht Hne (h & Hi & Hsame)%find_idx_lookup Htt Href.
  pose proof (same_tables_put k tid t t' Ht Htt) as Hs.
  destruct (put_task_frame k tid t t' Ht Href) as [Hrf Hlv].
  assert (caps_wf held (put_task tid t' k)) as Hwf'.
  { injection Htt as Hh Hr. apply (table_write_ok held held k tid t); try done; rewrite ?Hh.
    - intros. by eapply (cw_handle _ _ Hwf).
    - intros. lia.
    - apply Hwf.
    - apply Hwf. }
  constructor; [done| |done| | |].
  - intros n Hb ty ob r. rewrite Hrf. by apply refs_below_weaken.
  - intros. left. by apply (has_same k (put_task tid t' k)).
  - intros. by apply (has_same k (put_task tid t' k)).
  - intros _. unfold same_handle in Hsame. bool_facts. injection Htt as Hh _.
    exists t', h. simpl. rewrite lookup_insert_eq. repeat split; try done.
    apply handle_at_index. by rewrite Hh.
Qed.

Lemma put_task_id k tid t : tasks k !! tid = Some t -> put_task tid t k = k.
Proof. intros Ht. unfold put_task, set_tasks. rewrite insert_id by done. by destruct k. Qed.

Lemma grant_existing_id held tid t type o rights i k :
  caps_wf held k -> tasks k !! tid = Some t -> type <> HEmpty ->
  find_idx (same_handle type o rights) (handles t) = Some i ->
  grant_post held tid type o rights (Z.of_nat i + 1) k k.
Proof.
  intros Hwf Ht Hne Hf.
  pose proof (grant_existing held tid t t type o rights i k Hwf Ht Hne Hf eq_refl eq_refl) as Hg.
  by rewrite put_task_id in Hg.
Qed.

Lemma affinity_tables aff t :
  task_tables (set_ipc_affinity aff t) = task_tables t /\
  t_ref (set_ipc_affinity aff t) = t_ref t.
Proof. unfold set_ipc_affinity. destruct aff; [|done]. by case_if. Qed.

Lemma grant_refused held tid type o rights k :
  caps_wf held k -> grant_post held tid type o rights 0 k k.
Proof. intros Hwf. by apply grant_none. Qed.

Section Grant.
Context (held : holds) (k : kernel) (tid o rights : Z) (t : task).
Context (Hwf : caps_wf held k) (Ht : tasks k !! tid = Some t) (Hb : refs_below 1 k).

Lemma grant_port_ok :
  live k HPort o ->
  exists g k', task_grant_port tid o rights k = Some (g, k') /\
    grant_post held tid HPort o rights g k k'.
Proof using Hwf Ht Hb.
  intros Hl. unfold task_grant_port. pose proof (caps_wf_nonnull _ _ _ _ Hwf Hl). decide_tests.
  assert (exists aff, ipc_port_affinity_cpu o rights k = Some aff) as [aff ->].
  { unfold ipc_port_affinity_cpu. destruct Hl as [p Hp]. rewrite Hp. case_if; simpl; eauto. }
  simpl. rewrite Ht. simpl. destruct (affinity_tables aff t) as [Haf1 Haf2].
  destruct (find_idx _ (handles t)) as [i|] eqn:Hf.
  { eexists _, _. split; [done|]. by apply (grant_existing held tid t). }
  destruct (find_slot 2 tid t k) as [[[i t1]|] k1] eqn:Hslot.
  2: { eexists _, _. split; [done|]. by apply (grant_full held tid t). }
  destruct (grant_slot held tid t HPort o rights k i t1 k1) as (k2 & t2 & Hret & Ht1 & Ht2 & Hs & Hpost);
    try done.
  simpl in Hret. unfold ipc_port_retain in Hret |- *.
  revert Hret. decide_tests. simpl. destruct (ports k1 !! o) as [p|]; [|done]. simpl.
  intros [= <-]. simpl in Ht2. rewrite Ht1 in Ht2. injection Ht2 as <-.
  eexists _, _. split; [done|]. simpl in Hpost.
  specialize (Hpost (set_ipc_affinity aff (install i HPort o rights t1))).
  destruct (affinity_tables aff (install i HPort o rights t1)) as [Haf3 Haf4].
  injection Haf3 as Haf3 Haf5. apply Hpost; [by rewrite Haf3|by rewrite Haf5|by rewrite Haf4].
Qed.

Lemma grant_buffer_ok :
  live k HBuffer o ->
  exists g k', task_grant_buffer tid o rights k = Some (g, k') /\
    grant_post held tid HBuffer o rights g k k'.
Proof using Hwf Ht Hb.
  intros Hl. unfold task_grant_buffer. pose proof (caps_wf_nonnull _ _ _ _ Hwf Hl). decide_tests.
  rewrite Ht. simpl. destruct (find_idx _ (handles t)) as [i|] eqn:Hf.
  { eexists _, _. split; [done|]. by apply (grant_existing_id held tid t). }
  destruct (find_slot 2 tid t k) as [[[i t1]|] k1] eqn:Hslot.
  2: { eexists _, _. split; [done|]. by apply (grant_full held tid t). }
  destruct (grant_slot held tid t HBuffer o rights k i t1 k1) as (k2 & t2 & Hret & Ht1 & Ht2 & Hs & Hpost);
    try done.
  simpl in Hret. unfold buffer_retain in Hret |- *.
  revert Hret. decide_tests. simpl. destruct (buffers k1 !! o) as [r|]; [|done]. simpl.
  intros [= <-]. simpl in Ht2. rewrite Ht1 in Ht2. injection Ht2 as <-.
  eexists _, _. split; [done|]. by apply (Hpost (install i HBuffer o rights t1)).
Qed.

Lemma grant_hw_ok :
  live k HHw o ->
  exists g k', task_grant_hw_resource tid o rights k = Some (g, k') /\
    grant_post held tid HHw o rights g k k'.
Proof using Hwf Ht Hb.
  intros Hl. unfold task_grant_hw_resource. pose proof (caps_wf_nonnull _ _ _ _ Hwf Hl).
  case_if; [by eexists _, _; split; [done|apply grant_refused]|].
  rewrite Ht. simpl. destruct (find_idx _ (handles t)) as [i|] eqn:Hf.
  { eexists _, _. split; [done|]. by apply (grant_existing_id held tid t). }
  destruct (find_slot 2 tid t k) as [[[i t1]|] k1] eqn:Hslot.
  2: { eexists _, _. split; [done|]. by apply (grant_full held tid t). }
  destruct (grant_slot held tid t HHw o rights k i t1 k1) as (k2 & t2 & Hret & Ht1 & Ht2 & Hs & Hpost);
    try done.
  simpl in Hret. rewrite Hret. simpl. eexists _, _. split; [done|].
  assert (t2 = t1) as ->.
  { unfold task_hw_resource_retain in Hret. case_if; try done.
    destruct (hws k1 !! o) as [h|]; [|done]. simpl in Hret.
    destruct (hw_owned h); injection Hret as <-; simpl in Ht2; congruence. }
  by apply (Hpost (install i HHw o rights t1)).
Qed.

Lemma grant_policy_ok :
  live k HPolicy o ->
  exists g k', task_grant_sched_policy tid o rights k = Some (g, k') /\
    grant_post held tid HPolicy o rights g k k'.
Proof using Hwf Ht Hb.
  intros Hl. unfold task_grant_sched_policy. pose proof (caps_wf_nonnull _ _ _ _ Hwf Hl).
  case_if; [by eexists _, _; split; [done|apply grant_refused]|].
  rewrite Ht. simpl. destruct (find_idx _ (handles t)) as [i|] eqn:Hf.
  { eexists _, _. split; [done|]. by apply (grant_existing_id held tid t). }
  destruct (find_slot 2 tid t k) as [[[i t1]|] k1] eqn:Hslot.
  2: { eexists _, _. split; [done|]. by apply (grant_full held tid t). }
  destruct (grant_slot held tid t HPolicy o rights k i t1 k1) as (k2 & t2 & Hret & Ht1 & Ht2 & Hs & Hpost);
    try done.
  simpl in Hret. rewrite Hret. simpl. eexists _, _. split; [done|].
  assert (t2 = t1) as ->.
  { unfold sched_policy_cap_retain in Hret. case_if; try done.
    destruct (policies k1 !! o); [|done]. injection Hret as <-. simpl in Ht2. congruence. }
  by apply (Hpost (install i HPolicy o rights t1)).
Qed.

Lemma grant_task_ok :
  live k HTask o ->
  exists g k', task_grant_task tid o rights k = Some (g, k') /\
    grant_post held tid HTask o rights g k k'.
Proof using Hwf Ht Hb.
  intros Hl. unfold task_grant_task. pose proof (caps_wf_nonnull _ _ _ _ Hwf Hl).
  case_if; [by eexists _, _; split; [done|apply grant_refused]|].
  pose proof Hl as [tt Htt]. rewrite Htt. simpl.
  destruct (dead tt) eqn:Hdead; [by eexists _, _; split; [done|apply grant_refused]|].
  rewrite Ht. simpl. destruct (find_idx _ (handles t)) as [i|] eqn:Hf.
  { eexists _, _. split; [done|]. by apply (grant_existing_id held tid t). }
  destruct (find_slot 2 tid t k) as [[[i t1]|] k1] eqn:Hslot.
  2: { eexists _, _. split; [done|]. by apply (grant_full held tid t). }
  destruct (grant_slot held tid t HTask o rights k i t1 k1) as (k2 & t2 & Hret & Ht1 & Ht2 & Hs & Hpost);
    try done.
  { simpl. by rewrite Htt. }
  simpl in Hret. destruct (tasks k1 !! o) as [tt1|] eqn:Htt1; [|done]. simpl in Hret.
  destruct (dead tt1) eqn:Hd1; [done|]. injection Hret as <-. simpl in Ht2. simpl.
  destruct (decide (o = tid)) as [->|Hne].
  - rewrite lookup_insert_eq in Ht2. injection Ht2 as <-. rewrite Ht1 in Htt1. injection Htt1 as <-.
    rewrite lookup_insert_eq. simpl. rewrite Hd1. eexists _, _. split; [done|].
    specialize (Hpost (with_ref (u32 (t_ref t1 + 1)) (install i HTask tid rights t1))
      eq_refl eq_refl eq_refl).
    unfold put_task, set_tasks in *. simpl in *. rewrite insert_insert_eq in *. done.
  - rewrite lookup_insert_ne in Ht2 by done. rewrite Ht1 in Ht2. injection Ht2 as <-.
    rewrite lookup_insert_ne by done. rewrite Htt1. simpl. rewrite Hd1.
    eexists _, _. split; [done|].
    specialize (Hpost (install i HTask o rights t1) eq_refl eq_refl eq_refl).
    unfold put_task, set_tasks in *. simpl in *. rewrite insert_insert_ne by done. done.
Qed.

End Grant.

Lemma grant_any_ok held k tid type o rights :
  caps_wf held k -> is_Some (tasks k !! tid) -> refs_below 1 k -> live k type o ->
  exists g k', grant_any type tid o rights k = Some (g, k') /\
    grant_post held tid type o rights g k k'.
Proof.
  intros Hwf [t Ht] Hb Hl. destruct type; simpl; [done|..].
  - by eapply grant_port_ok.
  - by eapply grant_task_ok.
  - by eapply grant_buffer_ok.
  - by eapply grant_hw_ok.
  - by eapply grant_policy_ok.
Qed.

(** *** Handles that operations keep or drop *)

(** No task has a handle it did not have, and none has died. *)
Definition tables_le (k k' : kernel) : Prop :=
  forall tid t', tasks k' !! tid = Some t' ->
    exists t, tasks k !! tid = Some t /\ (forall h, h ∈ handles t' -> h ∈ handles t) /\
      dead t' = dead t.

Lemma tables_le_refl k : tables_le k k.
Proof. intros tid t Ht. eauto. Qed.

Lemma tables_le_trans k1 k2 k3 : tables_le k1 k2 -> tables_le k2 k3 -> tables_le k1 k3.
Proof.
  intros H12 H23 tid t3 (t2 & (t1 & Ht1 & H1 & Hd1)%H12 & H2 & Hd2)%H23. exists t1.
  split; [done|]. split; [auto|congruence].
Qed.

Lemma tables_le_same k k' : tasks k' = tasks k -> tables_le k k'.
Proof. intros Heq tid t Ht. rewrite Heq in Ht. eauto. Qed.

Lemma tables_le_put k tid t t' :
  tasks k !! tid = Some t -> (forall h, h ∈ handles t' -> h ∈ handles t) -> dead t' = dead t ->
  tables_le k (put_task tid t' k).
Proof.
  intros Ht Hh Hd tid2 t2. simpl. intros [[<- <-]|[_ ?]]%lookup_insert_Some; eauto.
Qed.

Lemma tables_le_has k k' tid type o r :
  tables_le k k' -> has k' tid type o r -> has k tid type o r.
Proof.
  intros Hle (t' & h & (t & Ht & Hh & _)%Hle & Hin & Hrest). exists t, h. auto.
Qed.

Lemma port_release_tasks o k k' : ipc_port_release o k = Some k' -> tasks k' = tasks k.
Proof.
  unfold ipc_port_release. case_if; [by intros [= <-]|].
  destruct (ports k !! o) as [p|]; [|done]. simpl. case_if; [by intros [= <-]|].
  case_if; by intros [= <-].
Qed.

Lemma release_all_tables fuel hs k1 k2 :
  (forall type o k k', task_handle_release_fuel fuel type o k = Some k' -> tables_le k k') ->
  foldl (fun ok h => k ← ok; task_handle_release_fuel fuel (h_type h) (h_object h) k)
    (Some k1) hs = Some k2 ->
  tables_le k1 k2.
Proof.
  intros IH. revert k1. induction hs as [|h hs IHhs]; intros k1 Hf; simpl in Hf.
  - injection Hf as <-. apply tables_le_refl.
  - destruct (task_handle_release_fuel fuel _ _ k1) as [k3|] eqn:H3.
    + eapply tables_le_trans; [by eapply IH|by apply IHhs].
    + exfalso. clear -Hf. induction hs; simpl in Hf; [done|auto].
Qed.

Lemma release_tables fuel type o k k' :
  task_handle_release_fuel fuel type o k = Some k' -> tables_le k k'.
Proof.
  revert type o k k'. induction fuel as [|fuel IH]; intros type o k k' Hr; [done|].
  destruct type; cbn [task_handle_release_fuel] in Hr.
  - injection Hr as <-. apply tables_le_refl.
  - apply tables_le_same. by eapply port_release_tasks.
  - case_if; [injection Hr as <-; apply tables_le_refl|].
    destruct (tasks k !! o) as [t|] eqn:Ht; [|done]. cbn [mbind option_bind] in Hr.
    set (t0 := if 0 <? t_ref t then with_ref (t_ref t - 1) t else t) in *.
    assert (tables_le k (put_task o t0 k)) as Hle0.
    { eapply tables_le_put; [done|..]; unfold t0; by case_if. }
    revert Hr. case_if; [|by intros [= <-]].
    pose proof (teardown_detach_spec o t0 (put_task o t0 k)) as Hd.
    destruct (teardown_detach o t0 _) as [[hs reply] k1].
    destruct Hd as (t' & Htk & _ & _ & _ & _ & _ & _ & Hh' & _ & _ & Hd').
    assert (tables_le k k1) as Hle1.
    { intros tid2 t2. rewrite Htk. intros [[<- <-]|[Hne Ht2]]%lookup_insert_Some.
      - rewrite Hh'. exists t. split; [done|]. split; [by intros h ?%elem_of_nil|].
        rewrite Hd'. unfold t0. by case_if.
      - apply Hle0. done. }
    match goal with |- context [foldl ?f (Some k1) hs] =>
      destruct (foldl f (Some k1) hs) as [k2|] eqn:Hf; [|done] end. simpl.
    destruct (ipc_port_release reply k2) as [k3|] eqn:H3; [|done]. simpl. intros [= <-].
    apply (tables_le_trans _ k2); [by eapply tables_le_trans, release_all_tables|].
    intros tid2 t2. simpl. intros [_ Ht2]%lookup_delete_Some.
    rewrite <- (port_release_tasks _ _ _ H3). destruct (owns_vm_space t0); eauto.
  - apply tables_le_same. unfold buffer_release in Hr. case_if; [by simplify_eq|].
    destruct (buffers k !! o); [|done]. simpl in Hr. case_if; by simplify_eq.
  - apply tables_le_same. unfold task_hw_resource_release in Hr. case_if; [by simplify_eq|].
    destruct (hws k !! o); [|done]. simpl in Hr. repeat case_if; by simplify_eq.
  - apply tables_le_same. unfold sched_policy_cap_release in Hr. case_if; [by simplify_eq|].
    destruct (policies k !! o); [|done]. simpl in Hr. repeat case_if; by simplify_eq.
Qed.

(** *** Looking objects up *)

Definition lookup_any (type : handle_type) : Z -> Z -> Z -> kernel -> option (Z * kernel) :=
  match type with
  | HPort => task_port_from_handle
  | HBuffer => task_buffer_from_handle
  | HTask => task_from_handle
  | HHw => task_hw_resource_from_handle
  | HPolicy => task_sched_policy_from_handle
  | HEmpty => fun _ _ _ k => Some (0, k)
  end.

(** The caller owns a new reference to [o]. *)
Record acquired (held : holds) (type : handle_type) (o : Z) (k k' : kernel) : Prop := {
  aq_wf : caps_wf (bump type o 1 held) k';
  aq_tables : same_tables k k';
  aq_live : forall type' o', live k' type' o' <-> live k type' o';
  aq_below : forall n, refs_below (n + 1) k -> refs_below n k';
}.

Lemma retain_acquires held k tid t handle h type o locked :
  caps_wf held k -> refs_below 1 k -> tasks k !! tid = Some t -> handle_at handle t = Some h ->
  h_type h = type -> h_object h = o -> type <> HEmpty ->
  exists rc k', task_handle_retain_from_locked_task locked type o k = Some (rc, k') /\ o <> 0 /\
    (rc = 0 /\ dead_task k type o = false /\ acquired held type o k k' \/
     rc = -1 /\ k' = k /\ dead_task k type o = true).
Proof.
  intros Hwf Hb Ht Hat%handle_at_Some Hty Ho Hne.
  assert (live k type o) as Hl.
  { rewrite <- Hty, <- Ho. eapply (cw_handle _ _ Hwf); [done| |congruence].
    apply list_elem_of_lookup. eauto. }
  pose proof (caps_wf_nonnull _ _ _ _ Hwf Hl) as Hnz. rewrite retain_locked by done.
  destruct (retain_ok held k type o Hwf Hl Hb) as (rc & k' & Hr & Hs & Hlv & Hcase).
  exists rc, k'. split; [done|]. split; [done|].
  destruct Hcase as [(-> & Hwf' & Hbel)|(-> & -> & Hd)]; [left|by right].
  split; [done|]. split; [|done].
  rewrite retain_put in Hr by done. by destruct (dead_task k type o).
Qed.

(** [tid] may use [handle] as an object of this type with these rights. *)
Definition entitled (k : kernel) (type : handle_type) (tid handle rights o : Z) : Prop :=
  exists t h, tasks k !! tid = Some t /\ handle_at handle t = Some h /\ h_type h = type /\
    type <> HEmpty /\ h_object h = o /\ rights_include (h_rights h) rights = true /\
    dead_task k type o = false.

Lemma object_lookup_ok held k type tid handle rights :
  caps_wf held k -> refs_below 1 k -> is_Some (tasks k !! tid) -> type <> HEmpty ->
  exists o k', object_from_handle type tid handle rights k = Some (o, k') /\
    (o = 0 /\ k' = k /\ (forall o', ~ entitled k type tid handle rights o') \/
     o <> 0 /\ entitled k type tid handle rights o /\ acquired held type o k k').
Proof.
  intros Hwf Hb [t Ht] Hne. unfold object_from_handle. rewrite Ht. simpl.
  destruct (handle_at handle t) as [h|] eqn:Hat.
  2: { exists 0, k. split; [done|left]. split; [done|]. split; [done|].
       intros o' (t' & h & Ht' & Hat' & _). congruence. }
  destruct (_ || _) eqn:Hc.
  { exists 0, k. split; [done|left]. split; [done|]. split; [done|].
    intros o' (t' & h' & Ht' & Hat' & Hty & _ & _ & Hinc & _).
    assert (t' = t) as -> by congruence. assert (h' = h) as -> by congruence.
    rewrite Hinc, bool_decide_eq_true_2 in Hc by done. done. }
  apply orb_false_iff in Hc as [Hty Hinc]. bool_facts.
  destruct (retain_acquires held k tid t handle h (h_type h) (h_object h) tid Hwf Hb Ht Hat)
    as (rc & k' & -> & Hnz & Hcase); [done|done|congruence|]. simpl.
  destruct Hcase as [(-> & Hd & Haq)|(-> & -> & Hd)]; simpl.
  - exists (h_object h), k'. split; [done|right]. split; [done|]. subst type.
    split; [|done]. exists t, h. done.
  - exists 0, k. split; [done|left]. split; [done|]. split; [done|].
    intros o' (t' & h' & Ht' & Hat' & Hty' & _ & Ho & _ & Hd').
    assert (t' = t) as -> by congruence. assert (h' = h) as -> by congruence. congruence.
Qed.

Lemma task_lookup_eq owner handle rights k held :
  caps_wf held k -> is_Some (tasks k !! owner) ->
  task_from_handle owner handle rights k = object_from_handle HTask owner handle rights k.
Proof.
  intros Hwf [t Ht]. unfold task_from_handle, object_from_handle. rewrite Ht. simpl.
  destruct (handle_at handle t) as [h|] eqn:Hat; [|done].
  destruct (decide (h_type h = HTask)) as [Hty|Hty].
  2: { by rewrite bool_decide_eq_false_2. }
  rewrite bool_decide_eq_true_2 by done. simpl.
  assert (live k HTask (h_object h)) as Hl.
  { rewrite <- Hty. eapply (cw_handle _ _ Hwf); [done| |congruence].
    apply list_elem_of_lookup. eauto using handle_at_Some. }
  pose proof (caps_wf_nonnull _ _ _ _ Hwf Hl) as Hnz. destruct Hl as [tt Htt].
  rewrite Htt. simpl. destruct (dead tt) eqn:Hd; simpl; [|done].
  case_if; [done|]. rewrite Hty, retain_locked by done. simpl. rewrite Htt. simpl. by rewrite Hd.
Qed.

Lemma lookup_ok held k type tid handle rights :
  caps_wf held k -> refs_below 1 k -> is_Some (tasks k !! tid) -> type <> HEmpty ->
  exists o k', lookup_any type tid handle rights k = Some (o, k') /\
    (o = 0 /\ k' = k /\ (forall o', ~ entitled k type tid handle rights o') \/
     o <> 0 /\ entitled k type tid handle rights o /\ acquired held type o k k').
Proof.
  intros Hwf Hb Hs Hne. destruct type; simpl; try done; try by apply object_lookup_ok.
  rewrite (task_lookup_eq tid handle rights k held) by done. by apply object_lookup_ok.
Qed.

Lemma export_ok held k tid handle rights :
  caps_wf held k -> refs_below 1 k -> is_Some (tasks k !! tid) ->
  exists r k', task_export_cap tid handle rights k = Some (r, k') /\
    match r with
    | None => k' = k
    | Some (type, o) => entitled k type tid handle rights o /\ acquired held type o k k'
    end.
Proof.
  intros Hwf Hb [t Ht]. unfold task_export_cap. rewrite Ht. simpl.
  destruct (handle_at handle t) as [h|] eqn:Hat; [|by exists None, k].
  destruct (_ || _) eqn:Hc; [by exists None, k|]. apply orb_false_iff in Hc as [He Hinc].
  unfold is_empty in He. bool_facts.
  destruct (retain_acquires held k tid t handle h (h_type h) (h_object h) tid Hwf Hb Ht Hat)
    as (rc & k' & -> & Hnz & Hcase); [done..|]. simpl.
  destruct Hcase as [(-> & Hd & Haq)|(-> & -> & Hd)]; simpl.
  - exists (Some (h_type h, h_object h)), k'. split; [done|]. split; [|done]. by exists t, h.
  - by exists None, k.
Qed.

(** *** Closing, tagging and discarding *)

Lemma live_put_task k tid t t' type o :
  tasks k !! tid = Some t -> t_ref t' = t_ref t ->
  refs (put_task tid t' k) type o = refs k type o.
Proof. intros Ht Href. by apply (put_task_frame k tid t t'). Qed.

Lemma refs_below_put n k tid t t' :
  tasks k !! tid = Some t -> t_ref t' = t_ref t ->
  refs_below n k -> refs_below n (put_task tid t' k).
Proof. intros Ht Href Hb type o r. rewrite (live_put_task k tid t) by done. apply Hb. Qed.

(** Entries that are not empty come from the table before. *)
Definition entries_le (k k' : kernel) : Prop :=
  forall tid type o r, has k' tid type o r -> has k tid type o r.

Lemma clear_entries k tid t i :
  tasks k !! tid = Some t -> entries_le k (put_task tid (clear_handle i t) k).
Proof.
  intros Ht tid' type o r (t' & h & Ht' & Hin & Hty & Hne & Hrest). simpl in Ht'.
  apply lookup_insert_Some in Ht' as [[<- <-]|[Hnt Ht']].
  - simpl in Hin. apply list_elem_of_lookup in Hin as [j Hj].
    apply list_lookup_insert_Some in Hj as [(_ & <- & _)|[_ Hj]].
    + simpl in Hty. congruence.
    + exists t, h. split; [done|]. split; [apply list_elem_of_lookup; eauto|done].
  - exists t', h. done.
Qed.

Lemma close_ok held k tid handle :
  caps_wf held k -> refs_below 0 k -> is_Some (tasks k !! tid) ->
  exists rc k', task_close_handle tid handle k = Some (rc, k') /\ caps_wf held k' /\
    entries_le k k' /\ refs_below 0 k' /\
    (rc = 0 \/ rc = -1 /\ k' = k).
Proof.
  intros Hwf Hb [t Ht]. unfold task_close_handle. rewrite Ht. simpl.
  assert (exists rc k', Some (-1, k) = Some (rc, k') /\ caps_wf held k' /\
    entries_le k k' /\ refs_below 0 k' /\ (rc = 0 \/ rc = -1 /\ k' = k)) as Hfail.
  { exists (-1), k. split; [done|]. split; [done|]. split; [by intros ?|]. auto. }
  destruct (handle_at handle t) as [h|] eqn:Hat; [|done].
  destruct (is_empty h) eqn:He; [done|]. unfold is_empty in He. bool_facts.
  apply handle_at_Some in Hat.
  pose proof (clear_ok held k tid t _ h Hwf Ht Hat He) as Hwf1.
  set (k1 := put_task tid (clear_handle (Z.to_nat (handle - 1)) t) k) in *.
  assert (refs_below 0 k1) as Hb1 by (by apply (refs_below_put 0 k tid t)).
  destruct (handle_release_ok _ k1 (h_type h) (h_object h) Hwf1 Hb1) as (k' & Hrel & Hpost).
  { rewrite bump_eq. pose proof (cw_held _ _ Hwf (h_type h) (h_object h)). lia. }
  rewrite Hrel. simpl. exists 0, k'. split; [done|]. split; [|split; [|split]].
  - eapply caps_wf_ext; [|apply (rp_wf _ _ _ Hpost)]. intros. rewrite bump_bump. apply bump_0.
  - intros tid' type o r Hhas. apply (clear_entries k tid t (Z.to_nat (handle - 1))); [done|].
    eapply tables_le_has; [by eapply release_tables|done].
  - eapply refs_le_below; [apply (rp_refs _ _ _ Hpost)|done].
  - by left.
Qed.

Lemma tag_ok held k tid handle tag :
  caps_wf held k -> is_Some (tasks k !! tid) ->
  exists rc k', task_set_handle_tag tid handle tag k = Some (rc, k') /\ caps_wf held k' /\
    (forall tid' type o r, has k' tid' type o r <-> has k tid' type o r) /\
    (forall type o, refs k' type o = refs k type o).
Proof.
  intros Hwf [t Ht]. unfold task_set_handle_tag. rewrite Ht. simpl.
  destruct (handle_at handle t) as [h|] eqn:Hat; [|by exists (-1), k].
  destruct (is_empty h) eqn:He; [by exists (-1), k|]. apply handle_at_Some in Hat.
  set (h' := mk_handle (h_type h) (h_rights h) tag (h_object h)).
  set (i := Z.to_nat (handle - 1)) in *.
  set (t' := with_handles (<[i := h']> (handles t)) t).
  eexists _, _. split; [done|]. fold t'. split; [|split].
  - apply (table_write_ok held held k tid t); try done; try apply Hwf.
    + simpl. intros x [j Hj]%list_elem_of_lookup Hne.
      apply list_lookup_insert_Some in Hj as [(_ & <- & _)|[_ Hj]]; simpl in *;
        eapply (cw_handle _ _ Hwf); try done; apply list_elem_of_lookup; eauto.
    + intros type o. simpl. rewrite (lsum_insert _ _ _ h) by done.
      assert (points type o h' = points type o h) as -> by done. lia.
  - intros tid' type o r. unfold has. simpl.
    destruct (decide (tid' = tid)) as [->|Hne]; [|by rewrite lookup_insert_ne by done].
    rewrite lookup_insert_eq, Ht. split; intros (x & y & [= <-] & Hin & Hrest).
    + simpl in Hin. apply list_elem_of_lookup in Hin as [j Hj].
      apply list_lookup_insert_Some in Hj as [(_ & <- & _)|[_ Hj]].
      * exists t, h. split; [done|]. split; [apply list_elem_of_lookup; eauto|done].
      * exists t, y. split; [done|]. split; [apply list_elem_of_lookup; eauto|done].
    + apply list_elem_of_lookup in Hin as [j Hj]. exists t'.
      destruct (decide (j = i)) as [->|Hji].
      * assert (y = h) as -> by congruence. exists h'. split; [done|]. split; [|done].
        apply list_elem_of_lookup. exists i. apply list_lookup_insert_eq. by eapply lookup_lt_Some.
      * exists y. split; [done|]. split; [|done]. apply list_elem_of_lookup. exists j.
        simpl. by rewrite list_lookup_insert_ne.
  - intros. by apply (live_put_task k tid t).
Qed.

(** *** Inheritance *)

(** Releasing a reference while handles remain frees nothing. *)
Lemma release_nonfinal held k type o k' :
  caps_wf held k -> 1 <= held type o -> 1 <= table_refs k type o ->
  task_handle_release type o k = Some k' -> same_tables k k'.
Proof.
  intros Hwf Hh Htr Hrel. unfold task_handle_release in Hrel.
  destruct (decide (type = HTask)) as [->|Hnt].
  2: { assert (tasks k' = tasks k) as Heq; [|intros tid; by rewrite Heq].
       destruct type; simpl in Hrel; try done; [by simplify_eq|by eapply port_release_tasks| | |].
       - unfold buffer_release in Hrel. case_if; [by simplify_eq|].
         destruct (buffers k !! o); [|done]. simpl in Hrel. case_if; by simplify_eq.
       - unfold task_hw_resource_release in Hrel. case_if; [by simplify_eq|].
         destruct (hws k !! o); [|done]. simpl in Hrel. repeat case_if; by simplify_eq.
       - unfold sched_policy_cap_release in Hrel. case_if; [by simplify_eq|].
         destruct (policies k !! o); [|done]. simpl in Hrel. repeat case_if; by simplify_eq. }
  cbn [task_handle_release_fuel] in Hrel. revert Hrel. case_if; [by intros [= <-]|].
  bool_facts. destruct (tasks k !! o) as [t|] eqn:Ht; [|done]. cbn [mbind option_bind].
  assert (t_ref t = table_refs k HTask o + held HTask o) as Hr.
  { apply (cw_refs _ _ Hwf); [by intros [_ ?]|]. simpl. by rewrite Ht. }
  decide_tests. simpl t_ref. decide_tests. intros [= <-]. by eapply same_tables_put.
Qed.

Definition rights_within (r r0 : Z) : Prop := Z.land r (Z.lnot r0) = 0.

Lemma inherit_ok held k dst src handle rights :
  caps_wf held k -> refs_below 2 k -> is_Some (tasks k !! dst) -> is_Some (tasks k !! src) ->
  exists g k', task_grant_inherited_handle dst src handle rights k = Some (g, k') /\
    caps_wf held k' /\
    (g = 0 /\ entries_le k k' \/
     exists type o r0, has k src type o r0 /\ rights_within rights r0 /\
       has_right r0 TASK_RIGHT_DUP = true /\
       (forall tid' type' o' r', has k' tid' type' o' r' ->
          has k tid' type' o' r' \/ tid' = dst /\ type' = type /\ o' = o /\ r' = rights) /\
       (g <> 0 -> has k' dst type o rights)).
Proof.
  intros Hwf Hb Hdst [s Hs]. unfold task_grant_inherited_handle.
  assert (exists g k', Some (0, k) = Some (g, k') /\ caps_wf held k' /\ (g = 0 /\ entries_le k k')) as Hno.
  { exists 0, k. split; [done|]. split; [done|]. split; [done|by intros ?]. }
  case_if; [naive_solver|]. rewrite Hs. simpl.
  destruct (handle_at handle s) as [h|] eqn:Hat; [|naive_solver].
  destruct (inherit_denied h rights) eqn:Hden; [naive_solver|].
  unfold inherit_denied, is_empty, has_right in Hden. bool_facts.
  destruct (retain_acquires held k src s handle h (h_type h) (h_object h) src Hwf
    (refs_below_weaken 1 k Hb) Hs Hat) as (rc & k1 & -> & Hnz & Hcase); [done..|]. simpl.
  destruct Hcase as [(-> & Hd & [Hwf1 Ht1 Hlv1 Hbl1])|(-> & -> & Hd)]; simpl; [|naive_solver].
  destruct (grant_any_ok _ k1 dst (h_type h) (h_object h) rights Hwf1) as (g & k2 & -> & Hgp).
  { specialize (Ht1 dst). destruct (tasks k1 !! dst); [eauto|]. destruct Hdst as [d Hd']. by rewrite Hd' in Ht1. }
  { by apply Hbl1. }
  { apply Hlv1. eapply (cw_handle _ _ Hwf); [done| |done]. apply list_elem_of_lookup.
    eauto using handle_at_Some. }
  simpl. pose proof (cw_held _ _ Hwf (h_type h) (h_object h)) as Hh0.
  assert (has k src (h_type h) (h_object h) (h_rights h)) as Hhas.
  { exists s, h. repeat split; try done. apply list_elem_of_lookup. eauto using handle_at_Some. }
  destruct (handle_release_ok _ k2 (h_type h) (h_object h) (gp_wf _ _ _ _ _ _ _ _ Hgp)) as (k3 & Hrel & Hpost).
  { apply (gp_below _ _ _ _ _ _ _ _ Hgp 0). by apply Hbl1. }
  { rewrite bump_eq. lia. }
  rewrite Hrel. simpl. exists g, k3. split; [done|]. split.
  { eapply caps_wf_ext; [|apply (rp_wf _ _ _ Hpost)]. intros. rewrite bump_bump. apply bump_0. }
  assert (same_tables k2 k3) as Hs3.
  { apply (release_nonfinal _ k2 (h_type h) (h_object h) _ (gp_wf _ _ _ _ _ _ _ _ Hgp)); [|
      |done]; [rewrite bump_eq; lia|].
    apply (has_same k k1) in Hhas; [|done].
    apply (gp_kept _ _ _ _ _ _ _ _ Hgp) in Hhas as (x & y & Hx & Hin & Hy & Hne & Ho & _).
    rewrite <- Hy, <- Ho. eapply entry_counted; [done|done|congruence]. }
  right. exists (h_type h), (h_object h), (h_rights h). split; [done|]. split; [done|]. split.
  { unfold has_right. by apply negb_true_iff, Z.eqb_neq. }
  split.
  - intros tid' type' o' r' Hf. apply (has_same k2 k3) in Hf; [|done].
    apply (gp_only _ _ _ _ _ _ _ _ Hgp) in Hf as [Hf|Hf]; [left|by right].
    by apply (has_same k k1).
  - intros Hg. apply (has_same k2 k3); [done|].
    eapply has_at_has. by apply (gp_granted _ _ _ _ _ _ _ _ Hgp).
Qed.

(** *** Cloning a table *)

Lemma ref_up_ok held k type o r :
  caps_wf held k -> refs k type o = Some r -> live k type o -> 0 <= r -> r + 1 < 2 ^ 32 ->
  caps_wf (bump type o 1 held) (put_ref type o (u32 (r + 1)) k).
Proof.
  intros Hwf Hr Hl H0 Hb. rewrite u32_small by (unfold in_u32; lia).
  destruct (put_ref_spec type o r (r + 1) k Hr) as (Hs & Hlv & Hrf).
  pose proof (cw_held _ _ Hwf type o).
  apply (caps_wf_counter held k); try done; [|lia].
  intros type' o' r' Htr. rewrite Hrf. case_bool_decide as Hc.
  - destruct Hc as [-> ->]. intros [= <-]. eauto.
  - intros Hr'. exists r'. split; [done|lia].
Qed.

(** The entry copied into the child. *)
Definition cloned (dst src : Z) (h : task_handle) : task_handle :=
  if bool_decide (h_type h = HTask) && (h_object h =? src)
  then mk_handle (h_type h) (h_rights h) (h_tag h) dst else h.

(** What copying one entry promises: nothing happened, or the child has a
    retained copy. *)
Record clone_step (held : holds) (dst src : Z) (i : nat) (h : task_handle) (d : task)
    (k k' : kernel) : Prop := {
  cs_wf : caps_wf held k';
  cs_below : forall n, refs_below (n + 1) k -> refs_below n k';
  cs_live : forall type o, live k' type o <-> live k type o;
  cs_child : exists d', tasks k' !! dst = Some d' /\
    (handles d' = handles d \/
     handles d' = <[i := cloned dst src h]> (handles d) /\ h_type h <> HEmpty);
  cs_others : forall tid, tid <> dst ->
    task_tables <$> tasks k' !! tid = task_tables <$> tasks k !! tid;
}.

Lemma clone_step_none held dst src i h d k :
  caps_wf held k -> tasks k !! dst = Some d -> clone_step held dst src i h d k k.
Proof.
  intros Hwf Hd. constructor; try done; [by intros; apply refs_below_weaken|]. exists d. auto.
Qed.

(** The parent's handle on itself becomes the child's handle on itself. *)
Lemma clone_self_ok held k dst src i h d h0 :
  caps_wf held k -> refs_below 1 k -> tasks k !! dst = Some d -> handles d !! i = Some h0 ->
  h_type h0 = HEmpty -> h_type h = HTask -> h_object h = src ->
  clone_step held dst src i h d k
    (put_task dst (with_handles (<[i := mk_handle (h_type h) (h_rights h) (h_tag h) dst]> (handles d))
                     (with_ref (u32 (t_ref d + 1)) d)) k).
Proof.
  intros Hwf Hb Hd Hi He Hty Hob.
  assert (refs k HTask dst = Some (t_ref d)) as Hr by (simpl; by rewrite Hd).
  destruct (Hb HTask dst _ Hr) as [H0 H1].
  pose proof (ref_up_ok held k HTask dst _ Hwf Hr ltac:(by exists d) H0 H1) as Hwf1. simpl in Hwf1.
  rewrite Hd in Hwf1. rewrite u32_small in * by (unfold in_u32; lia).
  set (d1 := with_ref (t_ref d + 1) d) in *.
  set (h' := mk_handle (h_type h) (h_rights h) (h_tag h) dst).
  set (d' := with_handles (<[i := h']> (handles d)) d1).
  assert (put_task dst d' k = put_task dst d' (put_task dst d1 k)) as Heq.
  { unfold put_task, set_tasks. simpl. by rewrite insert_insert_eq. }
  constructor.
  - rewrite Heq. eapply caps_wf_ext;
      [|apply (install_ok _ (put_task dst d1 k) dst d1 d' i h0 h' HTask dst Hwf1)]; try done.
    + intros. rewrite bump_bump. apply bump_0.
    + simpl. apply lookup_insert_eq.
    + rewrite bump_eq. pose proof (cw_held _ _ Hwf HTask dst). lia.
  - intros n Hn type o r Hr'. destruct (decide (type = HTask)) as [->|Hnt].
    2: { assert (refs k type o = Some r) as Hr2 by (by destruct type).
         specialize (Hn _ _ _ Hr2). lia. }
    simpl in Hr'. destruct (decide (o = dst)) as [->|Hne].
    + rewrite lookup_insert_eq in Hr'. injection Hr' as <-. specialize (Hn HTask dst _ Hr). lia.
    + rewrite lookup_insert_ne in Hr' by done. specialize (Hn HTask o r Hr'). lia.
  - intros [] o; simpl; try done. lookup_cases; [|done]. rewrite Hd. naive_solver.
  - exists d'. split; [apply lookup_insert_eq|]. right. unfold cloned.
    rewrite Hty, bool_decide_eq_true_2, Hob, Z.eqb_refl by done. simpl.
    unfold h'. by rewrite Hty.
  - intros tid Hne. simpl. by rewrite lookup_insert_ne.
Qed.

Lemma clone_other_ok held k k1 dst src i h d d1 h0 :
  caps_wf held k -> tasks k !! dst = Some d -> handles d !! i = Some h0 -> h_type h0 = HEmpty ->
  h_type h <> HEmpty -> cloned dst src h = h -> same_tables k k1 ->
  (forall type o, live k1 type o <-> live k type o) ->
  caps_wf (bump (h_type h) (h_object h) 1 held) k1 ->
  (forall n, refs_below (n + 1) k -> refs_below n k1) ->
  tasks k1 !! dst = Some d1 ->
  clone_step held dst src i h d k (put_task dst (with_handles (<[i := h]> (handles d1)) d1) k1).
Proof.
  intros Hwf Hd Hi He Hne Hcl Hs Hlv Hwf1 Hbl Hd1.
  assert (handles d1 = handles d) as Hh1.
  { specialize (Hs dst). rewrite Hd, Hd1 in Hs. by injection Hs. }
  set (d' := with_handles (<[i := h]> (handles d1)) d1).
  destruct (put_task_frame k1 dst d1 d' Hd1 eq_refl) as [Hrf Hlv1].
  constructor.
  - eapply caps_wf_ext;
      [|apply (install_ok _ k1 dst d1 d' i h0 h (h_type h) (h_object h) Hwf1)]; try done.
    + intros. rewrite bump_bump. apply bump_0.
    + by rewrite Hh1.
    + rewrite bump_eq. pose proof (cw_held _ _ Hwf (h_type h) (h_object h)). lia.
  - intros n Hn type o r. rewrite Hrf. by apply Hbl.
  - intros type o. by rewrite Hlv1, Hlv.
  - exists d'. split; [apply lookup_insert_eq|]. right. simpl. by rewrite Hcl, Hh1.
  - intros tid Hnt. simpl. rewrite lookup_insert_ne by done. apply Hs.
Qed.

Lemma clone_entry_ok held k dst src i h d h0 :
  caps_wf held k -> refs_below 1 k -> tasks k !! dst = Some d -> handles d !! i = Some h0 ->
  h_type h0 = HEmpty -> (h_type h <> HEmpty -> live k (h_type h) (h_object h)) ->
  exists k', clone_entry dst src i h k = Some k' /\ clone_step held dst src i h d k k'.
Proof.
  intros Hwf Hb Hd Hi He Hlive. unfold clone_entry. destruct (is_empty h) eqn:Hemp.
  { exists k. split; [done|]. by apply clone_step_none. }
  unfold is_empty in Hemp. bool_facts. specialize (Hlive Hemp).
  destruct (bool_decide (h_type h = HTask) && (h_object h =? src)) eqn:Hself.
  - rewrite Hd. simpl. eexists. split; [done|]. bool_facts. by eapply clone_self_ok.
  - destruct (retain_ok held k (h_type h) (h_object h) Hwf Hlive Hb)
      as (rc & k1 & -> & Hs & Hlv & [(-> & Hwf1 & Hbl)|(-> & -> & _)]); simpl.
    2: { exists k. split; [done|]. by apply clone_step_none. }
    assert (exists d1, tasks k1 !! dst = Some d1) as (d1 & Hd1).
    { specialize (Hs dst). rewrite Hd in Hs. destruct (tasks k1 !! dst); [eauto|done]. }
    rewrite Hd1. simpl. eexists. split; [done|].
    eapply (clone_other_ok held k k1); try done. unfold cloned. by rewrite Hself.
Qed.

Lemma clone_loop_ok dst src hs : forall i held k d,
  caps_wf held k -> refs_below (Z.of_nat (length hs)) k -> tasks k !! dst = Some d ->
  (forall j, (i <= j < i + length hs)%nat ->
     exists h0, handles d !! j = Some h0 /\ h_type h0 = HEmpty) ->
  (forall h, h ∈ hs -> h_type h <> HEmpty -> live k (h_type h) (h_object h)) ->
  exists k' d', clone_loop dst src i hs k = Some k' /\ caps_wf held k' /\ refs_below 0 k' /\
    tasks k' !! dst = Some d' /\
    (forall h, h ∈ handles d' -> h ∈ handles d \/ exists x, x ∈ hs /\ h = cloned dst src x) /\
    (forall tid, tid <> dst -> task_tables <$> tasks k' !! tid = task_tables <$> tasks k !! tid).
Proof.
  induction hs as [|h hs IH]; intros i held k d Hwf Hb Hd Hslots Hlive; simpl clone_loop.
  { exists k, d. split; [done|]. split; [done|]. split; [done|]. split; [done|].
    split; [auto|done]. }
  simpl length in *. destruct (Hslots i ltac:(lia)) as (h0 & Hi & He).
  destruct (clone_entry_ok held k dst src i h d h0) as (k1 & -> & [Hwf1 Hbl1 Hlv1 (d1 & Hd1 & Hch) Hot1]);
    try done.
  { intros type o r Hr. specialize (Hb type o r Hr). lia. }
  { intros. apply Hlive; [left|done]. }
  cbn [mbind option_bind].
  destruct (IH (S i) held k1 d1) as (k' & d' & Hk' & Hwf' & Hb' & Hd' & Hfrom & Hot); try done.
  - apply Hbl1. by replace (Z.of_nat (length hs) + 1) with (Z.of_nat (S (length hs))) by lia.
  - intros j Hj. destruct (Hslots j ltac:(lia)) as (hj & Hhj & Hej). exists hj.
    split; [|done]. destruct Hch as [->|[-> _]]; [done|]. by rewrite list_lookup_insert_ne by lia.
  - intros x Hx Hne. apply Hlv1, Hlive; [by right|done].
  - exists k', d'. split; [done|]. split; [done|]. split; [done|]. split; [done|]. split.
    + intros x [Hx|(y & Hy & ->)]%Hfrom; [|right; exists y; split; [by right|done]].
      destruct Hch as [Heq|[Heq _]]; rewrite Heq in Hx; [by left|].
      apply list_elem_of_lookup in Hx as [j Hj].
      apply list_lookup_insert_Some in Hj as [(_ & <- & _)|[_ Hj]].
      * right. exists h. split; [left|done].
      * left. apply list_elem_of_lookup. eauto.
    + intros tid Hne. by rewrite Hot, Hot1.
Qed.

Lemma grow_room min tid t k :
  tasks k !! tid = Some t -> handle_capacity t < 2 ^ 31 -> min <= 2 ^ 31 ->
  let '(rc, t1, k1) := task_grow_handles_locked min tid t k in
  rc = 0 -> min <= handle_capacity t1.
Proof.
  intros Ht Hc Hm. unfold task_grow_handles_locked. case_if; [done|].
  assert (0 <= handle_capacity t) by (unfold handle_capacity; lia).
  set (c := if handle_capacity t =? 0 then INITIAL_TASK_HANDLES else handle_capacity t).
  assert (0 < c < 2 ^ 32) by (unfold c, INITIAL_TASK_HANDLES; case_if; lia).
  destruct (double_capacity_spec 32 c min) as [Hd Hdc];
    [lia|lia|lia|change (2 ^ Z.of_nat 32) with 4294967296; lia|].
  assert (handle_capacity t <= c) by (unfold c, INITIAL_TASK_HANDLES; case_if; lia).
  revert Hd Hdc. generalize (double_capacity 32 c min) as n. intros n Hd Hdc.
  destruct (kheap k) as [|avail rest]; [done|]. case_if. intros _.
  unfold handle_capacity in *. simpl. rewrite length_app, length_replicate. lia.
Qed.

Lemma clone_ok held k dst src s d :
  caps_wf held k -> tasks k !! src = Some s -> tasks k !! dst = Some d -> src <> dst ->
  Forall (fun h => h_type h = HEmpty) (handles d) ->
  handle_capacity s < 2 ^ 31 -> handle_capacity d < 2 ^ 31 ->
  refs_below (handle_capacity s) k ->
  exists rc k', task_clone_handles dst src k = Some (rc, k') /\ caps_wf held k' /\
    forall tid type o r, has k' tid type o r ->
      has k tid type o r \/
      tid = dst /\ (has k src type o r \/
                    type = HTask /\ o = dst /\ has k src HTask src r).
Proof.
  intros Hwf Hs Hd Hne Hemp Hcs Hcd Hb. unfold task_clone_handles. rewrite Hs, Hd.
  cbn [mbind option_bind].
  pose proof (grow_grown (handle_capacity s) dst d k Hd) as Hg.
  pose proof (grow_room (handle_capacity s) dst d k Hd Hcd ltac:(lia)) as Hroom.
  destruct (task_grow_handles_locked _ dst d k) as [[rc d1] k1].
  destruct (grown_ok held dst d d1 k k1 Hwf Hd Hg) as (Hwf1 & Hd1 & Hrf1 & Hlv1 & _).
  destruct (negb (rc =? 0)) eqn:Hrc.
  { exists (-1), k1. split; [done|]. split; [done|]. intros. left. by apply (grown_has dst d d1 k k1). }
  bool_facts. specialize (Hroom Hrc).
  destruct (clone_loop_ok dst src (handles s) 0 held k1 d1) as (k' & d' & -> & Hwf' & _ & Hd' & Hfrom & Hot);
    try done.
  - intros type o r. rewrite Hrf1. apply Hb.
  - intros j Hj. destruct (lookup_lt_is_Some_2 (handles d1) j) as [h0 Hh0].
    { unfold handle_capacity in Hroom. lia. }
    exists h0. split; [done|]. destruct (gr_task _ _ _ _ _ Hg) as [n Hn]. rewrite Hn in Hh0.
    simpl in Hh0. apply lookup_app_Some in Hh0 as [Hh0|[_ Hh0]].
    + by eapply Forall_lookup_1 in Hemp.
    + apply lookup_replicate in Hh0 as [-> _]. done.
  - intros h Hin Hty. apply Hlv1. by apply (cw_handle _ _ Hwf src s).
  - cbn [mbind option_bind]. exists 0, k'. split; [done|]. split; [done|].
    intros tid type o r Hhas. destruct (decide (tid = dst)) as [->|Hnt].
    2: { left. apply (grown_has dst d d1 k k1); [done|done|].
         destruct Hhas as (x & h & Hx & Hrest). specialize (Hot tid Hnt). rewrite Hx in Hot.
         destruct (tasks k1 !! tid) as [y|] eqn:Hy; [|done]. injection Hot as Hh _.
         exists y, h. by rewrite Hh in Hrest. }
    destruct Hhas as (x & h & Hx & Hin & Hty & Hte & Ho & Hr). rewrite Hd' in Hx. injection Hx as <-.
    apply Hfrom in Hin as [Hin|(y & Hy & ->)].
    + left. apply (grown_has dst d d1 k k1); [done|done|]. exists d1, h. done.
    + right. split; [done|]. unfold cloned in *. case_if; simpl in *.
      * right. split; [congruence|]. split; [congruence|]. exists s, y. done.
      * left. exists s, y. done.
Qed.

Lemma discard_ok held k tid t :
  caps_wf held k -> refs_below 0 k -> tasks k !! tid = Some t -> 1 <= held HTask tid ->
  exists rc k', task_discard_unstarted tid k = Some (rc, k') /\
    caps_wf (if rc =? 0 then bump HTask tid (-1) held else held) k' /\ entries_le k k'.
Proof.
  intros Hwf Hb Ht Hh. unfold task_discard_unstarted.
  assert (exists rc k', Some (-1, k) = Some (rc, k') /\
    caps_wf (if rc =? 0 then bump HTask tid (-1) held else held) k' /\ entries_le k k') as Hno.
  { exists (-1), k. split; [done|]. split; [done|by intros ?]. }
  case_if; [done|]. rewrite Ht. cbn [mbind option_bind]. case_if; [done|].
  set (k1 := put_task tid (mark_dead t) k).
  assert (caps_wf held k1) as Hwf1.
  { apply (table_write_ok held held k tid t); try done; try apply Hwf.
    - intros h Hin Hne. by apply (cw_handle _ _ Hwf tid t).
    - intros. simpl. lia. }
  assert (refs_below 0 k1) as Hb1 by (by apply (refs_below_put 0 k tid t)).
  destruct (handle_release_ok held k1 HTask tid Hwf1 Hb1 Hh) as (k' & Hrel & Hpost).
  unfold task_release. rewrite Hrel. cbn [mbind option_bind]. exists 0, k'. split; [done|].
  split; [apply Hpost|]. intros tid' type o r Hhas.
  apply (has_same k k1); [by apply (same_tables_put k tid t)|].
  by eapply tables_le_has; [eapply release_tables|].
Qed.

(** *** The address space of a dying task *)

Lemma remove_loop_miss fuel : forall i b l v,
  (forall r, r ∈ vm_regions v -> regions_overlap b l (base r) (len r) = false) ->
  remove_loop fuel i b l v = (0, v).
Proof.
  induction fuel as [|fuel IH]; intros i b l v Hm; simpl; [done|].
  destruct (vm_regions v !! i) as [r|] eqn:Hi; [|done].
  rewrite (Hm r) by (apply list_elem_of_lookup; eauto). simpl. by apply IH.
Qed.

Lemma apart_misses r q :
  region_wf r -> region_wf q -> apart r q -> regions_overlap (base r) (len r) (base q) (len q) = false.
Proof.
  intros Hr Hq Ha. apply not_true_iff_false. intros (a & Ha1 & Ha2)%regions_overlap_spec; try done;
    try apply Hr. unfold contains in Ha2. bool_facts.
  destruct Ha; lia.
Qed.

(** Removing exactly the first region takes it out and nothing else. *)
Lemma remove_first r rs v :
  vm_regions v = r :: rs -> regions_wf (r :: rs) ->
  exists rs', (task_remove_vm_region (base r) (len r) v).2 = set_regions rs' v /\ rs' ≡ₚ rs.
Proof.
  intros Hv Hwf. pose proof (swap_remove_split [] r rs) as (rs' & Hsw & Hp). simpl in Hsw.
  exists rs'. split; [|done]. pose proof Hwf as [Hall [Hap _]].
  assert (region_wf r) as Hr by (apply Hall; left). pose proof Hr as (H1 & H2 & H3 & _).
  assert (regions_overlap (base r) (len r) (base r) (len r) = true) as Hself.
  { apply regions_overlap_spec; try done. exists (base r). split; [lia|].
    unfold contains. decide_tests. done. }
  unfold task_remove_vm_region, bad_range. rewrite region_end_wf by done. decide_tests. simpl orb.
  cbv iota. generalize (2 * length (vm_regions v))%nat as n. intros n. simpl. rewrite Hv. simpl.
  rewrite Hself. simpl.
  rewrite region_end_wf by done. decide_tests. simpl.
  rewrite Hsw, remove_loop_miss; [done|]. simpl. intros q Hq. rewrite Hp in Hq.
  apply apart_misses; [done|apply Hall; by right|by apply Hap].
Qed.

Lemma teardown_regions_ok n : forall pid v log,
  length (vm_regions v) = n -> regions_wf (vm_regions v) ->
  exists rs, rs ≡ₚ vm_regions v /\
    (let '(v', log') := teardown_regions n pid v log in
     vm_regions v' = [] /\
     log' = log ++ map (fun r => CUnmapUserRange pid (base r) (len r)) rs).
Proof.
  induction n as [|n IH]; intros pid v log Hn Hwf.
  { destruct (vm_regions v) eqn:Hv; [|done]. exists []. simpl. by rewrite Hv, app_nil_r. }
  destruct (vm_regions v) as [|r rs] eqn:Hv; [done|]. simpl teardown_regions. rewrite Hv.
  destruct (remove_first r rs v Hv Hwf) as (rs' & -> & Hp).
  destruct (IH pid (set_regions rs' v) (log ++ [CUnmapUserRange pid (base r) (len r)]))
    as (rs2 & Hp2 & Hpost).
  - simpl. rewrite Hp. by injection Hn.
  - simpl. rewrite Hp. apply (regions_wf_app [r] rs) in Hwf. apply Hwf.
  - simpl in Hp2. exists (r :: rs2). split; [by rewrite Hp2, Hp|].
    destruct (teardown_regions _ _ _ _) as [v' log']. destruct Hpost as [He ->]. split; [done|].
    by rewrite <- app_assoc.
Qed.

(** No operation of reference counting makes a task dead. *)
Lemma retain_dead type o k rc k' type' o' :
  task_handle_retain type o k = Some (rc, k') -> dead_task k' type' o' = dead_task k type' o'.
Proof.
  intros Hr. destruct type'; try done. simpl.
  assert (tasks k' = tasks k \/ exists t, tasks k !! o = Some t /\
    tasks k' = <[o := with_ref (u32 (t_ref t + 1)) t]> (tasks k)) as [->|(t & Ht & ->)]; [|done|].
  - destruct type; simpl in Hr;
      unfold ipc_port_retain, buffer_retain, task_hw_resource_retain, sched_policy_cap_retain in Hr.
    + simplify_eq. auto.
    + case_if; [simpl in Hr; simplify_eq; auto|]. destruct (ports k !! o); [|done].
      simpl in Hr. simplify_eq. auto.
    + destruct (tasks k !! o) as [t|] eqn:Ht; [|done]. simpl in Hr. case_if; simplify_eq; eauto.
    + case_if; [simpl in Hr; simplify_eq; auto|]. destruct (buffers k !! o); [|done].
      simpl in Hr. simplify_eq. auto.
    + case_if; [simpl in Hr; simplify_eq; auto|]. destruct (hws k !! o); [|done].
      simpl in Hr. case_if; simplify_eq; auto.
    + case_if; [simpl in Hr; simplify_eq; auto|]. destruct (policies k !! o); [|done].
      simpl in Hr. simplify_eq. auto.
  - destruct (decide (o' = o)) as [->|Hne]; [by rewrite lookup_insert_eq, Ht|].
    by rewrite lookup_insert_ne.
Qed.

Lemma tables_le_dead k k' type o :
  tables_le k k' -> dead_task k type o = false -> dead_task k' type o = false.
Proof.
  intros Hle Hd. destruct type; try done. simpl in *.
  destruct (tasks k' !! o) as [t'|] eqn:Ht'; [|done].
  destruct (Hle o t' Ht') as (t & Ht & _ & ->). by rewrite Ht in Hd.
Qed.

(** ** The operations together *)

Inductive cap_op :=
  | OpLookup (type : handle_type) (tid handle rights : Z)
  | OpExport (tid handle rights : Z)
  | OpRelease (type : handle_type) (o : Z)
  | OpGrant (type : handle_type) (tid o rights : Z)
  | OpInherit (dst src handle rights : Z)
  | OpTag (tid handle tag : Z)
  | OpClose (tid handle : Z)
  | OpClone (dst src : Z)
  | OpDiscard (tid : Z).

Inductive cap_result := RZ (z : Z) | RCap (c : option (handle_type * Z)).

Definition as_z (r : option (Z * kernel)) : option (cap_result * kernel) :=
  '(z, k) ← r; Some (RZ z, k).

Definition cap_exec (op : cap_op) (k : kernel) : option (cap_result * kernel) :=
  match op with
  | OpLookup type tid handle rights => as_z (lookup_any type tid handle rights k)
  | OpExport tid handle rights =>
      '(c, k) ← task_export_cap tid handle rights k; Some (RCap c, k)
  | OpRelease type o => k ← task_handle_release type o k; Some (RZ 0, k)
  | OpGrant type tid o rights => as_z (grant_any type tid o rights k)
  | OpInherit dst src handle rights => as_z (task_grant_inherited_handle dst src handle rights k)
  | OpTag tid handle tag => as_z (task_set_handle_tag tid handle tag k)
  | OpClose tid handle => as_z (task_close_handle tid handle k)
  | OpClone dst src => as_z (task_clone_handles dst src k)
  | OpDiscard tid => as_z (task_discard_unstarted tid k)
  end.

(** What the caller sees to: the tasks it names exist, it releases only what
    it holds, a fork's child starts with an empty table, and no counter is at
    the limit of its 32 bits. *)
Definition op_pre (held : holds) (op : cap_op) (k : kernel) : Prop :=
  match op with
  | OpLookup type tid _ _ => is_Some (tasks k !! tid) /\ type <> HEmpty /\ refs_below 1 k
  | OpExport tid _ _ => is_Some (tasks k !! tid) /\ refs_below 1 k
  | OpRelease type o => 1 <= held type o /\ refs_below 0 k
  | OpGrant type tid o _ => is_Some (tasks k !! tid) /\ live k type o /\ refs_below 1 k
  | OpInherit dst src _ _ =>
      is_Some (tasks k !! dst) /\ is_Some (tasks k !! src) /\ refs_below 2 k
  | OpTag tid _ _ => is_Some (tasks k !! tid)
  | OpClose tid _ => is_Some (tasks k !! tid) /\ refs_below 0 k
  | OpClone dst src => exists s d, tasks k !! src = Some s /\ tasks k !! dst = Some d /\
      src <> dst /\ Forall (fun h => h_type h = HEmpty) (handles d) /\
      handle_capacity s < 2 ^ 31 /\ handle_capacity d < 2 ^ 31 /\
      refs_below (handle_capacity s) k
  | OpDiscard tid => is_Some (tasks k !! tid) /\ 1 <= held HTask tid /\ refs_below 0 k
  end.

(** The references the caller holds afterwards. *)
Definition held_after (op : cap_op) (r : cap_result) (held : holds) : holds :=
  match op, r with
  | OpLookup type _ _ _, RZ o => if o =? 0 then held else bump type o 1 held
  | OpExport _ _ _, RCap (Some (type, o)) => bump type o 1 held
  | OpRelease type o, _ => bump type o (-1) held
  | OpDiscard tid, RZ rc => if rc =? 0 then bump HTask tid (-1) held else held
  | _, _ => held
  end.

(** The handles an operation can create. *)
Definition new_handle (op : cap_op) (k : kernel) (tid : Z) (type : handle_type) (o r : Z) : Prop :=
  match op with
  | OpGrant type' tid' o' r' => tid = tid' /\ type = type' /\ o = o' /\ r = r'
  | OpInherit dst src _ _ => tid = dst /\ exists r0, has k src type o r0 /\ rights_within r r0
  | OpClone dst src => tid = dst /\
      (has k src type o r \/ type = HTask /\ o = dst /\ has k src HTask src r)
  | _ => False
  end.

Lemma same_tables_has k k' tid type o r :
  same_tables k k' -> has k' tid type o r -> has k tid type o r.
Proof.
  intros Hs (t' & h & Ht' & Hin & Hrest). specialize (Hs tid). rewrite Ht' in Hs.
  destruct (tasks k !! tid) as [t|] eqn:Ht; [|done]. injection Hs as Hh _.
  exists t, h. by rewrite <- Hh.
Qed.

Lemma op_ok held op k :
  caps_wf held k -> op_pre held op k ->
  exists r k', cap_exec op k = Some (r, k') /\ caps_wf (held_after op r held) k' /\
    forall tid type o r, has k' tid type o r ->
      has k tid type o r \/ new_handle op k tid type o r.
Proof.
  intros Hwf Hpre. destruct op as [type tid handle rights|tid handle rights|type o|type tid o rights
    |dst src handle rights|tid handle tag|tid handle|dst src|tid]; simpl in Hpre |- *.
  - destruct Hpre as (Ht & Hne & Hb).
    destruct (lookup_ok held k type tid handle rights) as (o & k' & -> & Hc); try done. simpl.
    exists (RZ o), k'. split; [done|]. destruct Hc as [(-> & -> & _)|(Ho & _ & [Haq Hs _ _])].
    + split; [done|]. auto.
    + decide_tests. split; [done|]. intros. left. by eapply same_tables_has.
  - destruct Hpre as [Ht Hb].
    destruct (export_ok held k tid handle rights) as (c & k' & -> & Hc); try done. simpl.
    exists (RCap c), k'. split; [done|]. destruct c as [[type o]|].
    + destruct Hc as [_ [Haq Hs _ _]]. split; [done|]. intros. left. by eapply same_tables_has.
    + subst k'. split; [done|]. auto.
  - destruct Hpre as [Hh Hb]. destruct (handle_release_ok held k type o) as (k' & Hr & Hp); try done.
    rewrite Hr. simpl. exists (RZ 0), k'. split; [done|]. split; [apply Hp|].
    intros. left. by eapply tables_le_has; [eapply release_tables|].
  - destruct Hpre as (Ht & Hl & Hb).
    destruct (grant_any_ok held k tid type o rights) as (g & k' & -> & Hg); try done. simpl.
    exists (RZ g), k'. split; [done|]. split; [apply Hg|]. apply Hg.
  - destruct Hpre as (Hd & Hs & Hb).
    destruct (inherit_ok held k dst src handle rights) as (g & k' & -> & Hwf' & Hc); try done. simpl.
    exists (RZ g), k'. split; [done|]. split; [done|]. intros tid type o r Hh.
    destruct Hc as [[_ Hle]|(ty & o1 & r0 & Hsrc & Hw & _ & Hn & _)]; [by left; apply Hle|].
    apply Hn in Hh as [Hh|(-> & -> & -> & ->)]; [by left|]. right. eauto.
  - destruct (tag_ok held k tid handle tag) as (rc & k' & -> & Hwf' & Hh & _); try done. simpl.
    exists (RZ rc), k'. split; [done|]. split; [done|]. intros. left. by apply Hh.
  - destruct Hpre as [Ht Hb].
    destruct (close_ok held k tid handle) as (rc & k' & -> & Hwf' & Hle & _); try done. simpl.
    exists (RZ rc), k'. split; [done|]. split; [done|]. intros. left. by apply Hle.
  - destruct Hpre as (s & d & Hs & Hd & Hne & Hemp & Hcs & Hcd & Hb).
    destruct (clone_ok held k dst src s d) as (rc & k' & -> & Hwf' & Hh); try done. simpl.
    exists (RZ rc), k'. done.
  - destruct Hpre as ([t Ht] & Hh & Hb).
    destruct (discard_ok held k tid t) as (rc & k' & -> & Hwf' & Hle); try done. simpl.
    exists (RZ rc), k'. split; [done|]. split; [done|]. intros. left. by apply Hle.
Qed.

(** A sequence of operations, each made by a caller that keeps its side. *)
Inductive cap_run : holds -> kernel -> list cap_op -> holds -> kernel -> Prop :=
  | run_nil held k : cap_run held k [] held k
  | run_cons held k op r k1 ops held' k' :
      op_pre held op k -> cap_exec op k = Some (r, k1) ->
      cap_run (held_after op r held) k1 ops held' k' ->
      cap_run held k (op :: ops) held' k'.

Lemma cap_run_wf held k ops held' k' :
  caps_wf held k -> cap_run held k ops held' k' -> caps_wf held' k'.
Proof.
  intros Hwf Hrun. induction Hrun as [|held k op r k1 ops held' k' Hpre Hex Hrun IH]; [done|].
  apply IH. destruct (op_ok held op k Hwf Hpre) as (r' & k'' & Hex' & Hwf' & _). by simplify_eq.
Qed.

Lemma rights_within_refl r : rights_within r r.
Proof. unfold rights_within. apply Z.land_lnot_diag. Qed.

Lemma rights_within_trans r1 r2 r3 :
  rights_within r1 r2 -> rights_within r2 r3 -> rights_within r1 r3.
Proof.
  unfold rights_within. intros H12 H23. apply Z.bits_inj'. intros n Hn.
  rewrite Z.land_spec, Z.lnot_spec, Z.bits_0 by done.
  apply (f_equal (fun z => Z.testbit z n)) in H12, H23.
  rewrite Z.land_spec, Z.lnot_spec, Z.bits_0 in H12, H23 by done.
  by destruct (Z.testbit r1 n), (Z.testbit r2 n), (Z.testbit r3 n).
Qed.

Definition is_grant (op : cap_op) : bool :=
  match op with OpGrant _ _ _ _ => true | _ => false end.

(** Task [o] is [o0], or its descendant by forks among [ops], in their order. *)
Inductive fork_chain : list cap_op -> Z -> Z -> Prop :=
  | chain_refl ops o : fork_chain ops o o
  | chain_skip op ops o0 o : fork_chain ops o0 o -> fork_chain (op :: ops) o0 o
  | chain_fork dst src ops o : fork_chain ops dst o -> fork_chain (OpClone dst src :: ops) src o.

(** The handle [(type, o, r)] stems from one that a task had in [k], with at
    least its rights: on the same object, or, for a handle on a task that forks
    made, on the task it descends from. *)
Definition derived (k : kernel) (ops : list cap_op) (type : handle_type) (o r : Z) : Prop :=
  exists tid0 o0 r0, has k tid0 type o0 r0 /\ rights_within r r0 /\ (o0 = o \/ type = HTask /\ fork_chain ops o0 o).

Lemma derived_self k ops tid type o r : has k tid type o r -> derived k ops type o r.
Proof. intros Hh. exists tid, o, r. eauto using rights_within_refl. Qed.

Lemma run_derived held k ops held' k' :
  caps_wf held k -> cap_run held k ops held' k' -> forallb (fun op => negb (is_grant op)) ops = true ->
  forall tid type o r, has k' tid type o r -> derived k ops type o r.
Proof.
  intros Hwf Hrun. induction Hrun as [held k|held k op r k1 ops held' k' Hpre Hex Hrun IH];
    intros Hng tid type o rr Hh; [by eapply derived_self|].
  simpl in Hng. apply andb_true_iff in Hng as [Hop Hng].
  destruct (op_ok held op k Hwf Hpre) as (r' & k'' & Hex' & Hwf' & Hnew). simplify_eq.
  destruct (IH Hwf' Hng tid type o rr Hh) as (tid0 & o0 & r0 & Hh0 & Hw & Hcase).
  assert (forall tid1 o1 r1, has k tid1 type o1 r1 -> rights_within r0 r1 ->
    (o1 = o0 \/ type = HTask /\ op = OpClone o0 o1) -> derived k (op :: ops) type o rr) as Hd.
  { intros tid1 o1 r1 Hh1 Hw1 Hc1. exists tid1, o1, r1. split; [done|].
    split; [by eapply rights_within_trans|].
    destruct Hcase as [->|(-> & Hin)].
    - destruct Hc1 as [->|(-> & ->)]; [by left|]. right. split; [done|]. apply chain_fork, chain_refl.
    - right. split; [done|]. destruct Hc1 as [->|(_ & ->)]; [by apply chain_skip|by apply chain_fork]. }
  destruct (Hnew tid0 type o0 r0 Hh0) as [Hold|Hn]; [eapply (Hd tid0 o0 r0); auto using rights_within_refl|].
  destruct op; simpl in Hn, Hop; try done.
  - destruct Hn as (-> & r1 & Hs & Hw1). eapply (Hd src o0 r1); auto.
  - destruct Hn as (-> & [Hs|(-> & -> & Hs)]).
    + eapply (Hd src o0 r0); auto using rights_within_refl.
    + eapply (Hd src src r0); eauto using rights_within_refl.
Qed.

(** The first half of a round trip: a handle just granted is found by the
    lookup of its kind. *)
Lemma granted_found held k k' tid type o rights want g :
  grant_post held tid type o rights g k k' -> g <> 0 -> refs_below 1 k' ->
  rights_include rights want = true -> dead_task k' type o = false ->
  exists k2, lookup_any type tid g want k' = Some (o, k2) /\ acquired held type o k' k2.
Proof.
  intros Hp Hg Hb Hinc Hd.
  destruct (gp_granted _ _ _ _ _ _ _ _ Hp Hg) as (t & h & Ht & Hat & Hty & Hne & Ho & Hr).
  assert (entitled k' type tid g want o) as He by (exists t, h; by rewrite Hr).
  destruct (lookup_ok held k' type tid g want) as (o' & k2 & Hl & Hc); try done; [apply Hp|].
  destruct Hc as [(_ & _ & Hn)|(_ & He' & Haq)]; [by destruct (Hn o)|].
  assert (o' = o) as ->; [|eauto].
  destruct He' as (t2 & h2 & Ht2 & Hat2 & _ & _ & Ho2 & _). congruence.
Qed.

(** The last reference to a dead task: the task goes. *)
Lemma last_release_removes held k tid t :
  caps_wf held k -> refs_below 0 k -> tasks k !! tid = Some t -> tid <> kernel_task ->
  dead t = true -> t_ref t = 1 -> 1 <= held HTask tid ->
  exists k', task_release tid k = Some k' /\ caps_wf (bump HTask tid (-1) held) k' /\
    tasks k' !! tid = None.
Proof.
  intros Hwf Hb Ht Hkt Hdead Hr Hh.
  destruct (handle_release_ok held k HTask tid Hwf Hb Hh) as (k' & Hrel & Hpost).
  exists k'. split; [done|]. split; [apply Hpost|].
  assert (tid <> 0) by (apply (caps_wf_nonnull held k HTask); [done|by eexists]).
  revert Hrel. unfold task_handle_release. cbn [task_handle_release_fuel]. decide_tests. simpl orb.
  rewrite Ht. cbn [mbind option_bind]. decide_tests. simpl t_ref. simpl dead. rewrite Hr, Hdead.
  change (1 - 1 =? 0) with true. cbn [andb].
  destruct (teardown_detach tid _ _) as [[hs reply] k1].
  destruct (foldl _ _ hs) as [k2|]; [|done]. cbn [mbind option_bind].
  destruct (ipc_port_release reply k2) as [k3|]; [|done]. cbn [mbind option_bind].
  intros [= <-]. simpl. apply lookup_delete_eq.
Qed.

(** ** A kernel with two tasks *)

Definition demo_t1 : task :=
  mk_task [mk_handle HPort 7 0 10; mk_handle HTask 5 0 1; empty_handle] 2 false false 1 None 0
    (mk_table [] 0 []) false.
Definition demo_t2 : task :=
  mk_task [empty_handle; empty_handle] 1 false false 0 None 0 (mk_table [] 0 []) false.
Definition demo_kernel : kernel :=
  mk_kernel {[1 := demo_t1; 2 := demo_t2]}
    {[10 := mk_port "svc" 1 false [] 0 0 0 0 None]} {["svc"%string := 10]}
    {[20 := 1]} ∅ ∅ ∅ 11 [100000; 100000] [].
Definition demo_held : holds := fun type o =>
  match type with
  | HTask => if (o =? 1) || (o =? 2) then 1 else 0
  | HBuffer => if o =? 20 then 1 else 0
  | _ => 0
  end.

Lemma demo_tasks tid t : tasks demo_kernel !! tid = Some t ->
  tid = 1 /\ t = demo_t1 \/ tid = 2 /\ t = demo_t2.
Proof.
  unfold demo_kernel. simpl. intros [[<- <-]|[_ [<- <-]%lookup_singleton_Some]]%lookup_insert_Some; auto.
Qed.

Lemma demo_refs type o r : refs demo_kernel type o = Some r ->
  (type, o, r) ∈ [(HTask, 1, 2); (HTask, 2, 1); (HPort, 10, 1); (HBuffer, 20, 1)].
Proof.
  destruct type; simpl; try done.
  - intros (p & Hp & ->)%fmap_Some. apply lookup_singleton_Some in Hp as [<- <-]. set_solver.
  - intros (t & [[-> ->]|[-> ->]]%demo_tasks & ->)%fmap_Some; set_solver.
  - intros [<- <-]%lookup_singleton_Some. set_solver.
Qed.

Lemma demo_caps_wf : caps_wf demo_held demo_kernel.
Proof.
  constructor.
  - intros [] Hl; simpl in Hl; try done; destruct Hl as [x Hx]; vm_compute in Hx; discriminate.
  - intros tid t h [[-> ->]|[-> ->]]%demo_tasks Hin Hne; simpl in Hin;
      repeat (apply elem_of_cons in Hin as [->|Hin]; [done || (eexists; vm_compute; reflexivity)|]);
      by apply elem_of_nil in Hin.
  - intros tid t [[-> ->]|[-> ->]]%demo_tasks; done.
  - intros type o r _ Hin%demo_refs.
    repeat (apply elem_of_cons in Hin as [[= -> -> ->]|Hin]; [vm_compute; reflexivity|]).
    by apply elem_of_nil in Hin.
  - intros [] o; simpl; repeat case_if; lia.
  - intros [] o; simpl; repeat case_if; try lia; subst; try (eexists; vm_compute; reflexivity).
    destruct (o =? 1) eqn:H1, (o =? 2) eqn:H2; bool_facts; subst; try done;
      eexists; vm_compute; reflexivity.
Qed.

Lemma demo_below n : n <= 1000 -> refs_below n demo_kernel.
Proof.
  intros Hn type o r Hin%demo_refs.
  repeat (apply elem_of_cons in Hin as [[= -> -> ->]|Hin]; [lia|]). by apply elem_of_nil in Hin.
Qed.

(** The child of a fork of task 1. *)
Definition demo_forked : kernel :=
  match cap_exec (OpClone 2 1) demo_kernel with Some (_, k) => k | None => demo_kernel end.

Lemma demo_fork : cap_exec (OpClone 2 1) demo_kernel = Some (RZ 0, demo_forked).
Proof. vm_compute. reflexivity. Qed.

Lemma demo_fork_pre : op_pre demo_held (OpClone 2 1) demo_kernel.
Proof.
  exists demo_t1, demo_t2. split; [vm_compute; reflexivity|]. split; [vm_compute; reflexivity|].
  split; [done|]. split; [by repeat constructor|]. split; [done|]. split; [done|].
  by apply demo_below.
Qed.

Lemma demo_fork_run : cap_run demo_held demo_kernel [OpClone 2 1] demo_held demo_forked.
Proof.
  apply (run_cons _ _ _ (RZ 0) demo_forked); [apply demo_fork_pre|apply demo_fork|apply run_nil].
Qed.

(** ** Claims *)

(** C1: After any sequence of capability operations (lookups, exports,
    releases, grants, inheritance, tagging, closing, forks, discarded tasks)
    by callers that keep their side, the next operation never touches a freed
    object, terminates, and leaves every reference counter equal to the number
    of references that exist. *)
Theorem caps_refcount_sound held k ops held' k' op :
  caps_wf held k -> cap_run held k ops held' k' -> op_pre held' op k' ->
  exists r k'', cap_exec op k' = Some (r, k'') /\ caps_wf (held_after op r held') k''.
Proof.
  intros Hwf Hrun Hpre.
  destruct (op_ok held' op k') as (r & k'' & Hex & Hwf' & _); [by eapply cap_run_wf|done|eauto].
Qed.

Lemma caps_refcount_sound_witness :
  exists r k'', cap_exec (OpTag 2 1 9) demo_forked = Some (r, k'') /\
    caps_wf (held_after (OpTag 2 1 9) r demo_held) k''.
Proof.
  apply (caps_refcount_sound demo_held demo_kernel [OpClone 2 1] demo_held demo_forked);
    [apply demo_caps_wf|apply demo_fork_run|].
  simpl. eexists. vm_compute. reflexivity.
Defined.

(** C2: Authority is confined: along any sequence of operations in which the
    kernel itself grants nothing, a handle some task ends up with stems from a
    handle that existed at the start, with at least the same rights, on the same
    object; the only exception is a handle on a task that forks made, which
    stems from a handle on the task it descends from through those forks. *)
Theorem caps_confined held k ops held' k' :
  caps_wf held k -> cap_run held k ops held' k' ->
  forallb (fun op => negb (is_grant op)) ops = true ->
  forall tid type o r, has k' tid type o r -> derived k ops type o r.
Proof. apply run_derived. Qed.

Lemma caps_confined_witness : derived demo_kernel [OpClone 2 1] HPort 10 7 /\ derived demo_kernel [OpClone 2 1] HTask 2 5.
Proof.
  split; apply (caps_confined demo_held demo_kernel [OpClone 2 1] demo_held demo_forked) with 2;
    try apply demo_caps_wf; try apply demo_fork_run; try reflexivity.
  - eexists _, (mk_handle HPort 7 0 10). split; [vm_compute; reflexivity|]. split; [left|done].
  - eexists _, (mk_handle HTask 5 0 2). split; [vm_compute; reflexivity|]. split; [|done]. right. left.
Defined.

(** C30: A lookup returns exactly the object the task's handle entitles it to:
    the handle is of the asked kind, has all the asked rights and its object is
    not a dead task; then the caller owns a new reference.  Otherwise it
    returns null and changes nothing. *)
Theorem handle_lookup_correct held k type tid handle rights :
  caps_wf held k -> refs_below 1 k -> is_Some (tasks k !! tid) -> type <> HEmpty ->
  exists o k', lookup_any type tid handle rights k = Some (o, k') /\
    (o = 0 /\ k' = k /\ (forall o', ~ entitled k type tid handle rights o') \/
     o <> 0 /\ entitled k type tid handle rights o /\ acquired held type o k k').
Proof. apply lookup_ok. Qed.

Lemma handle_lookup_correct_witness :
  exists o k', lookup_any HPort 1 1 TASK_RIGHT_SEND demo_kernel = Some (o, k') /\
    (o = 0 /\ k' = demo_kernel /\
       (forall o', ~ entitled demo_kernel HPort 1 1 TASK_RIGHT_SEND o') \/
     o <> 0 /\ entitled demo_kernel HPort 1 1 TASK_RIGHT_SEND o /\
       acquired demo_held HPort o demo_kernel k').
Proof.
  apply (handle_lookup_correct demo_held demo_kernel HPort 1 1 TASK_RIGHT_SEND);
    [apply demo_caps_wf|by apply demo_below| |done].
  eexists. vm_compute. reflexivity.
Defined.

(** C32: Granting: the operation does not fault; only the granted handle is
    new and no handle is lost; when it returns a handle number, looking that
    number up with any of the granted rights gives the object back. *)
Theorem grant_lookup_roundtrip held k tid type o rights :
  caps_wf held k -> is_Some (tasks k !! tid) -> refs_below 2 k -> live k type o ->
  exists g k', grant_any type tid o rights k = Some (g, k') /\
    caps_wf held k' /\
    (forall tid' type' o' r', has k' tid' type' o' r' ->
       has k tid' type' o' r' \/ tid' = tid /\ type' = type /\ o' = o /\ r' = rights) /\
    (forall tid' type' o' r', has k tid' type' o' r' -> has k' tid' type' o' r') /\
    (g <> 0 -> dead_task k' type o = false -> forall want, rights_include rights want = true ->
       exists k2, lookup_any type tid g want k' = Some (o, k2) /\ acquired held type o k' k2).
Proof.
  intros Hwf Ht Hb Hl.
  destruct (grant_any_ok held k tid type o rights) as (g & k' & Hg & Hp); try done.
  { by apply refs_below_weaken. }
  exists g, k'. split; [done|]. split; [apply Hp|]. split; [apply Hp|]. split; [apply Hp|].
  intros Hnz Hd want Hinc. eapply granted_found; try done. by apply (gp_below _ _ _ _ _ _ _ _ Hp).
Qed.

Lemma grant_lookup_roundtrip_witness :
  exists g k', grant_any HBuffer 1 20 3 demo_kernel = Some (g, k') /\
    caps_wf demo_held k' /\
    (forall tid' type' o' r', has k' tid' type' o' r' ->
       has demo_kernel tid' type' o' r' \/ tid' = 1 /\ type' = HBuffer /\ o' = 20 /\ r' = 3) /\
    (forall tid' type' o' r', has demo_kernel tid' type' o' r' -> has k' tid' type' o' r') /\
    (g <> 0 -> dead_task k' HBuffer 20 = false ->
       forall want, rights_include 3 want = true ->
       exists k2, lookup_any HBuffer 1 g want k' = Some (20, k2) /\
         acquired demo_held HBuffer 20 k' k2).
Proof.
  apply (grant_lookup_roundtrip demo_held demo_kernel 1 HBuffer 20 3);
    [apply demo_caps_wf| |by apply demo_below|];
    eexists; vm_compute; reflexivity.
Defined.

(** C34: Dropping the last reference to a dead task tears it down: the
    recursion through the tasks it had handles on ends, nothing is released
    twice, every counter stays exact and the task is gone. *)
Theorem task_teardown_complete held k tid t :
  caps_wf held k -> refs_below 0 k -> tasks k !! tid = Some t -> tid <> kernel_task ->
  dead t = true -> t_ref t = 1 -> 1 <= held HTask tid ->
  exists k', task_release tid k = Some k' /\ caps_wf (bump HTask tid (-1) held) k' /\
    tasks k' !! tid = None.
Proof. apply last_release_removes. Qed.

(** Task 2 of the demonstration has died. *)
Definition demo_dead : kernel := put_task 2 (mark_dead demo_t2) demo_kernel.

Lemma demo_t2_lookup : tasks demo_kernel !! 2 = Some demo_t2.
Proof. vm_compute. reflexivity. Qed.

Lemma demo_dead_wf : caps_wf demo_held demo_dead /\ refs_below 0 demo_dead.
Proof.
  split.
  - apply (table_write_ok demo_held demo_held demo_kernel 2 demo_t2); try done.
    + apply demo_caps_wf.
    + intros h Hin Hne. apply (cw_handle _ _ demo_caps_wf 2 demo_t2); [apply demo_t2_lookup|done|done].
    + intros. simpl. lia.
    + apply demo_caps_wf.
    + apply demo_caps_wf.
  - apply (refs_below_put 0 demo_kernel 2 demo_t2); [done|done|].
    by apply demo_below.
Qed.

Lemma task_teardown_complete_witness :
  exists k', task_release 2 demo_dead = Some k' /\
    caps_wf (bump HTask 2 (-1) demo_held) k' /\ tasks k' !! 2 = None.
Proof.
  apply (task_teardown_complete demo_held demo_dead 2 (mark_dead demo_t2));
    [apply demo_dead_wf|apply demo_dead_wf| |done..].
  vm_compute. reflexivity.
Defined.

(** The teardown loop over an owned address space ends with an empty
    region table after asking for every recorded region to be unmapped exactly
    once, and needs as many turns as there are regions. *)
Theorem teardown_unmaps_all pid v :
  table_wf v ->
  exists rs, rs ≡ₚ vm_regions v /\
    (let '(v', log) := teardown_regions (length (vm_regions v)) pid v [] in
     vm_regions v' = [] /\
     log = map (fun r => CUnmapUserRange pid (base r) (len r)) rs).
Proof.
  intros Hwf. destruct (teardown_regions_ok (length (vm_regions v)) pid v []) as (rs & Hp & Hpost);
    [done|apply Hwf|]. by exists rs.
Qed.

Lemma teardown_unmaps_all_witness :
  exists rs, rs ≡ₚ vm_regions demo_table /\
    (let '(v', log) := teardown_regions (length (vm_regions demo_table)) 7 demo_table [] in
     vm_regions v' = [] /\
     log = map (fun r => CUnmapUserRange 7 (base r) (len r)) rs).
Proof. apply (teardown_unmaps_all 7 demo_table). apply demo_table_wf. Defined.
