(* ===== verification/Ipc.v ===== *)
(** * Message passing (kernel/ipc.c, the IPC system calls of arch/x86_64/user.c)

    A port is a queue of messages with at most one registered receiver.  A send
    to a port whose receiver waits writes the message into the receiver's wait
    record; any other send queues a copy.  Messages own references to their
    reply port and to the capability they carry.

    Each definition that begins and ends with [ipc_lock] is one atomic section;
    the system calls run the sections of one call without interruption.  The
    interleavings of sections of several threads are in [IpcStep]. *)
From stdpp Require Import gmap list sorting strings.
From Stdlib Require Import ZArith Lia.
From S2P Require Import Prelude VmRegion Handles.

Open Scope Z_scope.
Open Scope machine_scope.

(** ** Messages *)

Definition sizeof_ipc_message_node : Z := 80.
Definition sizeof_ipc_port : Z := 160.

Definition with_sender (sender : Z) (m : ipc_message) : ipc_message :=
  mk_msg (m_protocol m) (m_type m) sender (m_cap_rights m) (m_reply_port m) (m_cap_type m)
    (m_cap_object m) (m_words m).

Definition with_reply (reply : Z) (m : ipc_message) : ipc_message :=
  mk_msg (m_protocol m) (m_type m) (m_sender m) (m_cap_rights m) reply (m_cap_type m)
    (m_cap_object m) (m_words m).

(** [reply_port = 0; cap_type = NONE; cap_object = 0; cap_rights = 0] *)
Definition clear_caps (m : ipc_message) : ipc_message :=
  mk_msg (m_protocol m) (m_type m) (m_sender m) 0 0 HEmpty 0 (m_words m).

(** The results of [task_retain] and the like are ignored. *)
Definition ipc_message_retain (m : ipc_message) (k : kernel) : option kernel :=
  k ← ipc_port_retain (m_reply_port m) k;
  match m_cap_type m with
  | HPort => ipc_port_retain (m_cap_object m) k
  | HBuffer => buffer_retain (m_cap_object m) k
  | HTask => '(_, k) ← task_retain (m_cap_object m) k; Some k
  | HHw => '(_, k) ← task_hw_resource_retain (m_cap_object m) k; Some k
  | HPolicy => '(_, k) ← sched_policy_cap_retain (m_cap_object m) k; Some k
  | HEmpty => Some k
  end.

(** The message is left as [clear_caps]. *)
Definition ipc_message_release (m : ipc_message) (k : kernel) : option kernel :=
  k ← match m_cap_type m with
      | HPort => ipc_port_release (m_cap_object m) k
      | HBuffer => buffer_release (m_cap_object m) k
      | HTask => task_release (m_cap_object m) k
      | HHw => task_hw_resource_release (m_cap_object m) k
      | HPolicy => sched_policy_cap_release (m_cap_object m) k
      | HEmpty => Some k
      end;
  ipc_port_release (m_reply_port m) k.

Definition kalloc (size : Z) (k : kernel) : bool * kernel :=
  match kheap k with
  | avail :: rest => (size <=? avail, set_heap rest k)
  | [] => (false, k)
  end.

Definition message_free (m : ipc_message) (k : kernel) : option kernel :=
  ipc_message_release m k.

(** ** Ports *)

(** A new port is named by its id, so [ports] is also [ports_by_id].  [0] is
    the null pointer. *)
Definition ipc_port_alloc (name : string) (reuse_named : bool) (k : kernel) : Z * kernel :=
  match (if reuse_named then ports_by_name k !! name else None) with
  | Some existing => (existing, k)
  | None =>
      let '(ok, k) := kalloc sizeof_ipc_port k in
      if negb ok then (0, k) else
      let id := next_port_id k in
      let k := bump_port_id k in
      if bool_decide (is_Some (ports k !! id)) then (0, k) else
      let k := put_port id (mk_port name 0 reuse_named [] 0 0 0 0 None) k in
      (id, if reuse_named then set_names (<[name := id]> (ports_by_name k)) k else k)
  end.

Definition ipc_port_create (name : string) : kernel -> Z * kernel := ipc_port_alloc name true.
Definition ipc_port_create_private (name : string) : kernel -> Z * kernel :=
  ipc_port_alloc name false.

Definition ipc_port_find (name : string) (k : kernel) : Z :=
  default 0 (ports_by_name k !! name).

Definition ipc_port_from_id (id : Z) (k : kernel) : Z :=
  if id =? 0 then 0 else if bool_decide (is_Some (ports k !! id)) then id else 0.

Definition set_receiver (th wait index : Z) (p : ipc_port) : ipc_port :=
  mk_port (p_name p) (p_ref p) (immortal p) (p_queue p) (queued p) th wait index (p_affinity p).
Definition clear_receiver (p : ipc_port) : ipc_port :=
  set_receiver 0 0 (receiver_index p) p.
Definition set_affinity (cpu : Z) (p : ipc_port) : ipc_port :=
  mk_port (p_name p) (p_ref p) (immortal p) (p_queue p) (queued p) (receiver p)
    (receiver_wait p) (receiver_index p) (Some cpu).
Definition set_queue (q : list ipc_message) (n : Z) (p : ipc_port) : ipc_port :=
  mk_port (p_name p) (p_ref p) (immortal p) q n (receiver p) (receiver_wait p)
    (receiver_index p) (p_affinity p).

Definition ipc_cancel_thread (th : Z) (k : kernel) : kernel :=
  if th =? 0 then k else
  set_ports ((fun p => if receiver p =? th then clear_receiver p else p) <$> ports k) k.

(** ** Sending *)

(** The first section of [ipc_send]: write the message into the record of a
    waiting receiver.  The result is the receiver, [0] when there is none. *)
Definition send_direct (cpu sender port : Z) (m : ipc_message) (k : kernel)
    : option (Z * kernel) :=
  let m := with_sender sender m in
  k ← ipc_message_retain m k;
  let k := call (CCount CntSends cpu) k in
  p ← ports k !! port;
  if negb (receiver p =? 0) && negb (receiver_wait p =? 0) then
    w ← waits k !! receiver_wait p;
    if negb (w_delivered w) && bool_decide (p_queue p = []) then
      let w := mk_wait (Some m) (receiver_index p) true in
      let k := set_waits (<[receiver_wait p := w]> (waits k)) k in
      let k := put_port port (clear_receiver p) k in
      Some (receiver p, call (CCount CntDirectDelivered cpu) k)
    else Some (0, k)
  else Some (0, k).

(** The last section: queue a copy and wake the receiver, if any. *)
Definition send_enqueue (cpu sender port : Z) (m : ipc_message) (k : kernel)
    : option (Z * kernel) :=
  let '(ok, k) := kalloc sizeof_ipc_message_node k in
  if negb ok then Some (-1, k) else
  let m := with_sender sender m in
  k ← ipc_message_retain m k;
  p ← ports k !! port;
  let q := set_queue (p_queue p ++ [m]) (u32 (queued p + 1)) p in
  let q := if negb (receiver p =? 0) then clear_receiver q else q in
  let k := call (CCount CntQueued cpu) (put_port port q k) in
  Some (0, if receiver p =? 0 then k else call (CUnblock (receiver p)) k).

Definition THREAD_HANDOFF_INVALID : Z := -1.
Definition THREAD_HANDOFF_DIRECT : Z := 1.
Definition THREAD_HANDOFF_SCHEDULER : Z := 2.
Definition THREAD_HANDOFF_CROSS_CPU : Z := 3.
Definition THREAD_HANDOFF_NESTED : Z := 4.

Definition handoff_counter (handoff : Z) : ipc_counter :=
  if handoff =? THREAD_HANDOFF_DIRECT then CntDirectHandoff
  else if handoff =? THREAD_HANDOFF_CROSS_CPU then CntCrossCpu
  else if handoff =? THREAD_HANDOFF_NESTED then CntNested
  else if handoff =? THREAD_HANDOFF_SCHEDULER then CntScheduler
  else CntInvalid.

(** The calls after a direct delivery; [handoff] is what [thread_handoff]
    returns. *)
Definition send_handoff (cpu handoff : Z) (m : ipc_message) (rcv : Z) (k : kernel) : Z * kernel :=
  if negb (m_reply_port m =? 0) then (0, call (CUnblock rcv) k)
  else
    let k := call (CCount (handoff_counter handoff) cpu) (call (CHandoff rcv) k) in
    (if handoff =? THREAD_HANDOFF_INVALID then -1 else 0, k).

Definition ipc_send (cpu sender handoff port : Z) (m : ipc_message) (k : kernel)
    : option (Z * kernel) :=
  if port =? 0 then Some (-1, k) else
  '(rcv, k) ← send_direct cpu sender port m k;
  if negb (rcv =? 0) then Some (send_handoff cpu handoff m rcv k)
  else
    k ← ipc_message_release (with_sender sender m) k;
    send_enqueue cpu sender port m k.

(** ** Receiving *)

(** [queued--; *message = node->message; ...; message_free(node)] *)
Definition pop_message (port : Z) (p : ipc_port) (m : ipc_message) (q : list ipc_message)
    (k : kernel) : option kernel :=
  message_free (clear_caps m) (put_port port (set_queue q (u32 (queued p - 1)) p) k).

(** How a receiving section ends.  [RExit]: [thread_prepare_block] ends the
    thread of a task that is being killed, and [ipc_lock] stays locked. *)
Inductive recv_outcome :=
  | RGot (index : Z) (m : ipc_message)
  | RBlock
  | RExit
  | REmpty
  | RInvalid.

Definition new_wait : ipc_wait := mk_wait None 0 false.

(** The body of the loop of [ipc_recv] up to the point where it blocks. *)
Definition recv_turn (th port : Z) (is_killing : bool) (k : kernel)
    : option (recv_outcome * kernel) :=
  p ← ports k !! port;
  match p_queue p with
  | m :: q => k ← pop_message port p m q k; Some (RGot 0 m, k)
  | [] =>
      w ← waits k !! th;
      let k := set_waits (<[th := mk_wait (w_message w) (w_index w) false]> (waits k)) k in
      if is_killing then Some (RExit, k) else
      Some (RBlock, put_port port (set_receiver th th 0 p) k)
  end.

Definition ipc_recv_enter (cpu th port : Z) (is_killing : bool) (k : kernel)
    : option (recv_outcome * kernel) :=
  if port =? 0 then Some (RInvalid, k) else
  let k := set_waits (<[th := new_wait]> (waits k)) k in
  p ← ports k !! port;
  recv_turn th port is_killing (put_port port (set_affinity cpu p) k).

(** After [thread_block_prepared] returns. *)
Definition ipc_recv_resume (th port : Z) (is_killing : bool) (k : kernel)
    : option (recv_outcome * kernel) :=
  w ← waits k !! th;
  if w_delivered w then m ← w_message w; Some (RGot 0 m, k)
  else recv_turn th port is_killing k.

Definition ipc_try_recv (cpu port : Z) (k : kernel) : option (recv_outcome * kernel) :=
  if port =? 0 then Some (RInvalid, k) else
  p ← ports k !! port;
  let k := put_port port (set_affinity cpu p) k in
  match p_queue p with
  | [] => Some (REmpty, k)
  | m :: q => k ← pop_message port (set_affinity cpu p) m q k; Some (RGot 0 m, k)
  end.

(** *** Several ports *)

Definition IPC_RECV_ANY_MAX : Z := 4.

Fixpoint distinct_ports (ps : list Z) : bool :=
  match ps with
  | [] => true
  | p :: ps => negb (p =? 0) && forallb (fun q => negb (p =? q)) ps && distinct_ports ps
  end.

Definition recv_any_valid (ps : list Z) : bool :=
  negb (bool_decide (ps = [])) && (Z.of_nat (length ps) <=? IPC_RECV_ANY_MAX) &&
  distinct_ports ps.

Definition update_port (f : ipc_port -> ipc_port) (o : Z) (k : kernel) : option kernel :=
  p ← ports k !! o; Some (put_port o (f p) k).

Fixpoint update_ports (f : Z -> ipc_port -> ipc_port) (i : Z) (ps : list Z) (k : kernel)
    : option kernel :=
  match ps with
  | [] => Some k
  | o :: ps => k ← update_port (f i) o k; update_ports f (i + 1) ps k
  end.

(** The first port with a message, and its index. *)
Fixpoint any_pop (i : Z) (ps : list Z) (k : kernel) : option (option (Z * ipc_message) * kernel) :=
  match ps with
  | [] => Some (None, k)
  | o :: ps =>
      p ← ports k !! o;
      match p_queue p with
      | [] => any_pop (i + 1) ps k
      | m :: q => k ← pop_message o p m q k; Some (Some (i, m), k)
      end
  end.

(** One turn of the [for (;;)] of [ipc_recv_any] up to the point where it
    blocks. *)
Definition recv_any_turn (cpu th : Z) (ps : list Z) (is_killing : bool) (k : kernel)
    : option (recv_outcome * kernel) :=
  k ← update_ports (fun _ => set_affinity cpu) 0 ps k;
  '(r, k) ← any_pop 0 ps k;
  match r with
  | Some (i, m) => Some (RGot i m, k)
  | None =>
      if is_killing then Some (RExit, k) else
      k ← update_ports (fun i => set_receiver th th i) 0 ps k;
      Some (RBlock, k)
  end.

Definition ipc_recv_any_enter (cpu th : Z) (ps : list Z) (is_killing : bool) (k : kernel)
    : option (recv_outcome * kernel) :=
  if negb (recv_any_valid ps) then Some (RInvalid, k) else
  recv_any_turn cpu th ps is_killing (set_waits (<[th := new_wait]> (waits k)) k).

Definition drop_receiver (th : Z) (p : ipc_port) : ipc_port :=
  if receiver p =? th then clear_receiver p else p.

Definition ipc_recv_any_resume (cpu th : Z) (ps : list Z) (is_killing : bool) (k : kernel)
    : option (recv_outcome * kernel) :=
  k ← update_ports (fun _ => drop_receiver th) 0 ps k;
  w ← waits k !! th;
  if w_delivered w then m ← w_message w; Some (RGot (w_index w) m, k)
  else recv_any_turn cpu th ps is_killing k.

(** The frame of a receive that returned is gone. *)
Definition end_wait (th : Z) (k : kernel) : kernel := set_waits (delete th (waits k)) k.

(** ** System calls *)

(** [struct user_ipc_message] *)
Record user_ipc_message := mk_user_msg {
  u_protocol : Z;
  u_type : Z;
  u_sender : Z;
  u_cap_rights : Z;
  u_reply : Z;
  u_cap : Z;
  u_words : list Z;
}.

Definition USER_IPC_WORDS : nat := 4.
Definition no_message : ipc_message := mk_msg 0 0 0 0 0 HEmpty 0 (replicate USER_IPC_WORDS 0).

(** [SEND | RECV | DUP] *)
Definition valid_rights : Z := 7.

Definition user_message_to_ipc (cur : Z) (um : user_ipc_message) (k : kernel)
    : option (Z * ipc_message * kernel) :=
  '(reply, k) ← task_port_from_handle cur (u_reply um) TASK_RIGHT_SEND k;
  let m := mk_msg (u_protocol um) (u_type um) 0 (u_cap_rights um) reply HEmpty 0
             (m_words no_message) in
  if (u_cap um =? 0) && negb (u_cap_rights um =? 0) then Some (-1, m, k) else
  if negb (u_cap um =? 0) then
    let rights := Z.lor (u_cap_rights um) TASK_RIGHT_DUP in
    if negb (Z.land (u_cap_rights um) (Z.lnot valid_rights) =? 0) then Some (-1, m, k) else
    '(c, k) ← task_export_cap cur (u_cap um) rights k;
    match c with
    | None => Some (-1, m, k)
    | Some (type, object) =>
        if u_cap_rights um =? 0 then Some (-1, m, k) else
        Some (0, mk_msg (u_protocol um) (u_type um) 0 (u_cap_rights um) reply type object
                   (u_words um), k)
    end
  else Some (0, mk_msg (u_protocol um) (u_type um) 0 (u_cap_rights um) reply HEmpty 0
                  (u_words um), k).

Definition ipc_message_to_user (cur : Z) (m : ipc_message) (k : kernel)
    : option (user_ipc_message * kernel) :=
  '(reply, k) ← task_grant_port cur (m_reply_port m) TASK_RIGHT_SEND k;
  '(cap, k) ← match m_cap_type m with
              | HPort => task_grant_port cur (m_cap_object m) (m_cap_rights m) k
              | HBuffer => task_grant_buffer cur (m_cap_object m) (m_cap_rights m) k
              | HTask => task_grant_task cur (m_cap_object m) (m_cap_rights m) k
              | HHw => task_grant_hw_resource cur (m_cap_object m) (m_cap_rights m) k
              | HPolicy => task_grant_sched_policy cur (m_cap_object m) (m_cap_rights m) k
              | HEmpty => Some (0, k)
              end;
  Some (mk_user_msg (m_protocol m) (m_type m) (m_sender m) (m_cap_rights m) reply cap (m_words m),
        k).

(** [cur] is the calling task, [th] its thread, [cpu] the processor.  What
    [read_current_user] gives for the message argument is [None] when the
    pointer is null or cannot be read; [writable] says whether
    [write_current_user] succeeds. *)
Definition native_sys_ipc_send (cpu cur handoff handle : Z) (arg : option user_ipc_message)
    (k : kernel) : option (Z * kernel) :=
  '(port, k) ← task_port_from_handle cur handle TASK_RIGHT_SEND k;
  match arg with
  | Some um =>
      if port =? 0 then Some (-1, k) else
      '(rc, m, k) ← user_message_to_ipc cur um k;
      if negb (rc =? 0) then
        k ← ipc_message_release m k; k ← ipc_port_release port k; Some (-1, k)
      else
        '(result, k) ← ipc_send cpu cur handoff port m k;
        k ← ipc_message_release m k;
        k ← ipc_port_release port k;
        Some (result, k)
  | None => k ← ipc_port_release port k; Some (-1, k)
  end.

(** What the receiving calls do with the message they got. *)
Definition recv_finish (cur port : Z) (m : ipc_message) (writable : bool) (k : kernel)
    : option (Z * option user_ipc_message * kernel) :=
  '(um, k) ← ipc_message_to_user cur m k;
  k ← ipc_message_release m k;
  k ← ipc_port_release port k;
  Some (if writable then (0, Some um, k) else (-1, None, k)).

Definition native_sys_ipc_try_recv (cpu cur handle : Z) (arg_null writable : bool) (k : kernel)
    : option (Z * option user_ipc_message * kernel) :=
  '(port, k) ← task_port_from_handle cur handle TASK_RIGHT_RECV k;
  if (port =? 0) || arg_null then k ← ipc_port_release port k; Some (-1, None, k) else
  '(r, k) ← ipc_try_recv cpu port k;
  match r with
  | RGot _ m => recv_finish cur port m writable k
  | REmpty => k ← ipc_port_release port k; Some (1, None, k)
  | _ => k ← ipc_port_release port k; Some (-1, None, k)
  end.

(** What a blocking call has come to: it returned, or its thread sleeps (or is
    gone) and owns the references to the ports. *)
Inductive sys_outcome :=
  | SysReturned (result : Z) (um : option user_ipc_message)
  | SysBlocked
  | SysExited.

Definition recv_outcome_finish (cur th port : Z) (writable : bool) (r : recv_outcome) (k : kernel)
    : option (sys_outcome * kernel) :=
  match r with
  | RGot _ m =>
      '(result, um, k) ← recv_finish cur port m writable (end_wait th k);
      Some (SysReturned result um, k)
  | RBlock => Some (SysBlocked, k)
  | RExit => Some (SysExited, k)
  | _ => k ← ipc_port_release port k; Some (SysReturned (-1) None, k)
  end.

Definition native_sys_ipc_recv (cpu cur th handle : Z) (arg_null writable is_killing : bool)
    (k : kernel) : option (sys_outcome * kernel) :=
  '(port, k) ← task_port_from_handle cur handle TASK_RIGHT_RECV k;
  if (port =? 0) || arg_null then
    k ← ipc_port_release port k; Some (SysReturned (-1) None, k)
  else
    '(r, k) ← ipc_recv_enter cpu th port is_killing k;
    recv_outcome_finish cur th port writable r k.

(** The sleeping thread of [native_sys_ipc_recv] runs again. *)
Definition native_sys_ipc_recv_resume (cur th port : Z) (writable is_killing : bool) (k : kernel)
    : option (sys_outcome * kernel) :=
  '(r, k) ← ipc_recv_resume th port is_killing k;
  recv_outcome_finish cur th port writable r k.

(** ** What reference counting leaves alone *)

Definition port_view (p : ipc_port) : list ipc_message * Z * Z * Z :=
  (p_queue p, queued p, receiver p, receiver_wait p).

(** No task has gained a reply port and no port id has been given out. *)
Definition reply_le (k k' : kernel) : Prop :=
  next_port_id k' = next_port_id k /\
  forall tid t', tasks k' !! tid = Some t' -> reply_port t' <> 0 ->
    exists t, tasks k !! tid = Some t /\ reply_port t = reply_port t'.

Lemma reply_le_tasks k k' : tasks k' = tasks k -> next_port_id k' = next_port_id k -> reply_le k k'.
Proof. intros Ht Hn. split; [done|]. rewrite Ht. eauto. Qed.

Lemma reply_le_trans k1 k2 k3 : reply_le k1 k2 -> reply_le k2 k3 -> reply_le k1 k3.
Proof.
  intros [Hn1 H1] [Hn2 H2]. split; [congruence|]. intros tid t3 Ht3 Hnz.
  destruct (H2 tid t3 Ht3 Hnz) as (t2 & Ht2 & Hr2).
  destruct (H1 tid t2 Ht2) as (t1 & Ht1 & Hr1); [congruence|]. exists t1. split; congruence.
Qed.

Lemma reply_le_put k k' tid t t' :
  reply_le k k' -> tasks k !! tid = Some t -> reply_port t' = reply_port t \/ reply_port t' = 0 ->
  reply_le k (put_task tid t' k').
Proof.
  intros [Hn H] Ht Hr. split; [done|]. intros tid' x. simpl.
  intros [[<- <-]|[_ Hx]]%lookup_insert_Some Hnz; [|eauto]. destruct Hr as [Hr|Hr]; [|done].
  exists t. by rewrite Hr.
Qed.

(** Queues, registrations and wait records are the same, except for ports
    without messages and receiver that are gone; so are reply ports. *)
Record ipc_le (k k' : kernel) : Prop := {
  il_waits : waits k' = waits k;
  il_ports : forall o, port_view <$> ports k' !! o = port_view <$> ports k !! o \/
    ports k' !! o = None /\ exists p, ports k !! o = Some p /\ queued p = 0 /\ receiver p = 0;
  il_reply : reply_le k k';
}.

Lemma ipc_le_same k k' :
  waits k' = waits k -> ports k' = ports k -> reply_le k k' -> ipc_le k k'.
Proof. intros Hw Hp Hr. constructor; [done| |done]. intros o. left. by rewrite Hp. Qed.

Lemma ipc_le_tasks k k' :
  waits k' = waits k -> ports k' = ports k -> tasks k' = tasks k -> next_port_id k' = next_port_id k ->
  ipc_le k k'.
Proof. intros. apply ipc_le_same; [done|done|by apply reply_le_tasks]. Qed.

Lemma ipc_le_refl k : ipc_le k k.
Proof. by apply ipc_le_tasks. Qed.

Lemma ipc_le_trans k1 k2 k3 : ipc_le k1 k2 -> ipc_le k2 k3 -> ipc_le k1 k3.
Proof.
  intros [Hw1 Hp1 Hr1] [Hw2 Hp2 Hr2]. constructor; [congruence| |by eapply reply_le_trans]. intros o.
  destruct (Hp2 o) as [Hv|(Hn & p & Hp & Hq & Hr)].
  - destruct (Hp1 o) as [Hv1|(Hn1 & Hrest)]; [left; congruence|].
    rewrite Hn1 in Hv. right. split; [|done]. by destruct (ports k3 !! o).
  - right. split; [done|]. destruct (Hp1 o) as [Hv1|(Hn1 & _)]; [|congruence].
    rewrite Hp in Hv1. destruct (ports k1 !! o) as [q|]; [|done]. exists q.
    injection Hv1 as ? ? ? ?. split; [done|]. split; congruence.
Qed.

Create HintDb ipc_frame.
#[export] Hint Resolve ipc_le_refl ipc_le_tasks : ipc_frame.

Lemma port_put_le k o p p' :
  ports k !! o = Some p -> port_view p' = port_view p -> ipc_le k (put_port o p' k).
Proof.
  intros Hp Hv. constructor; [done| |by apply reply_le_tasks]. intros o'. left. simpl.
  destruct (decide (o' = o)) as [->|Hne]; [|by rewrite lookup_insert_ne].
  rewrite lookup_insert_eq, Hp. simpl. by rewrite Hv.
Qed.

Lemma port_retain_le o k k' : ipc_port_retain o k = Some k' -> ipc_le k k'.
Proof.
  unfold ipc_port_retain. case_if; [intros [= <-]; auto with ipc_frame|].
  destruct (ports k !! o) as [p|] eqn:Hp; [|done]. intros [= <-]. by eapply port_put_le.
Qed.

Lemma port_release_le o k k' : ipc_port_release o k = Some k' -> ipc_le k k'.
Proof.
  unfold ipc_port_release. case_if; [intros [= <-]; auto with ipc_frame|].
  destruct (ports k !! o) as [p|] eqn:Hp; [|done]. simpl.
  set (p' := if 0 <? p_ref p then port_with_ref (p_ref p - 1) p else p).
  assert (port_view p' = port_view p) as Hv by (unfold p'; by case_if).
  destruct (_ || _) eqn:Hc; [intros [= <-]; by eapply port_put_le|].
  apply orb_false_iff in Hc as [[_ Hq]%orb_false_iff Hr]. bool_facts.
  injection Hv as _ Hqq Hrr _.
  assert (forall k1, waits k1 = waits k -> ports k1 = delete o (ports k) -> tasks k1 = tasks k ->
    next_port_id k1 = next_port_id k -> ipc_le k k1) as Hdel.
  { intros k1 Hw1 Hp1 Ht1 Hn1. constructor; [done| |by apply reply_le_tasks]. intros o'. rewrite Hp1.
    destruct (decide (o' = o)) as [->|Hne]; [|left; by rewrite lookup_delete_ne].
    right. rewrite lookup_delete_eq. split; [done|]. exists p. split; [done|]. split; congruence. }
  case_if; intros [= <-]; by apply Hdel.
Qed.

Lemma fold_calls_waits log k : waits (fold_left (fun k c => call c k) log k) = waits k.
Proof. revert k. induction log as [|c log IH]; intros k; simpl; [done|]. by rewrite IH. Qed.

Lemma fold_calls_next log k :
  next_port_id (fold_left (fun k c => call c k) log k) = next_port_id k.
Proof. revert k. induction log as [|c log IH]; intros k; simpl; [done|]. by rewrite IH. Qed.

Lemma release_all_le fuel hs k1 k2 :
  (forall type o k k', task_handle_release_fuel fuel type o k = Some k' -> ipc_le k k') ->
  foldl (fun ok h => k ← ok; task_handle_release_fuel fuel (h_type h) (h_object h) k)
    (Some k1) hs = Some k2 ->
  ipc_le k1 k2.
Proof.
  intros IH. revert k1. induction hs as [|h hs IHhs]; intros k1 Hf.
  - injection Hf as <-. apply ipc_le_refl.
  - cbn [foldl mbind option_bind] in Hf.
    destruct (task_handle_release_fuel fuel (h_type h) (h_object h) k1) as [k|] eqn:Hr.
    + eapply ipc_le_trans; eauto.
    + exfalso. clear -Hf. induction hs as [|x hs IH]; [done|]. by apply IH.
Qed.

Lemma release_le fuel type o k k' :
  task_handle_release_fuel fuel type o k = Some k' -> ipc_le k k'.
Proof.
  revert type o k k'. induction fuel as [|fuel IH]; intros type o k k' Hr; [done|].
  destruct type; cbn [task_handle_release_fuel] in Hr.
  - injection Hr as <-. auto with ipc_frame.
  - by eapply port_release_le.
  - case_if; [injection Hr as <-; auto with ipc_frame|].
    destruct (tasks k !! o) as [t|] eqn:Ht; [|done]. cbn [mbind option_bind] in Hr.
    set (t0 := if 0 <? t_ref t then with_ref (t_ref t - 1) t else t) in *.
    assert (reply_le k (put_task o t0 k)) as Hr0.
    { apply (reply_le_put k k o t); [by apply reply_le_tasks|done|]. left. unfold t0. by case_if. }
    revert Hr. case_if; [|intros [= <-]; by apply ipc_le_same].
    pose proof (teardown_detach_spec o t0 (put_task o t0 k)) as Hd.
    assert (waits (teardown_detach o t0 (put_task o t0 k)).2 = waits k) as Hw
      by (simpl; by rewrite fold_calls_waits).
    assert (next_port_id (teardown_detach o t0 (put_task o t0 k)).2 = next_port_id k) as Hid
      by (simpl; by rewrite fold_calls_next).
    destruct (teardown_detach o t0 _) as [[hs reply] k1].
    destruct Hd as (t' & Ht1 & Hp1 & _ & _ & _ & _ & _ & _ & Hz & _). simpl in Hw, Hid, Ht1.
    assert (reply_le k k1) as Hr1.
    { split; [done|]. rewrite Ht1. intros tid x.
      intros [[<- <-]|[Hne Hx]]%lookup_insert_Some Hnz; [done|]. rewrite lookup_insert_ne in Hx by done. eauto. }
    match goal with |- context [foldl ?f (Some k1) hs] =>
      destruct (foldl f (Some k1) hs) as [k2|] eqn:Hf; [|done] end. simpl.
    destruct (ipc_port_release reply k2) as [k3|] eqn:H3; [|done]. simpl. intros [= <-].
    apply (ipc_le_trans _ k1); [by apply ipc_le_same|].
    apply (ipc_le_trans _ k2); [by eapply release_all_le|].
    apply (ipc_le_trans _ k3); [by eapply port_release_le|].
    apply ipc_le_same; [by destruct (owns_vm_space t0)..|].
    split; [by destruct (owns_vm_space t0)|]. intros tid x Hx Hnz. exists x. split; [|done].
    destruct (owns_vm_space t0); simpl in Hx; apply lookup_delete_Some in Hx; naive_solver.
  - unfold buffer_release in Hr. case_if; [simplify_eq; auto with ipc_frame|].
    destruct (buffers k !! o); [|done]. simpl in Hr. case_if; simplify_eq; by apply ipc_le_tasks.
  - unfold task_hw_resource_release in Hr. case_if; [simplify_eq; auto with ipc_frame|].
    destruct (hws k !! o); [|done]. simpl in Hr. repeat case_if; simplify_eq; by apply ipc_le_tasks.
  - unfold sched_policy_cap_release in Hr. case_if; [simplify_eq; auto with ipc_frame|].
    destruct (policies k !! o); [|done]. simpl in Hr. repeat case_if; simplify_eq; by apply ipc_le_tasks.
Qed.

Lemma retain_le type o k rc k' : task_handle_retain type o k = Some (rc, k') -> ipc_le k k'.
Proof.
  destruct type; simpl; intros Hr.
  - simplify_eq; auto with ipc_frame.
  - destruct (ipc_port_retain o k) as [k1|] eqn:H1; [|done]. simpl in Hr. injection Hr as _ <-.
    by eapply port_retain_le.
  - destruct (tasks k !! o) as [t|] eqn:Ht; [|done]. simpl in Hr. case_if; simplify_eq; [apply ipc_le_refl|].
    apply ipc_le_same; [done|done|]. apply (reply_le_put k k o t); [by apply reply_le_tasks|done|by left].
  - unfold buffer_retain in Hr. case_if; simpl in Hr; [simplify_eq; auto with ipc_frame|].
    destruct (buffers k !! o); [|done]. simpl in Hr. simplify_eq. by apply ipc_le_tasks.
  - unfold task_hw_resource_retain in Hr. case_if; [simplify_eq; auto with ipc_frame|].
    destruct (hws k !! o); [|done]. simpl in Hr. case_if; simplify_eq; by apply ipc_le_tasks.
  - unfold sched_policy_cap_retain in Hr. case_if; [simplify_eq; auto with ipc_frame|].
    destruct (policies k !! o); [|done]. simpl in Hr. simplify_eq. by apply ipc_le_tasks.
Qed.

Lemma grow_frame min tid t k :
  let '(rc, t1, k1) := task_grow_handles_locked min tid t k in
  ports k1 = ports k /\ waits k1 = waits k /\ next_port_id k1 = next_port_id k /\
  reply_port t1 = reply_port t /\ (tasks k1 = tasks k \/ tasks k1 = <[tid := t1]> (tasks k)).
Proof.
  unfold task_grow_handles_locked. case_if; [auto 10|].
  generalize (double_capacity 32 (if handle_capacity t =? 0 then INITIAL_TASK_HANDLES
    else handle_capacity t) min) as c. intros c.
  destruct (kheap k); [auto 10|]. case_if; auto 10.
Qed.

Lemma grow_le k0 min tid t0 t k rc t1 k1 :
  task_grow_handles_locked min tid t k = (rc, t1, k1) -> ipc_le k0 k ->
  tasks k0 !! tid = Some t0 -> reply_port t = reply_port t0 ->
  ipc_le k0 k1 /\ reply_port t1 = reply_port t0.
Proof.
  intros Hg Hle Ht0 Hr. pose proof (grow_frame min tid t k) as Hf. rewrite Hg in Hf.
  destruct Hf as (Hp & Hw & Hn & Hr1 & Htk). split; [|congruence].
  destruct Htk as [Htk|Htk]; [eapply ipc_le_trans; [exact Hle|by apply ipc_le_tasks]|].
  destruct Hle as [Hw0 Hp0 Hr0]. constructor; [congruence|by rewrite Hp|]. destruct Hr0 as [Hn0 Hr0].
  split; [congruence|]. rewrite Htk. intros tid' x.
  intros [[<- <-]|[_ Hx]]%lookup_insert_Some Hnz; [|eauto]. exists t0. split; congruence.
Qed.

Lemma find_slot_trace k0 fuel tid t0 : forall t k r k1,
  find_slot fuel tid t k = (r, k1) -> ipc_le k0 k ->
  tasks k0 !! tid = Some t0 -> reply_port t = reply_port t0 ->
  ipc_le k0 k1 /\ (forall i t1, r = Some (i, t1) -> reply_port t1 = reply_port t0).
Proof.
  induction fuel as [|fuel IH]; intros t k r k1 Hf Hle Ht0 Hr; unfold find_slot in Hf; fold find_slot in Hf.
  - injection Hf as <- <-. done.
  - destruct (find_idx is_empty (handles t)).
    { injection Hf as <- <-. split; [done|]. by intros i t1 [= _ <-]. }
    destruct (task_grow_handles_locked _ tid t k) as [[rc t1] k2] eqn:Hg.
    destruct (grow_le k0 _ tid t0 t k rc t1 k2 Hg) as [Hle2 Hr2]; try done.
    destruct (negb (rc =? 0)); [injection Hf as <- <-; done|]. by eapply IH.
Qed.

Lemma find_slot_le fuel tid t k r k1 :
  find_slot fuel tid t k = (r, k1) -> tasks k !! tid = Some t -> ipc_le k k1.
Proof.
  intros Hf Ht. by destruct (find_slot_trace k fuel tid t t k r k1 Hf (ipc_le_refl k) Ht eq_refl).
Qed.

Lemma find_slot_reply fuel tid t k i t1 k1 :
  find_slot fuel tid t k = (Some (i, t1), k1) -> tasks k !! tid = Some t -> reply_port t1 = reply_port t.
Proof.
  intros Hf Ht. destruct (find_slot_trace k fuel tid t t k _ k1 Hf (ipc_le_refl k) Ht eq_refl) as [_ H].
  by apply (H i).
Qed.

Ltac frame_binds :=
  repeat match goal with
  | H : Some _ = Some _ |- _ => injection H as H
  | H : mbind _ ?x = Some _ |- _ => destruct x as [?|] eqn:?; [cbn [mbind option_bind] in H|done]
  | H : (let '(_, _) := ?x in _) = Some _ |- _ => destruct x as [? ?] eqn:?
  | H : match ?x with _ => _ end = Some _ |- _ => destruct x eqn:?
  end; subst.

Lemma put_task_le tid t t' k k' :
  ipc_le k k' -> tasks k !! tid = Some t -> reply_port t' = reply_port t ->
  ipc_le k (put_task tid t' k').
Proof.
  intros [Hw Hp Hr] Ht He. constructor; [done|done|]. apply (reply_le_put k k' tid t); auto.
Qed.

Lemma put_task_self tid t t' k :
  tasks k !! tid = Some t -> reply_port t' = reply_port t -> ipc_le k (put_task tid t' k).
Proof. apply put_task_le, ipc_le_refl. Qed.

(** Changing a task as it is now. *)
Lemma put_task_step tid t t' k k' :
  ipc_le k k' -> tasks k' !! tid = Some t -> reply_port t' = reply_port t -> ipc_le k (put_task tid t' k').
Proof. intros Hle Ht Hr. eapply ipc_le_trans; [exact Hle|by eapply put_task_self]. Qed.

Ltac slot_reply :=
  match goal with H : find_slot _ _ _ _ = (Some (_, _), _) |- _ =>
    refine (find_slot_reply _ _ _ _ _ _ _ H _); done end.

Lemma affinity_reply aff t : reply_port (set_ipc_affinity aff t) = reply_port t.
Proof. unfold set_ipc_affinity. destruct aff; [|done]. by case_if. Qed.

Lemma grant_le type tid o rights k g k' : grant_any type tid o rights k = Some (g, k') -> ipc_le k k'.
Proof.
  destruct type; simpl grant_any; intros Hg.
  - simplify_eq. apply ipc_le_refl.
  - unfold task_grant_port in Hg. frame_binds; auto using ipc_le_refl.
    + eapply put_task_self; [done|apply affinity_reply].
    + eapply ipc_le_trans; [eapply put_task_le; [by eapply find_slot_le|done|]|by eapply port_retain_le].
      rewrite affinity_reply. slot_reply.
    + by eapply find_slot_le.
  - unfold task_grant_task in Hg. frame_binds; auto using ipc_le_refl;
      try (by eapply find_slot_le).
    + eapply put_task_le; [eapply put_task_le; [by eapply find_slot_le|done|slot_reply]|done|].
      slot_reply.
    + eapply put_task_step; [eapply put_task_le; [by eapply find_slot_le|done|slot_reply]|done|done].
  - unfold task_grant_buffer in Hg. frame_binds; auto using ipc_le_refl; [|by eapply find_slot_le].
    match goal with H : buffer_retain o ?k1 = Some k' |- _ =>
      apply (ipc_le_trans k k1); [|apply (retain_le HBuffer o k1 0); simpl; by rewrite H] end.
    eapply put_task_le; [by eapply find_slot_le|done|slot_reply].
  - unfold task_grant_hw_resource in Hg. frame_binds; auto using ipc_le_refl; try (by eapply find_slot_le);
      [|eapply put_task_le; [|done|slot_reply]];
      (eapply ipc_le_trans; [by eapply find_slot_le|by eapply retain_le]).
  - unfold task_grant_sched_policy in Hg. frame_binds; auto using ipc_le_refl; try (by eapply find_slot_le);
      [|eapply put_task_le; [|done|slot_reply]];
      (eapply ipc_le_trans; [by eapply find_slot_le|by eapply retain_le]).
Qed.

Lemma locked_retain_le locked type o k rc k' :
  task_handle_retain_from_locked_task locked type o k = Some (rc, k') -> ipc_le k k'.
Proof.
  unfold task_handle_retain_from_locked_task. intros Hr. frame_binds;
    auto using ipc_le_refl; first [by eapply retain_le|by eapply put_task_self].
Qed.

Lemma lookup_le type tid handle rights k o k' :
  lookup_any type tid handle rights k = Some (o, k') -> ipc_le k k'.
Proof.
  destruct type; simpl; unfold task_port_from_handle, task_buffer_from_handle,
    task_hw_resource_from_handle, task_sched_policy_from_handle, object_from_handle,
    task_from_handle; intros Hl; frame_binds; eauto using ipc_le_refl, locked_retain_le.
Qed.

Lemma export_le tid handle rights k c k' :
  task_export_cap tid handle rights k = Some (c, k') -> ipc_le k k'.
Proof.
  unfold task_export_cap. intros He. frame_binds; eauto using ipc_le_refl, locked_retain_le.
Qed.

Lemma msg_retain_le m k k' : ipc_message_retain m k = Some k' -> ipc_le k k'.
Proof.
  unfold ipc_message_retain. intros Hr.
  destruct (ipc_port_retain (m_reply_port m) k) as [k1|] eqn:H1; [|done]. cbn [mbind option_bind] in Hr.
  eapply ipc_le_trans; [by eapply port_retain_le|]. clear H1.
  destruct (m_cap_type m); unfold task_retain, buffer_retain, task_hw_resource_retain,
    sched_policy_cap_retain in Hr; frame_binds; auto using ipc_le_refl, ipc_le_tasks.
  - by eapply port_retain_le.
  - by eapply put_task_self.
Qed.

(** ** References and authority of messages in flight *)

Definition msg_refs (m : ipc_message) : holds := fun type o =>
  (if bool_decide (m_cap_type m = type /\ m_cap_object m = o /\ type <> HEmpty) then 1 else 0) +
  reply_points type o (m_reply_port m).

Definition plus (h1 h2 : holds) : holds := fun type o => h1 type o + h2 type o.
Definition minus (h1 h2 : holds) : holds := fun type o => h1 type o - h2 type o.

Definition queue_refs (type : handle_type) (o : Z) (p : ipc_port) : Z :=
  lsum (fun m => msg_refs m type o) (p_queue p).

(** The message a wait record has been handed. *)
Definition delivered (w : ipc_wait) : option ipc_message :=
  if w_delivered w then w_message w else None.

Definition wait_refs (type : handle_type) (o : Z) (w : ipc_wait) : Z :=
  match delivered w with Some m => msg_refs m type o | None => 0 end.

(** The references the messages in queues and wait records own. *)
Definition flight (k : kernel) : holds := fun type o =>
  msum (queue_refs type o) (ports k) + msum (wait_refs type o) (waits k).

Record ports_ok (k : kernel) : Prop := {
  po_queued : forall o p, ports k !! o = Some p -> queued p = Z.of_nat (length (p_queue p));
  po_wait : forall o p, ports k !! o = Some p -> receiver p <> 0 ->
    is_Some (waits k !! receiver_wait p);
}.

(** Counters are exact when the references of messages are counted; [base]
    are those of running system calls. *)
Record ipc_wf (base : holds) (k : kernel) : Prop := {
  iw_caps : caps_wf (plus base (flight k)) k;
  iw_base : forall type o, 0 <= base type o;
  iw_ports : ports_ok k;
}.

Definition inflight (k : kernel) (m : ipc_message) : Prop :=
  (exists o p, ports k !! o = Some p /\ m ∈ p_queue p) \/
  (exists th w, waits k !! th = Some w /\ delivered w = Some m).

(** What the receiver of a message can get from it. *)
Definition msg_auth (m : ipc_message) (type : handle_type) (o r : Z) : Prop :=
  type = m_cap_type m /\ type <> HEmpty /\ o = m_cap_object m /\ r = m_cap_rights m \/
  type = HPort /\ o = m_reply_port m /\ o <> 0 /\ r = TASK_RIGHT_SEND.

(** A task lends the right to send to its reply port when it calls. *)
Definition lends (k : kernel) (type : handle_type) (o r : Z) : Prop :=
  type = HPort /\ r = TASK_RIGHT_SEND /\ o <> 0 /\
  exists tid t, tasks k !! tid = Some t /\ reply_port t = o.

(** The authority over [o] present in the system: in tables, in messages, and
    as reply ports of tasks. *)
Definition auth (k : kernel) (type : handle_type) (o r : Z) : Prop :=
  (exists tid, has k tid type o r) \/ (exists m, inflight k m /\ msg_auth m type o r) \/
  lends k type o r.

(** The authority stems from [k], or is over a port that [k] does not have
    yet: port ids are given out in order. *)
Definition auth_in (k : kernel) (type : handle_type) (o r : Z) : Prop :=
  (exists r0, auth k type o r0 /\ rights_within r r0) \/ type = HPort /\ next_port_id k <= o.

Lemma auth_in_within k0 type o r r' : auth_in k0 type o r -> rights_within r' r -> auth_in k0 type o r'.
Proof.
  intros [(r0 & H0 & Hw)|Hf] Hw'; [left|by right]. exists r0. split; [done|].
  by eapply rights_within_trans.
Qed.

Lemma auth_in_self k type o r : auth k type o r -> auth_in k type o r.
Proof. intros Ha. left. exists r. split; [done|apply rights_within_refl]. Qed.

(** A state that a system call begun in [k0] goes through: the counters are
    exact with [base] held by the call, they can still grow by [n], and all
    authority stems from [k0]. *)
Record good (k0 : kernel) (base : holds) (n : Z) (k : kernel) : Prop := {
  gd_wf : ipc_wf base k;
  gd_below : refs_below n k;
  gd_auth : forall type o r, auth k type o r -> auth_in k0 type o r;
  gd_next : next_port_id k0 <= next_port_id k;
}.

Lemma msg_refs_nonneg m type o : 0 <= msg_refs m type o.
Proof. unfold msg_refs, reply_points. repeat case_bool_decide; lia. Qed.

Lemma queue_refs_nonneg type o p : 0 <= queue_refs type o p.
Proof. apply lsum_nonneg. intros. apply msg_refs_nonneg. Qed.

Lemma wait_refs_nonneg type o w : 0 <= wait_refs type o w.
Proof. unfold wait_refs. destruct (delivered w); [apply msg_refs_nonneg|done]. Qed.

Lemma flight_nonneg k type o : 0 <= flight k type o.
Proof.
  unfold flight. pose proof (msum_nonneg (queue_refs type o) (ports k)
    (fun _ p _ => queue_refs_nonneg type o p)).
  pose proof (msum_nonneg (wait_refs type o) (waits k) (fun _ w _ => wait_refs_nonneg type o w)).
  lia.
Qed.

Lemma queued_zero k o p : ports_ok k -> ports k !! o = Some p -> queued p = 0 -> p_queue p = [].
Proof.
  intros Hok Hp H0. rewrite (po_queued _ Hok o p Hp) in H0. by destruct (p_queue p).
Qed.

Lemma flight_le k k' type o : ports_ok k -> ipc_le k k' -> flight k' type o = flight k type o.
Proof.
  intros Hok [Hw Hp]. unfold flight. rewrite Hw. f_equal. apply msum_default. intros o'.
  destruct (Hp o') as [Hv|(-> & p & Hk & Hq & _)].
  - destruct (ports k' !! o') as [p'|], (ports k !! o') as [p|]; try done. simpl in *.
    injection Hv as Hq _ _ _. unfold queue_refs. by rewrite Hq.
  - rewrite Hk. simpl. unfold queue_refs. by rewrite (queued_zero k o' p).
Qed.

Lemma ports_ok_le k k' : ports_ok k -> ipc_le k k' -> ports_ok k'.
Proof.
  intros [Hq Hwt] [Hw Hp]. constructor; intros o p' Hp'; destruct (Hp o) as [Hv|[Hn _]];
    try congruence; rewrite Hp' in Hv; destruct (ports k !! o) as [p|] eqn:Hk; try done;
    simpl in Hv; injection Hv as Hv1 Hv2 Hv3 Hv4.
  - rewrite Hv1, Hv2. by eapply Hq.
  - rewrite Hv3, Hv4, Hw. by eapply Hwt.
Qed.

Lemma inflight_le k k' m : ipc_le k k' -> inflight k' m -> inflight k m.
Proof.
  intros [Hw Hp] [(o & p' & Hp' & Hm)|Hm]; [left|right; by rewrite Hw in Hm].
  destruct (Hp o) as [Hv|[Hn _]]; [|congruence]. rewrite Hp' in Hv.
  destruct (ports k !! o) as [p|] eqn:Hk; [|done]. injection Hv as Hv _ _ _.
  exists o, p. by rewrite <- Hv.
Qed.

Lemma lends_le k k' type o r : ipc_le k k' -> lends k' type o r -> lends k type o r.
Proof.
  intros [_ _ [_ Hr]] (-> & -> & Hnz & tid & t' & Ht' & <-).
  destruct (Hr tid t' Ht' Hnz) as (t & Ht & He). split; [done|]. split; [done|]. split; [done|]. eauto.
Qed.

Lemma auth_le k k' type o r :
  entries_le k k' -> ipc_le k k' -> auth k' type o r -> auth k type o r.
Proof.
  intros He Hi [[tid Hh]|[(m & Hm & Ha)|Hl]]; [left|right; left|right; right].
  - exists tid. by apply He.
  - exists m. split; [by eapply inflight_le|done].
  - by eapply lends_le.
Qed.

Lemma same_tables_le k k' : same_tables k k' -> entries_le k k'.
Proof. intros Hs tid type o r. by apply same_tables_has. Qed.

(** Reference counting moves a good state to a good state. *)
Lemma good_move k0 base base' n n' k k' :
  good k0 base n k -> ipc_le k k' -> entries_le k k' -> refs_below n' k' ->
  caps_wf (plus base' (flight k)) k' -> (forall type o, 0 <= base' type o) ->
  good k0 base' n' k'.
Proof.
  intros [[Hc Hb Hp] _ Ha Hx] Hle He Hn Hc' Hb'.
  constructor; [|done| |by rewrite (proj1 (il_reply _ _ Hle))].
  - constructor; [|done|by eapply ports_ok_le].
    eapply caps_wf_ext; [|exact Hc']. intros type o. unfold plus. by rewrite (flight_le k k').
  - intros type o r Hau. apply Ha. by eapply auth_le.
Qed.

Lemma good_ext k0 base base' n k :
  (forall type o, base type o = base' type o) -> good k0 base n k -> good k0 base' n k.
Proof.
  intros He [[Hc Hb Hp] Hn Ha Hx]. constructor; [|done|done|done]. constructor; [|intros; by rewrite <- He|done].
  eapply caps_wf_ext; [|exact Hc]. intros. unfold plus. by rewrite He.
Qed.

Lemma good_weaken k0 base n n' k : good k0 base n k -> n' <= n -> good k0 base n' k.
Proof.
  intros [Hw Hn Ha Hx] Hle. constructor; [done| |done|done].
  intros type o r Hr. destruct (Hn type o r Hr). lia.
Qed.

Lemma good_live k0 base n k type o : good k0 base n k -> 1 <= base type o -> live k type o.
Proof.
  intros [[Hc _ _] _ _ _] Hb. apply (cw_held_live _ _ Hc). unfold plus.
  pose proof (flight_nonneg k type o). lia.
Qed.

(** ** Steps of system calls *)

Lemma good_release k0 base n k type o :
  good k0 base n k -> 0 <= n -> 1 <= base type o ->
  exists k', task_handle_release type o k = Some k' /\ tables_le k k' /\
    good k0 (bump type o (-1) base) n k'.
Proof.
  intros Hg Hn Hb. pose proof Hg as [[Hc Hb0 Hp] Hbl Ha Hx].
  destruct (handle_release_ok _ k type o Hc) as (k' & Hr & Hpost).
  { intros ty ob r Hrf. destruct (Hbl ty ob r Hrf). lia. }
  { unfold plus. pose proof (flight_nonneg k type o). lia. }
  pose proof (release_tables _ _ _ _ _ Hr) as Ht. exists k'. split; [done|]. split; [done|].
  apply (good_move k0 base _ n n k).
  - done.
  - by eapply release_le.
  - intros tid ty ob r. by apply tables_le_has.
  - eapply refs_le_below; [apply (rp_refs _ _ _ Hpost)|done].
  - eapply caps_wf_ext; [|apply (rp_wf _ _ _ Hpost)]. intros ty ob. unfold plus, bump.
    case_bool_decide; lia.
  - intros ty ob. unfold bump. specialize (Hb0 ty ob). case_bool_decide as Hd; [|done].
    destruct Hd as [-> ->]. lia.
Qed.

Lemma good_port_release k0 base n k o :
  good k0 base n k -> 0 <= n -> 1 <= base HPort o ->
  exists k', ipc_port_release o k = Some k' /\ good k0 (bump HPort o (-1) base) n k'.
Proof.
  intros Hg Hn Hb. destruct (good_release k0 base n k HPort o Hg Hn Hb) as (k' & Hr & _ & Hg').
  exists k'. split; [exact Hr|done].
Qed.

Lemma cap_release_eq m k :
  match m_cap_type m with
  | HPort => ipc_port_release (m_cap_object m) k
  | HBuffer => buffer_release (m_cap_object m) k
  | HTask => task_release (m_cap_object m) k
  | HHw => task_hw_resource_release (m_cap_object m) k
  | HPolicy => sched_policy_cap_release (m_cap_object m) k
  | HEmpty => Some k
  end = task_handle_release (m_cap_type m) (m_cap_object m) k.
Proof. by destruct (m_cap_type m). Qed.

Lemma msg_refs_cap m : m_cap_type m <> HEmpty -> 1 <= msg_refs m (m_cap_type m) (m_cap_object m).
Proof.
  intros Hne. unfold msg_refs, reply_points. rewrite (bool_decide_eq_true_2 (_ /\ _)) by done.
  case_bool_decide; lia.
Qed.

Lemma msg_refs_reply m : m_reply_port m <> 0 -> 1 <= msg_refs m HPort (m_reply_port m).
Proof.
  intros Hne. unfold msg_refs, reply_points. rewrite (bool_decide_eq_true_2 (HPort = HPort /\ _)) by done.
  case_bool_decide; lia.
Qed.

Lemma good_msg_release k0 base n k m :
  good k0 base n k -> 0 <= n -> (forall type o, msg_refs m type o <= base type o) ->
  exists k', ipc_message_release m k = Some k' /\ tables_le k k' /\
    good k0 (minus base (msg_refs m)) n k'.
Proof.
  intros Hg Hn Hm. unfold ipc_message_release. rewrite cap_release_eq.
  assert (exists k1, task_handle_release (m_cap_type m) (m_cap_object m) k = Some k1 /\ tables_le k k1 /\
    good k0 (fun type o => base type o -
      (if bool_decide (m_cap_type m = type /\ m_cap_object m = o /\ type <> HEmpty) then 1 else 0)) n k1)
    as (k1 & -> & Ht1 & Hg1).
  { destruct (decide (m_cap_type m = HEmpty)) as [He|Hne].
    - exists k. rewrite He. split; [done|]. split; [apply tables_le_refl|].
      eapply good_ext; [|exact Hg]. intros type o. cbv beta. rewrite bool_decide_eq_false_2; [lia|].
      by intros (<- & _ & ?).
    - destruct (good_release k0 base n k (m_cap_type m) (m_cap_object m)) as (k1 & Hr & Ht & Hg1);
        try done.
      { pose proof (msg_refs_cap m Hne). specialize (Hm (m_cap_type m) (m_cap_object m)). lia. }
      exists k1. split; [done|]. split; [done|]. eapply good_ext; [|exact Hg1]. intros type o.
      unfold bump. repeat case_bool_decide; naive_solver lia. }
  cbn [mbind option_bind]. destruct (decide (m_reply_port m = 0)) as [Hr0|Hr0].
  - rewrite Hr0. exists k1. split; [done|]. split; [done|]. eapply good_ext; [|exact Hg1].
    intros type o. unfold minus, msg_refs, reply_points. rewrite Hr0.
    rewrite (bool_decide_eq_false_2 (type = HPort /\ _)); [lia|]. by intros (_ & <- & ?).
  - destruct (good_release k0 _ n k1 HPort (m_reply_port m) Hg1) as (k2 & Hr2 & Ht2 & Hg2); [done| |].
    { pose proof (msg_refs_reply m Hr0). specialize (Hm HPort (m_reply_port m)).
      unfold msg_refs, reply_points in Hm. rewrite (bool_decide_eq_true_2 (HPort = HPort /\ _)) in Hm by done. lia. }
    exists k2. split; [exact Hr2|]. split; [by eapply tables_le_trans|].
    eapply good_ext; [|exact Hg2]. intros type o. unfold bump, minus, msg_refs, reply_points.
    repeat case_bool_decide; naive_solver lia.
Qed.

(** Nothing about tasks or liveness changed. *)
Record quiet (k k' : kernel) : Prop := {
  qt_tables : same_tables k k';
  qt_live : forall type o, live k' type o <-> live k type o;
  qt_dead : forall type o, dead_task k' type o = dead_task k type o;
  qt_ipc : ipc_le k k';
}.

Lemma quiet_refl k : quiet k k.
Proof. constructor; try done. apply ipc_le_refl. Qed.

Lemma quiet_trans k1 k2 k3 : quiet k1 k2 -> quiet k2 k3 -> quiet k1 k3.
Proof.
  intros [Ht1 Hl1 Hd1 Hi1] [Ht2 Hl2 Hd2 Hi2]. constructor.
  - intros tid. by rewrite Ht2.
  - intros. by rewrite Hl2.
  - intros. by rewrite Hd2.
  - by eapply ipc_le_trans.
Qed.

Lemma quiet_task k k' tid : quiet k k' -> is_Some (tasks k !! tid) -> is_Some (tasks k' !! tid).
Proof.
  intros Hq [t Ht]. pose proof (qt_tables _ _ Hq tid) as Hs. rewrite Ht in Hs.
  destruct (tasks k' !! tid); [by eexists|done].
Qed.

Lemma good_retain k0 base n k type o :
  good k0 base (n + 1) k -> 0 <= n -> live k type o -> dead_task k type o = false ->
  exists k', task_handle_retain type o k = Some (0, k') /\
    good k0 (bump type o 1 base) n k' /\ quiet k k'.
Proof.
  intros Hg Hn Hl Hd. pose proof Hg as [[Hc Hb0 Hp] Hbl Ha Hx].
  destruct (retain_ok _ k type o Hc Hl) as (rc & k' & Hr & Hs & Hlv & Hcase).
  { intros ty ob r Hrf. destruct (Hbl ty ob r Hrf). lia. }
  destruct Hcase as [(-> & Hwf' & Hb')|(_ & _ & Hdd)]; [|congruence].
  exists k'. split; [done|]. split.
  - apply (good_move k0 base _ (n + 1) n k); [done|by eapply retain_le|by apply same_tables_le|auto| |].
    + eapply caps_wf_ext; [|exact Hwf']. intros. unfold plus, bump. case_bool_decide; lia.
    + intros ty ob. unfold bump. specialize (Hb0 ty ob). case_bool_decide; lia.
  - constructor; [done|done| |by eapply retain_le]. intros. by eapply retain_dead.
Qed.

Lemma kernel_task_reref held k :
  caps_wf held k -> live k HTask kernel_task -> caps_wf (bump HTask kernel_task 1 held) k.
Proof.
  intros Hwf Hl. pose proof (cw_held _ _ Hwf HTask kernel_task).
  apply (caps_wf_counter held k); try done; [|lia].
  intros type o r Htr Hr. exists r. split; [done|].
  rewrite bool_decide_eq_false_2 by done. lia.
Qed.

(** What a message needs for its references to be taken. *)
Definition msg_live (k : kernel) (m : ipc_message) : Prop :=
  (m_reply_port m <> 0 -> live k HPort (m_reply_port m)) /\
  (m_cap_type m <> HEmpty -> live k (m_cap_type m) (m_cap_object m) /\
     dead_task k (m_cap_type m) (m_cap_object m) = false).

Lemma good_cap_retain k0 base n k m :
  good k0 base (n + 1) k -> 0 <= n -> m_cap_type m <> HEmpty ->
  live k (m_cap_type m) (m_cap_object m) -> dead_task k (m_cap_type m) (m_cap_object m) = false ->
  exists k', match m_cap_type m with
    | HPort => ipc_port_retain (m_cap_object m) k
    | HBuffer => buffer_retain (m_cap_object m) k
    | HTask => '(_, k) ← task_retain (m_cap_object m) k; Some k
    | HHw => '(_, k) ← task_hw_resource_retain (m_cap_object m) k; Some k
    | HPolicy => '(_, k) ← sched_policy_cap_retain (m_cap_object m) k; Some k
    | HEmpty => Some k
    end = Some k' /\
    good k0 (bump (m_cap_type m) (m_cap_object m) 1 base) n k' /\ quiet k k'.
Proof.
  intros Hg Hn Hne Hl Hd.
  destruct (good_retain k0 base n k (m_cap_type m) (m_cap_object m)) as (k' & Hr & Hg' & Hq); try done.
  destruct (m_cap_type m) eqn:Hty; simpl in Hr; try done.
  - destruct (ipc_port_retain _ k); [|done]. simpl in Hr. simplify_eq. eauto.
  - pose proof Hg as [[Hc Hb0 Hp] Hbl Ha Hx].
    pose proof (caps_wf_nonnull _ _ _ _ Hc Hl) as Hnz. unfold task_retain. decide_tests. simpl orb.
    case_if.
    + exists k. split; [done|]. split; [|apply quiet_refl]. rewrite Heqb in Hl |- *.
      apply (good_move k0 base _ (n + 1) n k); try done;
        [apply ipc_le_refl|by intros ?|by apply refs_below_weaken| |].
      * eapply caps_wf_ext; [|apply (kernel_task_reref _ _ Hc Hl)].
        intros. unfold plus, bump. case_bool_decide; lia.
      * intros ty ob. unfold bump. specialize (Hb0 ty ob). case_bool_decide; lia.
    + exists k'. split; [|done]. destruct (tasks k !! m_cap_object m) as [t|]; [|done].
      simpl in Hr |- *. destruct (dead t); [done|]. by simplify_eq.
  - destruct (buffer_retain _ k); [|done]. simpl in Hr. simplify_eq. eauto.
  - rewrite Hr. eauto.
  - rewrite Hr. eauto.
Qed.

Lemma good_msg_retain k0 base n k m :
  good k0 base (n + 2) k -> 0 <= n -> msg_live k m ->
  exists k', ipc_message_retain m k = Some k' /\
    good k0 (plus base (msg_refs m)) n k' /\ quiet k k'.
Proof.
  intros Hg Hn [Hlr Hlc]. unfold ipc_message_retain.
  replace (n + 2) with (n + 1 + 1) in Hg by lia.
  assert (exists k1, ipc_port_retain (m_reply_port m) k = Some k1 /\
    good k0 (fun type o => base type o + reply_points type o (m_reply_port m)) (n + 1) k1 /\ quiet k k1)
    as (k1 & -> & Hg1 & Hq1).
  { destruct (decide (m_reply_port m = 0)) as [Hr0|Hr0].
    - exists k. rewrite Hr0. split; [done|]. split; [|apply quiet_refl].
      eapply good_ext; [|eapply good_weaken; [exact Hg|lia]]. intros type o. cbv beta.
      unfold reply_points. rewrite bool_decide_eq_false_2; [lia|]. by intros (_ & <- & ?).
    - destruct (good_retain k0 base (n + 1) k HPort (m_reply_port m)) as (k1 & Hr & Hg1 & Hq);
        [done|lia|auto|done|].
      simpl in Hr. destruct (ipc_port_retain _ k) as [k2|]; [|done]. simpl in Hr. injection Hr as <-.
      exists k2. split; [done|]. split; [|done]. eapply good_ext; [|exact Hg1]. intros type o.
      unfold bump, reply_points. repeat case_bool_decide; naive_solver lia. }
  cbn [mbind option_bind]. destruct (decide (m_cap_type m = HEmpty)) as [He|Hne].
  - rewrite He. exists k1. split; [done|]. split; [|done].
    eapply good_ext; [|eapply good_weaken; [exact Hg1|lia]]. intros type o. unfold plus, msg_refs.
    rewrite He, (bool_decide_eq_false_2 (HEmpty = type /\ _)); [lia|]. by intros (<- & _ & ?).
  - destruct (Hlc Hne) as [Hl Hd].
    destruct (good_cap_retain k0 _ n k1 m Hg1) as (k2 & -> & Hg2 & Hq2); try done.
    { by apply (qt_live _ _ Hq1). }
    { by rewrite (qt_dead _ _ Hq1). }
    exists k2. split; [done|]. split; [|by eapply quiet_trans]. eapply good_ext; [|exact Hg2].
    intros type o. unfold bump, plus, msg_refs. repeat case_bool_decide; naive_solver lia.
Qed.

(** *** Moving messages *)

Lemma caps_wf_refs held k k' :
  tasks k' = tasks k -> (forall type o, refs k' type o = refs k type o) ->
  (forall type o, live k' type o <-> live k type o) -> caps_wf held k -> caps_wf held k'.
Proof.
  intros Ht Hr Hl [H1 H2 H3 H4 H5 H6]. constructor; try setoid_rewrite Hl; try rewrite Ht; try done.
  intros type o r Htr. rewrite Hr. unfold table_refs. rewrite Ht. by apply H4.
Qed.

(** Only queues, registrations and wait records differ. *)
Record ipc_change (k k' : kernel) : Prop := {
  ic_tasks : tasks k' = tasks k;
  ic_buffers : buffers k' = buffers k;
  ic_hws : hws k' = hws k;
  ic_policies : policies k' = policies k;
  ic_ports : forall o, p_ref <$> ports k' !! o = p_ref <$> ports k !! o;
  ic_next : next_port_id k' = next_port_id k;
}.

Lemma ipc_change_refs k k' type o : ipc_change k k' -> refs k' type o = refs k type o.
Proof. intros [Ht Hb Hh Hp Hr _]. by destruct type; simpl; rewrite ?Ht, ?Hb, ?Hh, ?Hp, ?Hr. Qed.

Lemma ipc_change_live k k' type o : ipc_change k k' -> live k' type o <-> live k type o.
Proof.
  intros [Ht Hb Hh Hp Hr _]. destruct type; simpl; rewrite ?Ht, ?Hb, ?Hh, ?Hp; try done.
  specialize (Hr o). by rewrite <- !(fmap_is_Some p_ref), Hr.
Qed.

Lemma ipc_change_refl k : ipc_change k k.
Proof. by constructor. Qed.

Lemma ipc_change_trans k1 k2 k3 : ipc_change k1 k2 -> ipc_change k2 k3 -> ipc_change k1 k3.
Proof. intros [] []. constructor; try congruence. Qed.

Lemma ipc_change_put k o p p' :
  ports k !! o = Some p -> p_ref p' = p_ref p -> ipc_change k (put_port o p' k).
Proof.
  intros Hp Hr. constructor; try done. intros o'. simpl.
  destruct (decide (o' = o)) as [->|Hne]; [|by rewrite lookup_insert_ne].
  rewrite lookup_insert_eq, Hp. simpl. by rewrite Hr.
Qed.

(** A message whose contents stem from [k0]. *)
Definition msg_from (k0 : kernel) (m : ipc_message) : Prop :=
  forall type o r, msg_auth m type o r -> auth_in k0 type o r.

Lemma good_inflight k0 base n k m : good k0 base n k -> inflight k m -> msg_from k0 m.
Proof. intros [_ _ Ha _] Hm type o r Hau. apply Ha. right. left. eauto. Qed.

Lemma good_change k0 base base' n k k' :
  good k0 base n k -> ipc_change k k' -> ports_ok k' ->
  (forall m, inflight k' m -> inflight k m \/ msg_from k0 m) ->
  (forall type o, base' type o + flight k' type o = base type o + flight k type o) ->
  (forall type o, 0 <= base' type o) ->
  good k0 base' n k'.
Proof.
  intros Hg Hch Hok Hin Heq Hb'. pose proof Hg as [[Hc Hb Hp] Hbl Ha Hx].
  constructor; [| | |by rewrite (ic_next _ _ Hch)].
  - constructor; [|done|done]. apply (caps_wf_refs _ k);
      [apply Hch|intros; by apply ipc_change_refs|intros; by apply ipc_change_live|].
    eapply caps_wf_ext; [|exact Hc]. intros. unfold plus. by rewrite Heq.
  - intros type o r. rewrite (ipc_change_refs k k') by done. apply Hbl.
  - intros type o r [[tid Hh]|[(m & Hm & Hau)|Hl]].
    + apply Ha. left. exists tid. destruct Hh as (t & h & Ht & Hrest). rewrite (ic_tasks _ _ Hch) in Ht.
      by exists t, h.
    + destruct (Hin m Hm) as [Hm'|Hf]; [|by apply Hf]. apply Ha. right. left. eauto.
    + apply Ha. right. right. unfold lends in *. by rewrite (ic_tasks _ _ Hch) in Hl.
Qed.

Lemma flight_put_port k o p p' type ob :
  ports k !! o = Some p ->
  flight (put_port o p' k) type ob = flight k type ob - queue_refs type ob p + queue_refs type ob p'.
Proof. intros Hp. unfold flight. simpl. rewrite (msum_update _ _ _ p) by done. lia. Qed.

Lemma flight_put_wait k th w w' type ob :
  waits k !! th = Some w ->
  flight (set_waits (<[th := w']> (waits k)) k) type ob =
  flight k type ob - wait_refs type ob w + wait_refs type ob w'.
Proof. intros Hw. unfold flight. simpl. rewrite (msum_update _ _ _ w) by done. lia. Qed.

Lemma ports_ok_put k o p p' :
  ports_ok k -> ports k !! o = Some p -> queued p' = Z.of_nat (length (p_queue p')) ->
  (receiver p' <> 0 -> is_Some (waits k !! receiver_wait p')) -> ports_ok (put_port o p' k).
Proof.
  intros [Hq Hw] Hp Hq' Hw'. constructor; intros o' q; simpl;
    intros [[<- <-]|[_ Hq0]]%lookup_insert_Some; eauto.
Qed.

Lemma ports_ok_waits k m :
  ports_ok k -> (forall th, is_Some (waits k !! th) -> is_Some (m !! th)) -> ports_ok (set_waits m k).
Proof. intros [Hq Hw] Hm. constructor; simpl; eauto. Qed.

Lemma inflight_put_port k o p p' m :
  ports k !! o = Some p -> inflight (put_port o p' k) m -> m ∈ p_queue p' \/ inflight k m.
Proof.
  intros Hp [(o' & q & Hq & Hm)|Hm]; [|right; by right]. simpl in Hq.
  apply lookup_insert_Some in Hq as [[<- <-]|[_ Hq]]; [by left|]. right. left. eauto.
Qed.

Lemma inflight_put_wait k th w m :
  inflight (set_waits (<[th := w]> (waits k)) k) m -> delivered w = Some m \/ inflight k m.
Proof.
  intros [Hm|(th' & w' & Hw & Hd)]; [right; by left|]. simpl in Hw.
  apply lookup_insert_Some in Hw as [[<- <-]|[_ Hw]]; [by left|]. right. right. eauto.
Qed.

(** Log entries and the allocator do not matter. *)
Lemma good_call k0 base n k c : good k0 base n k -> good k0 base n (call c k).
Proof.
  intros Hg. apply (good_change k0 base base n k); [done|by constructor| | |done|apply Hg].
  - destruct (iw_ports _ _ (gd_wf _ _ _ _ Hg)). by constructor.
  - auto.
Qed.

Lemma good_heap k0 base n k h : good k0 base n k -> good k0 base n (set_heap h k).
Proof.
  intros Hg. apply (good_change k0 base base n k); [done|by constructor| | |done|apply Hg].
  - destruct (iw_ports _ _ (gd_wf _ _ _ _ Hg)). by constructor.
  - auto.
Qed.

Lemma with_sender_refs s m type o : msg_refs (with_sender s m) type o = msg_refs m type o.
Proof. done. Qed.

(** The port is still there, with the same queue and receiver. *)
Lemma quiet_port k k' o p :
  quiet k k' -> ports k !! o = Some p ->
  exists p', ports k' !! o = Some p' /\ port_view p' = port_view p.
Proof.
  intros Hq Hp. assert (live k' HPort o) as [p' Hp'] by (apply (qt_live _ _ Hq); by eexists).
  exists p'. split; [done|].
  destruct (il_ports _ _ (qt_ipc _ _ Hq) o) as [Hv|[Hn _]]; [|congruence].
  rewrite Hp', Hp in Hv. simpl in Hv. congruence.
Qed.

Lemma good_deliver k0 base n k port p w m cpu :
  good k0 (plus base (msg_refs m)) n k -> (forall type o, 0 <= base type o) -> msg_from k0 m ->
  ports k !! port = Some p -> waits k !! receiver_wait p = Some w -> w_delivered w = false ->
  good k0 base n (call (CCount CntDirectDelivered cpu) (put_port port (clear_receiver p)
    (set_waits (<[receiver_wait p := mk_wait (Some m) (receiver_index p) true]> (waits k)) k))).
Proof.
  intros Hg Hb Hf Hp Hw Hd. apply good_call. pose proof (iw_ports _ _ (gd_wf _ _ _ _ Hg)) as Hok.
  set (k1 := set_waits (<[receiver_wait p := mk_wait (Some m) (receiver_index p) true]> (waits k)) k).
  apply (good_change k0 (plus base (msg_refs m)) base n k); try done.
  - apply (ipc_change_trans _ k1); [by constructor|]. by eapply ipc_change_put.
  - apply (ports_ok_put k1 port p); [|done|exact (po_queued _ Hok port p Hp)|done].
    apply ports_ok_waits; [done|]. intros th [x Hx].
    destruct (decide (th = receiver_wait p)) as [->|]; [rewrite lookup_insert_eq|rewrite lookup_insert_ne]; eauto.
  - intros m' [Hm'|Hm']%(inflight_put_port k1 port p); [|..|done].
    + left. left. exists port, p. done.
    + apply inflight_put_wait in Hm' as [[= <-]|]; auto.
  - intros type o. rewrite (flight_put_port k1 port p) by done. unfold k1.
    rewrite (flight_put_wait k _ w) by done.
    unfold queue_refs, wait_refs, delivered. rewrite Hd. simpl. unfold plus. lia.
Qed.

Lemma send_direct_ok k0 base n k cpu sender port m p :
  good k0 base (n + 2) k -> 0 <= n -> msg_live k m -> msg_from k0 m -> ports k !! port = Some p ->
  exists rcv k', send_direct cpu sender port m k = Some (rcv, k') /\
    (rcv <> 0 /\ good k0 base n k' \/
     rcv = 0 /\ good k0 (plus base (msg_refs m)) n k' /\ quiet k k').
Proof.
  intros Hg Hn Hl Hf Hp. unfold send_direct.
  destruct (good_msg_retain k0 base n k (with_sender sender m) Hg Hn Hl) as (k1 & -> & Hg1 & Hq1).
  cbn [mbind option_bind]. destruct (quiet_port k k1 port p Hq1 Hp) as (p1 & Hp1 & _).
  simpl ports. rewrite Hp1. cbn [mbind option_bind].
  assert (good k0 (plus base (msg_refs m)) n (call (CCount CntSends cpu) k1)) as Hg2
    by (by apply good_call).
  assert (quiet k (call (CCount CntSends cpu) k1)) as Hq2.
  { eapply quiet_trans; [exact Hq1|]. constructor; try done. by apply ipc_le_tasks. }
  destruct (negb (receiver p1 =? 0) && negb (receiver_wait p1 =? 0)) eqn:Hr.
  2: { exists 0, (call (CCount CntSends cpu) k1). auto. }
  bool_facts. destruct (po_wait _ (iw_ports _ _ (gd_wf _ _ _ _ Hg1)) port p1) as [w Hw]; [done|done|].
  simpl waits. rewrite Hw. cbn [mbind option_bind].
  destruct (negb (w_delivered w) && bool_decide (p_queue p1 = [])) eqn:Hd.
  2: { exists 0, (call (CCount CntSends cpu) k1). auto. }
  bool_facts. eexists (receiver p1), _. split; [done|]. left. split; [done|].
  apply (good_deliver k0 base n (call (CCount CntSends cpu) k1) port p1 w); try done. apply Hg.
Qed.

Lemma send_enqueue_ok k0 base n k cpu sender port m p :
  good k0 base (n + 2) k -> 0 <= n -> msg_live k m -> msg_from k0 m -> ports k !! port = Some p ->
  Z.of_nat (length (p_queue p)) + 1 < 2 ^ 32 ->
  exists rc k', send_enqueue cpu sender port m k = Some (rc, k') /\ good k0 base n k'.
Proof.
  intros Hg Hn Hl Hf Hp Hlen. unfold send_enqueue, kalloc.
  destruct (kheap k) as [|avail rest]; simpl negb.
  { eexists (-1), k. split; [done|]. eapply good_weaken; [exact Hg|lia]. }
  destruct (sizeof_ipc_message_node <=? avail); simpl negb.
  2: { eexists (-1), _. split; [done|]. apply good_heap. eapply good_weaken; [exact Hg|lia]. }
  destruct (good_msg_retain k0 base n (set_heap rest k) (with_sender sender m)) as (k1 & -> & Hg1 & Hq1);
    [by apply good_heap|done|done|].
  cbn [mbind option_bind].
  destruct (quiet_port (set_heap rest k) k1 port p Hq1 Hp) as (p1 & Hp1 & Hv).
  rewrite Hp1. cbn [mbind option_bind]. injection Hv as Hvq Hvn _ _.
  set (q := set_queue _ _ p1). set (q' := if negb (receiver p1 =? 0) then clear_receiver q else q).
  assert (p_queue q' = p_queue p1 ++ [with_sender sender m] /\ p_ref q' = p_ref p1 /\
    queued q' = Z.of_nat (length (p_queue q')) /\ receiver q' = 0) as (Hqq & Hqr & Hqn & Hqv).
  { pose proof (po_queued _ (iw_ports _ _ (gd_wf _ _ _ _ Hg1)) port p1 Hp1) as Hn1.
    unfold q'. case_if; simpl; rewrite length_app, Hn1; simpl;
      rewrite u32_small by (unfold in_u32; rewrite Hvq; lia); split; try done; split; try done; split; lia. }
  assert (good k0 base n (put_port port q' k1)) as Hg2.
  { apply (good_change k0 (plus base (msg_refs m)) base n k1); try done.
    - by eapply ipc_change_put.
    - apply (ports_ok_put k1 port p1); try done. apply Hg1.
    - intros m' [Hm'|Hm']%(inflight_put_port k1 port p1); [|by left|done].
      rewrite Hqq in Hm'. apply elem_of_app in Hm' as [Hm'| ->%list_elem_of_singleton]; [|by right].
      left. left. eauto.
    - intros type o. rewrite (flight_put_port k1 port p1) by done. unfold queue_refs.
      rewrite Hqq, lsum_app. simpl. unfold plus. rewrite with_sender_refs. lia.
    - apply Hg. }
  eexists 0, _. split; [done|]. case_if; repeat apply good_call; done.
Qed.

Lemma msg_live_held k0 base n k m :
  good k0 base n k -> (forall type o, msg_refs m type o <= base type o) ->
  dead_task k (m_cap_type m) (m_cap_object m) = false -> msg_live k m.
Proof.
  intros Hg Hm Hd. split.
  - intros Hr. eapply good_live; [exact Hg|]. pose proof (msg_refs_reply m Hr).
    specialize (Hm HPort (m_reply_port m)). lia.
  - intros Hc. split; [|done]. eapply good_live; [exact Hg|]. pose proof (msg_refs_cap m Hc).
    specialize (Hm (m_cap_type m) (m_cap_object m)). lia.
Qed.

Definition queue_room (k : kernel) : Prop :=
  forall o p, ports k !! o = Some p -> Z.of_nat (length (p_queue p)) + 1 < 2 ^ 32.

(** What taking a message needs. *)
Definition queue_fits (k : kernel) : Prop :=
  forall o p, ports k !! o = Some p -> Z.of_nat (length (p_queue p)) < 2 ^ 32.

Lemma queue_room_fits k : queue_room k -> queue_fits k.
Proof. intros Hr o p Hp. specialize (Hr o p Hp). lia. Qed.

Lemma queue_room_le k k' : queue_room k -> ipc_le k k' -> queue_room k'.
Proof.
  intros Hr [_ Hp] o p' Hp'. destruct (Hp o) as [Hv|[Hn _]]; [|congruence]. rewrite Hp' in Hv.
  destruct (ports k !! o) as [p|] eqn:Hk; [|done]. injection Hv as -> _ _ _. by eapply Hr.
Qed.

Lemma msg_release_le m k k' : ipc_message_release m k = Some k' -> ipc_le k k'.
Proof.
  unfold ipc_message_release. rewrite cap_release_eq. intros Hr.
  destruct (task_handle_release _ _ k) as [k1|] eqn:H1; [|done]. cbn [mbind option_bind] in Hr.
  eapply ipc_le_trans; [by eapply release_le|by eapply port_release_le].
Qed.

Lemma ipc_send_ok k0 base n k cpu sender handoff port m :
  good k0 base (n + 4) k -> 0 <= n -> port <> 0 -> 1 <= base HPort port ->
  (forall type o, msg_refs m type o <= base type o) ->
  dead_task k (m_cap_type m) (m_cap_object m) = false -> msg_from k0 m -> queue_room k ->
  exists rc k', ipc_send cpu sender handoff port m k = Some (rc, k') /\ good k0 base n k'.
Proof.
  intros Hg Hn Hnz Hbp Hm Hd Hf Hroom. unfold ipc_send. decide_tests.
  destruct (good_live k0 base _ k HPort port Hg Hbp) as [p Hp].
  replace (n + 4) with (n + 2 + 2) in Hg by lia.
  destruct (send_direct_ok k0 base (n + 2) k cpu sender port m p) as (rcv & k1 & -> & Hc);
    try done; [lia|by eapply msg_live_held|]. cbn [mbind option_bind].
  destruct Hc as [[Hr Hg1]|(-> & Hg1 & Hq1)].
  - decide_tests. simpl. unfold send_handoff. case_if; eexists _, _; split; try done;
      repeat apply good_call; eapply good_weaken; try exact Hg1; lia.
  - simpl negb. cbv iota.
    destruct (good_msg_release k0 _ (n + 2) k1 (with_sender sender m) Hg1) as (k2 & Hrel & Ht2 & Hg2);
      [lia|intros; rewrite with_sender_refs; unfold plus; pose proof (iw_base _ _ (gd_wf _ _ _ _ Hg) type o); lia|].
    rewrite Hrel. cbn [mbind option_bind].
    assert (good k0 base (n + 2) k2) as Hg3.
    { eapply good_ext; [|exact Hg2]. intros. unfold minus, plus. rewrite with_sender_refs. lia. }
    destruct (good_live k0 base _ k2 HPort port Hg3 Hbp) as [p2 Hp2].
    apply (send_enqueue_ok k0 base n k2 cpu sender port m p2); try done.
    + eapply msg_live_held; try done. eapply tables_le_dead; [exact Ht2|].
      by rewrite (qt_dead _ _ Hq1).
    + eapply (queue_room_le k k2); [done| |done].
      eapply ipc_le_trans; [apply Hq1|by eapply msg_release_le].
Qed.

Lemma good_pop k0 base n k port p m q :
  good k0 base n k -> ports k !! port = Some p -> p_queue p = m :: q ->
  Z.of_nat (length (p_queue p)) < 2 ^ 32 ->
  exists k', pop_message port p m q k = Some k' /\ good k0 (plus base (msg_refs m)) n k' /\
    ipc_change k k' /\ msg_from k0 m.
Proof.
  intros Hg Hp Hq Hlen. unfold pop_message, message_free, ipc_message_release. simpl.
  pose proof (iw_ports _ _ (gd_wf _ _ _ _ Hg)) as Hok.
  pose proof (po_queued _ Hok port p Hp) as Hn. rewrite Hq in Hn, Hlen. simpl in Hn, Hlen.
  set (p' := set_queue q (u32 (queued p - 1)) p). exists (put_port port p' k). split; [done|].
  assert (ipc_change k (put_port port p' k)) as Hch by (by eapply ipc_change_put).
  split; [|split; [done|]].
  - apply (good_change k0 base _ n k); try done.
    + apply (ports_ok_put k port p); try done; [|simpl; by eapply (po_wait _ Hok)].
      simpl. rewrite Hn, u32_small by (unfold in_u32; lia). lia.
    + intros m' [Hm'|Hm']%(inflight_put_port k port p); [|by left|done].
      left. left. exists port, p. split; [done|]. rewrite Hq. by right.
    + intros type o. rewrite (flight_put_port k port p) by done. unfold queue_refs. rewrite Hq. simpl.
      unfold plus. lia.
    + intros type o. unfold plus. pose proof (iw_base _ _ (gd_wf _ _ _ _ Hg) type o).
      pose proof (msg_refs_nonneg m type o). lia.
  - eapply good_inflight; [exact Hg|]. left. exists port, p. rewrite Hq. split; [done|left].
Qed.

Lemma good_affinity k0 base n k o p cpu :
  good k0 base n k -> ports k !! o = Some p ->
  good k0 base n (put_port o (set_affinity cpu p) k) /\
  ipc_change k (put_port o (set_affinity cpu p) k).
Proof.
  intros Hg Hp. pose proof (iw_ports _ _ (gd_wf _ _ _ _ Hg)) as Hok.
  assert (ipc_change k (put_port o (set_affinity cpu p) k)) as Hch by (by eapply ipc_change_put).
  split; [|done]. apply (good_change k0 base base n k); try done; [..|apply Hg].
  - apply (ports_ok_put k o p); try done; [exact (po_queued _ Hok o p Hp)|exact (po_wait _ Hok o p Hp)].
  - intros m' [Hm'|Hm']%(inflight_put_port k o p); [|by left|done]. left. left. eauto.
  - intros type ob. rewrite (flight_put_port k o p) by done. unfold queue_refs. simpl. lia.
Qed.

Lemma good_grant k0 base n k tid type o rights :
  good k0 base (n + 1) k -> 0 <= n -> live k HTask tid -> live k type o ->
  auth_in k0 type o rights ->
  exists g k', grant_any type tid o rights k = Some (g, k') /\ good k0 base n k' /\
    (forall type' o', live k' type' o' <-> live k type' o').
Proof.
  intros Hg Hn Ht Hl Ha0. pose proof Hg as [[Hc Hb0 Hp] Hbl Ha Hx].
  destruct (grant_any_ok _ k tid type o rights Hc Ht) as (g & k' & Hgr & Hpost);
    [intros ty ob r Hr; destruct (Hbl ty ob r Hr); lia|done|].
  pose proof (grant_le _ _ _ _ _ _ _ Hgr) as Hle.
  exists g, k'. split; [done|]. split; [|apply Hpost].
  constructor; [| | |by rewrite (proj1 (il_reply _ _ Hle))].
  - constructor; [|done|by eapply ports_ok_le].
    eapply caps_wf_ext; [|apply (gp_wf _ _ _ _ _ _ _ _ Hpost)]. intros. unfold plus. by rewrite (flight_le k k').
  - by apply (gp_below _ _ _ _ _ _ _ _ Hpost).
  - intros ty ob r [[tid' Hh]|[(m & Hm & Hau)|Hld]].
    + apply (gp_only _ _ _ _ _ _ _ _ Hpost) in Hh as [Hh|(-> & -> & -> & ->)]; [|done].
      apply Ha. left. eauto.
    + apply Ha. right. left. exists m. split; [by eapply inflight_le|done].
    + apply Ha. right. right. by eapply lends_le.
Qed.

(** *** Building and opening messages *)

Lemma locked_retain_dead locked type o k rc k' type' o' :
  task_handle_retain_from_locked_task locked type o k = Some (rc, k') ->
  dead_task k' type' o' = dead_task k type' o'.
Proof.
  unfold task_handle_retain_from_locked_task. case_if; [|apply retain_dead]. bool_facts. subst.
  case_if; [by intros [= _ <-]|]. intros Hr. by apply (retain_dead HTask locked k rc k').
Qed.

Lemma lookup_dead type tid handle rights k o k' type' o' :
  lookup_any type tid handle rights k = Some (o, k') -> dead_task k' type' o' = dead_task k type' o'.
Proof.
  destruct type; simpl; unfold task_port_from_handle, task_buffer_from_handle,
    task_hw_resource_from_handle, task_sched_policy_from_handle, object_from_handle,
    task_from_handle; intros Hl; frame_binds; eauto using locked_retain_dead.
Qed.

Lemma export_dead tid handle rights k c k' type' o' :
  task_export_cap tid handle rights k = Some (c, k') -> dead_task k' type' o' = dead_task k type' o'.
Proof.
  unfold task_export_cap. intros He. frame_binds; eauto using locked_retain_dead.
Qed.

Lemma good_acquired k0 base n k k' type o :
  good k0 base (n + 1) k -> acquired (plus base (flight k)) type o k k' -> ipc_le k k' ->
  good k0 (bump type o 1 base) n k'.
Proof.
  intros Hg [Hwf Hs Hl Hb] Hle. pose proof Hg as [[Hc Hb0 Hp] Hbl Ha Hx].
  apply (good_move k0 base _ (n + 1) n k); [done|done|by apply same_tables_le|auto| |].
  - eapply caps_wf_ext; [|exact Hwf]. intros. unfold plus, bump. case_bool_decide; lia.
  - intros ty ob. unfold bump. specialize (Hb0 ty ob). case_bool_decide; lia.
Qed.

Lemma good_below1 k0 base n k : good k0 base (n + 1) k -> 0 <= n -> refs_below 1 k.
Proof. intros [_ Hb _ _] Hn type o r Hr. destruct (Hb type o r Hr). lia. Qed.

Lemma good_lookup k0 base n k type tid handle rights :
  good k0 base (n + 1) k -> 0 <= n -> live k HTask tid -> type <> HEmpty ->
  exists o k', lookup_any type tid handle rights k = Some (o, k') /\
    (o = 0 /\ k' = k \/
     o <> 0 /\ entitled k type tid handle rights o /\ good k0 (bump type o 1 base) n k' /\
       quiet k k').
Proof.
  intros Hg Hn Ht Hne. pose proof (iw_caps _ _ (gd_wf _ _ _ _ Hg)) as Hc.
  destruct (lookup_ok _ k type tid handle rights Hc) as (o & k' & Hl & Hcase); try done;
    [by eapply good_below1|].
  exists o, k'. split; [done|]. destruct Hcase as [(-> & -> & _)|(Ho & He & Haq)]; [by left|right].
  pose proof (lookup_le _ _ _ _ _ _ _ Hl) as Hle. split; [done|]. split; [done|].
  split; [by eapply good_acquired|]. destruct Haq as [_ Hs Hlv _]. constructor; try done.
  intros. by eapply lookup_dead.
Qed.

Lemma good_export k0 base n k tid handle rights :
  good k0 base (n + 1) k -> 0 <= n -> live k HTask tid ->
  exists c k', task_export_cap tid handle rights k = Some (c, k') /\
    match c with
    | None => k' = k
    | Some (type, o) => entitled k type tid handle rights o /\ good k0 (bump type o 1 base) n k' /\
        quiet k k'
    end.
Proof.
  intros Hg Hn Ht. pose proof (iw_caps _ _ (gd_wf _ _ _ _ Hg)) as Hc.
  destruct (export_ok _ k tid handle rights Hc) as (c & k' & He & Hcase); try done;
    [by eapply good_below1|].
  exists c, k'. split; [done|]. destruct c as [[type o]|]; [|done]. destruct Hcase as [Hent Haq].
  pose proof (export_le _ _ _ _ _ _ He) as Hle. split; [done|]. split; [by eapply good_acquired|].
  destruct Haq as [_ Hs Hlv _]. constructor; try done. intros. by eapply export_dead.
Qed.

Lemma rights_include_within have want : rights_include have want = true -> rights_within want have.
Proof.
  unfold rights_include, rights_within. intros H%Z.eqb_eq. rewrite <- H.
  apply Z.bits_inj'. intros i Hi. rewrite !Z.land_spec, Z.lnot_spec, Z.bits_0 by done.
  by destruct (Z.testbit have i), (Z.testbit want i).
Qed.

Lemma rights_within_lor a b c : rights_within (Z.lor a b) c -> rights_within a c.
Proof.
  unfold rights_within. intros H. apply Z.bits_inj'. intros i Hi.
  apply (f_equal (fun z => Z.testbit z i)) in H.
  rewrite !Z.land_spec, Z.lnot_spec, Z.lor_spec, Z.bits_0 in H by done.
  rewrite !Z.land_spec, Z.lnot_spec, Z.bits_0 by done.
  by destruct (Z.testbit a i), (Z.testbit b i), (Z.testbit c i).
Qed.

(** Using a handle gives no more than the handle. *)
Lemma entitled_auth k0 base n k type tid handle rights o :
  good k0 base n k -> entitled k type tid handle rights o -> auth_in k0 type o rights.
Proof.
  intros Hg (t & h & Ht & Hat & Hty & Hne & Ho & Hinc & _).
  assert (auth k type o (h_rights h)) as Hau.
  { left. exists tid, t, h. split; [done|]. split; [|done].
    apply list_elem_of_lookup. eauto using handle_at_Some. }
  eapply auth_in_within; [by eapply (gd_auth _ _ _ _ Hg)|by apply rights_include_within].
Qed.

Lemma entitled_live k0 base n k type tid handle rights o :
  good k0 base n k -> entitled k type tid handle rights o -> o <> 0.
Proof.
  intros Hg (t & h & Ht & Hat & Hty & Hne & Ho & _). subst o.
  pose proof (iw_caps _ _ (gd_wf _ _ _ _ Hg)) as Hc.
  eapply (caps_wf_nonnull _ _ (h_type h)); [exact Hc|]. eapply (cw_handle _ _ Hc); [exact Ht| |congruence].
  apply list_elem_of_lookup. eauto using handle_at_Some.
Qed.

Lemma entitled_quiet k k' type tid handle rights o :
  quiet k k' -> entitled k' type tid handle rights o -> entitled k type tid handle rights o.
Proof.
  intros Hq (t' & h & Ht' & Hat & Hrest). pose proof (qt_tables _ _ Hq tid) as Hs. rewrite Ht' in Hs.
  destruct (tasks k !! tid) as [t|] eqn:Ht; [|done]. injection Hs as Hh _. exists t, h.
  split; [done|]. split; [unfold handle_at in *; unfold handle_capacity in *; by rewrite <- Hh|].
  by rewrite <- (qt_dead _ _ Hq).
Qed.

(** The call ran into the error path of [user_message_to_ipc] that keeps the
    reference [task_export_cap] took. *)
Definition leaks (um : user_ipc_message) : Prop := u_cap um <> 0 /\ u_cap_rights um = 0.

Lemma to_ipc_reply k0 base n k cur um :
  good k0 base (n + 1) k -> 0 <= n -> live k HTask cur ->
  exists reply k', task_port_from_handle cur (u_reply um) TASK_RIGHT_SEND k = Some (reply, k') /\
    good k0 (fun type o => base type o + reply_points type o reply) n k' /\ quiet k k' /\
    (reply <> 0 -> auth_in k0 HPort reply TASK_RIGHT_SEND).
Proof.
  intros Hg Hn Ht.
  destruct (good_lookup k0 base n k HPort cur (u_reply um) TASK_RIGHT_SEND) as (o & k' & Hl & Hc);
    try done. exists o, k'. split; [exact Hl|].
  destruct Hc as [[-> ->]|(Ho & He & Hg' & Hq)].
  - split; [|split; [apply quiet_refl|done]].
    eapply good_ext; [|eapply good_weaken; [exact Hg|lia]]. intros. unfold reply_points. cbv beta.
    rewrite bool_decide_eq_false_2; [lia|]. by intros (_ & <- & ?).
  - split; [|split; [done|intros _; by apply (entitled_auth _ _ _ _ _ _ _ _ _ Hg He)]].
    eapply good_ext; [|exact Hg']. intros. unfold bump, reply_points.
    repeat case_bool_decide; naive_solver lia.
Qed.

(** A message without a capability. *)
Lemma msg_from_reply k0 m :
  m_cap_type m = HEmpty -> (m_reply_port m <> 0 -> auth_in k0 HPort (m_reply_port m) TASK_RIGHT_SEND) ->
  msg_from k0 m.
Proof. intros He Hr type o r [(-> & Hne & _)|(-> & -> & Hnz & ->)]; [congruence|auto]. Qed.

Lemma msg_refs_plain m type o :
  m_cap_type m = HEmpty -> msg_refs m type o = reply_points type o (m_reply_port m).
Proof.
  intros He. unfold msg_refs. rewrite He, bool_decide_eq_false_2; [lia|]. by intros (<- & _ & ?).
Qed.

Lemma user_message_to_ipc_ok k0 base n k cur um :
  good k0 base (n + 2) k -> 0 <= n -> live k HTask cur ->
  exists rc m k', user_message_to_ipc cur um k = Some (rc, m, k') /\ quiet k k' /\
    (good k0 (plus base (msg_refs m)) n k' /\ msg_from k0 m /\
       dead_task k' (m_cap_type m) (m_cap_object m) = false \/
     rc = -1 /\ leaks um /\ m_cap_type m = HEmpty /\
       exists type o, entitled k type cur (u_cap um) TASK_RIGHT_DUP o /\
         good k0 (bump type o 1 (plus base (msg_refs m))) n k').
Proof.
  intros Hg Hn Ht. unfold user_message_to_ipc. replace (n + 2) with (n + 1 + 1) in Hg by lia.
  destruct (to_ipc_reply k0 base (n + 1) k cur um) as (reply & k1 & -> & Hg1 & Hq1 & Hr); [done|lia|done|].
  cbn [mbind option_bind].
  assert (forall words, good k0 (plus base (msg_refs (mk_msg (u_protocol um) (u_type um) 0
    (u_cap_rights um) reply HEmpty 0 words))) (n + 1) k1) as Hplain.
  { intros words. eapply good_ext; [|exact Hg1]. intros. unfold plus. by rewrite msg_refs_plain. }
  assert (forall rc words, exists rc' m k', Some (rc, mk_msg (u_protocol um) (u_type um) 0
    (u_cap_rights um) reply HEmpty 0 words, k1) = Some (rc', m, k') /\ quiet k k' /\
    (good k0 (plus base (msg_refs m)) n k' /\ msg_from k0 m /\
       dead_task k' (m_cap_type m) (m_cap_object m) = false \/
     rc' = -1 /\ leaks um /\ m_cap_type m = HEmpty /\
       exists type o, entitled k type cur (u_cap um) TASK_RIGHT_DUP o /\
         good k0 (bump type o 1 (plus base (msg_refs m))) n k')) as Hend.
  { intros rc words. eexists _, _, k1. split; [done|]. split; [done|]. left.
    split; [eapply good_weaken; [apply Hplain|lia]|]. split; [by apply msg_from_reply|done]. }
  destruct ((u_cap um =? 0) && negb (u_cap_rights um =? 0)); [apply Hend|].
  destruct (negb (u_cap um =? 0)) eqn:Hcap; [|apply Hend].
  destruct (negb (Z.land (u_cap_rights um) (Z.lnot valid_rights) =? 0)); [apply Hend|].
  destruct (good_export k0 _ n k1 cur (u_cap um) (Z.lor (u_cap_rights um) TASK_RIGHT_DUP)
    (Hplain (m_words no_message))) as (c & k2 & -> & Hc); [done|by apply (qt_live _ _ Hq1)|].
  cbn [mbind option_bind]. destruct c as [[type o]|]; [|subst k2; apply Hend].
  destruct Hc as (He & Hg2 & Hq2). pose proof (entitled_live _ _ _ _ _ _ _ _ _ Hg1 He) as Hnz.
  destruct (u_cap_rights um =? 0) eqn:Hz; bool_facts.
  - eexists _, _, k2. split; [done|]. split; [by eapply quiet_trans|]. right. split; [done|].
    split; [done|]. split; [done|]. exists type, o. split; [|done].
    apply (entitled_quiet k k1); [done|]. by rewrite Hz in He.
  - eexists _, _, k2. split; [done|]. split; [by eapply quiet_trans|]. left. split; [|split].
    + eapply good_ext; [|exact Hg2]. intros ty ob. pose proof He as (_ & _ & _ & _ & _ & Hne & _).
      unfold bump, plus. rewrite msg_refs_plain by done. unfold msg_refs. simpl.
      destruct (decide (ty = type /\ ob = o)) as [[-> ->]|Hd].
      * rewrite !bool_decide_eq_true_2 by done. lia.
      * rewrite (bool_decide_eq_false_2 (ty = type /\ ob = o)) by done.
        rewrite (bool_decide_eq_false_2 (type = ty /\ _)); [lia|]. intros (<- & <- & _); by apply Hd.
    + pose proof (entitled_auth _ _ _ _ _ _ _ _ _ Hg1 He) as Hau.
      intros ty ob r [(-> & _ & -> & ->)|(-> & -> & Hrz & ->)]; simpl in *; [|auto].
      eapply auth_in_within; [exact Hau|]. eapply rights_within_lor, rights_within_refl.
    + simpl. rewrite (qt_dead _ _ Hq2). by destruct He as (? & ? & _ & _ & _ & _ & _ & _ & ?).
Qed.

(** *** The system calls *)

Lemma good_init base n k : ipc_wf base k -> refs_below n k -> good k base n k.
Proof.
  intros Hwf Hb. constructor; [done|done|apply auth_in_self|done].
Qed.

(** The common end of the calls: drop the message, then the port. *)
Lemma good_finish k0 base n k port m :
  good k0 (bump HPort port 1 (plus base (msg_refs m))) n k -> 0 <= n ->
  (forall type o, 0 <= base type o) ->
  exists k1 k2, ipc_message_release m k = Some k1 /\ ipc_port_release port k1 = Some k2 /\
    good k0 base n k2.
Proof.
  intros Hg Hn Hb.
  destruct (good_msg_release k0 _ n k m Hg) as (k1 & Hr1 & _ & Hg1); [done|..].
  { intros type o. unfold bump, plus. specialize (Hb type o). case_bool_decide; lia. }
  destruct (good_port_release k0 _ n k1 port Hg1) as (k2 & Hr2 & Hg2); [done|..].
  { unfold minus, bump, plus. rewrite bool_decide_eq_true_2 by done. specialize (Hb HPort port). lia. }
  exists k1, k2. split; [done|]. split; [done|]. eapply good_ext; [|exact Hg2]. intros type o.
  unfold bump, minus, plus. case_bool_decide; lia.
Qed.

Lemma bump_plus type o d b h type' o' :
  plus (bump type o d b) h type' o' = bump type o d (plus b h) type' o'.
Proof. unfold bump, plus. case_bool_decide; lia. Qed.

Lemma sys_ipc_send_ok base k cpu cur handoff handle arg :
  ipc_wf base k -> refs_below 8 k -> live k HTask cur -> queue_room k ->
  exists r k', native_sys_ipc_send cpu cur handoff handle arg k = Some (r, k') /\
    (good k base 0 k' \/
     r = -1 /\ exists um, arg = Some um /\ leaks um /\
       exists type o, entitled k type cur (u_cap um) TASK_RIGHT_DUP o /\
         good k (bump type o 1 base) 0 k').
Proof.
  intros Hwf Hb Ht Hroom. pose proof (good_init base 8 k Hwf Hb) as Hg. unfold native_sys_ipc_send.
  pose proof (iw_base _ _ Hwf) as Hb0.
  destruct (good_lookup k base 7 k HPort cur handle TASK_RIGHT_SEND) as (port & k1 & Hl & Hc); try done.
  simpl in Hl. rewrite Hl. cbn [mbind option_bind]. clear Hl.
  destruct Hc as [[-> ->]|(Hnz & He & Hg1 & Hq1)].
  { destruct arg; eexists (-1), k; (split; [done|left; eapply good_weaken; [exact Hg|lia]]). }
  destruct arg as [um|].
  2: { destruct (good_port_release k _ 7 k1 port Hg1) as (k2 & -> & Hg2); [lia|rewrite bump_eq; specialize (Hb0 HPort port); lia|].
       eexists (-1), k2. split; [done|]. left. eapply good_ext; [|eapply good_weaken; [exact Hg2|lia]].
       intros. rewrite bump_bump. apply bump_0. }
  decide_tests.
  destruct (user_message_to_ipc_ok k _ 5 k1 cur um Hg1) as (rc & m & k2 & -> & Hq2 & Hc);
    [lia|by apply (qt_live _ _ Hq1)|]. cbn [mbind option_bind].
  destruct Hc as [(Hg2 & Hf & Hd)|(-> & Hlk & _ & type & o & Hent & Hg2)].
  - destruct (rc =? 0) eqn:Hrc; cbv beta iota; simpl negb; cbv iota.
    + destruct (ipc_send_ok k _ 1 k2 cpu cur handoff port m Hg2) as (result & k3 & -> & Hg3); try done.
      { unfold plus. rewrite bump_eq. specialize (Hb0 HPort port). pose proof (msg_refs_nonneg m HPort port). lia. }
      { intros ty ob. unfold plus, bump. specialize (Hb0 ty ob). case_bool_decide; lia. }
      { eapply queue_room_le; [exact Hroom|]. eapply ipc_le_trans; [apply Hq1|apply Hq2]. }
      cbn [mbind option_bind].
      destruct (good_finish k base 1 k3 port m) as (k4 & k5 & -> & Hr5 & Hg5); [|lia|done|].
      { eapply good_ext; [|exact Hg3]. intros. apply bump_plus. }
      cbn [mbind option_bind]. rewrite Hr5. eexists _, k5. split; [done|]. left.
      eapply good_weaken; [exact Hg5|lia].
    + destruct (good_finish k base 5 k2 port m) as (k4 & k5 & -> & Hr5 & Hg5); [|lia|done|].
      { eapply good_ext; [|exact Hg2]. intros. apply bump_plus. }
      cbn [mbind option_bind]. rewrite Hr5. eexists _, k5. split; [done|]. left.
      eapply good_weaken; [exact Hg5|lia].
  - simpl negb. cbv iota.
    destruct (good_finish k (bump type o 1 base) 5 k2 port m) as (k4 & k5 & -> & Hr5 & Hg5); [|lia|..].
    { eapply good_ext; [|exact Hg2]. intros. unfold bump, plus. repeat case_bool_decide; lia. }
    { intros ty ob. unfold bump. specialize (Hb0 ty ob). case_bool_decide; lia. }
    cbn [mbind option_bind]. rewrite Hr5. eexists _, k5. split; [done|]. right. split; [done|].
    exists um. split; [done|]. split; [done|]. exists type, o.
    split; [by apply (entitled_quiet k k1)|]. eapply good_weaken; [exact Hg5|lia].
Qed.

Lemma to_user_ok k0 base n k cur m :
  good k0 base (n + 2) k -> 0 <= n -> live k HTask cur -> msg_from k0 m ->
  (forall type o, msg_refs m type o <= base type o) ->
  exists um k', ipc_message_to_user cur m k = Some (um, k') /\ good k0 base n k'.
Proof.
  intros Hg Hn Ht Hf Hm. unfold ipc_message_to_user. replace (n + 2) with (n + 1 + 1) in Hg by lia.
  assert (exists g k1, task_grant_port cur (m_reply_port m) TASK_RIGHT_SEND k = Some (g, k1) /\
    good k0 base (n + 1) k1 /\ live k1 HTask cur) as (g & k1 & -> & Hg1 & Ht1).
  { destruct (decide (m_reply_port m = 0)) as [Hr0|Hr0].
    - exists 0, k. unfold task_grant_port. rewrite Hr0. split; [done|]. split; [|done].
      eapply good_weaken; [exact Hg|lia].
    - destruct (good_grant k0 base (n + 1) k cur HPort (m_reply_port m) TASK_RIGHT_SEND)
        as (g & k1 & Hgr & Hg1 & Hl1); try done; [lia|..].
      + eapply good_live; [exact Hg|]. pose proof (msg_refs_reply m Hr0).
        specialize (Hm HPort (m_reply_port m)). lia.
      + apply Hf. right. done.
      + exists g, k1. split; [exact Hgr|]. split; [done|]. by apply Hl1. }
  cbn [mbind option_bind].
  assert (exists g2 k2, match m_cap_type m with
    | HPort => task_grant_port cur (m_cap_object m) (m_cap_rights m) k1
    | HBuffer => task_grant_buffer cur (m_cap_object m) (m_cap_rights m) k1
    | HTask => task_grant_task cur (m_cap_object m) (m_cap_rights m) k1
    | HHw => task_grant_hw_resource cur (m_cap_object m) (m_cap_rights m) k1
    | HPolicy => task_grant_sched_policy cur (m_cap_object m) (m_cap_rights m) k1
    | HEmpty => Some (0, k1)
    end = Some (g2, k2) /\ good k0 base n k2) as (g2 & k2 & -> & Hg2).
  { destruct (decide (m_cap_type m = HEmpty)) as [He|Hne].
    - rewrite He. exists 0, k1. split; [done|]. eapply good_weaken; [exact Hg1|lia].
    - destruct (good_grant k0 base n k1 cur (m_cap_type m) (m_cap_object m) (m_cap_rights m))
        as (g2 & k2 & Hgr & Hg2 & _); try done.
      + eapply good_live; [exact Hg1|]. pose proof (msg_refs_cap m Hne).
        specialize (Hm (m_cap_type m) (m_cap_object m)). lia.
      + apply Hf. left. done.
      + exists g2, k2. split; [|done]. rewrite <- Hgr. by destruct (m_cap_type m). }
  cbn [mbind option_bind]. eauto.
Qed.

Lemma recv_finish_ok k0 base n k cur port m writable :
  good k0 (bump HPort port 1 (plus base (msg_refs m))) (n + 2) k -> 0 <= n ->
  (forall type o, 0 <= base type o) -> live k HTask cur -> msg_from k0 m ->
  exists r um k', recv_finish cur port m writable k = Some (r, um, k') /\ good k0 base n k'.
Proof.
  intros Hg Hn Hb Ht Hf. unfold recv_finish.
  destruct (to_user_ok k0 _ n k cur m Hg) as (um & k1 & -> & Hg1); try done.
  { intros type o. unfold bump, plus. specialize (Hb type o). case_bool_decide; lia. }
  cbn [mbind option_bind].
  destruct (good_finish k0 base n k1 port m Hg1) as (k2 & k3 & -> & Hr3 & Hg3); try done.
  cbn [mbind option_bind]. rewrite Hr3. cbn [mbind option_bind]. destruct writable; eauto 10.
Qed.

Lemma ipc_change_task k k' tid : ipc_change k k' -> live k HTask tid -> live k' HTask tid.
Proof. intros Hc. by rewrite (ipc_change_live k k'). Qed.

Lemma sys_ipc_try_recv_ok base k cpu cur handle arg_null writable :
  ipc_wf base k -> refs_below 3 k -> live k HTask cur -> queue_room k ->
  exists r um k', native_sys_ipc_try_recv cpu cur handle arg_null writable k = Some (r, um, k') /\
    good k base 0 k'.
Proof.
  intros Hwf Hb Ht Hroom. pose proof (good_init base 3 k Hwf Hb) as Hg. unfold native_sys_ipc_try_recv.
  pose proof (iw_base _ _ Hwf) as Hb0.
  destruct (good_lookup k base 2 k HPort cur handle TASK_RIGHT_RECV) as (port & k1 & Hl & Hc); try done.
  simpl in Hl. rewrite Hl. cbn [mbind option_bind]. clear Hl.
  destruct Hc as [[-> ->]|(Hnz & He & Hg1 & Hq1)].
  { eexists (-1), None, k. split; [done|eapply good_weaken; [exact Hg|lia]]. }
  assert (forall k', good k (bump HPort port 1 base) 2 k' -> exists k'', ipc_port_release port k' = Some k'' /\
    good k base 0 k'') as Hdrop.
  { intros k' Hg'. destruct (good_port_release k _ 2 k' port Hg') as (k'' & Hr & Hg'');
      [lia|rewrite bump_eq; specialize (Hb0 HPort port); lia|].
    exists k''. split; [done|]. eapply good_ext; [|eapply good_weaken; [exact Hg''|lia]].
    intros. rewrite bump_bump. apply bump_0. }
  decide_tests. simpl orb. destruct arg_null.
  { destruct (Hdrop k1 Hg1) as (k2 & -> & Hg2). by eexists (-1), None, k2. }
  destruct (good_live k _ _ k1 HPort port Hg1) as [p Hp].
  { rewrite bump_eq. specialize (Hb0 HPort port). lia. }
  unfold ipc_try_recv. decide_tests. rewrite Hp. cbn [mbind option_bind].
  destruct (good_affinity k _ 2 k1 port p cpu Hg1 Hp) as [Hg2 Hch2].
  destruct (p_queue p) as [|m q] eqn:Hq.
  { cbn [mbind option_bind]. destruct (Hdrop _ Hg2) as (k2 & -> & Hg3). by eexists 1, None, k2. }
  destruct (good_pop k _ 2 (put_port port (set_affinity cpu p) k1) port (set_affinity cpu p) m q Hg2)
    as (k3 & -> & Hg3 & Hch3 & Hf); [by simpl; rewrite lookup_insert_eq|done| |].
  { pose proof (queue_room_le k k1 Hroom (qt_ipc _ _ Hq1) port p Hp). simpl. lia. }
  cbn [mbind option_bind].
  destruct (recv_finish_ok k base 0 k3 cur port m writable) as (r & um & k4 & -> & Hg4); try done; eauto.
  - eapply good_ext; [|exact Hg3]. intros. apply bump_plus.
  - apply (ipc_change_task (put_port port (set_affinity cpu p) k1)); [done|].
    apply (ipc_change_task k1); [done|]. by apply (qt_live _ _ Hq1).
Qed.

(** *** Blocking *)

Definition registered (k : kernel) (th port : Z) : Prop :=
  exists p, ports k !! port = Some p /\ receiver p <> 0 /\ receiver_wait p = th.

(** The thread [th] sleeps in [ipc_recv] on [port]. *)
Record recv_sleeps (k : kernel) (th port : Z) (w : ipc_wait) : Prop := {
  rs_wait : waits k !! th = Some w;
  rs_message : w_delivered w = true -> is_Some (w_message w);
  rs_only : forall o, registered k th o -> o = port /\ w_delivered w = false;
  rs_idle : forall p, ports k !! port = Some p -> p_queue p <> [] -> receiver p = 0;
}.

Lemma flight_new_wait k th w type o :
  waits k !! th = None -> delivered w = None ->
  flight (set_waits (<[th := w]> (waits k)) k) type o = flight k type o.
Proof.
  intros Hn Hd. unfold flight. simpl. rewrite msum_insert by done. unfold wait_refs at 1. rewrite Hd. lia.
Qed.

Lemma good_new_wait k0 base n k th :
  good k0 base n k -> waits k !! th = None ->
  good k0 base n (set_waits (<[th := new_wait]> (waits k)) k).
Proof.
  intros Hg Hn. apply (good_change k0 base base n k); [done|by constructor|..|apply Hg].
  - apply ports_ok_waits; [apply Hg|]. intros th' [x Hx].
    destruct (decide (th' = th)) as [->|]; [rewrite lookup_insert_eq|rewrite lookup_insert_ne]; eauto.
  - intros m [Hd|]%inflight_put_wait; [done|by left].
  - intros. by rewrite flight_new_wait.
Qed.

Lemma good_end_wait k0 base n k th w :
  good k0 base n k -> waits k !! th = Some w -> (forall o, ~ registered k th o) ->
  good k0 (fun type o => base type o + wait_refs type o w) n (end_wait th k) /\
  ipc_change k (end_wait th k).
Proof.
  intros Hg Hw Hnr. split; [|by constructor].
  apply (good_change k0 base _ n k); [done|by constructor|..].
  - destruct (iw_ports _ _ (gd_wf _ _ _ _ Hg)) as [Hq Hwt]. constructor; [done|]. simpl.
    intros o p Hp Hr. rewrite lookup_delete_ne; [eauto|]. intros ->. by apply (Hnr o); exists p.
  - intros m [Hm|(th' & w' & Hw' & Hd)]; left; [by left|right]. simpl in Hw'.
    apply lookup_delete_Some in Hw' as [_ Hw']. eauto.
  - intros type o. unfold flight. simpl. rewrite (msum_delete _ (waits k) th w) by done. lia.
  - intros type o. pose proof (iw_base _ _ (gd_wf _ _ _ _ Hg) type o).
    pose proof (wait_refs_nonneg type o w). lia.
Qed.

Lemma recv_turn_ok k0 base n k th port w is_killing :
  good k0 base n k -> th <> 0 -> waits k !! th = Some w -> delivered w = None ->
  live k HPort port -> queue_fits k ->
  exists r k', recv_turn th port is_killing k = Some (r, k') /\ ipc_change k k' /\
    match r with
    | RGot i m => good k0 (plus base (msg_refs m)) n k' /\ msg_from k0 m /\ waits k' = waits k /\
        (exists p, ports k !! port = Some p /\ p_queue p <> []) /\
        (forall o, registered k' th o -> registered k th o)
    | RBlock => is_killing = false /\ good k0 base n k'
    | RExit => is_killing = true /\ good k0 base n k'
    | _ => False
    end.
Proof.
  intros Hg Hth Hw Hd [p Hp] Hroom. unfold recv_turn. rewrite Hp. cbn [mbind option_bind].
  destruct (p_queue p) as [|m q] eqn:Hq.
  - rewrite Hw. cbn [mbind option_bind].
    set (w' := mk_wait (w_message w) (w_index w) false).
    set (k1 := set_waits (<[th := w']> (waits k)) k).
    assert (good k0 base n k1) as Hg1.
    { apply (good_change k0 base base n k); [done|by constructor|..|apply Hg].
      - apply ports_ok_waits; [apply Hg|]. intros th' [x Hx].
        destruct (decide (th' = th)) as [->|]; [rewrite lookup_insert_eq|rewrite lookup_insert_ne]; eauto.
      - intros m [Hd'|]%inflight_put_wait; [done|by left].
      - intros. unfold k1. rewrite (flight_put_wait k th w) by done. unfold wait_refs. rewrite Hd. simpl. lia. }
    destruct is_killing.
    { eexists RExit, k1. split; [done|]. split; [by constructor|done]. }
    eexists RBlock, _. split; [done|].
    assert (ipc_change k1 (put_port port (set_receiver th th 0 p) k1)) as Hch
      by (by apply (ipc_change_put k1 port p)).
    split; [by eapply ipc_change_trans; [|exact Hch]; constructor|]. split; [done|].
    pose proof (iw_ports _ _ (gd_wf _ _ _ _ Hg1)) as Hok.
    apply (good_change k0 base base n k1); [done|done|..|apply Hg].
    + apply (ports_ok_put k1 port p); [done|done|exact (po_queued _ Hok port p Hp)|]. intros _.
      simpl. rewrite lookup_insert_eq. eauto.
    + intros m [Hm|Hm]%(inflight_put_port k1 port p); [|by left|done]. simpl in Hm. rewrite Hq in Hm.
      by apply elem_of_nil in Hm.
    + intros. by rewrite (flight_put_port k1 port p), Z.sub_simpl_r.
  - destruct (good_pop k0 base n k port p m q Hg Hp Hq) as (k1 & Hpop & Hg1 & Hch & Hf).
    { exact (Hroom port p Hp). }
    rewrite Hpop. cbn [mbind option_bind]. eexists (RGot 0 m), k1. split; [done|]. split; [done|].
    split; [done|]. split; [done|].
    unfold pop_message, message_free, ipc_message_release in Hpop. simpl in Hpop. injection Hpop as <-.
    split; [done|]. split; [exists p; by rewrite Hq|].
    intros o (p' & Hp' & Hr & Hwt). simpl in Hp'.
    apply lookup_insert_Some in Hp' as [[<- <-]|[_ Hp']]; [by exists p|by exists p'].
Qed.

(** What a receiving call leaves behind: nothing when it returns, its
    reference to the port when it sleeps (or its thread exits). *)
Definition recv_post (k0 : kernel) (base : holds) (port : Z) (out : sys_outcome) (k' : kernel) : Prop :=
  match out with
  | SysReturned _ _ => good k0 base 0 k'
  | _ => good k0 (bump HPort port 1 base) 0 k'
  end.

Lemma recv_got_ok k0 base base' k th w cur port m writable i :
  good k0 base' 2 k -> waits k !! th = Some w -> (forall o, ~ registered k th o) ->
  (forall type o, base' type o + wait_refs type o w =
     bump HPort port 1 (plus base (msg_refs m)) type o) ->
  (forall type o, 0 <= base type o) -> live k HTask cur -> msg_from k0 m ->
  exists out k', recv_outcome_finish cur th port writable (RGot i m) k = Some (out, k') /\
    recv_post k0 base port out k'.
Proof.
  intros Hg Hw Hnr Heq Hb Ht Hf. unfold recv_outcome_finish.
  destruct (good_end_wait k0 base' 2 k th w Hg Hw Hnr) as [Hg1 Hch].
  destruct (recv_finish_ok k0 base 0 (end_wait th k) cur port m writable) as (r & um & k' & -> & Hg');
    try done.
  { by eapply good_ext; [|exact Hg1]. }
  cbn [mbind option_bind]. by eexists _, k'.
Qed.

Lemma recv_enter_ok k0 base n k cpu th port is_killing :
  good k0 base n k -> th <> 0 -> waits k !! th = None -> port <> 0 -> live k HPort port ->
  queue_fits k ->
  exists r k', ipc_recv_enter cpu th port is_killing k = Some (r, k') /\ ipc_change k k' /\
    match r with
    | RGot i m => good k0 (plus base (msg_refs m)) n k' /\ msg_from k0 m /\
        waits k' !! th = Some new_wait /\ (forall o, ~ registered k' th o)
    | RBlock => is_killing = false /\ good k0 base n k'
    | RExit => is_killing = true /\ good k0 base n k'
    | _ => False
    end.
Proof.
  intros Hg Hth Hnw Hnz [p Hp] Hroom. pose proof (good_new_wait k0 base n k th Hg Hnw) as Hg2.
  set (k2 := set_waits (<[th := new_wait]> (waits k)) k) in *.
  destruct (good_affinity k0 base n k2 port p cpu Hg2 Hp) as [Hg3 Hch3].
  unfold ipc_recv_enter. decide_tests. fold k2.
  change (ports k2 !! port) with (ports k !! port). rewrite Hp. cbn [mbind option_bind].
  set (k3 := put_port port (set_affinity cpu p) k2) in *.
  assert (ipc_change k k3) as Hch by (apply (ipc_change_trans k k2); [by constructor|done]).
  assert (queue_fits k3) as Hroom3.
  { intros o q. simpl. intros [[<- <-]|[_ Hq]]%lookup_insert_Some; [exact (Hroom port p Hp)|eauto]. }
  assert (forall o, ~ registered k3 th o) as Hnr3.
  { intros o (q & Hq & Hr & Hwt). simpl in Hq. pose proof (iw_ports _ _ (gd_wf _ _ _ _ Hg)) as Hok.
    assert (exists q0, ports k !! o = Some q0 /\ receiver q0 <> 0 /\ receiver_wait q0 = th) as (q0 & Hq0 & Hr0 & Hw0).
    { apply lookup_insert_Some in Hq as [[<- <-]|[_ Hq]]; [by exists p|by exists q]. }
    destruct (po_wait _ Hok o q0 Hq0 Hr0) as [x Hx]. congruence. }
  destruct (recv_turn_ok k0 base n k3 th port new_wait is_killing Hg3) as (r & k4 & -> & Hch4 & Hpost); try done.
  { simpl. by rewrite lookup_insert_eq. }
  { eexists. simpl. by rewrite lookup_insert_eq. }
  exists r, k4. split; [done|]. split; [by eapply ipc_change_trans|].
  destruct r as [i m| | | |]; try done. destruct Hpost as (Hg4 & Hf & Hw4 & _ & Hreg).
  split; [done|]. split; [done|]. split; [rewrite Hw4; simpl; by rewrite lookup_insert_eq|].
  intros o Ho. by eapply Hnr3, Hreg.
Qed.

Lemma recv_got_returns cur th port writable i m k out k' :
  recv_outcome_finish cur th port writable (RGot i m) k = Some (out, k') -> out <> SysExited.
Proof.
  unfold recv_outcome_finish. intros Hfin ->. by destruct (recv_finish _ _ _ _ _) as [[[? ?] ?]|].
Qed.

(** From the receive to the end of the call; the call holds [port], which need
    not be the one it receives from. *)
Lemma recv_enter_finish_ok k0 base k cpu cur th port from writable is_killing :
  good k0 (bump HPort port 1 base) 2 k -> (forall type o, 0 <= base type o) ->
  th <> 0 -> waits k !! th = None -> from <> 0 ->
  live k HPort from -> queue_fits k -> live k HTask cur ->
  exists out k', ('(r, k) ← ipc_recv_enter cpu th from is_killing k;
    recv_outcome_finish cur th port writable r k) = Some (out, k') /\
    recv_post k0 base port out k' /\ (out = SysExited -> is_killing = true).
Proof.
  intros Hg Hb0 Hth Hnw Hnz Hl Hroom Ht.
  destruct (recv_enter_ok k0 _ 2 k cpu th from is_killing Hg) as (r & k4 & -> & Hch & Hpost); try done.
  cbn [mbind option_bind]. destruct r as [i m| | | |]; try done.
  - destruct Hpost as (Hg4 & Hf & Hw4 & Hnr).
    destruct (recv_got_ok k0 base _ k4 th new_wait cur port m writable i Hg4) as (out & k5 & Hfin & Hp5); try done.
    + intros type o. rewrite <- bump_plus. unfold wait_refs. simpl. lia.
    + by apply (ipc_change_task k).
    + exists out, k5. rewrite Hfin. split; [done|]. split; [done|]. intros ->.
      by apply recv_got_returns in Hfin.
  - destruct Hpost as [-> Hg4]. eexists SysBlocked, k4. split; [done|]. split; [|done].
    simpl. eapply good_weaken; [exact Hg4|lia].
  - destruct Hpost as [-> Hg4]. eexists SysExited, k4. split; [done|]. split; [|done].
    simpl. eapply good_weaken; [exact Hg4|lia].
Qed.

Lemma sys_ipc_recv_ok base k cpu cur th handle arg_null writable is_killing :
  ipc_wf base k -> refs_below 3 k -> live k HTask cur -> queue_room k -> th <> 0 ->
  waits k !! th = None ->
  exists port out k',
    native_sys_ipc_recv cpu cur th handle arg_null writable is_killing k = Some (out, k') /\
    recv_post k base port out k' /\ (out = SysExited -> is_killing = true).
Proof.
  intros Hwf Hb Ht Hroom Hth Hnw. pose proof (good_init base 3 k Hwf Hb) as Hg. unfold native_sys_ipc_recv.
  pose proof (iw_base _ _ Hwf) as Hb0.
  destruct (good_lookup k base 2 k HPort cur handle TASK_RIGHT_RECV) as (port & k1 & Hl & Hc); try done.
  simpl in Hl. rewrite Hl. cbn [mbind option_bind]. clear Hl.
  destruct Hc as [[-> ->]|(Hnz & He & Hg1 & Hq1)].
  { exists 0. eexists (SysReturned (-1) None), k. split; [done|]. split; [|done].
    eapply good_weaken; [exact Hg|lia]. }
  exists port. decide_tests. simpl orb. destruct arg_null.
  { destruct (good_port_release k _ 2 k1 port Hg1) as (k2 & -> & Hg2);
      [lia|rewrite bump_eq; specialize (Hb0 HPort port); lia|].
    eexists (SysReturned (-1) None), k2. split; [done|]. split; [|done].
    eapply good_ext; [|eapply good_weaken; [exact Hg2|lia]]. intros. rewrite bump_bump. apply bump_0. }
  apply (recv_enter_finish_ok k base k1); try done.
  - by rewrite (il_waits _ _ (qt_ipc _ _ Hq1)).
  - eapply good_live; [exact Hg1|]. rewrite bump_eq. specialize (Hb0 HPort port). lia.
  - apply queue_room_fits. by eapply queue_room_le; [|apply Hq1].
  - by apply (qt_live _ _ Hq1).
Qed.

(** The same for a thread that slept. *)
Lemma recv_resume_finish_ok k0 base k cur th port from w writable is_killing :
  good k0 (bump HPort port 1 base) 2 k -> (forall type o, 0 <= base type o) ->
  live k HTask cur -> live k HPort from -> queue_fits k -> th <> 0 -> recv_sleeps k th from w ->
  exists out k', ('(r, k) ← ipc_recv_resume th from is_killing k;
    recv_outcome_finish cur th port writable r k) = Some (out, k') /\
    recv_post k0 base port out k' /\ (out = SysExited -> is_killing = true).
Proof.
  intros Hg Hb0 Ht Hl Hroom Hth [Hw Hmsg Honly Hidle].
  unfold ipc_recv_resume. rewrite Hw. cbn [mbind option_bind].
  destruct (w_delivered w) eqn:Hd.
  - destruct (Hmsg eq_refl) as [m Hm]. rewrite Hm. cbn [mbind option_bind].
    assert (delivered w = Some m) as Hdm by (unfold delivered; by rewrite Hd).
    destruct (recv_got_ok k0 base _ k th w cur port m writable 0 Hg) as (out & k5 & Hfin & Hp5); try done.
    + intros o Ho. by destruct (Honly o Ho).
    + intros type o. rewrite <- bump_plus. unfold wait_refs. by rewrite Hdm.
    + eapply good_inflight; [exact Hg|]. right. eauto.
    + exists out, k5. rewrite Hfin. split; [done|]. split; [done|]. intros ->.
      by apply recv_got_returns in Hfin.
  - assert (delivered w = None) as Hdn by (unfold delivered; by rewrite Hd).
    destruct (recv_turn_ok k0 _ 2 k th from w is_killing Hg Hth Hw Hdn) as (r & k4 & -> & Hch4 & Hpost); try done.
    cbn [mbind option_bind]. destruct r as [i m| | | |]; try done.
    + destruct Hpost as (Hg4 & Hf & Hw4 & (p & Hp & Hq) & Hreg).
      destruct (recv_got_ok k0 base _ k4 th w cur port m writable i Hg4) as (out & k5 & Hfin & Hp5); try done.
      * by rewrite Hw4.
      * intros o Ho. apply Hreg in Ho. destruct (Honly o Ho) as [-> _]. destruct Ho as (p' & Hp' & Hr & _).
        rewrite Hp in Hp'. injection Hp' as <-. by apply Hr, Hidle.
      * intros type o. rewrite <- bump_plus. unfold wait_refs. rewrite Hdn. lia.
      * by apply (ipc_change_task k).
      * exists out, k5. rewrite Hfin. split; [done|]. split; [done|]. intros ->.
        by apply recv_got_returns in Hfin.
    + destruct Hpost as [-> Hg4]. eexists SysBlocked, k4. split; [done|]. split; [|done].
      simpl. eapply good_weaken; [exact Hg4|lia].
    + destruct Hpost as [-> Hg4]. eexists SysExited, k4. split; [done|]. split; [|done].
      simpl. eapply good_weaken; [exact Hg4|lia].
Qed.

Lemma sys_ipc_recv_resume_ok base k cur th port w writable is_killing :
  ipc_wf (bump HPort port 1 base) k -> (forall type o, 0 <= base type o) -> refs_below 2 k ->
  live k HTask cur -> queue_room k -> th <> 0 -> port <> 0 ->
  recv_sleeps k th port w ->
  exists out k', native_sys_ipc_recv_resume cur th port writable is_killing k = Some (out, k') /\
    recv_post k base port out k' /\ (out = SysExited -> is_killing = true).
Proof.
  intros Hwf Hb0 Hb Ht Hroom Hth Hpz Hs. pose proof (good_init _ 2 k Hwf Hb) as Hg.
  apply (recv_resume_finish_ok k base k cur th port port w); try done; [|by apply queue_room_fits].
  eapply good_live; [exact Hg|]. rewrite bump_eq. specialize (Hb0 HPort port). lia.
Qed.

(** *** Creating ports *)

(** Ids are given out in order, and names lead to ports. *)
Record names_ok (k : kernel) : Prop := {
  no_ids : forall o, is_Some (ports k !! o) -> o < next_port_id k;
  no_next : 0 < next_port_id k;
  no_names : forall name o, ports_by_name k !! name = Some o -> is_Some (ports k !! o);
}.

Lemma unreferenced held k type o :
  caps_wf held k -> ~ live k type o -> table_refs k type o = 0 /\ held type o = 0.
Proof.
  intros Hwf Hl. pose proof (table_refs_nonneg k type o). pose proof (cw_held _ _ Hwf type o).
  split.
  - destruct (decide (table_refs k type o = 0)) as [|Hne]; [done|]. exfalso. apply Hl.
    destruct (msum_pos (task_points type o) (tasks k)) as (tid & t & Ht & Hp).
    { unfold table_refs in *. lia. }
    unfold task_points in Hp. destruct (decide (0 < lsum (points type o) (handles t))) as [Hpos|Hnp].
    + apply lsum_pos in Hpos as (h & Hh & Hph). unfold points in Hph. case_bool_decide as Hc; [|lia].
      destruct Hc as (<- & <- & Hne'). by eapply (cw_handle _ _ Hwf).
    + unfold reply_points in Hp. case_bool_decide as Hc; [|lia]. destruct Hc as (-> & <- & Hnz).
      by eapply (cw_reply _ _ Hwf).
  - destruct (decide (held type o = 0)) as [|Hne]; [done|]. exfalso. apply Hl.
    apply (cw_held_live _ _ Hwf). lia.
Qed.

Definition new_port (name : string) (im : bool) : ipc_port := mk_port name 0 im [] 0 0 0 0 None.

Lemma fresh_port_caps held k o name im :
  caps_wf held k -> ports k !! o = None -> o <> 0 -> caps_wf held (put_port o (new_port name im) k).
Proof.
  intros Hwf Hn Hnz.
  assert (forall type ob, live k type ob -> live (put_port o (new_port name im) k) type ob) as Hlive.
  { intros [] ob; simpl; try done. destruct (decide (ob = o)) as [->|];
      [rewrite lookup_insert_eq; eauto|by rewrite lookup_insert_ne]. }
  constructor.
  - intros type Hl. apply (cw_null _ _ Hwf type). destruct type; simpl in *; try done.
    by rewrite lookup_insert_ne in Hl.
  - intros tid t h Ht Hh Hne. apply Hlive. by eapply (cw_handle _ _ Hwf).
  - intros tid t Ht Hne. apply (Hlive HPort). by eapply (cw_reply _ _ Hwf).
  - intros type ob r Htr Hr. change (table_refs (put_port o (new_port name im) k) type ob)
      with (table_refs k type ob).
    destruct (decide (type = HPort /\ ob = o)) as [[-> ->]|Hd].
    + simpl in Hr. rewrite lookup_insert_eq in Hr. simpl in Hr. injection Hr as <-.
      destruct (unreferenced held k HPort o Hwf) as [-> ->]; [|done].
      intros [p Hp]. simpl in Hp. congruence.
    + apply (cw_refs _ _ Hwf); [done|]. rewrite <- Hr. destruct type; try done. simpl.
      rewrite lookup_insert_ne; [done|]. naive_solver.
  - apply Hwf.
  - intros type ob Hp. by apply Hlive, (cw_held_live _ _ Hwf).
Qed.

Lemma fresh_port_ok base k o name im :
  ipc_wf base k -> ports k !! o = None -> o <> 0 -> ipc_wf base (put_port o (new_port name im) k).
Proof.
  intros [Hc Hb [Hq Hw]] Hn Hnz. constructor; [|done|].
  - eapply caps_wf_ext; [|by apply fresh_port_caps]. intros type ob. unfold plus, flight. simpl.
    rewrite msum_insert by done. unfold queue_refs at 2. simpl. lia.
  - constructor; intros o' p; simpl; intros [[<- <-]|[_ Hp]]%lookup_insert_Some; try done; eauto.
Qed.

(** Allocation, the id counter and the table of names are not references. *)
Lemma ipc_wf_frame base k k' :
  ipc_wf base k -> tasks k' = tasks k -> ports k' = ports k -> buffers k' = buffers k ->
  hws k' = hws k -> policies k' = policies k -> waits k' = waits k -> ipc_wf base k'.
Proof.
  intros [Hc Hb [Hq Hw]] Ht Hp Hbf Hh Hpo Hwt. constructor; [|done|].
  - eapply caps_wf_ext; [|apply (caps_wf_refs _ k k'); [done|..|exact Hc]].
    + intros. unfold plus, flight. by rewrite Hp, Hwt.
    + intros [] o; simpl; by rewrite ?Ht, ?Hp, ?Hbf, ?Hh, ?Hpo.
    + intros [] o; simpl; by rewrite ?Ht, ?Hp, ?Hbf, ?Hh, ?Hpo.
  - constructor; rewrite Hp; [done|]. by rewrite Hwt.
Qed.

Lemma port_alloc_ok base k name reuse :
  ipc_wf base k -> names_ok k ->
  let '(o, k') := ipc_port_alloc name reuse k in
  ipc_wf base k' /\ names_ok k' /\
  (o <> 0 -> live k' HPort o /\ (reuse = true -> ports_by_name k' !! name = Some o) /\
     (reuse = false -> ports k !! o = None)) /\
  (forall o', is_Some (ports k !! o') -> ports k' !! o' = ports k !! o').
Proof.
  intros Hwf Hno. unfold ipc_port_alloc, kalloc.
  destruct (if reuse then ports_by_name k !! name else None) as [o|] eqn:Hex.
  { destruct reuse; [|done]. split; [done|]. split; [done|]. split; [|done]. intros Hnz.
    split; [by eapply (no_names _ Hno)|]. done. }
  assert (forall k1, tasks k1 = tasks k -> ports k1 = ports k -> ports_by_name k1 = ports_by_name k ->
    buffers k1 = buffers k -> hws k1 = hws k -> policies k1 = policies k -> waits k1 = waits k ->
    next_port_id k <= next_port_id k1 -> ipc_wf base k1 /\ names_ok k1) as Hframe.
  { intros k1 Ht Hp Hn Hbf Hh Hpo Hw Hid. split; [by apply (ipc_wf_frame base k)|].
    destruct Hno as [H1 H2 H3]. constructor; rewrite ?Hp, ?Hn; [|lia|done].
    intros o Ho. specialize (H1 o Ho). lia. }
  destruct (kheap k) as [|avail rest]; simpl negb.
  { by destruct (Hframe k) as [? ?]. }
  destruct (sizeof_ipc_port <=? avail); simpl negb; cbv iota.
  2: { by destruct (Hframe (set_heap rest k)) as [? ?]. }
  simpl next_port_id.
  destruct (Hframe (bump_port_id (set_heap rest k))) as [Hwf1 Hno1]; try done; [simpl; lia|].
  set (k1 := bump_port_id (set_heap rest k)) in *. set (id := next_port_id k) in *.
  assert (ports k !! id = None) as Hfresh.
  { destruct (ports k !! id) eqn:Hid; [|done]. pose proof (no_ids _ Hno id ltac:(by eexists)). unfold id in *. lia. }
  assert (0 < id) as Hpos by exact (no_next _ Hno).
  change (ports k1 !! id) with (ports k !! id). rewrite Hfresh.
  rewrite bool_decide_eq_false_2 by (by intros [? ?]). fold (new_port name reuse).
  pose proof (fresh_port_ok base k1 id name reuse Hwf1 Hfresh ltac:(lia)) as Hwf2.
  assert (names_ok (put_port id (new_port name reuse) k1)) as Hno2.
  { destruct Hno1 as [H1 H2 H3]. constructor; [|done|].
    - intros o [p Hp]. simpl in Hp. apply lookup_insert_Some in Hp as [[<- _]|[_ Hp]]; [simpl; lia|].
      apply H1. by eexists.
    - intros nm o Hnm. simpl in *. destruct (decide (o = id)) as [->|]; [rewrite lookup_insert_eq; eauto|].
      rewrite lookup_insert_ne by done. by eapply H3. }
  set (k2 := put_port id (new_port name reuse) k1) in *.
  assert (forall o', is_Some (ports k !! o') -> ports k2 !! o' = ports k !! o') as Hkeep.
  { intros o' [p Hp]. simpl. rewrite lookup_insert_ne; [done|]. congruence. }
  destruct reuse.
  - split; [by apply (ipc_wf_frame base k2)|]. split; [|split; [|exact Hkeep]].
    + destruct Hno2 as [H1 H2 H3]. constructor; [done|done|]. intros nm o. simpl.
      intros [[<- <-]|[_ Hnm]]%lookup_insert_Some; [rewrite lookup_insert_eq; eauto|by apply (H3 nm)].
    + intros _. split; [eexists; simpl; by rewrite lookup_insert_eq|]. split; [|done]. intros _. simpl.
      by rewrite lookup_insert_eq.
  - split; [done|]. split; [done|]. split; [|exact Hkeep]. intros _.
    split; [eexists; simpl; by rewrite lookup_insert_eq|]. done.
Qed.

(** ** The kernel of the demonstration *)

Lemma demo_flight type o : flight demo_kernel type o = 0.
Proof.
  unfold flight, demo_kernel. simpl.
  change ({[10 := mk_port "svc" 1 false [] 0 0 0 0 None]} : gmap Z ipc_port)
    with (<[10 := mk_port "svc" 1 false [] 0 0 0 0 None]> (∅ : gmap Z ipc_port)).
  rewrite msum_insert by done. by rewrite !msum_empty.
Qed.

Lemma demo_ports o p : ports demo_kernel !! o = Some p ->
  o = 10 /\ p = mk_port "svc" 1 false [] 0 0 0 0 None.
Proof. simpl. intros [<- <-]%lookup_singleton_Some. done. Qed.

Lemma demo_ipc_wf : ipc_wf demo_held demo_kernel.
Proof.
  constructor.
  - eapply caps_wf_ext; [|apply demo_caps_wf]. intros. unfold plus. rewrite demo_flight. lia.
  - apply demo_caps_wf.
  - constructor; intros o p [-> ->]%demo_ports; done.
Qed.

Lemma demo_room : queue_room demo_kernel.
Proof. intros o p [-> ->]%demo_ports. done. Qed.

Lemma demo_live_1 : live demo_kernel HTask 1.
Proof. eexists. vm_compute. reflexivity. Qed.

Lemma demo_names : names_ok demo_kernel.
Proof.
  constructor; [|done|].
  - intros o [p [-> _]%demo_ports]. done.
  - intros name o. simpl. intros [_ <-]%lookup_singleton_Some. eexists. vm_compute. reflexivity.
Qed.

(** Task 1 sends its handle on port 10 to port 10. *)
Definition demo_um : user_ipc_message := mk_user_msg 1 2 0 1 0 1 [1; 2; 3; 4].
(** The same with no rights. *)
Definition demo_um_leak : user_ipc_message := mk_user_msg 1 2 0 0 0 1 [1; 2; 3; 4].

(** ** Claims *)

(** C15: An uninterrupted send system call never touches a freed object.  When
    it returns, every counter is exact, the references of the queued or
    delivered message counted, and the call holds nothing, unless the message
    names a capability with no rights.  Then the call fails, and what it took
    from the handle that names the capability is lost: one reference, which no
    table, message or running call accounts for. *)
Theorem ipc_send_sound base k cpu cur handoff handle arg :
  ipc_wf base k -> refs_below 8 k -> live k HTask cur -> queue_room k ->
  exists r k', native_sys_ipc_send cpu cur handoff handle arg k = Some (r, k') /\
    (ipc_wf base k' \/
     r = -1 /\ exists um, arg = Some um /\ u_cap um <> 0 /\ u_cap_rights um = 0 /\
       exists type o, entitled k type cur (u_cap um) TASK_RIGHT_DUP o /\
         ipc_wf (bump type o 1 base) k').
Proof.
  intros Hwf Hb Hl Hr.
  destruct (sys_ipc_send_ok base k cpu cur handoff handle arg) as (r & k' & Hs & Hc); try done.
  exists r, k'. split; [done|].
  destruct Hc as [[Hw _ _ _]|(-> & um & Harg & [Hc0 Hr0] & type & o & He & [Hw _ _ _])];
    [by left|right; eauto 15].
Qed.

Lemma ipc_send_sound_witness :
  exists r k', native_sys_ipc_send 0 1 1 1 (Some demo_um) demo_kernel = Some (r, k') /\
    (ipc_wf demo_held k' \/
     r = -1 /\ exists um, Some demo_um = Some um /\ u_cap um <> 0 /\ u_cap_rights um = 0 /\
       exists type o, entitled demo_kernel type 1 (u_cap um) TASK_RIGHT_DUP o /\
         ipc_wf (bump type o 1 demo_held) k').
Proof.
  apply (ipc_send_sound demo_held demo_kernel 0 1 1 1 (Some demo_um));
    [apply demo_ipc_wf|by apply demo_below|apply demo_live_1|apply demo_room].
Defined.

(** C18: The receive system calls never touch a freed object; when they return
    (with or without a message) every counter is exact and the call holds
    nothing; when the thread sleeps it keeps its reference to the port, and it
    holds for the call that runs again after sleeping as well. *)
Theorem ipc_recv_sound base k cur handle arg_null writable is_killing cpu :
  ipc_wf base k -> refs_below 3 k -> live k HTask cur -> queue_room k ->
  (exists r um k', native_sys_ipc_try_recv cpu cur handle arg_null writable k = Some (r, um, k') /\
     ipc_wf base k') /\
  (forall th, th <> 0 -> waits k !! th = None ->
     exists port out k', native_sys_ipc_recv cpu cur th handle arg_null writable is_killing k = Some (out, k') /\
       ipc_wf (match out with SysReturned _ _ => base | _ => bump HPort port 1 base end) k') /\
  (forall th port w base', th <> 0 -> port <> 0 -> recv_sleeps k th port w ->
     (forall type o, base type o = bump HPort port 1 base' type o) ->
     (forall type o, 0 <= base' type o) ->
     exists out k', native_sys_ipc_recv_resume cur th port writable is_killing k = Some (out, k') /\
       ipc_wf (match out with SysReturned _ _ => base' | _ => bump HPort port 1 base' end) k').
Proof.
  intros Hwf Hb Hl Hr. split; [|split].
  - destruct (sys_ipc_try_recv_ok base k cpu cur handle arg_null writable) as (r & um & k' & Hs & [Hw _ _ _]);
      try done. eauto.
  - intros th Hth Hn.
    destruct (sys_ipc_recv_ok base k cpu cur th handle arg_null writable is_killing)
      as (port & out & k' & Hs & Hp & _); try done.
    exists port, out, k'. split; [done|]. destruct out; apply Hp.
  - intros th port w base' Hth Hpz Hsl Heq Hb'.
    assert (ipc_wf (bump HPort port 1 base') k) as Hwf'.
    { destruct Hwf as [Hc Hb0 Hp]. constructor; [|intros; rewrite <- Heq; done|done].
      eapply caps_wf_ext; [|exact Hc]. intros. unfold plus. by rewrite Heq. }
    destruct (sys_ipc_recv_resume_ok base' k cur th port w writable is_killing Hwf')
      as (out & k' & Hs & Hp & _); try done; [by apply refs_below_weaken|].
    exists out, k'. split; [done|]. destruct out; apply Hp.
Qed.

Lemma ipc_recv_sound_witness :
  exists port out k', native_sys_ipc_recv 0 1 5 1 false true false demo_kernel = Some (out, k') /\
    ipc_wf (match out with SysReturned _ _ => demo_held | _ => bump HPort port 1 demo_held end) k'.
Proof.
  apply (ipc_recv_sound demo_held demo_kernel 1 1 false true false 0);
    [apply demo_ipc_wf|by apply demo_below|apply demo_live_1|apply demo_room|done|done].
Defined.

(** Creating a port: the result is null or a live port; a private port is
    new, a named port is the one its name leads to; no existing port is
    touched, and the counters stay exact. *)
Theorem ipc_port_create_correct base k name reuse :
  ipc_wf base k -> names_ok k ->
  let '(o, k') := ipc_port_alloc name reuse k in
  ipc_wf base k' /\ names_ok k' /\
  (o <> 0 -> live k' HPort o /\ (reuse = true -> ports_by_name k' !! name = Some o) /\
     (reuse = false -> ports k !! o = None)) /\
  (forall o', is_Some (ports k !! o') -> ports k' !! o' = ports k !! o').
Proof. apply port_alloc_ok. Qed.

Lemma ipc_port_create_correct_witness :
  let '(o, k') := ipc_port_alloc "disk" true demo_kernel in
  ipc_wf demo_held k' /\ names_ok k' /\
  (o <> 0 -> live k' HPort o /\ (true = true -> ports_by_name k' !! "disk"%string = Some o) /\
     (true = false -> ports demo_kernel !! o = None)) /\
  (forall o', is_Some (ports demo_kernel !! o') -> ports k' !! o' = ports demo_kernel !! o').
Proof. apply (ipc_port_create_correct demo_held demo_kernel "disk" true demo_ipc_wf demo_names). Defined.

(** The send system call leaks: naming a capability with no rights makes
    the call fail with the object's reference count raised, although no
    handle table, message or wait record refers to the object more often than
    before. *)
Theorem ipc_send_leaks_reference :
  exists k', native_sys_ipc_send 0 1 1 1 (Some demo_um_leak) demo_kernel = Some (-1, k') /\
    refs demo_kernel HPort 10 = Some 1 /\ refs k' HPort 10 = Some 2 /\
    (forall tid, task_tables <$> tasks k' !! tid = task_tables <$> tasks demo_kernel !! tid) /\
    queue_refs HPort 10 <$> ports k' !! 10 = Some 0 /\ waits k' = ∅.
Proof.
  eexists. split; [vm_compute; reflexivity|]. split; [done|]. split; [vm_compute; reflexivity|].
  split; [|split; [vm_compute; reflexivity|done]]. done.
Qed.

(** *** A message that carries a dead task *)

(** Task 1 has a handle on task 3; someone else holds a reference to task 3
    and was about to send it in a message when task 3 died. *)
Definition steal_t1 : task :=
  mk_task [mk_handle HPort 7 0 10; mk_handle HTask 5 0 3] 1 false false 1 None 0
    (mk_table [] 0 []) false.
Definition steal_t3 : task := mk_task [] 2 true true 0 None 0 (mk_table [] 0 []) false.
Definition steal_kernel : kernel :=
  mk_kernel {[1 := steal_t1; 3 := steal_t3]}
    {[10 := mk_port "svc" 2 false [] 0 0 0 0 None]} ∅ ∅ ∅ ∅ ∅ 11 [100000; 100000] [].
Definition steal_msg : ipc_message := mk_msg 1 2 0 5 0 HTask 3 [0; 0; 0; 0].
Definition steal_held : holds := fun type o =>
  match type with
  | HTask => if (o =? 1) || (o =? 3) then 1 else 0
  | HPort => if o =? 10 then 1 else 0
  | _ => 0
  end.

Lemma steal_tasks tid t : tasks steal_kernel !! tid = Some t ->
  tid = 1 /\ t = steal_t1 \/ tid = 3 /\ t = steal_t3.
Proof.
  unfold steal_kernel. simpl.
  intros [[<- <-]|[_ [<- <-]%lookup_singleton_Some]]%lookup_insert_Some; auto.
Qed.

Lemma steal_refs type o r : refs steal_kernel type o = Some r ->
  (type, o, r) ∈ [(HTask, 1, 1); (HTask, 3, 2); (HPort, 10, 2)].
Proof.
  destruct type; simpl; try done.
  - intros (p & Hp & ->)%fmap_Some. apply lookup_singleton_Some in Hp as [<- <-]. set_solver.
  - intros (t & [[-> ->]|[-> ->]]%steal_tasks & ->)%fmap_Some; set_solver.
Qed.

Lemma steal_caps_wf : caps_wf steal_held steal_kernel.
Proof.
  constructor.
  - intros [] Hl; simpl in Hl; try done; destruct Hl as [x Hx]; vm_compute in Hx; discriminate.
  - intros tid t h [[-> ->]|[-> ->]]%steal_tasks Hin Hne; simpl in Hin;
      repeat (apply elem_of_cons in Hin as [->|Hin]; [done || (eexists; vm_compute; reflexivity)|]);
      by apply elem_of_nil in Hin.
  - intros tid t [[-> ->]|[-> ->]]%steal_tasks; done.
  - intros type o r _ Hin%steal_refs.
    repeat (apply elem_of_cons in Hin as [[= -> -> ->]|Hin]; [vm_compute; reflexivity|]).
    by apply elem_of_nil in Hin.
  - intros [] o; simpl; repeat case_if; lia.
  - intros [] o; simpl; try lia.
    + case_if; try lia; subst; intros _; eexists; vm_compute; reflexivity.
    + destruct (o =? 1) eqn:H1, (o =? 3) eqn:H2; bool_facts; subst; simpl; try lia; intros _;
        eexists; vm_compute; reflexivity.
Qed.

(** A message that carries a task steals a reference when the task is dead
    by the time of the send: [ipc_message_retain] does not retain a dead task,
    [ipc_message_release] releases it all the same.  From a state with exact
    counters, one send (and the release of the sender's own reference) frees
    the task while another task's handle still names it, and using that handle
    touches the freed task. *)
Theorem ipc_dead_task_message_steals :
  caps_wf steal_held steal_kernel /\
  exists k1 k2, ipc_send 0 1 1 10 steal_msg steal_kernel = Some (0, k1) /\
    ipc_message_release steal_msg k1 = Some k2 /\
    has k2 1 HTask 3 5 /\ tasks k2 !! 3 = None /\ task_from_handle 1 2 TASK_RIGHT_SEND k2 = None.
Proof.
  split; [apply steal_caps_wf|]. eexists _, _. split; [vm_compute; reflexivity|].
  split; [vm_compute; reflexivity|]. split; [|split; vm_compute; reflexivity].
  eexists _, (mk_handle HTask 5 0 3). split; [vm_compute; reflexivity|]. split; [right; left|done].
Qed.
