(* ===== verification/IpcCalls.v ===== *)
(** * Calls, receiving from several ports, and runs of system calls
    (arch/x86_64/user.c, [task_reply_port] of kernel/sched.c)

    [native_sys_ipc_call] sends a request that carries the right to send to the
    caller's reply port, a private port the kernel makes for a task on its
    first call, and waits there.  [native_sys_ipc_recv_any] waits on up to four
    ports.  A call that has to sleep ends in [SysBlocked]; the definition
    with the suffix [_resume] is the rest of it, once the thread runs again.

    A run is any sequence of handle operations and system calls of any tasks.
    The second half of the file shows what authority a run can make. *)
From stdpp Require Import gmap list sorting strings.
From Stdlib Require Import ZArith Lia.
From S2P Require Import Prelude VmRegion Handles Ipc.

Open Scope Z_scope.
Open Scope machine_scope.

(** ** Definitions *)

Definition task_reply_port (tid : Z) (k : kernel) : option (Z * kernel) :=
  if tid =? 0 then Some (0, k) else
  t ← tasks k !! tid;
  if negb (reply_port t =? 0) then Some (reply_port t, k) else
  let '(port, k) := ipc_port_create_private "reply" k in
  let k := put_task tid (with_reply_port port t) k in
  k ← ipc_port_retain port k;
  Some (port, k).


Definition native_sys_ipc_call (cpu cur th handoff handle : Z) (arg : option user_ipc_message)
    (out_null writable is_killing : bool) (k : kernel) : option (sys_outcome * kernel) :=
  '(port, k) ← task_port_from_handle cur handle TASK_RIGHT_SEND k;
  '(reply_port, k) ← task_reply_port cur k;
  match arg with
  | Some um =>
      if out_null || (port =? 0) || (reply_port =? 0) then
        k ← ipc_port_release port k; Some (SysReturned (-1) None, k)
      else
      '(rc, m, k) ← user_message_to_ipc cur um k;
      if negb (rc =? 0) then
        k ← ipc_message_release m k; k ← ipc_port_release port k;
        Some (SysReturned (-1) None, k)
      else
      k ← ipc_port_release (m_reply_port m) k;
      let m := with_reply reply_port m in
      k ← ipc_port_retain reply_port k;
      '(result, k) ← ipc_send cpu cur handoff port m k;
      k ← ipc_message_release m k;
      if negb (result =? 0) then
        k ← ipc_port_release port k; Some (SysReturned (-1) None, k)
      else
      '(r, k) ← ipc_recv_enter cpu th reply_port is_killing k;
      recv_outcome_finish cur th port writable r k
  | None => k ← ipc_port_release port k; Some (SysReturned (-1) None, k)
  end.


Fixpoint release_ports (ps : list Z) (k : kernel) : option kernel :=
  match ps with
  | [] => Some k
  | p :: ps => k ← ipc_port_release p k; release_ports ps k
  end.

(** The loop that looks the handles up; [found] are the ports so far. *)
Fixpoint any_lookup (cur : Z) (found hs : list Z) (k : kernel)
    : option (option (list Z) * kernel) :=
  match hs with
  | [] => Some (Some found, k)
  | h :: hs =>
      '(port, k) ← task_port_from_handle cur h TASK_RIGHT_RECV k;
      if port =? 0 then k ← release_ports found k; Some (None, k)
      else any_lookup cur (found ++ [port]) hs k
  end.

(** [writable]: both the message and the index can be written. *)
Definition any_outcome_finish (cur th : Z) (ps : list Z) (writable : bool) (r : recv_outcome)
    (k : kernel) : option (sys_outcome * kernel) :=
  match r with
  | RGot _ m =>
      '(um, k) ← ipc_message_to_user cur m (end_wait th k);
      k ← ipc_message_release m k;
      k ← release_ports ps k;
      Some (if writable then SysReturned 0 (Some um) else SysReturned (-1) None, k)
  | RBlock => Some (SysBlocked, k)
  | RExit => Some (SysExited, k)
  | _ => k ← release_ports ps k; Some (SysReturned (-1) None, k)
  end.

(** [hs] are the handles [read_current_user] gives, [None] when the pointer is
    null or cannot be read; [out_null]: one of the two results has no place. *)
Definition native_sys_ipc_recv_any (cpu cur th : Z) (hs : option (list Z))
    (out_null writable is_killing : bool) (k : kernel) : option (sys_outcome * kernel) :=
  match hs with
  | None => Some (SysReturned (-1) None, k)
  | Some hs =>
      if out_null || bool_decide (hs = []) || (IPC_RECV_ANY_MAX <? Z.of_nat (length hs)) then
        Some (SysReturned (-1) None, k)
      else
      '(ps, k) ← any_lookup cur [] hs k;
      match ps with
      | None => Some (SysReturned (-1) None, k)
      | Some ps =>
          '(r, k) ← ipc_recv_any_enter cpu th ps is_killing k;
          any_outcome_finish cur th ps writable r k
      end
  end.


(** ** Runs of system calls *)










(** ** What running calls hold *)




(** ** Tasks that have not ended stay *)

Definition alive (k : kernel) (tid reply : Z) : Prop :=
  exists t, tasks k !! tid = Some t /\ dead t = false /\ reply_port t = reply.

Lemma alive_tasks k k' tid reply : tasks k' = tasks k -> alive k tid reply -> alive k' tid reply.
Proof. intros Ht. unfold alive. by rewrite Ht. Qed.

Lemma alive_put k o t t' tid reply :
  tasks k !! o = Some t -> dead t' = dead t -> reply_port t' = reply_port t ->
  alive k tid reply -> alive (put_task o t' k) tid reply.
Proof.
  intros Ht Hd Hr (x & Hx & Hdx & Hrx). destruct (decide (tid = o)) as [->|Hne].
  - exists t'. simpl. rewrite lookup_insert_eq. simplify_eq. split; [done|]. split; congruence.
  - exists x. simpl. by rewrite lookup_insert_ne.
Qed.

Lemma port_retain_tasks o k k' : ipc_port_retain o k = Some k' -> tasks k' = tasks k.
Proof. unfold ipc_port_retain. intros Hr. frame_binds; done. Qed.

Lemma release_all_alive fuel hs k1 k2 tid reply :
  (forall type o k k', task_handle_release_fuel fuel type o k = Some k' -> alive k tid reply ->
     alive k' tid reply) ->
  foldl (fun ok h => k ← ok; task_handle_release_fuel fuel (h_type h) (h_object h) k)
    (Some k1) hs = Some k2 ->
  alive k1 tid reply -> alive k2 tid reply.
Proof.
  intros IH. revert k1. induction hs as [|h hs IHhs]; intros k1 Hf Ha.
  - by injection Hf as <-.
  - cbn [foldl mbind option_bind] in Hf.
    destruct (task_handle_release_fuel fuel (h_type h) (h_object h) k1) as [k|] eqn:Hr; [eauto|].
    exfalso. clear -Hf. induction hs as [|x hs IH]; [done|]. by apply IH.
Qed.

Lemma release_alive fuel type o k k' tid reply :
  task_handle_release_fuel fuel type o k = Some k' -> alive k tid reply -> alive k' tid reply.
Proof.
  revert type o k k'. induction fuel as [|fuel IH]; intros type o k k' Hr Ha; [done|].
  destruct type; cbn [task_handle_release_fuel] in Hr.
  - by injection Hr as <-.
  - by eapply alive_tasks; [eapply port_release_tasks|].
  - case_if; [by injection Hr as <-|].
    destruct (tasks k !! o) as [t|] eqn:Ht; [|done]. cbn [mbind option_bind] in Hr.
    set (t0 := if 0 <? t_ref t then with_ref (t_ref t - 1) t else t) in *.
    assert (dead t0 = dead t /\ reply_port t0 = reply_port t) as [Hd0 Hr0] by (unfold t0; by case_if).
    assert (alive (put_task o t0 k) tid reply) as Ha0 by (by eapply alive_put).
    revert Hr. destruct ((t_ref t0 =? 0) && dead t0) eqn:Hc; [|by intros [= <-]]. apply andb_true_iff in Hc as [_ Hdead].
    assert (tid <> o) as Hne.
    { intros ->. destruct Ha as (x & Hx & Hdx & _). simplify_eq. congruence. }
    pose proof (teardown_detach_spec o t0 (put_task o t0 k)) as Hd.
    destruct (teardown_detach o t0 _) as [[hs rp] k1].
    destruct Hd as (t' & Ht1 & _).
    assert (alive k1 tid reply) as Ha1.
    { destruct Ha0 as (x & Hx & ?). exists x. rewrite Ht1. by rewrite lookup_insert_ne. }
    match goal with |- context [foldl ?f (Some k1) hs] =>
      destruct (foldl f (Some k1) hs) as [k2|] eqn:Hf; [|done] end. simpl.
    destruct (ipc_port_release rp k2) as [k3|] eqn:H3; [|done]. simpl. intros [= <-].
    pose proof (release_all_alive fuel hs k1 k2 tid reply IH Hf Ha1) as Ha2.
    destruct Ha2 as (x & Hx & ?). exists x. rewrite <- (port_release_tasks _ _ _ H3) in Hx.
    destruct (owns_vm_space t0); simpl; by rewrite lookup_delete_ne.
  - unfold buffer_release in Hr. frame_binds; done.
  - unfold task_hw_resource_release in Hr. frame_binds; done.
  - unfold sched_policy_cap_release in Hr. frame_binds; done.
Qed.

Lemma quiet_alive k k' tid reply : quiet k k' -> alive k tid reply -> alive k' tid reply.
Proof.
  intros Hq (t & Ht & Hd & Hr). pose proof (qt_tables _ _ Hq tid) as Hs. rewrite Ht in Hs.
  destruct (tasks k' !! tid) as [t'|] eqn:Ht'; [|done]. injection Hs as _ Hr'. exists t'.
  split; [done|]. split; [|congruence].
  pose proof (qt_dead _ _ Hq HTask tid) as Hdd. simpl in Hdd. rewrite Ht, Ht' in Hdd. congruence.
Qed.

Lemma msg_release_alive m k k' tid reply :
  ipc_message_release m k = Some k' -> alive k tid reply -> alive k' tid reply.
Proof.
  unfold ipc_message_release. rewrite cap_release_eq. intros Hr Ha.
  destruct (task_handle_release _ _ k) as [k1|] eqn:H1; [|done]. cbn [mbind option_bind] in Hr.
  eapply alive_tasks; [by eapply port_release_tasks|]. by eapply release_alive.
Qed.

Lemma retain_alive type o k rc k' tid reply :
  task_handle_retain type o k = Some (rc, k') -> alive k tid reply -> alive k' tid reply.
Proof.
  destruct type; simpl; unfold buffer_retain, task_hw_resource_retain, sched_policy_cap_retain;
    intros Hr Ha; frame_binds; try done.
  - by eapply alive_tasks; [eapply port_retain_tasks|].
  - by eapply alive_put.
Qed.

Lemma msg_retain_alive m k k' tid reply :
  ipc_message_retain m k = Some k' -> alive k tid reply -> alive k' tid reply.
Proof.
  unfold ipc_message_retain. intros Hr Ha.
  destruct (ipc_port_retain (m_reply_port m) k) as [k1|] eqn:H1; [|done]. cbn [mbind option_bind] in Hr.
  assert (alive k1 tid reply) as Ha1 by (by eapply alive_tasks; [eapply port_retain_tasks|]).
  destruct (m_cap_type m); unfold task_retain, buffer_retain, task_hw_resource_retain,
    sched_policy_cap_retain in Hr; frame_binds; try done.
  - by eapply alive_tasks; [eapply port_retain_tasks|].
  - by eapply alive_put.
Qed.

Lemma send_alive cpu sender handoff port m k rc k' tid reply :
  ipc_send cpu sender handoff port m k = Some (rc, k') -> alive k tid reply -> alive k' tid reply.
Proof.
  unfold ipc_send. case_if; [by intros [= _ <-]|]. intros Hs Ha.
  destruct (send_direct cpu sender port m k) as [[rcv k1]|] eqn:Hd; [|done]. cbn [mbind option_bind] in Hs.
  assert (alive k1 tid reply) as Ha1.
  { clear Hs. unfold send_direct in Hd.
    destruct (ipc_message_retain (with_sender sender m) k) as [k2|] eqn:H2; [|done].
    pose proof (msg_retain_alive _ _ _ _ _ H2 Ha) as Ha2. cbn [mbind option_bind] in Hd.
    clear H2. frame_binds; by apply (alive_tasks k2). }
  clear Hd. case_if.
  - injection Hs as Hs. unfold send_handoff in Hs. case_if; injection Hs as _ <-; by apply (alive_tasks k1).
  - destruct (ipc_message_release (with_sender sender m) k1) as [k2|] eqn:H2; [|done].
    cbn [mbind option_bind] in Hs. pose proof (msg_release_alive _ _ _ _ _ H2 Ha1) as Ha2.
    clear H2. unfold send_enqueue in Hs. destruct (kalloc sizeof_ipc_message_node k2) as [b k3] eqn:Hk.
    assert (alive k3 tid reply) as Ha3.
    { apply (alive_tasks k2); [|done]. unfold kalloc in Hk. by destruct (kheap k2); injection Hk as _ <-. }
    clear Hk. case_if; [by injection Hs as _ <-|].
    destruct (ipc_message_retain (with_sender sender m) k3) as [k4|] eqn:H4; [|done].
    cbn [mbind option_bind] in Hs. pose proof (msg_retain_alive _ _ _ _ _ H4 Ha3) as Ha4.
    destruct (ports k4 !! port); [|done]. injection Hs as _ <-. repeat case_if; by apply (alive_tasks k4).
Qed.

(** ** New ports *)

Lemma good_frame k0 base n k k' :
  good k0 base n k -> tasks k' = tasks k -> ports k' = ports k -> buffers k' = buffers k ->
  hws k' = hws k -> policies k' = policies k -> waits k' = waits k ->
  next_port_id k <= next_port_id k' -> good k0 base n k'.
Proof.
  intros [Hw Hb Ha Hx] Ht Hp Hbf Hh Hpo Hwt Hn. constructor; [by apply (ipc_wf_frame base k)| | |lia].
  - intros type o r Hr. apply (Hb type o r). rewrite <- Hr.
    destruct type; simpl; by rewrite ?Ht, ?Hp, ?Hbf, ?Hh, ?Hpo.
  - intros type o r Hau. apply Ha. unfold auth, has, inflight, lends in *. by rewrite Ht, Hp, Hwt in Hau.
Qed.

Lemma good_fresh_port k0 base n k o name :
  good k0 base n k -> ports k !! o = None -> o <> 0 -> 0 <= n < 2 ^ 32 ->
  good k0 base n (put_port o (new_port name false) k).
Proof.
  intros [Hw Hb Ha Hx] Hn Hnz Hlt. constructor; [by apply fresh_port_ok| | |done].
  - intros type ob r Hr. destruct (decide (type = HPort /\ ob = o)) as [[-> ->]|Hd].
    + simpl in Hr. rewrite lookup_insert_eq in Hr. injection Hr as <-. lia.
    + apply (Hb type ob r). rewrite <- Hr. destruct type; try done. simpl.
      rewrite lookup_insert_ne; [done|]. naive_solver.
  - intros type ob r [Hh|[(m & Hm & Hau)|Hl]]; apply Ha; [by left|right; left|by right; right].
    exists m. split; [|done]. destruct Hm as [(o' & p & Hp & Hm)|Hm]; [left|by right].
    simpl in Hp. apply lookup_insert_Some in Hp as [[<- <-]|[_ Hp]]; [by apply elem_of_nil in Hm|eauto].
Qed.

Lemma private_port_ok k0 base n k name :
  good k0 base n k -> 0 < next_port_id k -> 0 <= n < 2 ^ 32 ->
  let '(o, k') := ipc_port_create_private name k in
  good k0 base n k' /\ tasks k' = tasks k /\ waits k' = waits k /\
  (o = 0 /\ ports k' = ports k \/
   o = next_port_id k /\ ports k !! o = None /\ ports k' = <[o := new_port name false]> (ports k)).
Proof.
  intros Hg Hpos Hn. unfold ipc_port_create_private, ipc_port_alloc, kalloc.
  destruct (kheap k) as [|avail rest]; simpl negb; cbv iota.
  { split; [done|]. split; [done|]. split; [done|by left]. }
  destruct (sizeof_ipc_port <=? avail); simpl negb; cbv iota.
  2: { split; [by apply (good_frame k0 base n k)|]. split; [done|]. split; [done|by left]. }
  assert (good k0 base n (bump_port_id (set_heap rest k))) as Hg1
    by (apply (good_frame k0 base n k); try done; simpl; lia).
  case_bool_decide as Hex.
  { split; [done|]. split; [done|]. split; [done|by left]. }
  simpl in Hex.
  assert (ports k !! next_port_id k = None) as Hfresh by (by apply eq_None_not_Some).
  split; [|split; [done|split; [done|right; done]]].
  apply (good_fresh_port k0 base n (bump_port_id (set_heap rest k))); try done. simpl. lia.
Qed.

Lemma reply_adopted held k tid t o :
  caps_wf (bump HPort o 1 held) k -> (forall type ob, 0 <= held type ob) ->
  tasks k !! tid = Some t -> reply_port t = 0 -> o <> 0 ->
  caps_wf held (put_task tid (with_reply_port o t) k).
Proof.
  intros Hwf Hh Ht Hr0 Hnz.
  assert (forall type ob, live (put_task tid (with_reply_port o t) k) type ob <-> live k type ob) as Hlive.
  { intros [] ob; try done. simpl. destruct (decide (ob = tid)) as [->|]; [|by rewrite lookup_insert_ne].
    rewrite lookup_insert_eq, Ht. by split; eexists. }
  assert (forall type ob, refs (put_task tid (with_reply_port o t) k) type ob = refs k type ob) as Hrefs.
  { intros [] ob; try done. simpl. destruct (decide (ob = tid)) as [->|]; [|by rewrite lookup_insert_ne].
    by rewrite lookup_insert_eq, Ht. }
  constructor; try setoid_rewrite Hlive; try done.
  - apply Hwf.
  - intros tid' t' h Ht' Hin Hne. simpl in Ht'.
    apply lookup_insert_Some in Ht' as [[<- <-]|[_ Ht']]; by eapply (cw_handle _ _ Hwf).
  - intros tid' t' Ht' Hne. simpl in Ht'.
    apply lookup_insert_Some in Ht' as [[<- <-]|[_ Ht']]; [|by eapply (cw_reply _ _ Hwf)].
    apply (cw_held_live _ _ Hwf HPort o). rewrite bump_eq. specialize (Hh HPort o). lia.
  - intros type ob r Htr Hr. rewrite Hrefs in Hr. rewrite (cw_refs _ _ Hwf type ob r Htr Hr).
    rewrite (table_refs_put k tid t) by done. unfold task_points, bump, reply_points. simpl.
    rewrite Hr0. repeat case_bool_decide; naive_solver lia.
  - intros type ob Hp. apply (cw_held_live _ _ Hwf). unfold bump. case_bool_decide; lia.
Qed.

Lemma good_adopt k0 base n k tid t o :
  good k0 (bump HPort o 1 base) n k -> (forall type ob, 0 <= base type ob) ->
  tasks k !! tid = Some t -> reply_port t = 0 -> o <> 0 -> auth_in k0 HPort o TASK_RIGHT_SEND ->
  good k0 base n (put_task tid (with_reply_port o t) k).
Proof.
  intros [[Hc _ Hp] Hbl Ha Hx] Hb Ht Hr0 Hnz Hau. constructor; [| | |done].
  - constructor; [|done|by destruct Hp; constructor].
    change (flight (put_task tid (with_reply_port o t) k)) with (flight k).
    apply (reply_adopted _ k); try done.
    + eapply caps_wf_ext; [|exact Hc]. intros. by rewrite bump_plus.
    + intros type ob. unfold plus. specialize (Hb type ob). pose proof (flight_nonneg k type ob). lia.
  - intros type ob r Hr. apply (Hbl type ob r). rewrite <- Hr. destruct type; try done. simpl.
    destruct (decide (ob = tid)) as [->|]; [|by rewrite lookup_insert_ne].
    by rewrite lookup_insert_eq, Ht.
  - intros type ob r [[tid' Hh]|[Hm|(-> & -> & Hz & tid' & t' & Ht' & <-)]].
    + apply Ha. left. exists tid'. destruct Hh as (t' & h & Ht' & Hin & Hrest). simpl in Ht'.
      apply lookup_insert_Some in Ht' as [[<- <-]|[_ Ht']]; [by exists t, h|by exists t', h].
    + apply Ha. right. by left.
    + simpl in Ht'. apply lookup_insert_Some in Ht' as [[<- <-]|[_ Ht']]; [done|].
      apply Ha. right. right. unfold lends. eauto 10.
Qed.

(** The kernel with a new reply port has the same messages. *)
Record reply_made (cur rp : Z) (k k' : kernel) : Prop := {
  rm_waits : waits k' = waits k;
  rm_room : queue_room k -> queue_room k';
  rm_reply : exists t', tasks k' !! cur = Some t' /\ reply_port t' = rp;
  rm_alive : forall t, tasks k !! cur = Some t -> dead t = false -> alive k' cur rp;
  rm_live : rp <> 0 -> live k' HPort rp;
}.

Lemma reply_port_new k0 base n k cur t :
  good k0 base (n + 1) k -> 0 <= n < 2 ^ 32 - 1 -> 0 < next_port_id k ->
  tasks k !! cur = Some t -> reply_port t = 0 ->
  exists rp k', (let '(port, k) := ipc_port_create_private "reply" k in
    let k := put_task cur (with_reply_port port t) k in
    k ← ipc_port_retain port k; Some (port, k)) = Some (rp, k') /\ good k0 base n k' /\
    reply_made cur rp k k' /\ (rp <> 0 -> auth_in k0 HPort rp TASK_RIGHT_SEND).
Proof.
  intros Hg Hn Hpos Ht Hr0.
  pose proof (private_port_ok k0 base (n + 1) k "reply" Hg Hpos ltac:(lia)) as Hpp.
  destruct (ipc_port_create_private "reply" k) as [o k1]. cbv beta iota zeta.
  destruct Hpp as (Hg1 & Htk & Hw & Hcase).
  assert (tasks k1 !! cur = Some t) as Ht1 by (by rewrite Htk).
  destruct Hcase as [[-> Hp]|(Ho & Hfresh & Hp)].
  - assert (put_task cur (with_reply_port 0 t) k1 = k1) as ->.
    { assert (with_reply_port 0 t = t) as -> by (rewrite <- Hr0; by destruct t).
      unfold put_task, set_tasks. rewrite insert_id by done. by destruct k1. }
    exists 0, k1. split; [done|]. split; [eapply good_weaken; [exact Hg1|lia]|]. split; [|done].
    constructor; [done| |by exists t| |done].
    + intros Hroom o p. rewrite Hp. apply Hroom.
    + intros t' Ht' Hd. rewrite Ht in Ht'. injection Ht' as <-. by exists t.
  - assert (o <> 0) as Hnz by lia.
    destruct (good_retain k0 base n k1 HPort o Hg1) as (k2 & Hr & Hg2 & Hq2); [lia| |done|].
    { eexists. rewrite Hp. apply lookup_insert_eq. }
    simpl in Hr. destruct (ipc_port_retain o k1) as [k2'|] eqn:Hrt; [|done]. simpl in Hr. injection Hr as ->.
    assert (ipc_port_retain o (put_task cur (with_reply_port o t) k1) =
      Some (put_task cur (with_reply_port o t) k2)) as ->.
    { revert Hrt. unfold ipc_port_retain. decide_tests. simpl ports.
      destruct (ports k1 !! o) as [p|]; [|done]. simpl. by intros [= <-]. }
    cbn [mbind option_bind]. eexists o, _. split; [done|].
    assert (tasks k2 !! cur = Some t) as Ht2 by (by rewrite (port_retain_tasks _ _ _ Hrt)).
    assert (auth_in k0 HPort o TASK_RIGHT_SEND) as Hau.
    { right. split; [done|]. pose proof (gd_next _ _ _ _ Hg). lia. }
    split; [apply good_adopt; try done; apply Hg|]. split; [|done].
    assert (forall o' p', ports k2 !! o' = Some p' ->
      p_queue p' = [] \/ exists p, ports k !! o' = Some p /\ p_queue p' = p_queue p) as Hqs.
    { intros o' p' Hp'. destruct (il_ports _ _ (qt_ipc _ _ Hq2) o') as [Hv|[Hno _]]; [|congruence].
      rewrite Hp', Hp in Hv. destruct (decide (o' = o)) as [->|].
      - rewrite lookup_insert_eq in Hv. injection Hv as Hv _ _ _. by left.
      - rewrite lookup_insert_ne in Hv by done. destruct (ports k !! o') as [p|]; [|done].
        injection Hv as Hv _ _ _. right. eauto. }
    constructor.
    + simpl. by rewrite (il_waits _ _ (qt_ipc _ _ Hq2)).
    + intros Hroom o' p' Hp'. destruct (Hqs o' p' Hp') as [->|(p & Hpk & ->)]; [done|by eapply Hroom].
    + exists (with_reply_port o t). split; [apply lookup_insert_eq|done].
    + intros t' Ht' Hd. rewrite Ht in Ht'. injection Ht' as <-. exists (with_reply_port o t).
      split; [apply lookup_insert_eq|done].
    + intros _. apply (qt_live _ _ Hq2 HPort o). eexists. rewrite Hp. apply lookup_insert_eq.
Qed.

Lemma reply_port_ok k0 base n k cur :
  good k0 base (n + 1) k -> 0 <= n < 2 ^ 32 - 1 -> 0 < next_port_id k -> live k HTask cur ->
  exists rp k', task_reply_port cur k = Some (rp, k') /\ good k0 base n k' /\
    reply_made cur rp k k' /\ (rp <> 0 -> auth_in k0 HPort rp TASK_RIGHT_SEND).
Proof.
  intros Hg Hn Hpos [t Ht]. pose proof (iw_caps _ _ (gd_wf _ _ _ _ Hg)) as Hc.
  assert (cur <> 0) by (apply (caps_wf_nonnull _ _ HTask _ Hc); by exists t).
  unfold task_reply_port. decide_tests. rewrite Ht. cbn [mbind option_bind].
  destruct (decide (reply_port t = 0)) as [Hr0|Hr0]; decide_tests; simpl negb; cbv iota.
  { by apply (reply_port_new k0 base n k cur t). }
  exists (reply_port t), k. split; [done|]. split; [eapply good_weaken; [exact Hg|lia]|]. split.
  - constructor; [done|done|by exists t|by intros t' Ht' Hd; rewrite Ht in Ht'; injection Ht' as <-; exists t|].
    intros _. by apply (cw_reply _ _ Hc cur t).
  - intros _. apply (gd_auth _ _ _ _ Hg). right. right. unfold lends. eauto 10.
Qed.


(** ** Calls *)

(** Threads that do not receive stay so, and queues grow by at most one. *)
Record ipc_grows (k k' : kernel) : Prop := {
  ig_waits : forall th, waits k !! th = None -> waits k' !! th = None;
  ig_queues : forall o p', ports k' !! o = Some p' -> exists p, ports k !! o = Some p /\
    (length (p_queue p') <= S (length (p_queue p)))%nat;
}.

Lemma ipc_le_queue k k' o p' :
  ipc_le k k' -> ports k' !! o = Some p' ->
  exists p, ports k !! o = Some p /\ p_queue p' = p_queue p /\ receiver_wait p' = receiver_wait p.
Proof.
  intros [_ Hp _] Hp'. destruct (Hp o) as [Hv|[Hn _]]; [|congruence]. rewrite Hp' in Hv.
  destruct (ports k !! o) as [p|]; [|done]. injection Hv as ? ? ? ?. eauto.
Qed.

Lemma ipc_le_grows k k' : ipc_le k k' -> ipc_grows k k'.
Proof.
  intros Hle. constructor.
  - intros th. by rewrite (il_waits _ _ Hle).
  - intros o p' Hp'. destruct (ipc_le_queue k k' o p' Hle Hp') as (p & Hp & -> & _). eauto.
Qed.

Lemma ipc_grows_before k1 k2 k3 : ipc_le k1 k2 -> ipc_grows k2 k3 -> ipc_grows k1 k3.
Proof.
  intros Hle [Hw Hq]. constructor.
  - intros th Hth. apply Hw. by rewrite (il_waits _ _ Hle).
  - intros o p3 Hp3. destruct (Hq o p3 Hp3) as (p2 & Hp2 & Hlen).
    destruct (ipc_le_queue k1 k2 o p2 Hle Hp2) as (p & Hp & Heq & _). exists p. by rewrite <- Heq.
Qed.

Lemma send_grows cpu sender handoff port m k rc k' :
  ipc_send cpu sender handoff port m k = Some (rc, k') -> ipc_grows k k'.
Proof.
  unfold ipc_send. case_if; [intros [= _ <-]; apply ipc_le_grows, ipc_le_refl|]. intros Hs.
  destruct (send_direct cpu sender port m k) as [[rcv k1]|] eqn:Hd; [|done]. cbn [mbind option_bind] in Hs.
  assert (rcv = 0 /\ ipc_le k k1 \/ rcv <> 0 /\ ipc_grows k k1) as Hc.
  { clear Hs. unfold send_direct in Hd.
    destruct (ipc_message_retain (with_sender sender m) k) as [k2|] eqn:H2; [|done].
    apply msg_retain_le in H2. cbn [mbind option_bind] in Hd. simpl in Hd.
    destruct (ports k2 !! port) as [p|] eqn:Hp; [|done]. cbn [mbind option_bind] in Hd.
    assert (ipc_le k (call (CCount CntSends cpu) k2)) as Hle
      by (eapply ipc_le_trans; [exact H2|by apply ipc_le_tasks]).
    destruct (negb (receiver p =? 0) && negb (receiver_wait p =? 0)) eqn:Hr;
      [|injection Hd as <- <-; by left]. bool_facts.
    destruct (waits k2 !! receiver_wait p) as [w|] eqn:Hw; [|done]. cbn [mbind option_bind] in Hd.
    case_if; [|injection Hd as <- <-; by left]. injection Hd as <- <-. right. split; [done|].
    eapply ipc_grows_before; [exact H2|]. constructor.
    - intros th Hth. simpl. rewrite lookup_insert_ne; [done|]. congruence.
    - intros o p' Hp'. simpl in Hp'. apply lookup_insert_Some in Hp' as [[<- <-]|[_ Hp']]; eauto. }
  clear Hd. destruct Hc as [[-> Hle]|[Hnz [Hw Hq]]];
    revert Hs; decide_tests; simpl negb; cbv iota; intros Hs.
  - destruct (ipc_message_release (with_sender sender m) k1) as [k2|] eqn:H2; [|done].
    cbn [mbind option_bind] in Hs. apply msg_release_le in H2.
    apply (ipc_grows_before k k2); [by eapply ipc_le_trans|]. clear H2 Hle.
    unfold send_enqueue in Hs. destruct (kalloc sizeof_ipc_message_node k2) as [b k3] eqn:Hk.
    assert (ipc_le k2 k3) as Hle.
    { unfold kalloc in Hk. destruct (kheap k2); injection Hk as _ <-; [apply ipc_le_refl|by apply ipc_le_tasks]. }
    apply (ipc_grows_before k2 k3); [done|]. clear Hk Hle.
    case_if; [injection Hs as _ <-; apply ipc_le_grows, ipc_le_refl|].
    destruct (ipc_message_retain (with_sender sender m) k3) as [k4|] eqn:H4; [|done].
    cbn [mbind option_bind] in Hs. apply msg_retain_le in H4.
    apply (ipc_grows_before k3 k4); [done|]. clear H4.
    destruct (ports k4 !! port) as [p|] eqn:Hp; [|done]. injection Hs as _ <-.
    assert (forall q, length (p_queue q) = S (length (p_queue p)) ->
      ipc_grows k4 (put_port port q k4)) as Hput.
    { intros q Hl. constructor; [done|]. intros o p' Hp'. simpl in Hp'.
      apply lookup_insert_Some in Hp' as [[<- <-]|[_ Hp']]; [|eauto]. exists p. split; [done|]. lia. }
    destruct (Hput (if negb (receiver p =? 0) then clear_receiver
      (set_queue (p_queue p ++ [with_sender sender m]) (u32 (queued p + 1)) p)
      else set_queue (p_queue p ++ [with_sender sender m]) (u32 (queued p + 1)) p)) as [Hw Hq].
    { case_if; simpl; rewrite length_app; simpl; lia. }
    case_if; by constructor.
  - injection Hs as Hs. unfold send_handoff in Hs. case_if; injection Hs as _ <-; by constructor.
Qed.

Lemma alive_reply_live k0 base n k cur rp :
  good k0 base n k -> alive k cur rp -> rp <> 0 -> live k HPort rp.
Proof.
  intros Hg (t & Ht & _ & <-) Hnz. by apply (cw_reply _ _ (iw_caps _ _ (gd_wf _ _ _ _ Hg)) cur t).
Qed.

Lemma alive_task k cur rp : alive k cur rp -> live k HTask cur.
Proof. intros (t & Ht & _). by exists t. Qed.

(** The caller's reply port takes the place of the one in the message. *)
Lemma reply_swap_ok k0 base n k cur rp m :
  good k0 (plus base (msg_refs m)) (n + 1) k -> 0 <= n -> (forall type o, 0 <= base type o) ->
  alive k cur rp -> rp <> 0 ->
  exists k1 k2, ipc_port_release (m_reply_port m) k = Some k1 /\ ipc_port_retain rp k1 = Some k2 /\
    good k0 (plus base (msg_refs (with_reply rp m))) n k2 /\ ipc_le k k2 /\ tasks k2 = tasks k.
Proof.
  intros Hg Hn Hb Ha Hnz.
  assert (exists k1, ipc_port_release (m_reply_port m) k = Some k1 /\
    good k0 (plus base (msg_refs (with_reply 0 m))) (n + 1) k1) as (k1 & Hr1 & Hg1).
  { destruct (decide (m_reply_port m = 0)) as [Hr0|Hr0].
    - rewrite Hr0. exists k. split; [done|]. eapply good_ext; [|exact Hg]. intros type o.
      unfold plus, msg_refs. by rewrite Hr0.
    - destruct (good_port_release k0 _ (n + 1) k (m_reply_port m) Hg) as (k1 & Hr & Hg1); [lia|..].
      { unfold plus. pose proof (msg_refs_reply m Hr0). specialize (Hb HPort (m_reply_port m)). lia. }
      exists k1. split; [done|]. eapply good_ext; [|exact Hg1]. intros type o.
      unfold bump, plus, msg_refs, reply_points. simpl. repeat case_bool_decide; naive_solver lia. }
  pose proof (port_release_tasks _ _ _ Hr1) as Ht1.
  destruct (good_retain k0 _ n k1 HPort rp Hg1) as (k2 & Hr2 & Hg2 & Hq2); [done| |done|].
  { eapply alive_reply_live; [exact Hg1|by eapply alive_tasks|done]. }
  simpl in Hr2. destruct (ipc_port_retain rp k1) as [k2'|] eqn:Hrt; [|done]. simpl in Hr2. injection Hr2 as ->.
  exists k1, k2. split; [done|]. split; [done|]. split; [|split].
  - eapply good_ext; [|exact Hg2]. intros type o. unfold bump, plus, msg_refs, reply_points. simpl.
    repeat case_bool_decide; naive_solver lia.
  - eapply ipc_le_trans; [by eapply port_release_le|apply Hq2].
  - by rewrite (port_retain_tasks _ _ _ Hrt).
Qed.

Lemma reply_msg_from k0 m rp :
  msg_from k0 m -> auth_in k0 HPort rp TASK_RIGHT_SEND -> msg_from k0 (with_reply rp m).
Proof.
  intros Hf Ha type o r [Hc|(-> & -> & _ & ->)]; [|done]. apply Hf. by left.
Qed.

Lemma call_tail_ok k0 base k cpu cur th handoff port rp m writable is_killing :
  good k0 (bump HPort port 1 (plus base (msg_refs m))) 8 k -> (forall type o, 0 <= base type o) ->
  msg_from k0 m -> dead_task k (m_cap_type m) (m_cap_object m) = false ->
  alive k cur rp -> rp <> 0 -> auth_in k0 HPort rp TASK_RIGHT_SEND -> port <> 0 ->
  queue_room k -> th <> 0 -> waits k !! th = None ->
  exists out k', (k ← ipc_port_release (m_reply_port m) k;
      let m := with_reply rp m in
      k ← ipc_port_retain rp k;
      '(result, k) ← ipc_send cpu cur handoff port m k;
      k ← ipc_message_release m k;
      if negb (result =? 0) then
        k ← ipc_port_release port k; Some (SysReturned (-1) None, k)
      else
      '(r, k) ← ipc_recv_enter cpu th rp is_killing k;
      recv_outcome_finish cur th port writable r k) = Some (out, k') /\
    recv_post k0 base port out k' /\ (out = SysExited -> is_killing = true).
Proof.
  intros Hg Hb Hf Hd Ha Hnz Hau Hpz Hroom Hth Hnw.
  assert (forall type o, 0 <= bump HPort port 1 base type o) as Hb1
    by (intros type o; specialize (Hb type o); unfold bump; case_bool_decide; lia).
  destruct (reply_swap_ok k0 (bump HPort port 1 base) 7 k cur rp m) as (k1 & k2 & -> & Hr2 & Hg2 & Hle & Ht2);
    try done.
  { eapply good_ext; [|exact Hg]. intros. by rewrite bump_plus. }
  cbn [mbind option_bind]. rewrite Hr2. cbn [mbind option_bind].
  set (m' := with_reply rp m) in *.
  destruct (ipc_send_ok k0 _ 3 k2 cpu cur handoff port m' Hg2) as (result & k3 & Hs & Hg3); try done.
  { unfold plus. rewrite bump_eq. specialize (Hb HPort port). pose proof (msg_refs_nonneg m' HPort port). lia. }
  { intros type o. unfold plus. specialize (Hb1 type o). lia. }
  { rewrite <- Hd. unfold dead_task, m'. simpl. by rewrite Ht2. }
  { by apply reply_msg_from. }
  { by eapply queue_room_le. }
  rewrite Hs. cbn [mbind option_bind].
  destruct (good_msg_release k0 _ 3 k3 m' Hg3) as (k4 & Hr4 & _ & Hg4); [lia|..].
  { intros type o. unfold plus. specialize (Hb1 type o). lia. }
  rewrite Hr4. cbn [mbind option_bind].
  assert (good k0 (bump HPort port 1 base) 2 k4) as Hg5.
  { eapply good_ext; [|eapply good_weaken; [exact Hg4|lia]]. intros. unfold minus, plus. lia. }
  assert (alive k4 cur rp) as Ha4.
  { eapply msg_release_alive; [exact Hr4|]. eapply send_alive; [exact Hs|]. by apply (alive_tasks k). }
  case_if.
  - destruct (good_port_release k0 _ 2 k4 port Hg5) as (k5 & -> & Hg6);
      [lia|rewrite bump_eq; specialize (Hb HPort port); lia|].
    eexists (SysReturned (-1) None), k5. split; [done|]. split; [|done].
    eapply good_ext; [|eapply good_weaken; [exact Hg6|lia]]. intros. rewrite bump_bump. apply bump_0.
  - pose proof (ipc_grows_before k k2 k3 Hle (send_grows _ _ _ _ _ _ _ _ Hs)) as [Hw Hq].
    pose proof (msg_release_le _ _ _ Hr4) as Hle4.
    apply (recv_enter_finish_ok k0 base k4); try done.
    + rewrite (il_waits _ _ Hle4). by apply Hw.
    + by eapply alive_reply_live.
    + intros o p Hp. destruct (ipc_le_queue k3 k4 o p Hle4 Hp) as (p3 & Hp3 & -> & _).
      destruct (Hq o p3 Hp3) as (p0 & Hp0 & Hlen). specialize (Hroom o p0 Hp0). lia.
    + by eapply alive_task.
Qed.

Lemma sys_ipc_call_ok base k cpu cur th handoff handle arg out_null writable is_killing t :
  ipc_wf base k -> refs_below 12 k -> 0 < next_port_id k -> tasks k !! cur = Some t -> dead t = false ->
  queue_room k -> th <> 0 -> waits k !! th = None ->
  exists out k', native_sys_ipc_call cpu cur th handoff handle arg out_null writable is_killing k =
      Some (out, k') /\ (out = SysExited -> is_killing = true) /\
    ((exists port, recv_post k base port out k') \/
     out = SysReturned (-1) None /\ (exists um, arg = Some um /\ leaks um) /\
       exists type o, good k (bump type o 1 base) 0 k').
Proof.
  intros Hwf Hb Hpos Ht Hdt Hroom Hth Hnw. pose proof (good_init base 12 k Hwf Hb) as Hg.
  unfold native_sys_ipc_call. pose proof (iw_base _ _ Hwf) as Hb0.
  assert (live k HTask cur) as Hlt by (by exists t).
  destruct (good_lookup k base 11 k HPort cur handle TASK_RIGHT_SEND) as (port & k1 & Hl & Hc); try done.
  simpl in Hl. rewrite Hl. cbn [mbind option_bind]. clear Hl.
  set (base1 := if port =? 0 then base else bump HPort port 1 base).
  assert (good k base1 11 k1 /\ quiet k k1) as [Hg1 Hq1].
  { unfold base1. destruct Hc as [[-> ->]|(Hnz & _ & Hg1 & Hq1)]; decide_tests; [|done].
    split; [eapply good_weaken; [exact Hg|lia]|apply quiet_refl]. }
  clear Hc.
  destruct (reply_port_ok k base1 10 k1 cur Hg1) as (rp & k2 & -> & Hg2 & [Hw2 Hroom2 _ Ha2 _] & Hau); [lia|..].
  { rewrite (proj1 (il_reply _ _ (qt_ipc _ _ Hq1))). done. }
  { by apply (qt_live _ _ Hq1 HTask). }
  cbn [mbind option_bind].
  assert (exists out k', (k ← ipc_port_release port k2; Some (SysReturned (-1) None, k)) = Some (out, k') /\
    (out = SysExited -> is_killing = true) /\ ((exists port, recv_post k base port out k') \/
     out = SysReturned (-1) None /\ (exists um, arg = Some um /\ leaks um) /\
       exists type o, good k (bump type o 1 base) 0 k')) as Hdrop.
  { unfold base1 in Hg2. destruct (decide (port = 0)) as [->|Hnz].
    - eexists (SysReturned (-1) None), k2. split; [done|]. split; [done|]. left. exists 0.
      eapply good_weaken; [exact Hg2|lia].
    - revert Hg2. decide_tests. intros Hg2.
      destruct (good_port_release k _ 10 k2 port Hg2) as (k3 & -> & Hg3);
        [lia|rewrite bump_eq; specialize (Hb0 HPort port); lia|].
      eexists (SysReturned (-1) None), k3. split; [done|]. split; [done|]. left. exists 0.
      eapply good_ext; [|eapply good_weaken; [exact Hg3|lia]]. intros. rewrite bump_bump. apply bump_0. }
  destruct arg as [um|]; [|done].
  destruct (out_null || (port =? 0) || (rp =? 0)) eqn:Htest; [done|]. clear Hdrop.
  apply orb_false_iff in Htest as [[_ Hnz]%orb_false_iff Hrz]. bool_facts.
  unfold base1 in Hg2. revert Hg2. decide_tests. intros Hg2. clear Hg1 base1.
  assert (alive k1 cur (reply_port t)) as (t1 & Ht1 & Hd1 & _) by (apply (quiet_alive k k1); [done|by exists t]).
  specialize (Ha2 t1 Ht1 Hd1).
  assert (waits k2 !! th = None) as Hnw2 by (by rewrite Hw2, (il_waits _ _ (qt_ipc _ _ Hq1))).
  assert (queue_room k2) as Hr2 by (by apply Hroom2; eapply queue_room_le; [|apply Hq1]).
  destruct (user_message_to_ipc_ok k _ 8 k2 cur um Hg2) as (rc & m & k3 & -> & Hq3 & Hc);
    [lia|by eapply alive_task|]. cbn [mbind option_bind].
  destruct Hc as [(Hg3 & Hf & Hd)|(-> & Hlk & _ & type & o & _ & Hg3)].
  - assert (good k (bump HPort port 1 (plus base (msg_refs m))) 8 k3) as Hg3'.
    { eapply good_ext; [|exact Hg3]. intros. by rewrite bump_plus. }
    case_if.
    + destruct (good_finish k base 8 k3 port m Hg3') as (k4 & k5 & -> & Hr5 & Hg5); [lia|done|].
      cbn [mbind option_bind]. rewrite Hr5. eexists _, k5. split; [done|]. split; [done|]. left. exists port.
      eapply good_weaken; [exact Hg5|lia].
    + destruct (call_tail_ok k base k3 cpu cur th handoff port rp m writable is_killing)
        as (out & k' & Hex & Hpost & Hk); try done; auto.
      * by eapply quiet_alive.
      * by eapply queue_room_le; [|apply Hq3].
      * by rewrite (il_waits _ _ (qt_ipc _ _ Hq3)).
      * exists out, k'. split; [exact Hex|]. eauto.
  - simpl negb. cbv iota.
    destruct (good_finish k (bump type o 1 base) 8 k3 port m) as (k4 & k5 & -> & Hr5 & Hg5); [|lia|..].
    { eapply good_ext; [|exact Hg3]. intros. unfold bump, plus. repeat case_bool_decide; lia. }
    { intros ty ob. unfold bump. specialize (Hb0 ty ob). case_bool_decide; lia. }
    cbn [mbind option_bind]. rewrite Hr5. eexists _, k5. split; [done|]. split; [done|]. right.
    split; [done|]. split; [eauto|]. exists type, o. eapply good_weaken; [exact Hg5|lia].
Qed.


(** ** Receiving from several ports *)

(** One reference to each port of the list. *)
Definition ports_held (ps : list Z) : holds := fun type o =>
  lsum (fun p => if bool_decide (type = HPort /\ o = p) then 1 else 0) ps.

Lemma ports_held_nonneg ps type o : 0 <= ports_held ps type o.
Proof. apply lsum_nonneg. intros. case_bool_decide; lia. Qed.

Lemma ports_held_cons p ps base type o :
  plus base (ports_held (p :: ps)) type o = bump HPort p 1 (plus base (ports_held ps)) type o.
Proof. unfold plus, ports_held, bump. simpl. case_bool_decide; lia. Qed.

Lemma ports_held_snoc p ps base type o :
  plus base (ports_held (ps ++ [p])) type o = bump HPort p 1 (plus base (ports_held ps)) type o.
Proof. unfold plus, ports_held, bump. rewrite lsum_app. simpl. case_bool_decide; lia. Qed.

Lemma ports_held_elem ps o : o ∈ ps -> 1 <= ports_held ps HPort o.
Proof.
  intros Ho. unfold ports_held.
  pose proof (lsum_elem (fun p => if bool_decide (HPort = HPort /\ o = p) then 1 else 0) ps o) as Hle.
  cbv beta in Hle. rewrite (bool_decide_eq_true_2 (HPort = HPort /\ o = o)) in Hle by done.
  apply Hle; [|done]. intros. case_bool_decide; lia.
Qed.

Lemma held_live k0 base ps n k o :
  good k0 (plus base (ports_held ps)) n k -> (forall type o, 0 <= base type o) -> o ∈ ps -> live k HPort o.
Proof.
  intros Hg Hb Ho. eapply good_live; [exact Hg|]. unfold plus.
  pose proof (ports_held_elem ps o Ho). specialize (Hb HPort o). lia.
Qed.

Lemma release_ports_ok k0 base n ps : forall k,
  good k0 (plus base (ports_held ps)) n k -> 0 <= n -> (forall type o, 0 <= base type o) ->
  exists k', release_ports ps k = Some k' /\ good k0 base n k'.
Proof.
  induction ps as [|p ps IH]; intros k Hg Hn Hb; simpl.
  - exists k. split; [done|]. eapply good_ext; [|exact Hg]. intros. unfold plus, ports_held. simpl. lia.
  - destruct (good_port_release k0 _ n k p Hg Hn) as (k1 & -> & Hg1).
    { unfold plus. pose proof (ports_held_elem (p :: ps) p ltac:(left)). specialize (Hb HPort p). lia. }
    cbn [mbind option_bind]. apply IH; [|done|done]. eapply good_ext; [|exact Hg1]. intros type o.
    unfold bump, plus, ports_held. simpl. repeat case_bool_decide; naive_solver lia.
Qed.

Lemma any_lookup_ok k0 base n cur hs : forall found k,
  good k0 (plus base (ports_held found)) (n + Z.of_nat (length hs)) k -> 0 <= n ->
  (forall type o, 0 <= base type o) -> live k HTask cur ->
  exists r k', any_lookup cur found hs k = Some (r, k') /\
    match r with
    | Some ps => good k0 (plus base (ports_held ps)) n k' /\ quiet k k'
    | None => good k0 base n k'
    end.
Proof.
  induction hs as [|h hs IH]; intros found k Hg Hn Hb Ht; simpl any_lookup.
  - exists (Some found), k. split; [done|]. split; [|apply quiet_refl]. simpl in Hg. by rewrite Z.add_0_r in Hg.
  - replace (n + Z.of_nat (length (h :: hs))) with (n + Z.of_nat (length hs) + 1) in Hg by (simpl; lia).
    destruct (good_lookup k0 _ (n + Z.of_nat (length hs)) k HPort cur h TASK_RIGHT_RECV Hg)
      as (port & k1 & Hl & Hc); [lia|done|done|].
    simpl in Hl. rewrite Hl. cbn [mbind option_bind].
    destruct Hc as [[-> ->]|(Hnz & _ & Hg1 & Hq1)]; decide_tests.
    + destruct (release_ports_ok k0 base n found k) as (k2 & -> & Hg2); [|done|done|].
      { eapply good_weaken; [exact Hg|lia]. }
      by exists None, k2.
    + destruct (IH (found ++ [port]) k1) as (r & k2 & Hex & Hpost); [|done|done|by apply (qt_live _ _ Hq1)|].
      { eapply good_ext; [|exact Hg1]. intros. by rewrite ports_held_snoc. }
      exists r, k2. split; [done|]. destruct r; [|done]. destruct Hpost as [Hg2 Hq2].
      split; [done|by eapply quiet_trans].
Qed.

(** *** Touching several ports *)

Record touch_post (k0 : kernel) (base : holds) (n : Z) (k k' : kernel) : Prop := {
  tp_good : good k0 base n k';
  tp_change : ipc_change k k';
  tp_waits : waits k' = waits k;
  tp_queues : forall o p', ports k' !! o = Some p' -> exists p, ports k !! o = Some p /\ p_queue p' = p_queue p;
}.

Lemma touch_ports_ok k0 base n f ps : forall i k,
  (forall i p, p_ref (f i p) = p_ref p /\ p_queue (f i p) = p_queue p /\ queued (f i p) = queued p) ->
  (forall i p, receiver (f i p) <> 0 ->
     receiver p <> 0 /\ receiver_wait (f i p) = receiver_wait p \/
     is_Some (waits k !! receiver_wait (f i p))) ->
  good k0 base n k -> Forall (live k HPort) ps ->
  exists k', update_ports f i ps k = Some k' /\ touch_post k0 base n k k'.
Proof.
  induction ps as [|o ps IH]; intros i k Hf Hr Hg Hl.
  { exists k. split; [done|]. constructor; [done|apply ipc_change_refl|done|eauto]. }
  apply Forall_cons in Hl as [[p Hp] Hl]. cbn [update_ports]. unfold update_port. rewrite Hp.
  cbn [mbind option_bind]. destruct (Hf i p) as (Hpr & Hpq & Hpn).
  pose proof (iw_ports _ _ (gd_wf _ _ _ _ Hg)) as Hok.
  assert (ipc_change k (put_port o (f i p) k)) as Hch by (by eapply ipc_change_put).
  destruct (IH (i + 1) (put_port o (f i p) k)) as (k' & Hex & [Hg' Hch' Hw' Hq']); [done|done|..].
  - apply (good_change k0 base base n k); try done; [..|apply Hg].
    + apply (ports_ok_put k o p); try done; [rewrite Hpn, Hpq; exact (po_queued _ Hok o p Hp)|].
      intros Hnz. destruct (Hr i p Hnz) as [[Hnz' ->]|Hs]; [exact (po_wait _ Hok o p Hp Hnz')|done].
    + intros m [Hm|Hm]%(inflight_put_port k o p); [|by left|done]. rewrite Hpq in Hm. left. left. eauto.
    + intros type ob. rewrite (flight_put_port k o p) by done. unfold queue_refs. rewrite Hpq. lia.
  - eapply Forall_impl; [exact Hl|]. intros o' Ho'. by apply (ipc_change_live k _ HPort o' Hch).
  - exists k'. split; [done|]. constructor; [done|by eapply ipc_change_trans|done|].
    intros o' p' Hp'. destruct (Hq' o' p' Hp') as (p1 & Hp1 & ->). simpl in Hp1.
    apply lookup_insert_Some in Hp1 as [[<- <-]|[_ Hp1]]; eauto.
Qed.

Lemma update_ports_lookup f ps : forall i k k',
  NoDup ps -> update_ports f i ps k = Some k' ->
  forall o p', ports k' !! o = Some p' ->
    o ∉ ps /\ ports k !! o = Some p' \/ o ∈ ps /\ exists j p, ports k !! o = Some p /\ p' = f j p.
Proof.
  induction ps as [|q ps IH]; intros i k k' Hnd Hu o p' Hp'.
  { injection Hu as <-. left. split; [apply not_elem_of_nil|done]. }
  apply NoDup_cons in Hnd as [Hq Hnd]. cbn [update_ports] in Hu. unfold update_port in Hu.
  destruct (ports k !! q) as [p|] eqn:Hp; [|done]. cbn [mbind option_bind] in Hu.
  destruct (IH (i + 1) _ k' Hnd Hu o p' Hp') as [[Ho Hl]|(Ho & j & p1 & Hp1 & ->)]; simpl in *.
  - apply lookup_insert_Some in Hl as [[<- <-]|[Hne Hl]]; [right; split; [left|eauto]|].
    left. split; [|done]. by apply not_elem_of_cons.
  - right. split; [by right|]. rewrite lookup_insert_ne in Hp1; [eauto|]. by intros ->.
Qed.

Lemma any_pop_ok k0 base n th ps : forall i k,
  good k0 base n k -> Forall (live k HPort) ps -> queue_fits k ->
  exists r k', any_pop i ps k = Some (r, k') /\ ipc_change k k' /\ waits k' = waits k /\
    (forall o, registered k' th o -> registered k th o) /\
    match r with
    | Some (_, m) => good k0 (plus base (msg_refs m)) n k' /\ msg_from k0 m
    | None => k' = k
    end.
Proof.
  induction ps as [|o ps IH]; intros i k Hg Hl Hroom.
  { exists None, k. split; [done|]. split; [apply ipc_change_refl|done]. }
  apply Forall_cons in Hl as [[p Hp] Hl]. cbn [any_pop]. rewrite Hp. cbn [mbind option_bind].
  destruct (p_queue p) as [|m q] eqn:Hq; [by apply IH|].
  destruct (good_pop k0 base n k o p m q Hg Hp Hq) as (k1 & Hpop & Hg1 & Hch & Hf).
  { exact (Hroom o p Hp). }
  rewrite Hpop. cbn [mbind option_bind]. eexists (Some (i, m)), k1. split; [done|]. split; [done|].
  unfold pop_message, message_free, ipc_message_release in Hpop. simpl in Hpop. injection Hpop as <-.
  split; [done|]. split; [|done]. intros o' (p' & Hp' & Hr & Hwt). simpl in Hp'.
  apply lookup_insert_Some in Hp' as [[<- <-]|[_ Hp']]; [by exists p|by exists p'].
Qed.

Lemma any_turn_ok k0 base n k cpu th ps w is_killing :
  good k0 base n k -> th <> 0 -> waits k !! th = Some w -> NoDup ps -> Forall (live k HPort) ps ->
  queue_fits k -> (forall o, ~ registered k th o) ->
  exists r k', recv_any_turn cpu th ps is_killing k = Some (r, k') /\ ipc_change k k' /\
    match r with
    | RGot i m => good k0 (plus base (msg_refs m)) n k' /\ msg_from k0 m /\ waits k' = waits k /\
        (forall o, ~ registered k' th o)
    | RBlock => is_killing = false /\ good k0 base n k'
    | RExit => is_killing = true /\ good k0 base n k'
    | _ => False
    end.
Proof.
  intros Hg Hth Hw Hnd Hl Hroom Hnr. unfold recv_any_turn.
  destruct (touch_ports_ok k0 base n (fun _ => set_affinity cpu) ps 0 k) as (k1 & Hu & [Hg1 Hch1 Hw1 Hq1]);
    try done; [by left|]. rewrite Hu. cbn [mbind option_bind].
  assert (forall o, ~ registered k1 th o) as Hnr1.
  { intros o (p1 & Hp1 & Hr & Hwt). apply (Hnr o).
    destruct (update_ports_lookup _ ps 0 k k1 Hnd Hu o p1 Hp1) as [[_ Hp]|(_ & j & p & Hp & ->)];
      [by exists p1|by exists p]. }
  assert (Forall (live k1 HPort) ps) as Hl1.
  { eapply Forall_impl; [exact Hl|]. intros o' Ho'. by apply (ipc_change_live k _ HPort o' Hch1). }
  assert (queue_fits k1) as Hroom1.
  { intros o p Hp. destruct (Hq1 o p Hp) as (p0 & Hp0 & ->). by apply (Hroom o). }
  destruct (any_pop_ok k0 base n th ps 0 k1 Hg1 Hl1 Hroom1) as (r & k2 & -> & Hch2 & Hw2 & Hreg & Hpost).
  cbn [mbind option_bind]. destruct r as [[i m]|].
  - eexists (RGot i m), k2. split; [done|]. split; [by eapply ipc_change_trans|].
    destruct Hpost as [Hg2 Hf]. split; [done|]. split; [done|]. split; [congruence|].
    intros o Ho. by eapply Hnr1, Hreg.
  - subst k2. destruct is_killing; [by eexists RExit, k1|].
    destruct (touch_ports_ok k0 base n (fun i => set_receiver th th i) ps 0 k1)
      as (k2 & -> & [Hg2 Hch3 _ _]); try done.
    { intros i p _. right. simpl. rewrite Hw1, Hw. by eexists. }
    cbn [mbind option_bind]. eexists RBlock, k2. split; [done|]. split; [by eapply ipc_change_trans|done].
Qed.

Lemma distinct_nodup ps : distinct_ports ps = true -> NoDup ps.
Proof.
  induction ps as [|p ps IH]; simpl; [constructor|]. intros [[_ Hne]%andb_true_iff Hd]%andb_true_iff.
  constructor; [|by apply IH]. intros Hin. rewrite forallb_forall in Hne.
  apply list_elem_of_In in Hin. specialize (Hne p Hin). by rewrite Z.eqb_refl in Hne.
Qed.

(** What receiving from several ports leaves behind. *)
Definition any_post (k0 : kernel) (base : holds) (ps : list Z) (out : sys_outcome) (k' : kernel) : Prop :=
  match out with
  | SysReturned _ _ => good k0 base 0 k'
  | _ => good k0 (plus base (ports_held ps)) 0 k'
  end.

Lemma any_got_ok k0 base base' k th w cur ps m writable i :
  good k0 base' 2 k -> waits k !! th = Some w -> (forall o, ~ registered k th o) ->
  (forall type o, base' type o + wait_refs type o w =
     plus (plus base (ports_held ps)) (msg_refs m) type o) ->
  (forall type o, 0 <= base type o) -> live k HTask cur -> msg_from k0 m ->
  exists out k', any_outcome_finish cur th ps writable (RGot i m) k = Some (out, k') /\
    any_post k0 base ps out k' /\ out <> SysExited.
Proof.
  intros Hg Hw Hnr Heq Hb Ht Hf. unfold any_outcome_finish.
  destruct (good_end_wait k0 base' 2 k th w Hg Hw Hnr) as [Hg1 Hch].
  apply (good_ext _ _ _ _ _ Heq) in Hg1.
  assert (forall type o, msg_refs m type o <= plus (plus base (ports_held ps)) (msg_refs m) type o) as Hm.
  { intros type o. unfold plus. pose proof (ports_held_nonneg ps type o). specialize (Hb type o). lia. }
  destruct (to_user_ok k0 _ 0 (end_wait th k) cur m Hg1) as (um & k2 & -> & Hg2); try done.
  cbn [mbind option_bind].
  destruct (good_msg_release k0 _ 0 k2 m Hg2) as (k3 & -> & _ & Hg3); [done|done|].
  cbn [mbind option_bind].
  destruct (release_ports_ok k0 base 0 ps k3) as (k4 & -> & Hg4); [|done|done|].
  { eapply good_ext; [|exact Hg3]. intros. unfold minus. unfold plus at 1. lia. }
  cbn [mbind option_bind]. destruct writable; by eexists _, k4.
Qed.

(** From a turn of the loop to the end of the call. *)
Lemma any_turn_finish_ok k0 base k cpu cur th ps w writable is_killing :
  good k0 (plus base (ports_held ps)) 2 k -> (forall type o, 0 <= base type o) -> th <> 0 ->
  waits k !! th = Some w -> delivered w = None -> NoDup ps -> queue_fits k -> live k HTask cur ->
  (forall o, ~ registered k th o) ->
  exists out k', ('(r, k) ← recv_any_turn cpu th ps is_killing k;
    any_outcome_finish cur th ps writable r k) = Some (out, k') /\
    any_post k0 base ps out k' /\ (out = SysExited -> is_killing = true).
Proof.
  intros Hg Hb Hth Hw Hd Hnd Hroom Ht Hnr.
  assert (Forall (live k HPort) ps) as Hl by (apply Forall_forall; intros o Ho; by eapply held_live).
  destruct (any_turn_ok k0 _ 2 k cpu th ps w is_killing Hg) as (r & k1 & -> & Hch & Hpost); try done.
  cbn [mbind option_bind]. destruct r as [i m| | | |]; try done.
  - destruct Hpost as (Hg1 & Hf & Hw1 & Hnr1).
    destruct (any_got_ok k0 base _ k1 th w cur ps m writable i Hg1) as (out & k2 & -> & Hp & Hne); try done.
    + by rewrite Hw1.
    + intros type o. unfold wait_refs. rewrite Hd. lia.
    + by apply (ipc_change_task k).
    + by exists out, k2.
  - destruct Hpost as [-> Hg1]. eexists SysBlocked, k1. split; [done|]. split; [|done].
    simpl. eapply good_weaken; [exact Hg1|lia].
  - destruct Hpost as [-> Hg1]. eexists SysExited, k1. split; [done|]. split; [|done].
    simpl. eapply good_weaken; [exact Hg1|lia].
Qed.

Lemma sys_ipc_recv_any_ok base k cpu cur th hs out_null writable is_killing :
  ipc_wf base k -> refs_below 6 k -> live k HTask cur -> queue_room k -> th <> 0 ->
  waits k !! th = None ->
  exists ps out k', native_sys_ipc_recv_any cpu cur th hs out_null writable is_killing k = Some (out, k') /\
    any_post k base ps out k' /\ (out = SysExited -> is_killing = true).
Proof.
  intros Hwf Hb Ht Hroom Hth Hnw. pose proof (good_init base 6 k Hwf Hb) as Hg.
  pose proof (iw_base _ _ Hwf) as Hb0.
  assert (exists ps out k', Some (SysReturned (-1) None, k) = Some (out, k') /\ any_post k base ps out k' /\
    (out = SysExited -> is_killing = true)) as Hfail.
  { eexists [], (SysReturned (-1) None), k. split; [done|]. split; [|done].
    eapply good_weaken; [exact Hg|lia]. }
  unfold native_sys_ipc_recv_any. destruct hs as [hs|]; [|done].
  destruct (out_null || bool_decide (hs = []) || (IPC_RECV_ANY_MAX <? Z.of_nat (length hs))) eqn:Htest; [done|].
  clear Hfail. apply orb_false_iff in Htest as [_ Hlen]. unfold IPC_RECV_ANY_MAX in Hlen. bool_facts.
  destruct (any_lookup_ok k base 2 cur hs [] k) as (r & k1 & -> & Hpost); [|done|done|done|].
  { eapply good_ext; [|eapply good_weaken; [exact Hg|lia]]. intros. unfold plus, ports_held. simpl. lia. }
  cbn [mbind option_bind]. destruct r as [ps|].
  2: { eexists [], (SysReturned (-1) None), k1. split; [done|]. split; [|done].
       eapply good_weaken; [exact Hpost|lia]. }
  destruct Hpost as [Hg1 Hq1]. exists ps. unfold ipc_recv_any_enter.
  destruct (recv_any_valid ps) eqn:Hv; simpl negb; cbv iota.
  2: { cbn [mbind option_bind any_outcome_finish].
       destruct (release_ports_ok k base 2 ps k1 Hg1) as (k2 & -> & Hg2); [done|done|].
       eexists (SysReturned (-1) None), k2. split; [done|]. split; [|done].
       eapply good_weaken; [exact Hg2|lia]. }
  unfold recv_any_valid in Hv. apply andb_true_iff in Hv as [_ Hv%distinct_nodup].
  assert (waits k1 !! th = None) as Hnw1 by (by rewrite (il_waits _ _ (qt_ipc _ _ Hq1))).
  apply (any_turn_finish_ok k base _ cpu cur th ps new_wait); try done.
  - by apply good_new_wait.
  - simpl. by rewrite lookup_insert_eq.
  - apply queue_room_fits. by eapply (queue_room_le k k1); [|apply Hq1].
  - by apply (qt_live _ _ Hq1 HTask).
  - intros o (p & Hp & Hr & Hwt).
    destruct (po_wait _ (iw_ports _ _ (gd_wf _ _ _ _ Hg1)) o p Hp Hr) as [x Hx]. congruence.
Qed.


(** ** Handle operations among messages *)








(** ** What one operation does *)












(** ** What a run does *)




(** ** The kernel of the demonstration *)







(** ** Claims *)



(** The call and receive-any system calls never touch a freed object.  When
    they return, every counter is exact and the call holds nothing, except
    that a call whose request names a capability with no rights fails and loses
    one reference; when the thread sleeps (or exits because its task is being
    killed), the call keeps its reference to the port it called, or one to
    each of the ports it receives from. *)
Theorem ipc_call_sound base k cpu cur th t out_null writable is_killing :
  ipc_wf base k -> refs_below 12 k -> 0 < next_port_id k -> tasks k !! cur = Some t -> dead t = false ->
  queue_room k -> th <> 0 -> waits k !! th = None ->
  (forall handoff handle arg, exists out k',
     native_sys_ipc_call cpu cur th handoff handle arg out_null writable is_killing k = Some (out, k') /\
     (out = SysExited -> is_killing = true) /\
     match out with
     | SysReturned r _ => ipc_wf base k' \/
         r = -1 /\ (exists um, arg = Some um /\ u_cap um <> 0 /\ u_cap_rights um = 0) /\
         exists type o, ipc_wf (bump type o 1 base) k'
     | _ => exists port, ipc_wf (bump HPort port 1 base) k'
     end) /\
  (forall hs, exists out k',
     native_sys_ipc_recv_any cpu cur th hs out_null writable is_killing k = Some (out, k') /\
     (out = SysExited -> is_killing = true) /\
     match out with
     | SysReturned _ _ => ipc_wf base k'
     | _ => exists ps, ipc_wf (plus base (ports_held ps)) k'
     end).
Proof.
  intros Hwf Hb Hpos Ht Hd Hroom Hth Hnw. split.
  - intros handoff handle arg.
    destruct (sys_ipc_call_ok base k cpu cur th handoff handle arg out_null writable is_killing t)
      as (out & k' & Hex & Hk & Hc); try done.
    exists out, k'. split; [done|]. split; [done|].
    destruct Hc as [(port & Hp)|(-> & (um & Harg & Hlk) & type & o & [Hw _ _ _])].
    + destruct out; [left; apply Hp|exists port; apply Hp|exists port; apply Hp].
    + right. split; [done|]. split; [by exists um|]. eauto.
  - intros hs. destruct (sys_ipc_recv_any_ok base k cpu cur th hs out_null writable is_killing)
      as (ps & out & k' & Hex & Hp & Hk); try done.
    { intros type o r Hr. destruct (Hb type o r Hr). lia. }
    { by exists t. }
    exists out, k'. split; [done|]. split; [done|].
    destruct out; [apply Hp|exists ps; apply Hp|exists ps; apply Hp].
Qed.

Lemma ipc_call_sound_witness :
  exists out k', native_sys_ipc_recv_any 0 1 5 (Some [1]) false true false demo_kernel = Some (out, k') /\
    (out = SysExited -> false = true) /\
    match out with
    | SysReturned _ _ => ipc_wf demo_held k'
    | _ => exists ps, ipc_wf (plus demo_held (ports_held ps)) k'
    end.
Proof.
  apply (ipc_call_sound demo_held demo_kernel 0 1 5 demo_t1 false true false demo_ipc_wf);
    [by apply demo_below|done|done|done|apply demo_room|done|done].
Defined.
