(* ===== verification/IpcStep.v ===== *)
(** * Threads that send and receive at the same time (kernel/ipc.c)

    The sections of [Ipc] that run under [ipc_lock] are the steps of a
    transition system.  Its state is the kernel, where each thread is in its
    call, whether the lock was lost, and the history of what happened to the
    messages.  A sleeping thread may run again at any time, so the theorems do
    not depend on who wakes it; the interleaving of sections is arbitrary.

    The history is a ghost: [EAccept] when a port takes a message (directly or
    into its queue), [ETake] when a message is assigned to a receiver,
    [EFinal] when the receiver's call returns it (or its thread is killed with
    the message unread). *)
From stdpp Require Import gmap list sorting strings.
From Stdlib Require Import ZArith Lia.
From S2P Require Import Prelude VmRegion Handles Ipc.

Open Scope Z_scope.
Open Scope machine_scope.

(** ** States *)

(** Where a thread is between two sections. *)
Inductive pc :=
  | Dropping (sender port : Z) (m : ipc_message)   (* before ipc_message_release *)
  | Queueing (sender port : Z) (m : ipc_message)   (* before message_alloc *)
  | Sleeping (ps : list Z) (any : bool).           (* in ipc_recv or ipc_recv_any *)

Inductive event :=
  | EAccept (port : Z) (m : ipc_message)
  | ETake (port th : Z) (m : ipc_message)
  | EFinal (th : Z) (m : ipc_message).

Record world := mk_world {
  wk : kernel;
  pcs : gmap Z pc;
  lock_lost : bool;
  hist : list event;
}.

Definition accepted (o : Z) (h : list event) : list ipc_message :=
  omap (fun e => match e with EAccept o' m => if o' =? o then Some m else None | _ => None end) h.
Definition taken (o : Z) (h : list event) : list ipc_message :=
  omap (fun e => match e with ETake o' _ m => if o' =? o then Some m else None | _ => None end) h.
Definition taken_by (th : Z) (h : list event) : list ipc_message :=
  omap (fun e => match e with ETake _ th' m => if th' =? th then Some m else None | _ => None end) h.
Definition finals (th : Z) (h : list event) : list ipc_message :=
  omap (fun e => match e with EFinal th' m => if th' =? th then Some m else None | _ => None end) h.

Definition queue_of (o : Z) (k : kernel) : list ipc_message :=
  match ports k !! o with Some p => p_queue p | None => [] end.
Definition pending (th : Z) (k : kernel) : list ipc_message :=
  match waits k !! th with Some w => option_list (delivered w) | None => [] end.

(** ** Steps *)

(** A receiving section of thread [th] ended with [r]. *)
Inductive recv_ends (th : Z) (ps : list Z) (any was_delivered : bool) (w : world)
    : recv_outcome -> kernel -> world -> Prop :=
  | re_delivered i m k :
      was_delivered = true ->
      recv_ends th ps any was_delivered w (RGot i m) k
        (mk_world (end_wait th k) (delete th (pcs w)) false (hist w ++ [EFinal th m]))
  | re_popped i m k o :
      was_delivered = false -> ps !! Z.to_nat i = Some o ->
      recv_ends th ps any was_delivered w (RGot i m) k
        (mk_world (end_wait th k) (delete th (pcs w)) false
           (hist w ++ [ETake o th m; EFinal th m]))
  | re_block k :
      recv_ends th ps any was_delivered w RBlock k
        (mk_world k (<[th := Sleeping ps any]> (pcs w)) false (hist w))
  | re_exit k :
      recv_ends th ps any was_delivered w RExit k (mk_world k (delete th (pcs w)) true (hist w))
  | re_invalid k :
      recv_ends th ps any was_delivered w RInvalid k (mk_world k (pcs w) false (hist w)).

Definition was_delivered (th : Z) (k : kernel) : bool :=
  match waits k !! th with Some x => w_delivered x | None => false end.

Inductive step (w : world) : world -> Prop :=
  | st_direct th cpu sender handoff port m rcv k' :
      lock_lost w = false -> th <> 0 -> pcs w !! th = None ->
      send_direct cpu sender port m (wk w) = Some (rcv, k') -> rcv <> 0 ->
      step w (mk_world (send_handoff cpu handoff m rcv k').2 (pcs w) false
        (hist w ++ [EAccept port (with_sender sender m); ETake port rcv (with_sender sender m)]))
  | st_not_direct th cpu sender port m k' :
      lock_lost w = false -> th <> 0 -> pcs w !! th = None ->
      send_direct cpu sender port m (wk w) = Some (0, k') ->
      step w (mk_world k' (<[th := Dropping sender port m]> (pcs w)) false (hist w))
  | st_drop th sender port m k' :
      lock_lost w = false -> pcs w !! th = Some (Dropping sender port m) ->
      ipc_message_release (with_sender sender m) (wk w) = Some k' ->
      step w (mk_world k' (<[th := Queueing sender port m]> (pcs w)) false (hist w))
  | st_enqueue th cpu sender port m rc k' :
      lock_lost w = false -> pcs w !! th = Some (Queueing sender port m) -> queue_room (wk w) ->
      send_enqueue cpu sender port m (wk w) = Some (rc, k') ->
      step w (mk_world k' (delete th (pcs w)) false
        (hist w ++ if rc =? 0 then [EAccept port (with_sender sender m)] else []))
  | st_recv th cpu port is_killing r k' w' :
      lock_lost w = false -> th <> 0 -> pcs w !! th = None ->
      ipc_recv_enter cpu th port is_killing (wk w) = Some (r, k') ->
      recv_ends th [port] false false w r k' w' -> step w w'
  | st_resume th port is_killing r k' w' :
      lock_lost w = false -> pcs w !! th = Some (Sleeping [port] false) ->
      ipc_recv_resume th port is_killing (wk w) = Some (r, k') ->
      recv_ends th [port] false (was_delivered th (wk w)) w r k' w' -> step w w'
  | st_any th cpu ps is_killing r k' w' :
      lock_lost w = false -> th <> 0 -> pcs w !! th = None ->
      ipc_recv_any_enter cpu th ps is_killing (wk w) = Some (r, k') ->
      recv_ends th ps true false w r k' w' -> step w w'
  | st_any_resume th cpu ps is_killing r k' w' :
      lock_lost w = false -> pcs w !! th = Some (Sleeping ps true) ->
      ipc_recv_any_resume cpu th ps is_killing (wk w) = Some (r, k') ->
      recv_ends th ps true (was_delivered th (wk w)) w r k' w' -> step w w'
  | st_try th cpu port m k' :
      lock_lost w = false -> th <> 0 -> pcs w !! th = None ->
      ipc_try_recv cpu port (wk w) = Some (RGot 0 m, k') ->
      step w (mk_world k' (pcs w) false (hist w ++ [ETake port th m; EFinal th m]))
  | st_kill th ps any :
      lock_lost w = false -> pcs w !! th = Some (Sleeping ps any) ->
      step w (mk_world (end_wait th (ipc_cancel_thread th (wk w))) (delete th (pcs w)) false
        (hist w ++ map (EFinal th) (pending th (wk w))))
  | st_create name reuse :
      lock_lost w = false ->
      step w (mk_world (ipc_port_alloc name reuse (wk w)).2 (pcs w) false (hist w))
  | st_other k' :
      ipc_le (wk w) k' -> step w (mk_world k' (pcs w) (lock_lost w) (hist w)).

Inductive reachable (w0 : world) : world -> Prop :=
  | reach_refl : reachable w0 w0
  | reach_step w w' : reachable w0 w -> step w w' -> reachable w0 w'.

(** ** The invariant *)

(** A port with messages has no receiver; a receiver is a thread that sleeps
    on the port, and the wait record is its own. *)
Record port_inv (k : kernel) (P : gmap Z pc) (o : Z) (p : ipc_port) : Prop := {
  pi_queued : queued p = Z.of_nat (length (p_queue p)) /\ queued p < 2 ^ 32;
  pi_idle : p_queue p <> [] -> receiver p = 0;
  pi_receiver : receiver p <> 0 -> receiver_wait p = receiver p /\
    exists ps any, P !! receiver p = Some (Sleeping ps any) /\ o ∈ ps /\
      (any = false -> was_delivered (receiver p) k = false);
}.

Record kinv (k : kernel) (P : gmap Z pc) : Prop := {
  ki_port : forall o p, ports k !! o = Some p -> port_inv k P o p;
  ki_wait : forall th, is_Some (waits k !! th) <-> exists ps any, P !! th = Some (Sleeping ps any);
  ki_message : forall th w, waits k !! th = Some w -> w_delivered w = true -> is_Some (w_message w);
  ki_single : forall th ps, P !! th = Some (Sleeping ps false) -> exists port, ps = [port];
  ki_zero : P !! 0 = None;
}.

(** Nothing is lost, duplicated or reordered. *)
Record hinv (k : kernel) (h : list event) : Prop := {
  hi_port : forall o, accepted o h = taken o h ++ queue_of o k;
  hi_thread : forall th, taken_by th h = finals th h ++ pending th k;
}.

Definition inv (w : world) : Prop :=
  hinv (wk w) (hist w) /\ (exists P, kinv (wk w) P) /\
  (lock_lost w = false -> kinv (wk w) (pcs w)).

Lemma inv_kh k P h b :
  kinv k P -> hinv k h -> inv (mk_world k P b h).
Proof. intros Hk Hh. split; [done|]. split; [by exists P|done]. Qed.

Lemma queued_inv k P o p : kinv k P -> ports k !! o = Some p -> queued p = 0 -> p_queue p = [].
Proof.
  intros Hk Hp H0. rewrite (proj1 (pi_queued _ _ _ _ (ki_port _ _ Hk o p Hp))) in H0. by destruct (p_queue p).
Qed.

(** *** Steps that move no message *)

Lemma kinv_le k P k' : kinv k P -> ipc_le k k' -> kinv k' P.
Proof.
  intros Hk [Hw Hp]. constructor; try (rewrite Hw; apply Hk); try apply Hk.
  intros o p' Hp'. destruct (Hp o) as [Hv|[Hn _]]; [|congruence]. rewrite Hp' in Hv.
  destruct (ports k !! o) as [p|] eqn:Hk0; [|done]. injection Hv as Hv1 Hv2 Hv3 Hv4.
  destruct (ki_port _ _ Hk o p Hk0) as [H1 H2 H3].
  constructor; rewrite ?Hv1, ?Hv2, ?Hv3, ?Hv4; try done. unfold was_delivered. by rewrite Hw.
Qed.

Lemma hinv_ext k k' h :
  (forall o, queue_of o k' = queue_of o k) -> (forall th, pending th k' = pending th k) ->
  hinv k h -> hinv k' h.
Proof. intros Hq Hp [H1 H2]. constructor; intros; [by rewrite Hq|by rewrite Hp]. Qed.

Lemma hinv_le k k' h :
  (forall o p, ports k !! o = Some p -> queued p = 0 -> p_queue p = []) ->
  ipc_le k k' -> hinv k h -> hinv k' h.
Proof.
  intros Hz [Hw Hp] Hh. apply (hinv_ext k); [| |exact Hh].
  - intros o. unfold queue_of. destruct (Hp o) as [Hv|(-> & p & Hk & Hq & _)].
    + destruct (ports k' !! o) as [p'|], (ports k !! o) as [p|]; try done. by injection Hv.
    + rewrite Hk. by rewrite (Hz o p).
  - intros th. unfold pending. by rewrite Hw.
Qed.

Definition kh (k : kernel) (P : gmap Z pc) (h : list event) : Prop := kinv k P /\ hinv k h.

Lemma kh_le k P h k' : kh k P h -> ipc_le k k' -> kh k' P h.
Proof.
  intros [Hk Hh] Hle. split; [by eapply kinv_le|]. eapply hinv_le; [|done|done].
  intros. by eapply queued_inv.
Qed.

Lemma accepted_app o h1 h2 : accepted o (h1 ++ h2) = accepted o h1 ++ accepted o h2.
Proof. apply omap_app. Qed.
Lemma taken_app o h1 h2 : taken o (h1 ++ h2) = taken o h1 ++ taken o h2.
Proof. apply omap_app. Qed.
Lemma taken_by_app th h1 h2 : taken_by th (h1 ++ h2) = taken_by th h1 ++ taken_by th h2.
Proof. apply omap_app. Qed.
Lemma finals_app th h1 h2 : finals th (h1 ++ h2) = finals th h1 ++ finals th h2.
Proof. apply omap_app. Qed.

(** One port is rewritten. *)
Lemma queue_of_put o p k o' :
  queue_of o' (put_port o p k) = if o' =? o then p_queue p else queue_of o' k.
Proof.
  unfold queue_of. simpl. destruct (o' =? o) eqn:He; bool_facts.
  - subst. by rewrite lookup_insert_eq.
  - by rewrite lookup_insert_ne.
Qed.

Lemma kinv_put k P o p p' :
  kinv k P -> ports k !! o = Some p -> port_inv k P o p' -> kinv (put_port o p' k) P.
Proof.
  intros Hk Hp Hp'. constructor; try apply Hk. intros o' q. simpl.
  intros [[<- <-]|[_ Hq]]%lookup_insert_Some; [destruct Hp'; by constructor|].
  destruct (ki_port _ _ Hk o' q Hq). by constructor.
Qed.

(** *** A message is delivered directly *)

Lemma kh_deliver k P h port p w m :
  kh k P h -> ports k !! port = Some p -> receiver p <> 0 ->
  waits k !! receiver_wait p = Some w -> w_delivered w = false -> p_queue p = [] ->
  kh (put_port port (clear_receiver p)
        (set_waits (<[receiver_wait p := mk_wait (Some m) (receiver_index p) true]> (waits k)) k)) P
     (h ++ [EAccept port m; ETake port (receiver p) m]).
Proof.
  intros [Hk Hh] Hp Hr Hw Hd Hq. pose proof (ki_port _ _ Hk port p Hp) as Hpi.
  destruct (pi_receiver _ _ _ _ Hpi Hr) as (Hrw & ps & any & HP & Hin & _). rewrite Hrw in *.
  set (w' := mk_wait (Some m) (receiver_index p) true).
  set (k1 := set_waits (<[receiver p := w']> (waits k)) k). split.
  - assert (forall o q, ports k !! o = Some q -> o <> port -> port_inv k1 P o q) as Hothers.
    { intros o q Hq0 Hne. destruct (ki_port _ _ Hk o q Hq0) as [H1 H2 H3].
      constructor; [done|done|]. intros Hrq. destruct (H3 Hrq) as (H4 & ps' & any' & HP' & Hin' & Hdl).
      split; [done|]. exists ps', any'. split; [done|]. split; [done|]. intros ->.
      unfold was_delivered. simpl. destruct (decide (receiver q = receiver p)) as [Heq|Hneq].
      - exfalso. rewrite Heq, HP in HP'. injection HP' as <- ->.
        destruct (ki_single _ _ Hk _ _ HP) as [x ->].
        apply list_elem_of_singleton in Hin, Hin'. congruence.
      - rewrite lookup_insert_ne by done. by apply Hdl. }
    constructor.
    + intros o q. simpl. intros [[<- <-]|[Hne Hq0]]%lookup_insert_Some;
        [|destruct (Hothers o q Hq0); [congruence|by constructor]].
      destruct Hpi. by constructor.
    + intros th. simpl. rewrite <- (ki_wait _ _ Hk). destruct (decide (th = receiver p)) as [->|].
      * rewrite lookup_insert_eq, Hw. split; eauto.
      * by rewrite lookup_insert_ne.
    + intros th x. simpl. intros [[<- <-]|[_ Hx]]%lookup_insert_Some; [simpl; eauto|]. by eapply (ki_message _ _ Hk).
    + apply Hk.
    + apply Hk.
  - destruct Hh as [H1 H2]. constructor.
    + intros o. rewrite accepted_app, taken_app, queue_of_put. simpl. rewrite Z.eqb_sym.
      change (queue_of o k1) with (queue_of o k). rewrite H1. unfold queue_of.
      destruct (o =? port) eqn:He; bool_facts; [|by rewrite !app_nil_r]. subst. rewrite Hp, Hq. by rewrite !app_nil_r.
    + intros th. rewrite taken_by_app, finals_app, H2. simpl. rewrite app_nil_r, <- app_assoc. f_equal.
      unfold pending. simpl. destruct (decide (th = receiver p)) as [->|Hne].
      * rewrite Z.eqb_refl, lookup_insert_eq, Hw. unfold delivered. by rewrite Hd.
      * rewrite lookup_insert_ne by done. decide_tests. by rewrite app_nil_r.
Qed.

(** *** A message is queued, or taken from a queue *)

Lemma pending_put o p k th : pending th (put_port o p k) = pending th k.
Proof. done. Qed.

Lemma kh_enqueue k P h port p p' m :
  kh k P h -> ports k !! port = Some p -> p_queue p' = p_queue p ++ [m] ->
  queued p' = Z.of_nat (length (p_queue p')) /\ queued p' < 2 ^ 32 -> receiver p' = 0 ->
  kh (put_port port p' k) P (h ++ [EAccept port m]).
Proof.
  intros [Hk Hh] Hp Hq Hn Hr. split.
  - apply (kinv_put k P port p); try done.
  - destruct Hh as [H1 H2]. constructor.
    + intros o. rewrite accepted_app, taken_app, queue_of_put, H1. simpl. rewrite (Z.eqb_sym port o).
      destruct (o =? port) eqn:He; bool_facts; simpl; [|by rewrite !app_nil_r]. subst. unfold queue_of.
      rewrite Hp, Hq, app_nil_r. by rewrite <- app_assoc.
    + intros th. rewrite taken_by_app, finals_app, H2. simpl. by rewrite !app_nil_r.
Qed.

Lemma kh_pop k P h port p m q th :
  kh k P h -> ports k !! port = Some p -> p_queue p = m :: q -> pending th k = [] ->
  kh (put_port port (set_queue q (u32 (queued p - 1)) p) k) P
     (h ++ [ETake port th m; EFinal th m]).
Proof.
  intros [Hk Hh] Hp Hq Hpend. pose proof (ki_port _ _ Hk port p Hp) as [[H1 Hlen] H2 H3]. split.
  - apply (kinv_put k P port p); try done. rewrite Hq in H1. simpl in H1.
    constructor; simpl.
    + rewrite u32_small by (unfold in_u32; lia). lia.
    + intros _. apply H2. by rewrite Hq.
    + intros Hr. exfalso. apply Hr, H2. by rewrite Hq.
  - destruct Hh as [Ha Ht]. constructor.
    + intros o. rewrite accepted_app, taken_app, queue_of_put. simpl. rewrite Z.eqb_sym, app_nil_r, Ha.
      unfold queue_of. destruct (o =? port) eqn:He; bool_facts; [|by rewrite app_nil_r].
      subst. rewrite Hp, Hq, <- app_assoc. done.
    + intros th'. rewrite taken_by_app, finals_app, Ht, pending_put. simpl.
      destruct (th =? th') eqn:He; bool_facts; [|by rewrite !app_nil_r]. subst.
      by rewrite Hpend, !app_nil_r.
Qed.

(** *** A receive begins and ends *)

Lemma kh_begin k P h th ps any :
  kh k P h -> th <> 0 -> P !! th = None -> (any = false -> exists port, ps = [port]) ->
  kh (set_waits (<[th := new_wait]> (waits k)) k) (<[th := Sleeping ps any]> P) h.
Proof.
  intros [Hk Hh] Hth HP Hs.
  assert (waits k !! th = None) as Hw.
  { destruct (waits k !! th) as [w|] eqn:Hw; [|done]. exfalso.
    destruct (proj1 (ki_wait _ _ Hk th)) as (ps' & any' & HP'); [by eexists|congruence]. }
  split.
  - constructor.
    + intros o p Hp. destruct (ki_port _ _ Hk o p Hp) as [H1 H2 H3]. constructor; [done|done|].
      intros Hr. destruct (H3 Hr) as (H4 & ps' & any' & HP' & Hin & Hd). split; [done|].
      assert (receiver p <> th) as Hne by congruence.
      exists ps', any'. rewrite lookup_insert_ne by done. split; [done|]. split; [done|]. intros Ha.
      unfold was_delivered. simpl. rewrite lookup_insert_ne by done. by apply Hd.
    + intros th'. simpl. destruct (decide (th' = th)) as [->|Hne].
      * rewrite !lookup_insert_eq. split; eauto.
      * rewrite !lookup_insert_ne by done. apply Hk.
    + intros th' w. simpl. intros [[<- <-]|[_ Hx]]%lookup_insert_Some; [done|]. by eapply (ki_message _ _ Hk).
    + intros th' ps'. intros [[<- [= -> ->]]|[_ Hx]]%lookup_insert_Some; [auto|]. by eapply (ki_single _ _ Hk).
    + rewrite lookup_insert_ne by done. apply Hk.
  - apply (hinv_ext k); [done| |exact Hh]. intros th'. unfold pending. simpl.
    destruct (decide (th' = th)) as [->|Hne]; [by rewrite lookup_insert_eq, Hw|by rewrite lookup_insert_ne].
Qed.

Definition unregistered (k : kernel) (th : Z) : Prop :=
  forall o p, ports k !! o = Some p -> receiver p <> th.

Lemma final_events x th ms :
  accepted x (map (EFinal th) ms) = [] /\ taken x (map (EFinal th) ms) = [] /\
  taken_by x (map (EFinal th) ms) = [] /\
  finals x (map (EFinal th) ms) = if th =? x then ms else [].
Proof.
  induction ms as [|m ms (IH1 & IH2 & IH3 & IH4)]; [by destruct (th =? x)|].
  split; [exact IH1|]. split; [exact IH2|]. split; [exact IH3|]. simpl.
  destruct (th =? x); [f_equal|]; exact IH4.
Qed.

(** The call returns: what was pending is handed over. *)
Lemma kh_end k P h th :
  kh k P h -> th <> 0 -> unregistered k th ->
  kh (end_wait th k) (delete th P) (h ++ map (EFinal th) (pending th k)).
Proof.
  intros [Hk Hh] Hth Hu. split.
  - constructor.
    + intros o p Hp. destruct (ki_port _ _ Hk o p Hp) as [H1 H2 H3]. constructor; [done|done|].
      intros Hr. destruct (H3 Hr) as (H4 & ps & any & HP & Hin & Hd). split; [done|].
      assert (receiver p <> th) as Hne by (by eapply Hu).
      exists ps, any. rewrite lookup_delete_ne by done. split; [done|]. split; [done|]. intros Ha.
      unfold was_delivered. simpl. rewrite lookup_delete_ne by done. by apply Hd.
    + intros th'. simpl. destruct (decide (th' = th)) as [->|Hne].
      * rewrite !lookup_delete_eq. split; [by intros [? ?]|by intros (? & ? & ?)].
      * rewrite !lookup_delete_ne by done. apply Hk.
    + intros th' w. simpl. intros [_ Hx]%lookup_delete_Some. by eapply (ki_message _ _ Hk).
    + intros th' ps. intros [_ Hx]%lookup_delete_Some. by eapply (ki_single _ _ Hk).
    + rewrite lookup_delete_ne by done. apply Hk.
  - destruct Hh as [Ha Ht].
    set (ms := pending th k) in *.
    constructor.
    + intros o. destruct (final_events o th ms) as (H1 & H2 & _).
      rewrite accepted_app, taken_app, H1, H2, !app_nil_r. apply Ha.
    + intros th'. destruct (final_events th' th ms) as (_ & _ & H1 & H2).
      rewrite taken_by_app, finals_app, H1, H2, app_nil_r, Ht. unfold pending at 2. simpl. destruct (th =? th') eqn:He; bool_facts.
      * subst. by rewrite lookup_delete_eq, app_nil_r.
      * by rewrite lookup_delete_ne, app_nil_r by done.
Qed.

Lemma pending_fresh k P th : kinv k P -> P !! th = None -> pending th k = [].
Proof.
  intros Hk HP. unfold pending. destruct (waits k !! th) as [w|] eqn:Hw; [|done].
  destruct (proj1 (ki_wait _ _ Hk th)) as (ps & any & HP'); [by eexists|congruence].
Qed.

(** *** Registrations *)

Lemma kh_register k P h o p th ps any i :
  kh k P h -> ports k !! o = Some p -> P !! th = Some (Sleeping ps any) -> o ∈ ps ->
  p_queue p = [] -> was_delivered th k = false ->
  kh (put_port o (set_receiver th th i p) k) P h.
Proof.
  intros [Hk Hh] Hp HP Hin Hq Hd. pose proof (ki_port _ _ Hk o p Hp) as [H1 H2 H3]. split.
  - apply (kinv_put k P o p); try done. constructor; simpl; [done|by rewrite Hq|]. intros _.
    split; [done|]. eauto.
  - apply (hinv_ext k); [|done|exact Hh]. intros o'. rewrite queue_of_put. case_if; [|done]. subst.
    unfold queue_of. by rewrite Hp.
Qed.

Lemma kh_unregister k P h o p :
  kh k P h -> ports k !! o = Some p -> kh (put_port o (clear_receiver p) k) P h.
Proof.
  intros [Hk Hh] Hp. pose proof (ki_port _ _ Hk o p Hp) as [H1 H2 H3]. split.
  - apply (kinv_put k P o p); try done.
  - apply (hinv_ext k); [|done|exact Hh]. intros o'. rewrite queue_of_put. case_if; [|done]. subst.
    unfold queue_of. by rewrite Hp.
Qed.

(** ** Sections keep the invariant *)

Lemma kh_calls k P h c : kh k P h -> kh (call c k) P h.
Proof. intros Hk. apply (kh_le k); [done|by apply ipc_le_tasks]. Qed.

Lemma send_direct_kh k P h cpu sender port m rcv k' :
  kh k P h -> send_direct cpu sender port m k = Some (rcv, k') ->
  kh k' P (if rcv =? 0 then h
           else h ++ [EAccept port (with_sender sender m); ETake port rcv (with_sender sender m)]).
Proof.
  intros Hk Hs. unfold send_direct in Hs.
  destruct (ipc_message_retain _ k) as [k1|] eqn:H1; [|done]. cbn [mbind option_bind] in Hs.
  assert (kh (call (CCount CntSends cpu) k1) P h) as Hk1.
  { apply kh_calls. eapply kh_le; [exact Hk|by eapply msg_retain_le]. }
  set (k2 := call (CCount CntSends cpu) k1) in *.
  destruct (ports k2 !! port) as [p|] eqn:Hp; [|done]. cbn [mbind option_bind] in Hs.
  destruct (negb (receiver p =? 0) && negb (receiver_wait p =? 0)) eqn:Hr; [|by simplify_eq].
  bool_facts. destruct (waits k2 !! receiver_wait p) as [w|] eqn:Hw; [|done]. cbn [mbind option_bind] in Hs.
  destruct (negb (w_delivered w) && bool_decide (p_queue p = [])) eqn:Hd; [|by simplify_eq].
  bool_facts. injection Hs as <- <-. decide_tests.
  apply kh_calls. by apply (kh_deliver k2 P h port p w).
Qed.

Lemma send_handoff_le cpu handoff m rcv k : ipc_le k (send_handoff cpu handoff m rcv k).2.
Proof. unfold send_handoff. case_if; by apply ipc_le_tasks. Qed.

Lemma send_enqueue_kh k P h cpu sender port m rc k' :
  kh k P h -> queue_room k -> send_enqueue cpu sender port m k = Some (rc, k') ->
  kh k' P (h ++ if rc =? 0 then [EAccept port (with_sender sender m)] else []).
Proof.
  intros Hk Hroom Hs. unfold send_enqueue, kalloc in Hs.
  assert (forall h0 k1, ipc_le k k1 -> kh k1 P (h ++ if -1 =? 0 then [h0] else [])) as Hfail.
  { intros h0 k1 Hle. simpl. rewrite app_nil_r. by eapply kh_le. }
  destruct (kheap k) as [|avail rest]; simpl negb in Hs; cbv iota in Hs;
    [injection Hs as <- <-; apply Hfail, ipc_le_refl|].
  destruct (sizeof_ipc_message_node <=? avail); simpl negb in Hs; cbv iota in Hs;
    [|injection Hs as <- <-; by apply Hfail, ipc_le_tasks].
  destruct (ipc_message_retain _ _) as [k1|] eqn:H1; [|done]. cbn [mbind option_bind] in Hs.
  assert (ipc_le k k1) as Hle.
  { eapply ipc_le_trans; [|by eapply msg_retain_le]. by apply ipc_le_tasks. }
  pose proof (kh_le k P h k1 Hk Hle) as Hk1. pose proof (queue_room_le k k1 Hroom Hle) as Hroom1.
  destruct (ports k1 !! port) as [p|] eqn:Hp; [|done]. cbn [mbind option_bind] in Hs.
  injection Hs as <- <-. simpl (0 =? 0). cbv iota.
  assert (kh (put_port port (if negb (receiver p =? 0)
    then clear_receiver (set_queue (p_queue p ++ [with_sender sender m]) (u32 (queued p + 1)) p)
    else set_queue (p_queue p ++ [with_sender sender m]) (u32 (queued p + 1)) p) k1) P
    (h ++ [EAccept port (with_sender sender m)])) as Hk2.
  { destruct (pi_queued _ _ _ _ (ki_port _ _ (proj1 Hk1) port p Hp)) as [Hn _].
    specialize (Hroom1 port p Hp).
    apply (kh_enqueue k1 P h port p); [done|done|by case_if| |case_if; simpl; done].
    case_if; simpl; rewrite length_app, u32_small, Hn by (unfold in_u32; lia); simpl; lia. }
  case_if; repeat apply kh_calls; done.
Qed.

(** What one turn of a receive comes to. *)
Definition turn_post (th : Z) (ps : list Z) (P : gmap Z pc) (h : list event) (r : recv_outcome)
    (k : kernel) : Prop :=
  match r with
  | RGot i m => exists o, ps !! Z.to_nat i = Some o /\ kh k P (h ++ [ETake o th m; EFinal th m]) /\
      unregistered k th /\ pending th k = []
  | RBlock | RExit => kh k P h
  | _ => False
  end.

Lemma not_delivered_pending k th : was_delivered th k = false -> pending th k = [].
Proof.
  unfold was_delivered, pending, delivered. destruct (waits k !! th) as [w|]; [|done]. by intros ->.
Qed.

Lemma reset_wait_id k th w :
  waits k !! th = Some w -> w_delivered w = false ->
  set_waits (<[th := mk_wait (w_message w) (w_index w) false]> (waits k)) k = k.
Proof.
  intros Hw Hd. replace (mk_wait (w_message w) (w_index w) false) with w.
  - rewrite insert_id by done. by destruct k.
  - destruct w. simpl in Hd. by subst.
Qed.

Lemma pop_eq port p m q k :
  pop_message port p m q k = Some (put_port port (set_queue q (u32 (queued p - 1)) p) k).
Proof. done. Qed.

Lemma recv_turn_post k P h th port is_killing r k' :
  kh k P h -> th <> 0 -> P !! th = Some (Sleeping [port] false) ->
  was_delivered th k = false -> recv_turn th port is_killing k = Some (r, k') ->
  turn_post th [port] P h r k'.
Proof.
  intros Hk Hth HP Hd Ht. unfold recv_turn in Ht.
  destruct (ports k !! port) as [p|] eqn:Hp; [|done]. cbn [mbind option_bind] in Ht.
  destruct (p_queue p) as [|m q] eqn:Hq.
  - unfold was_delivered in Hd. destruct (waits k !! th) as [w|] eqn:Hw; [|done].
    cbn [mbind option_bind] in Ht. rewrite (reset_wait_id k th w) in Ht by done.
    destruct is_killing; injection Ht as <- <-; simpl; [done|].
    eapply kh_register; try done; [by apply list_elem_of_singleton|]. unfold was_delivered. by rewrite Hw.
  - rewrite pop_eq in Ht. cbn [mbind option_bind] in Ht. injection Ht as <- <-. simpl. exists port.
    split; [done|]. split; [|split].
    + apply kh_pop; try done. by apply not_delivered_pending.
    + intros o p' Hp' Hr. simpl in Hp'.
      assert (exists p0, ports k !! o = Some p0 /\ receiver p0 = th) as (p0 & Hp0 & Hr0).
      { apply lookup_insert_Some in Hp' as [[<- <-]|[_ Hp']]; [by exists p|by exists p']. }
      destruct (ki_port _ _ (proj1 Hk) o p0 Hp0) as [_ H2 H3].
      destruct (H3 ltac:(congruence)) as (_ & ps & any & HP' & Hin & _).
      rewrite Hr0, HP in HP'. injection HP' as <- _. apply list_elem_of_singleton in Hin as ->.
      rewrite Hp in Hp0. injection Hp0 as <-. apply Hth. rewrite <- Hr0. apply H2. by rewrite Hq.
    + rewrite pending_put. by apply not_delivered_pending.
Qed.

(** *** Several ports *)

Lemma affinity_le cpu o k k' : update_port (set_affinity cpu) o k = Some k' -> ipc_le k k'.
Proof.
  unfold update_port. destruct (ports k !! o) as [p|] eqn:Hp; [|done]. intros [= <-].
  by eapply port_put_le.
Qed.

Lemma affinities_le cpu ps : forall i k k',
  update_ports (fun _ => set_affinity cpu) i ps k = Some k' -> ipc_le k k'.
Proof.
  induction ps as [|o ps IH]; intros i k k' Hu; simpl in Hu; [simplify_eq; apply ipc_le_refl|].
  destruct (update_port _ o k) as [k1|] eqn:H1; [|done]. cbn [mbind option_bind] in Hu.
  eapply ipc_le_trans; [by eapply affinity_le|by eapply IH].
Qed.

Lemma any_pop_spec ps : forall i k r k', 0 <= i ->
  any_pop i ps k = Some (r, k') ->
  match r with
  | None => k' = k /\ forall o, o ∈ ps -> queue_of o k = []
  | Some (j, m) => exists o p q, i <= j /\ ps !! Z.to_nat (j - i) = Some o /\
      ports k !! o = Some p /\ p_queue p = m :: q /\
      k' = put_port o (set_queue q (u32 (queued p - 1)) p) k
  end.
Proof.
  induction ps as [|o ps IH]; intros i k r k' Hi Ha; cbn [any_pop] in Ha.
  { simplify_eq. split; [done|]. by intros o ?%elem_of_nil. }
  destruct (ports k !! o) as [p|] eqn:Hp; [|done]. cbn [mbind option_bind] in Ha.
  destruct (p_queue p) as [|m q] eqn:Hq.
  - apply IH in Ha; [|lia]. destruct r as [[j m]|].
    + destruct Ha as (o' & p' & q & Hj & Ho' & Hrest). exists o', p', q. split; [lia|]. split; [|done].
      by replace (Z.to_nat (j - i)) with (S (Z.to_nat (j - (i + 1)))) by lia.
    + destruct Ha as [-> Ha]. split; [done|]. intros o' [->|Hin]%elem_of_cons; [|auto].
      unfold queue_of. by rewrite Hp.
  - rewrite pop_eq in Ha. cbn [mbind option_bind] in Ha. injection Ha as <- <-.
    exists o, p, q. split; [lia|]. by rewrite Z.sub_diag.
Qed.

Lemma registers_kh th ps any P h qs : forall i k k',
  kh k P h -> P !! th = Some (Sleeping ps any) -> (forall o, o ∈ qs -> o ∈ ps) ->
  (forall o, o ∈ qs -> queue_of o k = []) -> was_delivered th k = false ->
  update_ports (fun i => set_receiver th th i) i qs k = Some k' -> kh k' P h.
Proof.
  induction qs as [|o qs IH]; intros i k k' Hk HP Hsub Hq Hd Hu; simpl in Hu; [by simplify_eq|].
  unfold update_port in Hu. destruct (ports k !! o) as [p|] eqn:Hp; [|done].
  cbn [mbind option_bind] in Hu.
  assert (p_queue p = []) as Hpq.
  { specialize (Hq o ltac:(left)). unfold queue_of in Hq. by rewrite Hp in Hq. }
  apply (IH (i + 1) (put_port o (set_receiver th th i p) k)); try done.
  - eapply kh_register; try done. apply Hsub. left.
  - intros o' Hin. apply Hsub. by right.
  - intros o' Hin. rewrite queue_of_put. case_if; [done|]. apply Hq. by right.
Qed.

Lemma drops_kh th P h qs : forall i k k',
  kh k P h -> update_ports (fun _ => drop_receiver th) i qs k = Some k' ->
  kh k' P h /\ waits k' = waits k /\
  (forall o p', ports k' !! o = Some p' -> receiver p' = th -> th <> 0 ->
     o ∉ qs /\ exists p, ports k !! o = Some p /\ receiver p = th).
Proof.
  induction qs as [|o qs IH]; intros i k k' Hk Hu; simpl in Hu.
  { simplify_eq. split; [done|]. split; [done|]. intros o p' Hp' Hr _. split; [apply not_elem_of_nil|eauto]. }
  unfold update_port in Hu. destruct (ports k !! o) as [p|] eqn:Hp; [|done].
  cbn [mbind option_bind] in Hu.
  assert (kh (put_port o (drop_receiver th p) k) P h) as Hk1.
  { unfold drop_receiver. case_if; [by apply kh_unregister|].
    apply (kh_le k); [done|]. by eapply port_put_le. }
  destruct (IH (i + 1) _ k' Hk1 Hu) as (Hk' & Hw & Hrest). split; [done|]. split; [done|].
  intros o' p' Hp' Hr Hth. destruct (Hrest o' p' Hp' Hr Hth) as [Hnin (q & Hq & Hrq)]. simpl in Hq.
  apply lookup_insert_Some in Hq as [[<- <-]|[Hne Hq]].
  - exfalso. unfold drop_receiver in Hrq. case_if; simpl in Hrq; congruence.
  - split; [|eauto]. apply not_elem_of_cons. split; [congruence|done].
Qed.

Lemma registered_in k P th o p ps any :
  kinv k P -> P !! th = Some (Sleeping ps any) -> th <> 0 -> ports k !! o = Some p ->
  receiver p = th -> o ∈ ps.
Proof.
  intros Hk HP Hth Hp Hr. destruct (pi_receiver _ _ _ _ (ki_port _ _ Hk o p Hp)) as (_ & ps' & any' & HP' & Hin & _);
    [congruence|]. rewrite Hr, HP in HP'. by injection HP' as <- <-.
Qed.

Lemma recv_any_turn_post k P h cpu th ps is_killing r k' :
  kh k P h -> th <> 0 -> P !! th = Some (Sleeping ps true) -> unregistered k th ->
  was_delivered th k = false -> recv_any_turn cpu th ps is_killing k = Some (r, k') ->
  turn_post th ps P h r k'.
Proof.
  intros Hk Hth HP Hun Hd Ht. unfold recv_any_turn in Ht.
  destruct (update_ports _ 0 ps k) as [k1|] eqn:H1; [|done]. cbn [mbind option_bind] in Ht.
  pose proof (affinities_le _ _ _ _ _ H1) as Hle. pose proof (kh_le k P h k1 Hk Hle) as Hk1.
  assert (was_delivered th k1 = false) as Hd1 by (unfold was_delivered in *; by rewrite (il_waits _ _ Hle)).
  assert (unregistered k1 th) as Hun1.
  { intros o p' Hp' Hr. destruct (il_ports _ _ Hle o) as [Hv|[Hn _]]; [|congruence]. rewrite Hp' in Hv.
    destruct (ports k !! o) as [p|] eqn:Hp; [|done]. simpl in Hv. injection Hv as _ _ Hv _.
    apply (Hun o p Hp). congruence. }
  destruct (any_pop 0 ps k1) as [[r1 k2]|] eqn:H2; [|done]. cbn [mbind option_bind] in Ht.
  apply any_pop_spec in H2; [|done]. destruct r1 as [[j m]|].
  - injection Ht as <- <-. destruct H2 as (o & p & q & Hj & Ho & Hp & Hq & ->). simpl. exists o.
    rewrite Z.sub_0_r in Ho. split; [done|]. split; [|split].
    + apply kh_pop; try done. by apply not_delivered_pending.
    + intros o' p' Hp'. simpl in Hp'. apply lookup_insert_Some in Hp' as [[<- <-]|[_ Hp']]; [|by apply (Hun1 o')].
      apply (Hun1 o p Hp).
    + rewrite pending_put. by apply not_delivered_pending.
  - destruct H2 as [-> Hall]. destruct is_killing; [injection Ht as <- <-; apply Hk1|].
    destruct (update_ports _ 0 ps k1) as [k3|] eqn:H3; [|done]. cbn [mbind option_bind] in Ht.
    injection Ht as <- <-. simpl. by eapply (registers_kh th ps true P h ps).
Qed.

(** ** Every step keeps the invariant *)

Lemma turn_inv th ps any w r k' w' :
  turn_post th ps (<[th := Sleeping ps any]> (pcs w)) (hist w) r k' -> th <> 0 ->
  recv_ends th ps any false w r k' w' -> inv w'.
Proof.
  intros Hpost Hth He. destruct He as [i m k Hd|i m k o _ Ho|k|k|k]; simpl in Hpost; [done|..].
  - destruct Hpost as (o' & Ho' & Hk & Hun & Hpend). rewrite Ho in Ho'. injection Ho' as <-.
    apply (kh_end _ _ _ th) in Hk as [Hk Hh]; [|done|done].
    rewrite Hpend, delete_insert_eq in *. simpl in Hh. rewrite app_nil_r in Hh. by apply inv_kh.
  - destruct Hpost. by apply inv_kh.
  - destruct Hpost as [Hk Hh]. split; [done|]. split; [eauto|done].
  - done.
Qed.

Lemma recv_enter_inv w th cpu port is_killing r k' w' :
  kh (wk w) (pcs w) (hist w) -> th <> 0 -> pcs w !! th = None -> lock_lost w = false ->
  ipc_recv_enter cpu th port is_killing (wk w) = Some (r, k') ->
  recv_ends th [port] false false w r k' w' -> inv w'.
Proof.
  intros Hk Hth HP Hll Hr He. unfold ipc_recv_enter in Hr.
  destruct (port =? 0).
  { injection Hr as <- <-. inversion He; subst. destruct Hk. by apply inv_kh. }
  destruct (kh_begin _ _ _ th [port] false Hk Hth HP) as [Hk1 Hh1]; [eauto|].
  set (k1 := set_waits (<[th := new_wait]> (waits (wk w))) (wk w)) in *.
  destruct (ports k1 !! port) as [p|] eqn:Hp; [|done]. cbn [mbind option_bind] in Hr.
  eapply turn_inv; [|exact Hth|exact He].
  eapply recv_turn_post; [|done|apply lookup_insert_eq| |exact Hr].
  - apply (kh_le k1); [by split|]. by eapply port_put_le.
  - unfold was_delivered. simpl. by rewrite lookup_insert_eq.
Qed.

(** The message was there when the thread ran again. *)
Lemma delivered_inv w th ps any i m k' w' :
  kh k' (pcs w) (hist w) -> th <> 0 -> unregistered k' th -> pending th k' = [m] ->
  recv_ends th ps any true w (RGot i m) k' w' -> inv w'.
Proof.
  intros Hk Hth Hun Hpend He. inversion He; subst; [|done].
  apply (kh_end _ _ _ th) in Hk as [Hk Hh]; [|done|done]. rewrite Hpend in Hh. by apply inv_kh.
Qed.

Lemma sleeping_nonzero k P th ps any : kinv k P -> P !! th = Some (Sleeping ps any) -> th <> 0.
Proof. intros Hk HP ->. by rewrite (ki_zero _ _ Hk) in HP. Qed.

Lemma delivered_pending k P th w m :
  kinv k P -> waits k !! th = Some w -> w_delivered w = true -> w_message w = Some m ->
  pending th k = [m].
Proof. intros Hk Hw Hd Hm. unfold pending, delivered. by rewrite Hw, Hd, Hm. Qed.

Lemma recv_resume_inv w th port is_killing r k' w' :
  kh (wk w) (pcs w) (hist w) -> pcs w !! th = Some (Sleeping [port] false) ->
  ipc_recv_resume th port is_killing (wk w) = Some (r, k') ->
  recv_ends th [port] false (was_delivered th (wk w)) w r k' w' -> inv w'.
Proof.
  intros Hk HP Hr He. pose proof (sleeping_nonzero _ _ _ _ _ (proj1 Hk) HP) as Hth.
  unfold ipc_recv_resume in Hr. unfold was_delivered in He.
  destruct (waits (wk w) !! th) as [x|] eqn:Hw; [|done]. cbn [mbind option_bind] in Hr.
  destruct (w_delivered x) eqn:Hd.
  - destruct (w_message x) as [m|] eqn:Hm; [|done]. cbn [mbind option_bind] in Hr. injection Hr as <- <-.
    eapply delivered_inv; [exact Hk|exact Hth| |by eapply delivered_pending; [apply Hk|..]|exact He].
    intros o p Hp Hr. destruct (pi_receiver _ _ _ _ (ki_port _ _ (proj1 Hk) o p Hp))
      as (_ & ps & any & HP' & _ & Hdl); [congruence|].
    rewrite Hr, HP in HP'. injection HP' as <- <-. specialize (Hdl eq_refl).
    unfold was_delivered in Hdl. rewrite Hr, Hw in Hdl. congruence.
  - eapply turn_inv; [|exact Hth|exact He]. rewrite insert_id by done.
    eapply recv_turn_post; try done. unfold was_delivered. by rewrite Hw.
Qed.

Lemma recv_any_enter_inv w th cpu ps is_killing r k' w' :
  kh (wk w) (pcs w) (hist w) -> th <> 0 -> pcs w !! th = None -> lock_lost w = false ->
  ipc_recv_any_enter cpu th ps is_killing (wk w) = Some (r, k') ->
  recv_ends th ps true false w r k' w' -> inv w'.
Proof.
  intros Hk Hth HP Hll Hr He. unfold ipc_recv_any_enter in Hr.
  destruct (negb (recv_any_valid ps)).
  { injection Hr as <- <-. inversion He; subst. destruct Hk. by apply inv_kh. }
  pose proof (kh_begin _ _ _ th ps true Hk Hth HP ltac:(done)) as Hk1.
  eapply turn_inv; [|exact Hth|exact He].
  eapply recv_any_turn_post; [exact Hk1|done|apply lookup_insert_eq| | |exact Hr].
  - intros o p Hp Hr0. destruct (pi_receiver _ _ _ _ (ki_port _ _ (proj1 Hk) o p Hp))
      as (_ & ps' & any' & HP' & _); congruence.
  - unfold was_delivered. simpl. by rewrite lookup_insert_eq.
Qed.

Lemma recv_any_resume_inv w th cpu ps is_killing r k' w' :
  kh (wk w) (pcs w) (hist w) -> pcs w !! th = Some (Sleeping ps true) ->
  ipc_recv_any_resume cpu th ps is_killing (wk w) = Some (r, k') ->
  recv_ends th ps true (was_delivered th (wk w)) w r k' w' -> inv w'.
Proof.
  intros Hk HP Hr He. pose proof (sleeping_nonzero _ _ _ _ _ (proj1 Hk) HP) as Hth.
  unfold ipc_recv_any_resume in Hr. unfold was_delivered in He.
  destruct (update_ports _ 0 ps (wk w)) as [k1|] eqn:H1; [|done]. cbn [mbind option_bind] in Hr.
  destruct (drops_kh _ _ _ _ _ _ _ Hk H1) as (Hk1 & Hw1 & Hrest).
  assert (unregistered k1 th) as Hun.
  { intros o p Hp Hrp. destruct (Hrest o p Hp Hrp Hth) as [Hnin (q & Hq & Hrq)].
    by eapply Hnin, registered_in; [apply Hk|..]. }
  rewrite Hw1 in Hr.
  destruct (waits (wk w) !! th) as [x|] eqn:Hw; [|done]. cbn [mbind option_bind] in Hr.
  destruct (w_delivered x) eqn:Hd.
  - destruct (w_message x) as [m|] eqn:Hm; [|done]. cbn [mbind option_bind] in Hr. injection Hr as <- <-.
    eapply delivered_inv; [exact Hk1|exact Hth|exact Hun| |exact He].
    eapply delivered_pending; [apply Hk1|rewrite Hw1; exact Hw|done|done].
  - eapply turn_inv; [|exact Hth|exact He]. rewrite insert_id by done.
    eapply recv_any_turn_post; try done. unfold was_delivered. by rewrite Hw1, Hw.
Qed.

Lemma cancel_kh k P h th :
  kh k P h -> th <> 0 ->
  kh (ipc_cancel_thread th k) P h /\ unregistered (ipc_cancel_thread th k) th.
Proof.
  intros [Hk Hh] Hth. unfold ipc_cancel_thread. decide_tests.
  set (f := fun p => if receiver p =? th then clear_receiver p else p).
  assert (forall o p', (f <$> ports k) !! o = Some p' ->
    exists p, ports k !! o = Some p /\ p' = f p) as Hback.
  { intros o p'. rewrite lookup_fmap. intros (p & Hp & ->)%fmap_Some. eauto. }
  split; [split|].
  - constructor; try apply Hk. simpl. intros o p' (p & Hp & ->)%Hback.
    destruct (ki_port _ _ Hk o p Hp) as [H1 H2 H3]. unfold f. case_if; by constructor.
  - apply (hinv_ext k); [|done|exact Hh]. intros o. unfold queue_of. simpl. rewrite lookup_fmap.
    destruct (ports k !! o) as [p|]; [|done]. simpl. unfold f. by case_if.
  - intros o p' (p & Hp & ->)%Hback. unfold f. case_if; simpl; congruence.
Qed.

Lemma alloc_kh k P h name reuse : kh k P h -> kh (ipc_port_alloc name reuse k).2 P h.
Proof.
  intros Hk. unfold ipc_port_alloc, kalloc.
  destruct (if reuse then ports_by_name k !! name else None); [done|].
  destruct (kheap k) as [|avail rest]; simpl negb; [done|].
  destruct (sizeof_ipc_port <=? avail); simpl negb; cbv iota;
    [|by apply (kh_le k); [|apply ipc_le_tasks]].
  set (k1 := bump_port_id (set_heap rest k)).
  assert (kh k1 P h) as Hk1.
  { destruct Hk as [Hki Hh]. split; [|by apply (hinv_ext k)].
    constructor; try apply Hki. intros o p Hp. destruct (ki_port _ _ Hki o p Hp). by constructor. }
  simpl next_port_id. set (id := next_port_id k).
  destruct (bool_decide (is_Some (ports k1 !! id))) eqn:Hb; [done|]. bool_facts.
  assert (ports k1 !! id = None) as Hn by (by apply eq_None_not_Some).
  assert (kh (put_port id (new_port name reuse) k1) P h) as Hk2.
  { destruct Hk1 as [Hki Hh]. split.
    - constructor; try apply Hki. intros o p. simpl.
      intros [[<- <-]|[_ Hp]]%lookup_insert_Some; [by constructor|].
      destruct (ki_port _ _ Hki o p Hp). by constructor.
    - apply (hinv_ext k1); [|done|exact Hh]. intros o. rewrite queue_of_put. case_if; [|done].
      subst. unfold queue_of. by rewrite Hn. }
  destruct reuse; [|exact Hk2]. by eapply kh_le; [exact Hk2|apply ipc_le_tasks].
Qed.

Lemma kinv_pcs k P th x :
  kinv k P -> th <> 0 -> (forall ps any, P !! th <> Some (Sleeping ps any)) ->
  match x with Some (Sleeping _ _) => False | _ => True end ->
  kinv k (partial_alter (fun _ => x) th P).
Proof.
  intros Hk Hth HP Hx. constructor.
  - intros o p Hp. destruct (ki_port _ _ Hk o p Hp) as [H1 H2 H3]. constructor; [done|done|].
    intros Hr. destruct (H3 Hr) as (H4 & ps & any & HP' & Hrest). split; [done|]. exists ps, any.
    rewrite lookup_partial_alter_ne; [done|]. intros Heq. rewrite Heq in HP. by eapply HP.
  - intros th'. rewrite (ki_wait _ _ Hk). destruct (decide (th' = th)) as [->|].
    + rewrite lookup_partial_alter_eq. split; intros (ps & any & HP'); [by eapply HP in HP'|].
      rewrite HP' in Hx. done.
    + by rewrite lookup_partial_alter_ne.
  - apply Hk.
  - intros th' ps HP'. destruct (decide (th' = th)) as [->|].
    + rewrite lookup_partial_alter_eq in HP'. rewrite HP' in Hx. done.
    + rewrite lookup_partial_alter_ne in HP' by done. by eapply (ki_single _ _ Hk).
  - rewrite lookup_partial_alter_ne by done. apply Hk.
Qed.

Lemma step_inv w w' : inv w -> step w w' -> inv w'.
Proof.
  intros (Hh & [Q HQ] & Hki) Hs. destruct Hs as
    [th cpu sender handoff port m rcv k' Hll Hth HP Hsd Hr
    |th cpu sender port m k' Hll Hth HP Hsd
    |th sender port m k' Hll HP Hrel
    |th cpu sender port m rc k' Hll HP Hroom Hse
    |th cpu port kl r k' w' Hll Hth HP Hr He|th port kl r k' w' Hll HP Hr He
    |th cpu ps kl r k' w' Hll Hth HP Hr He|th cpu ps kl r k' w' Hll HP Hr He
    |th cpu port m k' Hll Hth HP Ht|th ps any Hll HP|name reuse Hll|k' Hle].
  12: { split; [eapply hinv_le; [|done|done]; intros; by eapply queued_inv|]. split; simpl.
        - exists Q. by eapply kinv_le.
        - intros Hll. eapply kinv_le; [by apply Hki|done]. }
  all: specialize (Hki Hll); assert (kh (wk w) (pcs w) (hist w)) as Hk by (by split).
  - apply (send_direct_kh _ _ _ _ _ _ _ _ _ Hk) in Hsd. rewrite (proj2 (Z.eqb_neq rcv 0)) in Hsd by done.
    eapply kh_le in Hsd; [|apply (send_handoff_le cpu handoff m rcv)]. destruct Hsd. by apply inv_kh.
  - apply (send_direct_kh _ _ _ _ _ _ _ _ _ Hk) in Hsd as [Hk1 Hh1]. apply inv_kh; [|done].
    apply (kinv_pcs _ _ _ (Some _)); try done. intros ps any. by rewrite HP.
  - assert (th <> 0) as Hth by (intros ->; by rewrite (ki_zero _ _ Hki) in HP).
    eapply kh_le in Hk as [Hk1 Hh1]; [|by eapply msg_release_le]. apply inv_kh; [|done].
    apply (kinv_pcs _ _ _ (Some _)); try done. intros ps any. by rewrite HP.
  - assert (th <> 0) as Hth by (intros ->; by rewrite (ki_zero _ _ Hki) in HP).
    apply (send_enqueue_kh _ _ _ _ _ _ _ _ _ Hk Hroom) in Hse as [Hk1 Hh1]. apply inv_kh; [|done].
    apply (kinv_pcs k' (pcs w) th None); try done. intros ps any. by rewrite HP.
  - by eapply recv_enter_inv.
  - by eapply recv_resume_inv.
  - by eapply recv_any_enter_inv.
  - by eapply recv_any_resume_inv.
  - unfold ipc_try_recv in Ht. destruct (port =? 0); [done|].
    destruct (ports (wk w) !! port) as [p|] eqn:Hp; [|done]. cbn [mbind option_bind] in Ht.
    destruct (p_queue p) as [|m' q] eqn:Hq; [done|]. rewrite pop_eq in Ht. cbn [mbind option_bind] in Ht.
    injection Ht as -> <-.
    assert (kh (put_port port (set_affinity cpu p) (wk w)) (pcs w) (hist w)) as Hk1.
    { eapply kh_le; [exact Hk|]. by eapply port_put_le. }
    apply (kh_pop _ _ _ port (set_affinity cpu p) m q th) in Hk1 as [Hk2 Hh2]; try done.
    + by apply inv_kh.
    + simpl. by rewrite lookup_insert_eq.
    + rewrite pending_put. by eapply pending_fresh.
  - pose proof (sleeping_nonzero _ _ _ _ _ Hki HP) as Hth.
    destruct (cancel_kh _ _ _ th Hk Hth) as [Hk1 Hun].
    apply (kh_end _ _ _ th) in Hk1 as [Hk2 Hh2]; [|done|done]. apply inv_kh; [done|].
    replace (pending th (wk w)) with (pending th (ipc_cancel_thread th (wk w))); [done|].
    unfold ipc_cancel_thread. by decide_tests.
  - destruct (alloc_kh _ _ _ name reuse Hk). by apply inv_kh.
Qed.

(** ** From the start *)

Definition fresh_kernel (k : kernel) : Prop :=
  waits k = ∅ /\
  forall o p, ports k !! o = Some p -> p_queue p = [] /\ queued p = 0 /\ receiver p = 0.

Definition start (k : kernel) : world := mk_world k ∅ false [].

Lemma start_inv k : fresh_kernel k -> inv (start k).
Proof.
  intros [Hw Hp]. apply inv_kh.
  - constructor.
    + intros o p Ho. destruct (Hp o p Ho) as (Hq & Hn & Hr). constructor; [|by rewrite Hq|by rewrite Hr].
      by rewrite Hq, Hn.
    + intros th. rewrite Hw, !lookup_empty. split; [by intros [? ?]|by intros (? & ? & ?)].
    + intros th w. by rewrite Hw.
    + intros th ps. by rewrite lookup_empty.
    + apply lookup_empty.
  - constructor; intros x; simpl.
    + unfold queue_of. destruct (ports k !! x) as [p|] eqn:Ho; [|done]. by destruct (Hp x p Ho) as [-> _].
    + unfold pending. by rewrite Hw, lookup_empty.
Qed.

Lemma reachable_inv k w : fresh_kernel k -> reachable (start k) w -> inv w.
Proof.
  intros Hf Hr. induction Hr as [|w w' _ IH Hs]; [by apply start_inv|by eapply step_inv].
Qed.

(** Once the lock is lost no section can run. *)
Lemma lost_step w w' : lock_lost w = true -> step w w' -> lock_lost w' = true /\ hist w' = hist w.
Proof. intros Hl Hs. destruct Hs; try congruence. done. Qed.

Lemma lost_forever w w' :
  lock_lost w = true -> reachable w w' -> lock_lost w' = true /\ hist w' = hist w.
Proof.
  intros Hl Hr. induction Hr as [|w1 w2 _ [IH1 IH2] Hs]; [done|].
  destruct (lost_step w1 w2 IH1 Hs) as [H1 H2]. split; [done|congruence].
Qed.

(** *** Two receivers on one port *)

Definition demo_msg : ipc_message := mk_msg 1 2 0 0 0 HEmpty 0 [1; 2; 3; 4].

Definition after {A} (r : option (A * kernel)) (k : kernel) : kernel :=
  match r with Some (_, k') => k' | None => k end.

Definition two_1 : kernel := after (ipc_recv_enter 0 1 10 false demo_kernel) demo_kernel.
Definition two_2 : kernel := after (ipc_recv_enter 0 2 10 false two_1) two_1.
Definition two_3 : kernel := after (send_direct 0 9 10 demo_msg two_2) two_2.
Definition two_4 : kernel := (send_handoff 0 1 demo_msg 2 two_3).2.
Definition two_5 : kernel := after (send_direct 0 9 10 demo_msg two_4) two_4.
Definition two_6 : kernel := after (send_enqueue 0 9 10 demo_msg two_5) two_5.

Lemma demo_fresh : fresh_kernel demo_kernel.
Proof.
  split; [done|]. intros o p Hp. unfold demo_kernel in Hp. simpl in Hp.
  apply lookup_singleton_Some in Hp as [_ <-]. done.
Qed.

Lemma two_room : queue_room two_5.
Proof.
  intros o p Hp. assert (ports two_5 = {[10 := mk_port "svc" 1 false [] 0 0 0 0 (Some 0)]}) as Heq
    by (vm_compute; reflexivity).
  rewrite Heq in Hp. apply lookup_singleton_Some in Hp as [_ <-]. done.
Qed.

Definition wakes (th : Z) (c : kcall) : bool :=
  match c with CUnblock t | CHandoff t => t =? th | _ => false end.

(** ** Claims *)

(** C4: Messages are neither lost, duplicated nor reordered, whatever the
    interleaving of senders and receivers: at every port, the messages it
    accepted are those that were assigned to receivers, in order, followed by
    those still queued; and for every thread, the messages assigned to it are
    those its calls returned, in order, followed by the one in its wait record,
    if any. *)
Theorem ipc_fifo_exactly_once k w :
  fresh_kernel k -> reachable (start k) w ->
  (forall o, accepted o (hist w) = taken o (hist w) ++ queue_of o (wk w)) /\
  (forall th, taken_by th (hist w) = finals th (hist w) ++ pending th (wk w)).
Proof.
  intros Hf Hr. destruct (reachable_inv k w Hf Hr) as [[H1 H2] _]. done.
Qed.

(** A thread sleeps on the port of the demonstration kernel. *)
Lemma two_1_reachable :
  reachable (start demo_kernel) (mk_world two_1 {[1 := Sleeping [10] false]} false []).
Proof.
  eapply reach_step; [apply reach_refl|].
  eapply (st_recv _ 1 0 10 false RBlock two_1); [done|done|done|vm_compute; reflexivity|constructor].
Qed.

(** A message was delivered to it. *)
Lemma one_delivered_reachable :
  reachable (start demo_kernel)
    (mk_world (send_handoff 0 1 demo_msg 1 (after (send_direct 0 9 10 demo_msg two_1) two_1)).2
       {[1 := Sleeping [10] false]} false
       [EAccept 10 (with_sender 9 demo_msg); ETake 10 1 (with_sender 9 demo_msg)]).
Proof.
  eapply reach_step; [apply two_1_reachable|].
  pose proof (st_direct (mk_world two_1 {[1 := Sleeping [10] false]} false []) 3 0 9 1 10 demo_msg 1
    (after (send_direct 0 9 10 demo_msg two_1) two_1) eq_refl) as Hs.
  apply Hs; [done|done|vm_compute; reflexivity|done].
Qed.

Lemma ipc_fifo_exactly_once_witness :
  taken_by 1 [EAccept 10 (with_sender 9 demo_msg); ETake 10 1 (with_sender 9 demo_msg)] =
    finals 1 [EAccept 10 (with_sender 9 demo_msg); ETake 10 1 (with_sender 9 demo_msg)] ++
    pending 1 (send_handoff 0 1 demo_msg 1 (after (send_direct 0 9 10 demo_msg two_1) two_1)).2.
Proof.
  exact (proj2 (ipc_fifo_exactly_once demo_kernel _ demo_fresh one_delivered_reachable) 1).
Defined.

(** C16: The wait record a sender writes to always exists: a port's receiver is
    a thread that sleeps in a receive on that port, the record is that thread's
    own, and the port's queue is empty. *)
Theorem ipc_receivers_sleep k w o p :
  fresh_kernel k -> reachable (start k) w -> lock_lost w = false ->
  ports (wk w) !! o = Some p -> receiver p <> 0 ->
  receiver_wait p = receiver p /\ p_queue p = [] /\ is_Some (waits (wk w) !! receiver_wait p) /\
  exists ps any, pcs w !! receiver p = Some (Sleeping ps any) /\ o ∈ ps.
Proof.
  intros Hf Hr Hl Hp Hrv. destruct (reachable_inv k w Hf Hr) as (_ & _ & Hk). specialize (Hk Hl).
  destruct (ki_port _ _ Hk o p Hp) as [_ Hidle Hrec].
  destruct (Hrec Hrv) as (Hw & ps & any & HP & Hin & _). rewrite Hw. split; [done|]. split.
  - destruct (p_queue p); [done|]. by destruct Hrv; apply Hidle.
  - split; [apply (ki_wait _ _ Hk)|]; eauto.
Qed.

Lemma ipc_receivers_sleep_witness :
  exists p, ports two_1 !! 10 = Some p /\ receiver p = 1 /\
    receiver_wait p = receiver p /\ p_queue p = [] /\ is_Some (waits two_1 !! receiver_wait p) /\
    exists ps any, (({[1 := Sleeping [10] false]} : gmap Z pc) !! receiver p = Some (Sleeping ps any)) /\
      10 ∈ ps.
Proof.
  exists (mk_port "svc" 1 false [] 0 1 1 0 (Some 0)). split; [vm_compute; reflexivity|]. split; [done|].
  apply (ipc_receivers_sleep demo_kernel _ 10 _ demo_fresh two_1_reachable); [done| |done].
  vm_compute. reflexivity.
Defined.

(** A second receiver on a port displaces the first: a state can be
    reached in which a thread sleeps in [ipc_recv] on a port that has a queued
    message and no registered receiver, and nothing has woken or will wake
    the thread. *)
Theorem ipc_displaced_receiver :
  exists w, reachable (start demo_kernel) w /\ lock_lost w = false /\
    pcs w !! 1 = Some (Sleeping [10] false) /\
    queue_of 10 (wk w) = [with_sender 9 demo_msg] /\
    receiver <$> ports (wk w) !! 10 = Some 0 /\
    forallb (fun c => negb (wakes 1 c)) (calls (wk w)) = true.
Proof.
  eexists. split.
  - eapply reach_step; [eapply reach_step; [eapply reach_step; [eapply reach_step;
      [eapply reach_step; [apply two_1_reachable|]|]|]|]|].
    + eapply (st_recv _ 2 0 10 false RBlock two_2); [done|done|done|vm_compute; reflexivity|constructor].
    + eapply (st_direct _ 3 0 9 1 10 demo_msg 2 two_3); [done|done|done|vm_compute; reflexivity|done].
    + eapply (st_not_direct _ 3 0 9 10 demo_msg two_5); [done|done|done|vm_compute; reflexivity].
    + eapply (st_drop _ 3 9 10 demo_msg two_5); [done|vm_compute; reflexivity|vm_compute; reflexivity].
    + eapply (st_enqueue _ 3 0 9 10 demo_msg 0 two_6);
        [done|vm_compute; reflexivity|apply two_room|vm_compute; reflexivity].
  - vm_compute. auto 10.
Qed.

(** A thread of a task that is being killed exits inside [ipc_recv] with
    the lock held; from then on no message is accepted, taken or returned by
    any thread, whatever happens. *)
Theorem ipc_exit_loses_lock :
  exists w, reachable (start demo_kernel) w /\ lock_lost w = true /\
    forall w', reachable w w' -> lock_lost w' = true /\ hist w' = hist w.
Proof.
  eexists. split; [|split].
  - eapply reach_step; [apply reach_refl|].
    eapply (st_recv _ 1 0 10 true RExit); [done|done|done|vm_compute; reflexivity|constructor].
  - done.
  - intros w'. by apply lost_forever.
Qed.
