(* ===== verification/Policy.v ===== *)
(** * Scheduling-policy capabilities (kernel/sched.c)

    A policy capability names a target (a task, a thread or the whole system)
    and bounds the scheduling parameters its holder may give it: classes,
    priorities, weights and processors.  A holder with the delegate right can
    grant attenuated copies, to a bounded depth.

    Capabilities are objects of [Handles]: their reference counts are in
    [policies] of the kernel, their contents here.  The task table is the
    in-order traversal of [tasks_by_pid], with the threads of each task.

    What a capability permits is stated in its own terms ([covers],
    [may_set], [attenuates]); lemmas show that the code's tests decide it. *)
From stdpp Require Import gmap list sorting strings.
From Stdlib Require Import ZArith Lia.
From S2P Require Import Prelude VmRegion Handles Ipc.

Open Scope Z_scope.
Open Scope machine_scope.

(** ** Data *)

Definition SCHED_CLASS_KERNEL : Z := 1.
Definition SCHED_CLASS_SERVER : Z := 2.
Definition SCHED_CLASS_USER : Z := 3.
Definition SCHED_CLASS_BATCH : Z := 4.
Definition SCHED_CLASS_IDLE : Z := 5.

Definition SCHED_POLICY_RIGHT_OBSERVE : Z := 1.
Definition SCHED_POLICY_RIGHT_CLASS : Z := 2.
Definition SCHED_POLICY_RIGHT_PRIORITY : Z := 4.
Definition SCHED_POLICY_RIGHT_WEIGHT : Z := 8.
Definition SCHED_POLICY_RIGHT_AFFINITY : Z := 16.
Definition SCHED_POLICY_RIGHT_DELEGATE : Z := 32.

Definition SCHED_POLICY_TARGET_TASK : Z := 1.
Definition SCHED_POLICY_TARGET_THREAD : Z := 2.
Definition SCHED_POLICY_TARGET_SYSTEM : Z := 5.
Definition SCHED_BASE_WEIGHT : Z := 1024.
Definition sizeof_sched_policy_cap : Z := 56.

(** [struct sched_policy_cap] without its reference count. *)
Record sched_policy_cap := mk_cap {
  c_target_kind : Z;
  c_rights : Z;
  c_delegation_depth : Z;
  c_target_id : Z;
  c_class_mask : Z;
  c_min_priority : Z;
  c_max_priority : Z;
  c_min_weight : Z;
  c_max_weight : Z;
  c_cpu_mask : Z;
}.

Record sched_policy_state := mk_state {
  s_target_kind : Z;
  s_target_id : Z;
  s_class : Z;
  s_priority : Z;
  s_weight : Z;
  s_cpu_mask : Z;
  s_online_cpu_mask : Z;
}.

(** The parameters of a thread and of a task. *)
Record thread_sched := mk_thread_sched {
  ts_tid : Z;
  ts_dead : bool;
  ts_class : Z;
  ts_priority : Z;
  ts_weight : Z;
  ts_affinity : Z;
}.

Record task_sched := mk_task_sched {
  tk_pid : Z;
  tk_class : Z;
  tk_priority : Z;
  tk_affinity : Z;
  tk_threads : list thread_sched;
}.

Record sched := mk_sched {
  kern : kernel;
  caps : gmap Z sched_policy_cap;
  table : list task_sched;
  next_cap : Z;
}.

Definition with_kern (k : kernel) (s : sched) : sched := mk_sched k (caps s) (table s) (next_cap s).
Definition with_table (t : list task_sched) (s : sched) : sched :=
  mk_sched (kern s) (caps s) t (next_cap s).

Section Policy.
(** [sched_cpu_count] *)
Context (sched_cpu_count : nat).

(** ** Masks *)

Fixpoint cpu_mask_upto (i n : nat) (mask : Z) : Z :=
  match n with
  | O => mask
  | S n => if (i <? 64)%nat then cpu_mask_upto (S i) n (Z.lor mask (Z.shiftl 1 (Z.of_nat i)))
           else mask
  end.

Definition sched_online_cpu_mask : Z := cpu_mask_upto 0 sched_cpu_count 0.

Definition sched_policy_class_bit (c : Z) : Z := Z.shiftl 1 c.

Definition all_classes : Z :=
  Z.lor (Z.lor (Z.lor (Z.lor (sched_policy_class_bit SCHED_CLASS_KERNEL)
    (sched_policy_class_bit SCHED_CLASS_SERVER)) (sched_policy_class_bit SCHED_CLASS_USER))
    (sched_policy_class_bit SCHED_CLASS_BATCH)) (sched_policy_class_bit SCHED_CLASS_IDLE).

(** [(a & ~b) == 0] *)
Definition subset_mask (a b : Z) : bool := Z.land a (Z.lnot b) =? 0.

Definition sched_policy_valid_class_mask (class_mask : Z) : bool :=
  negb (class_mask =? 0) && subset_mask class_mask all_classes.

Definition sched_policy_valid_cpu_mask (mask : Z) : bool :=
  negb (mask =? 0) && subset_mask mask sched_online_cpu_mask.

(** ** Checks *)

Definition sched_policy_cap_allows_target (cap : sched_policy_cap) (kind id : Z) : bool :=
  if c_target_kind cap =? SCHED_POLICY_TARGET_SYSTEM then
    (kind =? SCHED_POLICY_TARGET_TASK) || (kind =? SCHED_POLICY_TARGET_THREAD) ||
    (kind =? SCHED_POLICY_TARGET_SYSTEM)
  else (c_target_kind cap =? kind) && (c_target_id cap =? id).

Definition sched_policy_is_attenuated (parent child : sched_policy_cap) : bool :=
  negb (negb (has_right (c_rights parent) SCHED_POLICY_RIGHT_DELEGATE) ||
        (c_delegation_depth parent =? 0) ||
        (c_delegation_depth parent <=? c_delegation_depth child) ||
        negb (subset_mask (c_rights child) (c_rights parent)) ||
        negb (subset_mask (c_class_mask child) (c_class_mask parent)) ||
        (c_min_priority child <? c_min_priority parent) ||
        (c_max_priority parent <? c_max_priority child) ||
        (c_max_priority child <? c_min_priority child) ||
        (c_min_weight child <? c_min_weight parent) ||
        (c_max_weight parent <? c_max_weight child) ||
        (c_max_weight child <? c_min_weight child) ||
        negb (subset_mask (c_cpu_mask child) (c_cpu_mask parent)) ||
        negb (sched_policy_valid_class_mask (c_class_mask child)) ||
        negb (sched_policy_valid_cpu_mask (c_cpu_mask child))) &&
  sched_policy_cap_allows_target parent (c_target_kind child) (c_target_id child).

Definition sched_policy_state_allowed (cap : sched_policy_cap) (st : sched_policy_state) : bool :=
  negb (negb (sched_policy_cap_allows_target cap (u32 (s_target_kind st)) (s_target_id st)) ||
        (s_class st <? SCHED_CLASS_KERNEL) || (SCHED_CLASS_IDLE <? s_class st) ||
        (Z.land (c_class_mask cap) (sched_policy_class_bit (s_class st)) =? 0) ||
        (s_priority st <? c_min_priority cap) || (c_max_priority cap <? s_priority st) ||
        (s_weight st <? c_min_weight cap) || (c_max_weight cap <? s_weight st) ||
        negb (sched_policy_valid_cpu_mask (s_cpu_mask st)) ||
        negb (subset_mask (s_cpu_mask st) (c_cpu_mask cap))).

(** ** Creating and granting *)

Definition system_cap : sched_policy_cap :=
  mk_cap SCHED_POLICY_TARGET_SYSTEM 63 8 0 all_classes 0 255 1 65535 sched_online_cpu_mask.

(** A new capability object with one reference. *)
Definition new_cap (c : sched_policy_cap) (s : sched) : Z * sched :=
  let id := next_cap s in
  (id, mk_sched (set_policies (<[id := 1]> (policies (kern s))) (kern s))
         (<[id := c]> (caps s)) (table s) (id + 1)).

Definition sched_policy_cap_create_system (s : sched) : Z * sched :=
  let '(ok, k) := kalloc sizeof_sched_policy_cap (kern s) in
  let s := with_kern k s in
  if negb ok then (0, s) else new_cap system_cap s.

Definition child_cap (target_task : Z) (requested : sched_policy_cap) : sched_policy_cap :=
  if (c_target_kind requested =? SCHED_POLICY_TARGET_TASK) && (c_target_id requested =? 0) then
    mk_cap (c_target_kind requested) (c_rights requested) (c_delegation_depth requested) target_task
      (c_class_mask requested) (c_min_priority requested) (c_max_priority requested)
      (c_min_weight requested) (c_max_weight requested) (c_cpu_mask requested)
  else requested.

Definition sched_policy_grant (owner authority_handle target_task : Z)
    (requested : sched_policy_cap) (s : sched) : option (Z * sched) :=
  '(authority, k) ← task_sched_policy_from_handle owner authority_handle TASK_RIGHT_SEND (kern s);
  let s := with_kern k s in
  if authority =? 0 then Some (0, s) else
  let '(ok, k) := kalloc sizeof_sched_policy_cap (kern s) in
  let s := with_kern k s in
  if negb ok then
    k ← sched_policy_cap_release authority (kern s); Some (0, with_kern k s)
  else
  parent ← caps s !! authority;
  let c := child_cap target_task requested in
  if negb (sched_policy_is_attenuated parent c) then
    k ← sched_policy_cap_release authority (kern s); Some (0, with_kern k s)
  else
  let '(child, s) := new_cap c s in
  '(granted, k) ← task_grant_sched_policy target_task child
                    (Z.lor TASK_RIGHT_SEND TASK_RIGHT_DUP) (kern s);
  k ← sched_policy_cap_release child k;
  k ← sched_policy_cap_release authority k;
  Some (granted, with_kern k s).

(** ** Reading and setting parameters *)

(** [task_find_by_id_retain]: 0 is the null pointer. *)
Definition task_find_by_id_retain (id : Z) (s : sched) : option (Z * sched) :=
  match find_idx (fun t => tk_pid t =? id) (table s) with
  | None => Some (0, s)
  | Some _ =>
      '(rc, k) ← task_retain id (kern s);
      Some (if rc =? 0 then id else 0, with_kern k s)
  end.

Definition default_target (cap : sched_policy_cap) (st : sched_policy_state) : sched_policy_state :=
  if s_target_kind st =? 0 then
    mk_state (c_target_kind cap) (c_target_id cap) (s_class st) (s_priority st) (s_weight st)
      (s_cpu_mask st) (s_online_cpu_mask st)
  else st.

Definition is_target (tid : Z) (th : thread_sched) : bool := (ts_tid th =? tid) && negb (ts_dead th).

(** The first living thread with that id, in the order of the traversal. *)
Fixpoint find_thread (tid : Z) (tasks : list task_sched) : option thread_sched :=
  match tasks with
  | [] => None
  | t :: tasks =>
      match find_idx (is_target tid) (tk_threads t) with
      | Some i => tk_threads t !! i
      | None => find_thread tid tasks
      end
  end.

Definition sched_policy_get (owner authority_handle : Z) (st : sched_policy_state) (s : sched)
    : option (Z * sched_policy_state * sched) :=
  '(authority, k) ← task_sched_policy_from_handle owner authority_handle TASK_RIGHT_SEND (kern s);
  let s := with_kern k s in
  if authority =? 0 then Some (-1, st, s) else
  cap ← caps s !! authority;
  let st := default_target cap st in
  let fail := k ← sched_policy_cap_release authority (kern s); Some (-1, st, with_kern k s) in
  if negb (has_right (c_rights cap) SCHED_POLICY_RIGHT_OBSERVE) ||
     negb (sched_policy_cap_allows_target cap (u32 (s_target_kind st)) (s_target_id st))
  then fail else
  let online := sched_online_cpu_mask in
  if s_target_kind st =? SCHED_POLICY_TARGET_SYSTEM then
    k ← sched_policy_cap_release authority (kern s);
    Some (0, mk_state (s_target_kind st) (s_target_id st) 0 0 SCHED_BASE_WEIGHT online online,
          with_kern k s)
  else if s_target_kind st =? SCHED_POLICY_TARGET_TASK then
    '(target, s) ← task_find_by_id_retain (s_target_id st) s;
    if target =? 0 then
      k ← sched_policy_cap_release authority (kern s);
      Some (-1, mk_state (s_target_kind st) (s_target_id st) (s_class st) (s_priority st) (s_weight st)
                  (s_cpu_mask st) online, with_kern k s)
    else
    i ← find_idx (fun t => tk_pid t =? target) (table s);
    t ← table s !! i;
    k ← task_release target (kern s);
    k ← sched_policy_cap_release authority k;
    Some (0, mk_state (s_target_kind st) (s_target_id st) (tk_class t) (tk_priority t)
               (match tk_threads t with th :: _ => ts_weight th | [] => SCHED_BASE_WEIGHT end)
               (tk_affinity t) online, with_kern k s)
  else if s_target_kind st =? SCHED_POLICY_TARGET_THREAD then
    k ← sched_policy_cap_release authority (kern s);
    match find_thread (s_target_id st) (table s) with
    | Some th => Some (0, mk_state (s_target_kind st) (s_target_id st) (ts_class th) (ts_priority th)
                            (ts_weight th) (ts_affinity th) online, with_kern k s)
    | None => Some (-1, mk_state (s_target_kind st) (s_target_id st) (s_class st) (s_priority st)
                          (s_weight st) (s_cpu_mask st) online, with_kern k s)
    end
  else
    k ← sched_policy_cap_release authority (kern s);
    Some (-1, mk_state (s_target_kind st) (s_target_id st) (s_class st) (s_priority st) (s_weight st)
                (s_cpu_mask st) online, with_kern k s).

Definition set_thread (st : sched_policy_state) (th : thread_sched) : thread_sched :=
  mk_thread_sched (ts_tid th) (ts_dead th) (s_class st) (u32 (s_priority st)) (u32 (s_weight st))
    (s_cpu_mask st).

Definition set_task (st : sched_policy_state) (t : task_sched) : task_sched :=
  mk_task_sched (tk_pid t) (s_class st) (u32 (s_priority st)) (s_cpu_mask st)
    (map (set_thread st) (tk_threads t)).

(** The loop over the table that stops at the first thread with that id. *)
Fixpoint set_first_thread (st : sched_policy_state) (tasks : list task_sched)
    : option (list task_sched) :=
  match tasks with
  | [] => None
  | t :: tasks =>
      match find_idx (is_target (s_target_id st)) (tk_threads t) with
      | Some i =>
          Some (mk_task_sched (tk_pid t) (tk_class t) (tk_priority t) (tk_affinity t)
                  (alter (set_thread st) i (tk_threads t)) :: tasks)
      | None => tasks' ← set_first_thread st tasks; Some (t :: tasks')
      end
  end.

Definition set_rights : Z :=
  Z.lor (Z.lor (Z.lor SCHED_POLICY_RIGHT_CLASS SCHED_POLICY_RIGHT_PRIORITY)
           SCHED_POLICY_RIGHT_WEIGHT) SCHED_POLICY_RIGHT_AFFINITY.

(** [sched_policy_set] from the check of the rights on. *)
Definition set_body (authority : Z) (cap : sched_policy_cap) (requested : sched_policy_state)
    (s : sched) : option (Z * sched) :=
  let st := default_target cap requested in
  let finish rc s := k ← sched_policy_cap_release authority (kern s); Some (rc, with_kern k s) in
  if negb (rights_include (c_rights cap) set_rights) || negb (sched_policy_state_allowed cap st)
  then finish (-1) s else
  if s_target_kind st =? SCHED_POLICY_TARGET_TASK then
    '(target, s) ← task_find_by_id_retain (s_target_id st) s;
    if target =? 0 then finish (-1) s else
    i ← find_idx (fun t => tk_pid t =? target) (table s);
    let s := with_table (alter (set_task st) i (table s)) s in
    k ← task_release target (kern s);
    finish 0 (with_kern k s)
  else if s_target_kind st =? SCHED_POLICY_TARGET_THREAD then
    match set_first_thread st (table s) with
    | Some t => finish 0 (with_table t s)
    | None => finish (-1) s
    end
  else finish (-1) s.

Definition sched_policy_set (owner authority_handle : Z) (requested : sched_policy_state) (s : sched)
    : option (Z * sched) :=
  '(authority, k) ← task_sched_policy_from_handle owner authority_handle TASK_RIGHT_SEND (kern s);
  let s := with_kern k s in
  if authority =? 0 then Some (-1, s) else
  cap ← caps s !! authority;
  set_body authority cap requested s.

End Policy.

(** ** What capabilities mean *)

(** Every bit of [a] is set in [b]. *)
Definition bits_within (a b : Z) : Prop :=
  forall i, 0 <= i -> Z.testbit a i = true -> Z.testbit b i = true.

(** The capability is for this target: a system capability for every task,
    every thread and the system, any other one for the target it names. *)
Definition covers_target (c : sched_policy_cap) (kind id : Z) : Prop :=
  c_target_kind c = 5 /\ (kind = 1 \/ kind = 2 \/ kind = 5) \/
  c_target_kind c <> 5 /\ c_target_kind c = kind /\ c_target_id c = id.

(** A set of processors that is not empty, with only processors that exist. *)
Definition cpus_exist (n : nat) (mask : Z) : Prop :=
  mask <> 0 /\ forall i, 0 <= i -> Z.testbit mask i = true -> i < Z.of_nat n /\ i < 64.

(** The capability covers these parameters on a machine of [n] processors. *)
Record covers (n : nat) (c : sched_policy_cap) (st : sched_policy_state) : Prop := {
  cv_target : covers_target c (s_target_kind st mod 2 ^ 32) (s_target_id st);
  cv_class : 1 <= s_class st <= 5 /\ Z.testbit (c_class_mask c) (s_class st) = true;
  cv_priority : c_min_priority c <= s_priority st <= c_max_priority c;
  cv_weight : c_min_weight c <= s_weight st <= c_max_weight c;
  cv_cpus : cpus_exist n (s_cpu_mask st) /\ bits_within (s_cpu_mask st) (c_cpu_mask c);
}.

(** The rights over class, priority, weight and affinity: bits 1 to 4. *)
Definition may_set (c : sched_policy_cap) : Prop :=
  forall i, 1 <= i <= 4 -> Z.testbit (c_rights c) i = true.

(** Everything [c] allows, [p] allows. *)
Record cap_le (c p : sched_policy_cap) : Prop := {
  le_rights : bits_within (c_rights c) (c_rights p);
  le_depth : c_delegation_depth c <= c_delegation_depth p;
  le_class : bits_within (c_class_mask c) (c_class_mask p);
  le_priority : c_min_priority p <= c_min_priority c /\ c_max_priority c <= c_max_priority p;
  le_weight : c_min_weight p <= c_min_weight c /\ c_max_weight c <= c_max_weight p;
  le_cpus : bits_within (c_cpu_mask c) (c_cpu_mask p);
  le_target : forall kind id, covers_target c kind id -> covers_target p kind id;
}.

(** [p] may be delegated as [c]: [p] has the right to delegate (bit 5) and
    depth left, [c] has less depth, allows nothing more and is well formed. *)
Record attenuates (n : nat) (p c : sched_policy_cap) : Prop := {
  at_delegate : Z.testbit (c_rights p) 5 = true;
  at_depth : c_delegation_depth p <> 0 /\ c_delegation_depth c < c_delegation_depth p;
  at_rights : bits_within (c_rights c) (c_rights p);
  at_class : bits_within (c_class_mask c) (c_class_mask p);
  at_priority : c_min_priority p <= c_min_priority c <= c_max_priority c /\
    c_max_priority c <= c_max_priority p;
  at_weight : c_min_weight p <= c_min_weight c <= c_max_weight c /\
    c_max_weight c <= c_max_weight p;
  at_cpus : bits_within (c_cpu_mask c) (c_cpu_mask p);
  at_target : covers_target p (c_target_kind c) (c_target_id c);
  at_classes : c_class_mask c <> 0 /\
    forall i, 0 <= i -> Z.testbit (c_class_mask c) i = true -> 1 <= i <= 5;
  at_processors : cpus_exist n (c_cpu_mask c);
}.

(** *** The checks of the code *)

Lemma bits_within_refl a : bits_within a a.
Proof. by intros i. Qed.

Lemma bits_within_trans a b c : bits_within a b -> bits_within b c -> bits_within a c.
Proof. intros H1 H2 i Hi Ha. by apply H2, H1. Qed.

Lemma within_bits a b : rights_within a b <-> bits_within a b.
Proof.
  unfold rights_within, bits_within. split.
  - intros H i Hi Ha. apply (f_equal (fun z => Z.testbit z i)) in H.
    rewrite Z.land_spec, Z.lnot_spec, Ha, Z.bits_0 in H by done. by destruct (Z.testbit b i).
  - intros H. apply Z.bits_inj'. intros i Hi. rewrite Z.land_spec, Z.lnot_spec, Z.bits_0 by done.
    specialize (H i Hi). destruct (Z.testbit a i); [by rewrite H|done].
Qed.

Lemma subset_bits a b : subset_mask a b = true <-> bits_within a b.
Proof. unfold subset_mask. rewrite Z.eqb_eq. apply within_bits. Qed.

Lemma bit_set mask c : 0 <= c -> (Z.land mask (Z.shiftl 1 c) =? 0) = false <-> Z.testbit mask c = true.
Proof.
  intros Hc. rewrite Z.eqb_neq, Z.shiftl_1_l. split.
  - intros Hne. destruct (Z.testbit mask c) eqn:Hb; [done|]. exfalso. apply Hne. apply Z.bits_inj'.
    intros i Hi. rewrite Z.land_spec, Z.pow2_bits_eqb, Z.bits_0 by done.
    destruct (Z.eqb_spec c i) as [->|]; [by rewrite Hb|by rewrite andb_false_r].
  - intros Hb H. apply (f_equal (fun z => Z.testbit z c)) in H.
    by rewrite Z.land_spec, Hb, Z.pow2_bits_true, Z.bits_0 in H.
Qed.

Lemma cpu_mask_bits i n mask j :
  0 <= j -> Z.testbit (cpu_mask_upto i n mask) j = true <->
  Z.testbit mask j = true \/ Z.of_nat i <= j < Z.of_nat (i + n) /\ j < 64.
Proof.
  intros Hj. revert i mask. induction n as [|n IH]; intros i mask; simpl cpu_mask_upto.
  { split; [by left|]. intros [|]; [done|lia]. }
  destruct (Nat.ltb_spec i 64).
  - rewrite IH, Z.lor_spec, Z.shiftl_1_l, Z.pow2_bits_eqb, orb_true_iff, Z.eqb_eq by lia.
    destruct (Z.testbit mask j); [tauto|].
    split; [intros [[]|]; [done|right; lia..]|intros [|]; [done|]].
    destruct (decide (Z.of_nat i = j)); [by left; right|right; lia].
  - split; [by left|]. intros [|]; [done|lia].
Qed.

Lemma online_bits n j : 0 <= j -> Z.testbit (sched_online_cpu_mask n) j = true <-> j < Z.of_nat n /\ j < 64.
Proof.
  intros Hj. unfold sched_online_cpu_mask. rewrite cpu_mask_bits by done. rewrite Z.bits_0. simpl. lia.
Qed.

Lemma valid_cpus n mask : sched_policy_valid_cpu_mask n mask = true <-> cpus_exist n mask.
Proof.
  unfold sched_policy_valid_cpu_mask, cpus_exist. rewrite andb_true_iff, negb_true_iff, Z.eqb_neq, subset_bits.
  split; intros [Hne H]; (split; [done|]); intros i Hi Hb; [by apply online_bits; [|apply H]|].
  apply online_bits; [done|by apply H].
Qed.

Lemma class_bits i : 0 <= i -> Z.testbit all_classes i = true <-> 1 <= i <= 5.
Proof.
  intros Hi. change all_classes with 62. destruct (Z.le_gt_cases 6 i).
  - rewrite (Z.bits_above_log2 62 i) by (change (Z.log2 62) with 5; lia). split; [done|lia].
  - assert (i = 0 \/ i = 1 \/ i = 2 \/ i = 3 \/ i = 4 \/ i = 5) as Hc by lia.
    destruct Hc as [->|[->|[->|[->|[->| ->]]]]]; 
      (split; intros Hb; [first [lia|discriminate Hb]|first [lia|reflexivity]]).
Qed.

Lemma valid_classes mask : sched_policy_valid_class_mask mask = true <->
  mask <> 0 /\ forall i, 0 <= i -> Z.testbit mask i = true -> 1 <= i <= 5.
Proof.
  unfold sched_policy_valid_class_mask. rewrite andb_true_iff, negb_true_iff, Z.eqb_neq, subset_bits.
  split; intros [Hne H]; (split; [done|]); intros i Hi Hb; [by apply class_bits; [|apply H]|].
  apply class_bits; [done|by apply H].
Qed.

Lemma allows_covers c kind id : sched_policy_cap_allows_target c kind id = true <-> covers_target c kind id.
Proof.
  unfold sched_policy_cap_allows_target, covers_target, SCHED_POLICY_TARGET_SYSTEM, SCHED_POLICY_TARGET_TASK,
    SCHED_POLICY_TARGET_THREAD.
  destruct (Z.eqb_spec (c_target_kind c) 5); [rewrite !orb_true_iff, !Z.eqb_eq; tauto|].
  rewrite andb_true_iff, !Z.eqb_eq. tauto.
Qed.

Lemma set_rights_bits c : rights_include (c_rights c) set_rights = true <-> may_set c.
Proof.
  unfold rights_include, may_set. rewrite Z.eqb_eq. change set_rights with 30. split.
  - intros H i Hi. apply (f_equal (fun z => Z.testbit z i)) in H. rewrite Z.land_spec in H.
    destruct (Z.testbit (c_rights c) i); [done|]. simpl in H.
    assert (i = 1 \/ i = 2 \/ i = 3 \/ i = 4) as Hc by lia. by destruct Hc as [->|[->|[->| ->]]].
  - intros H. apply Z.bits_inj'. intros i Hi. rewrite Z.land_spec.
    destruct (Z.testbit 30 i) eqn:Hb; [|apply andb_false_r]. rewrite H; [done|].
    destruct (Z.le_gt_cases 5 i).
    { rewrite Z.bits_above_log2 in Hb by (change (Z.log2 30) with 4; lia). done. }
    destruct (decide (i = 0)) as [->|]; [done|lia].
Qed.

Lemma delegate_bit r : has_right r SCHED_POLICY_RIGHT_DELEGATE = true <-> Z.testbit r 5 = true.
Proof.
  unfold has_right. rewrite negb_true_iff. change SCHED_POLICY_RIGHT_DELEGATE with (Z.shiftl 1 5).
  by apply bit_set.
Qed.


Section Attenuation.
Context (n : nat).

Lemma allowed_covers c st : sched_policy_state_allowed n c st = true <-> covers n c st.
Proof.
  unfold sched_policy_state_allowed, sched_policy_class_bit, SCHED_CLASS_KERNEL, SCHED_CLASS_IDLE.
  rewrite negb_true_iff, !orb_false_iff, !negb_false_iff, !Z.ltb_ge, subset_bits, valid_cpus, allows_covers.
  unfold u32. split.
  - intros [[[[[[[[[Ht Hc1] Hc2] Hcb] Hp1] Hp2] Hw1] Hw2] Hv] Hs].
    constructor; [done| |lia|lia|done]. split; [lia|]. by apply bit_set; [lia|].
  - intros [Ht [Hc Hcb] Hp Hw [Hv Hs]]. apply bit_set in Hcb; [|lia].
    split_and!; first [done|lia|apply Hv].
Qed.

Lemma attenuated_iff p c : sched_policy_is_attenuated n p c = true <-> attenuates n p c.
Proof.
  unfold sched_policy_is_attenuated.
  rewrite andb_true_iff, negb_true_iff, !orb_false_iff, !negb_false_iff, !Z.ltb_ge, Z.leb_gt, Z.eqb_neq,
    !subset_bits, valid_cpus, valid_classes, allows_covers, delegate_bit. split.
  - intros [H Ht]. repeat match goal with H : _ /\ _ |- _ => destruct H end. constructor; split_and?; done || lia.
  - intros [H1 [H2 H2'] H3 H4 [H5 H5'] [H6 H6'] H7 H8 H9 H10]. split; [|done].
    destruct H9, H10. split_and!; done || lia.
Qed.

Lemma attenuated_le p c :
  sched_policy_is_attenuated n p c = true ->
  cap_le c p /\ c_delegation_depth c < c_delegation_depth p.
Proof.
  intros [H1 [H2 H2'] H3 H4 [H5 H5'] [H6 H6'] H7 H8 H9 H10]%attenuated_iff. split; [|done].
  constructor; try done; [lia..|]. intros kind id. revert H8. unfold covers_target. intuition congruence.
Qed.

Lemma covers_le c p st : cap_le c p -> covers n c st -> covers n p st.
Proof.
  intros [H1 H2 H3 H4 H5 H6 H7] [Ht [Hc Hcb] Hp Hw [Hv Hs]]. constructor; [by apply H7| |lia|lia|].
  - split; [done|]. apply H3; [lia|done].
  - split; [done|]. by eapply bits_within_trans.
Qed.

End Attenuation.

Lemma cap_le_refl c : cap_le c c.
Proof. constructor; auto using bits_within_refl; lia. Qed.

Lemma cap_le_trans a b c : cap_le a b -> cap_le b c -> cap_le a c.
Proof. intros [] []. constructor; eauto using bits_within_trans; lia. Qed.

(** ** Where parameters come from *)

Section Confined.
Context (n : nat).

(** A capability of [s0] permits the parameters [st]. *)
Definition permitted (s0 : sched) (st : sched_policy_state) : Prop :=
  exists id c, caps s0 !! id = Some c /\ may_set c /\ covers n c st.

Definition thread_params (th : thread_sched) : Z * Z * Z * Z :=
  (ts_class th, ts_priority th, ts_weight th, ts_affinity th).
Definition task_params (t : task_sched) : Z * Z * Z := (tk_class t, tk_priority t, tk_affinity t).

(** The parameters are the ones of the start or were permitted then. *)
Definition thread_from (s0 : sched) (pid : Z) (th0 th : thread_sched) : Prop :=
  ts_tid th = ts_tid th0 /\ ts_dead th = ts_dead th0 /\
  (thread_params th = thread_params th0 \/
   exists st, permitted s0 st /\
     (s_target_kind st = SCHED_POLICY_TARGET_TASK /\ s_target_id st = pid \/
      s_target_kind st = SCHED_POLICY_TARGET_THREAD /\ s_target_id st = ts_tid th) /\
     thread_params th = (s_class st, u32 (s_priority st), u32 (s_weight st), s_cpu_mask st)).

Definition task_from (s0 : sched) (t0 t : task_sched) : Prop :=
  tk_pid t = tk_pid t0 /\
  (task_params t = task_params t0 \/
   exists st, permitted s0 st /\ s_target_kind st = SCHED_POLICY_TARGET_TASK /\
     s_target_id st = tk_pid t /\ task_params t = (s_class st, u32 (s_priority st), s_cpu_mask st)) /\
  Forall2 (thread_from s0 (tk_pid t)) (tk_threads t0) (tk_threads t).

Record confined (s0 s : sched) : Prop := {
  cf_caps : forall id c, caps s !! id = Some c ->
    exists id0 c0, caps s0 !! id0 = Some c0 /\ cap_le c c0;
  cf_table : Forall2 (task_from s0) (table s0) (table s);
}.

Lemma confined_refl s : confined s s.
Proof.
  constructor; [eauto using cap_le_refl|]. apply Forall_Forall2_diag, Forall_forall. intros t _.
  split; [done|]. split; [by left|]. apply Forall_Forall2_diag, Forall_forall. intros th _.
  split; [done|]. split; [done|by left].
Qed.

Lemma confined_permitted s0 s id c st :
  confined s0 s -> caps s !! id = Some c -> rights_include (c_rights c) set_rights = true ->
  sched_policy_state_allowed n c st = true -> permitted s0 st.
Proof.
  intros Hcf Hc Hr%set_rights_bits Ha%allowed_covers.
  destruct (cf_caps _ _ Hcf id c Hc) as (id0 & c0 & Hc0 & Hle).
  exists id0, c0. split; [done|]. split; [|by eapply covers_le].
  intros i Hi. apply (le_rights _ _ Hle); [lia|by apply Hr].
Qed.

Lemma find_idx_alter {A} (f : A -> bool) (g : A -> A) (l : list A) i (R : A -> A -> Prop) l0 :
  Forall2 R l0 l -> find_idx f l = Some i ->
  (forall x0 x, R x0 x -> f x = true -> R x0 (g x)) -> Forall2 R l0 (alter g i l).
Proof.
  intros HR Hf Hg. apply find_idx_lookup in Hf as (x & Hi & Hfx).
  apply Forall2_lookup. intros j. destruct (decide (j = i)) as [->|Hne].
  - rewrite list_lookup_alter_eq, Hi. eapply Forall2_lookup_r in HR as (x0 & Hx0 & HRx); [|exact Hi].
    rewrite Hx0. simpl. constructor. by apply Hg.
  - rewrite list_lookup_alter_ne by done. by apply Forall2_lookup.
Qed.

Lemma set_task_from s0 st t0 t :
  permitted s0 st -> s_target_kind st = SCHED_POLICY_TARGET_TASK -> tk_pid t = s_target_id st ->
  task_from s0 t0 t -> task_from s0 t0 (set_task st t).
Proof.
  intros Hp Hk Hid (H1 & _ & H3). split; [done|]. split; [right; exists st; eauto|]. simpl.
  apply Forall2_fmap_r. eapply Forall2_impl; [exact H3|]. intros th0 th (Ht & Hd & _).
  split; [done|]. split; [done|]. right. exists st. split; [done|]. split; [left; eauto|done].
Qed.

Lemma set_first_from s0 st l0 l l' :
  permitted s0 st -> s_target_kind st = SCHED_POLICY_TARGET_THREAD ->
  Forall2 (task_from s0) l0 l -> set_first_thread st l = Some l' -> Forall2 (task_from s0) l0 l'.
Proof.
  intros Hp Hk HR. revert l'. induction HR as [|t0 t l0 l Ht HR IH]; intros l' Hs; simpl in Hs; [done|].
  destruct (find_idx (is_target (s_target_id st)) (tk_threads t)) as [i|] eqn:Hf.
  - injection Hs as <-. constructor; [|done]. destruct Ht as (H1 & H2 & H3).
    split; [done|]. split; [exact H2|]. simpl. eapply find_idx_alter; [exact H3|exact Hf|].
    intros th0 th (Ht & Hd & _) Hit. split; [done|]. split; [done|]. right. exists st. split; [done|].
    split; [right; split; [done|]|done]. unfold is_target in Hit. apply andb_true_iff in Hit as [Hit _].
    apply Z.eqb_eq in Hit. done.
  - destruct (set_first_thread st l) as [l1|] eqn:H1; [|done]. injection Hs as <-. constructor; [done|].
    by apply IH.
Qed.

Definition same_policy (s s' : sched) : Prop := caps s' = caps s /\ table s' = table s.

Lemma confined_same s0 s s' : confined s0 s -> same_policy s s' -> confined s0 s'.
Proof. intros [H1 H2] [Hc Ht]. constructor; rewrite ?Hc, ?Ht; done. Qed.

Lemma find_task_same id s t s' : task_find_by_id_retain id s = Some (t, s') ->
  same_policy s s' /\ (t = 0 \/ t = id).
Proof.
  unfold task_find_by_id_retain. intros Hf. frame_binds; try (by split; [split|auto]).
  split; [done|]. case_if; auto.
Qed.

Lemma set_confined s0 s owner h req rc s' :
  confined s0 s -> sched_policy_set n owner h req s = Some (rc, s') -> confined s0 s'.
Proof.
  intros Hcf Hs. unfold sched_policy_set, set_body in Hs.
  destruct (task_sched_policy_from_handle _ _ _ _) as [[authority k]|]; [|done].
  cbn [mbind option_bind] in Hs. destruct (authority =? 0).
  { injection Hs as _ <-. by eapply confined_same. }
  simpl caps in Hs. destruct (caps s !! authority) as [cap|] eqn:Hcap; [|done].
  cbn [mbind option_bind] in Hs. set (st := default_target cap req) in *.
  destruct (negb (rights_include (c_rights cap) set_rights)) eqn:Hr.
  { simpl in Hs. frame_binds. by eapply confined_same. }
  destruct (negb (sched_policy_state_allowed n cap st)) eqn:Ha.
  { simpl in Hs. frame_binds. by eapply confined_same. }
  apply negb_false_iff in Hr, Ha. simpl orb in Hs. cbv iota in Hs.
  pose proof (confined_permitted s0 s authority cap st Hcf Hcap Hr Ha) as Hp.
  destruct (s_target_kind st =? SCHED_POLICY_TARGET_TASK) eqn:Hk.
  - apply Z.eqb_eq in Hk.
    destruct (task_find_by_id_retain _ _) as [[t s1]|] eqn:Hf; [|done]. cbn [mbind option_bind] in Hs.
    apply find_task_same in Hf as [[Hc1 Ht1] Hid]. destruct (t =? 0) eqn:Hz.
    { frame_binds. eapply confined_same; [exact Hcf|]. done. }
    apply Z.eqb_neq in Hz. destruct Hid as [Hid|Hid]; [done|]. subst t.
    destruct (find_idx _ (table s1)) as [i|] eqn:Hi; [|done]. cbn [mbind option_bind] in Hs.
    simpl in Ht1, Hc1. frame_binds. destruct Hcf as [H1 H2]. constructor; simpl; rewrite ?Hc1, ?Ht1 in *; [done|].
    eapply find_idx_alter; [exact H2|exact Hi|]. intros t0 t Htf Hpid. apply Z.eqb_eq in Hpid.
    by apply set_task_from.
  - destruct (s_target_kind st =? SCHED_POLICY_TARGET_THREAD) eqn:Hk2.
    + apply Z.eqb_eq in Hk2. simpl table in Hs. destruct (set_first_thread st (table s)) as [l|] eqn:Hl.
      * frame_binds. destruct Hcf as [H1 H2]. constructor; simpl; [done|]. by eapply set_first_from.
      * frame_binds. by eapply confined_same.
    + frame_binds. by eapply confined_same.
Qed.

Lemma get_same s owner h st rc st' s' :
  sched_policy_get n owner h st s = Some (rc, st', s') -> same_policy s s'.
Proof.
  intros Hs. unfold sched_policy_get in Hs.
  destruct (task_sched_policy_from_handle _ _ _ _) as [[authority k]|]; [|done].
  cbn [mbind option_bind] in Hs. destruct (authority =? 0); [by injection Hs as _ _ <-|].
  simpl caps in Hs. destruct (caps s !! authority) as [cap|]; [|done]. cbn [mbind option_bind] in Hs.
  destruct (_ || _); [by frame_binds|]. destruct (_ =? SCHED_POLICY_TARGET_SYSTEM); [by frame_binds|].
  destruct (_ =? SCHED_POLICY_TARGET_TASK).
  - destruct (task_find_by_id_retain _ _) as [[t s1]|] eqn:Hf; [|done]. cbn [mbind option_bind] in Hs.
    apply find_task_same in Hf as [[Hc1 Ht1] _]. destruct (t =? 0); [by frame_binds|].
    destruct (find_idx _ (table s1)) as [i|]; [|done]. cbn [mbind option_bind] in Hs. by frame_binds.
  - destruct (_ =? SCHED_POLICY_TARGET_THREAD); by frame_binds.
Qed.

Lemma grant_confined s0 s owner h t req g s' :
  confined s0 s -> sched_policy_grant n owner h t req s = Some (g, s') -> confined s0 s'.
Proof.
  intros Hcf Hs. unfold sched_policy_grant in Hs.
  destruct (task_sched_policy_from_handle _ _ _ _) as [[authority k]|]; [|done].
  cbn [mbind option_bind] in Hs. destruct (authority =? 0).
  { injection Hs as _ <-. by eapply confined_same. }
  destruct (kalloc _ _) as [ok k1]. destruct (negb ok).
  { frame_binds. by eapply confined_same. }
  simpl caps in Hs. destruct (caps s !! authority) as [p|] eqn:Hcap; [|done]. cbn [mbind option_bind] in Hs.
  destruct (negb (sched_policy_is_attenuated n p (child_cap t req))) eqn:Ha.
  { frame_binds. by eapply confined_same. }
  apply negb_false_iff, attenuated_le in Ha as [Hle _]. unfold new_cap in Hs. simpl in Hs. frame_binds.
  destruct Hcf as [H1 H2]. constructor; simpl; [|done].
  intros id c. intros [[<- <-]|[_ Hc]]%lookup_insert_Some; [|eauto].
  destruct (H1 authority p Hcap) as (id0 & c0 & Hc0 & Hle0). exists id0, c0. split; [done|].
  by eapply cap_le_trans.
Qed.

(** Any task may call any of the operations, and anything else may happen to
    tasks, handles and reference counts in between. *)
Inductive policy_step (s : sched) : sched -> Prop :=
  | ps_grant owner h target req g s' :
      sched_policy_grant n owner h target req s = Some (g, s') -> policy_step s s'
  | ps_get owner h st rc st' s' :
      sched_policy_get n owner h st s = Some (rc, st', s') -> policy_step s s'
  | ps_set owner h st rc s' :
      sched_policy_set n owner h st s = Some (rc, s') -> policy_step s s'
  | ps_kernel k' : policy_step s (with_kern k' s).

Lemma steps_confined s s' : rtc policy_step s s' -> confined s s'.
Proof.
  revert s'. apply rtc_ind_r; [apply confined_refl|].
  intros s1 s2 _ Hs IH. destruct Hs.
  - by eapply grant_confined.
  - eapply confined_same; [exact IH|by eapply get_same].
  - by eapply set_confined.
  - by eapply confined_same.
Qed.

End Confined.

(** ** References *)

Record sched_wf (held : holds) (s : sched) : Prop := {
  sw_caps : caps_wf held (kern s);
  sw_contents : forall id, live (kern s) HPolicy id -> is_Some (caps s !! id);
  sw_fresh : forall id, live (kern s) HPolicy id -> id < next_cap s;
  sw_next : 0 < next_cap s;
}.

Lemma fresh_policy_caps held k id :
  caps_wf held k -> policies k !! id = None -> id <> 0 ->
  caps_wf (bump HPolicy id 1 held) (set_policies (<[id := 1]> (policies k)) k).
Proof.
  intros Hwf Hn Hnz. set (k' := set_policies (<[id := 1]> (policies k)) k).
  assert (forall type ob, live k type ob -> live k' type ob) as Hlive.
  { intros [] ob; simpl; try done. destruct (decide (ob = id)) as [->|];
      [rewrite lookup_insert_eq; eauto|by rewrite lookup_insert_ne]. }
  constructor.
  - intros type Hl. apply (cw_null _ _ Hwf type). destruct type; simpl in *; try done.
    by rewrite lookup_insert_ne in Hl.
  - intros tid t h Ht Hh Hne. apply Hlive. by eapply (cw_handle _ _ Hwf).
  - intros tid t Ht Hne. apply (Hlive HPort). by eapply (cw_reply _ _ Hwf).
  - intros type ob r Htr Hr. change (table_refs k' type ob) with (table_refs k type ob).
    destruct (decide (type = HPolicy /\ ob = id)) as [[-> ->]|Hd].
    + simpl in Hr. rewrite lookup_insert_eq in Hr. injection Hr as <-. rewrite bump_eq.
      destruct (unreferenced held k HPolicy id Hwf) as [-> ->]; [|done].
      intros [p Hp]. simpl in Hp. congruence.
    + unfold bump. rewrite bool_decide_eq_false_2 by done.
      apply (cw_refs _ _ Hwf); [done|]. rewrite <- Hr. destruct type; try done. simpl.
      rewrite lookup_insert_ne; [done|]. naive_solver.
  - intros type ob. unfold bump. pose proof (cw_held _ _ Hwf type ob). case_bool_decide; lia.
  - intros type ob Hp. unfold bump in Hp. case_bool_decide as Hd.
    + destruct Hd as [-> ->]. simpl. rewrite lookup_insert_eq. eauto.
    + by apply Hlive, (cw_held_live _ _ Hwf).
Qed.

Section Grant.
Context (n : nat).

Lemma drop_object held s k type o :
  sched_wf (bump type o 1 held) (with_kern k s) -> refs_below 0 k ->
  (forall type o, 0 <= held type o) ->
  exists k', task_handle_release type o k = Some k' /\ sched_wf held (with_kern k' s) /\
    entries_le k k' /\ refs_le k k'.
Proof.
  intros [Hwf Hct Hfr Hnx] Hb Hh. simpl in *.
  destruct (handle_release_ok _ k type o Hwf Hb) as (k' & Hr & Hp).
  { rewrite bump_eq. specialize (Hh type o). lia. }
  assert (forall id, live k' HPolicy id -> live k HPolicy id) as Hlive.
  { intros id [r Hl]. destruct (rp_refs _ _ _ Hp HPolicy id r Hl) as (r0 & Hr0 & _). by exists r0. }
  exists k'. split; [exact Hr|]. split; [|split; [|apply Hp]].
  - constructor; [|intros id Hid; apply Hct; by apply Hlive|intros id Hid; apply Hfr; by apply Hlive|done].
    eapply caps_wf_ext; [|apply (rp_wf _ _ _ Hp)]. intros. rewrite bump_bump. apply bump_0.
  - intros tid type' ob r. apply tables_le_has. by eapply release_tables.
Qed.

Lemma drop_policy held s k o :
  sched_wf (bump HPolicy o 1 held) (with_kern k s) -> refs_below 0 k ->
  (forall type o, 0 <= held type o) ->
  exists k', sched_policy_cap_release o k = Some k' /\ sched_wf held (with_kern k' s) /\
    entries_le k k' /\ refs_le k k'.
Proof. apply drop_object. Qed.

Lemma new_cap_ok held s c id s' :
  sched_wf held s -> new_cap c s = (id, s') ->
  sched_wf (bump HPolicy id 1 held) s' /\ caps s' !! id = Some c /\ live (kern s') HPolicy id /\
  tasks (kern s') = tasks (kern s) /\ (forall m, m < 2 ^ 32 - 1 -> refs_below m (kern s) -> refs_below m (kern s')) /\
  id <> 0 /\ policies (kern s) !! id = None.
Proof.
  intros [Hwf Hct Hfr Hnx] [= <- <-]. simpl.
  assert (policies (kern s) !! next_cap s = None) as Hn.
  { destruct (policies (kern s) !! next_cap s) as [r|] eqn:Hr; [|done].
    assert (live (kern s) HPolicy (next_cap s)) as Hl%Hfr by (by exists r). lia. }
  split; [|split; [apply lookup_insert_eq|split; [simpl; rewrite lookup_insert_eq; eauto|split; [done|split; [|split; [lia|done]]]]]].
  - constructor; simpl; [apply (fresh_policy_caps held (kern s) (next_cap s) Hwf Hn); lia| | |lia].
    + intros ob Hl. destruct (decide (ob = next_cap s)) as [->|]; [rewrite lookup_insert_eq; eauto|].
      rewrite lookup_insert_ne in Hl by done. rewrite lookup_insert_ne by done. by apply Hct.
    + intros ob Hl. destruct (decide (ob = next_cap s)) as [->|]; [lia|].
      rewrite lookup_insert_ne in Hl by done. apply Hfr in Hl. lia.
  - intros m Hm Hb type ob r Hr. destruct (decide (type = HPolicy /\ ob = next_cap s)) as [[-> ->]|Hd].
    + simpl in Hr. rewrite lookup_insert_eq in Hr. injection Hr as <-. lia.
    + apply (Hb type ob). rewrite <- Hr. destruct type; try done. simpl.
      rewrite lookup_insert_ne; [done|]. naive_solver.
Qed.

(** A grant that ends without a new handle. *)
Lemma grant_gives_up held s k o :
  sched_wf (bump HPolicy o 1 held) (with_kern k s) -> refs_below 0 k ->
  (forall type o, 0 <= held type o) ->
  exists s', (k' ← sched_policy_cap_release o k; Some (0, with_kern k' s)) = Some (0, s') /\
    sched_wf held s' /\ entries_le k (kern s').
Proof.
  intros Hw Hb Hh. destruct (drop_policy held s k o Hw Hb Hh) as (k' & -> & Hw' & Hle & _).
  by exists (with_kern k' s).
Qed.

(** The handle table of the task has no empty entry. *)
Definition handles_full (k : kernel) (tid : Z) : Prop :=
  forall t x, tasks k !! tid = Some t -> x ∈ handles t -> h_type x <> HEmpty.

Lemma grant_policy_full t id rights k k' :
  task_grant_sched_policy t id rights k = Some (0, k') -> id <> 0 -> rights <> 0 -> handles_full k t.
Proof.
  unfold task_grant_sched_policy. intros Hg Hid Hr x h Hx Hin He. rewrite Hx in Hg. revert Hg.
  decide_tests. cbn [mbind option_bind]. destruct (find_idx (same_handle _ _ _) _); [intros [= ?]; lia|].
  destruct (find_idx is_empty (handles x)) as [i|] eqn:Hi.
  2: { rewrite find_idx_None in Hi. specialize (Hi h Hin). unfold is_empty in Hi.
       by rewrite bool_decide_eq_false in Hi. }
  assert (find_slot 2 t x k = (Some (i, x), k)) as -> by (unfold find_slot; by rewrite Hi). cbn [task_handle_retain]. unfold sched_policy_cap_retain. decide_tests.
  destruct (policies k !! id); cbn [mbind option_bind]; [|done]. simpl. intros [= ?]. lia.
Qed.

Lemma policy_release_tasks o k k' : sched_policy_cap_release o k = Some k' -> tasks k' = tasks k.
Proof. unfold sched_policy_cap_release. intros Hr. frame_binds; done. Qed.

(** A grant that reaches [task_grant_sched_policy]. *)
Lemma grant_goes_on held s o t c id s1 :
  sched_wf (bump HPolicy o 1 held) s -> refs_below 2 (kern s) -> live (kern s) HTask t ->
  (forall type o, 0 <= held type o) -> new_cap c s = (id, s1) ->
  exists g s', ('(granted, k) ← task_grant_sched_policy t id (Z.lor TASK_RIGHT_SEND TASK_RIGHT_DUP) (kern s1);
      k ← sched_policy_cap_release id k; k ← sched_policy_cap_release o k;
      Some (granted, with_kern k s1)) = Some (g, s') /\ sched_wf held s' /\ caps s' !! id = Some c /\
    (forall tid type ob r, has (kern s') tid type ob r -> has (kern s) tid type ob r \/
       tid = t /\ type = HPolicy /\ ob = id /\ r = Z.lor TASK_RIGHT_SEND TASK_RIGHT_DUP) /\
    (g <> 0 -> has_at (kern s') t g HPolicy id (Z.lor TASK_RIGHT_SEND TASK_RIGHT_DUP)) /\
    (g = 0 -> handles_full (kern s) t).
Proof.
  intros Hw Hb Ht Hh Hn. destruct (new_cap_ok _ _ _ _ _ Hw Hn) as (Hw1 & Hc & Hl & Htk & Hb1 & Hid & _).
  assert (live (kern s1) HTask t) as Ht1 by (simpl in *; by rewrite Htk).
  destruct (grant_any_ok _ (kern s1) t HPolicy id (Z.lor TASK_RIGHT_SEND TASK_RIGHT_DUP) (sw_caps _ _ Hw1))
    as (g & k2 & Hg & Hp); [done| |done|].
  { apply Hb1; [lia|]. apply (refs_below_weaken 1), Hb. }
  simpl in Hg. rewrite Hg. cbn [mbind option_bind].
  assert (refs_below 0 k2) as Hb2.
  { apply (gp_below _ _ _ _ _ _ _ _ Hp). apply Hb1; [lia|]. apply (refs_below_weaken 1), Hb. }
  destruct (drop_policy (bump HPolicy o 1 held) s1 k2 id) as (k3 & Hk3 & Hw3 & Hle3 & Hr3); [|done|..].
  { destruct Hw1 as [_ Hct Hfr Hnx]. constructor; [apply Hp|..|done]; intros ob Hob%(gp_live _ _ _ _ _ _ _ _ Hp); auto. }
  { intros type ob. unfold bump. specialize (Hh type ob). case_bool_decide; lia. }
  rewrite Hk3. cbn [mbind option_bind].
  destruct (drop_policy held s1 k3 o Hw3 (refs_le_below _ _ _ Hr3 Hb2) Hh) as (k4 & Hk4 & Hw4 & Hle4 & _).
  rewrite Hk4. eexists g, _. split; [done|]. split; [done|]. split; [done|]. split; [|split].
  - intros tid type ob r Hhas.
    apply Hle4, Hle3 in Hhas. destruct (gp_only _ _ _ _ _ _ _ _ Hp _ _ _ _ Hhas) as [Hold|(-> & -> & -> & ->)];
      [left|by right]. destruct Hold as (x & y & Hx & Hrest). rewrite Htk in Hx. by exists x, y.
  - intros (x & y & Hx & Hrest)%(gp_granted _ _ _ _ _ _ _ _ Hp). exists x, y. split; [|done]. simpl.
    by rewrite (policy_release_tasks _ _ _ Hk4), (policy_release_tasks _ _ _ Hk3).
  - intros ->. apply grant_policy_full in Hg; [|done..]. unfold handles_full. by rewrite <- Htk.
Qed.

Lemma kalloc_sched_wf held s k size ok k2 :
  kalloc size k = (ok, k2) -> sched_wf held (with_kern k s) ->
  sched_wf held (with_kern k2 s) /\ tasks k2 = tasks k /\
  (forall m, refs_below m k -> refs_below m k2).
Proof.
  unfold kalloc. intros Hk [Hwf Hct Hfr Hnx].
  destruct (kheap k) as [|a rest]; injection Hk as <- <-; [done|].
  split; [|split; [done|]].
  - constructor; try done. by apply (caps_wf_same held k).
  - intros m Hm type o r Hr. apply (Hm type o r). rewrite <- Hr. by destruct type.
Qed.

Lemma sched_wf_acquired held s o k' :
  sched_wf held s -> acquired held HPolicy o (kern s) k' ->
  sched_wf (bump HPolicy o 1 held) (with_kern k' s).
Proof.
  intros [Hwf Hct Hfr Hnx] [Hwf' _ Hl _]. constructor; [done|..|done]; intros id Hid%Hl; auto.
Qed.

(** The capability asked for: the request, a task target without a number
    standing for the task that gets it. *)
Definition asked_for (t : Z) (req c : sched_policy_cap) : Prop :=
  c_target_kind c = c_target_kind req /\ c_rights c = c_rights req /\
  c_delegation_depth c = c_delegation_depth req /\
  (c_target_kind req = 1 /\ c_target_id req = 0 /\ c_target_id c = t \/
   ~ (c_target_kind req = 1 /\ c_target_id req = 0) /\ c_target_id c = c_target_id req) /\
  c_class_mask c = c_class_mask req /\ c_min_priority c = c_min_priority req /\
  c_max_priority c = c_max_priority req /\ c_min_weight c = c_min_weight req /\
  c_max_weight c = c_max_weight req /\ c_cpu_mask c = c_cpu_mask req.

Lemma child_asked t req : asked_for t req (child_cap t req).
Proof.
  unfold asked_for, child_cap, SCHED_POLICY_TARGET_TASK.
  destruct (Z.eqb_spec (c_target_kind req) 1), (Z.eqb_spec (c_target_id req) 0); simpl; split_and!; try done;
    first [by left|by right; split; [naive_solver|]].
Qed.

(** Who may have obtained what by a grant. *)
Definition granted_from (s s' : sched) (owner h t : Z) (req : sched_policy_cap) : Prop :=
  forall tid type o r, has (kern s') tid type o r ->
    has (kern s) tid type o r \/
    tid = t /\ type = HPolicy /\ r = Z.lor TASK_RIGHT_SEND TASK_RIGHT_DUP /\
    exists authority p c, entitled (kern s) HPolicy owner h TASK_RIGHT_SEND authority /\
      caps s !! authority = Some p /\ caps s' !! o = Some c /\ asked_for t req c /\ attenuates n p c.

(** The answer of a grant: the number of a new handle on the capability asked
    for, or 0 without the authority, without room or without memory. *)
Definition grant_answer (s s' : sched) (owner h t : Z) (req : sched_policy_cap) (g : Z) : Prop :=
  (g <> 0 -> exists o c, has_at (kern s') t g HPolicy o (Z.lor TASK_RIGHT_SEND TASK_RIGHT_DUP) /\
     ~ live (kern s) HPolicy o /\ caps s' !! o = Some c /\ asked_for t req c) /\
  (g = 0 ->
     (forall o, ~ entitled (kern s) HPolicy owner h TASK_RIGHT_SEND o) \/
     (exists authority p c, entitled (kern s) HPolicy owner h TASK_RIGHT_SEND authority /\
        caps s !! authority = Some p /\ asked_for t req c /\ ~ attenuates n p c) \/
     hd 0 (kheap (kern s)) < sizeof_sched_policy_cap \/ handles_full (kern s) t).

Lemma policy_lookup_frame owner h rights k o k' :
  task_sched_policy_from_handle owner h rights k = Some (o, k') ->
  tasks k' = tasks k /\ kheap k' = kheap k.
Proof.
  unfold task_sched_policy_from_handle, object_from_handle.
  destruct (tasks k !! owner) as [t|]; [|done]. simpl.
  destruct (handle_at h t) as [x|]; [|by intros [= _ <-]].
  destruct (_ || _) eqn:Hc; [by intros [= _ <-]|].
  apply orb_false_iff in Hc as [Hc _]. apply negb_false_iff, bool_decide_eq_true in Hc. rewrite Hc.
  unfold task_handle_retain_from_locked_task, task_handle_retain, sched_policy_cap_retain. simpl.
  case_if; simpl; [by intros [= _ <-]|].
  destruct (policies k !! h_object x); simpl; [|done]. by intros [= _ <-].
Qed.

Lemma kalloc_refused size k k' : kalloc size k = (false, k') -> 0 < size -> hd 0 (kheap k) < size.
Proof. unfold kalloc. destruct (kheap k); simpl; [by intros _|]. intros [= H _] _. by apply Z.leb_gt. Qed.

Lemma policy_grant_ok held s owner h t req :
  sched_wf held s -> refs_below 3 (kern s) -> live (kern s) HTask owner -> live (kern s) HTask t ->
  exists g s', sched_policy_grant n owner h t req s = Some (g, s') /\ sched_wf held s' /\
    granted_from s s' owner h t req /\ grant_answer s s' owner h t req g.
Proof.
  intros Hw Hb Ho Ht. unfold sched_policy_grant. pose proof (cw_held _ _ (sw_caps _ _ Hw)) as Hh.
  destruct (lookup_ok held (kern s) HPolicy owner h TASK_RIGHT_SEND (sw_caps _ _ Hw))
    as (au & k1 & Hl & Hc); [by apply refs_below_weaken, refs_below_weaken|done..|].
  simpl in Hl. pose proof (policy_lookup_frame _ _ _ _ _ _ Hl) as [Htk Hkh].
  rewrite Hl. cbn [mbind option_bind].
  destruct Hc as [(-> & -> & Hno)|(Hau & He & Hq)].
  { eexists 0, _. split; [done|]. split; [by destruct Hw|]. split; [by left|]. split; [done|by left]. }
  decide_tests. pose proof (sched_wf_acquired _ _ _ _ Hw Hq) as Hw1. destruct Hq as [Hwf1 Hs1 Hl1 Hb1].
  assert (refs_below 2 k1) as Hb2 by (by apply Hb1).
  assert (refs_below 0 k1) as Hb0 by (by apply refs_below_weaken, refs_below_weaken).
  simpl kern. destruct (kalloc sizeof_sched_policy_cap k1) as [ok k2] eqn:Hk.
  destruct (kalloc_sched_wf _ _ _ _ _ _ Hk Hw1) as (Hw2 & Htk2 & Hbk).
  assert (forall tid type o r, has k2 tid type o r -> has (kern s) tid type o r) as Hent.
  { intros tid type o r (x & y & Hx & Hrest). rewrite Htk2, Htk in Hx. by exists x, y. }
  destruct (grant_gives_up held s k2 au Hw2 (Hbk 0 Hb0) Hh) as (s' & Hg & Hw' & Hle').
  assert (granted_from s s' owner h t req) as Hold by (intros tid type o r Hhas; left; by apply Hent, Hle').
  destruct ok.
  2: { exists 0, s'. do 3 (split; [done|]). split; [done|]. intros _. right. right. left. rewrite <- Hkh.
       by eapply kalloc_refused. }
  destruct (sw_contents _ _ Hw2 au) as [p Hp].
  { apply (cw_held_live _ _ (sw_caps _ _ Hw2)). rewrite bump_eq. specialize (Hh HPolicy au). lia. }
  simpl in Hp. simpl caps. rewrite Hp. cbn [mbind option_bind negb].
  destruct (sched_policy_is_attenuated n p (child_cap t req)) eqn:Hat; simpl negb; cbv iota.
  2: { exists 0, s'. do 3 (split; [done|]). split; [done|]. intros _. right. left.
       exists au, p, (child_cap t req). split_and!; [done..|apply child_asked|].
       intros Ha%attenuated_iff. congruence. }
  change (with_kern k2 (with_kern k1 s)) with (with_kern k2 s).
  destruct (new_cap (child_cap t req) (with_kern k2 s)) as [id s1] eqn:Hn.
  destruct (grant_goes_on held (with_kern k2 s) au t (child_cap t req) id s1 Hw2)
    as (g & s2 & Heq & Hw3 & Hc & Hhas & Hnz & Hz); [by apply Hbk| |done..|].
  { simpl. rewrite Htk2. apply (Hl1 HTask). exact Ht. }
  exists g, s2. split; [exact Heq|]. split; [done|]. split; [|split].
  - intros tid type o r [Hhad|(-> & -> & -> & ->)]%Hhas; [left; by apply Hent|].
    right. split_and!; [done..|]. exists au, p, (child_cap t req).
    split_and!; [done..|apply child_asked|by apply attenuated_iff].
  - intros Hg0. exists id, (child_cap t req). split_and!; [by apply Hnz| |done|apply child_asked].
    unfold new_cap in Hn. injection Hn as <- _. intros Hlv%(sw_fresh _ _ Hw). simpl in Hlv. lia.
  - intros Hg0. right. right. right. intros x y Hx. apply (Hz Hg0). simpl. by rewrite Htk2, Htk.
Qed.

(** *** What a request to set parameters does *)

(** The thread has the parameters asked for and is otherwise as before. *)
Definition thread_set (st : sched_policy_state) (th th' : thread_sched) : Prop :=
  ts_tid th' = ts_tid th /\ ts_dead th' = ts_dead th /\
  ts_class th' = s_class st /\ ts_priority th' = s_priority st mod 2 ^ 32 /\
  ts_weight th' = s_weight st mod 2 ^ 32 /\ ts_affinity th' = s_cpu_mask st.

(** The task and every thread of it have the parameters asked for. *)
Definition task_set (st : sched_policy_state) (t t' : task_sched) : Prop :=
  tk_pid t' = tk_pid t /\ tk_class t' = s_class st /\ tk_priority t' = s_priority st mod 2 ^ 32 /\
  tk_affinity t' = s_cpu_mask st /\ Forall2 (thread_set st) (tk_threads t) (tk_threads t').

(** One thread of the task is changed. *)
Definition task_thread_set (st : sched_policy_state) (j : nat) (t t' : task_sched) : Prop :=
  tk_pid t' = tk_pid t /\ tk_class t' = tk_class t /\ tk_priority t' = tk_priority t /\
  tk_affinity t' = tk_affinity t /\
  exists th th', tk_threads t !! j = Some th /\ ts_tid th = s_target_id st /\ ts_dead th = false /\
    thread_set st th th' /\ tk_threads t' = <[j := th']> (tk_threads t).

(** The effect on the table of a request that a capability permits; [alive]
    tells which tasks can still be retained. *)
Inductive set_effect (alive : Z -> Prop) (st : sched_policy_state) (l : list task_sched)
    : Z -> list task_sched -> Prop :=
  | se_task i t t' :
      s_target_kind st = 1 ->
      l !! i = Some t -> tk_pid t = s_target_id st -> alive (tk_pid t) -> task_set st t t' ->
      set_effect alive st l 0 (<[i := t']> l)
  | se_no_task :
      s_target_kind st = 1 ->
      (forall t, t ∈ l -> tk_pid t = s_target_id st -> ~ alive (tk_pid t)) ->
      set_effect alive st l (-1) l
  | se_thread i j t t' :
      s_target_kind st = 2 ->
      l !! i = Some t -> task_thread_set st j t t' ->
      set_effect alive st l 0 (<[i := t']> l)
  | se_no_thread :
      s_target_kind st = 2 ->
      (forall t th, t ∈ l -> th ∈ tk_threads t -> ts_tid th = s_target_id st -> ts_dead th = true) ->
      set_effect alive st l (-1) l
  | se_other :
      s_target_kind st <> 1 -> s_target_kind st <> 2 -> set_effect alive st l (-1) l.

(** The parameters asked for, for the capability's own target when the request
    names none. *)
Definition state_asked (c : sched_policy_cap) (req st : sched_policy_state) : Prop :=
  s_class st = s_class req /\ s_priority st = s_priority req /\ s_weight st = s_weight req /\
  s_cpu_mask st = s_cpu_mask req /\
  (s_target_kind req = 0 /\ s_target_kind st = c_target_kind c /\ s_target_id st = c_target_id c \/
   s_target_kind req <> 0 /\ s_target_kind st = s_target_kind req /\ s_target_id st = s_target_id req).

Lemma default_asked c req : state_asked c req (default_target c req).
Proof.
  unfold state_asked, default_target. destruct (Z.eqb_spec (s_target_kind req) 0); simpl; split_and!; try done;
    [by left|by right].
Qed.

Lemma set_thread_set st th : thread_set st th (set_thread st th).
Proof. done. Qed.

Lemma set_task_set st t : task_set st t (set_task st t).
Proof.
  split_and!; try done. simpl. apply Forall2_fmap_r, Forall_Forall2_diag, Forall_forall. intros th _.
  apply set_thread_set.
Qed.

Lemma alter_at {A} (f : A -> A) (l : list A) i x :
  l !! i = Some x -> alter f i l = <[i := f x]> l.
Proof.
  revert i. induction l as [|y l IH]; intros [|i] Hx; simpl in *; [done..|congruence|].
  f_equal. by apply IH.
Qed.

Lemma set_first_spec st l :
  match set_first_thread st l with
  | Some l' => exists i j t t', l !! i = Some t /\ task_thread_set st j t t' /\ l' = <[i := t']> l
  | None => forall t th, t ∈ l -> th ∈ tk_threads t -> ts_tid th = s_target_id st -> ts_dead th = true
  end.
Proof.
  induction l as [|t l IH]; cbn [set_first_thread]; [set_solver|].
  destruct (find_idx _ (tk_threads t)) as [j|] eqn:Hj.
  - apply find_idx_lookup in Hj as (th & Hth & Hp). unfold is_target in Hp. bool_facts.
    eexists 0%nat, j, t, _. split; [done|]. split; [|done]. split_and!; try done.
    exists th, (set_thread st th). split_and!; try done. by apply alter_at.
  - destruct (set_first_thread st l) as [l'|]; cbn [mbind option_bind].
    + destruct IH as (i & j & t0 & t' & Hi & Hset & ->). by exists (S i), j, t0, t'.
    + intros t' th [->|Hin]%elem_of_cons Hth Hid; [|by eapply IH].
      rewrite find_idx_None in Hj. specialize (Hj th Hth). unfold is_target in Hj.
      destruct (Z.eqb_spec (ts_tid th) (s_target_id st)); [|done]. by destruct (ts_dead th).
Qed.

(** The table lists tasks of the kernel, each once. *)
Definition table_ok (s : sched) : Prop :=
  NoDup (tk_pid <$> table s) /\
  forall t, t ∈ table s -> live (kern s) HTask (tk_pid t) /\ tk_pid t <> kernel_task.

Definition alive (k : kernel) (id : Z) : Prop := dead_task k HTask id = false.

Lemma find_retain_ok held s id :
  sched_wf held s -> refs_below 1 (kern s) -> table_ok s ->
  (exists i t k', find_idx (fun t => tk_pid t =? id) (table s) = Some i /\ table s !! i = Some t /\
     tk_pid t = id /\ id <> 0 /\ alive (kern s) id /\
     task_find_by_id_retain id s = Some (id, with_kern k' s) /\
     sched_wf (bump HTask id 1 held) (with_kern k' s) /\
     (forall m, refs_below (m + 1) (kern s) -> refs_below m k')) \/
  (forall t, t ∈ table s -> tk_pid t = id -> ~ alive (kern s) (tk_pid t)) /\
     task_find_by_id_retain id s = Some (0, s).
Proof.
  intros [Hwf Hct Hfr Hnx] Hb [_ Htab]. unfold task_find_by_id_retain.
  destruct (find_idx _ (table s)) as [i|] eqn:Hi.
  2: { right. split; [|done]. intros t Hin Hid. rewrite find_idx_None in Hi.
       specialize (Hi t Hin). simpl in Hi. bool_facts. done. }
  pose proof (find_idx_lookup _ _ _ Hi) as (t & Ht & Hid). simpl in Hid. apply Z.eqb_eq in Hid.
  destruct (Htab t) as [Hl Hk]; [apply list_elem_of_lookup; eauto|]. rewrite Hid in *.
  pose proof (caps_wf_nonnull _ _ _ _ Hwf Hl) as Hnz.
  destruct (retain_ok held (kern s) HTask id Hwf Hl Hb) as (rc & k' & Hr & _ & Hlv & Hcase).
  assert (task_retain id (kern s) = Some (rc, k')) as Hr'.
  { unfold task_retain. decide_tests. exact Hr. }
  rewrite Hr'. cbn [mbind option_bind]. destruct Hcase as [(-> & Hwf' & Hbel)|(-> & -> & Hd)].
  - left. exists i, t, k'. split_and!; try done.
    + unfold alive. rewrite retain_put in Hr by done. destruct (dead_task _ _ _); [done|done].
    + constructor; [done|..|done]; intros o Ho%Hlv; auto.
  - right. split; [|by destruct s]. intros t' _ -> Ha. unfold alive in Ha. congruence.
Qed.

(** The whole request: refused without a usable capability, refused when the
    capability does not cover it, carried out on the target otherwise. *)
Definition set_outcome (s : sched) (owner h : Z) (req : sched_policy_state) (rc : Z)
    (l : list task_sched) : Prop :=
  (forall o, ~ entitled (kern s) HPolicy owner h TASK_RIGHT_SEND o) /\ rc = -1 /\ l = table s \/
  exists authority c st, entitled (kern s) HPolicy owner h TASK_RIGHT_SEND authority /\
    caps s !! authority = Some c /\ state_asked c req st /\
    (may_set c /\ covers n c st /\ set_effect (alive (kern s)) st (table s) rc l \/
     ~ (may_set c /\ covers n c st) /\ rc = -1 /\ l = table s).

Lemma set_finish held s k au (rc : Z) :
  sched_wf (bump HPolicy au 1 held) (with_kern k s) -> refs_below 0 k ->
  (forall type o, 0 <= held type o) ->
  exists s', (k' ← sched_policy_cap_release au k; Some (rc, with_kern k' s)) = Some (rc, s') /\
    sched_wf held s' /\ caps s' = caps s /\ table s' = table s.
Proof.
  intros Hw Hb Hh. destruct (drop_policy held s k au Hw Hb Hh) as (k' & -> & Hw' & _).
  by exists (with_kern k' s).
Qed.

Lemma sched_wf_table held s l : sched_wf held s -> sched_wf held (with_table l s).
Proof. intros [Hwf Hct Hfr Hnx]. by constructor. Qed.

(** Setting the parameters of a task. *)
Lemma set_task_ok held s au st i t k' :
  sched_wf (bump HTask (s_target_id st) 1 (bump HPolicy au 1 held)) (with_kern k' s) ->
  refs_below 0 k' -> (forall type o, 0 <= held type o) -> table s !! i = Some t ->
  exists s', (k ← task_release (s_target_id st) k';
       k ← sched_policy_cap_release au k;
       Some (0, with_kern k (with_table (alter (set_task st) i (table s)) s))) = Some (0, s') /\
    sched_wf held s' /\ caps s' = caps s /\ table s' = <[i := set_task st t]> (table s).
Proof.
  intros Hw Hb Hh Ht. set (s1 := with_table (alter (set_task st) i (table s)) s).
  destruct (drop_object (bump HPolicy au 1 held) s1 k' HTask (s_target_id st))
    as (k2 & Hr & Hw2 & _ & Hle); [by apply (sched_wf_table _ (with_kern k' s))|done| |].
  { intros type o. unfold bump. specialize (Hh type o). case_bool_decide; lia. }
  unfold task_release. rewrite Hr. cbn [mbind option_bind].
  destruct (set_finish held s1 k2 au 0 Hw2 (refs_le_below _ _ _ Hle Hb) Hh) as (s' & -> & Hw' & Hc & Htab).
  exists s'. split; [done|]. split; [done|]. split; [done|]. rewrite Htab. by apply alter_at.
Qed.

Lemma set_body_ok held s au c req :
  sched_wf (bump HPolicy au 1 held) s -> refs_below 1 (kern s) -> table_ok s ->
  (forall type o, 0 <= held type o) ->
  exists rc s', set_body n au c req s = Some (rc, s') /\ sched_wf held s' /\ caps s' = caps s /\
    let st := default_target c req in
    if rights_include (c_rights c) set_rights && sched_policy_state_allowed n c st
    then set_effect (alive (kern s)) st (table s) rc (table s')
    else rc = -1 /\ table s' = table s.
Proof.
  intros Hw Hb Htab Hh. unfold set_body. set (st := default_target c req). cbn zeta.
  assert (refs_below 0 (kern s)) as Hb0 by (by apply refs_below_weaken).
  assert (forall rc : Z, exists s', (k' ← sched_policy_cap_release au (kern s); Some (rc, with_kern k' s)) = Some (rc, s') /\
    sched_wf held s' /\ caps s' = caps s /\ table s' = table s) as Hfin.
  { intros rc. apply (set_finish held s (kern s) au rc); try done. by destruct s. }
  rewrite <- negb_andb. destruct (rights_include _ _ && _); simpl negb; cbv iota.
  2: { destruct (Hfin (-1)) as (s' & -> & ? & ? & ?). by exists (-1), s'. }
  case_if.
  - destruct (find_retain_ok _ s (s_target_id st) Hw Hb Htab)
      as [(i & t & k' & Hi & Ht & Hid & Hnz & Ha & -> & Hw' & Hb')|[Hno ->]]; cbn [mbind option_bind].
    + decide_tests. simpl table. rewrite Hi. cbn [mbind option_bind].
      destruct (set_task_ok held s au st i t k' Hw' (Hb' 0 Hb) Hh Ht) as (s' & Heq & ? & ? & Hts).
      exists 0, s'. split; [exact Heq|]. split; [done|]. split; [done|]. rewrite Hts.
      eapply se_task; [done..|by rewrite Hid|apply set_task_set].
    + destruct (Hfin (-1)) as (s' & -> & ? & ? & Hts). exists (-1), s'. rewrite Hts.
      split; [done|]. split; [done|]. split; [done|]. by apply se_no_task.
  - case_if; [pose proof (set_first_spec st (table s)) as Hsp; destruct (set_first_thread st (table s)) as [l|]|].
    + destruct Hsp as (i & j & t & t' & Hi & Hp & ->).
      destruct (set_finish held (with_table (<[i := t']> (table s)) s) (kern s) au 0) as (s' & Heq & ? & ? & Hts);
        [by apply (sched_wf_table _ s)|done..|]. exists 0, s'.
      split; [exact Heq|]. split; [done|]. split; [done|]. rewrite Hts. by eapply se_thread.
    + destruct (Hfin (-1)) as (s' & -> & ? & ? & Hts). exists (-1), s'. rewrite Hts.
      split; [done|]. split; [done|]. split; [done|]. by apply se_no_thread.
    + destruct (Hfin (-1)) as (s' & -> & ? & ? & Hts). exists (-1), s'. rewrite Hts.
      split; [done|]. split; [done|]. split; [done|]. by apply se_other.
Qed.

Lemma policy_set_ok held s owner h req :
  sched_wf held s -> refs_below 3 (kern s) -> live (kern s) HTask owner -> table_ok s ->
  exists rc s', sched_policy_set n owner h req s = Some (rc, s') /\ sched_wf held s' /\
    caps s' = caps s /\ set_outcome s owner h req rc (table s').
Proof.
  intros Hw Hb Ho [Hnd Htab]. unfold sched_policy_set. pose proof (cw_held _ _ (sw_caps _ _ Hw)) as Hh.
  destruct (lookup_ok held (kern s) HPolicy owner h TASK_RIGHT_SEND (sw_caps _ _ Hw))
    as (au & k1 & Hl & Hc); [by apply refs_below_weaken, refs_below_weaken|done..|].
  simpl in Hl. pose proof (policy_lookup_frame _ _ _ _ _ _ Hl) as [Htk _]. rewrite Hl. cbn [mbind option_bind].
  destruct Hc as [(-> & -> & Hne)|(Hau & He & Hq)].
  { eexists (-1), _. split; [done|]. split; [by destruct Hw|]. split; [done|]. by left. }
  decide_tests. pose proof (sched_wf_acquired _ _ _ _ Hw Hq) as Hw1. destruct Hq as [Hwf1 _ Hl1 Hb1].
  destruct (sw_contents _ _ Hw1 au) as [c Hcap].
  { apply (cw_held_live _ _ Hwf1). rewrite bump_eq. specialize (Hh HPolicy au). lia. }
  simpl in Hcap. simpl caps. rewrite Hcap. cbn [mbind option_bind].
  destruct (set_body_ok held (with_kern k1 s) au c req Hw1) as (rc & s' & Heq & Hw' & Hcs & Hout);
    [apply refs_below_weaken; by apply Hb1| |done|].
  { split; [done|]. intros t [Hlt Hk]%Htab. split; [|done]. by apply (Hl1 HTask). }
  exists rc, s'. split; [exact Heq|]. split; [done|]. split; [done|]. right.
  exists au, c, (default_target c req). split_and!; [done..|apply default_asked|]. cbn zeta in Hout.
  rewrite <- set_rights_bits, <- allowed_covers. revert Hout.
  destruct (rights_include _ _), (sched_policy_state_allowed _ _ _); simpl;
    [|intros Hout; right; split; [naive_solver|exact Hout]..].
  intros Hout. left. split; [done|]. split; [done|].
  unfold alive, dead_task in *. simpl in Hout. by rewrite Htk in Hout.
Qed.
End Grant.

(** ** A kernel whose task 1 holds the system capability *)

Definition demo_table : list task_sched :=
  [mk_task_sched 1 SCHED_CLASS_SERVER 4 3 [mk_thread_sched 5 false SCHED_CLASS_SERVER 4 1024 3];
   mk_task_sched 2 SCHED_CLASS_USER 8 3 [mk_thread_sched 6 true SCHED_CLASS_USER 8 1024 3;
                                         mk_thread_sched 7 false SCHED_CLASS_USER 8 1024 3]].
Definition demo_sched0 : sched := mk_sched demo_kernel ∅ demo_table 1.
Definition demo_created : Z * sched := new_cap (system_cap 2) demo_sched0.
Definition demo_sched : sched :=
  match task_grant_sched_policy 1 (fst demo_created) 5 (kern (snd demo_created)) with
  | Some (_, k) => with_kern k (snd demo_created)
  | None => demo_sched0
  end.
Definition demo_policy_held : holds := bump HPolicy 1 1 demo_held.

Lemma demo_sched0_wf : sched_wf demo_held demo_sched0.
Proof.
  constructor; [apply demo_caps_wf|..|done]; intros id [r Hr]; simpl in Hr;
    by rewrite lookup_empty in Hr.
Qed.

Lemma demo_sched_ok :
  sched_wf demo_policy_held demo_sched /\ refs_below 3 (kern demo_sched) /\
  live (kern demo_sched) HTask 1 /\ live (kern demo_sched) HTask 2.
Proof.
  destruct (new_cap_ok demo_held demo_sched0 (system_cap 2) 1 (snd demo_created) demo_sched0_wf eq_refl)
    as ([Hwf Hct Hfr Hnx] & _ & Hl & Htk & Hb & _).
  destruct (grant_any_ok _ (kern (snd demo_created)) 1 HPolicy 1 5 Hwf) as (g & k & Hg & Hp); [|..|done|].
  { rewrite Htk. by exists demo_t1. }
  { apply Hb; [lia|by apply demo_below]. }
  assert (demo_sched = with_kern k (snd demo_created)) as ->.
  { unfold demo_sched. change (task_grant_sched_policy 1 (fst demo_created) 5 (kern (snd demo_created)))
      with (grant_any HPolicy 1 1 5 (kern (snd demo_created))). by rewrite Hg. }
  split; [|split; [|split]].
  - constructor; [apply Hp|..|done]; intros ob Hob%(gp_live _ _ _ _ _ _ _ _ Hp); auto.
  - apply (gp_below _ _ _ _ _ _ _ _ Hp), Hb; [lia|by apply demo_below].
  - apply (gp_live _ _ _ _ _ _ _ _ Hp HTask). simpl. by exists demo_t1.
  - apply (gp_live _ _ _ _ _ _ _ _ Hp HTask). simpl. by exists demo_t2.
Qed.

Lemma demo_table_ok : table_ok demo_sched.
Proof.
  assert (table demo_sched = demo_table) as Ht by (vm_compute; reflexivity).
  destruct demo_sched_ok as (_ & _ & H1 & H2). split; rewrite Ht.
  - simpl. repeat (constructor; [set_solver|]). constructor.
  - intros t [->|[->|[]%elem_of_nil]%elem_of_cons]%elem_of_cons; done.
Qed.

(** A capability for task 2 alone, and parameters it permits. *)
Definition demo_request : sched_policy_cap := mk_cap SCHED_POLICY_TARGET_TASK 63 1 2 8 0 31 1 2048 1.
Definition demo_state : sched_policy_state := mk_state SCHED_POLICY_TARGET_THREAD 7 SCHED_CLASS_USER 9 512 2 0.
Definition demo_after : sched :=
  match sched_policy_set 2 1 3 demo_state demo_sched with Some (_, s) => s | None => demo_sched end.

(** ** Theorems *)

(** C20: Whatever tasks grant, read and set with scheduling policy
    capabilities, and whatever happens to tasks, handles and reference counts
    in between, every capability that exists is within one that existed at the
    start, and the class, priority, weight and affinity of every task and
    thread are those of the start or were within the target, classes, ranges
    and processors of a capability of the start with the rights to set them,
    for that task or thread.  Making a new system capability is not one of
    these steps. *)
Theorem policy_confined (n : nat) (s s' : sched) (Hs : rtc (policy_step n) s s') : confined n s s'.
Proof. by apply steps_confined. Qed.

Lemma policy_confined_witness : confined 2 demo_sched demo_after /\ table demo_after <> table demo_sched.
Proof.
  split; [|vm_compute; discriminate].
  apply (policy_confined 2 demo_sched demo_after). apply rtc_once.
  apply (ps_set 2 demo_sched 1 3 demo_state 0). vm_compute. reflexivity.
Defined.

(** C31: Granting a policy capability returns on every branch, keeps every
    reference count exact and every live capability filled in.  A task that
    holds a handle afterwards held it before, or is the target and holds a
    handle to send and duplicate on the capability asked for, which is within
    a capability the owner was entitled to use: that one has the right to
    delegate, and the new one has no right, class or processor beyond it,
    fewer levels of delegation, ranges of priority and weight inside its
    ranges, and a target it covers.  A handle number that is returned is a handle on a new capability;
    0 is returned only when the owner is not entitled, the request is not
    within the authority, or memory or the target's handles are used up. *)
Theorem policy_grant_sound (n : nat) (held : holds) (s : sched) (owner h t : Z) (req : sched_policy_cap)
  (Hw : sched_wf held s) (Hb : refs_below 3 (kern s)) (Ho : live (kern s) HTask owner)
  (Ht : live (kern s) HTask t) :
  exists g s', sched_policy_grant n owner h t req s = Some (g, s') /\ sched_wf held s' /\
    granted_from n s s' owner h t req /\ grant_answer n s s' owner h t req g.
Proof. by apply policy_grant_ok. Qed.

Lemma policy_grant_sound_witness :
  exists g s', sched_policy_grant 2 1 3 2 demo_request demo_sched = Some (g, s') /\
    sched_wf demo_policy_held s' /\ granted_from 2 demo_sched s' 1 3 2 demo_request /\
    grant_answer 2 demo_sched s' 1 3 2 demo_request g /\ has (kern s') 2 HPolicy 2 5.
Proof.
  destruct (policy_grant_sound 2 demo_policy_held demo_sched 1 3 2 demo_request) as (g & s' & Hs & Hw & Hg & Ha);
    [apply demo_sched_ok..|].
  exists g, s'. split; [exact Hs|]. split; [exact Hw|]. split; [exact Hg|]. split; [exact Ha|].
  vm_compute in Hs. injection Hs as <- <-. eexists _, (mk_handle HPolicy 5 0 2).
  split; [vm_compute; reflexivity|]. split; [left|done].
Defined.

(** C33: A request to set scheduling parameters returns, keeps reference counts
    exact and leaves the capabilities alone.  Without a usable handle, without
    the rights over class, priority, weight and affinity, or for a target,
    class, priority, weight or processor outside the capability, it fails and
    changes nothing.  Otherwise it gives exactly those parameters to the task
    with every thread of it, or to exactly one living thread, and fails without
    a change when there is no such target. *)
Theorem policy_set_correct (n : nat) (held : holds) (s : sched) (owner h : Z) (req : sched_policy_state)
  (Hw : sched_wf held s) (Hb : refs_below 3 (kern s)) (Ho : live (kern s) HTask owner) (Ht : table_ok s) :
  exists rc s', sched_policy_set n owner h req s = Some (rc, s') /\ sched_wf held s' /\
    caps s' = caps s /\ set_outcome n s owner h req rc (table s').
Proof. by apply policy_set_ok. Qed.

Lemma policy_set_correct_witness :
  exists rc s', sched_policy_set 2 1 3 demo_state demo_sched = Some (rc, s') /\
    sched_wf demo_policy_held s' /\ caps s' = caps demo_sched /\
    set_outcome 2 demo_sched 1 3 demo_state rc (table s').
Proof.
  apply (policy_set_correct 2 demo_policy_held demo_sched 1 3 demo_state);
    [apply demo_sched_ok..|apply demo_table_ok].
Defined.
