(* ===== verification/Tree.v ===== *)
(** * Intrusive binary search trees (kernel/tree.h, user/include/bunix/tree.h)

    The system keeps its name spaces in unbalanced binary search trees whose
    nodes, with left, right and parent pointers, are embedded in the objects
    they index.  kernel/tree.h has a tree with string keys and one with [u64]
    keys; the user library has a copy of both.  The four differ only in the
    type of keys, so the operations are defined once for a class of key orders.

    Nodes live in a heap, a map from addresses to nodes; address 0 is the null
    pointer.  Loads and stores through a pointer without a node are [None], as
    is a comparison with a null string.  Loops run with the number of nodes in
    the heap, plus one, as fuel; the theorems show that this is enough. *)
From stdpp Require Import gmap list sorting strings.
From Stdlib Require Import ZArith Lia Ascii.
From S2P Require Import Prelude.

Open Scope Z_scope.
Open Scope machine_scope.

(** ** Keys *)

(** How nodes of one kind of tree are keyed: the value of a cleared key, the
    test against 0, and the comparison (the sign of the result counts). *)
Class KeyOrder (K : Type) := {
  key_zero : K;
  key_null : K -> bool;
  key_cmp : K -> K -> option Z;
}.

(** [char] is signed on this target. *)
Definition char_value (c : ascii) : Z :=
  let b := Z.of_N (N_of_ascii c) in if b <? 128 then b else b - 256.

(** [tree_key_cmp] on the bytes before the terminators. *)
Fixpoint tree_key_cmp (l r : string) : Z :=
  match l, r with
  | String a l, String b r =>
      if char_value a <? char_value b then -1
      else if char_value b <? char_value a then 1
      else tree_key_cmp l r
  | EmptyString, EmptyString => 0
  | EmptyString, _ => -1
  | _, EmptyString => 1
  end.

(** A string key is a pointer; [None] is the null pointer. *)
Definition cstr : Type := option string.

#[export] Instance cstr_key : KeyOrder cstr := {
  key_zero := None;
  key_null k := bool_decide (k = None);
  key_cmp a b := a ← a; b ← b; Some (tree_key_cmp a b);
}.

Definition u64_key_cmp (a b : Z) : Z := if a =? b then 0 else if a <? b then -1 else 1.

#[export] Instance u64_key : KeyOrder Z := {
  key_zero := 0;
  key_null k := k =? 0;
  key_cmp a b := Some (u64_key_cmp a b);
}.

(** ** The tree and its operations *)

Record node (K : Type) := mk_node { left : Z; right : Z; parent : Z; key : K; value : Z }.
Arguments mk_node {K}.
Arguments left {K}.
Arguments right {K}.
Arguments parent {K}.
Arguments key {K}.
Arguments value {K}.

Record tree (K : Type) := mk_tree { root : Z; count : Z; heap : gmap Z (node K) }.
Arguments mk_tree {K}.
Arguments root {K}.
Arguments count {K}.
Arguments heap {K}.

Section Operations.
Context {K : Type} {KO : KeyOrder K}.

Definition with_left (x : Z) (n : node K) : node K := mk_node x (right n) (parent n) (key n) (value n).
Definition with_right (x : Z) (n : node K) : node K := mk_node (left n) x (parent n) (key n) (value n).
Definition with_parent (x : Z) (n : node K) : node K := mk_node (left n) (right n) x (key n) (value n).

Definition set_root (x : Z) (s : tree K) : tree K := mk_tree x (count s) (heap s).
Definition set_count (x : Z) (s : tree K) : tree K := mk_tree (root s) x (heap s).
Definition put (p : Z) (n : node K) (s : tree K) : tree K := mk_tree (root s) (count s) (<[p := n]> (heap s)).
Definition upd (p : Z) (f : node K -> node K) (s : tree K) : option (tree K) :=
  n ← heap s !! p; Some (put p (f n) s).

Definition fuel (s : tree K) : nat := S (size (heap s)).

Definition init (s : tree K) : tree K := set_count 0 (set_root 0 s).

Fixpoint find_loop (f : nat) (k : K) (p : Z) (s : tree K) : option Z :=
  match f with
  | O => None
  | S f =>
      if p =? 0 then Some 0 else
      n ← heap s !! p;
      cmp ← key_cmp k (key n);
      if cmp =? 0 then Some p
      else find_loop f k (if cmp <? 0 then left n else right n) s
  end.

Definition find_node (k : K) (s : tree K) : option Z :=
  if key_null k then Some 0 else find_loop (fuel s) k (root s) s.

Definition get (k : K) (s : tree K) : option Z :=
  p ← find_node k s;
  if p =? 0 then Some 0 else n ← heap s !! p; Some (value n).

(** A pointer to a pointer: the root, or a field of a node. *)
Inductive slot := SRoot | SLeft (p : Z) | SRight (p : Z).

Definition load (x : slot) (s : tree K) : option Z :=
  match x with
  | SRoot => Some (root s)
  | SLeft p => n ← heap s !! p; Some (left n)
  | SRight p => n ← heap s !! p; Some (right n)
  end.

Definition store (x : slot) (q : Z) (s : tree K) : option (tree K) :=
  match x with
  | SRoot => Some (set_root q s)
  | SLeft p => upd p (with_left q) s
  | SRight p => upd p (with_right q) s
  end.

(** The loop of the insertion: [None] inside means the key is there already. *)
Fixpoint insert_loop (f : nat) (k : K) (par : Z) (x : slot) (s : tree K)
    : option (option (Z * slot)) :=
  match f with
  | O => None
  | S f =>
      p ← load x s;
      if p =? 0 then Some (Some (par, x)) else
      n ← heap s !! p;
      cmp ← key_cmp k (key n);
      if cmp =? 0 then Some None
      else insert_loop f k p (if cmp <? 0 then SLeft p else SRight p) s
  end.

Definition insert_node (nd : Z) (k : K) (v : Z) (s : tree K) : option (Z * tree K) :=
  if (nd =? 0) || key_null k || (v =? 0) then Some (-1, s) else
  found ← insert_loop (fuel s) k 0 SRoot s;
  match found with
  | None => Some (-1, s)
  | Some (par, x) =>
      s ← upd nd (fun _ => mk_node 0 0 par k v) s;
      s ← store x nd s;
      Some (0, set_count (count s +w 1) s)
  end.

Fixpoint leftmost_loop (f : nat) (p : Z) (s : tree K) : option Z :=
  match f with
  | O => None
  | S f =>
      n ← heap s !! p;
      if left n =? 0 then Some p else leftmost_loop f (left n) s
  end.

Definition first_node (s : tree K) : option Z :=
  if root s =? 0 then Some 0 else leftmost_loop (fuel s) (root s) s.

Fixpoint climb_loop (f : nat) (current : Z) (s : tree K) : option Z :=
  match f with
  | O => None
  | S f =>
      n ← heap s !! current;
      if parent n =? 0 then Some 0 else
      q ← heap s !! parent n;
      if current =? right q then climb_loop f (parent n) s else Some (parent n)
  end.

Definition next_node (nd : Z) (s : tree K) : option Z :=
  if nd =? 0 then Some 0 else
  n ← heap s !! nd;
  if negb (right n =? 0) then leftmost_loop (fuel s) (right n) s
  else climb_loop (fuel s) nd s.

Definition transplant (old new : Z) (s : tree K) : option (tree K) :=
  o ← heap s !! old;
  s ← (if parent o =? 0 then Some (set_root new s) else
       q ← heap s !! parent o;
       if old =? left q then Some (put (parent o) (with_left new q) s)
       else Some (put (parent o) (with_right new q) s));
  if new =? 0 then Some s else
  o ← heap s !! old;
  upd new (with_parent (parent o)) s.

(** The two-children case: [next] is the successor of [nd]. *)
Definition splice (nd next : Z) (s : tree K) : option (tree K) :=
  x ← heap s !! next;
  s ← (if negb (parent x =? nd) then
         s ← transplant next (right x) s;
         n ← heap s !! nd;
         s ← upd next (with_right (right n)) s;
         x ← heap s !! next;
         upd (right x) (with_parent next) s
       else Some s);
  s ← transplant nd next s;
  n ← heap s !! nd;
  s ← upd next (with_left (left n)) s;
  x ← heap s !! next;
  upd (left x) (with_parent next) s.

(** The three cases of a removal. *)
Definition unlink (nd : Z) (s : tree K) : option (tree K) :=
  n ← heap s !! nd;
  if left n =? 0 then transplant nd (right n) s
  else if right n =? 0 then transplant nd (left n) s
  else next ← leftmost_loop (fuel s) (right n) s; splice nd next s.

Definition remove_node (nd : Z) (s : tree K) : option (tree K) :=
  if nd =? 0 then Some s else
  s ← unlink nd s;
  s ← upd nd (fun _ => mk_node 0 0 0 key_zero 0) s;
  Some (if count s =? 0 then s else set_count (count s - 1) s).

(** A structure with a zeroed node in it is allocated or freed. *)
Definition add_node (a : Z) (s : tree K) : tree K :=
  mk_tree (root s) (count s) (<[a := mk_node 0 0 0 key_zero 0]> (heap s)).
Definition drop_node (a : Z) (s : tree K) : tree K := mk_tree (root s) (count s) (delete a (heap s)).

(** [for (node = first; node != 0; node = next(node))]: the nodes visited. *)
Fixpoint walk_loop (f : nat) (nd : Z) (s : tree K) : option (list Z) :=
  match f with
  | O => None
  | S f => if nd =? 0 then Some [] else
           next ← next_node nd s; l ← walk_loop f next s; Some (nd :: l)
  end.

Definition walk (s : tree K) : option (list Z) :=
  nd ← first_node s; walk_loop (fuel s) nd s.

End Operations.

(** ** Trees and places in trees *)

Section Shape.
Context {K : Type}.
Implicit Types s : tree K.
Implicit Types n o : node K.

Inductive btree :=
  | Leaf
  | Node (l : btree) (p : Z) (k : K) (v : Z) (r : btree).

(** An entry of the name space: the key, the address of its node, the value. *)
Definition entry : Type := K * (Z * Z).
Definition addr (e : entry) : Z := fst (snd e).

Fixpoint entries (t : btree) : list entry :=
  match t with
  | Leaf => []
  | Node l p k v r => entries l ++ (k, (p, v)) :: entries r
  end.

Definition addrs (t : btree) : list Z := addr <$> entries t.

Definition troot (t : btree) : Z := match t with Leaf => 0 | Node _ p _ _ _ => p end.

(** A place in a tree, from the place to the root: the hole is the left or the
    right child of the first node. *)
Inductive frame :=
  | InLeft (p : Z) (k : K) (v : Z) (r : btree)
  | InRight (l : btree) (p : Z) (k : K) (v : Z).

Definition place : Type := list frame.

Fixpoint plug (c : place) (t : btree) : btree :=
  match c with
  | [] => t
  | InLeft p k v r :: c => plug c (Node t p k v r)
  | InRight l p k v :: c => plug c (Node l p k v t)
  end.

#[local] Instance leaf_dec (t : btree) : Decision (t = Leaf).
Proof. destruct t; [by left|by right]. Defined.

(** The entries before and after the hole. *)
Fixpoint before (c : place) : list entry :=
  match c with
  | [] => []
  | InLeft _ _ _ _ :: c => before c
  | InRight l p k v :: c => before c ++ entries l ++ [(k, (p, v))]
  end.

Fixpoint after (c : place) : list entry :=
  match c with
  | [] => []
  | InLeft p k v r :: c => (k, (p, v)) :: entries r ++ after c
  | InRight _ _ _ _ :: c => after c
  end.

Lemma entries_plug c t : entries (plug c t) = before c ++ entries t ++ after c.
Proof.
  revert t. induction c as [|[p k v r|l p k v] c IH]; intros t; simpl.
  - by rewrite app_nil_r.
  - rewrite IH. simpl. by rewrite <- !app_assoc.
  - rewrite IH. simpl. by rewrite <- !app_assoc.
Qed.

Lemma plug_app c c' t : plug (c ++ c') t = plug c' (plug c t).
Proof. revert t. induction c as [|[] c IH]; intros t; simpl; auto. Qed.

Definition place_addrs (c : place) : list Z := addr <$> before c ++ after c.

Lemma addrs_plug c t : addrs (plug c t) ≡ₚ place_addrs c ++ addrs t.
Proof.
  unfold addrs, place_addrs. rewrite entries_plug, !fmap_app. solve_Permutation.
Qed.

(** The address of the node of the hole's parent. *)
Definition above (c : place) : Z :=
  match c with [] => 0 | InLeft p _ _ _ :: _ | InRight _ p _ _ :: _ => p end.

Definition hole (c : place) : slot :=
  match c with [] => SRoot | InLeft p _ _ _ :: _ => SLeft p | InRight _ p _ _ :: _ => SRight p end.

(** ** How trees are laid out in the heap *)

Fixpoint rep (h : gmap Z (node K)) (par : Z) (t : btree) : Prop :=
  match t with
  | Leaf => True
  | Node l p k v r =>
      p <> 0 /\ h !! p = Some (mk_node (troot l) (troot r) par k v) /\ rep h p l /\ rep h p r
  end.

(** The rest of the tree around a place whose slot holds [q]. *)
Fixpoint rep_place (s : tree K) (c : place) (q : Z) : Prop :=
  match c with
  | [] => root s = q
  | InLeft p k v r :: c =>
      p <> 0 /\ heap s !! p = Some (mk_node q (troot r) (above c) k v) /\ rep (heap s) p r /\
      rep_place s c p
  | InRight l p k v :: c =>
      p <> 0 /\ heap s !! p = Some (mk_node (troot l) q (above c) k v) /\ rep (heap s) p l /\
      rep_place s c p
  end.

Definition rep_tree (s : tree K) (t : btree) : Prop := root s = troot t /\ rep (heap s) 0 t.

Lemma rep_plug s c t : rep_tree s (plug c t) <-> rep_place s c (troot t) /\ rep (heap s) (above c) t.
Proof.
  revert t. induction c as [|[p k v r|l p k v] c IH]; intros t; simpl; [done|..];
    rewrite IH; simpl; tauto.
Qed.

Lemma rep_frame h h' par t :
  (forall a, a ∈ addrs t -> h' !! a = h !! a) -> rep h par t -> rep h' par t.
Proof.
  revert par. induction t as [|l IHl p k v r IHr]; intros par Hh; simpl; [done|].
  unfold addrs in *. simpl in Hh. rewrite fmap_app in Hh. intros (Hp & Hn & Hl & Hr).
  split; [done|]. split; [rewrite Hh; [done|]; simpl; set_solver|].
  split; [apply IHl|apply IHr]; try done; intros a Ha; apply Hh; simpl; set_solver.
Qed.

Lemma rep_place_frame s s' c q :
  root s' = root s -> (forall a, a ∈ place_addrs c -> heap s' !! a = heap s !! a) ->
  rep_place s c q -> rep_place s' c q.
Proof.
  intros Hroot. revert q. induction c as [|[p k v r|l p k v] c IH]; intros q Hh; simpl; [by intros <-|..];
    unfold place_addrs in *; simpl in Hh; rewrite ?fmap_app in *; simpl in Hh; rewrite ?fmap_app in Hh;
    intros (Hp & Hn & Ht & Hc).
  - split; [done|]. split; [rewrite Hh; [done|]; set_solver|].
    split; [eapply rep_frame; [|exact Ht]|apply IH; [|done]]; intros a Ha; apply Hh; unfold addrs in *; set_solver.
  - split; [done|]. split; [rewrite Hh; [done|]; set_solver|].
    split; [eapply rep_frame; [|exact Ht]|apply IH; [|done]]; intros a Ha; apply Hh; unfold addrs in *; set_solver.
Qed.

Lemma above_in c : c <> [] -> above c ∈ place_addrs c.
Proof.
  destruct c as [|[p k v r|l p k v] c]; [done|..]; intros _; unfold place_addrs; simpl;
    rewrite ?fmap_app; simpl; rewrite ?fmap_app; unfold addr; simpl; set_solver.
Qed.

Lemma above_nonnull s c q : rep_place s c q -> c <> [] -> above c <> 0.
Proof. destruct c as [|[] c]; simpl; naive_solver. Qed.

Lemma place_addrs_left p k v r c :
  place_addrs (InLeft p k v r :: c) ≡ₚ p :: addrs r ++ place_addrs c.
Proof. unfold place_addrs, addrs. simpl. rewrite !fmap_app. simpl. rewrite !fmap_app. solve_Permutation. Qed.

Lemma place_addrs_right l p k v c :
  place_addrs (InRight l p k v :: c) ≡ₚ p :: addrs l ++ place_addrs c.
Proof. unfold place_addrs, addrs. simpl. rewrite !fmap_app. simpl. solve_Permutation. Qed.

Lemma addrs_node l p k v r : addrs (Node l p k v r) ≡ₚ p :: addrs l ++ addrs r.
Proof. unfold addrs. simpl. rewrite fmap_app. simpl. solve_Permutation. Qed.

Lemma troot_in t : t <> Leaf -> troot t ∈ addrs t.
Proof. destruct t; [done|]. intros _. rewrite addrs_node. simpl. set_solver. Qed.

Lemma lookup_upd s p n f : heap s !! p = Some n -> upd p f s = Some (put p (f n) s).
Proof. intros Hn. unfold upd. by rewrite Hn. Qed.

Lemma put_dom s p n n' : heap s !! p = Some n -> dom (heap (put p n' s)) = dom (heap s).
Proof. intros Hn. simpl. rewrite dom_insert_L. apply elem_of_dom_2 in Hn. set_solver. Qed.

(** A store outside a tree or place leaves it alone. *)
Lemma put_rep s p n par t : p ∉ addrs t -> rep (heap s) par t -> rep (heap (put p n s)) par t.
Proof. intros Hp. apply rep_frame. intros a Ha. simpl. rewrite lookup_insert_ne; [done|]. by intros ->. Qed.

Lemma put_place s p n c q : p ∉ place_addrs c -> rep_place s c q -> rep_place (put p n s) c q.
Proof.
  intros Hp. apply rep_place_frame; [done|]. intros a Ha. simpl.
  rewrite lookup_insert_ne; [done|]. by intros ->.
Qed.

(** Writing the slot of a place. *)
Lemma store_hole s c q q' :
  rep_place s c q -> NoDup (place_addrs c) ->
  exists s', store (hole c) q' s = Some s' /\ rep_place s' c q' /\ count s' = count s /\
    dom (heap s') = dom (heap s) /\
    (forall a, a ∉ place_addrs c -> heap s' !! a = heap s !! a).
Proof.
  destruct c as [|[p k v r|l p k v] c]; simpl.
  { intros _ _. by exists (set_root q' s). }
  - rewrite place_addrs_left. intros (Hp & Hn & Ht & Hc) [[Hn1 Hn2]%not_elem_of_app _]%NoDup_cons.
    rewrite (lookup_upd _ _ _ _ Hn). eexists. split; [done|]. split; [|split; [done|split; [by eapply put_dom|]]].
    + split; [done|]. split; [simpl; by rewrite lookup_insert_eq|].
      split; [by apply put_rep|by apply put_place].
    + intros a Ha. rewrite place_addrs_left in Ha. apply not_elem_of_cons in Ha as [Ha _].
      simpl. by rewrite lookup_insert_ne.
  - rewrite place_addrs_right. intros (Hp & Hn & Ht & Hc) [[Hn1 Hn2]%not_elem_of_app _]%NoDup_cons.
    rewrite (lookup_upd _ _ _ _ Hn). eexists. split; [done|]. split; [|split; [done|split; [by eapply put_dom|]]].
    + split; [done|]. split; [simpl; by rewrite lookup_insert_eq|].
      split; [by apply put_rep|by apply put_place].
    + intros a Ha. rewrite place_addrs_right in Ha. apply not_elem_of_cons in Ha as [Ha _].
      simpl. by rewrite lookup_insert_ne.
Qed.

(** Changing the parent pointer of the root of a subtree. *)
Lemma reparent s q q' t :
  rep (heap s) q t -> NoDup (addrs t) -> t <> Leaf ->
  exists s', upd (troot t) (with_parent q') s = Some s' /\ rep (heap s') q' t /\
    root s' = root s /\ count s' = count s /\ dom (heap s') = dom (heap s) /\
    (forall a, a <> troot t -> heap s' !! a = heap s !! a).
Proof.
  destruct t as [|l p k v r]; [done|]. intros (Hp & Hn & Hl & Hr) Hnd _. simpl.
  rewrite addrs_node in Hnd. apply NoDup_cons in Hnd as [[Hn1 Hn2]%not_elem_of_app _].
  rewrite (lookup_upd _ _ _ _ Hn). eexists. split; [done|].
  split; [|split; [done|split; [done|split; [by eapply put_dom|]]]].
  - split; [done|]. split; [simpl; by rewrite lookup_insert_eq|]. split; by apply put_rep.
  - intros a Ha. simpl. by rewrite lookup_insert_ne.
Qed.

(** [transplant] finds the slot of the old node from its parent pointer. *)
Lemma transplant_slot s c old o new :
  rep_place s c old -> NoDup (place_addrs c) -> old <> 0 -> old ∉ place_addrs c ->
  heap s !! old = Some o -> parent o = above c ->
  transplant old new s =
    (s ← store (hole c) new s;
     if new =? 0 then Some s else upd new (with_parent (above c)) s).
Proof.
  intros Hrep Hnd H0 Hnot Ho Hpar. unfold transplant. rewrite Ho. cbn [mbind option_bind].
  rewrite Hpar. destruct c as [|f c].
  { simpl. rewrite Ho. simpl. by rewrite Hpar. }
  pose proof (above_nonnull _ _ _ Hrep ltac:(done)) as Hnz%Z.eqb_neq. rewrite Hnz.
  pose proof (above_in (f :: c) ltac:(done)) as Hin.
  assert (forall n, heap (put (above (f :: c)) n s) !! old = Some o) as Hkeep.
  { intros n. unfold put. cbn [heap]. rewrite lookup_insert_ne; [done|]. intros <-. done. }
  destruct f as [p k v r|l p k v]; simpl above in *; simpl in Hrep; destruct Hrep as (Hp & Hn & Ht & Hc).
  - rewrite Hn. cbn [mbind option_bind left]. rewrite Z.eqb_refl. cbn [mbind option_bind hole store].
    rewrite (lookup_upd _ _ _ _ Hn), Hkeep. cbn [mbind option_bind]. by rewrite Hpar.
  - rewrite Hn. cbn [mbind option_bind left].
    assert (old =? troot l = false) as ->.
    { apply Z.eqb_neq. intros ->. destruct l as [|l' p' k' v' r']; [done|]. apply Hnot.
      rewrite place_addrs_right. apply elem_of_cons. right. apply elem_of_app. left. by apply troot_in. }
    cbn [mbind option_bind hole store].
    rewrite (lookup_upd _ _ _ _ Hn), Hkeep. cbn [mbind option_bind]. by rewrite Hpar.
Qed.

Lemma transplant_ok s c old o q t :
  rep_place s c old -> NoDup (place_addrs c) -> old <> 0 -> old ∉ place_addrs c ->
  heap s !! old = Some o -> parent o = above c ->
  rep (heap s) q t -> NoDup (addrs t) -> addrs t ## place_addrs c ->
  exists s', transplant old (troot t) s = Some s' /\ rep_place s' c (troot t) /\
    rep (heap s') (above c) t /\ count s' = count s /\ dom (heap s') = dom (heap s) /\
    (forall a, a ∉ place_addrs c -> a ∉ addrs t -> heap s' !! a = heap s !! a) /\
    (forall a, a ∉ place_addrs c -> a <> troot t -> heap s' !! a = heap s !! a).
Proof.
  intros Hrep Hnd H0 Hnot Ho Hpar Ht Hndt Hdis.
  erewrite transplant_slot by eassumption.
  destruct (store_hole s c old (troot t) Hrep Hnd) as (s1 & -> & Hrep1 & Hc1 & Hd1 & Hk1).
  cbn [mbind option_bind].
  assert (rep (heap s1) q t) as Ht1.
  { eapply rep_frame; [|exact Ht]. intros a Ha. apply Hk1. set_solver. }
  destruct t as [|l p k v r].
  { simpl. exists s1. split_and!; try done; auto. }
  assert (troot (Node l p k v r) =? 0 = false) as -> by (simpl in Ht; apply Z.eqb_neq; tauto).
  destruct (reparent s1 q (above c) _ Ht1 Hndt ltac:(done)) as (s2 & -> & Ht2 & Hr2 & Hc2 & Hd2 & Hk2).
  pose proof (troot_in (Node l p k v r) ltac:(done)) as Hin.
  exists s2. split_and!; try done; try congruence.
  - eapply rep_place_frame; [exact Hr2| |exact Hrep1]. intros a Ha. apply Hk2. intros ->. set_solver.
  - intros a Ha Hat. rewrite Hk2 by (intros ->; done). by apply Hk1.
  - intros a Ha Hat. rewrite Hk2 by done. by apply Hk1.
Qed.

(** *** The leftmost node *)

Lemma before_app c c' : before (c ++ c') = before c' ++ before c.
Proof.
  induction c as [|[p k v r|l p k v] c IH]; simpl; [by rewrite app_nil_r|done|].
  by rewrite IH, <- app_assoc.
Qed.

Lemma leftmost_ok s f q t :
  rep (heap s) q t -> t <> Leaf -> (length (addrs t) <= f)%nat ->
  exists c p k v r, t = plug c (Node Leaf p k v r) /\ before c = [] /\
    leftmost_loop f (troot t) s = Some p.
Proof.
  revert f q. induction t as [|l IH p k v r _]; intros f q; [done|].
  intros (Hp & Hn & Hl & Hr) _. rewrite addrs_node. simpl. rewrite length_app. intros Hf.
  destruct f as [|f]; [lia|]. simpl. rewrite Hn. simpl. destruct l as [|l1 pl kl vl l2].
  - exists [], p, k, v, r. done.
  - destruct (IH f p Hl) as (c & p' & k' & v' & r' & Heq & Hb & Hlm); [done|lia|].
    assert (pl <> 0) as Hnz by (simpl in Hl; tauto).
    exists (c ++ [InLeft p k v r]), p', k', v', r'. rewrite plug_app, before_app, Hb. simpl.
    split; [by rewrite <- Heq|]. split; [done|]. by decide_tests.
Qed.

(** *** The two-children case of a removal *)

Record spread (c : place) (l : btree) (p pm : Z) (r : btree) : Prop := {
  sp_p : p ∉ addrs l /\ p <> pm /\ p ∉ addrs r /\ p ∉ place_addrs c;
  sp_pm : pm ∉ addrs l /\ pm ∉ addrs r /\ pm ∉ place_addrs c;
  sp_nodup : NoDup (addrs l) /\ NoDup (addrs r) /\ NoDup (place_addrs c);
  sp_lr : forall a, a ∈ addrs l -> a ∉ addrs r;
  sp_lc : forall a, a ∈ addrs l -> a ∉ place_addrs c;
  sp_rc : forall a, a ∈ addrs r -> a ∉ place_addrs c;
}.

Lemma spread_intro c l p pm r :
  NoDup (p :: pm :: addrs l ++ addrs r ++ place_addrs c) -> spread c l p pm r.
Proof.
  intros [Hp [Hpm (Hl & Hd & (Hr & Hd' & Hc)%NoDup_app)%NoDup_app]%NoDup_cons]%NoDup_cons.
  rewrite not_elem_of_cons, !not_elem_of_app in Hp. rewrite !not_elem_of_app in Hpm.
  constructor; [tauto|tauto|tauto|..|done]; intros a Ha Ha'; apply (Hd a Ha), elem_of_app; auto.
Qed.

(** Before the second [transplant]: [pm] is detached, with the right subtree of
    the result below it. *)
Record ready (s : tree K) (c : place) (l : btree) (p : Z) (pm : Z) (km : K) (vm : Z) (r : btree) : Prop := {
  rd_place : rep_place s c p;
  rd_node : p <> 0 /\ exists x k v, heap s !! p = Some (mk_node (troot l) x (above c) k v);
  rd_left : rep (heap s) p l;
  rd_next : exists q, rep (heap s) q (Node Leaf pm km vm r);
}.

Lemma splice_top s c l p pm km vm r :
  ready s c l p pm km vm r -> spread c l p pm r -> l <> Leaf ->
  exists s', (s ← transplant p pm s;
              n ← heap s !! p;
              s ← upd pm (with_left (left n)) s;
              x ← heap s !! pm;
              upd (left x) (with_parent pm) s) = Some s' /\
    rep_tree s' (plug c (Node l pm km vm r)) /\ count s' = count s /\ dom (heap s') = dom (heap s).
Proof.
  intros [Hpl (Hp0 & x & k & v & Hn) Hl [q Hq]] [(Hpl1 & Hpp & Hpr & Hpc) (Hml & Hmr & Hmc) (Nl & Nr & Nc) Hlr Hlc Hrc] Hne.
  destruct (transplant_ok s c p _ q (Node Leaf pm km vm r) Hpl Nc Hp0 Hpc Hn eq_refl Hq)
    as (s1 & Ht & Hpl' & Hq1 & Hc1 & Hd1 & Hk1 & _).
  { rewrite addrs_node. simpl. apply NoDup_cons. done. }
  { intros a. rewrite addrs_node. simpl. intros [->|Ha]%elem_of_cons; [done|]. by apply Hrc. }
  simpl troot in Ht. rewrite Ht. cbn [mbind option_bind].
  assert (forall a, a ∉ place_addrs c -> a <> pm -> a ∉ addrs r -> heap s1 !! a = heap s !! a) as Hk.
  { intros a Ha Ham Har. apply Hk1; [done|]. rewrite addrs_node. simpl. by apply not_elem_of_cons. }
  rewrite (Hk p), Hn by done. cbn [mbind option_bind left].
  destruct Hq1 as (Hm0 & Hm1 & _ & Hr1). rewrite (lookup_upd _ _ _ _ Hm1). cbn [mbind option_bind].
  simpl heap at 1. rewrite lookup_insert_eq. cbn [mbind option_bind with_left left].
  set (s2 := put pm _ s1).
  assert (rep (heap s2) p l) as Hl2.
  { apply put_rep; [done|]. eapply rep_frame; [|exact Hl]. intros a Ha. apply Hk; auto. by intros ->. }
  destruct (reparent s2 p pm l Hl2 Nl Hne) as (s3 & -> & Hl3 & Hr3 & Hc3 & Hd3 & Hk3).
  assert (forall a, a ∉ addrs l -> a <> pm -> heap s3 !! a = heap s1 !! a) as Hk'.
  { intros a Ha Ham. rewrite Hk3 by (intros ->; by apply Ha, troot_in). simpl. by rewrite lookup_insert_ne. }
  exists s3. split; [done|]. split; [|split].
  - apply rep_plug. split; [|split; [done|split; [|split]]].
    + eapply rep_place_frame; [| |exact Hpl']; [by rewrite Hr3|].
      intros a Ha. apply Hk'; [by intros ?%Hlc|by intros ->].
    + rewrite Hk3 by (intros ->; by apply Hml, troot_in). simpl. by rewrite lookup_insert_eq.
    + done.
    + eapply rep_frame; [|exact Hr1]. intros a Ha. apply Hk'; [by intros ?%Hlr|by intros ->].
  - by rewrite Hc3.
  - rewrite Hd3, <- Hd1. by eapply put_dom.
Qed.

Lemma addrs_pull c p k v r : addrs (plug c (Node Leaf p k v r)) ≡ₚ p :: addrs (plug c r).
Proof. rewrite !addrs_plug, addrs_node. simpl. apply Permutation_sym, Permutation_middle. Qed.

Lemma plug_nonleaf c t : c <> [] -> plug c t <> Leaf.
Proof.
  revert t. induction c as [|f c IH]; intros t; [done|]. intros _. destruct c as [|g c].
  - by destruct f.
  - destruct f; by apply IH.
Qed.

(** The first part, when the successor is not the right child itself. *)
Lemma splice_detach s c l p k v c' pm km vm rm :
  let r := plug c' rm in
  rep_tree s (plug c (Node l p k v (plug c' (Node Leaf pm km vm rm)))) -> c' <> [] ->
  NoDup (addrs (plug c (Node l p k v (plug c' (Node Leaf pm km vm rm))))) -> spread c l p pm r ->
  exists s', (s ← transplant pm (troot rm) s;
              n ← heap s !! p;
              s ← upd pm (with_right (right n)) s;
              x ← heap s !! pm;
              upd (right x) (with_parent pm) s) = Some s' /\
    ready s' c l p pm km vm r /\ count s' = count s /\ dom (heap s') = dom (heap s).
Proof.
  intros r Hrep Hc' Hnd [(Hpl1 & Hpp & Hpr & Hpc) (Hml & Hmr & Hmc) (Nl & Nr & Nc) Hlr Hlc Hrc].
  set (C := c' ++ InRight l p k v :: c).
  assert (forall t, plug c (Node l p k v (plug c' t)) = plug C t) as HC by (intros t; unfold C; by rewrite plug_app).
  rewrite HC in Hrep, Hnd. rewrite addrs_pull in Hnd. apply NoDup_cons in Hnd as [Hm Hnd].
  rewrite addrs_plug in Hm, Hnd. apply not_elem_of_app in Hm as [HmC Hmrm].
  apply NoDup_app in Hnd as (NC & HCr & Nrm).
  apply rep_plug in Hrep as [HplC (Hm0 & Hm1 & _ & Hrm)]. simpl in HplC, Hm1.
  destruct (transplant_ok s C pm _ pm rm HplC NC Hm0 HmC Hm1 eq_refl Hrm Nrm) as (s1 & -> & HplC1 & Hrm1 & Hc1 & Hd1 & Hk1 & _).
  { intros a Ha Ha'. by apply (HCr a Ha'). }
  cbn [mbind option_bind].
  assert (rep_tree s1 (plug c (Node l p k v r))) as Hrep1 by (unfold r; rewrite HC; by apply rep_plug).
  apply rep_plug in Hrep1 as [Hpl (Hp0 & Hn & Hl & Hr)]. rewrite Hn. cbn [mbind option_bind right].
  rewrite (lookup_upd s1 pm _ _ (eq_trans (Hk1 pm HmC Hmrm) Hm1)). cbn [mbind option_bind].
  simpl heap at 1. rewrite lookup_insert_eq. cbn [mbind option_bind with_right right].
  set (s2 := put pm _ s1).
  assert (rep (heap s2) p r) as Hr2 by (by apply put_rep).
  destruct (reparent s2 p pm r Hr2 Nr (plug_nonleaf c' rm Hc')) as (s3 & -> & Hr3 & Hroot3 & Hc3 & Hd3 & Hk3).
  pose proof (troot_in r (plug_nonleaf c' rm Hc')) as Hin.
  assert (forall a, a ∉ addrs r -> a <> pm -> heap s3 !! a = heap s1 !! a) as Hk'.
  { intros a Ha Ham. rewrite Hk3 by (by intros ->). simpl. by rewrite lookup_insert_ne. }
  exists s3. split; [done|]. split; [constructor|split].
  - eapply rep_place_frame; [| |exact Hpl]; [by rewrite Hroot3|].
    intros a Ha. apply Hk'; [by intros ?%Hrc|by intros ->].
  - split; [done|]. eexists _, _, _. rewrite Hk' by done. exact Hn.
  - eapply rep_frame; [|exact Hl]. intros a Ha. apply Hk'; [by apply Hlr|by intros ->].
  - exists (above C). split; [done|]. split; [|done].
    rewrite Hk3 by (by intros ->). simpl. by rewrite lookup_insert_eq.
  - by rewrite Hc3.
  - rewrite Hd3, <- Hd1. eapply put_dom. rewrite Hk1 by done. exact Hm1.
Qed.

Lemma splice_ok s c l p k v c' pm km vm rm :
  rep_tree s (plug c (Node l p k v (plug c' (Node Leaf pm km vm rm)))) ->
  NoDup (addrs (plug c (Node l p k v (plug c' (Node Leaf pm km vm rm))))) -> l <> Leaf ->
  exists s', splice p pm s = Some s' /\ rep_tree s' (plug c (Node l pm km vm (plug c' rm))) /\
    count s' = count s /\ dom (heap s') = dom (heap s).
Proof.
  intros Hrep Hnd Hne. unfold splice.
  assert (spread c l p pm (plug c' rm)) as Hsp.
  { apply spread_intro. revert Hnd. rewrite addrs_plug, addrs_node, addrs_pull.
    intros Hnd. eapply NoDup_Permutation_proper; [|exact Hnd]. solve_Permutation. }
  pose proof Hrep as Hrep'. apply rep_plug in Hrep' as [Hpl (Hp0 & Hn & Hl & Hr)].
  destruct c' as [|f c'].
  - simpl in Hr. destruct Hr as (Hm0 & Hm & _ & Hr). rewrite Hm. cbn [mbind option_bind parent].
    rewrite Z.eqb_refl. cbn [negb mbind option_bind].
    apply splice_top; [|done..]. constructor; [done|split; eauto|done|]. by exists p.
  - assert (exists x, heap s !! pm = Some x /\ right x = troot rm /\ parent x <> p) as (x & Hx & Hxr & Hxp).
    { change (Node l p k v (plug (f :: c') (Node Leaf pm km vm rm)))
        with (plug [InRight l p k v] (plug (f :: c') (Node Leaf pm km vm rm))) in Hrep.
      rewrite <- !plug_app in Hrep. apply rep_plug in Hrep as [_ (_ & Hm & _)].
      eexists. split; [exact Hm|]. split; [done|]. intros Heq.
      destruct Hsp as [(_ & _ & Hpr & _) _ _ _ _ _]. apply Hpr. rewrite addrs_plug.
      apply elem_of_app. left. assert (above (f :: c') = p) as <- by (by destruct f).
      by apply above_in. }
    rewrite Hx. cbn [mbind option_bind]. decide_tests. rewrite Hxr. simpl negb. cbv iota.
    destruct (splice_detach s c l p k v (f :: c') pm km vm rm Hrep ltac:(done) Hnd Hsp) as (s1 & Heq & Hrd & Hc1 & Hd1).
    rewrite Heq. cbn [mbind option_bind].
    destruct (splice_top s1 c l p pm km vm _ Hrd Hsp Hne) as (s2 & Heq2 & Hrep2 & Hc2 & Hd2).
    exists s2. split; [exact Heq2|]. split; [done|]. split; congruence.
Qed.

Lemma rep_in_heap h par t a : rep h par t -> a ∈ addrs t -> is_Some (h !! a).
Proof.
  revert par. induction t as [|l IHl p k v r IHr]; intros par; [intros _ []%elem_of_nil|].
  intros (_ & Hn & Hl & Hr). rewrite addrs_node. intros [->|[Ha|Ha]%elem_of_app]%elem_of_cons; eauto.
Qed.

Lemma rep_fuel s par t : rep (heap s) par t -> NoDup (addrs t) -> (length (addrs t) < fuel s)%nat.
Proof.
  intros Hrep Hnd. unfold fuel. rewrite <- size_dom, <- (size_list_to_set (C := gset Z)) by done.
  apply Nat.lt_succ_r, subseteq_size. intros a Ha%elem_of_list_to_set. apply elem_of_dom.
  by eapply rep_in_heap.
Qed.

Lemma rep_nonleaf h par t : rep h par t -> t <> Leaf -> troot t <> 0.
Proof. destruct t; simpl; naive_solver. Qed.

Lemma find_place t p : p ∈ addrs t -> exists c l k v r, t = plug c (Node l p k v r).
Proof.
  induction t as [|l IHl p' k v r IHr]; [intros []%elem_of_nil|].
  rewrite addrs_node. intros [->|[Ha|Ha]%elem_of_app]%elem_of_cons.
  - by exists [], l, k, v, r.
  - destruct (IHl Ha) as (c & l0 & k0 & v0 & r0 & ->).
    exists (c ++ [InLeft p' k v r]), l0, k0, v0, r0. by rewrite plug_app.
  - destruct (IHr Ha) as (c & l0 & k0 & v0 & r0 & ->).
    exists (c ++ [InRight l p' k v]), l0, k0, v0, r0. by rewrite plug_app.
Qed.

Lemma unlink_ok s c l p k v r :
  rep_tree s (plug c (Node l p k v r)) -> NoDup (addrs (plug c (Node l p k v r))) ->
  exists s' t', unlink p s = Some s' /\ rep_tree s' t' /\
    entries t' = before c ++ entries l ++ entries r ++ after c /\
    count s' = count s /\ dom (heap s') = dom (heap s).
Proof.
  intros Hrep Hnd. unfold unlink. pose proof Hrep as Hrep'.
  apply rep_plug in Hrep' as [Hpl (Hp0 & Hn & Hl & Hr)]. rewrite Hn. cbn [mbind option_bind left right].
  assert (NoDup (p :: place_addrs c ++ addrs l ++ addrs r)) as Hnd'.
  { eapply NoDup_Permutation_proper; [|exact Hnd]. rewrite addrs_plug, addrs_node. apply Permutation_middle. }
  apply NoDup_cons in Hnd' as [Hpn (Nc & Hd & (Nl & Hd' & Nr)%NoDup_app)%NoDup_app].
  rewrite !not_elem_of_app in Hpn. destruct Hpn as (Hpc & Hpl1 & Hpr).
  destruct (decide (l = Leaf)) as [->|Hl0]; [|destruct (decide (r = Leaf)) as [->|Hr0]].
  - simpl. destruct (transplant_ok s c p _ p r Hpl Nc Hp0 Hpc Hn eq_refl Hr Nr) as (s' & -> & Hpl' & Hr' & Hc & Hdm & _).
    { intros a Ha Ha'. apply (Hd a Ha'). by apply elem_of_app; right. }
    exists s', (plug c r). split; [done|]. split; [by apply rep_plug|]. split; [by rewrite entries_plug|done].
  - pose proof (rep_nonleaf _ _ _ Hl Hl0). decide_tests. simpl.
    destruct (transplant_ok s c p _ p l Hpl Nc Hp0 Hpc Hn eq_refl Hl Nl) as (s' & -> & Hpl' & Hl' & Hc & Hdm & _).
    { intros a Ha Ha'. apply (Hd a Ha'). by apply elem_of_app; left. }
    exists s', (plug c l). split; [done|]. split; [by apply rep_plug|]. split; [by rewrite entries_plug|done].
  - pose proof (rep_nonleaf _ _ _ Hl Hl0). pose proof (rep_nonleaf _ _ _ Hr Hr0). decide_tests.
    destruct (leftmost_ok s (fuel s) p r Hr Hr0) as (c' & pm & km & vm & rm & -> & Hb & ->).
    { pose proof (rep_fuel s p r Hr Nr). lia. }
    cbn [mbind option_bind].
    destruct (splice_ok s c l p k v c' pm km vm rm Hrep Hnd Hl0) as (s' & -> & Hrep' & Hc & Hdm).
    exists s', (plug c (Node l pm km vm (plug c' rm))). split; [done|]. split; [done|]. split; [|done].
    rewrite entries_plug. simpl. rewrite !entries_plug, Hb. simpl. repeat (rewrite <- app_assoc; simpl); done.
Qed.

Lemma rep_tree_put s t p n : p ∉ addrs t -> rep_tree s t -> rep_tree (put p n s) t.
Proof. intros Hp [Hr Ht]. split; [done|]. by apply put_rep. Qed.

Lemma remove_ok `{KO : !KeyOrder K} s c l p k v r :
  rep_tree s (plug c (Node l p k v r)) -> NoDup (addrs (plug c (Node l p k v r))) ->
  exists s' t', remove_node p s = Some s' /\ rep_tree s' t' /\
    entries t' = before c ++ entries l ++ entries r ++ after c /\
    count s' = (if count s =? 0 then 0 else count s - 1) /\ dom (heap s') = dom (heap s).
Proof.
  intros Hrep Hnd. destruct (unlink_ok s c l p k v r Hrep Hnd) as (s1 & t1 & Hu & Hrep1 & He & Hc & Hd).
  pose proof Hrep as [_ (Hp0 & Hn & _)]%rep_plug.
  unfold remove_node. decide_tests. rewrite Hu. cbn [mbind option_bind].
  assert (is_Some (heap s1 !! p)) as [n1 Hn1].
  { apply elem_of_dom. rewrite Hd. apply elem_of_dom. eauto. }
  rewrite (lookup_upd _ _ _ _ Hn1). cbn [mbind option_bind]. set (s2 := put p _ s1).
  assert (rep_tree s2 t1) as Hrep2.
  { apply rep_tree_put; [|done]. eapply NoDup_cons_1_1, NoDup_Permutation_proper; [|exact Hnd].
    unfold addrs. rewrite He, entries_plug. simpl. rewrite ?fmap_app. simpl. rewrite ?fmap_app.
    solve_Permutation. }
  assert (dom (heap s2) = dom (heap s)) as Hd2 by (rewrite <- Hd; by eapply put_dom).
  eexists _, t1. split; [done|]. change (count s2) with (count s1). rewrite <- Hc. by case_if.
Qed.
End Shape.

(** ** Search *)

(** What a comparison has to satisfy on keys that are not null. *)
Class KeyLaws (K : Type) {KO : KeyOrder K} := {
  key_lt : K -> K -> Prop;
  key_lt_irrefl k : ~ key_lt k k;
  key_lt_trans a b c : key_lt a b -> key_lt b c -> key_lt a c;
  key_total a b : key_null a = false -> key_null b = false ->
    key_cmp a b = Some 0 /\ a = b \/
    (exists c, key_cmp a b = Some c /\ c < 0 /\ key_lt a b) \/
    (exists c, key_cmp a b = Some c /\ 0 < c /\ key_lt b a);
}.

Section Search.
Context {K : Type} {KO : KeyOrder K} {KL : KeyLaws K}.
Implicit Types s : tree K.
Implicit Types t : btree (K := K).
Implicit Types c : place (K := K).

(** The entries are in key order, and keys are not null. *)
Definition ordered (l : list (entry (K := K))) : Prop :=
  StronglySorted (fun e e' => key_lt (fst e) (fst e')) l /\ Forall (fun e => key_null (fst e) = false) l.

Lemma ordered_app l l' : ordered (l ++ l') <->
  ordered l /\ ordered l' /\ (forall e e', e ∈ l -> e' ∈ l' -> key_lt (fst e) (fst e')).
Proof.
  unfold ordered. rewrite StronglySorted_app, Forall_app. naive_solver.
Qed.

Lemma ordered_cons e l : ordered (e :: l) <->
  key_null (fst e) = false /\ ordered l /\ (forall e', e' ∈ l -> key_lt (fst e) (fst e')).
Proof.
  unfold ordered. rewrite StronglySorted_cons, Forall_cons, Forall_forall. naive_solver.
Qed.

Lemma ordered_nil : ordered [].
Proof. split; constructor. Qed.

(** The entry of a key, if there is one. *)
Definition entry_at (k : K) (l : list (entry (K := K))) (p v : Z) : Prop := (k, (p, v)) ∈ l.
Definition absent (k : K) (l : list (entry (K := K))) : Prop := forall e, e ∈ l -> fst e <> k.

Lemma lt_neq a b : key_lt a b -> a <> b.
Proof. intros H ->. by apply (key_lt_irrefl b). Qed.

Lemma find_loop_ok s f k par t :
  rep (heap s) par t -> ordered (entries t) -> key_null k = false -> (length (addrs t) < f)%nat ->
  (exists p v, entry_at k (entries t) p v /\ find_loop f k (troot t) s = Some p) \/
  absent k (entries t) /\ find_loop f k (troot t) s = Some 0.
Proof.
  revert f par. induction t as [|l IHl p k0 v r IHr]; intros f par Hrep Hord Hk Hf.
  { right. split; [intros e []%elem_of_nil|]. destruct f; [simpl in Hf; lia|done]. }
  destruct f as [|f]; [lia|]. destruct Hrep as (Hp & Hn & Hl & Hr).
  simpl in Hord. apply ordered_app in Hord as (Hol & [Hk0 [Hor Hgt]]%ordered_cons & Hlt).
  rewrite addrs_node in Hf. simpl in Hf. rewrite length_app in Hf.
  cbn [find_loop troot]. decide_tests. rewrite Hn. cbn [mbind option_bind key left right].
  unfold entry_at, absent. simpl.
  destruct (key_total k k0 Hk Hk0) as [[-> ->]|[(c & -> & Hc & Hlt')|(c & -> & Hc & Hlt')]].
  - left. exists p, v. split; [apply elem_of_app; right; left|done].
  - cbn [mbind option_bind]. decide_tests. destruct (IHl f p Hl Hol Hk) as [(q & w & Hin & Hf')|[Hab Hf']]; [lia|..].
    + left. exists q, w. split; [apply elem_of_app; by left|done].
    + right. split; [|done]. intros e [He|[->|He]%elem_of_cons]%elem_of_app; [by apply Hab|..].
      * intros <-. by apply (lt_neq _ _ Hlt').
      * intros <-. apply Hgt in He. simpl in He. by apply (key_lt_irrefl (fst e)), (key_lt_trans _ k0).
  - cbn [mbind option_bind]. decide_tests. destruct (IHr f p Hr Hor Hk) as [(q & w & Hin & Hf')|[Hab Hf']]; [lia|..].
    + left. exists q, w. split; [apply elem_of_app; right; by right|done].
    + right. split; [|done]. intros e [He|[->|He]%elem_of_cons]%elem_of_app; [|..|by apply Hab].
      * intros <-. apply (Hlt e (k0, (p, v))) in He; [|left]. simpl in He. by apply (key_lt_irrefl k0), (key_lt_trans _ (fst e)).
      * intros <-. by apply (lt_neq _ _ Hlt').
Qed.

Lemma load_hole s c q : rep_place s c q -> load (hole c) s = Some q.
Proof. destruct c as [|[p k v r|l p k v] c]; simpl; [by intros ->|..]; by intros (_ & -> & _). Qed.

Definition below_place (k : K) (c : place) : Prop :=
  (forall e, e ∈ before c -> key_lt (fst e) k) /\ (forall e, e ∈ after c -> key_lt k (fst e)).

(** The insertion walks to the place where the key belongs. *)
Lemma insert_loop_ok s f k c t :
  rep_place s c (troot t) -> rep (heap s) (above c) t -> ordered (entries t) -> key_null k = false ->
  below_place k c -> (length (addrs t) < f)%nat ->
  (exists p v, entry_at k (entries t) p v /\ insert_loop f k (above c) (hole c) s = Some None) \/
  (exists c', plug c t = plug c' Leaf /\ below_place k c' /\
     insert_loop f k (above c) (hole c) s = Some (Some (above c', hole c'))).
Proof.
  revert f c. induction t as [|l IHl p k0 v r IHr]; intros f c Hpl Hrep Hord Hk Hb Hf;
    (destruct f as [|f]; [lia|]); cbn [insert_loop]; rewrite (load_hole _ _ _ Hpl); cbn [mbind option_bind].
  { right. by exists c. }
  destruct Hrep as (Hp & Hn & Hl & Hr). cbn [troot]. decide_tests. rewrite Hn.
  cbn [mbind option_bind key].
  simpl in Hord. apply ordered_app in Hord as (Hol & [Hk0 [Hor Hgt]]%ordered_cons & Hlt).
  rewrite addrs_node in Hf. simpl in Hf. rewrite length_app in Hf. destruct Hb as [Hb1 Hb2].
  destruct (key_total k k0 Hk Hk0) as [[-> ->]|[(x & -> & Hc & Hlt')|(x & -> & Hc & Hlt')]].
  - left. exists p, v. split; [apply elem_of_app; right; left|done].
  - cbn [mbind option_bind]. decide_tests.
    destruct (IHl f (InLeft p k0 v r :: c)) as [(q & w & Hin & Hf')|Hr']; try done; [|lia|..].
    + split; [done|]. simpl. intros e [->|[He|He]%elem_of_app]%elem_of_cons; [done| |by apply Hb2].
      eapply key_lt_trans; [exact Hlt'|]. by apply (Hgt e).
    + left. exists q, w. split; [apply elem_of_app; by left|done].
    + right. exact Hr'.
  - cbn [mbind option_bind]. decide_tests.
    destruct (IHr f (InRight l p k0 v :: c)) as [(q & w & Hin & Hf')|Hr']; try done; [|lia|..].
    + split; [|done]. simpl.
      intros e [He|[He| ->%list_elem_of_singleton]%elem_of_app]%elem_of_app; [by apply Hb1| |done].
      eapply key_lt_trans; [|exact Hlt']. apply (Hlt e (k0, (p, v)) He). left.
    + left. exists q, w. split; [apply elem_of_app; right; by right|done].
    + right. exact Hr'.
Qed.

(** Linking a new node into a place. *)
Lemma link_ok s c nd n0 k v :
  rep_tree s (plug c Leaf) -> NoDup (place_addrs c) -> nd ∉ place_addrs c -> nd <> 0 ->
  heap s !! nd = Some n0 ->
  exists s', (s ← upd nd (fun _ => mk_node 0 0 (above c) k v) s; store (hole c) nd s) = Some s' /\
    rep_tree s' (plug c (Node Leaf nd k v Leaf)) /\ count s' = count s /\ dom (heap s') = dom (heap s).
Proof.
  intros [Hpl _]%rep_plug Hnd Hni H0 Hn. rewrite (lookup_upd _ _ _ _ Hn). cbn [mbind option_bind].
  set (s1 := put nd _ s).
  destruct (store_hole s1 c 0 nd (put_place _ _ _ _ _ Hni Hpl) Hnd) as (s2 & -> & Hpl2 & Hc2 & Hd2 & Hk2).
  exists s2. split; [done|]. split; [|split; [done|by rewrite Hd2; eapply put_dom]].
  apply rep_plug. split; [done|]. split; [done|]. split; [|done].
  rewrite Hk2 by done. simpl. by rewrite lookup_insert_eq.
Qed.

(** *** Successors *)

(** Climbing from a hole leads to the first entry after it. *)
Lemma climb_ok s f c t :
  rep_tree s (plug c t) -> t <> Leaf -> NoDup (addrs (plug c t)) -> (length c < f)%nat ->
  climb_loop f (troot t) s = Some (match after c with [] => 0 | e :: _ => addr e end).
Proof.
  revert f t. induction c as [|fr c IH]; intros f t Hrep Hne Hnd Hf; (destruct f as [|f]; [simpl in *; lia|]).
  { destruct t as [|l p k v r]; [done|]. destruct Hrep as [_ (_ & Hn & _)]. simpl. by rewrite Hn. }
  pose proof Hrep as [Hpl Ht]%rep_plug.
  destruct t as [|l p k v r]; [done|]. destruct Ht as (Hp & Hn & _). cbn [climb_loop troot].
  rewrite Hn. cbn [mbind option_bind parent].
  pose proof (above_nonnull _ _ _ Hpl ltac:(done)) as Hnz%Z.eqb_neq. rewrite Hnz.
  destruct fr as [p' k' v' r'|l' p' k' v']; cbn [above after]; simpl in Hpl; destruct Hpl as (Hp' & Hn' & Ht' & _);
    rewrite Hn'; cbn [mbind option_bind right].
  - assert (p =? troot r' = false) as ->; [|done].
    apply Z.eqb_neq. intros ->. destruct r' as [|l2 p2 k2 v2 r2]; [done|].
    rewrite addrs_plug, place_addrs_left in Hnd. apply NoDup_app in Hnd as (_ & Hd & _).
    apply (Hd (troot (Node l2 p2 k2 v2 r2))).
    + apply elem_of_cons. right. apply elem_of_app. left. by apply troot_in.
    + by apply (troot_in (Node l _ k v r)).
  - rewrite Z.eqb_refl.
    apply (IH f (Node l' p' k' v' (Node l p k v r))); [done|done|done|simpl in Hf; lia].
Qed.

Lemma length_place c t : (length c + length (entries t) <= length (entries (plug c t)))%nat.
Proof.
  rewrite entries_plug, !length_app. induction c as [|[p k v r|l p k v] c IH]; simpl in *;
    rewrite ?length_app in *; simpl; lia.
Qed.

Lemma next_ok s c l p k v r :
  rep_tree s (plug c (Node l p k v r)) -> NoDup (addrs (plug c (Node l p k v r))) ->
  next_node p s = Some (match entries r ++ after c with [] => 0 | e :: _ => addr e end).
Proof.
  intros Hrep Hnd. pose proof Hrep as [_ (Hp & Hn & Hl & Hr)]%rep_plug. unfold next_node. decide_tests.
  rewrite Hn. cbn [mbind option_bind right].
  pose proof (rep_fuel s 0 _ (proj2 Hrep) Hnd) as Hfuel.
  unfold addrs in Hfuel. rewrite length_fmap in Hfuel.
  pose proof (length_place c (Node l p k v r)) as Hlen. simpl in Hlen. rewrite length_app in Hlen. simpl in Hlen.
  destruct r as [|l2 p2 k2 v2 r2] eqn:Hreq; [simpl; apply (climb_ok s (fuel s) c (Node l p k v Leaf)); try done; lia|].
  rewrite <- Hreq in *. assert (r <> Leaf) as Hr0 by (by rewrite Hreq).
  pose proof (rep_nonleaf _ _ _ Hr Hr0). decide_tests. simpl negb.
  destruct (leftmost_ok s (fuel s) p r Hr Hr0) as (c' & pm & km & vm & rm & -> & Hb & ->).
  { unfold addrs. rewrite length_fmap. lia. }
  rewrite entries_plug, Hb. done.
Qed.

Lemma first_ok s t : rep_tree s t -> NoDup (addrs t) ->
  first_node s = Some (match entries t with [] => 0 | e :: _ => addr e end).
Proof.
  intros [Hroot Hrep] Hnd. unfold first_node. rewrite Hroot. destruct t as [|l p k v r] eqn:Ht; [done|].
  rewrite <- Ht in *. assert (t <> Leaf) as Hne by (by rewrite Ht).
  pose proof (rep_nonleaf _ _ _ Hrep Hne). decide_tests.
  destruct (leftmost_ok s (fuel s) 0 t Hrep Hne) as (c & pm & km & vm & rm & -> & Hb & ->).
  { pose proof (rep_fuel s 0 _ Hrep Hnd). lia. }
  rewrite entries_plug, Hb. done.
Qed.

(** *** Traversal *)

Lemma split_unique {A} (f : A -> Z) (l1 l2 l1' l2' : list A) x x' :
  NoDup (f <$> l1 ++ x :: l2) -> l1 ++ x :: l2 = l1' ++ x' :: l2' -> f x = f x' ->
  l1 = l1' /\ x = x' /\ l2 = l2'.
Proof.
  revert l1'. induction l1 as [|y l1 IH]; intros [|y' l1'] Hnd Heq Hf; simpl in *.
  - by injection Heq as -> ->.
  - injection Heq as -> ->. apply NoDup_cons in Hnd as [Hx _]. destruct Hx.
    rewrite Hf. apply list_elem_of_fmap. exists x'. split; [done|]. apply elem_of_app. right. left.
  - injection Heq as <- <-. apply NoDup_cons in Hnd as [Hx _]. destruct Hx.
    rewrite <- Hf. apply list_elem_of_fmap. exists x. split; [done|]. apply elem_of_app. right. left.
  - injection Heq as <- Heq. apply NoDup_cons in Hnd as [_ Hnd].
    destruct (IH l1' Hnd Heq Hf) as (-> & -> & ->). done.
Qed.

Lemma next_at s t l1 e l2 :
  rep_tree s t -> NoDup (addrs t) -> entries t = l1 ++ e :: l2 ->
  next_node (addr e) s = Some (match l2 with [] => 0 | e' :: _ => addr e' end).
Proof.
  intros Hrep Hnd He.
  destruct (find_place t (addr e)) as (c & l & k & v & r & ->).
  { unfold addrs. rewrite He, fmap_app. apply elem_of_app. right. left. }
  rewrite (next_ok s c l (addr e) k v r Hrep Hnd).
  unfold addrs in Hnd. rewrite entries_plug in He, Hnd. simpl in He, Hnd.
  rewrite <- app_assoc in He, Hnd. simpl in He, Hnd. rewrite app_assoc in He, Hnd.
  destruct (split_unique addr _ _ _ _ _ _ Hnd He) as (_ & _ & ->); done.
Qed.

Lemma walk_loop_ok s t f l1 l2 :
  rep_tree s t -> NoDup (addrs t) -> entries t = l1 ++ l2 -> (length l2 < f)%nat ->
  (forall a, a ∈ addrs t -> a <> 0) ->
  walk_loop f (match l2 with [] => 0 | e :: _ => addr e end) s = Some (addr <$> l2).
Proof.
  intros Hrep Hnd. revert f l1. induction l2 as [|e l2 IH]; intros f l1 He Hf Hnz;
    (destruct f as [|f]; [simpl in Hf; lia|]); cbn [walk_loop]; [done|].
  assert (addr e <> 0) as Hne.
  { apply Hnz. unfold addrs. rewrite He, fmap_app. apply elem_of_app. right. left. }
  decide_tests. rewrite (next_at s t l1 e l2 Hrep Hnd He). cbn [mbind option_bind].
  rewrite (IH f (l1 ++ [e])); [done|by rewrite <- app_assoc|simpl in Hf; lia|done].
Qed.

Lemma rep_addr_nonnull h par t a : rep h par t -> a ∈ addrs t -> a <> 0.
Proof.
  revert par. induction t as [|l IHl p k v r IHr]; intros par; [intros _ []%elem_of_nil|].
  intros (Hp & _ & Hl & Hr). rewrite addrs_node. intros [->|[Ha|Ha]%elem_of_app]%elem_of_cons; eauto.
Qed.

Lemma walk_ok s t : rep_tree s t -> NoDup (addrs t) -> walk s = Some (addr <$> entries t).
Proof.
  intros Hrep Hnd. unfold walk. rewrite (first_ok s t Hrep Hnd). cbn [mbind option_bind].
  apply (walk_loop_ok s t (fuel s) [] (entries t)); try done.
  - pose proof (rep_fuel s 0 t (proj2 Hrep) Hnd) as Hf. unfold addrs in Hf. by rewrite length_fmap in Hf.
  - intros a. eapply rep_addr_nonnull. exact (proj2 Hrep).
Qed.
End Search.

(** ** The name space a tree stands for *)

Section Refinement.
Context {K : Type} `{EqDecision K} `{!Countable K} {KO : KeyOrder K} {KL : KeyLaws K}.
Implicit Types s : tree K.
Implicit Types t : btree (K := K).
Implicit Types l : list (entry (K := K)).
Implicit Types h : gmap Z (node K).
Implicit Types m : gmap K (Z * Z).

(** [s] represents the map [m] from keys to node and value, with nodes at the
    addresses [D]. *)
Definition models (D : gset Z) s m : Prop :=
  exists t, rep_tree s t /\ NoDup (addrs t) /\ ordered (entries t) /\
    count s = Z.of_nat (length (entries t)) /\ m = list_to_map (entries t) /\
    D = dom (heap s) /\ (forall a, a ∈ D -> in_u64 a).

Inductive tree_op :=
  | OpFind (k : K) | OpGet (k : K) | OpInsert (nd : Z) (k : K) (v : Z) | OpRemove (nd : Z)
  | OpFirst | OpNext (nd : Z).

Definition tree_exec (op : tree_op) s : option (Z * tree K) :=
  match op with
  | OpFind k => r ← find_node k s; Some (r, s)
  | OpGet k => r ← get k s; Some (r, s)
  | OpInsert nd k v => insert_node nd k v s
  | OpRemove nd => s ← remove_node nd s; Some (0, s)
  | OpFirst => r ← first_node s; Some (r, s)
  | OpNext nd => r ← next_node nd s; Some (r, s)
  end.

(** What callers must respect: a node that is inserted is not in the tree, a
    node that is removed or advanced from is. *)
Definition op_pre (D : gset Z) m (op : tree_op) : Prop :=
  match op with
  | OpInsert nd _ _ => nd <> 0 -> nd ∈ D /\ forall k v, m !! k <> Some (nd, v)
  | OpRemove nd | OpNext nd => nd <> 0 -> exists k v, m !! k = Some (nd, v)
  | _ => True
  end.

Definition refused m nd (k : K) (v : Z) : bool :=
  (nd =? 0) || key_null k || (v =? 0) || bool_decide (is_Some (m !! k)).

(** The effect on the map. *)
Definition abs_step m (op : tree_op) : gmap K (Z * Z) :=
  match op with
  | OpInsert nd k v => if refused m nd k v then m else <[k := (nd, v)]> m
  | OpRemove nd => filter (fun e => fst (snd e) <> nd) m
  | _ => m
  end.

(** The result. *)
Definition abs_result m (op : tree_op) (r : Z) : Prop :=
  match op with
  | OpFind k => r = match m !! k with Some (a, _) => a | None => 0 end
  | OpGet k => r = match m !! k with Some (_, v) => v | None => 0 end
  | OpInsert nd k v => r = if refused m nd k v then -1 else 0
  | OpRemove _ => r = 0
  | OpFirst => r = 0 /\ m = ∅ \/
      exists k v, m !! k = Some (r, v) /\ forall k', is_Some (m !! k') -> k' = k \/ key_lt k k'
  | OpNext nd => nd = 0 /\ r = 0 \/
      exists k v, m !! k = Some (nd, v) /\
        (r = 0 /\ (forall k', is_Some (m !! k') -> ~ key_lt k k') \/
         exists k' v', m !! k' = Some (r, v') /\ key_lt k k' /\
           forall k'', is_Some (m !! k'') -> key_lt k k'' -> k'' = k' \/ key_lt k' k'')
  end.

Lemma ordered_keys (l : list (entry (K := K))) : ordered l -> NoDup (l.*1).
Proof.
  intros [Hs _]. induction Hs as [|e l _ IH Hlt]; [constructor|]. apply NoDup_cons. split; [|done].
  intros (e' & He & Hin)%list_elem_of_fmap. rewrite Forall_forall in Hlt. specialize (Hlt e' Hin).
  rewrite He in Hlt. by apply (key_lt_irrefl (fst e')).
Qed.

Lemma lookup_entries l k p v : ordered l ->
  (list_to_map l : gmap K (Z * Z)) !! k = Some (p, v) <-> entry_at k l p v.
Proof. intros Ho. symmetry. apply elem_of_list_to_map. by apply ordered_keys. Qed.

Lemma absent_entries l k : absent k l -> (list_to_map l : gmap K (Z * Z)) !! k = None.
Proof. intros Ha. apply not_elem_of_list_to_map. intros (e & -> & He)%list_elem_of_fmap. by apply (Ha e). Qed.

Lemma find_ok D s m k : models D s m ->
  find_node k s = Some (match m !! k with Some (a, _) => a | None => 0 end).
Proof.
  intros (t & [Hroot Hrep] & Hnd & Ho & Hc & -> & _). unfold find_node. destruct (key_null k) eqn:Hk.
  { rewrite absent_entries; [done|]. intros e He <-. destruct Ho as [_ Hv].
    rewrite Forall_forall in Hv. by rewrite (Hv e He) in Hk. }
  rewrite Hroot.
  destruct (find_loop_ok s (fuel s) k 0 t Hrep Ho Hk (rep_fuel _ _ _ Hrep Hnd)) as [(p & v & He & ->)|[Hab ->]].
  - apply lookup_entries in He; [|done]. by rewrite He.
  - by rewrite absent_entries.
Qed.

Lemma rep_entry h par t k p v : rep h par t -> entry_at k (entries t) p v ->
  p <> 0 /\ exists n, h !! p = Some n /\ key n = k /\ value n = v.
Proof.
  unfold entry_at. revert par. induction t as [|l IHl p' k' v' r IHr]; intros par; [intros _ []%elem_of_nil|].
  intros (Hp & Hn & Hl & Hr). simpl.
  intros [He|[[= -> -> ->]|He]%elem_of_cons]%elem_of_app; [by eapply IHl| |by eapply IHr].
  split; [done|]. eauto.
Qed.

Lemma get_ok D s m k : models D s m ->
  get k s = Some (match m !! k with Some (_, v) => v | None => 0 end).
Proof.
  intros Hm. unfold get. rewrite (find_ok D s m k Hm). cbn [mbind option_bind].
  destruct Hm as (t & [Hroot Hrep] & Hnd & Ho & Hc & -> & _).
  destruct (list_to_map _ !! k) as [[p v]|] eqn:Hl; [|done].
  apply lookup_entries in Hl; [|done]. destruct (rep_entry _ _ _ _ _ _ Hrep Hl) as (Hp & n & Hn & _ & Hv).
  decide_tests. rewrite Hn. simpl. by rewrite Hv.
Qed.

Lemma entries_length t : length (entries t) = length (addrs t).
Proof. unfold addrs. by rewrite length_fmap. Qed.

(** Nodes have different addresses below 2^64, none of them 0. *)
Lemma entries_bound s t : rep_tree s t -> NoDup (addrs t) -> (forall a, a ∈ dom (heap s) -> in_u64 a) ->
  Z.of_nat (length (entries t)) < 2 ^ 64.
Proof.
  intros [_ Hrep] Hnd Hu. rewrite entries_length.
  assert (addrs t ⊆+ seqZ 1 (2 ^ 64 - 1)) as Hsub%submseteq_length.
  { apply NoDup_submseteq; [done|]. intros a Ha. apply elem_of_seqZ.
    pose proof (rep_addr_nonnull _ _ _ _ Hrep Ha). pose proof (rep_in_heap _ _ _ _ Hrep Ha) as Hin.
    apply elem_of_dom, Hu in Hin. unfold in_u64 in Hin. lia. }
  rewrite length_seqZ in Hsub. lia.
Qed.

Lemma list_to_map_middle l l' (k : K) (x : Z * Z) :
  NoDup ((l ++ (k, x) :: l').*1) ->
  (list_to_map (l ++ (k, x) :: l') : gmap K (Z * Z)) = <[k := x]> (list_to_map (l ++ l')).
Proof.
  intros Hnd. rewrite (list_to_map_proper _ ((k, x) :: l ++ l')); [done| |].
  - done.
  - symmetry. apply Permutation_middle.
Qed.

(** The tree after a node was linked into its place. *)
Lemma linked_models s s1 c nd k v :
  let t := plug c (Node Leaf nd k v Leaf) in
  rep_tree s1 t -> NoDup (place_addrs c) -> nd ∉ place_addrs c -> ordered (entries (plug c Leaf)) ->
  key_null k = false -> below_place k c -> count s1 = Z.of_nat (length (entries (plug c Leaf))) ->
  (forall a, a ∈ dom (heap s1) -> in_u64 a) ->
  models (dom (heap s1)) (set_count (count s1 +w 1) s1) (<[k := (nd, v)]> (list_to_map (entries (plug c Leaf)))).
Proof.
  intros t Hrep Hnd Hni Ho Hk [Hb1 Hb2] Hct Hu. exists t.
  assert (entries t = before c ++ (k, (nd, v)) :: after c) as Het by (unfold t; by rewrite entries_plug).
  rewrite entries_plug in *. simpl in Ho, Hct.
  assert (ordered (entries t)) as Ho'.
  { rewrite Het. apply ordered_app in Ho as (Hob & Hoa & Hba). rewrite ordered_app, ordered_cons.
    split; [done|]. split; [done|]. intros e e' He [->|He']%elem_of_cons; [by apply Hb1|by apply Hba]. }
  assert (NoDup (addrs t)) as Hnd'.
  { unfold t. rewrite addrs_plug, addrs_node. simpl. rewrite <- Permutation_middle, app_nil_r. by apply NoDup_cons. }
  split; [done|]. split; [done|]. split; [done|]. split; [|split; [|done]].
  - pose proof (entries_bound s1 t Hrep Hnd' Hu) as Hb. cbn [set_count count]. rewrite Hct.
    rewrite Het in *. rewrite !length_app in *. simpl in *. rewrite u64_small; [lia|unfold in_u64; lia].
  - rewrite Het in *. symmetry. apply list_to_map_middle. by apply ordered_keys in Ho'.
Qed.

Lemma insert_models D s m nd k v :
  models D s m -> op_pre D m (OpInsert nd k v) ->
  exists s', insert_node nd k v s = Some (if refused m nd k v then -1 else 0, s') /\
    models D s' (abs_step m (OpInsert nd k v)).
Proof.
  intros Hm Hpre. simpl in Hpre. unfold insert_node. simpl abs_step. unfold refused.
  destruct ((nd =? 0) || key_null k || (v =? 0)) eqn:Hc; simpl orb; [by exists s|].
  apply orb_false_iff in Hc as [[Hnz Hk]%orb_false_iff Hv]. bool_facts.
  destruct Hpre as [HD Hun]; [done|].
  destruct Hm as (t & Hrep & Hnd & Ho & Hct & -> & -> & Hu). pose proof Hrep as [Hroot Hrep0].
  destruct (insert_loop_ok s (fuel s) k [] t Hroot Hrep0 Ho Hk) as [(p & w & He & Hl)|(c & Heq & Hbp & Hl)];
    [by split; intros e []%elem_of_nil|by eapply rep_fuel|..];
    cbn [above hole] in Hl; rewrite Hl; cbn [mbind option_bind].
  { apply lookup_entries in He; [|done]. rewrite bool_decide_eq_true_2 by (by rewrite He).
    exists s. split; [done|]. by exists t. }
  simpl in Heq. subst t. pose proof HD as [n0 Hn0]%elem_of_dom. pose proof (entries_plug c Leaf) as Het. simpl in Het.
  rewrite bool_decide_eq_false_2.
  2: { rewrite absent_entries; [by intros []|]. rewrite Het. destruct Hbp as [Hb1 Hb2].
       intros e [He|He]%elem_of_app <-; [eapply lt_neq; [|done]; by apply Hb1|].
       eapply (lt_neq (fst e)); [|done]. by apply Hb2. }
  assert (nd ∉ place_addrs c) as Hni.
  { intros (e & He & Hin)%list_elem_of_fmap. rewrite <- Het in Hin. destruct e as [k' [a w]].
    change (nd = a) in He. rewrite <- He in Hin. apply (Hun k' w). by apply lookup_entries. }
  assert (NoDup (place_addrs c)) as Hndc by (rewrite addrs_plug, app_nil_r in Hnd; done).
  destruct (link_ok s c nd n0 k v Hrep Hndc Hni Hnz Hn0) as (s1 & Heq & Hrep1 & Hc1 & Hd1).
  destruct (upd nd _ s) as [s0|]; [|done]. cbn [mbind option_bind] in *. rewrite Heq. cbn [mbind option_bind].
  eexists. split; [done|]. rewrite <- Hd1. apply linked_models; try done; [by rewrite Hc1|by rewrite Hd1].
Qed.

Lemma drop_entry l l' k nd v :
  let full := l ++ (k, (nd, v)) :: l' in
  ordered full -> NoDup (addr <$> full) ->
  ordered (l ++ l') /\ NoDup (addr <$> l ++ l') /\
  filter (fun e => fst (snd e) <> nd) (list_to_map full : gmap K (Z * Z)) = list_to_map (l ++ l').
Proof.
  intros full Ho Hnd. pose proof (ordered_keys _ Ho) as Hk. unfold full in *.
  assert (ordered (l ++ l')) as Ho'.
  { apply ordered_app in Ho as (H1 & (_ & H2 & _)%ordered_cons & H3). apply ordered_app.
    split; [done|]. split; [done|]. intros e e' He He'. apply H3; [done|by right]. }
  rewrite fmap_app in Hnd. cbn [fmap list_fmap] in Hnd. rewrite <- Permutation_middle, <- fmap_app in Hnd.
  apply NoDup_cons in Hnd as [Hni Hnd]. change (addr (k, (nd, v))) with nd in Hni.
  split; [done|]. split; [done|]. rewrite list_to_map_middle by done.
  rewrite map_filter_insert_False by (simpl; tauto). rewrite delete_id.
  - apply map_filter_id. intros k' [a w] Hl Heq. simpl in Heq. subst a.
    apply Hni, list_elem_of_fmap. exists (k', (nd, w)). split; [done|]. by apply lookup_entries.
  - apply not_elem_of_list_to_map. rewrite fmap_app in Hk. cbn [fmap list_fmap] in Hk.
    rewrite <- Permutation_middle, <- fmap_app in Hk. by apply NoDup_cons in Hk as [Hk _].
Qed.

Lemma remove_models D s m nd :
  models D s m -> op_pre D m (OpRemove nd) ->
  exists s', remove_node nd s = Some s' /\ models D s' (abs_step m (OpRemove nd)).
Proof.
  intros Hm Hpre. simpl in *. destruct (decide (nd = 0)) as [->|Hnz].
  { exists s. split; [done|]. rewrite map_filter_id; [done|]. intros k [a v] Hl.
    destruct Hm as (t & [_ Hrep] & Hnd & Ho & _ & -> & _). apply lookup_entries in Hl; [|done].
    by eapply rep_entry. }
  destruct (Hpre Hnz) as (k & v & Hl). destruct Hm as (t & Hrep & Hnd & Ho & Hct & -> & -> & Hu).
  apply lookup_entries in Hl; [|done].
  destruct (find_place t nd) as (c & l & k' & v' & r & ->).
  { apply list_elem_of_fmap. by exists (k, (nd, v)). }
  destruct (remove_ok s c l nd k' v' r Hrep Hnd) as (s' & t' & -> & Hrep' & Het & Hc' & Hd).
  exists s'. split; [done|]. exists t'.
  assert (entries (plug c (Node l nd k' v' r)) = (before c ++ entries l) ++ (k', (nd, v')) :: (entries r ++ after c)) as He.
  { rewrite entries_plug. simpl. by rewrite <- !app_assoc. }
  assert (entries t' = (before c ++ entries l) ++ entries r ++ after c) as He' by (by rewrite Het, <- app_assoc).
  unfold addrs in Hnd. rewrite He in Ho, Hct, Hnd. rewrite He.
  destruct (drop_entry _ _ _ _ _ Ho Hnd) as (Ho' & Hnd' & ->).
  split; [done|]. unfold addrs. rewrite He'. split; [done|]. split; [done|].
  split; [|split; [done|split; [done|done]]].
  rewrite Hc', Hct, !length_app. simpl. rewrite length_app. decide_tests. lia.
Qed.

Lemma first_result D s m : models D s m -> exists r, first_node s = Some r /\ abs_result m OpFirst r.
Proof.
  intros (t & Hrep & Hnd & Ho & _ & -> & _). rewrite (first_ok s t Hrep Hnd).
  destruct (entries t) as [|[k [a v]] l] eqn:He; eexists; (split; [done|]); simpl; [by left|right].
  pose proof Ho as (_ & _ & Hlt)%ordered_cons. exists k, v.
  split; [apply lookup_insert_eq|]. intros k' [[a' v'] Hl].
  change (<[k := (a, v)]> (list_to_map l)) with (list_to_map ((k, (a, v)) :: l) : gmap K (Z * Z)) in Hl.
  apply lookup_entries in Hl; [|done].
  apply elem_of_cons in Hl as [[= -> _ _]|Hl]; [by left|]. right. by apply (Hlt (k', (a', v'))).
Qed.

Lemma next_result D s m nd : models D s m -> op_pre D m (OpNext nd) ->
  exists r, next_node nd s = Some r /\ abs_result m (OpNext nd) r.
Proof.
  intros (t & Hrep & Hnd & Ho & _ & -> & _) Hpre. simpl in *. destruct (decide (nd = 0)) as [->|Hnz].
  { exists 0. split; [done|by left]. }
  destruct (Hpre Hnz) as (k & v & Hl). pose proof Hl as Hin. apply lookup_entries in Hin; [|done].
  apply list_elem_of_split in Hin as (l1 & l2 & He).
  pose proof (next_at s t l1 (k, (nd, v)) l2 Hrep Hnd He) as Hn. change (addr (k, (nd, v))) with nd in Hn.
  rewrite Hn. eexists. split; [done|]. right. exists k, v. split; [done|].
  rewrite He in *. pose proof Ho as (_ & (_ & Ho2 & Hgt)%ordered_cons & Hlt)%ordered_app.
  assert (forall k'', is_Some ((list_to_map (l1 ++ (k, (nd, v)) :: l2) : gmap K (Z * Z)) !! k'') -> key_lt k k'' ->
    exists a w, (k'', (a, w)) ∈ l2) as Hafter.
  { intros k'' [[a w] Hk'']. apply lookup_entries in Hk''; [|done]. intros Hkk.
    apply elem_of_app in Hk'' as [Hk''|[[= -> _ _]|Hk'']%elem_of_cons]; [..|eauto].
    - apply (Hlt _ (k, (nd, v))) in Hk''; [|left]. destruct (key_lt_irrefl k). by apply (key_lt_trans _ k'').
    - by apply key_lt_irrefl in Hkk. }
  destruct l2 as [|[k' [a' v']] l2].
  - left. split; [done|]. intros k'' Hs Hkk. by destruct (Hafter k'' Hs Hkk) as (a & w & []%elem_of_nil).
  - right. exists k', v'. split; [apply lookup_entries; [done|]; apply elem_of_app; right; right; left|].
    split; [apply (Hgt (k', (a', v'))); left|]. intros k'' Hs Hkk.
    destruct (Hafter k'' Hs Hkk) as (a & w & [[= -> _ _]|Hin]%elem_of_cons); [by left|right].
    apply ordered_cons in Ho2 as (_ & _ & Hlt2). by apply (Hlt2 (k'', (a, w))).
Qed.

Lemma exec_ok D s m op : models D s m -> op_pre D m op ->
  exists r s', tree_exec op s = Some (r, s') /\ abs_result m op r /\ models D s' (abs_step m op).
Proof.
  intros Hm Hpre. destruct op; simpl tree_exec.
  - rewrite (find_ok D s m k Hm). by eexists _, s.
  - rewrite (get_ok D s m k Hm). by eexists _, s.
  - destruct (insert_models D s m nd k v Hm Hpre) as (s' & -> & Hm'). by eexists _, s'.
  - destruct (remove_models D s m nd Hm Hpre) as (s' & -> & Hm'). by eexists _, s'.
  - destruct (first_result D s m Hm) as (r & -> & Hr). by eexists r, s.
  - destruct (next_result D s m nd Hm Hpre) as (r & -> & Hr). by eexists r, s.
Qed.

(** Sequences of operations. *)
Fixpoint exec_all (ops : list tree_op) s : option (list Z * tree K) :=
  match ops with
  | [] => Some ([], s)
  | op :: ops => '(r, s) ← tree_exec op s; '(rs, s) ← exec_all ops s; Some (r :: rs, s)
  end.

Fixpoint ops_pre (D : gset Z) m (ops : list tree_op) : Prop :=
  match ops with
  | [] => True
  | op :: ops => op_pre D m op /\ ops_pre D (abs_step m op) ops
  end.

Fixpoint abs_results m (ops : list tree_op) (rs : list Z) : Prop :=
  match ops, rs with
  | [], [] => True
  | op :: ops, r :: rs => abs_result m op r /\ abs_results (abs_step m op) ops rs
  | _, _ => False
  end.

Lemma exec_all_ok D s m ops : models D s m -> ops_pre D m ops ->
  exists rs s', exec_all ops s = Some (rs, s') /\ abs_results m ops rs /\
    models D s' (foldl abs_step m ops).
Proof.
  revert s m. induction ops as [|op ops IH]; intros s m Hm Hpre; [by eexists [], s|].
  destruct Hpre as [Hp Hpre]. destruct (exec_ok D s m op Hm Hp) as (r & s1 & Heq & Hr & Hm1).
  destruct (IH s1 _ Hm1 Hpre) as (rs & s2 & Heq2 & Hrs & Hm2).
  exists (r :: rs), s2. cbn [exec_all]. rewrite Heq. cbn [mbind option_bind]. rewrite Heq2. done.
Qed.

Lemma init_models s : (forall a, a ∈ dom (heap s) -> in_u64 a) ->
  models (dom (heap s)) (init s) ∅.
Proof.
  intros Hu. exists Leaf. split; [done|]. split; [constructor|]. split; [apply ordered_nil|]. done.
Qed.

Lemma models_node D s m k a v : models D s m -> m !! k = Some (a, v) ->
  a <> 0 /\ exists n, heap s !! a = Some n /\ value n = v.
Proof.
  intros (t & [_ Hrep] & _ & Ho & _ & -> & _) Hl. apply lookup_entries in Hl; [|done].
  destruct (rep_entry _ _ _ _ _ _ Hrep Hl) as (H0 & n & Hn & _ & Hv). eauto.
Qed.

Lemma models_key D s m k a v : models D s m -> m !! k = Some (a, v) -> exists n, heap s !! a = Some n /\ key n = k.
Proof.
  intros (t & [_ Hrep] & _ & Ho & _ & -> & _) Hl. apply lookup_entries in Hl; [|done].
  destruct (rep_entry _ _ _ _ _ _ Hrep Hl) as (_ & n & Hn & Hk & _). eauto.
Qed.

Lemma models_range D s m a : models D s m -> a ∈ D -> in_u64 a.
Proof. intros (t & _ & _ & _ & _ & _ & _ & Hu). apply Hu. Qed.

Lemma tree_addr_elem t a : a ∈ addrs t -> exists k v, (k, (a, v)) ∈ entries t.
Proof. unfold addrs. rewrite list_elem_of_fmap. intros ([k [a' v]] & -> & He). eauto. Qed.

Lemma add_node_models D s m a : models D s m -> a ∉ D -> in_u64 a -> models (D ∪ {[a]}) (add_node a s) m.
Proof.
  intros (t & Hrep & Hnd & Ho & Hc & -> & -> & Hu) Ha Hr. exists t.
  assert (a ∉ addrs t) as Hat.
  { intros Hin. apply Ha, elem_of_dom. destruct Hrep as [_ Hrep]. by eapply rep_in_heap. }
  split; [by apply (rep_tree_put s t a (mk_node 0 0 0 key_zero 0))|]. do 4 (split; [done|]). split.
  - simpl. rewrite dom_insert_L. set_solver.
  - intros b Hb. apply elem_of_union in Hb as [Hb| ->%elem_of_singleton]; auto.
Qed.

Lemma drop_node_models D s m a : models D s m -> (forall k v, m !! k <> Some (a, v)) -> models (D ∖ {[a]}) (drop_node a s) m.
Proof.
  intros (t & [Hroot Hrep] & Hnd & Ho & Hc & -> & -> & Hu) Ha. exists t.
  assert (a ∉ addrs t) as Hat.
  { intros (k & v & He)%tree_addr_elem. apply (Ha k v). by apply lookup_entries. }
  split; [split; [done|]|].
  - eapply rep_frame; [|exact Hrep]. intros b Hb. simpl. rewrite lookup_delete_ne; [done|]. intros ->. done.
  - do 4 (split; [done|]). split; [simpl; by rewrite dom_delete_L|]. intros b Hb. apply Hu. set_solver.
Qed.
End Refinement.

(** ** The four trees *)

Lemma char_value_inj a b : char_value a = char_value b -> a = b.
Proof.
  unfold char_value. intros H. rewrite <- (ascii_N_embedding a), <- (ascii_N_embedding b). f_equal.
  pose proof (N_ascii_bounded a). pose proof (N_ascii_bounded b).
  destruct (Z.ltb_spec (Z.of_N (N_of_ascii a)) 128), (Z.ltb_spec (Z.of_N (N_of_ascii b)) 128); lia.
Qed.

Lemma key_cmp_eq l r : tree_key_cmp l r = 0 <-> l = r.
Proof.
  revert r. induction l as [|a l IH]; intros [|b r]; simpl; try done.
  destruct (Z.ltb_spec (char_value a) (char_value b)); [split; [done|intros [= -> _]; lia]|].
  destruct (Z.ltb_spec (char_value b) (char_value a)); [split; [done|intros [= -> _]; lia]|].
  assert (a = b) as -> by (apply char_value_inj; lia). rewrite IH. split; [by intros ->|by intros [= ->]].
Qed.

Lemma key_cmp_opp l r : tree_key_cmp r l = - tree_key_cmp l r.
Proof.
  revert r. induction l as [|a l IH]; intros [|b r]; simpl; try done.
  destruct (Z.ltb_spec (char_value a) (char_value b)), (Z.ltb_spec (char_value b) (char_value a)); try lia.
  apply IH.
Qed.

Lemma key_cmp_trans a b c : tree_key_cmp a b < 0 -> tree_key_cmp b c < 0 -> tree_key_cmp a c < 0.
Proof.
  revert b c. induction a as [|x a IH]; intros [|y b] [|z c]; simpl; try done.
  destruct (Z.ltb_spec (char_value x) (char_value y)), (Z.ltb_spec (char_value y) (char_value x)),
    (Z.ltb_spec (char_value y) (char_value z)), (Z.ltb_spec (char_value z) (char_value y)),
    (Z.ltb_spec (char_value x) (char_value z)), (Z.ltb_spec (char_value z) (char_value x)); try lia; eauto.
Qed.

Definition cstr_lt (a b : cstr) : Prop :=
  match a, b with Some a, Some b => tree_key_cmp a b < 0 | _, _ => False end.

#[export] Instance cstr_laws : KeyLaws cstr.
Proof.
  refine {| key_lt := cstr_lt |}.
  - intros [k|]; simpl; [|tauto]. assert (tree_key_cmp k k = 0) as -> by (by apply key_cmp_eq). lia.
  - intros [a|] [b|] [c|]; simpl; try done. apply key_cmp_trans.
  - intros [a|] [b|]; simpl; try done. intros _ _. pose proof (key_cmp_eq a b). pose proof (key_cmp_opp a b) as Ho.
    destruct (Z.lt_trichotomy (tree_key_cmp a b) 0) as [Hlt|[Heq|Hgt]].
    + right; left. eauto.
    + left. rewrite Heq. split; [done|]. f_equal. tauto.
    + right; right. eexists. split; [done|]. lia.
Defined.

#[export] Instance u64_laws : KeyLaws Z.
Proof.
  refine {| key_lt := Z.lt |}; [lia|lia|]. intros a b _ _. simpl. unfold u64_key_cmp.
  destruct (Z.eqb_spec a b); [by left|]. right. destruct (Z.ltb_spec a b); [left|right];
    (eexists; split; [done|]; lia).
Defined.

(** The functions of kernel/tree.h. *)
Definition tree_init : tree cstr -> tree cstr := init.
Definition tree_find_node : cstr -> tree cstr -> option Z := find_node.
Definition tree_get : cstr -> tree cstr -> option Z := get.
Definition tree_insert_node : Z -> cstr -> Z -> tree cstr -> option (Z * tree cstr) := insert_node.
Definition tree_transplant : Z -> Z -> tree cstr -> option (tree cstr) := transplant.
Definition tree_remove_node : Z -> tree cstr -> option (tree cstr) := remove_node.
Definition u64_tree_init : tree Z -> tree Z := init.
Definition u64_tree_find_node : Z -> tree Z -> option Z := find_node.
Definition u64_tree_get : Z -> tree Z -> option Z := get.
Definition u64_tree_first_node : tree Z -> option Z := first_node.
Definition u64_tree_next_node : Z -> tree Z -> option Z := next_node.
Definition u64_tree_insert_node : Z -> Z -> Z -> tree Z -> option (Z * tree Z) := insert_node.
Definition u64_tree_transplant : Z -> Z -> tree Z -> option (tree Z) := transplant.
Definition u64_tree_remove_node : Z -> tree Z -> option (tree Z) := remove_node.

(** The functions of user/include/bunix/tree.h. *)
Definition bunix_tree_key_cmp : string -> string -> Z := tree_key_cmp.
Definition bunix_tree_init : tree cstr -> tree cstr := init.
Definition bunix_tree_find_node : cstr -> tree cstr -> option Z := find_node.
Definition bunix_tree_get : cstr -> tree cstr -> option Z := get.
Definition bunix_tree_insert_node : Z -> cstr -> Z -> tree cstr -> option (Z * tree cstr) := insert_node.
Definition bunix_tree_first_node : tree cstr -> option Z := first_node.
Definition bunix_tree_next_node : Z -> tree cstr -> option Z := next_node.
Definition bunix_tree_transplant : Z -> Z -> tree cstr -> option (tree cstr) := transplant.
Definition bunix_tree_remove_node : Z -> tree cstr -> option (tree cstr) := remove_node.
Definition bunix_u64_tree_init : tree Z -> tree Z := init.
Definition bunix_u64_tree_find_node : Z -> tree Z -> option Z := find_node.
Definition bunix_u64_tree_get : Z -> tree Z -> option Z := get.
Definition bunix_u64_tree_first_node : tree Z -> option Z := first_node.
Definition bunix_u64_tree_next_node : Z -> tree Z -> option Z := next_node.
Definition bunix_u64_tree_insert_node : Z -> Z -> Z -> tree Z -> option (Z * tree Z) := insert_node.
Definition bunix_u64_tree_transplant : Z -> Z -> tree Z -> option (tree Z) := transplant.
Definition bunix_u64_tree_remove_node : Z -> tree Z -> option (tree Z) := remove_node.

(** ** Theorems *)

(** Five nodes of which none is in the tree. *)
Definition demo_heap : gmap Z (node cstr) :=
  list_to_map ((fun a => (a, mk_node 0 0 0 None 0)) <$> [100; 200; 300; 400; 500]).
Definition demo_tree : tree cstr := tree_init (mk_tree 0 0 demo_heap).
Definition demo_ops : list tree_op :=
  [OpInsert 100 (Some "vfs"%string) 7; OpInsert 200 (Some "net"%string) 8; OpInsert 300 (Some "proc"%string) 9;
   OpInsert 400 (Some "net"%string) 1; OpInsert 400 (Some "nameserver"%string) 2; OpFind (Some "net"%string);
   OpFirst; OpNext 200; OpRemove 200; OpGet (Some "net"%string); OpFirst; OpNext 400].

(** C10: The pointer trees implement a finite map.  Any sequence of insertions,
    removals, lookups and successor queries that respects the callers'
    obligations runs without a bad pointer and without running out of fuel,
    returns what the map says (a refused insertion -1 without an effect, a
    lookup the entry, the first and the next node those of the least and the
    next greater key), and leaves a tree that represents the map after the
    sequence, with the exact count. *)
Theorem tree_refines_map {K : Type} `{EqDecision K} `{!Countable K} {KO : KeyOrder K} {KL : KeyLaws K}
  (D : gset Z) (s : tree K) (m : gmap K (Z * Z)) (ops : list tree_op)
  (Hm : models D s m) (Hp : ops_pre D m ops) :
  exists rs s', exec_all ops s = Some (rs, s') /\ abs_results m ops rs /\
    models D s' (foldl abs_step m ops).
Proof. by apply exec_all_ok. Qed.

Lemma demo_heap_u64 a : a ∈ dom demo_heap -> in_u64 a.
Proof.
  intros [n Hn]%elem_of_dom. unfold demo_heap in Hn. apply elem_of_list_to_map_2 in Hn.
  apply list_elem_of_fmap in Hn as (b & [= -> _] & Hb). unfold in_u64. repeat (apply elem_of_cons in Hb as [->|Hb]; [lia|]).
  by apply elem_of_nil in Hb.
Qed.

Lemma demo_unused (m : gmap cstr (Z * Z)) nd :
  bool_decide (map_Forall (fun _ e => fst e <> nd) m) = true -> forall k v, m !! k <> Some (nd, v).
Proof. intros Hm%bool_decide_eq_true k v Hl. by apply (Hm k (nd, v) Hl). Qed.

Lemma demo_ops_pre : ops_pre (dom demo_heap) ∅ demo_ops.
Proof.
  repeat split; try (vm_compute; reflexivity); try (intros _; apply bool_decide_unpack; vm_compute; exact I);
    try (apply demo_unused; vm_compute; reflexivity).
  - intros _. exists (Some "net"%string), 8. vm_compute. reflexivity.
  - intros _. exists (Some "net"%string), 8. vm_compute. reflexivity.
  - intros _. exists (Some "nameserver"%string), 2. vm_compute. reflexivity.
Qed.

Lemma tree_refines_map_witness :
  exists rs s', exec_all demo_ops demo_tree = Some (rs, s') /\ abs_results ∅ demo_ops rs /\
    models (dom demo_heap) s' (foldl abs_step ∅ demo_ops) /\
    rs = [0; 0; 0; -1; 0; 200; 400; 300; 0; 0; 400; 300].
Proof.
  destruct (tree_refines_map (dom demo_heap) demo_tree ∅ demo_ops) as (rs & s' & He & Hr & Hm).
  - apply (init_models (mk_tree 0 0 demo_heap)). apply demo_heap_u64.
  - apply demo_ops_pre.
  - exists rs, s'. split; [exact He|]. split; [exact Hr|]. split; [exact Hm|].
    vm_compute in He. by injection He as <- _.
Defined.

(** C36: Following the first node and then successors visits every node of the
    tree exactly once, in increasing key order, and ends. *)
Theorem tree_walk_in_order {K : Type} `{EqDecision K} `{!Countable K} {KO : KeyOrder K} {KL : KeyLaws K}
  (D : gset Z) (s : tree K) (m : gmap K (Z * Z)) (Hm : models D s m) :
  exists l : list (entry (K := K)), walk s = Some (addr <$> l) /\ StronglySorted (fun e e' => key_lt (fst e) (fst e')) l /\
    NoDup (addr <$> l) /\ (forall k a v, (k, (a, v)) ∈ l <-> m !! k = Some (a, v)).
Proof.
  destruct Hm as (t & Hrep & Hnd & Ho & _ & -> & _). exists (entries t).
  split; [by apply walk_ok|]. split; [apply Ho|]. split; [done|].
  intros k a v. by rewrite lookup_entries.
Qed.

Definition demo_filled : tree cstr :=
  match exec_all (take 5 demo_ops) demo_tree with Some (_, s) => s | None => demo_tree end.

Lemma demo_filled_models : models (dom demo_heap) demo_filled (foldl abs_step ∅ (take 5 demo_ops)).
Proof.
  destruct (exec_all_ok (dom demo_heap) demo_tree ∅ (take 5 demo_ops)) as (rs & s' & He & _ & Hm).
  - apply (init_models (mk_tree 0 0 demo_heap)). apply demo_heap_u64.
  - pose proof demo_ops_pre as (H1 & H2 & H3 & H4 & H5 & _). exact (conj H1 (conj H2 (conj H3 (conj H4 (conj H5 I))))).
  - assert (demo_filled = s') as ->; [|done]. vm_compute in He. injection He as _ <-. vm_compute. reflexivity.
Qed.

Lemma tree_walk_in_order_witness :
  exists l : list (entry (K := cstr)), walk demo_filled = Some (addr <$> l) /\
    StronglySorted (fun e e' => key_lt (fst e) (fst e')) l /\ NoDup (addr <$> l) /\
    addr <$> l = [400; 200; 300; 100].
Proof.
  destruct (tree_walk_in_order _ _ _ demo_filled_models) as (l & Hw & Hs & Hn & _).
  exists l. split; [exact Hw|]. split; [exact Hs|]. split; [exact Hn|].
  assert (walk demo_filled = Some [400; 200; 300; 100]) as Hc by (vm_compute; reflexivity).
  rewrite Hc in Hw. by injection Hw as ->.
Defined.
