(* ===== verification/PageTable.v ===== *)
(** * Page tables (arch/x86_64/vm.c)

    An address space is the physical address of a four-level page table.  The
    kernel reaches page tables and frames through an identity mapping, so
    memory is a map from physical addresses of 64-bit words to their values;
    tables are allocated from the page allocator of [Pmm].

    The index of a table is taken from nine bits of the virtual address, so
    translation only depends on the low 48 bits. *)
From stdpp Require Import gmap list.
From Stdlib Require Import ZArith Lia.
From S2P Require Import Prelude Pmm.

Open Scope Z_scope.
Open Scope machine_scope.

(** ** Entries *)

Definition PTE_PRESENT : Z := Z.shiftl 1 0.
Definition PTE_WRITABLE : Z := Z.shiftl 1 1.
Definition PTE_USER : Z := Z.shiftl 1 2.
Definition PTE_LARGE : Z := Z.shiftl 1 7.
Definition PTE_NO_EXEC : Z := Z.shiftl 1 63.
Definition PTE_ADDR_MASK : Z := 4503599627366400.       (* 0x000ffffffffff000 *)
Definition PAGE_ENTRIES : nat := 512.
Definition PAGE_SIZE : Z := 4096.
Definition LARGE_PAGE_SIZE : Z := 2097152.

(** ** Memory *)

Record mach := mk_mach { pm : pmm; mem : gmap Z Z }.

Definition rd (a : Z) (m : mach) : Z := default 0 (mem m !! a).
Definition wr (a v : Z) (m : mach) : mach := mk_mach (pm m) (<[a := v]> (mem m)).
Definition with_pm (p : pmm) (m : mach) : mach := mk_mach p (mem m).

(** [table[index]] of a table of 64-bit entries. *)
Definition slot_addr (table index : Z) : Z := table + 8 * index.

(** [for (i = 0; i < n; i++) page[i] = f(i);] *)
Definition fill (table : Z) (n : nat) (f : Z -> Z) (m : mach) : mach :=
  fold_left (fun m i => wr (slot_addr table (Z.of_nat i)) (f (Z.of_nat i)) m) (seq 0 n) m.

Arguments fill : simpl never.

Definition zero_page (phys : Z) (m : mach) : mach := fill phys PAGE_ENTRIES (fun _ => 0) m.

Section Tables.
(** Whether the processor supports the no-execute bit. *)
Context (nx_supported : bool).
(** The table the boot code builds. *)
Context (arch_boot_pml4 : Z).

Definition alloc_table (m : mach) : Z * mach :=
  let '(page, p) := pmm_page_alloc (pm m) in
  let m := with_pm p m in
  let phys := pmm_page_addr page p in
  if phys =? 0 then (0, m) else (phys, zero_page phys m).

Definition table_flags (writable user : bool) : Z :=
  let flags := PTE_PRESENT in
  let flags := if writable then Z.lor flags PTE_WRITABLE else flags in
  if user then Z.lor flags PTE_USER else flags.

Definition page_flags (writable user executable : bool) : Z :=
  let flags := table_flags writable user in
  if nx_supported && negb executable then Z.lor flags PTE_NO_EXEC else flags.

(** The result, [*table_phys] (0 if it is not written) and the new state. *)
Definition ensure_table (parent index : Z) (writable user : bool) (m : mach) : Z * Z * mach :=
  let a := slot_addr parent index in
  if Z.land (rd a m) PTE_PRESENT =? 0 then
    let '(phys, m) := alloc_table m in
    if phys =? 0 then (-1, 0, m)
    else (0, phys, wr a (Z.lor phys (table_flags writable user)) m)
  else if negb (Z.land (rd a m) PTE_LARGE =? 0) then (-1, 0, m)
  else
    let m := wr a (Z.lor (rd a m) (table_flags writable user)) m in
    (0, Z.land (rd a m) PTE_ADDR_MASK, m).

Definition split_large_page (pd pd_index : Z) (m : mach) : Z * mach :=
  let entry := rd (slot_addr pd pd_index) m in
  if (Z.land entry PTE_PRESENT =? 0) || (Z.land entry PTE_LARGE =? 0) then (0, m) else
  let '(pt_phys, m) := alloc_table m in
  if pt_phys =? 0 then (-1, m) else
  let base := Z.land entry (not64 (LARGE_PAGE_SIZE - 1)) in
  let flags := Z.land entry 4095 in
  let kept := Z.lor (Z.land flags (not64 PTE_LARGE)) PTE_PRESENT in
  let m := fill pt_phys PAGE_ENTRIES (fun i => Z.lor (base +w i *w PAGE_SIZE) kept) m in
  (0, wr (slot_addr pd pd_index) (Z.lor pt_phys kept) m).

(** [None] is the failure to allocate; the tables that were allocated stay
    allocated. *)
Definition arch_vm_space_init (m : mach) : option Z * mach :=
  let '(pml4_phys, m) := alloc_table m in
  let '(pdpt_phys, m) := alloc_table m in
  let '(pd_phys, m) := alloc_table m in
  if (pml4_phys =? 0) || (pdpt_phys =? 0) || (pd_phys =? 0) then (None, m) else
  let m := wr (slot_addr pml4_phys 0) (Z.lor (Z.lor pdpt_phys PTE_PRESENT) PTE_WRITABLE) m in
  let m := wr (slot_addr pdpt_phys 0) (Z.lor (Z.lor pd_phys PTE_PRESENT) PTE_WRITABLE) m in
  let m := fill pd_phys PAGE_ENTRIES
    (fun i => Z.lor (Z.lor (Z.lor (i *w LARGE_PAGE_SIZE) PTE_PRESENT) PTE_WRITABLE) PTE_LARGE) m in
  (Some pml4_phys, m).

(** *** Tearing a space down *)

Definition skip_entry (e : Z) : bool :=
  (Z.land e PTE_PRESENT =? 0) || negb (Z.land e PTE_LARGE =? 0).
Definition free_frame (a : Z) (m : mach) : mach := with_pm (pmm_page_free_addr a (pm m)) m.

Definition destroy_pd (pd : Z) (m : mach) : mach :=
  fold_left (fun m i =>
    let pde := rd (slot_addr pd (Z.of_nat i)) m in
    if skip_entry pde then m else free_frame (Z.land pde PTE_ADDR_MASK) m) (seq 0 PAGE_ENTRIES) m.

Definition destroy_pdpt (pdpt : Z) (m : mach) : mach :=
  fold_left (fun m i =>
    let pdpte := rd (slot_addr pdpt (Z.of_nat i)) m in
    if skip_entry pdpte then m else
    let pd := Z.land pdpte PTE_ADDR_MASK in
    free_frame pd (destroy_pd pd m)) (seq 0 PAGE_ENTRIES) m.

Definition arch_vm_space_destroy (cr3 : Z) (m : mach) : mach :=
  if (cr3 =? 0) || (cr3 =? arch_boot_pml4) then m else
  let m := fold_left (fun m i =>
    let pml4e := rd (slot_addr cr3 (Z.of_nat i)) m in
    if skip_entry pml4e then m else
    let pdpt := Z.land pml4e PTE_ADDR_MASK in
    free_frame pdpt (destroy_pdpt pdpt m)) (seq 0 PAGE_ENTRIES) m in
  free_frame cr3 m.

(** *** Walking *)

Definition pml4_index (vaddr : Z) : Z := Z.land (Z.shiftr vaddr 39) 511.
Definition pdpt_index (vaddr : Z) : Z := Z.land (Z.shiftr vaddr 30) 511.
Definition pd_index (vaddr : Z) : Z := Z.land (Z.shiftr vaddr 21) 511.
Definition pt_index (vaddr : Z) : Z := Z.land (Z.shiftr vaddr 12) 511.
Definition page_offset (vaddr : Z) : Z := Z.land vaddr (PAGE_SIZE - 1).

Definition arch_vm_map_page (cr3 vaddr phys : Z) (writable user executable : bool) (m : mach)
    : Z * mach :=
  if negb (page_offset vaddr =? 0) || negb (page_offset phys =? 0) then (-1, m) else
  let '(rc, pdpt_phys, m) := ensure_table cr3 (pml4_index vaddr) true user m in
  if negb (rc =? 0) then (-1, m) else
  let '(rc, pd_phys, m) := ensure_table pdpt_phys (pdpt_index vaddr) true user m in
  if negb (rc =? 0) then (-1, m) else
  let '(rc, m) := split_large_page pd_phys (pd_index vaddr) m in
  if negb (rc =? 0) then (-1, m) else
  let '(rc, pt_phys, m) := ensure_table pd_phys (pd_index vaddr) true user m in
  if negb (rc =? 0) then (-1, m) else
  (0, wr (slot_addr pt_phys (pt_index vaddr)) (Z.lor phys (page_flags writable user executable)) m).

(** The walks of the functions below stop at entries that fail a test; the
    address of the last-level entry is returned. *)
Definition walk_to_pt (stop : Z -> bool) (cr3 vaddr : Z) (m : mach) : option Z :=
  let entry := rd (slot_addr cr3 (pml4_index vaddr)) m in
  if stop entry then None else
  let entry := rd (slot_addr (Z.land entry PTE_ADDR_MASK) (pdpt_index vaddr)) m in
  if stop entry then None else
  let entry := rd (slot_addr (Z.land entry PTE_ADDR_MASK) (pd_index vaddr)) m in
  if stop entry then None else
  Some (slot_addr (Z.land entry PTE_ADDR_MASK) (pt_index vaddr)).

Definition PRESENT_USER : Z := Z.lor PTE_PRESENT PTE_USER.
Definition no_table (e : Z) : bool := skip_entry e.
Definition no_user_table (e : Z) : bool :=
  negb (Z.land e PRESENT_USER =? PRESENT_USER) || negb (Z.land e PTE_LARGE =? 0).

Definition set_protection (writable executable : bool) (entry : Z) : Z :=
  let entry := if writable then Z.lor entry PTE_WRITABLE else Z.land entry (not64 PTE_WRITABLE) in
  if nx_supported then
    if executable then Z.land entry (not64 PTE_NO_EXEC) else Z.lor entry PTE_NO_EXEC
  else entry.

Definition arch_vm_protect_page (cr3 vaddr : Z) (writable executable : bool) (m : mach) : Z * mach :=
  if negb (page_offset vaddr =? 0) then (-1, m) else
  match walk_to_pt no_table cr3 vaddr m with
  | None => (-1, m)
  | Some a =>
      let entry := rd a m in
      if Z.land entry PTE_PRESENT =? 0 then (-1, m)
      else (0, wr a (set_protection writable executable entry) m)
  end.

Definition arch_vm_protect_user_page (cr3 vaddr : Z) (writable executable : bool) (m : mach)
    : Z * mach :=
  if negb (page_offset vaddr =? 0) then (-1, m) else
  match walk_to_pt no_user_table cr3 vaddr m with
  | None => (-1, m)
  | Some a =>
      let entry := rd a m in
      if negb (Z.land entry PRESENT_USER =? PRESENT_USER) then (-1, m)
      else (0, wr a (set_protection writable executable entry) m)
  end.

Definition arch_vm_unmap_page (cr3 vaddr : Z) (m : mach) : Z * mach :=
  if negb (page_offset vaddr =? 0) then (0, m) else
  match walk_to_pt no_table cr3 vaddr m with
  | None => (0, m)
  | Some a =>
      let entry := rd a m in
      if Z.land entry PTE_PRESENT =? 0 then (0, m)
      else (Z.land entry PTE_ADDR_MASK, wr a 0 m)
  end.

Definition arch_vm_unmap_user_page (cr3 vaddr : Z) (m : mach) : Z * mach :=
  if negb (page_offset vaddr =? 0) then (0, m) else
  match walk_to_pt no_user_table cr3 vaddr m with
  | None => (0, m)
  | Some a =>
      let entry := rd a m in
      if negb (Z.land entry PRESENT_USER =? PRESENT_USER) then (0, m)
      else (Z.land entry PTE_ADDR_MASK, wr a 0 m)
  end.

Definition denied (write : bool) (e : Z) : bool :=
  (Z.land e PTE_PRESENT =? 0) || (write && (Z.land e PTE_WRITABLE =? 0)).

Definition arch_vm_translate (cr3 vaddr : Z) (write : bool) (m : mach) : Z :=
  let large_offset := Z.land vaddr (LARGE_PAGE_SIZE - 1) in
  let entry := rd (slot_addr cr3 (pml4_index vaddr)) m in
  if denied write entry then 0 else
  let entry := rd (slot_addr (Z.land entry PTE_ADDR_MASK) (pdpt_index vaddr)) m in
  if denied write entry then 0 else
  let entry := rd (slot_addr (Z.land entry PTE_ADDR_MASK) (pd_index vaddr)) m in
  if denied write entry then 0 else
  if negb (Z.land entry PTE_LARGE =? 0)
  then Z.land entry (not64 (LARGE_PAGE_SIZE - 1)) +w large_offset else
  let entry := rd (slot_addr (Z.land entry PTE_ADDR_MASK) (pt_index vaddr)) m in
  if denied write entry then 0 else
  Z.land entry PTE_ADDR_MASK +w page_offset vaddr.

Definition user_denied (write : bool) (e : Z) : bool :=
  negb (Z.land e PRESENT_USER =? PRESENT_USER) || (write && (Z.land e PTE_WRITABLE =? 0)).

Definition arch_vm_translate_user (cr3 vaddr : Z) (write : bool) (m : mach) : Z :=
  let entry := rd (slot_addr cr3 (pml4_index vaddr)) m in
  if user_denied write entry then 0 else
  let entry := rd (slot_addr (Z.land entry PTE_ADDR_MASK) (pdpt_index vaddr)) m in
  if user_denied write entry then 0 else
  let entry := rd (slot_addr (Z.land entry PTE_ADDR_MASK) (pd_index vaddr)) m in
  if user_denied write entry || negb (Z.land entry PTE_LARGE =? 0) then 0 else
  let entry := rd (slot_addr (Z.land entry PTE_ADDR_MASK) (pt_index vaddr)) m in
  if user_denied write entry then 0 else
  Z.land entry PTE_ADDR_MASK +w page_offset vaddr.

Definition arch_vm_root (cr3 : Z) : Z := cr3.

End Tables.

(** ** Bits *)

Lemma land_bit e k : 0 <= k -> (Z.land e (Z.shiftl 1 k) =? 0) = negb (Z.testbit e k).
Proof.
  intros Hk. rewrite Z.shiftl_1_l. destruct (Z.testbit e k) eqn:Hb; simpl.
  - apply Z.eqb_neq. intros H0. assert (Z.testbit (Z.land e (2 ^ k)) k = false) as Hf by (rewrite H0; apply Z.bits_0).
    rewrite Z.land_spec, Hb, Z.pow2_bits_true in Hf by done. done.
  - apply Z.eqb_eq. apply Z.bits_inj'. intros j Hj. rewrite Z.land_spec, Z.bits_0.
    destruct (decide (j = k)) as [->|Hne]; [by rewrite Hb|].
    rewrite Z.pow2_bits_false by done. apply andb_false_r.
Qed.

Lemma land_present_user e :
  (Z.land e PRESENT_USER =? PRESENT_USER) = Z.testbit e 0 && Z.testbit e 2.
Proof.
  unfold PRESENT_USER.
  destruct (Z.eqb_spec (Z.land e (Z.lor PTE_PRESENT PTE_USER)) (Z.lor PTE_PRESENT PTE_USER)) as [Heq|Hne].
  - assert (forall i, Z.testbit (Z.lor PTE_PRESENT PTE_USER) i = true -> Z.testbit e i = true) as Hb.
    { intros i Hi. rewrite <- Heq, Z.land_spec in Hi. apply andb_true_iff in Hi. tauto. }
    rewrite !Hb by reflexivity. done.
  - symmetry. apply andb_false_iff. destruct (Z.testbit e 0) eqn:H0; [right|by left].
    destruct (Z.testbit e 2) eqn:H2; [|done]. destruct Hne. apply Z.bits_inj'. intros j Hj.
    rewrite Z.land_spec. destruct (Z.testbit (Z.lor PTE_PRESENT PTE_USER) j) eqn:Hbit; [|apply andb_false_r].
    rewrite andb_true_r. change (Z.lor PTE_PRESENT PTE_USER) with 5 in Hbit.
    destruct (decide (j = 0)) as [->|]; [done|]. destruct (decide (j = 2)) as [->|]; [done|].
    destruct (decide (j = 1)) as [->|]; [done|].
    rewrite Z.bits_above_log2 in Hbit; [done|lia|]. simpl. lia.
Qed.

Definition present (e : Z) : bool := Z.testbit e 0.
Definition writable_bit (e : Z) : bool := Z.testbit e 1.
Definition user_bit (e : Z) : bool := Z.testbit e 2.
Definition large_bit (e : Z) : bool := Z.testbit e 7.
Definition noexec_bit (e : Z) : bool := Z.testbit e 63.

Lemma land_P e : (Z.land e PTE_PRESENT =? 0) = negb (present e).
Proof. by apply land_bit. Qed.
Lemma land_W e : (Z.land e PTE_WRITABLE =? 0) = negb (writable_bit e).
Proof. by apply land_bit. Qed.
Lemma land_L e : (Z.land e PTE_LARGE =? 0) = negb (large_bit e).
Proof. by apply land_bit. Qed.

(** The frame an entry points to. *)
Definition next_frame (e : Z) : Z := Z.land e PTE_ADDR_MASK.

Definition is_frame (p : Z) : Prop := 0 <= p < 2 ^ 52 /\ p mod 4096 = 0.

#[global] Instance is_frame_dec p : Decision (is_frame p).
Proof. unfold is_frame. apply _. Defined.

Lemma mask_bits i : Z.testbit PTE_ADDR_MASK i = (12 <=? i) && (i <? 52).
Proof.
  change PTE_ADDR_MASK with (Z.shiftl (Z.ones 40) 12).
  destruct (Z.leb_spec 0 i) as [Hi|Hi].
  - rewrite Z.shiftl_spec by done. destruct (Z.leb_spec 12 i).
    + rewrite Z.testbit_ones by lia. simpl.
      destruct (Z.leb_spec 0 (i - 12)), (Z.ltb_spec (i - 12) 40), (Z.ltb_spec i 52); simpl; lia.
    + rewrite Z.testbit_neg_r by lia. done.
  - rewrite Z.testbit_neg_r by lia. destruct (Z.leb_spec 12 i); [lia|done].
Qed.

Lemma frame_bits p i : is_frame p -> Z.testbit p i = true -> 12 <= i < 52.
Proof.
  intros [Hr Hm] Hb. destruct (Z_lt_le_dec i 12) as [Hi|Hi].
  - destruct (Z_lt_le_dec i 0); [by rewrite Z.testbit_neg_r in Hb|].
    rewrite (Z.div_mod p 4096), Hm, Z.add_0_r, Z.mul_comm in Hb by lia.
    change 4096 with (2 ^ 12) in Hb. rewrite Z.mul_pow2_bits_low in Hb; [done|lia].
  - split; [done|]. destruct (Z_lt_le_dec i 52); [done|].
    assert (Z.testbit p i = false) as Hf; [|congruence].
    destruct (decide (p = 0)) as [->|]; [apply Z.bits_0|].
    apply Z.bits_above_log2; [lia|]. apply Z.log2_lt_pow2; [lia|].
    apply Z.lt_le_trans with (2 ^ 52); [lia|]. by apply Z.pow_le_mono_r.
Qed.

Lemma next_frame_lor p f : is_frame p -> Z.land f PTE_ADDR_MASK = 0 -> next_frame (Z.lor p f) = p.
Proof.
  intros Hp Hf. unfold next_frame. rewrite Z.land_lor_distr_l, Hf, Z.lor_0_r.
  apply Z.bits_inj'. intros i Hi. rewrite Z.land_spec, mask_bits.
  destruct (Z.testbit p i) eqn:Hb; [|done]. apply frame_bits in Hb; [|done].
  destruct (Z.leb_spec 12 i), (Z.ltb_spec i 52); simpl; lia.
Qed.

(** An entry made of a frame and flags has the flags' low and top bits. *)
Lemma lor_low_bit p f i : is_frame p -> ~ (12 <= i < 52) -> Z.testbit (Z.lor p f) i = Z.testbit f i.
Proof.
  intros Hp Hi. rewrite Z.lor_spec. destruct (Z.testbit p i) eqn:Hb; [|done].
  by apply frame_bits in Hb.
Qed.

(** ** Indices *)

(** Bits 12 + 9 l and up of the low 48 bits of an address; level 0 is the page
    number. *)
Definition pfx (l : Z) (va : Z) : Z := (va / 2 ^ (12 + 9 * l)) mod 2 ^ (36 - 9 * l).
Definition idx (l : Z) (va : Z) : Z := Z.land (Z.shiftr va (3 + 9 * l)) 511.

Lemma idx_range l va : 0 <= idx l va < 512.
Proof. unfold idx. change 511 with (Z.ones 9). rewrite Z.land_ones by lia. apply Z.mod_pos_bound. lia. Qed.

Lemma pfx_step l va : 1 <= l <= 4 -> pfx (l - 1) va = 512 * pfx l va + idx l va.
Proof.
  intros Hl. unfold pfx, idx. change 511 with (Z.ones 9). rewrite Z.land_ones, Z.shiftr_div_pow2 by lia.
  replace (12 + 9 * (l - 1)) with (3 + 9 * l) by lia. set (x := va / 2 ^ (3 + 9 * l)).
  replace (va / 2 ^ (12 + 9 * l)) with (x / 2 ^ 9).
  2: { unfold x. rewrite Z.div_div, <- Z.pow_add_r by lia. do 2 f_equal. lia. }
  replace (36 - 9 * (l - 1)) with (9 + (36 - 9 * l)) by lia.
  rewrite Z.pow_add_r, Z.rem_mul_r by lia. change (2 ^ 9) with 512. lia.
Qed.

Lemma pfx_idx l va va' : 1 <= l <= 4 ->
  pfx l va = pfx l va' -> idx l va = idx l va' -> pfx (l - 1) va = pfx (l - 1) va'.
Proof. intros Hl Hp Hi. rewrite !pfx_step by done. lia. Qed.

Lemma pfx_inv l va va' : 1 <= l <= 4 -> pfx (l - 1) va = pfx (l - 1) va' ->
  pfx l va = pfx l va' /\ idx l va = idx l va'.
Proof.
  intros Hl. rewrite !pfx_step by done. pose proof (idx_range l va). pose proof (idx_range l va'). lia.
Qed.

Lemma pfx_4 va : pfx 4 va = 0.
Proof. unfold pfx. change (2 ^ (36 - 9 * 4)) with 1. apply Z.mod_1_r. Qed.

Lemma slot_inj t t' i i' : is_frame t -> is_frame t' -> 0 <= i < 512 -> 0 <= i' < 512 ->
  slot_addr t i = slot_addr t' i' -> t = t' /\ i = i'.
Proof.
  unfold slot_addr, is_frame. intros [_ H1] [_ H2] Hi Hi' Heq.
  pose proof (Z.div_mod t 4096). pose proof (Z.div_mod t' 4096). lia.
Qed.

Lemma slot_ne c c' i i' : is_frame c -> is_frame c' -> 0 <= i < 512 -> 0 <= i' < 512 -> c <> c' ->
  slot_addr c i <> slot_addr c' i'.
Proof. intros Hc Hc' Hi Hi' Hne Heq. by destruct (slot_inj c c' i i' Hc Hc' Hi Hi' Heq). Qed.

(** ** Reading and writing *)

Lemma rd_wr_eq a v m : rd a (wr a v m) = v.
Proof. unfold rd, wr. simpl. by rewrite lookup_insert_eq. Qed.
Lemma rd_wr_ne a b v m : a <> b -> rd b (wr a v m) = rd b m.
Proof. intros Hne. unfold rd, wr. simpl. by rewrite lookup_insert_ne. Qed.

Lemma fill_frame t n f m a : (forall i, 0 <= i < Z.of_nat n -> a <> slot_addr t i) ->
  rd a (fill t n f m) = rd a m.
Proof.
  unfold fill. intros Ha. induction n as [|n IH]; [done|].
  rewrite seq_S, fold_left_app. simpl. rewrite rd_wr_ne; [apply IH; intros i Hi; apply Ha; lia|].
  apply not_eq_sym, Ha. lia.
Qed.

Lemma fill_rd t n f m i : 0 <= i < Z.of_nat n -> rd (slot_addr t i) (fill t n f m) = f i.
Proof.
  unfold fill. induction n as [|n IH]; [lia|]. intros Hi. rewrite seq_S, fold_left_app. simpl.
  destruct (decide (i = Z.of_nat n)) as [->|Hne]; [by rewrite rd_wr_eq|].
  rewrite rd_wr_ne; [apply IH; lia|]. unfold slot_addr. lia.
Qed.

Lemma fill_pm t n f m : pm (fill t n f m) = pm m.
Proof.
  unfold fill. induction n as [|n IH]; [done|]. rewrite seq_S, fold_left_app. simpl. exact IH.
Qed.

(** ** What a table maps *)

(** The page-sized entry a large entry stands for: the one [split_large_page]
    writes. *)
Definition large_base (e : Z) : Z := Z.land e (not64 (LARGE_PAGE_SIZE - 1)).
Definition kept_flags (e : Z) : Z := Z.lor (Z.land (Z.land e 4095) (not64 PTE_LARGE)) PTE_PRESENT.
Definition large_pte (e i : Z) : Z := Z.lor (large_base e +w i *w PAGE_SIZE) (kept_flags e).

(** The page-sized entry that maps an address; 0 if there is none. *)
Definition pte_of (cr3 va : Z) (m : mach) : Z :=
  let e4 := rd (slot_addr cr3 (idx 4 va)) m in
  if negb (present e4) then 0 else
  let e3 := rd (slot_addr (next_frame e4) (idx 3 va)) m in
  if negb (present e3) then 0 else
  let e2 := rd (slot_addr (next_frame e3) (idx 2 va)) m in
  if negb (present e2) then 0 else
  if large_bit e2 then large_pte e2 (idx 1 va) else
  let e1 := rd (slot_addr (next_frame e2) (idx 1 va)) m in
  if present e1 then e1 else 0.

(** The large entries of the boot-time identity map. *)
Definition large_ok (e : Z) : Prop :=
  writable_bit e = true /\ user_bit e = false /\ 0 <= large_base e /\
  large_base e + LARGE_PAGE_SIZE <= 2 ^ 52 /\ large_base e mod 4096 = 0.

(** An entry of a table at level [l] (4 is the root), for the tables [G] with
    their level and prefix. *)
Definition entry_ok (G : gmap Z (Z * Z)) (l b i e : Z) : Prop :=
  present e = false \/
  l = 2 /\ present e = true /\ large_bit e = true /\ large_ok e \/
  present e = true /\ large_bit e = false /\ writable_bit e = true /\
    G !! next_frame e = Some (l - 1, 512 * b + i).

Record mach_wf (m : mach) : Prop := {
  mw_pmm : pmm_wf (pm m);
  mw_frame a st : frames (pm m) !! a = Some st -> is_frame a;
  mw_zero : frames (pm m) !! 0 <> Some Free;
}.

(** The tables of one space. *)
Record space_wf (G : gmap Z (Z * Z)) (cr3 : Z) (m : mach) : Prop := {
  sw_root : G !! cr3 = Some (4, 0);
  sw_inj t t' x : G !! t = Some x -> G !! t' = Some x -> t = t';
  sw_level t l b : G !! t = Some (l, b) -> 1 <= l <= 4;
  sw_top t b : G !! t = Some (4, b) -> b = 0;
  sw_used t x : G !! t = Some x -> frames (pm m) !! t = Some (Used 1) /\ is_frame t /\ t <> 0;
  sw_entry t l b i : G !! t = Some (l, b) -> 2 <= l -> 0 <= i < 512 ->
    entry_ok G l b i (rd (slot_addr t i) m);
  sw_parent t l b : G !! t = Some (l, b) -> l < 4 ->
    exists p, G !! p = Some (l + 1, b / 512) /\
      let e := rd (slot_addr p (b mod 512)) m in
      present e = true /\ large_bit e = false /\ next_frame e = t;
  sw_user t l b i j : G !! t = Some (l, b) -> 2 <= l -> 0 <= i < 512 -> 0 <= j < 512 ->
    let e := rd (slot_addr t i) m in
    let e' := rd (slot_addr (next_frame e) j) m in
    present e = true -> large_bit e = false -> user_bit e = false -> present e' = true ->
    user_bit e' = false;
}.

Section Walks.
Context (G : gmap Z (Z * Z)) (cr3 : Z) (m : mach) (Hwf : space_wf G cr3 m).

Lemma step_down t l va : G !! t = Some (l, pfx l va) -> 2 <= l ->
  let e := rd (slot_addr t (idx l va)) m in
  present e = true -> large_bit e = false -> G !! next_frame e = Some (l - 1, pfx (l - 1) va).
Proof.
  intros Ht Hl e Hp Hlg. pose proof (sw_level _ _ _ Hwf _ _ _ Ht).
  destruct (sw_entry _ _ _ Hwf t l _ (idx l va) Ht Hl (idx_range l va)) as [Hn|[(_ & _ & Hlb & _)|(_ & _ & _ & HG)]].
  - unfold e in Hp. congruence.
  - unfold e in Hlg. congruence.
  - rewrite pfx_step by lia. exact HG.
Qed.

Lemma step_up t l va : G !! t = Some (l, pfx l va) -> l < 4 ->
  exists p, G !! p = Some (l + 1, pfx (l + 1) va) /\
    let e := rd (slot_addr p (idx (l + 1) va)) m in
    present e = true /\ large_bit e = false /\ next_frame e = t.
Proof.
  intros Ht Hl. pose proof (sw_level _ _ _ Hwf _ _ _ Ht).
  destruct (sw_parent _ _ _ Hwf t l _ Ht Hl) as (p & Hp & He).
  pose proof (pfx_step (l + 1) va) as Hs. replace (l + 1 - 1) with l in Hs by lia.
  specialize (Hs ltac:(lia)). pose proof (idx_range (l + 1) va) as Hi.
  assert (pfx l va / 512 = pfx (l + 1) va) as Hd by (rewrite Hs; symmetry; apply Z.div_unique with (idx (l + 1) va); lia).
  assert (pfx l va mod 512 = idx (l + 1) va) as Hm by (rewrite Hs; symmetry; apply Z.mod_unique with (pfx (l + 1) va); lia).
  rewrite Hd in Hp. rewrite Hm in He. eauto.
Qed.

Lemma top_table t va : G !! t = Some (4, pfx 4 va) -> t = cr3.
Proof. rewrite pfx_4. intros Ht. eapply (sw_inj _ _ _ Hwf); [done|apply Hwf]. Qed.

(** At the upper two levels no entry is large. *)
Lemma upper_small t l va : G !! t = Some (l, pfx l va) -> 3 <= l ->
  present (rd (slot_addr t (idx l va)) m) = true -> large_bit (rd (slot_addr t (idx l va)) m) = false.
Proof.
  intros Ht Hl Hp.
  destruct (sw_entry _ _ _ Hwf t l _ (idx l va) Ht ltac:(lia) (idx_range l va)) as [Hn|[(? & _)|(_ & Hlb & _)]];
    [congruence|lia|done].
Qed.

(** The walk from the root reaches the level-2 table of an address. *)
Lemma pte_from_2 t va : G !! t = Some (2, pfx 2 va) ->
  pte_of cr3 va m =
    (let e2 := rd (slot_addr t (idx 2 va)) m in
     if negb (present e2) then 0 else
     if large_bit e2 then large_pte e2 (idx 1 va) else
     let e1 := rd (slot_addr (next_frame e2) (idx 1 va)) m in
     if present e1 then e1 else 0).
Proof.
  intros Ht. destruct (step_up t 2 va Ht ltac:(lia)) as (t3 & Ht3 & P3 & _ & N3).
  destruct (step_up t3 3 va Ht3 ltac:(lia)) as (t4 & Ht4 & P4 & _ & N4).
  apply top_table in Ht4. subst t4. change (2 + 1) with 3 in *. change (3 + 1) with 4 in *.
  unfold pte_of. rewrite P4, N4, P3, N3. done.
Qed.

Lemma pte_page t va : G !! t = Some (1, pfx 1 va) ->
  pte_of cr3 va m = (let e := rd (slot_addr t (idx 1 va)) m in if present e then e else 0).
Proof.
  intros Ht. destruct (step_up t 1 va Ht ltac:(lia)) as (t2 & Ht2 & P2 & L2 & N2).
  change (1 + 1) with 2 in *. rewrite (pte_from_2 t2) by done. cbv zeta. by rewrite P2, L2, N2.
Qed.

Lemma pte_of_large t va : G !! t = Some (2, pfx 2 va) ->
  present (rd (slot_addr t (idx 2 va)) m) = true -> large_bit (rd (slot_addr t (idx 2 va)) m) = true ->
  pte_of cr3 va m = large_pte (rd (slot_addr t (idx 2 va)) m) (idx 1 va).
Proof. intros Ht Hp Hl. rewrite (pte_from_2 t) by done. cbv zeta. by rewrite Hp, Hl. Qed.

(** Where a walk can end. *)
Lemma pte_cases va :
  (exists t, G !! t = Some (1, pfx 1 va)) \/
  (exists t, G !! t = Some (2, pfx 2 va) /\ present (rd (slot_addr t (idx 2 va)) m) = true /\
     large_bit (rd (slot_addr t (idx 2 va)) m) = true) \/
  pte_of cr3 va m = 0 /\ (forall t, G !! t <> Some (1, pfx 1 va)) /\
    (forall t, G !! t = Some (2, pfx 2 va) -> present (rd (slot_addr t (idx 2 va)) m) = false).
Proof.
  assert (G !! cr3 = Some (4, pfx 4 va)) as H4 by (rewrite pfx_4; apply Hwf).
  destruct (present (rd (slot_addr cr3 (idx 4 va)) m)) eqn:P4.
  2: { right; right. assert (forall t l, G !! t = Some (l, pfx l va) -> l = 3 -> False) as H3.
       { intros t l Ht ->. destruct (step_up t 3 va Ht ltac:(lia)) as (t4 & Ht4%top_table & Hp & _).
         subst t4. change (3 + 1) with 4 in Hp. congruence. }
       assert (forall t, G !! t <> Some (2, pfx 2 va)) as H2.
       { intros t Ht. destruct (step_up t 2 va Ht ltac:(lia)) as (t3 & Ht3 & _). by apply (H3 t3 3). }
       split; [unfold pte_of; by rewrite P4|]. split; [|by intros t ?%H2].
       intros t Ht. destruct (step_up t 1 va Ht ltac:(lia)) as (t2 & Ht2 & _). by apply (H2 t2). }
  pose proof (step_down cr3 4 va H4 ltac:(lia) P4 (upper_small _ _ _ H4 ltac:(lia) P4)) as H3.
  change (4 - 1) with 3 in H3. set (t3 := next_frame (rd (slot_addr cr3 (idx 4 va)) m)) in *.
  destruct (present (rd (slot_addr t3 (idx 3 va)) m)) eqn:P3.
  2: { right; right. assert (forall t, G !! t <> Some (2, pfx 2 va)) as H2.
       { intros t Ht. destruct (step_up t 2 va Ht ltac:(lia)) as (t' & Ht' & Hp & _). change (2 + 1) with 3 in *.
         assert (t' = t3) as -> by (by eapply (sw_inj _ _ _ Hwf)). congruence. }
       split; [unfold pte_of; rewrite P4; fold t3; simpl; by rewrite P3|]. split; [|by intros t ?%H2].
       intros t Ht. destruct (step_up t 1 va Ht ltac:(lia)) as (t2 & Ht2 & _). by apply (H2 t2). }
  pose proof (step_down t3 3 va H3 ltac:(lia) P3 (upper_small _ _ _ H3 ltac:(lia) P3)) as H2.
  change (3 - 1) with 2 in H2. set (t2 := next_frame (rd (slot_addr t3 (idx 3 va)) m)) in *.
  destruct (present (rd (slot_addr t2 (idx 2 va)) m)) eqn:P2.
  2: { right; right. split; [rewrite (pte_from_2 t2) by done; cbv zeta; by rewrite P2|]. split.
       - intros t Ht. destruct (step_up t 1 va Ht ltac:(lia)) as (t' & Ht' & Hp & _). change (1 + 1) with 2 in *.
         assert (t' = t2) as -> by (by eapply (sw_inj _ _ _ Hwf)). congruence.
       - intros t Ht. by assert (t = t2) as -> by (by eapply (sw_inj _ _ _ Hwf)). }
  destruct (large_bit (rd (slot_addr t2 (idx 2 va)) m)) eqn:L2; [right; left; by exists t2|left].
  eexists. exact (step_down t2 2 va H2 ltac:(lia) P2 L2).
Qed.
End Walks.

(** ** Changing tables *)

(** The entries above a table, up to the root, are open to user accesses. *)
Definition user_above (G : gmap Z (Z * Z)) (m : mach) (l b : Z) : Prop :=
  l = 4 \/ exists p, G !! p = Some (l + 1, b / 512) /\ user_bit (rd (slot_addr p (b mod 512)) m) = true.

(** A write to one slot of a table of the space. *)
Section OneWrite.
Context (G : gmap Z (Z * Z)) (cr3 : Z) (m : mach) (Hwf : space_wf G cr3 m).
Context (t l b i v : Z) (Ht : G !! t = Some (l, b)) (Hi : 0 <= i < 512).

Lemma rd_other t' x j : G !! t' = Some x -> 0 <= j < 512 -> (t', j) <> (t, i) ->
  rd (slot_addr t' j) (wr (slot_addr t i) v m) = rd (slot_addr t' j) m.
Proof.
  intros Ht' Hj Hne. rewrite rd_wr_ne; [done|]. intros Heq.
  apply slot_inj in Heq as [-> ->]; [done| |..]; try done; eapply (sw_used _ _ _ Hwf); eassumption.
Qed.

(** Writing a page-sized entry. *)
Lemma leaf_write_wf : l = 1 ->
  (present v = true -> user_bit v = true -> user_above G m 1 b) ->
  space_wf G cr3 (wr (slot_addr t i) v m).
Proof.
  intros Hl Hu. assert (forall t' l' b' j, G !! t' = Some (l', b') -> 2 <= l' -> 0 <= j < 512 ->
    rd (slot_addr t' j) (wr (slot_addr t i) v m) = rd (slot_addr t' j) m) as Hsame.
  { intros t' l' b' j Ht' Hl' Hj. eapply rd_other; [done|done|]. intros [= -> ->].
    rewrite Ht in Ht'. injection Ht' as <- <-. lia. }
  constructor; try apply Hwf.
  - intros t' l' b' j Ht' Hl' Hj. rewrite (Hsame t' l' b') by done. by apply (sw_entry _ _ _ Hwf).
  - intros t' l' b' Ht' Hl'. destruct (sw_parent _ _ _ Hwf t' l' b' Ht' Hl') as (p & Hp & He).
    exists p. split; [done|]. pose proof (sw_level _ _ _ Hwf _ _ _ Ht').
    rewrite (Hsame p (l' + 1) (b' / 512)); [done|done|lia|apply Z.mod_pos_bound; lia].
  - intros t' l' b' i' j Ht' Hl' Hi' Hj e e'. unfold e' in *. unfold e in *. clear e e'.
    rewrite (Hsame t' l' b' i') by done. intros P L U.
    pose proof (sw_entry _ _ _ Hwf t' l' b' i' Ht' Hl' Hi') as [?|[(_ & _ & ? & _)|(_ & _ & _ & Hc)]]; [congruence..|].
    destruct (decide ((next_frame (rd (slot_addr t' i') m), j) = (t, i))) as [Heq|Hne].
    + injection Heq as Heq <-. rewrite Heq, rd_wr_eq. rewrite Heq, Ht in Hc. injection Hc as Hl1 Hb1. rewrite Hl in *.
      intros Pv. destruct (user_bit v) eqn:Uv; [|done].
      destruct (Hu Pv eq_refl) as [?|(p & Hp & Up)]; [lia|].
      replace ((512 * b' + i') / 512) with b' in * by (apply Z.div_unique with i'; lia).
      assert (b / 512 = b' /\ b mod 512 = i') as [Hd Hm].
      { rewrite Hb1. split; symmetry; [apply Z.div_unique with i'|apply Z.mod_unique with b']; lia. }
      rewrite Hd in Hp. rewrite Hm in Up. assert (p = t') as -> by (eapply (sw_inj _ _ _ Hwf); [done|rewrite Ht'; do 2 f_equal; lia]).
      congruence.
    + rewrite (rd_other _ _ j Hc Hj Hne). by apply (sw_user _ _ _ Hwf t' l' b').
Qed.

Lemma leaf_write_pte va : l = 1 -> space_wf G cr3 (wr (slot_addr t i) v m) ->
  pte_of cr3 va (wr (slot_addr t i) v m) =
    if decide (pfx 0 va = 512 * b + i) then (if present v then v else 0) else pte_of cr3 va m.
Proof.
  intros Hl Hwf'. pose proof (pfx_step 1 va ltac:(lia)) as Hs. change (1 - 1) with 0 in Hs. pose proof (idx_range 1 va) as Hir.
  destruct (pte_cases G cr3 m Hwf va) as [(t1 & Ht1)|[(t2 & Ht2 & P2 & L2)|(H0 & H1 & H2)]].
  - rewrite (pte_page _ _ _ Hwf' t1 va Ht1), (pte_page _ _ _ Hwf t1 va Ht1). cbv zeta.
    destruct (decide (pfx 0 va = 512 * b + i)) as [Heq|Hne].
    + assert (pfx 1 va = b /\ idx 1 va = i) as [Hb Hix] by lia.
      assert (t1 = t) as -> by (eapply (sw_inj _ _ _ Hwf); [done|rewrite Ht; do 2 f_equal; lia]).
      by rewrite Hix, rd_wr_eq.
    + rewrite (rd_other _ _ _ Ht1 Hir); [done|]. intros [= -> Hix]. rewrite Ht in Ht1. injection Ht1 as _ Hb. lia.
  - assert (rd (slot_addr t2 (idx 2 va)) (wr (slot_addr t i) v m) = rd (slot_addr t2 (idx 2 va)) m) as Hrd.
    { apply (rd_other _ _ _ Ht2 (idx_range 2 va)). intros [= -> _]. rewrite Ht in Ht2. injection Ht2 as Heq _. lia. }
    rewrite (pte_of_large _ _ _ Hwf' t2 va Ht2), (pte_of_large _ _ _ Hwf t2 va Ht2), Hrd by (by rewrite ?Hrd).
    destruct (decide (pfx 0 va = 512 * b + i)) as [Heq|Hne]; [|done].
    destruct (step_up _ _ _ Hwf t 1 va) as (p & Hp & Hpp & Hpl & _); [rewrite Ht; do 2 f_equal; lia|lia|].
    change (1 + 1) with 2 in *. assert (p = t2) as -> by (by eapply (sw_inj _ _ _ Hwf)). congruence.
  - destruct (decide (pfx 0 va = 512 * b + i)) as [Heq|Hne].
    { destruct (H1 t). rewrite Ht. do 2 f_equal; lia. }
    destruct (pte_cases G cr3 _ Hwf' va) as [(t1 & Ht1)|[(t2 & Ht2 & P2 & L2)|(H0' & _)]]; [by destruct (H1 t1)| |congruence].
    rewrite (rd_other _ _ _ Ht2 (idx_range 2 va)), (H2 t2 Ht2) in P2; [done|].
    intros [= -> _]. rewrite Ht in Ht2. injection Ht2 as Heq _. lia.
Qed.

(** Changing flags of an entry that points to a table. *)
Record same_child (e v : Z) : Prop := {
  sc_present : present e = true /\ present v = true;
  sc_small : large_bit e = false /\ large_bit v = false;
  sc_writable : writable_bit v = true;
  sc_next : next_frame v = next_frame e;
  sc_user : user_bit v = false -> user_bit e = false;
}.

Lemma child_index t' l' b' i' l0 b0 : G !! t' = Some (l', b') -> 0 <= i' < 512 ->
  (l' - 1, 512 * b' + i') = (l0, b0) -> l' = l0 + 1 /\ b0 / 512 = b' /\ b0 mod 512 = i'.
Proof.
  intros _ Hi' [= <- <-]. split; [lia|]. split; symmetry; [apply Z.div_unique with i'|apply Z.mod_unique with b']; lia.
Qed.

Lemma flags_write_wf : 2 <= l -> same_child (rd (slot_addr t i) m) v ->
  (user_bit v = true -> user_bit (rd (slot_addr t i) m) = true \/ user_above G m l b) ->
  space_wf G cr3 (wr (slot_addr t i) v m).
Proof.
  intros Hl [[Pe Pv] [Le Lv] Wv Nv Uev] Hu.
  assert (forall t' x j, G !! t' = Some x -> 0 <= j < 512 ->
    (t', j) = (t, i) \/ rd (slot_addr t' j) (wr (slot_addr t i) v m) = rd (slot_addr t' j) m) as Hcase.
  { intros t' x j Ht' Hj. destruct (decide ((t', j) = (t, i))); [by left|right]. by eapply rd_other. }
  constructor; try apply Hwf.
  - intros t' l' b' j Ht' Hl' Hj. destruct (Hcase t' _ j Ht' Hj) as [[= -> ->]|Hr].
    + rewrite rd_wr_eq. right; right. split; [done|]. split; [done|]. split; [done|]. rewrite Nv.
      destruct (sw_entry _ _ _ Hwf t l' b' i Ht' Hl' Hj) as [?|[(_ & _ & ? & _)|(_ & _ & _ & Hc)]]; [congruence..|done].
    + rewrite Hr. by apply (sw_entry _ _ _ Hwf).
  - intros t' l' b' Ht' Hl'. destruct (sw_parent _ _ _ Hwf t' l' b' Ht' Hl') as (p & Hp & P & L & N).
    exists p. split; [done|]. destruct (Hcase p _ (b' mod 512) Hp (Z.mod_pos_bound b' 512 eq_refl)) as [[= -> Hm]|Hr].
    + rewrite Hm in *. rewrite rd_wr_eq. split; [done|]. split; [done|]. congruence.
    + by rewrite Hr.
  - intros t' l' b' i' j Ht' Hl' Hi' Hj e e'. unfold e' in *. unfold e in *. clear e e'.
    assert (present (rd (slot_addr t' i') m) = true -> large_bit (rd (slot_addr t' i') m) = false ->
      user_bit (rd (slot_addr t' i') m) = false ->
      present (rd (slot_addr (next_frame (rd (slot_addr t' i') m)) j) (wr (slot_addr t i) v m)) = true ->
      user_bit (rd (slot_addr (next_frame (rd (slot_addr t' i') m)) j) (wr (slot_addr t i) v m)) = false) as Hold.
    { intros P L U.
      pose proof (sw_entry _ _ _ Hwf t' l' b' i' Ht' Hl' Hi') as [?|[(_ & _ & ? & _)|(_ & _ & _ & Hc)]]; [congruence..|].
      pose proof (sw_user _ _ _ Hwf t' l' b' i' j Ht' Hl' Hi' Hj P L U) as Hsu.
      destruct (Hcase _ _ j Hc Hj) as [[= Heq ->]|Hr]; [|by rewrite Hr].
      rewrite Heq in *. rewrite rd_wr_eq. intros _. destruct (user_bit v) eqn:Uv; [|done].
      destruct (Hu eq_refl) as [Ue|[?|(p & Hp & Up)]]; [by rewrite Ue in Hsu; apply Hsu|..].
      - rewrite Ht in Hc. injection Hc as Hc _. pose proof (sw_level _ _ _ Hwf _ _ _ Ht'). lia.
      - rewrite Ht in Hc. injection Hc as Hc1 Hc2.
        destruct (child_index t' l' b' i' l b Ht' Hi') as (Hl1 & Hd & Hm); [congruence|].
        rewrite Hd, <- Hl1 in Hp. rewrite Hm in Up. assert (p = t') as -> by (by eapply (sw_inj _ _ _ Hwf)). congruence. }
    destruct (Hcase t' _ i' Ht' Hi') as [[= -> ->]|Hr]; [|by rewrite Hr].
    rewrite rd_wr_eq, Nv. intros _ _ U. apply Hold; auto.
Qed.

Lemma flags_write_pte va : 2 <= l -> same_child (rd (slot_addr t i) m) v ->
  space_wf G cr3 (wr (slot_addr t i) v m) ->
  pte_of cr3 va (wr (slot_addr t i) v m) = pte_of cr3 va m.
Proof.
  intros Hl [[Pe Pv] [Le Lv] _ _ _] Hwf'.
  assert (forall t2, G !! t2 = Some (2, pfx 2 va) -> (t2, idx 2 va) = (t, i) \/
    rd (slot_addr t2 (idx 2 va)) (wr (slot_addr t i) v m) = rd (slot_addr t2 (idx 2 va)) m) as H2.
  { intros t2 Ht2. destruct (decide ((t2, idx 2 va) = (t, i))); [by left|right].
    eapply rd_other; [done|apply idx_range|done]. }
  destruct (pte_cases G cr3 m Hwf va) as [(t1 & Ht1)|[(t2 & Ht2 & P2 & L2)|(H0 & H1 & Hn)]].
  - rewrite (pte_page _ _ _ Hwf' t1 va Ht1), (pte_page _ _ _ Hwf t1 va Ht1).
    rewrite (rd_other _ _ _ Ht1 (idx_range 1 va)); [done|]. intros [= -> _]. rewrite Ht in Ht1.
    injection Ht1 as Heq _. lia.
  - destruct (H2 t2 Ht2) as [[= -> Heq]|Hr]; [rewrite Heq in L2; congruence|].
    rewrite (pte_of_large _ _ _ Hwf' t2 va Ht2), (pte_of_large _ _ _ Hwf t2 va Ht2), Hr by (by rewrite ?Hr). done.
  - destruct (pte_cases G cr3 _ Hwf' va) as [(t1 & Ht1)|[(t2 & Ht2 & P2 & L2)|(H0' & _)]]; [by destruct (H1 t1)| |congruence].
    destruct (H2 t2 Ht2) as [[= -> Heq]|Hr].
    + rewrite Heq, rd_wr_eq in L2. congruence.
    + rewrite Hr, (Hn t2 Ht2) in P2. done.
Qed.
End OneWrite.

(** A new table [c] with the entries [g], hung below an entry that did not
    point to a table. *)
Section Attach.
Context (G : gmap Z (Z * Z)) (cr3 : Z) (m m' : mach) (Hwf : space_wf G cr3 m).
Context (t l b i c : Z) (g : Z -> Z).
Context (Ht : G !! t = Some (l, b)) (Hl : 2 <= l) (Hi : 0 <= i < 512).
Context (Hc : G !! c = None) (Hcf : is_frame c) (Hc0 : c <> 0).
Let v := rd (slot_addr t i) m'.
Let G' := <[c := (l - 1, 512 * b + i)]> G.
Context (Hold : present (rd (slot_addr t i) m) = false \/ large_bit (rd (slot_addr t i) m) = true).
Context (Hv : present v = true /\ large_bit v = false /\ writable_bit v = true /\ next_frame v = c).
Context (Hsame : forall t' x j, G !! t' = Some x -> 0 <= j < 512 -> (t', j) <> (t, i) ->
  rd (slot_addr t' j) m' = rd (slot_addr t' j) m).
Context (Hg : forall j, 0 <= j < 512 -> rd (slot_addr c j) m' = g j).
Context (Hempty : 3 <= l -> forall j, 0 <= j < 512 -> present (g j) = false).
Context (Hpm : forall t' x, G' !! t' = Some x -> frames (pm m') !! t' = Some (Used 1)).
Context (Hu : user_bit v = true -> user_above G m l b).
Context (Hgu : forall j, 0 <= j < 512 -> present (g j) = true -> user_bit (g j) = false).

Lemma attach_lookup t' x : G' !! t' = Some x ->
  t' = c /\ x = (l - 1, 512 * b + i) \/ t' <> c /\ G !! t' = Some x.
Proof. unfold G'. intros [[<- <-]|[Hne Hx]]%lookup_insert_Some; auto. Qed.

Lemma attach_old t' x : G !! t' = Some x -> G' !! t' = Some x.
Proof. intros Hx. unfold G'. rewrite lookup_insert_ne; [done|]. intros ->. congruence. Qed.

Lemma attach_fresh t' : G !! t' <> Some (l - 1, 512 * b + i).
Proof.
  intros Hx. pose proof (sw_level _ _ _ Hwf _ _ _ Ht).
  destruct (sw_parent _ _ _ Hwf t' _ _ Hx ltac:(lia)) as (p & Hp & P & L & _).
  destruct (child_index G t l b i (l - 1) (512 * b + i) Ht Hi eq_refl) as (_ & Hd & Hm).
  rewrite Hd in Hp. rewrite Hm in P, L. replace (l - 1 + 1) with l in Hp by lia.
  assert (p = t) as -> by (by eapply (sw_inj _ _ _ Hwf)). destruct Hold; congruence.
Qed.

Lemma attach_rd t' x j : G !! t' = Some x -> 0 <= j < 512 ->
  (t', j) = (t, i) \/ rd (slot_addr t' j) m' = rd (slot_addr t' j) m.
Proof. intros Hx Hj. destruct (decide ((t', j) = (t, i))); [by left|right; eauto]. Qed.

Lemma attach_entry t' l' b' j : G !! t' = Some (l', b') -> 2 <= l' -> 0 <= j < 512 ->
  entry_ok G' l' b' j (rd (slot_addr t' j) m').
Proof.
  intros Hx Hl' Hj. destruct (attach_rd t' _ j Hx Hj) as [[= -> ->]|Hr].
  - right; right. destruct Hv as (P & L & W & N). fold v. rewrite Ht in Hx. injection Hx as <- <-.
    split; [done|]. split; [done|]. split; [done|]. rewrite N. unfold G'. apply lookup_insert_eq.
  - rewrite Hr. destruct (sw_entry _ _ _ Hwf t' l' b' j Hx Hl' Hj) as [?|[?|(P & L & W & N)]]; [by left|by right; left|].
    right; right. split; [done|]. split; [done|]. split; [done|]. by apply attach_old.
Qed.

(** The entry above a table, before and after. *)
Lemma attach_above p x i' : G !! p = Some x -> 0 <= i' < 512 ->
  present (rd (slot_addr p i') m) = true -> large_bit (rd (slot_addr p i') m) = false ->
  rd (slot_addr p i') m' = rd (slot_addr p i') m.
Proof.
  intros Hp Hi' P L. destruct (attach_rd p _ i' Hp Hi') as [[= -> ->]|Hr]; [|done].
  destruct Hold; congruence.
Qed.

Lemma attach_wf : space_wf G' cr3 m'.
Proof.
  pose proof (sw_level _ _ _ Hwf _ _ _ Ht) as Hlv. constructor.
  - apply attach_old, Hwf.
  - intros t1 t2 x [[-> Hx]|[_ Hx1]]%attach_lookup [[-> Hx']|[_ Hx2]]%attach_lookup; [done|..].
    + subst x. by apply attach_fresh in Hx2.
    + subst x. by apply attach_fresh in Hx1.
    + by eapply (sw_inj _ _ _ Hwf).
  - intros t' l' b' [[-> [= -> ->]]|[_ Hx]]%attach_lookup; [lia|by eapply (sw_level _ _ _ Hwf)].
  - intros t' b' [[-> Hx]|[_ Hx]]%attach_lookup; [|by eapply (sw_top _ _ _ Hwf)]. injection Hx. lia.
  - intros t' x Hx. split; [by eapply Hpm|]. apply attach_lookup in Hx as [[-> _]|[_ Hx]]; [done|].
    by eapply (sw_used _ _ _ Hwf).
  - intros t' l' b' j [[-> [= -> ->]]|[_ Hx]]%attach_lookup Hl' Hj; [|by eapply attach_entry].
    left. rewrite Hg by done. apply Hempty; [lia|done].
  - intros t' l' b' [[-> [= -> ->]]|[_ Hx]]%attach_lookup Hl'.
    + destruct (child_index G t l b i (l - 1) (512 * b + i) Ht Hi eq_refl) as (_ & Hd & Hm).
      exists t. rewrite Hd, Hm. replace (l - 1 + 1) with l by lia. split; [by apply attach_old|].
      cbv zeta. fold v. tauto.
    + destruct (sw_parent _ _ _ Hwf t' l' b' Hx Hl') as (p & Hp & P & L & N). exists p.
      split; [by apply attach_old|]. rewrite (attach_above p _ _ Hp) by (done || by apply Z.mod_pos_bound). done.
  - intros t' l' b' i' j Hx Hl' Hi' Hj. cbv zeta. intros P L U P'.
    apply attach_lookup in Hx as [[-> [= -> ->]]|[_ Hx]].
    { rewrite Hg, Hempty in P by (done || lia). done. }
    destruct (attach_rd t' _ i' Hx Hi') as [[= -> ->]|Hr].
    + destruct Hv as (_ & _ & _ & N). fold v in P'. fold v. rewrite N, Hg in * by done. by apply Hgu.
    + rewrite Hr in *. destruct (sw_entry _ _ _ Hwf t' l' b' i' Hx Hl' Hi') as [?|[(_ & _ & ? & _)|(_ & _ & _ & Hn)]]; [congruence..|].
      destruct (attach_rd _ _ j Hn Hj) as [[= Heq ->]|Hr'].
      * rewrite Heq in *. fold v. destruct (user_bit v) eqn:Uv; [|done]. rewrite Ht in Hn. injection Hn as Hn1 Hn2.
        destruct (Hu eq_refl) as [?|(p & Hp & Up)]; [pose proof (sw_level _ _ _ Hwf _ _ _ Hx); lia|].
        destruct (child_index G t' l' b' i' l b Hx Hi') as (Hl1 & Hd & Hm); [f_equal; lia|].
        rewrite Hd, <- Hl1 in Hp. rewrite Hm in Up. assert (p = t') as -> by (by eapply (sw_inj _ _ _ Hwf)). congruence.
      * rewrite Hr' in *. by apply (sw_user _ _ _ Hwf t' l' b' i' j).
Qed.

(** Nothing is mapped or unmapped if the new table repeats what was there. *)
Lemma attach_pte va :
  (forall j, 0 <= j < 512 -> present (rd (slot_addr t i) m) = true -> large_bit (rd (slot_addr t i) m) = true ->
     l = 2 /\ g j = large_pte (rd (slot_addr t i) m) j /\ present (g j) = true) ->
  (present (rd (slot_addr t i) m) = false -> forall j, 0 <= j < 512 -> present (g j) = false) ->
  pte_of cr3 va m' = pte_of cr3 va m.
Proof.
  intros Hlarge Hnone. pose proof attach_wf as Hwf'.
  pose proof (pfx_step 2 va ltac:(lia)) as Hs2. change (2 - 1) with 1 in Hs2. pose proof (idx_range 1 va) as Hi1.
  destruct (pte_cases G cr3 m Hwf va) as [(t1 & Ht1)|[(t2 & Ht2 & P2 & L2)|(H0 & H1 & Hn)]].
  - rewrite (pte_page _ _ _ Hwf' t1 va (attach_old _ _ Ht1)), (pte_page _ _ _ Hwf t1 va Ht1).
    rewrite (Hsame t1 _ _ Ht1 Hi1); [done|]. intros [= -> _]. rewrite Ht in Ht1. injection Ht1 as ? _. lia.
  - rewrite (pte_of_large _ _ _ Hwf t2 va Ht2) by done.
    destruct (attach_rd t2 _ _ Ht2 (idx_range 2 va)) as [[= -> Hix]|Hr].
    + rewrite Hix in *. destruct (Hlarge (idx 1 va) Hi1 P2 L2) as (-> & Hgj & Pg).
      rewrite Ht in Ht2. injection Ht2 as ->.
      assert (G' !! c = Some (1, pfx 1 va)) as Hc1 by (unfold G'; rewrite lookup_insert_eq; do 2 f_equal; lia).
      rewrite (pte_page _ _ _ Hwf' c va Hc1). cbv zeta. by rewrite Hg, Pg.
    + rewrite (pte_of_large _ _ _ Hwf' t2 va (attach_old _ _ Ht2)), Hr by (by rewrite Hr). done.
  - rewrite H0. destruct (pte_cases G' cr3 m' Hwf' va) as [(t1 & Ht1)|[(t2 & Ht2 & P2 & L2)|(H0' & _)]]; [..|done].
    + pose proof Ht1 as [[-> Hx]|[_ Hx]]%attach_lookup; [|by destruct (H1 t1)].
      rewrite (pte_page _ _ _ Hwf' c va Ht1). cbv zeta. rewrite Hg by done.
      injection Hx as Hx1 Hx2. pose proof (idx_range 2 va).
      assert (G !! t = Some (2, pfx 2 va)) as Ht2 by (rewrite Ht; do 2 f_equal; lia).
      specialize (Hn t Ht2). replace (idx 2 va) with i in Hn by lia. by rewrite Hnone.
    + pose proof Ht2 as [[-> Hx]|[_ Hx]]%attach_lookup.
      * rewrite Hg in P2 by apply idx_range. injection Hx as Hx1 Hx2. rewrite Hempty in P2; [done|lia|apply idx_range].
      * destruct (attach_rd t2 _ _ Hx (idx_range 2 va)) as [[= -> Hix]|Hr].
        -- rewrite Hix in L2. fold v in L2. destruct Hv as (_ & ? & _). congruence.
        -- rewrite Hr, (Hn t2 Hx) in P2. done.
Qed.
End Attach.

(** ** Operations *)

(** The four index functions are the instances of [idx]. *)
Ltac use_indices va :=
  change (pml4_index va) with (idx 4 va); change (pdpt_index va) with (idx 3 va);
  change (pd_index va) with (idx 2 va); change (pt_index va) with (idx 1 va).

(** An operation may take frames for new tables; it changes nothing else. *)
Record grows (G : gmap Z (Z * Z)) (m : mach) (G' : gmap Z (Z * Z)) (m' : mach) : Prop := {
  gr_sub t x : G !! t = Some x -> G' !! t = Some x;
  gr_new t x : G' !! t = Some x -> G !! t = None -> frames (pm m) !! t = Some Free;
  gr_frames a : G' !! a = None \/ is_Some (G !! a) -> frames (pm m') !! a = frames (pm m) !! a;
  gr_mem a : (forall t x i, G' !! t = Some x -> 0 <= i < 512 -> a <> slot_addr t i) -> rd a m' = rd a m;
  gr_wf : mach_wf m';
}.

Lemma grows_trans G m G1 m1 G2 m2 : grows G m G1 m1 -> grows G1 m1 G2 m2 -> grows G m G2 m2.
Proof.
  intros [S1 N1 F1 M1 _] [S2 N2 F2 M2 W2]. constructor; [eauto|..|done].
  - intros t x Ht Hn. destruct (G1 !! t) as [y|] eqn:H1; [by eapply N1|].
    rewrite <- (F1 t) by (by left). by eapply N2.
  - intros a [Ha|[x Ha]]; rewrite F2 by eauto; apply F1; [|eauto].
    destruct (G1 !! a) eqn:H1; [|by left]. apply S2 in H1. congruence.
  - intros a Ha. rewrite M2 by done. apply M1. eauto.
Qed.

Lemma grows_refl G m : mach_wf m -> grows G m G m.
Proof. intros Hm. constructor; try done. congruence. Qed.

Lemma grows_write G m a v t x i : mach_wf m -> G !! t = Some x -> 0 <= i < 512 -> a = slot_addr t i ->
  grows G m G (wr a v m).
Proof.
  intros [W1 W2 W3] Ht Hi ->. constructor; try done; [congruence|..].
  intros a' Ha'. apply rd_wr_ne. apply not_eq_sym. eauto.
Qed.

Lemma step_alloc_inv F a F' :
  frame_step F PageAlloc (RPage (Some a)) F' -> F !! a = Some Free /\ F' = <[a := Used 1]> F.
Proof. inversion 1; subst; done. Qed.

(** Taking a frame from the allocator. *)
Lemma page_alloc_ok m : mach_wf m ->
  let '(page, p) := pmm_page_alloc (pm m) in
  let f := pmm_page_addr page p in
  page = None /\ f = 0 /\ p = pm m \/
  page <> None /\ f <> 0 /\ is_frame f /\ frames (pm m) !! f = Some Free /\
    frames p = <[f := Used 1]> (frames (pm m)) /\ mach_wf (with_pm p m).
Proof.
  intros [Hp Hf Hz]. pose proof (page_alloc_refines (pm m) Hp) as Hr.
  simpl in Hr. destruct (pmm_page_alloc (pm m)) as [page p] eqn:Ha. destruct Hr as [Hp' Hst].
  destruct page as [j|].
  2: { unfold pmm_page_alloc in Ha. destruct (free_pages (pm m)); [|done]. injection Ha as <-. by left. }
  simpl in Hst |- *. assert (is_Some (pages p !! j)) as [pg Hpg].
  { unfold pmm_page_alloc in Ha. destruct (free_pages (pm m)) as [|q rest] eqn:Hq; [done|]. injection Ha as <- <-. simpl.
    destruct (free_live (pm m) q Hp) as (pg & Hpg & _); [rewrite Hq; left|].
    apply live_lookup in Hpg as [_ Hpg]. rewrite list_lookup_alter_eq, Hpg. eauto. }
  rewrite Hpg in *. apply step_alloc_inv in Hst as [Hfree Heq2]. right. split; [done|].
  split; [intros H0; apply Hz; by rewrite <- H0|]. split; [by eapply Hf|]. split; [done|]. split; [done|].
  constructor; simpl; [done|..]; rewrite Heq2.
  - intros a st [[<- _]|[_ Hl]]%lookup_insert_Some; eauto.
  - rewrite lookup_insert_ne; [done|]. intros H0. apply Hz. by rewrite <- H0.
Qed.

Lemma alloc_table_ok m : mach_wf m ->
  let '(c, m') := alloc_table m in
  c = 0 /\ m' = m \/
  c <> 0 /\ is_frame c /\ frames (pm m) !! c = Some Free /\
    frames (pm m') = <[c := Used 1]> (frames (pm m)) /\ mach_wf m' /\
    (forall i, 0 <= i < 512 -> rd (slot_addr c i) m' = 0) /\
    (forall a, (forall i, 0 <= i < 512 -> a <> slot_addr c i) -> rd a m' = rd a m).
Proof.
  intros Hm. pose proof (page_alloc_ok m Hm) as Ha. unfold alloc_table.
  destruct (pmm_page_alloc (pm m)) as [page p]. set (f := pmm_page_addr page p) in *.
  destruct Ha as [(_ & -> & ->)|(_ & Hn0 & Hfr & Hfree & Heq & [Hp' Hf Hz])]; [left; by destruct m|].
  decide_tests. right. unfold zero_page. split; [done|]. split; [done|]. split; [done|].
  split; [by rewrite fill_pm|]. split; [constructor; by rewrite fill_pm|]. split.
  - intros i Hi. rewrite fill_rd; [done|exact Hi].
  - intros a Ha'. rewrite fill_frame by (intros i Hi; apply Ha'; exact Hi). done.
Qed.

Section Ensure.
Context (G : gmap Z (Z * Z)) (cr3 : Z) (m : mach) (Hwf : space_wf G cr3 m) (Hm : mach_wf m).

(** The state after a table was allocated and entered. *)
Lemma install_table_ok t l b i c g v m1 :
  G !! t = Some (l, b) -> 2 <= l -> 0 <= i < 512 ->
  present (rd (slot_addr t i) m) = false \/ large_bit (rd (slot_addr t i) m) = true ->
  frames (pm m) !! c = Some Free -> is_frame c -> c <> 0 ->
  frames (pm m1) = <[c := Used 1]> (frames (pm m)) -> mach_wf m1 ->
  (forall j, 0 <= j < 512 -> rd (slot_addr c j) m1 = g j) ->
  (forall a, (forall j, 0 <= j < 512 -> a <> slot_addr c j) -> rd a m1 = rd a m) ->
  (3 <= l -> forall j, 0 <= j < 512 -> present (g j) = false) ->
  (forall j, 0 <= j < 512 -> present (g j) = true -> user_bit (g j) = false) ->
  present v = true /\ large_bit v = false /\ writable_bit v = true /\ next_frame v = c ->
  (user_bit v = true -> user_above G m l b) ->
  (forall j, 0 <= j < 512 -> present (rd (slot_addr t i) m) = true -> large_bit (rd (slot_addr t i) m) = true ->
     l = 2 /\ g j = large_pte (rd (slot_addr t i) m) j /\ present (g j) = true) ->
  (present (rd (slot_addr t i) m) = false -> forall j, 0 <= j < 512 -> present (g j) = false) ->
  let m' := wr (slot_addr t i) v m1 in
  let G' := <[c := (l - 1, 512 * b + i)]> G in
  space_wf G' cr3 m' /\ grows G m G' m' /\ (forall va, pte_of cr3 va m' = pte_of cr3 va m) /\
  rd (slot_addr t i) m' = v /\
  (forall t' x j, G !! t' = Some x -> 0 <= j < 512 -> (t', j) <> (t, i) ->
     rd (slot_addr t' j) m' = rd (slot_addr t' j) m).
Proof.
  intros Ht Hl Hi Hold Hfree Hcf Hc0 Hfr Hm1 Hg Hk Hempty Hgu Hv Hu Hlarge Hnone m' G'.
  assert (G !! c = None) as Hc.
  { destruct (G !! c) eqn:HG; [|done]. apply (sw_used _ _ _ Hwf) in HG as [HG _]. congruence. }
  assert (forall t' x, G !! t' = Some x -> is_frame t') as Hisf by (intros t' x Hx; by eapply (sw_used _ _ _ Hwf)).
  assert (forall t' x j j', G !! t' = Some x -> 0 <= j < 512 -> 0 <= j' < 512 -> slot_addr t' j <> slot_addr c j') as Hdis.
  { intros t' x j j' Hx Hj Hj' Heq. apply slot_inj in Heq as [-> _]; eauto. congruence. }
  assert (rd (slot_addr t i) m' = v) as Hrv by apply rd_wr_eq.
  assert (forall t' x j, G !! t' = Some x -> 0 <= j < 512 -> (t', j) <> (t, i) ->
     rd (slot_addr t' j) m' = rd (slot_addr t' j) m) as Hsame.
  { intros t' x j Hx Hj Hne. unfold m'. rewrite rd_wr_ne.
    - apply Hk. intros j' Hj'. by eapply Hdis.
    - intros Heq. apply slot_inj in Heq as [-> ->]; eauto. }
  assert (forall j, 0 <= j < 512 -> rd (slot_addr c j) m' = g j) as Hg'.
  { intros j Hj. unfold m'. rewrite rd_wr_ne by (by eapply Hdis). auto. }
  assert (forall t' x, G' !! t' = Some x -> frames (pm m') !! t' = Some (Used 1)) as Hpm.
  { intros t' x. change (pm m') with (pm m1). rewrite Hfr.
    intros [[<- _]|[Hne Hx]]%lookup_insert_Some; [apply lookup_insert_eq|].
    rewrite lookup_insert_ne by done. by eapply (sw_used _ _ _ Hwf). }
  split; [|split; [|split; [|split; [done|exact Hsame]]]].
  - eapply (attach_wf G cr3 m m' Hwf t l b i c g); try done; by rewrite Hrv.
  - constructor.
    + intros t' x Hx. unfold G'. rewrite lookup_insert_ne; [done|]. intros ->. congruence.
    + intros t' x [[<- _]|[_ Hx]]%lookup_insert_Some Hn; [done|congruence].
    + intros a Ha. change (pm m') with (pm m1). rewrite Hfr, lookup_insert_ne; [done|]. intros <-.
      destruct Ha as [Ha|[y Ha]]; [|congruence]. unfold G' in Ha. by rewrite lookup_insert_eq in Ha.
    + intros a Ha. unfold m'. rewrite rd_wr_ne.
      * apply Hk. intros j Hj. apply (Ha c (l - 1, 512 * b + i)); [apply lookup_insert_eq|done].
      * apply not_eq_sym. eapply (Ha t); [|done]. unfold G'. rewrite lookup_insert_ne; [done|]. intros ->. congruence.
    + destruct Hm1. by constructor.
  - intros va. eapply (attach_pte G cr3 m m' Hwf t l b i c g); try done; by rewrite Hrv.
Qed.

Lemma table_flags_bits user :
  present (table_flags true user) = true /\ large_bit (table_flags true user) = false /\
  writable_bit (table_flags true user) = true /\ user_bit (table_flags true user) = user /\
  Z.land (table_flags true user) PTE_ADDR_MASK = 0.
Proof. by destruct user. Qed.

(** What a step of [arch_vm_map_page] achieves. *)
Definition step_result (l b : Z) (user : bool) (rc c : Z) (G' : gmap Z (Z * Z)) (m' : mach) : Prop :=
  space_wf G' cr3 m' /\ grows G m G' m' /\ (forall va, pte_of cr3 va m' = pte_of cr3 va m) /\
  (rc = -1 \/
   rc = 0 /\ G' !! c = Some (l, b) /\ (user = true -> user_above G' m' l b)).

Lemma user_above_child G' m' t l b i : G' !! t = Some (l, b) -> 0 <= i < 512 ->
  user_bit (rd (slot_addr t i) m') = true -> user_above G' m' (l - 1) (512 * b + i).
Proof.
  intros Ht Hi Hu. right. exists t.
  replace ((512 * b + i) / 512) with b by (apply Z.div_unique with i; lia).
  replace ((512 * b + i) mod 512) with i by (apply Z.mod_unique with b; lia).
  replace (l - 1 + 1) with l by lia. done.
Qed.

Lemma ensure_table_ok t l b i user : G !! t = Some (l, b) -> 2 <= l -> 0 <= i < 512 ->
  (user = true -> user_above G m l b) ->
  exists rc c m' G', ensure_table t i true user m = (rc, c, m') /\
    step_result (l - 1) (512 * b + i) user rc c G' m'.
Proof.
  intros Ht Hl Hi Hu. unfold ensure_table. rewrite land_P, land_L.
  destruct (table_flags_bits user) as (FP & FL & FW & FU & FM).
  destruct (present (rd (slot_addr t i) m)) eqn:P; simpl negb.
  - destruct (large_bit (rd (slot_addr t i) m)) eqn:L; simpl negb.
    { exists (-1), 0, m, G. split; [done|]. split; [done|]. split; [by apply grows_refl|]. split; [done|by left]. }
    set (e := rd (slot_addr t i) m) in *. set (v := Z.lor e (table_flags true user)).
    destruct (sw_entry _ _ _ Hwf t l b i Ht Hl Hi) as [?|[(_ & _ & ? & _)|(_ & _ & We & Hn)]]; [unfold e in *; congruence..|].
    assert (user_bit v = user_bit e || user) as Uv by (unfold v, user_bit; rewrite Z.lor_spec; by destruct user).
    assert (same_child e v) as Hsc.
    { constructor; [split; [done|]|split; [done|]|..]; unfold v, present, large_bit, writable_bit, next_frame in *.
      - rewrite Z.lor_spec, P. done.
      - rewrite Z.lor_spec, L, FL. done.
      - rewrite Z.lor_spec, FW. apply orb_true_r.
      - rewrite Z.land_lor_distr_l, FM. apply Z.lor_0_r.
      - unfold user_bit in Uv |- *. unfold v in Uv. rewrite Uv. by intros [-> _]%orb_false_iff. }
    assert (space_wf G cr3 (wr (slot_addr t i) v m)) as Hwf'.
    { apply (flags_write_wf G cr3 m Hwf t l b i v Ht Hi Hl Hsc). rewrite Uv.
      intros [Ue|Hus]%orb_true_iff; [by left|right; auto]. }
    rewrite rd_wr_eq. eexists 0, _, _, G. split; [done|]. split; [done|]. split; [by apply (grows_write G m _ _ t (l, b) i)|].
    split; [intros va; by apply (flags_write_pte G cr3 m Hwf t l b i v Ht Hi)|]. right. split; [done|].
    split; [change (Z.land v PTE_ADDR_MASK) with (next_frame v); by rewrite (sc_next _ _ Hsc)|].
    intros ->. apply (user_above_child G _ t); [done|done|]. rewrite rd_wr_eq, Uv. apply orb_true_r.
  - pose proof (alloc_table_ok m Hm) as Ha. destruct (alloc_table m) as [c m1].
    destruct Ha as [[-> ->]|(Hc0 & Hcf & Hfree & Hfr & Hm1 & Hz & Hk)].
    { exists (-1), 0, m, G. split; [done|]. split; [done|]. split; [by apply grows_refl|]. split; [done|by left]. }
    decide_tests. set (v := Z.lor c (table_flags true user)).
    assert (present v = true /\ large_bit v = false /\ writable_bit v = true /\ next_frame v = c) as Hv.
    { unfold v, present, large_bit, writable_bit in *. rewrite !lor_low_bit by (done || lia).
      split; [done|]. split; [done|]. split; [done|]. by apply next_frame_lor. }
    assert (user_bit v = user) as Uv by (unfold v, user_bit; by rewrite lor_low_bit by (done || lia)).
    destruct (install_table_ok t l b i c (fun _ => 0) v m1) as (Hwf' & Hgr & Hpte & Hrv & _); try done; auto.
    { by rewrite Uv. }
    { intros j _ P'. congruence. }
    eexists 0, c, _, _. split; [done|]. split; [exact Hwf'|]. split; [exact Hgr|]. split; [exact Hpte|].
    right. split; [done|]. split; [apply lookup_insert_eq|]. intros ->.
    apply (user_above_child _ _ t); [by apply Hgr|done|]. by rewrite Hrv.
Qed.

Lemma kept_bits e : large_ok e ->
  present (kept_flags e) = true /\ large_bit (kept_flags e) = false /\
  writable_bit (kept_flags e) = true /\ user_bit (kept_flags e) = false /\
  Z.land (kept_flags e) PTE_ADDR_MASK = 0.
Proof.
  intros (W & U & _). unfold kept_flags, present, large_bit, writable_bit, user_bit in *.
  rewrite !Z.lor_spec, !Z.land_spec, W, U.
  split; [by rewrite orb_true_r|]. split; [by rewrite !andb_false_r|]. split; [done|]. split; [done|].
  apply Z.bits_inj'. intros j Hj. rewrite Z.bits_0, Z.land_spec, mask_bits, Z.lor_spec, !Z.land_spec.
  destruct (Z.leb_spec 12 j); [|by rewrite andb_false_r].
  assert (Z.testbit 4095 j = false) as -> by (apply Z.bits_above_log2; [lia|change (Z.log2 4095) with 11; lia]).
  assert (Z.testbit PTE_PRESENT j = false) as -> by (apply Z.bits_above_log2; [done|change (Z.log2 PTE_PRESENT) with 0; lia]).
  by rewrite andb_false_r.
Qed.

Lemma large_pte_bits e j : large_ok e -> 0 <= j < 512 ->
  present (large_pte e j) = true /\ user_bit (large_pte e j) = false /\
  writable_bit (large_pte e j) = true /\ next_frame (large_pte e j) = large_base e + j * PAGE_SIZE.
Proof.
  intros Hok Hj. destruct (kept_bits e Hok) as (P & _ & W & U & M). destruct Hok as (_ & _ & H0 & Hb & Hmod).
  unfold large_pte. unfold PAGE_SIZE, LARGE_PAGE_SIZE in *.
  assert (u64 (large_base e + u64 (j * 4096)) = large_base e + j * 4096) as ->.
  { rewrite (u64_small (j * 4096)) by (unfold in_u64; lia). apply u64_small. unfold in_u64. lia. }
  assert (is_frame (large_base e + j * 4096)) as Hf.
  { split; [lia|]. rewrite Z_mod_plus by lia. done. }
  unfold present, user_bit, writable_bit in *. rewrite !lor_low_bit by (done || lia).
  split; [done|]. split; [done|]. split; [done|]. by apply next_frame_lor.
Qed.

Lemma split_ok t b i : G !! t = Some (2, b) -> 0 <= i < 512 ->
  exists rc m' G', split_large_page t i m = (rc, m') /\ space_wf G' cr3 m' /\ grows G m G' m' /\
    (forall va, pte_of cr3 va m' = pte_of cr3 va m) /\ (rc = -1 \/ rc = 0) /\
    G' !! t = Some (2, b) /\ (user_above G m 2 b -> user_above G' m' 2 b).
Proof.
  intros Ht Hi. unfold split_large_page. rewrite land_P, land_L. set (e := rd (slot_addr t i) m).
  destruct (present e) eqn:P, (large_bit e) eqn:L; simpl orb; cbv iota;
    try (eexists 0, m, G; split; [done|]; split; [done|]; split; [by apply grows_refl|]; split; [done|by auto]).
  destruct (sw_entry _ _ _ Hwf t 2 b i Ht ltac:(lia) Hi) as [?|[(_ & _ & _ & Hok)|(_ & ? & _)]];
    [fold e in H; congruence| |fold e in H; congruence]. fold e in Hok.
  pose proof (alloc_table_ok m Hm) as Ha. destruct (alloc_table m) as [c m1].
  destruct Ha as [[-> ->]|(Hc0 & Hcf & Hfree & Hfr & Hm1 & Hz & Hk)].
  { eexists (-1), m, G. split; [done|]. split; [done|]. split; [by apply grows_refl|]. split; [done|by auto]. }
  decide_tests. fold (kept_flags e). set (m2 := fill c PAGE_ENTRIES _ m1). set (v := Z.lor c (kept_flags e)).
  destruct (kept_bits e Hok) as (KP & KL & KW & KU & KM).
  assert (present v = true /\ large_bit v = false /\ writable_bit v = true /\ next_frame v = c) as Hv.
  { unfold v, present, large_bit, writable_bit in *. rewrite !lor_low_bit by (done || lia).
    split; [done|]. split; [done|]. split; [done|]. by apply next_frame_lor. }
  destruct (install_table_ok t 2 b i c (large_pte e) v m2) as (Hwf' & Hgr & Hpte & Hrv & Hsame);
    [exact Ht|lia|exact Hi|by right|exact Hfree|exact Hcf|exact Hc0|..|lia| |exact Hv| | | |].
  - unfold m2. by rewrite fill_pm.
  - destruct Hm1. constructor; unfold m2; by rewrite fill_pm.
  - intros j Hj. unfold m2. rewrite fill_rd by exact Hj. reflexivity.
  - intros a Hna. unfold m2. rewrite fill_frame by (intros j Hj; apply Hna; exact Hj). by apply Hk.
  - intros j Hj _. by apply (large_pte_bits e j Hok).
  - unfold v, user_bit in *. rewrite lor_low_bit by (done || lia). congruence.
  - intros j Hj _ _. split; [done|]. split; [done|]. by apply (large_pte_bits e j Hok).
  - fold e. congruence.
  - eexists 0, _, _. split; [done|]. split; [exact Hwf'|]. split; [exact Hgr|]. split; [exact Hpte|].
    split; [by right|]. split; [by apply Hgr|]. intros [?|(p & Hp & Up)]; [done|]. right. exists p.
    split; [by apply Hgr|]. rewrite (Hsame p _ _ Hp); [done|by apply Z.mod_pos_bound|].
    intros [= -> _]. rewrite Ht in Hp. discriminate.
Qed.
End Ensure.

Lemma ensure_next G cr3 m t va l user : space_wf G cr3 m -> mach_wf m -> G !! t = Some (l, pfx l va) -> 2 <= l ->
  (user = true -> user_above G m l (pfx l va)) ->
  exists rc c m' G', ensure_table t (idx l va) true user m = (rc, c, m') /\
    space_wf G' cr3 m' /\ mach_wf m' /\ grows G m G' m' /\ (forall va, pte_of cr3 va m' = pte_of cr3 va m) /\
    (rc = -1 \/ rc = 0 /\ G' !! c = Some (l - 1, pfx (l - 1) va) /\
       (user = true -> user_above G' m' (l - 1) (pfx (l - 1) va))).
Proof.
  intros Hwf Hm Ht Hl Hu. pose proof (sw_level _ _ _ Hwf _ _ _ Ht).
  destruct (ensure_table_ok G cr3 m Hwf Hm t l _ (idx l va) user Ht Hl (idx_range l va) Hu)
    as (rc & c & m' & G' & -> & Hwf' & Hgr & Hpte & Hrc).
  exists rc, c, m', G'. rewrite pfx_step by lia. split; [done|]. split; [done|]. split; [apply Hgr|done].
Qed.

Section Map.
Context (nx : bool).

Lemma page_flags_bits w u x :
  present (page_flags nx w u x) = true /\ writable_bit (page_flags nx w u x) = w /\
  user_bit (page_flags nx w u x) = u /\ noexec_bit (page_flags nx w u x) = nx && negb x /\
  Z.land (page_flags nx w u x) PTE_ADDR_MASK = 0.
Proof. by destruct nx, w, u, x. Qed.

(** *** Mapping a page *)
Lemma map_page_ok G cr3 m va phys w u x : space_wf G cr3 m -> mach_wf m -> is_frame phys ->
  exists rc m' G', arch_vm_map_page nx cr3 va phys w u x m = (rc, m') /\ space_wf G' cr3 m' /\
    grows G m G' m' /\
    (rc = -1 /\ (forall va', pte_of cr3 va' m' = pte_of cr3 va' m) \/
     rc = 0 /\ page_offset va = 0 /\ forall va', pte_of cr3 va' m' =
       if decide (pfx 0 va' = pfx 0 va) then Z.lor phys (page_flags nx w u x) else pte_of cr3 va' m).
Proof.
  intros Hwf Hm Hph. unfold arch_vm_map_page.
  assert (exists m' G', m = m' /\ space_wf G' cr3 m' /\ grows G m G' m' /\
    (forall va', pte_of cr3 va' m' = pte_of cr3 va' m)) as Hsame.
  { exists m, G. split; [done|]. split; [done|]. split; [by apply grows_refl|done]. }
  destruct (negb (page_offset va =? 0) || _) eqn:Hal.
  { exists (-1), m, G. split; [done|]. split; [done|]. split; [by apply grows_refl|by left]. }
  apply orb_false_iff in Hal as [Hal _]. apply negb_false_iff, Z.eqb_eq in Hal.
  use_indices va.
  destruct (ensure_next G cr3 m cr3 va 4 u Hwf Hm) as (rc1 & t3 & m1 & G1 & -> & Hwf1 & Hm1 & Hg1 & Hp1 & Hr1);
    [rewrite pfx_4; apply Hwf|lia|by left|].
  destruct Hr1 as [->|(-> & Ht3 & Hu3)]; simpl negb; cbv iota.
  { exists (-1), m1, G1. split; [done|]. split; [done|]. split; [done|by left]. }
  destruct (ensure_next G1 cr3 m1 t3 va 3 u Hwf1 Hm1 Ht3) as (rc2 & t2 & m2 & G2 & -> & Hwf2 & Hm2 & Hg2 & Hp2 & Hr2); [lia|done|].
  pose proof (grows_trans _ _ _ _ _ _ Hg1 Hg2) as Hg12.
  destruct Hr2 as [->|(-> & Ht2 & Hu2)]; simpl negb; cbv iota.
  { exists (-1), m2, G2. split; [done|]. split; [done|]. split; [done|left]. split; [done|]. intros va'. by rewrite Hp2. }
  destruct (split_ok G2 cr3 m2 Hwf2 Hm2 t2 _ (idx 2 va) Ht2 (idx_range 2 va))
    as (rc3 & m3 & G3 & -> & Hwf3 & Hg3 & Hp3 & Hr3 & Ht2' & Hu3').
  pose proof (grows_trans _ _ _ _ _ _ Hg12 Hg3) as Hg13.
  destruct Hr3 as [Hr3|Hr3]; subst rc3; simpl negb; cbv iota.
  { exists (-1), m3, G3. split; [done|]. split; [done|]. split; [done|left]. split; [done|]. intros va'. by rewrite Hp3, Hp2. }
  change (3 - 1) with 2 in *.
  destruct (ensure_next G3 cr3 m3 t2 va 2 u Hwf3 (gr_wf _ _ _ _ Hg3) Ht2') as (rc4 & t1 & m4 & G4 & -> & Hwf4 & Hm4 & Hg4 & Hp4 & Hr4); [lia|auto|].
  pose proof (grows_trans _ _ _ _ _ _ Hg13 Hg4) as Hg14.
  destruct Hr4 as [->|(-> & Ht1 & Hu1)]; simpl negb; cbv iota.
  { exists (-1), m4, G4. split; [done|]. split; [done|]. split; [done|left]. split; [done|]. intros va'. by rewrite Hp4, Hp3, Hp2. }
  change (2 - 1) with 1 in *. set (v := Z.lor phys (page_flags nx w u x)).
  destruct (page_flags_bits w u x) as (FP & _ & FU & _).
  assert (present v = true) as Pv by (unfold v, present in *; by rewrite lor_low_bit by (done || lia)).
  assert (user_bit v = u) as Uv by (unfold v, user_bit in *; by rewrite lor_low_bit by (done || lia)).
  assert (space_wf G4 cr3 (wr (slot_addr t1 (idx 1 va)) v m4)) as Hwf5.
  { apply (leaf_write_wf G4 cr3 m4 Hwf4 t1 1 _ _ v Ht1 (idx_range 1 va) eq_refl). rewrite Uv. auto. }
  eexists 0, _, G4. split; [done|]. split; [exact Hwf5|]. split.
  { eapply grows_trans; [exact Hg14|]. by apply (grows_write G4 m4 _ _ t1 (1, pfx 1 va) (idx 1 va) Hm4 Ht1 (idx_range 1 va)). }
  right. split; [done|]. split; [done|]. intros va'.
  rewrite (leaf_write_pte G4 cr3 m4 Hwf4 t1 1 _ _ v Ht1 (idx_range 1 va) va' eq_refl Hwf5), Pv.
  pose proof (pfx_step 1 va ltac:(lia)) as Hs. change (1 - 1) with 0 in Hs. rewrite <- Hs.
  destruct (decide _); [done|]. by rewrite Hp4, Hp3, Hp2.
Qed.
End Map.

(** *** Walking to a page-sized entry *)

Section Lookup.
Context (G : gmap Z (Z * Z)) (cr3 : Z) (m : mach) (Hwf : space_wf G cr3 m).

Lemma skip_entry_bits e : skip_entry e = negb (present e) || large_bit e.
Proof. unfold skip_entry. rewrite land_P, land_L. by destruct (large_bit e). Qed.

Lemma no_user_bits e : no_user_table e = negb (present e && user_bit e) || large_bit e.
Proof. unfold no_user_table. rewrite land_present_user, land_L. by destruct (large_bit e). Qed.

(** The entries on the way to a page table, top down. *)
Lemma chain_to va t : G !! t = Some (1, pfx 1 va) ->
  exists t3 t2, G !! t3 = Some (3, pfx 3 va) /\ G !! t2 = Some (2, pfx 2 va) /\
    next_frame (rd (slot_addr cr3 (idx 4 va)) m) = t3 /\
    next_frame (rd (slot_addr t3 (idx 3 va)) m) = t2 /\
    next_frame (rd (slot_addr t2 (idx 2 va)) m) = t /\
    (present (rd (slot_addr cr3 (idx 4 va)) m) = true /\ large_bit (rd (slot_addr cr3 (idx 4 va)) m) = false) /\
    (present (rd (slot_addr t3 (idx 3 va)) m) = true /\ large_bit (rd (slot_addr t3 (idx 3 va)) m) = false) /\
    (present (rd (slot_addr t2 (idx 2 va)) m) = true /\ large_bit (rd (slot_addr t2 (idx 2 va)) m) = false).
Proof.
  intros Ht. destruct (step_up _ _ _ Hwf t 1 va Ht ltac:(lia)) as (t2 & Ht2 & P2 & L2 & N2).
  destruct (step_up _ _ _ Hwf t2 2 va Ht2 ltac:(lia)) as (t3 & Ht3 & P3 & L3 & N3).
  destruct (step_up _ _ _ Hwf t3 3 va Ht3 ltac:(lia)) as (t4 & Ht4 & P4 & L4 & N4).
  apply (top_table _ _ _ Hwf) in Ht4. subst t4. by exists t3, t2.
Qed.

Lemma walk_found va t : G !! t = Some (1, pfx 1 va) ->
  walk_to_pt no_table cr3 va m = Some (slot_addr t (idx 1 va)).
Proof.
  intros Ht. destruct (chain_to va t Ht) as (t3 & t2 & _ & _ & N4 & N3 & N2 & [P4 L4] & [P3 L3] & [P2 L2]).
  unfold walk_to_pt, no_table. use_indices va. fold (next_frame (rd (slot_addr cr3 (idx 4 va)) m)).
  rewrite !skip_entry_bits, P4, L4, N4. simpl. fold (next_frame (rd (slot_addr t3 (idx 3 va)) m)).
  rewrite P3, L3, N3. simpl. rewrite P2, L2. simpl. fold (next_frame (rd (slot_addr t2 (idx 2 va)) m)). by rewrite N2.
Qed.

(** Any walk that arrives, arrives at the entry of the address. *)
Lemma walk_some stop va a : (forall e, stop e = false -> present e = true /\ large_bit e = false) ->
  walk_to_pt stop cr3 va m = Some a ->
  exists t, G !! t = Some (1, pfx 1 va) /\ a = slot_addr t (idx 1 va).
Proof.
  intros Hstop. unfold walk_to_pt. use_indices va.
  assert (G !! cr3 = Some (4, pfx 4 va)) as H4 by (rewrite pfx_4; apply Hwf).
  destruct (stop _) eqn:S4; [done|]. apply Hstop in S4 as [P4 L4].
  pose proof (step_down _ _ _ Hwf cr3 4 va H4 ltac:(lia) P4 L4) as H3. unfold next_frame in H3.
  destruct (stop _) eqn:S3; [done|]. apply Hstop in S3 as [P3 L3].
  pose proof (step_down _ _ _ Hwf _ 3 va H3 ltac:(lia) P3 L3) as H2. unfold next_frame in H2.
  destruct (stop _) eqn:S2; [done|]. apply Hstop in S2 as [P2 L2].
  pose proof (step_down _ _ _ Hwf _ 2 va H2 ltac:(lia) P2 L2) as H1. unfold next_frame in H1.
  intros [= <-]. eauto.
Qed.

(** A user page has user tables above it. *)
Lemma user_chain va t : G !! t = Some (1, pfx 1 va) ->
  present (rd (slot_addr t (idx 1 va)) m) = true -> user_bit (rd (slot_addr t (idx 1 va)) m) = true ->
  forall t3 t2, G !! t3 = Some (3, pfx 3 va) -> G !! t2 = Some (2, pfx 2 va) ->
  next_frame (rd (slot_addr cr3 (idx 4 va)) m) = t3 -> next_frame (rd (slot_addr t3 (idx 3 va)) m) = t2 ->
  next_frame (rd (slot_addr t2 (idx 2 va)) m) = t ->
  user_bit (rd (slot_addr cr3 (idx 4 va)) m) = true /\ user_bit (rd (slot_addr t3 (idx 3 va)) m) = true /\
  user_bit (rd (slot_addr t2 (idx 2 va)) m) = true.
Proof.
  intros Ht P1 U1 t3 t2 Ht3 Ht2 N4 N3 N2.
  destruct (chain_to va t Ht) as (t3' & t2' & _ & _ & N4' & N3' & _ & [P4 L4] & [P3 L3] & [P2 L2]).
  rewrite N4 in N4'. subst t3'. rewrite N3 in N3'. subst t2'.
  assert (user_bit (rd (slot_addr t2 (idx 2 va)) m) = true) as U2.
  { destruct (user_bit (rd (slot_addr t2 _) m)) eqn:U; [done|]. rewrite <- U1, <- N2. symmetry.
    apply (sw_user _ _ _ Hwf t2 2 _ (idx 2 va) (idx 1 va) Ht2); rewrite ?N2; (done || lia || apply idx_range). }
  assert (user_bit (rd (slot_addr t3 (idx 3 va)) m) = true) as U3.
  { destruct (user_bit (rd (slot_addr t3 _) m)) eqn:U; [done|]. rewrite <- U2, <- N3. symmetry.
    apply (sw_user _ _ _ Hwf t3 3 _ (idx 3 va) (idx 2 va) Ht3); rewrite ?N3; (done || lia || apply idx_range). }
  split; [|done]. destruct (user_bit (rd (slot_addr cr3 _) m)) eqn:U; [done|]. rewrite <- U3, <- N4. symmetry.
  apply (sw_user _ _ _ Hwf cr3 4 0 (idx 4 va) (idx 3 va) (sw_root _ _ _ Hwf)); rewrite ?N4; (done || lia || apply idx_range).
Qed.

Lemma user_walk_found va t : G !! t = Some (1, pfx 1 va) ->
  present (rd (slot_addr t (idx 1 va)) m) = true -> user_bit (rd (slot_addr t (idx 1 va)) m) = true ->
  walk_to_pt no_user_table cr3 va m = Some (slot_addr t (idx 1 va)).
Proof.
  intros Ht P1 U1. destruct (chain_to va t Ht) as (t3 & t2 & Ht3 & Ht2 & N4 & N3 & N2 & [P4 L4] & [P3 L3] & [P2 L2]).
  destruct (user_chain va t Ht P1 U1 t3 t2 Ht3 Ht2 N4 N3 N2) as (U4 & U3 & U2).
  unfold walk_to_pt. use_indices va. fold (next_frame (rd (slot_addr cr3 (idx 4 va)) m)).
  rewrite !no_user_bits, P4, L4, U4, N4. simpl. fold (next_frame (rd (slot_addr t3 (idx 3 va)) m)).
  rewrite P3, L3, U3, N3. simpl. rewrite P2, L2, U2. simpl. fold (next_frame (rd (slot_addr t2 (idx 2 va)) m)). by rewrite N2.
Qed.
End Lookup.

(** *** Translation *)

Lemma next_frame_ok e : is_frame (next_frame e).
Proof.
  unfold next_frame. replace (Z.land e PTE_ADDR_MASK) with (Z.shiftl (Z.land (Z.shiftr e 12) (Z.ones 40)) 12).
  - rewrite Z.land_ones, Z.shiftl_mul_pow2 by lia. pose proof (Z.mod_pos_bound (Z.shiftr e 12) (2 ^ 40) ltac:(lia)).
    split; [lia|]. change 4096 with (2 ^ 12). apply Z.mod_mul. lia.
  - apply Z.bits_inj'. intros i Hi. rewrite Z.shiftl_spec, !Z.land_spec, mask_bits by done.
    destruct (Z.leb_spec 12 i); [|by rewrite (Z.testbit_neg_r _ (i - 12)), andb_false_r by lia].
    rewrite Z.shiftr_spec, Z.testbit_ones by lia. replace (i - 12 + 12) with i by lia. f_equal.
    destruct (Z.leb_spec 0 (i - 12)), (Z.ltb_spec (i - 12) 40), (Z.ltb_spec i 52); simpl; lia.
Qed.

Lemma page_offset_mod va : page_offset va = va mod 4096.
Proof. unfold page_offset. change (PAGE_SIZE - 1) with (Z.ones 12). by apply Z.land_ones. Qed.

Lemma page_offset_range va : 0 <= page_offset va < 4096.
Proof. rewrite page_offset_mod. by apply Z.mod_pos_bound. Qed.

Lemma large_offset va : Z.land va (LARGE_PAGE_SIZE - 1) = idx 1 va * PAGE_SIZE + page_offset va.
Proof.
  rewrite page_offset_mod. unfold idx. change (LARGE_PAGE_SIZE - 1) with (Z.ones 21). change 511 with (Z.ones 9).
  rewrite !Z.land_ones, Z.shiftr_div_pow2 by lia. change (2 ^ 21) with (4096 * 512). change (2 ^ (3 + 9 * 1)) with 4096.
  rewrite Z.rem_mul_r by lia. change (2 ^ 9) with 512. unfold PAGE_SIZE. lia.
Qed.

Lemma frame_offset e va : next_frame e +w page_offset va = next_frame e + page_offset va.
Proof.
  destruct (next_frame_ok e) as [? _]. pose proof (page_offset_range va). apply u64_small. unfold in_u64. lia.
Qed.

Definition allowed (write : bool) (e : Z) : bool := present e && (negb write || writable_bit e).

Lemma denied_bits w e : denied w e = negb (allowed w e).
Proof. unfold denied, allowed. rewrite land_P, land_W. by destruct (present e), w, (writable_bit e). Qed.

Lemma user_denied_bits w e : user_denied w e = negb (allowed w e && user_bit e).
Proof.
  unfold user_denied, allowed. rewrite land_present_user, land_W. fold (present e) (user_bit e).
  by destruct (present e), (user_bit e), w, (writable_bit e).
Qed.

Section Translate.
Context (G : gmap Z (Z * Z)) (cr3 : Z) (m : mach) (Hwf : space_wf G cr3 m).

(** The entries above the last level do not restrict writing. *)
Lemma upper_allowed t l va w : G !! t = Some (l, pfx l va) -> 2 <= l ->
  allowed w (rd (slot_addr t (idx l va)) m) = present (rd (slot_addr t (idx l va)) m).
Proof.
  intros Ht Hl. unfold allowed.
  destruct (sw_entry _ _ _ Hwf t l _ (idx l va) Ht Hl (idx_range l va)) as [->|[(_ & -> & _ & -> & _)|(-> & _ & -> & _)]];
    [done|..]; by rewrite orb_true_r.
Qed.

Lemma translate_ok va w : arch_vm_translate cr3 va w m =
  let e := pte_of cr3 va m in if allowed w e then next_frame e + page_offset va else 0.
Proof.
  assert (G !! cr3 = Some (4, pfx 4 va)) as H4 by (rewrite pfx_4; apply Hwf).
  unfold arch_vm_translate, pte_of. use_indices va. cbv zeta.
  fold (next_frame (rd (slot_addr cr3 (idx 4 va)) m)). set (e4 := rd (slot_addr cr3 (idx 4 va)) m).
  set (e3 := rd (slot_addr (next_frame e4) (idx 3 va)) m). fold (next_frame e3).
  set (e2 := rd (slot_addr (next_frame e3) (idx 2 va)) m). fold (next_frame e2).
  set (e1 := rd (slot_addr (next_frame e2) (idx 1 va)) m). fold (next_frame e1).
  rewrite !denied_bits. unfold e4 at 1. rewrite (upper_allowed cr3 4 va w H4) by lia. fold e4.
  destruct (present e4) eqn:P4; simpl; [|done].
  pose proof (step_down _ _ _ Hwf cr3 4 va H4 ltac:(lia) P4 (upper_small _ _ _ Hwf _ _ _ H4 ltac:(lia) P4)) as H3.
  unfold e3 at 1. rewrite (upper_allowed (next_frame e4) 3 va w H3) by lia. fold e3.
  destruct (present e3) eqn:P3; simpl; [|done].
  pose proof (step_down _ _ _ Hwf _ 3 va H3 ltac:(lia) P3 (upper_small _ _ _ Hwf _ _ _ H3 ltac:(lia) P3)) as H2.
  unfold e2 at 1. rewrite (upper_allowed (next_frame e3) 2 va w H2) by lia. fold e2.
  destruct (present e2) eqn:P2; simpl; [|done]. rewrite land_L. fold (large_bit e2). destruct (large_bit e2) eqn:L2; simpl.
  - destruct (sw_entry _ _ _ Hwf _ 2 _ (idx 2 va) H2 ltac:(lia) (idx_range 2 va)) as [Hn|[(_ & _ & _ & Hok)|(_ & Hn & _)]];
      [change (present e2 = false) in Hn; congruence| |change (large_bit e2 = false) in Hn; congruence].
    change (large_ok e2) in Hok. destruct (large_pte_bits e2 (idx 1 va) Hok (idx_range 1 va)) as (P & _ & W & N).
    unfold allowed. rewrite P, W, N, orb_true_r, large_offset. simpl. fold (large_base e2).
    destruct Hok as (_ & _ & H0 & Hb & _). pose proof (page_offset_range va). pose proof (idx_range 1 va).
    unfold LARGE_PAGE_SIZE, PAGE_SIZE in *. rewrite u64_small by (unfold in_u64; lia). lia.
  - destruct (present e1) eqn:P1; [|by unfold allowed; rewrite P1].
    destruct (allowed w e1); simpl; [apply frame_offset|done].
Qed.

Lemma translate_user_ok va w : arch_vm_translate_user cr3 va w m =
  let e := pte_of cr3 va m in if allowed w e && user_bit e then next_frame e + page_offset va else 0.
Proof.
  assert (G !! cr3 = Some (4, pfx 4 va)) as H4 by (rewrite pfx_4; apply Hwf).
  destruct (allowed w (pte_of cr3 va m) && user_bit (pte_of cr3 va m)) eqn:HA; cbv zeta; rewrite ?HA.
  - apply andb_true_iff in HA as [HA HU].
    assert (present (pte_of cr3 va m) = true) as HP by (unfold allowed in HA; by destruct (present _)).
    destruct (pte_cases _ _ _ Hwf va) as [(t & Ht)|[(t & Ht & P & L)|(H0 & _)]]; [| |by rewrite H0 in HP].
    2: { rewrite (pte_of_large _ _ _ Hwf t va Ht P L) in HU.
         destruct (sw_entry _ _ _ Hwf t 2 _ (idx 2 va) Ht ltac:(lia) (idx_range 2 va)) as [Hn|[(_ & _ & _ & Hok)|(_ & Hn & _)]];
           [congruence| |congruence].
         destruct (large_pte_bits _ (idx 1 va) Hok (idx_range 1 va)) as (_ & U & _). congruence. }
    rewrite (pte_page _ _ _ Hwf t va Ht) in *. cbv zeta in *.
    destruct (present (rd (slot_addr t (idx 1 va)) m)) eqn:P1; [|done].
    destruct (chain_to _ _ _ Hwf va t Ht) as (t3 & t2 & Ht3 & Ht2 & N4 & N3 & N2 & [P4 L4] & [P3 L3] & [P2 L2]).
    destruct (user_chain _ _ _ Hwf va t Ht P1 HU t3 t2 Ht3 Ht2 N4 N3 N2) as (U4 & U3 & U2).
    unfold arch_vm_translate_user. use_indices va. rewrite !user_denied_bits, !land_L.
    rewrite (upper_allowed cr3 4 va w H4), P4, U4 by lia. fold (next_frame (rd (slot_addr cr3 (idx 4 va)) m)). rewrite N4.
    rewrite (upper_allowed t3 3 va w Ht3), P3, U3 by lia. fold (next_frame (rd (slot_addr t3 (idx 3 va)) m)). rewrite N3.
    rewrite (upper_allowed t2 2 va w Ht2), P2, U2, L2 by lia. fold (next_frame (rd (slot_addr t2 (idx 2 va)) m)). rewrite N2.
    rewrite HA, HU. simpl. apply frame_offset.
  - unfold pte_of in HA. unfold arch_vm_translate_user. use_indices va. rewrite !user_denied_bits, !land_L.
    fold (next_frame (rd (slot_addr cr3 (idx 4 va)) m)) in *. set (e4 := rd (slot_addr cr3 (idx 4 va)) m) in *.
    set (e3 := rd (slot_addr (next_frame e4) (idx 3 va)) m) in *. fold (next_frame e3) in *.
    set (e2 := rd (slot_addr (next_frame e3) (idx 2 va)) m) in *. fold (next_frame e2) in *.
    set (e1 := rd (slot_addr (next_frame e2) (idx 1 va)) m) in *. fold (next_frame e1) in *. cbv zeta in *.
    destruct (allowed w e4 && user_bit e4) eqn:A4; [|done]. simpl. unfold allowed in A4. destruct (present e4) eqn:P4; [|done]. simpl in HA.
    destruct (allowed w e3 && user_bit e3) eqn:A3; [|done]. simpl. unfold allowed in A3. destruct (present e3) eqn:P3; [|done]. simpl in HA.
    destruct (allowed w e2 && user_bit e2) eqn:A2; [|done]. simpl. unfold allowed in A2. destruct (present e2) eqn:P2; [|done]. simpl in HA.
    destruct (large_bit e2); [done|]. simpl. destruct (present e1) eqn:P1; [by rewrite HA|].
    unfold allowed. by rewrite P1.
Qed.
End Translate.

(** *** Changing one page *)

Section Change.
Context (nx : bool).
Context (G : gmap Z (Z * Z)) (cr3 : Z) (m : mach) (Hwf : space_wf G cr3 m) (Hm : mach_wf m).

Lemma set_protection_bits w x e :
  present (set_protection nx w x e) = present e /\ user_bit (set_protection nx w x e) = user_bit e /\
  writable_bit (set_protection nx w x e) = w /\
  noexec_bit (set_protection nx w x e) = (if nx then negb x else noexec_bit e) /\
  next_frame (set_protection nx w x e) = next_frame e.
Proof.
  assert (forall i, 0 <= i < 64 -> Z.testbit (set_protection nx w x e) i =
    if i =? 1 then w else if (i =? 63) && nx then negb x else Z.testbit e i) as Hbit.
  { intros i Hi. unfold set_protection, PTE_WRITABLE, PTE_NO_EXEC. rewrite !Z.shiftl_1_l.
    destruct nx, w, x; rewrite ?Z.lor_spec, ?Z.land_spec, ?Z.lor_spec, ?Z.land_spec, ?not64_bit,
      ?Z.pow2_bits_eqb by lia;
    rewrite ?(Z.eqb_sym 1 i), ?(Z.eqb_sym 63 i);
    destruct (Z.eqb_spec i 1), (Z.eqb_spec i 63); subst; simpl; rewrite ?andb_true_r, ?orb_false_r, ?orb_true_r, ?andb_false_r; (done || lia). }
  unfold present, user_bit, writable_bit, noexec_bit. rewrite !Hbit by lia. simpl.
  split; [done|]. split; [done|]. split; [done|]. split; [by destruct nx|].
  unfold next_frame. apply Z.bits_inj'. intros i Hi. rewrite !Z.land_spec, mask_bits.
  destruct (Z.leb_spec 12 i); [|by rewrite !andb_false_r]. destruct (Z.ltb_spec i 52); [|by rewrite !andb_false_r].
  rewrite Hbit by lia. destruct (Z.eqb_spec i 1); [lia|]. destruct (Z.eqb_spec i 63); [lia|done].
Qed.

(** A user page is mapped by a page table. *)
Lemma user_page_table va : present (pte_of cr3 va m) = true -> user_bit (pte_of cr3 va m) = true ->
  exists t, G !! t = Some (1, pfx 1 va) /\ rd (slot_addr t (idx 1 va)) m = pte_of cr3 va m.
Proof.
  intros HP HU. destruct (pte_cases _ _ _ Hwf va) as [(t & Ht)|[(t & Ht & P & L)|(H0 & _)]]; [| |by rewrite H0 in HP].
  - exists t. split; [done|]. rewrite (pte_page _ _ _ Hwf t va Ht) in *. cbv zeta in *.
    by destruct (present (rd (slot_addr t (idx 1 va)) m)).
  - rewrite (pte_of_large _ _ _ Hwf t va Ht P L) in HU.
    destruct (sw_entry _ _ _ Hwf t 2 _ (idx 2 va) Ht ltac:(lia) (idx_range 2 va)) as [Hn|[(_ & _ & _ & Hok)|(_ & Hn & _)]];
      [congruence| |congruence].
    destruct (large_pte_bits _ (idx 1 va) Hok (idx_range 1 va)) as (_ & U & _). congruence.
Qed.

(** Replacing the entry of a page that keeps its user bit, or loses the page. *)
Lemma change_page va t v : G !! t = Some (1, pfx 1 va) ->
  (present v = true -> user_bit v = true -> user_bit (rd (slot_addr t (idx 1 va)) m) = true /\
     present (rd (slot_addr t (idx 1 va)) m) = true) ->
  space_wf G cr3 (wr (slot_addr t (idx 1 va)) v m) /\ grows G m G (wr (slot_addr t (idx 1 va)) v m) /\
  forall va', pte_of cr3 va' (wr (slot_addr t (idx 1 va)) v m) =
    if decide (pfx 0 va' = pfx 0 va) then (if present v then v else 0) else pte_of cr3 va' m.
Proof.
  intros Ht Hu. assert (space_wf G cr3 (wr (slot_addr t (idx 1 va)) v m)) as Hwf'.
  { apply (leaf_write_wf G cr3 m Hwf t 1 _ _ v Ht (idx_range 1 va) eq_refl). intros Pv Uv.
    destruct (Hu Pv Uv) as [U1 P1].
    destruct (chain_to _ _ _ Hwf va t Ht) as (t3 & t2 & Ht3 & Ht2 & N4 & N3 & N2 & _).
    destruct (user_chain _ _ _ Hwf va t Ht P1 U1 t3 t2 Ht3 Ht2 N4 N3 N2) as (_ & _ & U2).
    right. exists t2. change (1 + 1) with 2. pose proof (pfx_step 2 va ltac:(lia)) as Hs. change (2 - 1) with 1 in Hs.
    pose proof (idx_range 2 va). replace (pfx 1 va / 512) with (pfx 2 va) by (apply Z.div_unique with (idx 2 va); lia).
    replace (pfx 1 va mod 512) with (idx 2 va) by (apply Z.mod_unique with (pfx 2 va); lia). done. }
  split; [done|]. split; [by apply (grows_write G m _ _ t (1, pfx 1 va) (idx 1 va) Hm Ht (idx_range 1 va))|].
  intros va'. rewrite (leaf_write_pte G cr3 m Hwf t 1 _ _ v Ht (idx_range 1 va) va' eq_refl Hwf').
  pose proof (pfx_step 1 va ltac:(lia)) as Hs. change (1 - 1) with 0 in Hs. by rewrite <- Hs.
Qed.

(** The test for a user page of the operations on user pages. *)
Definition user_page (va : Z) : bool :=
  (page_offset va =? 0) && present (pte_of cr3 va m) && user_bit (pte_of cr3 va m).

(** The walk of the operations on user pages. *)
Lemma user_walk va :
  if user_page va then
    page_offset va = 0 /\ exists t, G !! t = Some (1, pfx 1 va) /\
      walk_to_pt no_user_table cr3 va m = Some (slot_addr t (idx 1 va)) /\
      walk_to_pt no_table cr3 va m = Some (slot_addr t (idx 1 va)) /\
      rd (slot_addr t (idx 1 va)) m = pte_of cr3 va m /\
      present (pte_of cr3 va m) = true /\ user_bit (pte_of cr3 va m) = true
  else page_offset va <> 0 \/ walk_to_pt no_user_table cr3 va m = None \/
    exists a, walk_to_pt no_user_table cr3 va m = Some a /\ (Z.land (rd a m) PRESENT_USER =? PRESENT_USER) = false.
Proof.
  destruct (user_page va) eqn:Hu; unfold user_page in Hu.
  - apply andb_true_iff in Hu as [[Hal HP]%andb_true_iff HU]. apply Z.eqb_eq in Hal. split; [done|].
    destruct (user_page_table va HP HU) as (t & Ht & He). exists t. split; [done|].
    split; [apply (user_walk_found _ _ _ Hwf va t Ht); by rewrite He|].
    split; [by apply (walk_found _ _ _ Hwf)|done].
  - destruct (Z.eqb_spec (page_offset va) 0) as [Hal|]; [right|by left].
    destruct (walk_to_pt no_user_table cr3 va m) as [a|] eqn:Hw; [right|by left]. exists a. split; [done|].
    rewrite land_present_user. apply (walk_some _ _ _ Hwf) in Hw as (t & Ht & ->).
    2: { intros e. rewrite no_user_bits. by destruct (present e), (user_bit e), (large_bit e). }
    rewrite (pte_page _ _ _ Hwf t va Ht) in Hu. cbv zeta in Hu. simpl in Hu. unfold present, user_bit in *.
    destruct (Z.testbit (rd _ m) 0) eqn:P; [|done]. by rewrite P in Hu.
Qed.

Lemma unmap_user_ok va :
  exists r m', arch_vm_unmap_user_page cr3 va m = (r, m') /\ space_wf G cr3 m' /\ grows G m G m' /\
    if user_page va then r = next_frame (pte_of cr3 va m) /\ forall va', pte_of cr3 va' m' =
        if decide (pfx 0 va' = pfx 0 va) then 0 else pte_of cr3 va' m
    else r = 0 /\ m' = m.
Proof.
  pose proof (user_walk va) as Hw. unfold arch_vm_unmap_user_page. destruct (user_page va).
  - destruct Hw as (-> & t & Ht & -> & _ & He & HP & HU). simpl. rewrite He, land_present_user.
    unfold present, user_bit in HP, HU. rewrite HP, HU. simpl.
    destruct (change_page va t 0 Ht) as (Hwf' & Hgr & Hpte); [done|]. eexists _, _. split; [done|]. split; [done|].
    split; [done|]. split; [done|exact Hpte].
  - exists 0, m. split; [|split; [done|split; [by apply grows_refl|done]]].
    destruct Hw as [Hal|[->|(a & -> & ->)]]; [apply Z.eqb_neq in Hal; by rewrite Hal|..]; simpl; by destruct (negb _).
Qed.

Lemma protect_user_ok va w x :
  exists r m', arch_vm_protect_user_page nx cr3 va w x m = (r, m') /\ space_wf G cr3 m' /\ grows G m G m' /\
    if user_page va then r = 0 /\ forall va', pte_of cr3 va' m' =
        if decide (pfx 0 va' = pfx 0 va) then set_protection nx w x (pte_of cr3 va m) else pte_of cr3 va' m
    else r = -1 /\ m' = m.
Proof.
  pose proof (user_walk va) as Hw. unfold arch_vm_protect_user_page. destruct (user_page va).
  - destruct Hw as (-> & t & Ht & -> & _ & He & HP & HU). simpl. rewrite He, land_present_user.
    pose proof HP as HP'. pose proof HU as HU'. unfold present, user_bit in HP', HU'. rewrite HP', HU'. simpl.
    set (v := set_protection nx w x (pte_of cr3 va m)).
    destruct (set_protection_bits w x (pte_of cr3 va m)) as (VP & _). fold v in VP. rewrite HP in VP.
    destruct (change_page va t v Ht) as (Hwf' & Hgr & Hpte); [by rewrite He|]. eexists _, _. split; [done|]. split; [done|].
    split; [done|]. split; [done|]. rewrite VP in Hpte. exact Hpte.
  - exists (-1), m. split; [|split; [done|split; [by apply grows_refl|done]]].
    destruct Hw as [Hal|[->|(a & -> & ->)]]; [apply Z.eqb_neq in Hal; by rewrite Hal|..]; simpl; by destruct (negb _).
Qed.

(** On a user page the general operations do what the user ones do. *)
Lemma unmap_page_user va : user_page va = true ->
  arch_vm_unmap_page cr3 va m = arch_vm_unmap_user_page cr3 va m.
Proof.
  intros Hu. pose proof (user_walk va) as Hw. rewrite Hu in Hw.
  destruct Hw as (Hal & t & Ht & HW & HW' & He & HP & HU). unfold arch_vm_unmap_page, arch_vm_unmap_user_page.
  rewrite Hal, HW, HW', He, land_P, land_present_user. unfold present, user_bit in *. by rewrite HP, HU.
Qed.

Lemma protect_page_user va w x : user_page va = true ->
  arch_vm_protect_page nx cr3 va w x m = arch_vm_protect_user_page nx cr3 va w x m.
Proof.
  intros Hu. pose proof (user_walk va) as Hw. rewrite Hu in Hw.
  destruct Hw as (Hal & t & Ht & HW & HW' & He & HP & HU). unfold arch_vm_protect_page, arch_vm_protect_user_page.
  rewrite Hal, HW, HW', He, land_P, land_present_user. unfold present, user_bit in *. by rewrite HP, HU.
Qed.
End Change.

(** *** A new space *)

Definition identity_entry (i : Z) : Z :=
  Z.lor (Z.lor (Z.lor (i *w LARGE_PAGE_SIZE) PTE_PRESENT) PTE_WRITABLE) PTE_LARGE.

Lemma identity_entries : forallb (fun i => let e := identity_entry (Z.of_nat i) in
  present e && large_bit e && writable_bit e && negb (user_bit e) &&
  (large_base e =? Z.of_nat i * LARGE_PAGE_SIZE)) (seq 0 512) = true.
Proof. vm_compute. reflexivity. Qed.

Lemma identity_entry_ok i : 0 <= i < 512 ->
  present (identity_entry i) = true /\ large_bit (identity_entry i) = true /\ large_ok (identity_entry i) /\
  large_base (identity_entry i) = i * LARGE_PAGE_SIZE.
Proof.
  intros Hi. pose proof identity_entries as H. rewrite forallb_forall in H.
  specialize (H (Z.to_nat i)). rewrite in_seq, Z2Nat.id in H by lia. specialize (H ltac:(lia)). cbv zeta in H.
  repeat (apply andb_true_iff in H as [H ?]). apply Z.eqb_eq in H0. apply negb_true_iff in H1.
  split; [done|]. split; [done|]. split; [|done]. unfold large_ok. rewrite H0. unfold LARGE_PAGE_SIZE.
  split; [done|]. split; [done|]. split; [lia|]. split; [lia|]. replace (i * 2097152) with (i * 512 * 4096) by lia.
  apply Z.mod_mul. lia.
Qed.

Section NewSpace.
Context (c4 c3 c2 : Z) (m : mach).
Context (Hd : c4 <> c3 /\ c4 <> c2 /\ c3 <> c2).
Context (Hu : Forall (fun c => frames (pm m) !! c = Some (Used 1) /\ is_frame c /\ c <> 0) [c4; c3; c2]).
Context (H4 : forall i, 0 <= i < 512 ->
  rd (slot_addr c4 i) m = if i =? 0 then Z.lor (Z.lor c3 PTE_PRESENT) PTE_WRITABLE else 0).
Context (H3 : forall i, 0 <= i < 512 ->
  rd (slot_addr c3 i) m = if i =? 0 then Z.lor (Z.lor c2 PTE_PRESENT) PTE_WRITABLE else 0).
Context (H2 : forall i, 0 <= i < 512 -> rd (slot_addr c2 i) m = identity_entry i).

Definition new_tables : gmap Z (Z * Z) := <[c2 := (2, 0)]> (<[c3 := (3, 0)]> (<[c4 := (4, 0)]> ∅)).

Lemma new_table t x : new_tables !! t = Some x ->
  t = c4 /\ x = (4, 0) \/ t = c3 /\ x = (3, 0) \/ t = c2 /\ x = (2, 0).
Proof.
  unfold new_tables.
  intros [[<- <-]|[_ [[<- <-]|[_ [[<- <-]|[_ ?]]%lookup_insert_Some]]%lookup_insert_Some]]%lookup_insert_Some; auto.
  by rewrite lookup_empty in *.
Qed.

Lemma new_tables_at : new_tables !! c4 = Some (4, 0) /\ new_tables !! c3 = Some (3, 0) /\ new_tables !! c2 = Some (2, 0).
Proof.
  destruct Hd as (? & ? & ?). unfold new_tables. split; [|split].
  - rewrite !lookup_insert_ne, lookup_insert_eq by done. done.
  - rewrite lookup_insert_ne, lookup_insert_eq by done. done.
  - apply lookup_insert_eq.
Qed.

Lemma pointer_entry c : is_frame c -> let e := Z.lor (Z.lor c PTE_PRESENT) PTE_WRITABLE in
  present e = true /\ large_bit e = false /\ writable_bit e = true /\ user_bit e = false /\ next_frame e = c.
Proof.
  intros Hc e. unfold e. rewrite <- Z.lor_assoc. unfold present, large_bit, writable_bit, user_bit.
  rewrite !(lor_low_bit c) by (done || lia). repeat (split; [done|]). by apply next_frame_lor.
Qed.

Lemma new_space_wf : space_wf new_tables c4 m.
Proof.
  destruct new_tables_at as (N4 & N3 & N2).
  pose proof Hu as [U4 [U3 [U2 _]%Forall_cons]%Forall_cons]%Forall_cons.
  destruct (pointer_entry c3 ltac:(apply U3)) as (P3 & L3 & W3 & UU3 & F3).
  destruct (pointer_entry c2 ltac:(apply U2)) as (P2 & L2 & W2 & UU2 & F2). cbv zeta in *.
  constructor.
  - done.
  - intros t t' x [[-> ->]|[[-> ->]|[-> ->]]]%new_table [[-> Hx]|[[-> Hx]|[-> Hx]]]%new_table; done.
  - intros t l b [[_ [= -> ->]]|[[_ [= -> ->]]|[_ [= -> ->]]]]%new_table; lia.
  - intros t b [[_ Hx]|[[_ Hx]|[_ Hx]]]%new_table; by injection Hx.
  - intros t x [[-> ->]|[[-> ->]|[-> ->]]]%new_table; done.
  - intros t l b i [[-> [= -> ->]]|[[-> [= -> ->]]|[-> [= -> ->]]]]%new_table Hl Hi.
    + rewrite H4 by done. destruct (Z.eqb_spec i 0) as [->|]; [right; right; rewrite F3; auto|by left].
    + rewrite H3 by done. destruct (Z.eqb_spec i 0) as [->|]; [right; right; rewrite F2; auto|by left].
    + rewrite H2 by done. right; left. split; [done|]. by destruct (identity_entry_ok i Hi) as (? & ? & ? & _).
  - intros t l b [[-> [= -> ->]]|[[-> [= -> ->]]|[-> [= -> ->]]]]%new_table Hl; [lia|..].
    + exists c4. change (0 / 512) with 0. change (0 mod 512) with 0. rewrite H4 by lia. simpl. by rewrite P3, L3, F3.
    + exists c3. change (0 / 512) with 0. change (0 mod 512) with 0. rewrite H3 by lia. simpl. by rewrite P2, L2, F2.
  - intros t l b i j [[-> [= -> ->]]|[[-> [= -> ->]]|[-> [= -> ->]]]]%new_table Hl Hi Hj e e'; unfold e', e; clear e e'.
    + rewrite H4 by done. destruct (Z.eqb_spec i 0); [|done]. rewrite F3, H3 by done. intros _ _ _.
      by destruct (Z.eqb_spec j 0).
    + rewrite H3 by done. destruct (Z.eqb_spec i 0); [|done]. rewrite F2, H2 by done. intros _ _ _ _.
      destruct (identity_entry_ok j Hj) as (_ & _ & (_ & ? & _) & _). done.
    + rewrite H2 by done. destruct (identity_entry_ok i Hi) as (_ & HL & _). congruence.
Qed.

(** A new space maps the first GiB to itself, for the kernel only. *)
Lemma new_space_pte va : let e := pte_of c4 va m in
  if decide (pfx 2 va = 0) then present e = true /\ writable_bit e = true /\ user_bit e = false /\
    next_frame e = pfx 0 va * PAGE_SIZE
  else e = 0.
Proof.
  pose proof new_space_wf as Hwf. destruct new_tables_at as (N4 & N3 & N2). simpl.
  destruct (decide (pfx 2 va = 0)) as [Hp|Hp].
  - rewrite <- Hp in N2. destruct (identity_entry_ok (idx 2 va) (idx_range 2 va)) as (P & L & Hok & Hb).
    rewrite <- H2 in P, L by apply idx_range.
    rewrite (pte_of_large _ _ _ Hwf c2 va N2 P L), H2 by apply idx_range.
    destruct (large_pte_bits _ (idx 1 va) Hok (idx_range 1 va)) as (-> & -> & -> & ->).
    repeat (split; [done|]). rewrite Hb. change (pfx 0 va) with (pfx (1 - 1) va). rewrite pfx_step by lia.
    change (pfx 1 va) with (pfx (2 - 1) va). rewrite pfx_step by lia. unfold LARGE_PAGE_SIZE, PAGE_SIZE. lia.
  - destruct (pte_cases _ _ _ Hwf va) as [(t & Ht)|[(t & Ht & _)|(H0 & _)]]; [..|done]; exfalso;
      apply new_table in Ht as [[_ Ht]|[[_ Ht]|[_ Ht]]]; (done || injection Ht; done).
Qed.
End NewSpace.

(** Allocating a table. *)
Lemma alloc_table_grows G m x : mach_wf m -> (forall t y, G !! t = Some y -> frames (pm m) !! t = Some (Used 1)) ->
  let '(c, m') := alloc_table m in
  c = 0 /\ m' = m \/
  c <> 0 /\ is_frame c /\ frames (pm m) !! c = Some Free /\ frames (pm m') = <[c := Used 1]> (frames (pm m)) /\
    (forall i, 0 <= i < 512 -> rd (slot_addr c i) m' = 0) /\
    (forall a, (forall i, 0 <= i < 512 -> a <> slot_addr c i) -> rd a m' = rd a m) /\
    G !! c = None /\ grows G m (<[c := x]> G) m'.
Proof.
  intros Hm Hused. pose proof (alloc_table_ok m Hm) as Ha. destruct (alloc_table m) as [c m'].
  destruct Ha as [Ha|(Hc0 & Hcf & Hfree & Hfr & Hm' & Hz & Hk)]; [by left|right].
  assert (G !! c = None) as Hn.
  { destruct (G !! c) eqn:HG; [|done]. apply Hused in HG. congruence. }
  repeat (split; [done|]). constructor; [..|done].
  - intros t y Hy. rewrite lookup_insert_ne; [done|]. intros ->. congruence.
  - intros t y [[<- _]|[_ Hy]]%lookup_insert_Some Hn'; [done|congruence].
  - intros a Ha. rewrite Hfr, lookup_insert_ne; [done|]. intros <-.
    destruct Ha as [Ha|[y Ha]]; [by rewrite lookup_insert_eq in Ha|congruence].
  - intros a Ha. apply Hk. intros i Hi. apply (Ha c x); [apply lookup_insert_eq|done].
Qed.

(** What a new space maps. *)
Definition identity_pte (va e : Z) : Prop :=
  if decide (pfx 2 va = 0)
  then present e = true /\ writable_bit e = true /\ user_bit e = false /\ next_frame e = pfx 0 va * PAGE_SIZE
  else e = 0.

Lemma used_grows G m G' m' : grows G m G' m' ->
  (forall t y, G !! t = Some y -> frames (pm m) !! t = Some (Used 1)) ->
  forall t y, G !! t = Some y -> frames (pm m') !! t = Some (Used 1).
Proof. intros Hg H t y Hy. rewrite (gr_frames _ _ _ _ Hg) by eauto. eauto. Qed.

(** Writing the entries of the three tables of a new space. *)
Lemma new_space_tables c4 c3 c2 m : Forall is_frame [c4; c3; c2] -> c4 <> c3 /\ c4 <> c2 /\ c3 <> c2 ->
  (forall c i, c ∈ [c4; c3; c2] -> 0 <= i < 512 -> rd (slot_addr c i) m = 0) ->
  let m' := fill c2 PAGE_ENTRIES identity_entry
    (wr (slot_addr c3 0) (Z.lor (Z.lor c2 PTE_PRESENT) PTE_WRITABLE)
      (wr (slot_addr c4 0) (Z.lor (Z.lor c3 PTE_PRESENT) PTE_WRITABLE) m)) in
  (forall i, 0 <= i < 512 -> rd (slot_addr c4 i) m' = if i =? 0 then Z.lor (Z.lor c3 PTE_PRESENT) PTE_WRITABLE else 0) /\
  (forall i, 0 <= i < 512 -> rd (slot_addr c3 i) m' = if i =? 0 then Z.lor (Z.lor c2 PTE_PRESENT) PTE_WRITABLE else 0) /\
  (forall i, 0 <= i < 512 -> rd (slot_addr c2 i) m' = identity_entry i) /\
  (forall a, (forall c i, c ∈ [c4; c3; c2] -> 0 <= i < 512 -> a <> slot_addr c i) -> rd a m' = rd a m).
Proof.
  intros [F4 [F3 [F2 _]%Forall_cons]%Forall_cons]%Forall_cons (D43 & D42 & D32) Hz m'.
  assert (forall c i i', is_frame c -> 0 <= i < 512 -> 0 <= i' < 512 -> i <> i' -> slot_addr c i <> slot_addr c i') as Hdis'.
  { intros c i i' Hc Hi Hi' Hne Heq. by apply slot_inj in Heq as [_ ?]. }
  unfold m'. split; [|split; [|split]].
  - intros i Hi. rewrite fill_frame by (intros j Hj; by apply slot_ne).
    rewrite rd_wr_ne by (apply slot_ne; (done || lia)). destruct (Z.eqb_spec i 0) as [->|]; [by rewrite rd_wr_eq|].
    rewrite rd_wr_ne by (apply Hdis'; (done || lia)). apply Hz; [left|done].
  - intros i Hi. rewrite fill_frame by (intros j Hj; by apply slot_ne).
    destruct (Z.eqb_spec i 0) as [->|]; [by rewrite rd_wr_eq|].
    rewrite rd_wr_ne by (apply Hdis'; (done || lia)). rewrite rd_wr_ne by (apply slot_ne; (done || lia)).
    apply Hz; [right; left|done].
  - intros i Hi. by apply fill_rd.
  - intros a Ha. rewrite fill_frame by (intros j Hj; apply Ha; [do 2 right; left|exact Hj]).
    rewrite !rd_wr_ne; [done|..]; apply not_eq_sym, Ha; (lia || set_solver).
Qed.

(** The three allocations of a new space. *)
Lemma three_tables m : mach_wf m ->
  let '(c4, m1) := alloc_table m in let '(c3, m2) := alloc_table m1 in let '(c2, m3) := alloc_table m2 in
  ((c4 =? 0) || (c3 =? 0) || (c2 =? 0) = true /\ exists G, grows ∅ m G m3 /\ (size G < 3)%nat) \/
  ((c4 =? 0) || (c3 =? 0) || (c2 =? 0) = false /\ grows ∅ m (new_tables c4 c3 c2) m3 /\
   (c4 <> c3 /\ c4 <> c2 /\ c3 <> c2) /\ size (new_tables c4 c3 c2) = 3%nat /\
   Forall (fun c => frames (pm m3) !! c = Some (Used 1) /\ is_frame c /\ c <> 0) [c4; c3; c2] /\
   forall c i, c ∈ [c4; c3; c2] -> 0 <= i < 512 -> rd (slot_addr c i) m3 = 0).
Proof.
  intros Hm. assert (forall t y, (∅ : gmap Z (Z * Z)) !! t = Some y -> frames (pm m) !! t = Some (Used 1)) as U0
    by (intros t y; by rewrite lookup_empty).
  pose proof (alloc_table_grows ∅ m (4, 0) Hm U0) as Ha. destruct (alloc_table m) as [c4 m1] eqn:E1.
  destruct Ha as [[-> ->]|(N4 & F4 & Fr4 & Fm1 & Z4 & K4 & _ & Hg1)].
  { rewrite E1. cbv iota beta. rewrite E1. left. split; [done|]. exists ∅. split; [by apply grows_refl|].
    rewrite map_size_empty. lia. }
  assert (forall t y, <[c4 := (4, 0)]> (∅ : gmap Z (Z * Z)) !! t = Some y -> frames (pm m1) !! t = Some (Used 1)) as U1.
  { intros t y [[<- _]|[_ ?]]%lookup_insert_Some; [|by rewrite lookup_empty in *]. rewrite Fm1. apply lookup_insert_eq. }
  pose proof (alloc_table_grows _ m1 (3, 0) (gr_wf _ _ _ _ Hg1) U1) as Ha. destruct (alloc_table m1) as [c3 m2] eqn:E2.
  destruct Ha as [[-> ->]|(N3 & F3 & Fr3 & Fm2 & Z3 & K3 & H3 & Hg2)].
  { rewrite E2. left. split; [by rewrite orb_true_r|]. exists (<[c4 := (4, 0)]> ∅). split; [done|].
    rewrite map_size_insert_None, map_size_empty by apply lookup_empty. lia. }
  assert (forall t y, <[c3 := (3, 0)]> (<[c4 := (4, 0)]> (∅ : gmap Z (Z * Z))) !! t = Some y -> frames (pm m2) !! t = Some (Used 1)) as U2.
  { intros t y [[<- _]|[_ Hy]]%lookup_insert_Some; [rewrite Fm2; apply lookup_insert_eq|]. by apply (used_grows _ _ _ _ Hg2 U1 _ _ Hy). }
  pose proof (alloc_table_grows _ m2 (2, 0) (gr_wf _ _ _ _ Hg2) U2) as Ha. destruct (alloc_table m2) as [c2 m3] eqn:E3.
  pose proof (grows_trans _ _ _ _ _ _ Hg1 Hg2) as Hg12.
  destruct Ha as [[-> ->]|(N2 & F2 & Fr2 & Fm3 & Z2 & K2 & H2 & Hg3)].
  { left. split; [by rewrite !orb_true_r|]. exists (<[c3 := (3, 0)]> (<[c4 := (4, 0)]> ∅)). split; [done|].
    rewrite map_size_insert_None, map_size_insert_None, map_size_empty by (apply lookup_empty || done). lia. }
  pose proof (grows_trans _ _ _ _ _ _ Hg12 Hg3) as Hg13. right. decide_tests. split; [done|]. split; [done|].
  assert (c4 <> c3 /\ c4 <> c2 /\ c3 <> c2) as Hd.
  { apply lookup_insert_None in H3 as [_ H3]. apply lookup_insert_None in H2 as [[_ H2]%lookup_insert_None ?]. done. }
  pose proof Hd as (D43 & D42 & D32). split; [done|]. split; [|split].
  - unfold new_tables. rewrite !map_size_insert_None, map_size_empty by (done || apply lookup_empty). done.
  - assert (frames (pm m3) !! c4 = Some (Used 1)) as X4.
    { apply (used_grows _ _ _ _ Hg3 U2 c4 (4, 0)). by rewrite lookup_insert_ne, lookup_insert_eq by done. }
    assert (frames (pm m3) !! c3 = Some (Used 1)) as X3 by (by apply (used_grows _ _ _ _ Hg3 U2 c3 (3, 0)); rewrite lookup_insert_eq).
    assert (frames (pm m3) !! c2 = Some (Used 1)) as X2 by (rewrite Fm3; apply lookup_insert_eq).
    do 3 (apply Forall_cons_2; [done|]). done.
  - intros c i [->|[->|[->|?%elem_of_nil]%elem_of_cons]%elem_of_cons]%elem_of_cons Hi; [| |by apply Z2|done].
    + rewrite K2, K3 by (intros j Hj; by apply slot_ne). auto.
    + rewrite K2 by (intros j Hj; by apply slot_ne). auto.
Qed.

(** The result of [arch_vm_space_init]. *)
Lemma space_init_ok m : mach_wf m ->
  exists r m' G, arch_vm_space_init m = (r, m') /\ grows ∅ m G m' /\
    match r with
    | None => (size G < 3)%nat
    | Some cr3 => space_wf G cr3 m' /\ size G = 3%nat /\ forall va, identity_pte va (pte_of cr3 va m')
    end.
Proof.
  intros Hm. unfold arch_vm_space_init. pose proof (three_tables m Hm) as H3.
  destruct (alloc_table m) as [c4 m1]. destruct (alloc_table m1) as [c3 m2]. destruct (alloc_table m2) as [c2 m3].
  destruct H3 as [(-> & G & Hg & Hs)|(-> & Hg & Hd & Hs & HU & Hz)]; [by exists None, m3, G|].
  destruct (new_space_tables c4 c3 c2 m3) as (R4 & R3 & R2 & Rk); [|done|done|].
  { eapply Forall_impl; [exact HU|]. by intros c (_ & ? & _). }
  fold identity_entry in *. set (m4 := fill c2 PAGE_ENTRIES identity_entry _) in *.
  assert (pm m4 = pm m3) as Hpm by (unfold m4; by rewrite fill_pm). rewrite <- Hpm in HU.
  exists (Some c4), m4, (new_tables c4 c3 c2). split; [done|]. split; [|split; [|split]]; [|by apply new_space_wf|done|].
  - destruct Hg as [G1 G2 G3 G4 [W1 W2 W3]]. constructor; [done|done| | |].
    + intros a Ha. rewrite Hpm. by apply G3.
    + intros a Ha. rewrite Rk; [by apply G4|]. intros c i Hc Hi. destruct (new_tables_at c4 c3 c2 Hd) as (T4 & T3 & T2).
      apply elem_of_cons in Hc as [->|[->|[->|?%elem_of_nil]%elem_of_cons]%elem_of_cons]; [by eapply Ha..|done].
    + constructor; by rewrite Hpm.
  - intros va. by apply (new_space_pte c4 c3 c2 m4 Hd HU R4 R3 R2 va).
Qed.

(** *** Destroying a space *)

(** [m'] is [m] after freeing the frames of [S]. *)
Record freed (S : gset Z) (m m' : mach) : Prop := {
  fd_mem : mem m' = mem m;
  fd_wf : mach_wf m';
  fd_frames a : frames (pm m') !! a = if decide (a ∈ S) then Some Free else frames (pm m) !! a;
}.

Definition all_used (S : gset Z) (m : mach) : Prop := forall a, a ∈ S -> frames (pm m) !! a = Some (Used 1).

Lemma freed_empty m : mach_wf m -> freed ∅ m m.
Proof. intros Hm. by constructor. Qed.

Lemma freed_union S1 S2 m m1 m2 : freed S1 m m1 -> freed S2 m1 m2 -> freed (S1 ∪ S2) m m2.
Proof.
  intros [M1 _ F1] [M2 W2 F2]. constructor; [congruence|done|]. intros a. rewrite F2, F1.
  destruct (decide (a ∈ S2)), (decide (a ∈ S1)), (decide (a ∈ S1 ∪ S2)); set_solver.
Qed.

Lemma all_used_after S1 S2 m m1 : freed S1 m m1 -> all_used S2 m -> S1 ## S2 -> all_used S2 m1.
Proof. intros [_ _ F] HU Hd a Ha. rewrite F, decide_False by set_solver. auto. Qed.

Lemma free_frame_ok a m : mach_wf m -> frames (pm m) !! a = Some (Used 1) -> a <> 0 ->
  freed {[a]} m (free_frame a m).
Proof.
  intros [W1 W2 W3] Ha H0. destruct (free_addr_refines a (pm m) W1) as [W' Hf].
  assert (frames (pm (free_frame a m)) = <[a := Free]> (frames (pm m))) as Hfr.
  { simpl. rewrite Hf. unfold release_frame. by rewrite Ha. }
  constructor; [done|constructor; [done|..]|]; rewrite ?Hfr.
  - intros b st [[<- _]|[_ Hb]]%lookup_insert_Some; eauto.
  - rewrite lookup_insert_ne; done.
  - intros b. destruct (decide (b ∈ {[a]})) as [->%elem_of_singleton|Hb].
    + apply lookup_insert_eq.
    + apply lookup_insert_ne. set_solver.
Qed.

Section Destroy.
Context (G : gmap Z (Z * Z)) (cr3 : Z) (m0 : mach) (Hwf : space_wf G cr3 m0).

(** The tables below level [l] for the entries numbered [lo .. hi - 1] of that
    level. *)
Definition below (l lo hi : Z) (x : Z * Z) : Prop := x.1 < l /\ lo <= x.2 / 512 ^ (l - 1 - x.1) < hi.
Definition tables_below (l lo hi : Z) : gset Z := dom (filter (fun p => below l lo hi p.2) G).

Lemma elem_tables_below l lo hi t :
  t ∈ tables_below l lo hi <-> exists x, G !! t = Some x /\ below l lo hi x.
Proof.
  unfold tables_below. rewrite elem_of_dom. unfold is_Some. setoid_rewrite map_lookup_filter_Some. done.
Qed.

Lemma tables_below_used l lo hi : all_used (tables_below l lo hi) m0.
Proof. intros a (x & Hx & _)%elem_tables_below. by eapply (sw_used _ _ _ Hwf). Qed.

(** A table's ancestors are tables. *)
Lemma ancestor n t l b : G !! t = Some (l, b) -> l + Z.of_nat n <= 4 ->
  exists p, G !! p = Some (l + Z.of_nat n, b / 512 ^ Z.of_nat n).
Proof.
  intros Ht. induction n as [|n IH].
  - intros _. exists t. by rewrite Z.add_0_r, Z.div_1_r.
  - intros Hn. destruct IH as (p & Hp); [lia|]. destruct (sw_parent _ _ _ Hwf _ _ _ Hp ltac:(lia)) as (q & Hq & _).
    exists q. rewrite Hq, Z.div_div by (lia || (apply Z.pow_pos_nonneg; lia)). do 2 f_equal; [lia|].
    f_equal. rewrite Nat2Z.inj_succ, Z.pow_succ_r by lia. lia.
Qed.

Lemma below_split l x y : 1 <= y.1 -> below l x (x + 1) y <->
  y = (l - 1, x) \/ below (l - 1) (512 * x) (512 * x + 512) y.
Proof.
  intros Hy. destruct y as [l' b']. unfold below. simpl in *. split.
  - intros [Hl Hb]. destruct (decide (l' = l - 1)) as [->|Hne].
    + left. replace (l - 1 - (l - 1)) with 0 in Hb by lia. rewrite Z.div_1_r in Hb. f_equal. lia.
    + right. split; [lia|]. replace (l - 1 - l') with (Z.succ (l - 1 - 1 - l')) in Hb by lia.
      rewrite Z.pow_succ_r, Z.mul_comm, <- Z.div_div in Hb by (lia || apply Z.pow_pos_nonneg; lia).
      set (q := b' / 512 ^ (l - 1 - 1 - l')) in *. pose proof (Z.div_mod q 512). pose proof (Z.mod_pos_bound q 512). lia.
  - intros [[= -> ->]|[Hl Hb]].
    + split; [lia|]. replace (l - 1 - (l - 1)) with 0 by lia. rewrite Z.div_1_r. lia.
    + split; [lia|]. replace (l - 1 - l') with (Z.succ (l - 1 - 1 - l')) by lia.
      rewrite Z.pow_succ_r, Z.mul_comm, <- Z.div_div by (lia || apply Z.pow_pos_nonneg; lia).
      set (q := b' / 512 ^ (l - 1 - 1 - l')) in *. pose proof (Z.div_mod q 512). pose proof (Z.mod_pos_bound q 512). lia.
Qed.

(** One entry of a table and what is below it. *)
Lemma below_entry t l b i : G !! t = Some (l, b) -> 2 <= l -> 0 <= i < 512 ->
  let e := rd (slot_addr t i) m0 in
  if skip_entry e then tables_below l (512 * b + i) (512 * b + i + 1) = ∅
  else G !! next_frame e = Some (l - 1, 512 * b + i) /\
    tables_below l (512 * b + i) (512 * b + i + 1) =
    tables_below (l - 1) (512 * (512 * b + i)) (512 * (512 * b + i) + 512) ∪ {[next_frame e]}.
Proof.
  intros Ht Hl Hi e. set (x := 512 * b + i). rewrite skip_entry_bits.
  pose proof (sw_entry _ _ _ Hwf t l b i Ht Hl Hi) as He. fold e x in He.
  destruct (negb (present e) || large_bit e) eqn:Hs.
  - apply set_eq. intros t'. rewrite elem_tables_below, elem_of_empty. split; [|done].
    intros ([l' b'] & Ht' & Hb). pose proof (sw_level _ _ _ Hwf _ _ _ Ht'). pose proof (sw_level _ _ _ Hwf _ _ _ Ht).
    unfold below in Hb. simpl in Hb.
    destruct (ancestor (Z.to_nat (l - 1 - l')) t' l' b' Ht') as (p & Hp); [lia|]. rewrite Z2Nat.id in Hp by lia.
    replace (l' + (l - 1 - l')) with (l - 1) in Hp by lia. replace (b' / 512 ^ (l - 1 - l')) with x in Hp by lia.
    destruct (sw_parent _ _ _ Hwf _ _ _ Hp ltac:(lia)) as (q & Hq & P & L & N).
    replace (l - 1 + 1) with l in Hq by lia. replace (x / 512) with b in Hq by (apply Z.div_unique with i; unfold x; lia).
    replace (x mod 512) with i in P, L, N by (apply Z.mod_unique with b; unfold x; lia).
    assert (q = t) as -> by (by eapply (sw_inj _ _ _ Hwf)). fold e in P, L. by rewrite P, L in Hs.
  - destruct He as [He|[(_ & _ & He & _)|(P & L & _ & He)]]; [by rewrite He in Hs|by rewrite He, orb_true_r in Hs|].
    split; [done|]. apply set_eq. intros t'. rewrite elem_of_union, elem_of_singleton, !elem_tables_below. split.
    + intros ([l' b'] & Ht' & Hb). pose proof (sw_level _ _ _ Hwf _ _ _ Ht').
      apply below_split in Hb as [Hb|Hb]; [|eauto|simpl; lia]. right. rewrite Hb in Ht'. by eapply (sw_inj _ _ _ Hwf).
    + intros [([l' b'] & Ht' & Hb)| ->]; (eexists; split; [eassumption|]); apply below_split; simpl; auto.
      * by apply (sw_level _ _ _ Hwf _ _ _ Ht').
      * pose proof (sw_level _ _ _ Hwf _ _ _ He). lia.
Qed.

Lemma below_range l lo mid hi : lo <= mid <= hi ->
  tables_below l lo hi = tables_below l lo mid ∪ tables_below l mid hi /\
  tables_below l lo mid ## tables_below l mid hi.
Proof.
  intros Hr. split.
  - apply set_eq. intros t. rewrite elem_of_union, !elem_tables_below. unfold below. split.
    + intros (x & Hx & Hl & Hb). destruct (Z_lt_le_dec (x.2 / 512 ^ (l - 1 - x.1)) mid); [left|right]; exists x; (split; [done|lia]).
    + intros [(x & Hx & Hl & Hb)|(x & Hx & Hl & Hb)]; exists x; (split; [done|lia]).
  - intros t (x & Hx & _ & Hb)%elem_tables_below (y & Hy & _ & Hb')%elem_tables_below.
    rewrite Hx in Hy. injection Hy as <-. lia.
Qed.

(** The loop over the entries of a table, where [f] frees what is below a
    child. *)
Definition destroy_loop (f : Z -> mach -> mach) (t : Z) (n : nat) (m : mach) : mach :=
  fold_left (fun m i =>
    let e := rd (slot_addr t (Z.of_nat i)) m in
    if skip_entry e then m else free_frame (next_frame e) (f (next_frame e) m)) (seq 0 n) m.

Definition frees_below (l : Z) (f : Z -> mach -> mach) : Prop := forall c x m,
  G !! c = Some (l, x) -> mem m = mem m0 -> mach_wf m -> all_used (tables_below l (512 * x) (512 * x + 512)) m ->
  freed (tables_below l (512 * x) (512 * x + 512)) m (f c m).

Lemma destroy_loop_ok f t l b n m : G !! t = Some (l, b) -> 2 <= l -> Z.of_nat n <= 512 -> frees_below (l - 1) f ->
  mem m = mem m0 -> mach_wf m -> all_used (tables_below l (512 * b) (512 * b + Z.of_nat n)) m ->
  freed (tables_below l (512 * b) (512 * b + Z.of_nat n)) m (destroy_loop f t n m).
Proof.
  intros Ht Hl Hn Hf Hmem Hm HU. unfold destroy_loop. induction n as [|n IH].
  - simpl. rewrite Z.add_0_r. replace (tables_below l (512 * b) (512 * b)) with (∅ : gset Z); [by apply freed_empty|].
    apply set_eq. intros t'. rewrite elem_tables_below. unfold below. split; [set_solver|]. intros (x & _ & _ & ?). lia.
  - rewrite seq_S, fold_left_app. simpl fold_left. rewrite Nat2Z.inj_succ in *.
    destruct (below_range l (512 * b) (512 * b + Z.of_nat n) (512 * b + Z.succ (Z.of_nat n))) as [Heq Hdis]; [lia|].
    rewrite Heq in HU |- *. set (S1 := tables_below l (512 * b) (512 * b + Z.of_nat n)) in *.
    set (m1 := fold_left _ (seq 0 n) m) in *.
    assert (freed S1 m m1) as H1 by (apply IH; [lia|intros a Ha; apply HU; set_solver]).
    eapply freed_union; [exact H1|].
    replace (512 * b + Z.succ (Z.of_nat n)) with (512 * b + Z.of_nat n + 1) in * by lia.
    set (S2 := tables_below l _ (_ + 1)) in *.
    assert (all_used S2 m1) as HU2 by (eapply all_used_after; [exact H1|intros a Ha; apply HU; set_solver|done]).
    assert (mem m1 = mem m0) as Hmem1 by (rewrite <- Hmem; apply H1).
    assert (rd (slot_addr t (Z.of_nat n)) m1 = rd (slot_addr t (Z.of_nat n)) m0) as -> by (unfold rd; by rewrite Hmem1).
    pose proof (below_entry t l b (Z.of_nat n) Ht Hl ltac:(lia)) as Hb. cbv zeta in Hb.
    destruct (skip_entry _); [unfold S2; rewrite Hb; apply freed_empty, H1|]. destruct Hb as [Hc Hb].
    fold S2 in Hb. set (c := next_frame _) in *. rewrite Hb in *.
    assert (freed (tables_below (l - 1) (512 * (512 * b + Z.of_nat n)) (512 * (512 * b + Z.of_nat n) + 512)) m1 (f c m1)) as H2.
    { apply Hf; [done..|apply H1|]. intros a Ha. apply HU2. set_solver. }
    eapply freed_union; [exact H2|].
    apply free_frame_ok; [apply H2| |by eapply (sw_used _ _ _ Hwf)].
    eapply (all_used_after _ {[c]}); [exact H2|intros a Ha; apply HU2; set_solver| |set_solver].
    intros a (y & Hy & Hlt & _)%elem_tables_below ->%elem_of_singleton. rewrite Hc in Hy. injection Hy as <-. simpl in Hlt. lia.
Qed.

Lemma destroy_pd_loop pd m : destroy_pd pd m = destroy_loop (fun _ m => m) pd PAGE_ENTRIES m.
Proof. unfold destroy_pd, destroy_loop, next_frame. reflexivity. Qed.
Lemma destroy_pdpt_loop pdpt m : destroy_pdpt pdpt m = destroy_loop destroy_pd pdpt PAGE_ENTRIES m.
Proof. unfold destroy_pdpt, destroy_loop, next_frame. reflexivity. Qed.
Lemma destroy_pml4_loop boot m : arch_vm_space_destroy boot cr3 m =
  if (cr3 =? 0) || (cr3 =? boot) then m else free_frame cr3 (destroy_loop destroy_pdpt cr3 PAGE_ENTRIES m).
Proof. unfold arch_vm_space_destroy, destroy_loop, next_frame. reflexivity. Qed.

Lemma destroy_pd_frees : frees_below 2 destroy_pd.
Proof.
  intros c x m Hc Hmem Hm HU. rewrite destroy_pd_loop.
  apply (destroy_loop_ok (fun _ m => m) c 2 x PAGE_ENTRIES m); [done|lia|done| |done..].
  intros c' x' m' Hc' Hmem' Hm' HU'. replace (tables_below _ _ _) with (∅ : gset Z); [by apply freed_empty|].
  apply set_eq. intros t'. rewrite elem_tables_below. split; [set_solver|]. intros ([l' b'] & Ht' & Hl & _).
  pose proof (sw_level _ _ _ Hwf _ _ _ Ht'). simpl in Hl. lia.
Qed.

Lemma destroy_pdpt_frees : frees_below 3 destroy_pdpt.
Proof.
  intros c x m Hc Hmem Hm HU. rewrite destroy_pdpt_loop.
  apply (destroy_loop_ok destroy_pd c 3 x PAGE_ENTRIES m); [done|lia|done|apply destroy_pd_frees|done..].
Qed.

(** Destroying a space frees its tables and nothing else. *)
Lemma space_destroy_ok boot : mach_wf m0 -> cr3 <> boot -> freed (dom G) m0 (arch_vm_space_destroy boot cr3 m0).
Proof.
  intros Hm Hb. rewrite destroy_pml4_loop. destruct (sw_used _ _ _ Hwf _ _ (sw_root _ _ _ Hwf)) as (Hu & _ & H0).
  decide_tests. simpl orb. cbv iota.
  assert (dom G = tables_below 4 (512 * 0) (512 * 0 + Z.of_nat PAGE_ENTRIES) ∪ {[cr3]}) as ->.
  { apply set_eq. intros t. rewrite elem_of_dom, elem_of_union, elem_of_singleton, elem_tables_below. split.
    - intros [[l b] Ht]. pose proof (sw_level _ _ _ Hwf _ _ _ Ht). destruct (decide (l = 4)) as [->|Hne].
      + right. rewrite (sw_top _ _ _ Hwf t b Ht) in Ht. apply (sw_inj _ _ _ Hwf t cr3 _ Ht), Hwf.
      + left. eexists. split; [done|]. split; simpl; [lia|].
        destruct (ancestor (Z.to_nat (3 - l)) t l b Ht) as (p & Hp); [lia|]. rewrite Z2Nat.id in Hp by lia.
        replace (l + (3 - l)) with 3 in Hp by lia. destruct (sw_parent _ _ _ Hwf _ _ _ Hp ltac:(lia)) as (q & Hq & _).
        pose proof (sw_top _ _ _ Hwf q _ Hq).
        change (Z.of_nat PAGE_ENTRIES) with 512. replace (4 - 1 - l) with (3 - l) by lia. set (z := b / 512 ^ (3 - l)) in *.
        pose proof (Z.div_mod z 512). pose proof (Z.mod_pos_bound z 512). lia.
    - intros [(x & Hx & _)| ->]; [eauto|]. by rewrite (sw_root _ _ _ Hwf). }
  assert (freed (tables_below 4 (512 * 0) (512 * 0 + Z.of_nat PAGE_ENTRIES)) m0 (destroy_loop destroy_pdpt cr3 PAGE_ENTRIES m0)) as H1.
  { apply (destroy_loop_ok destroy_pdpt cr3 4 0); [apply Hwf|lia|done|apply destroy_pdpt_frees|done|done|apply tables_below_used]. }
  eapply freed_union; [exact H1|]. apply free_frame_ok; [apply H1| |done].
  eapply (all_used_after _ {[cr3]}); [exact H1|intros a ->%elem_of_singleton; done| |set_solver].
  intros a (y & Hy & Hlt & _)%elem_tables_below ->%elem_of_singleton. rewrite (sw_root _ _ _ Hwf) in Hy. injection Hy as <-. simpl in Hlt. lia.
Qed.
End Destroy.

(** ** The operations as a page map *)

(** An address space maps page numbers to page-sized entries, 0 if the page is
    not mapped. *)
Definition page_map := Z -> Z.
Definition view (cr3 : Z) (m : mach) : page_map := fun n => pte_of cr3 (n * PAGE_SIZE) m.
Definition page_number (va : Z) : Z := pfx 0 va.

Lemma pte_same_page cr3 va va' m : pfx 0 va = pfx 0 va' -> pte_of cr3 va m = pte_of cr3 va' m.
Proof.
  intros H0. destruct (pfx_inv 1 va va' ltac:(lia) H0) as [H1 I1]. destruct (pfx_inv 2 va va' ltac:(lia) H1) as [H2 I2].
  destruct (pfx_inv 3 va va' ltac:(lia) H2) as [H3 I3]. destruct (pfx_inv 4 va va' ltac:(lia) H3) as [H4 I4].
  unfold pte_of. by rewrite I1, I2, I3, I4.
Qed.

Lemma page_number_range va : 0 <= page_number va < 2 ^ 36.
Proof. unfold page_number, pfx. by apply Z.mod_pos_bound. Qed.

Lemma page_number_base n : 0 <= n < 2 ^ 36 -> page_number (n * PAGE_SIZE) = n.
Proof.
  intros Hn. unfold page_number, pfx, PAGE_SIZE. change (2 ^ (12 + 9 * 0)) with 4096. rewrite Z.div_mul by lia.
  by apply Z.mod_small.
Qed.

Lemma view_page cr3 m va : view cr3 m (page_number va) = pte_of cr3 va m.
Proof. apply pte_same_page. apply page_number_base, page_number_range. Qed.

Inductive pt_op :=
  | OpMap (vaddr phys : Z) (writable user executable : bool)
  | OpProtect (vaddr : Z) (writable executable : bool)
  | OpUnmap (vaddr : Z)
  | OpTranslate (vaddr : Z) (write : bool)
  | OpTranslateUser (vaddr : Z) (write : bool).

Section Trace.
Context (nx : bool).

Definition exec_op (cr3 : Z) (op : pt_op) (m : mach) : Z * mach :=
  match op with
  | OpMap va phys w u x => arch_vm_map_page nx cr3 va phys w u x m
  | OpProtect va w x => arch_vm_protect_user_page nx cr3 va w x m
  | OpUnmap va => arch_vm_unmap_user_page cr3 va m
  | OpTranslate va w => (arch_vm_translate cr3 va w m, m)
  | OpTranslateUser va w => (arch_vm_translate_user cr3 va w m, m)
  end.

Fixpoint exec_ops (cr3 : Z) (ops : list pt_op) (m : mach) : list Z * mach :=
  match ops with
  | [] => ([], m)
  | op :: ops =>
      let '(r, m) := exec_op cr3 op m in
      let '(rs, m) := exec_ops cr3 ops m in (r :: rs, m)
  end.

(** What an operation does to a page map.  Only mapping may fail for lack of
    memory, and then nothing changes. *)
Definition is_user (e : Z) : bool := present e && user_bit e.
Definition update (A : page_map) (va e : Z) (A' : page_map) : Prop :=
  forall n, 0 <= n < 2 ^ 36 -> A' n = if decide (n = page_number va) then e else A n.
Definition same (A A' : page_map) : Prop := forall n, 0 <= n < 2 ^ 36 -> A' n = A n.

Definition op_spec (A : page_map) (op : pt_op) (r : Z) (A' : page_map) : Prop :=
  match op with
  | OpMap va phys w u x =>
      r = -1 /\ same A A' \/
      r = 0 /\ page_offset va = 0 /\ update A va (Z.lor phys (page_flags nx w u x)) A'
  | OpProtect va w x =>
      let e := A (page_number va) in
      if (page_offset va =? 0) && is_user e then r = 0 /\ update A va (set_protection nx w x e) A'
      else r = -1 /\ same A A'
  | OpUnmap va =>
      let e := A (page_number va) in
      if (page_offset va =? 0) && is_user e then r = next_frame e /\ update A va 0 A'
      else r = 0 /\ same A A'
  | OpTranslate va w =>
      let e := A (page_number va) in
      r = (if allowed w e then next_frame e + page_offset va else 0) /\ same A A'
  | OpTranslateUser va w =>
      let e := A (page_number va) in
      r = (if allowed w e && user_bit e then next_frame e + page_offset va else 0) /\ same A A'
  end.

Inductive ops_spec : page_map -> list pt_op -> list Z -> page_map -> Prop :=
  | ops_nil A : ops_spec A [] [] A
  | ops_cons A op r A1 ops rs A2 :
      op_spec A op r A1 -> ops_spec A1 ops rs A2 -> ops_spec A (op :: ops) (r :: rs) A2.

(** The frames mapped are frames of memory. *)
Definition op_ok (op : pt_op) : Prop :=
  match op with OpMap _ phys _ _ _ => is_frame phys | _ => True end.

#[global] Instance op_ok_dec op : Decision (op_ok op).
Proof. destruct op; simpl; apply _. Defined.

Lemma pte_view cr3 m m' va e :
  (forall va', pte_of cr3 va' m' = if decide (pfx 0 va' = pfx 0 va) then e else pte_of cr3 va' m) ->
  update (view cr3 m) va e (view cr3 m').
Proof.
  intros H n Hn. unfold view. rewrite H. change (pfx 0 (n * PAGE_SIZE)) with (page_number (n * PAGE_SIZE)).
  by rewrite page_number_base.
Qed.

Lemma exec_op_ok G cr3 op m : space_wf G cr3 m -> mach_wf m -> op_ok op ->
  exists r m' G', exec_op cr3 op m = (r, m') /\ space_wf G' cr3 m' /\ grows G m G' m' /\
    op_spec (view cr3 m) op r (view cr3 m').
Proof.
  intros Hwf Hm Hop. destruct op as [va phys w u x|va w x|va|va w|va w]; simpl in *.
  - destruct (map_page_ok nx G cr3 m va phys w u x Hwf Hm Hop) as (r & m' & G' & -> & Hwf' & Hgr & Hr).
    exists r, m', G'. split; [done|]. split; [done|]. split; [done|].
    destruct Hr as [[-> H]|(-> & Hal & H)]; [left|right]; (split; [done|]).
    + intros n Hn. apply H.
    + split; [done|]. by apply pte_view.
  - destruct (protect_user_ok nx G cr3 m Hwf Hm va w x) as (r & m' & -> & Hwf' & Hgr & Hr).
    exists r, m', G. split; [done|]. split; [done|]. split; [done|]. rewrite view_page.
    unfold user_page in Hr. unfold is_user. rewrite andb_assoc.
    destruct (_ && _ && _); destruct Hr as [-> Hr]; (split; [done|]); [by apply pte_view|by rewrite Hr].
  - destruct (unmap_user_ok G cr3 m Hwf Hm va) as (r & m' & -> & Hwf' & Hgr & Hr).
    exists r, m', G. split; [done|]. split; [done|]. split; [done|]. rewrite view_page.
    unfold user_page in Hr. unfold is_user. rewrite andb_assoc.
    destruct (_ && _ && _); destruct Hr as [-> Hr]; (split; [done|]); [by apply pte_view|by rewrite Hr].
  - eexists _, m, G. split; [done|]. split; [done|]. split; [by apply grows_refl|].
    rewrite view_page. split; [apply (translate_ok _ _ _ Hwf)|by intros n].
  - eexists _, m, G. split; [done|]. split; [done|]. split; [by apply grows_refl|].
    rewrite view_page. split; [apply (translate_user_ok _ _ _ Hwf)|by intros n].
Qed.

Lemma exec_ops_ok ops : forall G cr3 m, space_wf G cr3 m -> mach_wf m -> Forall op_ok ops ->
  exists rs m' G', exec_ops cr3 ops m = (rs, m') /\ space_wf G' cr3 m' /\ grows G m G' m' /\
    ops_spec (view cr3 m) ops rs (view cr3 m').
Proof.
  induction ops as [|op ops IH]; intros G cr3 m Hwf Hm Hops.
  - exists [], m, G. split; [done|]. split; [done|]. split; [by apply grows_refl|]. constructor.
  - apply Forall_cons in Hops as [Hop Hops].
    destruct (exec_op_ok G cr3 op m Hwf Hm Hop) as (r & m1 & G1 & H1 & Hwf1 & Hg1 & Hs1).
    destruct (IH G1 cr3 m1 Hwf1 (gr_wf _ _ _ _ Hg1) Hops) as (rs & m2 & G2 & H2 & Hwf2 & Hg2 & Hs2).
    exists (r :: rs), m2, G2. simpl. rewrite H1, H2. split; [done|]. split; [done|].
    split; [by eapply grows_trans|]. by econstructor.
Qed.
End Trace.

(** ** Theorems *)

(** What an address space maps when it is new: the first GiB to itself, for
    the kernel only. *)
Definition identity_map (A : page_map) : Prop := forall n, 0 <= n < 2 ^ 36 ->
  if n <? 262144 then is_user (A n) = false /\ allowed true (A n) = true /\ next_frame (A n) = n * PAGE_SIZE
  else A n = 0.

Lemma identity_view cr3 m : (forall va, identity_pte va (pte_of cr3 va m)) -> identity_map (view cr3 m).
Proof.
  intros H n Hn. unfold view. specialize (H (n * PAGE_SIZE)). unfold identity_pte in H.
  change (pfx 0 (n * PAGE_SIZE)) with (page_number (n * PAGE_SIZE)) in H. rewrite page_number_base in H by done.
  assert (pfx 2 (n * PAGE_SIZE) = n / 262144) as Hp.
  { unfold pfx, PAGE_SIZE. change (2 ^ (12 + 9 * 2)) with (4096 * 262144). rewrite Z.mul_comm, Z.div_mul_cancel_l by lia.
    apply Z.mod_small. split; [apply Z.div_pos; lia|]. apply Z.div_lt_upper_bound; [lia|]. exact (proj2 Hn). }
  rewrite Hp in H. destruct (Z.ltb_spec n 262144) as [Hlt|Hge].
  - rewrite Z.div_small, decide_True in H by (lia || done). destruct H as (P & W & U & N).
    unfold is_user, allowed. by rewrite P, W, U, N.
  - rewrite decide_False in H; [done|]. pose proof (Z.div_le_lower_bound n 262144 1). lia.
Qed.

(** C11: An address space is a page map.  A new one maps the first GiB to
    itself, for the kernel only; from there, every sequence of
    [arch_vm_map_page], [arch_vm_protect_user_page], [arch_vm_unmap_user_page],
    [arch_vm_translate] and [arch_vm_translate_user] returns what the same
    sequence on a map from page numbers to entries returns and leaves the map
    it leaves: mapping replaces one entry, or fails and changes no
    translation even where it has split a large page; protecting and
    unmapping act on user pages only; a user translation sees user pages
    only. *)
Theorem pt_refines nx m cr3 m1 ops : mach_wf m -> arch_vm_space_init m = (Some cr3, m1) -> Forall op_ok ops ->
  identity_map (view cr3 m1) /\
  ops_spec nx (view cr3 m1) ops (exec_ops nx cr3 ops m1).1 (view cr3 (exec_ops nx cr3 ops m1).2).
Proof.
  intros Hm Hi Hops. destruct (space_init_ok m Hm) as (r & m' & G & Hi' & Hg & Hs). rewrite Hi in Hi'. injection Hi' as <- <-.
  destruct Hs as (Hwf & _ & Hid). split; [by apply identity_view|].
  by destruct (exec_ops_ok nx ops G cr3 m1 Hwf (gr_wf _ _ _ _ Hg) Hops) as (rs & m2 & G2 & -> & _ & _ & Hsp).
Qed.

(** C13: The frames of the page tables are accounted for.  Creating a space,
    running any sequence of operations on it and destroying it gives back
    exactly the frames it took, whatever was mapped and however many large
    pages were split or mappings failed; and no word of memory outside the
    frames that were free before is ever written. *)
Theorem pt_lifecycle nx boot m cr3 m1 ops : mach_wf m -> arch_vm_space_init m = (Some cr3, m1) -> cr3 <> boot ->
  Forall op_ok ops ->
  let m2 := (exec_ops nx cr3 ops m1).2 in
  let m3 := arch_vm_space_destroy boot cr3 m2 in
  mach_wf m3 /\ frames (pm m3) = frames (pm m) /\
  forall a, (forall t i, frames (pm m) !! t = Some Free -> 0 <= i < 512 -> a <> slot_addr t i) -> rd a m3 = rd a m.
Proof.
  intros Hm Hi Hb Hops. destruct (space_init_ok m Hm) as (r & m' & G & Hi' & Hg & Hs). rewrite Hi in Hi'. injection Hi' as <- <-.
  destruct Hs as (Hwf & _ & _).
  destruct (exec_ops_ok nx ops G cr3 m1 Hwf (gr_wf _ _ _ _ Hg) Hops) as (rs & m2 & G2 & -> & Hwf2 & Hg2 & _). simpl.
  pose proof (grows_trans _ _ _ _ _ _ Hg Hg2) as Hg12.
  destruct (space_destroy_ok G2 cr3 m2 Hwf2 boot (gr_wf _ _ _ _ Hg2) Hb) as [Hmem Hm3 Hfr]. split; [done|]. split.
  - apply map_eq. intros a. rewrite Hfr. destruct (decide (a ∈ dom G2)) as [[x Ha]%elem_of_dom|Ha%not_elem_of_dom].
    + symmetry. apply (gr_new _ _ _ _ Hg12 a x Ha). apply lookup_empty.
    + apply (gr_frames _ _ _ _ Hg12). by left.
  - intros a Ha. unfold rd. rewrite Hmem. apply (gr_mem _ _ _ _ Hg12). intros t x i Ht Hi'. apply Ha; [|done].
    apply (gr_new _ _ _ _ Hg12 t x Ht). apply lookup_empty.
Qed.

Definition demo_mach : mach := mk_mach demo_pmm ∅.
Definition demo_ops : list pt_op :=
  [OpTranslate 4198400 true; OpTranslateUser 4198400 false; OpMap 4198400 65536 false true false;
   OpTranslateUser 4198401 false; OpTranslateUser 4198401 true; OpProtect 4198400 true false;
   OpTranslateUser 4198401 true; OpTranslate 4194304 true; OpUnmap 4198400; OpTranslate 4198400 false].

Lemma demo_mach_wf : mach_wf demo_mach.
Proof.
  assert (map_Forall (fun a _ => is_frame a) (frames demo_pmm)) as Hf.
  { apply (bool_decide_unpack _). vm_compute. exact I. }
  constructor; [exact demo_wf|exact Hf|]. vm_compute. discriminate.
Qed.

Local Notation demo_space := (arch_vm_space_init demo_mach).2.
Definition demo_cr3 : Z := 69632.

Lemma fst_pair {A B} (p : A * B) a : p.1 = a -> p = (a, p.2).
Proof. by destruct p; intros [= ->]. Qed.

Lemma demo_space_init : arch_vm_space_init demo_mach = (Some demo_cr3, demo_space).
Proof. apply fst_pair. vm_compute. reflexivity. Qed.
Lemma demo_ops_ok : Forall op_ok demo_ops.
Proof. apply (bool_decide_unpack _). vm_compute. exact I. Qed.

Lemma pt_refines_witness :
  (exec_ops true demo_cr3 demo_ops demo_space).1 = [4198400; 0; 0; 65537; 0; 0; 65537; 4194304; 65536; 0] /\
  identity_map (view demo_cr3 demo_space) /\
  ops_spec true (view demo_cr3 demo_space) demo_ops (exec_ops true demo_cr3 demo_ops demo_space).1
    (view demo_cr3 (exec_ops true demo_cr3 demo_ops demo_space).2).
Proof.
  split; [vm_compute; reflexivity|].
  exact (pt_refines true demo_mach demo_cr3 demo_space demo_ops demo_mach_wf demo_space_init demo_ops_ok).
Defined.

Lemma pt_lifecycle_witness :
  frames (pm (exec_ops true demo_cr3 demo_ops demo_space).2) <> frames (pm demo_mach) /\
  let m3 := arch_vm_space_destroy 1 demo_cr3 (exec_ops true demo_cr3 demo_ops demo_space).2 in
  mach_wf m3 /\ frames (pm m3) = frames (pm demo_mach) /\
  forall a, (forall t i, frames (pm demo_mach) !! t = Some Free -> 0 <= i < 512 -> a <> slot_addr t i) -> rd a m3 = rd a demo_mach.
Proof.
  split; [intros H; apply (f_equal (fun f => f !! demo_cr3)) in H; vm_compute in H; discriminate|].
  assert (demo_cr3 <> 1) as Hb by (vm_compute; discriminate).
  exact (pt_lifecycle true 1 demo_mach demo_cr3 demo_space demo_ops demo_mach_wf demo_space_init Hb demo_ops_ok).
Defined.

(** A user mapping below 1 GiB takes the place of the kernel's identity
    mapping in that space: after a successful mapping of such a page, kernel
    reads of the address go to the frame that was mapped and no longer to the
    frame with that physical address. *)
Theorem user_map_hides_identity nx m cr3 m1 va phys w x m2 : mach_wf m -> arch_vm_space_init m = (Some cr3, m1) ->
  is_frame phys -> 0 <= va < 2 ^ 30 -> arch_vm_map_page nx cr3 va phys w true x m1 = (0, m2) ->
  arch_vm_translate cr3 va false m1 = va /\ arch_vm_translate cr3 va false m2 = phys.
Proof.
  intros Hm Hi Hp Hva Hmap. destruct (space_init_ok m Hm) as (r & m' & G & Hi' & Hg & Hs). rewrite Hi in Hi'. injection Hi' as <- <-.
  destruct Hs as (Hwf & _ & Hid).
  destruct (map_page_ok nx G cr3 m1 va phys w true x Hwf (gr_wf _ _ _ _ Hg) Hp) as (r & m' & G' & Hmap' & Hwf' & _ & Hr).
  rewrite Hmap in Hmap'. injection Hmap' as <- <-. destruct Hr as [[? _]|(_ & Hal & Hpte)]; [done|].
  rewrite (translate_ok _ _ _ Hwf), (translate_ok _ _ _ Hwf'), Hal. cbv zeta. rewrite !Z.add_0_r, Hpte, decide_True by done.
  specialize (Hid va). unfold identity_pte in Hid.
  assert (pfx 2 va = 0) as H2 by (unfold pfx; change (2 ^ (12 + 9 * 2)) with (2 ^ 30); by rewrite Z.div_small).
  rewrite decide_True in Hid by done. destruct Hid as (P & W & _ & N). unfold allowed at 1. rewrite P, N. simpl. split.
  - unfold pfx, PAGE_SIZE. change (2 ^ (12 + 9 * 0)) with 4096. rewrite page_offset_mod in Hal.
    pose proof (Z.div_mod va 4096). rewrite Z.mod_small; [lia|]. split; [apply Z.div_pos; lia|].
    apply Z.div_lt_upper_bound; lia.
  - destruct (page_flags_bits nx w true x) as (FP & _ & _ & _ & FM). unfold allowed, present in *.
    rewrite lor_low_bit, FP by (done || lia). simpl. by apply next_frame_lor.
Qed.

Lemma user_map_hides_identity_witness :
  arch_vm_translate demo_cr3 4198400 false demo_space = 4198400 /\
  arch_vm_translate demo_cr3 4198400 false (arch_vm_map_page true demo_cr3 4198400 65536 true true false demo_space).2 = 65536.
Proof.
  assert (is_frame 65536) as Hf by (split; [split; [discriminate|reflexivity]|reflexivity]).
  assert (0 <= 4198400 < 2 ^ 30) as Hva by (split; [discriminate|reflexivity]).
  assert ((arch_vm_map_page true demo_cr3 4198400 65536 true true false demo_space).1 = 0) as H1 by (vm_compute; reflexivity).
  pose proof (fst_pair (arch_vm_map_page true demo_cr3 4198400 65536 true true false demo_space) 0 H1) as Hmap.
  exact (user_map_hides_identity true demo_mach demo_cr3 demo_space 4198400 65536 true false _
    demo_mach_wf demo_space_init Hf Hva Hmap).
Defined.
