(* ===== verification/Vm.v ===== *)
(** * Address spaces (kernel/vm.c)

    Ranges of user pages: allocating, protecting, unmapping, copying and
    sharing them, copy-on-write, and reading and writing user memory from the
    kernel.  The page tables are those of [PageTable], the frames those of
    [Pmm]; a space is the root of its table, [None] the null pointer.

    Bytes are read and written inside the 64-bit words of memory.  A buffer of
    the kernel is the list of its bytes. *)
From stdpp Require Import gmap gmultiset list.
From Stdlib Require Import ZArith Lia.
From S2P Require Import Prelude Pmm PageTable.

Open Scope Z_scope.
Open Scope machine_scope.

Definition VM_PAGE_SIZE : Z := 4096.

(** ** Bytes *)

Definition byte_of (w i : Z) : Z := Z.land (Z.shiftr w (8 * i)) 255.
Definition set_byte (w i v : Z) : Z :=
  Z.lor (Z.land w (Z.lnot (Z.shiftl 255 (8 * i)))) (Z.shiftl (Z.land v 255) (8 * i)).
Definition word_addr (a : Z) : Z := a - a mod 8.

Definition rd8 (a : Z) (m : mach) : Z := byte_of (rd (word_addr a) m) (a mod 8).
Definition wr8 (a v : Z) (m : mach) : mach :=
  wr (word_addr a) (set_byte (rd (word_addr a) m) (a mod 8) v) m.

(** [for (i = 0; i < len; i++) dst[i] = src[i];] between physical addresses,
    from a buffer, and to a buffer. *)
Definition mem_copy (dst src : Z) (len : nat) (m : mach) : mach :=
  fold_left (fun m i => wr8 (dst + Z.of_nat i) (rd8 (src + Z.of_nat i) m) m) (seq 0 len) m.
Fixpoint store_bytes (dst : Z) (bytes : list Z) (m : mach) : mach :=
  match bytes with
  | [] => m
  | b :: bytes => store_bytes (dst + 1) bytes (wr8 dst b m)
  end.
Definition load_bytes (src : Z) (len : nat) (m : mach) : list Z :=
  (fun i => rd8 (src + Z.of_nat i) m) <$> seq 0 len.
Definition mem_zero (dst : Z) (len : nat) (m : mach) : mach :=
  fold_left (fun m i => wr8 (dst + Z.of_nat i) 0 m) (seq 0 len) m.

Arguments mem_copy : simpl never.
Arguments mem_zero : simpl never.

(** ** Frames and pages *)

(** The address of the frame, 0 if there is none. *)
Definition vm_rpc_alloc_frame (m : mach) : Z * mach :=
  let '(page, p) := pmm_page_alloc (pm m) in
  match page with
  | None => (0, with_pm p m)
  | Some _ => (pmm_page_addr page p, with_pm p m)
  end.
Definition vm_rpc_free_frame (addr : Z) (m : mach) : mach := free_frame addr m.
Definition retain_frame (addr : Z) (m : mach) : Z * mach :=
  let '(rc, p) := pmm_page_retain_addr addr (pm m) in (rc, with_pm p m).

Definition vm_translate_user_read (space : option Z) (vaddr : Z) (m : mach) : Z :=
  match space with None => 0 | Some cr3 => arch_vm_translate_user cr3 vaddr false m end.
Definition vm_translate_user_write (space : option Z) (vaddr : Z) (m : mach) : Z :=
  match space with None => 0 | Some cr3 => arch_vm_translate_user cr3 vaddr true m end.
Definition vm_translate_kernel_read (space : option Z) (vaddr : Z) (m : mach) : Z :=
  match space with None => 0 | Some cr3 => arch_vm_translate cr3 vaddr false m end.
Definition vm_translate_kernel_write (space : option Z) (vaddr : Z) (m : mach) : Z :=
  match space with None => 0 | Some cr3 => arch_vm_translate cr3 vaddr true m end.

(** ** Reading and writing user memory

    A round copies up to the end of a page; [None] is a loop that has not
    ended within its rounds. *)
Definition chunk_size (current left : Z) : Z :=
  Z.min left (VM_PAGE_SIZE - Z.land current (VM_PAGE_SIZE - 1)).
Definition rounds (len : Z) : nat := Z.to_nat (len / VM_PAGE_SIZE + 3).

Fixpoint read_loop (fuel : nat) (space : option Z) (vaddr done len : Z) (m : mach) : option (Z * list Z) :=
  match fuel with
  | O => None
  | S fuel =>
      if done <? len then
        let current := vaddr +w done in
        let phys := vm_translate_user_read space current m in
        let chunk := chunk_size current (len -w done) in
        if phys =? 0 then Some (-1, []) else
        let bytes := load_bytes phys (Z.to_nat chunk) m in
        '(rc, rest) ← read_loop fuel space vaddr (done +w chunk) len m;
        Some (rc, bytes ++ rest)
      else Some (0, [])
  end.

(** The result and the bytes stored at [dst]. *)
Definition vm_read_user (space : option Z) (vaddr len : Z) (m : mach) : option (Z * list Z) :=
  if bool_decide (space = None) || (vaddr +w len <? vaddr) then Some (-1, [])
  else read_loop (rounds len) space vaddr 0 len m.

Fixpoint write_loop (fuel : nat) (space : option Z) (vaddr done len : Z) (src : list Z) (m : mach)
    : option (Z * mach) :=
  match fuel with
  | O => None
  | S fuel =>
      if done <? len then
        let current := vaddr +w done in
        let phys := vm_translate_user_write space current m in
        let chunk := chunk_size current (len -w done) in
        if phys =? 0 then Some (-1, m) else
        let n := Z.to_nat chunk in
        let m := store_bytes phys (take n (drop (Z.to_nat done) src)) m in
        write_loop fuel space vaddr (done +w chunk) len src m
      else Some (0, m)
  end.

(** [src] has [len] bytes. *)
Definition vm_write_user (space : option Z) (vaddr : Z) (src : list Z) (m : mach) : option (Z * mach) :=
  let len := Z.of_nat (length src) in
  if bool_decide (space = None) || (vaddr +w len <? vaddr) then Some (-1, m)
  else write_loop (rounds len) space vaddr 0 len src m.

(** ** Ranges of pages *)

Section Ranges.
Context (nx_supported : bool).

Definition vm_map_user_page (space : option Z) (vaddr frame : Z) (writable executable : bool) (m : mach)
    : Z * mach :=
  match space with
  | None => (-1, m)
  | Some cr3 =>
      if frame =? 0 then (-1, m)
      else arch_vm_map_page nx_supported cr3 vaddr frame writable true executable m
  end.

Definition vm_alloc_user_page (space : option Z) (vaddr : Z) (writable executable : bool) (m : mach)
    : Z * mach :=
  let '(frame, m) := vm_rpc_alloc_frame m in
  if frame =? 0 then (0, m) else
  let '(rc, m) := vm_map_user_page space vaddr frame writable executable m in
  if negb (rc =? 0) then (0, vm_rpc_free_frame frame m) else (frame, m).

(** The pages of a range: [None] if the arguments are refused. *)
Definition range_start (vaddr : Z) : Z := align_down vaddr VM_PAGE_SIZE.
Definition range_end (vaddr len : Z) : Z := align_up (vaddr +w len) VM_PAGE_SIZE.
Definition range_refused (vaddr len : Z) : bool :=
  (len =? 0) || (vaddr +w len <? vaddr) || (range_end vaddr len <=? range_start vaddr).

(** [for (page = start; page < end; page += VM_PAGE_SIZE)] *)
Definition pages_from (start : Z) (n : nat) : list Z :=
  (fun i => start +w (Z.of_nat i *w VM_PAGE_SIZE)) <$> seq 0 n.
Definition vm_pages (start stop : Z) : list Z := pages_from start (Z.to_nat ((stop - start) / VM_PAGE_SIZE)).

Fixpoint unmap_pages (cr3 : Z) (pages : list Z) (m : mach) : mach :=
  match pages with
  | [] => m
  | page :: pages =>
      let '(phys, m) := arch_vm_unmap_user_page cr3 page m in
      if phys =? 0 then unmap_pages cr3 pages m
      else unmap_pages cr3 pages (vm_rpc_free_frame phys m)
  end.

Definition vm_unmap_user_range (space : option Z) (vaddr len : Z) (m : mach) : Z * mach :=
  match space with
  | None => (-1, m)
  | Some cr3 =>
      if range_refused vaddr len then (-1, m)
      else (0, unmap_pages cr3 (vm_pages (range_start vaddr) (range_end vaddr len)) m)
  end.

Fixpoint alloc_pages (cr3 start : Z) (pages : list Z) (writable executable : bool) (m : mach) : Z * mach :=
  match pages with
  | [] => (0, m)
  | page :: pages =>
      let '(frame, m) := vm_rpc_alloc_frame m in
      if frame =? 0 then (-1, (vm_unmap_user_range (Some cr3) start (page -w start) m).2) else
      let m := mem_zero frame (Z.to_nat VM_PAGE_SIZE) m in
      let '(rc, m) := vm_map_user_page (Some cr3) page frame writable executable m in
      if negb (rc =? 0) then
        (-1, (vm_unmap_user_range (Some cr3) start (page -w start) (vm_rpc_free_frame frame m)).2)
      else alloc_pages cr3 start pages writable executable m
  end.

Definition vm_alloc_user_range (space : option Z) (vaddr len : Z) (writable executable : bool) (m : mach)
    : Z * mach :=
  match space with
  | None => (-1, m)
  | Some cr3 =>
      if range_refused vaddr len then (-1, m) else
      let start := range_start vaddr in
      alloc_pages cr3 start (vm_pages start (range_end vaddr len)) writable executable m
  end.

Fixpoint protect_pages (cr3 : Z) (pages : list Z) (writable executable : bool) (m : mach) : Z * mach :=
  match pages with
  | [] => (0, m)
  | page :: pages =>
      let '(rc, m) := arch_vm_protect_user_page nx_supported cr3 page writable executable m in
      if negb (rc =? 0) then (-1, m) else protect_pages cr3 pages writable executable m
  end.

Definition vm_protect_user_range (space : option Z) (vaddr len : Z) (writable executable : bool) (m : mach)
    : Z * mach :=
  match space with
  | None => (-1, m)
  | Some cr3 =>
      if range_refused vaddr len then (-1, m) else
      protect_pages cr3 (vm_pages (range_start vaddr) (range_end vaddr len)) writable executable m
  end.

Fixpoint clone_pages (dst src start : Z) (pages : list Z) (writable executable : bool) (m : mach) : Z * mach :=
  match pages with
  | [] => (0, m)
  | page :: pages =>
      let '(frame, m) := vm_alloc_user_page (Some dst) page writable executable m in
      let src_phys := vm_translate_user_read (Some src) page m in
      if (frame =? 0) || (src_phys =? 0) then
        let m := if negb (frame =? 0)
                 then vm_rpc_free_frame frame (arch_vm_unmap_page dst page m).2 else m in
        (-1, (vm_unmap_user_range (Some dst) start (page -w start) m).2)
      else clone_pages dst src start pages writable executable (mem_copy frame src_phys (Z.to_nat VM_PAGE_SIZE) m)
  end.

Definition vm_clone_user_range (dst src : option Z) (vaddr len : Z) (writable executable : bool) (m : mach)
    : Z * mach :=
  match dst, src with
  | Some dst, Some src =>
      if range_refused vaddr len then (-1, m) else
      let start := range_start vaddr in
      clone_pages dst src start (vm_pages start (range_end vaddr len)) writable executable m
  | _, _ => (-1, m)
  end.

Fixpoint share_pages (dst src start : Z) (pages : list Z) (writable executable : bool) (m : mach) : Z * mach :=
  match pages with
  | [] => (0, m)
  | page :: pages =>
      let src_phys := vm_translate_user_read (Some src) page m in
      let fail m := (-1, (vm_unmap_user_range (Some dst) start (page -w start) m).2) in
      if src_phys =? 0 then fail m else
      let '(rc, m) := retain_frame src_phys m in
      if negb (rc =? 0) then fail m else
      let '(rc, m) := arch_vm_map_page nx_supported dst page src_phys writable true executable m in
      if negb (rc =? 0) then fail (vm_rpc_free_frame src_phys m)
      else share_pages dst src start pages writable executable m
  end.

Definition vm_share_user_range (dst src : option Z) (vaddr len : Z) (writable executable : bool) (m : mach)
    : Z * mach :=
  match dst, src with
  | Some dst, Some src =>
      if range_refused vaddr len then (-1, m) else
      let start := range_start vaddr in
      share_pages dst src start (vm_pages start (range_end vaddr len)) writable executable m
  | _, _ => (-1, m)
  end.

Fixpoint share_cow_pages (dst src start : Z) (pages : list Z) (executable : bool) (m : mach) : Z * mach :=
  match pages with
  | [] => (0, m)
  | page :: pages =>
      let src_phys := vm_translate_user_read (Some src) page m in
      let fail m := (-1, (vm_unmap_user_range (Some dst) start (page -w start) m).2) in
      if src_phys =? 0 then fail m else
      let '(rc, m) := retain_frame src_phys m in
      if negb (rc =? 0) then fail m else
      let '(rc, m) := arch_vm_protect_user_page nx_supported src page false executable m in
      if negb (rc =? 0) then fail (vm_rpc_free_frame src_phys m) else
      let '(rc, m) := arch_vm_map_page nx_supported dst page src_phys false true executable m in
      if negb (rc =? 0) then fail (vm_rpc_free_frame src_phys m)
      else share_cow_pages dst src start pages executable m
  end.

Definition vm_share_cow_user_range (dst src : option Z) (vaddr len : Z) (executable : bool) (m : mach)
    : Z * mach :=
  match dst, src with
  | Some dst, Some src =>
      if range_refused vaddr len then (-1, m) else
      let start := range_start vaddr in
      share_cow_pages dst src start (vm_pages start (range_end vaddr len)) executable m
  | _, _ => (-1, m)
  end.

Definition vm_cow_user_page (space : option Z) (vaddr : Z) (executable : bool) (m : mach) : Z * mach :=
  let page := align_down vaddr VM_PAGE_SIZE in
  let old_phys := vm_translate_user_read space page m in
  match space with
  | None => (-1, m)
  | Some cr3 =>
      if old_phys =? 0 then (-1, m) else
      let '(frame, m) := vm_rpc_alloc_frame m in
      if frame =? 0 then (-1, m) else
      let m := mem_copy frame old_phys (Z.to_nat VM_PAGE_SIZE) m in
      let '(rc, m) := arch_vm_map_page nx_supported cr3 page frame true true executable m in
      if negb (rc =? 0) then (-1, vm_rpc_free_frame frame m)
      else (0, vm_rpc_free_frame old_phys m)
  end.
(** [kernel_space] has the page table [cr3]. *)
Definition vm_map_kernel_page (cr3 vaddr phys : Z) (writable : bool) (m : mach) : Z * mach :=
  arch_vm_map_page nx_supported cr3 vaddr phys writable false false m.
End Ranges.

Arguments vm_unmap_user_range : simpl never.
Arguments vm_alloc_user_page : simpl never.
Arguments retain_frame : simpl never.

Definition vm_self_test (m : mach) : mach :=
  let '(a, m) := vm_rpc_alloc_frame m in
  let '(b, m) := vm_rpc_alloc_frame m in
  vm_rpc_free_frame a (vm_rpc_free_frame b m).

Definition vm_rpc_total_frames (m : mach) : Z := pmm_total_page_count (pm m).
Definition vm_rpc_free_frames (m : mach) : Z := pmm_free_page_count (pm m).

(** ** Lemmas on bytes *)

Lemma testbit_255 k : Z.testbit 255 k = (0 <=? k) && (k <? 8).
Proof. change 255 with (Z.ones 8). by rewrite Z.testbit_ones. Qed.

Lemma byte_bit w i k : 0 <= i -> 0 <= k -> Z.testbit (byte_of w i) k = (k <? 8) && Z.testbit w (k + 8 * i).
Proof.
  intros Hi Hk. unfold byte_of. rewrite Z.land_spec, Z.shiftr_spec, testbit_255 by lia.
  destruct (Z.leb_spec 0 k); [|lia]. simpl. apply andb_comm.
Qed.

Lemma byte_of_set w i j v : 0 <= i -> 0 <= j ->
  byte_of (set_byte w i v) j = if decide (i = j) then Z.land v 255 else byte_of w j.
Proof.
  intros Hi Hj. apply Z.bits_inj'. intros k Hk. rewrite byte_bit by done.
  unfold set_byte. rewrite Z.lor_spec, Z.land_spec, Z.lnot_spec, !Z.shiftl_spec, Z.land_spec, !testbit_255 by lia.
  destruct (decide (i = j)) as [->|Hne].
  - replace (k + 8 * j - 8 * j) with k by lia. rewrite Z.land_spec, testbit_255.
    destruct (Z.leb_spec 0 k), (Z.ltb_spec k 8); simpl; rewrite ?andb_false_r, ?andb_true_r; (done || lia).
  - rewrite byte_bit by done.
    destruct (Z.ltb_spec k 8), (Z.leb_spec 0 (k + 8 * j - 8 * i)), (Z.ltb_spec (k + 8 * j - 8 * i) 8);
      simpl; rewrite ?andb_false_r, ?andb_true_r, ?orb_false_r; (done || lia).
Qed.

Lemma rd8_wr8_eq a v m : rd8 a (wr8 a v m) = Z.land v 255.
Proof.
  unfold rd8, wr8. rewrite rd_wr_eq. pose proof (Z.mod_pos_bound a 8 ltac:(lia)).
  rewrite byte_of_set by lia. by rewrite decide_True.
Qed.

Lemma rd8_wr8_ne a b v m : a <> b -> rd8 b (wr8 a v m) = rd8 b m.
Proof.
  intros Hne. unfold rd8, wr8. destruct (decide (word_addr a = word_addr b)) as [Heq|Hw].
  - rewrite Heq, rd_wr_eq. pose proof (Z.mod_pos_bound a 8 ltac:(lia)). pose proof (Z.mod_pos_bound b 8 ltac:(lia)).
    rewrite byte_of_set by lia. rewrite decide_False; [done|]. unfold word_addr in Heq. lia.
  - by rewrite rd_wr_ne.
Qed.

(** [m'] differs from [m] in words of the frame [f] only. *)
Record frame_only (f : Z) (m m' : mach) : Prop := {
  fo_pm : pm m' = pm m;
  fo_mem a : (forall i, 0 <= i < 512 -> a <> slot_addr f i) -> rd a m' = rd a m;
}.

Lemma frame_only_refl f m : frame_only f m m.
Proof. by constructor. Qed.

Lemma frame_only_trans f m m1 m2 : frame_only f m m1 -> frame_only f m1 m2 -> frame_only f m m2.
Proof. intros [P1 M1] [P2 M2]. constructor; [congruence|]. intros a Ha. rewrite M2, M1 by done. done. Qed.

Lemma word_in_frame f a : is_frame f -> f <= a < f + 4096 -> exists i, 0 <= i < 512 /\ word_addr a = slot_addr f i.
Proof.
  intros [_ Hf] Ha. exists ((a - f) / 8). unfold word_addr, slot_addr. pose proof (Z.div_mod f 4096 ltac:(lia)).
  pose proof (Z.div_mod (a - f) 8 ltac:(lia)). pose proof (Z.mod_pos_bound (a - f) 8 ltac:(lia)).
  assert (a mod 8 = (a - f) mod 8) as ->; [|lia].
  replace a with (a - f + (512 * (f / 4096)) * 8) at 1 by lia. apply Z_mod_plus_full.
Qed.

Lemma other_frame f g a : is_frame f -> is_frame g -> g <> f -> g <= a < g + 4096 -> ~ (f <= a < f + 4096).
Proof.
  intros [_ Hf] [_ Hg] Hne Ha. pose proof (Z.div_mod f 4096 ltac:(lia)). pose proof (Z.div_mod g 4096 ltac:(lia)). lia.
Qed.

Lemma wr8_frame f a v m : is_frame f -> f <= a < f + 4096 -> frame_only f m (wr8 a v m).
Proof.
  intros Hf Ha. destruct (word_in_frame f a Hf Ha) as (i & Hi & Hw). constructor; [done|].
  intros b Hb. unfold wr8. apply rd_wr_ne. rewrite Hw. apply not_eq_sym. auto.
Qed.

Lemma rd8_frame f m m' a : is_frame f -> frame_only f m m' -> ~ (f <= a < f + 4096) -> rd8 a m' = rd8 a m.
Proof.
  intros [Hr Hf] [_ Hm] Ha. unfold rd8. rewrite Hm; [done|]. intros i Hi. unfold slot_addr, word_addr.
  pose proof (Z.div_mod f 4096 ltac:(lia)). pose proof (Z.div_mod a 8 ltac:(lia)). pose proof (Z.mod_pos_bound a 8 ltac:(lia)). lia.
Qed.

(** Storing bytes inside one frame. *)
Lemma store_bytes_ok f bytes : forall dst m, is_frame f -> f <= dst -> dst + Z.of_nat (length bytes) <= f + 4096 ->
  frame_only f m (store_bytes dst bytes m) /\
  forall a, rd8 a (store_bytes dst bytes m) =
    match bytes !! Z.to_nat (a - dst) with
    | Some b => if dst <=? a then Z.land b 255 else rd8 a m
    | None => rd8 a m
    end.
Proof.
  induction bytes as [|b bytes IH]; intros dst m Hf H1 H2.
  - split; [apply frame_only_refl|]. intros a. by rewrite lookup_nil.
  - simpl in *. destruct (IH (dst + 1) (wr8 dst b m) Hf) as [Ho Hr]; [lia|lia|]. split.
    { eapply frame_only_trans; [|exact Ho]. apply wr8_frame; [done|lia]. }
    intros a. rewrite Hr. destruct (Z.leb_spec dst a).
    + destruct (decide (a = dst)) as [->|Hne].
      * rewrite Z.sub_diag. simpl. destruct (Z.leb_spec (dst + 1) dst); [lia|].
        rewrite rd8_wr8_eq. by destruct (bytes !! _).
      * replace (Z.to_nat (a - dst)) with (S (Z.to_nat (a - (dst + 1)))) by lia. simpl.
        destruct (Z.leb_spec (dst + 1) a); [|lia]. destruct (bytes !! _); [done|]. by apply rd8_wr8_ne.
    + destruct (Z.leb_spec (dst + 1) a); [lia|]. rewrite rd8_wr8_ne by lia.
      by destruct (bytes !! _), ((b :: bytes) !! _).
Qed.

Lemma mem_zero_ok f n m : is_frame f -> Z.of_nat n <= 4096 ->
  frame_only f m (mem_zero f n m) /\
  forall a, rd8 a (mem_zero f n m) = if (f <=? a) && (a <? f + Z.of_nat n) then 0 else rd8 a m.
Proof.
  intros Hf. unfold mem_zero. induction n as [|n IH]; intros Hn.
  - split; [apply frame_only_refl|]. intros a. destruct (Z.leb_spec f a), (Z.ltb_spec a (f + Z.of_nat 0)); (done || lia).
  - rewrite seq_S, fold_left_app. simpl fold_left. rewrite Nat2Z.inj_succ in *. destruct IH as [Ho Hr]; [lia|]. split.
    { eapply frame_only_trans; [exact Ho|]. apply wr8_frame; [done|lia]. }
    intros a. destruct (decide (a = f + Z.of_nat n)) as [->|Hne].
    + rewrite rd8_wr8_eq. destruct (Z.leb_spec f (f + Z.of_nat n)), (Z.ltb_spec (f + Z.of_nat n) (f + Z.succ (Z.of_nat n)));
        simpl; (done || lia).
    + rewrite rd8_wr8_ne, Hr by done.
      destruct (Z.leb_spec f a), (Z.ltb_spec a (f + Z.of_nat n)), (Z.ltb_spec a (f + Z.succ (Z.of_nat n))); simpl; (done || lia).
Qed.

(** Copying a frame to another. *)
Lemma mem_copy_ok f g n m : is_frame f -> is_frame g -> f <> g -> Z.of_nat n <= 4096 ->
  frame_only f m (mem_copy f g n m) /\
  forall a, rd8 a (mem_copy f g n m) = if (f <=? a) && (a <? f + Z.of_nat n) then rd8 (g + (a - f)) m else rd8 a m.
Proof.
  intros Hf Hg Hne. unfold mem_copy. induction n as [|n IH]; intros Hn.
  - split; [apply frame_only_refl|]. intros a. destruct (Z.leb_spec f a), (Z.ltb_spec a (f + Z.of_nat 0)); (done || lia).
  - rewrite seq_S, fold_left_app. simpl fold_left. rewrite Nat2Z.inj_succ in *. destruct IH as [Ho Hr]; [lia|]. split.
    { eapply frame_only_trans; [exact Ho|]. apply wr8_frame; [done|lia]. }
    set (m1 := fold_left _ _ _) in *. assert (forall i, 0 <= i < 4096 -> rd8 (g + i) m1 = rd8 (g + i) m) as Hgk.
    { intros i Hi. apply (rd8_frame f); [done|done|]. apply (other_frame f g); [done|done|done|lia]. }
    intros a. destruct (decide (a = f + Z.of_nat n)) as [->|Hne'].
    + rewrite rd8_wr8_eq, Hgk by lia.
      destruct (Z.leb_spec f (f + Z.of_nat n)), (Z.ltb_spec (f + Z.of_nat n) (f + Z.succ (Z.of_nat n))); simpl; try lia.
      replace (f + Z.of_nat n - f) with (Z.of_nat n) by lia. unfold rd8, byte_of. by rewrite <- Z.land_assoc.
    + rewrite rd8_wr8_ne, Hr by done.
      destruct (Z.leb_spec f a), (Z.ltb_spec a (f + Z.of_nat n)), (Z.ltb_spec a (f + Z.succ (Z.of_nat n))); simpl; (done || lia).
Qed.

(** ** Ownership of frames

    [S] gives the tables of every address space, [U] the entries of all user
    pages by space and page number, [E] the frames held by the kernel itself
    while it works on a range.  Every frame in use by them has exactly as many
    references as pages that map it and holders. *)

Notation spaces := (gmap Z (gmap Z (Z * Z))).
Notation user_pages := (gmap (Z * Z) Z).

Definition frame_list (U : user_pages) : list Z := (fun p => next_frame p.2) <$> map_to_list U.
Definition mapped (U : user_pages) : gmultiset Z := list_to_set_disj (frame_list U).
Definition owned (U : user_pages) (E : gmultiset Z) : gmultiset Z := mapped U ⊎ E.

Definition is_table (S : spaces) (t : Z) : Prop := exists cr3 G, S !! cr3 = Some G /\ is_Some (G !! t).

Record vm_inv (S : spaces) (U : user_pages) (E : gmultiset Z) (m : mach) : Prop := {
  vi_mach : mach_wf m;
  vi_space cr3 G : S !! cr3 = Some G -> space_wf G cr3 m;
  vi_disj cr3 cr3' G G' t : S !! cr3 = Some G -> S !! cr3' = Some G' ->
    is_Some (G !! t) -> is_Some (G' !! t) -> cr3 = cr3';
  vi_user cr3 n e : U !! (cr3, n) = Some e <->
    is_Some (S !! cr3) /\ 0 <= n < 2 ^ 36 /\ view cr3 m n = e /\ is_user e = true;
  vi_refs f : f ∈ owned U E -> f <> 0 /\ ~ is_table S f /\
    frames (pm m) !! f = Some (Used (Z.of_nat (multiplicity f (owned U E))));
}.

(** Arithmetic on the multiplicities of frames. *)
Ltac refs_lia :=
  unfold owned in *; rewrite ?elem_of_multiplicity in *;
  rewrite ?multiplicity_disj_union, ?multiplicity_difference, ?multiplicity_singleton in *;
  repeat case_decide; simplify_eq; lia.

Lemma mapped_insert U k e : U !! k = None -> mapped (<[k := e]> U) = {[+ next_frame e +]} ⊎ mapped U.
Proof.
  intros Hk. unfold mapped, frame_list. rewrite map_to_list_insert by done. done.
Qed.

Lemma mapped_delete U k e : U !! k = Some e -> mapped U = {[+ next_frame e +]} ⊎ mapped (delete k U).
Proof. intros Hk. rewrite <- (mapped_insert (delete k U) k e) by apply lookup_delete_eq. by rewrite insert_delete_id. Qed.

Lemma mapped_elem U f : f ∈ mapped U <-> exists k e, U !! k = Some e /\ next_frame e = f.
Proof.
  unfold mapped, frame_list. rewrite elem_of_list_to_set_disj, list_elem_of_fmap. split.
  - intros ([k e] & -> & Hp). apply elem_of_map_to_list in Hp. eauto.
  - intros (k & e & Hk & <-). exists (k, e). split; [done|]. by apply elem_of_map_to_list.
Qed.

Lemma refs_back (E : gmultiset Z) f : (E ⊎ {[+ f +]}) ∖ {[+ f +]} = E.
Proof. multiset_solver. Qed.

Definition released (o : option Z) : gmultiset Z := from_option (fun e => {[+ next_frame e +]}) ∅ o.

Lemma owned_replace (U : user_pages) (E : gmultiset Z) k e f : f ∈ E -> next_frame e = f ->
  owned (<[k := e]> U) (E ∖ {[+ f +]} ⊎ released (U !! k)) = owned U E.
Proof.
  intros Hf He. unfold owned. destruct (U !! k) as [e0|] eqn:Hk; simpl.
  - rewrite <- insert_delete_eq, mapped_insert, He by apply lookup_delete_eq. rewrite (mapped_delete U k e0 Hk). multiset_solver.
  - rewrite mapped_insert, He by done. multiset_solver.
Qed.

Lemma owned_release (U : user_pages) (E : gmultiset Z) k e : U !! k = Some e -> owned (delete k U) (E ⊎ {[+ next_frame e +]}) = owned U E.
Proof. intros Hk. unfold owned. rewrite (mapped_delete U k e Hk). multiset_solver. Qed.

Lemma owned_update (U : user_pages) (E : gmultiset Z) k e e' : U !! k = Some e -> next_frame e' = next_frame e -> owned (<[k := e']> U) E = owned U E.
Proof.
  intros Hk He. unfold owned. rewrite <- insert_delete_eq, mapped_insert, He by apply lookup_delete_eq.
  by rewrite (mapped_delete U k e Hk).
Qed.
(** Tables stay as they are while their words and their frames do. *)
Definition same_tables (G : gmap Z (Z * Z)) (m m' : mach) : Prop := forall t x, G !! t = Some x ->
  frames (pm m') !! t = frames (pm m) !! t /\ forall i, 0 <= i < 512 -> rd (slot_addr t i) m' = rd (slot_addr t i) m.

Lemma same_tables_wf G cr3 m m' : space_wf G cr3 m -> same_tables G m m' -> space_wf G cr3 m'.
Proof.
  intros Hwf Hs. assert (forall t x i, G !! t = Some x -> 0 <= i < 512 -> rd (slot_addr t i) m' = rd (slot_addr t i) m) as Hr.
  { intros t x i Ht Hi. by apply (Hs t x). }
  constructor; try apply Hwf.
  - intros t x Ht. destruct (Hs t x Ht) as [-> _]. by apply (sw_used _ _ _ Hwf t x).
  - intros t l b i Ht Hl Hi. rewrite (Hr t _ i Ht Hi). by apply (sw_entry _ _ _ Hwf).
  - intros t l b Ht Hl. destruct (sw_parent _ _ _ Hwf t l b Ht Hl) as (p & Hp & He). exists p. split; [done|].
    rewrite (Hr p _ _ Hp) by (apply Z.mod_pos_bound; lia). done.
  - intros t l b i j Ht Hl Hi Hj e e'. unfold e', e. clear e e'. rewrite (Hr t _ i Ht Hi). intros P L Us.
    destruct (sw_entry _ _ _ Hwf t l b i Ht Hl Hi) as [?|[(_ & _ & ? & _)|(_ & _ & _ & Hn)]]; [congruence..|].
    rewrite (Hr _ _ j Hn Hj). by apply (sw_user _ _ _ Hwf t l b i j).
Qed.

Lemma same_tables_pte G cr3 m m' va : space_wf G cr3 m -> same_tables G m m' -> pte_of cr3 va m' = pte_of cr3 va m.
Proof.
  intros Hwf Hs. pose proof (same_tables_wf _ _ _ _ Hwf Hs) as Hwf'.
  assert (forall t x i, G !! t = Some x -> 0 <= i < 512 -> rd (slot_addr t i) m' = rd (slot_addr t i) m) as Hr.
  { intros t x i Ht Hi. by apply (Hs t x). }
  destruct (pte_cases _ _ _ Hwf va) as [(t & Ht)|[(t & Ht & P & L)|(H0 & H1 & H2)]].
  - by rewrite (pte_page _ _ _ Hwf t va Ht), (pte_page _ _ _ Hwf' t va Ht), (Hr t _ _ Ht (idx_range 1 va)).
  - rewrite (pte_of_large _ _ _ Hwf t va Ht P L).
    rewrite (pte_of_large _ _ _ Hwf' t va Ht); by rewrite (Hr t _ _ Ht (idx_range 2 va)).
  - rewrite H0. destruct (pte_cases _ _ _ Hwf' va) as [(t & Ht)|[(t & Ht & P & _)|(H0' & _)]]; [by destruct (H1 t)| |done].
    rewrite (Hr t _ _ Ht (idx_range 2 va)), (H2 t Ht) in P. done.
Qed.

(** The views of all spaces. *)
Definition same_views (S : spaces) (m m' : mach) : Prop :=
  forall cr3 va, is_Some (S !! cr3) -> pte_of cr3 va m' = pte_of cr3 va m.

(** The bytes of the frames in use. *)
Definition same_bytes (U : user_pages) (E : gmultiset Z) (m m' : mach) : Prop :=
  forall f a, f ∈ owned U E -> f <= a < f + 4096 -> rd8 a m' = rd8 a m.

Section Inv.
Context (S : spaces) (U : user_pages) (E : gmultiset Z) (m : mach) (Hinv : vm_inv S U E m).

Lemma owned_frame f : f ∈ owned U E -> is_frame f.
Proof. intros (_ & _ & Hf)%(vi_refs _ _ _ _ Hinv). by eapply mw_frame; [apply Hinv|]. Qed.

Lemma table_used t : is_table S t -> frames (pm m) !! t = Some (Used 1).
Proof. intros (cr3 & G & HS & [x Ht]). by apply (sw_used _ _ _ (vi_space _ _ _ _ Hinv _ _ HS) t x). Qed.

(** A change outside the tables keeps the invariant. *)
Lemma inv_step E' m' : mach_wf m' ->
  (forall cr3 G, S !! cr3 = Some G -> same_tables G m m') ->
  (forall f, f ∈ owned U E' -> f <> 0 /\ ~ is_table S f /\
     frames (pm m') !! f = Some (Used (Z.of_nat (multiplicity f (owned U E'))))) ->
  vm_inv S U E' m' /\ same_views S m m'.
Proof.
  intros Hm Hs Hr. assert (same_views S m m') as Hv.
  { intros cr3 va [G HG]. by apply (same_tables_pte G); [apply (vi_space _ _ _ _ Hinv)|apply (Hs cr3)]. }
  split; [|done]. constructor; [done|..|done].
  - intros cr3 G HG. eapply same_tables_wf; [by apply (vi_space _ _ _ _ Hinv)|by apply (Hs cr3)].
  - apply (vi_disj _ _ _ _ Hinv).
  - intros cr3 n e. rewrite (vi_user _ _ _ _ Hinv). split; intros (HS & Hn & He & Hu); unfold view in *;
      (split; [done|]; split; [done|]; split; [|done]); rewrite <- He; [|symmetry]; by apply Hv.
Qed.

(** Writing a frame that is in use. *)
Lemma write_owned f m' : f ∈ owned U E -> frame_only f m m' -> vm_inv S U E m' /\ same_views S m m'.
Proof.
  intros Hf [Hpm Hmem]. pose proof (owned_frame f Hf) as Hff. destruct (vi_refs _ _ _ _ Hinv f Hf) as (_ & Hnt & _).
  apply inv_step.
  - destruct (vi_mach _ _ _ _ Hinv). by constructor; rewrite Hpm.
  - intros cr3 G HG t x Ht. rewrite Hpm. split; [done|]. intros i Hi. apply Hmem. intros j Hj.
    apply slot_ne; [|done|done|done|].
    + by apply (sw_used _ _ _ (vi_space _ _ _ _ Hinv _ _ HG) t x).
    + intros ->. apply Hnt. exists cr3, G. eauto.
  - intros g Hg. rewrite Hpm. by apply (vi_refs _ _ _ _ Hinv).
Qed.

(** Changes of the frame map that leave memory and the tables' frames alone. *)
Lemma pm_step E' p : mach_wf (with_pm p m) ->
  (forall t, is_table S t -> frames p !! t = frames (pm m) !! t) ->
  (forall f, f ∈ owned U E' -> f <> 0 /\ ~ is_table S f /\
     frames p !! f = Some (Used (Z.of_nat (multiplicity f (owned U E'))))) ->
  vm_inv S U E' (with_pm p m) /\ same_views S m (with_pm p m).
Proof.
  intros Hm Ht Hr. apply inv_step; [done| |done]. intros cr3 G HG t x Hx. split; [|done].
  apply Ht. exists cr3, G. eauto.
Qed.

Lemma alloc_frame_ok :
  let '(f, m') := vm_rpc_alloc_frame m in
  f = 0 /\ m' = m \/
  f <> 0 /\ is_frame f /\ f ∉ owned U E /\ ~ is_table S f /\ mem m' = mem m /\
    vm_inv S U (E ⊎ {[+ f +]}) m' /\ same_views S m m'.
Proof.
  unfold vm_rpc_alloc_frame. pose proof (page_alloc_ok m (vi_mach _ _ _ _ Hinv)) as Ha.
  destruct (pmm_page_alloc (pm m)) as [page p]. cbv zeta in Ha.
  destruct Ha as [(-> & _ & ->)|(Hp & H0 & Hf & Hfree & Hfr & Hm')]; [left; by destruct m|].
  destruct page as [i|]; [|done]. set (f := pmm_page_addr (Some i) p) in *. right.
  assert (f ∉ owned U E) as Hn. { intros (_ & _ & Hu)%(vi_refs _ _ _ _ Hinv). congruence. }
  assert (~ is_table S f) as Hnt by (intros Ht%table_used; congruence).
  repeat (split; [done|]). apply pm_step; [done|..].
  - intros t Ht. rewrite Hfr. apply lookup_insert_ne. intros ->. done.
  - intros g Hg. unfold owned in *. rewrite Hfr. destruct (decide (g = f)) as [->|Hne].
    + rewrite lookup_insert_eq. do 2 (split; [done|]). do 2 f_equal. refs_lia.
    + assert (g ∈ mapped U ⊎ E) as Hg' by refs_lia.
      rewrite lookup_insert_ne by done. destruct (vi_refs _ _ _ _ Hinv g Hg') as (? & ? & ->). do 2 (split; [done|]).
      do 2 f_equal. refs_lia.
Qed.

Lemma free_frame_inv f : f ∈ E -> vm_inv S U (E ∖ {[+ f +]}) (vm_rpc_free_frame f m) /\
  same_views S m (vm_rpc_free_frame f m) /\ mem (vm_rpc_free_frame f m) = mem m.
Proof.
  intros Hf. assert (f ∈ owned U E) as Hfo by refs_lia.
  destruct (vi_refs _ _ _ _ Hinv f Hfo) as (H0 & Hnt & Hu). destruct (vi_mach _ _ _ _ Hinv) as [W1 W2 W3].
  destruct (free_addr_refines f (pm m) W1) as [W' Hfr]. unfold release_frame in Hfr. rewrite Hu in Hfr.
  assert (multiplicity f (owned U E) = (1 + multiplicity f (owned U (E ∖ {[+ f +]})))%nat) as Hmul by refs_lia.
  assert (forall g, frames (pmm_page_free_addr f (pm m)) !! g =
    if decide (g = f) then Some (if decide (multiplicity f (owned U (E ∖ {[+ f +]})) = 0%nat) then Free
      else Used (Z.of_nat (multiplicity f (owned U (E ∖ {[+ f +]}))))) else frames (pm m) !! g) as Hlook.
  { intros g. rewrite Hfr. destruct (Z.ltb_spec 1 (Z.of_nat (multiplicity f (owned U E)))); destruct (decide (g = f)) as [->|];
      rewrite ?lookup_insert_eq, ?lookup_insert_ne by done; try done; destruct (decide (_ = 0%nat)); try lia; do 2 f_equal; lia. }
  enough (vm_inv S U (E ∖ {[+ f +]}) (vm_rpc_free_frame f m) /\ same_views S m (vm_rpc_free_frame f m)) as [? ?] by done.
  unfold vm_rpc_free_frame, free_frame. apply pm_step.
  - constructor; simpl; [done|..].
    + intros a st. rewrite Hlook. destruct (decide (a = f)) as [->|]; [|eauto]. intros _. by apply (owned_frame f Hfo).
    + rewrite Hlook. by rewrite decide_False.
  - intros t Ht. rewrite Hlook, decide_False; [done|]. by intros ->.
  - intros g Hg. rewrite Hlook. destruct (decide (g = f)) as [->|Hne].
    + do 2 (split; [done|]). rewrite decide_False; [done|]. refs_lia.
    + assert (g ∈ owned U E) as Hg' by refs_lia.
      destruct (vi_refs _ _ _ _ Hinv g Hg') as (? & ? & ->). do 2 (split; [done|]).
      do 2 f_equal. refs_lia.
Qed.

Lemma retain_frame_ok f : f ∈ owned U E -> Z.of_nat (multiplicity f (owned U E)) + 1 < 2 ^ 32 ->
  exists m', retain_frame f m = (0, m') /\ vm_inv S U (E ⊎ {[+ f +]}) m' /\ same_views S m m' /\ mem m' = mem m.
Proof.
  intros Hf Hb. destruct (vi_refs _ _ _ _ Hinv f Hf) as (H0 & Hnt & Hu). destruct (vi_mach _ _ _ _ Hinv) as [W1 W2 W3].
  pose proof (retain_refines f (pm m) W1) as Hr. unfold retain_frame. simpl in Hr.
  destruct (pmm_page_retain_addr f (pm m)) as [rc p]. destruct Hr as [Wp Hs].
  assert (multiplicity f (owned U E) <> 0%nat) as Hpos by refs_lia.
  assert (rc = 0 /\ frames p = <[f := Used (Z.of_nat (multiplicity f (owned U E)) + 1)]> (frames (pm m))) as [-> Hfr].
  { inversion Hs; subst; rewrite Hu in *; simplify_eq.
    - split; [done|]. rewrite u32_small; [done|]. unfold in_u32. lia.
    - exfalso. assert (Z.of_nat (multiplicity f (owned U E)) = 0) as Hz by eauto. lia. }
  exists (with_pm p m). split; [done|].
  enough (vm_inv S U (E ⊎ {[+ f +]}) (with_pm p m) /\ same_views S m (with_pm p m)) as [? ?] by done.
  apply pm_step; rewrite ?Hfr.
  - constructor; simpl; [done|..]; rewrite Hfr.
    + intros a st [[<- _]|[_ Hl]]%lookup_insert_Some; [by apply (owned_frame f)|eauto].
    + by rewrite lookup_insert_ne.
  - intros t Ht. apply lookup_insert_ne. by intros ->.
  - intros g Hg. destruct (decide (g = f)) as [->|Hne].
    + rewrite lookup_insert_eq. do 2 (split; [done|]). do 2 f_equal. refs_lia.
    + assert (g ∈ owned U E) as Hg' by refs_lia.
      rewrite lookup_insert_ne by done. destruct (vi_refs _ _ _ _ Hinv g Hg') as (? & ? & ->). do 2 (split; [done|]).
      do 2 f_equal. refs_lia.
Qed.
(** A change of one space, or a new space, that only takes free frames for new
    tables. *)
Section OneSpace.
Context (cr3 : Z) (G G' : gmap Z (Z * Z)) (m' : mach).
Context (HG : S !! cr3 = Some G \/ G = ∅ /\ S !! cr3 = None).
Context (Hwf' : space_wf G' cr3 m') (Hg : grows G m G' m').

Lemma grown_fresh t : frames (pm m) !! t <> Some Free -> G !! t = None -> G' !! t = None.
Proof.
  intros Hf Hn. destruct (G' !! t) as [x|] eqn:Ht; [|done]. by apply (gr_new _ _ _ _ Hg t x Ht) in Hn.
Qed.

Lemma untouched t : is_frame t -> G' !! t = None ->
  frames (pm m') !! t = frames (pm m) !! t /\ forall i, 0 <= i < 512 -> rd (slot_addr t i) m' = rd (slot_addr t i) m.
Proof.
  intros Hf Hn. split; [apply (gr_frames _ _ _ _ Hg); by left|]. intros i Hi. apply (gr_mem _ _ _ _ Hg).
  intros t' x j Ht' Hj. apply slot_ne; [done|by apply (sw_used _ _ _ Hwf' t' x)|done|done|congruence].
Qed.

Lemma other_table cr3' G2 t x : cr3' <> cr3 -> S !! cr3' = Some G2 -> G2 !! t = Some x -> is_frame t /\ G' !! t = None.
Proof.
  intros Hne H2 Ht. destruct (sw_used _ _ _ (vi_space _ _ _ _ Hinv _ _ H2) t x Ht) as (Hu & Hf & _). split; [done|].
  apply grown_fresh; [congruence|]. destruct HG as [HG'|[-> _]]; [|apply lookup_empty].
  destruct (G !! t) eqn:Hgt; [|done]. destruct Hne. eapply (vi_disj _ _ _ _ Hinv cr3' cr3 G2 G t); eauto.
Qed.

Lemma owned_untouched f : f ∈ owned U E -> is_frame f /\ G' !! f = None.
Proof.
  intros Hf. split; [by apply (owned_frame f)|]. destruct (vi_refs _ _ _ _ Hinv f Hf) as (_ & Hnt & Hu).
  apply grown_fresh; [congruence|]. destruct HG as [HG'|[-> _]]; [|apply lookup_empty].
  destruct (G !! f) eqn:Hgf; [|done]. destruct Hnt. exists cr3, G. eauto.
Qed.

Lemma grow_bytes : same_bytes U E m m'.
Proof.
  intros f a Hf Ha. destruct (owned_untouched f Hf) as [Hff Hn]. destruct (word_in_frame f a Hff Ha) as (i & Hi & Hw).
  unfold rd8. rewrite Hw. by rewrite (proj2 (untouched f Hff Hn) i Hi).
Qed.

Lemma grow_inv U' E' : owned U' E' = owned U E ->
  (forall n e, U' !! (cr3, n) = Some e <-> 0 <= n < 2 ^ 36 /\ view cr3 m' n = e /\ is_user e = true) ->
  (forall cr3' n, cr3' <> cr3 -> U' !! (cr3', n) = U !! (cr3', n)) ->
  vm_inv (<[cr3 := G']> S) U' E' m'.
Proof.
  intros Ho HU Hoth.
  assert (forall cr3' G2, cr3' <> cr3 -> S !! cr3' = Some G2 -> same_tables G2 m m') as Hs.
  { intros cr3' G2 Hne H2 t x Ht. destruct (other_table _ _ _ _ Hne H2 Ht). by apply untouched. }
  constructor.
  - apply Hg.
  - intros cr3' G2 [[<- <-]|[Hne H2]]%lookup_insert_Some; [done|].
    eapply same_tables_wf; [by apply (vi_space _ _ _ _ Hinv)|by eapply Hs].
  - intros c1 c2 G1 G2 t [[<- <-]|[Hne1 H1]]%lookup_insert_Some [[<- <-]|[Hne2 H2]]%lookup_insert_Some [x1 T1] [x2 T2]; [done|..].
    + destruct (other_table c2 G2 t x2) as [_ Hn]; [done..|]. congruence.
    + destruct (other_table c1 G1 t x1) as [_ Hn]; [done..|]. congruence.
    + eapply (vi_disj _ _ _ _ Hinv); eauto.
  - intros c n e. destruct (decide (c = cr3)) as [->|Hne].
    + rewrite HU. split; [|tauto]. intros H. split; [|done]. rewrite lookup_insert_eq. eauto.
    + rewrite Hoth, (vi_user _ _ _ _ Hinv), lookup_insert_ne by done. split; intros ([G2 H2] & Hn & He & Hu);
        (split; [eauto|]; split; [done|]; split; [|done]); unfold view in *.
      * rewrite (same_tables_pte G2 c m m'); [done|by apply (vi_space _ _ _ _ Hinv)|by eapply Hs].
      * rewrite <- (same_tables_pte G2 c m m'); [done|by apply (vi_space _ _ _ _ Hinv)|by eapply Hs].
  - intros f. rewrite Ho. intros Hf. destruct (vi_refs _ _ _ _ Hinv f Hf) as (H0 & Hnt & Hu).
    destruct (owned_untouched f Hf) as [Hff Hn]. split; [done|]. rewrite (proj1 (untouched f Hff Hn)). split; [|done].
    intros (c & G2 & [[<- <-]|[Hne H2]]%lookup_insert_Some & [x Hx]); [congruence|]. apply Hnt. exists c, G2. eauto.
Qed.
End OneSpace.

(** The user pages of one space from the view of it. *)
Lemma user_entries cr3 n e : is_Some (S !! cr3) ->
  U !! (cr3, n) = Some e <-> 0 <= n < 2 ^ 36 /\ view cr3 m n = e /\ is_user e = true.
Proof. intros HS. rewrite (vi_user _ _ _ _ Hinv). tauto. Qed.

End Inv.

(** ** The page-table operations on owned pages *)

Section PageOps.
Context (nx : bool).
Context (S : spaces) (U : user_pages) (E : gmultiset Z) (m : mach) (Hinv : vm_inv S U E m).

Lemma view_update cr3 m' va e n : (forall va', pte_of cr3 va' m' = if decide (pfx 0 va' = pfx 0 va) then e else pte_of cr3 va' m) ->
  0 <= n < 2 ^ 36 -> view cr3 m' n = if decide (n = page_number va) then e else view cr3 m n.
Proof. intros H Hn. exact (pte_view cr3 m m' va e H n Hn). Qed.

(** Entries after one of them changed. *)
Lemma changed_entries cr3 m' va e n e' : is_Some (S !! cr3) ->
  (forall va', pte_of cr3 va' m' = if decide (pfx 0 va' = pfx 0 va) then e else pte_of cr3 va' m) ->
  (if decide (n = page_number va) then (if is_user e then Some e else None) else U !! (cr3, n)) = Some e' <->
  0 <= n < 2 ^ 36 /\ view cr3 m' n = e' /\ is_user e' = true.
Proof.
  intros HS Hp. destruct (decide (n = page_number va)) as [->|Hne].
  - pose proof (page_number_range va) as Hr. rewrite (view_update cr3 m' va e _ Hp Hr), decide_True by done.
    destruct (is_user e) eqn:He; split; [by intros [= <-]|by intros (_ & -> & _)|done|intros (_ & <- & ?); congruence].
  - rewrite (user_entries S U E m Hinv cr3 n e' HS). split; intros (Hn & Hv & Hu); (split; [done|]; split; [|done]).
    + by rewrite (view_update cr3 m' va e _ Hp Hn), decide_False.
    + by rewrite (view_update cr3 m' va e _ Hp Hn), decide_False in Hv.
Qed.

Definition user_entry (frame : Z) (writable executable : bool) : Z := Z.lor frame (page_flags nx writable true executable).

Lemma user_entry_bits f w x : is_frame f -> is_user (user_entry f w x) = true /\ writable_bit (user_entry f w x) = w /\
  next_frame (user_entry f w x) = f /\ allowed false (user_entry f w x) = true /\ allowed true (user_entry f w x) = w.
Proof.
  intros Hf. destruct (page_flags_bits nx w true x) as (FP & FW & FU & _ & FM). unfold is_user, allowed, user_entry.
  assert (forall i, ~ (12 <= i < 52) -> Z.testbit (Z.lor f (page_flags nx w true x)) i = Z.testbit (page_flags nx w true x) i)
    as Hb by (intros i Hi; by apply lor_low_bit).
  unfold present, user_bit, writable_bit in *. rewrite !Hb, FP, FU, FW by lia.
  split; [done|]. split; [done|]. split; [by apply next_frame_lor|]. by destruct w.
Qed.

Lemma map_inv cr3 va f w x : is_Some (S !! cr3) -> f ∈ E ->
  exists rc m' S', arch_vm_map_page nx cr3 va f w true x m = (rc, m') /\ dom S' = dom S /\ same_bytes U E m m' /\
    (rc = -1 /\ vm_inv S' U E m' \/
     rc = 0 /\ page_offset va = 0 /\
       let k := (cr3, page_number va) in
       vm_inv S' (<[k := user_entry f w x]> U) (E ∖ {[+ f +]} ⊎ released (U !! k)) m').
Proof.
  intros [G HG] Hf. assert (f ∈ owned U E) as Hfo by refs_lia. pose proof (owned_frame S U E m Hinv f Hfo) as Hff.
  destruct (map_page_ok nx G cr3 m va f w true x (vi_space _ _ _ _ Hinv _ _ HG) (vi_mach _ _ _ _ Hinv) Hff)
    as (rc & m' & G' & Hmap & Hwf' & Hg & Hr).
  exists rc, m', (<[cr3 := G']> S). split; [done|]. split; [by rewrite dom_insert_lookup_L by eauto|].
  split; [by apply (grow_bytes S U E m Hinv cr3 G G' m' (or_introl HG))|].
  destruct Hr as [[-> Hp]|(-> & Hal & Hp)]; [left|right].
  - split; [done|]. apply (grow_inv S U E m Hinv cr3 G G' m' (or_introl HG) Hwf' Hg); [done| |done].
    intros n e. rewrite (user_entries S U E m Hinv) by eauto. unfold view. by rewrite Hp.
  - split; [done|]. split; [done|]. destruct (user_entry_bits f w x Hff) as (Bu & _ & Bf & _).
    apply (grow_inv S U E m Hinv cr3 G G' m' (or_introl HG) Hwf' Hg).
    + by apply owned_replace.
    + intros n e. rewrite <- (changed_entries cr3 m' va _ n e (ex_intro _ G HG) Hp). fold (user_entry f w x). rewrite Bu.
      destruct (decide (n = page_number va)) as [->|Hne]; [by rewrite lookup_insert_eq|]. rewrite lookup_insert_ne; [done|congruence].
    + intros c n Hne. rewrite lookup_insert_ne; [done|congruence].
Qed.

Lemma unmap_inv cr3 va : is_Some (S !! cr3) -> page_offset va = 0 ->
  let k := (cr3, page_number va) in
  exists r m', arch_vm_unmap_user_page cr3 va m = (r, m') /\ same_bytes U E m m' /\
    match U !! k with
    | Some e => r = next_frame e /\ r <> 0 /\ vm_inv S (delete k U) (E ⊎ {[+ r +]}) m'
    | None => r = 0 /\ m' = m
    end.
Proof.
  intros [G HG] Hal k. destruct (unmap_user_ok G cr3 m (vi_space _ _ _ _ Hinv _ _ HG) (vi_mach _ _ _ _ Hinv) va)
    as (r & m' & Hun & Hwf' & Hg & Hr). exists r, m'. split; [done|].
  split; [by apply (grow_bytes S U E m Hinv cr3 G G m' (or_introl HG))|]. unfold user_page in Hr. rewrite Hal in Hr.
  rewrite <- (view_page cr3 m va) in Hr. fold (is_user (view cr3 m (page_number va))) in Hr. simpl in Hr.
  destruct (U !! k) as [e|] eqn:Hk.
  - pose proof Hk as (_ & _ & Hv & Hu)%(vi_user _ _ _ _ Hinv). rewrite Hv in Hr. unfold is_user in Hu. rewrite Hu in Hr.
    destruct Hr as [-> Hp]. split; [done|].
    assert (next_frame e ∈ owned U E) as Hfo.
    { unfold owned. assert (next_frame e ∈ mapped U) by (apply mapped_elem; eauto). multiset_solver. }
    split; [by apply (vi_refs _ _ _ _ Hinv)|].
    rewrite <- (insert_id S cr3 G) by done. apply (grow_inv S U E m Hinv cr3 G G m' (or_introl HG) Hwf' Hg).
    + by apply owned_release.
    + intros n e'. rewrite <- (changed_entries cr3 m' va 0 n e' (ex_intro _ G HG) Hp).
      destruct (decide (n = page_number va)) as [->|Hne]; [by unfold k; rewrite lookup_delete_eq|]. rewrite lookup_delete_ne; [done|unfold k; congruence].
    + intros c n Hne. rewrite lookup_delete_ne; [done|unfold k; congruence].
  - destruct (present _ && user_bit _) eqn:Hu; [|done].
    assert (U !! k = Some (view cr3 m (page_number va))) as Hc; [|congruence].
    apply (vi_user _ _ _ _ Hinv). split; [eauto|]. split; [apply page_number_range|done].
Qed.

Lemma protect_inv cr3 va w x : is_Some (S !! cr3) -> page_offset va = 0 ->
  let k := (cr3, page_number va) in
  exists r m', arch_vm_protect_user_page nx cr3 va w x m = (r, m') /\ same_bytes U E m m' /\
    match U !! k with
    | Some e => r = 0 /\ vm_inv S (<[k := set_protection nx w x e]> U) E m'
    | None => r = -1 /\ m' = m
    end.
Proof.
  intros [G HG] Hal k. destruct (protect_user_ok nx G cr3 m (vi_space _ _ _ _ Hinv _ _ HG) (vi_mach _ _ _ _ Hinv) va w x)
    as (r & m' & Hun & Hwf' & Hg & Hr). exists r, m'. split; [done|].
  split; [by apply (grow_bytes S U E m Hinv cr3 G G m' (or_introl HG))|]. unfold user_page in Hr. rewrite Hal in Hr.
  rewrite <- (view_page cr3 m va) in Hr. fold (is_user (view cr3 m (page_number va))) in Hr. simpl in Hr.
  destruct (U !! k) as [e|] eqn:Hk.
  - pose proof Hk as (_ & _ & Hv & Hu)%(vi_user _ _ _ _ Hinv). rewrite Hv in Hr. unfold is_user in Hu. rewrite Hu in Hr.
    destruct Hr as [-> Hp]. split; [done|].
    destruct (set_protection_bits nx w x e) as (BP & BU & _ & _ & BF).
    rewrite <- (insert_id S cr3 G) by done. apply (grow_inv S U E m Hinv cr3 G G m' (or_introl HG) Hwf' Hg).
    + by apply owned_update with e.
    + intros n e'. rewrite <- (changed_entries cr3 m' va _ n e' (ex_intro _ G HG) Hp).
      unfold is_user. rewrite BP, BU, Hu.
      destruct (decide (n = page_number va)) as [->|Hne]; [by unfold k; rewrite lookup_insert_eq|]. rewrite lookup_insert_ne; [done|unfold k; congruence].
    + intros c n Hne. rewrite lookup_insert_ne; [done|unfold k; congruence].
  - destruct (present _ && user_bit _) eqn:Hu; [|done].
    assert (U !! k = Some (view cr3 m (page_number va))) as Hc; [|congruence].
    apply (vi_user _ _ _ _ Hinv). split; [eauto|]. split; [apply page_number_range|done].
Qed.

(** Translation of user addresses. *)
Definition user_addr (cr3 : Z) (write : bool) (va : Z) : option Z :=
  e ← U !! (cr3, page_number va);
  if allowed write e then Some (next_frame e + page_offset va) else None.

Lemma translate_inv cr3 va w : is_Some (S !! cr3) ->
  arch_vm_translate_user cr3 va w m = default 0 (user_addr cr3 w va).
Proof.
  intros [G HG]. rewrite (translate_user_ok _ _ _ (vi_space _ _ _ _ Hinv _ _ HG)). rewrite <- view_page. cbv zeta.
  unfold user_addr. destruct (U !! (cr3, page_number va)) as [e|] eqn:Hk; simpl.
  - pose proof Hk as (_ & _ & -> & Hu)%(vi_user _ _ _ _ Hinv). unfold is_user in Hu.
    apply andb_true_iff in Hu as [_ ->]. rewrite andb_true_r. by destruct (allowed w e).
  - destruct (allowed w _ && user_bit _) eqn:Hu; [|done]. exfalso.
    assert (U !! (cr3, page_number va) = Some (view cr3 m (page_number va))) as Hc; [|congruence].
    apply (vi_user _ _ _ _ Hinv). split; [eauto|]. split; [apply page_number_range|]. split; [done|].
    apply andb_true_iff in Hu as [[Hp _]%andb_true_iff Hu]. unfold is_user. by rewrite Hp, Hu.
Qed.

Lemma user_addr_frame cr3 w va a : user_addr cr3 w va = Some a ->
  exists e, U !! (cr3, page_number va) = Some e /\ allowed w e = true /\ a = next_frame e + page_offset va /\
    next_frame e ∈ owned U E /\ a <> 0.
Proof.
  unfold user_addr. destruct (U !! _) as [e|] eqn:Hk; simpl; [|done]. destruct (allowed w e) eqn:Ha; [|done].
  intros [= <-]. exists e. do 3 (split; [done|]).
  assert (next_frame e ∈ owned U E) as Hfo.
  { unfold owned. assert (next_frame e ∈ mapped U) by (apply mapped_elem; eauto). multiset_solver. }
  split; [done|]. destruct (vi_refs _ _ _ _ Hinv _ Hfo) as (H0 & _). pose proof (page_offset_range va).
  destruct (next_frame_ok e). lia.
Qed.
End PageOps.

(** ** Copying to and from user memory *)

(** The same copies one byte at a time. *)
Fixpoint read_bytes (cr3 : Z) (n : nat) (va : Z) (m : mach) : Z * list Z :=
  match n with
  | O => (0, [])
  | S n =>
      let phys := arch_vm_translate_user cr3 va false m in
      if phys =? 0 then (-1, []) else
      let '(rc, bytes) := read_bytes cr3 n (va + 1) m in (rc, rd8 phys m :: bytes)
  end.

Fixpoint write_bytes (cr3 : Z) (bytes : list Z) (va : Z) (m : mach) : Z * mach :=
  match bytes with
  | [] => (0, m)
  | b :: bytes =>
      let phys := arch_vm_translate_user cr3 va true m in
      if phys =? 0 then (-1, m) else write_bytes cr3 bytes (va + 1) (wr8 phys b m)
  end.

Lemma same_page va i : 0 <= i -> page_offset va + i < 4096 ->
  page_number (va + i) = page_number va /\ page_offset (va + i) = page_offset va + i.
Proof.
  rewrite !page_offset_mod. intros Hi Ho. unfold page_number, pfx. change (2 ^ (12 + 9 * 0)) with 4096.
  pose proof (Z.div_mod va 4096 ltac:(lia)). pose proof (Z.mod_pos_bound va 4096 ltac:(lia)).
  assert ((va + i) / 4096 = va / 4096) as -> by (symmetry; apply Z.div_unique with (va mod 4096 + i); lia).
  split; [done|]. symmetry. apply Z.mod_unique with (va / 4096); lia.
Qed.

Lemma page_offset_end va : page_offset (va + (4096 - page_offset va)) = 0.
Proof.
  rewrite !page_offset_mod. pose proof (Z.div_mod va 4096 ltac:(lia)). symmetry.
  apply Z.mod_unique with (va / 4096 + 1); lia.
Qed.

(** Pages still to visit. *)
Definition visits (cur left : Z) : Z := if left =? 0 then 0 else (page_offset cur + left + 4095) / 4096.

Lemma visits_step cur left : 0 < left -> let chunk := Z.min left (4096 - page_offset cur) in
  0 < chunk <= left /\ page_offset cur + chunk <= 4096 /\ visits (cur + chunk) (left - chunk) < visits cur left.
Proof.
  intros Hl chunk. pose proof (page_offset_range cur) as Ho. unfold chunk, visits. split; [lia|]. split; [lia|].
  destruct (Z.eqb_spec left 0); [lia|].
  assert (1 <= (page_offset cur + left + 4095) / 4096) by (apply Z.div_le_lower_bound; lia).
  destruct (Z.eqb_spec (left - Z.min left (4096 - page_offset cur)) 0); [lia|].
  rewrite Z.min_r by lia. rewrite page_offset_end.
  replace (page_offset cur + left + 4095) with (0 + (left - (4096 - page_offset cur)) + 4095 + 1 * 4096) by lia.
  rewrite Z.div_add by lia. lia.
Qed.

Lemma visits_bound cur len : 0 <= len -> visits cur len < Z.of_nat (rounds len).
Proof.
  intros Hl. unfold visits, rounds, VM_PAGE_SIZE. pose proof (page_offset_range cur). pose proof (Z.div_pos len 4096 ltac:(lia) ltac:(lia)).
  rewrite Z2Nat.id by lia. destruct (len =? 0); [lia|]. apply Z.div_lt_upper_bound; [lia|].
  pose proof (Z.div_mod len 4096). pose proof (Z.mod_pos_bound len 4096). lia.
Qed.

Section Access.
Context (S : spaces) (U : user_pages) (E : gmultiset Z) (cr3 : Z) (HS : is_Some (S !! cr3)).

Lemma translate_page m va i w : vm_inv S U E m -> 0 <= i -> page_offset va + i < 4096 ->
  let p := arch_vm_translate_user cr3 va w m in
  arch_vm_translate_user cr3 (va + i) w m = if p =? 0 then 0 else p + i.
Proof.
  intros Hinv Hi Ho. cbv zeta. rewrite !(translate_inv S U E m Hinv) by done.
  destruct (same_page va i Hi Ho) as [Hn Hoff].
  destruct (user_addr U cr3 w va) as [a|] eqn:Ha.
  - destruct (user_addr_frame S U E m Hinv _ _ _ _ Ha) as (e & He & Hal & -> & _ & H0). simpl. decide_tests.
    unfold user_addr. rewrite Hn, He. simpl. rewrite Hal. simpl. lia.
  - simpl. unfold user_addr in *. rewrite Hn. destruct (U !! _) as [e|]; simpl in *; [|done]. by destruct (allowed w e).
Qed.

(** Reading inside one page. *)
Lemma read_page m k n : forall va, vm_inv S U E m -> page_offset va + Z.of_nat k <= 4096 ->
  read_bytes cr3 (k + n) va m =
    let p := arch_vm_translate_user cr3 va false m in
    if (p =? 0) && negb (k =? 0)%nat then (-1, [])
    else let '(rc, bytes) := read_bytes cr3 n (va + Z.of_nat k) m in (rc, load_bytes p k m ++ bytes).
Proof.
  induction k as [|k IH]; intros va Hinv Ho; cbv zeta.
  - simpl. rewrite andb_false_r, Z.add_0_r. by destruct (read_bytes cr3 n va m).
  - simpl read_bytes. pose proof (translate_page m va 1 false Hinv ltac:(lia)) as Ht. cbv zeta in Ht.
    set (p := arch_vm_translate_user cr3 va false m) in *. destruct (Z.eqb_spec p 0) as [Hp|Hp]; [done|]. simpl andb.
    destruct (decide (k = 0%nat)) as [->|Hk].
    + change (load_bytes p 1 m) with [rd8 (p + 0) m]. rewrite Z.add_0_r. change (Z.of_nat 1) with 1. simpl.
      by destruct (read_bytes cr3 n (va + 1) m).
    + destruct (same_page va 1) as [_ Hoff]; [lia|lia|].
      rewrite IH by (done || lia). rewrite Ht by lia. cbv zeta.
      assert (p + 1 =? 0 = false) as ->.
      { apply Z.eqb_neq. unfold p in *. rewrite (translate_inv S U E m Hinv) in * by done.
        destruct (user_addr U cr3 false va) as [a|] eqn:Ha; [|done].
        destruct (user_addr_frame S U E m Hinv _ _ _ _ Ha) as (e & _ & _ & -> & _). simpl.
        destruct (next_frame_ok e). pose proof (page_offset_range va). lia. }
      simpl andb. cbv iota. replace (va + 1 + Z.of_nat k) with (va + Z.of_nat (Datatypes.S k)) by lia.
      destruct (read_bytes cr3 n _ m) as [rc bytes]. f_equal. unfold load_bytes.
      change (seq 0 (Datatypes.S k)) with (0%nat :: seq 1 k). rewrite fmap_cons, <- fmap_S_seq, <- list_fmap_compose.
      simpl. rewrite Z.add_0_r. f_equal. f_equal. apply list_fmap_ext. intros i j _. simpl. f_equal. lia.
Qed.

Lemma read_loop_ok m fuel : forall va done len, vm_inv S U E m -> 0 <= va -> 0 <= done <= len -> va + len < 2 ^ 64 ->
  visits (va + done) (len - done) < Z.of_nat fuel ->
  read_loop fuel (Some cr3) va done len m = Some (read_bytes cr3 (Z.to_nat (len - done)) (va + done) m).
Proof.
  induction fuel as [|fuel IH]; intros va done len Hinv Hva Hd Hl Hv.
  { unfold visits in Hv. pose proof (page_offset_range (va + done)). destruct (len - done =? 0); [lia|].
    pose proof (Z.div_pos (page_offset (va + done) + (len - done) + 4095) 4096). lia. }
  simpl read_loop. destruct (Z.ltb_spec done len) as [Hlt|Hge].
  2: { replace (len - done) with 0 by lia. done. }
  assert (va +w done = va + done) as -> by (apply u64_small; unfold in_u64; lia).
  assert (len -w done = len - done) as -> by (apply u64_small; unfold in_u64; lia).
  destruct (visits_step (va + done) (len - done)) as (Hc & Ho & Hs); [lia|]. cbv zeta in *.
  unfold chunk_size. change (Z.land (va + done) (VM_PAGE_SIZE - 1)) with (page_offset (va + done)). change VM_PAGE_SIZE with 4096.
  set (c := Z.min (len - done) (4096 - page_offset (va + done))) in *.
  replace (Z.to_nat (len - done)) with (Z.to_nat c + Z.to_nat (len - (done + c)))%nat by lia.
  rewrite read_page by (done || rewrite Z2Nat.id by lia; done). cbv zeta. simpl vm_translate_user_read.
  destruct (Z.to_nat c =? 0)%nat eqn:Hc0; [apply Nat.eqb_eq in Hc0; lia|]. rewrite andb_true_r.
  destruct (_ =? 0); [done|].
  assert (done +w c = done + c) as -> by (apply u64_small; unfold in_u64; lia).
  rewrite IH; [|done|lia|lia|done|].
  - rewrite Z2Nat.id by lia. rewrite Z.add_assoc. simpl. by destruct (read_bytes cr3 _ _ m).
  - replace (va + (done + c)) with (va + done + c) by lia. replace (len - (done + c)) with (len - done - c) by lia. lia.
Qed.

Lemma read_user_ok m va len : vm_inv S U E m -> in_u64 va -> in_u64 len ->
  vm_read_user (Some cr3) va len m =
    Some (if va + len <? 2 ^ 64 then read_bytes cr3 (Z.to_nat len) va m else (-1, [])).
Proof.
  intros Hinv Hva Hlen. unfold vm_read_user, in_u64 in *. simpl orb. destruct (Z.ltb_spec (va + len) (2 ^ 64)) as [Hs|Hs].
  - rewrite u64_small by (unfold in_u64; lia). destruct (Z.ltb_spec (va + len) va); [lia|].
    rewrite (read_loop_ok m); [by rewrite Z.add_0_r, Z.sub_0_r|done|lia|lia|done|].
    rewrite Z.sub_0_r. apply visits_bound. lia.
  - unfold u64. rewrite <- (Z.mod_unique (va + len) (2 ^ 64) 1 (va + len - 2 ^ 64)) by lia.
    destruct (Z.ltb_spec (va + len - 2 ^ 64) va); [done|lia].
Qed.

(** Writing inside one page. *)
Lemma write_page bytes rest : forall m va, vm_inv S U E m -> page_offset va + Z.of_nat (length bytes) <= 4096 ->
  let p := arch_vm_translate_user cr3 va true m in
  if (p =? 0) && negb (length bytes =? 0)%nat then write_bytes cr3 (bytes ++ rest) va m = (-1, m)
  else vm_inv S U E (store_bytes p bytes m) /\
    write_bytes cr3 (bytes ++ rest) va m = write_bytes cr3 rest (va + Z.of_nat (length bytes)) (store_bytes p bytes m).
Proof.
  induction bytes as [|b bytes IH]; intros m va Hinv Ho; cbv zeta.
  - simpl. rewrite andb_false_r, Z.add_0_r. done.
  - rewrite <- app_comm_cons. simpl write_bytes. set (p := arch_vm_translate_user cr3 va true m) in *.
    destruct (Z.eqb_spec p 0) as [Hp|Hp]; [done|]. simpl andb. cbv iota. simpl length in *.
    assert (exists f, f ∈ owned U E /\ f <= p < f + 4096 /\ p = f + page_offset va) as (f & Hf & Hr & Hpf).
    { unfold p in *. rewrite (translate_inv S U E m Hinv) in * by done.
      destruct (user_addr U cr3 true va) as [a|] eqn:Ha; [|done].
      destruct (user_addr_frame S U E m Hinv _ _ _ _ Ha) as (e & _ & _ & -> & He & _). simpl.
      exists (next_frame e). pose proof (page_offset_range va). split; [done|]. lia. }
    destruct (write_owned S U E m Hinv f (wr8 p b m) Hf) as [Hinv1 _].
    { apply wr8_frame; [by apply (owned_frame S U E m Hinv)|done]. }
    destruct (decide (bytes = [])) as [->|Hne].
    + simpl. replace (va + 1) with (va + Z.of_nat 1) by lia. done.
    + assert (0 < length bytes)%nat as Hlen by (destruct bytes; [done|simpl; lia]).
      specialize (IH (wr8 p b m) (va + 1) Hinv1). destruct (same_page va 1) as [_ Hoff]; [lia|lia|]. specialize (IH ltac:(lia)). cbv zeta in IH.
      assert (arch_vm_translate_user cr3 (va + 1) true (wr8 p b m) = p + 1) as Hp1.
      { rewrite (translate_inv S U E _ Hinv1) by done. rewrite <- (translate_inv S U E m Hinv) by done.
        rewrite (translate_page m va 1 true Hinv) by lia. cbv zeta. fold p. by decide_tests. }
      rewrite Hp1 in IH. pose proof (owned_frame S U E m Hinv f Hf) as [Hfr _]. pose proof (page_offset_range va).
      destruct (Z.eqb_spec (p + 1) 0); [lia|]. simpl andb in IH. cbv iota in IH. destruct IH as [Hi2 ->]. split; [done|].
      simpl store_bytes. f_equal. lia.
Qed.

Lemma write_loop_ok fuel : forall va done len src m, vm_inv S U E m -> 0 <= va -> 0 <= done <= len -> va + len < 2 ^ 64 ->
  len = Z.of_nat (length src) -> visits (va + done) (len - done) < Z.of_nat fuel ->
  write_loop fuel (Some cr3) va done len src m = Some (write_bytes cr3 (drop (Z.to_nat done) src) (va + done) m).
Proof.
  induction fuel as [|fuel IH]; intros va done len src m Hinv Hva Hd Hl Hsrc Hv.
  { unfold visits in Hv. pose proof (page_offset_range (va + done)). destruct (len - done =? 0); [lia|].
    pose proof (Z.div_pos (page_offset (va + done) + (len - done) + 4095) 4096). lia. }
  simpl write_loop. destruct (Z.ltb_spec done len) as [Hlt|Hge].
  2: { rewrite drop_ge by lia. done. }
  assert (va +w done = va + done) as -> by (apply u64_small; unfold in_u64; lia).
  assert (len -w done = len - done) as -> by (apply u64_small; unfold in_u64; lia).
  destruct (visits_step (va + done) (len - done)) as (Hc & Ho & Hs); [lia|]. cbv zeta in *.
  unfold chunk_size. change (Z.land (va + done) (VM_PAGE_SIZE - 1)) with (page_offset (va + done)). change VM_PAGE_SIZE with 4096.
  set (c := Z.min (len - done) (4096 - page_offset (va + done))) in *.
  set (chunk := take (Z.to_nat c) (drop (Z.to_nat done) src)).
  assert (length chunk = Z.to_nat c) as Hlc by (unfold chunk; rewrite length_take, length_drop; lia).
  pose proof (write_page chunk (drop (Z.to_nat c) (drop (Z.to_nat done) src)) m (va + done) Hinv) as Hw.
  rewrite Hlc in Hw. specialize (Hw ltac:(lia)). cbv zeta in Hw.
  assert (chunk ++ drop (Z.to_nat c) (drop (Z.to_nat done) src) = drop (Z.to_nat done) src) as Hsp by apply take_drop.
  rewrite Hsp in Hw.
  simpl vm_translate_user_write. set (p := arch_vm_translate_user cr3 (va + done) true m) in *.
  destruct (Z.to_nat c =? 0)%nat eqn:Hc0; [apply Nat.eqb_eq in Hc0; lia|]. rewrite andb_true_r in Hw.
  destruct (p =? 0); [by rewrite Hw|]. destruct Hw as [Hinv1 Hw].
  assert (done +w c = done + c) as -> by (apply u64_small; unfold in_u64; lia).
  rewrite IH; [|done|lia|lia|done|done|].
  - rewrite Hw, drop_drop. f_equal. f_equal; [f_equal; lia|lia].
  - replace (va + (done + c)) with (va + done + c) by lia. replace (len - (done + c)) with (len - done - c) by lia. lia.
Qed.
End Access.

(** The same for a whole write, and what a write changes. *)
Lemma write_user_ok S U E cr3 m va src : is_Some (S !! cr3) -> vm_inv S U E m -> in_u64 va -> in_u64 (Z.of_nat (length src)) ->
  vm_write_user (Some cr3) va src m =
    Some (if va + Z.of_nat (length src) <? 2 ^ 64 then write_bytes cr3 src va m else (-1, m)).
Proof.
  intros HS Hinv Hva Hlen. unfold vm_write_user, in_u64 in *. simpl orb. set (len := Z.of_nat (length src)) in *.
  destruct (Z.ltb_spec (va + len) (2 ^ 64)) as [Hs|Hs].
  - rewrite u64_small by (unfold in_u64; lia). destruct (Z.ltb_spec (va + len) va); [lia|].
    rewrite (write_loop_ok S U E cr3 HS); [by rewrite Z.add_0_r|done|lia|lia|done|done|].
    rewrite Z.sub_0_r. apply visits_bound. lia.
  - unfold u64. rewrite <- (Z.mod_unique (va + len) (2 ^ 64) 1 (va + len - 2 ^ 64)) by lia.
    destruct (Z.ltb_spec (va + len - 2 ^ 64) va); [done|lia].
Qed.

Lemma write_bytes_ok S U E cr3 bytes : is_Some (S !! cr3) -> forall m va, vm_inv S U E m ->
  let '(rc, m') := write_bytes cr3 bytes va m in
  vm_inv S U E m' /\
  (forall a, (forall i, 0 <= i < Z.of_nat (length bytes) -> user_addr U cr3 true (va + i) <> Some a) -> rd8 a m' = rd8 a m) /\
  (rc = 0 -> forall i, 0 <= i < Z.of_nat (length bytes) -> is_Some (user_addr U cr3 true (va + i))) /\
  (rc = 0 -> (forall i j a, 0 <= i < Z.of_nat (length bytes) -> 0 <= j < Z.of_nat (length bytes) ->
       user_addr U cr3 true (va + i) = Some a -> user_addr U cr3 true (va + j) = Some a -> i = j) ->
     forall i a b, bytes !! Z.to_nat i = Some b -> 0 <= i -> user_addr U cr3 true (va + i) = Some a -> rd8 a m' = Z.land b 255).
Proof.
  intros HS. induction bytes as [|b bytes IH]; intros m va Hinv; simpl.
  { split; [done|]. split; [done|]. split; [intros _ i Hi; lia|]. intros _ _ i a b. by rewrite lookup_nil. }
  rewrite (translate_inv S U E m Hinv) by done. destruct (user_addr U cr3 true va) as [p|] eqn:Hp; simpl.
  2: { split; [done|]. split; [done|]. split; done. }
  destruct (user_addr_frame S U E m Hinv _ _ _ _ Hp) as (e & He & Hal & Hpe & Hf & H0). decide_tests.
  destruct (write_owned S U E m Hinv _ (wr8 p b m) Hf) as [Hinv1 _].
  { apply wr8_frame; [apply next_frame_ok|]. pose proof (page_offset_range va). lia. }
  specialize (IH (wr8 p b m) (va + 1) Hinv1). destruct (write_bytes cr3 bytes (va + 1) (wr8 p b m)) as [rc m'].
  destruct IH as (IH1 & IH2 & IH3 & IH4). split; [done|]. split; [|split].
  - intros a Ha. rewrite IH2.
    + apply rd8_wr8_ne. intros ->. apply (Ha 0); [lia|]. by rewrite Z.add_0_r.
    + intros i Hi. replace (va + 1 + i) with (va + (1 + i)) by lia. apply Ha. lia.
  - intros Hrc i Hi. destruct (decide (i = 0)) as [->|]; [rewrite Z.add_0_r; eauto|].
    replace (va + i) with (va + 1 + (i - 1)) by lia. apply IH3; [done|lia].
  - intros Hrc Hinj i a b' Hb Hi Ha. destruct (decide (i = 0)) as [->|Hne].
    + simpl in Hb. injection Hb as ->. rewrite Z.add_0_r in Ha. rewrite Hp in Ha. injection Ha as ->.
      rewrite IH2; [apply rd8_wr8_eq|]. intros j Hj Hja.
      assert (0 = 1 + j); [|lia]. apply (Hinj 0 (1 + j) a); [lia|lia|by rewrite Z.add_0_r|]. by rewrite Z.add_assoc.
    + replace (Z.to_nat i) with (Datatypes.S (Z.to_nat (i - 1))) in Hb by lia. simpl in Hb.
      apply (IH4 Hrc) with (i - 1); [|done|lia|by replace (va + 1 + (i - 1)) with (va + i) by lia].
      intros i1 i2 a' H1 H2 A1 A2. assert (1 + i1 = 1 + i2); [|lia].
      apply (Hinj (1 + i1) (1 + i2) a'); [lia|lia|..]; by rewrite Z.add_assoc.
Qed.

(** ** Ranges *)

Lemma page_of s : 0 <= s < 2 ^ 36 -> page_number (4096 * s) = s /\ page_offset (4096 * s) = 0.
Proof.
  intros Hs. rewrite Z.mul_comm. split; [by apply page_number_base|]. rewrite page_offset_mod. apply Z.mod_mul. lia.
Qed.

Lemma pages_from_cons s n : 0 <= s -> s + Z.of_nat n < 2 ^ 36 ->
  pages_from (4096 * s) (Datatypes.S n) = 4096 * s :: pages_from (4096 * (s + 1)) n.
Proof.
  intros Hs Hn. unfold pages_from. change (seq 0 (Datatypes.S n)) with (0%nat :: seq 1 n).
  rewrite fmap_cons, <- fmap_S_seq, <- list_fmap_compose. f_equal.
  - change (Z.of_nat 0 *w VM_PAGE_SIZE) with 0. rewrite Z.add_0_r. apply u64_small. unfold in_u64. lia.
  - apply list_fmap_ext. intros i j Hj. apply lookup_seq in Hj as [-> Hj]. simpl. unfold VM_PAGE_SIZE.
    rewrite !(u64_small (_ * 4096)) by (unfold in_u64; lia). f_equal. lia.
Qed.

(** The range of pages of a request that is not refused. *)
Lemma range_ok va len : in_u64 va -> in_u64 len -> va + len <= 2 ^ 48 ->
  range_refused va len = true \/
  exists s n, range_refused va len = false /\ range_start va = 4096 * s /\ range_end va len = 4096 * (s + Z.of_nat n) /\
    vm_pages (range_start va) (range_end va len) = pages_from (4096 * s) n /\
    0 <= s /\ s + Z.of_nat n <= 2 ^ 36 /\ s = va / 4096 /\ s + Z.of_nat n = (va + len + 4095) / 4096.
Proof.
  intros Hva Hlen Hb. destruct (range_refused va len) eqn:Hr; [by left|right]. unfold in_u64 in *.
  unfold range_refused in Hr. apply orb_false_iff in Hr as [[Hl0 Hov]%orb_false_iff Hle].
  apply Z.eqb_neq in Hl0. apply Z.ltb_ge in Hov. apply Z.leb_gt in Hle.
  assert (va +w len = va + len) as Hsum by (apply u64_small; unfold in_u64; lia).
  assert (range_start va = 4096 * (va / 4096)) as Hst.
  { unfold range_start. change VM_PAGE_SIZE with (2 ^ 12). rewrite align_down_pow2 by (unfold in_u64; lia).
    change (2 ^ 12) with 4096. lia. }
  assert (range_end va len = 4096 * ((va + len + 4095) / 4096)) as Hen.
  { unfold range_end. rewrite Hsum. change VM_PAGE_SIZE with (2 ^ 12). rewrite align_up_pow2 by (unfold in_u64; lia).
    change (2 ^ 12) with 4096. replace (va + len + 4096 - 1) with (va + len + 4095) by lia. lia. }
  rewrite Hst, Hen in Hle |- *. set (e := (va + len + 4095) / 4096) in *.
  exists (va / 4096), (Z.to_nat (e - va / 4096)). rewrite Z2Nat.id by lia.
  split; [done|]. split; [done|]. split; [f_equal; lia|]. split.
  - unfold vm_pages, VM_PAGE_SIZE. f_equal. f_equal. rewrite <- Z.mul_sub_distr_l, Z.mul_comm. apply Z.div_mul. lia.
  - split; [apply Z.div_pos; lia|]. split; [|split; [done|lia]]. replace (va / 4096 + (e - va / 4096)) with e by lia.
    apply Z.lt_succ_r. apply Z.div_lt_upper_bound; lia.
Qed.

(** Undoing the pages a loop has mapped. *)
Lemma unmap_prefix cr3 s k m : 0 <= s -> s + Z.of_nat k <= 2 ^ 36 ->
  (vm_unmap_user_range (Some cr3) (4096 * s) ((4096 * (s + Z.of_nat k)) -w (4096 * s)) m).2 =
  unmap_pages cr3 (pages_from (4096 * s) k) m.
Proof.
  intros Hs Hk. rewrite u64_small by (unfold in_u64; lia).
  replace (4096 * (s + Z.of_nat k) - 4096 * s) with (4096 * Z.of_nat k) by lia.
  destruct (range_ok (4096 * s) (4096 * Z.of_nat k)) as [Hr|(s' & n & Hr & _ & _ & Hp & _ & _ & Hs' & Hn)];
    [unfold in_u64; lia|unfold in_u64; lia|lia|..]; unfold vm_unmap_user_range; rewrite Hr; simpl.
  - unfold range_refused in Hr. rewrite u64_small in Hr by (unfold in_u64; lia).
    destruct k as [|k]; [done|]. exfalso. destruct (Z.eqb_spec (4096 * Z.of_nat (Datatypes.S k)) 0); [lia|].
    destruct (Z.ltb_spec (4096 * s + 4096 * Z.of_nat (Datatypes.S k)) (4096 * s)); [lia|]. simpl in Hr.
    apply Z.leb_le in Hr. unfold range_end, range_start in Hr. rewrite u64_small in Hr by (unfold in_u64; lia).
    change VM_PAGE_SIZE with (2 ^ 12) in Hr. rewrite align_down_pow2, align_up_pow2 in Hr by (unfold in_u64; lia).
    change (2 ^ 12) with 4096 in Hr.
    replace (4096 * s + 4096 * Z.of_nat (Datatypes.S k) + 4096 - 1) with (4095 + (s + Z.of_nat (Datatypes.S k)) * 4096) in Hr by lia.
    rewrite Z.div_add in Hr by lia. rewrite (Z.mul_comm 4096 s), Z.div_mul in Hr by lia. change (4095 / 4096) with 0 in Hr. lia.
  - rewrite Hp. rewrite (Z.mul_comm 4096 s), Z.div_mul in Hs' by lia. subst s'. f_equal. f_equal.
    replace (4096 * s + 4096 * Z.of_nat k + 4095) with (4095 + (s + Z.of_nat k) * 4096) in Hn by lia.
    rewrite Z.div_add in Hn by lia. change (4095 / 4096) with 0 in Hn. lia.
Qed.

(** *** Pages of a range added and removed *)

Definition in_range (cr3 s : Z) (n : nat) (k : Z * Z) : Prop := k.1 = cr3 /\ s <= k.2 < s + Z.of_nat n.
#[global] Instance in_range_dec cr3 s n k : Decision (in_range cr3 s n k).
Proof. unfold in_range. apply _. Defined.

Definition without (cr3 s : Z) (n : nat) (U : user_pages) : user_pages := filter (fun p => ~ in_range cr3 s n p.1) U.

Lemma without_lookup cr3 s n U k : without cr3 s n U !! k = if decide (in_range cr3 s n k) then None else U !! k.
Proof.
  unfold without. destruct (decide (in_range cr3 s n k)) as [Hr|Hr].
  - apply map_lookup_filter_None. right. intros e _. simpl. tauto.
  - destruct (U !! k) eqn:Hk; [by apply map_lookup_filter_Some|]. apply map_lookup_filter_None. by left.
Qed.

Lemma without_step cr3 s n U : without cr3 s (Datatypes.S n) U = without cr3 (s + 1) n (delete (cr3, s) U).
Proof.
  apply map_eq. intros [c i]. rewrite !without_lookup. unfold in_range. simpl.
  destruct (decide ((c, i) = (cr3, s))) as [[= -> ->]|Hne].
  - rewrite lookup_delete_eq, decide_True by lia. by destruct (decide _).
  - rewrite lookup_delete_ne by done.
    destruct (decide (c = cr3 /\ s <= i < s + Z.of_nat (Datatypes.S n))), (decide (c = cr3 /\ s + 1 <= i < s + 1 + Z.of_nat n));
      try done; exfalso; [|lia]. apply Hne. f_equal; [tauto|]. lia.
Qed.

(** Adding and then removing a page that was not there. *)
Lemma without_insert cr3 s k U e : U !! (cr3, s + Z.of_nat k) = None ->
  without cr3 s (Datatypes.S k) (<[(cr3, s + Z.of_nat k) := e]> U) = without cr3 s k U.
Proof.
  intros Hn. apply map_eq. intros [c i]. rewrite !without_lookup. unfold in_range. simpl.
  destruct (decide ((c, i) = (cr3, s + Z.of_nat k))) as [[= -> ->]|Hne].
  - rewrite lookup_insert_eq, decide_True, decide_False by lia. done.
  - rewrite lookup_insert_ne by done.
    destruct (decide (c = cr3 /\ s <= i < s + Z.of_nat (Datatypes.S k))), (decide (c = cr3 /\ s <= i < s + Z.of_nat k));
      try done; exfalso; [|lia]. apply Hne. f_equal; [tauto|]. lia.
Qed.

Fixpoint with_pages (cr3 s : Z) (es : list Z) (U : user_pages) : user_pages :=
  match es with
  | [] => U
  | e :: es => with_pages cr3 (s + 1) es (<[(cr3, s) := e]> U)
  end.

Lemma with_pages_lookup cr3 es : forall s U k, with_pages cr3 s es U !! k =
  if decide (in_range cr3 s (length es) k) then es !! Z.to_nat (k.2 - s) else U !! k.
Proof.
  induction es as [|e es IH]; intros s U [c i]; simpl with_pages.
  - rewrite decide_False; [done|]. unfold in_range. simpl. lia.
  - rewrite IH. simpl length. simpl snd. destruct (decide ((c, i) = (cr3, s))) as [[= -> ->]|Hne].
    + rewrite decide_False by (unfold in_range; simpl; lia). rewrite lookup_insert_eq, decide_True by (unfold in_range; simpl; lia).
      by rewrite Z.sub_diag.
    + rewrite lookup_insert_ne by congruence.
      destruct (decide (in_range cr3 (s + 1) (length es) (c, i))) as [H1|H1];
        destruct (decide (in_range cr3 s (Datatypes.S (length es)) (c, i))) as [H2|H2]; unfold in_range in *; simpl in H1, H2; [|lia| |done].
      * replace (Z.to_nat (i - s)) with (Datatypes.S (Z.to_nat (i - (s + 1)))) by lia. done.
      * exfalso. apply Hne. f_equal; [tauto|lia].
Qed.

Lemma same_bytes_trans U E U1 E1 m m1 m2 U' E' : same_bytes U E m m1 -> same_bytes U1 E1 m1 m2 ->
  (forall f, f ∈ owned U' E' -> f ∈ owned U E /\ f ∈ owned U1 E1) -> same_bytes U' E' m m2.
Proof. intros H1 H2 Hs f a Hf Ha. destruct (Hs f Hf). by rewrite (H2 f), (H1 f). Qed.

Lemma same_bytes_refl U E m : same_bytes U E m m.
Proof. done. Qed.

Lemma same_bytes_mem U E m m1 m2 : same_bytes U E m m1 -> mem m2 = mem m1 -> same_bytes U E m m2.
Proof. intros H Hm f a Hf Ha. rewrite <- (H f a Hf Ha). unfold rd8, rd. by rewrite Hm. Qed.

Lemma mapped_delete_sub U k f : f ∈ mapped (delete k U) -> f ∈ mapped U.
Proof. rewrite !mapped_elem. intros (k' & e & [_ Hk]%lookup_delete_Some & He). eauto. Qed.

Lemma mapped_without_sub cr3 s n U f : f ∈ mapped (without cr3 s n U) -> f ∈ mapped U.
Proof.
  rewrite !mapped_elem. intros (k' & e & Hk & He). rewrite without_lookup in Hk. destruct (decide _); [done|eauto].
Qed.

Lemma unmap_pages_ok S E cr3 n : is_Some (S !! cr3) -> forall s U m, vm_inv S U E m -> 0 <= s -> s + Z.of_nat n <= 2 ^ 36 ->
  let m' := unmap_pages cr3 (pages_from (4096 * s) n) m in
  vm_inv S (without cr3 s n U) E m' /\ same_bytes (without cr3 s n U) E m m'.
Proof.
  intros HS. induction n as [|n IH]; intros s U m Hinv Hs Hn.
  - simpl. replace (without cr3 s 0 U) with U; [done|]. apply map_eq. intros k. rewrite without_lookup.
    destruct (decide _) as [Hr|]; [|done]. unfold in_range in Hr. lia.
  - rewrite pages_from_cons by lia. simpl unmap_pages. destruct (page_of s) as [Hpn Hpo]; [lia|].
    destruct (unmap_inv S U E m Hinv cr3 (4096 * s) HS Hpo) as (r & m1 & -> & Hb & Hr). rewrite Hpn in Hr.
    rewrite without_step. destruct (U !! (cr3, s)) as [e|] eqn:Hk.
    + destruct Hr as (Hre & Hr0 & Hinv1). decide_tests.
      destruct (free_frame_inv S _ _ _ Hinv1 r) as (Hinv2 & _ & Hmem); [refs_lia|].
      rewrite refs_back in Hinv2.
      destruct (IH (s + 1) _ _ Hinv2) as [Hinv3 Hb3]; [lia|lia|]. split; [done|].
      eapply same_bytes_trans; [eapply same_bytes_mem; [exact Hb|exact Hmem]|exact Hb3|].
      intros f Hf. split; [|done]. unfold owned in *. apply gmultiset_elem_of_disj_union in Hf as [Hf|Hf]; [|multiset_solver].
      apply mapped_without_sub, mapped_delete_sub in Hf. multiset_solver.
    + destruct Hr as [-> ->]. simpl. rewrite delete_id by done. apply IH; [done|lia|lia].
Qed.

(** *** Allocating a range *)

Section RangeOps.
Context (nx : bool).

Lemma dom_some (S S' : spaces) cr3 : dom S' = dom S -> is_Some (S !! cr3) -> is_Some (S' !! cr3).
Proof. intros Hd. rewrite <- !elem_of_dom. by rewrite Hd. Qed.

Lemma owned_sub U U' E f : f ∈ mapped U' -> (forall g, g ∈ mapped U' -> g ∈ mapped U) -> f ∈ owned U E.
Proof. intros Hf Hs. apply Hs in Hf. unfold owned. multiset_solver. Qed.

Lemma owned_without U E cr3 s k f : f ∈ owned (without cr3 s k U) E -> f ∈ owned U E.
Proof.
  unfold owned. intros [Hf|Hf]%gmultiset_elem_of_disj_union; [apply mapped_without_sub in Hf|]; multiset_solver.
Qed.

Lemma owned_insert U E k e f : U !! k = None -> f ∈ owned U E -> f ∈ owned (<[k := e]> U) E.
Proof. intros Hk Hf. unfold owned in *. rewrite mapped_insert by done. multiset_solver. Qed.

Lemma owned_new U E k e : next_frame e ∈ owned (<[k := e]> U) E.
Proof.
  unfold owned. assert (next_frame e ∈ mapped (<[k := e]> U)); [|multiset_solver].
  apply mapped_elem. exists k, e. split; [apply lookup_insert_eq|done].
Qed.

(** The failure of a loop after [k] pages. *)
Lemma undo_ok (S S1 : spaces) U E cr3 s k m m1 : is_Some (S !! cr3) -> dom S1 = dom S -> vm_inv S1 U E m1 -> same_bytes U E m m1 ->
  0 <= s -> s + Z.of_nat k <= 2 ^ 36 ->
  exists m', (vm_unmap_user_range (Some cr3) (4096 * s) ((4096 * (s + Z.of_nat k)) -w (4096 * s)) m1).2 = m' /\
    vm_inv S1 (without cr3 s k U) E m' /\ same_bytes (without cr3 s k U) E m m'.
Proof.
  intros HS Hd Hinv Hb Hs Hk. rewrite unmap_prefix by done. eexists. split; [done|].
  destruct (unmap_pages_ok S1 E cr3 k (dom_some _ _ _ Hd HS) s U m1 Hinv Hs Hk) as [Hi Hb']. split; [done|].
  eapply same_bytes_trans; [exact Hb|exact Hb'|]. intros f Hf. split; [by eapply owned_without|done].
Qed.

(** Taking a frame, filling it and mapping it at a free page. *)
Lemma map_fresh S U E m cr3 n w x : vm_inv S U E m -> is_Some (S !! cr3) -> 0 <= n < 2 ^ 36 -> U !! (cr3, n) = None ->
  let '(f, m1) := vm_rpc_alloc_frame m in
  f = 0 /\ m1 = m \/
  f <> 0 /\ is_frame f /\ f ∉ owned U E /\ vm_inv S U (E ⊎ {[+ f +]}) m1 /\ mem m1 = mem m /\
  forall m2, frame_only f m1 m2 -> exists rc m3 S3,
    arch_vm_map_page nx cr3 (4096 * n) f w true x m2 = (rc, m3) /\ dom S3 = dom S /\ same_bytes U E m m3 /\
    (rc = -1 /\ vm_inv S3 U E (vm_rpc_free_frame f m3) /\ same_bytes U E m (vm_rpc_free_frame f m3) \/
     rc = 0 /\ vm_inv S3 (<[(cr3, n) := user_entry nx f w x]> U) E m3 /\
       forall a, f <= a < f + 4096 -> rd8 a m3 = rd8 a m2).
Proof.
  intros Hinv HS Hn Hnone. pose proof (alloc_frame_ok S U E m Hinv) as Ha. destruct (vm_rpc_alloc_frame m) as [f m1].
  destruct Ha as [Ha|(H0 & Hf & Hnf & _ & Hmem1 & Hinv1 & _)]; [by left|right].
  do 5 (split; [done|]). intros m2 Ho. assert (f ∈ owned U (E ⊎ {[+ f +]})) as Hfo by refs_lia.
  destruct (write_owned S U _ m1 Hinv1 f m2 Hfo Ho) as [Hinv2 _].
  assert (same_bytes U E m m2) as Hb2.
  { intros g a Hg Hag. rewrite (rd8_frame f m1 m2 a Hf Ho).
    - unfold rd8, rd. by rewrite Hmem1.
    - apply (other_frame f g); [done|by apply (owned_frame S U E m Hinv)|by intros ->|done]. }
  destruct (map_inv nx S U _ m2 Hinv2 cr3 (4096 * n) f w x HS) as (rc & m3 & S3 & Hmap & Hd3 & Hb3 & Hr); [refs_lia|].
  destruct (page_of n Hn) as [Hpn Hpo]. rewrite Hpn in Hr.
  assert (same_bytes U E m m3) as Hbm3.
  { eapply same_bytes_trans; [exact Hb2|exact Hb3|]. intros g Hg. split; [done|]. refs_lia. }
  exists rc, m3, S3. do 3 (split; [done|]). destruct Hr as [[-> Hinv3]|(-> & _ & Hinv3)]; [left|right]; (split; [done|]).
  - destruct (free_frame_inv S3 U _ m3 Hinv3 f) as (Hinv4 & _ & Hmem4); [refs_lia|]. rewrite refs_back in Hinv4.
    split; [done|]. by eapply same_bytes_mem.
  - cbv zeta in Hinv3. rewrite Hnone in Hinv3. simpl released in Hinv3.
    rewrite refs_back, (right_id_L ∅ (⊎)) in Hinv3. split; [done|]. intros a Ha. by apply (Hb3 f).
Qed.

Lemma alloc_pages_ok E cr3 s w x n : forall k S U m, vm_inv S U E m -> is_Some (S !! cr3) -> 0 <= s ->
  s + Z.of_nat k + Z.of_nat n <= 2 ^ 36 ->
  (forall i, s + Z.of_nat k <= i < s + Z.of_nat k + Z.of_nat n -> U !! (cr3, i) = None) ->
  exists rc m' S', alloc_pages nx cr3 (4096 * s) (pages_from (4096 * (s + Z.of_nat k)) n) w x m = (rc, m') /\ dom S' = dom S /\
    (rc = -1 /\ vm_inv S' (without cr3 s k U) E m' /\ same_bytes (without cr3 s k U) E m m' \/
     rc = 0 /\ exists fs, length fs = n /\ NoDup fs /\ (forall f, f ∈ fs -> is_frame f /\ f ∉ owned U E) /\
       vm_inv S' (with_pages cr3 (s + Z.of_nat k) ((fun f => user_entry nx f w x) <$> fs) U) E m' /\
       same_bytes U E m m' /\ forall f a, f ∈ fs -> f <= a < f + 4096 -> rd8 a m' = 0).
Proof.
  induction n as [|n IH]; intros k S U m Hinv HS Hs Hn Hfree.
  { exists 0, m, S. split; [done|]. split; [done|]. right. split; [done|]. exists []. simpl.
    split; [done|]. split; [constructor|]. split; [by intros f Hf%elem_of_nil|].
    split; [done|]. split; [done|]. by intros f a Hf%elem_of_nil. }
  rewrite pages_from_cons by lia. simpl alloc_pages. assert (U !! (cr3, s + Z.of_nat k) = None) as Hnone by (apply Hfree; lia).
  pose proof (map_fresh S U E m cr3 (s + Z.of_nat k) w x Hinv HS ltac:(lia) Hnone) as Ha.
  destruct (vm_rpc_alloc_frame m) as [f m1].
  destruct Ha as [[-> ->]|(H0 & Hf & Hnf & _ & _ & Hmap)].
  { simpl. destruct (undo_ok S S U E cr3 s k m m HS eq_refl Hinv (same_bytes_refl _ _ _) Hs) as (m' & -> & Hi & Hb); [lia|].
    exists (-1), m', S. split; [done|]. split; [done|by left]. }
  decide_tests. change (Z.to_nat VM_PAGE_SIZE) with 4096%nat. destruct (mem_zero_ok f 4096 m1 Hf) as [Ho Hz]; [lia|].
  destruct (Hmap _ Ho) as (rc & m3 & S3 & Hm & Hd3 & Hbm3 & Hr). unfold vm_map_user_page. decide_tests. rewrite Hm.
  destruct Hr as [(-> & Hinv4 & Hb4)|(-> & Hinv3 & Hb3)].
  - simpl. destruct (undo_ok S S3 U E cr3 s k m _ HS Hd3 Hinv4 Hb4 Hs) as (m' & -> & Hi & Hb); [lia|].
    exists (-1), m', S3. split; [done|]. split; [done|by left].
  - simpl negb. cbv iota. replace (s + Z.of_nat k + 1) with (s + Z.of_nat (Datatypes.S k)) by lia.
    destruct (IH (Datatypes.S k) S3 _ m3 Hinv3) as (rc & m' & S' & -> & Hd' & Hr); [by eapply dom_some|done|lia|..].
    { intros i Hi. rewrite lookup_insert_ne by (intros [= ?]; lia). apply Hfree. lia. }
    rewrite without_insert in Hr by done.
    exists rc, m', S'. split; [done|]. split; [by rewrite Hd'|].
    destruct Hr as [(-> & Hi & Hb)|(-> & fs & Hlen & Hnd & Hfresh & Hi & Hb & Hzero)]; [left|right]; (split; [done|]).
    + split; [done|]. eapply same_bytes_trans; [exact Hbm3|exact Hb|]. intros g Hg. split; [by eapply owned_without|done].
    + destruct (user_entry_bits nx f w x Hf) as (_ & _ & Bf & _).
      pose proof (owned_new U E (cr3, s + Z.of_nat k) (user_entry nx f w x)) as Hf3. rewrite Bf in Hf3.
      exists (f :: fs). simpl. split; [lia|]. split; [constructor; [|done]; intros Hin; by apply (Hfresh f Hin)|]. split.
      { intros g [->|Hg]%elem_of_cons; [done|]. destruct (Hfresh g Hg) as [Hgf Hgn]. split; [done|]. intros Hgo. apply Hgn. by apply owned_insert. }
      replace (s + Z.of_nat k + 1) with (s + Z.of_nat (Datatypes.S k)) by lia. split; [done|]. split.
      { eapply same_bytes_trans; [exact Hbm3|exact Hb|]. intros g Hg. split; [done|by apply owned_insert]. }
      intros g a [->|Hg]%elem_of_cons Ha; [|by eapply Hzero]. rewrite (Hb f a Hf3 Ha), (Hb3 a Ha), Hz.
      destruct (Z.leb_spec f a), (Z.ltb_spec a (f + Z.of_nat 4096)); simpl; (done || lia).
Qed.

(** *** Sharing a range *)

Definition few_refs (U : user_pages) (E : gmultiset Z) (n : nat) : Prop :=
  forall f, Z.of_nat (multiplicity f (owned U E)) + Z.of_nat n < 2 ^ 32.

Lemma few_refs_insert U E k e n : U !! k = None -> few_refs U E (Datatypes.S n) -> few_refs (<[k := e]> U) E n.
Proof.
  intros Hk H f. specialize (H f). unfold owned in *. rewrite mapped_insert by done.
  rewrite !multiplicity_disj_union, multiplicity_singleton in *. destruct (decide (f = next_frame e)); lia.
Qed.

Lemma entry_readable S U E m k e : vm_inv S U E m -> U !! k = Some e -> allowed false e = true /\ next_frame e ∈ owned U E.
Proof.
  intros Hinv Hk. destruct k as [c n]. pose proof Hk as (_ & _ & _ & Hu)%(vi_user _ _ _ _ Hinv). unfold is_user in Hu.
  apply andb_true_iff in Hu as [Hp _]. split; [unfold allowed; by rewrite Hp|].
  unfold owned. assert (next_frame e ∈ mapped U) by (apply mapped_elem; eauto). multiset_solver.
Qed.

(** The frame read for a page of a space. *)
Lemma source_frame S U E m cr3 n : vm_inv S U E m -> is_Some (S !! cr3) -> 0 <= n < 2 ^ 36 ->
  vm_translate_user_read (Some cr3) (4096 * n) m = default 0 (next_frame <$> U !! (cr3, n)).
Proof.
  intros Hinv HS Hn. simpl. rewrite (translate_inv S U E m Hinv) by done. unfold user_addr.
  destruct (page_of n Hn) as [-> ->]. destruct (U !! (cr3, n)) as [e|] eqn:Hk; [|done]. simpl.
  destruct (entry_readable S U E m _ _ Hinv Hk) as [-> _]. simpl. lia.
Qed.

(** Mapping the frame of another page once more. *)
Lemma map_shared S U E m cr3 n w x f : vm_inv S U E m -> is_Some (S !! cr3) -> 0 <= n < 2 ^ 36 -> U !! (cr3, n) = None ->
  f ∈ E -> exists rc m3 S3,
    arch_vm_map_page nx cr3 (4096 * n) f w true x m = (rc, m3) /\ dom S3 = dom S /\ same_bytes U E m m3 /\
    (rc = -1 /\ vm_inv S3 U (E ∖ {[+ f +]}) (vm_rpc_free_frame f m3) /\ mem (vm_rpc_free_frame f m3) = mem m3 \/
     rc = 0 /\ vm_inv S3 (<[(cr3, n) := user_entry nx f w x]> U) (E ∖ {[+ f +]}) m3).
Proof.
  intros Hinv HS Hn Hnone Hf.
  destruct (map_inv nx S U E m Hinv cr3 (4096 * n) f w x HS Hf) as (rc & m3 & S3 & Hmap & Hd3 & Hb3 & Hr).
  destruct (page_of n Hn) as [Hpn Hpo]. rewrite Hpn in Hr. exists rc, m3, S3. do 3 (split; [done|]).
  destruct Hr as [[-> Hinv3]|(-> & _ & Hinv3)]; [left|right]; (split; [done|]).
  - destruct (free_frame_inv S3 U _ m3 Hinv3 f Hf) as (Hinv4 & _ & Hmem4). done.
  - cbv zeta in Hinv3. rewrite Hnone in Hinv3. simpl released in Hinv3. by rewrite (right_id_L ∅ (⊎)) in Hinv3.
Qed.

Lemma share_pages_ok E dst src s w x n : forall k S U m, vm_inv S U E m -> is_Some (S !! dst) -> is_Some (S !! src) -> 0 <= s ->
  s + Z.of_nat k + Z.of_nat n <= 2 ^ 36 -> few_refs U E n ->
  (forall i, s + Z.of_nat k <= i < s + Z.of_nat k + Z.of_nat n -> U !! (dst, i) = None) ->
  exists rc m' S', share_pages nx dst src (4096 * s) (pages_from (4096 * (s + Z.of_nat k)) n) w x m = (rc, m') /\ dom S' = dom S /\
    (rc = -1 /\ vm_inv S' (without dst s k U) E m' /\ same_bytes (without dst s k U) E m m' \/
     rc = 0 /\ exists es, length es = n /\
       (forall i e, es !! i = Some e -> U !! (src, s + Z.of_nat k + Z.of_nat i) = Some e) /\
       vm_inv S' (with_pages dst (s + Z.of_nat k) ((fun e => user_entry nx (next_frame e) w x) <$> es) U) E m' /\
       same_bytes U E m m').
Proof.
  induction n as [|n IH]; intros k S U m Hinv HD HS Hs Hn Hrefs Hfree.
  { exists 0, m, S. split; [done|]. split; [done|]. right. split; [done|]. by exists []. }
  rewrite pages_from_cons by lia. simpl share_pages. assert (U !! (dst, s + Z.of_nat k) = None) as Hnone by (apply Hfree; lia).
  pose proof (source_frame S U E m src (s + Z.of_nat k) Hinv HS ltac:(lia)) as Hsrc. simpl in Hsrc. rewrite Hsrc. clear Hsrc.
  assert (forall m1 S1, dom S1 = dom S -> vm_inv S1 U E m1 -> same_bytes U E m m1 -> exists m' S',
    (vm_unmap_user_range (Some dst) (4096 * s) (4096 * (s + Z.of_nat k) -w 4096 * s) m1).2 = m' /\ dom S' = dom S /\
    vm_inv S' (without dst s k U) E m' /\ same_bytes (without dst s k U) E m m') as Hundo.
  { intros m1 S1 Hd Hi Hb. destruct (undo_ok S S1 U E dst s k m m1 HD Hd Hi Hb Hs) as (m' & Hm' & ?); [lia|]. by exists m', S1. }
  destruct (U !! (src, s + Z.of_nat k)) as [e|] eqn:Hk; simpl.
  2: { destruct (Hundo m S eq_refl Hinv (same_bytes_refl _ _ _)) as (m' & S' & -> & Hd & Hi & Hb).
       exists (-1), m', S'. split; [done|]. split; [done|by left]. }
  destruct (entry_readable S U E m _ _ Hinv Hk) as [_ Hfo]. set (f := next_frame e) in *.
  destruct (vi_refs _ _ _ _ Hinv f Hfo) as (H0 & _). decide_tests.
  destruct (retain_frame_ok S U E m Hinv f Hfo) as (m1 & -> & Hinv1 & _ & Hmem1); [specialize (Hrefs f); lia|]. simpl.
  destruct (map_shared S U _ m1 dst (s + Z.of_nat k) w x f Hinv1 HD ltac:(lia) Hnone) as (rc & m3 & S3 & -> & Hd3 & Hb3 & Hr); [refs_lia|].
  rewrite refs_back in Hr. assert (same_bytes U E m m3) as Hbm3.
  { eapply same_bytes_trans; [eapply same_bytes_mem; [apply (same_bytes_refl U E)|exact Hmem1]|exact Hb3|]. intros g Hg. split; [done|refs_lia]. }
  destruct Hr as [(-> & Hinv4 & Hmem4)|(-> & Hinv4)]; simpl.
  { destruct (Hundo (vm_rpc_free_frame f m3) S3 Hd3 Hinv4) as (m' & S' & -> & Hd & Hi & Hb); [by eapply same_bytes_mem|].
    exists (-1), m', S'. split; [done|]. split; [done|by left]. }
  replace (s + Z.of_nat k + 1) with (s + Z.of_nat (Datatypes.S k)) by lia.
  destruct (IH (Datatypes.S k) S3 _ m3 Hinv4) as (rc & m' & S' & -> & Hd' & Hr);
    [by eapply dom_some|by eapply dom_some|done|lia|by apply few_refs_insert|..].
  { intros i Hi. rewrite lookup_insert_ne by (intros [= ?]; lia). apply Hfree. lia. }
  rewrite without_insert in Hr by done. exists rc, m', S'. split; [done|]. split; [by rewrite Hd'|].
  destruct Hr as [(-> & Hi & Hb)|(-> & es & Hlen & Hes & Hi & Hb)]; [left|right]; (split; [done|]).
  - split; [done|]. eapply same_bytes_trans; [exact Hbm3|exact Hb|]. intros g Hg. split; [by eapply owned_without|done].
  - exists (e :: es). simpl. split; [lia|]. split.
    + intros [|i] e' He'; simpl in He'; [injection He' as <-; by rewrite Z.add_0_r|]. apply Hes in He'.
      rewrite lookup_insert_ne in He' by (intros [= _ ?]; lia). rewrite <- He'. do 2 f_equal. lia.
    + replace (s + Z.of_nat k + 1) with (s + Z.of_nat (Datatypes.S k)) by lia. split; [done|].
      eapply same_bytes_trans; [exact Hbm3|exact Hb|]. intros g Hg. split; [done|by apply owned_insert].
Qed.

(** *** Protecting a range *)

Definition protected (cr3 s : Z) (n : nat) (w x : bool) (U : user_pages) : user_pages :=
  map_imap (fun k e => Some (if decide (in_range cr3 s n k) then set_protection nx w x e else e)) U.

Lemma protected_lookup cr3 s n w x U k : protected cr3 s n w x U !! k =
  if decide (in_range cr3 s n k) then set_protection nx w x <$> U !! k else U !! k.
Proof.
  unfold protected. rewrite map_lookup_imap. destruct (U !! k); simpl; by destruct (decide _).
Qed.

Lemma protected_0 cr3 s w x U : protected cr3 s 0 w x U = U.
Proof.
  apply map_eq. intros k. rewrite protected_lookup. destruct (decide _) as [Hr|]; [|done]. unfold in_range in Hr. lia.
Qed.

Lemma in_range_step cr3 s n k : in_range cr3 s (Datatypes.S n) k <-> k = (cr3, s) \/ in_range cr3 (s + 1) n k.
Proof.
  destruct k as [c i]. unfold in_range. simpl. split.
  - intros [-> Hi]. destruct (decide (i = s)) as [->|]; [by left|right]. split; [done|lia].
  - intros [[= -> ->]|[-> Hi]]; (split; [done|lia]).
Qed.

Lemma protected_step cr3 s n w x U e : U !! (cr3, s) = Some e ->
  protected cr3 (s + 1) n w x (<[(cr3, s) := set_protection nx w x e]> U) = protected cr3 s (Datatypes.S n) w x U.
Proof.
  intros He. apply map_eq. intros k. rewrite !protected_lookup. destruct (decide (k = (cr3, s))) as [->|Hne].
  - rewrite decide_False by (unfold in_range; simpl; lia). rewrite lookup_insert_eq, decide_True by (apply in_range_step; by left).
    by rewrite He.
  - rewrite lookup_insert_ne by done. destruct (decide (in_range cr3 (s + 1) n k)) as [H1|H1].
    + by rewrite decide_True by (apply in_range_step; by right).
    + rewrite decide_False; [done|]. by intros [?|?]%in_range_step.
Qed.

Lemma protect_pages_ok E cr3 w x n : forall s S U m, vm_inv S U E m -> is_Some (S !! cr3) -> 0 <= s -> s + Z.of_nat n <= 2 ^ 36 ->
  exists rc m' j, protect_pages nx cr3 (pages_from (4096 * s) n) w x m = (rc, m') /\ (j <= n)%nat /\
    vm_inv S (protected cr3 s j w x U) E m' /\ same_bytes U E m m' /\
    (forall i, s <= i < s + Z.of_nat j -> is_Some (U !! (cr3, i))) /\
    (rc = 0 /\ j = n \/ rc = -1 /\ (j < n)%nat /\ U !! (cr3, s + Z.of_nat j) = None).
Proof.
  induction n as [|n IH]; intros s S U m Hinv HS Hs Hn.
  { exists 0, m, 0%nat. rewrite protected_0. do 4 (split; [done|]). split; [intros i Hi; lia|by left]. }
  rewrite pages_from_cons by lia. simpl protect_pages. destruct (page_of s) as [Hpn Hpo]; [lia|].
  destruct (protect_inv nx S U E m Hinv cr3 (4096 * s) w x HS Hpo) as (r & m1 & -> & Hb & Hr). rewrite Hpn in Hr.
  destruct (U !! (cr3, s)) as [e|] eqn:Hk; destruct Hr as [-> Hr]; simpl.
  2: { subst m1. exists (-1), m, 0%nat. rewrite protected_0, Z.add_0_r. split; [done|]. split; [lia|]. do 2 (split; [done|]).
       split; [intros i Hi; lia|]. right. split; [done|]. split; [lia|done]. }
  destruct (set_protection_bits nx w x e) as (_ & _ & _ & _ & Bf).
  destruct (IH (s + 1) S _ m1 Hr HS) as (rc & m' & j & -> & Hj & Hi & Hb' & Hall & Hrc); [lia|lia|].
  rewrite protected_step in Hi by done. exists rc, m', (Datatypes.S j). split; [done|]. split; [lia|]. split; [done|]. split.
  { eapply same_bytes_trans; [exact Hb|exact Hb'|]. intros f Hf. split; [done|]. by rewrite (owned_update U E (cr3, s) e). }
  split.
  - intros i Hi'. destruct (decide (i = s)) as [->|]; [by rewrite Hk|]. specialize (Hall i ltac:(lia)).
    rewrite lookup_insert_ne in Hall by (intros [= ?]; lia). done.
  - destruct Hrc as [[-> ->]|(-> & Hlt & Hno)]; [by left|right]. split; [done|]. split; [lia|].
    rewrite lookup_insert_ne in Hno by (intros [= ?]; lia). rewrite <- Hno. do 2 f_equal. lia.
Qed.

(** *** Sharing a range copy-on-write *)

Lemma protected_insert cr3 s n w x U k e : ~ in_range cr3 s n k ->
  protected cr3 s n w x (<[k := e]> U) = <[k := e]> (protected cr3 s n w x U).
Proof.
  intros Hn. apply map_eq. intros k'. rewrite protected_lookup. destruct (decide (k' = k)) as [->|Hne].
  - by rewrite decide_False, !lookup_insert_eq.
  - by rewrite !lookup_insert_ne, protected_lookup.
Qed.

Lemma without_insert_other cr3 s k U k' e : ~ in_range cr3 s k k' ->
  without cr3 s k (<[k' := e]> U) = <[k' := e]> (without cr3 s k U).
Proof.
  intros Hn. apply map_eq. intros j. rewrite without_lookup. destruct (decide (j = k')) as [->|Hne].
  - by rewrite decide_False, !lookup_insert_eq.
  - by rewrite !lookup_insert_ne, without_lookup.
Qed.

(** One page of a copy-on-write share, and its failure after [k] pages. *)
Section CowStep.
Context (E : gmultiset Z) (dst src s : Z) (x : bool) (k : nat) (S : spaces) (U : user_pages) (m : mach) (e : Z).
Context (Hinv : vm_inv S U E m) (HD : is_Some (S !! dst)) (HS : is_Some (S !! src)).
Let p := s + Z.of_nat k.
Context (Hs : 0 <= s) (Hp : p < 2 ^ 36) (Hrefs : few_refs U E 1) (Hnone : U !! (dst, p) = None) (Hk : U !! (src, p) = Some e).
Let f := next_frame e.
Let U1 := <[(src, p) := set_protection nx false x e]> U.

Lemma cow_owned : owned U1 E = owned U E.
Proof. apply owned_update with e; [done|]. by destruct (set_protection_bits nx false x e) as (_ & _ & _ & _ & ->). Qed.

Lemma cow_none : U1 !! (dst, p) = None.
Proof. unfold U1. rewrite lookup_insert_ne; [done|]. intros [= Heq]. rewrite Heq in Hk. congruence. Qed.

Lemma cow_without_owned : owned (without dst s k U1) E = owned (without dst s k U) E.
Proof.
  unfold U1. assert (~ in_range dst s k (src, p)) as Hr by (unfold in_range, p; simpl; lia).
  rewrite without_insert_other by done. apply owned_update with e.
  - rewrite without_lookup, decide_False by done. done.
  - by destruct (set_protection_bits nx false x e) as (_ & _ & _ & _ & ->).
Qed.

Lemma cow_step_ok : exists m1 m2 rc m3 S3, retain_frame f m = (0, m1) /\
  arch_vm_protect_user_page nx src (4096 * p) false x m1 = (0, m2) /\
  arch_vm_map_page nx dst (4096 * p) f false true x m2 = (rc, m3) /\ dom S3 = dom S /\ same_bytes U E m m3 /\
  (rc = -1 /\ vm_inv S3 U1 E (vm_rpc_free_frame f m3) /\ mem (vm_rpc_free_frame f m3) = mem m3 \/
   rc = 0 /\ vm_inv S3 (<[(dst, p) := user_entry nx f false x]> U1) E m3).
Proof.
  destruct (entry_readable S U E m _ _ Hinv Hk) as [_ Hfo]. fold f in Hfo.
  destruct (retain_frame_ok S U E m Hinv f Hfo) as (m1 & H1 & Hinv1 & _ & Hmem1); [specialize (Hrefs f); lia|].
  destruct (page_of p) as [Hpn Hpo]; [unfold p in *; lia|].
  destruct (protect_inv nx S U _ m1 Hinv1 src (4096 * p) false x HS Hpo) as (r & m2 & H2 & Hb2 & Hr). rewrite Hpn, Hk in Hr.
  destruct Hr as [-> Hinv2]. fold U1 in Hinv2.
  destruct (map_shared S U1 _ m2 dst p false x f Hinv2 HD ltac:(unfold p in *; lia) cow_none) as (rc & m3 & S3 & H3 & Hd3 & Hb3 & Hr);
    [refs_lia|]. rewrite refs_back in Hr.
  exists m1, m2, rc, m3, S3. do 4 (split; [done|]). split; [|done].
  eapply same_bytes_trans; [|exact Hb3|].
  - eapply same_bytes_trans; [eapply same_bytes_mem; [apply (same_bytes_refl U E)|exact Hmem1]|exact Hb2|].
    intros g Hg. split; [exact Hg|]. refs_lia.
  - intros g Hg. split; [done|]. assert (g ∈ owned U1 E) as Hg1 by (by rewrite cow_owned). refs_lia.
Qed.

Lemma cow_undo S1 m1 : dom S1 = dom S -> vm_inv S1 U1 E m1 -> same_bytes U E m m1 ->
  exists m', (vm_unmap_user_range (Some dst) (4096 * s) ((4096 * p) -w (4096 * s)) m1).2 = m' /\
    vm_inv S1 (without dst s k (protected src p 1 false x U)) E m' /\ same_bytes (without dst s k U) E m m'.
Proof.
  intros Hd Hi Hb. assert (same_bytes U1 E m m1) as Hb1 by (intros g a Hg; apply Hb; by rewrite <- cow_owned).
  destruct (undo_ok S S1 U1 E dst s k m m1 HD Hd Hi Hb1 Hs) as (m' & Hm' & Hi' & Hb'); [unfold p in *; lia|].
  exists m'. split; [done|]. rewrite <- (protected_step src p 0 false x U e Hk), protected_0. split; [done|].
  intros g a Hg. apply Hb'. by rewrite cow_without_owned.
Qed.
End CowStep.

Lemma share_cow_pages_ok E dst src s x n : forall k S U m, vm_inv S U E m -> is_Some (S !! dst) -> is_Some (S !! src) -> 0 <= s ->
  s + Z.of_nat k + Z.of_nat n <= 2 ^ 36 -> few_refs U E n ->
  (forall i, s + Z.of_nat k <= i < s + Z.of_nat k + Z.of_nat n -> U !! (dst, i) = None) ->
  exists rc m' S', share_cow_pages nx dst src (4096 * s) (pages_from (4096 * (s + Z.of_nat k)) n) x m = (rc, m') /\ dom S' = dom S /\
    (rc = -1 /\ (exists j, (j <= n)%nat /\ vm_inv S' (without dst s k (protected src (s + Z.of_nat k) j false x U)) E m') /\
       same_bytes (without dst s k U) E m m' \/
     rc = 0 /\ exists es, length es = n /\
       (forall i e, es !! i = Some e -> U !! (src, s + Z.of_nat k + Z.of_nat i) = Some e) /\
       vm_inv S' (with_pages dst (s + Z.of_nat k) ((fun e => user_entry nx (next_frame e) false x) <$> es)
         (protected src (s + Z.of_nat k) n false x U)) E m' /\
       same_bytes U E m m').
Proof.
  induction n as [|n IH]; intros k S U m Hinv HD HS Hs Hn Hrefs Hfree.
  { exists 0, m, S. split; [done|]. split; [done|]. right. split; [done|]. exists []. by rewrite protected_0. }
  rewrite pages_from_cons by lia. simpl share_cow_pages. set (p := s + Z.of_nat k) in *.
  assert (U !! (dst, p) = None) as Hnone by (apply Hfree; lia).
  pose proof (source_frame S U E m src p Hinv HS ltac:(unfold p; lia)) as Hsrc. simpl in Hsrc. rewrite Hsrc. clear Hsrc.
  destruct (U !! (src, p)) as [e|] eqn:Hk; simpl.
  2: { destruct (undo_ok S S U E dst s k m m HD eq_refl Hinv (same_bytes_refl _ _ _) Hs) as (m' & Hm' & Hi & Hb); [unfold p in *; lia|].
       fold p in Hm'. rewrite Hm'. exists (-1), m', S. split; [done|]. split; [done|left]. split; [done|]. split; [|done]. exists 0%nat. rewrite protected_0. by split; [lia|]. }
  destruct (entry_readable S U E m _ _ Hinv Hk) as [_ Hfo]. destruct (vi_refs _ _ _ _ Hinv _ Hfo) as (H0 & _). decide_tests.
  assert (few_refs U E 1) as Hr1 by (intros g; specialize (Hrefs g); lia).
  destruct (cow_step_ok E dst src s x k S U m e Hinv HD HS Hs ltac:(unfold p in *; lia) Hr1 Hnone Hk)
    as (m1 & m2 & rc & m3 & S3 & -> & H2 & H3 & Hd3 & Hbm3 & Hr). fold p in H2, H3, Hr. simpl. rewrite H2. simpl. rewrite H3.
  destruct Hr as [(-> & Hinv4 & Hmem4)|(-> & Hinv4)]; simpl.
  { destruct (cow_undo E dst src s x k S U m e HD Hs ltac:(unfold p in *; lia) Hk S3 _ Hd3 Hinv4) as (m' & Hm' & Hi & Hb); [by eapply same_bytes_mem|].
    fold p in Hm', Hi. rewrite Hm'. exists (-1), m', S3. split; [done|]. split; [done|left]. split; [done|]. split; [|done]. exists 1%nat. split; [lia|done]. }
  replace (p + 1) with (s + Z.of_nat (Datatypes.S k)) by (unfold p; lia).
  pose proof (cow_none dst src s x k U e Hnone Hk) as Hn1. pose proof (cow_owned E src s x k U e Hk) as Ho1. fold p in Hn1, Ho1.
  set (U1 := <[(src, p) := set_protection nx false x e]> U) in *. set (d := user_entry nx (next_frame e) false x) in *.
  destruct (IH (Datatypes.S k) S3 _ m3 Hinv4) as (rc & m' & S' & -> & Hd' & Hr);
    [by eapply dom_some|by eapply dom_some|done|lia|apply few_refs_insert; [done|intros g; rewrite Ho1; apply Hrefs]|..].
  { intros i Hi. unfold U1. rewrite !lookup_insert_ne by (intros [= ?]; unfold p in *; lia). apply Hfree. unfold p in *. lia. }
  assert (forall j, protected src (p + 1) j false x (<[(dst, p) := d]> U1) = <[(dst, p) := d]> (protected src p (Datatypes.S j) false x U)) as Hprot.
  { intros j. rewrite protected_insert by (unfold in_range; simpl; lia). unfold U1. by rewrite protected_step. }
  replace (s + Z.of_nat (Datatypes.S k)) with (p + 1) in Hr by (unfold p; lia).
  exists rc, m', S'. split; [done|]. split; [by rewrite Hd'|].
  destruct Hr as [(-> & (j & Hj & Hi) & Hb)|(-> & es & Hlen & Hes & Hi & Hb)]; [left|right]; (split; [done|]).
  - split.
    + exists (Datatypes.S j). split; [lia|]. rewrite Hprot in Hi. unfold p in Hi. rewrite without_insert in Hi; [done|].
      fold p. rewrite protected_lookup, Hnone. by destruct (decide _).
    + rewrite (without_insert dst s k U1) in Hb by done. eapply same_bytes_trans; [exact Hbm3|exact Hb|].
      intros g Hg. split; [by eapply owned_without|]. pose proof (cow_without_owned E dst src s x k U e Hk) as Hwo. fold p U1 in Hwo. by rewrite Hwo.
  - exists (e :: es). simpl. split; [lia|]. split.
    + intros [|i] e' He'; simpl in He'; [injection He' as <-; by rewrite Z.add_0_r|]. apply Hes in He'.
      unfold U1 in He'. rewrite !lookup_insert_ne in He' by (intros [=]; lia). rewrite <- He'. do 2 f_equal. lia.
    + rewrite Hprot in Hi. split; [done|]. eapply same_bytes_trans; [exact Hbm3|exact Hb|].
      intros g Hg. split; [done|]. apply owned_insert; [done|]. by rewrite Ho1.
Qed.

(** *** Copying a range *)

Lemma alloc_user_page_ok S U E m cr3 n w x : vm_inv S U E m -> is_Some (S !! cr3) -> 0 <= n < 2 ^ 36 -> U !! (cr3, n) = None ->
  exists f m' S', vm_alloc_user_page nx (Some cr3) (4096 * n) w x m = (f, m') /\ dom S' = dom S /\ same_bytes U E m m' /\
    (f = 0 /\ vm_inv S' U E m' \/
     f <> 0 /\ is_frame f /\ f ∉ owned U E /\ vm_inv S' (<[(cr3, n) := user_entry nx f w x]> U) E m').
Proof.
  intros Hinv HS Hn Hnone. pose proof (map_fresh S U E m cr3 n w x Hinv HS Hn Hnone) as Ha. unfold vm_alloc_user_page.
  destruct (vm_rpc_alloc_frame m) as [f m1]. destruct Ha as [[-> ->]|(H0 & Hf & Hnf & _ & _ & Hmap)].
  { exists 0, m, S. split; [done|]. split; [done|]. split; [done|by left]. }
  destruct (Hmap m1 (frame_only_refl _ _)) as (rc & m3 & S3 & Hm & Hd & Hb & Hr). decide_tests. unfold vm_map_user_page. decide_tests.
  rewrite Hm. destruct Hr as [(-> & Hi & Hb')|(-> & Hi & _)]; simpl.
  - exists 0, (vm_rpc_free_frame f m3), S3. do 3 (split; [done|]). by left.
  - exists f, m3, S3. do 3 (split; [done|]). by right.
Qed.

(** Taking a page back that was mapped by mistake. *)
Lemma unmap_back S U E m cr3 n f w x : is_Some (S !! cr3) -> 0 <= n < 2 ^ 36 -> U !! (cr3, n) = None -> is_frame f ->
  vm_inv S (<[(cr3, n) := user_entry nx f w x]> U) E m ->
  let m' := vm_rpc_free_frame f (arch_vm_unmap_page cr3 (4096 * n) m).2 in
  vm_inv S U E m' /\ same_bytes U E m m'.
Proof.
  intros HS Hn Hnone Hf Hinv. set (e := user_entry nx f w x) in *. destruct (page_of n Hn) as [Hpn Hpo].
  destruct (user_entry_bits nx f w x Hf) as (Bu & _ & Bf & _). fold e in Bu, Bf.
  pose proof HS as [G HG]. rewrite (unmap_page_user G cr3 m (vi_space _ _ _ _ Hinv _ _ HG)).
  2: { unfold user_page. rewrite Hpo, <- (view_page cr3 m), Hpn.
       assert (view cr3 m n = e) as -> by (apply (vi_user _ _ _ _ Hinv); apply lookup_insert_eq). exact Bu. }
  destruct (unmap_inv S _ E m Hinv cr3 (4096 * n) HS Hpo) as (r & m1 & -> & Hb & Hr).
  rewrite Hpn, lookup_insert_eq, Bf in Hr. destruct Hr as (-> & _ & Hinv1). rewrite delete_insert_id in Hinv1 by done. simpl.
  destruct (free_frame_inv S U _ m1 Hinv1 f) as (Hinv2 & _ & Hmem); [refs_lia|]. rewrite refs_back in Hinv2. split; [done|].
  intros g a Hg. apply (same_bytes_mem _ E m m1 _ Hb Hmem). by apply owned_insert.
Qed.

Lemma clone_pages_ok E dst src s w x n : forall k S U m, vm_inv S U E m -> is_Some (S !! dst) -> is_Some (S !! src) -> dst <> src ->
  0 <= s -> s + Z.of_nat k + Z.of_nat n <= 2 ^ 36 ->
  (forall i, s + Z.of_nat k <= i < s + Z.of_nat k + Z.of_nat n -> U !! (dst, i) = None) ->
  exists rc m' S', clone_pages nx dst src (4096 * s) (pages_from (4096 * (s + Z.of_nat k)) n) w x m = (rc, m') /\ dom S' = dom S /\
    (rc = -1 /\ vm_inv S' (without dst s k U) E m' /\ same_bytes (without dst s k U) E m m' \/
     rc = 0 /\ exists fs es, length fs = n /\ length es = n /\ NoDup fs /\ (forall f, f ∈ fs -> is_frame f /\ f ∉ owned U E) /\
       (forall i e, es !! i = Some e -> U !! (src, s + Z.of_nat k + Z.of_nat i) = Some e) /\
       vm_inv S' (with_pages dst (s + Z.of_nat k) ((fun f => user_entry nx f w x) <$> fs) U) E m' /\
       same_bytes U E m m' /\
       forall i f e o, fs !! i = Some f -> es !! i = Some e -> 0 <= o < 4096 -> rd8 (f + o) m' = rd8 (next_frame e + o) m).
Proof.
  induction n as [|n IH]; intros k S U m Hinv HD HS Hne Hs Hn Hfree.
  { exists 0, m, S. split; [done|]. split; [done|]. right. split; [done|]. exists [], []. do 2 (split; [done|]).
    split; [constructor|]. split; [by intros f Hf%elem_of_nil|]. do 3 (split; [done|]). done. }
  rewrite pages_from_cons by lia. simpl clone_pages. assert (U !! (dst, s + Z.of_nat k) = None) as Hnone by (apply Hfree; lia).
  destruct (alloc_user_page_ok S U E m dst (s + Z.of_nat k) w x Hinv HD ltac:(lia) Hnone) as (f & m1 & S1 & -> & Hd1 & Hb1 & Hr).
  pose proof (dom_some _ _ _ Hd1 HS) as HS1. pose proof (dom_some _ _ _ Hd1 HD) as HD1.
  destruct Hr as [[-> Hinv1]|(H0 & Hf & Hnf & Hinv1)].
  { simpl. destruct (undo_ok S S1 U E dst s k m m1 HD Hd1 Hinv1 Hb1 Hs) as (m' & -> & Hi & Hb); [lia|].
    exists (-1), m', S1. split; [done|]. split; [done|by left]. }
  pose proof (source_frame S1 _ E m1 src (s + Z.of_nat k) Hinv1 HS1 ltac:(lia)) as Hsrc. simpl in Hsrc. rewrite Hsrc. clear Hsrc.
  rewrite lookup_insert_ne by congruence. decide_tests. simpl orb.
  destruct (U !! (src, s + Z.of_nat k)) as [e|] eqn:Hk; simpl.
  2: { destruct (unmap_back S1 U E m1 dst (s + Z.of_nat k) f w x HD1 ltac:(lia) Hnone Hf Hinv1) as [Hinv2 Hb2].
       destruct (undo_ok S S1 U E dst s k m _ HD Hd1 Hinv2) as (m' & -> & Hi & Hb);
         [eapply same_bytes_trans; [exact Hb1|exact Hb2|done]|done|lia|].
       exists (-1), m', S1. split; [done|]. split; [done|by left]. }
  destruct (entry_readable S U E m _ _ Hinv Hk) as [_ Hgo]. set (g := next_frame e) in *.
  destruct (vi_refs _ _ _ _ Hinv g Hgo) as (Hg0 & _). decide_tests.
  destruct (user_entry_bits nx f w x Hf) as (_ & _ & Bf & _).
  pose proof (owned_new U E (dst, s + Z.of_nat k) (user_entry nx f w x)) as Hfo. rewrite Bf in Hfo.
  change (Z.to_nat VM_PAGE_SIZE) with 4096%nat.
  destruct (mem_copy_ok f g 4096 m1 Hf (owned_frame S U E m Hinv g Hgo)) as [Ho Hc]; [intros ->; done|lia|].
  destruct (write_owned S1 _ E m1 Hinv1 f _ Hfo Ho) as [Hinv2 _]. set (m2 := mem_copy f g 4096 m1) in *.
  assert (same_bytes U E m m2) as Hb2.
  { intros h a Hh Ha. rewrite (rd8_frame f m1 m2 a Hf Ho); [by apply (Hb1 h)|].
    apply (other_frame f h); [done|by apply (owned_frame S U E m Hinv)|by intros ->|done]. }
  replace (s + Z.of_nat k + 1) with (s + Z.of_nat (Datatypes.S k)) by lia.
  destruct (IH (Datatypes.S k) S1 _ m2 Hinv2 HD1 HS1 Hne Hs) as (rc & m' & S' & -> & Hd' & Hr); [lia|..].
  { intros i Hi. rewrite lookup_insert_ne by (intros [=]; lia). apply Hfree. lia. }
  rewrite without_insert in Hr by done. exists rc, m', S'. split; [done|]. split; [by rewrite Hd'|].
  destruct Hr as [(-> & Hi & Hb)|(-> & fs & es & Hl1 & Hl2 & Hnd & Hfresh & Hes & Hi & Hb & Hcopy)]; [left|right]; (split; [done|]).
  - split; [done|]. eapply same_bytes_trans; [exact Hb2|exact Hb|]. intros h Hh. split; [by eapply owned_without|done].
  - exists (f :: fs), (e :: es). simpl. split; [lia|]. split; [lia|]. split.
    { constructor; [|done]. intros Hin. by apply (Hfresh f Hin). }
    split.
    { intros h [->|Hh]%elem_of_cons; [done|]. destruct (Hfresh h Hh) as [Hhf Hhn]. split; [done|]. intros Hho. apply Hhn. by apply owned_insert. }
    split.
    { intros [|i] e' He'; simpl in He'; [injection He' as <-; by rewrite Z.add_0_r|]. apply Hes in He'.
      rewrite lookup_insert_ne in He' by (intros [=]; lia). rewrite <- He'. do 2 f_equal. lia. }
    replace (s + Z.of_nat k + 1) with (s + Z.of_nat (Datatypes.S k)) by lia. split; [done|]. split.
    { eapply same_bytes_trans; [exact Hb2|exact Hb|]. intros h Hh. split; [done|by apply owned_insert]. }
    intros [|i] f' e' o Hf' He' Hoff; simpl in Hf', He'.
    + injection Hf' as <-. injection He' as <-. rewrite (Hb f) by (done || lia). unfold m2. rewrite Hc.
      destruct (Z.leb_spec f (f + o)), (Z.ltb_spec (f + o) (f + Z.of_nat 4096)); simpl; try lia.
      replace (g + (f + o - f)) with (g + o) by lia. apply (Hb1 g); [done|lia].
    + rewrite (Hcopy i f' e' o Hf' He' Hoff). apply Hes in He'. rewrite lookup_insert_ne in He' by (intros [=]; lia).
      destruct (entry_readable S U E m _ _ Hinv He') as [_ Hgo']. apply (Hb2 (next_frame e')); [done|lia].
Qed.

(** *** Copy on write *)

Lemma cow_user_page_ok S U E m cr3 va x : vm_inv S U E m -> is_Some (S !! cr3) -> 0 <= va < 2 ^ 48 ->
  let k := (cr3, va / 4096) in
  exists rc m' S', vm_cow_user_page nx (Some cr3) va x m = (rc, m') /\ dom S' = dom S /\ same_bytes U E m m' /\
    (rc = -1 /\ vm_inv S' U E m' \/
     rc = 0 /\ exists e f, U !! k = Some e /\ is_frame f /\ f ∉ owned U E /\
       vm_inv S' (<[k := user_entry nx f true x]> U) E m' /\
       forall o, 0 <= o < 4096 -> rd8 (f + o) m' = rd8 (next_frame e + o) m).
Proof.
  intros Hinv HS Hva k. unfold vm_cow_user_page. set (p := va / 4096) in *.
  assert (align_down va VM_PAGE_SIZE = 4096 * p) as ->.
  { change VM_PAGE_SIZE with (2 ^ 12). rewrite align_down_pow2 by (unfold in_u64; lia). change (2 ^ 12) with 4096. unfold p. lia. }
  assert (0 <= p < 2 ^ 36) as Hp by (split; [apply Z.div_pos; lia|apply Z.div_lt_upper_bound; lia]).
  rewrite (source_frame S U E m cr3 p Hinv HS Hp). fold k.
  destruct (U !! k) as [e|] eqn:Hk; simpl; [|exists (-1), m, S; do 3 (split; [done|]); by left].
  destruct (entry_readable S U E m _ _ Hinv Hk) as [_ Hgo]. set (g := next_frame e) in *.
  destruct (vi_refs _ _ _ _ Hinv g Hgo) as (Hg0 & _). decide_tests.
  pose proof (alloc_frame_ok S U E m Hinv) as Ha. destruct (vm_rpc_alloc_frame m) as [f m1].
  destruct Ha as [[-> ->]|(H0 & Hf & Hnf & _ & Hmem1 & Hinv1 & _)]; [exists (-1), m, S; do 3 (split; [done|]); by left|].
  decide_tests. assert (f ∈ owned U (E ⊎ {[+ f +]})) as Hfo by refs_lia. change (Z.to_nat VM_PAGE_SIZE) with 4096%nat.
  destruct (mem_copy_ok f g 4096 m1 Hf (owned_frame S U E m Hinv g Hgo)) as [Ho Hc]; [intros ->; done|lia|].
  destruct (write_owned S U _ m1 Hinv1 f _ Hfo Ho) as [Hinv2 _]. set (m2 := mem_copy f g 4096 m1) in *.
  assert (forall a, rd8 a m1 = rd8 a m) as Hm1 by (intros a; unfold rd8, rd; by rewrite Hmem1).
  assert (same_bytes U E m m2) as Hb2.
  { intros h a Hh Ha. rewrite (rd8_frame f m1 m2 a Hf Ho); [done|].
    apply (other_frame f h); [done|by apply (owned_frame S U E m Hinv)|by intros ->|done]. }
  destruct (map_inv nx S U _ m2 Hinv2 cr3 (4096 * p) f true x HS) as (rc & m3 & S3 & -> & Hd3 & Hb3 & Hr); [refs_lia|].
  destruct (page_of p Hp) as [Hpn Hpo]. rewrite Hpn in Hr. cbv zeta in Hr. fold k in Hr. rewrite Hk in Hr.
  assert (same_bytes U E m m3) as Hbm3.
  { eapply same_bytes_trans; [exact Hb2|exact Hb3|]. intros h Hh. split; [done|]. refs_lia. }
  destruct Hr as [[-> Hinv3]|(-> & _ & Hinv3)]; simpl.
  - destruct (free_frame_inv S3 U _ m3 Hinv3 f) as (Hinv4 & _ & Hmem4); [refs_lia|]. rewrite refs_back in Hinv4.
    exists (-1), (vm_rpc_free_frame f m3), S3. do 2 (split; [done|]). split; [by eapply same_bytes_mem|by left].
  - rewrite refs_back in Hinv3. simpl released in Hinv3. fold g in Hinv3.
    destruct (free_frame_inv S3 _ _ m3 Hinv3 g) as (Hinv4 & _ & Hmem4); [refs_lia|]. rewrite refs_back in Hinv4.
    exists 0, (vm_rpc_free_frame g m3), S3. do 2 (split; [done|]). split; [by eapply same_bytes_mem|right].
    split; [done|]. exists e, f. do 4 (split; [done|]). intros o Ho'.
    assert (rd8 (f + o) (vm_rpc_free_frame g m3) = rd8 (f + o) m3) as -> by (unfold rd8, rd; by rewrite Hmem4).
    rewrite (Hb3 f) by (done || lia). unfold m2. rewrite Hc.
    destruct (Z.leb_spec f (f + o)), (Z.ltb_spec (f + o) (f + Z.of_nat 4096)); simpl; try lia.
    rewrite Hm1. f_equal. lia.
Qed.
(** *** Single pages *)

(** Mapping a frame that the caller holds at a page that is free. *)
Lemma map_user_page_ok S U E m cr3 va f w x : vm_inv S U E m -> is_Some (S !! cr3) -> f ∈ E -> U !! (cr3, page_number va) = None ->
  exists rc m' S', vm_map_user_page nx (Some cr3) va f w x m = (rc, m') /\ dom S' = dom S /\ same_bytes U E m m' /\
    (rc = -1 /\ vm_inv S' U E m' \/
     rc = 0 /\ page_offset va = 0 /\ vm_inv S' (<[(cr3, page_number va) := user_entry nx f w x]> U) (E ∖ {[+ f +]}) m').
Proof.
  intros Hinv HS Hf Hnone. assert (f ∈ owned U E) as Hfo by refs_lia. destruct (vi_refs _ _ _ _ Hinv f Hfo) as (H0 & _).
  destruct (map_inv nx S U E m Hinv cr3 va f w x HS Hf) as (rc & m' & S' & Hm & Hd & Hb & Hr).
  exists rc, m', S'. unfold vm_map_user_page. decide_tests. do 3 (split; [done|]). cbv zeta in Hr. rewrite Hnone in Hr.
  destruct Hr as [?|(? & ? & Hi)]; [by left|right]. simpl released in Hi. by rewrite (right_id_L ∅ (⊎)) in Hi.
Qed.

(** A new frame at a page that is free; without a space, or at an address
    inside a page, the frame goes back. *)
Lemma alloc_page_at S U E m s va w x : vm_inv S U E m ->
  (forall cr3, s = Some cr3 -> is_Some (S !! cr3) /\ U !! (cr3, page_number va) = None) ->
  exists f m' S', vm_alloc_user_page nx s va w x m = (f, m') /\ dom S' = dom S /\ same_bytes U E m m' /\
    (f = 0 /\ vm_inv S' U E m' \/
     f <> 0 /\ page_offset va = 0 /\ is_frame f /\ f ∉ owned U E /\
       exists cr3, s = Some cr3 /\ vm_inv S' (<[(cr3, page_number va) := user_entry nx f w x]> U) E m').
Proof.
  intros Hinv Hs. unfold vm_alloc_user_page. pose proof (alloc_frame_ok S U E m Hinv) as Ha.
  destruct (vm_rpc_alloc_frame m) as [f m1].
  destruct Ha as [[-> ->]|(H0 & Hf & Hnf & _ & Hmem1 & Hinv1 & _)].
  { exists 0, m, S. do 2 (split; [done|]). split; [done|by left]. }
  decide_tests. assert (f ∈ E ⊎ {[+ f +]}) as Hfe by refs_lia.
  assert (same_bytes U E m m1) as Hb1 by (intros g a _ _; unfold rd8, rd; by rewrite Hmem1).
  assert (forall S2 m2, vm_inv S2 U (E ⊎ {[+ f +]}) m2 -> same_bytes U E m m2 ->
    vm_inv S2 U E (vm_rpc_free_frame f m2) /\ same_bytes U E m (vm_rpc_free_frame f m2)) as Hback.
  { intros S2 m2 Hi Hb. destruct (free_frame_inv S2 U _ m2 Hi f Hfe) as (Hi' & _ & Hmem). rewrite refs_back in Hi'.
    split; [done|]. by eapply same_bytes_mem. }
  destruct s as [cr3|]; simpl vm_map_user_page.
  2: { destruct (Hback S m1 Hinv1 Hb1) as [? ?]. exists 0, (vm_rpc_free_frame f m1), S. do 3 (split; [done|]). by left. }
  destruct (Hs cr3 eq_refl) as [HS Hnone].
  destruct (map_user_page_ok S U _ m1 cr3 va f w x Hinv1 HS Hfe Hnone) as (rc & m2 & S2 & Hm & Hd & Hb & Hr).
  unfold vm_map_user_page in Hm. rewrite Hm.
  assert (same_bytes U E m m2) as Hb2 by (eapply same_bytes_trans; [exact Hb1|exact Hb|]; intros g Hg; split; [done|refs_lia]).
  destruct Hr as [[-> Hi]|(-> & Hal & Hi)]; simpl.
  - destruct (Hback S2 m2 Hi Hb2) as [? ?]. exists 0, (vm_rpc_free_frame f m2), S2. do 3 (split; [done|]). by left.
  - rewrite refs_back in Hi. exists f, m2, S2. do 3 (split; [done|]). right. do 4 (split; [done|]). by exists cr3.
Qed.
End RangeOps.
