(* ===== verification/VmSpace.v ===== *)
(** * Address spaces as objects (kernel/vm.c)

    Creating and destroying address spaces with their registry, the tree
    [spaces_by_id], and the operations of kernel/vm.c on the user memory of the
    spaces that exist and on frames that are not mapped yet.  This file composes [Pmm], [PageTable], [Vm] and [Tree]. *)
From stdpp Require Import gmap gmultiset list strings.
From Stdlib Require Import ZArith Lia.
From S2P Require Import Prelude Pmm Tree PageTable Vm.

Open Scope Z_scope.
Open Scope machine_scope.

Record vm_space := mk_space { sp_id : Z; sp_owner : string; sp_cr3 : Z }.

(** The machine, the spaces by address, [spaces_by_id] and [next_space_id].
    The address of [id_node] in a space is the address of the space.
    [vs_held] records the frames that callers took with [vm_rpc_alloc_frame]
    and have neither mapped nor given back. *)
Record vm_state := mk_vm {
  vs_mach : mach;
  vs_spaces : gmap Z vm_space;
  vs_ids : tree Z;
  vs_next : Z;
  vs_held : gmultiset Z;
}.

Definition with_mach (m : mach) (v : vm_state) : vm_state := mk_vm m (vs_spaces v) (vs_ids v) (vs_next v) (vs_held v).
Definition with_held (E : gmultiset Z) (m : mach) (v : vm_state) : vm_state := mk_vm m (vs_spaces v) (vs_ids v) (vs_next v) E.

Section Spaces.
Context (nx_supported : bool) (arch_boot_pml4 : Z).
(** [arch_smp_lapic_address()] and the address of [kernel_space]. *)
Context (lapic kernel_space : Z).

(** [slab] is the result of [slab_zalloc].  [None] is undefined behaviour. *)
Definition vm_rpc_create_space (slab : option Z) (owner : string) (v : vm_state) : option (Z * vm_state) :=
  match slab with
  | None => Some (0, v)
  | Some space =>
      let ids := add_node space (vs_ids v) in
      let '(r, m) := arch_vm_space_init (vs_mach v) in
      match r with
      | None => Some (0, mk_vm m (vs_spaces v) (drop_node space ids) (vs_next v) (vs_held v))
      | Some cr3 =>
          let '(rc, m) :=
            if negb (lapic =? 0) then arch_vm_map_page nx_supported cr3 lapic lapic true false false m else (0, m) in
          if negb (rc =? 0) then Some (0, mk_vm m (vs_spaces v) (drop_node space ids) (vs_next v) (vs_held v)) else
          let id := vs_next v in
          let next := u32 (id + 1) in
          let '(id, next) := if id =? 0 then (next, u32 (next + 1)) else (id, next) in
          '(rc, ids) ← u64_tree_insert_node space id space ids;
          if negb (rc =? 0) then
            Some (0, mk_vm (arch_vm_space_destroy arch_boot_pml4 cr3 m) (vs_spaces v) (drop_node space ids) next (vs_held v))
          else Some (space, mk_vm m (<[space := mk_space id owner cr3]> (vs_spaces v)) ids next (vs_held v))
      end
  end.

Definition vm_rpc_destroy_space (space : Z) (v : vm_state) : option vm_state :=
  if (space =? 0) || (space =? kernel_space) then Some v else
  sp ← vs_spaces v !! space;
  n ← heap (vs_ids v) !! space;
  ids ← (if negb (value n =? 0) then u64_tree_remove_node space (vs_ids v) else Some (vs_ids v));
  Some (mk_vm (arch_vm_space_destroy arch_boot_pml4 (sp_cr3 sp) (vs_mach v))
          (delete space (vs_spaces v)) (drop_node space ids) (vs_next v) (vs_held v)).

(** A pointer to a space: null, or the space at the address. *)
Definition space_arg (a : Z) (v : vm_state) : option (option Z) :=
  if a =? 0 then Some None else sp ← vs_spaces v !! a; Some (Some (sp_cr3 sp)).

Inductive vm_op :=
  | VCreate (slab : option Z) (owner : string)
  | VDestroy (space : Z)
  | VAlloc (space vaddr len : Z) (writable executable : bool)
  | VUnmap (space vaddr len : Z)
  | VProtect (space vaddr len : Z) (writable executable : bool)
  | VClone (dst src vaddr len : Z) (writable executable : bool)
  | VShare (dst src vaddr len : Z) (writable executable : bool)
  | VShareCow (dst src vaddr len : Z) (executable : bool)
  | VCow (space vaddr : Z) (executable : bool)
  | VRead (space vaddr len : Z)
  | VWrite (space vaddr : Z) (src : list Z)
  | VAllocPage (space vaddr : Z) (writable executable : bool)
  | VMapPage (space vaddr frame : Z) (writable executable : bool)
  | VFrame
  | VFree (frame : Z)
  | VFill (frame off : Z) (src : list Z).

(** The result of an operation and the bytes it stores for its caller.
    [VFill] is the holder of a frame storing into it, as kernel/elf.c and
    kernel/server.c do before they map it. *)
Definition done (r : Z * mach) (v : vm_state) : option (Z * list Z * vm_state) := Some (r.1, [], with_mach r.2 v).

Definition vm_exec (op : vm_op) (v : vm_state) : option (Z * list Z * vm_state) :=
  let m := vs_mach v in
  match op with
  | VCreate slab owner => '(space, v) ← vm_rpc_create_space slab owner v; Some (space, [], v)
  | VDestroy space => v ← vm_rpc_destroy_space space v; Some (0, [], v)
  | VAlloc a vaddr len w x => s ← space_arg a v; done (vm_alloc_user_range nx_supported s vaddr len w x m) v
  | VUnmap a vaddr len => s ← space_arg a v; done (vm_unmap_user_range s vaddr len m) v
  | VProtect a vaddr len w x => s ← space_arg a v; done (vm_protect_user_range nx_supported s vaddr len w x m) v
  | VClone d a vaddr len w x =>
      dst ← space_arg d v; src ← space_arg a v; done (vm_clone_user_range nx_supported dst src vaddr len w x m) v
  | VShare d a vaddr len w x =>
      dst ← space_arg d v; src ← space_arg a v; done (vm_share_user_range nx_supported dst src vaddr len w x m) v
  | VShareCow d a vaddr len x =>
      dst ← space_arg d v; src ← space_arg a v; done (vm_share_cow_user_range nx_supported dst src vaddr len x m) v
  | VCow a vaddr x => s ← space_arg a v; done (vm_cow_user_page nx_supported s vaddr x m) v
  | VRead a vaddr len => s ← space_arg a v; '(rc, bytes) ← vm_read_user s vaddr len m; Some (rc, bytes, v)
  | VWrite a vaddr src => s ← space_arg a v; '(rc, m) ← vm_write_user s vaddr src m; Some (rc, [], with_mach m v)
  | VAllocPage a vaddr w x => s ← space_arg a v; done (vm_alloc_user_page nx_supported s vaddr w x m) v
  | VMapPage a vaddr frame w x =>
      s ← space_arg a v;
      let '(rc, m) := vm_map_user_page nx_supported s vaddr frame w x m in
      Some (rc, [], with_held (if rc =? 0 then vs_held v ∖ {[+ frame +]} else vs_held v) m v)
  | VFrame =>
      let '(frame, m) := vm_rpc_alloc_frame m in
      Some (frame, [], with_held (if frame =? 0 then vs_held v else vs_held v ⊎ {[+ frame +]}) m v)
  | VFree frame => Some (0, [], with_held (vs_held v ∖ {[+ frame +]}) (vm_rpc_free_frame frame m) v)
  | VFill frame off src => Some (0, [], with_mach (store_bytes (frame + off) src m) v)
  end.

(** ** What callers respect *)

(** No page of a range is mapped. *)
Definition range_unmapped (s : option Z) (vaddr len : Z) (m : mach) : Prop :=
  Forall (fun page => vm_translate_user_read s page m = 0) (vm_pages (range_start vaddr) (range_end vaddr len)).

(** No reference count reaches 2^32 by sharing the range once more. *)
Definition counts_small (vaddr len : Z) (m : mach) : Prop :=
  let n := Z.of_nat (length (vm_pages (range_start vaddr) (range_end vaddr len))) in
  n < 2 ^ 32 /\ map_Forall (fun _ st => match st with Used k => k + n < 2 ^ 32 | Free => True end) (frames (pm m)).

(** Addresses lie in the 48 bits the page tables translate. *)
Definition range_in (vaddr len : Z) : Prop := in_u64 vaddr /\ in_u64 len /\ vaddr + len <= 2 ^ 48.
Definition space_ok (a : Z) (v : vm_state) : Prop := a = 0 \/ is_Some (vs_spaces v !! a).

Definition unused (s : option Z) (m : mach) : Prop :=
  forall vaddr, 0 <= vaddr < 2 ^ 48 -> vm_translate_user_read s vaddr m = 0.

Definition vm_pre (op : vm_op) (v : vm_state) : Prop :=
  let m := vs_mach v in
  match op with
  | VCreate slab _ => (forall a, slab = Some a -> a <> 0 /\ a <> kernel_space /\ in_u64 a /\ vs_spaces v !! a = None) /\
      frames (pm m) !! arch_boot_pml4 <> Some Free
  | VDestroy a => space_ok a v /\ forall s, space_arg a v = Some s -> unused s m
  | VAlloc a vaddr len _ _ => space_ok a v /\ range_in vaddr len /\
      forall s, space_arg a v = Some s -> range_unmapped s vaddr len m
  | VUnmap a vaddr len | VProtect a vaddr len _ _ => space_ok a v /\ range_in vaddr len
  | VClone d a vaddr len _ _ => space_ok d v /\ space_ok a v /\ d <> a /\ range_in vaddr len /\
      forall s, space_arg d v = Some s -> range_unmapped s vaddr len m
  | VShare d a vaddr len _ _ | VShareCow d a vaddr len _ => space_ok d v /\ space_ok a v /\ range_in vaddr len /\
      counts_small vaddr len m /\
      forall s, space_arg d v = Some s -> range_unmapped s vaddr len m
  | VCow a vaddr _ => space_ok a v /\ 0 <= vaddr < 2 ^ 48
  | VRead a vaddr len => space_ok a v /\ in_u64 vaddr /\ in_u64 len
  | VWrite a vaddr src => space_ok a v /\ in_u64 vaddr /\ in_u64 (Z.of_nat (length src))
  | VAllocPage a vaddr _ _ => space_ok a v /\
      forall s, space_arg a v = Some s -> vm_translate_user_read s vaddr m = 0
  | VMapPage a vaddr frame _ _ => space_ok a v /\ frame ∈ vs_held v /\
      forall s, space_arg a v = Some s -> vm_translate_user_read s vaddr m = 0
  | VFrame => True
  | VFree frame => frame ∈ vs_held v
  | VFill frame off src => frame ∈ vs_held v /\ 0 <= off /\ off + Z.of_nat (length src) <= 4096
  end.
End Spaces.

(** ** Spaces come and go *)

Section Lifecycle.
Context (S : spaces) (U : user_pages) (E : gmultiset Z) (m : mach) (Hinv : vm_inv S U E m).
Context (G : gmap Z (Z * Z)) (m' : mach) (Hg : grows ∅ m G m').

Lemma new_was_free t x : G !! t = Some x -> frames (pm m) !! t = Some Free.
Proof. intros Ht. apply (gr_new _ _ _ _ Hg t x Ht). apply lookup_empty. Qed.

Lemma used_untouched t : is_frame t -> frames (pm m) !! t <> Some Free ->
  frames (pm m') !! t = frames (pm m) !! t /\ forall i, 0 <= i < 512 -> rd (slot_addr t i) m' = rd (slot_addr t i) m.
Proof.
  intros Hf Hu. assert (G !! t = None) as Hn.
  { destruct (G !! t) eqn:Ht; [|done]. by apply new_was_free in Ht. }
  split; [apply (gr_frames _ _ _ _ Hg); by left|]. intros i Hi. apply (gr_mem _ _ _ _ Hg). intros t' x j Ht' Hj.
  apply slot_ne; [done| |done|done|congruence]. eapply mw_frame; [apply Hinv|]. by eapply new_was_free.
Qed.

Lemma tables_untouched cr3 G2 : S !! cr3 = Some G2 -> same_tables G2 m m'.
Proof.
  intros HG t x Ht. destruct (sw_used _ _ _ (vi_space _ _ _ _ Hinv _ _ HG) t x Ht) as (Hu & Hf & _).
  apply used_untouched; [done|congruence].
Qed.

(** Tables that are lost do not disturb the other spaces. *)
Lemma leak_inv : vm_inv S U E m' /\ same_bytes U E m m'.
Proof.
  assert (forall f, f ∈ owned U E -> is_frame f /\ frames (pm m) !! f <> Some Free) as Ho.
  { intros f Hf. split; [by apply (owned_frame S U E m Hinv)|]. destruct (vi_refs _ _ _ _ Hinv f Hf) as (_ & _ & Hu). congruence. }
  split.
  - apply (inv_step S U E m Hinv E m'); [apply Hg|apply tables_untouched|].
    intros f Hf. destruct (Ho f Hf) as [Hff Hu]. rewrite (proj1 (used_untouched f Hff Hu)). by apply (vi_refs _ _ _ _ Hinv).
  - intros f a Hf Ha. destruct (Ho f Hf) as [Hff Hu]. destruct (word_in_frame f a Hff Ha) as (i & Hi & Hw).
    unfold rd8. rewrite Hw. by rewrite (proj2 (used_untouched f Hff Hu) i Hi).
Qed.

(** A new space without user pages. *)
Lemma add_space cr3 : space_wf G cr3 m' -> (forall va, is_user (pte_of cr3 va m') = false) ->
  S !! cr3 = None /\ vm_inv (<[cr3 := G]> S) U E m'.
Proof.
  intros Hwf Hno. assert (S !! cr3 = None) as HS.
  { destruct (S !! cr3) as [G2|] eqn:H2; [|done]. pose proof (vi_space _ _ _ _ Hinv _ _ H2) as Hwf2.
    destruct (sw_used _ _ _ Hwf2 _ _ (sw_root _ _ _ Hwf2)) as (Hu & _). rewrite (new_was_free cr3 _ (sw_root _ _ _ Hwf)) in Hu. done. }
  split; [done|]. apply (grow_inv S U E m Hinv cr3 ∅ G m'); [by right|done|done|done| |done].
  intros n e. split.
  - intros ([G2 H2] & _)%(vi_user _ _ _ _ Hinv). congruence.
  - intros (_ & <- & Hu). unfold view in Hu. by rewrite Hno in Hu.
Qed.

(** Destroying a space that was just made. *)
Lemma make_and_destroy cr3 boot : space_wf G cr3 m' -> cr3 <> boot -> vm_inv S U E (arch_vm_space_destroy boot cr3 m') /\
  same_bytes U E m (arch_vm_space_destroy boot cr3 m').
Proof.
  intros Hwf Hb. destruct (space_destroy_ok G cr3 m' Hwf boot (gr_wf _ _ _ _ Hg) Hb) as [Hmem Hm3 Hfr].
  destruct leak_inv as [Hl Hby]. set (m3 := arch_vm_space_destroy boot cr3 m') in *.
  assert (forall t, frames (pm m) !! t <> Some Free -> frames (pm m3) !! t = frames (pm m') !! t) as Hk.
  { intros t Hu. rewrite Hfr, decide_False; [done|]. intros [x Hx]%elem_of_dom. by apply new_was_free in Hx. }
  assert (forall a, rd a m3 = rd a m') as Hrd by (intros a; unfold rd; by rewrite Hmem). split.
  - apply (inv_step S U E m' Hl E m3); [done|..].
    + intros c G2 H2 t x Ht. split; [|by intros i _]. apply Hk.
      destruct (sw_used _ _ _ (vi_space _ _ _ _ Hinv _ _ H2) t x Ht) as (Hu & _). congruence.
    + intros f Hf. destruct (vi_refs _ _ _ _ Hl f Hf) as (H0 & Hnt & Hu). destruct (vi_refs _ _ _ _ Hinv f Hf) as (_ & _ & Hu0).
      rewrite Hk by congruence. done.
  - intros f a Hf Ha. rewrite <- (Hby f a Hf Ha). unfold rd8. by rewrite Hrd.
Qed.
End Lifecycle.

(** Removing a space without user pages. *)
Lemma remove_space S U E m cr3 G boot : vm_inv S U E m -> S !! cr3 = Some G -> cr3 <> boot -> (forall n, U !! (cr3, n) = None) ->
  vm_inv (delete cr3 S) U E (arch_vm_space_destroy boot cr3 m) /\ same_bytes U E m (arch_vm_space_destroy boot cr3 m).
Proof.
  intros Hinv HG Hb HU. pose proof (vi_space _ _ _ _ Hinv _ _ HG) as Hwf.
  destruct (space_destroy_ok G cr3 m Hwf boot (vi_mach _ _ _ _ Hinv) Hb) as [Hmem Hm3 Hfr].
  set (m3 := arch_vm_space_destroy boot cr3 m) in *.
  assert (forall a, rd a m3 = rd a m) as Hrd by (intros a; unfold rd; by rewrite Hmem).
  assert (forall c G2 t, c <> cr3 -> S !! c = Some G2 -> is_Some (G2 !! t) -> frames (pm m3) !! t = frames (pm m) !! t) as Hk.
  { intros c G2 t Hne H2 Ht. rewrite Hfr, decide_False; [done|]. intros Hx%elem_of_dom. apply Hne.
    eapply (vi_disj _ _ _ _ Hinv c cr3 G2 G t); eauto. }
  assert (forall c G2, c <> cr3 -> S !! c = Some G2 -> same_tables G2 m m3) as Hs.
  { intros c G2 Hne H2 t x Ht. split; [by eapply Hk; eauto|by intros i _]. }
  split; [constructor|].
  - done.
  - intros c G2 [Hne H2]%lookup_delete_Some. eapply same_tables_wf; [by apply (vi_space _ _ _ _ Hinv)|by eapply Hs].
  - intros c1 c2 G1 G2 t [_ H1]%lookup_delete_Some [_ H2]%lookup_delete_Some. by eapply (vi_disj _ _ _ _ Hinv).
  - intros c n e. rewrite (vi_user _ _ _ _ Hinv). destruct (decide (c = cr3)) as [->|Hne].
    + rewrite lookup_delete_eq. split; [|by intros ([? ?] & _)]. intros H.
      assert (U !! (cr3, n) = Some e) by (by apply (vi_user _ _ _ _ Hinv)). by rewrite HU in *.
    + rewrite lookup_delete_ne by done. split; intros ([G2 H2] & Hn & He & Hu); (split; [eauto|]; split; [done|]; split; [|done]);
        unfold view in *.
      * rewrite (same_tables_pte G2 c m m3); [done|by apply (vi_space _ _ _ _ Hinv)|by eapply Hs].
      * rewrite <- (same_tables_pte G2 c m m3); [done|by apply (vi_space _ _ _ _ Hinv)|by eapply Hs].
  - intros f Hf. destruct (vi_refs _ _ _ _ Hinv f Hf) as (H0 & Hnt & Hu). split; [done|]. split.
    + intros (c & G2 & [_ H2]%lookup_delete_Some & Ht). apply Hnt. by exists c, G2.
    + rewrite Hfr, decide_False; [done|]. intros Hx%elem_of_dom. apply Hnt. by exists cr3, G.
  - intros f a Hf Ha. unfold rd8. by rewrite Hrd.
Qed.

#[local] Arguments vm_cow_user_page : simpl never.
#[local] Arguments vm_read_user : simpl never.
#[local] Arguments vm_write_user : simpl never.

(** ** The invariant of the whole *)

Section State.
Context (nx : bool) (boot lapic kspace : Z) (Hlapic : is_frame lapic).

Notation create := (vm_rpc_create_space nx boot lapic).
Notation destroy := (vm_rpc_destroy_space boot kspace).
Notation exec := (vm_exec nx boot lapic kspace).

Record vm_state_inv (S : spaces) (U : user_pages) (v : vm_state) : Prop := {
  si_inv : vm_inv S U (vs_held v) (vs_mach v);
  si_space a sp : vs_spaces v !! a = Some sp ->
    is_Some (S !! sp_cr3 sp) /\ sp_cr3 sp <> boot /\ sp_id sp <> 0 /\ a <> 0 /\ a <> kspace;
  si_cr3 a b sp sp' : vs_spaces v !! a = Some sp -> vs_spaces v !! b = Some sp' -> sp_cr3 sp = sp_cr3 sp' -> a = b;
  si_all cr3 : is_Some (S !! cr3) -> exists a sp, vs_spaces v !! a = Some sp /\ sp_cr3 sp = cr3;
  si_ids : exists M, models (dom (vs_spaces v)) (vs_ids v) M /\
    forall id a w, M !! id = Some (a, w) <-> exists sp, vs_spaces v !! a = Some sp /\ sp_id sp = id /\ w = a;
  si_held f : f ∈ vs_held v -> multiplicity f (owned U (vs_held v)) = 1%nat;
}.

Lemma state_held S U v S' U' E' m' : vm_state_inv S U v -> vm_inv S' U' E' m' -> dom S' = dom S ->
  (forall f, f ∈ E' -> multiplicity f (owned U' E') = 1%nat) -> vm_state_inv S' U' (with_held E' m' v).
Proof.
  intros [I1 I2 I3 I4 I5 I6] Hinv Hd Hh. constructor; simpl; [done| |done| |done|done].
  - intros a sp Ha. destruct (I2 a sp Ha) as (HS & ?). split; [by eapply dom_some|done].
  - intros cr3 HS. apply I4. by eapply dom_some.
Qed.

(** A held frame stays apart when the pages change only to frames that were
    mapped or are new. *)
Definition frames_from (U U' : user_pages) (E : gmultiset Z) : Prop :=
  forall f, f ∈ mapped U' -> f ∈ mapped U \/ f ∉ owned U E.

Lemma held_apart S U v U' : vm_state_inv S U v -> frames_from U U' (vs_held v) ->
  forall f, f ∈ vs_held v -> multiplicity f (owned U' (vs_held v)) = 1%nat.
Proof.
  intros Hv Hfr f Hf. pose proof (si_held _ _ _ Hv f Hf) as H1. specialize (Hfr f).
  assert (f ∉ mapped U') as Hn.
  { intros Hu. destruct (Hfr Hu) as [Hm|Hm]; [|apply Hm]; unfold owned in *; rewrite ?elem_of_multiplicity in *;
      rewrite multiplicity_disj_union in *; lia. }
  unfold owned in *. rewrite multiplicity_disj_union in *. apply not_elem_of_multiplicity in Hn.
  rewrite elem_of_multiplicity in Hf. lia.
Qed.

Lemma held_unmapped S U v f : vm_state_inv S U v -> f ∈ vs_held v -> f ∉ mapped U.
Proof.
  intros Hv Hf Hm. pose proof (si_held _ _ _ Hv f Hf) as H1. unfold owned in H1. rewrite multiplicity_disj_union in H1.
  rewrite elem_of_multiplicity in Hf, Hm. lia.
Qed.

Lemma state_step S U v S' U' m' : vm_state_inv S U v -> vm_inv S' U' (vs_held v) m' -> dom S' = dom S ->
  frames_from U U' (vs_held v) -> vm_state_inv S' U' (with_mach m' v).
Proof. intros Hv Hinv Hd Hfr. apply (state_held S U v); [done..|]. by eapply held_apart. Qed.

(** The names the code uses and those of the invariant. *)
Lemma space_arg_ok S U v a : vm_state_inv S U v -> space_ok a v ->
  exists s, space_arg a v = Some s /\ forall cr3, s = Some cr3 -> is_Some (S !! cr3).
Proof.
  intros Hinv [->|[sp Ha]]; [by exists None|]. destruct (si_space _ _ _ Hinv a sp Ha) as (HS & _ & _ & H0 & _).
  unfold space_arg. decide_tests. rewrite Ha. simpl. exists (Some (sp_cr3 sp)). split; [done|]. by intros cr3 [= <-].
Qed.

Lemma unmapped_none S U E m cr3 vaddr len s n : vm_inv S U E m -> is_Some (S !! cr3) -> range_unmapped (Some cr3) vaddr len m ->
  vm_pages (range_start vaddr) (range_end vaddr len) = pages_from (4096 * s) n -> 0 <= s -> s + Z.of_nat n <= 2 ^ 36 ->
  forall i, s <= i < s + Z.of_nat n -> U !! (cr3, i) = None.
Proof.
  intros Hinv HS Hr Hp Hs Hn i Hi. unfold range_unmapped in Hr. rewrite Hp, Forall_forall in Hr.
  assert (4096 * i ∈ pages_from (4096 * s) n) as Hin.
  { unfold pages_from. apply list_elem_of_fmap. exists (Z.to_nat (i - s)). split.
    - unfold VM_PAGE_SIZE. rewrite Z2Nat.id, (u64_small ((i - s) * 4096)), u64_small by (unfold in_u64; lia). lia.
    - apply elem_of_seq. lia. }
  specialize (Hr _ Hin). rewrite (source_frame S U E m cr3 i Hinv HS) in Hr by lia.
  destruct (U !! (cr3, i)) as [e|] eqn:Hk; [|done]. simpl in Hr.
  destruct (entry_readable S U E m _ _ Hinv Hk) as [_ Hf]. destruct (vi_refs _ _ _ _ Hinv _ Hf) as (H0 & _). done.
Qed.

Lemma counts_few S U E m vaddr len s n : vm_inv S U E m -> counts_small vaddr len m ->
  vm_pages (range_start vaddr) (range_end vaddr len) = pages_from (4096 * s) n -> few_refs U E n.
Proof.
  intros Hinv Hc Hp f. unfold counts_small in Hc. rewrite Hp in Hc. unfold pages_from in Hc.
  rewrite length_fmap, length_seq in Hc. destruct Hc as [Hn Hc]. destruct (decide (f ∈ owned U E)) as [Hf|Hf].
  - destruct (vi_refs _ _ _ _ Hinv f Hf) as (_ & _ & Hu). apply (Hc f _ Hu).
  - apply not_elem_of_multiplicity in Hf. lia.
Qed.

(** ** What each operation does to the user pages *)

Definition page_count (vaddr len : Z) : nat := Z.to_nat ((vaddr + len + 4095) / 4096 - vaddr / 4096).

(** The cases of a pointer: the null pointer is refused. *)
Definition on_space (a : Z) (v : vm_state) (refused : Prop) (f : Z -> Prop) : Prop :=
  match space_arg a v with Some (Some cr3) => f cr3 | _ => refused end.

Definition copied (m m' : mach) (f g : Z) : Prop := forall o, 0 <= o < 4096 -> rd8 (f + o) m' = rd8 (g + o) m.

Definition page_effect (v : vm_state) (op : vm_op) (r : Z) (bytes : list Z)
    (U : user_pages) (m : mach) (U' : user_pages) (m' : mach) (E' : gmultiset Z) : Prop :=
  let E := vs_held v in
  let refused := r = -1 /\ U' = U in
  match op with
  | VCreate _ _ | VDestroy _ => U' = U
  | VAlloc a vaddr len w x => on_space a v refused (fun cr3 =>
      refused \/ r = 0 /\ len <> 0 /\ exists fs, length fs = page_count vaddr len /\ NoDup fs /\ (forall f, f ∈ fs -> is_frame f /\ f ∉ owned U E) /\
        U' = with_pages cr3 (vaddr / 4096) ((fun f => user_entry nx f w x) <$> fs) U /\
        forall f a, f ∈ fs -> f <= a < f + 4096 -> rd8 a m' = 0)
  | VUnmap a vaddr len => on_space a v refused (fun cr3 =>
      if len =? 0 then refused else r = 0 /\ U' = without cr3 (vaddr / 4096) (page_count vaddr len) U)
  | VProtect a vaddr len w x => on_space a v refused (fun cr3 =>
      if len =? 0 then refused else
      exists j, (j <= page_count vaddr len)%nat /\ U' = protected nx cr3 (vaddr / 4096) j w x U /\
        (forall i, vaddr / 4096 <= i < vaddr / 4096 + Z.of_nat j -> is_Some (U !! (cr3, i))) /\
        (r = 0 /\ j = page_count vaddr len \/
         r = -1 /\ (j < page_count vaddr len)%nat /\ U !! (cr3, vaddr / 4096 + Z.of_nat j) = None))
  | VClone d a vaddr len w x => on_space d v refused (fun dst => on_space a v refused (fun src =>
      refused \/ r = 0 /\ len <> 0 /\ exists fs es, length fs = page_count vaddr len /\ length es = page_count vaddr len /\
        NoDup fs /\ (forall f, f ∈ fs -> is_frame f /\ f ∉ owned U E) /\
        (forall i e, es !! i = Some e -> U !! (src, vaddr / 4096 + Z.of_nat i) = Some e) /\
        U' = with_pages dst (vaddr / 4096) ((fun f => user_entry nx f w x) <$> fs) U /\
        forall i f e, fs !! i = Some f -> es !! i = Some e -> copied m m' f (next_frame e)))
  | VShare d a vaddr len w x => on_space d v refused (fun dst => on_space a v refused (fun src =>
      refused \/ r = 0 /\ len <> 0 /\ exists es, length es = page_count vaddr len /\
        (forall i e, es !! i = Some e -> U !! (src, vaddr / 4096 + Z.of_nat i) = Some e) /\
        U' = with_pages dst (vaddr / 4096) ((fun e => user_entry nx (next_frame e) w x) <$> es) U))
  | VShareCow d a vaddr len x => on_space d v refused (fun dst => on_space a v refused (fun src =>
      r = -1 /\ (exists j, (j <= page_count vaddr len)%nat /\ U' = protected nx src (vaddr / 4096) j false x U) \/
      r = 0 /\ len <> 0 /\ exists es, length es = page_count vaddr len /\
        (forall i e, es !! i = Some e -> U !! (src, vaddr / 4096 + Z.of_nat i) = Some e) /\
        U' = with_pages dst (vaddr / 4096) ((fun e => user_entry nx (next_frame e) false x) <$> es)
               (protected nx src (vaddr / 4096) (page_count vaddr len) false x U)))
  | VCow a vaddr x => on_space a v refused (fun cr3 =>
      refused \/ r = 0 /\ exists e f, U !! (cr3, vaddr / 4096) = Some e /\ is_frame f /\ f ∉ owned U E /\
        U' = <[(cr3, vaddr / 4096) := user_entry nx f true x]> U /\ copied m m' f (next_frame e))
  | VRead a vaddr len => U' = U /\ m' = m /\ on_space a v (r = -1 /\ bytes = []) (fun cr3 =>
      (r, bytes) = if vaddr + len <? 2 ^ 64 then read_bytes cr3 (Z.to_nat len) vaddr m else (-1, []))
  | VWrite a vaddr src => U' = U /\ on_space a v (r = -1 /\ m' = m) (fun cr3 =>
      (r, m') = if vaddr + Z.of_nat (length src) <? 2 ^ 64 then write_bytes cr3 src vaddr m else (-1, m))
  | VAllocPage a vaddr w x => on_space a v (r = 0 /\ U' = U) (fun cr3 =>
      r = 0 /\ U' = U \/ r <> 0 /\ is_frame r /\ r ∉ owned U E /\
        U' = <[(cr3, page_number vaddr) := user_entry nx r w x]> U)
  | VMapPage a vaddr f w x => on_space a v (refused /\ E' = E) (fun cr3 =>
      refused /\ E' = E \/ r = 0 /\ U' = <[(cr3, page_number vaddr) := user_entry nx f w x]> U /\ E' = E ∖ {[+ f +]})
  | VFrame => U' = U /\ (r = 0 /\ E' = E \/ r <> 0 /\ is_frame r /\ r ∉ owned U E /\ E' = E ⊎ {[+ r +]})
  | VFree f => U' = U /\ E' = E ∖ {[+ f +]}
  | VFill f off src => U' = U /\ forall a, rd8 a m' =
      match src !! Z.to_nat (a - (f + off)) with
      | Some b => if f + off <=? a then Z.land b 255 else rd8 a m
      | None => rd8 a m
      end
  end.

(** The other operations leave the held frames alone. *)
Definition vm_effect (v : vm_state) (op : vm_op) (r : Z) (bytes : list Z)
    (U : user_pages) (m : mach) (U' : user_pages) (m' : mach) (E' : gmultiset Z) : Prop :=
  page_effect v op r bytes U m U' m' E' /\
  match op with VMapPage _ _ _ _ _ | VFrame | VFree _ => True | _ => E' = vs_held v end.

(** Only writing changes the bytes of frames that stay mapped or held, and
    filling those of the one frame. *)
Definition keeps_bytes (op : vm_op) (U : user_pages) (E : gmultiset Z) (U' : user_pages) (E' : gmultiset Z) (m m' : mach) : Prop :=
  match op with
  | VWrite _ _ _ => True
  | VFill g _ _ => forall f a, f ∈ owned U E -> f <> g -> f <= a < f + 4096 -> rd8 a m' = rd8 a m
  | _ => forall f a, f ∈ owned U E -> f ∈ owned U' E' -> f <= a < f + 4096 -> rd8 a m' = rd8 a m
  end.

Lemma keeps_old op U E U' E' m m' : same_bytes U E m m' -> keeps_bytes op U E U' E' m m'.
Proof. intros H. destruct op; simpl; try done; intros f a Hf _; by apply H. Qed.

Lemma keeps_new op U E U' E' m m' : (forall g off src, op <> VFill g off src) -> same_bytes U' E' m m' -> keeps_bytes op U E U' E' m m'.
Proof. intros Hop H. destruct op; simpl; try done; try (intros f a _ Hf; by apply H). by destruct (Hop frame off src). Qed.

Lemma range_pages_ok vaddr len : range_in vaddr len -> if len =? 0 then range_refused vaddr len = true else
  range_refused vaddr len = false /\ range_start vaddr = 4096 * (vaddr / 4096) /\
  vm_pages (range_start vaddr) (range_end vaddr len) = pages_from (4096 * (vaddr / 4096)) (page_count vaddr len) /\
  0 <= vaddr / 4096 /\ vaddr / 4096 + Z.of_nat (page_count vaddr len) <= 2 ^ 36.
Proof.
  intros (Hva & Hlen & Hb). unfold in_u64 in *. destruct (Z.eqb_spec len 0) as [->|Hne]; [done|].
  destruct (range_ok vaddr len Hva Hlen Hb) as [Hr|(s & n & Hr & Hst & _ & Hp & H0 & H1 & Hs & Hn)].
  - exfalso. unfold range_refused, range_end, range_start in Hr. rewrite u64_small in Hr by (unfold in_u64; lia).
    destruct (Z.eqb_spec len 0); [lia|]. destruct (Z.ltb_spec (vaddr + len) vaddr); [lia|]. simpl in Hr. apply Z.leb_le in Hr.
    change VM_PAGE_SIZE with (2 ^ 12) in Hr. rewrite align_down_pow2, align_up_pow2 in Hr by (unfold in_u64; lia).
    change (2 ^ 12) with 4096 in Hr. pose proof (Z.div_mod vaddr 4096). pose proof (Z.mod_pos_bound vaddr 4096).
    assert (vaddr / 4096 + 1 <= (vaddr + len + 4096 - 1) / 4096); [|lia]. apply Z.div_le_lower_bound; lia.
  - assert (n = page_count vaddr len) as <- by (unfold page_count; lia). rewrite <- Hs. done.
Qed.

Lemma without_0 cr3 s U : without cr3 s 0 U = U.
Proof.
  apply map_eq. intros k. rewrite without_lookup. destruct (decide _) as [Hr|]; [|done]. unfold in_range in Hr. lia.
Qed.

Lemma not_owned U E f : f ∉ owned U E -> f ∉ mapped U.
Proof. unfold owned. multiset_solver. Qed.

Lemma minus_elem (E : gmultiset Z) f g : g ∈ E ∖ {[+ f +]} -> g ∈ E.
Proof. multiset_solver. Qed.

Lemma frames_sub U U' E : (forall k e', U' !! k = Some e' -> exists k0 e, U !! k0 = Some e /\ next_frame e = next_frame e') ->
  frames_from U U' E.
Proof.
  intros H f (k & e & Hk & <-)%mapped_elem. left. apply mapped_elem. destruct (H k e Hk) as (k0 & e0 & ? & ?). eauto.
Qed.

Lemma frames_pages cr3 s es U0 U E : (forall k e', U0 !! k = Some e' -> exists k0 e, U !! k0 = Some e /\ next_frame e = next_frame e') ->
  (forall e, e ∈ es -> next_frame e ∈ mapped U \/ next_frame e ∉ owned U E) -> frames_from U (with_pages cr3 s es U0) E.
Proof.
  intros H0 He f (k & e & Hk & <-)%mapped_elem. rewrite with_pages_lookup in Hk. destruct (decide _).
  - apply He. apply list_elem_of_lookup. eauto.
  - apply (frames_sub U U0 E H0). apply mapped_elem. eauto.
Qed.

Lemma protected_frames cr3 s n w x U k e' : protected nx cr3 s n w x U !! k = Some e' ->
  exists e, U !! k = Some e /\ next_frame e = next_frame e' /\ (w = false -> writable_bit e' = true -> writable_bit e = true).
Proof.
  rewrite protected_lookup. destruct (decide _); [|by exists e']. destruct (U !! k) as [e|]; simpl; [|done].
  intros [= <-]. exists e. destruct (set_protection_bits nx w x e) as (_ & _ & Bw & _ & Bf). split; [done|]. split; [congruence|].
  intros -> ?. congruence.
Qed.

Lemma effect_frames v op r bytes U m U' m' : vm_effect v op r bytes U m U' m' (vs_held v) ->
  (forall a vaddr f w x, op <> VMapPage a vaddr f w x) -> frames_from U U' (vs_held v).
Proof.
  intros [Heff _] Hop. assert (forall U0 : user_pages, U0 = U -> frames_from U U0 (vs_held v)) as Hsame by (intros U0 ->; by left).
  assert (forall c s n w x, frames_from U (protected nx c s n w x U) (vs_held v)) as Hprot.
  { intros. apply frames_sub. intros k e' (e & ? & ? & _)%protected_frames. eauto. }
  assert (forall k e', U !! k = Some e' -> exists k0 e, U !! k0 = Some e /\ next_frame e = next_frame e') as Hid by eauto.
  assert (forall k f w x, is_frame f -> f ∉ owned U (vs_held v) -> frames_from U (<[k := user_entry nx f w x]> U) (vs_held v)) as Hone.
  { intros k f w x Hf Hn g (k' & e & Hk & <-)%mapped_elem. apply lookup_insert_Some in Hk as [[_ <-]|[_ Hk]].
    - right. by destruct (user_entry_bits nx f w x Hf) as (_ & _ & -> & _).
    - left. apply mapped_elem. eauto. }
  assert (forall c s fs w x, (forall f, f ∈ fs -> is_frame f) -> (forall f, f ∈ fs -> f ∉ owned U (vs_held v)) ->
    frames_from U (with_pages c s ((fun f => user_entry nx f w x) <$> fs) U) (vs_held v)) as Hnew.
  { intros c s fs w x Hff Hn. apply frames_pages; [done|]. intros e (f & -> & Hf)%list_elem_of_fmap. right.
    destruct (user_entry_bits nx f w x (Hff f Hf)) as (_ & _ & -> & _). by apply Hn. }
  assert (forall c s es w x U0, (forall k e', U0 !! k = Some e' -> exists k0 e, U !! k0 = Some e /\ next_frame e = next_frame e') ->
    (forall (i : nat) e, es !! i = Some e -> exists k, U !! k = Some e) ->
    frames_from U (with_pages c s ((fun e => user_entry nx (next_frame e) w x) <$> es) U0) (vs_held v)) as Hshare.
  { intros c s es w x U0 H0 He. apply frames_pages; [done|]. intros e (e0 & -> & (i & Hi)%list_elem_of_lookup)%list_elem_of_fmap. left.
    destruct (user_entry_bits nx (next_frame e0) w x (next_frame_ok e0)) as (_ & _ & -> & _). apply mapped_elem.
    destruct (He i e0 Hi) as [k Hk]. eauto. }
  destruct op; simpl in Heff; unfold on_space in Heff; try (by destruct (Hop space vaddr frame writable executable));
    try (by apply Hsame, Heff); repeat case_match; try (by apply Hsame, Heff).
  - destruct Heff as [[_ ->]|(_ & _ & fs & _ & _ & Hf & -> & _)]; [by left|]. apply Hnew; intros f Hin; by apply Hf.
  - destruct Heff as [_ ->]. apply frames_sub. intros k e'. rewrite without_lookup. case_decide; [done|eauto].
  - destruct Heff as (j & _ & -> & _). apply Hprot.
  - destruct Heff as [[_ ->]|(_ & _ & fs & es & _ & _ & _ & Hf & _ & -> & _)]; [by left|]. apply Hnew; intros f Hin; by apply Hf.
  - destruct Heff as [[_ ->]|(_ & _ & es & _ & He & ->)]; [by left|]. apply Hshare; [done|]. eauto.
  - destruct Heff as [(_ & j & _ & ->)|(_ & _ & es & _ & He & ->)]; [apply Hprot|]. apply Hshare; [|eauto].
    intros k e' (e & ? & ? & _)%protected_frames. eauto.
  - destruct Heff as [[_ ->]|(_ & e & f & _ & Hf & Hn & -> & _)]; [by left|]. by apply Hone.
  - destruct Heff as [[_ ->]|(_ & Hf & Hn & ->)]; [by left|]. by apply Hone.
Qed.

(** *** One operation at a time *)

Definition outcome (S : spaces) (U : user_pages) (v : vm_state) (op : vm_op) : Prop :=
  exists r bytes v' S' U', exec op v = Some (r, bytes, v') /\ vm_state_inv S' U' v' /\
    vm_effect v op r bytes U (vs_mach v) U' (vs_mach v') (vs_held v') /\
    keeps_bytes op U (vs_held v) U' (vs_held v') (vs_mach v) (vs_mach v').

Section Ops.
Context (S : spaces) (U : user_pages) (v : vm_state) (Hv : vm_state_inv S U v).
Let m := vs_mach v.
Let E := vs_held v.

(** Null pointers and empty ranges change nothing. *)
Lemma unchanged : vm_state_inv S U (with_mach m v).
Proof. eapply state_step; [exact Hv|apply Hv|done|by left]. Qed.

Lemma outcome_none op : exec op v = Some (-1, [], with_mach m v) -> page_effect v op (-1) [] U m U m E -> outcome S U v op.
Proof.
  intros He Hf. exists (-1), [], (with_mach m v), S, U. split; [done|]. split; [apply unchanged|]. split; [split; [done|by destruct op]|].
  by apply keeps_old.
Qed.

Lemma outcome_with op r m' S' U' : exec op v = Some (r, [], with_mach m' v) -> vm_inv S' U' E m' -> dom S' = dom S ->
  (forall a vaddr f w x, op <> VMapPage a vaddr f w x) -> page_effect v op r [] U m U' m' E ->
  same_bytes U E m m' \/ (forall g off src, op <> VFill g off src) /\ same_bytes U' E m m' -> outcome S U v op.
Proof.
  intros He Hi Hd Hop Hp Hb. assert (vm_effect v op r [] U m U' m' E) as Hf by (split; [done|by destruct op]). exists r, [], (with_mach m' v), S', U'. split; [done|].
  split; [eapply state_step; [done..|by eapply effect_frames]|]. split; [done|].
  destruct Hb as [?|[? ?]]; [by apply keeps_old|by apply keeps_new].
Qed.

Lemma outcome_alloc a vaddr len w x : vm_pre boot kspace (VAlloc a vaddr len w x) v -> outcome S U v (VAlloc a vaddr len w x).
Proof.
  intros (Ha & Hr & Hun). destruct (space_arg_ok S U v a Hv Ha) as (s & Hs & HS). specialize (Hun s Hs).
  destruct s as [cr3|]; [|apply outcome_none; simpl; unfold on_space; rewrite Hs; done].
  specialize (HS cr3 eq_refl). pose proof (range_pages_ok vaddr len Hr) as Hp. destruct (Z.eqb_spec len 0) as [->|Hl].
  { apply outcome_none; simpl; unfold on_space; rewrite Hs; simpl; [done|by left]. }
  destruct Hp as (Hrr & Hst & Hpg & H0 & H1).
  pose proof (unmapped_none S U E m cr3 vaddr len _ _ (si_inv _ _ _ Hv) HS Hun Hpg H0 H1) as Hnone.
  destruct (alloc_pages_ok nx E cr3 (vaddr / 4096) w x (page_count vaddr len) 0 S U m (si_inv _ _ _ Hv) HS H0)
    as (rc & m' & S' & Hex & Hd & Hres); [lia|intros i Hi; apply Hnone; lia|].
  rewrite Z.add_0_r in Hex, Hres. rewrite without_0 in Hres.
  assert (exec (VAlloc a vaddr len w x) v = Some (rc, [], with_mach m' v)) as Hrun.
  { simpl. rewrite Hs. simpl. rewrite Hrr, Hpg, Hst. fold m. by rewrite Hex. }
  destruct Hres as [(-> & Hi & Hb)|(-> & fs & Hlen & Hnd & Hfresh & Hi & Hb & Hz)].
  - eapply outcome_with; [done..| |by left]. simpl. unfold on_space. rewrite Hs. by left.
  - eapply outcome_with; [done..| |by left]. simpl. unfold on_space. rewrite Hs.
    right. split; [done|]. split; [done|]. exists fs. do 2 (split; [done|]). done.
Qed.

Lemma outcome_unmap a vaddr len : vm_pre boot kspace (VUnmap a vaddr len) v -> outcome S U v (VUnmap a vaddr len).
Proof.
  intros (Ha & Hr). destruct (space_arg_ok S U v a Hv Ha) as (s & Hs & HS).
  destruct s as [cr3|]; [|apply outcome_none; simpl; unfold on_space; rewrite Hs; done].
  specialize (HS cr3 eq_refl). pose proof (range_pages_ok vaddr len Hr) as Hp. destruct (Z.eqb_spec len 0) as [->|Hl].
  { apply outcome_none; simpl; unfold on_space; rewrite Hs; simpl; [unfold vm_unmap_user_range; by rewrite Hp|done]. }
  destruct Hp as (Hrr & Hst & Hpg & H0 & H1).
  destruct (unmap_pages_ok S E cr3 (page_count vaddr len) HS (vaddr / 4096) U m (si_inv _ _ _ Hv) H0 H1) as [Hi Hb].
  eapply outcome_with; [|exact Hi|done|done| |by right].
  - simpl. rewrite Hs. simpl. unfold vm_unmap_user_range. rewrite Hrr, Hpg. done.
  - simpl. unfold on_space. rewrite Hs. decide_tests. done.
Qed.

Lemma outcome_protect a vaddr len w x : vm_pre boot kspace (VProtect a vaddr len w x) v -> outcome S U v (VProtect a vaddr len w x).
Proof.
  intros (Ha & Hr). destruct (space_arg_ok S U v a Hv Ha) as (s & Hs & HS).
  destruct s as [cr3|]; [|apply outcome_none; simpl; unfold on_space; rewrite Hs; done].
  specialize (HS cr3 eq_refl). pose proof (range_pages_ok vaddr len Hr) as Hp. destruct (Z.eqb_spec len 0) as [->|Hl].
  { apply outcome_none; simpl; unfold on_space; rewrite Hs; simpl; done. }
  destruct Hp as (Hrr & Hst & Hpg & H0 & H1).
  destruct (protect_pages_ok nx E cr3 w x (page_count vaddr len) (vaddr / 4096) S U m (si_inv _ _ _ Hv) HS H0 H1)
    as (rc & m' & j & Hex & Hj & Hi & Hb & Hall & Hrc).
  eapply outcome_with; [|exact Hi|done|done| |by left].
  - simpl. rewrite Hs. simpl. rewrite Hrr, Hpg. fold m. by rewrite Hex.
  - simpl. unfold on_space. rewrite Hs. decide_tests. by exists j.
Qed.

Lemma outcome_cow a vaddr x : vm_pre boot kspace (VCow a vaddr x) v -> outcome S U v (VCow a vaddr x).
Proof.
  intros (Ha & Hr). destruct (space_arg_ok S U v a Hv Ha) as (s & Hs & HS).
  destruct s as [cr3|]; [|apply outcome_none; simpl; unfold on_space; rewrite Hs; done].
  specialize (HS cr3 eq_refl).
  destruct (cow_user_page_ok nx S U E m cr3 vaddr x (si_inv _ _ _ Hv) HS Hr) as (rc & m' & S' & Hex & Hd & Hb & Hres).
  assert (exec (VCow a vaddr x) v = Some (rc, [], with_mach m' v)) as Hrun by (simpl; rewrite Hs; simpl; fold m; by rewrite Hex).
  destruct Hres as [(-> & Hi)|(-> & e & f & Hk & Hff & Hfresh & Hi & Hcp)].
  - eapply outcome_with; [done..| |by left]. simpl. unfold on_space. rewrite Hs. by left.
  - eapply outcome_with; [done..| |by left]. simpl. unfold on_space. rewrite Hs. right. split; [done|].
    by exists e, f.
Qed.

Lemma outcome_read a vaddr len : vm_pre boot kspace (VRead a vaddr len) v -> outcome S U v (VRead a vaddr len).
Proof.
  intros (Ha & Hva & Hlen). destruct (space_arg_ok S U v a Hv Ha) as (s & Hs & HS).
  assert (exists rc bytes, vm_read_user s vaddr len m = Some (rc, bytes) /\
    match s with Some cr3 => (rc, bytes) = if vaddr + len <? 2 ^ 64 then read_bytes cr3 (Z.to_nat len) vaddr m else (-1, [])
    | None => rc = -1 /\ bytes = [] end) as (rc & bytes & Hex & Hsp).
  { destruct s as [cr3|]; [|by exists (-1), []].
    rewrite (read_user_ok S U E cr3 (HS cr3 eq_refl) m vaddr len (si_inv _ _ _ Hv) Hva Hlen).
    destruct (if vaddr + len <? 2 ^ 64 then _ else _) as [rc bytes] eqn:Hi. exists rc, bytes. split; [done|]. by rewrite <- Hi. }
  exists rc, bytes, v, S, U. split; [simpl; rewrite Hs; simpl; fold m; by rewrite Hex|]. split; [done|]. split; [|by apply keeps_old].
  split; [|done]. simpl. split; [done|]. split; [done|]. unfold on_space. rewrite Hs. by destruct s.
Qed.

Lemma outcome_write a vaddr src : vm_pre boot kspace (VWrite a vaddr src) v -> outcome S U v (VWrite a vaddr src).
Proof.
  intros (Ha & Hva & Hlen). destruct (space_arg_ok S U v a Hv Ha) as (s & Hs & HS).
  destruct s as [cr3|].
  2: { eapply (outcome_with _ (-1) m S U); [simpl; rewrite Hs; done|apply Hv|done|done| |by left].
       simpl. unfold on_space. by rewrite Hs. }
  specialize (HS cr3 eq_refl). pose proof (write_user_ok S U E cr3 m vaddr src HS (si_inv _ _ _ Hv) Hva Hlen) as Hex.
  pose proof (write_bytes_ok S U E cr3 src HS m vaddr (si_inv _ _ _ Hv)) as Hw.
  destruct (write_bytes cr3 src vaddr m) as [rc m'] eqn:Hwb. destruct Hw as (Hi & _).
  exists (if vaddr + Z.of_nat (length src) <? 2 ^ 64 then rc else -1), [],
    (with_mach (if vaddr + Z.of_nat (length src) <? 2 ^ 64 then m' else m) v), S, U.
  split; [simpl; rewrite Hs; simpl; fold m; rewrite Hex; by destruct (_ <? _)|].
  split; [eapply state_step; [exact Hv| |done|by left]; destruct (_ <? _); [done|apply Hv]|]. split; [|done].
  split; [|done]. simpl. split; [done|]. unfold on_space. rewrite Hs. fold m. rewrite Hwb. by destruct (_ <? _).
Qed.

(** Two spaces and a range for a copy or a share. *)
Lemma two_spaces d a vaddr len op : space_ok d v -> space_ok a v -> range_in vaddr len ->
  (forall s, space_arg d v = Some s -> range_unmapped s vaddr len m) ->
  (forall sd sa, space_arg d v = Some sd -> space_arg a v = Some sa -> (sd = None \/ sa = None \/ len = 0) ->
     exec op v = Some (-1, [], with_mach m v) /\ page_effect v op (-1) [] U m U m E) ->
  outcome S U v op \/
  exists dst src, space_arg d v = Some (Some dst) /\ space_arg a v = Some (Some src) /\ is_Some (S !! dst) /\ is_Some (S !! src) /\
    len <> 0 /\ range_refused vaddr len = false /\ range_start vaddr = 4096 * (vaddr / 4096) /\
    vm_pages (range_start vaddr) (range_end vaddr len) = pages_from (4096 * (vaddr / 4096)) (page_count vaddr len) /\
    0 <= vaddr / 4096 /\ vaddr / 4096 + Z.of_nat (page_count vaddr len) <= 2 ^ 36 /\
    forall i, vaddr / 4096 <= i < vaddr / 4096 + Z.of_nat (page_count vaddr len) -> U !! (dst, i) = None.
Proof.
  intros Hd Ha Hr Hun Hnone. destruct (space_arg_ok S U v d Hv Hd) as (sd & Hsd & HSd).
  destruct (space_arg_ok S U v a Hv Ha) as (sa & Hsa & HSa). specialize (Hnone sd sa Hsd Hsa). specialize (Hun sd Hsd).
  destruct sd as [dst|]; [|left; destruct Hnone; [by left|]; by apply outcome_none].
  destruct sa as [src|]; [|left; destruct Hnone; [by right; left|]; by apply outcome_none].
  pose proof (range_pages_ok vaddr len Hr) as Hp. destruct (Z.eqb_spec len 0) as [Hl|Hl].
  { left. destruct Hnone; [by right; right|]. by apply outcome_none. }
  destruct Hp as (Hrr & Hst & Hpg & H0 & H1). right. exists dst, src. specialize (HSd dst eq_refl). specialize (HSa src eq_refl).
  do 10 (split; [done|]). exact (unmapped_none S U E m dst vaddr len _ _ (si_inv _ _ _ Hv) HSd Hun Hpg H0 H1).
Qed.

Lemma outcome_clone d a vaddr len w x : vm_pre boot kspace (VClone d a vaddr len w x) v -> outcome S U v (VClone d a vaddr len w x).
Proof.
  intros (Hd & Ha & Hne & Hr & Hun).
  destruct (two_spaces d a vaddr len (VClone d a vaddr len w x) Hd Ha Hr Hun) as
    [?|(dst & src & Hsd & Hsa & HD & HS & Hl & Hrr & Hst & Hpg & H0 & H1 & Hnone)]; [|done|].
  { intros sd sa Hsd Hsa Hc. simpl. unfold on_space. rewrite Hsd, Hsa.
    destruct sd as [dst|], sa as [src|]; destruct Hc as [?|[?| ->]]; try done; simpl; (split; [done|]); by left. }
  assert (dst <> src) as Hds.
  { intros ->. apply Hne. unfold space_arg in Hsd, Hsa. destruct (d =? 0); [done|]. destruct (a =? 0); [done|].
    destruct (vs_spaces v !! d) as [sp|] eqn:Ed; [|done]. destruct (vs_spaces v !! a) as [sp'|] eqn:Ea; [|done].
    simpl in Hsd, Hsa. apply (si_cr3 _ _ _ Hv d a sp sp' Ed Ea). congruence. }
  destruct (clone_pages_ok nx E dst src (vaddr / 4096) w x (page_count vaddr len) 0 S U m (si_inv _ _ _ Hv) HD HS Hds H0)
    as (rc & m' & S' & Hex & Hd' & Hres); [lia|intros i Hi; apply Hnone; lia|].
  rewrite Z.add_0_r in Hex, Hres. rewrite without_0 in Hres.
  assert (exec (VClone d a vaddr len w x) v = Some (rc, [], with_mach m' v)) as Hrun.
  { simpl. rewrite Hsd, Hsa. simpl. rewrite Hrr, Hpg, Hst. fold m. by rewrite Hex. }
  destruct Hres as [(-> & Hi & Hb)|(-> & fs & es & L1 & L2 & Hnd & Hfresh & Hes & Hi & Hb & Hcp)].
  - eapply outcome_with; [done..| |by left]. simpl. unfold on_space. rewrite Hsd, Hsa. by left.
  - eapply outcome_with; [done..| |by left]. simpl. unfold on_space. rewrite Hsd, Hsa. right. do 2 (split; [done|]).
    exists fs, es. do 6 (split; [done|]).
    intros i f e Hf He o Ho. by apply (Hcp i f e o).
Qed.

Lemma outcome_share d a vaddr len w x : vm_pre boot kspace (VShare d a vaddr len w x) v -> outcome S U v (VShare d a vaddr len w x).
Proof.
  intros (Hd & Ha & Hr & Hcnt & Hun).
  destruct (two_spaces d a vaddr len (VShare d a vaddr len w x) Hd Ha Hr Hun) as
    [?|(dst & src & Hsd & Hsa & HD & HS & Hl & Hrr & Hst & Hpg & H0 & H1 & Hnone)]; [|done|].
  { intros sd sa Hsd Hsa Hc. simpl. unfold on_space. rewrite Hsd, Hsa.
    destruct sd as [dst|], sa as [src|]; destruct Hc as [?|[?| ->]]; try done; simpl; (split; [done|]); by left. }
  pose proof (counts_few S U E m vaddr len _ _ (si_inv _ _ _ Hv) Hcnt Hpg) as Hrefs.
  destruct (share_pages_ok nx E dst src (vaddr / 4096) w x (page_count vaddr len) 0 S U m (si_inv _ _ _ Hv) HD HS H0)
    as (rc & m' & S' & Hex & Hd' & Hres); [lia|done|intros i Hi; apply Hnone; lia|].
  rewrite Z.add_0_r in Hex, Hres. rewrite without_0 in Hres.
  assert (exec (VShare d a vaddr len w x) v = Some (rc, [], with_mach m' v)) as Hrun.
  { simpl. rewrite Hsd, Hsa. simpl. rewrite Hrr, Hpg, Hst. fold m. by rewrite Hex. }
  destruct Hres as [(-> & Hi & Hb)|(-> & es & L2 & Hes & Hi & Hb)].
  - eapply outcome_with; [done..| |by left]. simpl. unfold on_space. rewrite Hsd, Hsa. by left.
  - eapply outcome_with; [done..| |by left]. simpl. unfold on_space. rewrite Hsd, Hsa. right. do 2 (split; [done|]).
    by exists es.
Qed.

Lemma outcome_share_cow d a vaddr len x : vm_pre boot kspace (VShareCow d a vaddr len x) v -> outcome S U v (VShareCow d a vaddr len x).
Proof.
  intros (Hd & Ha & Hr & Hcnt & Hun).
  destruct (two_spaces d a vaddr len (VShareCow d a vaddr len x) Hd Ha Hr Hun) as
    [?|(dst & src & Hsd & Hsa & HD & HS & Hl & Hrr & Hst & Hpg & H0 & H1 & Hnone)]; [|done|].
  { intros sd sa Hsd Hsa Hc. simpl. unfold on_space. rewrite Hsd, Hsa.
    destruct sd as [dst|], sa as [src|]; destruct Hc as [?|[?| ->]]; try done; simpl; (split; [done|]); left; (split; [done|]);
      exists 0%nat; (split; [lia|]); by rewrite protected_0. }
  pose proof (counts_few S U E m vaddr len _ _ (si_inv _ _ _ Hv) Hcnt Hpg) as Hrefs.
  destruct (share_cow_pages_ok nx E dst src (vaddr / 4096) x (page_count vaddr len) 0 S U m (si_inv _ _ _ Hv) HD HS H0)
    as (rc & m' & S' & Hex & Hd' & Hres); [lia|done|intros i Hi; apply Hnone; lia|].
  rewrite Z.add_0_r in Hex, Hres. rewrite without_0 in Hres.
  assert (exec (VShareCow d a vaddr len x) v = Some (rc, [], with_mach m' v)) as Hrun.
  { simpl. rewrite Hsd, Hsa. simpl. rewrite Hrr, Hpg, Hst. fold m. by rewrite Hex. }
  destruct Hres as [(-> & (j & Hj & Hi) & Hb)|(-> & es & L2 & Hes & Hi & Hb)].
  - rewrite without_0 in Hi. eapply outcome_with; [done..| |by left]. simpl. unfold on_space. rewrite Hsd, Hsa. left.
    split; [done|]. by exists j.
  - eapply outcome_with; [done..| |by left]. simpl. unfold on_space. rewrite Hsd, Hsa. right. do 2 (split; [done|]).
    by exists es.
Qed.

(** *** Creating a space *)

(** The tables of a new space with the interrupt controller's page. *)
Lemma new_space_ok m1 G cr3 : grows ∅ m G m1 -> space_wf G cr3 m1 -> (forall va, identity_pte va (pte_of cr3 va m1)) ->
  exists rc m2 G2, (if negb (lapic =? 0) then arch_vm_map_page nx cr3 lapic lapic true false false m1 else (0, m1)) = (rc, m2) /\
    space_wf G2 cr3 m2 /\ grows ∅ m G2 m2 /\ (rc <> 0 \/ rc = 0 /\ forall va, is_user (pte_of cr3 va m2) = false).
Proof.
  intros Hg Hwf Hid. assert (forall va, is_user (pte_of cr3 va m1) = false) as Hno.
  { intros va. specialize (Hid va). unfold identity_pte, is_user in *. destruct (decide _).
    - destruct Hid as (-> & _ & -> & _). done.
    - by rewrite Hid. }
  destruct (negb (lapic =? 0)); [|exists 0, m1, G; do 3 (split; [done|]); by right].
  destruct (map_page_ok nx G cr3 m1 lapic lapic true false false Hwf (gr_wf _ _ _ _ Hg) Hlapic) as (rc & m2 & G2 & Hm & Hwf2 & Hg2 & Hr).
  exists rc, m2, G2. do 2 (split; [done|]). split; [by eapply grows_trans|].
  destruct Hr as [[-> _]|(-> & _ & Hp)]; [by left|right]. split; [done|]. intros va. rewrite Hp.
  destruct (decide _); [|apply Hno]. destruct (page_flags_bits nx true false false) as (_ & _ & FU & _).
  unfold is_user, user_bit in *. rewrite (lor_low_bit lapic _ 2), FU by (done || lia). apply andb_false_r.
Qed.

(** A state that differs in memory and lost tables only. *)
Lemma state_mem m' ids next : vm_inv S U E m' ->
  (exists M, models (dom (vs_spaces v)) ids M /\
    forall id a w, M !! id = Some (a, w) <-> exists sp, vs_spaces v !! a = Some sp /\ sp_id sp = id /\ w = a) ->
  vm_state_inv S U (mk_vm m' (vs_spaces v) ids next E).
Proof. intros Hi Hids. destruct Hv as [_ I2 I3 I4 _ I6]. by constructor. Qed.

Lemma dropped_ids a ids M : vs_spaces v !! a = None -> models (dom (vs_spaces v) ∪ {[a]}) ids M ->
  (forall id b w, M !! id = Some (b, w) <-> exists sp, vs_spaces v !! b = Some sp /\ sp_id sp = id /\ w = b) ->
  models (dom (vs_spaces v)) (drop_node a ids) M.
Proof.
  intros Ha Hm HM. replace (dom (vs_spaces v)) with ((dom (vs_spaces v) ∪ {[a]}) ∖ {[a]}).
  - apply drop_node_models; [done|]. intros k w Hk. apply HM in Hk as (sp & Hsp & _). congruence.
  - apply not_elem_of_dom in Ha. set_solver.
Qed.

Lemma outcome_intro op r v' S' U' : exec op v = Some (r, [], v') -> vm_state_inv S' U' v' ->
  vm_effect v op r [] U m U' (vs_mach v') (vs_held v') -> same_bytes U E m (vs_mach v') -> outcome S U v op.
Proof. intros He Hi Hf Hb. exists r, [], v', S', U'. do 3 (split; [done|]). by apply keeps_old. Qed.

(** The state after a space has been registered. *)
Lemma registered a owner cr3 G2 m2 id ids next M : vs_spaces v !! a = None -> a <> 0 -> a <> kspace -> cr3 <> boot -> id <> 0 ->
  S !! cr3 = None -> vm_inv (<[cr3 := G2]> S) U E m2 ->
  models (dom (vs_spaces v) ∪ {[a]}) ids (<[id := (a, a)]> M) -> M !! id = None ->
  (forall id b w, M !! id = Some (b, w) <-> exists sp, vs_spaces v !! b = Some sp /\ sp_id sp = id /\ w = b) ->
  vm_state_inv (<[cr3 := G2]> S) U (mk_vm m2 (<[a := mk_space id owner cr3]> (vs_spaces v)) ids next E).
Proof.
  intros Hfree H0 Hks Hcb Hid HS Hinv HM Hnone HMs. pose proof Hv as [_ I2 I3 I4 _ I6].
  assert (forall b sp, vs_spaces v !! b = Some sp -> sp_cr3 sp <> cr3) as Hc.
  { intros b sp Hb <-. destruct (I2 b sp Hb) as ([? ?] & _). congruence. }
  constructor; simpl; [done|..].
  - intros b sp [[<- <-]|[Hne Hb]]%lookup_insert_Some; simpl.
    + split; [rewrite lookup_insert_eq; eauto|done].
    + destruct (I2 b sp Hb) as (? & ?). split; [|done]. rewrite lookup_insert_ne; [done|]. apply not_eq_sym. by eapply Hc.
  - intros b c sp sp' [[<- <-]|[Hne Hb]]%lookup_insert_Some [[<- <-]|[Hne' Hc']]%lookup_insert_Some; simpl; [done|..].
    + intros Heq. by destruct (Hc c sp' Hc').
    + intros Heq. by destruct (Hc b sp Hb).
    + by apply (I3 b c).
  - intros c [G HG]. apply lookup_insert_Some in HG as [[<- _]|[Hne HG]].
    + eexists a, _. split; [apply lookup_insert_eq|done].
    + destruct (I4 c) as (b & sp & Hb & Hsp); [eauto|]. exists b, sp. split; [|done]. rewrite lookup_insert_ne; [done|]. intros <-. congruence.
  - exists (<[id := (a, a)]> M). split; [by rewrite dom_insert_L, union_comm_L|]. intros id' b w. split.
    + intros [[<- [= <- <-]]|[Hne Hk]]%lookup_insert_Some; [eexists; split; [apply lookup_insert_eq|done]|].
      apply HMs in Hk as (sp & Hsp & ?). exists sp. split; [|done]. rewrite lookup_insert_ne; [done|]. intros <-. congruence.
    + intros (sp & [[<- <-]|[Hne Hb]]%lookup_insert_Some & Hsp & ->); simpl in Hsp; [subst; apply lookup_insert_eq|].
      assert (M !! id' = Some (b, b)) as Hm by (apply HMs; eauto). rewrite lookup_insert_ne; [done|]. intros ->. congruence.
  - done.
Qed.

Lemma outcome_create slab owner : vm_pre boot kspace (VCreate slab owner) v -> outcome S U v (VCreate slab owner).
Proof.
  intros (Hslab & Hboot). destruct slab as [a|]; [|by eapply (outcome_intro _ 0 v S U)].
  destruct (Hslab a eq_refl) as (H0 & Hks & Hua & Hfree). clear Hslab. destruct (si_ids _ _ _ Hv) as (M & HM & HMs).
  assert (models (dom (vs_spaces v) ∪ {[a]}) (add_node a (vs_ids v)) M) as HM1.
  { apply add_node_models; [done|by apply not_elem_of_dom|done]. }
  pose proof (si_inv _ _ _ Hv) as Hinv.
  destruct (space_init_ok m (vi_mach _ _ _ _ Hinv)) as (r & m1 & G & Hinit & Hg & Hr). destruct r as [cr3|].
  2: { destruct (leak_inv S U E m Hinv G m1 Hg) as [Hi Hb].
       eapply (outcome_intro _ 0 _ S U); [simpl; unfold vm_rpc_create_space; fold m; by rewrite Hinit| |done|done].
       apply state_mem; [done|]. exists M. split; [by apply dropped_ids|done]. }
  destruct Hr as (Hwf & _ & Hid). destruct (new_space_ok m1 G cr3 Hg Hwf Hid) as (rc & m2 & G2 & Hmap & Hwf2 & Hg2 & Hrc).
  destruct Hrc as [Hrc|[-> Hno]].
  { destruct (leak_inv S U E m Hinv G2 m2 Hg2) as [Hi Hb].
    eapply (outcome_intro _ 0 _ S U); [simpl; unfold vm_rpc_create_space; fold m; rewrite Hinit, Hmap; decide_tests; done| |done|done].
    apply state_mem; [done|]. exists M. split; [by apply dropped_ids|done]. }
  assert (cr3 <> boot) as Hcb.
  { intros ->. apply Hboot. eapply new_was_free; [exact Hg2|apply Hwf2]. }
  destruct (if vs_next v =? 0 then (u32 (vs_next v + 1), u32 (u32 (vs_next v + 1) + 1)) else (vs_next v, u32 (vs_next v + 1)))
    as [id next] eqn:Hp.
  assert (id <> 0) as Hid0.
  { destruct (Z.eqb_spec (vs_next v) 0) as [Hn|Hn]; injection Hp as <- _; [rewrite Hn|]; done. }
  destruct (insert_models (dom (vs_spaces v) ∪ {[a]}) (add_node a (vs_ids v)) M a id a HM1) as (ids & Hins & HM2).
  { simpl. intros _. split; [set_solver|]. intros k w Hk. apply HMs in Hk as (sp & Hsp & _). congruence. }
  unfold abs_step in HM2. destruct (refused M a id a) eqn:Href.
  - destruct (make_and_destroy S U E m Hinv G2 m2 Hg2 cr3 boot Hwf2 Hcb) as [Hi Hb].
    eapply (outcome_intro _ 0 _ S U); [|apply state_mem; [exact Hi|]|done|exact Hb].
    + simpl. unfold vm_rpc_create_space. fold m. rewrite Hinit, Hmap, Hp. unfold u64_tree_insert_node. rewrite Hins. done.
    + exists M. split; [by apply dropped_ids|done].
  - destruct (add_space S U E m Hinv G2 m2 Hg2 cr3 Hwf2 Hno) as [HS Hi].
    destruct (leak_inv S U E m Hinv G2 m2 Hg2) as [_ Hb].
    eapply (outcome_intro _ a); [|eapply (registered a owner cr3 G2 m2 id ids next M); try done|done|exact Hb].
    + simpl. unfold vm_rpc_create_space. fold m. rewrite Hinit, Hmap, Hp. unfold u64_tree_insert_node. rewrite Hins. done.
    + unfold refused in Href. destruct (M !! id) eqn:HMi; [|done]. rewrite bool_decide_eq_true_2 in Href by eauto.
      by rewrite orb_true_r in Href.
Qed.

(** *** Destroying a space *)
Lemma outcome_destroy a : vm_pre boot kspace (VDestroy a) v -> outcome S U v (VDestroy a).
Proof.
  intros (Ha & Hun). destruct Ha as [->|[sp Hsp]]; [by eapply (outcome_intro _ 0 v S U)|].
  pose proof Hv as [Hinv I2 I3 I4 (M & HM & HMs) I6]. destruct (I2 a sp Hsp) as ([G HG] & Hcb & Hid & H0 & Hks).
  assert (M !! sp_id sp = Some (a, a)) as HMa by (apply HMs; eauto).
  destruct (models_node _ _ _ _ _ _ HM HMa) as (_ & n & Hn & Hval).
  destruct (remove_models _ _ _ a HM) as (ids & Hrem & HM2); [simpl; eauto|]. unfold abs_step in HM2.
  assert (forall n, U !! (sp_cr3 sp, n) = None) as HU.
  { intros p. destruct (U !! (sp_cr3 sp, p)) as [e|] eqn:Hk; [|done]. exfalso.
    pose proof Hk as (_ & Hp & _)%(vi_user _ _ _ _ Hinv). 
    assert (space_arg a v = Some (Some (sp_cr3 sp))) as Harg by (unfold space_arg; decide_tests; by rewrite Hsp).
    specialize (Hun _ Harg (4096 * p) ltac:(lia)). fold m in Hun, Hinv.
    rewrite (source_frame S U E m (sp_cr3 sp) p Hinv) in Hun by (eauto || done). rewrite Hk in Hun. simpl in Hun.
    destruct (entry_readable S U E m _ _ Hinv Hk) as [_ Hf]. destruct (vi_refs _ _ _ _ Hinv _ Hf) as (Hf0 & _). done. }
  destruct (remove_space S U E m (sp_cr3 sp) G boot Hinv HG Hcb HU) as [Hi Hb].
  assert (destroy a v = Some (mk_vm (arch_vm_space_destroy boot (sp_cr3 sp) m) (delete a (vs_spaces v)) (drop_node a ids) (vs_next v) (vs_held v))) as Hrun.
  { unfold vm_rpc_destroy_space. fold m. decide_tests. simpl. rewrite Hsp. simpl. rewrite Hn. simpl. rewrite Hval. decide_tests.
    simpl. unfold u64_tree_remove_node. rewrite Hrem. done. }
  eapply (outcome_intro _ 0 _ (delete (sp_cr3 sp) S) U); [simpl; by rewrite Hrun| |done|exact Hb].
  constructor; simpl; [done|..].
  - intros b sp' [Hne Hb']%lookup_delete_Some. destruct (I2 b sp' Hb') as (? & ?). split; [|done].
    rewrite lookup_delete_ne; [done|]. intros Heq. apply Hne. by apply (I3 a b sp sp').
  - intros b c sp1 sp2 [_ H1]%lookup_delete_Some [_ H2]%lookup_delete_Some. by apply (I3 b c).
  - intros c [G' [Hne HG']%lookup_delete_Some]. destruct (I4 c) as (b & sp' & Hb' & Hc); [eauto|]. exists b, sp'.
    split; [|done]. rewrite lookup_delete_ne; [done|]. intros ->. congruence.
  - eexists. split.
    + rewrite dom_delete_L. apply drop_node_models; [exact HM2|]. intros k w [_ Hne]%map_lookup_filter_Some. done.
    + intros id b w. rewrite map_lookup_filter_Some, HMs. simpl. split.
      * intros ((sp' & Hb' & ?) & Hne). exists sp'. by rewrite lookup_delete_ne.
      * intros (sp' & [Hne Hb']%lookup_delete_Some & ?). split; [eauto|]. by apply not_eq_sym.
  - done.
Qed.

(** *** Single pages and frames *)

Lemma unmapped_at cr3 vaddr : is_Some (S !! cr3) -> vm_translate_user_read (Some cr3) vaddr m = 0 -> U !! (cr3, page_number vaddr) = None.
Proof.
  intros HS Ht. simpl in Ht. rewrite (translate_inv S U E m (si_inv _ _ _ Hv)) in Ht by done. unfold user_addr in Ht.
  destruct (U !! (cr3, page_number vaddr)) as [e|] eqn:Hk; [|done]. exfalso. simpl in Ht.
  destruct (entry_readable S U E m _ _ (si_inv _ _ _ Hv) Hk) as [Ha Hf]. rewrite Ha in Ht. simpl in Ht.
  destruct (vi_refs _ _ _ _ (si_inv _ _ _ Hv) _ Hf) as (H0 & _). pose proof (page_offset_range vaddr). destruct (next_frame_ok e). lia.
Qed.

Lemma outcome_alloc_page a vaddr w x : vm_pre boot kspace (VAllocPage a vaddr w x) v -> outcome S U v (VAllocPage a vaddr w x).
Proof.
  intros (Ha & Hun). destruct (space_arg_ok S U v a Hv Ha) as (s & Hs & HS). specialize (Hun s Hs).
  destruct (alloc_page_at nx S U E m s vaddr w x (si_inv _ _ _ Hv)) as (f & m' & S' & Hex & Hd & Hb & Hr).
  { intros cr3 ->. split; [by apply HS|]. by apply unmapped_at; [apply HS|]. }
  assert (exec (VAllocPage a vaddr w x) v = Some (f, [], with_mach m' v)) as Hrun by (simpl; rewrite Hs; simpl; fold m; by rewrite Hex).
  destruct Hr as [(-> & Hi)|(H0 & _ & Hff & Hn & cr3 & -> & Hi)].
  - eapply outcome_with; [done..| |by left]. simpl. unfold on_space. rewrite Hs. destruct s; [by left|done].
  - eapply outcome_with; [done..| |by left]. simpl. unfold on_space. rewrite Hs. by right.
Qed.

Lemma outcome_map_page a vaddr f w x : vm_pre boot kspace (VMapPage a vaddr f w x) v -> outcome S U v (VMapPage a vaddr f w x).
Proof.
  intros (Ha & Hf & Hun). destruct (space_arg_ok S U v a Hv Ha) as (s & Hs & HS). specialize (Hun s Hs).
  destruct s as [cr3|].
  2: { apply (outcome_intro _ (-1) (with_held E m v) S U); [simpl; by rewrite Hs|apply unchanged| |done].
       split; [|done]. simpl. unfold on_space. by rewrite Hs. }
  specialize (HS cr3 eq_refl). pose proof (unmapped_at cr3 vaddr HS Hun) as Hnone.
  destruct (map_user_page_ok nx S U E m cr3 vaddr f w x (si_inv _ _ _ Hv) HS Hf Hnone) as (rc & m' & S' & Hex & Hd & Hb & Hr).
  assert (exec (VMapPage a vaddr f w x) v = Some (rc, [], with_held (if rc =? 0 then E ∖ {[+ f +]} else E) m' v)) as Hrun
    by (cbn [vm_exec]; rewrite Hs; cbn [mbind option_bind]; fold m; by rewrite Hex).
  destruct Hr as [(-> & Hi)|(-> & _ & Hi)]; (eapply outcome_intro; [exact Hrun| | |exact Hb]).
  - eapply state_held; [exact Hv|done|done|]. apply (si_held _ _ _ Hv).
  - split; [|done]. simpl. unfold on_space. rewrite Hs. by left.
  - eapply state_held; [exact Hv|done|done|]. simpl. intros g Hg. pose proof (si_held _ _ _ Hv f Hf) as H1.
    pose proof (minus_elem E f g Hg) as HgE. pose proof (si_held _ _ _ Hv g HgE) as H2. fold E in H1, H2.
    assert (is_frame f) as Hff by (apply (owned_frame S U E m (si_inv _ _ _ Hv)), gmultiset_elem_of_disj_union; by right).
    destruct (user_entry_bits nx f w x Hff) as (_ & _ & Bf & _).
    unfold owned in *. rewrite mapped_insert, Bf by done. refs_lia.
  - split; [|done]. simpl. unfold on_space. rewrite Hs. by right.
Qed.

Lemma outcome_frame : vm_pre boot kspace VFrame v -> outcome S U v VFrame.
Proof.
  intros _. pose proof (alloc_frame_ok S U E m (si_inv _ _ _ Hv)) as Ha. destruct (vm_rpc_alloc_frame m) as [f m'] eqn:Hex.
  assert (exec VFrame v = Some (f, [], with_held (if f =? 0 then E else E ⊎ {[+ f +]}) m' v)) as Hrun
    by (cbn [vm_exec]; fold m; by rewrite Hex).
  destruct Ha as [[-> ->]|(H0 & Hf & Hn & _ & Hmem & Hi & _)].
  - eapply outcome_intro; [exact Hrun|apply unchanged| |done]. split; [|done]. simpl. split; [done|by left].
  - revert Hrun. decide_tests. intros Hrun. eapply outcome_intro; [exact Hrun| | |].
    + eapply state_held; [exact Hv|done|done|]. intros g Hg.
      destruct (decide (g = f)) as [->|Hne]; [refs_lia|]. assert (g ∈ E) as HgE by multiset_solver.
      pose proof (si_held _ _ _ Hv g HgE) as H2. fold E in H2. refs_lia.
    + split; [|done]. simpl. split; [done|by right].
    + simpl. intros g a _ _. unfold rd8, rd. by rewrite Hmem.
Qed.

Lemma outcome_free f : vm_pre boot kspace (VFree f) v -> outcome S U v (VFree f).
Proof.
  intros Hf. simpl in Hf. destruct (free_frame_inv S U E m (si_inv _ _ _ Hv) f Hf) as (Hi & _ & Hmem).
  eapply outcome_intro; [done| | |].
  - eapply state_held; [exact Hv|exact Hi|done|]. intros g Hg. pose proof (minus_elem E f g Hg) as HgE.
    pose proof (si_held _ _ _ Hv g HgE) as H2. fold E in H2, Hg |- *. clear - Hg H2 HgE. refs_lia.
  - split; [|done]. done.
  - simpl. intros g a _ _. unfold rd8, rd. fold m. by rewrite Hmem.
Qed.

Lemma outcome_fill f off src : vm_pre boot kspace (VFill f off src) v -> outcome S U v (VFill f off src).
Proof.
  intros (Hf & H0 & H1). assert (f ∈ owned U E) as Hfo by (apply gmultiset_elem_of_disj_union; by right).
  pose proof (owned_frame S U E m (si_inv _ _ _ Hv) f Hfo) as Hff.
  destruct (store_bytes_ok f src (f + off) m Hff) as [Ho Hr]; [lia|lia|].
  destruct (write_owned S U E m (si_inv _ _ _ Hv) f _ Hfo Ho) as [Hi _].
  eexists 0, [], _, S, U. split; [done|]. split; [eapply state_step; [exact Hv|exact Hi|done|by left]|].
  split; [split; [|done]; simpl; split; [done|exact Hr]|]. intros g a Hg Hne Ha. simpl. apply (rd8_frame f m); [done..|].
  apply (other_frame f g); [done|by apply (owned_frame S U E m (si_inv _ _ _ Hv))|done|done].
Qed.

Lemma outcome_any op : vm_pre boot kspace op v -> outcome S U v op.
Proof.
  destruct op; [apply outcome_create|apply outcome_destroy|apply outcome_alloc|apply outcome_unmap|apply outcome_protect|
    apply outcome_clone|apply outcome_share|apply outcome_share_cow|apply outcome_cow|apply outcome_read|apply outcome_write|
    apply outcome_alloc_page|apply outcome_map_page|apply outcome_frame|apply outcome_free|apply outcome_fill].
Qed.
End Ops.

(** ** Runs *)

Inductive vm_run (v : vm_state) : list vm_op -> vm_state -> Prop :=
  | run_nil : vm_run v [] v
  | run_snoc ops v1 op r bytes v2 :
      vm_run v ops v1 -> vm_pre boot kspace op v1 -> exec op v1 = Some (r, bytes, v2) -> vm_run v (ops ++ [op]) v2.

Lemma run_inv v ops v' S U : vm_state_inv S U v -> vm_run v ops v' -> exists S' U', vm_state_inv S' U' v'.
Proof.
  intros Hv Hrun. induction Hrun as [|ops v1 op r bytes v2 _ (S1 & U1 & Hv1) Hpre Hex]; [eauto|].
  destruct (outcome_any S1 U1 v1 Hv1 op Hpre) as (r' & b' & v' & S' & U' & Hex' & Hv' & _). rewrite Hex in Hex'.
  injection Hex' as <- <- <-. eauto.
Qed.

(** [vm_init] *)
Definition vm_start (m : mach) : vm_state := mk_vm m ∅ (u64_tree_init (mk_tree 0 0 ∅)) 1 ∅.

Lemma vm_start_inv m : mach_wf m -> vm_state_inv ∅ ∅ (vm_start m).
Proof.
  intros Hm. constructor; simpl.
  - constructor; [done|..]; try (intros *; rewrite lookup_empty; done).
    + intros cr3 n e. rewrite !lookup_empty. split; [done|]. by intros ([? ?] & _).
    + intros f. unfold owned, mapped, frame_list. rewrite map_to_list_empty. simpl. multiset_solver.
  - intros a sp. by rewrite lookup_empty.
  - intros a b sp sp'. by rewrite lookup_empty.
  - intros cr3 [? ?]. by rewrite lookup_empty in *.
  - exists ∅. split; [|intros id a w; rewrite !lookup_empty; split; [done|by intros (? & ? & _)]].
    pose proof (init_models (mk_tree 0 0 (∅ : gmap Z (node Z)))) as Hi. simpl in Hi. rewrite !dom_empty_L in *.
    apply Hi. set_solver.
  - multiset_solver.
Qed.

Lemma reached m ops v : mach_wf m -> vm_run (vm_start m) ops v -> exists S U, vm_state_inv S U v.
Proof. intros Hm. by apply run_inv with (1 := vm_start_inv m Hm). Qed.

(** ** Copy on write keeps spaces apart *)

(** The writable pages of a range are mapped nowhere else. *)
Definition private (U : user_pages) (cr3 s : Z) (n : nat) : Prop := forall i e k e',
  in_range cr3 s n (cr3, i) -> U !! (cr3, i) = Some e -> writable_bit e = true -> k <> (cr3, i) -> U !! k = Some e' ->
  next_frame e' <> next_frame e.

(** Reading depends on the frames of the pages and their bytes only. *)
Lemma read_alike S U E m S' U' E' m' q q' (P : Z -> Prop) : vm_inv S U E m -> vm_inv S' U' E' m' ->
  is_Some (S !! q) -> is_Some (S' !! q') ->
  (forall i, P i -> next_frame <$> U' !! (q', i) = next_frame <$> U !! (q, i)) ->
  (forall i e a, P i -> U !! (q, i) = Some e -> next_frame e <= a < next_frame e + 4096 -> rd8 a m' = rd8 a m) ->
  forall n va, (forall j, va <= j < va + Z.of_nat n -> P (page_number j)) -> read_bytes q' n va m' = read_bytes q n va m.
Proof.
  intros Hi Hi' HS HS' HU Hb n. induction n as [|n IH]; intros va HP; simpl; [done|].
  rewrite IH by (intros j Hj; apply HP; lia).
  rewrite (translate_inv S' U' E' m' Hi' q'), (translate_inv S U E m Hi q) by done. unfold user_addr.
  assert (P (page_number va)) as Hva by (apply HP; lia). specialize (HU _ Hva).
  destruct (U !! (q, page_number va)) as [e|] eqn:He, (U' !! (q', page_number va)) as [e'|] eqn:He'; simpl in *; try done.
  injection HU as HU. rewrite (proj1 (entry_readable S U E m _ _ Hi He)), (proj1 (entry_readable S' U' E' m' _ _ Hi' He')), HU.
  simpl. destruct (_ =? 0); [done|]. rewrite (Hb (page_number va) e); [done|done|done|]. pose proof (page_offset_range va). lia.
Qed.

Lemma read_same S U E m S' U' E' m' q : vm_inv S U E m -> vm_inv S' U' E' m' -> is_Some (S !! q) -> is_Some (S' !! q) ->
  (forall i, U' !! (q, i) = U !! (q, i)) ->
  (forall i e a, U !! (q, i) = Some e -> next_frame e <= a < next_frame e + 4096 -> rd8 a m' = rd8 a m) ->
  forall n va, read_bytes q n va m' = read_bytes q n va m.
Proof.
  intros Hi Hi' HS HS' HU Hb n va. apply (read_alike S U E m S' U' E' m' q q (fun _ => True)); try done; [|eauto].
  intros i _. by rewrite HU.
Qed.

Lemma owned_entry (U : user_pages) E k e : U !! k = Some e -> next_frame e ∈ owned U E.
Proof. intros Hk. apply gmultiset_elem_of_disj_union. left. apply mapped_elem. eauto. Qed.

(** A page copied for writing: no other page changes. *)
Lemma cow_step S U v a sa vaddr x r bytes v' S' U' q : vm_state_inv S U v -> vm_state_inv S' U' v' -> space_arg a v = Some (Some sa) ->
  page_effect v (VCow a vaddr x) r bytes U (vs_mach v) U' (vs_mach v') (vs_held v') ->
  keeps_bytes (VCow a vaddr x) U (vs_held v) U' (vs_held v') (vs_mach v) (vs_mach v') ->
  is_Some (S !! q) -> is_Some (S' !! q) -> q <> sa ->
  forall k va, read_bytes q k va (vs_mach v') = read_bytes q k va (vs_mach v).
Proof.
  intros Hv Hv' Ha Heff Hk HS HS' Hne. simpl in Heff, Hk. unfold on_space in Heff. rewrite Ha in Heff.
  assert (forall i, U' !! (q, i) = U !! (q, i)) as HU.
  { destruct Heff as [[_ ->]|(_ & e & f & _ & _ & _ & -> & _)]; [done|]. intros i. by rewrite lookup_insert_ne by congruence. }
  eapply (read_same S U _ _ S' U'); [apply Hv|apply Hv'|done|done|done|]. intros i e b He Hb.
  apply (Hk (next_frame e)); [by eapply owned_entry| |done]. rewrite <- HU in He. by eapply owned_entry.
Qed.

(** Writing to pages that are mapped nowhere else. *)
Lemma write_step S U E m m' cr3 s n vaddr src r q : vm_inv S U E m -> vm_inv S U E m' -> private U cr3 s n ->
  (forall i, 0 <= i < Z.of_nat (length src) -> s <= page_number (vaddr + i) < s + Z.of_nat n) ->
  write_bytes cr3 src vaddr m = (r, m') -> is_Some (S !! cr3) -> is_Some (S !! q) -> q <> cr3 ->
  forall k va, read_bytes q k va m' = read_bytes q k va m.
Proof.
  intros Hi Hi' Hp Hr Hw Hc Hq Hne. pose proof (write_bytes_ok S U E cr3 src Hc m vaddr Hi) as Hok. rewrite Hw in Hok.
  destruct Hok as (_ & Hsame & _). eapply (read_same S U _ _ S U); [done..|]. intros i e b He Hb. apply Hsame.
  intros j Hj (e' & He' & Hal & -> & _)%(user_addr_frame S U E m Hi).
  assert (next_frame e <> next_frame e') as Hdiff.
  { apply (Hp (page_number (vaddr + j)) e' (q, i)); [split; [done|by apply Hr]|done| |congruence|done].
    unfold allowed in Hal. simpl in Hal. by apply andb_true_iff in Hal as [_ Hal]. }
  apply (other_frame (next_frame e') (next_frame e) _ (next_frame_ok e') (next_frame_ok e) Hdiff Hb).
  pose proof (page_offset_range (vaddr + j)). lia.
Qed.

Lemma space_arg_eq S U v a sa : vm_state_inv S U v -> vs_spaces v !! a = Some sa -> space_arg a v = Some (Some (sp_cr3 sa)).
Proof.
  intros Hv Ha. destruct (si_space _ _ _ Hv a sa Ha) as (_ & _ & _ & H0 & _). unfold space_arg. decide_tests. by rewrite Ha.
Qed.

(** *** Frames that are mapped twice are mapped read-only *)

Section Safe.
Context (R : Z * Z -> Prop).

Definition cow_safe (U : user_pages) : Prop := forall k e k' e', R k -> U !! k = Some e -> U !! k' = Some e' -> k' <> k ->
  next_frame e' = next_frame e -> writable_bit e = false /\ writable_bit e' = false.

(** Where an entry comes from: a page kept, perhaps with less access; a frame
    mapped nowhere else; or a frame that, when a page of [R] maps it, is
    read-only everywhere. *)
Inductive origin (U U' : user_pages) (k : Z * Z) (e' : Z) : Prop :=
  | from_kept e : U !! k = Some e -> next_frame e = next_frame e' -> (writable_bit e' = true -> writable_bit e = true) -> origin U U' k e'
  | from_new : next_frame e' ∉ mapped U -> (forall k2 e2, U' !! k2 = Some e2 -> next_frame e2 = next_frame e' -> k2 = k) -> origin U U' k e'
  | from_shared : (forall k2 e2 k3 e3, R k2 -> U' !! k2 = Some e2 -> next_frame e2 = next_frame e' ->
      U' !! k3 = Some e3 -> next_frame e3 = next_frame e' -> writable_bit e3 = false) -> origin U U' k e'.

Lemma origin_safe U U' : cow_safe U -> (forall k e', U' !! k = Some e' -> origin U U' k e') -> cow_safe U'.
Proof.
  intros Hs Ho k e' k2 e2 HR Hk Hk2 Hne Hf. destruct (Ho k e' Hk) as [e He Hfe Hw|Hn Hu|Hsh].
  - destruct (Ho k2 e2 Hk2) as [e0 He0 Hf0 Hw0|Hn Hu|Hsh].
    + destruct (Hs k e k2 e0) as [A B]; [done..|congruence|].
      split; apply not_true_iff_false; intros H; [apply Hw in H|apply Hw0 in H]; congruence.
    + destruct Hn. apply mapped_elem. exists k, e. split; [done|congruence].
    + split; [by apply (Hsh k e' k e')|by apply (Hsh k e' k2 e2)].
  - destruct Hne. by apply (Hu k2 e2).
  - split; [by apply (Hsh k e' k e')|by apply (Hsh k e' k2 e2)].
Qed.

Lemma safe_protected U cr3 s j x : cow_safe U -> cow_safe (protected nx cr3 s j false x U).
Proof.
  intros Hs. apply (origin_safe U); [done|]. intros k e' (e & He & Hf & Hw)%protected_frames. by apply (from_kept _ _ _ _ e); [..|apply Hw].
Qed.

Lemma safe_insert U k f w x : cow_safe U -> is_frame f -> f ∉ mapped U -> cow_safe (<[k := user_entry nx f w x]> U).
Proof.
  intros Hs Hf Hn. apply (origin_safe U); [done|]. destruct (user_entry_bits nx f w x Hf) as (_ & _ & Bf & _).
  intros k1 e' [[<- <-]|[Hne He]]%lookup_insert_Some; [|by apply (from_kept _ _ _ _ e')].
  apply from_new; rewrite Bf; [done|]. intros k2 e2 [[<- <-]|[Hne2 He2]]%lookup_insert_Some Hfe; [done|].
  destruct Hn. apply mapped_elem. eauto.
Qed.

Lemma safe_pages U cr3 s fs w x : cow_safe U -> NoDup fs -> (forall f, f ∈ fs -> is_frame f /\ f ∉ mapped U) ->
  cow_safe (with_pages cr3 s ((fun f => user_entry nx f w x) <$> fs) U).
Proof.
  intros Hs Hnd Hf. apply (origin_safe U); [done|].
  assert (forall k e, with_pages cr3 s ((fun f => user_entry nx f w x) <$> fs) U !! k = Some e ->
    (exists i, fs !! i = Some (next_frame e) /\ k = (cr3, s + Z.of_nat i)) \/ U !! k = Some e) as Hcase.
  { intros k e. rewrite with_pages_lookup, length_fmap. destruct (decide _) as [[Hk Hr]|]; [|by right].
    rewrite list_lookup_fmap. destruct (fs !! _) as [f|] eqn:Hi; [|done]. intros [= <-]. left. exists (Z.to_nat (k.2 - s)).
    destruct (user_entry_bits nx f w x) as (_ & _ & -> & _); [by apply Hf, list_elem_of_lookup; eauto|]. split; [done|].
    destruct k as [k1 k2]. simpl in *. f_equal; [done|lia]. }
  intros k e' [(i & Hi & ->)|He]%Hcase; [|by apply (from_kept _ _ _ _ e')].
  assert (next_frame e' ∉ mapped U) as Hn by (apply Hf, list_elem_of_lookup; eauto).
  apply from_new; [done|]. intros k2 e2 [(i2 & Hi2 & ->)|He2]%Hcase Hfe.
  - rewrite Hfe in Hi2. by rewrite (NoDup_lookup fs i i2 _ Hnd Hi Hi2).
  - destruct Hn. apply mapped_elem. eauto.
Qed.

(** Sharing pages copy on write with pages outside [R]. *)
Lemma safe_share_cow U dst src s es x : cow_safe U ->
  (forall i : nat, (i < length es)%nat -> ~ R (dst, s + Z.of_nat i)) ->
  (forall (i : nat) e, es !! i = Some e -> U !! (src, s + Z.of_nat i) = Some e) ->
  cow_safe (with_pages dst s ((fun e => user_entry nx (next_frame e) false x) <$> es) (protected nx src s (length es) false x U)).
Proof.
  intros Hs Hout Hes. set (U1 := protected nx src s (length es) false x U). apply (origin_safe U1); [by apply safe_protected|].
  assert (forall k e, with_pages dst s ((fun e => user_entry nx (next_frame e) false x) <$> es) U1 !! k = Some e ->
    (exists i e0, es !! i = Some e0 /\ next_frame e = next_frame e0 /\ writable_bit e = false /\ k = (dst, s + Z.of_nat i)) \/
    U1 !! k = Some e) as Hcase.
  { intros k e. rewrite with_pages_lookup, length_fmap. destruct (decide _) as [[Hk Hr]|]; [|by right].
    rewrite list_lookup_fmap. destruct (es !! _) as [e0|] eqn:Hi; [|done]. intros [= <-]. left. exists (Z.to_nat (k.2 - s)), e0.
    destruct (user_entry_bits nx (next_frame e0) false x (next_frame_ok e0)) as (_ & Bw & Bf & _). do 3 (split; [done|]).
    destruct k as [k1 k2]. simpl in *. f_equal; [done|lia]. }
  intros k e' Hk. destruct (Hcase k e' Hk) as [(i & e0 & Hi & Hf & Hw & ->)|He]; [|by apply (from_kept _ _ _ _ e')].
  apply from_shared. intros k2 e2 k3 e3 HR Hk2 Hf2 Hk3 Hf3.
  destruct (Hcase k2 e2 Hk2) as [(i2 & e4 & Hi2 & _ & _ & ->)|He2].
  { by destruct (Hout i2); [eapply lookup_lt_Some|]. }
  destruct (Hcase k3 e3 Hk3) as [(i3 & e5 & _ & _ & Hw3 & _)|He3]; [done|].
  pose proof (Hes i e0 Hi) as Hsrc. pose proof (lookup_lt_Some _ _ _ Hi) as Hlt.
  assert (exists e1, U1 !! (src, s + Z.of_nat i) = Some e1 /\ next_frame e1 = next_frame e0 /\ writable_bit e1 = false) as (e1 & He1 & Hf1 & Hw1).
  { unfold U1. rewrite protected_lookup, decide_True by (split; simpl; [done|lia]). rewrite Hsrc. simpl. eexists. split; [done|].
    destruct (set_protection_bits nx false x e0) as (_ & _ & -> & _ & ->). done. }
  destruct (decide (k3 = k2)) as [->|Hne].
  - rewrite He2 in He3. injection He3 as <-. destruct (decide (k2 = (src, s + Z.of_nat i))) as [->|Hne2]; [congruence|].
    eapply (safe_protected U src s (length es) x Hs k2 e2 (src, s + Z.of_nat i) e1); done || congruence.
  - eapply (safe_protected U src s (length es) x Hs k2 e2 k3 e3); done || congruence.
Qed.

Lemma safe_private U cr3 s n : cow_safe U -> (forall i, s <= i < s + Z.of_nat n -> R (cr3, i)) -> private U cr3 s n.
Proof.
  intros Hs HR i e k e' [_ Hr] He Hw Hne He' Hf. destruct (Hs (cr3, i) e k e'); [by apply HR|done..|]. congruence.
Qed.
End Safe.

(** *** Two spaces that share a range *)

(** The space in whose address space the operation works. *)
Definition op_actor (op : vm_op) : option Z :=
  match op with
  | VCreate _ _ | VDestroy _ | VFrame | VFree _ | VFill _ _ _ => None
  | VAlloc a _ _ _ _ | VUnmap a _ _ | VProtect a _ _ _ _ | VClone a _ _ _ _ _ | VShare a _ _ _ _ _ | VShareCow a _ _ _ _
  | VCow a _ _ | VRead a _ _ | VWrite a _ _ | VAllocPage a _ _ _ | VMapPage a _ _ _ _ => Some a
  end.

(** An operation works on the pages of its actor only; the frames of the pages
    of any other space stay. *)
Lemma other_pages S U v op r bytes U' m' E' b q : vm_state_inv S U v -> vm_effect v op r bytes U (vs_mach v) U' m' E' ->
  vs_spaces v !! b = Some q -> op_actor op <> Some b ->
  forall i, next_frame <$> U' !! (sp_cr3 q, i) = next_frame <$> U !! (sp_cr3 q, i).
Proof.
  intros Hv [Heff _] Hb Hne i.
  assert (forall a cr3, space_arg a v = Some (Some cr3) -> Some a <> Some b -> cr3 <> sp_cr3 q) as Hdiff.
  { intros a cr3 Ha Hab ->. apply Hab. f_equal. unfold space_arg in Ha. destruct (a =? 0); [done|].
    destruct (vs_spaces v !! a) as [sa|] eqn:Hsa; [|done]. simpl in Ha. injection Ha as Ha. by apply (si_cr3 _ _ _ Hv a b sa q). }
  assert (forall cr3 s es U0, cr3 <> sp_cr3 q -> with_pages cr3 s es U0 !! (sp_cr3 q, i) = U0 !! (sp_cr3 q, i)) as Hpages.
  { intros cr3 s es U0 Hc. rewrite with_pages_lookup, decide_False; [done|]. intros [Hk _]. simpl in Hk. congruence. }
  assert (forall cr3 s j w x, next_frame <$> protected nx cr3 s j w x U !! (sp_cr3 q, i) = next_frame <$> U !! (sp_cr3 q, i)) as Hprot.
  { intros. rewrite protected_lookup. destruct (decide _); [|done]. destruct (U !! _) as [e|]; [|done]. simpl. f_equal.
    by apply set_protection_bits. }
  destruct op; simpl in Heff, Hne; unfold on_space in Heff;
    try (destruct (space_arg space v) as [[cr3|]|] eqn:Hs); try (destruct (space_arg dst v) as [[cd|]|] eqn:Hd);
    try (destruct (space_arg src v) as [[ca|]|] eqn:Hsrc); try (specialize (Hdiff _ _ Hs Hne)); try (specialize (Hdiff _ _ Hd Hne));
    try (by destruct Heff as [_ ->]); try (by destruct Heff as [-> _]); try (by destruct Heff as [[_ ->] _]); try (by rewrite Heff).
  - destruct Heff as [[_ ->]|(_ & _ & fs & _ & _ & _ & -> & _)]; [done|]. by rewrite Hpages.
  - destruct (len =? 0); destruct Heff as [_ ->]; [done|]. rewrite without_lookup, decide_False; [done|]. intros [Hk _]. simpl in Hk. congruence.
  - destruct (len =? 0); [by destruct Heff as [_ ->]|]. destruct Heff as (j & _ & -> & _). apply Hprot.
  - destruct Heff as [[_ ->]|(_ & _ & fs & es & _ & _ & _ & _ & _ & -> & _)]; [done|]. by rewrite Hpages.
  - destruct Heff as [[_ ->]|(_ & _ & es & _ & _ & ->)]; [done|]. by rewrite Hpages.
  - destruct Heff as [(_ & j & _ & ->)|(_ & _ & es & _ & _ & ->)]; [apply Hprot|]. rewrite Hpages by done. apply Hprot.
  - destruct Heff as [[_ ->]|(_ & e & f & _ & _ & _ & -> & _)]; [done|]. by rewrite lookup_insert_ne by congruence.
  - destruct Heff as [[_ ->]|(_ & _ & _ & ->)]; [done|]. by rewrite lookup_insert_ne by congruence.
  - destruct Heff as [[[_ ->] _]|(_ & -> & _)]; [done|]. by rewrite lookup_insert_ne by congruence.
Qed.

(** A space stays where it is until it is destroyed. *)
Lemma space_stays op v r bytes v' b q : vm_pre boot kspace op v -> op <> VDestroy b -> exec op v = Some (r, bytes, v') ->
  vs_spaces v !! b = Some q -> vs_spaces v' !! b = Some q.
Proof.
  intros Hpre Hop Hex Hb. destruct op; simpl in Hex;
    try (destruct (space_arg space v); simpl in Hex; [|done]); try (destruct (space_arg dst v); simpl in Hex; [|done]);
    try (destruct (space_arg src v); simpl in Hex; [|done]);
    try (by injection Hex as _ _ <-); try (unfold done in Hex; by injection Hex as _ _ <-).
  - destruct slab as [a|]; simpl in Hex; [|by injection Hex as _ _ <-]. destruct Hpre as [Ha _]. destruct (Ha a eq_refl) as (_ & _ & _ & Hn).
    destruct (arch_vm_space_init _) as [[cr3|] m1]; [|by injection Hex as _ _ <-].
    destruct (if negb (lapic =? 0) then _ else _) as [rc m2]. destruct (negb (rc =? 0)); [by injection Hex as _ _ <-|].
    destruct (if vs_next v =? 0 then _ else _) as [id next]. destruct (u64_tree_insert_node _ _ _ _) as [[rc2 ids]|]; [|done]. simpl in Hex.
    destruct (negb (rc2 =? 0)); injection Hex as _ _ <-; simpl; [done|]. rewrite lookup_insert_ne; [done|]. congruence.
  - unfold vm_rpc_destroy_space in Hex. destruct (_ || _); [by injection Hex as _ _ <-|].
    destruct (vs_spaces v !! space) as [sp|]; [|done]. simpl in Hex. destruct (heap _ !! space) as [nd|]; [|done]. simpl in Hex.
    destruct (if negb _ then _ else _) as [ids|]; [|done]. simpl in Hex. injection Hex as _ _ <-. simpl.
    rewrite lookup_delete_ne; [done|]. congruence.
  - destruct (vm_read_user _ _ _ _) as [[rc bs]|]; [|done]. by injection Hex as _ _ <-.
  - destruct (vm_write_user _ _ _ _) as [[rc m1]|]; [|done]. by injection Hex as _ _ <-.
  - destruct (vm_map_user_page _ _ _ _ _ _ _) as [rc m1]. by injection Hex as _ _ <-.
  - destruct (vm_rpc_alloc_frame _) as [f m1]. by injection Hex as _ _ <-.
Qed.

Section Isolation.
Context (c p : Z) (sc sp : vm_space) (s : Z) (n : nat).

(** The pages of both spaces in the range. *)
Definition both_pages (k : Z * Z) : Prop := (k.1 = sp_cr3 sc \/ k.1 = sp_cr3 sp) /\ s <= k.2 < s + Z.of_nat n.

(** The pages of the operation map no frame that the range maps. *)
Definition off_frames (a vaddr len : Z) (v : vm_state) : Prop := forall cr3 i q j,
  space_arg a v = Some (Some cr3) -> vaddr / 4096 <= i < vaddr / 4096 + Z.of_nat (page_count vaddr len) ->
  q = sp_cr3 sc \/ q = sp_cr3 sp -> s <= j < s + Z.of_nat n -> vm_translate_user_read (Some cr3) (4096 * i) (vs_mach v) <> 0 ->
  vm_translate_user_read (Some cr3) (4096 * i) (vs_mach v) <> vm_translate_user_read (Some q) (4096 * j) (vs_mach v).

(** The operation does not put pages into the range of the two spaces. *)
Definition off_range (d vaddr len : Z) : Prop :=
  d = c \/ d = p -> vaddr / 4096 + Z.of_nat (page_count vaddr len) <= s \/ s + Z.of_nat n <= vaddr / 4096.

(** Everything but: destroying one of the two spaces, making pages of the
    range writable, sharing pages of the range, and sharing pages of other
    spaces into it. *)
Definition cow_ok (op : vm_op) (v : vm_state) : Prop :=
  match op with
  | VDestroy a => a <> c /\ a <> p
  | VProtect a vaddr len true _ => off_frames a vaddr len v
  | VShare d a vaddr len _ _ => off_frames a vaddr len v /\ off_range d vaddr len
  | VShareCow d _ vaddr len _ => off_range d vaddr len
  | _ => True
  end.

(** A write or a fault of space [a] in the range. *)
Definition own_op (a : Z) (op : vm_op) : Prop :=
  match op with
  | VCow a' vaddr _ => a' = a /\ s <= vaddr / 4096 < s + Z.of_nat n
  | VWrite a' vaddr src => a' = a /\
      forall i, 0 <= i < Z.of_nat (length src) -> s <= page_number (vaddr + i) < s + Z.of_nat n
  | _ => False
  end.

Section Step.
Context (S : spaces) (U : user_pages) (v : vm_state) (Hv : vm_state_inv S U v) (Hn : 0 <= s /\ s + Z.of_nat n <= 2 ^ 36).
Context (Hc : vs_spaces v !! c = Some sc) (Hp : vs_spaces v !! p = Some sp) (Hsafe : cow_safe both_pages U).

Lemma off_frames_entry a vaddr len cr3 i q j e e' : off_frames a vaddr len v -> space_arg a v = Some (Some cr3) -> is_Some (S !! cr3) ->
  range_in vaddr len -> len <> 0 -> vaddr / 4096 <= i < vaddr / 4096 + Z.of_nat (page_count vaddr len) -> both_pages (q, j) ->
  U !! (cr3, i) = Some e -> U !! (q, j) = Some e' -> next_frame e <> next_frame e'.
Proof.
  intros Hoff Ha HS Hr Hl Hi [Hq Hj] He He' Hf. simpl in *. pose proof (range_pages_ok vaddr len Hr) as Hpg.
  rewrite (proj2 (Z.eqb_neq _ _) Hl) in Hpg. destruct Hpg as (_ & _ & _ & H0 & H1).
  assert (is_Some (S !! q)) as HSq by (destruct Hq; subst; [by apply (si_space _ _ _ Hv c)|by apply (si_space _ _ _ Hv p)]).
  pose proof (source_frame S U _ _ cr3 i (si_inv _ _ _ Hv) HS ltac:(lia)) as R1.
  pose proof (source_frame S U _ _ q j (si_inv _ _ _ Hv) HSq ltac:(lia)) as R2.
  rewrite He in R1. rewrite He' in R2. simpl in R1, R2.
  destruct (vi_refs _ _ _ _ (si_inv _ _ _ Hv) _ (owned_entry U _ _ _ He)) as (Hnz & _).
  apply (Hoff cr3 i q j Ha Hi Hq Hj); simpl; [congruence|]. rewrite R1, R2. done.
Qed.

Lemma op_safe op r bytes U' m' E' : vm_pre boot kspace op v -> cow_ok op v -> vm_effect v op r bytes U (vs_mach v) U' m' E' -> cow_safe both_pages U'.
Proof.
  intros Hpre Hok [Heff _]. assert (forall U0, U0 = U -> cow_safe both_pages U0) as Hsame by (by intros ? ->).
  assert (forall a cr3, space_ok a v -> space_arg a v = Some (Some cr3) -> is_Some (S !! cr3)) as HS.
  { intros a cr3 Ha Hs. destruct (space_arg_ok S U v a Hv Ha) as (s0 & Hs0 & HS0). apply HS0. congruence. }
  assert (forall d cr3, space_arg d v = Some (Some cr3) -> cr3 = sp_cr3 sc \/ cr3 = sp_cr3 sp -> d = c \/ d = p) as Hname.
  { intros d cr3 Hd Hcr. unfold space_arg in Hd. destruct (d =? 0); [done|]. destruct (vs_spaces v !! d) as [sd|] eqn:Hsd; [|done].
    simpl in Hd. injection Hd as Hd. destruct Hcr; [left; eapply (si_cr3 _ _ _ Hv d c)|right; eapply (si_cr3 _ _ _ Hv d p)]; eauto; congruence. }
  destruct op; simpl in Heff, Hpre, Hok; unfold on_space in Heff; try (by apply Hsame, Heff);
    try (destruct (space_arg space v) as [[cr3|]|] eqn:Hs); try (destruct (space_arg dst v) as [[cd|]|] eqn:Hd);
    try (destruct (space_arg src v) as [[ca|]|] eqn:Hsrc); try (by apply Hsame, Heff).
  - destruct Heff as [[_ ->]|(_ & _ & fs & _ & Hnd & Hf & -> & _)]; [done|]. apply safe_pages; [done..|].
    intros f Hin. destruct (Hf f Hin). split; [done|by eapply not_owned].
  - destruct (len =? 0); destruct Heff as [_ ->]; [done|]. apply (origin_safe _ U); [done|]. intros k e'. rewrite without_lookup.
    destruct (decide _); [done|]. intros He. by apply (from_kept _ _ _ _ _ e').
  - destruct (Z.eqb_spec len 0) as [|Hl]; [by destruct Heff as [_ ->]|]. destruct Heff as (j & Hj & -> & _). destruct writable; [|by apply safe_protected].
    destruct Hpre as [Ha Hr]. apply (origin_safe _ U); [done|]. intros k e' Hk.
    destruct (decide (in_range cr3 (vaddr / 4096) j k)) as [[Hk1 Hk2]|Hout].
    2: { rewrite protected_lookup, decide_False in Hk by done. by apply (from_kept _ _ _ _ _ e'). }
    apply from_shared. destruct (protected_frames _ _ _ _ _ _ _ _ Hk) as (e & He & Hfe & _). destruct k as [k1 k2]. simpl in Hk1, Hk2. subst k1.
    intros [q j2] e2 k3 e3 HR He2 Hf2. exfalso. destruct (protected_frames _ _ _ _ _ _ _ _ He2) as (e0 & He0 & Hf0 & _).
    apply (off_frames_entry space vaddr len cr3 k2 q j2 e e0 Hok Hs (HS _ _ Ha Hs) Hr Hl); [lia|done..|congruence].
  - destruct Heff as [[_ ->]|(_ & _ & fs & es & _ & _ & Hnd & Hf & _ & -> & _)]; [done|]. apply safe_pages; [done..|].
    intros f Hin. destruct (Hf f Hin). split; [done|by eapply not_owned].
  - destruct Heff as [[_ ->]|(_ & Hl & es & Hlen & Hes & ->)]; [done|]. destruct Hpre as (Hda & Ha & Hr & _). destruct Hok as [Hoff Hor].
    assert (forall k e, with_pages cd (vaddr / 4096) ((fun e => user_entry nx (next_frame e) writable executable) <$> es) U !! k = Some e ->
      (~ both_pages k /\ exists i e0, es !! i = Some e0 /\ next_frame e = next_frame e0) \/ U !! k = Some e) as Hcase.
    { intros k e. rewrite with_pages_lookup, length_fmap, Hlen. destruct (decide _) as [[Hk1 Hk2]|]; [|by right].
      rewrite list_lookup_fmap. destruct (es !! _) as [e0|] eqn:Hi; [|done]. intros [= <-]. left. split.
      - intros [Hb Hb2]. rewrite Hk1 in Hb. destruct (Hor (Hname dst cd Hd Hb)); lia.
      - eexists _, e0. split; [done|]. by apply user_entry_bits, next_frame_ok. }
    apply (origin_safe _ U); [done|]. intros k e' [(_ & i & e0 & Hi & Hf)|He]%Hcase; [|by apply (from_kept _ _ _ _ _ e')].
    apply from_shared. intros [q j2] e2 k3 e3 HR He2 Hf2. exfalso.
    destruct (Hcase (q, j2) e2 He2) as [[Hno _]|He0]; [done|]. pose proof (lookup_lt_Some _ _ _ Hi).
    apply (off_frames_entry src vaddr len ca (vaddr / 4096 + Z.of_nat i) q j2 e0 e2 Hoff Hsrc (HS _ _ Ha Hsrc) Hr Hl);
      [lia|done|by apply Hes|done|congruence].
  - destruct Heff as [(_ & j & _ & ->)|(_ & Hl & es & Hlen & Hes & ->)]; [by apply safe_protected|]. rewrite <- Hlen.
    apply safe_share_cow; [done| |done]. intros i Hi [Hb Hb2]. simpl in Hb, Hb2. destruct (Hok (Hname dst cd Hd Hb)); lia.
  - destruct Heff as [[_ ->]|(_ & e & f & _ & Hf & Hno & -> & _)]; [done|]. apply safe_insert; [done..|by eapply not_owned].
  - destruct Heff as [[_ ->]|(_ & Hf & Hno & ->)]; [done|]. apply safe_insert; [done..|by eapply not_owned].
  - destruct Heff as [[[_ ->] _]|(_ & -> & _)]; [done|]. destruct Hpre as (_ & Hf & _). apply safe_insert; [done| |by eapply held_unmapped].
    apply (owned_frame S U _ _ (si_inv _ _ _ Hv)), gmultiset_elem_of_disj_union. by right.
Qed.

(** What another space does cannot be read in the range. *)
Lemma others_unseen op r bytes v' S' U' : vm_pre boot kspace op v -> exec op v = Some (r, bytes, v') ->
  vm_state_inv S' U' v' -> vm_effect v op r bytes U (vs_mach v) U' (vs_mach v') (vs_held v') ->
  keeps_bytes op U (vs_held v) U' (vs_held v') (vs_mach v) (vs_mach v') ->
  forall b q, vs_spaces v !! b = Some q -> vs_spaces v' !! b = Some q -> (forall i, s <= i < s + Z.of_nat n -> both_pages (sp_cr3 q, i)) ->
    op_actor op <> Some b -> forall k va, (forall j, va <= j < va + Z.of_nat k -> s <= page_number j < s + Z.of_nat n) ->
    read_bytes (sp_cr3 q) k va (vs_mach v') = read_bytes (sp_cr3 q) k va (vs_mach v).
Proof.
  intros Hpre Hex Hv' Heff Hk b q Hb Hb' HR Hne k va Hr.
  pose proof (proj1 (si_space _ _ _ Hv b q Hb)) as HS. pose proof (proj1 (si_space _ _ _ Hv' b q Hb')) as HS'.
  pose proof (other_pages S U v op r bytes U' _ _ b q Hv Heff Hb Hne) as HU.
  apply (read_alike S U _ _ S' U' _ _ _ _ (fun i => s <= i < s + Z.of_nat n) (si_inv _ _ _ Hv) (si_inv _ _ _ Hv') HS HS'); [by intros i _| |done].
  intros i e a Hi He Ha. pose proof (owned_entry U (vs_held v) _ _ He) as Ho.
  assert (next_frame e ∈ owned U' (vs_held v')) as Ho'.
  { specialize (HU i). rewrite He in HU. destruct (U' !! (sp_cr3 q, i)) as [e'|] eqn:He'; [|done]. injection HU as <-. by eapply owned_entry. }
  destruct op; simpl in Hk; try (by apply (Hk (next_frame e))).
  - destruct Heff as [[_ Hw] _]. unfold on_space in Hw. destruct Hpre as (Hsp & _).
    destruct (space_arg_ok S U v space Hv Hsp) as (s0 & Hs0 & HS0). rewrite Hs0 in Hw. destruct s0 as [cr3|]; [|by destruct Hw as [_ ->]].
    destruct (_ <? 2 ^ 64); [|by injection Hw as _ ->]. specialize (HS0 cr3 eq_refl).
    pose proof (write_bytes_ok S U (vs_held v) cr3 src HS0 (vs_mach v) vaddr (si_inv _ _ _ Hv)) as Hok. rewrite <- Hw in Hok.
    destruct Hok as (_ & Hsame & _). apply Hsame. intros j Hj (e' & He' & Hal & -> & _)%(user_addr_frame S U _ _ (si_inv _ _ _ Hv)).
    assert (next_frame e <> next_frame e') as Hdiff.
    { intros Hf. destruct (Hsafe (sp_cr3 q, i) e (cr3, page_number (vaddr + j)) e') as [_ Hro]; [by apply HR|done..| |done|].
      - intros [= Hcr _]. apply Hne. simpl. f_equal. unfold space_arg in Hs0. destruct (space =? 0); [done|].
        destruct (vs_spaces v !! space) as [ss|] eqn:Hss; [|done]. simpl in Hs0. injection Hs0 as Hs0.
        apply (si_cr3 _ _ _ Hv space b ss q); [done..|congruence].
      - unfold allowed in Hal. simpl in Hal. rewrite Hro in Hal. by rewrite andb_false_r in Hal. }
    apply (other_frame (next_frame e') (next_frame e) _ (next_frame_ok e') (next_frame_ok e) Hdiff Ha).
    pose proof (page_offset_range (vaddr + j)). lia.
  - apply (Hk (next_frame e)); [done| |done]. intros Hf. apply (held_unmapped S U v (next_frame e) Hv); [rewrite Hf; apply Hpre|].
    apply mapped_elem. eauto.
Qed.

(** What a space writes or copies in the range cannot be read by another. *)
Lemma own_unseen op r bytes v' S' U' a : vm_pre boot kspace op v -> exec op v = Some (r, bytes, v') ->
  vm_state_inv S' U' v' -> vm_effect v op r bytes U (vs_mach v) U' (vs_mach v') (vs_held v') ->
  keeps_bytes op U (vs_held v) U' (vs_held v') (vs_mach v) (vs_mach v') -> a = c \/ a = p -> own_op a op ->
  forall b q, vs_spaces v !! b = Some q -> vs_spaces v' !! b = Some q -> b <> a ->
    forall k va, read_bytes (sp_cr3 q) k va (vs_mach v') = read_bytes (sp_cr3 q) k va (vs_mach v).
Proof.
  intros Hpre Hex Hv' [Heff _] Hk Ha Hop b q Hb Hb' Hne.
  assert (exists sa, vs_spaces v !! a = Some sa /\ forall i, s <= i < s + Z.of_nat n -> both_pages (sp_cr3 sa, i)) as (sa & Hsa & HR).
  { destruct Ha; subst; [exists sc|exists sp]; (split; [done|]); intros i Hi; (split; [|done]); auto. }
  pose proof (space_arg_eq S U v a sa Hv Hsa) as Harg.
  pose proof (proj1 (si_space _ _ _ Hv b q Hb)) as HS. pose proof (proj1 (si_space _ _ _ Hv' b q Hb')) as HS'.
  pose proof (proj1 (si_space _ _ _ Hv a sa Hsa)) as HSa.
  assert (sp_cr3 q <> sp_cr3 sa) as Hdiff by (intros Heq; apply Hne; by apply (si_cr3 _ _ _ Hv b a q sa)).
  destruct op; try done; destruct Hop as [-> Hr].
  - eapply (cow_step S U v a (sp_cr3 sa)); eauto.
  - simpl in Heff. unfold on_space in Heff. rewrite Harg in Heff. destruct Heff as [-> Hw].
    destruct (_ <? 2 ^ 64); [|by injection Hw as _ ->]. intros k va.
    assert (vm_inv S U (vs_held v) (vs_mach v')) as Hi'.
    { pose proof (write_bytes_ok S U (vs_held v) (sp_cr3 sa) src HSa (vs_mach v) vaddr (si_inv _ _ _ Hv)) as Hok.
      rewrite <- Hw in Hok. by destruct Hok. }
    eapply (write_step S U _ _ _ (sp_cr3 sa) s n vaddr src r); [apply Hv|done| |done|by symmetry|done..].
    by apply (safe_private both_pages).
Qed.
End Step.

(** The step of a run. *)
Lemma isolation_step S U v op r bytes v' : 0 <= s /\ s + Z.of_nat n <= 2 ^ 36 ->
  vm_state_inv S U v -> vs_spaces v !! c = Some sc -> vs_spaces v !! p = Some sp -> cow_safe both_pages U ->
  vm_pre boot kspace op v -> cow_ok op v -> exec op v = Some (r, bytes, v') ->
  (exists S' U', vm_state_inv S' U' v' /\ vs_spaces v' !! c = Some sc /\ vs_spaces v' !! p = Some sp /\ cow_safe both_pages U') /\
  (forall b q, b = c /\ q = sc \/ b = p /\ q = sp -> op_actor op <> Some b -> forall k va,
    (forall j, va <= j < va + Z.of_nat k -> s <= page_number j < s + Z.of_nat n) ->
    read_bytes (sp_cr3 q) k va (vs_mach v') = read_bytes (sp_cr3 q) k va (vs_mach v)) /\
  (forall a b q, a = c \/ a = p -> own_op a op -> vs_spaces v !! b = Some q -> b <> a -> forall k va,
    read_bytes (sp_cr3 q) k va (vs_mach v') = read_bytes (sp_cr3 q) k va (vs_mach v)).
Proof.
  intros Hn Hv Hc Hp Hsafe Hpre Hok Hex.
  destruct (outcome_any S U v Hv op Hpre) as (r' & b' & v1 & S' & U' & Hex' & Hv' & Heff & Hk). rewrite Hex in Hex'.
  injection Hex' as <- <- <-.
  assert (op <> VDestroy c /\ op <> VDestroy p) as [Hdc Hdp] by (split; intros ->; by destruct Hok).
  pose proof (space_stays op v r bytes v' c sc Hpre Hdc Hex Hc) as Hc'. pose proof (space_stays op v r bytes v' p sp Hpre Hdp Hex Hp) as Hp'.
  split; [|split].
  - exists S', U'. do 3 (split; [done|]). by apply (op_safe S U v Hv Hn Hc Hp Hsafe op r bytes U' (vs_mach v') (vs_held v')).
  - intros b q Hb Hne k va Hr. apply (others_unseen S U v Hv Hsafe op r bytes v' S' U' Hpre Hex Hv' Heff Hk b q); [| | |done|done];
      destruct Hb as [[-> ->]|[-> ->]]; try done; intros i Hi; (split; [|done]); auto.
  - intros a b q Ha Hop Hb Hne. apply (own_unseen S U v Hv Hc Hp Hsafe op r bytes v' S' U' a Hpre Hex Hv' Heff Hk Ha Hop b q Hb); [|done].
    apply (space_stays op v r bytes v' b q Hpre); [|done|done]. intros ->. done.
Qed.

(** No page of [p] in the range has a frame that is writable at another page. *)
Definition unshared (v : vm_state) : Prop := forall i a q j,
  s <= i < s + Z.of_nat n -> vs_spaces v !! a = Some q -> 0 <= j < 2 ^ 36 -> (sp_cr3 q, j) <> (sp_cr3 sp, i) ->
  vm_translate_user_write (Some (sp_cr3 q)) (4096 * j) (vs_mach v) <> 0 ->
  vm_translate_user_write (Some (sp_cr3 q)) (4096 * j) (vs_mach v) <> vm_translate_user_read (Some (sp_cr3 sp)) (4096 * i) (vs_mach v).

Lemma unshared_entry S U v i k e e' : vm_state_inv S U v -> vs_spaces v !! p = Some sp -> 0 <= s /\ s + Z.of_nat n <= 2 ^ 36 -> unshared v ->
  s <= i < s + Z.of_nat n -> U !! (sp_cr3 sp, i) = Some e -> U !! k = Some e' -> k <> (sp_cr3 sp, i) -> next_frame e' = next_frame e ->
  writable_bit e' = false.
Proof.
  intros Hv Hp Hn Hun Hi He He' Hne Hf. apply not_true_iff_false. intros Hw. destruct k as [c' j].
  pose proof He' as (HS & Hj & _ & Hu)%(vi_user _ _ _ _ (si_inv _ _ _ Hv)). destruct (si_all _ _ _ Hv c' HS) as (a & q & Ha & <-).
  assert (vm_translate_user_write (Some (sp_cr3 q)) (4096 * j) (vs_mach v) = next_frame e') as Hwr.
  { simpl. rewrite (translate_inv S U _ _ (si_inv _ _ _ Hv)) by done. unfold user_addr. destruct (page_of j Hj) as [-> ->]. rewrite He'. simpl.
    unfold allowed, is_user in *. apply andb_true_iff in Hu as [-> _]. rewrite Hw. simpl. lia. }
  pose proof (source_frame S U _ _ (sp_cr3 sp) i (si_inv _ _ _ Hv) (proj1 (si_space _ _ _ Hv p sp Hp)) ltac:(lia)) as Hrd. rewrite He in Hrd.
  destruct (vi_refs _ _ _ _ (si_inv _ _ _ Hv) _ (owned_entry U _ _ _ He')) as (Hnz & _).
  apply (Hun i a q j Hi Ha Hj Hne); [by rewrite Hwr|]. rewrite Hwr, Hrd. done.
Qed.
End Isolation.

Section Fork.
Context (c p : Z) (sc sp : vm_space) (vaddr len : Z) (x : bool).
Let s := vaddr / 4096.
Let n := page_count vaddr len.
Notation both := (both_pages sc sp s n).

Context (S : spaces) (U : user_pages) (v v' : vm_state) (Hv : vm_state_inv S U v).
Context (Hc : vs_spaces v !! c = Some sc) (Hp : vs_spaces v !! p = Some sp).
Context (Hpre : vm_pre boot kspace (VShareCow c p vaddr len x) v) (Hex : exec (VShareCow c p vaddr len x) v = Some (0, [], v')).

(** The state after the range is shared copy on write. *)
Lemma shared_state : exists S' U', vm_state_inv S' U' v' /\ vs_spaces v' !! c = Some sc /\ vs_spaces v' !! p = Some sp /\
  (0 <= s /\ s + Z.of_nat n <= 2 ^ 36) /\ keeps_bytes (VShareCow c p vaddr len x) U (vs_held v) U' (vs_held v') (vs_mach v) (vs_mach v') /\
  exists es, length es = n /\ (forall (i : nat) e, es !! i = Some e -> U !! (sp_cr3 sp, s + Z.of_nat i) = Some e) /\
    U' = with_pages (sp_cr3 sc) s ((fun e => user_entry nx (next_frame e) false x) <$> es) (protected nx (sp_cr3 sp) s n false x U).
Proof.
  destruct (outcome_any S U v Hv _ Hpre) as (r' & b' & v1 & S' & U' & Hex' & Hv' & [Heff _] & Hk).
  rewrite Hex in Hex'. injection Hex' as <- <- <-. exists S', U'. split; [done|].
  assert (forall b q, vs_spaces v !! b = Some q -> vs_spaces v' !! b = Some q) as Hst.
  { intros b q. by apply (space_stays (VShareCow c p vaddr len x) v 0 [] v'). }
  do 2 (split; [by apply Hst|]). simpl in Heff. unfold on_space in Heff.
  rewrite (space_arg_eq S U v c sc Hv Hc), (space_arg_eq S U v p sp Hv Hp) in Heff.
  destruct Heff as [(? & _)|(_ & Hl & es & Hlen & Hes & HU)]; [done|]. destruct Hpre as (_ & _ & Hr & _).
  pose proof (range_pages_ok vaddr len Hr) as Hpg. rewrite (proj2 (Z.eqb_neq _ _) Hl) in Hpg.
  destruct Hpg as (_ & _ & _ & H0 & H1). do 2 (split; [done|]). by exists es.
Qed.

Section Shared.
Context (U' : user_pages) (es : list Z) (Hlen : length es = n).
Context (Hes : forall (i : nat) e, es !! i = Some e -> U !! (sp_cr3 sp, s + Z.of_nat i) = Some e).
Context (HU : U' = with_pages (sp_cr3 sc) s ((fun e => user_entry nx (next_frame e) false x) <$> es) (protected nx (sp_cr3 sp) s n false x U)).

(** Both map the frames of the source. *)
Lemma shared_frames q i : q = sp_cr3 sc \/ q = sp_cr3 sp -> s <= i < s + Z.of_nat n ->
  next_frame <$> U' !! (q, i) = next_frame <$> U !! (sp_cr3 sp, i).
Proof.
  intros Hq Hi. rewrite HU, with_pages_lookup, length_fmap, Hlen. destruct (decide _) as [[_ Hr]|Hn].
  - simpl in *. rewrite list_lookup_fmap. destruct (lookup_lt_is_Some_2 es (Z.to_nat (i - s))) as [e He]; [lia|].
    specialize (Hes _ _ He). rewrite Z2Nat.id, Zplus_minus in Hes by lia. rewrite He, Hes. simpl. f_equal.
    by apply user_entry_bits, next_frame_ok.
  - destruct Hq as [Hq|Hq]; subst q; [by destruct Hn|]. rewrite protected_lookup, decide_True by done.
    destruct (U !! _); simpl; [|done]. f_equal. by apply set_protection_bits.
Qed.

(** Both may only read. *)
Lemma shared_readonly k e : both k -> U' !! k = Some e -> writable_bit e = false.
Proof.
  intros [Hq Hi]. destruct k as [q i]. simpl in Hq, Hi. rewrite HU, with_pages_lookup, length_fmap, Hlen. destruct (decide _) as [|Hn].
  - rewrite list_lookup_fmap. destruct (es !! _) as [e0|]; simpl; [|done]. intros [= <-]. by apply user_entry_bits, next_frame_ok.
  - destruct Hq as [Hq|Hq]; subst q; [by destruct Hn|]. rewrite protected_lookup, decide_True by done.
    destruct (U !! _) as [e0|]; simpl; [|done]. intros [= <-]. by apply set_protection_bits.
Qed.

Lemma shared_safe : 0 <= s /\ s + Z.of_nat n <= 2 ^ 36 -> unshared sp s n v -> cow_safe both U'.
Proof.
  intros Hn Hun k e k' e' Hk He He' Hne Hf. split; [by eapply shared_readonly|].
  destruct (decide ((k'.1 = sp_cr3 sc \/ k'.1 = sp_cr3 sp) /\ s <= k'.2 < s + Z.of_nat n)) as [Hb|Hb]; [by eapply shared_readonly|].
  assert (U !! k' = Some e') as Hold.
  { revert He'. rewrite HU, with_pages_lookup, length_fmap, Hlen, decide_False, protected_lookup, decide_False; [done|..];
      intros [Hk1 Hk2]; apply Hb; auto. }
  destruct k as [q i]. destruct Hk as [Hq Hi]. simpl in Hq, Hi. pose proof (shared_frames q i Hq Hi) as Hfr. rewrite He in Hfr.
  destruct (U !! (sp_cr3 sp, i)) as [e0|] eqn:He0; [|done]. simpl in Hfr. injection Hfr as Hfr.
  eapply (unshared_entry p sp s n S U v i k' e0 e' Hv Hp Hn Hun Hi He0 Hold); [|congruence].
  intros ->. apply Hb. simpl. auto.
Qed.
End Shared.

(** Both spaces read what the source held. *)
Lemma share_cow_reads k va : (forall j, va <= j < va + Z.of_nat k -> s <= page_number j < s + Z.of_nat n) ->
  read_bytes (sp_cr3 sc) k va (vs_mach v') = read_bytes (sp_cr3 sp) k va (vs_mach v) /\
  read_bytes (sp_cr3 sp) k va (vs_mach v') = read_bytes (sp_cr3 sp) k va (vs_mach v).
Proof.
  intros Hk. destruct shared_state as (S' & U' & Hv' & Hc' & Hp' & Hn & Hkeep & es & Hlen & Hes & HU).
  assert (forall q, q = sp_cr3 sc \/ q = sp_cr3 sp -> is_Some (S' !! q) ->
    read_bytes q k va (vs_mach v') = read_bytes (sp_cr3 sp) k va (vs_mach v)) as Hread.
  { intros q Hq HSq.
    apply (read_alike S U _ _ S' U' _ _ _ _ (fun i => s <= i < s + Z.of_nat n) (si_inv _ _ _ Hv) (si_inv _ _ _ Hv')); [|done| | |done].
    - by apply (si_space _ _ _ Hv p).
    - intros i Hi. by eapply shared_frames.
    - intros i e a Hi He Ha. apply (Hkeep (next_frame e)); [by eapply owned_entry| |done].
      pose proof (shared_frames U' es Hlen Hes HU q i Hq Hi) as Hfr. rewrite He in Hfr.
      destruct (U' !! (q, i)) as [e'|] eqn:He'; [|done]. injection Hfr as <-. by eapply owned_entry. }
  split; apply Hread; auto; [by apply (si_space _ _ _ Hv' c)|by apply (si_space _ _ _ Hv' p)].
Qed.

Lemma share_cow_safe : unshared sp s n v -> exists S' U', vm_state_inv S' U' v' /\ vs_spaces v' !! c = Some sc /\
  vs_spaces v' !! p = Some sp /\ (0 <= s /\ s + Z.of_nat n <= 2 ^ 36) /\ cow_safe both U'.
Proof.
  intros Hun. destruct shared_state as (S' & U' & Hv' & Hc' & Hp' & Hn & _ & es & Hlen & Hes & HU). exists S', U'.
  do 4 (split; [done|]). by eapply shared_safe.
Qed.
End Fork.

(** Any sequence of the operations of all spaces. *)
Inductive cow_run (c p : Z) (sc sp : vm_space) (s : Z) (n : nat) (v : vm_state) : vm_state -> Prop :=
  | cow_refl : cow_run c p sc sp s n v v
  | cow_snoc v1 op r bytes v2 : cow_run c p sc sp s n v v1 -> vm_pre boot kspace op v1 -> cow_ok c p sc sp s n op v1 ->
      exec op v1 = Some (r, bytes, v2) -> cow_run c p sc sp s n v v2.

Lemma cow_run_safe c p sc sp s n S U v v' : 0 <= s /\ s + Z.of_nat n <= 2 ^ 36 -> vm_state_inv S U v ->
  vs_spaces v !! c = Some sc -> vs_spaces v !! p = Some sp -> cow_safe (both_pages sc sp s n) U -> cow_run c p sc sp s n v v' ->
  exists S' U', vm_state_inv S' U' v' /\ vs_spaces v' !! c = Some sc /\ vs_spaces v' !! p = Some sp /\ cow_safe (both_pages sc sp s n) U'.
Proof.
  intros Hn Hv Hc Hp Hs Hrun. induction Hrun as [|v1 op r bytes v2 _ (S1 & U1 & Hv1 & Hc1 & Hp1 & Hs1) Hpre Hok Hex]; [eauto 6|].
  by destruct (isolation_step c p sc sp s n S1 U1 v1 op r bytes v2 Hn Hv1 Hc1 Hp1 Hs1 Hpre Hok Hex) as (? & _).
Qed.

(** A frame with one reference is mapped once. *)
Lemma single_unshared S U v sp s n p : vm_state_inv S U v -> vs_spaces v !! p = Some sp -> 0 <= s /\ s + Z.of_nat n <= 2 ^ 36 ->
  (forall i, s <= i < s + Z.of_nat n ->
     frames (pm (vs_mach v)) !! vm_translate_user_read (Some (sp_cr3 sp)) (4096 * i) (vs_mach v) = Some (Used 1)) ->
  unshared sp s n v.
Proof.
  intros Hv Hp Hn H1 i a q j Hi Ha Hj Hne Hnz Heq. specialize (H1 i Hi). rewrite <- Heq in H1.
  pose proof (proj1 (si_space _ _ _ Hv a q Ha)) as HSq. pose proof (proj1 (si_space _ _ _ Hv p sp Hp)) as HSp.
  assert (exists e, U !! (sp_cr3 q, j) = Some e /\ next_frame e = vm_translate_user_write (Some (sp_cr3 q)) (4096 * j) (vs_mach v)) as (e & He & Hfe).
  { simpl in *. rewrite (translate_inv S U _ _ (si_inv _ _ _ Hv)) in Hnz |- * by done. destruct (user_addr U (sp_cr3 q) true (4096 * j)) as [x|] eqn:Hx; [|done].
    apply (user_addr_frame S U _ _ (si_inv _ _ _ Hv)) in Hx as (e & He & _ & -> & _). destruct (page_of j Hj) as [Hpn Hpo]. rewrite Hpn in He.
    exists e. split; [done|]. rewrite Hpo. simpl. lia. }
  pose proof (source_frame S U _ _ (sp_cr3 sp) i (si_inv _ _ _ Hv) HSp ltac:(lia)) as Hrd. rewrite <- Heq, <- Hfe in Hrd.
  destruct (U !! (sp_cr3 sp, i)) as [e'|] eqn:He'; simpl in Hrd.
  2: { destruct (vi_refs _ _ _ _ (si_inv _ _ _ Hv) _ (owned_entry U _ _ _ He)) as (H0 & _). done. }
  destruct (vi_refs _ _ _ _ (si_inv _ _ _ Hv) _ (owned_entry U (vs_held v) _ _ He)) as (_ & _ & Hu).
  rewrite <- Hfe, Hu in H1. injection H1 as H1. clear Hu. rename H1 into Hu. unfold owned in Hu. rewrite (mapped_delete U _ e He) in Hu.
  assert (next_frame e ∈ mapped (delete (sp_cr3 q, j) U)) as Hin.
  { apply mapped_elem. exists (sp_cr3 sp, i), e'. rewrite lookup_delete_ne by done. done. }
  rewrite elem_of_multiplicity in Hin. rewrite !multiplicity_disj_union, multiplicity_singleton in Hu.
  rewrite decide_True in Hu by done. lia.
Qed.
End State.

(** * Properties *)

(** C9: Refinement of kernel/vm.c.  From the state after [vm_init], after any sequence of creating and destroying spaces,
    allocating, unmapping, protecting, cloning and sharing ranges (also copy on write), copying a page for a fault, reading and
    writing user memory, allocating a user page, taking, filling, mapping and giving back frames, under the
    conditions of their callers, every further one of these operations terminates without undefined behaviour and takes the
    user pages of all spaces, seen as one map from (space, page) to page table entry, and the frames callers hold to what
    the operation describes: fresh zeroed frames for an allocated range, a fresh frame whatever it holds for an allocated page,
    the same frames for sharing, read-only on both sides for copy on write, fresh frames with equal bytes for
    clone and copy, the held frame for mapping it, nothing when it is refused.  Frames that stay mapped or held keep their bytes unless the operation
    writes to them.  Mapping pages for the kernel itself changes the boot page table and no space, and is not one of the operations. *)
Theorem vm_refines nx boot lapic kspace m ops v op : mach_wf m -> is_frame lapic ->
  vm_run nx boot lapic kspace (vm_start m) ops v -> vm_pre boot kspace op v ->
  exists S U r bytes v' S' U', vm_state_inv boot kspace S U v /\
    vm_exec nx boot lapic kspace op v = Some (r, bytes, v') /\ vm_state_inv boot kspace S' U' v' /\
    vm_effect nx v op r bytes U (vs_mach v) U' (vs_mach v') (vs_held v') /\
    keeps_bytes op U (vs_held v) U' (vs_held v') (vs_mach v) (vs_mach v').
Proof.
  intros Hm Hl Hrun Hpre. destruct (reached nx boot lapic kspace Hl m ops v Hm Hrun) as (S & U & Hv).
  destruct (outcome_any nx boot lapic kspace Hl S U v Hv op Hpre) as (r & bytes & v' & S' & U' & H).
  exists S, U, r, bytes, v', S', U'. done.
Qed.

(** C12: Frame accounting.  After any sequence of operations a frame mapped for the user in some space is held with exactly as
    many references as there are user pages that map it, and it is neither the null frame nor a page table
    of any space; every page table is held once, and so is every frame a caller took and has not mapped,
    which no page maps. *)
Theorem vm_frames_counted nx boot lapic kspace m ops v : mach_wf m -> is_frame lapic ->
  vm_run nx boot lapic kspace (vm_start m) ops v ->
  exists (S : spaces) (U : user_pages),
    (forall cr3, is_Some (S !! cr3) <-> exists a sp, vs_spaces v !! a = Some sp /\ sp_cr3 sp = cr3) /\
    (forall cr3 G, S !! cr3 = Some G -> space_wf G cr3 (vs_mach v)) /\
    (forall cr3 n e, U !! (cr3, n) = Some e <->
       is_Some (S !! cr3) /\ 0 <= n < 2 ^ 36 /\ view cr3 (vs_mach v) n = e /\ is_user e = true) /\
    (forall f, f ∈ mapped U -> f <> 0 /\ ~ is_table S f /\
       frames (pm (vs_mach v)) !! f = Some (Used (Z.of_nat (multiplicity f (mapped U))))) /\
    (forall t, is_table S t -> frames (pm (vs_mach v)) !! t = Some (Used 1)) /\
    (forall f, f ∈ vs_held v -> f ∉ mapped U /\ frames (pm (vs_mach v)) !! f = Some (Used 1)).
Proof.
  intros Hm Hl Hrun. destruct (reached nx boot lapic kspace Hl m ops v Hm Hrun) as (S & U & Hv).
  pose proof (si_inv _ _ _ _ _ Hv) as Hi. exists S, U. split.
  { intros cr3. split; [apply (si_all _ _ _ _ _ Hv)|]. intros (a & sp & Ha & <-). by apply (si_space _ _ _ _ _ Hv a). }
  split; [apply Hi|]. split; [apply Hi|]. split; [|split; [intros t; by apply (table_used S U (vs_held v))|]].
  - intros f Hf. destruct (vi_refs _ _ _ _ Hi f) as (H0 & Hnt & Hu); [apply gmultiset_elem_of_disj_union; by left|].
    do 2 (split; [done|]). rewrite Hu. do 3 f_equal. unfold owned. rewrite multiplicity_disj_union.
    destruct (decide (f ∈ vs_held v)) as [Hh|Hh]; [|apply not_elem_of_multiplicity in Hh; lia].
    by destruct (held_unmapped boot kspace S U v f Hv Hh).
  - intros f Hf. split; [by apply (held_unmapped boot kspace S U v)|].
    destruct (vi_refs _ _ _ _ Hi f) as (_ & _ & ->); [apply gmultiset_elem_of_disj_union; by right|].
    by rewrite (si_held _ _ _ _ _ Hv f Hf).
Qed.

(** C22: Equivalence of the copy loops.  [vm_read_user] and [vm_write_user] translate once for each part of a page and
    copy the part at once; they return the same code, the same bytes and the same memory as translating and copying every single
    byte, including when a later page is not accessible, and refuse a range that wraps around. *)
Theorem vm_copy_equivalent nx boot lapic kspace m ops v a sp : mach_wf m -> is_frame lapic ->
  vm_run nx boot lapic kspace (vm_start m) ops v -> vs_spaces v !! a = Some sp ->
  forall va, in_u64 va ->
  (forall len, in_u64 len -> vm_read_user (Some (sp_cr3 sp)) va len (vs_mach v) =
     Some (if va + len <? 2 ^ 64 then read_bytes (sp_cr3 sp) (Z.to_nat len) va (vs_mach v) else (-1, []))) /\
  (forall src, in_u64 (Z.of_nat (length src)) -> vm_write_user (Some (sp_cr3 sp)) va src (vs_mach v) =
     Some (if va + Z.of_nat (length src) <? 2 ^ 64 then write_bytes (sp_cr3 sp) src va (vs_mach v) else (-1, vs_mach v))).
Proof.
  intros Hm Hl Hrun Ha va Hva. destruct (reached nx boot lapic kspace Hl m ops v Hm Hrun) as (S & U & Hv).
  pose proof (proj1 (si_space _ _ _ _ _ Hv a sp Ha)) as HS. pose proof (si_inv _ _ _ _ _ Hv) as Hi. split; intros *.
  - by apply (read_user_ok S U (vs_held v)).
  - by apply (write_user_ok S U (vs_held v)).
Qed.

(** C8: Isolation after fork.  When a range whose frames are not writable elsewhere is shared copy on write between two spaces,
    both read what the source held.  From then on, whatever sequence of operations all spaces carry out (allocating, unmapping, write
    protecting, cloning, forking again, faults, writes, mapping pages), what either of the two reads in the range
    is changed by no operation of any other space, and what it writes or copies there changes no byte that any other space reads
    anywhere.  Left out are operations that share memory on purpose or lift the write protection: making pages with frames of the range writable,
    sharing such pages, and sharing pages into the range; and destroying one of the two spaces. *)
Theorem vm_fork_isolated nx boot lapic kspace m ops v c p sc sp vaddr len x v0 : mach_wf m -> is_frame lapic ->
  vm_run nx boot lapic kspace (vm_start m) ops v -> vs_spaces v !! c = Some sc -> vs_spaces v !! p = Some sp ->
  vm_pre boot kspace (VShareCow c p vaddr len x) v ->
  vm_exec nx boot lapic kspace (VShareCow c p vaddr len x) v = Some (0, [], v0) ->
  let s := vaddr / 4096 in let n := page_count vaddr len in unshared sp s n v ->
  (forall k va, (forall j, va <= j < va + Z.of_nat k -> s <= page_number j < s + Z.of_nat n) ->
     read_bytes (sp_cr3 sc) k va (vs_mach v0) = read_bytes (sp_cr3 sp) k va (vs_mach v) /\
     read_bytes (sp_cr3 sp) k va (vs_mach v0) = read_bytes (sp_cr3 sp) k va (vs_mach v)) /\
  forall v1 op r bytes v2, cow_run nx boot lapic kspace c p sc sp s n v0 v1 ->
    vm_pre boot kspace op v1 -> cow_ok c p sc sp s n op v1 -> vm_exec nx boot lapic kspace op v1 = Some (r, bytes, v2) ->
    (forall b q, b = c /\ q = sc \/ b = p /\ q = sp -> op_actor op <> Some b -> forall k va,
       (forall j, va <= j < va + Z.of_nat k -> s <= page_number j < s + Z.of_nat n) ->
       read_bytes (sp_cr3 q) k va (vs_mach v2) = read_bytes (sp_cr3 q) k va (vs_mach v1)) /\
    (forall a b q, a = c \/ a = p -> own_op s n a op -> vs_spaces v1 !! b = Some q -> b <> a -> forall k va,
       read_bytes (sp_cr3 q) k va (vs_mach v2) = read_bytes (sp_cr3 q) k va (vs_mach v1)).
Proof.
  intros Hm Hl Hrun Hc Hp Hpre Hex s n Hun.
  destruct (reached nx boot lapic kspace Hl m ops v Hm Hrun) as (S & U & Hv). split.
  { intros k va. by apply (share_cow_reads nx boot lapic kspace Hl c p sc sp vaddr len x S U v v0). }
  intros v1 op r bytes v2 Hcow Hpre1 Hok Hex1.
  destruct (share_cow_safe nx boot lapic kspace Hl c p sc sp vaddr len x S U v v0 Hv Hc Hp Hpre Hex Hun) as (S0 & U0 & Hv0 & Hc0 & Hp0 & Hn & Hs0).
  destruct (cow_run_safe nx boot lapic kspace Hl c p sc sp s n S0 U0 v0 v1 Hn Hv0 Hc0 Hp0 Hs0 Hcow) as (S1 & U1 & Hv1 & Hc1 & Hp1 & Hs1).
  by destruct (isolation_step nx boot lapic kspace Hl c p sc sp s n S1 U1 v1 op r bytes v2 Hn Hv1 Hc1 Hp1 Hs1 Hpre1 Hok Hex1) as (_ & ? & ?).
Qed.

(** ** Witnesses: two spaces on a machine with 30 frames *)

Definition vm_map : list pmm_memory_range := [mk_memory_range 4096 131072].

Lemma vm_map_valid : map_valid vm_map.
Proof.
  constructor.
  - unfold vm_map. repeat constructor; unfold range_valid, in_u64; simpl; lia.
  - apply (bool_decide_unpack _). vm_compute. exact I.
  - vm_compute. done.
  - vm_compute. done.
Qed.

Definition vm_demo_pmm : pmm :=
  match pmm_init_from_ranges vm_map [] with Some s => s | None => mk_pmm [] [] 0 0 0 0 0 end.

Definition vm_demo : mach := mk_mach vm_demo_pmm ∅.

Lemma vm_demo_wf : mach_wf vm_demo.
Proof.
  assert (pmm_init_from_ranges vm_map [] = Some vm_demo_pmm) as Hi by (vm_compute; reflexivity).
  assert (map_Forall (fun a _ => is_frame a) (frames vm_demo_pmm)) as Hf.
  { apply (bool_decide_unpack _). vm_compute. exact I. }
  constructor; [by destruct (init_spec _ _ _ vm_map_valid Hi)|exact Hf|]. vm_compute. discriminate.
Qed.

Local Notation vx := (vm_exec true 4096 0 1).


Definition next (op : vm_op) (v : vm_state) : vm_state := match vx op v with Some (_, _, v') => v' | None => v end.

Lemma next_exec op v r : fst <$> vx op v = Some r -> vx op v = Some (r, next op v).
Proof. unfold next. destruct (vx op v) as [[[? ?] ?]|]; simpl; [|done]. by intros [= <-]. Qed.

Lemma run_next ops op v0 v r : vm_run true 4096 0 1 v0 ops v -> vm_pre 4096 1 op v -> fst <$> vx op v = Some r ->
  vm_run true 4096 0 1 v0 (ops ++ [op]) (next op v).
Proof. intros Hr Hp He. destruct r as [r bytes]. eapply run_snoc; [done|done|]. by apply next_exec. Qed.

#[local] Instance vm_space_eq_dec : EqDecision vm_space.
Proof. solve_decision. Defined.

Definition has_space (a : Z) (v : vm_state) : bool := match vs_spaces v !! a with Some _ => true | None => false end.
Definition space_is (a : Z) (v : vm_state) (s : option vm_space) : bool := bool_decide (vs_spaces v !! a = s).
Definition answers (op : vm_op) (v : vm_state) (r : Z) : bool := bool_decide (fst <$> vx op v = Some (r, [])).
Definition boot_used (v : vm_state) : bool := match frames (pm (vs_mach v)) !! 4096 with Some Free => false | _ => true end.
Definition clear_range (a vaddr len : Z) (v : vm_state) : bool :=
  match space_arg a v with
  | Some s => forallb (fun p => vm_translate_user_read s p (vs_mach v) =? 0) (vm_pages (range_start vaddr) (range_end vaddr len))
  | None => true
  end.
Definition small_counts (vaddr len : Z) (v : vm_state) : bool :=
  let n := Z.of_nat (length (vm_pages (range_start vaddr) (range_end vaddr len))) in
  (n <? 2 ^ 32) && forallb (fun p => match p.2 with Used k => k + n <? 2 ^ 32 | Free => true end) (map_to_list (frames (pm (vs_mach v)))).
Definition single (cr3 s : Z) (n : nat) (v : vm_state) : bool :=
  forallb (fun i => match frames (pm (vs_mach v)) !! vm_translate_user_read (Some cr3) (4096 * (s + Z.of_nat i)) (vs_mach v) with
    | Some (Used k) => k =? 1 | _ => false end) (seq 0 n).
Definition reads (cr3 : Z) (n : nat) (va : Z) (v : vm_state) (bytes : list Z) : bool := bool_decide (read_bytes cr3 n va (vs_mach v) = (0, bytes)).

Lemma space_ok_check a v : has_space a v = true -> space_ok a v.
Proof. unfold has_space. intros H. right. by destruct (vs_spaces v !! a). Qed.

Lemma space_is_ok a v s : space_is a v (Some s) = true -> space_ok a v.
Proof. intros H%bool_decide_eq_true_1. right. by exists s. Qed.

Lemma counts_small_check vaddr len v : small_counts vaddr len v = true -> counts_small vaddr len (vs_mach v).
Proof.
  unfold small_counts. intros [Hn%Z.ltb_lt Hf]%andb_true_iff. split; [done|]. rewrite forallb_forall in Hf. intros a st Ha.
  apply elem_of_map_to_list, list_elem_of_In in Ha. specialize (Hf _ Ha). simpl in Hf. destruct st; [done|]. by apply Z.ltb_lt.
Qed.

Lemma range_unmapped_check a vaddr len v : clear_range a vaddr len v = true ->
  forall s, space_arg a v = Some s -> range_unmapped s vaddr len (vs_mach v).
Proof.
  unfold clear_range. intros H s Hs. rewrite Hs in H. rewrite forallb_forall in H. apply Forall_forall. intros p Hp%list_elem_of_In.
  by apply Z.eqb_eq, H.
Qed.

Lemma create_pre a name v : a <> 0 -> a <> 1 -> in_u64 a -> space_is a v None = true -> boot_used v = true -> vm_pre 4096 1 (VCreate (Some a) name) v.
Proof.
  intros H0 H1 Ha Hs%bool_decide_eq_true_1 Hb. split; [intros b [= <-]; done|]. intros E. unfold boot_used in Hb. by rewrite E in Hb.
Qed.

Lemma alloc_pre a vaddr len w x v : has_space a v = true -> range_in vaddr len -> clear_range a vaddr len v = true -> vm_pre 4096 1 (VAlloc a vaddr len w x) v.
Proof. intros Hs Hr Hc. split; [by apply space_ok_check|]. split; [done|by apply range_unmapped_check]. Qed.

Lemma write_pre a vaddr src v : has_space a v = true -> in_u64 vaddr -> in_u64 (Z.of_nat (length src)) -> vm_pre 4096 1 (VWrite a vaddr src) v.
Proof. intros Hs Hv Hl. split; [by apply space_ok_check|done]. Qed.

Lemma cow_pre a vaddr x v : has_space a v = true -> 0 <= vaddr < 2 ^ 48 -> vm_pre 4096 1 (VCow a vaddr x) v.
Proof. intros Hs Hv. split; [by apply space_ok_check|done]. Qed.

Lemma share_cow_pre d a sd sa vaddr len x v : space_is d v (Some sd) = true -> space_is a v (Some sa) = true -> range_in vaddr len ->
  small_counts vaddr len v = true -> clear_range d vaddr len v = true -> vm_pre 4096 1 (VShareCow d a vaddr len x) v.
Proof.
  intros Hd Ha Hr Hm Hc. split; [by eapply space_is_ok|]. split; [by eapply space_is_ok|]. split; [done|].
  split; [by apply counts_small_check|by apply range_unmapped_check].
Qed.

Lemma protect_pre a vaddr len w x v : has_space a v = true -> range_in vaddr len -> vm_pre 4096 1 (VProtect a vaddr len w x) v.
Proof. intros Hs Hr. split; [by apply space_ok_check|done]. Qed.

Lemma unshared_check S U v sp s n p : vm_state_inv 4096 1 S U v -> vs_spaces v !! p = Some sp -> 0 <= s /\ s + Z.of_nat n <= 2 ^ 36 ->
  single (sp_cr3 sp) s n v = true -> unshared sp s n v.
Proof.
  intros Hv Hp Hn H. apply (single_unshared 4096 1 S U v sp s n p); [done..|]. intros i Hi. unfold single in H. rewrite forallb_forall in H.
  specialize (H (Z.to_nat (i - s))). rewrite <- list_elem_of_In, elem_of_seq in H. specialize (H ltac:(lia)).
  replace (s + Z.of_nat (Z.to_nat (i - s))) with i in H by lia.
  destruct (frames (pm (vs_mach v)) !! _) as [[|k]|]; [done| |done]. apply Z.eqb_eq in H. by subst.
Qed.

Definition page : Z := 1073741824.
Local Notation v1 := (next (VCreate (Some 200) "parent") (vm_start vm_demo)).
Local Notation v2 := (next (VCreate (Some 300) "child") v1).
Local Notation v3 := (next (VAlloc 200 page 8192 true false) v2).
Local Notation v4 := (next (VWrite 200 (page + 4094) [1; 2; 3]) v3).
Local Notation v5 := (next (VShareCow 300 200 page 8192 false) v4).
Local Notation v6 := (next (VCow 300 (page + 4094) false) v5).
Local Notation v7 := (next (VWrite 300 (page + 4094) [9]) v6).

Local Notation v8 := (next (VProtect 200 page 8192 true false) v5).
Local Notation v9 := (next (VWrite 200 (page + 4094) [9]) v8).

Local Notation o1 := (VCreate (Some 200) "parent").
Local Notation o2 := (VCreate (Some 300) "child").
Local Notation o3 := (VAlloc 200 page 8192 true false).
Local Notation o4 := (VWrite 200 (page + 4094) [1; 2; 3]).

Ltac settle := vm_compute; repeat split; first [done | discriminate | by eexists].

Lemma demo_range : range_in page 8192.
Proof. settle. Qed.

Definition parent : vm_space := mk_space 1 "parent" 8192.
Definition child : vm_space := mk_space 2 "child" 20480.

(** The facts about the run that are evaluated, in one term that shares the states. *)
Definition demo_checks : list bool :=
  let w0 := vm_start vm_demo in
  let w1 := next o1 w0 in
  let w2 := next o2 w1 in
  let w3 := next o3 w2 in
  let w4 := next o4 w3 in
  let w5 := next (VShareCow 300 200 page 8192 false) w4 in
  let w6 := next (VCow 300 (page + 4094) false) w5 in
  let w7 := next (VWrite 300 (page + 4094) [9]) w6 in
  let w8 := next (VProtect 200 page 8192 true false) w5 in
  let w9 := next (VWrite 200 (page + 4094) [9]) w8 in
  [answers o1 w0 200; space_is 200 w0 None; boot_used w0; answers o2 w1 300; space_is 300 w1 None; boot_used w1;
   answers o3 w2 0; has_space 200 w2; clear_range 200 page 8192 w2; answers o4 w3 0; has_space 200 w3;
   space_is 200 w4 (Some parent); space_is 300 w4 (Some child); reads (sp_cr3 parent) 3 (page + 4094) w4 [1; 2; 3];
   clear_range 300 page 8192 w4; small_counts page 8192 w4; answers (VShareCow 300 200 page 8192 false) w4 0;
   has_space 300 w5; answers (VCow 300 (page + 4094) false) w5 0; has_space 300 w6; space_is 200 w6 (Some parent);
   answers (VWrite 300 (page + 4094) [9]) w6 0; reads (sp_cr3 parent) 2 (page + 4094) w6 [1; 2]; reads (sp_cr3 child) 2 (page + 4094) w7 [9; 2];
   single (sp_cr3 parent) (page / 4096) (page_count page 8192) w4; space_is 300 w5 (Some child); reads (sp_cr3 child) 1 (page + 4094) w5 [1];
   has_space 200 w5; answers (VProtect 200 page 8192 true false) w5 0; has_space 200 w8; answers (VWrite 200 (page + 4094) [9]) w8 0;
   reads (sp_cr3 child) 1 (page + 4094) w9 [9]].

Lemma demo_run : forallb id demo_checks = true.
Proof. vm_compute. reflexivity. Qed.

Fixpoint all_of (l : list bool) : Prop := match l with [] => True | b :: l => b = true /\ all_of l end.

Lemma all_true l : forallb id l = true -> all_of l.
Proof. induction l as [|b l IH]; [done|]. simpl. intros [Hb Hl]%andb_true_iff. by split; [|apply IH]. Qed.

(** Each fact in the form the theorems take it. *)
Lemma demo_facts :
  (answers o1 (vm_start vm_demo) 200 = true /\ vm_pre 4096 1 o1 (vm_start vm_demo)) /\
  (answers o2 v1 300 = true /\ vm_pre 4096 1 o2 v1) /\ (answers o3 v2 0 = true /\ vm_pre 4096 1 o3 v2) /\ (answers o4 v3 0 = true /\ vm_pre 4096 1 o4 v3) /\
  (space_is 200 v4 (Some parent) = true /\ space_is 300 v4 (Some child) = true /\ reads (sp_cr3 parent) 3 (page + 4094) v4 [1; 2; 3] = true) /\
  (answers (VShareCow 300 200 page 8192 false) v4 0 = true /\ vm_pre 4096 1 (VShareCow 300 200 page 8192 false) v4) /\
  (answers (VCow 300 (page + 4094) false) v5 0 = true /\ vm_pre 4096 1 (VCow 300 (page + 4094) false) v5) /\
  (answers (VWrite 300 (page + 4094) [9]) v6 0 = true /\ vm_pre 4096 1 (VWrite 300 (page + 4094) [9]) v6) /\
  space_is 200 v6 (Some parent) = true /\ reads (sp_cr3 parent) 2 (page + 4094) v6 [1; 2] = true /\
  reads (sp_cr3 child) 2 (page + 4094) v7 [9; 2] = true /\ single (sp_cr3 parent) (page / 4096) (page_count page 8192) v4 = true.
Proof.
  pose proof demo_run as H. apply all_true in H. unfold demo_checks in H. cbv zeta in H. cbn [all_of] in H.
  destruct H as (A1 & N1 & B1 & A2 & N2 & B2 & A3 & S3 & C3 & A4 & S4 & P4 & K4 & R4 & C5 & M5 & A5 & S6 & A6 & S7 & P7 & A7 & R6 & R7 & Q4 & _).
  assert (in_u64 200 /\ in_u64 300 /\ in_u64 (page + 4094) /\ 0 <= page + 4094 < 2 ^ 48) as (U1 & U2 & U3 & U4) by settle.
  assert (forall n, (n < 10)%nat -> in_u64 (Z.of_nat n)) as U5 by (unfold in_u64; lia).
  exact (conj (conj A1 (create_pre 200 _ _ ltac:(lia) ltac:(lia) U1 N1 B1)) (conj (conj A2 (create_pre 300 _ _ ltac:(lia) ltac:(lia) U2 N2 B2))
    (conj (conj A3 (alloc_pre 200 page 8192 true false _ S3 demo_range C3)) (conj (conj A4 (write_pre 200 _ [1; 2; 3] _ S4 U3 (U5 3%nat ltac:(lia))))
    (conj (conj P4 (conj K4 R4)) (conj (conj A5 (share_cow_pre 300 200 child parent page 8192 false _ K4 P4 demo_range M5 C5))
    (conj (conj A6 (cow_pre 300 _ false _ S6 U4)) (conj (conj A7 (write_pre 300 _ [9] _ S7 U3 (U5 1%nat ltac:(lia))))
    (conj P7 (conj R6 (conj R7 Q4))))))))))).
Qed.

(** What happens when the parent makes the range writable again instead. *)
Lemma protect_facts :
  (space_is 300 v5 (Some child) = true /\ reads (sp_cr3 child) 1 (page + 4094) v5 [1] = true) /\
  (answers (VProtect 200 page 8192 true false) v5 0 = true /\ vm_pre 4096 1 (VProtect 200 page 8192 true false) v5) /\
  (answers (VWrite 200 (page + 4094) [9]) v8 0 = true /\ vm_pre 4096 1 (VWrite 200 (page + 4094) [9]) v8) /\
  reads (sp_cr3 child) 1 (page + 4094) v9 [9] = true.
Proof.
  pose proof demo_run as H. apply all_true in H. unfold demo_checks in H. cbv zeta in H. cbn [all_of] in H.
  do 25 apply proj2 in H. destruct H as (K5 & R5 & S5 & A8 & S8 & A9 & R9 & _).
  assert (in_u64 (page + 4094) /\ in_u64 (Z.of_nat 1)) as [U3 U4] by settle.
  exact (conj (conj K5 R5) (conj (conj A8 (protect_pre 200 page 8192 true false _ S5 demo_range))
    (conj (conj A9 (write_pre 200 _ [9] _ S8 U3 U4)) R9))).
Qed.

Lemma answers_ok op v r : answers op v r = true -> fst <$> vx op v = Some (r, []).
Proof. apply bool_decide_eq_true_1. Qed.

Lemma space_is_lookup a v s : space_is a v s = true -> vs_spaces v !! a = s.
Proof. apply bool_decide_eq_true_1. Qed.

Lemma reads_ok cr3 n va v bytes : reads cr3 n va v bytes = true -> read_bytes cr3 n va (vs_mach v) = (0, bytes).
Proof. apply bool_decide_eq_true_1. Qed.

Lemma run_2 : vm_run true 4096 0 1 (vm_start vm_demo) (([] ++ [o1]) ++ [o2]) v2.
Proof.
  destruct demo_facts as ([A1 P1] & [A2 P2] & _).
  apply (run_next ([] ++ [o1]) o2 _ v1 (300, [])); [|exact P2|exact (answers_ok _ _ _ A2)]. apply (run_next [] o1 _ _ (200, [])); [constructor|exact P1|exact (answers_ok _ _ _ A1)].
Qed.

Lemma pre_3 : vm_pre 4096 1 o3 v2.
Proof. destruct demo_facts as (_ & _ & [_ P3] & _). exact P3. Qed.

Lemma run_4 : vm_run true 4096 0 1 (vm_start vm_demo) (((([] ++ [o1]) ++ [o2]) ++ [o3]) ++ [o4]) v4.
Proof.
  destruct demo_facts as (_ & _ & [A3 P3] & [A4 P4] & _).
  apply (run_next _ o4 _ v3 (0, [])); [|exact P4|exact (answers_ok _ _ _ A4)]. apply (run_next _ o3 _ v2 (0, [])); [apply run_2|exact P3|exact (answers_ok _ _ _ A3)].
Qed.

Lemma frame_0 : is_frame 0.
Proof. settle. Qed.

Lemma vm_refines_witness : exists S U r bytes v' S' U', vm_state_inv 4096 1 S U v2 /\
    vx o3 v2 = Some (r, bytes, v') /\ vm_state_inv 4096 1 S' U' v' /\
    vm_effect true v2 o3 r bytes U (vs_mach v2) U' (vs_mach v') (vs_held v') /\
    keeps_bytes o3 U (vs_held v2) U' (vs_held v') (vs_mach v2) (vs_mach v').
Proof.
  exact (vm_refines true 4096 0 1 vm_demo (([] ++ [o1]) ++ [o2]) v2 o3 vm_demo_wf frame_0 run_2 pre_3).
Defined.

Lemma vm_frames_counted_witness : exists (S : spaces) (U : user_pages),
    (forall cr3, is_Some (S !! cr3) <-> exists a sp, vs_spaces v4 !! a = Some sp /\ sp_cr3 sp = cr3) /\
    (forall cr3 G, S !! cr3 = Some G -> space_wf G cr3 (vs_mach v4)) /\
    (forall cr3 n e, U !! (cr3, n) = Some e <->
       is_Some (S !! cr3) /\ 0 <= n < 2 ^ 36 /\ view cr3 (vs_mach v4) n = e /\ is_user e = true) /\
    (forall f, f ∈ mapped U -> f <> 0 /\ ~ is_table S f /\
       frames (pm (vs_mach v4)) !! f = Some (Used (Z.of_nat (multiplicity f (mapped U))))) /\
    (forall t, is_table S t -> frames (pm (vs_mach v4)) !! t = Some (Used 1)) /\
    (forall f, f ∈ vs_held v4 -> f ∉ mapped U /\ frames (pm (vs_mach v4)) !! f = Some (Used 1)).
Proof.
  exact (vm_frames_counted true 4096 0 1 vm_demo (((([] ++ [o1]) ++ [o2]) ++ [o3]) ++ [o4]) v4 vm_demo_wf frame_0 run_4).
Defined.

Lemma parent_4 : vs_spaces v4 !! 200 = Some parent.
Proof. destruct demo_facts as (_ & _ & _ & _ & [P4 _] & _). exact (space_is_lookup _ _ _ P4). Qed.

Lemma child_4 : vs_spaces v4 !! 300 = Some child.
Proof. destruct demo_facts as (_ & _ & _ & _ & (_ & K4 & _) & _). exact (space_is_lookup _ _ _ K4). Qed.

Lemma vm_copy_equivalent_witness :
  read_bytes (sp_cr3 parent) 3 (page + 4094) (vs_mach v4) = (0, [1; 2; 3]) /\
  vm_read_user (Some (sp_cr3 parent)) (page + 4094) 3 (vs_mach v4) =
    Some (if page + 4094 + 3 <? 2 ^ 64 then read_bytes (sp_cr3 parent) (Z.to_nat 3) (page + 4094) (vs_mach v4) else (-1, [])).
Proof.
  split; [exact (reads_ok _ _ _ _ _ (proj2 (proj2 (proj1 (proj2 (proj2 (proj2 (proj2 demo_facts))))))))|].
  assert (in_u64 (page + 4094)) as Hva by settle. assert (in_u64 3) as Hlen by settle.
  exact (proj1 (vm_copy_equivalent true 4096 0 1 vm_demo (((([] ++ [o1]) ++ [o2]) ++ [o3]) ++ [o4]) v4 200 parent
    vm_demo_wf frame_0 run_4 parent_4 (page + 4094) Hva) 3 Hlen).
Defined.

Lemma unshared_4 : unshared parent (page / 4096) (page_count page 8192) v4.
Proof.
  destruct demo_facts as (_ & _ & _ & _ & _ & _ & _ & _ & _ & _ & _ & Q4).
  destruct (reached true 4096 0 1 frame_0 vm_demo _ v4 vm_demo_wf run_4) as (S & U & Hv).
  refine (unshared_check S U v4 parent _ _ 200 Hv parent_4 _ Q4). settle.
Qed.

Lemma run_6 : cow_run true 4096 0 1 300 200 child parent (page / 4096) (page_count page 8192) v5 v6.
Proof.
  destruct demo_facts as (_ & _ & _ & _ & _ & _ & [A6 P6] & _).
  exact (cow_snoc true 4096 0 1 300 200 child parent _ _ v5 v5 _ 0 [] v6 (cow_refl _ _ _ _ _ _ _ _ _ _ v5) P6 I (next_exec _ _ _ (answers_ok _ _ _ A6))).
Qed.

Lemma vm_fork_isolated_witness :
  read_bytes (sp_cr3 parent) 2 (page + 4094) (vs_mach v6) = (0, [1; 2]) /\
  read_bytes (sp_cr3 child) 2 (page + 4094) (vs_mach v7) = (0, [9; 2]) /\
  read_bytes (sp_cr3 parent) 2 (page + 4094) (vs_mach v7) = read_bytes (sp_cr3 parent) 2 (page + 4094) (vs_mach v6).
Proof.
  destruct demo_facts as (_ & _ & _ & _ & _ & [H5 pre_5] & _ & [H7 Hpre] & Hp & R6 & R7 & _). split; [exact (reads_ok _ _ _ _ _ R6)|]. split; [exact (reads_ok _ _ _ _ _ R7)|].
  apply answers_ok in H5, H7.
  assert (op_actor (VWrite 300 (page + 4094) [9]) <> Some 200) as Hne by (intros [=]).
  assert (forall j, page + 4094 <= j < page + 4094 + Z.of_nat 2 ->
    page / 4096 <= page_number j < page / 4096 + Z.of_nat (page_count page 8192)) as Hin.
  { intros j Hj. assert (j = page + 4094 \/ j = page + 4095) as [->| ->] by (simpl in Hj; lia); settle. }
  exact (proj1 (proj2 (vm_fork_isolated true 4096 0 1 vm_demo (((([] ++ [o1]) ++ [o2]) ++ [o3]) ++ [o4]) v4 300 200 child parent
    page 8192 false v5 vm_demo_wf frame_0 run_4 child_4 parent_4 pre_5 (next_exec _ _ _ H5) unshared_4)
    v6 (VWrite 300 (page + 4094) [9]) 0 [] v7 run_6 Hpre I (next_exec _ _ _ H7)) 200 parent (or_intror (conj eq_refl eq_refl)) Hne 2%nat (page + 4094) Hin).
Defined.

(** A defect: protecting the range writable again, as [mprotect] does, makes the
    shared frames writable without copying them; a write of the parent is then
    read by the child. *)
Theorem vm_protect_breaks_cow : exists ops a d sd va v v',
  vm_run true 4096 0 1 (vm_start vm_demo) (ops ++ [VShareCow d a page 8192 false]) v /\ vs_spaces v !! d = Some sd /\
  vm_run true 4096 0 1 v (([] ++ [VProtect a page 8192 true false]) ++ [VWrite a va [9]]) v' /\
  read_bytes (sp_cr3 sd) 1 va (vs_mach v) = (0, [1]) /\ read_bytes (sp_cr3 sd) 1 va (vs_mach v') = (0, [9]).
Proof.
  destruct demo_facts as (_ & _ & _ & _ & _ & [A5 P5] & _). destruct protect_facts as ([K5 R5] & [A8 P8] & [A9 P9] & R9).
  exists (((([] ++ [o1]) ++ [o2]) ++ [o3]) ++ [o4]), 200, 300, child, (page + 4094), v5, v9.
  split; [exact (run_next _ _ _ v4 (0, []) run_4 P5 (answers_ok _ _ _ A5))|]. split; [exact (space_is_lookup _ _ _ K5)|].
  split; [|split; [exact (reads_ok _ _ _ _ _ R5)|exact (reads_ok _ _ _ _ _ R9)]].
  exact (run_next _ _ _ v8 (0, []) (run_next _ _ _ v5 (0, []) (run_nil _ _ _ _ v5) P8 (answers_ok _ _ _ A8)) P9 (answers_ok _ _ _ A9)).
Qed.
