(* ===== verification/Buffer.v ===== *)
(** * Shared buffers (kernel/buffer.c) and the bytes of messages

    A buffer is a fixed number of bytes in the kernel that tasks read and write
    through handles; servers receive paths and file contents in them.  This file
    has the operations of kernel/buffer.c on the bytes, the copy loops of the
    system calls in arch/x86_64/user.c, and the encodings of the user library
    (user/include/bunix/syscall.h) that servers apply to the bytes.  The
    references to a buffer are counted in [Handles]. *)
From stdpp Require Import gmap list strings.
From Stdlib Require Import ZArith Lia ZifyBool Ascii.
From S2P Require Import Prelude.

Open Scope Z_scope.
Open Scope machine_scope.

Definition BUFFER_MAX_SIZE : Z := 2097152.
Definition LINUX_MAX_SYSCALL_BUFFER : Z := 65536.

Record shared_buffer := mk_buffer { buf_size : Z; buf_data : list Z }.

(** The flags say which of the two allocations succeed. *)
Definition buffer_create (size : Z) (object_ok data_ok : bool) : option shared_buffer :=
  if (size =? 0) || (BUFFER_MAX_SIZE <? size) then None
  else if negb object_ok then None
  else if negb data_ok then None
  else Some (mk_buffer size (replicate (Z.to_nat size) 0)).

Definition slice (off len : Z) (l : list Z) : list Z := take (Z.to_nat len) (drop (Z.to_nat off) l).

(** [src] at [off] in a list that is long enough. *)
Definition splice (off : Z) (src l : list Z) : list Z :=
  take (Z.to_nat off) l ++ src ++ drop (Z.to_nat off + length src) l.

Definition buffer_read (b : shared_buffer) (offset len : Z) : option (list Z) :=
  if (buf_size b <? offset) || (buf_size b - offset <? len) then None
  else Some (slice offset len (buf_data b)).

Definition buffer_write (b : shared_buffer) (offset : Z) (src : list Z) : option shared_buffer :=
  if (buf_size b <? offset) || (buf_size b - offset <? Z.of_nat (length src)) then None
  else Some (mk_buffer (buf_size b) (splice offset src (buf_data b))).

(** The loops of the system calls: the bytes that reach the caller, and the
    buffer after the write; the caller's memory is mapped. *)
Fixpoint read_chunks (fuel : nat) (b : shared_buffer) (offset len done : Z) : option (Z * list Z) :=
  match fuel with
  | O => None
  | S fuel =>
      if done <? len then
        let chunk := Z.min (len - done) LINUX_MAX_SYSCALL_BUFFER in
        match buffer_read b (offset +w done) chunk with
        | None => Some (-1, [])
        | Some bytes =>
            '(rc, rest) ← read_chunks fuel b offset len (done + chunk);
            Some (rc, bytes ++ rest)
        end
      else Some (0, [])
  end.

Fixpoint write_chunks (fuel : nat) (b : shared_buffer) (offset : Z) (src : list Z) (done : Z) : option (Z * shared_buffer) :=
  let len := Z.of_nat (length src) in
  match fuel with
  | O => None
  | S fuel =>
      if done <? len then
        let chunk := Z.min (len - done) LINUX_MAX_SYSCALL_BUFFER in
        match buffer_write b (offset +w done) (slice done chunk src) with
        | None => Some (-1, b)
        | Some b => write_chunks fuel b offset src (done + chunk)
        end
      else Some (0, b)
  end.

Definition chunk_rounds (len : Z) : nat := Z.to_nat (len / LINUX_MAX_SYSCALL_BUFFER + 2).

Definition buffer_read_loop (b : shared_buffer) (offset len : Z) : option (Z * list Z) :=
  read_chunks (chunk_rounds len) b offset len 0.

Definition buffer_write_loop (b : shared_buffer) (offset : Z) (src : list Z) : option (Z * shared_buffer) :=
  write_chunks (chunk_rounds (Z.of_nat (length src))) b offset src 0.

(** ** Encodings *)

(** [for (i = 0; i < 8; i++) buffer[offset + i] = (value >> (i * 8)) & 0xff] *)
Definition bunix_store_u64_le (value : Z) : list Z :=
  (fun i => Z.land (Z.shiftr value (8 * Z.of_nat i)) 255) <$> seq 0 8.

Definition bunix_load_u64_le (bytes : list Z) (offset : Z) : Z :=
  foldr (fun i acc => Z.lor (Z.shiftl (nth (Z.to_nat offset + i) bytes 0) (8 * Z.of_nat i)) acc) 0 (seq 0 8).

(** The string that starts at the first byte. *)
Fixpoint cstring (bytes : list Z) : string :=
  match bytes with
  | [] => ""
  | b :: bytes => if b =? 0 then "" else String (ascii_of_N (Z.to_N b)) (cstring bytes)
  end.

Fixpoint string_bytes (s : string) : list Z :=
  match s with
  | EmptyString => []
  | String c s => Z.of_N (N_of_ascii c) :: string_bytes s
  end.

(** ** Properties *)

Definition buffer_wf (b : shared_buffer) : Prop := buf_size b = Z.of_nat (length (buf_data b)) /\ buf_size b <= BUFFER_MAX_SIZE.

Definition byte (b : Z) : Prop := 0 <= b < 256.

Lemma create_wf size o d b : 0 <= size -> buffer_create size o d = Some b -> buffer_wf b /\ buf_size b = size.
Proof.
  intros H. unfold buffer_create. case_if. destruct o, d; simpl; try done. intros [= <-]. bool_facts.
  unfold buffer_wf. simpl. rewrite length_replicate. lia.
Qed.

Lemma slice_length off len (l : list Z) : 0 <= off -> 0 <= len -> off + len <= Z.of_nat (length l) -> length (slice off len l) = Z.to_nat len.
Proof. intros. unfold slice. rewrite length_take, length_drop. lia. Qed.

Lemma slice_app off a b (l : list Z) : 0 <= off -> 0 <= a -> 0 <= b -> slice off a l ++ slice (off + a) b l = slice off (a + b) l.
Proof.
  intros. unfold slice. rewrite (Z2Nat.inj_add a b), (Z2Nat.inj_add off a) by lia.
  rewrite <- drop_drop. by rewrite take_take_drop.
Qed.

Lemma slice_0 off (l : list Z) : slice off 0 l = [].
Proof. done. Qed.

Lemma splice_length off src l : 0 <= off -> off + Z.of_nat (length src) <= Z.of_nat (length l) -> length (splice off src l) = length l.
Proof. intros. unfold splice. rewrite !length_app, length_take, length_drop. lia. Qed.

Lemma splice_nil off l : splice off [] l = l.
Proof. unfold splice. simpl. by rewrite Nat.add_0_r, take_drop. Qed.

Lemma splice_lookup off src l i : 0 <= off -> off + Z.of_nat (length src) <= Z.of_nat (length l) ->
  splice off src l !! i = if decide (Z.to_nat off <= i < Z.to_nat off + length src)%nat then src !! (i - Z.to_nat off)%nat else l !! i.
Proof.
  intros H0 H1. unfold splice. assert (length (take (Z.to_nat off) l) = Z.to_nat off) as Ht by (rewrite length_take; lia).
  destruct (decide (i < Z.to_nat off)%nat) as [Hi|Hi].
  - rewrite lookup_app_l by lia. rewrite lookup_take_lt by lia. by rewrite decide_False by lia.
  - rewrite lookup_app_r by lia. rewrite Ht. destruct (decide (i - Z.to_nat off < length src)%nat) as [Hj|Hj].
    + rewrite lookup_app_l by lia. by rewrite decide_True by lia.
    + rewrite lookup_app_r, lookup_drop by lia. rewrite decide_False by lia. f_equal. lia.
Qed.

Lemma splice_app off a b l : 0 <= off -> off + Z.of_nat (length a) + Z.of_nat (length b) <= Z.of_nat (length l) ->
  splice (off + Z.of_nat (length a)) b (splice off a l) = splice off (a ++ b) l.
Proof.
  intros H0 H1. apply list_eq. intros i. rewrite splice_lookup, splice_lookup, splice_lookup; rewrite ?length_app;
    try (rewrite splice_length by lia); try lia.
  repeat case_decide; try lia; rewrite ?lookup_app_l, ?lookup_app_r by lia; try done; f_equal; lia.
Qed.

Lemma slice_splice off src l : 0 <= off -> off + Z.of_nat (length src) <= Z.of_nat (length l) ->
  slice off (Z.of_nat (length src)) (splice off src l) = src.
Proof.
  intros H0 H1. unfold slice, splice. rewrite drop_app_le by (rewrite length_take; lia).
  rewrite drop_ge by (rewrite length_take; lia). simpl. rewrite Nat2Z.id. by rewrite take_app_length.
Qed.

Lemma read_chunks_ok b offset len : buffer_wf b -> in_u64 offset -> in_u64 len -> forall fuel done,
  0 <= done <= len -> (done = 0 \/ offset + done <= buf_size b) -> len - done <= LINUX_MAX_SYSCALL_BUFFER * (Z.of_nat fuel - 1) ->
  exists k, 0 <= k <= len - done /\
    read_chunks fuel b offset len done =
      Some (if decide (done = len \/ offset + len <= buf_size b) then 0 else -1, slice (offset + done) k (buf_data b)) /\
    (if decide (done = len \/ offset + len <= buf_size b) then k = len - done else k < len - done).
Proof.
  intros [Hs Hm] Ho Hl. induction fuel as [|fuel IH]; intros done Hd Hb Hf; unfold LINUX_MAX_SYSCALL_BUFFER in *; [lia|].
  simpl. destruct (Z.ltb_spec done len) as [Hlt|]; [|exists 0; split; [lia|]; rewrite !decide_True by lia; split; [done|lia]].
  unfold in_u64, BUFFER_MAX_SIZE in *.
  assert (offset +w done = offset + done) as -> by (apply u64_small; unfold in_u64; lia).
  unfold LINUX_MAX_SYSCALL_BUFFER. set (chunk := Z.min (len - done) 65536). assert (0 < chunk <= len - done) as Hc by lia.
  unfold buffer_read. destruct (Z.ltb_spec (buf_size b) (offset + done)) as [H1|H1]; simpl.
  { exists 0. split; [lia|]. rewrite !decide_False by lia. split; [done|lia]. }
  destruct (Z.ltb_spec (buf_size b - (offset + done)) chunk) as [H2|H2].
  { exists 0. split; [lia|]. rewrite !decide_False by lia. split; [done|lia]. }
  destruct (IH (done + chunk)) as (k & Hk & -> & Hr); [lia|lia|lia|]. simpl. exists (chunk + k). split; [lia|].
  rewrite Z.add_assoc, slice_app by lia.
  destruct (decide (done + chunk = len \/ offset + len <= buf_size b)) as [Hx|Hx].
  - rewrite !decide_True by lia. split; [done|lia].
  - rewrite !decide_False by lia. split; [done|lia].
Qed.

Lemma chunk_rounds_ok len : 0 <= len -> len <= LINUX_MAX_SYSCALL_BUFFER * (Z.of_nat (chunk_rounds len) - 1).
Proof.
  intros H. unfold chunk_rounds, LINUX_MAX_SYSCALL_BUFFER. pose proof (Z.div_mod len 65536 ltac:(lia)).
  pose proof (Z.mod_pos_bound len 65536 ltac:(lia)). assert (0 <= len / 65536) by (apply Z.div_pos; lia). lia.
Qed.

(** Reading through the system call: all bytes, or an error after whole chunks. *)
Lemma sys_read_ok b offset len : buffer_wf b -> in_u64 offset -> in_u64 len ->
  exists k, 0 <= k <= len /\
    buffer_read_loop b offset len =
      Some (if decide (len = 0 \/ offset + len <= buf_size b) then 0 else -1, slice offset k (buf_data b)) /\
    (if decide (len = 0 \/ offset + len <= buf_size b) then k = len else k < len).
Proof.
  intros Hb Ho Hl. pose proof (chunk_rounds_ok len ltac:(unfold in_u64 in *; lia)) as Hc. unfold in_u64 in Hl.
  destruct (read_chunks_ok b offset len Hb Ho Hl (chunk_rounds len) 0) as (k & Hk & He & Hr); [lia|by left|lia|].
  rewrite Z.sub_0_r, Z.add_0_r in *. exists k. split; [done|]. unfold buffer_read_loop. rewrite He.
  destruct (decide (0 = len \/ offset + len <= buf_size b)); destruct (decide (len = 0 \/ offset + len <= buf_size b)); try lia; done.
Qed.

Lemma write_wf b offset src b' : buffer_wf b -> 0 <= offset -> buffer_write b offset src = Some b' ->
  buffer_wf b' /\ buf_size b' = buf_size b /\ buf_data b' = splice offset src (buf_data b) /\
  offset + Z.of_nat (length src) <= buf_size b.
Proof.
  intros [Hs Hm] H0. unfold buffer_write. case_if. intros [= <-]. unfold buffer_wf. simpl.
  rewrite splice_length by lia. split; [done|]. split; [done|]. split; [done|lia].
Qed.

Lemma write_chunks_ok offset src : in_u64 offset -> forall fuel b done, buffer_wf b ->
  0 <= done <= Z.of_nat (length src) -> (done = 0 \/ offset + done <= buf_size b) ->
  Z.of_nat (length src) - done <= LINUX_MAX_SYSCALL_BUFFER * (Z.of_nat fuel - 1) ->
  exists k b', done <= k <= Z.of_nat (length src) /\ buffer_wf b' /\ buf_size b' = buf_size b /\
    write_chunks fuel b offset src done =
      Some (if decide (done = Z.of_nat (length src) \/ offset + Z.of_nat (length src) <= buf_size b) then 0 else -1, b') /\
    buf_data b' = splice (offset + done) (slice done (k - done) src) (buf_data b) /\
    (k = done \/ offset + k <= buf_size b) /\
    (if decide (done = Z.of_nat (length src) \/ offset + Z.of_nat (length src) <= buf_size b) then k = Z.of_nat (length src)
     else k < Z.of_nat (length src)).
Proof.
  intros Ho. set (len := Z.of_nat (length src)).
  induction fuel as [|fuel IH]; intros b done Hb Hd Hle Hf; unfold LINUX_MAX_SYSCALL_BUFFER in *; [lia|].
  destruct Hb as [Hs Hm]. simpl. fold len. destruct (Z.ltb_spec done len) as [Hlt|].
  2: { exists done, b. rewrite !decide_True, Z.sub_diag, slice_0, splice_nil by lia. repeat split; try done; lia. }
  unfold in_u64, BUFFER_MAX_SIZE in *.
  assert (offset +w done = offset + done) as -> by (apply u64_small; unfold in_u64; lia).
  unfold LINUX_MAX_SYSCALL_BUFFER. set (chunk := Z.min (len - done) 65536). assert (0 < chunk <= len - done) as Hc by lia.
  assert (length (slice done chunk src) = Z.to_nat chunk) as Hsl by (apply slice_length; lia).
  unfold buffer_write. rewrite Hsl, Z2Nat.id by lia.
  destruct (Z.ltb_spec (buf_size b) (offset + done)) as [H1|H1]; simpl.
  { exists done, b. rewrite !decide_False, Z.sub_diag, slice_0, splice_nil by lia. repeat split; try done; lia. }
  destruct (Z.ltb_spec (buf_size b - (offset + done)) chunk) as [H2|H2].
  { exists done, b. rewrite !decide_False, Z.sub_diag, slice_0, splice_nil by lia. repeat split; try done; lia. }
  destruct (IH (mk_buffer (buf_size b) (splice (offset + done) (slice done chunk src) (buf_data b))) (done + chunk))
    as (k & b' & Hk & Hw & Hsz & -> & Hdat & Hin & Hr).
  { split; simpl; [|done]. rewrite splice_length; lia. }
  { lia. }
  { simpl. lia. }
  { lia. }
  simpl in *. exists k, b'. split; [lia|]. split; [done|]. split; [done|]. split; [|split; [|split]].
  - f_equal. f_equal. destruct (decide (done + chunk = len \/ _)); destruct (decide (done = len \/ _)); try lia; done.
  - rewrite Hdat. replace (offset + (done + chunk)) with (offset + done + Z.of_nat (length (slice done chunk src))) by lia.
    rewrite splice_app.
    + rewrite slice_app by lia. do 2 f_equal. lia.
    + lia.
    + rewrite Hsl, slice_length by lia. lia.
  - lia.
  - destruct (decide (done + chunk = len \/ _)); destruct (decide (done = len \/ _)); try lia.
Qed.

(** Writing through the system call: all bytes, or an error after whole chunks. *)
Lemma sys_write_ok b offset src : buffer_wf b -> in_u64 offset -> in_u64 (Z.of_nat (length src)) ->
  exists k b', 0 <= k <= Z.of_nat (length src) /\ buffer_wf b' /\ buf_size b' = buf_size b /\
    buffer_write_loop b offset src =
      Some (if decide (src = [] \/ offset + Z.of_nat (length src) <= buf_size b) then 0 else -1, b') /\
    buf_data b' = splice offset (slice 0 k src) (buf_data b) /\ (k = 0 \/ offset + k <= buf_size b) /\
    (if decide (src = [] \/ offset + Z.of_nat (length src) <= buf_size b) then k = Z.of_nat (length src)
     else k < Z.of_nat (length src)).
Proof.
  intros Hb Ho Hl. pose proof (chunk_rounds_ok (Z.of_nat (length src)) ltac:(lia)) as Hc.
  destruct (write_chunks_ok offset src Ho (chunk_rounds (Z.of_nat (length src))) b 0 Hb) as (k & b' & Hk & Hw & Hsz & He & Hd & Hin & Hr);
    [lia|by left|lia|]. rewrite Z.sub_0_r, Z.add_0_r in *. exists k, b'. do 3 (split; [done|]). unfold buffer_write_loop. rewrite He.
  assert (0 = Z.of_nat (length src) <-> src = []) as Hz by (destruct src; simpl; split; (done || lia)).
  destruct (decide (0 = Z.of_nat (length src) \/ _)); destruct (decide (src = [] \/ _)); tauto.
Qed.

(** What was stored is loaded. *)
Lemma load_store v : in_u64 v -> bunix_load_u64_le (bunix_store_u64_le v) 0 = v.
Proof.
  intros [H0 H1]. apply Z.bits_inj'. intros n Hn. unfold bunix_load_u64_le, bunix_store_u64_le. simpl.
  rewrite !Z.lor_spec, !Z.shiftl_spec, !Z.land_spec by done. change 255 with (Z.ones 8).
  rewrite !Z.testbit_ones by lia. rewrite Z.bits_0, orb_false_r.
  assert (forall k, 0 <= k -> Z.testbit (Z.shiftr v k) (n - k) && ((0 <=? n - k) && (n - k <? 8)) =
    Z.testbit v n && ((k <=? n) && (n <? k + 8))) as Hk.
  { intros k H. destruct (Z.leb_spec 0 (n - k)); simpl; [|destruct (Z.leb_spec k n); [lia|]; by rewrite !andb_false_r].
    rewrite Z.shiftr_spec, Z.sub_add by lia. f_equal. lia. }
  rewrite !Hk by lia. destruct (Z.testbit v n) eqn:E; simpl; [|done].
  assert (n < 64); [|lia]. destruct (Z.lt_ge_cases n 64); [done|]. rewrite Z.bits_above_log2 in E; [done|done|].
  destruct (decide (v = 0)) as [->|]; [simpl; lia|]. apply Z.log2_lt_pow2; [lia|].
  apply Z.lt_le_trans with (2 ^ 64); [done|]. apply Z.pow_le_mono_r; lia.
Qed.

Lemma cstring_bytes s rest : cstring (string_bytes s ++ 0 :: rest) = s \/ (exists i, String.get i s = Some zero).
Proof.
  induction s as [|c s IH]; [by left|]. simpl. destruct (Z.eqb_spec (Z.of_N (N_of_ascii c)) 0) as [Hc|Hc].
  - right. exists 0%nat. simpl. f_equal. assert (N_of_ascii c = 0%N) as Hn by lia. rewrite <- (ascii_N_embedding c), Hn. done.
  - destruct IH as [->|[i Hi]]; [left|right; by exists (S i)]. by rewrite N2Z.id, ascii_N_embedding.
Qed.

(** C26: the buffer calls stay inside the buffer.  For every 64-bit offset and
    length, sums that overflow included, the copy loops end; they report success
    exactly when the range is empty or inside the buffer; a write keeps the size
    of the buffer and every byte outside the range. *)
Theorem buffer_access_bounds b offset len src : buffer_wf b -> in_u64 offset -> in_u64 len -> in_u64 (Z.of_nat (length src)) ->
  (exists rc bytes, buffer_read_loop b offset len = Some (rc, bytes) /\ (rc = 0 <-> len = 0 \/ offset + len <= buf_size b)) /\
  exists rc b', buffer_write_loop b offset src = Some (rc, b') /\ (rc = 0 <-> src = [] \/ offset + Z.of_nat (length src) <= buf_size b) /\
    buffer_wf b' /\ buf_size b' = buf_size b /\
    forall i, ~ (Z.to_nat offset <= i < Z.to_nat offset + length src)%nat -> buf_data b' !! i = buf_data b !! i.
Proof.
  intros Hb Ho Hl Hs. split.
  - destruct (sys_read_ok b offset len Hb Ho Hl) as (k & _ & -> & _). eexists _, _. split; [done|]. case_decide; split; (done || lia || tauto).
  - destruct (sys_write_ok b offset src Hb Ho Hs) as (k & b' & Hk & Hwf & Hsz & -> & Hdata & Hin & _). eexists _, b'. split; [done|].
    split; [case_decide; split; (done || tauto)|]. split; [done|]. split; [done|]. intros i Hi. rewrite Hdata. unfold in_u64 in *.
    assert (Z.of_nat (length (slice 0 k src)) = k) as Hlen by (rewrite slice_length; lia).
    destruct Hin as [->|Hin]; [by rewrite slice_0, splice_nil|]. destruct Hb as [Hb _]. rewrite splice_lookup, decide_False by lia. done.
Qed.

Lemma buffer_access_bounds_witness :
  exists rc bytes, buffer_read_loop (mk_buffer 2 [7; 8]) (2 ^ 64 - 1) 2 = Some (rc, bytes) /\ rc <> 0.
Proof.
  destruct (buffer_access_bounds (mk_buffer 2 [7; 8]) (2 ^ 64 - 1) 2 []) as [(rc & bytes & H & Hrc) _]; try (done || (split; simpl; lia)).
  exists rc, bytes. split; [done|]. simpl in Hrc. lia.
Defined.

(** C37: the bytes written to a buffer are read back.  A write that succeeds
    followed by a read of the same range returns exactly the bytes written. *)
Theorem buffer_write_read b offset src b' : buffer_wf b -> in_u64 offset -> in_u64 (Z.of_nat (length src)) ->
  buffer_write_loop b offset src = Some (0, b') -> buffer_read_loop b' offset (Z.of_nat (length src)) = Some (0, src).
Proof.
  intros Hb Ho Hs Hw. destruct (sys_write_ok b offset src Hb Ho Hs) as (k & b1 & Hk & Hwf & Hsz & He & Hdata & _ & Hc).
  rewrite Hw in He. injection He as Hrc ->. case_decide as Hd; [|done]. subst k.
  destruct (sys_read_ok b1 offset (Z.of_nat (length src)) Hwf Ho Hs) as (k & _ & -> & Hk2). rewrite Hsz in *.
  assert (Z.of_nat (length src) = 0 \/ offset + Z.of_nat (length src) <= buf_size b) as Hd' by (destruct Hd as [->|]; [by left|by right]).
  rewrite decide_True in Hk2 by done. rewrite decide_True by done. subst k. destruct Hd as [->|Hd]; [done|]. rewrite Hdata.
  assert (slice 0 (Z.of_nat (length src)) src = src) as -> by (unfold slice; rewrite drop_0, take_ge; [done|lia]).
  destruct Hb as [Hb _]. unfold in_u64 in *. by rewrite slice_splice by lia.
Qed.

Lemma buffer_write_read_witness : buffer_read_loop (mk_buffer 3 [0; 7; 8]) 1 2 = Some (0, [7; 8]).
Proof.
  apply (buffer_write_read (mk_buffer 3 [0; 0; 0]) 1 [7; 8]); [done|unfold in_u64; lia|unfold in_u64; simpl; lia|reflexivity].
Defined.
