(* ===== verification/Dll.v ===== *)
(** * Doubly linked lists through embedded pointers

    Objects that are linked into a list by a [prev] and a [next] field, as in
    user/tmpfs/main.c and user/include/bunix/alloc.h.  The objects are a map from
    addresses; 0 is the null pointer.  The lemmas relate the pointers to the list
    of addresses they link. *)
From stdpp Require Import gmap list.
From Stdlib Require Import ZArith Lia.
From S2P Require Import Prelude.

Open Scope Z_scope.

(** What the list needs of an object. *)
Class Linked (A : Type) := {
  lprev : A -> Z;
  lnext : A -> Z;
  set_lprev : Z -> A -> A;
  set_lnext : Z -> A -> A;
}.

Class LinkedLaws (A : Type) {L : Linked A} := {
  lprev_set_prev x a : lprev (set_lprev x a) = x;
  lnext_set_prev x a : lnext (set_lprev x a) = lnext a;
  lprev_set_next x a : lprev (set_lnext x a) = lprev a;
  lnext_set_next x a : lnext (set_lnext x a) = x;
}.

Section Lists.
Context {A : Type} {L : Linked A} {LL : LinkedLaws A}.
Implicit Types (h : gmap Z A) (l : list Z).

Definition dlink h (a : Z) : option (Z * Z) := (fun n => (lprev n, lnext n)) <$> h !! a.

(** A segment that is entered from [p] and leads to [q]. *)
Fixpoint dseg h (p : Z) l (q : Z) : Prop :=
  match l with
  | [] => True
  | a :: l => dlink h a = Some (p, hd q l) /\ dseg h a l q
  end.

Definition dll h (head : Z) l : Prop := head = hd 0 l /\ NoDup l /\ 0 ∉ l /\ dseg h 0 l 0.

Definition lst (p : Z) l : Z := default p (last l).

Lemma lst_cons p a l : lst p (a :: l) = lst a l.
Proof. unfold lst. destruct l as [|b l]; [done|]. change (last (a :: b :: l)) with (last (b :: l)). by destruct (last (b :: l)) eqn:E; [|apply last_None in E]. Qed.

Lemma dseg_app h l1 : forall p l2 q, dseg h p (l1 ++ l2) q <-> dseg h p l1 (hd q l2) /\ dseg h (lst p l1) l2 q.
Proof.
  induction l1 as [|a l1 IH]; intros p l2 q; simpl; [tauto|]. rewrite IH, lst_cons. destruct l1; simpl; tauto.
Qed.

Lemma dseg_frame h h' l : forall p q, (forall a, a ∈ l -> dlink h' a = dlink h a) -> dseg h p l q -> dseg h' p l q.
Proof.
  induction l as [|a l IH]; intros p q Hf; simpl; [done|]. intros [Ha Hl]. split; [rewrite Hf; [done|set_solver]|].
  apply IH; [|done]. intros b Hb. apply Hf. set_solver.
Qed.

Lemma dll_frame h h' head l : (forall a, a ∈ l -> dlink h' a = dlink h a) -> dll h head l -> dll h' head l.
Proof. intros Hf (H1 & H2 & H3 & H4). do 3 (split; [done|]). by eapply dseg_frame. Qed.

Lemma dseg_live h l : forall p q a, dseg h p l q -> a ∈ l -> is_Some (h !! a).
Proof.
  induction l as [|b l IH]; intros p q a; [set_solver|]. intros [Hb Hl] [->|Ha]%elem_of_cons; [|by eapply IH].
  unfold dlink in Hb. destruct (h !! b); [eauto|done].
Qed.

Lemma dll_live h head l a : dll h head l -> a ∈ l -> is_Some (h !! a).
Proof. intros (_ & _ & _ & Hd). by eapply dseg_live. Qed.

(** The element after another. *)
Lemma dll_next h head l1 a l2 : dll h head (l1 ++ a :: l2) -> exists n, h !! a = Some n /\ lprev n = lst 0 l1 /\ lnext n = hd 0 l2.
Proof.
  intros (_ & _ & _ & [_ [Ha _]]%dseg_app). unfold dlink in Ha. destruct (h !! a) as [n|]; [|done]. exists n.
  injection Ha as H1 H2. done.
Qed.

(** Linking in front. *)
Definition push_front (a : Z) (n : A) (head : Z) h : gmap Z A :=
  let h := <[a := set_lnext head (set_lprev 0 n)]> h in
  if head =? 0 then h else alter (set_lprev a) head h.

Lemma push_front_link a n head h b : head <> a -> dlink (push_front a n head h) b =
  if decide (b = a) then Some (0, head)
  else if decide (b = head /\ head <> 0) then (fun x => (a, x.2)) <$> dlink h b else dlink h b.
Proof.
  intros Hne. unfold push_front, dlink.
  destruct (Z.eqb_spec head 0) as [->|H0]; [|destruct (decide (b = head)) as [->|Hb]].
  - rewrite (decide_False (P := _ /\ _)) by tauto. destruct (decide (b = a)) as [->|].
    + rewrite lookup_insert_eq. simpl. by rewrite lprev_set_next, lnext_set_next, lprev_set_prev.
    + by rewrite lookup_insert_ne.
  - rewrite decide_False, decide_True, lookup_alter_eq, lookup_insert_ne by done.
    destruct (h !! head); simpl; [|done]. by rewrite lprev_set_prev, lnext_set_prev.
  - rewrite lookup_alter_ne by done. rewrite (decide_False (P := _ /\ _)) by tauto. destruct (decide (b = a)) as [->|].
    + rewrite lookup_insert_eq. simpl. by rewrite lprev_set_next, lnext_set_next, lprev_set_prev.
    + by rewrite lookup_insert_ne.
Qed.

Lemma dll_push h head l a n : dll h head l -> a ∉ l -> a <> 0 -> dll (push_front a n head h) a (a :: l).
Proof.
  intros (-> & Hnd & H0 & Hd) Ha Ha0. assert (hd 0 l <> a) as Hne by (destruct l; simpl; set_solver).
  split; [done|]. split; [by constructor|]. split; [set_solver|]. simpl. rewrite push_front_link, decide_True by done.
  split; [done|]. destruct l as [|b l]; [done|]. simpl in *. destruct Hd as [Hb Hl]. rewrite push_front_link by done.
  rewrite decide_False, decide_True by set_solver. rewrite Hb. split; [done|]. eapply dseg_frame; [|done]. intros c Hc.
  rewrite push_front_link by done. rewrite decide_False by set_solver. rewrite decide_False; [done|]. apply NoDup_cons in Hnd as [Hnd _].
  intros [-> _]. done.
Qed.

(** Unlinking. *)
Definition dll_unlink (a : Z) (n : A) h : gmap Z A :=
  let h := if lprev n =? 0 then h else alter (set_lnext (lnext n)) (lprev n) h in
  let h := if lnext n =? 0 then h else alter (set_lprev (lprev n)) (lnext n) h in
  <[a := set_lnext 0 (set_lprev 0 n)]> h.

Lemma dll_unlink_link a n h b : lprev n <> lnext n \/ lprev n = 0 -> dlink (dll_unlink a n h) b =
  if decide (b = a) then Some (0, 0)
  else if decide (b = lprev n /\ b <> 0) then (fun x => (x.1, lnext n)) <$> dlink h b
  else if decide (b = lnext n /\ b <> 0) then (fun x => (lprev n, x.2)) <$> dlink h b else dlink h b.
Proof.
  intros Hne. unfold dll_unlink, dlink. destruct (decide (b = a)) as [->|Hba].
  { rewrite lookup_insert_eq. simpl. by rewrite lprev_set_next, lnext_set_next, lprev_set_prev. }
  rewrite lookup_insert_ne by done. set (p := lprev n) in *. set (q := lnext n) in *.
  destruct (Z.eqb_spec p 0) as [Hp|Hp], (Z.eqb_spec q 0) as [Hq|Hq].
  - by rewrite !decide_False by lia.
  - rewrite (decide_False (P := b = p /\ _)) by lia. destruct (decide _) as [[-> _]|].
    + rewrite lookup_alter_eq. destruct (h !! q); simpl; [|done]. by rewrite lprev_set_prev, lnext_set_prev.
    + by rewrite lookup_alter_ne by lia.
  - destruct (decide _) as [[-> _]|].
    + rewrite lookup_alter_eq. destruct (h !! p); simpl; [|done]. by rewrite lprev_set_next, lnext_set_next.
    + rewrite (decide_False (P := b = q /\ _)) by lia. by rewrite lookup_alter_ne by lia.
  - destruct (decide _) as [[-> _]|].
    + rewrite lookup_alter_ne by lia. rewrite lookup_alter_eq. destruct (h !! p); simpl; [|done]. by rewrite lprev_set_next, lnext_set_next.
    + destruct (decide _) as [[-> _]|].
      * rewrite lookup_alter_eq, lookup_alter_ne by lia. destruct (h !! q); simpl; [|done]. by rewrite lprev_set_prev, lnext_set_prev.
      * by rewrite !lookup_alter_ne by lia.
Qed.

Lemma dll_neighbours h head l1 a l2 n : dll h head (l1 ++ a :: l2) -> h !! a = Some n ->
  lprev n = lst 0 l1 /\ lnext n = hd 0 l2 /\ (lprev n <> lnext n \/ lprev n = 0).
Proof.
  intros Hd Ha. destruct (dll_next h head l1 a l2 Hd) as (n' & Hn' & Hp & Hq). rewrite Ha in Hn'. injection Hn' as <-.
  do 2 (split; [done|]). destruct Hd as (-> & Hnd & H0 & _).
  rewrite Hp, Hq. destruct l1 as [|b l1 _] using rev_ind; [by right|]. left. unfold lst. rewrite last_snoc. simpl.
  destruct l2 as [|c l2]; simpl; [set_solver|]. intros ->. apply NoDup_app in Hnd as (_ & Hx & _). apply (Hx c); set_solver.
Qed.

(** Only the neighbours change. *)
Lemma dll_unlink_out h head l1 a l2 n b : dll h head (l1 ++ a :: l2) -> h !! a = Some n -> b ∉ l1 ++ l2 ->
  dlink (dll_unlink a n h) b = if decide (b = a) then Some (0, 0) else dlink h b.
Proof.
  intros Hd Ha Hb. destruct (dll_neighbours h head l1 a l2 n Hd Ha) as (Hp & Hq & Hne). rewrite dll_unlink_link by done.
  destruct (decide (b = a)); [done|]. rewrite !decide_False; [done|..]; intros [-> H0]; apply Hb, elem_of_app.
  - right. rewrite Hq in *. destruct l2; [done|]. simpl. set_solver.
  - left. rewrite Hp in *. unfold lst in *. destruct (last l1) eqn:E; [|done]. by apply last_Some_elem_of.
Qed.

Lemma dll_unlink_ok h head l1 a l2 n : dll h head (l1 ++ a :: l2) -> h !! a = Some n ->
  dll (dll_unlink a n h) (if lprev n =? 0 then lnext n else head) (l1 ++ l2).
Proof.
  intros Hd Ha. destruct (dll_neighbours h head l1 a l2 n Hd Ha) as (Hp & Hq & Hne).
  destruct Hd as (-> & Hnd & H0 & [H1 [_ H2]]%dseg_app). simpl in H1.
  assert (forall b, b ∈ l1 ++ l2 -> b <> a /\ b <> 0) as Hother.
  { intros b Hb. split; [|set_solver]. intros ->. apply NoDup_app in Hnd as (_ & Hnd & [Hnd2 _]%NoDup_cons).
    apply elem_of_app in Hb as [Hb|Hb]; [|done]. apply (Hnd a Hb). set_solver. }
  assert (NoDup (l1 ++ l2)) as Hnd'.
  { apply NoDup_app in Hnd as (N1 & N2 & N3). apply NoDup_cons in N3 as [_ N3]. apply NoDup_app. split; [done|]. split; [|done].
    intros b Hb Hb2. apply (N2 b Hb). set_solver. }
  split; [|split; [done|split; [intros Hc; by destruct (Hother 0 Hc)|]]].
  { rewrite Hp, Hq. destruct l1 as [|b l1 _] using rev_ind; [done|]. unfold lst. rewrite last_snoc. simpl.
    assert (b <> 0) by (apply Hother; set_solver). decide_tests. by destruct l1. }
  apply dseg_app. split.
  - destruct l1 as [|b l1 _] using rev_ind; [done|]. unfold lst in Hp. rewrite last_snoc in Hp. simpl in Hp.
    apply dseg_app in H1 as [H1 [Hb _]]. apply dseg_app. simpl in *. split; [|split; [|done]].
    + eapply dseg_frame; [|done]. intros c Hc. rewrite dll_unlink_link, decide_False by (try done; apply Hother; set_solver).
      rewrite <- app_assoc in Hnd'. apply NoDup_app in Hnd' as (_ & Hx & _). specialize (Hx c Hc).
      rewrite !decide_False; [done|..]; intros [-> Hc0]; apply Hx; [|set_solver].
      rewrite Hq. destruct l2; [|set_solver]. simpl in *. congruence.
    + destruct (Hother b) as [? ?]; [set_solver|]. rewrite dll_unlink_link, decide_False, decide_True by done. rewrite Hb. simpl. by rewrite Hq.
  - destruct l2 as [|c l2]; [done|]. simpl in *. destruct H2 as [Hc H2]. destruct (Hother c) as [Hca Hc0]; [set_solver|].
    rewrite dll_unlink_link, decide_False, decide_False by (try done; intros [-> _]; destruct Hne; congruence).
    rewrite decide_True, Hc by done. simpl. rewrite Hp. split; [done|]. eapply dseg_frame; [|done]. intros d Hdd.
    rewrite dll_unlink_link, decide_False by (try done; apply Hother; set_solver). apply NoDup_app in Hnd' as (_ & Hx & Hy).
    apply NoDup_cons in Hy as [Hy _]. rewrite !decide_False; [done|..]; intros [-> Hd0]; [congruence|].
    rewrite Hp in Hd0, Hdd. unfold lst in *. destruct (last l1) as [e|] eqn:He; simpl in *; [|done].
    apply (Hx e); [by apply last_Some_elem_of|set_solver].
Qed.

(** Unlinking an object whose other fields have changed. *)
Lemma dll_unlink_update h head l1 a l2 n n' : dll h head (l1 ++ a :: l2) -> h !! a = Some n -> lprev n' = lprev n -> lnext n' = lnext n ->
  dll_unlink a n' (<[a := n']> h) = <[a := set_lnext 0 (set_lprev 0 n')]> (dll_unlink a n h).
Proof.
  intros Hd Ha Hp' Hq'. destruct (dll_neighbours h head l1 a l2 n Hd Ha) as (Hp & Hq & _). destruct Hd as (_ & Hnd & H0 & _).
  apply NoDup_app in Hnd as (_ & N1 & [N2 _]%NoDup_cons). unfold dll_unlink. rewrite Hp', Hq'.
  assert (lprev n = 0 \/ lprev n <> a) as Hpa.
  { rewrite Hp. unfold lst. destruct (last l1) as [b|] eqn:E; [right|by left]. simpl. intros ->. apply last_Some_elem_of in E.
    apply (N1 a E). set_solver. }
  assert (lnext n = 0 \/ lnext n <> a) as Hqa by (rewrite Hq; destruct l2; [by left|right]; simpl; set_solver).
  destruct (Z.eqb_spec (lprev n) 0), (Z.eqb_spec (lnext n) 0); try (destruct Hpa; [done|]); try (destruct Hqa; [done|]);
    rewrite ?alter_insert_ne, ?insert_insert_eq by done; done.
Qed.

Lemma dll_update h head l a n n' : dll h head l -> h !! a = Some n -> lprev n' = lprev n -> lnext n' = lnext n -> dll (<[a := n']> h) head l.
Proof.
  intros Hd Ha Hp Hq. eapply dll_frame; [|done]. intros b _. unfold dlink. destruct (decide (b = a)) as [->|]; [|by rewrite lookup_insert_ne].
  rewrite lookup_insert_eq, Ha. simpl. by rewrite Hp, Hq.
Qed.

(** An object that is in no list. *)
Lemma dll_other h head l a n : dll h head l -> a ∉ l -> dll (<[a := n]> h) head l.
Proof. intros Hd Ha. eapply dll_frame; [|done]. intros b Hb. unfold dlink. rewrite lookup_insert_ne; [done|]. by intros ->. Qed.
End Lists.
