(* ===== verification/Alloc.v ===== *)
(** * The heap of user programs (user/include/bunix/alloc.h)

    A buddy allocator.  Memory comes from the kernel in arenas of one mebibyte,
    whose blocks are split in halves and merged again, and in large blocks that
    are kept for reuse.  Every block starts with a header; free blocks of the
    same order are linked through their headers.

    The headers are a map from addresses; a header that is read has to be
    there.  The bytes the program stores in its blocks are a map of their own.
    Programs overwrite old headers inside their blocks: [scribble] puts
    anything in such a place.  [maps] says which calls of [bunix_task_alloc]
    the kernel satisfies. *)
From stdpp Require Import gmap list.
From Stdlib Require Import ZArith Lia ZifyBool.
From S2P Require Import Prelude Dll.

Open Scope Z_scope.
Open Scope machine_scope.

Module Alloc.

Definition BUNIX_ALLOC_MIN_ORDER : Z := 6.
Definition BUNIX_ALLOC_MAX_ORDER : Z := 20.
Definition BUNIX_ALLOC_ORDERS : Z := BUNIX_ALLOC_MAX_ORDER - BUNIX_ALLOC_MIN_ORDER + 1.
Definition BUNIX_ALLOC_ARENA_SIZE : Z := 2 ^ BUNIX_ALLOC_MAX_ORDER.
Definition BUNIX_ALLOC_HEAP_BASE : Z := 268435456.
Definition BUNIX_ALLOC_MAGIC : Z := 4779812656443903052.

(** [sizeof(struct bunix_alloc_block)] *)
Definition HEADER : Z := 40.

Record alloc_block := mk_block { bk_magic : Z; bk_order : Z; bk_free : Z; bk_prev : Z; bk_next : Z }.

Record heap := mk_heap {
  blocks : gmap Z alloc_block;
  alloc_free : list Z;
  large_free : Z;
  alloc_next : Z;
  bytes : gmap Z Z;
  maps : list bool;
}.

Definition heap_start (oracle : list bool) : heap :=
  mk_heap ∅ (replicate (Z.to_nat BUNIX_ALLOC_ORDERS) 0) 0 BUNIX_ALLOC_HEAP_BASE ∅ oracle.

Definition set_blocks x s := mk_heap x (alloc_free s) (large_free s) (alloc_next s) (bytes s) (maps s).
Definition set_alloc_free x s := mk_heap (blocks s) x (large_free s) (alloc_next s) (bytes s) (maps s).
Definition set_large_free x s := mk_heap (blocks s) (alloc_free s) x (alloc_next s) (bytes s) (maps s).
Definition set_next x s := mk_heap (blocks s) (alloc_free s) (large_free s) x (bytes s) (maps s).
Definition set_bytes x s := mk_heap (blocks s) (alloc_free s) (large_free s) (alloc_next s) x (maps s).
Definition set_maps x s := mk_heap (blocks s) (alloc_free s) (large_free s) (alloc_next s) (bytes s) x.

Definition with_free (f : Z) (b : alloc_block) : alloc_block := mk_block (bk_magic b) (bk_order b) f (bk_prev b) (bk_next b).
Definition with_order (o : Z) (b : alloc_block) : alloc_block := mk_block (bk_magic b) o (bk_free b) (bk_prev b) (bk_next b).
(** [block->magic = BUNIX_ALLOC_MAGIC; block->free = f] *)
Definition marked (f : Z) (b : alloc_block) : alloc_block := mk_block BUNIX_ALLOC_MAGIC (bk_order b) f (bk_prev b) (bk_next b).

#[export] Instance block_linked : Linked alloc_block := {
  lprev := bk_prev;
  lnext := bk_next;
  set_lprev x b := mk_block (bk_magic b) (bk_order b) (bk_free b) x (bk_next b);
  set_lnext x b := mk_block (bk_magic b) (bk_order b) (bk_free b) (bk_prev b) x;
}.

#[export] Instance block_linked_laws : LinkedLaws alloc_block.
Proof. by split. Qed.

(** [bunix_task_alloc(0, base, size, 1)]; the kernel refuses ranges that wrap. *)
Definition bunix_task_alloc (base size : Z) (s : heap) : bool * heap :=
  match maps s with
  | [] => (false, s)
  | ok :: rest => (ok && (base + size <? 2 ^ 64), set_maps rest s)
  end.

Definition bunix_alloc_align (value align : Z) : Z := align_up value align.

(** [while (order < limit && block_size < need) { order++; block_size <<= 1; }] *)
Fixpoint order_loop (fuel : nat) (limit order block_size need : Z) : Z * Z :=
  match fuel with
  | O => (order, block_size)
  | S fuel =>
      if (order <? limit) && (block_size <? need) then order_loop fuel limit (order + 1) (u64 (Z.shiftl block_size 1)) need
      else (order, block_size)
  end.

Definition bunix_alloc_order_for (size : Z) : Z :=
  let need := bunix_alloc_align (size +w HEADER) 16 in
  let '(order, block_size) := order_loop 64 BUNIX_ALLOC_MAX_ORDER BUNIX_ALLOC_MIN_ORDER (Z.shiftl 1 BUNIX_ALLOC_MIN_ORDER) need in
  if need <=? block_size then order else 0.

Definition bunix_alloc_large_order_for (size : Z) : Z :=
  if 2 ^ 64 - 1 - HEADER <? size then 0 else
  let need := bunix_alloc_align (size +w HEADER) 16 in
  if need <? size then 0 else
  let '(order, block_size) := order_loop 64 63 (BUNIX_ALLOC_MAX_ORDER + 1) (Z.shiftl 1 (BUNIX_ALLOC_MAX_ORDER + 1)) need in
  if need <=? block_size then order else 0.

Definition bunix_alloc_index (order : Z) : nat := Z.to_nat (order - BUNIX_ALLOC_MIN_ORDER).

(** Writing through a pointer that is not null needs a header there. *)
Definition reachable (a : Z) (s : heap) : option unit := if a =? 0 then Some tt else _ ← blocks s !! a; Some tt.

Definition bunix_alloc_list_push (block : Z) (s : heap) : option heap :=
  b ← blocks s !! block;
  head ← alloc_free s !! bunix_alloc_index (bk_order b);
  _ ← reachable head s;
  Some (set_alloc_free (<[bunix_alloc_index (bk_order b) := block]> (alloc_free s))
          (set_blocks (push_front block (marked 1 b) head (blocks s)) s)).

Definition bunix_alloc_list_remove (block : Z) (s : heap) : option heap :=
  b ← blocks s !! block;
  _ ← reachable (bk_prev b) s; _ ← reachable (bk_next b) s;
  _ ← alloc_free s !! bunix_alloc_index (bk_order b);
  let s := set_blocks (dll_unlink block (with_free 0 b) (blocks s)) s in
  Some (if bk_prev b =? 0 then set_alloc_free (<[bunix_alloc_index (bk_order b) := bk_next b]> (alloc_free s)) s else s).

Definition bunix_alloc_large_push (block : Z) (s : heap) : option heap :=
  b ← blocks s !! block;
  _ ← reachable (large_free s) s;
  Some (set_large_free block (set_blocks (push_front block (marked 1 b) (large_free s) (blocks s)) s)).

Definition bunix_alloc_large_remove (block : Z) (s : heap) : option heap :=
  b ← blocks s !! block;
  _ ← reachable (bk_prev b) s; _ ← reachable (bk_next b) s;
  let s := set_blocks (dll_unlink block (with_free 0 b) (blocks s)) s in
  Some (if bk_prev b =? 0 then set_large_free (bk_next b) s else s).

(** Memory that was just mapped is zero. *)
Definition bunix_alloc_add_arena (s : heap) : option (Z * heap) :=
  let base := alloc_next s in
  let '(ok, s) := bunix_task_alloc base BUNIX_ALLOC_ARENA_SIZE s in
  if negb ok then Some (-1, s) else
  let s := set_next (alloc_next s +w BUNIX_ALLOC_ARENA_SIZE) s in
  let s := set_blocks (<[base := mk_block BUNIX_ALLOC_MAGIC BUNIX_ALLOC_MAX_ORDER 0 0 0]> (blocks s)) s in
  s ← bunix_alloc_list_push base s; Some (0, s).

(** The first large block that is big enough, or null. *)
Fixpoint large_fit (fuel : nat) (block order : Z) (s : heap) : option Z :=
  match fuel with
  | O => None
  | S fuel =>
      if block =? 0 then Some 0 else
      b ← blocks s !! block;
      if order <=? bk_order b then Some block else large_fit fuel (bk_next b) order s
  end.

Definition bunix_alloc_large (size : Z) (s : heap) : option (Z * heap) :=
  let order := bunix_alloc_large_order_for size in
  let block_size := if order =? 0 then 0 else u64 (Z.shiftl 1 order) in
  if order =? 0 then Some (0, s) else
  block ← large_fit (S (Datatypes.length (map_to_list (blocks s)))) (large_free s) order s;
  if negb (block =? 0) then s ← bunix_alloc_large_remove block s; Some (block +w HEADER, s) else
  let s := set_next (bunix_alloc_align (alloc_next s) block_size) s in
  if 2 ^ 64 - 1 - block_size <? alloc_next s then Some (0, s) else
  let block := alloc_next s in
  let '(ok, s) := bunix_task_alloc block block_size s in
  if negb ok then Some (0, s) else
  let s := set_next (alloc_next s +w block_size) s in
  Some (block +w HEADER, set_blocks (<[block := mk_block BUNIX_ALLOC_MAGIC order 0 0 0]> (blocks s)) s).

(** [for (scan = order; scan <= MAX_ORDER; scan++)]: the head found, or null. *)
Fixpoint scan_free (rounds : nat) (scan : Z) (s : heap) : option Z :=
  match rounds with
  | O => Some 0
  | S rounds =>
      if BUNIX_ALLOC_MAX_ORDER <? scan then Some 0 else
      head ← alloc_free s !! bunix_alloc_index scan;
      if head =? 0 then scan_free rounds (scan + 1) s else Some head
  end.

Fixpoint find_block (fuel : nat) (order : Z) (s : heap) : option (Z * heap) :=
  match fuel with
  | O => None
  | S fuel =>
      block ← scan_free (Z.to_nat BUNIX_ALLOC_ORDERS) order s;
      if negb (block =? 0) then s ← bunix_alloc_list_remove block s; Some (block, s) else
      '(rc, s) ← bunix_alloc_add_arena s;
      if negb (rc =? 0) then Some (0, s) else find_block fuel order s
  end.

Fixpoint split_block (fuel : nat) (block order : Z) (s : heap) : option heap :=
  match fuel with
  | O => None
  | S fuel =>
      b ← blocks s !! block;
      if order <? bk_order b then
        let b := with_order (bk_order b - 1) b in
        let buddy := block +w Z.shiftl 1 (bk_order b) in
        let s := set_blocks (<[block := b]> (blocks s)) s in
        let old := default (mk_block 0 0 0 0 0) (blocks s !! buddy) in
        let s := set_blocks (<[buddy := marked (bk_free old) (with_order (bk_order b) old)]> (blocks s)) s in
        s ← bunix_alloc_list_push buddy s;
        split_block fuel block order s
      else Some s
  end.

Definition bunix_alloc (size : Z) (s : heap) : option (Z * heap) :=
  let order := bunix_alloc_order_for size in
  if order =? 0 then bunix_alloc_large size s else
  '(block, s) ← find_block 2 order s;
  if block =? 0 then Some (0, s) else
  s ← split_block 16 block order s;
  b ← blocks s !! block;
  Some (block +w HEADER, set_blocks (<[block := marked 0 b]> (blocks s)) s).

(** The address of the buddy as [bunix_free] computes it, or [None] when the
    offsets are in different arenas. *)
Definition buddy_of (block order : Z) : option Z :=
  let size := Z.shiftl 1 order in
  let mask := BUNIX_ALLOC_ARENA_SIZE -w 1 in
  let arena_offset := Z.land (block -w BUNIX_ALLOC_HEAP_BASE) mask in
  let buddy_offset := Z.lxor arena_offset size in
  if negb (Z.land arena_offset (not64 mask) =? Z.land buddy_offset (not64 mask)) then None
  else Some (Z.land block (not64 mask) +w buddy_offset).

Fixpoint merge_block (fuel : nat) (block : Z) (s : heap) : option (Z * heap) :=
  match fuel with
  | O => None
  | S fuel =>
      b ← blocks s !! block;
      if bk_order b <? BUNIX_ALLOC_MAX_ORDER then
        match buddy_of block (bk_order b) with
        | None => Some (block, s)
        | Some buddy =>
            o ← blocks s !! buddy;
            if negb (bk_magic o =? BUNIX_ALLOC_MAGIC) || (bk_free o =? 0) || negb (bk_order o =? bk_order b) then Some (block, s) else
            s ← bunix_alloc_list_remove buddy s;
            let block := if buddy <? block then buddy else block in
            b ← blocks s !! block;
            merge_block fuel block (set_blocks (<[block := with_order (bk_order b + 1) b]> (blocks s)) s)
        end
      else Some (block, s)
  end.

Definition bunix_free (ptr : Z) (s : heap) : option heap :=
  if ptr =? 0 then Some s else
  let block := ptr -w HEADER in
  b ← blocks s !! block;
  if negb (bk_magic b =? BUNIX_ALLOC_MAGIC) || negb (bk_free b =? 0) then Some s else
  if BUNIX_ALLOC_MAX_ORDER <? bk_order b then bunix_alloc_large_push block s else
  '(block, s) ← merge_block 16 block s;
  bunix_alloc_list_push block s.

Definition bunix_realloc (ptr old_size new_size : Z) (s : heap) : option (Z * heap) :=
  let copy := if old_size <? new_size then old_size else new_size in
  if ptr =? 0 then bunix_alloc new_size s else
  if new_size =? 0 then s ← bunix_free ptr s; Some (0, s) else
  '(new_ptr, s) ← bunix_alloc new_size s;
  if new_ptr =? 0 then Some (0, s) else
  let s := set_bytes (copy_bytes (Z.to_nat copy) new_ptr ptr (bytes s)) s in
  s ← bunix_free ptr s;
  Some (new_ptr, s).

Definition bunix_calloc (count size : Z) (s : heap) : option (Z * heap) :=
  let total := count *w size in
  if negb (size =? 0) && negb (total / size =? count) then Some (0, s) else
  '(ptr, s) ← bunix_alloc total s;
  if ptr =? 0 then Some (0, s) else
  Some (ptr, set_bytes (zero_bytes (Z.to_nat total) ptr (bytes s)) s).

(** The program stores through its pointer: a byte, and whatever header the
    place looked like. *)
Definition store (a v : Z) (s : heap) : heap := set_bytes (<[a := v]> (bytes s)) s.
Definition scribble (a : Z) (b : option alloc_block) (s : heap) : heap := set_blocks (partial_alter (fun _ => b) a (blocks s)) s.

(** ** Buddies *)

Definition buddy (a k : Z) : Z := if Z.testbit a k then a - 2 ^ k else a + 2 ^ k.

Lemma pow2_pos k : 0 <= k -> 0 < 2 ^ k.
Proof. intros. by apply Z.pow_pos_nonneg. Qed.

Lemma pow2_succ k : 0 <= k -> 2 ^ (k + 1) = 2 * 2 ^ k.
Proof. intros. rewrite Z.pow_add_r by lia. lia. Qed.

Lemma pow2_pred k : 0 < k -> 2 ^ k = 2 * 2 ^ (k - 1).
Proof. intros. rewrite <- pow2_succ by lia. f_equal. lia. Qed.

Lemma pow2_le j k : 0 <= j <= k -> 2 ^ j <= 2 ^ k.
Proof. intros. apply Z.pow_le_mono_r; lia. Qed.

(** Multiples of a power of two. *)
Definition aligned (a k : Z) : Prop := exists q, a = 2 ^ k * q.

Lemma aligned_le a j k : 0 <= j <= k -> aligned a k -> aligned a j.
Proof. intros Hj [q ->]. exists (2 ^ (k - j) * q). rewrite Z.mul_assoc, <- Z.pow_add_r by lia. do 2 f_equal. lia. Qed.

Lemma testbit_multiple k q : 0 <= k -> Z.testbit (2 ^ k * q) k = Z.odd q.
Proof. intros. rewrite Z.mul_comm, Z.mul_pow2_bits, Z.sub_diag by lia. apply Z.bit0_odd. Qed.

Lemma buddy_cases a k : 0 <= k -> aligned a k ->
  (aligned a (k + 1) /\ Z.testbit a k = false /\ buddy a k = a + 2 ^ k) \/
  (aligned (a - 2 ^ k) (k + 1) /\ Z.testbit a k = true /\ buddy a k = a - 2 ^ k).
Proof.
  intros Hk [q ->]. unfold buddy. rewrite testbit_multiple by done. rewrite Zodd_even_bool.
  destruct (Z.even q) eqn:E; simpl; [left|right]; (split; [|done]).
  - apply Z.even_spec in E as [r ->]. exists r. rewrite pow2_succ by done. lia.
  - rewrite <- Z.negb_odd in E. apply negb_false_iff, Z.odd_spec in E as [r ->]. exists r. rewrite pow2_succ by done. lia.
Qed.

Lemma aligned_testbit a k : 0 <= k -> aligned a (k + 1) -> Z.testbit a k = false /\ Z.testbit (a + 2 ^ k) k = true.
Proof.
  intros Hk [q ->]. replace (2 ^ (k + 1) * q) with (2 ^ k * (2 * q)) by (rewrite pow2_succ by done; lia).
  replace (2 ^ k * (2 * q) + 2 ^ k) with (2 ^ k * (2 * q + 1)) by lia. rewrite !testbit_multiple by done.
  rewrite Z.odd_mul, Z.odd_add, Z.odd_mul. done.
Qed.

Lemma buddy_aligned a k : 0 <= k -> aligned a k -> aligned (buddy a k) k.
Proof. intros Hk [q ->]. unfold buddy. destruct (Z.testbit _ _); [exists (q - 1)|exists (q + 1)]; lia. Qed.

Lemma buddy_involutive a k : 0 <= k -> aligned a k -> buddy (buddy a k) k = a.
Proof.
  intros Hk Ha. destruct (buddy_cases a k Hk Ha) as [(H & _ & ->)|(H & _ & ->)]; destruct (aligned_testbit _ k Hk H) as [H1 H2]; unfold buddy.
  - rewrite H2. lia.
  - rewrite H1. lia.
Qed.

(** Two blocks with different starts overlap only when one is inside the other. *)
Lemma aligned_between a j b k : 0 <= j <= k -> aligned a j -> aligned b k -> b < a + 2 ^ j -> a < b -> False.
Proof.
  intros Hj [p ->] Hb H1 H2. apply (aligned_le b j k Hj) in Hb as [q ->]. pose proof (pow2_pos j ltac:(lia)).
  assert (q < p + 1) by nia. assert (p < q) by nia. lia.
Qed.

Lemma aligned_inside a j b k : 0 <= j <= k -> aligned a j -> aligned b k -> b <= a < b + 2 ^ k -> a + 2 ^ j <= b + 2 ^ k.
Proof.
  intros Hj [p ->] [q ->] H. pose proof (pow2_pos j ltac:(lia)). assert (2 ^ k = 2 ^ j * 2 ^ (k - j)) as Hk by (rewrite <- Z.pow_add_r by lia; f_equal; lia).
  rewrite Hk in *. assert (p < 2 ^ (k - j) * (q + 1)) by nia. nia.
Qed.

Lemma lxor_pow2 x k : 0 <= k -> Z.lxor x (2 ^ k) = if Z.testbit x k then x - 2 ^ k else x + 2 ^ k.
Proof.
  intros Hk. assert (forall y, Z.testbit y k = false -> Z.lxor y (2 ^ k) = y + 2 ^ k) as Hclear.
  { intros y Hy. symmetry. apply Z.add_nocarry_lxor. apply Z.bits_inj'. intros n Hn. rewrite Z.land_spec, Z.bits_0, Z.pow2_bits_eqb by done.
    destruct (Z.eqb_spec k n) as [->|]; [by rewrite Hy|by rewrite andb_false_r]. }
  destruct (Z.testbit x k) eqn:E; [|by apply Hclear].
  assert (Z.lxor x (2 ^ k) + 2 ^ k = x) as H; [|lia].
  rewrite <- Hclear; [by rewrite Z.lxor_assoc, Z.lxor_nilpotent, Z.lxor_0_r|].
  rewrite Z.lxor_spec, E, Z.pow2_bits_true by done. done.
Qed.

Lemma buddy_of_eq a k : 0 <= k < 20 -> aligned a k -> BUNIX_ALLOC_HEAP_BASE <= a < 2 ^ 64 -> buddy_of a k = Some (buddy a k).
Proof.
  intros Hk Ha Hb. unfold buddy_of, BUNIX_ALLOC_HEAP_BASE in *.
  change (BUNIX_ALLOC_ARENA_SIZE -w 1) with (Z.ones 20). rewrite Z.shiftl_mul_pow2, Z.mul_1_l by lia.
  rewrite Z.land_ones by lia. rewrite (u64_small (a - 268435456)) by (unfold in_u64; lia).
  replace ((a - 268435456) mod 2 ^ 20) with (a mod 2 ^ 20) by (rewrite <- (Z_mod_plus_full a (-256) (2 ^ 20)); f_equal; lia).
  set (off := a mod 2 ^ 20). pose proof (Z.div_mod a (2 ^ 20) ltac:(lia)) as Hd. fold off in Hd. set (base := a / 2 ^ 20) in *.
  pose proof (Z.mod_pos_bound a (2 ^ 20) ltac:(lia)) as Ho. fold off in Ho.
  assert (Z.testbit off k = Z.testbit a k) as Ht by (unfold off; rewrite Z.mod_pow2_bits_low by lia; done).
  rewrite lxor_pow2, Ht by lia. change (not64 (Z.ones 20)) with (not64 (u64 (2 ^ 20 - 1))).
  assert (0 <= (if Z.testbit a k then off - 2 ^ k else off + 2 ^ k) < 2 ^ 20) as Hr.
  { assert (aligned off k) as Hao.
    { destruct Ha as [q Hq]. exists (q - 2 ^ (20 - k) * base). rewrite Z.mul_sub_distr_l, Z.mul_assoc, <- Z.pow_add_r by lia.
      replace (k + (20 - k)) with 20 by lia. lia. }
    pose proof (aligned_inside off k 0 20 ltac:(lia) Hao ltac:(by exists 0) ltac:(lia)) as Hi.
    destruct (buddy_cases off k ltac:(lia) Hao) as [(He & Hb' & _)|([q Hq] & Hb' & _)]; rewrite Ht in Hb'; rewrite Hb'.
    - pose proof (aligned_inside off (k + 1) 0 20 ltac:(lia) He ltac:(by exists 0) ltac:(lia)) as Hj. rewrite pow2_succ in Hj by lia. pose proof (pow2_pos k). lia.
    - pose proof (pow2_pos k ltac:(lia)). rewrite pow2_succ in Hq by lia. split; [|lia]. assert (-1 < q) by nia. nia. }
  rewrite !land_not64_pow2 by (unfold in_u64; lia). rewrite !(Z.div_small _ (2 ^ 20)) by lia. simpl negb. cbv iota.
  f_equal. fold base. unfold buddy. rewrite u64_small; [|unfold in_u64; destruct (Z.testbit a k); lia]. destruct (Z.testbit a k); lia.
Qed.

(** ** Cells

    The blocks as they divide the memory: the order of the block at an address,
    and whether a program holds it. *)

Notation cells := (gmap Z (Z * bool)).

Record cells_ok (C : cells) (R : gset Z) (limit : Z) : Prop := {
  ck_order a k u : C !! a = Some (k, u) -> 6 <= k <= 63;
  ck_align a k u : C !! a = Some (k, u) -> aligned a k;
  ck_bound a k u : C !! a = Some (k, u) -> BUNIX_ALLOC_HEAP_BASE <= a /\ a + 2 ^ k <= limit;
  ck_apart a k u b j v : C !! a = Some (k, u) -> C !! b = Some (j, v) -> a < b -> a + 2 ^ k <= b;
  ck_arena a k u : C !! a = Some (k, u) -> k <= 20 -> exists r, r ∈ R /\ r <= a < r + 2 ^ 20;
  ck_cover r x : r ∈ R -> r <= x < r + 2 ^ 20 -> exists a k u, C !! a = Some (k, u) /\ k <= 20 /\ a <= x < a + 2 ^ k;
  ck_region r : r ∈ R -> aligned r 20;
  ck_merged a k : C !! a = Some (k, false) -> k < 20 -> C !! buddy a k <> Some (k, false);
  ck_limit : BUNIX_ALLOC_HEAP_BASE <= limit < 2 ^ 64 /\ aligned limit 20;
}.

Section Cells.
Context (C : cells) (R : gset Z) (limit : Z) (Hc : cells_ok C R limit).

Lemma cell_size a k u : C !! a = Some (k, u) -> 64 <= 2 ^ k.
Proof. intros Ha. pose proof (ck_order _ _ _ Hc a k u Ha). change 64 with (2 ^ 6). apply pow2_le. lia. Qed.

(** The address of the buddy is the start of a block that is not larger. *)
Lemma buddy_cell a k u : C !! a = Some (k, u) -> k < 20 -> exists j v, C !! buddy a k = Some (j, v) /\ j <= k.
Proof.
  intros Ha Hk. pose proof (ck_order _ _ _ Hc a k u Ha) as Ho. pose proof (ck_align _ _ _ Hc a k u Ha) as Hal.
  destruct (ck_arena _ _ _ Hc a k u Ha ltac:(lia)) as (r & Hr & Hin). pose proof (ck_region _ _ _ Hc r Hr) as Hra.
  assert (r <= buddy a k < r + 2 ^ 20) as Hb.
  { pose proof (pow2_pos k ltac:(lia)) as Hp. destruct (buddy_cases a k ltac:(lia) Hal) as [(He & _ & ->)|(He & _ & ->)].
    - pose proof (aligned_inside a (k + 1) r 20 ltac:(lia) He Hra Hin) as Hi. rewrite pow2_succ in Hi by lia. lia.
    - assert (r <= a - 2 ^ k); [|lia]. destruct (Z.lt_ge_cases (a - 2 ^ k) r) as [Hlt|]; [|done]. exfalso.
      apply (aligned_between (a - 2 ^ k) (k + 1) r 20); [lia|done|done| |lia]. rewrite pow2_succ by lia. lia. }
  destruct (ck_cover _ _ _ Hc r _ Hr Hb) as (b & j & v & Hbj & Hj & Hx). pose proof (ck_order _ _ _ Hc b j v Hbj) as Hoj.
  pose proof (ck_align _ _ _ Hc b j v Hbj) as Hbal. pose proof (buddy_aligned a k ltac:(lia) Hal) as Hbud. pose proof (pow2_pos k ltac:(lia)) as Hp.
  destruct (Z.le_gt_cases j k) as [Hjk|Hjk].
  - exists j, v. split; [|done]. replace (buddy a k) with b; [done|]. destruct (Z.lt_ge_cases b (buddy a k)); [|lia]. exfalso.
    apply (aligned_between b j (buddy a k) k); [lia|done|done|lia|lia].
  - exfalso. assert (b <= a /\ a + 2 ^ k <= b + 2 ^ j) as [H1 H2].
    { pose proof (aligned_le b (k + 1) j ltac:(lia) Hbal) as Hb1. pose proof (pow2_pos j ltac:(lia)).
      assert (b <= a).
      { destruct (buddy_cases a k ltac:(lia) Hal) as [(He & _ & E)|(He & _ & E)]; rewrite E in *; [|lia].
        destruct (Z.lt_ge_cases a b); [|lia]. exfalso. apply (aligned_between a (k + 1) b j); try done; [lia|]. rewrite pow2_succ by lia. lia. }
      split; [done|].
      assert (a < b + 2 ^ j) as Hlt; [|by apply (aligned_inside a k b j); [lia|..]].
      destruct (buddy_cases a k ltac:(lia) Hal) as [(He & _ & E)|(He & _ & E)]; rewrite E in *; [lia|].
      pose proof (aligned_inside (a - 2 ^ k) (k + 1) b j ltac:(lia) He Hbal ltac:(lia)) as Hi. rewrite pow2_succ in Hi by lia. lia. }
    destruct (Z.eq_dec a b) as [->|Hne]; [rewrite Ha in Hbj; injection Hbj as -> _; lia|].
    pose proof (ck_apart _ _ _ Hc b j v a k u Hbj Ha ltac:(lia)). lia.
Qed.

(** No block starts inside another. *)
Lemma cell_inside a k u b j v : C !! a = Some (k, u) -> C !! b = Some (j, v) -> ~ (a < b < a + 2 ^ k).
Proof. intros Ha Hb H. pose proof (ck_apart _ _ _ Hc a k u b j v Ha Hb ltac:(lia)). lia. Qed.

Lemma use_cell a k : C !! a = Some (k, false) -> cells_ok (<[a := (k, true)]> C) R limit.
Proof.
  intros Ha. assert (forall b j v, <[a := (k, true)]> C !! b = Some (j, v) -> exists v', C !! b = Some (j, v') /\ (v = false -> v' = false)) as Hback.
  { intros b j v [[<- [= <- <-]]|[_ H]]%lookup_insert_Some; [by exists false|by exists v]. }
  constructor.
  - intros b j v (v' & H & _)%Hback. by eapply (ck_order _ _ _ Hc).
  - intros b j v (v' & H & _)%Hback. by eapply (ck_align _ _ _ Hc).
  - intros b j v (v' & H & _)%Hback. by eapply (ck_bound _ _ _ Hc).
  - intros b j v d l w (v' & H & _)%Hback (w' & H' & _)%Hback. by eapply (ck_apart _ _ _ Hc).
  - intros b j v (v' & H & _)%Hback. by eapply (ck_arena _ _ _ Hc).
  - intros r x Hr Hx. destruct (ck_cover _ _ _ Hc r x Hr Hx) as (b & j & v & Hb & Hj & Hin). exists b, j.
    destruct (decide (b = a)) as [->|]; [exists true|exists v]; (split; [|done]); [|by rewrite lookup_insert_ne].
    rewrite Ha in Hb. injection Hb as <- _. by rewrite lookup_insert_eq.
  - apply (ck_region _ _ _ Hc).
  - intros b j [[_ [= _]]|[Hne Hb]]%lookup_insert_Some Hj. intros [[_ [= _]]|[_ H]]%lookup_insert_Some. by apply (ck_merged _ _ _ Hc b j).
  - apply Hc.
Qed.

Lemma free_cell a k : C !! a = Some (k, true) -> (k < 20 -> C !! buddy a k <> Some (k, false)) -> cells_ok (<[a := (k, false)]> C) R limit.
Proof.
  intros Ha Hb. assert (forall b j v, <[a := (k, false)]> C !! b = Some (j, v) -> exists v', C !! b = Some (j, v')) as Hback.
  { intros b j v [[<- [= <- <-]]|[_ H]]%lookup_insert_Some; [by exists true|by exists v]. }
  pose proof (ck_align _ _ _ Hc a k _ Ha) as Hal. pose proof (ck_order _ _ _ Hc a k _ Ha) as Ho.
  constructor.
  - intros b j v (v' & H)%Hback. by eapply (ck_order _ _ _ Hc).
  - intros b j v (v' & H)%Hback. by eapply (ck_align _ _ _ Hc).
  - intros b j v (v' & H)%Hback. by eapply (ck_bound _ _ _ Hc).
  - intros b j v d l w (v' & H)%Hback (w' & H')%Hback. by eapply (ck_apart _ _ _ Hc).
  - intros b j v (v' & H)%Hback. by eapply (ck_arena _ _ _ Hc).
  - intros r x Hr Hx. destruct (ck_cover _ _ _ Hc r x Hr Hx) as (b & j & v & Hbj & Hj & Hin). exists b, j.
    destruct (decide (b = a)) as [->|]; [exists false|exists v]; (split; [|done]); [|by rewrite lookup_insert_ne].
    rewrite Ha in Hbj. injection Hbj as <- _. by rewrite lookup_insert_eq.
  - apply (ck_region _ _ _ Hc).
  - assert (buddy a k <> a) as Hba by (unfold buddy; pose proof (pow2_pos k); destruct (Z.testbit a k); lia).
    intros b j [[<- [= <-]]|[Hne Hbj]]%lookup_insert_Some Hj.
    + rewrite lookup_insert_ne by done. auto.
    + intros [[E [= ->]]|[_ H]]%lookup_insert_Some; [|by apply (ck_merged _ _ _ Hc b j)].
      apply (Hb Hj). rewrite E, buddy_involutive; [done|lia|]. by eapply (ck_align _ _ _ Hc).
  - apply Hc.
Qed.

Lemma split_cell a k : C !! a = Some (k, true) -> 6 < k <= 20 ->
  C !! (a + 2 ^ (k - 1)) = None /\
  cells_ok (<[a + 2 ^ (k - 1) := (k - 1, true)]> (<[a := (k - 1, true)]> C)) R limit.
Proof.
  intros Ha Hk. set (b := a + 2 ^ (k - 1)). pose proof (pow2_pos (k - 1) ltac:(lia)) as Hp. pose proof (pow2_pred k ltac:(lia)) as Hpp.
  assert (forall x j v, C !! x = Some (j, v) -> x <> a -> x + 2 ^ j <= a \/ a + 2 ^ k <= x) as Hother.
  { intros x j v Hx Hne. destruct (Z.lt_ge_cases x a); [left|right]; eapply (ck_apart _ _ _ Hc); try done. lia. }
  assert (C !! b = None) as Hb.
  { destruct (C !! b) as [[j v]|] eqn:E; [|done]. exfalso. pose proof (pow2_pos j). pose proof (ck_order _ _ _ Hc b j v E).
    destruct (Hother b j v E); subst b; lia. }
  split; [done|]. assert (b <> a) as Hba by lia. pose proof (ck_bound _ _ _ Hc a k _ Ha) as Hbd.
  assert (forall x j v, <[b := (k - 1, true)]> (<[a := (k - 1, true)]> C) !! x = Some (j, v) ->
    (x = b /\ j = k - 1 /\ v = true) \/ (x = a /\ j = k - 1 /\ v = true) \/ (x <> a /\ x <> b /\ C !! x = Some (j, v))) as Hback.
  { intros x j v [[<- [= <- <-]]|[H1 [[<- [= <- <-]]|[H2 H]]%lookup_insert_Some]]%lookup_insert_Some; auto. }
  constructor.
  - intros x j v [(-> & -> & _)|[(-> & -> & _)|(_ & _ & H)]]%Hback; [lia|lia|by eapply (ck_order _ _ _ Hc)].
  - intros x j v [(-> & -> & _)|[(-> & -> & _)|(_ & _ & H)]]%Hback; [| |by eapply (ck_align _ _ _ Hc)];
      destruct (ck_align _ _ _ Hc a k _ Ha) as [q Hq]; [exists (2 * q + 1)|exists (2 * q)]; rewrite Hpp in Hq; lia.
  - intros x j v [(-> & -> & _)|[(-> & -> & _)|(_ & _ & H)]]%Hback; [lia|lia|by eapply (ck_bound _ _ _ Hc)].
  - intros x j v y l w Hx Hy Hlt. apply Hback in Hx as [(-> & -> & _)|[(-> & -> & _)|(Hxa & Hxb & Hx)]], Hy as [(-> & -> & _)|[(-> & -> & _)|(Hya & Hyb & Hy)]]; try lia.
    + destruct (Hother y l w Hy Hya); [pose proof (cell_size y l w Hy)|]; lia.
    + destruct (Hother y l w Hy Hya); [pose proof (cell_size y l w Hy)|]; lia.
    + destruct (Hother x j v Hx Hxa); lia.
    + destruct (Hother x j v Hx Hxa); lia.
    + by eapply (ck_apart _ _ _ Hc).
  - intros x j v Hx Hj. destruct (ck_arena _ _ _ Hc a k _ Ha ltac:(lia)) as (r & Hr & Hin). pose proof (ck_region _ _ _ Hc r Hr) as Hra.
    pose proof (aligned_inside a k r 20 ltac:(lia) (ck_align _ _ _ Hc a k _ Ha) Hra Hin).
    apply Hback in Hx as [(-> & -> & _)|[(-> & -> & _)|(_ & _ & H')]]; [exists r; split; [done|lia]|by exists r|by eapply (ck_arena _ _ _ Hc)].
  - intros r x Hr Hx. destruct (ck_cover _ _ _ Hc r x Hr Hx) as (y & j & v & Hy & Hj & Hin). destruct (decide (y = a)) as [->|Hya].
    + rewrite Ha in Hy. injection Hy as <- <-. destruct (Z.lt_ge_cases x b).
      * exists a, (k - 1), true. rewrite lookup_insert_ne, lookup_insert_eq by done. split; [done|lia].
      * exists b, (k - 1), true. rewrite lookup_insert_eq. split; [done|lia].
    + exists y, j, v. rewrite !lookup_insert_ne; [done|done|]. intros <-. congruence.
  - apply (ck_region _ _ _ Hc).
  - intros x j Hx Hj. apply Hback in Hx as [(_ & _ & [=])|[(_ & _ & [=])|(_ & _ & Hx)]]. intros Hy. apply Hback in Hy as [(_ & _ & [=])|[(_ & _ & [=])|(_ & _ & Hy)]].
    by apply (ck_merged _ _ _ Hc x j).
  - apply Hc.
Qed.

Lemma merge_cell a k : C !! a = Some (k, true) -> k < 20 -> C !! buddy a k = Some (k, true) ->
  cells_ok (<[Z.min a (buddy a k) := (k + 1, true)]> (delete (buddy a k) (delete a C))) R limit.
Proof.
  intros Ha Hk Hb. pose proof (ck_order _ _ _ Hc a k _ Ha) as Ho. pose proof (ck_align _ _ _ Hc a k _ Ha) as Hal. pose proof (pow2_pos k ltac:(lia)) as Hp.
  set (c := Z.min a (buddy a k)). set (b := buddy a k) in *.
  assert (aligned c (k + 1) /\ ((c = a /\ b = a + 2 ^ k) \/ (c = b /\ a = b + 2 ^ k))) as [Hca Hcase].
  { subst c b. destruct (buddy_cases a k ltac:(lia) Hal) as [(He & _ & E)|(He & _ & E)]; rewrite E in *.
    - rewrite Z.min_l by lia. split; [done|by left].
    - rewrite Z.min_r by lia. split; [done|right]. lia. }
  pose proof (pow2_succ k ltac:(lia)) as Hs.
  assert (forall x j v, C !! x = Some (j, v) -> x <> a -> x <> b -> x + 2 ^ j <= c \/ c + 2 ^ (k + 1) <= x) as Hother.
  { intros x j v Hx Hxa Hxb. pose proof (cell_size x j v Hx).
    assert (x + 2 ^ j <= a \/ a + 2 ^ k <= x) by (destruct (Z.lt_ge_cases x a); [left|right]; eapply (ck_apart _ _ _ Hc); try done; lia).
    assert (x + 2 ^ j <= b \/ b + 2 ^ k <= x) by (destruct (Z.lt_ge_cases x b); [left|right]; eapply (ck_apart _ _ _ Hc); try done; lia).
    lia. }
  assert (forall x j v, <[c := (k + 1, true)]> (delete b (delete a C)) !! x = Some (j, v) ->
    (x = c /\ j = k + 1 /\ v = true) \/ (x <> a /\ x <> b /\ C !! x = Some (j, v))) as Hback.
  { intros x j v [[<- [= <- <-]]|[H1 [H2 [H3 H]%lookup_delete_Some]%lookup_delete_Some]]%lookup_insert_Some; auto. }
  constructor.
  - intros x j v [(-> & -> & _)|(_ & _ & H)]%Hback; [lia|by eapply (ck_order _ _ _ Hc)].
  - intros x j v [(-> & -> & _)|(_ & _ & H)]%Hback; [done|by eapply (ck_align _ _ _ Hc)].
  - pose proof (ck_bound _ _ _ Hc a k _ Ha). pose proof (ck_bound _ _ _ Hc b k _ Hb).
    intros x j v [(-> & -> & _)|(_ & _ & H')]%Hback; [lia|by eapply (ck_bound _ _ _ Hc)].
  - intros x j v y l w Hx Hy Hlt. apply Hback in Hx as [(-> & -> & _)|(Hxa & Hxb & Hx)], Hy as [(-> & -> & _)|(Hya & Hyb & Hy)]; [lia| | |by eapply (ck_apart _ _ _ Hc)].
    + destruct (Hother y l w Hy Hya Hyb); [pose proof (cell_size y l w Hy)|]; lia.
    + destruct (Hother x j v Hx Hxa Hxb); lia.
  - destruct (ck_arena _ _ _ Hc a k _ Ha ltac:(lia)) as (r & Hr & Hin). destruct (ck_arena _ _ _ Hc b k _ Hb ltac:(lia)) as (r' & Hr' & Hin').
    intros x j v [(-> & -> & _)|(_ & _ & H')]%Hback Hj; [|by eapply (ck_arena _ _ _ Hc)].
    destruct Hcase as [[-> _]|[-> _]]; eauto.
  - intros r x Hr Hx. destruct (ck_cover _ _ _ Hc r x Hr Hx) as (y & j & v & Hy & Hj & Hin).
    destruct (decide (y = a \/ y = b)) as [Hyc|Hyc].
    + exists c, (k + 1), true. rewrite lookup_insert_eq. split; [done|]. assert (j = k) as -> by (destruct Hyc; subst y; congruence). lia.
    + exists y, j, v. split; [|done]. rewrite lookup_insert_ne by (destruct Hcase as [[-> _]|[-> _]]; intros ->; tauto).
      rewrite !lookup_delete_ne; [done|..]; intros ->; tauto.
  - apply (ck_region _ _ _ Hc).
  - intros x j Hx Hj. apply Hback in Hx as [(_ & _ & [=])|(_ & _ & Hx)]. intros Hy. apply Hback in Hy as [(_ & _ & [=])|(_ & _ & Hy)].
    by apply (ck_merged _ _ _ Hc x j).
  - apply Hc.
Qed.

(** Memory above the limit joins the heap, as an arena or as a large block. *)
Lemma new_cell base k : limit <= base -> aligned base k -> 20 <= k <= 63 -> base + 2 ^ k < 2 ^ 64 ->
  C !! base = None /\ cells_ok (<[base := (k, true)]> C) (if k =? 20 then {[base]} ∪ R else R) (base + 2 ^ k).
Proof.
  intros Hl Hal Hk Hfit. pose proof (ck_limit _ _ _ Hc) as [Hlim _]. pose proof (pow2_pos k ltac:(lia)) as Hp.
  assert (C !! base = None) as Hnone.
  { destruct (C !! base) as [[j v]|] eqn:E; [|done]. pose proof (ck_bound _ _ _ Hc base j v E). pose proof (cell_size base j v E). lia. }
  split; [done|].
  assert (forall x j v, <[base := (k, true)]> C !! x = Some (j, v) -> (x = base /\ j = k /\ v = true) \/ (x <> base /\ C !! x = Some (j, v))) as Hback.
  { intros x j v [[<- [= <- <-]]|[H1 H]]%lookup_insert_Some; auto. }
  constructor.
  - intros x j v [(-> & -> & _)|(_ & H)]%Hback; [lia|by eapply (ck_order _ _ _ Hc)].
  - intros x j v [(-> & -> & _)|(_ & H)]%Hback; [done|by eapply (ck_align _ _ _ Hc)].
  - intros x j v [(-> & -> & _)|(_ & H)]%Hback; [lia|]. pose proof (ck_bound _ _ _ Hc x j v H). lia.
  - intros x j v y l w Hx Hy Hlt. apply Hback in Hx as [(-> & -> & _)|(Hxa & Hx)], Hy as [(-> & -> & _)|(Hya & Hy)]; [lia| | |by eapply (ck_apart _ _ _ Hc)].
    + pose proof (ck_bound _ _ _ Hc y l w Hy). pose proof (cell_size y l w Hy). lia.
    + pose proof (ck_bound _ _ _ Hc x j v Hx). lia.
  - intros x j v [(-> & -> & _)|(_ & H)]%Hback Hj.
    + exists base. assert (k = 20) as -> by lia. simpl. split; [set_solver|lia].
    + destruct (ck_arena _ _ _ Hc x j v H Hj) as (r & Hr & Hin). exists r. split; [case_if; set_solver|done].
  - intros r x Hr Hx. assert (r ∈ R \/ (k = 20 /\ r = base)) as [Hr'|[-> ->]] by (case_if; set_solver).
    + destruct (ck_cover _ _ _ Hc r x Hr' Hx) as (y & j & v & Hy & Hj & Hin). exists y, j, v. rewrite lookup_insert_ne; [done|congruence].
    + exists base, 20, true. rewrite lookup_insert_eq. done.
  - intros r Hr. assert (r ∈ R \/ (k = 20 /\ r = base)) as [Hr'|[-> ->]] by (case_if; set_solver); [by apply (ck_region _ _ _ Hc)|done].
  - intros x j Hx Hj. apply Hback in Hx as [(_ & _ & [=])|(_ & Hx)]. intros Hy. apply Hback in Hy as [(_ & _ & [=])|(_ & Hy)].
    by apply (ck_merged _ _ _ Hc x j).
  - split; [lia|]. apply (aligned_le _ 20 k); [lia|]. destruct Hal as [q ->]. exists (q + 1). lia.
Qed.
End Cells.
End Alloc.
