(* ===== verification/AllocHeap.v ===== *)
(** * The heap of user programs: free lists, allocation and release

    The headers and the free lists describe the cells of [Alloc], and each
    operation changes the cells as it should. *)
From stdpp Require Import gmap list.
From Stdlib Require Import ZArith Lia ZifyBool.
From S2P Require Import Prelude Dll Alloc.

Import Alloc.
Open Scope Z_scope.
Open Scope machine_scope.

#[local] Arguments Z.pow : simpl never.
#[local] Arguments bunix_alloc_index : simpl never.

(** ** The invariant *)

(** The list a block of an order is kept in when it is free; 21 for large blocks. *)
Definition class (k : Z) : Z := if k <=? 20 then k else 21.

Definition head_of (s : heap) (c : Z) : Z := if c =? 21 then large_free s else default 0 (alloc_free s !! bunix_alloc_index c).

Definition header_ok (s : heap) (a k : Z) (u : bool) : Prop :=
  exists b, blocks s !! a = Some b /\ bk_magic b = BUNIX_ALLOC_MAGIC /\ bk_order b = k /\ bk_free b = if u then 0 else 1.

Record heap_inv (C : cells) (R : gset Z) (L : Z -> list Z) (s : heap) : Prop := {
  hi_cells : cells_ok C R (alloc_next s);
  hi_header a k u : C !! a = Some (k, u) -> header_ok s a k u;
  hi_length : length (alloc_free s) = 15%nat;
  hi_list c : 6 <= c <= 21 -> dll (blocks s) (head_of s c) (L c);
  hi_free c a : 6 <= c <= 21 -> a ∈ L c <-> exists k, class k = c /\ C !! a = Some (k, false);
}.

Lemma class_range k : 6 <= k -> 6 <= class k <= 21.
Proof. unfold class. case_if; lia. Qed.

Lemma index_bound c (l : list Z) : 6 <= c <= 20 -> length l = 15%nat -> exists x, l !! bunix_alloc_index c = Some x.
Proof. intros Hc Hl. apply lookup_lt_is_Some. unfold bunix_alloc_index, BUNIX_ALLOC_MIN_ORDER. lia. Qed.

Lemma index_inj c d : 6 <= c <= 20 -> 6 <= d <= 20 -> bunix_alloc_index c = bunix_alloc_index d -> c = d.
Proof. unfold bunix_alloc_index, BUNIX_ALLOC_MIN_ORDER. lia. Qed.

Section Heap.
Context (C : cells) (R : gset Z) (L : Z -> list Z) (s : heap) (Hi : heap_inv C R L s).

Lemma free_in_list a k : C !! a = Some (k, false) -> a ∈ L (class k).
Proof. intros Ha. apply (hi_free _ _ _ _ Hi); [|eauto]. pose proof (ck_order _ _ _ (hi_cells _ _ _ _ Hi) a k _ Ha). apply class_range. lia. Qed.

Lemma cell_nonzero a k u : C !! a = Some (k, u) -> 0 < a.
Proof. intros Ha. pose proof (ck_bound _ _ _ (hi_cells _ _ _ _ Hi) a k u Ha). unfold BUNIX_ALLOC_HEAP_BASE in *. lia. Qed.

(** Lists have different elements. *)
Lemma lists_disjoint c d a : 6 <= c <= 21 -> 6 <= d <= 21 -> a ∈ L c -> a ∈ L d -> c = d.
Proof.
  intros Hc Hd (k & <- & Hk)%(hi_free _ _ _ _ Hi c a Hc) (j & <- & Hj)%(hi_free _ _ _ _ Hi d a Hd). rewrite Hk in Hj. by injection Hj as <-.
Qed.

Lemma list_reachable c a : 6 <= c <= 21 -> a = 0 \/ a ∈ L c -> reachable a s = Some tt.
Proof.
  intros Hc Ha. unfold reachable. destruct (Z.eqb_spec a 0); [done|]. destruct Ha as [|Ha]; [done|].
  apply (hi_free _ _ _ _ Hi) in Ha as (k & _ & Hk); [|done]. destruct (hi_header _ _ _ _ Hi a k _ Hk) as (b & -> & _). done.
Qed.

Lemma head_reachable c : 6 <= c <= 21 -> reachable (head_of s c) s = Some tt.
Proof.
  intros Hc. apply (list_reachable c); [done|]. destruct (hi_list _ _ _ _ Hi c Hc) as (-> & _). destruct (L c); [by left|right; left].
Qed.

(** Changes that leave the free blocks alone. *)
Lemma heap_step C' R' s' : cells_ok C' R' (alloc_next s') -> (forall a k u, C' !! a = Some (k, u) -> header_ok s' a k u) ->
  (forall a k, C' !! a = Some (k, false) <-> C !! a = Some (k, false)) ->
  (forall a k, C !! a = Some (k, false) -> dlink (blocks s') a = dlink (blocks s) a) ->
  alloc_free s' = alloc_free s -> large_free s' = large_free s -> heap_inv C' R' L s'.
Proof.
  intros Hc Hh Hf Hd Ea El. constructor; [done|done|by rewrite Ea; apply Hi| |].
  - intros c Hcc. unfold head_of. rewrite Ea, El. eapply dll_frame; [|by apply (hi_list _ _ _ _ Hi)].
    intros a (k & _ & Hk)%(hi_free _ _ _ _ Hi c a Hcc). by apply (Hd a k).
  - intros c a Hcc. rewrite (hi_free _ _ _ _ Hi c a Hcc). split; intros (k & Hk & Ha); exists k; (split; [done|]); by apply Hf.
Qed.

(** Linking a block into its list. *)
Lemma heap_push a k b s' : C !! a = Some (k, true) -> (k < 20 -> C !! buddy a k <> Some (k, false)) -> bk_order b = k ->
  blocks s' = push_front a (marked 1 b) (head_of s (class k)) (blocks s) -> alloc_next s' = alloc_next s -> length (alloc_free s') = 15%nat ->
  (forall c, 6 <= c <= 21 -> head_of s' c = if decide (c = class k) then a else head_of s c) ->
  heap_inv (<[a := (k, false)]> C) R (fun c => if decide (c = class k) then a :: L c else L c) s'.
Proof.
  intros Ha Hb Hk Hbl Hn Hl Hh. pose proof (hi_cells _ _ _ _ Hi) as Hc. pose proof (ck_order _ _ _ Hc a k _ Ha) as Ho. pose proof (class_range k ltac:(lia)) as Hcl.
  assert (forall c, 6 <= c <= 21 -> a ∉ L c) as Hnot by (intros c Hcc (j & _ & Hj)%(hi_free _ _ _ _ Hi c a Hcc); congruence).
  set (head := head_of s (class k)) in *. assert (head = 0 \/ head ∈ L (class k)) as Hhead.
  { destruct (hi_list _ _ _ _ Hi (class k) Hcl) as (E & _). unfold head. rewrite E. destruct (L (class k)); [by left|right; left]. }
  assert (head <> a) as Hha by (intros ->; pose proof (cell_nonzero a k _ Ha); destruct Hhead; [lia|by eapply Hnot]).
  constructor.
  - rewrite Hn. by apply free_cell.
  - intros x j u [[<- [= <- <-]]|[Hne Hx]]%lookup_insert_Some; unfold header_ok; rewrite Hbl; unfold push_front.
    + destruct (Z.eqb_spec head 0); [rewrite lookup_insert_eq|rewrite lookup_alter_ne, lookup_insert_eq by done]; eexists; (split; [done|]); done.
    + destruct (hi_header _ _ _ _ Hi x j u Hx) as (b' & Hb' & H1 & H2 & H3). destruct (Z.eqb_spec head 0); [rewrite lookup_insert_ne by done; eauto|].
      destruct (decide (x = head)) as [->|]; [|rewrite lookup_alter_ne, lookup_insert_ne by done; eauto].
      rewrite lookup_alter_eq, lookup_insert_ne, Hb' by done. simpl. eexists. split; [done|]. done.
  - done.
  - intros c Hcc. rewrite Hh by done. rewrite Hbl. destruct (decide (c = class k)) as [->|Hne].
    + apply dll_push; [by apply (hi_list _ _ _ _ Hi)|by apply Hnot|]. pose proof (cell_nonzero a k _ Ha). lia.
    + eapply dll_frame; [|by apply (hi_list _ _ _ _ Hi)]. intros x Hx. rewrite push_front_link by done.
      rewrite decide_False by (intros ->; by eapply Hnot). rewrite decide_False; [done|]. intros [-> H0]. destruct Hhead as [|Hhead]; [done|].
      by apply Hne, (lists_disjoint c (class k) head).
  - intros c x Hcc. destruct (decide (c = class k)) as [->|Hne].
    + rewrite elem_of_cons, (hi_free _ _ _ _ Hi) by done. split.
      * intros [->|(j & Hj & Hx)]; [exists k; by rewrite lookup_insert_eq|]. exists j. split; [done|]. rewrite lookup_insert_ne; [done|congruence].
      * intros (j & Hj & [[<- _]|[_ Hx]]%lookup_insert_Some); [by left|right; eauto].
    + rewrite (hi_free _ _ _ _ Hi) by done. split.
      * intros (j & Hj & Hx). exists j. split; [done|]. rewrite lookup_insert_ne; [done|congruence].
      * intros (j & Hj & [[<- [= <-]]|[_ Hx]]%lookup_insert_Some); [congruence|eauto].
Qed.

(** Taking a block out of its list. *)
Lemma heap_unlink a k b s' : C !! a = Some (k, false) -> blocks s !! a = Some b ->
  blocks s' = dll_unlink a (with_free 0 b) (blocks s) -> alloc_next s' = alloc_next s -> length (alloc_free s') = 15%nat ->
  (forall c, 6 <= c <= 21 -> head_of s' c = if decide (c = class k) then (if bk_prev b =? 0 then bk_next b else head_of s c) else head_of s c) ->
  exists L', heap_inv (<[a := (k, true)]> C) R L' s'.
Proof.
  intros Ha Hba Hbl Hn Hl Hh. pose proof (hi_cells _ _ _ _ Hi) as Hc. pose proof (ck_order _ _ _ Hc a k _ Ha) as Ho. pose proof (class_range k ltac:(lia)) as Hcl.
  pose proof (free_in_list a k Ha) as Hin. apply list_elem_of_split in Hin as (l1 & l2 & HL).
  pose proof (hi_list _ _ _ _ Hi (class k) Hcl) as Hd. rewrite HL in Hd.
  assert (blocks s' = <[a := set_lnext 0 (set_lprev 0 (with_free 0 b))]> (dll_unlink a b (blocks s))) as Hbl'.
  { rewrite Hbl. unfold dll_unlink. simpl. by rewrite insert_insert_eq. }
  destruct (dll_neighbours _ _ _ _ _ b Hd Hba) as (Hp & Hq & Hne').
  assert (NoDup (l1 ++ a :: l2)) as Hnd by apply Hd.
  assert (a ∉ l1 ++ l2) as Hal.
  { apply NoDup_app in Hnd as (_ & N1 & [N2 _]%NoDup_cons). intros [H|H]%elem_of_app; [apply (N1 a H); left|done]. }
  exists (fun c => if decide (c = class k) then l1 ++ l2 else L c). constructor.
  - rewrite Hn. by apply use_cell.
  - intros x j u [[<- [= <- <-]]|[Hne Hx]]%lookup_insert_Some; unfold header_ok; rewrite Hbl'.
    + rewrite lookup_insert_eq. eexists. split; [done|]. destruct (hi_header _ _ _ _ Hi a k _ Ha) as (b' & Hb' & H1 & H2 & H3). rewrite Hba in Hb'. injection Hb' as <-. done.
    + destruct (hi_header _ _ _ _ Hi x j u Hx) as (b' & Hb' & H1 & H2 & H3). rewrite lookup_insert_ne by done. unfold dll_unlink. rewrite lookup_insert_ne by done.
      assert (exists b'', (if lnext b =? 0 then if lprev b =? 0 then blocks s else alter (set_lnext (lnext b)) (lprev b) (blocks s)
        else alter (set_lprev (lprev b)) (lnext b) (if lprev b =? 0 then blocks s else alter (set_lnext (lnext b)) (lprev b) (blocks s))) !! x = Some b'' /\
        bk_magic b'' = bk_magic b' /\ bk_order b'' = bk_order b' /\ bk_free b'' = bk_free b') as (b'' & E & E1 & E2 & E3).
      { assert (exists b1, (if lprev b =? 0 then blocks s else alter (set_lnext (lnext b)) (lprev b) (blocks s)) !! x = Some b1 /\
          bk_magic b1 = bk_magic b' /\ bk_order b1 = bk_order b' /\ bk_free b1 = bk_free b') as (b1 & E & E1 & E2 & E3).
        { destruct (lprev b =? 0); [by exists b'|]. destruct (decide (x = lprev b)) as [->|]; [|rewrite lookup_alter_ne by done; by exists b'].
          rewrite lookup_alter_eq, Hb'. by eexists. }
        destruct (lnext b =? 0); [by exists b1|]. destruct (decide (x = lnext b)) as [->|]; [|rewrite lookup_alter_ne by done; by exists b1].
        rewrite lookup_alter_eq, E. simpl. eexists. split; [done|]. done. }
      exists b''. split; [done|]. split; [congruence|]. split; [congruence|]. by rewrite E3.
  - done.
  - intros c Hcc. rewrite Hh by done. destruct (decide (c = class k)) as [->|Hne].
    + rewrite Hbl'. apply dll_other; [|done]. exact (dll_unlink_ok (blocks s) (head_of s (class k)) l1 a l2 b Hd Hba).
    + rewrite Hbl'. apply dll_other.
      * eapply dll_frame; [|by apply (hi_list _ _ _ _ Hi)]. intros x Hx.
        rewrite (dll_unlink_out _ _ l1 a l2 b x Hd Hba), decide_False; [done| |].
        -- intros ->. apply Hne. apply (lists_disjoint c (class k) a); [done|done|done|by apply free_in_list].
        -- intros Hin. apply Hne. apply (lists_disjoint c (class k) x); [done|done|done|]. rewrite HL. apply elem_of_app in Hin as [|]; apply elem_of_app; [by left|right; by right].
      * intros Hx. apply Hne. apply (lists_disjoint c (class k) a); [done|done|done|by apply free_in_list].
  - intros c x Hcc. destruct (decide (c = class k)) as [->|Hne].
    + assert (x ∈ l1 ++ l2 <-> x ∈ L (class k) /\ x <> a) as ->.
      { rewrite HL, !elem_of_app, elem_of_cons. split; [|naive_solver]. intros Hx. split; [naive_solver|]. intros ->. apply Hal, elem_of_app. tauto. }
      rewrite (hi_free _ _ _ _ Hi) by done. split.
      * intros [(j & Hj & Hx) Hxa]. exists j. by rewrite lookup_insert_ne.
      * intros (j & Hj & [[<- [=]]|[Hxa Hx]]%lookup_insert_Some). split; [eauto|done].
    + rewrite (hi_free _ _ _ _ Hi) by done. split.
      * intros (j & Hj & Hx). exists j. split; [done|]. rewrite lookup_insert_ne; [done|]. intros <-. congruence.
      * intros (j & Hj & [[<- [=]]|[_ Hx]]%lookup_insert_Some). eauto.
Qed.
End Heap.

(** ** The list operations *)

Definition same (s s' : heap) : Prop := alloc_next s' = alloc_next s /\ bytes s' = bytes s /\ maps s' = maps s.

(** Headers are written only where blocks start. *)
Definition writes_at (C : cells) (s s' : heap) : Prop := forall x, C !! x = None -> blocks s' !! x = blocks s !! x.

Lemma push_front_other a n head (h : gmap Z alloc_block) x : x <> a -> (x = head -> head = 0) -> push_front a n head h !! x = h !! x.
Proof.
  intros Ha Hh. unfold push_front. destruct (Z.eqb_spec head 0); [by rewrite lookup_insert_ne|].
  rewrite lookup_alter_ne, lookup_insert_ne by (try done; intros E; subst; tauto). done.
Qed.

Lemma dll_unlink_other a (n : alloc_block) h x : x <> a -> (x = bk_prev n -> x = 0) -> (x = bk_next n -> x = 0) -> dll_unlink a n h !! x = h !! x.
Proof.
  intros Ha Hp Hq. unfold dll_unlink. simpl. rewrite lookup_insert_ne by done.
  destruct (Z.eqb_spec (bk_next n) 0), (Z.eqb_spec (bk_prev n) 0); rewrite ?lookup_alter_ne by (intros E; subst; tauto); done.
Qed.

Section Lists.
Context (C : cells) (R : gset Z) (L : Z -> list Z) (s : heap) (Hi : heap_inv C R L s).

Lemma head_cell c x : 6 <= c <= 21 -> C !! x = None -> x = head_of s c -> head_of s c = 0.
Proof.
  intros Hc Hx E. destruct (hi_list _ _ _ _ Hi c Hc) as (Eh & _). destruct (L c) as [|y l] eqn:El; [done|]. simpl in Eh.
  assert (y ∈ L c) as Hy by (rewrite El; left). apply (hi_free _ _ _ _ Hi) in Hy as (k & _ & Hk); [|done]. congruence.
Qed.

(** The neighbours of a free block are free blocks. *)
Lemma neighbours_free a k b : C !! a = Some (k, false) -> blocks s !! a = Some b ->
  (bk_prev b = 0 \/ bk_prev b ∈ L (class k)) /\ (bk_next b = 0 \/ bk_next b ∈ L (class k)).
Proof.
  intros Ha Hb. pose proof (ck_order _ _ _ (hi_cells _ _ _ _ Hi) a k _ Ha) as Ho. pose proof (class_range k ltac:(lia)) as Hcl.
  pose proof (free_in_list C R L s Hi a k Ha) as Hin. pose proof (hi_list _ _ _ _ Hi (class k) Hcl) as Hd.
  apply list_elem_of_split in Hin as (l1 & l2 & HL). rewrite HL in *. destruct (dll_neighbours _ _ _ _ _ b Hd Hb) as (Hp & Hq & _). simpl in Hp, Hq. rewrite Hp, Hq. split.
  - unfold lst. destruct (last l1) as [x|] eqn:E; [right|by left]. apply elem_of_app. left. by apply last_Some_elem_of.
  - destruct l2 as [|x l2]; [by left|right]. apply elem_of_app. right. right. left.
Qed.

Lemma list_push_ok a k b : C !! a = Some (k, true) -> k <= 20 -> (k < 20 -> C !! buddy a k <> Some (k, false)) -> bk_order b = k ->
  exists s' L', bunix_alloc_list_push a (set_blocks (<[a := b]> (blocks s)) s) = Some s' /\ heap_inv (<[a := (k, false)]> C) R L' s' /\
    same s s' /\ writes_at C s s'.
Proof.
  intros Ha Hk Hbud Hb. pose proof (ck_order _ _ _ (hi_cells _ _ _ _ Hi) a k _ Ha) as Ho. unfold bunix_alloc_list_push. simpl. rewrite lookup_insert_eq. simpl. rewrite Hb.
  destruct (index_bound k (alloc_free s) ltac:(lia) (hi_length _ _ _ _ Hi)) as [head Hh]. rewrite Hh. simpl.
  assert (class k = k) as Hcl by (unfold class; case_if; lia).
  assert (head_of s (class k) = head) as Hhead by (unfold head_of; rewrite Hcl, (proj2 (Z.eqb_neq k 21)), Hh by lia; done).
  assert (reachable head (set_blocks (<[a:=b]> (blocks s)) s) = Some tt) as ->.
  { pose proof (head_reachable C R L s Hi (class k) ltac:(rewrite Hcl; lia)) as Hr. rewrite Hhead in Hr. unfold reachable in *. simpl.
    destruct (Z.eqb_spec head 0); [done|]. destruct (decide (head = a)) as [->|]; [by rewrite lookup_insert_eq|]. by rewrite lookup_insert_ne. }
  simpl. eexists _, _. split; [done|]. split.
  - eapply (heap_push C R L s Hi a k b); simpl; try done.
    + rewrite Hhead. unfold push_front. by rewrite insert_insert_eq.
    + rewrite length_insert. apply Hi.
    + intros c Hcc. unfold head_of. simpl. rewrite Hcl. destruct (Z.eqb_spec c 21) as [->|]; [by rewrite decide_False by lia|].
      destruct (decide (c = k)) as [->|Hne]; [rewrite list_lookup_insert_eq; [done|rewrite (hi_length _ _ _ _ Hi); unfold bunix_alloc_index, BUNIX_ALLOC_MIN_ORDER; lia]|].
      rewrite list_lookup_insert_ne; [done|]. intros E. apply Hne. symmetry. apply index_inj; [lia|lia|done].
  - split; [done|]. intros x Hx. simpl. assert (push_front a (marked 1 b) head (<[a:=b]> (blocks s)) = push_front a (marked 1 b) head (blocks s)) as -> by (unfold push_front; by rewrite insert_insert_eq).
    apply push_front_other; [congruence|]. intros ->. rewrite <- Hhead. apply (head_cell (class k) head); [rewrite Hcl; lia|done|by rewrite Hhead].
Qed.

Lemma large_push_ok a k : C !! a = Some (k, true) -> 20 < k ->
  exists s' L', bunix_alloc_large_push a s = Some s' /\ heap_inv (<[a := (k, false)]> C) R L' s' /\ same s s' /\ writes_at C s s'.
Proof.
  intros Ha Hk. unfold bunix_alloc_large_push. destruct (hi_header _ _ _ _ Hi a k _ Ha) as (b & Hb & _ & Hbk & _). rewrite Hb. simpl.
  assert (class k = 21) as Hcl by (unfold class; case_if; lia). assert (head_of s (class k) = large_free s) as Hhead by (by rewrite Hcl).
  pose proof (head_reachable C R L s Hi (class k) ltac:(lia)) as Hr. rewrite Hhead in Hr. rewrite Hr. simpl. eexists _, _. split; [done|]. split.
  - eapply (heap_push C R L s Hi a k b); simpl; try done; [lia|by rewrite Hhead|apply Hi|].
    intros c Hcc. unfold head_of. simpl. rewrite Hcl. destruct (Z.eqb_spec c 21) as [->|]; [by rewrite decide_True|]. by rewrite decide_False.
  - split; [done|]. intros x Hx. simpl. apply push_front_other; [congruence|]. intros ->. rewrite <- Hhead. apply (head_cell (class k) (large_free s)); [lia|done|done].
Qed.

Lemma unlink_writes a k b : C !! a = Some (k, false) -> blocks s !! a = Some b ->
  forall x, C !! x = None -> dll_unlink a (with_free 0 b) (blocks s) !! x = blocks s !! x.
Proof.
  intros Ha Hb x Hx. destruct (neighbours_free a k b Ha Hb) as [Hp Hq]. pose proof (ck_order _ _ _ (hi_cells _ _ _ _ Hi) a k _ Ha) as Ho.
  assert (forall y, y ∈ L (class k) -> is_Some (C !! y)) as Hfree by (intros y (j & _ & Hj)%(hi_free _ _ _ _ Hi); [eauto|apply class_range; lia]).
  apply dll_unlink_other; [congruence|..]; simpl; intros ->.
  - destruct Hp as [|Hp]; [done|]. destruct (Hfree _ Hp). congruence.
  - destruct Hq as [|Hq]; [done|]. destruct (Hfree _ Hq). congruence.
Qed.

Lemma block_remove_ok a k : C !! a = Some (k, false) -> k <= 20 ->
  exists s' L', bunix_alloc_list_remove a s = Some s' /\ heap_inv (<[a := (k, true)]> C) R L' s' /\ same s s' /\ writes_at C s s'.
Proof.
  intros Ha Hk. pose proof (ck_order _ _ _ (hi_cells _ _ _ _ Hi) a k _ Ha) as Ho. unfold bunix_alloc_list_remove.
  destruct (hi_header _ _ _ _ Hi a k _ Ha) as (b & Hb & _ & Hbk & _). rewrite Hb. simpl. rewrite Hbk.
  destruct (neighbours_free a k b Ha Hb) as [Hp Hq]. pose proof (class_range k ltac:(lia)) as Hcr. assert (class k = k) as Hcl by (unfold class; case_if; lia).
  rewrite (list_reachable C R L s Hi (class k) (bk_prev b) Hcr Hp). simpl. rewrite (list_reachable C R L s Hi (class k) (bk_next b) Hcr Hq). simpl.
  destruct (index_bound k (alloc_free s) ltac:(lia) (hi_length _ _ _ _ Hi)) as [head Hh]. rewrite Hh. simpl.
  edestruct (heap_unlink C R L s Hi a k b) as [L' HL']; [done|done|..|eexists _, L'; split; [done|]; split; [exact HL'|]].
  - by destruct (bk_prev b =? 0).
  - by destruct (bk_prev b =? 0).
  - destruct (bk_prev b =? 0); simpl; rewrite ?length_insert; apply Hi.
  - intros c Hcc. unfold head_of. rewrite Hcl. destruct (Z.eqb_spec c 21) as [->|].
    { rewrite decide_False by lia. by destruct (bk_prev b =? 0). }
    destruct (decide (c = k)) as [->|Hne].
    + destruct (bk_prev b =? 0); simpl; [|done]. rewrite list_lookup_insert_eq; [done|]. rewrite (hi_length _ _ _ _ Hi). unfold bunix_alloc_index, BUNIX_ALLOC_MIN_ORDER. lia.
    + destruct (bk_prev b =? 0); simpl; [|done]. rewrite list_lookup_insert_ne; [done|]. intros E. apply Hne. symmetry. apply index_inj; [lia|lia|done].
  - split; [by destruct (bk_prev b =? 0)|]. intros x Hx. replace (blocks _) with (dll_unlink a (with_free 0 b) (blocks s)) by (by destruct (bk_prev b =? 0)).
    by apply (unlink_writes a k).
Qed.

Lemma large_remove_ok a k : C !! a = Some (k, false) -> 20 < k ->
  exists s' L', bunix_alloc_large_remove a s = Some s' /\ heap_inv (<[a := (k, true)]> C) R L' s' /\ same s s' /\ writes_at C s s'.
Proof.
  intros Ha Hk. unfold bunix_alloc_large_remove.
  destruct (hi_header _ _ _ _ Hi a k _ Ha) as (b & Hb & _ & Hbk & _). rewrite Hb. simpl.
  destruct (neighbours_free a k b Ha Hb) as [Hp Hq]. assert (class k = 21) as Hcl by (unfold class; case_if; lia).
  rewrite (list_reachable C R L s Hi (class k) (bk_prev b) ltac:(lia) Hp). simpl. rewrite (list_reachable C R L s Hi (class k) (bk_next b) ltac:(lia) Hq). simpl.
  edestruct (heap_unlink C R L s Hi a k b) as [L' HL']; [done|done|..|eexists _, L'; split; [done|]; split; [exact HL'|]].
  - by destruct (bk_prev b =? 0).
  - by destruct (bk_prev b =? 0).
  - destruct (bk_prev b =? 0); simpl; apply Hi.
  - intros c Hcc. unfold head_of. rewrite Hcl. destruct (Z.eqb_spec c 21) as [->|].
    + rewrite decide_True by done. by destruct (bk_prev b =? 0).
    + rewrite decide_False by done. by destruct (bk_prev b =? 0).
  - split; [by destruct (bk_prev b =? 0)|]. intros x Hx. replace (blocks _) with (dll_unlink a (with_free 0 b) (blocks s)) by (by destruct (bk_prev b =? 0)).
    by apply (unlink_writes a k).
Qed.
End Lists.

(** ** Orders *)

Lemma order_loop_ok fuel limit : forall order need, 0 <= order <= limit -> limit <= 63 -> (Z.to_nat (limit - order) < fuel)%nat ->
  exists o, order_loop fuel limit order (2 ^ order) need = (o, 2 ^ o) /\ order <= o <= limit /\ (2 ^ o < need -> o = limit) /\ (order < o -> 2 ^ (o - 1) < need).
Proof.
  induction fuel as [|fuel IH]; intros order need Ho Hl Hf; [lia|]. cbn [order_loop].
  destruct (Z.ltb_spec order limit) as [Hlt|Hge]; cbn [andb]; [|exists order; repeat split; lia].
  destruct (Z.ltb_spec (2 ^ order) need) as [Hn|Hn]; [|exists order; repeat split; lia].
  assert (u64 (Z.shiftl (2 ^ order) 1) = 2 ^ (order + 1)) as ->.
  { rewrite Z.shiftl_mul_pow2 by lia. change (2 ^ 1) with 2. rewrite pow2_succ by lia. rewrite Z.mul_comm. apply u64_small. unfold in_u64.
    pose proof (pow2_pos order ltac:(lia)). rewrite <- pow2_succ by lia. pose proof (pow2_le (order + 1) 63 ltac:(lia)). lia. }
  destruct (IH (order + 1) need) as (o & -> & H1 & H2 & H3); [lia|lia|lia|]. exists o. split; [done|]. split; [lia|]. split; [done|].
  intros _. destruct (Z.eq_dec o (order + 1)) as [->|]; [by replace (order + 1 - 1) with order by lia|apply H3; lia].
Qed.

Lemma need_ok size : 0 <= size -> size <= 2 ^ 64 - 64 ->
  let need := bunix_alloc_align (size +w HEADER) 16 in size + 40 <= need < size + 56 /\ need < 2 ^ 64.
Proof.
  intros H0 H1. unfold bunix_alloc_align, HEADER. rewrite (u64_small (size + 40)) by (unfold in_u64; lia). change 16 with (2 ^ 4).
  rewrite align_up_pow2 by (unfold in_u64; lia). change (2 ^ 4) with 16.
  pose proof (Z.div_mod (size + 40 + 16 - 1) 16 ltac:(lia)). pose proof (Z.mod_pos_bound (size + 40 + 16 - 1) 16 ltac:(lia)). lia.
Qed.

Lemma order_for_ok size : 0 <= size -> size <= 2 ^ 64 - 64 -> let order := bunix_alloc_order_for size in
  (6 <= order <= 20 /\ size + 40 <= 2 ^ order) \/ (order = 0 /\ 2 ^ 20 < size + 56).
Proof.
  intros H0 H1. unfold bunix_alloc_order_for. pose proof (need_ok size H0 H1) as Hn. cbv zeta in *. set (need := bunix_alloc_align _ _) in *.
  change (Z.shiftl 1 BUNIX_ALLOC_MIN_ORDER) with (2 ^ 6). unfold BUNIX_ALLOC_MAX_ORDER, BUNIX_ALLOC_MIN_ORDER.
  destruct (order_loop_ok 64 20 6 need ltac:(lia) ltac:(lia) ltac:(lia)) as (o & -> & Ho & Hm & _).
  destruct (Z.leb_spec need (2 ^ o)); [left|right]; [lia|]. rewrite Hm in * by lia. lia.
Qed.

Lemma large_order_for_ok size : 0 <= size -> size <= 2 ^ 64 - 64 -> 2 ^ 20 < size + 56 -> let order := bunix_alloc_large_order_for size in
  (21 <= order <= 63 /\ size + 40 <= 2 ^ order /\ 2 ^ order <= 2 * (size + 2 ^ 20)) \/ (order = 0 /\ 2 ^ 63 < size + 56).
Proof.
  intros H0 H1 Hbig. unfold bunix_alloc_large_order_for. pose proof (need_ok size H0 H1) as Hn. cbv zeta in *. set (need := bunix_alloc_align _ _) in *.
  replace (2 ^ 64 - 1 - HEADER <? size) with false by (unfold HEADER; lia). replace (need <? size) with false by lia.
  change (Z.shiftl 1 (BUNIX_ALLOC_MAX_ORDER + 1)) with (2 ^ 21). change (BUNIX_ALLOC_MAX_ORDER + 1) with 21.
  destruct (order_loop_ok 64 63 21 need ltac:(lia) ltac:(lia) ltac:(lia)) as (o & -> & Ho & Hm & Hmin).
  destruct (Z.leb_spec need (2 ^ o)); [left|right]; [|rewrite Hm in * by lia; lia]. split; [lia|]. split; [lia|].
  destruct (Z.eq_dec o 21) as [->|]; [change (2 ^ 21) with (2 * 2 ^ 20); lia|]. specialize (Hmin ltac:(lia)). rewrite pow2_pred by lia. lia.
Qed.

(** ** What programs hold *)

Definition live (C : cells) : gmap Z Z := omap (fun c : Z * bool => if c.2 then Some c.1 else None) C.

Lemma live_cell_lookup C a k : live C !! a = Some k <-> C !! a = Some (k, true).
Proof. unfold live. rewrite lookup_omap. destruct (C !! a) as [[j []]|]; simpl; naive_solver. Qed.

Lemma live_none C a : live C !! a = None <-> forall k, C !! a <> Some (k, true).
Proof. unfold live. rewrite lookup_omap. destruct (C !! a) as [[j []]|]; simpl; naive_solver. Qed.

Lemma live_use C a k : live (<[a := (k, true)]> C) = <[a := k]> (live C).
Proof. unfold live. by rewrite (omap_insert_Some _ C a (k, true) k). Qed.

Lemma live_free C a k : live (<[a := (k, false)]> C) = delete a (live C).
Proof. unfold live. by rewrite (omap_insert_None _ C a (k, false)). Qed.

Lemma live_delete C a : live (delete a C) = delete a (live C).
Proof. unfold live. by rewrite omap_delete. Qed.

(** The headers inside the blocks of [M] are not written. *)
Definition quiet (M : gmap Z Z) (s s' : heap) : Prop := forall x a k, M !! a = Some k -> a < x < a + 2 ^ k -> blocks s' !! x = blocks s !! x.

Lemma heap_quiet_refl M s : quiet M s s.
Proof. done. Qed.

Lemma heap_quiet_trans M s1 s2 s3 : quiet M s1 s2 -> quiet M s2 s3 -> quiet M s1 s3.
Proof. intros H1 H2 x a k Ha Hx. by rewrite (H2 x a k), (H1 x a k). Qed.

Lemma writes_quiet C R limit M s s' : cells_ok C R limit -> M ⊆ live C -> writes_at C s s' -> quiet M s s'.
Proof.
  intros Hc HM Hw x a k Ha Hx. apply Hw. destruct (C !! x) as [[j v]|] eqn:E; [|done]. exfalso.
  assert (C !! a = Some (k, true)) as Hca by (apply live_cell_lookup; by eapply lookup_weaken). by apply (cell_inside C R limit Hc a k true x j v).
Qed.

Lemma insert_quiet C R limit M s a b : cells_ok C R limit -> M ⊆ live C -> is_Some (C !! a) -> quiet M s (set_blocks (<[a := b]> (blocks s)) s).
Proof. intros Hc HM [c Ha]. apply (writes_quiet C R limit); [done|done|]. intros x Hx. simpl. rewrite lookup_insert_ne; [done|congruence]. Qed.

(** ** Allocation *)

Section Allocate.
Context (C : cells) (R : gset Z) (L : Z -> list Z) (s : heap) (Hi : heap_inv C R L s).

Lemma list_head k : 6 <= k <= 20 -> exists head, alloc_free s !! bunix_alloc_index k = Some head /\
  (head = 0 /\ L k = [] \/ C !! head = Some (k, false) /\ head <> 0).
Proof.
  intros Hk. destruct (index_bound k (alloc_free s) Hk (hi_length _ _ _ _ Hi)) as [head Hh]. exists head. split; [done|].
  destruct (hi_list _ _ _ _ Hi k ltac:(lia)) as (E & _ & Hz & _). unfold head_of in E. rewrite (proj2 (Z.eqb_neq k 21)), Hh in E by lia. simpl in E.
  destruct (L k) as [|x l] eqn:El; [by left|right]. simpl in E. subst x. assert (head ∈ L k) as Hin by (rewrite El; left).
  apply (hi_free _ _ _ _ Hi) in Hin as (j & Hj & Hc); [|lia]. assert (j = k) as -> by (unfold class in Hj; destruct (Z.leb_spec j 20); lia).
  split; [done|]. intros ->. apply Hz. left.
Qed.

Lemma scan_free_ok n : forall order, 6 <= order -> (Z.to_nat (21 - order) <= n)%nat ->
  exists a, scan_free n order s = Some a /\ (a = 0 /\ (forall k, order <= k <= 20 -> L k = []) \/ a <> 0 /\ exists k, order <= k <= 20 /\ C !! a = Some (k, false)).
Proof.
  induction n as [|n IH]; intros order Ho Hn; simpl; [exists 0; split; [done|left; split; [done|lia]]|]. unfold BUNIX_ALLOC_MAX_ORDER.
  destruct (Z.ltb_spec 20 order); [exists 0; split; [done|left; split; [done|lia]]|].
  destruct (list_head order ltac:(lia)) as (head & -> & Hh). simpl. destruct (Z.eqb_spec head 0) as [->|H0].
  - destruct Hh as [[_ He]|[_ ?]]; [|done]. destruct (IH (order + 1)) as (a & -> & Ha); [lia|lia|]. exists a. split; [done|].
    destruct Ha as [[-> Hall]|(Ha0 & k & Hk & Hc)]; [left|right].
    + split; [done|]. intros k Hk. destruct (Z.eq_dec k order) as [->|]; [done|]. apply Hall. lia.
    + split; [done|]. exists k. split; [lia|done].
  - destruct Hh as [[? _]|[Hc _]]; [done|]. exists head. split; [done|right]. split; [done|]. exists order. split; [lia|done].
Qed.

(** The kernel does not give the memory asked for. *)
Definition refused : Prop := maps s = [] \/ exists rest, maps s = false :: rest.

Lemma add_arena_ok : alloc_next s + 2 ^ 20 < 2 ^ 64 -> exists rc s', bunix_alloc_add_arena s = Some (rc, s') /\ bytes s' = bytes s /\ quiet (live C) s s' /\
  (rc <> 0 /\ heap_inv C R L s' /\ refused \/
   rc = 0 /\ exists base L', heap_inv (<[base := (20, false)]> C) ({[base]} ∪ R) L' s' /\ live (<[base := (20, false)]> C) = live C /\ C !! base = None).
Proof.
  intros Hfit. unfold bunix_alloc_add_arena, bunix_task_alloc. pose proof (ck_limit _ _ _ (hi_cells _ _ _ _ Hi)) as [Hlim Hlal].
  assert (forall x, heap_inv C R L (set_maps x s)) as Hmaps by (intros x; apply (heap_step C R L s Hi); try done; apply Hi).
  destruct (maps s) as [|[] rest] eqn:Em; cbn [negb].
  - exists (-1), s. do 3 (split; [done|]). left. split; [done|]. split; [done|]. left. done.
  - change BUNIX_ALLOC_ARENA_SIZE with (2 ^ 20). rewrite (proj2 (Z.ltb_lt _ _) Hfit). cbn [negb andb].
    simpl. rewrite u64_small by (unfold in_u64, BUNIX_ALLOC_HEAP_BASE in *; lia).
    set (base := alloc_next s) in *. destruct (new_cell C R base (hi_cells _ _ _ _ Hi) base 20 ltac:(lia) Hlal ltac:(lia) Hfit) as [Hnone Hcells]. simpl in Hcells.
    assert (heap_inv (<[base := (20, true)]> C) ({[base]} ∪ R) L
      (mk_heap (<[base:=mk_block BUNIX_ALLOC_MAGIC BUNIX_ALLOC_MAX_ORDER 0 0 0]> (blocks s)) (alloc_free s) (large_free s) (base + 2 ^ 20) (bytes s) rest)) as Hi1.
    { apply (heap_step C R L s Hi); try done; simpl.
      - intros a k u [[<- [= <- <-]]|[Hne Ha]]%lookup_insert_Some; unfold header_ok; simpl; [rewrite lookup_insert_eq; by eexists|].
        rewrite lookup_insert_ne by done. by apply (hi_header _ _ _ _ Hi).
      - intros a k. rewrite lookup_insert_Some. split; [naive_solver|]. intros Ha. right. split; [congruence|done].
      - intros a k Ha. unfold dlink. rewrite lookup_insert_ne; [done|congruence]. }
    destruct (list_push_ok _ _ _ _ Hi1 base 20 (mk_block BUNIX_ALLOC_MAGIC BUNIX_ALLOC_MAX_ORDER 0 0 0)) as (s' & L' & Hp & Hi2 & (E1 & E2 & E3) & Hw); try done; [by rewrite lookup_insert_eq|].
    unfold set_blocks in Hp. simpl in Hp. rewrite insert_insert_eq in Hp. unfold set_blocks, set_next, set_maps. simpl. fold base. rewrite Hp. simpl. exists 0, s'. split; [done|]. split; [done|]. split.
    + eapply heap_quiet_trans; [|eapply (writes_quiet _ _ _ (live C) _ _ Hcells); [|exact Hw]].
      * intros x a k Ha%live_cell_lookup Hx. simpl. rewrite lookup_insert_ne; [done|]. intros <-. pose proof (ck_bound _ _ _ (hi_cells _ _ _ _ Hi) a k _ Ha). fold base in H. lia.
      * rewrite live_use. apply insert_subseteq. apply live_none. intros k. by rewrite Hnone.
    + right. split; [done|]. exists base, L'. rewrite insert_insert_eq in Hi2. split; [done|]. split; [|done]. rewrite live_free. apply delete_id.
      apply live_none. intros k. by rewrite Hnone.
  - exists (-1), (set_maps rest s). do 3 (split; [done|]). left. split; [done|]. split; [done|]. right. eauto.
Qed.
End Allocate.

(** A block taken from the lists. *)
Definition taken (C : cells) (order : Z) (s : heap) (block : Z) (s' : heap) : Prop :=
  exists C' R' L', heap_inv C' R' L' s' /\ bytes s' = bytes s /\ quiet (live C) s s' /\
    (block = 0 /\ live C' = live C /\ refused s \/
     block <> 0 /\ exists k, order <= k <= 20 /\ live C !! block = None /\ live C' = <[block := k]> (live C)).

Lemma take_listed C R L s order a k : heap_inv C R L s -> order <= k <= 20 -> C !! a = Some (k, false) ->
  exists s', bunix_alloc_list_remove a s = Some s' /\ taken C order s a s'.
Proof.
  intros Hi Hk Ha. destruct (block_remove_ok C R L s Hi a k Ha ltac:(lia)) as (s' & L' & Hr & Hi' & (E1 & E2 & E3) & Hw). exists s'. split; [done|].
  exists (<[a := (k, true)]> C), R, L'. split; [done|]. split; [done|]. split; [by eapply writes_quiet; [apply Hi|..]|]. right.
  split; [pose proof (cell_nonzero C R L s Hi a k _ Ha); lia|]. exists k. split; [done|]. split; [|apply live_use]. apply live_none. intros j. rewrite Ha. congruence.
Qed.

Lemma find_block_ok C R L s order : heap_inv C R L s -> 6 <= order <= 20 -> alloc_next s + 2 ^ 20 < 2 ^ 64 ->
  exists block s', find_block 2 order s = Some (block, s') /\ taken C order s block s'.
Proof.
  intros Hi Ho Hsz. cbn [find_block].
  destruct (scan_free_ok C R L s Hi (Z.to_nat BUNIX_ALLOC_ORDERS) order ltac:(lia) ltac:(unfold BUNIX_ALLOC_ORDERS, BUNIX_ALLOC_MAX_ORDER, BUNIX_ALLOC_MIN_ORDER; lia)) as (a & -> & Ha).
  cbn [mbind option_bind]. destruct Ha as [[-> Hnone]|(Ha0 & k & Hk & Hc)].
  - cbn [Z.eqb negb]. destruct (add_arena_ok C R L s Hi Hsz) as (rc & s1 & -> & Eb & Hq & Hcase). cbn [mbind option_bind].
    destruct Hcase as [(Hrc & Hi1 & Href)|(-> & base & L1 & Hi1 & Hlive & Hbase)].
    + rewrite (proj2 (Z.eqb_neq rc 0) Hrc). simpl. exists 0, s1. split; [done|]. exists C, R, L. split; [done|]. split; [done|]. split; [done|]. by left.
    + cbn [Z.eqb negb]. destruct (scan_free_ok _ _ _ _ Hi1 (Z.to_nat BUNIX_ALLOC_ORDERS) order ltac:(lia) ltac:(unfold BUNIX_ALLOC_ORDERS, BUNIX_ALLOC_MAX_ORDER, BUNIX_ALLOC_MIN_ORDER; lia)) as (a & -> & Ha).
      cbn [mbind option_bind]. destruct Ha as [[-> Hnone']|(Ha0 & k & Hk & Hc)].
      * exfalso. assert (base ∈ L1 20) as Hin by (apply (free_in_list _ _ _ _ Hi1 base 20); by rewrite lookup_insert_eq). rewrite Hnone' in Hin by lia. by apply elem_of_nil in Hin.
      * rewrite (proj2 (Z.eqb_neq a 0) Ha0). cbn [negb]. destruct (take_listed _ _ _ _ order a k Hi1 Hk Hc) as (s2 & -> & C2 & R2 & L2 & Hi2 & E2 & Hq2 & Hcase).
        simpl. exists a, s2. split; [done|]. exists C2, R2, L2. split; [done|]. split; [congruence|]. rewrite Hlive in *. split; [by eapply heap_quiet_trans|].
        right. destruct Hcase as [[? _]|[_ Hcase]]; [done|]. split; [done|]. exact Hcase.
  - rewrite (proj2 (Z.eqb_neq a 0) Ha0). cbn [negb]. destruct (take_listed C R L s order a k Hi Hk Hc) as (s' & -> & Ht). simpl. eauto.
Qed.

(** Changing the header of a block that is in use. *)
Lemma header_update C R L s a k b : heap_inv C R L s -> C !! a = Some (k, true) -> bk_magic b = BUNIX_ALLOC_MAGIC -> bk_order b = k -> bk_free b = 0 ->
  heap_inv C R L (set_blocks (<[a := b]> (blocks s)) s).
Proof.
  intros Hi Ha H1 H2 H3. apply (heap_step C R L s Hi); try done; simpl.
  - apply Hi.
  - intros x j u Hx. unfold header_ok. simpl. destruct (decide (x = a)) as [->|]; [|rewrite lookup_insert_ne by done; by apply (hi_header _ _ _ _ Hi)].
    rewrite Ha in Hx. injection Hx as <- <-. rewrite lookup_insert_eq. eauto.
  - intros x j Hx. unfold dlink. rewrite lookup_insert_ne; [done|congruence].
Qed.

Lemma split_block_ok fuel : forall C R L s block k order, heap_inv C R L s -> C !! block = Some (k, true) -> 6 <= order <= k -> k <= 20 ->
  (Z.to_nat (k - order) < fuel)%nat ->
  exists s' C' L', split_block fuel block order s = Some s' /\ heap_inv C' R L' s' /\ same s s' /\ live C' = <[block := order]> (live C) /\
    quiet (delete block (live C)) s s'.
Proof.
  induction fuel as [|fuel IH]; intros C R L s block k order Hi Hb Ho Hk Hf; [lia|]. cbn [split_block].
  destruct (hi_header _ _ _ _ Hi block k _ Hb) as (b & Hbb & Hm & Hbo & Hfr). rewrite Hbb. cbn [mbind option_bind]. rewrite Hbo.
  pose proof (hi_cells _ _ _ _ Hi) as Hc.
  destruct (Z.ltb_spec order k) as [Hlt|Hge].
  2: { assert (order = k) as -> by lia. exists s, C, L. split; [done|]. split; [done|]. split; [done|]. split; [|done].
       rewrite insert_id; [done|]. by apply live_cell_lookup. }
  pose proof (ck_bound _ _ _ Hc block k _ Hb) as Hbd. pose proof (ck_limit _ _ _ Hc) as [Hlim _]. pose proof (pow2_pred k ltac:(lia)) as Hpp. pose proof (pow2_pos (k - 1) ltac:(lia)) as Hp.
  destruct (split_cell C R _ Hc block k Hb ltac:(lia)) as [Hnone Hc2]. cbv zeta. change (bk_order (with_order (k - 1) b)) with (k - 1).
  assert (block +w Z.shiftl 1 (k - 1) = block + 2 ^ (k - 1)) as ->.
  { rewrite Z.shiftl_mul_pow2, Z.mul_1_l by lia. apply u64_small. unfold in_u64, BUNIX_ALLOC_HEAP_BASE in *. lia. }
  set (bud := block + 2 ^ (k - 1)) in *. assert (bud <> block) as Hne by lia.
  set (C2 := <[bud := (k - 1, true)]> (<[block := (k - 1, true)]> C)) in *. set (b1 := with_order (k - 1) b).
  set (good := mk_block BUNIX_ALLOC_MAGIC (k - 1) 0 0 0).
  assert (heap_inv C2 R L (set_blocks (<[bud := good]> (<[block := b1]> (blocks s))) s)) as Hi2.
  { apply (heap_step C R L s Hi); try done; simpl.
    - intros x j u. unfold C2. intros [[<- [= <- <-]]|[H1 [[<- [= <- <-]]|[H2 H]]%lookup_insert_Some]]%lookup_insert_Some; unfold header_ok; simpl.
      + rewrite lookup_insert_eq. by eexists.
      + rewrite lookup_insert_ne, lookup_insert_eq by done. eexists. split; [done|]. done.
      + rewrite !lookup_insert_ne by done. by apply (hi_header _ _ _ _ Hi).
    - intros x j. unfold C2. split.
      + intros [[_ [=]]|[H1 [[_ [=]]|[H2 H]]%lookup_insert_Some]]%lookup_insert_Some. done.
      + intros Hx. rewrite !lookup_insert_ne; [done|congruence|]. intros <-. congruence.
    - intros x j Hx. unfold dlink. rewrite !lookup_insert_ne; [done|congruence|]. intros <-. congruence. }
  set (old := default (mk_block 0 0 0 0 0) ((<[block := b1]> (blocks s)) !! bud)).
  destruct (list_push_ok C2 R L _ Hi2 bud (k - 1) (marked (bk_free old) (with_order (k - 1) old))) as (s3 & L3 & Hpush & Hi3 & (E1 & E2 & E3) & Hw); try done.
  { unfold C2. by rewrite lookup_insert_eq. }
  { lia. }
  { intros _. assert (aligned block k) as Hal by (by eapply (ck_align _ _ _ Hc)). replace k with (k - 1 + 1) in Hal by lia. destruct (aligned_testbit block (k - 1) ltac:(lia) Hal) as [_ Ht].
    unfold buddy, bud. rewrite Ht. replace (block + 2 ^ (k - 1) - 2 ^ (k - 1)) with block by lia. fold bud. unfold C2. rewrite lookup_insert_ne, lookup_insert_eq by done. done. }
  unfold set_blocks in *. simpl in *. rewrite insert_insert_eq in Hpush.
  match goal with |- context [bunix_alloc_list_push bud ?x] => change (bunix_alloc_list_push bud x) with (bunix_alloc_list_push bud
    (mk_heap (<[bud:=marked (bk_free old) (with_order (k - 1) old)]> (<[block:=b1]> (blocks s))) (alloc_free s) (large_free s) (alloc_next s) (bytes s) (maps s))) end.
  rewrite Hpush. cbn [mbind option_bind].
  destruct (IH _ R L3 s3 block (k - 1) order Hi3) as (s' & C' & L' & Hsp & Hi' & (F1 & F2 & F3) & Hlive & Hq); [|lia|lia|lia|].
  { unfold C2. rewrite !(lookup_insert_ne _ bud) by done. by rewrite lookup_insert_eq. }
  exists s', C', L'. split; [done|]. split; [done|]. split; [unfold same; repeat split; congruence|].
  assert (live (<[bud:=(k - 1, false)]> C2) = <[block := k - 1]> (live C)) as HE.
  { unfold C2. rewrite insert_insert_eq, live_free, live_use, delete_insert_ne by done. f_equal. apply delete_id. apply live_none. intros j. by rewrite Hnone. }
  rewrite HE in *. rewrite insert_insert_eq in Hlive. rewrite delete_insert_eq in Hq. split; [done|].
  assert (delete block (live C) ⊆ live C2) as Hsub.
  { unfold C2. rewrite !live_use. etrans; [|apply insert_subseteq]; [|rewrite lookup_insert_ne by done; apply live_none; intros j; by rewrite Hnone].
    rewrite <- insert_delete_eq. apply insert_subseteq. by rewrite lookup_delete_eq. }
  eapply heap_quiet_trans; [|exact Hq]. eapply heap_quiet_trans; [|exact (writes_quiet C2 R _ (delete block (live C)) _ _ Hc2 Hsub Hw)].
  eapply heap_quiet_trans; [eapply (insert_quiet C R _ _ s block b1 Hc); [apply delete_subseteq|eauto]|].
  assert (is_Some (C2 !! bud)) as Hin by (unfold C2; rewrite lookup_insert_eq; eauto).
  exact (insert_quiet C2 R _ (delete block (live C)) (set_blocks (<[block:=b1]> (blocks s)) s) bud good Hc2 Hsub Hin).
Qed.

Lemma large_fit_ok C R L s order : heap_inv C R L s -> forall l2 l1 fuel, L 21 = l1 ++ l2 -> (length l2 < fuel)%nat ->
  exists a, large_fit fuel (hd 0 l2) order s = Some a /\ (a = 0 \/ a <> 0 /\ exists k, 20 < k /\ order <= k /\ C !! a = Some (k, false)).
Proof.
  intros Hi. induction l2 as [|x l2 IH]; intros l1 fuel HL Hf; (destruct fuel as [|fuel]; [simpl in Hf; lia|]); cbn [large_fit hd]; [exists 0; split; [done|by left]|].
  pose proof (hi_list _ _ _ _ Hi 21 ltac:(lia)) as Hd. rewrite HL in Hd. destruct (dll_next _ _ _ _ _ Hd) as (b & Hb & _ & Hn).
  assert (x ∈ L 21) as Hin by (rewrite HL; apply elem_of_app; right; left). apply (hi_free _ _ _ _ Hi) in Hin as (k & Hk & Hc); [|lia].
  pose proof (cell_nonzero C R L s Hi x k _ Hc) as Hx0. rewrite (proj2 (Z.eqb_neq x 0)) by lia. rewrite Hb. cbn [mbind option_bind].
  destruct (hi_header _ _ _ _ Hi x k _ Hc) as (b' & Hb' & _ & Ho & _). rewrite Hb in Hb'. injection Hb' as <-. rewrite Ho.
  assert (20 < k) as Hk20 by (unfold class in Hk; destruct (Z.leb_spec k 20); lia).
  destruct (Z.leb_spec order k) as [Hle|Hgt].
  - exists x. split; [done|right]. split; [lia|]. exists k. done.
  - simpl in Hn. rewrite Hn. apply (IH (l1 ++ [x])); [by rewrite <- app_assoc|simpl in Hf; lia].
Qed.

Lemma listed_bound C R L s c : heap_inv C R L s -> 6 <= c <= 21 -> (length (L c) <= length (map_to_list (blocks s)))%nat.
Proof.
  intros Hi Hc. destruct (hi_list _ _ _ _ Hi c Hc) as (_ & Hnd & _ & _). rewrite <- (size_list_to_set (C := gset Z) (L c) Hnd).
  rewrite length_map_to_list, <- (size_dom (D := gset Z)). apply subseteq_size. intros x Hx%elem_of_list_to_set.
  apply elem_of_dom. by apply (dll_live _ _ _ _ (hi_list _ _ _ _ Hi c Hc)).
Qed.

(** The result of an allocation. *)
Definition allocated (C : cells) (size : Z) (s : heap) (p : Z) (s' : heap) : Prop :=
  exists C' R' L', heap_inv C' R' L' s' /\ bytes s' = bytes s /\ quiet (live C) s s' /\
    (p = 0 /\ live C' = live C /\ refused s \/
     exists a k, p = a + HEADER /\ live C !! a = None /\ live C' = <[a := k]> (live C) /\ size + HEADER <= 2 ^ k).

Lemma align_next limit k : BUNIX_ALLOC_HEAP_BASE <= limit -> 21 <= k <= 63 -> limit + 2 ^ k < 2 ^ 64 ->
  limit <= bunix_alloc_align limit (2 ^ k) < limit + 2 ^ k /\ aligned (bunix_alloc_align limit (2 ^ k)) k.
Proof.
  intros Hl Hk Hfit. unfold bunix_alloc_align, BUNIX_ALLOC_HEAP_BASE in *. pose proof (pow2_pos k ltac:(lia)) as Hp.
  rewrite align_up_pow2 by (try done; unfold in_u64; lia). split; [|eexists; apply Z.mul_comm].
  pose proof (Z.div_mod (limit + 2 ^ k - 1) (2 ^ k) ltac:(lia)). pose proof (Z.mod_pos_bound (limit + 2 ^ k - 1) (2 ^ k) ltac:(lia)). lia.
Qed.

(** Where the heap can grow to without a block yet. *)
Lemma raise_limit C R L s n : heap_inv C R L s -> alloc_next s <= n < 2 ^ 64 -> aligned n 20 -> heap_inv C R L (set_next n s).
Proof.
  intros Hi Hn Ha. apply (heap_step C R L s Hi); try done; simpl; [|apply Hi]. destruct (hi_cells _ _ _ _ Hi) as [A1 A2 A3 A4 A5 A6 A7 A8 A9]. constructor; try done.
  - intros a k u H. specialize (A3 a k u H). lia.
  - split; [lia|done].
Qed.


Lemma large_alloc_ok C R L s size : heap_inv C R L s -> 0 <= size -> alloc_next s + 4 * (size + 2 ^ 20) < 2 ^ 64 -> 2 ^ 20 < size + 56 ->
  exists p s', bunix_alloc_large size s = Some (p, s') /\ allocated C size s p s'.
Proof.
  intros Hi H0 Hroom Hbig. pose proof (ck_limit _ _ _ (hi_cells _ _ _ _ Hi)) as [Hlim Hlal]. unfold BUNIX_ALLOC_HEAP_BASE in Hlim.
  unfold bunix_alloc_large. pose proof (large_order_for_ok size H0 ltac:(lia) Hbig) as Ho. cbv zeta in Ho. set (order := bunix_alloc_large_order_for size) in *.
  destruct Ho as [(Ho & Hsize & Hup)|[_ Hhuge]]; [cbv zeta|lia].
  rewrite (proj2 (Z.eqb_neq order 0)) by lia. pose proof (pow2_pos order ltac:(lia)) as Hp. pose proof (pow2_le order 63 ltac:(lia)) as Hp2.
  assert (u64 (Z.shiftl 1 order) = 2 ^ order) as -> by (rewrite Z.shiftl_mul_pow2, Z.mul_1_l by lia; apply u64_small; unfold in_u64; lia).
  destruct (hi_list _ _ _ _ Hi 21 ltac:(lia)) as (Eh & _). unfold head_of in Eh. simpl in Eh. rewrite Eh.
  destruct (large_fit_ok C R L s order Hi (L 21) [] (S (length (map_to_list (blocks s)))) eq_refl) as (a & -> & Ha); [pose proof (listed_bound C R L s 21 Hi ltac:(lia)); lia|].
  cbn [mbind option_bind]. destruct Ha as [->|(Ha0 & k & Hk20 & Hk & Hc)].
  - cbn [Z.eqb negb]. cbn [alloc_next set_next]. destruct (align_next (alloc_next s) order ltac:(unfold BUNIX_ALLOC_HEAP_BASE; lia) ltac:(lia) ltac:(lia)) as [Hn Hna].
    set (n := bunix_alloc_align (alloc_next s) (2 ^ order)) in *. rewrite (proj2 (Z.ltb_ge _ _)) by lia.
    assert (forall x, heap_inv C R L (set_maps x (set_next n s))) as Hi1.
    { intros x. pose proof (raise_limit C R L s n Hi ltac:(lia) (aligned_le n 20 order ltac:(lia) Hna)) as H. apply (heap_step C R L _ H); try done; apply H. }
    unfold bunix_task_alloc. cbn [maps set_next]. destruct (maps s) as [|[] rest] eqn:Em; cbn [andb negb].
    + exists 0, (set_next n s). split; [done|]. exists C, R, L. split; [exact (Hi1 (maps s))|]. do 2 (split; [done|]). left. do 2 (split; [done|]). by left.
    + rewrite (proj2 (Z.ltb_lt _ _)) by lia. cbn [andb negb]. cbn [alloc_next set_next set_maps blocks]. rewrite !u64_small by (unfold in_u64, HEADER; lia).
      destruct (new_cell C R _ (hi_cells _ _ _ _ Hi) n order ltac:(lia) Hna ltac:(lia) ltac:(lia)) as [Hnone Hcells]. rewrite (proj2 (Z.eqb_neq order 20)) in Hcells by lia.
      eexists _, _. split; [done|]. exists (<[n := (order, true)]> C), R, L. split; [|split; [done|]; split].
      * apply (heap_step C R L s Hi); try done; simpl.
        -- intros x j u [[<- [= <- <-]]|[Hne Hx]]%lookup_insert_Some; unfold header_ok; simpl; [rewrite lookup_insert_eq; by eexists|].
           rewrite lookup_insert_ne by done. by apply (hi_header _ _ _ _ Hi).
        -- intros x j. rewrite lookup_insert_Some. split; [naive_solver|]. intros Hx. right. split; [congruence|done].
        -- intros x j Hx. unfold dlink. rewrite lookup_insert_ne; [done|congruence].
      * intros x b j Hb%live_cell_lookup Hx. simpl. rewrite lookup_insert_ne; [done|]. pose proof (ck_bound _ _ _ (hi_cells _ _ _ _ Hi) b j _ Hb). lia.
      * right. exists n, order. split; [done|]. split; [apply live_none; intros j; by rewrite Hnone|]. split; [apply live_use|]. unfold HEADER. lia.
    + exists 0, (set_maps rest (set_next n s)). split; [done|]. exists C, R, L. split; [apply Hi1|]. do 2 (split; [done|]). left. do 2 (split; [done|]). right. eauto.
  - rewrite (proj2 (Z.eqb_neq a 0) Ha0). cbn [negb]. destruct (large_remove_ok C R L s Hi a k Hc Hk20) as (s' & L' & -> & Hi' & (E1 & E2 & E3) & Hw). cbn [mbind option_bind].
    pose proof (ck_bound _ _ _ (hi_cells _ _ _ _ Hi) a k _ Hc) as Hb. pose proof (pow2_le order k ltac:(pose proof (ck_order _ _ _ (hi_cells _ _ _ _ Hi) a k _ Hc); lia)).
    rewrite u64_small by (unfold in_u64, HEADER, BUNIX_ALLOC_HEAP_BASE in *; lia). exists (a + HEADER), s'. split; [done|].
    exists (<[a := (k, true)]> C), R, L'. do 2 (split; [done|]). split; [by eapply writes_quiet; [apply Hi|..]|]. right. exists a, k. split; [done|].
    split; [apply live_none; intros j; rewrite Hc; congruence|]. split; [apply live_use|]. unfold HEADER. lia.
Qed.

Lemma alloc_ok C R L s size : heap_inv C R L s -> 0 <= size -> alloc_next s + 4 * (size + 2 ^ 20) < 2 ^ 64 ->
  exists p s', bunix_alloc size s = Some (p, s') /\ allocated C size s p s'.
Proof.
  intros Hi H0 Hroom. pose proof (ck_limit _ _ _ (hi_cells _ _ _ _ Hi)) as [Hlim _]. unfold BUNIX_ALLOC_HEAP_BASE in Hlim.
  unfold bunix_alloc. pose proof (order_for_ok size H0 ltac:(lia)) as Ho. cbv zeta in *. set (order := bunix_alloc_order_for size) in *.
  destruct Ho as [[Ho Hsize]|[-> Hbig]]; [|by apply (large_alloc_ok C R L)]. rewrite (proj2 (Z.eqb_neq order 0)) by lia.
  destruct (find_block_ok C R L s order Hi Ho ltac:(lia)) as (block & s1 & -> & C1 & R1 & L1 & Hi1 & E1 & Hq1 & Hcase). cbn [mbind option_bind].
  destruct Hcase as [(-> & Hl & Href)|(Hb0 & k & Hk & Hnew & Hl)].
  { cbn [Z.eqb]. exists 0, s1. split; [done|]. exists C1, R1, L1. do 3 (split; [done|]). by left. }
  rewrite (proj2 (Z.eqb_neq block 0) Hb0). assert (C1 !! block = Some (k, true)) as Hb by (apply live_cell_lookup; rewrite Hl; apply lookup_insert_eq).
  destruct (split_block_ok 16 C1 R1 L1 s1 block k order Hi1 Hb ltac:(lia) ltac:(lia) ltac:(lia)) as (s2 & C2 & L2 & -> & Hi2 & (F1 & F2 & F3) & Hl2 & Hq2). cbn [mbind option_bind].
  assert (C2 !! block = Some (order, true)) as Hb2 by (apply live_cell_lookup; rewrite Hl2; apply lookup_insert_eq).
  destruct (hi_header _ _ _ _ Hi2 block order _ Hb2) as (b & Hbb & Hm & Hbo & Hbf). rewrite Hbb. cbn [mbind option_bind].
  pose proof (ck_bound _ _ _ (hi_cells _ _ _ _ Hi2) block order _ Hb2) as Hbd. pose proof (ck_limit _ _ _ (hi_cells _ _ _ _ Hi2)) as [Hlim2 _]. unfold BUNIX_ALLOC_HEAP_BASE in *.
  rewrite u64_small by (unfold in_u64, HEADER; lia). eexists _, _. split; [done|]. exists C2, R1, L2. split; [by apply (header_update _ _ _ _ block order)|].
  split; [simpl; congruence|]. rewrite Hl in *. rewrite insert_insert_eq in Hl2. rewrite delete_insert_id in Hq2 by done. split.
  - eapply heap_quiet_trans; [exact Hq1|]. eapply heap_quiet_trans; [exact Hq2|]. eapply (insert_quiet C2 R1); [apply Hi2| |eauto]. rewrite Hl2. by apply insert_subseteq.
  - right. exists block, order. unfold HEADER. done.
Qed.

(** ** Release *)

Lemma merge_block_ok fuel : forall C R L s block k, heap_inv C R L s -> C !! block = Some (k, true) -> k <= 20 -> (Z.to_nat (20 - k) < fuel)%nat ->
  exists block' k' s' C' L', merge_block fuel block s = Some (block', s') /\ heap_inv C' R L' s' /\ same s s' /\ C' !! block' = Some (k', true) /\ k' <= 20 /\
    (k' < 20 -> C' !! buddy block' k' <> Some (k', false)) /\ live C' = <[block' := k']> (delete block (live C)) /\ live C !! block' = (if decide (block' = block) then Some k else None) /\
    quiet (delete block (live C)) s s'.
Proof.
  induction fuel as [|fuel IH]; intros C R L s block k Hi Hb Hk Hf; [lia|]. cbn [merge_block]. pose proof (hi_cells _ _ _ _ Hi) as Hc.
  destruct (hi_header _ _ _ _ Hi block k _ Hb) as (b & Hbb & Hm & Hbo & Hfr). rewrite Hbb. cbn [mbind option_bind]. rewrite Hbo. unfold BUNIX_ALLOC_MAX_ORDER.
  assert (forall x, Some (block, s) = x -> (k < 20 -> C !! buddy block k <> Some (k, false)) ->
    exists block' k' s' C' L', x = Some (block', s') /\ heap_inv C' R L' s' /\ same s s' /\ C' !! block' = Some (k', true) /\ k' <= 20 /\
    (k' < 20 -> C' !! buddy block' k' <> Some (k', false)) /\ live C' = <[block' := k']> (delete block (live C)) /\ live C !! block' = (if decide (block' = block) then Some k else None) /\
    quiet (delete block (live C)) s s') as Hstop.
  { intros x <- Hbud. exists block, k, s, C, L. do 6 (split; [done|]). assert (live C !! block = Some k) as Hlk by (by apply live_cell_lookup).
    rewrite insert_delete_eq, insert_id, decide_True by done. done. }
  destruct (Z.ltb_spec k 20) as [Hlt|Hge]; [|apply Hstop; [done|lia]].
  pose proof (ck_order _ _ _ Hc block k _ Hb) as Ho. pose proof (ck_align _ _ _ Hc block k _ Hb) as Hal. pose proof (ck_bound _ _ _ Hc block k _ Hb) as Hbd.
  pose proof (ck_limit _ _ _ Hc) as [Hlim _]. pose proof (pow2_pos k ltac:(lia)) as Hp.
  rewrite buddy_of_eq by (try done; unfold BUNIX_ALLOC_HEAP_BASE in *; lia). destruct (buddy_cell C R _ Hc block k _ Hb Hlt) as (j & v & Hbj & Hj).
  set (bud := buddy block k) in *. destruct (hi_header _ _ _ _ Hi bud j v Hbj) as (o & Hoo & Hom & Hoo2 & Hof). rewrite Hoo. cbn [mbind option_bind]. rewrite Hom, Hof, Hoo2, Z.eqb_refl. cbn [negb orb].
  destruct v; cbn [Z.eqb orb].
  { apply Hstop; [done|]. rewrite Hbj. congruence. }
  destruct (Z.eqb_spec j k) as [->|Hjk]; cbn [negb].
  2: { apply Hstop; [done|]. rewrite Hbj. congruence. }
  destruct (block_remove_ok C R L s Hi bud k Hbj ltac:(lia)) as (s1 & L1 & -> & Hi1 & (E1 & E2 & E3) & Hw1). cbn [mbind option_bind].
  assert (bud <> block) as Hne by (unfold bud, buddy; destruct (Z.testbit block k); lia).
  set (c := if bud <? block then bud else block). assert (c = Z.min block bud) as Hcm by (unfold c; destruct (Z.ltb_spec bud block); lia).
  set (C1 := <[bud := (k, true)]> C) in *. assert (C1 !! block = Some (k, true)) as Hb1 by (unfold C1; by rewrite lookup_insert_ne).
  assert (C1 !! bud = Some (k, true)) as Hbud1 by (unfold C1; by rewrite lookup_insert_eq).
  assert (C1 !! c = Some (k, true)) as Hc1 by (unfold c; by destruct (bud <? block)).
  destruct (hi_header _ _ _ _ Hi1 c k _ Hc1) as (bc & Hbc & Hbm & Hbo' & Hbf). rewrite Hbc. cbn [mbind option_bind]. rewrite Hbo'.
  pose proof (merge_cell C1 R _ (hi_cells _ _ _ _ Hi1) block k Hb1 Hlt Hbud1) as Hc2. fold bud in Hc2. rewrite <- Hcm in Hc2.
  set (C2 := <[c := (k + 1, true)]> (delete bud (delete block C1))) in *.
  set (s2 := set_blocks (<[c := with_order (k + 1) bc]> (blocks s1)) s1).
  assert (heap_inv C2 R L1 s2) as Hi2.
  { apply (heap_step C1 R L1 s1 Hi1); try done; simpl.
    - intros x i u. unfold C2. intros [[<- [= <- <-]]|[H1 [H2 [H3 Hx]%lookup_delete_Some]%lookup_delete_Some]]%lookup_insert_Some; unfold header_ok; simpl.
      + rewrite lookup_insert_eq. eexists. split; [done|]. done.
      + rewrite lookup_insert_ne by done. by apply (hi_header _ _ _ _ Hi1).
    - intros x i. unfold C2. split.
      + intros [[_ [=]]|[H1 [H2 [H3 Hx]%lookup_delete_Some]%lookup_delete_Some]]%lookup_insert_Some. done.
      + intros Hx. rewrite lookup_insert_ne by congruence. rewrite !lookup_delete_ne; [done|..]; intros ->; congruence.
    - intros x i Hx. unfold dlink. rewrite lookup_insert_ne; [done|congruence]. }
  assert (live C2 = <[c := k + 1]> (delete block (live C))) as Hl2.
  { unfold C2. rewrite live_use, !live_delete. unfold C1. rewrite live_use, delete_insert_ne, delete_insert_id; [done| |done].
    rewrite lookup_delete_ne by done. apply live_none. intros i. rewrite Hbj. congruence. }
  destruct (IH C2 R L1 s2 c (k + 1) Hi2) as (block' & k' & s' & C' & L' & Hmb & Hi' & (F1 & F2 & F3) & Hb' & Hk' & Hbud' & Hlive & Hfresh & Hq); [unfold C2; by rewrite lookup_insert_eq|lia|lia|].
  assert (live C !! c = if decide (c = block) then Some k else None) as Hlc.
  { unfold c. destruct (Z.ltb_spec bud block); [rewrite decide_False by done; apply live_none; intros i; rewrite Hbj; congruence|].
    rewrite decide_True by done. by apply live_cell_lookup. }
  assert (delete c (delete block (live C)) = delete block (live C)) as Hdc.
  { apply delete_id. destruct (decide (c = block)) as [->|]; [by rewrite lookup_delete_eq|by rewrite lookup_delete_ne]. }
  exists block', k', s', C', L'. split; [done|]. split; [done|]. split; [unfold same, s2 in *; simpl in *; repeat split; congruence|]. do 3 (split; [done|]).
  rewrite Hl2 in *. rewrite delete_insert_eq, Hdc in *. split; [done|]. split; [|].
  - destruct (decide (block' = c)) as [->|Hbc']; [rewrite Hlc; by destruct (decide (c = block))|]. rewrite lookup_insert_ne in Hfresh by done.
    destruct (decide (block' = block)) as [->|]; [by apply live_cell_lookup|by rewrite lookup_delete_ne in Hfresh].
  - eapply heap_quiet_trans; [|exact Hq]. eapply heap_quiet_trans.
    + eapply (writes_quiet C R _ _ _ _ Hc); [apply delete_subseteq|exact Hw1].
    + eapply (insert_quiet C1 R); [apply Hi1| |eauto]. unfold C1. rewrite live_use. etrans; [apply delete_subseteq|]. apply insert_subseteq. apply live_none. intros i. rewrite Hbj. congruence.
Qed.

Lemma heap_free_ok C R L s a k : heap_inv C R L s -> C !! a = Some (k, true) ->
  exists s' C' L', bunix_free (a + HEADER) s = Some s' /\ heap_inv C' R L' s' /\ same s s' /\ live C' = delete a (live C) /\ quiet (delete a (live C)) s s'.
Proof.
  intros Hi Ha. pose proof (hi_cells _ _ _ _ Hi) as Hc. pose proof (ck_bound _ _ _ Hc a k _ Ha) as Hbd. pose proof (ck_limit _ _ _ Hc) as [Hlim _]. pose proof (cell_size C R _ Hc a k _ Ha) as Hsz.
  unfold bunix_free, HEADER, BUNIX_ALLOC_HEAP_BASE in *. rewrite (proj2 (Z.eqb_neq (a + 40) 0)) by lia. rewrite u64_small by (unfold in_u64; lia).
  replace (a + 40 - 40) with a by lia. destruct (hi_header _ _ _ _ Hi a k _ Ha) as (b & Hb & Hm & Hbo & Hf). rewrite Hb. cbn [mbind option_bind]. rewrite Hm, Hf, Hbo. rewrite Z.eqb_refl. cbn [negb orb Z.eqb].
  unfold BUNIX_ALLOC_MAX_ORDER. destruct (Z.ltb_spec 20 k) as [Hk|Hk].
  - destruct (large_push_ok C R L s Hi a k Ha Hk) as (s' & L' & -> & Hi' & Hs & Hw). exists s', (<[a := (k, false)]> C), L'. do 3 (split; [done|]). rewrite live_free. split; [done|].
    eapply (writes_quiet C R); [done|apply delete_subseteq|done].
  - pose proof (ck_order _ _ _ Hc a k _ Ha) as Ho.
    destruct (merge_block_ok 16 C R L s a k Hi Ha Hk ltac:(lia)) as (c & j & s1 & C1 & L1 & -> & Hi1 & (E1 & E2 & E3) & Hcj & Hj & Hbud & Hlive & Hfresh & Hq). cbn [mbind option_bind].
    destruct (hi_header _ _ _ _ Hi1 c j _ Hcj) as (bc & Hbc & _ & Hbo' & _).
    destruct (list_push_ok C1 R L1 s1 Hi1 c j bc Hcj Hj Hbud Hbo') as (s' & L' & Hp & Hi' & (F1 & F2 & F3) & Hw).
    assert (set_blocks (<[c := bc]> (blocks s1)) s1 = s1) as E by (unfold set_blocks; rewrite insert_id by done; by destruct s1). rewrite E in Hp.
    exists s', (<[c := (j, false)]> C1), L'. split; [done|]. split; [done|]. split; [unfold same; repeat split; congruence|].
    assert (delete a (live C) !! c = None) as Hdc by (destruct (decide (c = a)) as [->|]; [by rewrite lookup_delete_eq|by rewrite lookup_delete_ne]).
    rewrite live_free, Hlive, delete_insert_id by done. split; [done|]. eapply heap_quiet_trans; [exact Hq|].
    eapply (writes_quiet C1 R); [apply Hi1| |exact Hw]. rewrite Hlive. by apply insert_subseteq.
Qed.
