(* ===== verification/AllocRun.v ===== *)
(** * The heap of user programs: what programs rely on

    A program sees pointers with the number of bytes it may use behind each.
    Every call keeps the blocks of the program apart and away from the headers;
    the theorems are about every sequence of calls and stores. *)
From stdpp Require Import gmap list.
From Stdlib Require Import ZArith Lia ZifyBool.
From S2P Require Import Prelude Dll Alloc AllocHeap.

Import Alloc.
Open Scope Z_scope.
Open Scope machine_scope.

#[local] Arguments Z.pow : simpl never.
#[local] Arguments bunix_alloc_index : simpl never.

(** The pointers a program holds, with their capacities. *)
Notation held_map := (gmap Z Z).

Definition held (C : cells) : held_map := kmap (Z.add HEADER) ((fun k => 2 ^ k - HEADER) <$> live C).

Definition heap_rep (A : held_map) (s : heap) : Prop := exists C R L, heap_inv C R L s /\ A = held C.

Lemma held_lookup C p cap : held C !! p = Some cap <-> exists k, C !! (p - HEADER) = Some (k, true) /\ cap = 2 ^ k - HEADER.
Proof.
  unfold held. rewrite lookup_kmap_Some by (intros x y; lia). split.
  - intros (a & -> & Ha). rewrite lookup_fmap in Ha. destruct (live C !! a) as [k|] eqn:E; [|done]. injection Ha as <-. apply live_cell_lookup in E.
    exists k. replace (HEADER + a - HEADER) with a by lia. done.
  - intros (k & Hk & ->). exists (p - HEADER). split; [lia|]. apply live_cell_lookup in Hk. by rewrite lookup_fmap, Hk.
Qed.

Lemma held_insert C C' a k : live C' = <[a := k]> (live C) -> held C' = <[a + HEADER := 2 ^ k - HEADER]> (held C).
Proof. intros E. unfold held. rewrite E, fmap_insert, kmap_insert by (apply _ || (intros x y; lia)). by rewrite Z.add_comm. Qed.

Lemma held_delete C C' a : live C' = delete a (live C) -> held C' = delete (a + HEADER) (held C).
Proof. intros E. unfold held. rewrite E, fmap_delete, kmap_delete by (apply _ || (intros x y; lia)). by rewrite Z.add_comm. Qed.

Lemma held_eq C C' : live C' = live C -> held C' = held C.
Proof. intros E. unfold held. by rewrite E. Qed.

Lemma held_none C a : live C !! a = None -> held C !! (a + HEADER) = None.
Proof.
  intros Ha. destruct (held C !! (a + HEADER)) as [cap|] eqn:E; [|done]. apply held_lookup in E as (k & Hk & _). replace (a + HEADER - HEADER) with a in Hk by lia.
  apply live_cell_lookup in Hk. congruence.
Qed.

(** ** What a program may assume of its pointers *)

(** Blocks do not overlap each other or the header in front of a block, are in
    the heap, and are aligned to eight bytes. *)
Definition apart (A : held_map) (limit : Z) : Prop :=
  (forall p c q d, A !! p = Some c -> A !! q = Some d -> p < q -> p + c + HEADER <= q) /\
  (forall p c, A !! p = Some c -> BUNIX_ALLOC_HEAP_BASE + HEADER <= p /\ 0 < c /\ p + c <= limit /\ p mod 8 = 0).

Lemma rep_apart A s : heap_rep A s -> apart A (alloc_next s) /\ alloc_next s < 2 ^ 64.
Proof.
  intros (C & R & L & Hi & ->). pose proof (hi_cells _ _ _ _ Hi) as Hc. split; [|apply Hc]. unfold HEADER. split.
  - intros p c q d (k & Hk & ->)%held_lookup (j & Hj & ->)%held_lookup Hlt. pose proof (ck_apart _ _ _ Hc _ _ _ _ _ _ Hk Hj). unfold HEADER in *. lia.
  - intros p c (k & Hk & ->)%held_lookup. pose proof (ck_bound _ _ _ Hc _ _ _ Hk). pose proof (cell_size _ _ _ Hc _ _ _ Hk). unfold HEADER in *. do 3 (split; [lia|]).
    pose proof (ck_order _ _ _ Hc _ _ _ Hk). destruct (aligned_le _ 3 k ltac:(lia) (ck_align _ _ _ Hc _ _ _ Hk)) as [q Hq]. change (2 ^ 3) with 8 in Hq.
    replace p with (8 * (q + 5)) by lia. rewrite Z.mul_comm. apply Z.mod_mul. lia.
Qed.

(** ** Calls *)

Inductive op :=
  | Malloc (size : Z)
  | Free (ptr : Z)
  | Calloc (count size : Z)
  | Realloc (ptr old_size new_size : Z)
  | Store (a v : Z)
  | Scribble (a : Z) (b : option alloc_block).

Definition exec (o : op) (s : heap) : option (Z * heap) :=
  match o with
  | Malloc size => bunix_alloc size s
  | Free ptr => s ← bunix_free ptr s; Some (0, s)
  | Calloc count size => bunix_calloc count size s
  | Realloc ptr old_size new_size => bunix_realloc ptr old_size new_size s
  | Store a v => Some (0, store a v s)
  | Scribble a b => Some (0, scribble a b s)
  end.

(** A request leaves the addresses of the heap below [2^64]. *)
Definition room (size : Z) (s : heap) : Prop := alloc_next s + 4 * (size + 2 ^ 20) < 2 ^ 64.

(** Programs pass their own pointers and store within their own blocks. *)
Definition pre (A : held_map) (s : heap) (o : op) : Prop :=
  match o with
  | Malloc size => 0 <= size /\ room size s
  | Free ptr => ptr = 0 \/ is_Some (A !! ptr)
  | Calloc count size => in_u64 count /\ in_u64 size /\ room (count *w size) s
  | Realloc ptr old_size new_size => (ptr = 0 \/ exists cap, A !! ptr = Some cap /\ old_size <= cap) /\ 0 <= old_size /\ 0 <= new_size /\ room new_size s
  | Store a _ => exists p cap, A !! p = Some cap /\ p <= a < p + cap
  | Scribble a _ => exists p cap, A !! p = Some cap /\ p - HEADER < a < p + cap
  end.

(** A new block of at least [size] bytes. *)
Definition gains (A : held_map) (size p : Z) (A' : held_map) : Prop := exists cap, size <= cap /\ A !! p = None /\ A' = <[p := cap]> A.

Definition post (A : held_map) (s : heap) (o : op) (r : Z) (A' : held_map) (s' : heap) : Prop :=
  match o with
  | Malloc size => bytes s' = bytes s /\ (r = 0 /\ A' = A /\ refused s \/ gains A size r A')
  | Free ptr => bytes s' = bytes s /\ A' = delete ptr A
  | Calloc count size =>
      r = 0 /\ A' = A /\ bytes s' = bytes s /\ (refused s \/ 2 ^ 64 <= count * size) \/
      gains A (count * size) r A' /\ forall x, bytes s' !! x = if decide (r <= x < r + count * size) then Some 0 else bytes s !! x
  | Realloc ptr old_size new_size =>
      if ptr =? 0 then bytes s' = bytes s /\ (r = 0 /\ A' = A /\ refused s \/ gains A new_size r A')
      else if new_size =? 0 then r = 0 /\ bytes s' = bytes s /\ A' = delete ptr A
      else r = 0 /\ A' = A /\ bytes s' = bytes s /\ refused s \/
        (exists A1, gains A new_size r A1 /\ A' = delete ptr A1) /\
        forall x, bytes s' !! x = if decide (r <= x < r + Z.min old_size new_size) then Some (default 0 (bytes s !! (ptr + (x - r)))) else bytes s !! x
  | Store a v => A' = A /\ bytes s' = <[a := v]> (bytes s)
  | Scribble _ _ => A' = A /\ bytes s' = bytes s
  end.

(** The allocator does not write into the blocks the program keeps. *)
Definition undisturbed (A A' : held_map) (s s' : heap) : Prop :=
  forall x p cap, A !! p = Some cap -> A' !! p = Some cap -> p - HEADER < x < p + cap -> blocks s' !! x = blocks s !! x.

Definition program_store (o : op) : bool := match o with Scribble _ _ => true | _ => false end.

(** ** Each call *)

Lemma quiet_undisturbed C C' s s' M : quiet M s s' -> (forall a k, live C !! a = Some k -> live C' !! a = Some k -> M !! a = Some k) ->
  undisturbed (held C) (held C') s s'.
Proof.
  intros Hq HM x p cap (k & Hk & ->)%held_lookup (j & Hj & E)%held_lookup Hx. apply live_cell_lookup in Hk, Hj. assert (0 <= k) as H0.
  { destruct (Z.lt_ge_cases k 0); [|done]. rewrite (Z.pow_neg_r 2 k) in Hx by done. unfold HEADER in Hx. lia. }
  assert (j = k) as ->.
  { apply (Z.pow_inj_r 2); [lia| |done|lia]. destruct (Z.lt_ge_cases j 0); [|done]. rewrite (Z.pow_neg_r 2 j) in E by done. pose proof (pow2_pos k H0). lia. }
  apply (Hq x (p - HEADER) k); [by apply HM|lia].
Qed.

Lemma malloc_exec A s size : heap_rep A s -> 0 <= size -> room size s ->
  exists p s' A', bunix_alloc size s = Some (p, s') /\ heap_rep A' s' /\ post A s (Malloc size) p A' s' /\ undisturbed A A' s s' /\ A ⊆ A'.
Proof.
  intros (C & R & L & Hi & ->) H0 Hr. destruct (alloc_ok C R L s size Hi H0 Hr) as (p & s' & E & C' & R' & L' & Hi' & Eb & Hq & Hcase).
  exists p, s', (held C'). split; [done|]. split; [by exists C', R', L'|]. split; [split; [done|]|].
  - destruct Hcase as [(-> & Hl & Href)|(a & k & -> & Hnone & Hl & Hsz)]; [left|right].
    + by rewrite (held_eq C C').
    + exists (2 ^ k - HEADER). split; [lia|]. split; [by apply held_none|by apply held_insert].
  - split; [by apply (quiet_undisturbed C C' s s' (live C))|]. destruct Hcase as [(-> & Hl & Href)|(a & k & -> & Hnone & Hl & Hsz)].
    + by rewrite (held_eq C C').
    + rewrite (held_insert C C' a k) by done. apply insert_subseteq. by apply held_none.
Qed.

Lemma free_exec A s ptr : heap_rep A s -> ptr = 0 \/ is_Some (A !! ptr) ->
  exists s', bunix_free ptr s = Some s' /\ heap_rep (delete ptr A) s' /\ bytes s' = bytes s /\ undisturbed A (delete ptr A) s s'.
Proof.
  intros Hrep Hp. destruct (decide (ptr = 0)) as [->|Hne].
  - exists s. split; [done|]. rewrite delete_id; [done|]. destruct (A !! 0) as [c|] eqn:E; [|done]. destruct (rep_apart A s Hrep) as [[_ Hb] _]. specialize (Hb 0 c E).
    unfold BUNIX_ALLOC_HEAP_BASE, HEADER in Hb. lia.
  - destruct Hp as [|[cap Hcap]]; [done|]. destruct Hrep as (C & R & L & Hi & ->). apply held_lookup in Hcap as (k & Hk & ->).
    destruct (heap_free_ok C R L s _ k Hi Hk) as (s' & C' & L' & E & Hi' & (_ & Eb & _) & Hl & Hq). replace (ptr - HEADER + HEADER) with ptr in E by lia.
    assert (held C' = delete ptr (held C)) as Hh by (rewrite (held_delete C C' (ptr - HEADER)) by done; f_equal; lia).
    exists s'. split; [done|]. split; [exists C', R, L'; done|]. split; [done|]. rewrite <- Hh. apply (quiet_undisturbed C C' s s' (delete (ptr - HEADER) (live C))); [done|].
    intros a j _ Hj. by rewrite Hl in Hj.
Qed.

Lemma rep_bytes A s m : heap_rep A s -> heap_rep A (set_bytes m s).
Proof. intros (C & R & L & Hi & ->). exists C, R, L. split; [|done]. apply (heap_step C R L s Hi); try done; apply Hi. Qed.

Lemma scribble_exec A s a b : heap_rep A s -> (exists p cap, A !! p = Some cap /\ p - HEADER < a < p + cap) -> heap_rep A (scribble a b s).
Proof.
  intros (C & R & L & Hi & ->) (p & cap & (k & Hk & ->)%held_lookup & Ha). exists C, R, L. split; [|done].
  assert (C !! a = None) as Hnone.
  { destruct (C !! a) as [[j u]|] eqn:E; [|done]. exfalso. apply (cell_inside C R _ (hi_cells _ _ _ _ Hi) _ k true a j u Hk E). lia. }
  apply (heap_step C R L s Hi); try done; simpl; [apply Hi|..].
  - intros x j u Hx. destruct (hi_header _ _ _ _ Hi x j u Hx) as (h & Hh & Hr). exists h. split; [|done]. simpl. rewrite lookup_partial_alter_ne; [done|congruence].
  - intros x j Hx. unfold dlink. rewrite lookup_partial_alter_ne; [done|congruence].
Qed.

Lemma undisturbed_refl A A' s : undisturbed A A' s s.
Proof. done. Qed.

Lemma calloc_exec A s count size : heap_rep A s -> in_u64 count -> in_u64 size -> room (count *w size) s ->
  exists p s' A', bunix_calloc count size s = Some (p, s') /\ heap_rep A' s' /\ post A s (Calloc count size) p A' s' /\ undisturbed A A' s s'.
Proof.
  intros Hrep Hc Hz Hr. unfold bunix_calloc, in_u64 in *. destruct (decide (count * size < 2 ^ 64)) as [Hfit|Hover].
  - assert (count *w size = count * size) as E by (apply u64_small; unfold in_u64; nia). rewrite E in *.
    assert (negb (size =? 0) && negb (count * size / size =? count) = false) as ->.
    { destruct (Z.eqb_spec size 0); [done|]. rewrite Z.div_mul by done. by rewrite Z.eqb_refl. }
    destruct (malloc_exec A s (count * size) Hrep ltac:(nia) Hr) as (p & s1 & A' & -> & Hrep' & [Eb Hcase] & Hu & _). cbn [mbind option_bind].
    destruct (rep_apart A' s1 Hrep') as [[_ Hb] _]. destruct Hcase as [(-> & -> & Href)|Hg].
    + cbn [Z.eqb]. exists 0, s1, A. split; [done|]. split; [done|]. split; [|done]. left. do 3 (split; [done|]). by left.
    + assert (p <> 0) as Hp0.
      { destruct Hg as (cap & _ & _ & ->). specialize (Hb p cap (lookup_insert_eq _ _ _)). unfold BUNIX_ALLOC_HEAP_BASE, HEADER in Hb. lia. }
      rewrite (proj2 (Z.eqb_neq p 0) Hp0). eexists p, _, A'. split; [done|]. split; [by apply rep_bytes|]. split; [|done]. right. split; [done|].
      intros x. simpl. rewrite zero_bytes_lookup, Z2Nat.id by nia. by rewrite Eb.
  - assert (count *w size / size <> count) as Hne.
    { unfold u64. pose proof (Z.mod_pos_bound (count * size) (2 ^ 64) ltac:(lia)). intros E. assert (0 < size) by nia.
      pose proof (Z.mul_div_le ((count * size) mod 2 ^ 64) size ltac:(lia)). nia. }
    rewrite (proj2 (Z.eqb_neq _ _) Hne). rewrite (proj2 (Z.eqb_neq size 0)) by nia. cbn [negb andb]. exists 0, s, A. split; [done|]. split; [done|]. split; [|done].
    left. do 3 (split; [done|]). right. lia.
Qed.

Lemma realloc_exec A s ptr old new : heap_rep A s -> pre A s (Realloc ptr old new) ->
  exists p s' A', bunix_realloc ptr old new s = Some (p, s') /\ heap_rep A' s' /\ post A s (Realloc ptr old new) p A' s' /\ undisturbed A A' s s'.
Proof.
  intros Hrep (Hptr & Ho & Hn & Hr). unfold bunix_realloc, post. destruct (Z.eqb_spec ptr 0) as [->|Hp0].
  { destruct (malloc_exec A s new Hrep Hn Hr) as (p & s1 & A' & -> & Hrep' & [Eb Hcase] & Hu & _). exists p, s1, A'. done. }
  destruct Hptr as [|(cap & Hcap & Hle)]; [done|]. destruct (Z.eqb_spec new 0) as [->|Hn0].
  { destruct (free_exec A s ptr Hrep ltac:(right; eauto)) as (s' & -> & Hrep' & Eb & Hu). cbn [mbind option_bind]. exists 0, s', (delete ptr A). done. }
  destruct (malloc_exec A s new Hrep Hn Hr) as (p & s1 & A1 & -> & Hrep1 & [Eb Hcase] & Hu & Hsub). cbn [mbind option_bind].
  destruct (rep_apart A1 s1 Hrep1) as [[Hap Hb] _]. destruct Hcase as [(-> & -> & Href)|Hg].
  { cbn [Z.eqb]. exists 0, s1, A. split; [done|]. split; [done|]. split; [|done]. by left. }
  destruct Hg as (cap' & Hsz & Hnone & ->). pose proof (lookup_insert_eq A p cap') as Hpc. pose proof (Hb p cap' Hpc) as Hpb. unfold BUNIX_ALLOC_HEAP_BASE, HEADER in Hpb.
  rewrite (proj2 (Z.eqb_neq p 0)) by lia. assert (ptr <> p) as Hne by (intros ->; congruence).
  assert (<[p:=cap']> A !! ptr = Some cap) as Hptr by (by rewrite lookup_insert_ne).
  pose proof (rep_bytes _ _ (copy_bytes (Z.to_nat (if old <? new then old else new)) p ptr (bytes s1)) Hrep1) as Hrep2.
  destruct (free_exec _ _ ptr Hrep2 ltac:(right; eauto)) as (s3 & -> & Hrep3 & Eb3 & Hu3). cbn [mbind option_bind].
  exists p, s3, (delete ptr (<[p := cap']> A)). split; [done|]. split; [done|]. split.
  - right. split; [exists (<[p:=cap']> A); split; [exists cap'; done|done]|]. intros x. rewrite Eb3. simpl.
    assert (Z.of_nat (Z.to_nat (if old <? new then old else new)) = Z.min old new) as Hcount by (destruct (Z.ltb_spec old new); lia).
    rewrite copy_bytes_lookup; [by rewrite Hcount, Eb|]. rewrite Hcount. destruct (Z.lt_ge_cases p ptr).
    + pose proof (Hap p cap' ptr cap Hpc Hptr ltac:(lia)). unfold HEADER in *. lia.
    + pose proof (Hap ptr cap p cap' Hptr Hpc ltac:(lia)). unfold HEADER in *. lia.
  - intros x q c Hq Hq' Hx. rewrite (Hu3 x q c); [|exact (lookup_weaken _ _ _ _ Hq Hsub)|done|done]. simpl. apply (Hu x q c); [done|exact (lookup_weaken _ _ _ _ Hq Hsub)|done].
Qed.

Lemma heap_exec_ok A s o : heap_rep A s -> pre A s o ->
  exists r s' A', exec o s = Some (r, s') /\ heap_rep A' s' /\ post A s o r A' s' /\ (program_store o = false -> undisturbed A A' s s').
Proof.
  intros Hrep Hpre. destruct o as [size|ptr|count size|ptr old new|a v|a b]; simpl in Hpre; cbn [exec].
  - destruct Hpre as [H0 Hr]. destruct (malloc_exec A s size Hrep H0 Hr) as (p & s' & A' & E & Hrep' & Hpost & Hu & _). exists p, s', A'. done.
  - destruct (free_exec A s ptr Hrep Hpre) as (s' & -> & Hrep' & Eb & Hu). exists 0, s', (delete ptr A). done.
  - destruct Hpre as (H1 & H2 & Hr). destruct (calloc_exec A s count size Hrep H1 H2 Hr) as (p & s' & A' & E & Hrep' & Hpost & Hu). exists p, s', A'. done.
  - destruct (realloc_exec A s ptr old new Hrep Hpre) as (p & s' & A' & E & Hrep' & Hpost & Hu). exists p, s', A'. done.
  - exists 0, (store a v s), A. split; [done|]. split; [by apply rep_bytes|]. done.
  - exists 0, (scribble a b s), A. split; [done|]. split; [by apply scribble_exec|]. done.
Qed.

(** ** Sequences of calls *)

(** The bytes a program may use behind a pointer: its block without the header. *)
Definition usable (s : heap) (p : Z) : Z :=
  match blocks s !! (p - HEADER) with Some b => 2 ^ bk_order b - HEADER | None => 0 end.

(** What the program holds after a call that returned [r]. *)
Definition holds_after (A : held_map) (o : op) (r : Z) (s' : heap) : held_map :=
  let gained := if r =? 0 then A else <[r := usable s' r]> A in
  match o with
  | Malloc _ | Calloc _ _ => gained
  | Free ptr => delete ptr A
  | Realloc ptr _ new_size =>
      if ptr =? 0 then gained
      else if new_size =? 0 then delete ptr A
      else if r =? 0 then A else delete ptr gained
  | Store _ _ | Scribble _ _ => A
  end.

(** Calls that meet their preconditions, with what the program holds after
    them. *)
Inductive heap_run (s0 : heap) : list op -> held_map -> heap -> Prop :=
  | heap_run_nil : heap_run s0 [] ∅ s0
  | heap_run_snoc ops A s o r s' : heap_run s0 ops A s -> pre A s o -> exec o s = Some (r, s') ->
      heap_run s0 (ops ++ [o]) (holds_after A o r s') s'.

Lemma rep_usable A s p cap : heap_rep A s -> A !! p = Some cap -> usable s p = cap /\ p <> 0.
Proof.
  intros Hrep Hp. destruct (rep_apart A s Hrep) as [[_ Hb] _]. specialize (Hb p cap Hp). unfold BUNIX_ALLOC_HEAP_BASE, HEADER in Hb. split; [|lia].
  destruct Hrep as (C & R & L & Hi & ->). apply held_lookup in Hp as (k & Hk & ->). destruct (hi_header _ _ _ _ Hi _ _ _ Hk) as (h & Hh & Hr).
  unfold usable. rewrite Hh. by destruct Hr as (_ & -> & _).
Qed.

Lemma gains_after A A' s size p : heap_rep A' s -> gains A size p A' -> A' = if p =? 0 then A else <[p := usable s p]> A.
Proof.
  intros Hrep (cap & _ & _ & ->). destruct (rep_usable _ s p cap Hrep (lookup_insert_eq _ _ _)) as [-> Hne]. by rewrite (proj2 (Z.eqb_neq p 0) Hne).
Qed.

(** The program's account is the one the representation has. *)
Lemma post_after A s o r A' s' : heap_rep A s -> pre A s o -> heap_rep A' s' -> post A s o r A' s' -> A' = holds_after A o r s'.
Proof.
  intros Hrep0 Hpre Hrep. destruct o as [size|ptr|count size|ptr old new|a v|a b]; simpl; [..|by intros [-> _]|by intros [-> _]].
  - intros [_ [(-> & -> & _)|Hg]]; [done|by eapply gains_after].
  - by intros [_ ->].
  - intros [(-> & -> & _)|[Hg _]]; [done|by eapply gains_after].
  - destruct (Z.eqb_spec ptr 0) as [->|Hp0]; [intros [_ [(-> & -> & _)|Hg]]; [done|by eapply gains_after]|].
    destruct (Z.eqb_spec new 0) as [->|Hn0]; [by intros (_ & _ & ->)|]. intros [(-> & -> & _)|[(A1 & (cap & _ & Hnone & ->) & ->) _]]; [done|].
    destruct Hpre as ([|(c & Hc & _)] & _); [done|]. assert (ptr <> r) as Hne by (intros ->; congruence).
    destruct (rep_usable _ s' r cap Hrep) as [-> Hr0]; [rewrite lookup_delete_ne by done; apply lookup_insert_eq|]. by rewrite (proj2 (Z.eqb_neq r 0) Hr0).
Qed.

Lemma start_rep oracle : heap_rep ∅ (heap_start oracle).
Proof.
  assert (forall c, head_of (heap_start oracle) c = 0) as Hhead.
  { intros c. unfold head_of. destruct (c =? 21); [done|]. cbn [alloc_free heap_start].
    destruct (replicate _ _ !! _) as [x|] eqn:E; [|done]. by apply lookup_replicate in E as [-> _]. }
  exists ∅, ∅, (fun _ => []). split; [|unfold held, live; by rewrite omap_empty, fmap_empty, kmap_empty]. constructor; try done.
  - constructor; try (intros; simplify_map_eq; done); try (intros; set_solver). cbn [alloc_next heap_start]. unfold BUNIX_ALLOC_HEAP_BASE. split; [lia|]. by exists 256.
  - intros c _. rewrite Hhead. split; [done|]. split; [constructor|]. split; [set_solver|done].
  - intros c a Hc. split; [set_solver|]. intros (k & _ & Hk). simplify_map_eq.
Qed.

Lemma run_rep oracle ops A s : heap_run (heap_start oracle) ops A s -> heap_rep A s.
Proof.
  intros H. induction H as [|ops A s o r s' _ IH Hpre E]; [apply start_rep|].
  destruct (heap_exec_ok A s o IH Hpre) as (r1 & s1 & A1 & E1 & Hrep & Hpost & _). rewrite E in E1. injection E1 as <- <-.
  by rewrite <- (post_after A s o r A1 s').
Qed.

(** C5: the heap serves a program correctly.  After any sequence of correct
    calls and stores, every further call that is correct ends without undefined
    behaviour and gives what its name says: a new block is at least as large as
    asked for, is zeroed or holds the old contents where promised, allocation
    fails only when the kernel gives no memory or the size overflows, and the
    allocator writes nothing into the blocks the program keeps. *)
Theorem alloc_refines oracle ops A s o : heap_run (heap_start oracle) ops A s -> pre A s o ->
  exists r s' A', exec o s = Some (r, s') /\ heap_run (heap_start oracle) (ops ++ [o]) A' s' /\ post A s o r A' s' /\
    (program_store o = false -> undisturbed A A' s s').
Proof.
  intros Hrun Hpre. pose proof (run_rep oracle ops A s Hrun) as Hrep. destruct (heap_exec_ok A s o Hrep Hpre) as (r & s' & A' & E & Hrep' & Hpost & Hu).
  exists r, s', A'. split; [done|]. split; [|done]. rewrite (post_after A s o r A' s') by done. by eapply heap_run_snoc.
Qed.

(** The calls that can return a new block. *)
Definition allocates (o : op) : bool :=
  match o with
  | Malloc _ | Calloc _ _ => true
  | Realloc _ _ new_size => negb (new_size =? 0)
  | _ => false
  end.

Lemma allocates_fresh A s o r A' s' : heap_rep A s -> pre A s o -> heap_rep A' s' -> post A s o r A' s' -> allocates o = true -> r <> 0 -> A !! r = None.
Proof.
  intros Hrep0 Hpre Hrep. destruct o as [size|ptr|count size|ptr old new|a v|a b]; simpl; try done.
  - intros [_ [(-> & _)|(cap & _ & Hn & _)]]; done.
  - intros [(-> & _)|[(cap & _ & Hn & _) _]]; done.
  - case_match; [intros [_ [(-> & _)|(cap & _ & Hn & _)]]; done|]. destruct (new =? 0); [done|].
    intros [(-> & _)|[(A1 & (cap & _ & Hn & _) & _) _]]; done.
Qed.

(** C27: after any sequence of correct calls and stores, the blocks a program
    holds do not overlap, neither each other nor the headers, lie in memory the
    heap has obtained, and are aligned to words; and a block that a further
    call returns is not one the program holds. *)
Theorem alloc_apart oracle ops A s : heap_run (heap_start oracle) ops A s ->
  apart A (alloc_next s) /\
  forall o r s', pre A s o -> exec o s = Some (r, s') -> allocates o = true -> r <> 0 -> A !! r = None.
Proof.
  intros Hrun. pose proof (run_rep _ _ _ _ Hrun) as Hrep. split; [by apply rep_apart|]. intros o r s' Hpre E Ho Hr.
  destruct (heap_exec_ok A s o Hrep Hpre) as (r1 & s1 & A1 & E1 & Hrep1 & Hpost & _). rewrite E in E1. injection E1 as <- <-. by eapply allocates_fresh.
Qed.

Lemma no_small_cell C R L s : heap_inv C R L s -> live C = ∅ -> forall k a u, C !! a = Some (k, u) -> k < 20 -> False.
Proof.
  intros Hi Hl. assert (forall a k u, C !! a = Some (k, u) -> u = false) as Hfree.
  { intros a k [] Ha; [|done]. apply live_cell_lookup in Ha. rewrite Hl in Ha. by simplify_map_eq. }
  assert (forall n : nat, forall k a u, k < Z.of_nat n -> C !! a = Some (k, u) -> k < 20 -> False) as Hind.
  { induction n as [|n IH]; intros k a u Hn Ha Hk; [pose proof (ck_order _ _ _ (hi_cells _ _ _ _ Hi) a k u Ha); lia|].
    destruct (buddy_cell C R _ (hi_cells _ _ _ _ Hi) a k u Ha Hk) as (j & v & Hb & Hj). pose proof (Hfree _ _ _ Ha) as ->. pose proof (Hfree _ _ _ Hb) as ->.
    destruct (Z.eq_dec j k) as [->|]; [by apply (ck_merged _ _ _ (hi_cells _ _ _ _ Hi) a k)|]. apply (IH j (buddy a k) false); [lia|done|lia]. }
  intros k a u Ha Hk. apply (Hind (Z.to_nat (k + 1)) k a u); [|done|done]. pose proof (ck_order _ _ _ (hi_cells _ _ _ _ Hi) a k u Ha). lia.
Qed.

(** C29: everything that is freed is merged again.  When a program has released
    all its blocks, no part of an arena is left on a list of smaller blocks:
    all arenas are whole. *)
Theorem alloc_coalesces oracle ops s : heap_run (heap_start oracle) ops ∅ s -> forall k, 6 <= k < 20 -> alloc_free s !! bunix_alloc_index k = Some 0.
Proof.
  intros Hrun k Hk. destruct (run_rep oracle ops ∅ s Hrun) as (C & R & L & Hi & E).
  assert (live C = ∅) as Hl.
  { apply map_eq. intros a. rewrite lookup_empty. destruct (live C !! a) as [j|] eqn:Ea; [|done]. apply live_cell_lookup in Ea.
    assert (held C !! (a + HEADER) = Some (2 ^ j - HEADER)) as Hh by (apply held_lookup; exists j; by replace (a + HEADER - HEADER) with a by lia).
    rewrite <- E in Hh. by simplify_map_eq. }
  destruct (list_head C R L s Hi k ltac:(lia)) as (head & Hh & [[-> _]|[Hc _]]); [done|]. exfalso. by apply (no_small_cell C R L s Hi Hl k head false Hc); lia.
Qed.

(** A size close to [2^64] overflows.  The size of the header is added
    without a check, so a request for [2^64 - 1] bytes is answered with a block
    of 64 bytes. *)
Theorem alloc_size_overflow : exists s', bunix_alloc (2 ^ 64 - 1) (heap_start [true]) = Some (BUNIX_ALLOC_HEAP_BASE + HEADER, s') /\
  bk_order <$> blocks s' !! BUNIX_ALLOC_HEAP_BASE = Some 6.
Proof.
  destruct (bunix_alloc (2 ^ 64 - 1) (heap_start [true])) as [[p s']|] eqn:E.
  - exists s'. assert ((r ← bunix_alloc (2 ^ 64 - 1) (heap_start [true]); b ← blocks r.2 !! BUNIX_ALLOC_HEAP_BASE; Some (r.1, bk_order b)) = Some (BUNIX_ALLOC_HEAP_BASE + HEADER, 6)) as H by (by vm_compute).
    rewrite E in H. cbn [mbind option_bind fst snd] in H. destruct (blocks s' !! BUNIX_ALLOC_HEAP_BASE) as [b|]; [|done]. injection H as -> Hb. split; [done|]. simpl. by rewrite Hb.
  - assert (is_Some (bunix_alloc (2 ^ 64 - 1) (heap_start [true]))) as [x H] by (vm_compute; eauto). congruence.
Qed.

(** ** A program that allocates and frees *)

Definition demo_ptr : Z := 268435496.

Lemma demo_malloc : exists A s, heap_run (heap_start [true]) ([] ++ [Malloc 100]) A s /\ exists cap, A = {[demo_ptr := cap]}.
Proof.
  destruct (heap_exec_ok ∅ (heap_start [true]) (Malloc 100) (start_rep [true])) as (r & s' & A' & E & Hrep & Hpost & _); [split; [done|unfold room; vm_compute; done]|].
  assert (fst <$> exec (Malloc 100) (heap_start [true]) = Some demo_ptr) as Hr by (by vm_compute). rewrite E in Hr. injection Hr as ->.
  exists (holds_after ∅ (Malloc 100) demo_ptr s'), s'. split; [eapply heap_run_snoc; [constructor|split; [done|unfold room; vm_compute; done]|done]|].
  by eexists.
Qed.

Lemma demo_free : exists s, heap_run (heap_start [true]) (([] ++ [Malloc 100]) ++ [Free demo_ptr]) ∅ s.
Proof.
  destruct demo_malloc as (A & s & Hrun & cap & ->). assert (pre {[demo_ptr := cap]} s (Free demo_ptr)) as Hpre by (right; rewrite lookup_singleton_eq; eauto).
  destruct (heap_exec_ok _ s (Free demo_ptr) (run_rep _ _ _ _ Hrun) Hpre) as (r & s' & A' & E & _). exists s'.
  pose proof (heap_run_snoc _ _ _ _ _ _ _ Hrun Hpre E) as Hrun'. simpl in Hrun'. by rewrite delete_singleton_eq in Hrun'.
Qed.

Lemma alloc_refines_witness : exists A s r s' A', heap_run (heap_start [true]) ([] ++ [Malloc 100]) A s /\ exec (Free demo_ptr) s = Some (r, s') /\
  heap_run (heap_start [true]) (([] ++ [Malloc 100]) ++ [Free demo_ptr]) A' s' /\ A' = ∅.
Proof.
  destruct demo_malloc as (A & s & Hrun & cap & EA).
  assert (pre A s (Free demo_ptr)) as Hpre by (right; rewrite EA, lookup_singleton_eq; eauto).
  destruct (alloc_refines [true] ([] ++ [Malloc 100]) A s (Free demo_ptr) Hrun Hpre) as (r & s' & A' & E & Hrun' & [_ HA] & _).
  exists A, s, r, s', A'. split; [exact Hrun|]. split; [exact E|]. split; [exact Hrun'|]. rewrite HA, EA. apply delete_singleton_eq.
Defined.

Lemma alloc_apart_witness : exists A s, heap_run (heap_start [true]) ([] ++ [Malloc 100]) A s /\ is_Some (A !! demo_ptr) /\ apart A (alloc_next s).
Proof.
  destruct demo_malloc as (A & s & Hrun & cap & EA). exists A, s. split; [exact Hrun|]. split; [rewrite EA, lookup_singleton_eq; eauto|].
  exact (proj1 (alloc_apart [true] ([] ++ [Malloc 100]) A s Hrun)).
Defined.

Lemma alloc_coalesces_witness : exists s, heap_run (heap_start [true]) (([] ++ [Malloc 100]) ++ [Free demo_ptr]) ∅ s /\ alloc_free s !! bunix_alloc_index 8 = Some 0.
Proof.
  destruct demo_free as (s & Hrun). exists s. split; [exact Hrun|].
  apply (alloc_coalesces [true] (([] ++ [Malloc 100]) ++ [Free demo_ptr]) s Hrun). lia.
Defined.
