(* ===== verification/Slab.v ===== *)
(** * The kernel heap (kernel/slab.c)

    Thirteen caches of objects of fixed sizes and an allocator of whole pages
    for what is larger, on the frames of [Pmm].  A cache has a list of slabs; a
    slab is a run of frames with a header, and its free objects are linked
    through their first word.

    Headers are a map from addresses, and so are the links of free objects; a
    header or a link that is read has to be there.  The bytes that clients
    store in their objects are a map of their own; clients overwrite old links
    inside their objects, [scribble] puts anything in such a place.  What a
    cache does is under its lock: each function is one step. *)
From stdpp Require Import gmap list.
From Stdlib Require Import ZArith Lia ZifyBool.
From S2P Require Import Prelude Pmm.

Open Scope Z_scope.
Open Scope machine_scope.

Module Slab.

Definition SLAB_MIN_ALIGN : Z := 64.
Definition sizeof_slab_header : Z := 48.
Definition sizeof_slab_large_header : Z := 16.

(** [cache] is the index in [slab_caches]. *)
Record slab_header := mk_slab_header {
  sl_page_count : Z;
  sl_object_size : Z;
  sl_object_count : Z;
  sl_free_count : Z;
  sl_first_offset : Z;
  sl_free : Z;
  sl_next : Z;
  sl_cache : nat;
}.

Record slab_large_header := mk_large_header { lg_page_count : Z; lg_size : Z }.

(** What is at the start of a run of frames, told by the magic number. *)
Inductive header :=
  | SLAB_MAGIC (slab : slab_header)
  | SLAB_LARGE_MAGIC (large : slab_large_header).

Definition cache_sizes : list Z :=
  [32; 64; 128; 256; 512; 1024; 2048; 4096; 8192; 16384; 32768; 65536; 131072].

Record state := mk_state {
  pmm_of : pmm;
  headers : gmap Z header;
  nodes : gmap Z Z;
  caches : list Z;
  slab_ready : bool;
  bytes : gmap Z Z;
}.

Definition set_pmm x s := mk_state x (headers s) (nodes s) (caches s) (slab_ready s) (bytes s).
Definition set_headers x s := mk_state (pmm_of s) x (nodes s) (caches s) (slab_ready s) (bytes s).
Definition set_nodes x s := mk_state (pmm_of s) (headers s) x (caches s) (slab_ready s) (bytes s).
Definition set_caches x s := mk_state (pmm_of s) (headers s) (nodes s) x (slab_ready s) (bytes s).
Definition set_bytes x s := mk_state (pmm_of s) (headers s) (nodes s) (caches s) (slab_ready s) x.

Definition with_free (free free_count : Z) (h : slab_header) : slab_header :=
  mk_slab_header (sl_page_count h) (sl_object_size h) (sl_object_count h) free_count (sl_first_offset h) free (sl_next h) (sl_cache h).

Definition slab_at (a : Z) (s : state) : option slab_header :=
  match headers s !! a with Some (SLAB_MAGIC h) => Some h | _ => None end.

Definition cache_for_size (size : Z) : option nat := find_idx (fun object_size => size <=? object_size) cache_sizes.

(** [for (i = 0; i < object_count; i++) { node->next = slab->free; slab->free = node; }] *)
Fixpoint link_objects (n : nat) (i start object_size free : Z) (m : gmap Z Z) : Z * gmap Z Z :=
  match n with
  | O => (free, m)
  | S n => let node := start +w i *w object_size in link_objects n (i + 1) start object_size node (<[node := free]> m)
  end.

Definition slab_bytes (object_size : Z) : Z :=
  let first_offset := align_up sizeof_slab_header SLAB_MIN_ALIGN in
  if PMM_PAGE_SIZE <? first_offset +w object_size then align_up (first_offset +w object_size) PMM_PAGE_SIZE else PMM_PAGE_SIZE.

Definition slab_grow (cache : nat) (s : state) : option (Z * state) :=
  object_size ← cache_sizes !! cache;
  head ← caches s !! cache;
  let first_offset := align_up sizeof_slab_header SLAB_MIN_ALIGN in
  let pages := slab_bytes object_size / PMM_PAGE_SIZE in
  let '(base, p) := pmm_pages_alloc_contiguous pages (pmm_of s) in
  let s := set_pmm p s in
  if base =? 0 then Some (0, s) else
  let object_count := u32 ((pages *w PMM_PAGE_SIZE -w first_offset) / object_size) in
  let '(free, m) := link_objects (Z.to_nat object_count) 0 (base +w first_offset) object_size 0 (nodes s) in
  let h := mk_slab_header (u32 pages) object_size object_count object_count (u32 first_offset) free head cache in
  Some (base, set_caches (<[cache := base]> (caches s)) (set_nodes m (set_headers (<[base := SLAB_MAGIC h]> (headers s)) s))).

Definition slab_alloc_large (size : Z) (s : state) : Z * state :=
  let offset := align_up sizeof_slab_large_header SLAB_MIN_ALIGN in
  let pages := align_up (offset +w size) PMM_PAGE_SIZE / PMM_PAGE_SIZE in
  let '(base, p) := pmm_pages_alloc_contiguous pages (pmm_of s) in
  let s := set_pmm p s in
  if base =? 0 then (0, s) else
  (base +w offset, set_headers (<[base := SLAB_LARGE_MAGIC (mk_large_header (u32 pages) size)]> (headers s)) s).

Definition slab_init (s : state) : state := mk_state (pmm_of s) (headers s) (nodes s) (replicate (length cache_sizes) 0) true (bytes s).

(** The kernel before [slab_init]. *)
Definition slab_boot (p : pmm) : state := mk_state p ∅ ∅ (replicate (length cache_sizes) 0) false ∅.

(** [while (slab != 0 && slab->free == 0) slab = slab->next;] *)
Fixpoint find_slab (fuel : nat) (slab : Z) (s : state) : option Z :=
  match fuel with
  | O => None
  | S fuel =>
      if slab =? 0 then Some 0 else
      h ← slab_at slab s;
      if sl_free h =? 0 then find_slab fuel (sl_next h) s else Some slab
  end.

Definition list_fuel (s : state) : nat := S (length (map_to_list (headers s))).

(** The first free object of a slab. *)
Definition take_object (slab : Z) (s : state) : option (Z * state) :=
  if slab =? 0 then Some (0, s) else
  h ← slab_at slab s;
  if sl_free h =? 0 then Some (0, s) else
  let node := sl_free h in
  next ← nodes s !! node;
  Some (node, set_headers (<[slab := SLAB_MAGIC (with_free next (u32 (sl_free_count h - 1)) h)]> (headers s)) s).

Definition slab_alloc (size : Z) (s : state) : option (Z * state) :=
  if negb (slab_ready s) || (size =? 0) then Some (0, s) else
  match cache_for_size size with
  | None => Some (slab_alloc_large size s)
  | Some cache =>
      head ← caches s !! cache;
      slab ← find_slab (list_fuel s) head s;
      '(slab, s) ← (if slab =? 0 then slab_grow cache s else Some (slab, s));
      take_object slab s
  end.

Definition slab_zalloc (size : Z) (s : state) : option (Z * state) :=
  '(ptr, s) ← slab_alloc size s;
  Some (ptr, if ptr =? 0 then s else set_bytes (zero_bytes (Z.to_nat size) ptr (bytes s)) s).

(** Whether the slab at [base] has an object at [addr]. *)
Definition slab_owns (addr base : Z) (h : slab_header) : bool :=
  let start := base +w sl_first_offset h in
  let stop := base +w sl_page_count h *w PMM_PAGE_SIZE in
  negb ((addr <? start) || (stop <=? addr) || negb ((addr - start) mod sl_object_size h =? 0)).

(** The slab of one cache that has the object, or null. *)
Fixpoint search_slabs (fuel : nat) (addr slab : Z) (s : state) : option Z :=
  match fuel with
  | O => None
  | S fuel =>
      if slab =? 0 then Some 0 else
      h ← slab_at slab s;
      if slab_owns addr slab h then Some slab else search_slabs fuel addr (sl_next h) s
  end.

Fixpoint search_caches (addr : Z) (heads : list Z) (s : state) : option Z :=
  match heads with
  | [] => Some 0
  | head :: heads =>
      slab ← search_slabs (list_fuel s) addr head s;
      if slab =? 0 then search_caches addr heads s else Some slab
  end.

Definition slab_free (ptr : Z) (s : state) : option state :=
  if ptr =? 0 then Some s else
  let large_base := ptr -w align_up sizeof_slab_large_header SLAB_MIN_ALIGN in
  large ← (if Z.land large_base (PMM_PAGE_SIZE - 1) =? 0 then
             h ← headers s !! large_base;
             Some (match h with SLAB_LARGE_MAGIC l => Some l | SLAB_MAGIC _ => None end)
           else Some None);
  match large with
  | Some l => Some (set_pmm (pmm_pages_free_contiguous large_base (lg_page_count l) (pmm_of s)) (set_headers (delete large_base (headers s)) s))
  | None =>
      slab ← search_caches ptr (caches s) s;
      if slab =? 0 then Some s else
      h ← slab_at slab s;
      Some (set_nodes (<[ptr := sl_free h]> (nodes s))
              (set_headers (<[slab := SLAB_MAGIC (with_free ptr (u32 (sl_free_count h + 1)) h)]> (headers s)) s))
  end.

(** A client stores in its object, over whatever link was there. *)
Definition scribble (node : Z) (next : option Z) (addr byte : Z) (s : state) : state :=
  set_bytes (<[addr := byte]> (bytes s)) (set_nodes (match next with Some n => <[node := n]> (nodes s) | None => delete node (nodes s) end) s).

(** ** Runs of frames *)

(** The frames of the machine: page aligned, below the physical limit, and the
    first one, if it is listed, is reserved. *)
Definition frame_ok (a : Z) (st : fstate) : Prop := 0 <= a < 2 ^ 52 /\ a mod 4096 = 0 /\ (a = 0 -> st = Used 0).

Definition phys (p : pmm) : Prop := pmm_wf p /\ forall a st, frames p !! a = Some st -> frame_ok a st.

Lemma phys_used p a st : phys p -> frames p !! a = Some st -> st <> Used 0 -> 0 < a < 2 ^ 52 /\ a mod 4096 = 0.
Proof. intros [_ Hp] Ha Hne. destruct (Hp a st Ha) as (H1 & H2 & H3). split; [|done]. destruct (decide (a = 0)); [tauto|lia]. Qed.

Definition run (n b : Z) (st : fstate) (m : gmap Z fstate) : Prop := forall j, 0 <= j < n -> m !! (b + j * 4096) = Some st.
Definition in_run (n b a : Z) : Prop := exists j, 0 <= j < n /\ a = b + j * 4096.

#[export] Instance in_run_dec n b a : Decision (in_run n b a).
Proof.
  destruct (decide (0 <= (a - b) / 4096 < n /\ (a - b) mod 4096 = 0)) as [[H1 H2]|H].
  - left. exists ((a - b) / 4096). split; [done|]. Z.div_mod_to_equations; lia.
  - right. intros (j & Hj & ->). apply H. replace (b + j * 4096 - b) with (j * 4096) by lia. rewrite Z.div_mul, Z.mod_mul by lia. lia.
Defined.

Lemma contiguous_base count s a p : pmm_wf s -> in_u64 count -> pmm_pages_alloc_contiguous count s = (a, p) ->
  a = 0 \/ frames s !! a = Some Free.
Proof.
  intros Hwf Hc E. unfold in_u64 in Hc. destruct (decide (count = 0)) as [->|H0]; [left; by injection E|].
  pose proof (contiguous_result count s Hwf Hc ltac:(lia)) as Hr.
  destruct (contiguous_scan (S (Z.to_nat (total_pages s))) 0 count s) as [i|] eqn:Hscan.
  2: { unfold pmm_pages_alloc_contiguous in E. rewrite (proj2 (Z.eqb_neq _ _)), Hscan in E by lia. left. by injection E. }
  destruct Hr as (Hi & Hu & _). rewrite (contiguous_claims count s i) in E by (done || lia). injection E as <- <-. right.
  pose proof (usable_run i count s Hwf Hu ltac:(lia) Hi i ltac:(lia)) as (q & Hq & Hfr & _)%free_live; [|done].
  apply frames_lookup; [done|]. exists i, q. split; [done|]. apply live_lookup in Hq as [_ Hq']. split.
  - unfold run_start. by rewrite Hq'.
  - by apply page_state_free.
Qed.

Lemma run_no_wrap n a (m : gmap Z fstate) st : 0 <= a < 2 ^ 52 -> (forall b st, m !! b = Some st -> frame_ok b st) ->
  (forall j, 0 <= j < n -> m !! (a +w (j *w PMM_PAGE_SIZE)) = Some st) -> forall j, 0 <= j < n -> a +w (j *w PMM_PAGE_SIZE) = a + j * 4096.
Proof.
  intros Ha Hm Hr j Hj. assert (j < 2 ^ 40 /\ a + j * 4096 < 2 ^ 52) as [H1 H2]; [|unfold PMM_PAGE_SIZE, u64; rewrite (Z.mod_small (_ * _)), Z.mod_small; lia].
  destruct Hj as [Hj0 Hj]. revert Hj0 Hj. apply (natlike_ind (fun j => j < n -> j < 2 ^ 40 /\ a + j * 4096 < 2 ^ 52)); [lia|].
  intros i Hi IH Hn. destruct IH as [IH1 IH2]; [lia|]. specialize (Hr (Z.succ i) ltac:(lia)). apply Hm in Hr as [Hr _].
  unfold PMM_PAGE_SIZE, u64 in Hr. rewrite (Z.mod_small (_ * _)), Z.mod_small in Hr by lia. lia.
Qed.

Section runs.
Context (a : Z) (lo hi : Z) (Hwrap : forall j, lo <= j < hi -> a +w (j *w PMM_PAGE_SIZE) = a + j * 4096).

Lemma use_run_in n : forall i m j, lo <= i -> i + Z.of_nat n <= hi -> i <= j < i + Z.of_nat n -> use_run n i a m !! (a + j * 4096) = Some (Used 1).
Proof.
  induction n as [|n IH]; intros i m j Hi Hn Hj; simpl; [lia|]. destruct (decide (i + 1 <= j)) as [|]; [apply IH; lia|].
  replace j with i by lia. rewrite use_run_other; [rewrite Hwrap by lia; apply lookup_insert_eq|].
  intros k Hk. rewrite Hwrap by lia. lia.
Qed.

Lemma release_run_in n : forall i m j, lo <= i -> i + Z.of_nat n <= hi -> (forall j, i <= j < i + Z.of_nat n -> m !! (a + j * 4096) = Some (Used 1)) ->
  i <= j < i + Z.of_nat n -> release_run n i a m !! (a + j * 4096) = Some Free.
Proof.
  induction n as [|n IH]; intros i m j Hi Hn Hm Hj; simpl; [lia|]. rewrite Hwrap by lia. unfold release_frame. rewrite Hm by lia. simpl.
  destruct (decide (i + 1 <= j)) as [|].
  - apply IH; try lia. intros k Hk. rewrite lookup_insert_ne by lia. apply Hm. lia.
  - replace j with i by lia. rewrite release_run_other; [apply lookup_insert_eq|]. intros k Hk. rewrite Hwrap by lia. lia.
Qed.
End runs.

Lemma contiguous_step_inv m n a m' : frame_step m (AllocContiguous n) (RAddr a) m' ->
  (a = 0 /\ m' = m) \/ (0 < n /\ (forall j, 0 <= j < n -> m !! (a +w (j *w PMM_PAGE_SIZE)) = Some Free) /\ m' = use_run (Z.to_nat n) 0 a m).
Proof. inversion 1; subst; [right|left]; done. Qed.

Lemma alloc_run n p a p' : phys p -> in_u64 n -> pmm_pages_alloc_contiguous n p = (a, p') ->
  phys p' /\ ((a = 0 /\ frames p' = frames p) \/
    (0 < a /\ a mod 4096 = 0 /\ 0 < n /\ a + n * 4096 <= 2 ^ 52 /\ run n a Free (frames p) /\ run n a (Used 1) (frames p') /\
     forall x, ~ in_run n a x -> frames p' !! x = frames p !! x)).
Proof.
  intros [Hwf Hp] Hn E. pose proof (contiguous_refines n p Hwf Hn) as Hr. rewrite E in Hr. destruct Hr as [Hwf' Hs%contiguous_step_inv].
  destruct (contiguous_base n p a p' Hwf Hn E) as [->|Ha].
  - destruct Hs as [[_ Hm]|(Hc & Hf & Hm)]; [split; [split; [done|by rewrite Hm]|by left]|]. exfalso. specialize (Hf 0 ltac:(lia)). apply Hp in Hf as (_ & _ & H0). by specialize (H0 eq_refl).
  - pose proof (phys_used p _ _ (conj Hwf Hp) Ha ltac:(done)) as [Ha1 Ha2].
    destruct Hs as [[-> _]|(Hc & Hf & Hm)]; [lia|]. rewrite Hm.
    pose proof (run_no_wrap n a (frames p) Free ltac:(lia) Hp Hf) as Hw.
    assert (run n a Free (frames p)) as Hfree by (intros j Hj; rewrite <- (Hw j Hj); by apply Hf).
    assert (forall x, ~ in_run n a x -> use_run (Z.to_nat n) 0 a (frames p) !! x = frames p !! x) as Ho.
    { intros x Hx. apply use_run_other. intros j Hj ->. apply Hx. exists j. rewrite Hw by lia. split; [lia|done]. }
    assert (run n a (Used 1) (use_run (Z.to_nat n) 0 a (frames p))) as Hu by (intros j Hj; apply (use_run_in a 0 n Hw); lia).
    split; [split; [done|]|right; repeat split; try done; try lia].
    + intros b st. rewrite Hm. destruct (decide (in_run n a b)) as [(j & Hj & ->)|Hx].
      * intros _. destruct (Hp _ _ (Hfree j Hj)) as (F1 & F2 & F3). split_and!; done || lia.
      * rewrite Ho by done. apply Hp.
    + specialize (Hfree (n - 1) ltac:(lia)). apply Hp in Hfree as (? & ? & _). Z.div_mod_to_equations; lia.
Qed.

Lemma free_run n a p : phys p -> 0 <= a -> 0 <= n -> a + n * 4096 <= 2 ^ 52 -> run n a (Used 1) (frames p) ->
  let p' := pmm_pages_free_contiguous a n p in
  phys p' /\ run n a Free (frames p') /\ forall x, ~ in_run n a x -> frames p' !! x = frames p !! x.
Proof.
  intros [Hwf Hp] Ha Hn Hl Hr. unfold pmm_pages_free_contiguous. destruct (free_run_refines (Z.to_nat n) 0 a p Hwf) as [Hwf' Hm].
  cbv zeta. rewrite Hm.
  assert (forall j, 0 <= j < n -> a +w (j *w PMM_PAGE_SIZE) = a + j * 4096) as Hw.
  { intros j Hj. unfold PMM_PAGE_SIZE, u64. rewrite (Z.mod_small (_ * _)), Z.mod_small; lia. }
  assert (forall x, ~ in_run n a x -> release_run (Z.to_nat n) 0 a (frames p) !! x = frames p !! x) as Ho.
  { intros x Hx. apply release_run_other. intros j Hj ->. apply Hx. exists j. rewrite Hw by lia. split; [lia|done]. }
  split; [split; [done|]|split; [|done]].
  - intros b st. rewrite Hm. destruct (decide (in_run n a b)) as [(j & Hj & ->)|Hx]; [intros _; destruct (Hp _ _ (Hr j Hj)) as (F1 & F2 & F3); (split_and!; [lia..|done|]); intros F0; by specialize (F3 F0)|].
    rewrite Ho by done. apply Hp.
  - intros j Hj. apply (release_run_in a 0 n Hw); try lia. intros k Hk. apply Hr. lia.
Qed.

(** ** What is where: the runs of frames with a header *)

Definition hpages (h : header) : Z :=
  match h with SLAB_MAGIC h => sl_page_count h | SLAB_LARGE_MAGIC l => lg_page_count l end.

Record mem_ok (p : pmm) (hp : gmap Z Z) : Prop := {
  mem_phys : phys p;
  mem_run : forall b n, hp !! b = Some n -> 0 < b /\ b mod 4096 = 0 /\ 0 < n < 2 ^ 32 /\ b + n * 4096 <= 2 ^ 52 /\ run n b (Used 1) (frames p);
  mem_apart : forall b n c k, hp !! b = Some n -> hp !! c = Some k -> b < c -> b + n * 4096 <= c;
}.

Definition owned (hp : gmap Z Z) (x : Z) : Prop := exists b n, hp !! b = Some n /\ in_run n b x.

Lemma runs_apart b n c k : b mod 4096 = 0 -> c mod 4096 = 0 -> 0 < n -> 0 < k -> (forall x, in_run n b x -> in_run k c x -> False) ->
  b < c -> b + n * 4096 <= c.
Proof.
  intros Hb Hc Hn Hk Hno Hlt. destruct (decide (b + n * 4096 <= c)) as [|Hx]; [done|]. exfalso.
  apply (Hno c); [|exists 0; lia]. exists ((c - b) / 4096). split; Z.div_mod_to_equations; lia.
Qed.

Lemma mem_new p hp n a p' : mem_ok p hp -> in_u64 n -> pmm_pages_alloc_contiguous n p = (a, p') -> a <> 0 -> n < 2 ^ 32 ->
  mem_ok p' (<[a := n]> hp) /\ hp !! a = None /\ (forall x, ~ in_run n a x -> frames p' !! x = frames p !! x) /\
  run n a Free (frames p) /\ 0 < a /\ a + n * 4096 <= 2 ^ 52 /\ a mod 4096 = 0.
Proof.
  intros [Hp Hr Hd] Hn E Ha Hn2. destruct (alloc_run n p a p' Hp Hn E) as [Hp' [[? _]|(Ha1 & Ha2 & Hn0 & Hl & Hf & Hu & Ho)]]; [done|].
  assert (forall b k x, hp !! b = Some k -> in_run k b x -> in_run n a x -> False) as Hno.
  { intros b k x Hb (i & Hi & ->) (j & Hj & Heq). pose proof (proj2 (proj2 (proj2 (proj2 (Hr b k Hb)))) i Hi) as H1.
    specialize (Hf j Hj). rewrite Heq in H1. congruence. }
  assert (hp !! a = None) as Hna.
  { apply eq_None_not_Some. intros [k Hk]. pose proof (Hr a k Hk). apply (Hno a k a Hk); exists 0; lia. }
  split; [|repeat split; done || lia]. split; [done| |].
  - intros b k [[<- <-]|[Hne Hb]]%lookup_insert_Some; [repeat split; try done; lia|].
    destruct (Hr b k Hb) as (? & ? & ? & ? & Hrun). repeat split; try done; try lia.
    intros i Hi. rewrite Ho; [by apply Hrun|]. intros Hin. eapply (Hno b k); [done| |done]. by exists i.
  - intros b k c j Hb Hc Hlt.
    rewrite lookup_insert_Some in Hb, Hc. destruct Hb as [[<- <-]|[Hne Hb]], Hc as [[<- <-]|[Hne2 Hc]]; try lia.
    + pose proof (Hr c j Hc). apply (runs_apart a n c j); try done; try lia. eauto.
    + pose proof (Hr b k Hb). apply (runs_apart b k a n); try done; try lia. eauto.
    + by eapply Hd.
Qed.

Lemma mem_none p hp n p' : mem_ok p hp -> in_u64 n -> pmm_pages_alloc_contiguous n p = (0, p') -> mem_ok p' hp /\ frames p' = frames p.
Proof.
  intros [Hp Hr Hd] Hn E. destruct (alloc_run n p 0 p' Hp Hn E) as [Hp' [[_ Hf]|(? & _)]]; [|lia].
  split; [|done]. split; [done| |done]. by rewrite Hf.
Qed.

Lemma owned_apart hp p b n c k x : mem_ok p hp -> hp !! b = Some n -> hp !! c = Some k -> b <> c -> in_run n b x -> ~ in_run k c x.
Proof.
  intros Hm Hb Hc Hne (i & Hi & ->) (j & Hj & Heq). destruct (decide (b < c)).
  - pose proof (mem_apart p hp Hm b n c k Hb Hc ltac:(lia)). lia.
  - pose proof (mem_apart p hp Hm c k b n Hc Hb ltac:(lia)). lia.
Qed.

Lemma mem_drop p hp b n : mem_ok p hp -> hp !! b = Some n ->
  let p' := pmm_pages_free_contiguous b n p in
  mem_ok p' (delete b hp) /\ run n b Free (frames p') /\ forall x, ~ in_run n b x -> frames p' !! x = frames p !! x.
Proof.
  intros Hm Hb. pose proof (mem_run p hp Hm b n Hb) as (H1 & H2 & H3 & H4 & H5).
  destruct (free_run n b p (mem_phys p hp Hm) ltac:(lia) ltac:(lia) H4 H5) as (Hp' & Hf & Ho). cbv zeta. split; [|done]. split; [done| |].
  - intros c k [Hne Hc]%lookup_delete_Some. destruct (mem_run p hp Hm c k Hc) as (? & ? & ? & ? & Hrun). repeat split; try done; try lia.
    intros i Hi. rewrite Ho; [by apply Hrun|]. eapply (owned_apart hp p c k b n); try done. by exists i.
  - intros c k d j [_ Hc]%lookup_delete_Some [_ Hd]%lookup_delete_Some Hlt. by apply (mem_apart p hp Hm c k d j).
Qed.

(** The rest of the kernel uses frames too, but not the ones kept here. *)
Definition touches (op : pmm_op) (x : Z) : Prop := frees op x \/ op = RetainAddr x.

Lemma step_keeps m op r m' x n : frame_step m op r m' -> m !! x = Some (Used n) -> ~ touches op x -> m' !! x = m !! x.
Proof.
  intros Hs Hx Ht. destruct Hs as [a Ha| |c a Hc Ha| |a k Ha Hk|a Ha|a|a c]; try done.
  - rewrite lookup_insert_ne; congruence.
  - apply use_run_other. intros j Hj ->. rewrite Ha in Hx by lia. done.
  - apply lookup_insert_ne. intros ->. apply Ht. by right.
  - unfold release_frame. destruct (m !! a) as [[|k]|]; try done.
    case_if; apply lookup_insert_ne; intros ->; apply Ht; by left.
  - apply release_run_other. intros j Hj ->. apply Ht. left. exists j. split; [lia|done].
Qed.

Lemma release_frame_dom a m : dom (release_frame a m) = dom m.
Proof. unfold release_frame. destruct (m !! a) as [[|k]|] eqn:E; try done. case_if; apply dom_insert_lookup_L; eauto. Qed.

Lemma step_dom m op r m' : frame_step m op r m' -> dom m' = dom m.
Proof.
  destruct 1 as [a Ha| |c a Hc Ha| |a k Ha Hk|a Ha|a|a c]; try done; try (apply dom_insert_lookup_L; eauto; fail).
  - assert (forall n i m', dom m' = dom m -> 0 <= i -> i + Z.of_nat n <= c -> dom (use_run n i a m') = dom m) as H; [|apply H; [done|lia|lia]].
    induction n as [|n IH]; intros i m' Hd Hi Hn; simpl; [done|]. apply IH; [|lia|lia]. rewrite dom_insert_L, Hd.
    assert (a +w i *w PMM_PAGE_SIZE ∈ dom m) by (apply elem_of_dom; exists Free; apply Ha; lia). set_solver.
  - apply release_frame_dom.
  - assert (forall n i m', dom m' = dom m -> dom (release_run n i a m') = dom m) as H; [|by apply H].
    induction n as [|n IH]; intros i m' Hd; simpl; [done|]. apply IH. by rewrite release_frame_dom.
Qed.

Lemma mem_other p hp op r p' : mem_ok p hp -> op_in_range op -> (forall x, x = 0 \/ owned hp x -> ~ touches op x) -> pmm_exec op p = (r, p') ->
  mem_ok p' hp /\ frame_step (frames p) op r (frames p').
Proof.
  intros Hm Hop Ht E. pose proof (exec_refines op p (proj1 (mem_phys p hp Hm)) Hop) as Hs. rewrite E in Hs. destruct Hs as [Hwf Hs].
  split; [|done]. split.
  - split; [done|]. intros a st Ha. assert (a ∈ dom (frames p)) as [st' Hst]%elem_of_dom.
    { rewrite <- (step_dom _ _ _ _ Hs). apply elem_of_dom. eauto. }
    destruct (proj2 (mem_phys p hp Hm) a st' Hst) as (F1 & F2 & F3). split_and!; try done; try lia. intros ->. rewrite (F3 eq_refl) in Hst.
    rewrite (step_keeps _ _ _ _ _ _ Hs Hst) in Ha by (apply Ht; by left). congruence.
  - intros b n Hb. destruct (mem_run p hp Hm b n Hb) as (? & ? & ? & ? & Hr). repeat split; try done; try lia.
    intros j Hj. rewrite (step_keeps _ _ _ _ _ _ Hs (Hr j Hj)); [by apply Hr|]. apply Ht. right. exists b, n. split; [done|]. by exists j.
  - apply (mem_apart p hp Hm).
Qed.

(** ** Objects, free lists and lists of slabs *)

Fixpoint chain (next : Z -> option Z) (p : Z) (l : list Z) : Prop :=
  match l with
  | [] => p = 0
  | a :: l => p = a /\ a <> 0 /\ exists n, next a = Some n /\ chain next n l
  end.

Lemma chain_fun next : forall l p l', chain next p l -> chain next p l' -> l = l'.
Proof.
  induction l as [|a l IH]; intros p [|a' l'] H1 H2; simpl in *; try done; try (destruct H2 as (? & ? & _); lia); try (destruct H1 as (? & ? & _); lia).
  destruct H1 as (-> & _ & n & Hn & H1), H2 as (-> & _ & n' & Hn' & H2). f_equal. eapply IH; [done|]. congruence.
Qed.

Lemma chain_ext next next' : forall l p, (forall a, a ∈ l -> next' a = next a) -> chain next p l -> chain next' p l.
Proof.
  induction l as [|a l IH]; intros p He H; simpl in *; [done|]. destruct H as (-> & Ha & n & Hn & H). repeat split; [done|].
  exists n. rewrite He by set_solver. split; [done|]. apply IH; [|done]. intros b Hb. apply He. set_solver.
Qed.

Definition slab_pages (object_size : Z) : Z := slab_bytes object_size / PMM_PAGE_SIZE.
Definition slab_objects (object_size : Z) : Z := (slab_pages object_size * 4096 - 64) / object_size.

Definition object (b object_size p : Z) : Prop := exists i, 0 <= i < slab_objects object_size /\ p = b + 64 + i * object_size.

Definition objects (b object_size : Z) : list Z := (fun i => b + 64 + i * object_size) <$> seqZ 0 (slab_objects object_size).

Lemma object_elem b z p : p ∈ objects b z <-> object b z p.
Proof. unfold objects, object. rewrite list_elem_of_fmap. setoid_rewrite elem_of_seqZ. naive_solver lia. Qed.

#[export] Instance object_dec b z p : Decision (object b z p).
Proof. destruct (decide (p ∈ objects b z)) as [H|H]; rewrite object_elem in H; [by left|by right]. Defined.

Definition shape (h : slab_header) : Prop :=
  cache_sizes !! sl_cache h = Some (sl_object_size h) /\ sl_page_count h = slab_pages (sl_object_size h) /\
  sl_object_count h = slab_objects (sl_object_size h) /\ sl_first_offset h = 64.

Definition free_list (m : gmap Z Z) (b : Z) (h : slab_header) (fl : list Z) : Prop :=
  chain (fun a => m !! a) (sl_free h) fl /\ NoDup fl /\ sl_free_count h = Z.of_nat (length fl) /\ Forall (object b (sl_object_size h)) fl.

Definition slabs_ok (hs : gmap Z header) (m : gmap Z Z) : Prop :=
  forall b h, hs !! b = Some (SLAB_MAGIC h) -> shape h /\ exists fl, free_list m b h fl.

Definition next_slab (hs : gmap Z header) (a : Z) : option Z := match hs !! a with Some (SLAB_MAGIC h) => Some (sl_next h) | _ => None end.

Definition cache_list (hs : gmap Z header) (c : nat) (head : Z) (l : list Z) : Prop :=
  chain (next_slab hs) head l /\ NoDup l /\ forall b, b ∈ l <-> exists h, hs !! b = Some (SLAB_MAGIC h) /\ sl_cache h = c.

Definition caches_ok (hs : gmap Z header) (heads : list Z) : Prop :=
  length heads = length cache_sizes /\ forall c head, heads !! c = Some head -> exists l, cache_list hs c head l.

Record inv (s : state) : Prop := {
  inv_mem : mem_ok (pmm_of s) (hpages <$> headers s);
  inv_slabs : slabs_ok (headers s) (nodes s);
  inv_caches : caches_ok (headers s) (caches s);
}.

(** The objects that clients hold, with their sizes. *)
Inductive live (hs : gmap Z header) (m : gmap Z Z) : Z -> Z -> Prop :=
  | live_object b h fl p : hs !! b = Some (SLAB_MAGIC h) -> free_list m b h fl -> object b (sl_object_size h) p -> p ∉ fl ->
      live hs m p (sl_object_size h)
  | live_large b l : hs !! b = Some (SLAB_LARGE_MAGIC l) -> live hs m (b + 64) (lg_page_count l * 4096 - 64).

Lemma cache_facts c z : cache_sizes !! c = Some z ->
  32 <= z <= 131072 /\ z mod 32 = 0 /\ 1 <= slab_pages z <= 33 /\ 1 <= slab_objects z <= 126 /\ 64 + slab_objects z * z <= slab_pages z * 4096 /\
  (1 < slab_objects z -> slab_pages z = 1).
Proof.
  intros H. do 13 (destruct c as [|c]; [injection H as <-; vm_compute; intuition congruence|]). done.
Qed.

Lemma free_list_fun m b h fl fl' : free_list m b h fl -> free_list m b h fl' -> fl = fl'.
Proof. intros [H _] [H' _]. by eapply chain_fun. Qed.

Lemma free_list_ext m m' b h fl : (forall p, object b (sl_object_size h) p -> m' !! p = m !! p) -> free_list m b h fl -> free_list m' b h fl.
Proof.
  intros He (H1 & H2 & H3 & H4). split; [|done]. eapply chain_ext; [|done]. intros a Ha. apply He. by eapply Forall_forall in H4.
Qed.

Lemma object_in b h p : shape h -> object b (sl_object_size h) p ->
  b + 64 <= p /\ p + sl_object_size h <= b + sl_page_count h * 4096 /\ 32 <= sl_object_size h /\ p mod 32 = b mod 32.
Proof.
  intros (Hc & -> & _ & _) (i & Hi & ->). destruct (cache_facts _ _ Hc) as (H1 & H2 & H3 & H4 & H5 & _). split_and!; try nia.
  apply Z.mod_divide in H2 as [k Hk]; [|lia]. rewrite Hk. replace (b + 64 + i * (k * 32)) with (b + (2 + i * k) * 32) by lia. by rewrite Z.mod_add by lia.
Qed.

Section state.
Context (p : pmm) (hs : gmap Z header) (m : gmap Z Z) (Hmem : mem_ok p (hpages <$> hs)) (Hs : slabs_ok hs m).

Lemma header_run b h : hs !! b = Some h -> 0 < b /\ b mod 4096 = 0 /\ 0 < hpages h < 2 ^ 32 /\ b + hpages h * 4096 <= 2 ^ 52 /\ run (hpages h) b (Used 1) (frames p).
Proof. intros Hb. apply (mem_run _ _ Hmem). by rewrite lookup_fmap, Hb. Qed.

Lemma headers_apart b h c k : hs !! b = Some h -> hs !! c = Some k -> b <> c -> b + hpages h * 4096 <= c \/ c + hpages k * 4096 <= b.
Proof.
  intros Hb Hc Hne. assert ((hpages <$> hs) !! b = Some (hpages h)) as Hb' by (by rewrite lookup_fmap, Hb).
  assert ((hpages <$> hs) !! c = Some (hpages k)) as Hc' by (by rewrite lookup_fmap, Hc).
  destruct (decide (b < c)); [left; by apply (mem_apart _ _ Hmem b _ c _ Hb' Hc')|right; apply (mem_apart _ _ Hmem c _ b _ Hc' Hb'); lia].
Qed.

Lemma same_header b h c k x : hs !! b = Some h -> hs !! c = Some k -> b <= x < b + hpages h * 4096 -> c <= x < c + hpages k * 4096 -> b = c.
Proof. intros Hb Hc ? ?. destruct (decide (b = c)) as [|Hne]; [done|]. pose proof (headers_apart b h c k Hb Hc Hne). lia. Qed.

Lemma live_in q c : live hs m q c -> exists b h, hs !! b = Some h /\ b + 64 <= q /\ q + c <= b + hpages h * 4096 /\ 0 < c /\ q mod 32 = 0.
Proof.
  intros [b h fl q' Hb Hf Ho Hn|b l Hb]; exists b; eexists; (split; [exact Hb|]); pose proof (header_run _ _ Hb) as (? & Hal & ? & ? & ?); cbn in *.
  - destruct (Hs b h Hb) as [Hsh _]. pose proof (object_in _ _ _ Hsh Ho) as (? & ? & ? & ->). split_and!; try lia. Z.div_mod_to_equations; lia.
  - split_and!; try lia. Z.div_mod_to_equations; lia.
Qed.

Lemma object_slab b h q c : hs !! b = Some (SLAB_MAGIC h) -> object b (sl_object_size h) q -> live hs m q c ->
  c = sl_object_size h /\ forall fl, free_list m b h fl -> q ∉ fl.
Proof.
  intros Hb Ho Hl. pose proof (object_in _ _ _ (proj1 (Hs b h Hb)) Ho) as Hin.
  destruct Hl as [b' h' fl q Hb' Hf Ho' Hn|b' l Hb'].
  - pose proof (object_in _ _ _ (proj1 (Hs b' h' Hb')) Ho') as Hin'.
    assert (b = b') as <- by (eapply (same_header b _ b' _ q Hb Hb'); simpl; lia). simplify_eq. split; [done|].
    intros fl' Hf'. by rewrite (free_list_fun _ _ _ _ _ Hf' Hf).
  - pose proof (header_run _ _ Hb') as Hr. simpl in Hr.
    assert (b = b') as <- by (eapply (same_header b _ b' _ (b' + 64) Hb Hb'); simpl; lia). congruence.
Qed.

(** One slab changes its free list. *)
Lemma live_upd b h h' m' fl' : hs !! b = Some (SLAB_MAGIC h) -> sl_object_size h' = sl_object_size h ->
  (forall q, ~ object b (sl_object_size h) q -> m' !! q = m !! q) -> free_list m' b h' fl' ->
  forall q c, live (<[b := SLAB_MAGIC h']> hs) m' q c <->
    (live hs m q c /\ ~ object b (sl_object_size h) q) \/ (c = sl_object_size h /\ object b (sl_object_size h) q /\ q ∉ fl').
Proof.
  intros Hb Hz Ho Hf' q c. destruct (Hs b h Hb) as [Hsh _].
  assert (forall b2 h2 q, b <> b2 -> hs !! b2 = Some (SLAB_MAGIC h2) -> object b2 (sl_object_size h2) q -> ~ object b (sl_object_size h) q) as Hno.
  { intros b2 h2 q' Hne Hb2 Ho2 Ho1. pose proof (object_in _ _ _ Hsh Ho1). pose proof (object_in _ _ _ (proj1 (Hs b2 h2 Hb2)) Ho2).
    apply Hne. eapply (same_header b _ b2 _ q' Hb Hb2); simpl; lia. }
  split.
  - intros [b2 h2 fl q' Hb2 Hf Hq Hn|b2 l Hb2]; rewrite lookup_insert_Some in Hb2; destruct Hb2 as [[<- [= <-]]|[Hne Hb2]].
    + right. rewrite Hz in *. split; [done|]. split; [done|]. by rewrite (free_list_fun _ _ _ _ _ Hf' Hf).
    + left. split; [|by eapply Hno]. econstructor; try done. eapply free_list_ext; [|exact Hf]. intros x Hx. symmetry. apply Ho. by eapply Hno.
    + left. split; [by constructor|]. intros Hq. pose proof (object_in _ _ _ Hsh Hq). pose proof (header_run _ _ Hb2) as Hr. simpl in Hr.
      apply Hne. eapply (same_header b _ b2 _ (b2 + 64) Hb Hb2); simpl; lia.
  - intros [[Hl Hno1]|(-> & Hq & Hn)].
    + destruct Hl as [b2 h2 fl q' Hb2 Hf Hq Hn|b2 l Hb2].
      * destruct (decide (b = b2)) as [<-|Hne]; [congruence|]. apply (live_object _ _ b2 h2 fl); try done; [by rewrite lookup_insert_ne|].
        eapply free_list_ext; [|exact Hf]. intros x Hx. apply Ho. by eapply Hno.
      * constructor. rewrite lookup_insert_ne; [done|]. congruence.
    + rewrite <- Hz. econstructor; [by rewrite lookup_insert_eq|done|by rewrite Hz|done].
Qed.

Lemma slabs_upd b h h' m' fl' : hs !! b = Some (SLAB_MAGIC h) -> shape h' -> (forall q, ~ object b (sl_object_size h) q -> m' !! q = m !! q) ->
  free_list m' b h' fl' -> slabs_ok (<[b := SLAB_MAGIC h']> hs) m'.
Proof.
  intros Hb Hsh Ho Hf' b2 h2 Hb2. rewrite lookup_insert_Some in Hb2. destruct Hb2 as [[<- [= <-]]|[Hne Hb2]]; [by eauto|].
  destruct (Hs b2 h2 Hb2) as [Hsh2 [fl Hf]]. split; [done|]. exists fl. eapply free_list_ext; [|exact Hf]. intros q Hq. apply Ho. intros Hq1.
  pose proof (object_in _ _ _ (proj1 (Hs b h Hb)) Hq1). pose proof (object_in _ _ _ Hsh2 Hq).
  apply Hne. eapply (same_header b _ b2 _ q Hb Hb2); simpl; lia.
Qed.
End state.

Lemma caches_upd hs heads b h h' : hs !! b = Some (SLAB_MAGIC h) -> sl_next h' = sl_next h -> sl_cache h' = sl_cache h ->
  caches_ok hs heads -> caches_ok (<[b := SLAB_MAGIC h']> hs) heads.
Proof.
  intros Hb Hn Hc [Hl H]. split; [done|]. intros c head Hh. destruct (H c head Hh) as (l & Hch & Hnd & Hin). exists l. split; [|split; [done|]].
  - eapply chain_ext; [|exact Hch]. intros a _. unfold next_slab. destruct (decide (a = b)) as [->|]; [by rewrite lookup_insert_eq, Hb, Hn|by rewrite lookup_insert_ne].
  - intros a. rewrite Hin. destruct (decide (a = b)) as [->|]; [|by rewrite lookup_insert_ne].
    rewrite lookup_insert_eq. split; intros (x & Hx & <-); simplify_eq; eexists; split; try done; congruence.
Qed.

Lemma pages_upd (hs : gmap Z header) (b : Z) h h' : hs !! b = Some (SLAB_MAGIC h) -> sl_page_count h' = sl_page_count h -> hpages <$> <[b := SLAB_MAGIC h']> hs = hpages <$> hs.
Proof. intros Hb Hp. rewrite fmap_insert. apply insert_id. rewrite lookup_fmap, Hb. simpl. by rewrite Hp. Qed.

(** ** Taking an object and giving it back *)

Lemma free_list_short m b h fl : shape h -> free_list m b h fl -> (length fl <= 126)%nat.
Proof.
  intros Hsh (_ & Hnd & _ & Hob). pose proof (cache_facts _ _ (proj1 Hsh)).
  transitivity (length (objects b (sl_object_size h))); [|unfold objects; rewrite length_fmap, length_seqZ; lia].
  apply submseteq_length, NoDup_submseteq; [done|]. intros x Hx. apply object_elem. by eapply Forall_forall in Hob.
Qed.

(** The header of a slab and the links of its objects change, the objects stay. *)
Lemma free_list_change s b h h' m' fl fl' : inv s -> headers s !! b = Some (SLAB_MAGIC h) -> free_list (nodes s) b h fl ->
  h' = with_free (sl_free h') (sl_free_count h') h -> (forall q, ~ object b (sl_object_size h) q -> m' !! q = nodes s !! q) -> free_list m' b h' fl' ->
  let s' := set_nodes m' (set_headers (<[b := SLAB_MAGIC h']> (headers s)) s) in
  inv s' /\ hpages <$> headers s' = hpages <$> headers s /\
  forall q c, live (headers s') (nodes s') q c <->
    (live (headers s) (nodes s) q c /\ ~ object b (sl_object_size h) q) \/ (c = sl_object_size h /\ object b (sl_object_size h) q /\ q ∉ fl').
Proof.
  intros [Hm Hs Hc] Hb Hf He Ho Hf'. cbv zeta. destruct (Hs b h Hb) as [Hsh _].
  assert (shape h') as Hsh' by (rewrite He; exact Hsh).
  pose proof (pages_upd (headers s) b h h' Hb ltac:(by rewrite He)) as Hpg. split; [split; simpl|split; [done|]].
  - by rewrite Hpg.
  - by eapply (slabs_upd _ _ _ Hm Hs b h).
  - by eapply caches_upd; [done|rewrite He..|].
  - eapply (live_upd _ _ _ Hm Hs b h); try done. by rewrite He.
Qed.

Lemma live_split s b h fl : inv s -> headers s !! b = Some (SLAB_MAGIC h) -> free_list (nodes s) b h fl ->
  forall q c, live (headers s) (nodes s) q c <->
    (live (headers s) (nodes s) q c /\ ~ object b (sl_object_size h) q) \/ (c = sl_object_size h /\ object b (sl_object_size h) q /\ q ∉ fl).
Proof.
  intros [Hm Hs Hc] Hb Hf q c. split.
  - intros Hl. destruct (decide (object b (sl_object_size h) q)) as [Hq|Hq]; [right|by left].
    destruct (object_slab _ _ _ Hm Hs b h q c Hb Hq Hl) as [-> Hx]. auto.
  - intros [[? _]|(-> & Hq & Hn)]; [done|]. by eapply live_object.
Qed.

Lemma pop_ok s b h : inv s -> headers s !! b = Some (SLAB_MAGIC h) -> sl_free h <> 0 ->
  exists next, nodes s !! sl_free h = Some next /\
  let s' := set_headers (<[b := SLAB_MAGIC (with_free next (u32 (sl_free_count h - 1)) h)]> (headers s)) s in
  inv s' /\ hpages <$> headers s' = hpages <$> headers s /\ (forall c, ~ live (headers s) (nodes s) (sl_free h) c) /\
  forall q c, live (headers s') (nodes s') q c <-> live (headers s) (nodes s) q c \/ (q = sl_free h /\ c = sl_object_size h).
Proof.
  intros Hi Hb Hn. destruct (inv_slabs s Hi b h Hb) as [Hsh [fl Hfl]]. pose proof (free_list_short _ _ _ _ Hsh Hfl) as Hlen.
  pose proof Hfl as (Hch & Hnd & Hct & Hob). destruct fl as [|a fl]; [done|]. destruct Hch as (Ha & _ & next & Hnx & Hch). subst a.
  exists next. split; [done|]. apply Forall_cons in Hob as [Hoa Hob]. apply NoDup_cons in Hnd as [Hna Hnd]. simpl in Hlen, Hct.
  destruct (free_list_change s b h (with_free next (u32 (sl_free_count h - 1)) h) (nodes s) _ fl Hi Hb Hfl eq_refl ltac:(done)) as (Hi' & Hp & Hl).
  { split; [done|]. split; [done|]. split; [|done]. simpl. rewrite Hct. unfold u32. rewrite Z.mod_small; lia. }
  pose proof (live_split s b h _ Hi Hb Hfl) as Hsp. split; [done|]. split; [done|]. split.
  - intros c. rewrite Hsp. set_solver.
  - intros q c. cbn [headers nodes set_headers set_nodes] in *. rewrite Hl, (Hsp q c). split; [|set_solver].
    intros [?|(-> & Hq & Hx)]; [tauto|]. destruct (decide (q = sl_free h)) as [->|]; [tauto|]. set_solver.
Qed.

Lemma push_ok s b h p : inv s -> headers s !! b = Some (SLAB_MAGIC h) -> live (headers s) (nodes s) p (sl_object_size h) -> object b (sl_object_size h) p -> 0 < p ->
  let s' := set_nodes (<[p := sl_free h]> (nodes s)) (set_headers (<[b := SLAB_MAGIC (with_free p (u32 (sl_free_count h + 1)) h)]> (headers s)) s) in
  inv s' /\ hpages <$> headers s' = hpages <$> headers s /\
  forall q c, live (headers s') (nodes s') q c <-> live (headers s) (nodes s) q c /\ q <> p.
Proof.
  intros Hi Hb Hl Ho Hp. destruct (inv_slabs s Hi b h Hb) as [Hsh [fl Hfl]]. pose proof (free_list_short _ _ _ _ Hsh Hfl) as Hlen.
  pose proof Hfl as (Hch & Hnd & Hct & Hob). pose proof (live_split s b h _ Hi Hb Hfl) as Hsp.
  assert (p ∉ fl) as Hpf by (apply (Hsp p) in Hl; tauto).
  destruct (free_list_change s b h (with_free p (u32 (sl_free_count h + 1)) h) (<[p := sl_free h]> (nodes s)) _ (p :: fl) Hi Hb Hfl eq_refl) as (Hi' & Hpg & Hl').
  { intros q Hq. apply lookup_insert_ne. congruence. }
  { split; [|split; [by constructor|split; [|by constructor]]].
    - simpl. repeat split; [lia|]. exists (sl_free h). split; [apply lookup_insert_eq|]. eapply chain_ext; [|exact Hch]. intros a Ha. apply lookup_insert_ne. congruence.
    - simpl. rewrite Hct. unfold u32. rewrite Z.mod_small; lia. }
  split; [done|]. split; [done|]. intros q c. cbn [headers nodes set_headers set_nodes] in *. rewrite Hl', (Hsp q c). set_solver.
Qed.

(** ** A new run of frames *)

Lemma link_objects_spec n : forall i free (m : gmap Z Z) start z fl, 0 < start -> 0 < z -> 0 <= i -> start + (i + Z.of_nat n) * z < 2 ^ 63 ->
  chain (fun a => m !! a) free fl -> NoDup fl -> (forall a, a ∈ fl -> a < start + i * z) ->
  exists fl', chain (fun a => (link_objects n i start z free m).2 !! a) (link_objects n i start z free m).1 fl' /\ NoDup fl' /\
    length fl' = (n + length fl)%nat /\ (forall a, a ∈ fl' <-> a ∈ fl \/ exists k, i <= k < i + Z.of_nat n /\ a = start + k * z) /\
    (forall a, (forall k, i <= k < i + Z.of_nat n -> a <> start + k * z) -> (link_objects n i start z free m).2 !! a = m !! a).
Proof.
  induction n as [|n IH]; intros i free m start z fl Hs Hz Hi Hb Hch Hnd Hlt; cbn [link_objects].
  { exists fl. repeat split; try done; [by left|]. intros [|(k & Hk & _)]; [done|lia]. }
  assert (start +w i *w z = start + i * z) as E by (unfold u64; rewrite (Z.mod_small (i * z)), Z.mod_small; nia). rewrite E.
  destruct (IH (i + 1) (start + i * z) (<[start + i * z := free]> m) start z (start + i * z :: fl)) as (fl' & H1 & H2 & H3 & H4 & H5); try done; try nia.
  - simpl. repeat split; [nia|]. exists free. split; [apply lookup_insert_eq|]. eapply chain_ext; [|exact Hch]. intros a Ha. apply lookup_insert_ne. specialize (Hlt a Ha). lia.
  - constructor; [|done]. intros Ha%Hlt. lia.
  - intros a [->|Ha]%elem_of_cons; [nia|]. apply Hlt in Ha. nia.
  - exists fl'. split; [done|]. split; [done|]. split; [simpl in H3; lia|]. split.
    + intros a. rewrite H4, elem_of_cons. split.
      * intros [[->|Ha]|(k & Hk & ->)]; [right; exists i; split; [lia|done]|by left|right; exists k; split; [lia|done]].
      * intros [Ha|(k & Hk & ->)]; [by left; right|]. destruct (decide (k = i)) as [->|]; [by left; left|]. right. exists k. split; [lia|done].
    + intros a Ha. rewrite H5 by (intros k Hk; apply Ha; lia). apply lookup_insert_ne. intros <-. apply (Ha i); [lia|done].
Qed.

Section new_run.
Context (p : pmm) (hs : gmap Z header) (m m' : gmap Z Z) (b : Z) (hd : header).
Context (Hmem : mem_ok p (hpages <$> <[b := hd]> hs)) (Hb : hs !! b = None) (Hs : slabs_ok hs m).
Context (Hm : forall q, ~ (b <= q < b + hpages hd * 4096) -> m' !! q = m !! q).

Lemma old_object c h q : hs !! c = Some (SLAB_MAGIC h) -> object c (sl_object_size h) q -> ~ (b <= q < b + hpages hd * 4096).
Proof.
  intros Hc Ho Hq. assert (b <> c) as Hne by congruence. pose proof (object_in _ _ _ (proj1 (Hs c h Hc)) Ho). apply Hne.
  eapply (same_header _ _ Hmem b hd c (SLAB_MAGIC h) q); [apply lookup_insert_eq|by rewrite lookup_insert_ne|done|simpl; lia].
Qed.

Lemma old_free_list c h fl : hs !! c = Some (SLAB_MAGIC h) -> free_list m c h fl <-> free_list m' c h fl.
Proof. intros Hc. split; apply free_list_ext; intros q Hq; [|symmetry]; apply Hm; by eapply old_object. Qed.

Lemma slabs_new : match hd with SLAB_MAGIC h => shape h /\ exists fl, free_list m' b h fl | SLAB_LARGE_MAGIC _ => True end -> slabs_ok (<[b := hd]> hs) m'.
Proof.
  intros Hn c h [[<- ->]|[Hne Hc]]%lookup_insert_Some; [done|]. destruct (Hs c h Hc) as [Hsh [fl Hf]]. split; [done|]. exists fl. by apply old_free_list.
Qed.

Lemma live_new q c : live (<[b := hd]> hs) m' q c <-> live hs m q c \/
  match hd with
  | SLAB_MAGIC h => exists fl, free_list m' b h fl /\ object b (sl_object_size h) q /\ q ∉ fl /\ c = sl_object_size h
  | SLAB_LARGE_MAGIC l => q = b + 64 /\ c = lg_page_count l * 4096 - 64
  end.
Proof.
  split.
  - intros [a h fl q' [[<- ->]|[Hne Ha]]%lookup_insert_Some Hf Ho Hn|a l [[<- ->]|[Hne Ha]]%lookup_insert_Some].
    + right. eauto.
    + left. eapply live_object; try done. by eapply old_free_list.
    + by right.
    + left. by constructor.
  - intros [[a h fl q' Ha Hf Ho Hn|a l Ha]|H].
    + assert (b <> a) by congruence. apply (live_object _ _ a h fl); try done; [by rewrite lookup_insert_ne|by apply old_free_list].
    + assert (b <> a) by congruence. constructor. by rewrite lookup_insert_ne.
    + destruct hd as [h|l]; [destruct H as (fl & ? & ? & ? & ->)|destruct H as [-> ->]]; [eapply live_object; try done|constructor]; apply lookup_insert_eq.
Qed.
End new_run.

Lemma caches_large hs heads b l : hs !! b = None -> caches_ok hs heads -> caches_ok (<[b := SLAB_LARGE_MAGIC l]> hs) heads.
Proof.
  intros Hb [Hl H]. split; [done|]. intros c head Hh. destruct (H c head Hh) as (L & Hch & Hnd & Hin). exists L. split; [|split; [done|]].
  - eapply chain_ext; [|exact Hch]. intros a Ha. apply Hin in Ha as (h & Ha & _). unfold next_slab. rewrite lookup_insert_ne; [done|congruence].
  - intros a. rewrite Hin. destruct (decide (a = b)) as [->|]; [|by rewrite lookup_insert_ne]. rewrite lookup_insert_eq, Hb. naive_solver.
Qed.

Lemma caches_slab hs heads b h head : hs !! b = None -> b <> 0 -> heads !! sl_cache h = Some head -> sl_next h = head ->
  caches_ok hs heads -> caches_ok (<[b := SLAB_MAGIC h]> hs) (<[sl_cache h := b]> heads).
Proof.
  intros Hb Hb0 Hh Hn [Hl H]. split; [by rewrite length_insert|]. intros c hd Hhd.
  assert (forall c hd l, heads !! c = Some hd -> cache_list hs c hd l -> chain (next_slab (<[b:=SLAB_MAGIC h]> hs)) hd l /\ b ∉ l) as Hold.
  { intros c' hd' l Hc (Hch & _ & Hin). assert (b ∉ l) by (intros (? & ? & _)%Hin; congruence). split; [|done].
    eapply chain_ext; [|exact Hch]. intros a Ha. unfold next_slab. rewrite lookup_insert_ne; [done|]. congruence. }
  destruct (decide (sl_cache h = c)) as [<-|Hne].
  - rewrite list_lookup_insert_eq in Hhd by (by eapply lookup_lt_Some). injection Hhd as <-. destruct (H _ _ Hh) as (l & Hcl).
    destruct (Hold _ _ _ Hh Hcl) as [Hch Hbl]. destruct Hcl as (_ & Hnd & Hin). exists (b :: l). split; [|split; [by constructor|]].
    + simpl. repeat split; [done|]. exists head. split; [|done]. unfold next_slab. by rewrite lookup_insert_eq, Hn.
    + intros a. rewrite elem_of_cons, Hin. destruct (decide (a = b)) as [->|]; [|rewrite lookup_insert_ne by done; naive_solver].
      rewrite lookup_insert_eq. naive_solver.
  - rewrite list_lookup_insert_ne in Hhd by done. destruct (H _ _ Hhd) as (l & Hcl). destruct (Hold _ _ _ Hhd Hcl) as [Hch Hbl].
    destruct Hcl as (_ & Hnd & Hin). exists l. split; [done|]. split; [done|]. intros a. rewrite Hin.
    destruct (decide (a = b)) as [->|]; [|by rewrite lookup_insert_ne]. rewrite lookup_insert_eq, Hb. naive_solver.
Qed.

Notation lives s := (live (headers s) (nodes s)).
Notation runs s := (hpages <$> headers s).

(** What every operation here leaves alone: the frames of others. *)
Definition frames_kept (s s' : state) : Prop :=
  forall x n, frames (pmm_of s) !! x = Some (Used n) -> ~ owned (runs s) x -> frames (pmm_of s') !! x = Some (Used n).

Definition no_run (n : Z) (s : state) : Prop := (pmm_pages_alloc_contiguous n (pmm_of s)).1 = 0.

Definition pages_for (size : Z) : Z := (size + 64 + 4095) / 4096.

Lemma large_pages size : 0 < size < 2 ^ 43 -> align_up (64 +w size) PMM_PAGE_SIZE / PMM_PAGE_SIZE = pages_for size.
Proof.
  intros Hsz. unfold u64. rewrite Z.mod_small by lia. rewrite align_up_page by lia. unfold PMM_PAGE_SIZE, pages_for. rewrite Z.div_mul by lia. f_equal. lia.
Qed.

Lemma pages_for_bounds size : 0 < size < 2 ^ 43 -> 0 < pages_for size < 2 ^ 32 /\ size + 64 <= pages_for size * 4096.
Proof. unfold pages_for. Z.div_mod_to_equations; lia. Qed.

Lemma large_ok size s : inv s -> 0 < size < 2 ^ 43 ->
  exists a s', slab_alloc_large size s = (a, s') /\ inv s' /\ frames_kept s s' /\ bytes s' = bytes s /\ slab_ready s' = slab_ready s /\
  ((a = 0 /\ headers s' = headers s /\ nodes s' = nodes s /\ frames (pmm_of s') = frames (pmm_of s) /\ no_run (pages_for size) s) \/
   (a <> 0 /\ (forall c, ~ lives s a c) /\ exists cap, size <= cap /\ forall q c, lives s' q c <-> lives s q c \/ (q = a /\ c = cap))).
Proof.
  intros [Hm Hs Hc] Hsz. unfold slab_alloc_large. change (align_up sizeof_slab_large_header SLAB_MIN_ALIGN) with 64.
  rewrite large_pages by done. pose proof (pages_for_bounds size Hsz) as [Hn Hcap].
  assert (in_u64 (pages_for size)) as Hn64 by (unfold in_u64; lia).
  destruct (pmm_pages_alloc_contiguous (pages_for size) (pmm_of s)) as [b p'] eqn:E. destruct (Z.eqb_spec b 0) as [->|Hb].
  - destruct (mem_none _ _ _ _ Hm Hn64 E) as [Hm' Hf]. eexists _, _. split; [done|]. split; [done|]. split; [by intros x n; simpl; rewrite Hf|]. do 2 (split; [done|]).
    left. repeat split; try done. unfold no_run. by rewrite E.
  - destruct (mem_new _ _ _ _ _ Hm Hn64 E Hb ltac:(lia)) as (Hm' & Hnb & Ho & Hfree & Hb0 & Hb1 & Hb2).
    assert (headers s !! b = None) as Hnb' by (rewrite lookup_fmap in Hnb; by destruct (headers s !! b)).
    unfold u32, u64. rewrite (Z.mod_small (pages_for size)), (Z.mod_small (b + 64)) by lia.
    set (l := mk_large_header (pages_for size) size).
    assert (mem_ok p' (hpages <$> <[b := SLAB_LARGE_MAGIC l]> (headers s))) as Hm2 by (by rewrite fmap_insert).
    pose proof (live_new p' (headers s) (nodes s) (nodes s) b (SLAB_LARGE_MAGIC l) Hm2 Hnb' Hs ltac:(done)) as Hl.
    eexists _, _. split; [done|]. split; [split; simpl; [done| |by apply caches_large]|].
    { by eapply (slabs_new p' _ _ _ _ _ Hm2 Hnb' Hs). }
    split; [|do 2 (split; [done|]); right].
    { intros x n Hx _. simpl. rewrite Ho; [done|]. intros (j & Hj & ->). rewrite Hfree in Hx by done. done. }
    split; [lia|]. split; [|exists (pages_for size * 4096 - 64); split; [lia|exact Hl]].
    intros c Hlc. destruct (live_in _ _ _ Hm Hs _ _ Hlc) as (b2 & h2 & Hb2' & H1 & H2 & H3 & _).
    assert (b <> b2) as Hne by congruence. apply Hne.
    eapply (same_header _ _ Hm2 b (SLAB_LARGE_MAGIC l) b2 h2 (b + 64)); [apply lookup_insert_eq|by rewrite lookup_insert_ne|simpl; lia|lia].
Qed.

Lemma grow_ok c z head s : inv s -> cache_sizes !! c = Some z -> caches s !! c = Some head ->
  exists b s', slab_grow c s = Some (b, s') /\ inv s' /\ frames_kept s s' /\ bytes s' = bytes s /\ slab_ready s' = slab_ready s /\
  ((b = 0 /\ headers s' = headers s /\ nodes s' = nodes s /\ frames (pmm_of s') = frames (pmm_of s) /\ no_run (slab_pages z) s) \/
   (b <> 0 /\ (exists h, headers s' !! b = Some (SLAB_MAGIC h) /\ sl_free h <> 0 /\ sl_object_size h = z) /\ forall q c, lives s' q c <-> lives s q c)).
Proof.
  intros [Hm Hs Hc] Hz Hh. unfold slab_grow. rewrite Hz, Hh. cbn [mbind option_bind]. change (align_up sizeof_slab_header SLAB_MIN_ALIGN) with 64.
  change (slab_bytes z / PMM_PAGE_SIZE) with (slab_pages z). pose proof (cache_facts _ _ Hz) as (Z1 & Z2 & Z3 & Z4 & Z5 & _).
  assert (in_u64 (slab_pages z)) as Hn64 by (unfold in_u64; lia).
  assert (u32 ((slab_pages z *w PMM_PAGE_SIZE -w 64) / z) = slab_objects z) as ->.
  { unfold u64, u32, PMM_PAGE_SIZE. rewrite (Z.mod_small (slab_pages z * _)) by lia. rewrite (Z.mod_small (_ - 64)) by lia. apply Z.mod_small. unfold slab_objects in *. lia. }
  destruct (pmm_pages_alloc_contiguous (slab_pages z) (pmm_of s)) as [b p'] eqn:E. destruct (Z.eqb_spec b 0) as [->|Hb].
  - destruct (mem_none _ _ _ _ Hm Hn64 E) as [Hm' Hf]. eexists _, _. split; [done|]. split; [done|]. split; [by intros x n; simpl; rewrite Hf|]. do 2 (split; [done|]).
    left. repeat split; try done. unfold no_run. by rewrite E.
  - destruct (mem_new _ _ _ _ _ Hm Hn64 E Hb ltac:(lia)) as (Hm' & Hnb & Ho & Hfree & Hb0 & Hb1 & Hb2).
    assert (headers s !! b = None) as Hnb' by (rewrite lookup_fmap in Hnb; by destruct (headers s !! b)).
    change (nodes (set_pmm p' s)) with (nodes s). replace (b +w 64) with (b + 64) by (unfold u64; rewrite Z.mod_small; lia).
    change (u32 64) with 64. replace (u32 (slab_pages z)) with (slab_pages z) by (unfold u32; rewrite Z.mod_small; lia).
    destruct (link_objects_spec (Z.to_nat (slab_objects z)) 0 0 (nodes s) (b + 64) z []) as (fl & F1 & F2 & F3 & F4 & F5); try lia; [done|constructor|set_solver|].
    destruct (link_objects _ _ _ _ _ _) as [free m'] eqn:El. simpl in F1, F5.
    set (h := mk_slab_header (slab_pages z) z (slab_objects z) (slab_objects z) 64 free head c).
    assert (mem_ok p' (hpages <$> <[b := SLAB_MAGIC h]> (headers s))) as Hm2 by (by rewrite fmap_insert).
    assert (forall q, ~ (b <= q < b + hpages (SLAB_MAGIC h) * 4096) -> m' !! q = nodes s !! q) as Hmm.
    { intros q Hq. apply F5. intros k Hk ->. apply Hq. simpl. nia. }
    assert (shape h) as Hsh by done. simpl in F3.
    assert (free_list m' b h fl) as Hfl.
    { split; [done|]. split; [done|]. split; [simpl; lia|]. apply Forall_forall. intros q [Hx|(k & Hk & ->)]%F4; [by apply not_elem_of_nil in Hx|]. exists k. simpl. split; [lia|done]. }
    pose proof (live_new p' (headers s) (nodes s) m' b (SLAB_MAGIC h) Hm2 Hnb' Hs Hmm) as Hl.
    eexists _, _. split; [done|]. split; [split; simpl; [done| |by apply (caches_slab _ _ b h head)]|].
    { eapply (slabs_new p' _ _ _ _ _ Hm2 Hnb' Hs Hmm). eauto. }
    split; [|do 2 (split; [done|]); right].
    { intros x n Hx _. simpl. rewrite Ho; [done|]. intros (j & Hj & ->). rewrite Hfree in Hx by done. done. }
    split; [lia|]. split; [exists h; split; [by simpl; rewrite lookup_insert_eq|split; [|done]]|].
    + destruct fl as [|a fl]; [simpl in F3; lia|]. destruct F1 as (Ha & ? & _). simpl. by rewrite Ha.
    + intros q c'. simpl. rewrite Hl. split; [|by left]. intros [|(fl' & Hfl' & (k & Hk & ->) & Hn & _)]; [done|]. exfalso. apply Hn.
      rewrite (free_list_fun _ _ _ _ _ Hfl' Hfl). apply F4. right. exists k. change (sl_object_size h) with z in *. split; [lia|done].
Qed.

(** ** The functions of the interface *)

Lemma slab_at_Some a s h : slab_at a s = Some h <-> headers s !! a = Some (SLAB_MAGIC h).
Proof. unfold slab_at. destruct (headers s !! a) as [[]|]; naive_solver. Qed.

Lemma list_short hs c head l : cache_list hs c head l -> (length l <= length (map_to_list hs))%nat.
Proof.
  intros (_ & Hnd & Hin). rewrite <- (length_fmap fst). apply submseteq_length, NoDup_submseteq; [done|].
  intros b (h & Hb & _)%Hin. apply list_elem_of_fmap. eexists (b, _). split; [done|]. by apply elem_of_map_to_list.
Qed.

Lemma find_slab_ok fuel : forall head l s, chain (next_slab (headers s)) head l -> (length l < fuel)%nat ->
  exists r, find_slab fuel head s = Some r /\ (r = 0 \/ r <> 0 /\ r ∈ l /\ exists h, headers s !! r = Some (SLAB_MAGIC h) /\ sl_free h <> 0).
Proof.
  induction fuel as [|fuel IH]; intros head l s Hch Hl; [lia|]. destruct l as [|a l]; simpl in Hch |- *; [subst; by exists 0; split; [|left]|].
  destruct Hch as (-> & Ha & n & Hn & Hch). rewrite (proj2 (Z.eqb_neq _ _)) by done. unfold next_slab in Hn. unfold slab_at.
  destruct (headers s !! a) as [[h|]|] eqn:Eh; try done. injection Hn as <-. simpl. destruct (Z.eqb_spec (sl_free h) 0).
  - destruct (IH (sl_next h) l s Hch) as (r & Hr & Hor); [simpl in Hl; lia|]. exists r. split; [done|]. destruct Hor as [|(? & ? & ?)]; [by left|right]. set_solver.
  - exists a. split; [done|]. right. split; [done|]. split; [set_solver|]. eauto.
Qed.

Definition run_for (size : Z) : Z :=
  match cache_for_size size with Some c => slab_pages (default 0 (cache_sizes !! c)) | None => pages_for size end.

Lemma cache_for_size_Some size c : cache_for_size size = Some c -> exists z, cache_sizes !! c = Some z /\ size <= z.
Proof. intros (z & Hz & Hs)%find_idx_lookup. exists z. split; [done|]. lia. Qed.

Lemma cache_for_size_large size : 131072 < size -> cache_for_size size = None.
Proof.
  intros Hs. apply find_idx_None. intros x Hx. assert (x <= 131072); [|lia].
  unfold cache_sizes in Hx. rewrite !elem_of_cons, elem_of_nil in Hx. intuition lia.
Qed.

Definition alloc_post (size a : Z) (s s' : state) : Prop :=
  (a = 0 /\ (forall q c, lives s' q c <-> lives s q c) /\ (size = 0 \/ no_run (run_for size) s)) \/
  (a <> 0 /\ (forall c, ~ lives s a c) /\ exists cap, size <= cap /\ forall q c, lives s' q c <-> lives s q c \/ (q = a /\ c = cap)).

Lemma frames_kept_refl s : frames_kept s s.
Proof. by intros x n. Qed.

Lemma take_ok b h s s1 size : inv s1 -> (forall q c, lives s1 q c <-> lives s q c) -> b <> 0 -> headers s1 !! b = Some (SLAB_MAGIC h) -> sl_free h <> 0 ->
  size <= sl_object_size h ->
  exists a s', take_object b s1 = Some (a, s') /\ inv s' /\ pmm_of s' = pmm_of s1 /\ bytes s' = bytes s1 /\ slab_ready s' = slab_ready s1 /\ alloc_post size a s s'.
Proof.
  intros Hi1 Hl1 Hb0 Hbh Hf0 Hle. unfold take_object. rewrite (proj2 (Z.eqb_neq b 0)) by done. rewrite (proj2 (slab_at_Some b s1 h)) by done. simpl.
  rewrite (proj2 (Z.eqb_neq (sl_free h) 0)) by done. destruct (pop_ok s1 b h Hi1 Hbh Hf0) as (next & -> & Hi2 & Hp2 & Hn2 & Hl2). simpl.
  eexists _, _. split; [done|]. do 4 (split; [done|]). right. split; [done|]. split; [intros c'; rewrite <- Hl1; apply Hn2|].
  exists (sl_object_size h). split; [done|]. intros q c'. by rewrite Hl2, Hl1.
Qed.

Lemma slab_alloc_ok size s : inv s -> slab_ready s = true -> 0 <= size < 2 ^ 43 ->
  exists a s', slab_alloc size s = Some (a, s') /\ inv s' /\ frames_kept s s' /\ bytes s' = bytes s /\ slab_ready s' = true /\ alloc_post size a s s'.
Proof.
  intros Hi Hr Hsz. unfold slab_alloc. rewrite Hr. cbn [negb orb]. destruct (Z.eqb_spec size 0) as [->|Hs0].
  { exists 0, s. split; [done|]. split; [done|]. split; [apply frames_kept_refl|]. do 2 (split; [done|]). left. repeat split; try done. by left. }
  destruct (cache_for_size size) as [c|] eqn:Ec.
  2: { destruct (large_ok size s Hi ltac:(lia)) as (a & s' & E & Hi' & Hk & Hb & Hrd & Hp). exists a, s'. rewrite E. split; [done|]. do 3 (split; [done|]).
       split; [congruence|]. destruct Hp as [(-> & Hh1 & Hn1 & _ & Hn)|Hp]; [left|by right]. rewrite Hh1, Hn1. repeat split; try done. right. unfold run_for. by rewrite Ec. }
  pose proof Ec as Ec'. apply cache_for_size_Some in Ec as (z & Hz & Hle).
  destruct (lookup_lt_is_Some_2 (caches s) c) as [head Hh]; [rewrite (proj1 (inv_caches s Hi)); by eapply lookup_lt_Some|].
  rewrite Hh. cbn [mbind option_bind]. destruct (proj2 (inv_caches s Hi) c head Hh) as (l & Hcl).
  destruct (find_slab_ok (list_fuel s) head l s (proj1 Hcl)) as (r & -> & Hor); [unfold list_fuel; pose proof (list_short _ _ _ _ Hcl); lia|]. cbn [mbind option_bind].
  destruct (Z.eqb_spec r 0) as [->|Hr0].
  - destruct (grow_ok c z head s Hi Hz Hh) as (b & s1 & -> & Hi1 & Hk1 & Hb1 & Hrd1 & [(-> & Hh1 & Hn1 & Hf1 & Hno)|(Hb0 & (h & Hbh & Hf0 & Hoz) & Hl1)]); simpl.
    + eexists _, _. split; [done|]. do 3 (split; [done|]). split; [congruence|]. left. split; [done|]. split; [by rewrite Hh1, Hn1|right].
      unfold run_for. by rewrite Ec', Hz.
    + destruct (take_ok b h s s1 size Hi1 Hl1 Hb0 Hbh Hf0 ltac:(lia)) as (a & s' & -> & Hi' & Hp' & Hb' & Hr' & Hpost).
      exists a, s'. split; [done|]. split; [done|]. split; [intros x n; rewrite Hp'; apply Hk1|]. split; [congruence|]. split; [congruence|done].
  - destruct Hor as [|(_ & Hin & h & Hrh & Hf0)]; [done|]. simpl. pose proof Hcl as (_ & _ & Hcl3). apply Hcl3 in Hin as (h' & Hh' & Hc').
    rewrite Hrh in Hh'. injection Hh' as <-. pose proof (inv_slabs s Hi r h Hrh) as [(Hsh & _) _]. rewrite Hc', Hz in Hsh. injection Hsh as Hoz.
    destruct (take_ok r h s s size Hi ltac:(done) Hr0 Hrh Hf0 ltac:(lia)) as (a & s' & -> & Hi' & Hp' & Hb' & Hr' & Hpost).
    exists a, s'. split; [done|]. split; [done|]. split; [intros x n; by rewrite Hp'|]. split; [congruence|]. split; [congruence|done].
Qed.

(** *** Freeing *)

Lemma owns_iff s b h p a k : inv s -> headers s !! b = Some (SLAB_MAGIC h) -> object b (sl_object_size h) p -> headers s !! a = Some (SLAB_MAGIC k) ->
  slab_owns p a k = bool_decide (a = b).
Proof.
  intros Hi Hb Ho Ha. pose proof (proj1 (inv_slabs s Hi b h Hb)) as Hsh. pose proof (proj1 (inv_slabs s Hi a k Ha)) as Hsk.
  pose proof (object_in _ _ _ Hsh Ho) as (O1 & O2 & O3 & _). pose proof (header_run _ _ (inv_mem s Hi) _ _ Hb) as (B1 & _ & B2 & B3 & _).
  pose proof (header_run _ _ (inv_mem s Hi) _ _ Ha) as (A1 & _ & A2 & A3 & _). simpl in *. unfold slab_owns, PMM_PAGE_SIZE.
  destruct Hsk as (_ & _ & _ & ->). replace (a +w 64) with (a + 64) by (unfold u64; rewrite Z.mod_small; lia).
  replace (a +w sl_page_count k *w 4096) with (a + sl_page_count k * 4096) by (unfold u64; rewrite (Z.mod_small (_ * _)), Z.mod_small; lia).
  case_bool_decide as E.
  - subst a. rewrite Ha in Hb. injection Hb as <-. destruct Ho as (i & Hi' & ->). replace (b + 64 + i * sl_object_size k - (b + 64)) with (i * sl_object_size k) by lia.
    rewrite Z.mod_mul by lia. lia.
  - destruct (headers_apart _ _ (inv_mem s Hi) a _ b _ Ha Hb E) as [Hx|Hx]; simpl in Hx; [rewrite (proj2 (Z.leb_le _ p)) by lia|rewrite (proj2 (Z.ltb_lt p _)) by lia];
      simpl; [by rewrite orb_true_r|done].
Qed.

Section search.
Context (s : state) (b : Z) (h : slab_header) (p : Z).
Context (Hi : inv s) (Hb : headers s !! b = Some (SLAB_MAGIC h)) (Ho : object b (sl_object_size h) p).

Lemma search_slabs_ok fuel : forall head l, chain (next_slab (headers s)) head l -> (length l < fuel)%nat ->
  search_slabs fuel p head s = Some (if decide (b ∈ l) then b else 0).
Proof.
  induction fuel as [|fuel IH]; intros head l Hch Hl; [lia|]. destruct l as [|a l]; simpl in Hch |- *; [by subst|].
  destruct Hch as (-> & Ha & n & Hn & Hch). rewrite (proj2 (Z.eqb_neq _ _)) by done. unfold next_slab in Hn. unfold slab_at.
  destruct (headers s !! a) as [[k|]|] eqn:Ek; try done. injection Hn as <-. simpl. rewrite (owns_iff s b h p a k) by done.
  case_bool_decide as E; [subst; by rewrite decide_True by set_solver|]. rewrite (IH _ l Hch) by (simpl in Hl; lia). f_equal.
  repeat case_decide; set_solver.
Qed.

Lemma search_caches_ok : forall heads k, (forall i head, heads !! i = Some head -> exists l, cache_list (headers s) (k + i) head l) ->
  (k <= sl_cache h < k + length heads)%nat -> search_caches p heads s = Some b.
Proof.
  pose proof (header_run _ _ (inv_mem s Hi) _ _ Hb) as (B1 & _).
  induction heads as [|head heads IH]; intros k Hl Hk; simpl in Hk; [lia|]. cbn [search_caches].
  destruct (Hl 0%nat head eq_refl) as (l & Hcl). rewrite (search_slabs_ok _ head l (proj1 Hcl)) by (unfold list_fuel; pose proof (list_short _ _ _ _ Hcl); lia).
  cbn [mbind option_bind]. destruct Hcl as (_ & _ & Hin). destruct (decide (b ∈ l)) as [Hbl|Hbl].
  - rewrite (proj2 (Z.eqb_neq _ _)) by lia. done.
  - simpl. apply (IH (S k)).
    + intros i hd Hhd. destruct (Hl (S i) hd Hhd) as (l' & Hl'). exists l'. by rewrite Nat.add_succ_r in Hl'.
    + assert (sl_cache h <> k); [|lia]. intros <-. apply Hbl, Hin. rewrite Nat.add_0_r. eauto.
Qed.
End search.

Lemma drop_ok s b l : inv s -> headers s !! b = Some (SLAB_LARGE_MAGIC l) ->
  let s' := set_pmm (pmm_pages_free_contiguous b (lg_page_count l) (pmm_of s)) (set_headers (delete b (headers s)) s) in
  inv s' /\ frames_kept s s' /\ (forall q c, lives s' q c <-> lives s q c /\ q <> b + 64).
Proof.
  intros Hi Hb. pose proof Hi as [Hm Hs Hc]. assert (runs s !! b = Some (lg_page_count l)) as Hr by (by rewrite lookup_fmap, Hb).
  destruct (mem_drop _ _ _ _ Hm Hr) as (Hm' & _ & Ho). cbv zeta. split; [split; simpl|split].
  - by rewrite fmap_delete.
  - intros a h [_ Ha]%lookup_delete_Some. by apply Hs.
  - destruct Hc as [Hl H]. split; [done|]. intros c head Hh. destruct (H c head Hh) as (L & Hch & Hnd & Hin). exists L. split; [|split; [done|]].
    + eapply chain_ext; [|exact Hch]. intros a (h & Ha & _)%Hin. unfold next_slab. rewrite lookup_delete_ne; [done|congruence].
    + intros a. rewrite Hin. destruct (decide (a = b)) as [->|]; [|by rewrite lookup_delete_ne]. rewrite lookup_delete_eq, Hb. naive_solver.
  - intros x n Hx Hno. simpl. rewrite Ho; [done|]. intros Hin. apply Hno. by exists b, (lg_page_count l).
  - assert (slabs_ok (delete b (headers s)) (nodes s)) as Hs' by (intros a h [_ Ha]%lookup_delete_Some; by apply Hs).
    assert (<[b := SLAB_LARGE_MAGIC l]> (delete b (headers s)) = headers s) as Hid by (rewrite insert_delete_eq; by apply insert_id).
    pose proof (live_new (pmm_of s) (delete b (headers s)) (nodes s) (nodes s) b (SLAB_LARGE_MAGIC l)) as Hl. rewrite Hid in Hl.
    specialize (Hl Hm (lookup_delete_eq _ _) Hs' ltac:(done)). intros q c. simpl. rewrite Hl. split; [|naive_solver]. intros Hq. split; [by left|]. intros ->.
    rewrite <- fmap_delete in Hm'. destruct (live_in _ _ _ Hm' Hs' _ _ Hq) as (b2 & h2 & [Hne Hb2]%lookup_delete_Some & H1 & H2 & H3 & _).
    apply Hne. pose proof (header_run _ _ Hm _ _ Hb) as (? & ? & Hn & _). simpl in Hn. eapply (same_header _ _ Hm b _ b2 h2 (b + 64) Hb Hb2); simpl; lia.
Qed.

Lemma page_land x : Z.land x (PMM_PAGE_SIZE - 1) = x mod 4096.
Proof. change (PMM_PAGE_SIZE - 1) with (Z.ones 12). apply Z.land_ones. lia. Qed.

(** An object after the first of its slab is not a page and 64 bytes away from a frame. *)
Lemma object_base b h p : shape h -> b mod 4096 = 0 -> object b (sl_object_size h) p -> (p - 64) mod 4096 = 0 -> p = b + 64.
Proof.
  intros (Hc & _) Hb (i & Hi & ->) Hm. destruct (cache_facts _ _ Hc) as (H1 & _ & _ & _ & H5 & H6). destruct (decide (i = 0)) as [->|Hn]; [lia|].
  exfalso. rewrite H6 in H5 by lia. replace (b + 64 + i * sl_object_size h - 64) with (b + i * sl_object_size h) in Hm by lia.
  apply Z.mod_divide in Hb as [k ->]; [|lia]. rewrite Z.add_comm, Z.mod_add, Z.mod_small in Hm by nia. nia.
Qed.

Lemma slab_free_ok p s : inv s -> p = 0 \/ (exists c, lives s p c) ->
  exists s', slab_free p s = Some s' /\ inv s' /\ frames_kept s s' /\ bytes s' = bytes s /\ slab_ready s' = slab_ready s /\
    forall q c, lives s' q c <-> lives s q c /\ q <> p.
Proof.
  intros Hi Hp. unfold slab_free. change (align_up sizeof_slab_large_header SLAB_MIN_ALIGN) with 64.
  assert (forall q c, lives s q c -> 64 < q < 2 ^ 52) as Hq.
  { intros q c Hl. destruct (live_in _ _ _ (inv_mem s Hi) (inv_slabs s Hi) _ _ Hl) as (b & h & Hb & ? & ? & ? & _).
    pose proof (header_run _ _ (inv_mem s Hi) _ _ Hb). lia. }
  destruct Hp as [->|[c Hl]].
  { exists s. split; [done|]. split; [done|]. split; [apply frames_kept_refl|]. do 2 (split; [done|]). intros q c. split; [|tauto].
    intros Hl. split; [done|]. apply Hq in Hl. lia. }
  pose proof (Hq p c Hl) as Hr. rewrite (proj2 (Z.eqb_neq p 0)) by lia. replace (p -w 64) with (p - 64) by (unfold u64; rewrite Z.mod_small; lia).
  rewrite page_land. inversion Hl as [b h fl q Hb Hf Ho Hn Eq Ec|b l Hb Eq Ec]; subst.
  - assert ((if (p - 64) mod 4096 =? 0 then h ← headers s !! (p - 64); Some match h with SLAB_MAGIC _ => None | SLAB_LARGE_MAGIC l => Some l end else Some None) = Some (None : option slab_large_header)) as ->.
    { destruct (Z.eqb_spec ((p - 64) mod 4096) 0) as [E|]; [|done].
      rewrite (object_base b h p (proj1 (inv_slabs s Hi b h Hb)) (proj1 (proj2 (header_run _ _ (inv_mem s Hi) _ _ Hb))) Ho E).
      replace (b + 64 - 64) with b by lia. by rewrite Hb. }
    cbn [mbind option_bind]. pose proof (inv_slabs s Hi b h Hb) as [(Hsh & _) _].
    rewrite (search_caches_ok s b h p Hi Hb Ho (caches s) 0); [|apply (inv_caches s Hi)|rewrite (proj1 (inv_caches s Hi)); apply lookup_lt_Some in Hsh; lia].
    cbn [mbind option_bind]. rewrite (proj2 (Z.eqb_neq b 0)) by (pose proof (header_run _ _ (inv_mem s Hi) _ _ Hb); lia).
    rewrite (proj2 (slab_at_Some b s h)) by done. cbn [mbind option_bind]. destruct (push_ok s b h p Hi Hb Hl Ho ltac:(lia)) as (Hi' & Hpg & Hl').
    eexists. split; [done|]. split; [done|]. split; [by intros x n|]. by do 2 (split; [done|]).
  - replace (b + 64 - 64) with b by lia. pose proof (header_run _ _ (inv_mem s Hi) _ _ Hb) as (_ & -> & _). cbn [Z.eqb]. rewrite Hb. cbn [mbind option_bind].
    destruct (drop_ok s b l Hi Hb) as (Hi' & Hk & Hl'). eexists. split; [done|]. split; [done|]. split; [done|]. by do 2 (split; [done|]).
Qed.
End Slab.
