(* ===== verification/SlabRun.v ===== *)
(** * What the kernel heap promises

    Sequences of calls of [Slab] together with the rest of the kernel, which
    allocates and releases other frames in between. *)
From stdpp Require Import gmap list.
From Stdlib Require Import ZArith Lia ZifyBool.
From S2P Require Import Prelude Pmm Slab.
Import Slab.

Open Scope Z_scope.
Open Scope machine_scope.

(** The objects that clients hold, with the bytes they may use. *)
Notation objects_map := (gmap Z Z).

Definition slab_rep (A : objects_map) (s : state) : Prop :=
  inv s /\ slab_ready s = true /\ forall q c, A !! q = Some c <-> lives s q c.

Inductive slab_op :=
  | KAlloc (size : Z)
  | KZalloc (size : Z)
  | KFree (ptr : Z)
  | KStore (node : Z) (next : option Z) (addr byte : Z)
  | KFrames (o : pmm_op).

Definition slab_exec (o : slab_op) (s : state) : option (Z * state) :=
  match o with
  | KAlloc size => slab_alloc size s
  | KZalloc size => slab_zalloc size s
  | KFree ptr => s ← slab_free ptr s; Some (0, s)
  | KStore node next addr byte => Some (0, scribble node next addr byte s)
  | KFrames o => Some (0, set_pmm (pmm_exec o (pmm_of s)).2 s)
  end.

(** Sizes stay below what a 32-bit count of pages can express; clients free
    what they hold and store within it; others leave these frames alone. *)
Definition slab_pre (A : objects_map) (s : state) (o : slab_op) : Prop :=
  match o with
  | KAlloc size | KZalloc size => 0 <= size < 2 ^ 43
  | KFree ptr => ptr = 0 \/ is_Some (A !! ptr)
  | KStore node _ addr _ => exists p cap, A !! p = Some cap /\ p <= node < p + cap /\ p <= addr < p + cap
  | KFrames o => op_in_range o /\ forall x, x = 0 \/ owned (runs s) x -> ~ touches o x
  end.

(** A new object of at least [size] bytes, at a multiple of 32. *)
Definition granted (A : objects_map) (size p : Z) (A' : objects_map) : Prop :=
  p <> 0 /\ p mod 32 = 0 /\ A !! p = None /\ exists cap, size <= cap /\ A' = <[p := cap]> A.

(** An allocation of [size] bytes may fail. *)
Definition may_fail (size : Z) (s : state) : Prop := size = 0 \/ no_run (run_for size) s.

Definition slab_post (A : objects_map) (s : state) (o : slab_op) (r : Z) (A' : objects_map) (s' : state) : Prop :=
  match o with
  | KAlloc size => bytes s' = bytes s /\ frames_kept s s' /\ (r = 0 /\ A' = A /\ may_fail size s \/ granted A size r A')
  | KZalloc size => frames_kept s s' /\
      (r = 0 /\ A' = A /\ bytes s' = bytes s /\ may_fail size s \/
       granted A size r A' /\ forall x, bytes s' !! x = if decide (r <= x < r + size) then Some 0 else bytes s !! x)
  | KFree ptr => bytes s' = bytes s /\ frames_kept s s' /\ A' = delete ptr A
  | KStore _ _ addr byte => bytes s' = <[addr := byte]> (bytes s) /\ A' = A
  | KFrames o => A' = A /\ bytes s' = bytes s /\ frame_step (frames (pmm_of s)) o (pmm_exec o (pmm_of s)).1 (frames (pmm_of s'))
  end.

Lemma rep_aligned A s p cap : slab_rep A s -> A !! p = Some cap -> p mod 32 = 0.
Proof. intros (Hi & _ & HA) Hp%HA. by destruct (live_in _ _ _ (inv_mem s Hi) (inv_slabs s Hi) _ _ Hp) as (? & ? & _ & _ & _ & _ & ?). Qed.

Lemma granted_rep A s s' size a : slab_rep A s -> inv s' -> slab_ready s' = true -> alloc_post size a s s' ->
  exists A', slab_rep A' s' /\ (a = 0 /\ A' = A /\ may_fail size s \/ granted A size a A').
Proof.
  intros (Hi & Hr & HA) Hi' Hr' [(-> & Hl & Hf)|(Ha & Hn & cap & Hle & Hl)].
  - exists A. split; [|by left]. split; [done|]. split; [done|]. intros q c. by rewrite HA, Hl.
  - assert (A !! a = None) as HAa by (destruct (A !! a) as [c|] eqn:E; [|done]; apply HA in E; by apply Hn in E).
    assert (slab_rep (<[a := cap]> A) s') as Hrep.
    { split; [done|]. split; [done|]. intros q c. rewrite Hl, <- HA, lookup_insert_Some. split; [|intros [Hq|[-> ->]]; [|by left]].
      - intros [[<- <-]|[? ?]]; [by right|by left].
      - right. split; [congruence|done]. }
    exists (<[a := cap]> A). split; [done|]. right. split; [done|]. split; [by eapply rep_aligned; [|apply lookup_insert_eq]|]. split; [done|]. by exists cap.
Qed.

(** Storing in an object does not reach the links of free ones. *)
Lemma free_apart s p cap b h fl q : inv s -> lives s p cap -> headers s !! b = Some (SLAB_MAGIC h) -> free_list (nodes s) b h fl -> q ∈ fl -> ~ p <= q < p + cap.
Proof.
  intros Hi Hl Hb Hf Hq Hin. pose proof Hf as (_ & _ & _ & Ho). eapply Forall_forall in Ho as Hqo; [|exact Hq].
  pose proof (object_in _ _ _ (proj1 (inv_slabs s Hi b h Hb)) Hqo) as (Q1 & Q2 & Q3 & _).
  destruct (live_in _ _ _ (inv_mem s Hi) (inv_slabs s Hi) _ _ Hl) as (c & k & Hc & C1 & C2 & C3 & _).
  assert (b = c) as <- by (eapply (same_header _ _ (inv_mem s Hi) b _ c _ q Hb Hc); simpl; lia). rewrite Hb in Hc. injection Hc as <-.
  inversion Hl as [b' h' fl' p' Hb' Hf' Hpo Hn Ep Ec|b' l Hb' Ep Ec]; subst.
  - pose proof (object_in _ _ _ (proj1 (inv_slabs s Hi b' h' Hb')) Hpo) as (P1 & P2 & _).
    assert (b = b') as <- by (eapply (same_header _ _ (inv_mem s Hi) b _ b' _ p Hb Hb'); simpl in *; lia). rewrite Hb in Hb'. injection Hb' as <-.
    apply Hn. rewrite (free_list_fun _ _ _ _ _ Hf' Hf). replace p with q; [done|]. destruct Hqo as (i & Hi1 & ->), Hpo as (j & Hj & ->). assert (i = j) as -> by nia. done.
  - pose proof (header_run _ _ (inv_mem s Hi) _ _ Hb') as (? & _ & R & _). simpl in *.
    assert (b = b') as <- by (eapply (same_header _ _ (inv_mem s Hi) b _ b' _ (b' + 64) Hb Hb'); simpl; lia). congruence.
Qed.

Lemma scribble_free_list s p cap node next addr byte b h fl : inv s -> lives s p cap -> p <= node < p + cap -> headers s !! b = Some (SLAB_MAGIC h) ->
  free_list (nodes s) b h fl -> free_list (nodes (scribble node next addr byte s)) b h fl.
Proof.
  intros Hi Hl Hn Hb Hf. pose proof Hf as (Hch & Hr). split; [|done]. eapply chain_ext; [|exact Hch]. intros q Hq.
  assert (node <> q) by (intros ->; by apply (free_apart s p cap b h fl q Hi Hl Hb Hf Hq)).
  destruct next; simpl; [by apply lookup_insert_ne|by apply lookup_delete_ne].
Qed.

Lemma scribble_rep A s p cap node next addr byte : slab_rep A s -> A !! p = Some cap -> p <= node < p + cap -> slab_rep A (scribble node next addr byte s).
Proof.
  intros (Hi & Hr & HA) Hp Hn. apply HA in Hp. pose proof (scribble_free_list s p cap node next addr byte) as Hfl. split; [split|split; [done|]].
  - apply (inv_mem s Hi).
  - intros b h Hb. destruct (inv_slabs s Hi b h Hb) as [Hsh [fl Hf]]. split; [done|]. exists fl. by apply Hfl.
  - apply (inv_caches s Hi).
  - intros q c. rewrite HA. split.
    + intros [b h fl q' Hb Hf Ho Hn'|b l Hb]; [|by constructor]. eapply live_object; try done. by apply Hfl.
    + intros [b h fl q' Hb Hf Ho Hn'|b l Hb]; [|by constructor]. destruct (inv_slabs s Hi b h Hb) as [_ [fl' Hf']].
      apply (live_object _ _ b h fl); try done. by rewrite <- (free_list_fun _ _ _ _ _ (Hfl b h fl' Hi Hp Hn Hb Hf') Hf).
Qed.

Lemma bytes_rep A s x : slab_rep A s -> slab_rep A (set_bytes x s).
Proof. intros ([] & Hr & HA). split; [by split|done]. Qed.

(** ** Every call *)

Lemma slab_exec_ok A s o : slab_rep A s -> slab_pre A s o ->
  exists r s' A', slab_exec o s = Some (r, s') /\ slab_rep A' s' /\ slab_post A s o r A' s'.
Proof.
  intros Hrep Hpre. pose proof Hrep as (Hi & Hr & HA). destruct o as [size|size|ptr|node next addr byte|o]; simpl in Hpre |- *.
  - destruct (slab_alloc_ok size s Hi Hr Hpre) as (a & s' & E & Hi' & Hk & Hb & Hr' & Hp).
    destruct (granted_rep A s s' size a Hrep Hi' Hr' Hp) as (A' & Hrep' & Hg). by exists a, s', A'.
  - destruct (slab_alloc_ok size s Hi Hr Hpre) as (a & s' & E & Hi' & Hk & Hb & Hr' & Hp).
    destruct (granted_rep A s s' size a Hrep Hi' Hr' Hp) as (A' & Hrep' & Hg). unfold slab_zalloc. rewrite E. cbn [mbind option_bind]. eexists a, _, A'. split; [done|].
    destruct Hg as [(-> & -> & Hf)|Hg]; [split; [done|split; [done|left; done]]|]. rewrite (proj2 (Z.eqb_neq a 0)) by apply Hg.
    split; [by apply bytes_rep|]. split; [done|]. right. split; [done|]. intros x. simpl. rewrite zero_bytes_lookup, Z2Nat.id, Hb by lia. done.
  - assert (ptr = 0 \/ exists c, lives s ptr c) as Hp by (destruct Hpre as [?|[c ?%HA]]; eauto).
    destruct (slab_free_ok ptr s Hi Hp) as (s' & -> & Hi' & Hk & Hb & Hr' & Hl). cbn [mbind option_bind]. eexists 0, s', (delete ptr A). split; [done|].
    split; [|done]. split; [done|]. split; [congruence|]. intros q c. rewrite Hl, <- HA, lookup_delete_Some. naive_solver.
  - destruct Hpre as (p & cap & Hp & Hn & _). eexists 0, _, A. split; [done|]. split; [by eapply scribble_rep|done].
  - destruct Hpre as [Hop Ht]. destruct (pmm_exec o (pmm_of s)) as [r p'] eqn:E. destruct (mem_other _ _ _ _ _ (inv_mem s Hi) Hop Ht E) as [Hm Hs].
    eexists 0, _, A. split; [done|]. split; [|done]. split; [split; [done|apply (inv_slabs s Hi)|apply (inv_caches s Hi)]|done].
Qed.

(** ** Sequences of calls *)

(** The bytes behind an object, told by the header of the run of frames it is
    in. *)
Definition usable (s : state) (p : Z) : Z :=
  match find (fun bh : Z * header => (bh.1 <=? p) && (p <? bh.1 + hpages bh.2 * 4096)) (map_to_list (headers s)) with
  | Some (_, SLAB_MAGIC h) => sl_object_size h
  | Some (_, SLAB_LARGE_MAGIC l) => lg_page_count l * 4096 - 64
  | None => 0
  end.

(** What clients hold after a call that returned [r]. *)
Definition objects_after (A : objects_map) (o : slab_op) (r : Z) (s' : state) : objects_map :=
  match o with
  | KAlloc _ | KZalloc _ => if r =? 0 then A else <[r := usable s' r]> A
  | KFree ptr => delete ptr A
  | KStore _ _ _ _ | KFrames _ => A
  end.

Inductive slab_run (s0 : state) : list slab_op -> objects_map -> state -> Prop :=
  | slab_run_nil : slab_run s0 [] ∅ s0
  | slab_run_snoc ops A s o r s' : slab_run s0 ops A s -> slab_pre A s o -> slab_exec o s = Some (r, s') ->
      slab_run s0 (ops ++ [o]) (objects_after A o r s') s'.

Lemma covering_header s b h p : inv s -> headers s !! b = Some h -> b <= p < b + hpages h * 4096 ->
  find (fun bh : Z * header => (bh.1 <=? p) && (p <? bh.1 + hpages bh.2 * 4096)) (map_to_list (headers s)) = Some (b, h).
Proof.
  intros Hi Hb Hp. set (f := fun bh : Z * header => _). destruct (find f (map_to_list (headers s))) as [[b' h']|] eqn:E.
  - apply find_some in E as [Hin Hf]. apply list_elem_of_In, elem_of_map_to_list in Hin. unfold f in Hf. simpl in Hf.
    assert (b = b') as <- by (apply (same_header _ _ (inv_mem s Hi) b h b' h' p); [done|done|lia|lia]). rewrite Hb in Hin. by injection Hin as <-.
  - assert (f (b, h) = false) as Hf; [|unfold f in Hf; simpl in Hf; lia].
    apply (find_none f _ E (b, h)), list_elem_of_In. by apply elem_of_map_to_list.
Qed.

Lemma lives_usable s p c : inv s -> lives s p c -> usable s p = c.
Proof.
  intros Hi Hl. unfold usable. inversion Hl as [b h fl p' Hb Hf Ho Hn Ep Ec|b l Hb Ep Ec]; subst.
  - pose proof (object_in _ _ _ (proj1 (inv_slabs s Hi b h Hb)) Ho) as (H1 & H2 & H3 & _). by rewrite (covering_header s b (SLAB_MAGIC h)) by (done || simpl; lia).
  - pose proof (header_run _ _ (inv_mem s Hi) _ _ Hb) as (_ & _ & H & _). simpl in H. by rewrite (covering_header s b (SLAB_LARGE_MAGIC l)) by (done || simpl; lia).
Qed.

Lemma granted_after A A' s size p : slab_rep A' s -> granted A size p A' -> A' = if p =? 0 then A else <[p := usable s p]> A.
Proof.
  intros (Hi & _ & HA) (Hne & _ & _ & cap & _ & ->). rewrite (proj2 (Z.eqb_neq p 0) Hne). f_equal. symmetry. apply lives_usable; [done|]. apply HA, lookup_insert_eq.
Qed.

(** The clients' account is the one the representation has. *)
Lemma slab_post_after A s o r A' s' : slab_rep A' s' -> slab_post A s o r A' s' -> A' = objects_after A o r s'.
Proof.
  intros Hrep. destruct o as [size|size|ptr|node next addr byte|o]; simpl.
  - intros (_ & _ & [(-> & -> & _)|Hg]); [done|by eapply granted_after].
  - intros (_ & [(-> & -> & _)|[Hg _]]); [done|by eapply granted_after].
  - by intros (_ & _ & ->).
  - by intros (_ & ->).
  - by intros (-> & _).
Qed.

(** The heap after the allocator of frames and the caches are set up. *)
Definition slab_start (p : pmm) : state := slab_init (slab_boot p).

Lemma slab_start_rep p : phys p -> slab_rep ∅ (slab_start p).
Proof.
  intros Hp. split; [split|split; [done|]].
  - simpl. rewrite fmap_empty. split; [done|set_solver..].
  - intros b h Hb. simpl in Hb. set_solver.
  - split; [done|]. intros c head Hh. apply lookup_replicate in Hh as [-> _]. exists []. split; [done|]. split; [constructor|]. set_solver.
  - intros q c. split; [set_solver|]. intros [b h fl q' Hb|b l Hb]; set_solver.
Qed.

Lemma run_slab_rep p ops A s : phys p -> slab_run (slab_start p) ops A s -> slab_rep A s.
Proof.
  intros Hp H. induction H as [|ops A s o r s' _ IH Hpre E]; [by apply slab_start_rep|].
  destruct (slab_exec_ok A s o IH Hpre) as (r1 & s1 & A1 & E1 & Hrep & Hpost). rewrite E in E1. injection E1 as <- <-.
  by rewrite <- (slab_post_after A s o r A1 s').
Qed.

(** The frames the boot code hands to the allocator, with the first mebibyte
    reserved, are such frames. *)
Lemma init_phys available reserved p : map_valid available -> (forall a, a ∈ avail_pages available -> a < 2 ^ 52) ->
  mk_reserved_range 0 1048576 ∈ reserved -> pmm_init_from_ranges available reserved = Some p -> phys p.
Proof.
  intros Hv Hlim Hres Hinit. destruct (init_spec available reserved p Hv Hinit) as (Hwf & _ & _ & _ & Hf). split; [done|]. intros a st. rewrite Hf. unfold initial_frame.
  case_bool_decide as Ha; [|done]. intros E. apply (inj Some) in E. pose proof (avail_frame_bounds _ _ (mv_ranges _ Hv) Ha) as [Hb Hal]. split_and!; [lia|by apply Hlim|done|].
  intros ->. subst st. assert (frame_reserved reserved 0 = true) as ->; [|done].
  apply existsb_exists. exists (mk_reserved_range 0 1048576). split; [by apply list_elem_of_In|]. by vm_compute.
Qed.

Lemma live_at s b h p c : inv s -> headers s !! b = Some h -> lives s p c -> b <= p < b + hpages h * 4096 ->
  match h with SLAB_MAGIC k => object b (sl_object_size k) p /\ c = sl_object_size k | SLAB_LARGE_MAGIC l => p = b + 64 end.
Proof.
  intros Hi Hb Hl Hp. pose proof (inv_mem s Hi) as Hm. inversion Hl as [b' k fl p' Hb' Hf Ho Hn Ep Ec|b' l Hb' Ep Ec]; subst.
  - pose proof (object_in _ _ _ (proj1 (inv_slabs s Hi b' k Hb')) Ho) as (P1 & P2 & P3 & _).
    assert (b = b') as <- by (eapply (same_header _ _ Hm b _ b' _ p Hb Hb'); simpl; lia). rewrite Hb in Hb'. by injection Hb' as ->.
  - pose proof (header_run _ _ Hm _ _ Hb') as (? & _ & R & _). simpl in R.
    assert (b = b') as <- by (eapply (same_header _ _ Hm b _ b' _ (b' + 64) Hb Hb'); simpl; lia). rewrite Hb in Hb'. by injection Hb' as ->.
Qed.

(** *** Objects lie apart and in frames of their own *)

Definition objects_apart (A : objects_map) (s : state) : Prop :=
  (forall p c, A !! p = Some c -> 0 < c /\
     (forall x, p <= x < p + c -> frames (pmm_of s) !! (x / 4096 * 4096) = Some (Used 1)) /\
     (forall b h, headers s !! b = Some h -> b + sizeof_slab_header <= p \/ p + c <= b)) /\
  (forall p c q d, A !! p = Some c -> A !! q = Some d -> p < q -> p + c <= q).

Lemma rep_objects_apart A s : slab_rep A s -> objects_apart A s.
Proof.
  intros (Hi & _ & HA). pose proof (inv_mem s Hi) as Hm. pose proof (inv_slabs s Hi) as Hs. split.
  - intros p c Hl%HA. destruct (live_in _ _ _ Hm Hs _ _ Hl) as (b & h & Hb & H1 & H2 & H3 & _).
    pose proof (header_run _ _ Hm _ _ Hb) as (B1 & B2 & B3 & B4 & Hrun). split; [done|]. split.
    + intros x Hx. replace (x / 4096 * 4096) with (b + (x - b) / 4096 * 4096) by (Z.div_mod_to_equations; lia). apply Hrun. Z.div_mod_to_equations; lia.
    + intros a k Ha. destruct (decide (a = b)) as [->|Hne]; [unfold sizeof_slab_header; lia|].
      pose proof (header_run _ _ Hm _ _ Ha) as (_ & _ & A3 & _). unfold sizeof_slab_header. destruct (headers_apart _ _ Hm a k b h Ha Hb Hne); lia.
  - intros p c q d Hp%HA Hq%HA Hlt. destruct (live_in _ _ _ Hm Hs _ _ Hp) as (b & h & Hb & H1 & H2 & H3 & _).
    destruct (live_in _ _ _ Hm Hs _ _ Hq) as (b' & h' & Hb' & H1' & H2' & H3' & _).
    destruct (decide (b = b')) as [<-|Hne]; [|destruct (headers_apart _ _ Hm b h b' h' Hb Hb' Hne); lia].
    pose proof (live_at s b h p c Hi Hb Hp ltac:(lia)) as Lp. rewrite Hb in Hb'. injection Hb' as <-. pose proof (live_at s b h q d Hi Hb Hq ltac:(lia)) as Lq.
    destruct h as [k|l]; [|lia]. destruct Lp as [(i & Hii & ->) ->], Lq as [(j & Hj & ->) ->]. assert (i < j) by nia. nia.
Qed.

(** ** The properties *)

(** C7: the kernel heap keeps its promises while the rest of the kernel uses
    other frames.  After any sequence of calls, stores into held objects and
    allocations or releases of other frames, every further correct call ends
    without undefined behaviour: an allocation gives an object that is at least
    as large as asked for, aligned and not held by anyone, zeroed where
    promised, and fails only for size 0 or when there is no run of free frames;
    a release gives back exactly that object; frames of others and the contents
    of held objects are not changed. *)
Theorem slab_refines p ops A s o : phys p -> slab_run (slab_start p) ops A s -> slab_pre A s o ->
  exists r s' A', slab_exec o s = Some (r, s') /\ slab_run (slab_start p) (ops ++ [o]) A' s' /\ slab_post A s o r A' s'.
Proof.
  intros Hp Hrun Hpre. pose proof (run_slab_rep p ops A s Hp Hrun) as Hrep. destruct (slab_exec_ok A s o Hrep Hpre) as (r & s' & A' & E & Hrep' & Hpost).
  exists r, s', A'. split; [done|]. split; [|done]. rewrite (slab_post_after A s o r A' s') by done. by eapply slab_run_snoc.
Qed.

(** C28: after any sequence of calls, stores into held objects and uses of
    other frames, the objects of the kernel heap overlap neither each other nor
    the headers, and every byte of them is in a frame that the allocator of
    frames has given to the heap alone; and an object that a further call
    returns is not one that is held. *)
Theorem slab_apart p ops A s : phys p -> slab_run (slab_start p) ops A s ->
  objects_apart A s /\
  forall size r s', 0 <= size < 2 ^ 43 -> slab_exec (KAlloc size) s = Some (r, s') \/ slab_exec (KZalloc size) s = Some (r, s') -> r <> 0 -> A !! r = None.
Proof.
  intros Hp Hrun. pose proof (run_slab_rep p ops A s Hp Hrun) as Hrep. split; [by apply rep_objects_apart|]. intros size r s' Hsz E Hr.
  assert (exists o A', slab_post A s o r A' s' /\ (o = KAlloc size \/ o = KZalloc size)) as (o & A' & Hpost & Ho).
  { destruct E as [E|E]; [exists (KAlloc size)|exists (KZalloc size)];
      match type of E with slab_exec ?o _ = _ => destruct (slab_exec_ok A s o Hrep Hsz) as (r1 & s1 & A1 & E1 & _ & Hpost) end;
      rewrite E in E1; injection E1 as <- <-; eauto. }
  destruct Ho as [->| ->]; simpl in Hpost.
  - destruct Hpost as (_ & _ & [[? _]|(_ & _ & Hn & _)]); [done|exact Hn].
  - destruct Hpost as (_ & [[? _]|[(_ & _ & Hn & _) _]]); [done|exact Hn].
Qed.

Lemma large_drop_frames size s a s' : inv s -> 131072 < size < 2 ^ 43 -> slab_alloc_large size s = (a, s') -> a <> 0 ->
  exists s'', slab_free a s' = Some s'' /\ headers s'' = headers s /\ nodes s'' = nodes s /\ caches s'' = caches s /\ frames (pmm_of s'') = frames (pmm_of s).
Proof.
  intros Hi Hsz E Ha. pose proof (inv_mem s Hi) as Hm. unfold slab_alloc_large in E. change (align_up sizeof_slab_large_header SLAB_MIN_ALIGN) with 64 in E.
  assert (align_up (64 +w size) PMM_PAGE_SIZE / PMM_PAGE_SIZE = pages_for size) as Ep by (apply large_pages; lia). rewrite Ep in E.
  pose proof (pages_for_bounds size ltac:(lia)) as [Hn Hcap]. assert (in_u64 (pages_for size)) as Hn64 by (unfold in_u64; lia).
  destruct (pmm_pages_alloc_contiguous (pages_for size) (pmm_of s)) as [b p'] eqn:Ea. destruct (Z.eqb_spec b 0) as [->|Hb]; [by injection E as <- _|].
  destruct (mem_new _ _ _ _ _ Hm Hn64 Ea Hb ltac:(lia)) as (Hm' & Hnb & Ho & Hfree & Hb0 & Hb1 & Hb2).
  assert (headers s !! b = None) as Hnb' by (rewrite lookup_fmap in Hnb; by destruct (headers s !! b)).
  unfold u32, u64 in E. rewrite (Z.mod_small (pages_for size)), (Z.mod_small (b + 64)) in E by lia. injection E as <- <-.
  destruct (mem_drop _ _ _ _ Hm' (lookup_insert_eq _ _ _)) as (_ & Hf2 & Ho2).
  unfold slab_free. change (align_up sizeof_slab_large_header SLAB_MIN_ALIGN) with 64. rewrite (proj2 (Z.eqb_neq (b + 64) 0)) by lia.
  replace (b + 64 -w 64) with b by (unfold u64; rewrite Z.mod_small; lia). rewrite page_land, Hb2. cbn [Z.eqb headers set_headers set_pmm]. rewrite lookup_insert_eq.
  cbn [mbind option_bind]. eexists. split; [done|]. simpl. split; [by rewrite delete_insert_id|]. do 2 (split; [done|]).
  apply map_eq. intros x. destruct (decide (in_run (pages_for size) b x)) as [(j & Hj & ->)|Hx]; [by rewrite Hf2, Hfree|]. by rewrite Ho2, Ho.
Qed.

(** C38: a large object returns all its frames.  Allocating an object that is
    larger than all caches and freeing it leaves the headers, the caches and the
    state of every frame as they were. *)
Theorem slab_large_roundtrip p ops A s size a s' : phys p -> slab_run (slab_start p) ops A s -> 131072 < size < 2 ^ 43 -> slab_alloc size s = Some (a, s') -> a <> 0 ->
  exists s'', slab_free a s' = Some s'' /\ headers s'' = headers s /\ nodes s'' = nodes s /\ caches s'' = caches s /\ frames (pmm_of s'') = frames (pmm_of s).
Proof.
  intros Hp Hrun Hsz E Ha. destruct (run_slab_rep p ops A s Hp Hrun) as (Hi & Hr & _). unfold slab_alloc in E. rewrite Hr in E. cbn [negb orb] in E.
  rewrite (proj2 (Z.eqb_neq size 0)), cache_for_size_large in E by lia. injection E as E. by eapply large_drop_frames.
Qed.

(** ** A machine of forty frames *)

Definition slab_demo_map : list pmm_memory_range := [mk_memory_range 1048576 163840].

Definition slab_demo_pmm : pmm := default pmm_zero (pmm_init_from_ranges slab_demo_map [mk_reserved_range 0 1048576]).

Lemma slab_demo_phys : phys slab_demo_pmm.
Proof.
  apply (init_phys slab_demo_map [mk_reserved_range 0 1048576]).
  - constructor; [repeat constructor; unfold range_valid, in_u64; simpl; lia|apply (bool_decide_unpack _); vm_compute; exact I|by vm_compute|by vm_compute].
  - apply Forall_forall. apply (bool_decide_unpack _). vm_compute. exact I.
  - set_solver.
  - vm_compute. reflexivity.
Qed.

Definition slab_demo_ptr : Z := 1056576.

Lemma slab_demo_alloc : exists A s, slab_run (slab_start slab_demo_pmm) ([] ++ [KZalloc 100]) A s /\ exists cap, A = {[slab_demo_ptr := cap]}.
Proof.
  destruct (slab_exec_ok ∅ (slab_start slab_demo_pmm) (KZalloc 100) (slab_start_rep _ slab_demo_phys)) as (r & s' & A' & E & Hrep & Hpost); [simpl; lia|].
  assert (fst <$> slab_exec (KZalloc 100) (slab_start slab_demo_pmm) = Some slab_demo_ptr) as Hr by (vm_compute; reflexivity). rewrite E in Hr. injection Hr as ->.
  exists (objects_after ∅ (KZalloc 100) slab_demo_ptr s'), s'. split; [eapply slab_run_snoc; [constructor|simpl; lia|done]|].
  by eexists.
Qed.

Lemma slab_refines_witness : exists A s r s' A', slab_run (slab_start slab_demo_pmm) ([] ++ [KZalloc 100]) A s /\
  slab_exec (KFree slab_demo_ptr) s = Some (r, s') /\ slab_run (slab_start slab_demo_pmm) (([] ++ [KZalloc 100]) ++ [KFree slab_demo_ptr]) A' s' /\ A' = ∅.
Proof.
  destruct slab_demo_alloc as (A & s & Hrun & cap & EA).
  assert (slab_pre A s (KFree slab_demo_ptr)) as Hpre by (right; rewrite EA, lookup_singleton_eq; eauto).
  destruct (slab_refines slab_demo_pmm ([] ++ [KZalloc 100]) A s (KFree slab_demo_ptr) slab_demo_phys Hrun Hpre) as (r & s' & A' & E & Hrun' & (_ & _ & HA)).
  exists A, s, r, s', A'. split; [exact Hrun|]. split; [exact E|]. split; [exact Hrun'|]. rewrite HA, EA. apply delete_singleton_eq.
Defined.

Lemma slab_apart_witness : exists A s, slab_run (slab_start slab_demo_pmm) ([] ++ [KZalloc 100]) A s /\ is_Some (A !! slab_demo_ptr) /\ objects_apart A s.
Proof.
  destruct slab_demo_alloc as (A & s & Hrun & cap & EA). exists A, s. split; [exact Hrun|]. split; [rewrite EA, lookup_singleton_eq; eauto|].
  exact (proj1 (slab_apart slab_demo_pmm ([] ++ [KZalloc 100]) A s slab_demo_phys Hrun)).
Defined.

Lemma slab_large_roundtrip_witness : exists s' s'', slab_alloc 131073 (slab_start slab_demo_pmm) = Some (1052736, s') /\ slab_free 1052736 s' = Some s'' /\
  frames (pmm_of s'') = frames (pmm_of (slab_start slab_demo_pmm)).
Proof.
  assert (fst <$> slab_alloc 131073 (slab_start slab_demo_pmm) = Some 1052736) as Hr by (vm_compute; reflexivity).
  destruct (slab_alloc 131073 (slab_start slab_demo_pmm)) as [[a s']|] eqn:E; [|discriminate]. injection Hr as Ea.
  destruct (slab_large_roundtrip slab_demo_pmm [] ∅ (slab_start slab_demo_pmm) 131073 a s' slab_demo_phys (slab_run_nil _) ltac:(lia) E ltac:(lia)) as (s'' & Hf & _ & _ & _ & Hfr).
  rewrite Ea in Hf. exists s', s''. rewrite Ea. split; [reflexivity|]. split; [exact Hf|exact Hfr].
Defined.

(** A size close to [2^64] overflows.  The size of the header is added
    without a check, so a request for [2^64 - 1] bytes is answered with one
    frame. *)
Theorem slab_size_overflow : exists s', slab_alloc (2 ^ 64 - 1) (slab_start slab_demo_pmm) = Some (1052736, s') /\
  hpages <$> headers s' !! 1052672 = Some 1.
Proof.
  assert ((r ← slab_alloc (2 ^ 64 - 1) (slab_start slab_demo_pmm); Some (r.1, hpages <$> headers r.2 !! 1052672)) = Some (1052736, Some 1)) as H by (vm_compute; reflexivity).
  destruct (slab_alloc (2 ^ 64 - 1) (slab_start slab_demo_pmm)) as [[a s']|]; [|discriminate]. injection H as Ha Hp. exists s'. by rewrite Ha, Hp.
Qed.
