(* ===== verification/Tmpfs.v ===== *)
(** * The memory file system (user/tmpfs/main.c)

    A server that keeps files in its memory.  Directory entries ([tmpfs_file])
    carry their whole path; they are found through a search tree by path and are
    linked in a list that directory listings walk.  An entry points to an inode
    with the contents, shared by hard links.  Open files are in a tree by
    identifier.

    Every function of the file has a definition here of the same name, and
    [serve] is one round of the message loop in [main].  Objects are in maps by
    address; [None] is a use of freed memory, a null dereference or a loop that
    does not end.  Magic numbers are set while an object is allocated, so they
    are represented by membership in the maps.  The replies of other servers and
    the results of memory allocation are arbitrary inputs. *)
From stdpp Require Import gmap list strings.
From Stdlib Require Import ZArith Lia Ascii.
From S2P Require Import Prelude Tree Buffer Dll.

Open Scope Z_scope.
Open Scope machine_scope.

Definition TMPFS_MAX_PATH : Z := 4096.
Definition TMPFS_TREE_WALK_LIMIT : Z := 8192.
Definition TMPFS_OPEN_DIR : Z := 1.
Definition TMPFS_OPEN_FILE : Z := 2.

Definition BUNIX_VFS_TYPE_REGULAR : Z := 1.
Definition BUNIX_VFS_TYPE_DIRECTORY : Z := 2.
Definition BUNIX_VFS_TYPE_SYMLINK : Z := 3.
Definition BUNIX_VFS_TYPE_FIFO : Z := 4.
Definition BUNIX_VFS_ERR_NOENT : Z := 1.
Definition BUNIX_VFS_ERR_ACCESS : Z := 2.
Definition BUNIX_VFS_ERR_NOTDIR : Z := 3.
Definition BUNIX_VFS_ERR_ISDIR : Z := 4.
Definition BUNIX_VFS_ERR_EXIST : Z := 5.
Definition BUNIX_VFS_ERR_NOTEMPTY : Z := 6.
Definition BUNIX_VFS_ERR_INVAL : Z := 8.
Definition BUNIX_VFS_DEV_TMPFS : Z := 2.
Definition BUNIX_VFS_MMAP_PAGE_DATA : Z := 1.
Definition BUNIX_VFS_MMAP_PAGE_BUS : Z := 3.
Definition BUNIX_FS_META_BYTES : Z := 40.
Definition BUNIX_RIGHT_SEND : Z := 1.
Definition BUNIX_RIGHT_RECV : Z := 2.

(** [(u64)-1] *)
Definition ERR : Z := 2 ^ 64 - 1.

(** ** Data *)

(** [i_data] is the block of [i_capacity] bytes, [None] the null pointer. *)
Record tmpfs_inode := mk_inode {
  i_data : option (list Z); i_size : Z; i_capacity : Z; i_refs : Z; i_ino : Z; i_type : Z; i_mode : Z;
  i_uid : Z; i_gid : Z; i_atime : Z; i_mtime : Z; i_ctime : Z;
}.

Record tmpfs_file := mk_file {
  f_prev : Z; f_next : Z; f_path : string; f_refs : Z; f_deleted : bool; f_embedded : bool; f_inode : Z;
}.

Record tmpfs_open := mk_open { o_id : Z; o_owner : Z; o_kind : Z; o_file : Z; o_path : string }.

(** [root_paths] are the [tmpfs_root] structures, [t_alloc] the results of the
    allocations to come. *)
Record tmpfs := mk_tmpfs {
  inodes : gmap Z tmpfs_inode;
  files : gmap Z tmpfs_file;
  files_head : Z;
  files_by_path : tree cstr;
  roots : tree cstr;
  root_paths : gmap Z string;
  opens : gmap Z tmpfs_open;
  open_files : tree Z;
  vfs_callers : tree Z;
  next_open_id : Z;
  next_inode_id : Z;
  vfs_caller_grantor : Z;
  t_alloc : list (option Z);
}.

Definition set_inodes x s := mk_tmpfs x (files s) (files_head s) (files_by_path s) (roots s) (root_paths s) (opens s) (open_files s) (vfs_callers s) (next_open_id s) (next_inode_id s) (vfs_caller_grantor s) (t_alloc s).
Definition set_files x s := mk_tmpfs (inodes s) x (files_head s) (files_by_path s) (roots s) (root_paths s) (opens s) (open_files s) (vfs_callers s) (next_open_id s) (next_inode_id s) (vfs_caller_grantor s) (t_alloc s).
Definition set_head x s := mk_tmpfs (inodes s) (files s) x (files_by_path s) (roots s) (root_paths s) (opens s) (open_files s) (vfs_callers s) (next_open_id s) (next_inode_id s) (vfs_caller_grantor s) (t_alloc s).
Definition set_tree x s := mk_tmpfs (inodes s) (files s) (files_head s) x (roots s) (root_paths s) (opens s) (open_files s) (vfs_callers s) (next_open_id s) (next_inode_id s) (vfs_caller_grantor s) (t_alloc s).
Definition set_roots x y s := mk_tmpfs (inodes s) (files s) (files_head s) (files_by_path s) x y (opens s) (open_files s) (vfs_callers s) (next_open_id s) (next_inode_id s) (vfs_caller_grantor s) (t_alloc s).
Definition set_opens x y s := mk_tmpfs (inodes s) (files s) (files_head s) (files_by_path s) (roots s) (root_paths s) x y (vfs_callers s) (next_open_id s) (next_inode_id s) (vfs_caller_grantor s) (t_alloc s).
Definition set_callers x s := mk_tmpfs (inodes s) (files s) (files_head s) (files_by_path s) (roots s) (root_paths s) (opens s) (open_files s) x (next_open_id s) (next_inode_id s) (vfs_caller_grantor s) (t_alloc s).
Definition set_next_open x s := mk_tmpfs (inodes s) (files s) (files_head s) (files_by_path s) (roots s) (root_paths s) (opens s) (open_files s) (vfs_callers s) x (next_inode_id s) (vfs_caller_grantor s) (t_alloc s).
Definition set_next_inode x s := mk_tmpfs (inodes s) (files s) (files_head s) (files_by_path s) (roots s) (root_paths s) (opens s) (open_files s) (vfs_callers s) (next_open_id s) x (vfs_caller_grantor s) (t_alloc s).
Definition set_grantor x s := mk_tmpfs (inodes s) (files s) (files_head s) (files_by_path s) (roots s) (root_paths s) (opens s) (open_files s) (vfs_callers s) (next_open_id s) (next_inode_id s) x (t_alloc s).
Definition set_alloc x s := mk_tmpfs (inodes s) (files s) (files_head s) (files_by_path s) (roots s) (root_paths s) (opens s) (open_files s) (vfs_callers s) (next_open_id s) (next_inode_id s) (vfs_caller_grantor s) x.

Definition file_links (p n : Z) (f : tmpfs_file) : tmpfs_file :=
  mk_file p n (f_path f) (f_refs f) (f_deleted f) (f_embedded f) (f_inode f).
#[export] Instance file_linked : Linked tmpfs_file := {
  lprev := f_prev; lnext := f_next;
  set_lprev x f := file_links x (f_next f) f; set_lnext x f := file_links (f_prev f) x f }.
#[export] Instance file_linked_laws : LinkedLaws tmpfs_file.
Proof. by constructor. Qed.

Definition set_path (p : string) (e : bool) (f : tmpfs_file) : tmpfs_file :=
  mk_file (f_prev f) (f_next f) p (f_refs f) (f_deleted f) e (f_inode f).
Definition set_refs (r : Z) (f : tmpfs_file) : tmpfs_file :=
  mk_file (f_prev f) (f_next f) (f_path f) r (f_deleted f) (f_embedded f) (f_inode f).
Definition set_deleted (f : tmpfs_file) : tmpfs_file :=
  mk_file (f_prev f) (f_next f) (f_path f) (f_refs f) true (f_embedded f) (f_inode f).
Definition set_inode (i : Z) (f : tmpfs_file) : tmpfs_file :=
  mk_file (f_prev f) (f_next f) (f_path f) (f_refs f) (f_deleted f) (f_embedded f) i.

Definition set_contents (d : option (list Z)) (size capacity : Z) (i : tmpfs_inode) : tmpfs_inode :=
  mk_inode d size capacity (i_refs i) (i_ino i) (i_type i) (i_mode i) (i_uid i) (i_gid i) (i_atime i) (i_mtime i) (i_ctime i).
Definition set_irefs (r : Z) (i : tmpfs_inode) : tmpfs_inode :=
  mk_inode (i_data i) (i_size i) (i_capacity i) r (i_ino i) (i_type i) (i_mode i) (i_uid i) (i_gid i) (i_atime i) (i_mtime i) (i_ctime i).
Definition set_attrs (mode uid gid : Z) (i : tmpfs_inode) : tmpfs_inode :=
  mk_inode (i_data i) (i_size i) (i_capacity i) (i_refs i) (i_ino i) (i_type i) mode uid gid (i_atime i) (i_mtime i) (i_ctime i).
Definition set_times (a m c : Z) (i : tmpfs_inode) : tmpfs_inode :=
  mk_inode (i_data i) (i_size i) (i_capacity i) (i_refs i) (i_ino i) (i_type i) (i_mode i) (i_uid i) (i_gid i) a m c.

(** ** The environment of a message *)

(** A capability in a message: none, a buffer, or something else. *)
Inductive capability := CNone | CBuffer (b : shared_buffer) | COther.

Record bunix_msg := mk_msg {
  m_sender : Z; m_cap_rights : Z; m_cap : capability; m_word0 : Z; m_word1 : Z; m_word2 : Z; m_word3 : Z }.

Record words := mk_words { w0 : Z; w1 : Z; w2 : Z; w3 : Z }.

(** The answers of the user server ([None] when a call fails), of the vfs server
    to a mount request, and the clock. *)
Record env := mk_env {
  e_euid : Z -> option Z;
  e_egid : Z -> option Z;
  e_access : Z -> Z -> Z -> Z -> bool;
  e_mount : string -> bool;
  e_clock : Z;
}.

Definition has_right (r : Z) (m : bunix_msg) : bool := negb (Z.land (m_cap_rights m) r =? 0).
Definition cap_null (m : bunix_msg) : bool := match m_cap m with CNone => true | _ => false end.

Definition bunix_buffer_read (m : bunix_msg) (offset len : Z) : option (Z * list Z) :=
  match m_cap m with
  | CBuffer b => if has_right BUNIX_RIGHT_RECV m then buffer_read_loop b offset len else Some (-1, [])
  | _ => Some (-1, [])
  end.

Definition bunix_buffer_write (m : bunix_msg) (offset : Z) (src : list Z) : option (Z * capability) :=
  match m_cap m with
  | CBuffer b =>
      if has_right BUNIX_RIGHT_SEND m then '(rc, b) ← buffer_write_loop b offset src; Some (rc, CBuffer b)
      else Some (-1, m_cap m)
  | c => Some (-1, c)
  end.

Definition low32 (w : Z) : Z := Z.land w 4294967295.
Definition high32 (w : Z) : Z := Z.shiftr w 32.

(** Allocation: a result that names a live object stands for a failure. *)
Definition fresh (a : Z) (s : tmpfs) : bool :=
  (0 <? a) && (a <? 2 ^ 64) &&
  bool_decide (inodes s !! a = None) && bool_decide (files s !! a = None) && bool_decide (root_paths s !! a = None) &&
  bool_decide (opens s !! a = None) && bool_decide (heap (vfs_callers s) !! a = None).

Definition talloc (s : tmpfs) : Z * tmpfs :=
  match t_alloc s with
  | [] => (0, s)
  | None :: l => (0, set_alloc l s)
  | Some a :: l => (if fresh a s then a else 0, set_alloc l s)
  end.

(** A block that only holds bytes. *)
Definition talloc_bytes (s : tmpfs) : bool * tmpfs :=
  match t_alloc s with
  | [] => (false, s)
  | None :: l => (false, set_alloc l s)
  | Some _ :: l => (true, set_alloc l s)
  end.

(** ** Strings and paths *)

Definition str_len (text : string) : Z := Z.min (Z.of_nat (String.length text)) TMPFS_MAX_PATH.

Fixpoint str_eq_loop (n : nat) (l r : string) : bool :=
  match n with
  | O => false
  | S n =>
      match l, r with
      | EmptyString, EmptyString => true
      | String a l, String b r => bool_decide (a = b) && str_eq_loop n l r
      | _, _ => false
      end
  end.
Definition str_eq (l r : string) : bool := str_eq_loop (Z.to_nat TMPFS_MAX_PATH) l r.

Definition str_dup (text : string) (s : tmpfs) : bool * tmpfs :=
  if str_len text =? TMPFS_MAX_PATH then (false, s) else talloc_bytes s.

Definition slash : ascii := "/".

Fixpoint path_has_prefix_child (path prefix : string) : bool :=
  match prefix with
  | EmptyString => match path with String c _ => bool_decide (c = slash) | EmptyString => false end
  | String b prefix =>
      match path with
      | EmptyString => false
      | String a path => bool_decide (a = b) && path_has_prefix_child path prefix
      end
  end.

Definition path_is_at_or_under (path prefix : string) : bool := str_eq path prefix || path_has_prefix_child path prefix.

Fixpoint str_take (n : nat) (s : string) : string :=
  match n, s with S n, String c s => String c (str_take n s) | _, _ => EmptyString end.
Fixpoint str_drop (n : nat) (s : string) : string :=
  match n, s with S n, String _ s => str_drop n s | _, _ => s end.

Fixpoint has_slash (s : string) : bool :=
  match s with EmptyString => false | String c s => bool_decide (c = slash) || has_slash s end.

(** [last] after the loop that starts at index [i]. *)
Fixpoint last_slash (i last : nat) (s : string) : nat :=
  match s with
  | EmptyString => last
  | String c s => last_slash (S i) (if bool_decide (c = slash) then i else last) s
  end.

Definition path_parent_path (path : string) : option string :=
  match path with
  | EmptyString => None
  | String c rest =>
      if bool_decide (c = slash) then
        match last_slash 1 0 rest with O => Some "/" | last => Some (str_take last path) end
      else None
  end.

Definition path_name_in_dir (path dir : string) : string := str_drop (Z.to_nat (str_len dir + 1)) path.

(** ** Reading paths from messages *)

(** The bytes of the array up to [len]; the string is the one they start with. *)
Definition read_path_buffer_at (m : bunix_msg) (offset len : Z) : option (option (list Z)) :=
  if cap_null m || (len =? 0) || (TMPFS_MAX_PATH <? len) then Some None else
  '(rc, bytes) ← bunix_buffer_read m offset len;
  if negb (rc =? 0) || negb (nth (Z.to_nat (len - 1)) bytes 0 =? 0) then Some None else Some (Some bytes).

Definition starts_with_slash (s : string) : bool := match s with String c _ => bool_decide (c = slash) | EmptyString => false end.

Definition read_resolved_path (m : bunix_msg) : option (option string) :=
  if negb (has_right BUNIX_RIGHT_RECV m) then Some None else
  cwd ← read_path_buffer_at m 0 (m_word0 m);
  match cwd with
  | None => Some None
  | Some _ =>
      input ← read_path_buffer_at m (m_word0 m) (m_word1 m);
      match input with
      | None => Some None
      | Some input => if starts_with_slash (cstring input) then Some (Some (cstring input)) else Some None
      end
  end.

Definition read_symlink_buffer (m : bunix_msg) : option (option (list Z * string)) :=
  let target_len := m_word0 m in let cwd_len := m_word1 m in let path_len := m_word2 m in
  if negb (has_right BUNIX_RIGHT_RECV m) then Some None else
  target ← read_path_buffer_at m 0 target_len;
  match target with
  | None => Some None
  | Some target =>
      cwd ← read_path_buffer_at m target_len cwd_len;
      match cwd with
      | None => Some None
      | Some _ =>
          path ← read_path_buffer_at m (target_len +w cwd_len) path_len;
          match path with
          | None => Some None
          | Some path =>
              if starts_with_slash (cstring path) && negb (nth 0 target 0 =? 0) then Some (Some (target, cstring path)) else Some None
          end
      end
  end.

Definition read_rename_buffer (m : bunix_msg) : option (option (string * string)) :=
  let old_cwd_len := low32 (m_word1 m) in let old_path_len := high32 (m_word1 m) in
  let new_cwd_len := low32 (m_word2 m) in let new_path_len := high32 (m_word2 m) in
  if negb (has_right BUNIX_RIGHT_RECV m) then Some None else
  old_cwd ← read_path_buffer_at m 0 old_cwd_len;
  match old_cwd with
  | None => Some None
  | Some _ =>
      let offset := old_cwd_len in
      old_path ← read_path_buffer_at m offset old_path_len;
      match old_path with
      | None => Some None
      | Some old_path =>
          let offset := offset +w old_path_len in
          new_cwd ← read_path_buffer_at m offset new_cwd_len;
          match new_cwd with
          | None => Some None
          | Some _ =>
              let offset := offset +w new_cwd_len in
              new_path ← read_path_buffer_at m offset new_path_len;
              match new_path with
              | None => Some None
              | Some new_path =>
                  let old_path := cstring old_path in let new_path := cstring new_path in
                  if starts_with_slash old_path && starts_with_slash new_path then Some (Some (old_path, new_path)) else Some None
              end
          end
      end
  end.

(** [bunix_read_path_cap] with a capacity of [TMPFS_MAX_PATH] *)
Definition bunix_read_path_cap (m : bunix_msg) : option (option string) :=
  let len := m_word0 m in
  if (len =? 0) || (TMPFS_MAX_PATH <? len) || negb (has_right BUNIX_RIGHT_RECV m) then Some None else
  '(rc, bytes) ← bunix_buffer_read m 0 len;
  if negb (rc =? 0) || negb (nth (Z.to_nat (len - 1)) bytes 0 =? 0) then Some None else Some (Some (cstring bytes)).

(** ** Entries *)

Definition inode_is_valid (i : Z) (s : tmpfs) : option bool :=
  if i =? 0 then Some false else _ ← inodes s !! i; Some true.

Definition file_is_valid (file : Z) (s : tmpfs) : option bool :=
  if file =? 0 then Some false else f ← files s !! file; inode_is_valid (f_inode f) s.

(** The address of the root structure, or 0. *)
Definition root_find (path : string) (s : tmpfs) : option Z :=
  root ← bunix_tree_get (Some path) (roots s);
  if root =? 0 then Some 0 else _ ← root_paths s !! root; Some root.

Definition path_is_root (path : string) (s : tmpfs) : option bool :=
  if str_eq path "/" then Some true else root ← root_find path s; Some (negb (root =? 0)).

Definition file_is_child_of (file : Z) (dir : string) (s : tmpfs) : option bool :=
  valid ← file_is_valid file s;
  if negb valid then Some false else
  f ← files s !! file;
  if f_deleted f || negb (path_has_prefix_child (f_path f) dir) then Some false
  else Some (negb (has_slash (str_drop (Z.to_nat (str_len dir + 1)) (f_path f)))).

(** Writing through [head->prev] needs a live head. *)
Definition live_or_null (a : Z) (s : tmpfs) : option unit :=
  if a =? 0 then Some tt else _ ← files s !! a; Some tt.

Definition file_list_add (file : Z) (s : tmpfs) : option (Z * tmpfs) :=
  valid ← file_is_valid file s;
  if negb valid then Some (-1, s) else
  f ← files s !! file;
  if negb (f_next f =? 0) || (files_head s =? file) then Some (-1, s) else
  _ ← live_or_null (files_head s) s;
  Some (0, set_head file (set_files (push_front file f (files_head s) (files s)) s)).

Definition file_list_remove (file : Z) (s : tmpfs) : option tmpfs :=
  if file =? 0 then Some s else
  f ← files s !! file;
  before ← (if f_prev f =? 0 then Some false else p ← files s !! f_prev f; Some (f_next p =? file));
  let s := if before : bool then set_files (alter (set_lnext (f_next f)) (f_prev f) (files s)) s
           else if files_head s =? file then set_head (f_next f) s else s in
  behind ← (if f_next f =? 0 then Some false else n ← files s !! f_next f; Some (f_prev n =? file));
  let s := if behind : bool then set_files (alter (set_lprev (f_prev f)) (f_next f) (files s)) s else s in
  Some (set_files (alter (file_links 0 0) file (files s)) s).

(** The address of the entry, or 0. *)
Definition file_find (path : string) (s : tmpfs) : option Z :=
  file ← bunix_tree_get (Some path) (files_by_path s);
  valid ← file_is_valid file s;
  if negb valid then Some 0 else
  f ← files s !! file;
  Some (if negb (f_deleted f) && str_eq (f_path f) path then file else 0).

Definition files_insert_file (file : Z) (s : tmpfs) : option (Z * tmpfs) :=
  valid ← file_is_valid file s;
  if negb valid then Some (-1, s) else
  f ← files s !! file;
  existing ← file_find (f_path f) s;
  if negb (existing =? 0) then Some (-2, s) else
  '(rc, t) ← bunix_tree_insert_node file (Some (f_path f)) file (files_by_path s);
  let s := set_tree t s in
  if negb (rc =? 0) then Some (-1, s) else
  '(rc, s) ← file_list_add file s;
  if negb (rc =? 0) then t ← bunix_tree_remove_node file (files_by_path s); Some (-1, set_tree t s)
  else Some (0, s).

Definition path_parent_exists (path : string) (s : tmpfs) : option bool :=
  match path_parent_path path with
  | None => Some false
  | Some parent =>
      root ← path_is_root parent s;
      if root : bool then Some true else
      file ← file_find parent s;
      if file =? 0 then Some false else
      f ← files s !! file; i ← inodes s !! f_inode f; Some (i_type i =? BUNIX_VFS_TYPE_DIRECTORY)
  end.

(** The parent of a path: none, the fixed root entry, or an entry. *)
Inductive parent_file := PNull | PRoot | PFile (file : Z).

Definition root_inode : tmpfs_inode := mk_inode None 0 0 1 1 BUNIX_VFS_TYPE_DIRECTORY 511 0 0 0 0 0.

Definition parent_file_for_path (path : string) (s : tmpfs) : option parent_file :=
  match path_parent_path path with
  | None => Some PNull
  | Some parent =>
      root ← path_is_root parent s;
      if root : bool then Some PRoot else
      file ← file_find parent s; Some (if file =? 0 then PNull else PFile file)
  end.

(** The inode of an entry. *)
Definition inode_of (file : Z) (s : tmpfs) : option tmpfs_inode := f ← files s !! file; inodes s !! f_inode f.

Definition parent_inode (p : parent_file) (s : tmpfs) : option (option tmpfs_inode) :=
  match p with
  | PNull => Some None
  | PRoot => Some (Some root_inode)
  | PFile file => i ← inode_of file s; Some (Some i)
  end.

Section Server.
Context (e : env).

Definition may_access (task : Z) (i : option tmpfs_inode) (mask : Z) : bool :=
  match i with
  | None => false
  | Some i =>
      (task =? 0) || (mask =? 0) || e_access e task (i_uid i) (i_gid i) (Z.lor (Z.shiftl (i_mode i) 32) mask)
  end.

Definition task_can_access (task : Z) (file : parent_file) (mask : Z) (s : tmpfs) : option bool :=
  i ← parent_inode file s; Some (may_access task i mask).

Definition task_can_chmod (task file : Z) (s : tmpfs) : option bool :=
  if task =? 0 then Some true else
  if file =? 0 then Some false else
  match e_euid e task with
  | None => Some false
  | Some euid => i ← inode_of file s; Some ((euid =? 0) || (euid =? i_uid i))
  end.

Definition task_can_chown (task : Z) : bool :=
  if task =? 0 then true else match e_euid e task with None => false | Some euid => euid =? 0 end.

(** The loops over [files_head]: [n] counts the steps that are left. *)
Fixpoint directory_is_empty_loop (n : nat) (file : Z) (path : string) (s : tmpfs) : option bool :=
  if file =? 0 then Some (negb (Nat.eqb n 0)) else
  match n with
  | O => Some false
  | S n =>
      valid ← file_is_valid file s;
      if negb valid then Some false else
      child ← file_is_child_of file path s;
      if child : bool then Some false else
      f ← files s !! file; directory_is_empty_loop n (f_next f) path s
  end.
Definition directory_is_empty (path : string) (s : tmpfs) : option bool :=
  directory_is_empty_loop (Z.to_nat TMPFS_TREE_WALK_LIMIT) (files_head s) path s.

Definition file_in_renamed_subtree (file : Z) (old_path : string) (s : tmpfs) : option bool :=
  valid ← file_is_valid file s;
  if negb valid then Some false else
  f ← files s !! file;
  Some (negb (f_deleted f) && (str_eq (f_path f) old_path || path_has_prefix_child (f_path f) old_path)).

Definition tmpfs_file_ptr_in_set (fileset : list Z) (file : Z) : bool := bool_decide (file ∈ fileset).

Definition tmpfs_renamed_subtree_path (old_path new_path path : string) : option string :=
  let new_len := str_len new_path in
  let old_len := str_len old_path in
  let suffix := str_drop (Z.to_nat old_len) path in
  if (TMPFS_MAX_PATH <=? new_len) || (TMPFS_MAX_PATH <=? old_len) ||
     (match suffix with EmptyString => false | String c _ => negb (bool_decide (c = slash)) end) then None
  else if TMPFS_MAX_PATH <=? new_len + Z.of_nat (String.length suffix) then None
  else Some (new_path ++ suffix)%string.

(** ** Releasing *)

Definition inode_release (i : Z) (s : tmpfs) : option tmpfs :=
  valid ← inode_is_valid i s;
  if negb valid then Some s else
  n ← inodes s !! i;
  let refs := if i_refs n =? 0 then 0 else i_refs n - 1 in
  if refs =? 0 then Some (set_inodes (delete i (inodes s)) s)
  else Some (set_inodes (<[i := set_irefs refs n]> (inodes s)) s).

Definition free_file (file : Z) (s : tmpfs) : tmpfs :=
  set_tree (drop_node file (files_by_path s)) (set_files (delete file (files s)) s).

Definition file_release (file : Z) (s : tmpfs) : option tmpfs :=
  if file =? 0 then Some s else
  f ← files s !! file;
  let refs := if f_refs f =? 0 then 0 else f_refs f - 1 in
  let s := set_files (<[file := set_refs refs f]> (files s)) s in
  if (refs =? 0) && f_deleted f then s ← inode_release (f_inode f) s; Some (free_file file s)
  else Some s.

Definition files_remove_file (file : Z) (s : tmpfs) : option tmpfs :=
  if file =? 0 then Some s else
  _ ← files s !! file;
  n ← heap (files_by_path s) !! file;
  s ← (if bool_decide (key n = None) then Some s
       else t ← bunix_tree_remove_node file (files_by_path s); Some (set_tree t s));
  file_list_remove file s.

Definition file_unlink (file : Z) (s : tmpfs) : option tmpfs :=
  if file =? 0 then Some s else
  f ← files s !! file;
  s ← files_remove_file file (set_files (<[file := set_deleted f]> (files s)) s);
  file_release file s.

(** ** Contents *)

(** [while (capacity < size) capacity *= 2] *)
Fixpoint grow_capacity (fuel : nat) (capacity size : Z) : option Z :=
  match fuel with
  | O => None
  | S fuel => if capacity <? size then grow_capacity fuel (capacity *w 2) size else Some capacity
  end.

Definition file_resize (file size : Z) (s : tmpfs) : option (Z * tmpfs) :=
  valid ← file_is_valid file s;
  if negb valid then Some (-1, s) else
  f ← files s !! file; i ← inodes s !! f_inode f;
  if size <=? i_capacity i then Some (0, s) else
  capacity ← grow_capacity 65 (if i_capacity i =? 0 then 64 else i_capacity i) size;
  let '(ok, s) := talloc_bytes s in
  if negb ok then Some (-1, s) else
  let data := default [] (i_data i) ++ replicate (Z.to_nat (capacity - i_capacity i)) 0 in
  Some (0, set_inodes (<[f_inode f := set_contents (Some data) (i_size i) capacity i]> (inodes s)) s).

Definition file_set_size (file size : Z) (s : tmpfs) : option (Z * tmpfs) :=
  if file =? 0 then Some (-1, s) else
  f ← files s !! file; i ← inodes s !! f_inode f;
  let old_size := i_size i in
  '(rc, s) ← file_resize file size s;
  if negb (rc =? 0) then Some (-1, s) else
  i ← inodes s !! f_inode f;
  data ← (if old_size <? size then
            d ← i_data i; Some (Some (splice old_size (replicate (Z.to_nat (size - old_size)) 0) d))
          else Some (i_data i));
  Some (0, set_inodes (<[f_inode f := set_contents data size (i_capacity i) i]> (inodes s)) s).

(** ** Creating *)

Definition file_alloc_with_path (path : string) (s : tmpfs) : Z * tmpfs :=
  if str_len path =? TMPFS_MAX_PATH then (0, s) else
  let '(file, s) := talloc s in
  if file =? 0 then (0, s) else
  (file, set_tree (add_node file (files_by_path s)) (set_files (<[file := mk_file 0 0 path 0 false true 0]> (files s)) s)).

(** [ino = next_inode_id++] until it is not 0 *)
Definition take_ino (s : tmpfs) : Z * tmpfs :=
  let ino := next_inode_id s in
  if ino =? 0 then (1, set_next_inode 2 s) else (ino, set_next_inode (ino +w 1) s).

Definition credential (task : Z) : Z * Z :=
  if task =? 0 then (0, 0) else
  match e_euid e task, e_egid e task with Some uid, Some gid => (uid, gid) | _, _ => (0, 0) end.

(** The entry, or 0, and the status. *)
Definition file_create (path : string) (mode type task : Z) (s : tmpfs) : option (Z * Z * tmpfs) :=
  parent ← path_parent_exists path s;
  if negb parent then Some (0, BUNIX_VFS_ERR_NOENT, s) else
  existing ← file_find path s;
  if negb (existing =? 0) then Some (0, BUNIX_VFS_ERR_EXIST, s) else
  if negb (type =? BUNIX_VFS_TYPE_REGULAR) && negb (type =? BUNIX_VFS_TYPE_DIRECTORY) &&
     negb (type =? BUNIX_VFS_TYPE_SYMLINK) && negb (type =? BUNIX_VFS_TYPE_FIFO) then Some (0, BUNIX_VFS_ERR_INVAL, s) else
  let '(file, s) := file_alloc_with_path path s in
  if file =? 0 then Some (0, BUNIX_VFS_ERR_INVAL, s) else
  let '(inode, s) := talloc s in
  if inode =? 0 then Some (0, BUNIX_VFS_ERR_INVAL, free_file file s) else
  let '(ino, s) := take_ino s in
  let '(uid, gid) := credential task in
  let s := set_inodes (<[inode := mk_inode None 0 0 1 ino (u32 type) (Z.land mode 511) (u32 uid) (u32 gid) 0 0 0]> (inodes s)) s in
  let s := set_files (alter (set_inode inode) file (files s)) s in
  '(rc, s) ← files_insert_file file s;
  if negb (rc =? 0) then
    s ← inode_release inode s;
    Some (0, if rc =? -2 then BUNIX_VFS_ERR_EXIST else BUNIX_VFS_ERR_INVAL, free_file file s)
  else Some (file, 0, s).

Fixpoint mkdir_p_path (fuel : nat) (path : string) (mode task : Z) (s : tmpfs) : option (Z * tmpfs) :=
  match fuel with
  | O => None
  | S fuel =>
      if negb (starts_with_slash path) then Some (-1, s) else
      root ← path_is_root path s;
      if root : bool then Some (0, s) else
      file ← file_find path s;
      if negb (file =? 0) then
        i ← inode_of file s; Some (if i_type i =? BUNIX_VFS_TYPE_DIRECTORY then 0 else -1, s)
      else
        match path_parent_path path with
        | None => Some (-1, s)
        | Some parent =>
            '(rc, s) ← mkdir_p_path fuel parent mode task s;
            if negb (rc =? 0) then Some (-1, s) else
            '(file, status, s) ← file_create path mode BUNIX_VFS_TYPE_DIRECTORY task s;
            Some (if negb (file =? 0) || (status =? BUNIX_VFS_ERR_EXIST) then 0 else -1, s)
        end
  end.

(** ** Open files *)

(** The search for an identifier; 0 when all are taken. *)
Fixpoint take_open_id (fuel : nat) (start : Z) (s : tmpfs) : option (Z * tmpfs) :=
  match fuel with
  | O => None
  | S fuel =>
      let id := next_open_id s in
      let next := id +w 1 in
      let next := if next =? 0 then 1 else next in
      let s := set_next_open next s in
      used ← bunix_u64_tree_get id (open_files s);
      if negb (used =? 0) then if next =? start then Some (0, s) else take_open_id fuel start s
      else Some (id, s)
  end.

(** The end of [open_dir] and [open_file]: [open] is the new structure. *)
Definition register_open (open : Z) (o : Z -> tmpfs_open) (s : tmpfs) : option (Z * tmpfs) :=
  let s := set_opens (<[open := o 0]> (opens s)) (add_node open (open_files s)) s in
  '(id, s) ← take_open_id (S (size (opens s))) (next_open_id s) s;
  if id =? 0 then Some (0, s) else
  let s := set_opens (<[open := o id]> (opens s)) (open_files s) s in
  '(rc, t) ← bunix_u64_tree_insert_node open id open (open_files s);
  Some (if rc =? 0 then id else 0, set_opens (opens s) t s).

Definition free_open (open : Z) (s : tmpfs) : tmpfs := set_opens (delete open (opens s)) (drop_node open (open_files s)) s.

Definition open_dir (path : string) (owner : Z) (s : tmpfs) : option (Z * tmpfs) :=
  let '(open, s) := talloc s in
  if open =? 0 then Some (0, s) else
  '(id, s) ← register_open open (fun id => mk_open id owner TMPFS_OPEN_DIR 0 path) s;
  if negb (id =? 0) then Some (id, s) else
  o ← opens s !! open;
  Some (0, if o_id o =? 0 then free_open open s else s).

Definition open_file (file owner : Z) (s : tmpfs) : option (Z * tmpfs) :=
  if file =? 0 then Some (0, s) else
  f ← files s !! file;
  if f_deleted f then Some (0, s) else
  let '(open, s) := talloc s in
  if open =? 0 then Some (0, s) else
  let s := set_files (<[file := set_refs (f_refs f +w 1) f]> (files s)) s in
  '(id, s) ← register_open open (fun id => mk_open id owner TMPFS_OPEN_FILE file EmptyString) s;
  if negb (id =? 0) then Some (id, s) else
  o ← opens s !! open;
  if o_id o =? 0 then s ← file_release file s; Some (0, free_open open s) else Some (0, s).

Definition open_from_handle (handle : Z) (s : tmpfs) : option Z := bunix_u64_tree_get handle (open_files s).

(** The structure the handle names, if the sender owns it. *)
Definition open_from_message (handle sender : Z) (s : tmpfs) : option (option tmpfs_open) :=
  open ← open_from_handle handle s;
  if open =? 0 then Some None else
  o ← opens s !! open; Some (if o_owner o =? sender then Some o else None).

Definition close_handle (handle owner : Z) (s : tmpfs) : option tmpfs :=
  open ← open_from_handle handle s;
  if open =? 0 then Some s else
  o ← opens s !! open;
  if negb (o_owner o =? owner) then Some s else
  s ← (if o_kind o =? TMPFS_OPEN_FILE then file_release (o_file o) s else Some s);
  t ← bunix_u64_tree_remove_node open (open_files s);
  Some (free_open open (set_opens (opens s) t s)).

(** ** Roots *)

Fixpoint any_open_under (nodes : list Z) (path : string) (s : tmpfs) : option bool :=
  match nodes with
  | [] => Some false
  | nd :: nodes =>
      n ← heap (open_files s) !! nd;
      if value n =? 0 then any_open_under nodes path s else
      o ← opens s !! value n;
      under ← (if o_kind o =? TMPFS_OPEN_DIR then Some (path_is_at_or_under (o_path o) path)
               else if (o_kind o =? TMPFS_OPEN_FILE) && negb (o_file o =? 0) then
                 f ← files s !! o_file o; Some (path_is_at_or_under (f_path f) path)
               else Some false);
      if under : bool then Some true else any_open_under nodes path s
  end.
Definition root_has_open_handles (path : string) (s : tmpfs) : option bool :=
  nodes ← walk (open_files s); any_open_under nodes path s.

(** The first entry under the path, 0 if there is none or an invalid entry. *)
Fixpoint find_under (n : nat) (file : Z) (path : string) (s : tmpfs) : option Z :=
  if file =? 0 then Some 0 else
  match n with
  | O => Some 0
  | S n =>
      valid ← file_is_valid file s;
      if negb valid then Some 0 else
      f ← files s !! file;
      if path_has_prefix_child (f_path f) path then Some file else find_under n (f_next f) path s
  end.
Fixpoint prune_root_files (fuel : nat) (path : string) (s : tmpfs) : option tmpfs :=
  match fuel with
  | O => None
  | S fuel =>
      found ← find_under (Z.to_nat TMPFS_TREE_WALK_LIMIT) (files_head s) path s;
      if found =? 0 then Some s else s ← file_unlink found s; prune_root_files fuel path s
  end.

Definition recycle_stale_root (path : string) (s : tmpfs) : option (Z * tmpfs) :=
  root ← root_find path s;
  if root =? 0 then Some (0, s) else
  busy ← root_has_open_handles path s;
  if busy : bool then Some (-1, s) else
  s ← prune_root_files (S (size (files s))) path s;
  t ← bunix_tree_remove_node root (roots s);
  Some (0, set_roots (drop_node root t) (delete root (root_paths s)) s).

Definition mount_root (path : string) (s : tmpfs) : option (Z * tmpfs) :=
  let mount_path p := if e_mount e p then 0 else -1 in
  if negb (starts_with_slash path) then Some (-1, s) else
  root ← root_find path s;
  if negb (root =? 0) then Some (mount_path path, s) else
  '(rc, s) ← recycle_stale_root path s;
  if negb (rc =? 0) then Some (-1, s) else
  let '(root, s) := talloc s in
  if root =? 0 then Some (-1, s) else
  let '(ok, s) := str_dup path s in
  if negb ok then Some (-1, s) else
  let s := set_roots (add_node root (roots s)) (<[root := path]> (root_paths s)) s in
  let free t s := set_roots (drop_node root t) (delete root (root_paths s)) s in
  if negb (mount_path path =? 0) then Some (-1, free (roots s) s) else
  '(rc, t) ← bunix_tree_insert_node root (Some path) root (roots s);
  if negb (rc =? 0) then Some (-1, free t s) else Some (0, set_roots t (root_paths s) s).

(** ** Moving and linking *)

Definition file_move_to_path (file : Z) (new_path : string) (s : tmpfs) : option (Z * tmpfs) :=
  if file =? 0 then Some (-1, s) else
  existing ← file_find new_path s;
  if negb (existing =? 0) then Some (-1, s) else
  let '(ok, s) := str_dup new_path s in
  if negb ok then Some (-1, s) else
  f ← files s !! file;
  s ← files_remove_file file s;
  let s := set_files (alter (set_path new_path false) file (files s)) s in
  '(rc, s) ← files_insert_file file s;
  if rc =? 0 then Some (0, s) else
  let s := set_files (alter (set_path (f_path f) (f_embedded f)) file (files s)) s in
  '(rc, s) ← files_insert_file file s;
  Some (-1, if rc =? 0 then s else set_files (alter set_deleted file (files s)) s).

(** The entries to move in the order of the list; [None] inside when the loop
    gives up. *)
Fixpoint collect_subtree (n : nat) (file : Z) (path : string) (s : tmpfs) : option (option (list Z)) :=
  if file =? 0 then Some (if Nat.eqb n 0 then None else Some []) else
  match n with
  | O => Some None
  | S n =>
      valid ← file_is_valid file s;
      if negb valid then Some None else
      inside ← file_in_renamed_subtree file path s;
      f ← files s !! file;
      rest ← collect_subtree n (f_next f) path s;
      Some (rest ← rest; Some (if inside : bool then file :: rest else rest))
  end.

Fixpoint subtree_paths (moved all : list Z) (old_path new_path : string) (s : tmpfs) : option (option (list string) * tmpfs) :=
  match moved with
  | [] => Some (Some [], s)
  | file :: moved =>
      f ← files s !! file;
      match tmpfs_renamed_subtree_path old_path new_path (f_path f) with
      | None => Some (None, s)
      | Some path =>
          existing ← file_find path s;
          if negb (existing =? 0) && negb (tmpfs_file_ptr_in_set all existing) then Some (None, s) else
          let '(ok, s) := str_dup path s in
          if negb ok then Some (None, s) else
          '(rest, s) ← subtree_paths moved all old_path new_path s;
          Some (rest ← rest; Some (path :: rest), s)
      end
  end.

Fixpoint remove_all (moved : list Z) (s : tmpfs) : option tmpfs :=
  match moved with
  | [] => Some s
  | file :: moved => s ← files_remove_file file s; remove_all moved s
  end.

Fixpoint insert_all (moved : list Z) (paths : list string) (s : tmpfs) : option (Z * tmpfs) :=
  match moved, paths with
  | file :: moved, path :: paths =>
      let s := set_files (alter (set_path path false) file (files s)) s in
      '(rc, s) ← files_insert_file file s;
      if negb (rc =? 0) then Some (-1, set_files (alter set_deleted file (files s)) s)
      else insert_all moved paths s
  | _, _ => Some (0, s)
  end.

Definition file_move_subtree_to_path (file : Z) (new_path : string) (s : tmpfs) : option (Z * tmpfs) :=
  if file =? 0 then Some (-1, s) else
  f ← files s !! file; i ← inodes s !! f_inode f;
  if f_deleted f || negb (i_type i =? BUNIX_VFS_TYPE_DIRECTORY) then Some (-1, s) else
  parent ← path_parent_exists new_path s;
  if negb parent || path_has_prefix_child new_path (f_path f) || (TMPFS_MAX_PATH <=? str_len new_path) then Some (-1, s) else
  moved ← collect_subtree (Z.to_nat TMPFS_TREE_WALK_LIMIT) (files_head s) (f_path f) s;
  match moved with
  | None | Some [] => Some (-1, s)
  | Some moved =>
      let '(ok1, s) := talloc_bytes s in
      let '(ok2, s) := talloc_bytes s in
      if negb ok1 || negb ok2 then Some (-1, s) else
      '(paths, s) ← subtree_paths moved moved (f_path f) new_path s;
      match paths with
      | None => Some (-1, s)
      | Some paths => s ← remove_all moved s; insert_all moved paths s
      end
  end.

Definition file_link_to_path (file : Z) (new_path : string) (s : tmpfs) : option (Z * tmpfs) :=
  if file =? 0 then Some (-1, s) else
  f ← files s !! file;
  if f_deleted f || (f_inode f =? 0) then Some (-1, s) else
  existing ← file_find new_path s;
  if negb (existing =? 0) then Some (-1, s) else
  parent ← path_parent_exists new_path s;
  if negb parent then Some (-1, s) else
  i ← inodes s !! f_inode f;
  if i_type i =? BUNIX_VFS_TYPE_DIRECTORY then Some (-1, s) else
  let '(link, s) := file_alloc_with_path new_path s in
  if link =? 0 then Some (-1, s) else
  let s := set_files (alter (set_inode (f_inode f)) link (files s)) s in
  let s := set_inodes (<[f_inode f := set_irefs (i_refs i +w 1) i]> (inodes s)) s in
  '(rc, s) ← files_insert_file link s;
  if negb (rc =? 0) then s ← inode_release (f_inode f) s; Some (-1, free_file link s)
  else Some (0, s).

(** ** Replies *)

(** What a request answers: the reply words and the buffer after it. *)
Definition answer : Type := words * capability.
Definition status (w : Z) : words := mk_words w 0 0 0.

Definition stat_pack (size mode_type owner dev ino nlink rdev blksize blocks atime mtime ctime : Z) : list Z :=
  foldr (fun v acc => bunix_store_u64_le v ++ acc) []
    [size; mode_type; owner; dev; ino; (if nlink =? 0 then 1 else nlink); rdev; (if blksize =? 0 then 4096 else blksize);
     blocks; atime; mtime; ctime].

(** Where the attributes go: behind both paths, or behind the handle's word. *)
Definition stat_buffer_offset (by_path : bool) (m : bunix_msg) : Z :=
  if by_path then m_word0 m +w m_word1 m else m_word1 m.

Definition write_stat (by_path : bool) (m : bunix_msg) (bytes : list Z) : option capability :=
  if cap_null m || negb (has_right BUNIX_RIGHT_SEND m) then Some (m_cap m) else
  '(_, c) ← bunix_buffer_write m (stat_buffer_offset by_path m) bytes; Some c.

Definition stat_file (by_path : bool) (m : bunix_msg) (file : Z) (s : tmpfs) : option answer :=
  i ← inode_of file s;
  let mode_type := Z.lor (i_mode i) (Z.shiftl (i_type i) 32) in
  let owner := Z.lor (i_uid i) (Z.shiftl (i_gid i) 32) in
  c ← write_stat by_path m (stat_pack (i_size i) mode_type owner BUNIX_VFS_DEV_TMPFS (i_ino i) (i_refs i) 0 4096
                              ((i_size i +w 511) / 512) (i_atime i) (i_mtime i) (i_ctime i));
  Some (mk_words 0 (i_size i) mode_type owner, c).

Definition stat_dir (by_path : bool) (m : bunix_msg) : option answer :=
  let mode_type := Z.lor 511 (Z.shiftl BUNIX_VFS_TYPE_DIRECTORY 32) in
  c ← write_stat by_path m (stat_pack 0 mode_type 0 BUNIX_VFS_DEV_TMPFS (i_ino root_inode) (i_refs root_inode) 0 4096 0 0 0 0);
  Some (mk_words 0 0 mode_type 0, c).

Definition read_utimens_payload (m : bunix_msg) : option (option (Z * Z)) :=
  if cap_null m || negb (has_right BUNIX_RIGHT_RECV m) then Some None else
  '(rc, payload) ← bunix_buffer_read m (m_word0 m +w m_word1 m) 16;
  if negb (rc =? 0) then Some None
  else Some (Some (bunix_load_u64_le payload 0, bunix_load_u64_le payload 8)).

Definition upd_inode (file : Z) (g : tmpfs_inode -> tmpfs_inode) (s : tmpfs) : option tmpfs :=
  f ← files s !! file; i ← inodes s !! f_inode f; Some (set_inodes (<[f_inode f := g i]> (inodes s)) s).

Definition reply_utimens (m : bunix_msg) (file : Z) (s : tmpfs) : option (words * tmpfs) :=
  let flags := high32 (m_word3 m) in
  let now := e_clock e / 1000000000 in
  ok ← task_can_access (low32 (m_word3 m)) (PFile file) 2 s;
  if negb ok then Some (status BUNIX_VFS_ERR_ACCESS, s) else
  payload ← read_utimens_payload m;
  match payload with
  | None => Some (status BUNIX_VFS_ERR_ACCESS, s)
  | Some (atime, mtime) =>
      s ← upd_inode file (fun i =>
            set_times (if Z.land flags 1 =? 0 then if Z.land flags 4 =? 0 then atime else now else i_atime i)
                      (if Z.land flags 2 =? 0 then if Z.land flags 8 =? 0 then mtime else now else i_mtime i) now i) s;
      Some (status 0, s)
  end.

Definition reply_set_meta (m : bunix_msg) (path : string) (s : tmpfs) : option (words * tmpfs) :=
  if negb (m_word1 m =? BUNIX_FS_META_BYTES) || cap_null m || negb (has_right BUNIX_RIGHT_RECV m) then Some (status ERR, s) else
  '(rc, payload) ← bunix_buffer_read m (m_word0 m) BUNIX_FS_META_BYTES;
  if negb (rc =? 0) then Some (status ERR, s) else
  file ← file_find path s;
  if file =? 0 then Some (status BUNIX_VFS_ERR_NOENT, s) else
  i ← inode_of file s;
  let mode_type := bunix_load_u64_le payload 0 in
  let owner := bunix_load_u64_le payload 8 in
  if negb (high32 mode_type =? i_type i) then Some (status BUNIX_VFS_ERR_INVAL, s) else
  s ← upd_inode file (fun i =>
        set_times (bunix_load_u64_le payload 16) (bunix_load_u64_le payload 24) (bunix_load_u64_le payload 32)
          (set_attrs (Z.land mode_type 511) (low32 owner) (u32 (high32 owner)) i)) s;
  Some (status 0, s).

Definition reply_readlink (m : bunix_msg) (file : Z) (s : tmpfs) : option answer :=
  i ← inode_of file s;
  let target_len := i_size i in
  let out_cap := high32 (m_word3 m) in
  match i_data i with
  | None => Some (status BUNIX_VFS_ERR_INVAL, m_cap m)
  | Some data =>
      if negb (i_type i =? BUNIX_VFS_TYPE_SYMLINK) then Some (status BUNIX_VFS_ERR_INVAL, m_cap m) else
      if (out_cap =? 0) || cap_null m || negb (has_right BUNIX_RIGHT_SEND m) then Some (mk_words ERR target_len 0 0, m_cap m) else
      let written := if out_cap <? target_len then out_cap else target_len in
      if written =? 0 then Some (mk_words 0 target_len target_len written, m_cap m) else
      '(rc, c) ← bunix_buffer_write m (m_word0 m +w m_word1 m) (slice 0 written data);
      Some (if rc =? 0 then mk_words 0 target_len target_len written else mk_words ERR target_len 0 0, c)
  end.

Definition sender_is_vfs_caller (sender : Z) (s : tmpfs) : option bool :=
  if sender =? 0 then Some false else c ← bunix_u64_tree_get sender (vfs_callers s); Some (negb (c =? 0)).

Definition grant_vfs_caller_task (sender task : Z) (s : tmpfs) : option (Z * tmpfs) :=
  if sender =? 0 then Some (BUNIX_VFS_ERR_ACCESS, s) else
  if negb (vfs_caller_grantor s =? 0) && negb (sender =? vfs_caller_grantor s) then Some (BUNIX_VFS_ERR_ACCESS, s) else
  let s := if vfs_caller_grantor s =? 0 then set_grantor sender s else s in
  let task := if task =? 0 then sender else task in
  known ← bunix_u64_tree_get task (vfs_callers s);
  if negb (known =? 0) then Some (0, s) else
  let '(caller, s) := talloc s in
  if caller =? 0 then Some (ERR, s) else
  '(rc, t) ← bunix_u64_tree_insert_node caller task caller (add_node caller (vfs_callers s));
  if negb (rc =? 0) then Some (ERR, set_callers (drop_node caller t) s) else Some (0, set_callers t s).

(** ** The requests *)

Definition result : Type := words * capability * tmpfs.
Definition fail (m : bunix_msg) (w : Z) (s : tmpfs) : option result := Some (status w, m_cap m, s).

(** Requests on a path start by reading it. *)
Definition on_path (m : bunix_msg) (s : tmpfs) (k : string -> option result) : option result :=
  path ← read_resolved_path m;
  match path with None => fail m BUNIX_VFS_ERR_NOENT s | Some path => k path end.

Definition subject (m : bunix_msg) : Z := low32 (m_word3 m).

Definition vfs_open_buffer (m : bunix_msg) (s : tmpfs) : option result :=
  on_path m s (fun path =>
    root ← path_is_root path s;
    if root : bool then
      '(id, s) ← open_dir path (m_sender m) s;
      Some (mk_words (if id =? 0 then ERR else 0) id 0 BUNIX_VFS_TYPE_DIRECTORY, m_cap m, s)
    else
      file ← file_find path s;
      if file =? 0 then fail m BUNIX_VFS_ERR_NOENT s else
      i ← inode_of file s;
      '(id, s) ← (if i_type i =? BUNIX_VFS_TYPE_DIRECTORY then open_dir path (m_sender m) s else open_file file (m_sender m) s);
      i ← inode_of file s;
      Some (mk_words (if id =? 0 then ERR else 0) id (i_size i) (i_type i), m_cap m, s)).

Definition created (m : bunix_msg) (r : option (Z * Z * tmpfs)) : option result :=
  '(_, st, s) ← r; Some (status st, m_cap m, s).

Definition vfs_create_buffer (m : bunix_msg) (s : tmpfs) : option result :=
  on_path m s (fun path =>
    parent ← parent_file_for_path path s;
    ok ← task_can_access (subject m) parent 3 s;
    if negb ok then fail m BUNIX_VFS_ERR_ACCESS s else
    file ← file_find path s;
    if file =? 0 then created m (file_create path (high32 (m_word3 m)) BUNIX_VFS_TYPE_REGULAR (subject m) s) else
    i ← inode_of file s;
    Some (status (if i_type i =? BUNIX_VFS_TYPE_DIRECTORY then BUNIX_VFS_ERR_ISDIR else 0), m_cap m, s)).

Definition vfs_mkdir_buffer (m : bunix_msg) (s : tmpfs) : option result :=
  on_path m s (fun path =>
    root ← path_is_root path s;
    if root : bool then fail m BUNIX_VFS_ERR_EXIST s else
    file ← file_find path s;
    if negb (file =? 0) then fail m BUNIX_VFS_ERR_EXIST s else
    parent ← parent_file_for_path path s;
    ok ← task_can_access (subject m) parent 3 s;
    if negb ok then fail m BUNIX_VFS_ERR_ACCESS s else
    created m (file_create path (high32 (m_word3 m)) BUNIX_VFS_TYPE_DIRECTORY (subject m) s)).

Definition vfs_mknod_buffer (m : bunix_msg) (s : tmpfs) : option result :=
  let type := Z.shiftr (m_word3 m) 48 in
  let mode := Z.land (high32 (m_word3 m)) 511 in
  on_path m s (fun path =>
    parent ← parent_file_for_path path s;
    ok ← task_can_access (subject m) parent 3 s;
    if negb ok then fail m BUNIX_VFS_ERR_ACCESS s else
    file ← file_find path s;
    if negb (file =? 0) then fail m BUNIX_VFS_ERR_EXIST s else
    created m (file_create path mode type (subject m) s)).

Definition vfs_symlink_buffer (m : bunix_msg) (s : tmpfs) : option result :=
  let target_len := m_word0 m in
  paths ← read_symlink_buffer m;
  match paths with
  | None => fail m BUNIX_VFS_ERR_NOENT s
  | Some (target, path) =>
      parent ← parent_file_for_path path s;
      ok ← task_can_access (subject m) parent 3 s;
      if negb ok then fail m BUNIX_VFS_ERR_ACCESS s else
      '(file, st, s) ← file_create path 511 BUNIX_VFS_TYPE_SYMLINK (subject m) s;
      if file =? 0 then fail m (if st =? 0 then BUNIX_VFS_ERR_INVAL else st) s else
      '(rc, s) ← file_resize file target_len s;
      if negb (rc =? 0) then
        s ← file_unlink file s; fail m (if st =? 0 then BUNIX_VFS_ERR_INVAL else st) s
      else
        i ← inode_of file s;
        data ← i_data i;
        if Z.of_nat (length data) <? target_len then None else
        s ← upd_inode file (fun i => set_contents (Some (splice 0 target data)) (target_len - 1) (i_capacity i) i) s;
        Some (status st, m_cap m, s)
  end.

Inductive path_query := QStat | QAccess | QReadlink | QUtimens.

Definition vfs_query_buffer (q : path_query) (m : bunix_msg) (s : tmpfs) : option result :=
  on_path m s (fun path =>
    root ← path_is_root path s;
    if root : bool then '(w, c) ← stat_dir (match q with QStat => true | _ => false end) m; Some (w, c, s) else
    file ← file_find path s;
    if file =? 0 then fail m BUNIX_VFS_ERR_NOENT s else
    match q with
    | QReadlink => '(w, c) ← reply_readlink m file s; Some (w, c, s)
    | QAccess =>
        ok ← task_can_access (subject m) (PFile file) (high32 (m_word3 m)) s;
        Some (status (if ok : bool then 0 else BUNIX_VFS_ERR_ACCESS), m_cap m, s)
    | QUtimens => '(w, s) ← reply_utimens m file s; Some (w, m_cap m, s)
    | QStat => '(w, c) ← stat_file true m file s; Some (w, c, s)
    end).

Definition is_file (o : tmpfs_open) : bool := o_kind o =? TMPFS_OPEN_FILE.

Definition vfs_stat_meta (m : bunix_msg) (s : tmpfs) : option result :=
  open ← open_from_message (m_word0 m) (m_sender m) s;
  match open with
  | None => fail m ERR s
  | Some o =>
      '(w, c) ← (if o_kind o =? TMPFS_OPEN_DIR then stat_dir false m else stat_file false m (o_file o) s);
      Some (w, c, s)
  end.

(** Reading a file or a page of a mapped file. *)
Definition read_contents (m : bunix_msg) (bus data_reply : Z -> words) (s : tmpfs) : option result :=
  open ← open_from_message (m_word0 m) (m_sender m) s;
  match open with
  | None => fail m ERR s
  | Some o =>
      if negb (is_file o) || cap_null m || negb (has_right BUNIX_RIGHT_SEND m) then fail m ERR s else
      i ← inode_of (o_file o) s;
      if i_size i <=? m_word1 m then Some (bus 0, m_cap m, s) else
      let left := i_size i - m_word1 m in
      let nread := if m_word2 m <? left then m_word2 m else left in
      data ← i_data i;
      '(rc, c) ← bunix_buffer_write m 0 (slice (m_word1 m) nread data);
      Some (if rc =? 0 then data_reply nread else status ERR, c, s)
  end.
Definition vfs_read_file_buffer (m : bunix_msg) (s : tmpfs) : option result :=
  read_contents m (fun _ => mk_words 0 0 0 0) (fun n => mk_words 0 n 0 0) s.
Definition vfs_mmap_page_buffer (m : bunix_msg) (s : tmpfs) : option result :=
  read_contents m (fun _ => mk_words 0 BUNIX_VFS_MMAP_PAGE_BUS 0 0) (fun n => mk_words 0 BUNIX_VFS_MMAP_PAGE_DATA n 0) s.

Definition vfs_write_file_buffer (m : bunix_msg) (s : tmpfs) : option result :=
  open ← open_from_message (m_word0 m) (m_sender m) s;
  match open with
  | None => fail m ERR s
  | Some o =>
      if negb (is_file o) then fail m ERR s else
      ok ← task_can_access (m_word3 m) (PFile (o_file o)) 2 s;
      if negb ok || cap_null m || negb (has_right BUNIX_RIGHT_RECV m) then fail m ERR s else
      let stop := m_word1 m +w m_word2 m in
      '(rc, s) ← file_resize (o_file o) stop s;
      if negb (rc =? 0) then fail m ERR s else
      '(rc, bytes) ← bunix_buffer_read m 0 (m_word2 m);
      i ← inode_of (o_file o) s;
      data ← (if bool_decide (bytes = []) then Some (i_data i) else
                d ← i_data i;
                if Z.of_nat (length d) <? m_word1 m + Z.of_nat (length bytes) then None
                else Some (Some (splice (m_word1 m) bytes d)));
      s ← upd_inode (o_file o) (fun i =>
            set_contents data (if (rc =? 0) && (i_size i <? stop) then stop else i_size i) (i_capacity i) i) s;
      Some (if rc =? 0 then mk_words 0 (m_word2 m) 0 0 else status ERR, m_cap m, s)
  end.

Definition resized (m : bunix_msg) (r : option (Z * tmpfs)) : option result :=
  '(rc, s) ← r; Some (status (if rc =? 0 then 0 else ERR), m_cap m, s).

Definition vfs_truncate (m : bunix_msg) (s : tmpfs) : option result :=
  if negb (cap_null m) then
    on_path m s (fun path =>
      file ← file_find path s;
      if file =? 0 then fail m BUNIX_VFS_ERR_NOENT s else
      i ← inode_of file s;
      if negb (i_type i =? BUNIX_VFS_TYPE_REGULAR) then fail m BUNIX_VFS_ERR_NOENT s else
      ok ← task_can_access (subject m) (PFile file) 2 s;
      if negb ok then fail m BUNIX_VFS_ERR_ACCESS s else
      resized m (file_set_size file (high32 (m_word3 m)) s))
  else
    open ← open_from_message (m_word0 m) (m_sender m) s;
    match open with
    | None => fail m ERR s
    | Some o =>
        if negb (is_file o) then fail m ERR s else
        ok ← task_can_access (m_word3 m) (PFile (o_file o)) 2 s;
        if negb ok then fail m BUNIX_VFS_ERR_ACCESS s else
        resized m (file_set_size (o_file o) (m_word1 m) s)
    end.

(** The entry of an open file or directory, or 0. *)
Definition open_entry (o : tmpfs_open) (s : tmpfs) : option Z := if is_file o then Some (o_file o) else file_find (o_path o) s.

Definition vfs_chmod_buffer (m : bunix_msg) (s : tmpfs) : option result :=
  on_path m s (fun path =>
    file ← file_find path s;
    if file =? 0 then fail m BUNIX_VFS_ERR_ACCESS s else
    ok ← task_can_chmod (subject m) file s;
    if negb ok then fail m BUNIX_VFS_ERR_ACCESS s else
    s ← upd_inode file (fun i => set_attrs (Z.land (high32 (m_word3 m)) 511) (i_uid i) (i_gid i) i) s;
    Some (status 0, m_cap m, s)).

Definition vfs_chmod (m : bunix_msg) (s : tmpfs) : option result :=
  open ← open_from_message (m_word0 m) (m_sender m) s;
  match open with
  | None => fail m ERR s
  | Some o =>
      if negb (is_file o) && negb (o_kind o =? TMPFS_OPEN_DIR) then fail m ERR s else
      file ← open_entry o s;
      if file =? 0 then fail m BUNIX_VFS_ERR_ACCESS s else
      ok ← task_can_chmod (subject m) file s;
      if negb ok then fail m BUNIX_VFS_ERR_ACCESS s else
      s ← upd_inode file (fun i => set_attrs (Z.land (m_word1 m) 511) (i_uid i) (i_gid i) i) s;
      Some (status 0, m_cap m, s)
  end.

Definition vfs_chown_buffer (m : bunix_msg) (s : tmpfs) : option result :=
  on_path m s (fun path =>
    file ← file_find path s;
    if file =? 0 then fail m BUNIX_VFS_ERR_NOENT s else
    if negb (task_can_chown (subject m)) then fail m BUNIX_VFS_ERR_ACCESS s else
    s ← upd_inode file (fun i =>
          set_attrs (i_mode i) (if m_word2 m =? ERR then i_uid i else u32 (m_word2 m))
            (if high32 (m_word3 m) =? 4294967295 then i_gid i else u32 (high32 (m_word3 m))) i) s;
    Some (status 0, m_cap m, s)).

Definition vfs_chown (m : bunix_msg) (s : tmpfs) : option result :=
  open ← open_from_message (m_word0 m) (m_sender m) s;
  match open with
  | None => fail m ERR s
  | Some o =>
      if negb (is_file o) && negb (o_kind o =? TMPFS_OPEN_DIR) then fail m ERR s else
      file ← open_entry o s;
      if (file =? 0) || negb (task_can_chown (m_word3 m)) then fail m BUNIX_VFS_ERR_ACCESS s else
      s ← upd_inode file (fun i =>
            set_attrs (i_mode i) (if m_word1 m =? ERR then i_uid i else u32 (m_word1 m))
              (if m_word2 m =? ERR then i_gid i else u32 (m_word2 m)) i) s;
      Some (status 0, m_cap m, s)
  end.

(** The entry to remove, after the checks on its parent. *)
Definition with_victim (m : bunix_msg) (s : tmpfs) (k : string -> Z -> tmpfs_inode -> option result) : option result :=
  on_path m s (fun path =>
    parent ← parent_file_for_path path s;
    match parent with
    | PNull => fail m BUNIX_VFS_ERR_NOENT s
    | _ =>
        ok ← task_can_access (subject m) parent 3 s;
        if negb ok then fail m BUNIX_VFS_ERR_ACCESS s else
        file ← file_find path s;
        if file =? 0 then fail m BUNIX_VFS_ERR_NOENT s else
        i ← inode_of file s; k path file i
    end).

Definition vfs_unlink_buffer (m : bunix_msg) (s : tmpfs) : option result :=
  with_victim m s (fun _ file i =>
    if i_type i =? BUNIX_VFS_TYPE_DIRECTORY then fail m BUNIX_VFS_ERR_ISDIR s else
    s ← file_unlink file s; Some (status 0, m_cap m, s)).

Definition vfs_rmdir_buffer (m : bunix_msg) (s : tmpfs) : option result :=
  with_victim m s (fun path file i =>
    if negb (i_type i =? BUNIX_VFS_TYPE_DIRECTORY) then fail m BUNIX_VFS_ERR_NOTDIR s else
    empty ← directory_is_empty path s;
    if negb empty then fail m ERR s else
    s ← file_unlink file s; Some (status 0, m_cap m, s)).

(** Two paths that are not roots. *)
Definition on_two_paths (m : bunix_msg) (s : tmpfs) (k : string -> string -> Z -> option result) : option result :=
  paths ← read_rename_buffer m;
  match paths with
  | None => fail m BUNIX_VFS_ERR_NOENT s
  | Some (path, new_path) =>
      root ← path_is_root path s;
      if root : bool then fail m BUNIX_VFS_ERR_NOENT s else
      root ← path_is_root new_path s;
      if root : bool then fail m BUNIX_VFS_ERR_NOENT s else
      file ← file_find path s;
      if file =? 0 then fail m BUNIX_VFS_ERR_NOENT s else k path new_path file
  end.

(** The last step of a rename. *)
Definition rename_move (m : bunix_msg) (file : Z) (dir : bool) (new_path : string) (s : tmpfs) : option result :=
  '(rc, s) ← (if dir then file_move_subtree_to_path file new_path s else file_move_to_path file new_path s);
  Some (status (if rc =? 0 then 0 else BUNIX_VFS_ERR_NOENT), m_cap m, s).

Definition vfs_rename_buffer (m : bunix_msg) (s : tmpfs) : option result :=
  let task := subject m in
  let flags := high32 (m_word3 m) in
  on_two_paths m s (fun path new_path file =>
    if str_eq path new_path then Some (status 0, m_cap m, s) else
    old_parent ← parent_file_for_path path s;
    new_parent ← parent_file_for_path new_path s;
    ok1 ← task_can_access task old_parent 3 s;
    ok2 ← task_can_access task new_parent 3 s;
    if negb ok1 || negb ok2 then fail m BUNIX_VFS_ERR_ACCESS s else
    i ← inode_of file s;
    let dir := i_type i =? BUNIX_VFS_TYPE_DIRECTORY in
    if dir && path_has_prefix_child new_path path then fail m BUNIX_VFS_ERR_INVAL s else
    target ← file_find new_path s;
    if target =? 0 then rename_move m file dir new_path s else
    if negb (Z.land flags 1 =? 0) then fail m BUNIX_VFS_ERR_EXIST s else
    t ← inode_of target s;
    let tdir := i_type t =? BUNIX_VFS_TYPE_DIRECTORY in
    if tdir && negb dir then fail m BUNIX_VFS_ERR_ISDIR s else
    if negb tdir && dir then fail m BUNIX_VFS_ERR_NOTDIR s else
    empty ← (if tdir then directory_is_empty new_path s else Some true);
    if negb empty then fail m BUNIX_VFS_ERR_NOTEMPTY s else
    s ← file_unlink target s;
    rename_move m file dir new_path s).

Definition vfs_link_buffer (m : bunix_msg) (s : tmpfs) : option result :=
  let task := subject m in
  on_two_paths m s (fun path new_path file =>
    existing ← file_find new_path s;
    if negb (existing =? 0) then fail m BUNIX_VFS_ERR_EXIST s else
    i ← inode_of file s;
    if i_type i =? BUNIX_VFS_TYPE_DIRECTORY then fail m BUNIX_VFS_ERR_ACCESS s else
    old_parent ← parent_file_for_path path s;
    new_parent ← parent_file_for_path new_path s;
    ok1 ← task_can_access task old_parent 1 s;
    ok2 ← task_can_access task new_parent 3 s;
    if negb ok1 || negb ok2 then fail m BUNIX_VFS_ERR_ACCESS s else
    '(rc, s) ← file_link_to_path file new_path s;
    Some (status (if rc =? 0 then 0 else ERR), m_cap m, s)).

(** The entry a listing stops at. *)
Definition readdir_entry (m : bunix_msg) (dir : string) (f : tmpfs_file) (last : bool) (s : tmpfs) : option answer :=
  i ← inodes s !! f_inode f;
  let name := path_name_in_dir (f_path f) dir in
  let name_len := str_len name in
  let w1 := Z.lor (m_word1 m +w 1) (Z.shiftl (i_type i) 32) in
  let written := if m_word3 m <? name_len then m_word3 m else name_len in
  '(rc, c) ← (if written =? 0 then Some (0, m_cap m)
              else bunix_buffer_write m (m_word2 m) (slice 0 written (string_bytes name)));
  Some (if rc =? 0 then mk_words (if last then ERR else 0) w1 name_len written else mk_words ERR w1 0 0, c).

Fixpoint readdir_loop (n : nat) (file current : Z) (m : bunix_msg) (dir : string) (s : tmpfs) : option answer :=
  if file =? 0 then Some (status BUNIX_VFS_ERR_NOENT, m_cap m) else
  match n with
  | O => Some (status ERR, m_cap m)
  | S n =>
      valid ← file_is_valid file s;
      if negb valid then Some (status ERR, m_cap m) else
      child ← file_is_child_of file dir s;
      f ← files s !! file;
      if negb child then readdir_loop n (f_next f) current m dir s else
      if current =? m_word1 m then readdir_entry m dir f (Nat.eqb n 0) s
      else readdir_loop n (f_next f) (current + 1) m dir s
  end.

Definition vfs_readdir_buffer (m : bunix_msg) (s : tmpfs) : option result :=
  open ← open_from_message (m_word0 m) (m_sender m) s;
  match open with
  | None => fail m BUNIX_VFS_ERR_NOTDIR s
  | Some o =>
      if negb (o_kind o =? TMPFS_OPEN_DIR) then fail m BUNIX_VFS_ERR_NOTDIR s else
      if cap_null m || negb (has_right BUNIX_RIGHT_SEND m) then fail m ERR s else
      '(w, c) ← readdir_loop (Z.to_nat TMPFS_TREE_WALK_LIMIT) (files_head s) 0 m (o_path o) s;
      Some (w, c, s)
  end.

Definition vfs_close (m : bunix_msg) (s : tmpfs) : option result :=
  open ← open_from_message (m_word0 m) (m_sender m) s;
  match open with
  | None => fail m ERR s
  | Some _ => s ← close_handle (m_word0 m) (m_sender m) s; Some (status 0, m_cap m, s)
  end.

(** ** The message loop *)

Inductive vfs_type :=
  | VFS_READ_FILE_BUFFER | VFS_CLOSE | VFS_STAT_META | VFS_OPEN_BUFFER | VFS_STAT_PATH_META_BUFFER | VFS_READLINK_BUFFER
  | VFS_ACCESS_BUFFER | VFS_CREATE_BUFFER | VFS_WRITE_FILE_BUFFER | VFS_TRUNCATE | VFS_UNLINK_BUFFER | VFS_CHMOD_BUFFER
  | VFS_CHMOD | VFS_MKDIR_BUFFER | VFS_CHOWN_BUFFER | VFS_CHOWN | VFS_RMDIR_BUFFER | VFS_READDIR_BUFFER | VFS_SYMLINK_BUFFER
  | VFS_RENAME_BUFFER | VFS_MKNOD_BUFFER | VFS_LINK_BUFFER | VFS_UTIMENS_BUFFER | VFS_MMAP_PAGE_BUFFER | VFS_UNKNOWN.

Inductive request :=
  | TMPFS_MOUNT_ROOT
  | FS_MKDIR_P_BUFFER
  | FS_SET_META_BUFFER
  | FS_UNKNOWN
  | VFS_GRANT_SUBJECT_TASK
  | VFS (t : vfs_type).

(** [message.protocol] and [message.type]; [None] when the message is ignored. *)
Definition BUNIX_PROTO_VFS : Z := 810763862.
Definition BUNIX_PROTO_FS : Z := 1448235846.
Definition BUNIX_PROTO_TMPFS : Z := 1179667796.

Definition vfs_type_of (type : Z) : vfs_type :=
  default VFS_UNKNOWN (list_to_map (M := gmap Z vfs_type)
    [(6, VFS_READ_FILE_BUFFER); (7, VFS_CLOSE); (8, VFS_STAT_META); (12, VFS_OPEN_BUFFER); (13, VFS_STAT_PATH_META_BUFFER);
     (14, VFS_READLINK_BUFFER); (15, VFS_ACCESS_BUFFER); (16, VFS_CREATE_BUFFER); (17, VFS_WRITE_FILE_BUFFER); (18, VFS_TRUNCATE);
     (19, VFS_UNLINK_BUFFER); (20, VFS_CHMOD_BUFFER); (21, VFS_CHMOD); (22, VFS_MKDIR_BUFFER); (23, VFS_CHOWN_BUFFER);
     (24, VFS_CHOWN); (25, VFS_RMDIR_BUFFER); (26, VFS_READDIR_BUFFER); (30, VFS_SYMLINK_BUFFER); (31, VFS_RENAME_BUFFER);
     (32, VFS_MKNOD_BUFFER); (33, VFS_LINK_BUFFER); (38, VFS_UTIMENS_BUFFER); (39, VFS_MMAP_PAGE_BUFFER)] !! type).

Definition decode (protocol type : Z) : option request :=
  if protocol =? BUNIX_PROTO_TMPFS then
    Some (if type =? 1 then TMPFS_MOUNT_ROOT else if type =? 2 then FS_MKDIR_P_BUFFER else FS_UNKNOWN)
  else if protocol =? BUNIX_PROTO_FS then
    Some (if type =? 1 then FS_MKDIR_P_BUFFER else if type =? 2 then FS_SET_META_BUFFER else FS_UNKNOWN)
  else if protocol =? BUNIX_PROTO_VFS then
    Some (if type =? 37 then VFS_GRANT_SUBJECT_TASK else VFS (vfs_type_of type))
  else None.

Definition vfs_request (t : vfs_type) (m : bunix_msg) (s : tmpfs) : option result :=
  match t with
  | VFS_OPEN_BUFFER => vfs_open_buffer m s
  | VFS_CREATE_BUFFER => vfs_create_buffer m s
  | VFS_MKDIR_BUFFER => vfs_mkdir_buffer m s
  | VFS_MKNOD_BUFFER => vfs_mknod_buffer m s
  | VFS_SYMLINK_BUFFER => vfs_symlink_buffer m s
  | VFS_STAT_PATH_META_BUFFER => vfs_query_buffer QStat m s
  | VFS_ACCESS_BUFFER => vfs_query_buffer QAccess m s
  | VFS_READLINK_BUFFER => vfs_query_buffer QReadlink m s
  | VFS_UTIMENS_BUFFER => vfs_query_buffer QUtimens m s
  | VFS_STAT_META => vfs_stat_meta m s
  | VFS_READ_FILE_BUFFER => vfs_read_file_buffer m s
  | VFS_MMAP_PAGE_BUFFER => vfs_mmap_page_buffer m s
  | VFS_WRITE_FILE_BUFFER => vfs_write_file_buffer m s
  | VFS_TRUNCATE => vfs_truncate m s
  | VFS_CHMOD_BUFFER => vfs_chmod_buffer m s
  | VFS_CHMOD => vfs_chmod m s
  | VFS_CHOWN_BUFFER => vfs_chown_buffer m s
  | VFS_CHOWN => vfs_chown m s
  | VFS_UNLINK_BUFFER => vfs_unlink_buffer m s
  | VFS_RMDIR_BUFFER => vfs_rmdir_buffer m s
  | VFS_RENAME_BUFFER => vfs_rename_buffer m s
  | VFS_LINK_BUFFER => vfs_link_buffer m s
  | VFS_READDIR_BUFFER => vfs_readdir_buffer m s
  | VFS_CLOSE => vfs_close m s
  | VFS_UNKNOWN => fail m ERR s
  end.

(** A result of an [int] function as a word. *)
Definition int_word (rc : Z) : Z := u64 rc.

Definition serve (r : request) (m : bunix_msg) (s : tmpfs) : option result :=
  let with_path k :=
    path ← bunix_read_path_cap m; match path with None => fail m ERR s | Some path => k path end in
  match r with
  | TMPFS_MOUNT_ROOT => with_path (fun path => '(rc, s) ← mount_root path s; fail m (int_word rc) s)
  | FS_MKDIR_P_BUFFER =>
      with_path (fun path =>
        '(rc, s) ← mkdir_p_path (S (String.length path)) path (m_word1 m) (m_word2 m) s; fail m (int_word rc) s)
  | FS_SET_META_BUFFER => with_path (fun path => '(w, s) ← reply_set_meta m path s; Some (w, m_cap m, s))
  | FS_UNKNOWN => fail m ERR s
  | VFS_GRANT_SUBJECT_TASK => '(rc, s) ← grant_vfs_caller_task (m_sender m) (m_word0 m) s; fail m rc s
  | VFS t =>
      known ← sender_is_vfs_caller (m_sender m) s;
      if negb known then fail m BUNIX_VFS_ERR_ACCESS s else vfs_request t m s
  end.
End Server.

(** The state when [main] enters its loop. *)
Definition tmpfs_start (alloc : list (option Z)) : tmpfs :=
  mk_tmpfs ∅ ∅ 0 (bunix_tree_init (mk_tree 0 0 ∅)) (bunix_tree_init (mk_tree 0 0 ∅)) ∅ ∅
    (bunix_u64_tree_init (mk_tree 0 0 ∅)) (bunix_u64_tree_init (mk_tree 0 0 ∅)) 1 2 0 alloc.
