(* ===== verification/TmpfsSpec.v ===== *)
(** * What the memory file system promises

    A file system as maps: paths to inodes, inodes to contents and attributes,
    identifiers to open files and directories.  [fs_serve] says what a request
    answers and how it changes the maps; [TmpfsRefine] shows that [Tmpfs.serve]
    does that.  Search trees, linked lists, reference counts, capacities and
    addresses of entries do not appear here. *)
From stdpp Require Import gmap list strings.
From Stdlib Require Import ZArith Lia Ascii.
From S2P Require Import Prelude Tree Buffer Tmpfs.

Open Scope Z_scope.
Open Scope machine_scope.

Record anode := mk_anode {
  a_data : list Z; a_type : Z; a_ino : Z; a_mode : Z; a_uid : Z; a_gid : Z; a_atime : Z; a_mtime : Z; a_ctime : Z }.

(** An open directory remembers a path; an open file is the entry at a path and
    follows it when it is renamed. *)
Inductive ahandle := ADir (owner : Z) (path : string) | AFile (owner : Z) (path : string).

Record afs := mk_afs {
  a_links : gmap string Z;
  a_order : list string;
  a_nodes : gmap Z anode;
  a_handles : gmap Z ahandle;
  a_roots : gset string;
  a_callers : gset Z;
  a_grantor : Z;
  a_next_ino : Z;
}.

Definition with_links x y A := mk_afs x y (a_nodes A) (a_handles A) (a_roots A) (a_callers A) (a_grantor A) (a_next_ino A).
Definition with_nodes x A := mk_afs (a_links A) (a_order A) x (a_handles A) (a_roots A) (a_callers A) (a_grantor A) (a_next_ino A).
Definition with_handles x A := mk_afs (a_links A) (a_order A) (a_nodes A) x (a_roots A) (a_callers A) (a_grantor A) (a_next_ino A).
Definition with_roots x A := mk_afs (a_links A) (a_order A) (a_nodes A) (a_handles A) x (a_callers A) (a_grantor A) (a_next_ino A).
Definition with_callers x y A := mk_afs (a_links A) (a_order A) (a_nodes A) (a_handles A) (a_roots A) x y (a_next_ino A).
Definition with_next_ino x A := mk_afs (a_links A) (a_order A) (a_nodes A) (a_handles A) (a_roots A) (a_callers A) (a_grantor A) x.

(** ** Looking up *)

Definition a_node (A : afs) (path : string) : option anode := i ← a_links A !! path; a_nodes A !! i.

(** The number of links of an inode. *)
Definition a_nlink (A : afs) (i : Z) : Z := Z.of_nat (size (filter (fun p => p.2 = i) (a_links A))).

Definition a_is_root (A : afs) (path : string) : bool := bool_decide (path = "/") || bool_decide (path ∈ a_roots A).

Definition root_anode : anode := mk_anode [] BUNIX_VFS_TYPE_DIRECTORY 1 511 0 0 0 0 0.

Definition a_parent (A : afs) (path : string) : option anode :=
  parent ← path_parent_path path;
  if a_is_root A parent then Some root_anode else a_node A parent.

Definition is_dir (n : anode) : bool := a_type n =? BUNIX_VFS_TYPE_DIRECTORY.

Definition a_access (e : env) (task : Z) (n : option anode) (mask : Z) : bool :=
  match n with
  | None => false
  | Some n => (task =? 0) || (mask =? 0) || e_access e task (a_uid n) (a_gid n) (Z.lor (Z.shiftl (a_mode n) 32) mask)
  end.

Definition a_may_chmod (e : env) (task : Z) (n : anode) : bool :=
  (task =? 0) || match e_euid e task with None => false | Some euid => (euid =? 0) || (euid =? a_uid n) end.

(** The directory a path is in. *)
Definition child_of (path dir : string) : bool :=
  path_has_prefix_child path dir && negb (has_slash (str_drop (String.length dir + 1) path)).

(** Walks give up when there are 8192 entries. *)
Definition a_small (A : afs) : bool := bool_decide (Z.of_nat (size (a_links A)) < TMPFS_TREE_WALK_LIMIT).

Definition a_children (A : afs) (dir : string) : list string := filter (fun p => child_of p dir = true) (a_order A).

(** ** Changing *)

Definition a_put (i : Z) (n : anode) (A : afs) : afs := with_nodes (<[i := n]> (a_nodes A)) A.

(** A new entry for an inode. *)
Definition a_link (path : string) (i : Z) (A : afs) : afs := with_links (<[path := i]> (a_links A)) (path :: a_order A) A.

Definition a_unlink (path : string) (A : afs) : afs :=
  let A' := with_links (delete path (a_links A)) (filter (.≠ path) (a_order A)) A in
  match a_links A !! path with
  | Some i => if bool_decide (a_nlink A' i = 0) then with_nodes (delete i (a_nodes A')) A' else A'
  | None => A'
  end.

(** [(ino, next)] *)
Definition a_take_ino (A : afs) : Z * Z := if a_next_ino A =? 0 then (1, 2) else (a_next_ino A, a_next_ino A +w 1).

Definition new_node (e : env) (type mode task ino : Z) : anode :=
  let '(uid, gid) := credential e task in
  mk_anode [] (u32 type) ino (Z.land mode 511) (u32 uid) (u32 gid) 0 0 0.

Definition creatable (type : Z) : bool :=
  (type =? BUNIX_VFS_TYPE_REGULAR) || (type =? BUNIX_VFS_TYPE_DIRECTORY) || (type =? BUNIX_VFS_TYPE_SYMLINK) || (type =? BUNIX_VFS_TYPE_FIFO).

Definition a_create_at (e : env) (path : string) (mode type task i : Z) (A : afs) : afs :=
  let '(ino, next) := a_take_ino A in
  with_next_ino next (a_link path i (a_put i (new_node e type mode task ino) A)).

(** [mem]: the allocations succeed.  The status and the state. *)
Inductive a_create (e : env) (path : string) (mode type task : Z) (mem : bool) (A : afs) : Z -> afs -> Prop :=
  | create_no_parent : (forall n, a_parent A path = Some n -> is_dir n = false) ->
      a_create e path mode type task mem A BUNIX_VFS_ERR_NOENT A
  | create_exists n : a_parent A path = Some n -> is_dir n = true -> is_Some (a_links A !! path) ->
      a_create e path mode type task mem A BUNIX_VFS_ERR_EXIST A
  | create_bad_type n : a_parent A path = Some n -> is_dir n = true -> a_links A !! path = None -> creatable type = false ->
      a_create e path mode type task mem A BUNIX_VFS_ERR_INVAL A
  | create_no_memory n : a_parent A path = Some n -> is_dir n = true -> a_links A !! path = None -> creatable type = true -> mem = false ->
      a_create e path mode type task mem A BUNIX_VFS_ERR_INVAL A
  | create_done n i : a_parent A path = Some n -> is_dir n = true -> a_links A !! path = None -> creatable type = true -> mem = true ->
      a_nodes A !! i = None ->
      a_create e path mode type task mem A 0 (a_create_at e path mode type task i A).

(** Contents: reading a part, writing a part with zeros in between, resizing. *)
Definition a_resize (size : Z) (d : list Z) : list Z :=
  take (Z.to_nat size) d ++ replicate (Z.to_nat size - length d) 0.

(** [src] at [off], over contents with [gap] in between. *)
Definition a_write (off : Z) (src gap d : list Z) : list Z :=
  take (Z.to_nat off) (d ++ gap) ++ src ++ drop (Z.to_nat off + length src) d.

(** Where an entry is after [old] is renamed to [new]; a directory takes the
    entries below it along. *)
Definition inside (dir : bool) (old path : string) : bool := bool_decide (path = old) || (dir && path_has_prefix_child path old).
Definition moved_path (old new path : string) : string := (new ++ str_drop (String.length old) path)%string.
Definition renamed (dir : bool) (old new path : string) : string := if inside dir old path then moved_path old new path else path.

Definition rename_handle (dir : bool) (old new : string) (h : ahandle) : ahandle :=
  match h with ADir o p => ADir o p | AFile o p => AFile o (renamed dir old new p) end.

(** The moved entries come first, in reverse order. *)
Definition rename_order (dir : bool) (old new : string) (l : list string) : list string :=
  reverse (moved_path old new <$> filter (fun p => inside dir old p = true) l) ++ filter (fun p => inside dir old p = false) l.

Definition a_rename (dir : bool) (old new : string) (A : afs) : afs :=
  with_handles (rename_handle dir old new <$> a_handles A)
    (with_links (kmap (renamed dir old new) (a_links A)) (rename_order dir old new (a_order A)) A).

(** A move succeeds when all new paths are short and free. *)
Definition a_movable (old new : string) (A : afs) : bool :=
  bool_decide (map_Forall (fun p _ => inside true old p = true ->
    Z.of_nat (String.length (moved_path old new p)) < TMPFS_MAX_PATH /\
    (is_Some (a_links A !! moved_path old new p) -> inside true old (moved_path old new p) = true)) (a_links A)).

(** ** Requests *)

Definition outcome : Type := words * capability * afs.

Section Requests.
Context (e : env) (m : bunix_msg) (mem : bool).

Definition refuse (A : afs) (w : Z) (o : outcome) : Prop := o = (status w, m_cap m, A).

Definition sp_path (A : afs) (k : string -> outcome -> Prop) (o : outcome) : Prop :=
  match read_resolved_path m with Some (Some path) => k path o | _ => refuse A BUNIX_VFS_ERR_NOENT o end.

(** A new handle, or failure. *)
Definition sp_handle (A : afs) (h : ahandle) (size type : Z) (o : outcome) : Prop :=
  if mem then exists id, id <> 0 /\ in_u64 id /\ a_handles A !! id = None /\ o = (mk_words 0 id size type, m_cap m, with_handles (<[id := h]> (a_handles A)) A)
  else o = (mk_words ERR 0 size type, m_cap m, A).

Definition sp_open (A : afs) : outcome -> Prop := sp_path A (fun path o =>
  if a_is_root A path then sp_handle A (ADir (m_sender m) path) 0 BUNIX_VFS_TYPE_DIRECTORY o else
  match a_node A path with
  | None => refuse A BUNIX_VFS_ERR_NOENT o
  | Some n => sp_handle A (if is_dir n then ADir (m_sender m) path else AFile (m_sender m) path) (Z.of_nat (length (a_data n))) (a_type n) o
  end).

Definition sp_created (A : afs) (path : string) (mode type : Z) (o : outcome) : Prop :=
  exists w A', a_create e path mode type (subject m) mem A w A' /\ o = (status w, m_cap m, A').

Definition sp_create (A : afs) : outcome -> Prop := sp_path A (fun path o =>
  if negb (a_access e (subject m) (a_parent A path) 3) then refuse A BUNIX_VFS_ERR_ACCESS o else
  match a_node A path with
  | None => sp_created A path (high32 (m_word3 m)) BUNIX_VFS_TYPE_REGULAR o
  | Some n => refuse A (if is_dir n then BUNIX_VFS_ERR_ISDIR else 0) o
  end).

Definition sp_mkdir (A : afs) : outcome -> Prop := sp_path A (fun path o =>
  if a_is_root A path || bool_decide (is_Some (a_links A !! path)) then refuse A BUNIX_VFS_ERR_EXIST o else
  if negb (a_access e (subject m) (a_parent A path) 3) then refuse A BUNIX_VFS_ERR_ACCESS o else
  sp_created A path (high32 (m_word3 m)) BUNIX_VFS_TYPE_DIRECTORY o).

Definition sp_mknod (A : afs) : outcome -> Prop := sp_path A (fun path o =>
  if negb (a_access e (subject m) (a_parent A path) 3) then refuse A BUNIX_VFS_ERR_ACCESS o else
  if bool_decide (is_Some (a_links A !! path)) then refuse A BUNIX_VFS_ERR_EXIST o else
  sp_created A path (Z.land (high32 (m_word3 m)) 511) (Z.shiftr (m_word3 m) 48) o).

(** A symbolic link holds the bytes of its target without the terminator. *)
Definition set_data (d : list Z) (n : anode) : anode :=
  mk_anode d (a_type n) (a_ino n) (a_mode n) (a_uid n) (a_gid n) (a_atime n) (a_mtime n) (a_ctime n).

Definition sp_symlink (A : afs) (o : outcome) : Prop :=
  match read_symlink_buffer m with
  | Some (Some (target, path)) =>
      if negb (a_access e (subject m) (a_parent A path) 3) then refuse A BUNIX_VFS_ERR_ACCESS o else
      (exists w A', a_create e path 511 BUNIX_VFS_TYPE_SYMLINK (subject m) mem A w A' /\
        if w =? 0 then exists i n, a_links A' !! path = Some i /\ a_nodes A' !! i = Some n /\
          o = (status 0, m_cap m, a_put i (set_data (take (length target - 1) target) n) A')
        else o = (status w, m_cap m, A')) \/
      (mem = false /\ o = (status BUNIX_VFS_ERR_INVAL, m_cap m, with_next_ino (a_take_ino A).2 A))
  | _ => refuse A BUNIX_VFS_ERR_NOENT o
  end.

(** The words and bytes of the attributes of a node. *)
Definition stat_words (n : anode) : words :=
  mk_words 0 (Z.of_nat (length (a_data n))) (Z.lor (a_mode n) (Z.shiftl (a_type n) 32)) (Z.lor (a_uid n) (Z.shiftl (a_gid n) 32)).

Definition stat_bytes (n : anode) (nlink : Z) : list Z :=
  let size := Z.of_nat (length (a_data n)) in
  stat_pack size (w2 (stat_words n)) (w3 (stat_words n)) BUNIX_VFS_DEV_TMPFS (a_ino n) nlink 0 4096 ((size +w 511) / 512)
    (a_atime n) (a_mtime n) (a_ctime n).

Definition sp_stat (by_path : bool) (A : afs) (n : anode) (nlink : Z) (bytes : list Z) (o : outcome) : Prop :=
  exists c, write_stat by_path m bytes = Some c /\ o = (stat_words n, c, A).

Definition root_stat_bytes : list Z :=
  stat_pack 0 (w2 (stat_words root_anode)) 0 BUNIX_VFS_DEV_TMPFS 1 1 0 4096 0 0 0 0.

(** A link that was made without a target has no contents to read. *)
Definition sp_readlink (A : afs) (n : anode) (o : outcome) : Prop :=
  let len := Z.of_nat (length (a_data n)) in
  let out_cap := high32 (m_word3 m) in
  if negb (a_type n =? BUNIX_VFS_TYPE_SYMLINK) then refuse A BUNIX_VFS_ERR_INVAL o else
  a_data n = [] /\ refuse A BUNIX_VFS_ERR_INVAL o \/
  if (out_cap =? 0) || cap_null m || negb (has_right BUNIX_RIGHT_SEND m) then o = (mk_words ERR len 0 0, m_cap m, A) else
  let written := Z.min out_cap len in
  if written =? 0 then o = (mk_words 0 len len 0, m_cap m, A) else
  exists rc c, bunix_buffer_write m (m_word0 m +w m_word1 m) (slice 0 written (a_data n)) = Some (rc, c) /\
    o = (if rc =? 0 then mk_words 0 len len written else mk_words ERR len 0 0, c, A).

Definition set_atimes (a mt c : Z) (n : anode) : anode :=
  mk_anode (a_data n) (a_type n) (a_ino n) (a_mode n) (a_uid n) (a_gid n) a mt c.
Definition set_aattrs (mode uid gid : Z) (n : anode) : anode :=
  mk_anode (a_data n) (a_type n) (a_ino n) mode uid gid (a_atime n) (a_mtime n) (a_ctime n).

Definition sp_utimens (A : afs) (i : Z) (n : anode) (o : outcome) : Prop :=
  let flags := high32 (m_word3 m) in
  let now := e_clock e / 1000000000 in
  if negb (a_access e (subject m) (Some n) 2) then refuse A BUNIX_VFS_ERR_ACCESS o else
  match read_utimens_payload m with
  | Some (Some (at_, mt)) =>
      refuse (a_put i (set_atimes (if Z.land flags 1 =? 0 then if Z.land flags 4 =? 0 then at_ else now else a_atime n)
                         (if Z.land flags 2 =? 0 then if Z.land flags 8 =? 0 then mt else now else a_mtime n) now n) A) 0 o
  | _ => refuse A BUNIX_VFS_ERR_ACCESS o
  end.

Definition sp_query (q : path_query) (A : afs) : outcome -> Prop := sp_path A (fun path o =>
  if a_is_root A path then sp_stat (match q with QStat => true | _ => false end) A root_anode 1 root_stat_bytes o else
  match a_links A !! path with
  | None => refuse A BUNIX_VFS_ERR_NOENT o
  | Some i =>
      exists n, a_nodes A !! i = Some n /\
      match q with
      | QStat => sp_stat true A n (a_nlink A i) (stat_bytes n (a_nlink A i)) o
      | QAccess => refuse A (if a_access e (subject m) (Some n) (high32 (m_word3 m)) then 0 else BUNIX_VFS_ERR_ACCESS) o
      | QReadlink => sp_readlink A n o
      | QUtimens => sp_utimens A i n o
      end
  end).

(** The handle in the first word, if the sender owns it. *)
Definition a_owner (h : ahandle) : Z := match h with ADir o _ | AFile o _ => o end.
Definition own_handle (A : afs) : option ahandle :=
  h ← a_handles A !! m_word0 m; if a_owner h =? m_sender m then Some h else None.

(** The inode of an open file. *)
Definition own_file (A : afs) : option (Z * anode) :=
  h ← own_handle A;
  match h with AFile _ path => i ← a_links A !! path; n ← a_nodes A !! i; Some (i, n) | ADir _ _ => None end.

Definition sp_stat_meta (A : afs) (o : outcome) : Prop :=
  match own_handle A with
  | None => refuse A ERR o
  | Some (ADir _ _) => sp_stat false A root_anode 1 root_stat_bytes o
  | Some (AFile _ path) =>
      exists i n, a_links A !! path = Some i /\ a_nodes A !! i = Some n /\
        sp_stat false A n (a_nlink A i) (stat_bytes n (a_nlink A i)) o
  end.

Definition sp_read (A : afs) (beyond : words) (data : Z -> words) (o : outcome) : Prop :=
  match own_file A with
  | None => refuse A ERR o
  | Some (i, n) =>
      if cap_null m || negb (has_right BUNIX_RIGHT_SEND m) then refuse A ERR o else
      let left := Z.of_nat (length (a_data n)) - m_word1 m in
      if left <=? 0 then o = (beyond, m_cap m, A) else
      exists rc c, bunix_buffer_write m 0 (slice (m_word1 m) (Z.min left (m_word2 m)) (a_data n)) = Some (rc, c) /\
        o = (if rc =? 0 then data (Z.min left (m_word2 m)) else status ERR, c, A)
  end.

(** On success the bytes of the buffer are in the file at the offset.  When
    the buffer is too short the file keeps its size, and some bytes of the buffer
    may have been written over it. *)
Definition sp_write (A : afs) (o : outcome) : Prop :=
  match own_file A with
  | None => refuse A ERR o
  | Some (i, n) =>
      if negb (a_access e (m_word3 m) (Some n) 2) || cap_null m || negb (has_right BUNIX_RIGHT_RECV m) then refuse A ERR o else
      mem = false /\ refuse A ERR o \/
      exists rc bytes, bunix_buffer_read m 0 (m_word2 m) = Some (rc, bytes) /\
        exists gap, length gap = Z.to_nat (m_word1 m - Z.of_nat (length (a_data n))) /\
        let all := a_write (m_word1 m) bytes gap (a_data n) in
        if rc =? 0 then
          o = (mk_words 0 (m_word2 m) 0 0, m_cap m,
               a_put i (set_data all n) A)
        else o = (status ERR, m_cap m, a_put i (set_data (take (length (a_data n)) all) n) A)
  end.

Definition sp_resize (A : afs) (i : Z) (n : anode) (size : Z) (o : outcome) : Prop :=
  mem = false /\ refuse A ERR o \/ refuse (a_put i (set_data (a_resize size (a_data n)) n) A) 0 o.

Definition sp_truncate (A : afs) (o : outcome) : Prop :=
  if negb (cap_null m) then
    sp_path A (fun path o =>
      match a_links A !! path with
      | None => refuse A BUNIX_VFS_ERR_NOENT o
      | Some i => exists n, a_nodes A !! i = Some n /\
          if negb (a_type n =? BUNIX_VFS_TYPE_REGULAR) then refuse A BUNIX_VFS_ERR_NOENT o else
          if negb (a_access e (subject m) (Some n) 2) then refuse A BUNIX_VFS_ERR_ACCESS o else
          sp_resize A i n (high32 (m_word3 m)) o
      end) o
  else
    match own_file A with
    | None => refuse A ERR o
    | Some (i, n) =>
        if negb (a_access e (m_word3 m) (Some n) 2) then refuse A BUNIX_VFS_ERR_ACCESS o else sp_resize A i n (m_word1 m) o
    end.

Definition sp_chmod_buffer (A : afs) : outcome -> Prop := sp_path A (fun path o =>
  match a_links A !! path with
  | None => refuse A BUNIX_VFS_ERR_ACCESS o
  | Some i => exists n, a_nodes A !! i = Some n /\
      if negb (a_may_chmod e (subject m) n) then refuse A BUNIX_VFS_ERR_ACCESS o else
      refuse (a_put i (set_aattrs (Z.land (high32 (m_word3 m)) 511) (a_uid n) (a_gid n) n) A) 0 o
  end).

(** The path of a handle. *)
Definition handle_path (h : ahandle) : string := match h with ADir _ p | AFile _ p => p end.

Definition sp_chmod (A : afs) (o : outcome) : Prop :=
  match own_handle A with
  | None => refuse A ERR o
  | Some h =>
      match a_links A !! handle_path h with
      | None => refuse A BUNIX_VFS_ERR_ACCESS o
      | Some i => exists n, a_nodes A !! i = Some n /\
          if negb (a_may_chmod e (subject m) n) then refuse A BUNIX_VFS_ERR_ACCESS o else
          refuse (a_put i (set_aattrs (Z.land (m_word1 m) 511) (a_uid n) (a_gid n) n) A) 0 o
      end
  end.

Definition sp_chown_buffer (A : afs) : outcome -> Prop := sp_path A (fun path o =>
  match a_links A !! path with
  | None => refuse A BUNIX_VFS_ERR_NOENT o
  | Some i => exists n, a_nodes A !! i = Some n /\
      if negb (task_can_chown e (subject m)) then refuse A BUNIX_VFS_ERR_ACCESS o else
      refuse (a_put i (set_aattrs (a_mode n) (if m_word2 m =? ERR then a_uid n else u32 (m_word2 m))
        (if high32 (m_word3 m) =? 4294967295 then a_gid n else u32 (high32 (m_word3 m))) n) A) 0 o
  end).

Definition sp_chown (A : afs) (o : outcome) : Prop :=
  match own_handle A with
  | None => refuse A ERR o
  | Some h =>
      match a_links A !! handle_path h with
      | None => refuse A BUNIX_VFS_ERR_ACCESS o
      | Some i => exists n, a_nodes A !! i = Some n /\
          if negb (task_can_chown e (m_word3 m)) then refuse A BUNIX_VFS_ERR_ACCESS o else
          refuse (a_put i (set_aattrs (a_mode n) (if m_word1 m =? ERR then a_uid n else u32 (m_word1 m))
            (if m_word2 m =? ERR then a_gid n else u32 (m_word2 m)) n) A) 0 o
      end
  end.

Definition sp_victim (A : afs) (k : string -> anode -> outcome -> Prop) : outcome -> Prop := sp_path A (fun path o =>
  match a_parent A path with
  | None => refuse A BUNIX_VFS_ERR_NOENT o
  | Some p =>
      if negb (a_access e (subject m) (Some p) 3) then refuse A BUNIX_VFS_ERR_ACCESS o else
      match a_node A path with None => refuse A BUNIX_VFS_ERR_NOENT o | Some n => k path n o end
  end).

Definition sp_unlink (A : afs) : outcome -> Prop := sp_victim A (fun path n o =>
  if is_dir n then refuse A BUNIX_VFS_ERR_ISDIR o else refuse (a_unlink path A) 0 o).

Definition sp_rmdir (A : afs) : outcome -> Prop := sp_victim A (fun path n o =>
  if negb (is_dir n) then refuse A BUNIX_VFS_ERR_NOTDIR o else
  if negb (a_small A) || negb (bool_decide (a_children A path = [])) then refuse A ERR o else refuse (a_unlink path A) 0 o).

Definition sp_two_paths (A : afs) (k : string -> string -> Z -> anode -> outcome -> Prop) (o : outcome) : Prop :=
  match read_rename_buffer m with
  | Some (Some (path, new)) =>
      if a_is_root A path || a_is_root A new then refuse A BUNIX_VFS_ERR_NOENT o else
      match a_links A !! path with
      | None => refuse A BUNIX_VFS_ERR_NOENT o
      | Some i => exists n, a_nodes A !! i = Some n /\ k path new i n o
      end
  | _ => refuse A BUNIX_VFS_ERR_NOENT o
  end.

(** The move at the end of a rename.  Directories take everything below along. *)
Definition sp_move (A : afs) (path new : string) (dir : bool) (o : outcome) : Prop :=
  if dir && negb (match a_parent A new with Some n => is_dir n | None => false end && a_small A && a_movable path new A)
  then refuse A BUNIX_VFS_ERR_NOENT o
  else if mem then refuse (a_rename dir path new A) 0 o else refuse A BUNIX_VFS_ERR_NOENT o.

Definition sp_rename (A : afs) : outcome -> Prop := sp_two_paths A (fun path new i n o =>
  if bool_decide (path = new) then refuse A 0 o else
  if negb (a_access e (subject m) (a_parent A path) 3) || negb (a_access e (subject m) (a_parent A new) 3)
  then refuse A BUNIX_VFS_ERR_ACCESS o else
  if is_dir n && path_has_prefix_child new path then refuse A BUNIX_VFS_ERR_INVAL o else
  match a_node A new with
  | None => sp_move A path new (is_dir n) o
  | Some t =>
      if negb (Z.land (high32 (m_word3 m)) 1 =? 0) then refuse A BUNIX_VFS_ERR_EXIST o else
      if is_dir t && negb (is_dir n) then refuse A BUNIX_VFS_ERR_ISDIR o else
      if negb (is_dir t) && is_dir n then refuse A BUNIX_VFS_ERR_NOTDIR o else
      if is_dir t && (negb (a_small A) || negb (bool_decide (a_children A new = []))) then refuse A BUNIX_VFS_ERR_NOTEMPTY o else
      sp_move (a_unlink new A) path new (is_dir n) o
  end).

Definition sp_link (A : afs) : outcome -> Prop := sp_two_paths A (fun path new i n o =>
  if bool_decide (is_Some (a_links A !! new)) then refuse A BUNIX_VFS_ERR_EXIST o else
  if is_dir n then refuse A BUNIX_VFS_ERR_ACCESS o else
  if negb (a_access e (subject m) (a_parent A path) 1) || negb (a_access e (subject m) (a_parent A new) 3)
  then refuse A BUNIX_VFS_ERR_ACCESS o else
  if negb (match a_parent A new with Some p => is_dir p | None => false end) then refuse A ERR o else
  if mem then refuse (a_link new i A) 0 o else refuse A ERR o).

(** One entry of a listing. *)
Definition sp_dirent (A : afs) (dir path : string) (o : outcome) : Prop :=
  exists n, a_node A path = Some n /\
  let name := str_drop (String.length dir + 1) path in
  let len := Z.of_nat (String.length name) in
  let written := Z.min (m_word3 m) len in
  let w1 := Z.lor (m_word1 m +w 1) (Z.shiftl (a_type n) 32) in
  if written =? 0 then o = (mk_words 0 w1 len 0, m_cap m, A) else
  exists rc c, bunix_buffer_write m (m_word2 m) (slice 0 written (string_bytes name)) = Some (rc, c) /\
    o = (if rc =? 0 then mk_words 0 w1 len written else mk_words ERR w1 0 0, c, A).

(** The entry with the number in the second word. *)
Definition sp_readdir (A : afs) (o : outcome) : Prop :=
  match own_handle A with
  | Some (ADir _ dir) =>
      if cap_null m || negb (has_right BUNIX_RIGHT_SEND m) then refuse A ERR o else
      negb (a_small A) = true /\ o.2 = A \/
      match a_children A dir !! Z.to_nat (m_word1 m) with
      | None => refuse A BUNIX_VFS_ERR_NOENT o
      | Some path => sp_dirent A dir path o
      end
  | _ => refuse A BUNIX_VFS_ERR_NOTDIR o
  end.

Definition sp_close (A : afs) (o : outcome) : Prop :=
  match own_handle A with
  | None => refuse A ERR o
  | Some _ => refuse (with_handles (delete (m_word0 m) (a_handles A)) A) 0 o
  end.

Definition sp_vfs (t : vfs_type) (A : afs) : outcome -> Prop :=
  match t with
  | VFS_OPEN_BUFFER => sp_open A
  | VFS_CREATE_BUFFER => sp_create A
  | VFS_MKDIR_BUFFER => sp_mkdir A
  | VFS_MKNOD_BUFFER => sp_mknod A
  | VFS_SYMLINK_BUFFER => sp_symlink A
  | VFS_STAT_PATH_META_BUFFER => sp_query QStat A
  | VFS_ACCESS_BUFFER => sp_query QAccess A
  | VFS_READLINK_BUFFER => sp_query QReadlink A
  | VFS_UTIMENS_BUFFER => sp_query QUtimens A
  | VFS_STAT_META => sp_stat_meta A
  | VFS_READ_FILE_BUFFER => sp_read A (mk_words 0 0 0 0) (fun n => mk_words 0 n 0 0)
  | VFS_MMAP_PAGE_BUFFER => sp_read A (mk_words 0 BUNIX_VFS_MMAP_PAGE_BUS 0 0) (fun n => mk_words 0 BUNIX_VFS_MMAP_PAGE_DATA n 0)
  | VFS_WRITE_FILE_BUFFER => sp_write A
  | VFS_TRUNCATE => sp_truncate A
  | VFS_CHMOD_BUFFER => sp_chmod_buffer A
  | VFS_CHMOD => sp_chmod A
  | VFS_CHOWN_BUFFER => sp_chown_buffer A
  | VFS_CHOWN => sp_chown A
  | VFS_UNLINK_BUFFER => sp_unlink A
  | VFS_RMDIR_BUFFER => sp_rmdir A
  | VFS_RENAME_BUFFER => sp_rename A
  | VFS_LINK_BUFFER => sp_link A
  | VFS_READDIR_BUFFER => sp_readdir A
  | VFS_CLOSE => sp_close A
  | VFS_UNKNOWN => refuse A ERR
  end.

(** Missing parents are made on the way; what was made stays. *)
Inductive a_mkdir_p (mode task : Z) : string -> afs -> Z -> afs -> Prop :=
  | mkdir_p_relative path A : starts_with_slash path = false -> a_mkdir_p mode task path A (-1) A
  | mkdir_p_root path A : starts_with_slash path = true -> a_is_root A path = true -> a_mkdir_p mode task path A 0 A
  | mkdir_p_exists path A n : starts_with_slash path = true -> a_is_root A path = false -> a_node A path = Some n ->
      a_mkdir_p mode task path A (if is_dir n then 0 else -1) A
  | mkdir_p_fails path parent A A' : starts_with_slash path = true -> a_is_root A path = false -> a_links A !! path = None ->
      path_parent_path path = Some parent -> a_mkdir_p mode task parent A (-1) A' -> a_mkdir_p mode task path A (-1) A'
  | mkdir_p_makes path parent A A' w A'' mem' : starts_with_slash path = true -> a_is_root A path = false -> a_links A !! path = None ->
      path_parent_path path = Some parent -> a_mkdir_p mode task parent A 0 A' ->
      a_create e path mode BUNIX_VFS_TYPE_DIRECTORY task mem' A' w A'' -> (mem = true -> mem' = true) ->
      a_mkdir_p mode task path A (if (w =? 0) || (w =? BUNIX_VFS_ERR_EXIST) then 0 else -1) A''.

Definition sp_set_meta (A : afs) (path : string) (o : outcome) : Prop :=
  if negb (m_word1 m =? BUNIX_FS_META_BYTES) || cap_null m || negb (has_right BUNIX_RIGHT_RECV m) then refuse A ERR o else
  match bunix_buffer_read m (m_word0 m) BUNIX_FS_META_BYTES with
  | Some (0, payload) =>
      match a_links A !! path with
      | None => refuse A BUNIX_VFS_ERR_NOENT o
      | Some i => exists n, a_nodes A !! i = Some n /\
          let mode_type := bunix_load_u64_le payload 0 in
          let owner := bunix_load_u64_le payload 8 in
          if negb (high32 mode_type =? a_type n) then refuse A BUNIX_VFS_ERR_INVAL o else
          refuse (a_put i (set_atimes (bunix_load_u64_le payload 16) (bunix_load_u64_le payload 24) (bunix_load_u64_le payload 32)
            (set_aattrs (Z.land mode_type 511) (low32 owner) (u32 (high32 owner)) n)) A) 0 o
      end
  | _ => refuse A ERR o
  end.

Definition sp_mount (A : afs) (path : string) (o : outcome) : Prop :=
  if negb (starts_with_slash path) then refuse A (int_word (-1)) o else
  if bool_decide (path ∈ a_roots A) then refuse A (int_word (if e_mount e path then 0 else -1)) o else
  if mem && e_mount e path then refuse (with_roots ({[path]} ∪ a_roots A) A) 0 o else refuse A (int_word (-1)) o.

Definition sp_grant (A : afs) (o : outcome) : Prop :=
  let sender := m_sender m in
  if (sender =? 0) || negb (a_grantor A =? 0) && negb (sender =? a_grantor A) then refuse A BUNIX_VFS_ERR_ACCESS o else
  let task := if m_word0 m =? 0 then sender else m_word0 m in
  if bool_decide (task ∈ a_callers A) then refuse (with_callers (a_callers A) sender A) 0 o else
  if mem then refuse (with_callers ({[task]} ∪ a_callers A) sender A) 0 o
  else refuse (with_callers (a_callers A) sender A) ERR o.

Definition fs_serve (r : request) (A : afs) (o : outcome) : Prop :=
  let with_path k := match bunix_read_path_cap m with Some (Some path) => k path | _ => refuse A ERR o end in
  match r with
  | TMPFS_MOUNT_ROOT => with_path (fun path => sp_mount A path o)
  | FS_MKDIR_P_BUFFER =>
      with_path (fun path => exists rc A', a_mkdir_p (m_word1 m) (m_word2 m) path A rc A' /\ refuse A' (int_word rc) o)
  | FS_SET_META_BUFFER => with_path (fun path => sp_set_meta A path o)
  | FS_UNKNOWN => refuse A ERR o
  | VFS_GRANT_SUBJECT_TASK => sp_grant A o
  | VFS t => if bool_decide (m_sender m ∈ a_callers A) then sp_vfs t A o else refuse A BUNIX_VFS_ERR_ACCESS o
  end.
End Requests.
