(* ===== verification/TmpfsInv.v ===== *)
(** * The invariant of the memory file system

    How the trees, the list of entries, the reference counts and the open files
    of [Tmpfs] fit together, and that its operations keep it so. *)
From stdpp Require Import gmap list strings.
From Stdlib Require Import ZArith Lia ZifyBool Ascii.
From S2P Require Import Prelude Tree Buffer Dll Tmpfs.

Open Scope Z_scope.
Open Scope machine_scope.

(** ** Trees whose values are their nodes *)

Definition tmap (P : gmap string Z) : gmap cstr (Z * Z) := kmap Some ((fun a => (a, a)) <$> P).
Definition umap (O : gmap Z Z) : gmap Z (Z * Z) := (fun a => (a, a)) <$> O.

Lemma tmap_lookup P p : tmap P !! Some p = (fun a => (a, a)) <$> P !! p.
Proof. unfold tmap. by rewrite (lookup_kmap Some), lookup_fmap. Qed.

Lemma tmap_lookup_Some P k x : tmap P !! k = Some x <-> exists p a, k = Some p /\ x = (a, a) /\ P !! p = Some a.
Proof.
  unfold tmap. rewrite (lookup_kmap_Some Some). split.
  - intros (p & -> & (a & <- & Ha)%lookup_fmap_Some). eauto.
  - intros (p & a & -> & -> & Ha). exists p. split; [done|]. apply lookup_fmap_Some. eauto.
Qed.

Lemma tmap_insert P p a : <[Some p := (a, a)]> (tmap P) = tmap (<[p := a]> P).
Proof. unfold tmap. by rewrite fmap_insert, (kmap_insert Some). Qed.

Lemma tmap_remove P p a : P !! p = Some a -> (forall q, P !! q = Some a -> q = p) ->
  filter (fun e => fst (snd e) <> a) (tmap P) = tmap (delete p P).
Proof.
  intros Hp Hinj. apply map_eq. intros k. apply option_eq. intros x. rewrite map_lookup_filter_Some, !tmap_lookup_Some. simpl. split.
  - intros [(q & b & -> & -> & Hq) Hne]. simpl in Hne. exists q, b. do 2 (split; [done|]). rewrite lookup_delete_ne; [done|]. congruence.
  - intros (q & b & -> & -> & [Hne Hq]%lookup_delete_Some). split; [eauto|]. simpl. intros ->. apply Hne. symmetry. by apply Hinj.
Qed.

Lemma umap_insert O id a : <[id := (a, a)]> (umap O) = umap (<[id := a]> O).
Proof. unfold umap. by rewrite fmap_insert. Qed.

Lemma umap_lookup O id : umap O !! id = (fun a => (a, a)) <$> O !! id.
Proof. unfold umap. by rewrite lookup_fmap. Qed.

Lemma umap_remove O id a : O !! id = Some a -> (forall q, O !! q = Some a -> q = id) ->
  filter (fun e => fst (snd e) <> a) (umap O) = umap (delete id O).
Proof.
  intros Hp Hinj. apply map_eq. intros k. apply option_eq. intros x.
  rewrite map_lookup_filter_Some, !umap_lookup, !fmap_Some. simpl. split.
  - intros [(b & Hb & ->) Hne]. exists b. split; [|done]. rewrite lookup_delete_ne; [done|]. intros ->. simpl in Hne. congruence.
  - intros (b & [Hne Hb]%lookup_delete_Some & ->). split; [eauto|]. simpl. intros ->. apply Hne. symmetry. by apply Hinj.
Qed.

Section TreeOps.
Context (D : gset Z).

Lemma path_insert_ok (t : tree cstr) P a p : models D t (tmap P) -> a ∈ D -> a <> 0 -> (forall q, P !! q <> Some a) -> P !! p = None ->
  exists t', bunix_tree_insert_node a (Some p) a t = Some (0, t') /\ models D t' (tmap (<[p := a]> P)).
Proof.
  intros Hm Ha Ha0 Hfree Hp. destruct (insert_models D t (tmap P) a (Some p) a Hm) as (t' & Hins & Hmod).
  { intros _. split; [done|]. intros k v (q & b & -> & [= -> ->] & Hb)%tmap_lookup_Some. by apply (Hfree q). }
  match type of Hins with context [refused ?m ?x ?y ?z] => assert (refused m x y z = false) as Href end.
  { unfold refused. decide_tests. simpl. apply bool_decide_eq_false_2. rewrite tmap_lookup, Hp. by intros [? ?]. }
  unfold abs_step in Hmod. rewrite Href in Hins, Hmod. exists t'. split; [done|]. by rewrite tmap_insert in Hmod.
Qed.

Lemma path_remove_ok (t : tree cstr) P a p : models D t (tmap P) -> P !! p = Some a -> a <> 0 -> (forall q, P !! q = Some a -> q = p) ->
  exists t', bunix_tree_remove_node a t = Some t' /\ models D t' (tmap (delete p P)).
Proof.
  intros Hm Ha Ha0 Hinj. destruct (remove_models D t (tmap P) a Hm) as (t' & Hrem & Hmod).
  { intros _. exists (Some p), a. by rewrite tmap_lookup, Ha. }
  exists t'. split; [done|]. simpl in Hmod. by rewrite (tmap_remove P p a) in Hmod.
Qed.

Lemma path_key (t : tree cstr) P a p : models D t (tmap P) -> P !! p = Some a -> exists n, heap t !! a = Some n /\ key n = Some p.
Proof. intros Hm Hp. apply (models_key D t (tmap P) (Some p) a a Hm). by rewrite tmap_lookup, Hp. Qed.

Lemma id_insert_ok (t : tree Z) P a p : models D t (umap P) -> a ∈ D -> a <> 0 -> p <> 0 -> (forall q, P !! q <> Some a) -> P !! p = None ->
  exists t', bunix_u64_tree_insert_node a p a t = Some (0, t') /\ models D t' (umap (<[p := a]> P)).
Proof.
  intros Hm Ha Ha0 Hp0 Hfree Hp. destruct (insert_models D t (umap P) a p a Hm) as (t' & Hins & Hmod).
  { intros _. split; [done|]. intros k v. rewrite umap_lookup, fmap_Some. intros (b & Hb & [= -> ->]). by apply (Hfree k). }
  match type of Hins with context [refused ?m ?x ?y ?z] => assert (refused m x y z = false) as Href end.
  { unfold refused. simpl. decide_tests. simpl. apply bool_decide_eq_false_2. rewrite umap_lookup, Hp. by intros [? ?]. }
  unfold abs_step in Hmod. rewrite Href in Hins, Hmod. exists t'. split; [done|]. by rewrite umap_insert in Hmod.
Qed.

Lemma id_remove_ok (t : tree Z) P a p : models D t (umap P) -> P !! p = Some a -> a <> 0 -> (forall q, P !! q = Some a -> q = p) ->
  exists t', bunix_u64_tree_remove_node a t = Some t' /\ models D t' (umap (delete p P)).
Proof.
  intros Hm Ha Ha0 Hinj. destruct (remove_models D t (umap P) a Hm) as (t' & Hrem & Hmod).
  { intros _. exists p, a. by rewrite umap_lookup, Ha. }
  exists t'. split; [done|]. simpl in Hmod. by rewrite (umap_remove P p a) in Hmod.
Qed.
End TreeOps.

(** ** Strings *)

Lemma str_len_small p : (String.length p < 4096)%nat -> str_len p = Z.of_nat (String.length p).
Proof. intros. unfold str_len, TMPFS_MAX_PATH. lia. Qed.

Lemma str_eq_loop_ok n : forall l r, (String.length l < n)%nat -> str_eq_loop n l r = bool_decide (l = r).
Proof.
  induction n as [|n IH]; intros l r Hl; [lia|]. destruct l as [|a l], r as [|b r]; simpl in Hl; try done. cbn [str_eq_loop].
  { rewrite IH by lia. destruct (decide (a = b)) as [->|Hne].
    + rewrite bool_decide_eq_true_2 by done. simpl. apply bool_decide_ext. split; [by intros ->|by intros [= ->]].
    + rewrite bool_decide_eq_false_2 by done. symmetry. apply bool_decide_eq_false_2. congruence. }
Qed.

Lemma str_eq_ok l r : (String.length l < 4096)%nat -> str_eq l r = bool_decide (l = r).
Proof. intros. apply str_eq_loop_ok. unfold TMPFS_MAX_PATH. lia. Qed.

Lemma cstring_end bytes : forall n, (n < length bytes)%nat -> nth n bytes 0 = 0 -> (String.length (cstring bytes) <= n)%nat.
Proof.
  induction bytes as [|b bytes IH]; intros n Hn Hz; simpl in *; [lia|]. destruct (Z.eqb_spec b 0) as [Hb|Hb]; simpl; [lia|].
  destruct n as [|n]; [done|]. specialize (IH n ltac:(lia) Hz). lia.
Qed.

(** ** The invariant *)

(** Paths to entries, the list of entries, roots, identifiers to open files,
    tasks to callers. *)
Record ghost := mk_ghost { gp : gmap string Z; gl : list Z; gr : gmap string Z; go : gmap Z Z; gc : gmap Z Z }.

Definition opens_of (a : Z) (O : gmap Z tmpfs_open) : Z := msum (fun o => if is_file o && (o_file o =? a) then 1 else 0) O.
Definition links_to (i : Z) (F : gmap Z tmpfs_file) : Z := msum (fun f => if f_inode f =? i then 1 else 0) F.

Record inode_ok (n : tmpfs_inode) : Prop := {
  io_data : match i_data n with Some d => Z.of_nat (length d) = i_capacity n | None => i_capacity n = 0 end;
  io_size : 0 <= i_size n <= i_capacity n;
  io_cap : i_capacity n < 2 ^ 64;
}.

(** [X]: entries that are neither in the tree nor in the list. *)
Record inv (X : gset Z) (g : ghost) (s : tmpfs) : Prop := {
  iv_tree : models (dom (files s)) (files_by_path s) (tmap (gp g));
  iv_path p a : gp g !! p = Some a <-> exists f, files s !! a = Some f /\ f_path f = p /\ a ∉ X;
  iv_list : dll (files s) (files_head s) (gl g);
  iv_in a : a ∈ gl g <-> is_Some (files s !! a) /\ a ∉ X;
  iv_out a f : a ∈ X -> files s !! a = Some f -> f_prev f = 0 /\ f_next f = 0;
  iv_file a f : files s !! a = Some f -> f_deleted f = false /\ (String.length (f_path f) < 4096)%nat /\ f_refs f = opens_of a (opens s);
  iv_linked a f : files s !! a = Some f -> a ∈ X /\ f_inode f = 0 \/ is_Some (inodes s !! f_inode f);
  iv_inode i n : inodes s !! i = Some n -> inode_ok n /\ i_refs n = links_to i (files s) /\ 0 < i_refs n;
  iv_roots : models (dom (root_paths s)) (roots s) (tmap (gr g));
  iv_root p a : gr g !! p = Some a <-> root_paths s !! a = Some p;
  iv_opens : models (dom (opens s)) (open_files s) (umap (go g));
  iv_open id a : go g !! id = Some a <-> exists o, opens s !! a = Some o /\ o_id o = id;
  iv_id : go g !! 0 = None;
  iv_target a o : opens s !! a = Some o ->
    (String.length (o_path o) < 4096)%nat /\ (o_kind o = TMPFS_OPEN_DIR \/ o_kind o = TMPFS_OPEN_FILE /\ is_Some (files s !! o_file o));
  iv_callers : models (dom (heap (vfs_callers s))) (vfs_callers s) (umap (gc g));
  iv_caller : gc g !! 0 = None;
  iv_null : files s !! 0 = None /\ inodes s !! 0 = None /\ opens s !! 0 = None /\ root_paths s !! 0 = None;
  iv_next : 0 < next_open_id s < 2 ^ 64 /\ in_u64 (next_inode_id s);
}.

Section Lookups.
Context (X : gset Z) (g : ghost) (s : tmpfs) (Hinv : inv X g s).

Lemma entry_live p a : gp g !! p = Some a -> exists f n, files s !! a = Some f /\ f_path f = p /\ a ∉ X /\ a <> 0 /\
  f_deleted f = false /\ inodes s !! f_inode f = Some n /\ f_inode f <> 0.
Proof.
  intros (f & Hf & Hp & HX)%(iv_path _ _ _ Hinv). destruct (iv_linked _ _ _ Hinv a f Hf) as [[? _]|[n Hn]]; [done|].
  destruct (iv_null _ _ _ Hinv) as (N1 & N2 & _). exists f, n. do 3 (split; [done|]). split; [congruence|].
  split; [by apply (iv_file _ _ _ Hinv a f Hf)|]. split; [done|congruence].
Qed.

Lemma entry_of_file a f : files s !! a = Some f -> a ∉ X -> gp g !! f_path f = Some a.
Proof. intros Hf HX. apply (iv_path _ _ _ Hinv). eauto. Qed.

Lemma entry_inj p q a : gp g !! p = Some a -> gp g !! q = Some a -> p = q.
Proof. intros (f & Hf & <- & _)%(iv_path _ _ _ Hinv) (f' & Hf' & <- & _)%(iv_path _ _ _ Hinv). congruence. Qed.

Lemma valid_ok a f : files s !! a = Some f -> a ∉ X -> file_is_valid a s = Some true.
Proof.
  intros Hf HX. destruct (iv_null _ _ _ Hinv) as (N1 & N2 & _). unfold file_is_valid, inode_is_valid.
  destruct (iv_linked _ _ _ Hinv a f Hf) as [[? _]|[n Hn]]; [done|].
  assert (a <> 0) by congruence. assert (f_inode f <> 0) by congruence. decide_tests. rewrite Hf. simpl. decide_tests. by rewrite Hn.
Qed.

Lemma file_find_ok p : file_find p s = Some (default 0 (gp g !! p)).
Proof.
  unfold file_find, bunix_tree_get. rewrite (get_ok _ _ _ _ (iv_tree _ _ _ Hinv)), tmap_lookup. simpl.
  destruct (gp g !! p) as [a|] eqn:Hp; simpl; [|done]. destruct (entry_live p a Hp) as (f & n & Hf & Hfp & HX & Ha & Hd & _).
  rewrite (valid_ok a f Hf HX). simpl. rewrite Hf. simpl. rewrite Hd, Hfp. simpl.
  rewrite str_eq_ok, bool_decide_eq_true_2; [done|done|]. rewrite <- Hfp. by apply (iv_file _ _ _ Hinv a f Hf).
Qed.

Lemma root_find_ok p : root_find p s = Some (default 0 (gr g !! p)).
Proof.
  unfold root_find, bunix_tree_get. rewrite (get_ok _ _ _ _ (iv_roots _ _ _ Hinv)), tmap_lookup. simpl.
  destruct (gr g !! p) as [a|] eqn:Hp; simpl; [|done]. pose proof Hp as Hr%(iv_root _ _ _ Hinv).
  assert (a <> 0) by (destruct (iv_null _ _ _ Hinv) as (_ & _ & _ & N); congruence). decide_tests. by rewrite Hr.
Qed.

Definition g_is_root (p : string) : bool := bool_decide (p = "/") || bool_decide (is_Some (gr g !! p)).

Lemma path_is_root_ok p : (String.length p < 4096)%nat -> path_is_root p s = Some (g_is_root p).
Proof.
  intros Hp. unfold path_is_root, g_is_root. rewrite str_eq_ok by done. destruct (bool_decide (p = "/")); [done|].
  rewrite root_find_ok. simpl. f_equal. destruct (gr g !! p) as [a|] eqn:Ha; simpl; [|done].
  pose proof Ha as Hr%(iv_root _ _ _ Hinv). assert (a <> 0) by (destruct (iv_null _ _ _ Hinv) as (_ & _ & _ & N); congruence).
  by decide_tests.
Qed.

(** The inode at a path. *)
Definition g_node (p : string) : option tmpfs_inode := a ← gp g !! p; inode_of a s.

Lemma inode_of_ok p a : gp g !! p = Some a -> exists f n, files s !! a = Some f /\ f_path f = p /\ inodes s !! f_inode f = Some n /\ inode_of a s = Some n.
Proof.
  intros Hp. destruct (entry_live p a Hp) as (f & n & Hf & Hfp & HX & Ha & Hd & Hn & _). exists f, n. unfold inode_of. rewrite Hf. by simpl.
Qed.

Definition g_parent (p : string) : option tmpfs_inode :=
  q ← path_parent_path p; if g_is_root q then Some root_inode else g_node q.

Lemma str_take_length n : forall p, (String.length (str_take n p) <= String.length p)%nat.
Proof. induction n as [|n IH]; intros [|c p]; simpl; try lia. specialize (IH p). lia. Qed.

Lemma parent_length p q : path_parent_path p = Some q -> (String.length p < 4096)%nat -> (String.length q < 4096)%nat.
Proof.
  unfold path_parent_path. destruct p as [|c p]; [done|]. destruct (bool_decide _); [|done].
  destruct (last_slash 1 0 p) as [|n]; intros [= <-] Hl; [simpl; lia|]. pose proof (str_take_length (S n) (String c p)) as H. simpl in H, Hl |- *. lia.
Qed.

Lemma path_parent_exists_ok p : (String.length p < 4096)%nat ->
  path_parent_exists p s = Some (match g_parent p with Some n => i_type n =? BUNIX_VFS_TYPE_DIRECTORY | None => false end).
Proof.
  intros Hl. unfold path_parent_exists, g_parent, g_node. destruct (path_parent_path p) as [q|] eqn:Hq; simpl; [|done].
  rewrite path_is_root_ok by (by eapply parent_length). simpl. destruct (g_is_root q); [done|]. rewrite file_find_ok. simpl.
  destruct (gp g !! q) as [a|] eqn:Ha; simpl; [|done]. destruct (entry_live q a Ha) as (f & n & Hf & _ & _ & H0 & _ & Hn & _).
  decide_tests. unfold inode_of. rewrite Hf. simpl. by rewrite Hn.
Qed.

Lemma parent_file_ok p : (String.length p < 4096)%nat ->
  exists pf, parent_file_for_path p s = Some pf /\ parent_inode pf s = Some (g_parent p) /\ (pf = PNull <-> g_parent p = None).
Proof.
  intros Hl. unfold parent_file_for_path, g_parent, g_node. destruct (path_parent_path p) as [q|] eqn:Hq; simpl; [|by exists PNull].
  rewrite path_is_root_ok by (by eapply parent_length). simpl. destruct (g_is_root q); [by exists PRoot|]. rewrite file_find_ok. simpl.
  destruct (gp g !! q) as [a|] eqn:Ha; simpl; [|by exists PNull]. destruct (entry_live q a Ha) as (f & n & Hf & _ & _ & H0 & _ & Hn & _).
  decide_tests. exists (PFile a). unfold parent_inode, inode_of. rewrite Hf. simpl. rewrite Hn. done.
Qed.

Lemma can_access_ok e task p mask : (String.length p < 4096)%nat ->
  exists pf, parent_file_for_path p s = Some pf /\ task_can_access e task pf mask s = Some (may_access e task (g_parent p) mask) /\
    (pf = PNull <-> g_parent p = None).
Proof.
  intros Hl. destruct (parent_file_ok p Hl) as (pf & H1 & H2 & H3). exists pf. split; [done|]. split; [|done].
  unfold task_can_access. by rewrite H2.
Qed.

Lemma entry_access e task p a mask : gp g !! p = Some a -> task_can_access e task (PFile a) mask s = Some (may_access e task (g_node p) mask).
Proof.
  intros Ha. unfold task_can_access, g_node. simpl. rewrite Ha. simpl.
  destruct (inode_of_ok p a Ha) as (f & n & _ & _ & _ & ->). done.
Qed.
End Lookups.

(** ** Allocation *)

Lemma tmpfs_ext s s' : inodes s = inodes s' -> files s = files s' -> files_head s = files_head s' -> files_by_path s = files_by_path s' ->
  roots s = roots s' -> root_paths s = root_paths s' -> opens s = opens s' -> open_files s = open_files s' -> vfs_callers s = vfs_callers s' ->
  next_open_id s = next_open_id s' -> next_inode_id s = next_inode_id s' -> vfs_caller_grantor s = vfs_caller_grantor s' ->
  t_alloc s = t_alloc s' -> s = s'.
Proof. destruct s, s'. simpl. by intros -> -> -> -> -> -> -> -> -> -> -> -> ->. Qed.

Lemma inv_alloc X g s l : inv X g s -> inv X g (set_alloc l s).
Proof. intros []. by constructor. Qed.

Record fresh_at (a : Z) (s : tmpfs) : Prop := {
  fr_null : a <> 0;
  fr_range : in_u64 a;
  fr_inode : inodes s !! a = None;
  fr_file : files s !! a = None;
  fr_root : root_paths s !! a = None;
  fr_open : opens s !! a = None;
  fr_caller : heap (vfs_callers s) !! a = None;
}.

Lemma fresh_ok a s : fresh a s = true <-> fresh_at a s.
Proof.
  unfold fresh. split.
  - intros H. bool_facts. constructor; unfold in_u64; try done; lia.
  - intros [H0 [H1 H2] ? ? ? ? ?]. rewrite !bool_decide_eq_true_2 by done. lia.
Qed.

(** The next [n] allocations succeed. *)
Definition plenty (n : nat) (s : tmpfs) : Prop :=
  exists l r, t_alloc s = (Some <$> l) ++ r /\ length l = n /\ NoDup l /\ forall a, a ∈ l -> fresh_at a s.

Lemma plenty_le n k s : (k <= n)%nat -> plenty n s -> plenty k s.
Proof.
  intros Hk (l & r & Ht & Hl & Hnd & Hf). exists (take k l), ((Some <$> drop k l) ++ r). rewrite app_assoc, <- fmap_app, take_drop.
  split; [done|]. split; [rewrite length_take; lia|]. split; [eapply sublist_NoDup; [done|apply sublist_take]|].
  intros a Ha. apply Hf. eapply elem_of_submseteq; [done|]; apply sublist_submseteq, sublist_take.
Qed.

Lemma talloc_ok s : exists l, (talloc s).2 = set_alloc l s /\
  ((talloc s).1 = 0 /\ ~ plenty 1 s \/
   fresh_at (talloc s).1 s /\ forall n s', plenty (S n) s -> t_alloc s' = l ->
     (forall a, a <> (talloc s).1 -> fresh_at a s -> fresh_at a s') -> plenty n s').
Proof.
  unfold talloc. destruct (t_alloc s) as [|x l] eqn:Ht.
  { exists (t_alloc s). split; [by destruct s|]. left. split; [done|]. intros ([|a l] & r & Hr & Hl & _); [done|]. by rewrite Ht in Hr. }
  exists l. assert (forall b, plenty 1 s -> x = Some b -> fresh_at b s) as Hp.
  { intros b ([|a [|? ?]] & r & Hr & Hl & _ & Hf) Hx; simpl in *; try lia. rewrite Ht, Hx in Hr. injection Hr as -> _. apply Hf. set_solver. }
  destruct x as [a|]; simpl; (split; [done|]).
  - destruct (fresh a s) eqn:Hf; [right|left].
    + split; [by apply fresh_ok|]. intros n s' ([|b l'] & r & Hr & Hl & Hnd & Hfr) Ht' Hs; [done|]. rewrite Ht in Hr. injection Hr as -> Hr.
      apply NoDup_cons in Hnd as [Hnd1 Hnd2]. exists l', r. split; [by rewrite Ht', Hr|]. split; [simpl in Hl; lia|]. split; [done|].
      intros c Hc. apply Hs; [set_solver|]. apply Hfr. set_solver.
    + split; [done|]. intros H. specialize (Hp a H eq_refl). apply fresh_ok in Hp. congruence.
  - left. split; [done|]. intros ([|b l'] & r & Hr & Hl & _); [done|]. by rewrite Ht in Hr.
Qed.

Lemma talloc_bytes_ok s : exists l, (talloc_bytes s).2 = set_alloc l s /\
  ((talloc_bytes s).1 = false /\ ~ plenty 1 s \/
   (talloc_bytes s).1 = true /\ forall n s', plenty (S n) s -> t_alloc s' = l -> (forall a, fresh_at a s -> fresh_at a s') -> plenty n s').
Proof.
  unfold talloc_bytes. destruct (t_alloc s) as [|x l] eqn:Ht.
  { exists (t_alloc s). split; [by destruct s|]. left. split; [done|]. intros ([|a l] & r & Hr & Hl & _); [done|]. by rewrite Ht in Hr. }
  exists l. destruct x as [a|]; simpl; (split; [done|]); [right|left]; (split; [done|]).
  - intros n s' ([|b l'] & r & Hr & Hl & Hnd & Hfr) Ht' Hs; [done|]. rewrite Ht in Hr. injection Hr as -> Hr.
    apply NoDup_cons in Hnd as [Hnd1 Hnd2]. exists l', r. split; [by rewrite Ht', Hr|]. split; [simpl in Hl; lia|]. split; [done|].
    intros c Hc. apply Hs, Hfr. set_solver.
  - intros ([|b l'] & r & Hr & Hl & _); [done|]. by rewrite Ht in Hr.
Qed.

(** ** Linking and unlinking entries *)

Definition with_paths (P : gmap string Z) (l : list Z) (g : ghost) : ghost := mk_ghost P l (gr g) (go g) (gc g).

(** An entry without its place in the list. *)
Definition strip (f : tmpfs_file) : tmpfs_file := file_links 0 0 f.

Lemma strip_parts f f' : strip f = strip f' -> f_path f = f_path f' /\ f_refs f = f_refs f' /\ f_deleted f = f_deleted f' /\ f_inode f = f_inode f'.
Proof. destruct f, f'. unfold strip, file_links. simpl. by intros [= -> -> -> -> ->]. Qed.

(** The same entries, perhaps linked differently. *)
Definition alike (F F' : gmap Z tmpfs_file) : Prop := forall a, strip <$> F !! a = strip <$> F' !! a.

Lemma alike_sym F F' : alike F F' -> alike F' F.
Proof. by intros H a. Qed.

Lemma alike_lookup F F' a f : alike F F' -> F !! a = Some f -> exists f', F' !! a = Some f' /\ f_path f' = f_path f /\
  f_refs f' = f_refs f /\ f_deleted f' = f_deleted f /\ f_inode f' = f_inode f.
Proof.
  intros H Hf. specialize (H a). rewrite Hf in H. destruct (F' !! a) as [f'|]; [|done]. exists f'. split; [done|].
  apply (inj Some) in H. by apply strip_parts.
Qed.

Lemma alike_is_Some F F' a : alike F F' -> is_Some (F !! a) -> is_Some (F' !! a).
Proof. intros H [f Hf]. destruct (alike_lookup _ _ _ _ H Hf) as (f' & Hf' & _). eauto. Qed.

Lemma alike_dom F F' : alike F F' -> dom F = dom F'.
Proof. intros H. apply set_eq. intros a. rewrite !elem_of_dom. split; apply alike_is_Some; [done|by apply alike_sym]. Qed.

Lemma alike_links F F' i : alike F F' -> links_to i F = links_to i F'.
Proof.
  intros H. apply msum_ext. intros a. specialize (H a). destruct (F !! a) as [f'|], (F' !! a) as [f|]; simpl in *; try done.
  apply (inj Some) in H. destruct (strip_parts f' f H) as (_ & _ & _ & ->). done.
Qed.

Lemma inv_relink X g s X' P' l' F' h' t' : inv X g s -> alike (files s) F' ->
  models (dom F') t' (tmap P') -> (forall p a, P' !! p = Some a <-> exists f, files s !! a = Some f /\ f_path f = p /\ a ∉ X') ->
  dll F' h' l' -> (forall a, a ∈ l' <-> is_Some (files s !! a) /\ a ∉ X') ->
  (forall a f, a ∈ X' -> F' !! a = Some f -> f_prev f = 0 /\ f_next f = 0) ->
  (forall a f, files s !! a = Some f -> a ∈ X' /\ f_inode f = 0 \/ is_Some (inodes s !! f_inode f)) ->
  inv X' (with_paths P' l' g) (set_head h' (set_files F' (set_tree t' s))).
Proof.
  intros [] Hs Ht Hp Hl Hin Hout Hlink. pose proof (alike_sym _ _ Hs) as Hs'. constructor; simpl; try done.
  - intros p a. rewrite Hp. split; intros (f & Hf & <- & HX).
    + destruct (alike_lookup _ _ _ _ Hs Hf) as (f' & Hf' & Hpa & _). eauto.
    + destruct (alike_lookup _ _ _ _ Hs' Hf) as (f' & Hf' & Hpa & _). eauto.
  - intros a. rewrite Hin. split; intros [H ?]; (split; [|done]); by eapply alike_is_Some.
  - intros a f' Hf'. destruct (alike_lookup _ _ _ _ Hs' Hf') as (f & Hf & <- & <- & <- & _). by apply iv_file0.
  - intros a f' Hf'. destruct (alike_lookup _ _ _ _ Hs' Hf') as (f & Hf & _ & _ & _ & <-). eauto.
  - intros i n Hn. rewrite <- (alike_links _ _ i Hs). by apply iv_inode0.
  - intros a o Ho. destruct (iv_target0 a o Ho) as (H1 & [H2|[H2 H3]]); (split; [done|]); [by left|right].
    split; [done|]. by eapply alike_is_Some.
  - destruct iv_null0 as (N1 & N2). split; [|done]. apply eq_None_not_Some. intros H. eapply alike_is_Some in H; [|done].
    rewrite N1 in H. by destruct H.
Qed.

Lemma push_front_alike a f head (F : gmap Z tmpfs_file) : F !! a = Some f -> alike F (push_front a f head F).
Proof.
  intros Ha b. unfold push_front. assert (forall b, strip <$> <[a := set_lnext head (set_lprev 0 f)]> F !! b = strip <$> F !! b) as H1.
  { intros c. destruct (decide (c = a)) as [->|]; [by rewrite lookup_insert_eq, Ha|by rewrite lookup_insert_ne]. }
  destruct (head =? 0); [by rewrite H1|]. destruct (decide (b = head)) as [->|].
  - rewrite lookup_alter_eq, <- H1. by destruct (_ !! head).
  - rewrite lookup_alter_ne by done. by rewrite H1.
Qed.

Lemma attached_valid a f s : a <> 0 -> files s !! a = Some f -> f_inode f <> 0 -> is_Some (inodes s !! f_inode f) ->
  file_is_valid a s = Some true.
Proof. intros Ha Hf Hi [n Hn]. unfold file_is_valid, inode_is_valid. decide_tests. rewrite Hf. simpl. decide_tests. by rewrite Hn. Qed.

Lemma dll_head_live X g s : inv X g s -> files_head s = 0 \/ files_head s ∈ gl g.
Proof. intros Hinv. destruct (iv_list _ _ _ Hinv) as (-> & _). destruct (gl g); [by left|right; simpl; set_solver]. Qed.

Lemma dll_unlink_alike a f (F : gmap Z tmpfs_file) : F !! a = Some f -> alike F (dll_unlink a f F).
Proof.
  intros Ha b. unfold dll_unlink. set (h1 := if lprev f =? 0 then F else _). set (h2 := if lnext f =? 0 then h1 else _).
  assert (forall b, strip <$> h1 !! b = strip <$> F !! b) as H1.
  { intros c. unfold h1. destruct (lprev f =? 0); [done|]. destruct (decide (c = lprev f)) as [->|];
      [rewrite lookup_alter_eq; by destruct (F !! lprev f)|by rewrite lookup_alter_ne]. }
  assert (forall b, strip <$> h2 !! b = strip <$> F !! b) as H2.
  { intros c. unfold h2. rewrite <- H1. destruct (lnext f =? 0); [done|]. destruct (decide (c = lnext f)) as [->|];
      [rewrite lookup_alter_eq; by destruct (h1 !! lnext f)|by rewrite lookup_alter_ne]. }
  destruct (decide (b = a)) as [->|]; [by rewrite lookup_insert_eq, Ha|by rewrite lookup_insert_ne, H2].
Qed.

(** What [files_insert_file] and [files_remove_file] change. *)
Definition relinked (s s' : tmpfs) : Prop :=
  alike (files s) (files s') /\ s' = set_head (files_head s') (set_files (files s') (set_tree (files_by_path s') s)).

Lemma relinked_fields s s' : relinked s s' -> inodes s' = inodes s /\ roots s' = roots s /\ root_paths s' = root_paths s /\ opens s' = opens s /\
  open_files s' = open_files s /\ vfs_callers s' = vfs_callers s /\ next_open_id s' = next_open_id s /\ next_inode_id s' = next_inode_id s /\
  vfs_caller_grantor s' = vfs_caller_grantor s /\ t_alloc s' = t_alloc s.
Proof. by intros [_ ->]. Qed.

Lemma relinked_fresh s s' a : relinked s s' -> fresh_at a s -> fresh_at a s'.
Proof.
  intros Hr []. pose proof (relinked_fields s s' Hr) as (E1 & _ & E2 & E3 & _ & E4 & _). destruct Hr as [Hal _].
  constructor; rewrite ?E1, ?E2, ?E3, ?E4; try done. apply eq_None_not_Some. intros H. apply alike_sym in Hal.
  apply (alike_is_Some _ _ a Hal) in H. rewrite fr_file0 in H. by destruct H.
Qed.

Lemma plenty_mono n s s' : t_alloc s' = t_alloc s -> (forall a, fresh_at a s -> fresh_at a s') -> plenty n s -> plenty n s'.
Proof. intros Ht Hf (l & r & H1 & H2 & H3 & H4). exists l, r. rewrite Ht. do 3 (split; [done|]). auto. Qed.

Lemma list_add_ok X g s a f : inv X g s -> a ∈ X -> files s !! a = Some f -> is_Some (inodes s !! f_inode f) -> forall t,
  file_list_add a (set_tree t s) = Some (0, set_head a (set_files (push_front a f (files_head s) (files s)) (set_tree t s))).
Proof.
  intros Hinv HX Hf Hn t. destruct (iv_null _ _ _ Hinv) as (N1 & N2 & _). unfold file_list_add.
  assert (f_inode f <> 0) by (destruct Hn; congruence). assert (a <> 0) as Ha0 by congruence.
  rewrite (attached_valid a f) by done. simpl. rewrite Hf. simpl.
  destruct (iv_out _ _ _ Hinv a f HX Hf) as [_ ->]. simpl. assert (a ∉ gl g) as Hal by (intros [_ ?]%(iv_in _ _ _ Hinv); done).
  assert (live_or_null (files_head s) (set_tree t s) = Some tt) as ->.
  { unfold live_or_null. destruct (dll_head_live X g s Hinv) as [->|Hin]; [done|]. destruct (files_head s =? 0); [done|].
    simpl. apply (iv_in _ _ _ Hinv) in Hin as [[x ->] _]. done. }
  simpl. assert (files_head s <> a) by (destruct (dll_head_live X g s Hinv) as [->|Hin]; congruence). by decide_tests.
Qed.

Lemma attach_ok X g s a f : inv X g s -> a ∈ X -> files s !! a = Some f -> is_Some (inodes s !! f_inode f) ->
  gp g !! f_path f = None ->
  exists s', files_insert_file a s = Some (0, s') /\ relinked s s' /\
    inv (X ∖ {[a]}) (with_paths (<[f_path f := a]> (gp g)) (a :: gl g) g) s'.
Proof.
  intros Hinv HX Hf Hn Hp. destruct (iv_null _ _ _ Hinv) as (N1 & N2 & _).
  assert (a <> 0) as Ha0 by congruence. assert (f_inode f <> 0) as Hi0 by (destruct Hn; congruence).
  assert (a ∉ gl g) as Hal by (intros [_ ?]%(iv_in _ _ _ Hinv); done).
  destruct (path_insert_ok _ _ _ a (f_path f) (iv_tree _ _ _ Hinv)) as (t & Hins & Hmod); [apply elem_of_dom; eauto|done| |done|].
  { intros q (_ & _ & _ & Hb)%(iv_path _ _ _ Hinv). done. }
  unfold files_insert_file. rewrite (attached_valid a f) by done. simpl.
  rewrite Hf. simpl. rewrite (file_find_ok X g s Hinv), Hp. simpl. rewrite Hins. simpl.
  rewrite (list_add_ok X g s a f Hinv HX Hf Hn). simpl. set (F' := push_front a f (files_head s) (files s)).
  assert (alike (files s) F') as Hs by (by apply push_front_alike).
  exists (set_head a (set_files F' (set_tree t s))). split; [done|]. split; [done|].
  apply (inv_relink X g s); [done|done| | | | | |].
  - by rewrite <- (alike_dom _ _ Hs).
  - intros p b. rewrite lookup_insert_Some. split.
    + intros [[<- <-]|[Hne Hb]]; [exists f; set_solver|]. apply (iv_path _ _ _ Hinv) in Hb as (fb & Hfb & <- & HXb). exists fb. set_solver.
    + intros (fb & Hfb & <- & Hnx). destruct (decide (b = a)) as [->|Hba]; [left; split; congruence|right].
      assert (gp g !! f_path fb = Some b) as Hb by (apply (iv_path _ _ _ Hinv); exists fb; set_solver).
      split; [congruence|done].
  - apply dll_push; [apply (iv_list _ _ _ Hinv)|done|done].
  - intros b. rewrite elem_of_cons, (iv_in _ _ _ Hinv). split.
    + intros [->|[[x Hx] HXb]]; set_solver.
    + intros [[x Hx] HXb]. destruct (decide (b = a)) as [->|]; [by left|right]. split; [eauto|set_solver].
  - intros b f' Hb Hf'. assert (b <> a /\ b ∈ X) as [Hba HbX] by set_solver.
    assert (dlink F' b = dlink (files s) b) as Hlk.
    { assert (b ∉ gl g) by (intros [_ ?]%(iv_in _ _ _ Hinv); done).
      unfold F'. destruct (dll_head_live X g s Hinv) as [Hh|Hh]; rewrite push_front_link by congruence;
        rewrite !decide_False; try done; intros [? ?]; congruence. }
    unfold dlink in Hlk. rewrite Hf' in Hlk. destruct (files s !! b) as [fb|] eqn:Hfb; [|done]. injection Hlk as -> ->.
    by apply (iv_out _ _ _ Hinv b fb).
  - intros b fb Hfb. destruct (decide (b = a)) as [->|]; [right; congruence|].
    destruct (iv_linked _ _ _ Hinv b fb Hfb) as [[? ?]|?]; [left|by right]. set_solver.
Qed.

Lemma list_remove_ok h l1 a l2 f s : dll (files s) h (l1 ++ a :: l2) -> files_head s = h -> files s !! a = Some f ->
  file_list_remove a s = Some (set_head (if f_prev f =? 0 then f_next f else h) (set_files (dll_unlink a f (files s)) s)).
Proof.
  intros Hd Hh Hf. destruct (dll_next _ _ _ _ _ Hd) as (f' & Hf' & Hp & Hq). rewrite Hf in Hf'. injection Hf' as <-.
  simpl in Hp, Hq. pose proof Hd as (Hhd & Hnd & H0 & _). assert (a <> 0) as Ha0 by set_solver.
  assert (forall b, b ∈ l1 ++ l2 -> b <> a) as Hother.
  { intros b Hb ->. apply NoDup_app in Hnd as (_ & N1 & [N2 _]%NoDup_cons). apply elem_of_app in Hb as [Hb|Hb]; [|done].
    apply (N1 a Hb). set_solver. }
  assert (f_prev f = 0 /\ files_head s = a \/ f_prev f <> 0 /\ f_prev f <> a /\ exists p, files s !! f_prev f = Some p /\ f_next p = a) as Hbefore.
  { rewrite Hp. destruct l1 as [|b l1 _] using rev_ind; [by left; rewrite Hh, Hhd|right]. unfold lst. rewrite last_snoc. simpl.
    rewrite <- app_assoc in Hd. destruct (dll_next (files s) h l1 b (a :: l2) Hd) as (p & Hpb & _ & Hpn).
    split; [set_solver|]. split; [apply Hother; set_solver|]. by exists p. }
  assert (f_next f = 0 \/ f_next f <> 0 /\ f_next f <> a /\ f_next f <> f_prev f /\ exists q, files s !! f_next f = Some q /\ f_prev q = a) as Hbehind.
  { rewrite Hq. destruct l2 as [|b l2]; [by left|right]. simpl. destruct (dll_next (files s) h (l1 ++ [a]) b l2) as (q & Hqb & Hqp & _).
    { rewrite <- app_assoc. done. }
    simpl in Hqp. unfold lst in Hqp. rewrite last_snoc in Hqp. split; [set_solver|]. split; [apply Hother; set_solver|].
    split; [|by exists q]. rewrite Hp. destruct l1 as [|c l1 _] using rev_ind; [set_solver|]. unfold lst. rewrite last_snoc. simpl. intros ->.
    apply NoDup_app in Hnd as (_ & N1 & _). apply (N1 c); set_solver. }
  unfold file_list_remove. decide_tests. rewrite Hf. simpl. unfold dll_unlink. simpl.
  assert (forall h' : gmap Z tmpfs_file, h' !! a = Some f -> alter (file_links 0 0) a h' = <[a := file_links 0 0 (file_links 0 (f_next f) f)]> h') as Halter.
  { intros h' Hh'. apply map_eq. intros b. destruct (decide (b = a)) as [->|].
    - by rewrite lookup_alter_eq, lookup_insert_eq, Hh'.
    - by rewrite lookup_alter_ne, lookup_insert_ne. }
  destruct Hbefore as [[Hz Hhead]|(Hz & Hpa & p & Hpl & Hpn)], Hbehind as [Hy|(Hy & Hqa & Hqp & q & Hql & Hqn)].
  - rewrite Hz, Hy. simpl. rewrite Hhead. decide_tests. simpl. by rewrite Halter.
  - rewrite Hz. decide_tests. simpl. decide_tests. simpl. rewrite Hql. simpl. decide_tests. simpl. rewrite Halter; [by subst|].
    by rewrite lookup_alter_ne.
  - rewrite Hy. decide_tests. rewrite Hpl. simpl. decide_tests. simpl. rewrite Halter; [by subst|]. by rewrite lookup_alter_ne.
  - decide_tests. rewrite Hpl. simpl. decide_tests. simpl. rewrite lookup_alter_ne, Hql by done. simpl. decide_tests. simpl.
    rewrite Halter; [by subst|]. by rewrite !lookup_alter_ne.
Qed.

Definition without (a : Z) (l : list Z) : list Z := filter (fun b => b <> a) l.

Lemma filter_keep {A} (P : A -> Prop) {Hdec : forall x, Decision (P x)} (l : list A) : (forall x, x ∈ l -> P x) -> filter P l = l.
Proof. induction l as [|x l IH]; intros H; [done|]. rewrite filter_cons_True by (apply H; set_solver). rewrite IH; [done|]. set_solver. Qed.

Lemma without_split a l1 l2 : a ∉ l1 ++ l2 -> without a (l1 ++ a :: l2) = l1 ++ l2.
Proof.
  intros Ha. unfold without. rewrite filter_app, filter_cons_False by (intros H; by apply H). rewrite <- filter_app.
  apply filter_keep. by intros x Hx ->.
Qed.

Lemma detach_file_ok X g s p a f : inv X g s -> gp g !! p = Some a -> files s !! a = Some f ->
  exists s', files_remove_file a s = Some s' /\ relinked s s' /\
    inv (X ∪ {[a]}) (with_paths (delete p (gp g)) (without a (gl g)) g) s' /\
    forall f', f_prev f' = f_prev f -> f_next f' = f_next f ->
      files_remove_file a (set_files (<[a := f']> (files s)) s) = Some (set_files (<[a := file_links 0 0 f']> (files s')) s').
Proof.
  intros Hinv Hp Hf. destruct (iv_null _ _ _ Hinv) as (N1 & N2 & _).
  assert (a <> 0) as Ha0 by congruence. pose proof Hp as (f' & Hf' & Hfp & HX)%(iv_path _ _ _ Hinv).
  rewrite Hf in Hf'. injection Hf' as <-.
  assert (a ∈ gl g) as (l1 & l2 & Hl)%list_elem_of_split by (apply (iv_in _ _ _ Hinv); eauto).
  destruct (path_remove_ok _ _ _ a p (iv_tree _ _ _ Hinv) Hp Ha0) as (t & Hrem & Hmod).
  { intros q Hq. by apply (entry_inj X g s Hinv q p a). }
  destruct (path_key _ _ _ a p (iv_tree _ _ _ Hinv) Hp) as (n & Hn & Hk).
  pose proof (iv_list _ _ _ Hinv) as Hd. rewrite Hl in Hd.
  unfold files_remove_file. decide_tests. rewrite Hf. simpl. rewrite Hn. simpl. rewrite Hk, Hrem. simpl.
  rewrite (list_remove_ok (files_head s) l1 a l2 f (set_tree t s) Hd eq_refl Hf). simpl.
  set (F' := dll_unlink a f (files s)). assert (alike (files s) F') as Hs by (by apply dll_unlink_alike).
  eexists. split; [done|]. split; [done|]. destruct (iv_list _ _ _ Hinv) as (_ & Hnd & _). rewrite Hl in Hnd. split; cycle 1.
  { intros f2 E1 E2. rewrite lookup_insert_eq. simpl. rewrite ?Hn. simpl. rewrite ?Hk. simpl. rewrite ?Hrem. simpl.
    rewrite (list_remove_ok (files_head s) l1 a l2 f2 (set_tree t (set_files (<[a := f2]> (files s)) s)));
      [|by apply (dll_update _ _ _ a f)|done|by simpl; rewrite lookup_insert_eq].
    simpl. rewrite (dll_unlink_update _ _ l1 a l2 f f2 Hd Hf E1 E2), E1, E2. done. }
  assert (a ∉ l1 ++ l2) as Hout.
  { apply NoDup_app in Hnd as (_ & M1 & [M2 _]%NoDup_cons). intros [Hb|Hb]%elem_of_app; [|done]. apply (M1 a Hb). set_solver. }
  rewrite Hl, without_split by done. apply (inv_relink X g s); [done|done| | | | | |].
  - by rewrite <- (alike_dom _ _ Hs).
  - intros q b. rewrite lookup_delete_Some, (iv_path _ _ _ Hinv). split.
    + intros (Hne & fb & Hfb & Hpb & HXb). exists fb. do 2 (split; [done|]). assert (b <> a) by congruence. set_solver.
    + intros (fb & Hfb & Hpb & HXb). assert (b <> a) as Hba by set_solver. assert (b ∉ X) as HbX by set_solver. split; [|eauto].
      intros ->. apply Hba. assert (gp g !! q = Some b) by (apply (iv_path _ _ _ Hinv); eauto). congruence.
  - exact (dll_unlink_ok _ _ _ _ _ f Hd Hf).
  - intros b. pose proof (iv_in _ _ _ Hinv b) as Hin. rewrite Hl in Hin. destruct (decide (b = a)) as [->|].
    + split; [done|]. set_solver.
    + set_solver.
  - intros b fb Hb Hfb. assert (dlink F' b = Some (0, 0)) as Hlk.
    { pose proof (iv_in _ _ _ Hinv b) as Hin. rewrite Hl in Hin. unfold F'. rewrite (dll_unlink_out _ _ _ _ _ _ b Hd Hf).
      - destruct (decide (b = a)); [done|]. assert (b ∈ X) as HbX by set_solver. unfold dlink.
        destruct (alike_lookup _ _ _ _ (alike_sym _ _ Hs) Hfb) as (f0 & Hf0 & _). rewrite Hf0. simpl.
        by destruct (iv_out _ _ _ Hinv b f0 HbX Hf0) as [-> ->].
      - destruct (decide (b = a)) as [->|]; [done|]. set_solver. }
    unfold dlink in Hlk. rewrite Hfb in Hlk. by injection Hlk.
  - intros b fb Hfb. destruct (iv_linked _ _ _ Hinv b fb Hfb) as [[? ?]|?]; [left|by right]. set_solver.
Qed.

(** ** Changing single objects *)

(** Membership in small sets, looking only at memberships and equalities. *)
Ltac in_sets :=
  repeat match goal with
  | H : _ ∈ _ |- _ => progress rewrite ?elem_of_union, ?elem_of_difference, ?elem_of_singleton in H
  | H : ¬ (_ ∈ _) |- _ => progress rewrite ?elem_of_union, ?elem_of_difference, ?elem_of_singleton in H
  end;
  rewrite ?elem_of_union, ?elem_of_difference, ?elem_of_singleton; first [tauto | intuition congruence].

Lemma inv_put X g s i n n' : inv X g s -> inodes s !! i = Some n -> inode_ok n' -> i_refs n' = i_refs n ->
  inv X g (set_inodes (<[i := n']> (inodes s)) s).
Proof.
  intros [] Hn Hok Hr. constructor; simpl; try done.
  - intros a f Hf. destruct (iv_linked0 a f Hf) as [?|?]; [by left|right]. apply lookup_insert_is_Some'. by right.
  - intros j m [[<- <-]|[_ Hm]]%lookup_insert_Some; [|by apply iv_inode0]. rewrite Hr. destruct (iv_inode0 i n Hn) as (_ & ? & ?). done.
  - destruct iv_null0 as (? & ? & ? & ?). repeat (split; [done|]). split; [|done]. rewrite lookup_insert_ne; [done|]. congruence.
Qed.

Lemma inv_next_inode X g s x : inv X g s -> in_u64 x -> inv X g (set_next_inode x s).
Proof. intros [] Hx. constructor; simpl; try done. by destruct iv_next0. Qed.

Lemma opens_of_nonneg a O : 0 <= opens_of a O.
Proof. apply msum_nonneg. intros k o _. by destruct (is_file o && (o_file o =? a)). Qed.

Lemma opens_of_zero a O : opens_of a O = 0 <-> forall k o, O !! k = Some o -> is_file o = true -> o_file o <> a.
Proof.
  split.
  - intros Hz k o Ho Hf <-. pose proof (msum_lookup (fun o' => if is_file o' && (o_file o' =? o_file o) then 1 else 0) O k o) as H.
    cbn beta in H. rewrite Hf, Z.eqb_refl in H. unfold opens_of in Hz. rewrite Hz in H. simpl in H.
    assert (1 <= 0); [|lia]. apply H; [|done]. intros x o' _. by destruct (_ && _).
  - intros H. pose proof (opens_of_nonneg a O). destruct (Z.eq_dec (opens_of a O) 0) as [|Hne]; [done|].
    destruct (msum_pos (fun o => if is_file o && (o_file o =? a) then 1 else 0) O) as (k & o & Ho & Hp); [unfold opens_of in *; lia|].
    destruct (is_file o) eqn:Hf; simpl in Hp; [|lia]. destruct (Z.eqb_spec (o_file o) a); [|lia]. by destruct (H k o Ho Hf).
Qed.

Lemma links_to_zero X g s i : inv X g s -> i <> 0 -> inodes s !! i = None -> links_to i (files s) = 0.
Proof.
  intros Hinv Hi Hn. unfold links_to. destruct (Z.eq_dec (msum (fun f => if f_inode f =? i then 1 else 0) (files s)) 0) as [|Hne]; [done|].
  destruct (msum_pos (fun f => if f_inode f =? i then 1 else 0) (files s)) as (a & f & Hf & Hp).
  { assert (0 <= msum (fun f => if f_inode f =? i then 1 else 0) (files s)); [|lia]. apply msum_nonneg.
    intros k x _. by destruct (f_inode x =? i). }
  destruct (Z.eqb_spec (f_inode f) i) as [<-|]; [|lia]. destruct (iv_linked _ _ _ Hinv a f Hf) as [[_ ?]|[? ?]]; congruence.
Qed.

Lemma new_entry X g s a p : inv X g s -> fresh_at a s -> (String.length p < 4096)%nat -> a ∉ X ->
  inv ({[a]} ∪ X) g (set_tree (add_node a (files_by_path s)) (set_files (<[a := mk_file 0 0 p 0 false true 0]> (files s)) s)).
Proof.
  intros [] [] Hp HX. assert (opens_of a (opens s) = 0) as Hz.
  { apply opens_of_zero. intros k o Ho Hf <-. destruct (iv_target0 k o Ho) as (_ & [Hk|[_ [f Hf']]]); [|congruence].
    unfold is_file in Hf. rewrite Hk in Hf. done. }
  constructor; simpl; try done.
  - rewrite dom_insert_L, (union_comm_L {[a]}). apply add_node_models; [done| |done]. by apply not_elem_of_dom.
  - intros q b. rewrite iv_path0. split; intros (f & Hf & Hq & HbX).
    + exists f. rewrite lookup_insert_ne by congruence. do 2 (split; [done|]). assert (b <> a) by congruence. in_sets.
    + rewrite lookup_insert_ne in Hf by in_sets. exists f. repeat split; try done; in_sets.
  - apply dll_other; [done|]. intros [[? ?] _]%iv_in0. congruence.
  - intros b. rewrite iv_in0. split; intros [[f Hf] HbX].
    + rewrite lookup_insert_ne by congruence. split; [eauto|]. assert (b <> a) by congruence. in_sets.
    + rewrite lookup_insert_ne in Hf by in_sets. split; [eauto|in_sets].
  - intros b f HbX [[<- <-]|[Hne Hf]]%lookup_insert_Some; [done|]. apply (iv_out0 b f); [in_sets|done].
  - intros b f [[<- <-]|[Hne Hf]]%lookup_insert_Some; [done|]. by apply iv_file0.
  - intros b f [[<- <-]|[Hne Hf]]%lookup_insert_Some; [left; split; [in_sets|done]|]. destruct (iv_linked0 b f Hf) as [[? ?]|?]; [left|by right]. split; [in_sets|done].
  - intros i n Hn. destruct (iv_inode0 i n Hn) as (H1 & H2 & H3). split; [done|]. unfold links_to. rewrite msum_insert by done. cbn [f_inode].
    assert (0 <> i) by (destruct iv_null0 as (_ & ? & _); congruence). replace (0 =? i) with false by lia. done.
  - intros b o Ho. destruct (iv_target0 b o Ho) as (H1 & [H2|[H2 H3]]); (split; [done|]); [by left|right].
    split; [done|]. apply lookup_insert_is_Some'. by right.
  - destruct iv_null0 as (? & ?). split; [|done]. by rewrite lookup_insert_ne.
Qed.

Lemma links_update i a f f' F : F !! a = Some f ->
  links_to i (<[a := f']> F) = links_to i F - (if f_inode f =? i then 1 else 0) + (if f_inode f' =? i then 1 else 0).
Proof. intros Hf. unfold links_to. by rewrite (msum_update _ F a f f' Hf). Qed.

(** A detached entry changes; [inodes] changes with it. *)
Lemma inv_detached X g s a f f' I : inv X g s -> a ∈ X -> files s !! a = Some f ->
  f_prev f' = 0 -> f_next f' = 0 -> f_deleted f' = false -> (String.length (f_path f') < 4096)%nat -> f_refs f' = f_refs f ->
  (f_inode f' = 0 \/ is_Some (I !! f_inode f')) -> I !! 0 = None ->
  (forall i, is_Some (inodes s !! i) -> is_Some (I !! i)) ->
  (forall i n, I !! i = Some n -> inode_ok n /\ i_refs n = links_to i (<[a := f']> (files s)) /\ 0 < i_refs n) ->
  inv X g (set_inodes I (set_files (<[a := f']> (files s)) s)).
Proof.
  intros [] HX Hf H1 H2 H3 H4 H5 H6 H7 H8 H9. assert (forall b, is_Some (<[a := f']> (files s) !! b) <-> is_Some (files s !! b)) as Hdom.
  { intros b. rewrite lookup_insert_is_Some'. split; [intros [<-|?]; [eauto|done]|by right]. }
  constructor; simpl; try done.
  - rewrite dom_insert_lookup_L by eauto. done.
  - intros p b. rewrite iv_path0. destruct (decide (b = a)) as [->|]; [|by rewrite lookup_insert_ne].
    split; intros (? & _ & _ & ?); done.
  - apply dll_other; [done|]. by intros [_ ?]%iv_in0.
  - intros b. by rewrite iv_in0, Hdom.
  - intros b fb HbX [[<- <-]|[_ Hfb]]%lookup_insert_Some; [done|]. by apply (iv_out0 b fb).
  - intros b fb [[<- <-]|[_ Hfb]]%lookup_insert_Some; [|by apply iv_file0]. rewrite H5. by repeat split; try done; apply (iv_file0 a f).
  - intros b fb [[<- <-]|[_ Hfb]]%lookup_insert_Some; [destruct H6; [by left|by right]|].
    destruct (iv_linked0 b fb Hfb) as [?|?]; [by left|right; auto].
  - intros b o Ho. destruct (iv_target0 b o Ho) as (T1 & [T2|[T2 T3]]); (split; [done|]); [by left|right]. split; [done|by apply Hdom].
  - destruct iv_null0 as (N1 & N2 & N3). split; [|done]. rewrite lookup_insert_ne; [done|congruence].
Qed.

(** A detached entry gets its inode. *)
Lemma link_entry X g s a f i n : inv X g s -> a ∈ X -> files s !! a = Some f -> f_inode f = 0 -> i <> 0 -> inode_ok n ->
  i_refs n = links_to i (files s) + 1 -> 0 < i_refs n ->
  inv X g (set_inodes (<[i := n]> (inodes s)) (set_files (<[a := set_inode i f]> (files s)) s)).
Proof.
  intros Hinv HX Hf Hf0 Hi Hok Hr Hpos. destruct (iv_out _ _ _ Hinv a f HX Hf) as [Hp0 Hn0].
  destruct (iv_file _ _ _ Hinv a f Hf) as (Hd & Hlen & _). apply (inv_detached X g s a f); try done.
  - right. simpl. rewrite lookup_insert_eq. eauto.
  - rewrite lookup_insert_ne by done. apply (iv_null _ _ _ Hinv).
  - intros j Hj. apply lookup_insert_is_Some'. by right.
  - intros j m. rewrite (links_update j a f), Hf0 by done. cbn [f_inode set_inode]. intros [[<- <-]|[Hne Hm]]%lookup_insert_Some.
    + replace (0 =? i) with false by lia. rewrite Z.eqb_refl. split; [done|]. lia.
    + destruct (iv_inode _ _ _ Hinv j m Hm) as (? & ? & ?). assert (j <> 0) by (destruct (iv_null _ _ _ Hinv) as (_ & ? & _); congruence).
      replace (0 =? j) with false by lia. replace (i =? j) with false by lia. split; [done|]. lia.
Qed.

Lemma repath_entry X g s a f p e : inv X g s -> a ∈ X -> files s !! a = Some f -> (String.length p < 4096)%nat ->
  inv X g (set_files (<[a := set_path p e f]> (files s)) s).
Proof.
  intros Hinv HX Hf Hp. destruct (iv_out _ _ _ Hinv a f HX Hf) as [Hp0 Hn0].
  destruct (iv_file _ _ _ Hinv a f Hf) as (Hd & _ & _).
  assert (inv X g (set_inodes (inodes s) (set_files (<[a := set_path p e f]> (files s)) s))) as H; [|by destruct s].
  apply (inv_detached X g s a f); try done.
  - simpl. destruct (iv_linked _ _ _ Hinv a f Hf) as [[_ ?]|?]; [by left|by right].
  - apply (iv_null _ _ _ Hinv).
  - intros j m Hm. rewrite (links_update j a f) by done. destruct (iv_inode _ _ _ Hinv j m Hm) as (? & ? & ?). simpl.
    split; [done|]. lia.
Qed.

(** A detached entry that no open file refers to is freed, with its link. *)
Lemma drop_link_entry X g s a f I : inv X g s -> a ∈ X -> files s !! a = Some f -> f_refs f = 0 ->
  I !! 0 = None -> (forall i, i <> f_inode f -> I !! i = inodes s !! i) ->
  (forall n, I !! f_inode f = Some n -> inode_ok n /\ i_refs n = links_to (f_inode f) (files s) - 1 /\ 0 < i_refs n) ->
  (I !! f_inode f = None -> forall b fb, files s !! b = Some fb -> f_inode fb = f_inode f -> b = a \/ f_inode f = 0) ->
  inv (X ∖ {[a]}) g (free_file a (set_inodes I s)).
Proof.
  intros [] HX Hf Hr HI0 HI1 HI2 HI3. assert (opens_of a (opens s) = 0) as Hz.
  { destruct (iv_file0 a f Hf) as (_ & _ & H). lia. }
  rewrite opens_of_zero in Hz.
  constructor; simpl; try done.
  - rewrite dom_delete_L. apply drop_node_models; [done|]. intros k v (q & b & -> & [= -> ->] & Hb)%tmap_lookup_Some.
    apply iv_path0 in Hb as (_ & _ & _ & ?). done.
  - intros q b. rewrite iv_path0. destruct (decide (b = a)) as [->|Hne]; [rewrite lookup_delete_eq|rewrite lookup_delete_ne by done].
    + split; intros (? & ? & ? & ?); done.
    + split; intros (fb & ? & ? & ?); exists fb; repeat split; try done; in_sets.
  - eapply dll_frame; [|done]. intros b [_ Hb]%iv_in0. unfold dlink. rewrite lookup_delete_ne; [done|]. by intros ->.
  - intros b. rewrite iv_in0. destruct (decide (b = a)) as [->|Hne]; [rewrite lookup_delete_eq|rewrite lookup_delete_ne by done].
    + split; [by intros [_ ?]|by intros [[? ?] _]].
    + split; intros [? ?]; (split; [done|in_sets]).
  - intros b fb Hb [Hne Hfb]%lookup_delete_Some. apply (iv_out0 b fb); [in_sets|done].
  - intros b fb [Hne Hfb]%lookup_delete_Some. by apply iv_file0.
  - intros b fb [Hne Hfb]%lookup_delete_Some. destruct (iv_linked0 b fb Hfb) as [[? ?]|Hl]; [left; split; [in_sets|done]|].
    destruct (decide (f_inode fb = f_inode f)) as [E|E]; [|right; by rewrite HI1].
    destruct (I !! f_inode f) as [m|] eqn:Hm; [right; rewrite E; eauto|]. destruct (HI3 eq_refl b fb Hfb E) as [|E0]; [done|].
    rewrite E, E0 in Hl. destruct iv_null0 as (_ & N & _). rewrite N in Hl. by destruct Hl.
  - intros i n Hi. assert (links_to i (files s) = (if f_inode f =? i then 1 else 0) + links_to i (delete a (files s))) as Hl
      by (unfold links_to; by rewrite (msum_delete _ (files s) a f)).
    destruct (decide (i = f_inode f)) as [->|Hne].
    + destruct (HI2 n Hi) as (? & ? & ?). rewrite Z.eqb_refl in Hl. split; [done|]. lia.
    + rewrite HI1 in Hi by done. destruct (iv_inode0 i n Hi) as (? & ? & ?). replace (f_inode f =? i) with false in Hl by lia.
      split; [done|]. lia.
  - intros b o Ho. destruct (iv_target0 b o Ho) as (T1 & [T2|[T2 T3]]); (split; [done|]); [by left|right]. split; [done|].
    rewrite lookup_delete_ne; [done|]. intros E. apply (Hz b o Ho); [|done]. unfold is_file. by rewrite T2.
  - destruct iv_null0 as (? & ? & ?). split; [|done]. by rewrite lookup_delete_None; right.
Qed.

(** ** Releasing *)

Definition release_link (i : Z) (I : gmap Z tmpfs_inode) : gmap Z tmpfs_inode :=
  match I !! i with
  | None => I
  | Some n => if i_refs n =? 1 then delete i I else <[i := set_irefs (i_refs n - 1) n]> I
  end.

Lemma links_two i a b fa fb F : F !! a = Some fa -> F !! b = Some fb -> a <> b -> f_inode fa = i -> f_inode fb = i -> 2 <= links_to i F.
Proof.
  intros Ha Hb Hne Ia Ib. unfold links_to. rewrite (msum_delete _ F a fa Ha). replace (f_inode fa =? i) with true by lia.
  assert (1 <= msum (fun f => if f_inode f =? i then 1 else 0) (delete a F)); [|lia].
  etransitivity; [|apply (msum_lookup (fun f => if f_inode f =? i then 1 else 0) _ b fb)]; [cbn beta; by replace (f_inode fb =? i) with true by lia| |by rewrite lookup_delete_ne].
  intros k x _. by destruct (f_inode x =? i).
Qed.

Lemma release_ok X g s a f : inv X g s -> a ∈ X -> files s !! a = Some f -> f_refs f = 0 ->
  (forall s', inodes s' = inodes s -> inode_release (f_inode f) s' = Some (set_inodes (release_link (f_inode f) (inodes s)) s')) /\
  inv (X ∖ {[a]}) g (free_file a (set_inodes (release_link (f_inode f) (inodes s)) s)).
Proof.
  intros Hinv HX Hf Hr. destruct (iv_null _ _ _ Hinv) as (N1 & N2 & _). set (i := f_inode f).
  destruct (iv_linked _ _ _ Hinv a f Hf) as [[_ Hz]|[n Hn]].
  { fold i in Hz. assert (release_link i (inodes s) = inodes s) as -> by (unfold release_link; by rewrite Hz, N2). split.
    - intros s' <-. unfold inode_release, inode_is_valid. rewrite Hz. simpl. by destruct s'.
    - apply (drop_link_entry X g s a f); try done; fold i; rewrite Hz; [|by right]. intros n. by rewrite N2. }
  fold i in Hn. assert (i <> 0) as Hi by congruence. destruct (iv_inode _ _ _ Hinv i n Hn) as (Hok & Hl & Hpos).
  assert (release_link i (inodes s) = if i_refs n =? 1 then delete i (inodes s) else <[i := set_irefs (i_refs n - 1) n]> (inodes s)) as ->
    by (unfold release_link; by rewrite Hn).
  split.
  - intros s' Hs'. unfold inode_release, inode_is_valid. decide_tests. rewrite Hs', Hn. simpl.
    replace (i_refs n =? 0) with false by lia. replace (i_refs n - 1 =? 0) with (i_refs n =? 1) by lia. by destruct (i_refs n =? 1).
  - apply (drop_link_entry X g s a f); try done; fold i; destruct (Z.eqb_spec (i_refs n) 1) as [E|E].
    + by rewrite lookup_delete_None; right.
    + by rewrite lookup_insert_ne.
    + intros j Hj. by rewrite lookup_delete_ne.
    + intros j Hj. by rewrite lookup_insert_ne.
    + intros m. by rewrite lookup_delete_eq.
    + intros m. rewrite lookup_insert_eq. intros [= <-]. split; [by destruct Hok|]. simpl. lia.
    + intros _ b fb Hb Ib. left. destruct (decide (b = a)) as [|Hne]; [done|].
      pose proof (links_two i a b f fb (files s) Hf Hb ltac:(done) eq_refl Ib). lia.
    + by rewrite lookup_insert_eq.
Qed.

Lemma file_unlink_ok g s p a f : inv ∅ g s -> gp g !! p = Some a -> files s !! a = Some f -> f_refs f = 0 ->
  exists s1, relinked s s1 /\ let s' := free_file a (set_inodes (release_link (f_inode f) (inodes s)) s1) in
    file_unlink a s = Some s' /\ inv ∅ (with_paths (delete p (gp g)) (without a (gl g)) g) s'.
Proof.
  intros Hinv Hp Hf Hr. destruct (detach_file_ok ∅ g s p a f Hinv Hp Hf) as (s1 & Hrem & Hrel & Hinv1 & Hrem'). exists s1. split; [done|].
  destruct Hrel as [Hal Hs1]. destruct (alike_lookup _ _ _ _ Hal Hf) as (f1 & Hf1 & _ & Hr1 & _ & Hi1). rewrite Hr in Hr1.
  destruct (release_ok _ _ s1 a f1 Hinv1 ltac:(in_sets) Hf1 Hr1) as [Hrl Hinv2]. rewrite Hi1 in *.
  assert (inodes s1 = inodes s) as Hin by (by rewrite Hs1). rewrite Hin in *.
  assert ((∅ ∪ {[a]}) ∖ {[a]} =@{gset Z} ∅) as HX by (apply set_eq; intros; set_solver). rewrite HX in Hinv2. split; [|done].
  destruct (iv_null _ _ _ Hinv) as (N1 & _). assert (a <> 0) by congruence.
  unfold file_unlink. decide_tests. rewrite Hf. simpl. rewrite (Hrem' (set_deleted f) eq_refl eq_refl). simpl.
  unfold file_release. decide_tests. simpl. rewrite lookup_insert_eq. simpl. rewrite Hr. simpl. rewrite Hrl by done. simpl.
  unfold free_file. simpl. by rewrite insert_insert_eq, delete_insert_eq.
Qed.

(** ** Creating *)

Lemma drop_add_node (t : tree cstr) D m a : models D t m -> a ∉ D -> drop_node a (add_node a t) = t.
Proof.
  intros (u & _ & _ & _ & _ & _ & -> & _) Ha. unfold drop_node, add_node. destruct t as [r c h]. simpl in *. f_equal.
  apply delete_insert_id. by apply not_elem_of_dom.
Qed.

Lemma entry_alloc_ok g s p : inv ∅ g s -> (String.length p < 4096)%nat -> exists a s1, file_alloc_with_path p s = (a, s1) /\
  ((a = 0 /\ (exists l, s1 = set_alloc l s) /\ ~ plenty 1 s) \/
   (fresh_at a s /\ inv {[a]} g s1 /\ (forall n, plenty (S n) s -> plenty n s1) /\
    (exists l, s1 = set_tree (add_node a (files_by_path s)) (set_files (<[a := mk_file 0 0 p 0 false true 0]> (files s)) (set_alloc l s))) /\
    (forall l, exists l', free_file a (set_alloc l s1) = set_alloc l' s))).
Proof.
  intros Hinv Hp. unfold file_alloc_with_path. rewrite str_len_small by done. unfold TMPFS_MAX_PATH. replace (_ =? 4096) with false by lia.
  destruct (talloc_ok s) as (l & Hs & Hcase). destruct (talloc s) as [a s1]. simpl in *. subst s1.
  destruct Hcase as [[-> Hno]|[Hfr Hpl]]; [exists 0; eexists; split; [done|left; eauto]|].
  pose proof Hfr as [Ha0 Hra _ Hfa Hra' _ _]. decide_tests. eexists a, _. split; [done|]. right. split; [done|].
  assert (inv ({[a]} ∪ ∅) g (set_tree (add_node a (files_by_path s)) (set_files (<[a := mk_file 0 0 p 0 false true 0]> (files s)) (set_alloc l s)))) as H.
  { apply (new_entry ∅ g (set_alloc l s)); [by apply inv_alloc|by destruct Hfr|done|set_solver]. }
  rewrite (right_id_L ∅ (∪)) in H. split; [done|]. split.
  { intros n Hn. apply (Hpl n); [done|done|]. intros b Hb []. constructor; simpl; try done. by rewrite lookup_insert_ne. }
  split; [eauto|]. intros l'. exists l'. apply tmpfs_ext; simpl; try done.
  - by rewrite delete_insert_id.
  - apply (drop_add_node _ _ _ _ (iv_tree _ _ _ Hinv)). by apply not_elem_of_dom.
Qed.

(** ** Open files *)

Definition with_opens (O : gmap Z Z) (g : ghost) : ghost := mk_ghost (gp g) (gl g) (gr g) O (gc g).

Lemma inv_reopen X g s O' G' t' F' next' : inv X g s -> (forall a, F' !! a = set_refs (opens_of a O') <$> files s !! a) ->
  models (dom O') t' (umap G') -> (forall id a, G' !! id = Some a <-> exists o, O' !! a = Some o /\ o_id o = id) -> G' !! 0 = None ->
  (forall a o, O' !! a = Some o -> (String.length (o_path o) < 4096)%nat /\
    (o_kind o = TMPFS_OPEN_DIR \/ o_kind o = TMPFS_OPEN_FILE /\ is_Some (files s !! o_file o))) ->
  O' !! 0 = None -> 0 < next' < 2 ^ 64 ->
  inv X (with_opens G' g) (set_opens O' t' (set_next_open next' (set_files F' s))).
Proof.
  intros [] HF Ht Hopen Hid Htgt HO0 Hnext.
  assert (forall a f', F' !! a = Some f' -> exists f, files s !! a = Some f /\ f' = set_refs (opens_of a O') f) as Hback.
  { intros a f'. rewrite HF. destruct (files s !! a) as [f|]; [|done]. intros [= <-]. eauto. }
  assert (forall a, is_Some (F' !! a) <-> is_Some (files s !! a)) as Hlive by (intros a; rewrite HF; apply fmap_is_Some).
  assert (dom F' = dom (files s)) as Hdom by (apply set_eq; intros a; by rewrite !elem_of_dom, Hlive).
  constructor; simpl; try done.
  - by rewrite Hdom.
  - intros p a. rewrite iv_path0, HF. split.
    + intros (f & -> & Hp & HX). by eexists.
    + intros (f' & Hf & Hp & HX). destruct (files s !! a) as [f|]; [|done]. injection Hf as <-. eauto.
  - eapply dll_frame; [|done]. intros a _. unfold dlink. rewrite HF. by destruct (files s !! a).
  - intros a. by rewrite iv_in0, Hlive.
  - intros a f' HX (f & Hf & ->)%Hback. by apply (iv_out0 a f).
  - intros a f' (f & Hf & ->)%Hback. by destruct (iv_file0 a f Hf) as (? & ? & _).
  - intros a f' (f & Hf & ->)%Hback. by apply (iv_linked0 a f).
  - intros i n Hn. destruct (iv_inode0 i n Hn) as (? & Hl & ?). split; [done|]. split; [|done]. rewrite Hl. apply msum_ext.
    intros a. rewrite HF. by destruct (files s !! a).
  - intros a o Ho. destruct (Htgt a o Ho) as (? & [?|[? ?]]); (split; [done|]); [by left|right]. by rewrite Hlive.
  - destruct iv_null0 as (N1 & N2 & _ & N4). split; [by rewrite HF, N1|done].
  - by destruct iv_next0.
Qed.

Lemma addresses_bound (l : list Z) : NoDup l -> (forall x, x ∈ l -> 0 < x < 2 ^ 64) -> Z.of_nat (length l) <= 2 ^ 64 - 1.
Proof.
  intros Hnd Hin. assert (l ⊆+ seqZ 1 (2 ^ 64 - 1)) as H.
  { apply NoDup_submseteq; [done|]. intros x Hx%Hin. apply elem_of_seqZ. lia. }
  apply submseteq_length in H. rewrite length_seqZ in H. lia.
Qed.

Lemma msum_count {A} (f : A -> Z) (m : gmap Z A) : (forall x, 0 <= f x <= 1) -> msum f m <= Z.of_nat (size m).
Proof.
  intros Hf. induction m as [|k x m Hk IH] using map_ind; [by rewrite msum_empty, map_size_empty|].
  rewrite msum_insert, map_size_insert_None by done. specialize (Hf x). lia.
Qed.

Lemma dom_bound {A} (m : gmap Z A) a : (forall b, is_Some (m !! b) -> 0 < b < 2 ^ 64) -> 0 < a < 2 ^ 64 -> m !! a = None -> Z.of_nat (size m) <= 2 ^ 64 - 2.
Proof.
  intros Hm Ha Hn. pose proof (addresses_bound (a :: elements (dom m))) as H. simpl in H. rewrite <- size_dom. unfold size, set_size. simpl.
  assert (Z.of_nat (S (length (elements (dom m)))) <= 2 ^ 64 - 1); [|lia]. apply H.
  - constructor; [rewrite elem_of_elements; by apply not_elem_of_dom|apply NoDup_elements].
  - intros x [->|Hx]%elem_of_cons; [done|]. apply Hm. by rewrite elem_of_elements, elem_of_dom in Hx.
Qed.

(** Identifiers in the order in which they are tried. *)
Definition nth_id (start : Z) (j : Z) : Z := (start - 1 + j) mod (2 ^ 64 - 1) + 1.

Lemma nth_id_next start j : 0 <= j ->
  (let next := nth_id start j +w 1 in if next =? 0 then 1 else next) = nth_id start (j + 1).
Proof.
  intros Hj. unfold nth_id. set (x := start - 1 + j). replace (start - 1 + (j + 1)) with (x + 1) by lia.
  cbv zeta. rewrite <- (Zplus_mod_idemp_l x 1). pose proof (Z.mod_pos_bound x (2 ^ 64 - 1) ltac:(lia)) as Hb.
  revert Hb. generalize (x mod (2 ^ 64 - 1)). intros y Hb. unfold u64. destruct (Z.eq_dec y (2 ^ 64 - 2)) as [->|E]; [reflexivity|].
  rewrite (Z.mod_small (y + 1 + 1)), (Z.mod_small (y + 1)) by lia. replace (y + 1 + 1 =? 0) with false by lia. done.
Qed.

Lemma nth_id_inj start i j : 0 <= i < 2 ^ 64 - 1 -> 0 <= j < 2 ^ 64 - 1 -> nth_id start i = nth_id start j -> i = j.
Proof.
  intros Hi Hj. unfold nth_id. intros H. assert ((start - 1 + i) mod (2 ^ 64 - 1) = (start - 1 + j) mod (2 ^ 64 - 1)) as E by lia.
  pose proof (Z.div_mod (start - 1 + i) (2 ^ 64 - 1) ltac:(lia)) as D1. pose proof (Z.div_mod (start - 1 + j) (2 ^ 64 - 1) ltac:(lia)) as D2.
  rewrite E in D1. assert ((start - 1 + i) / (2 ^ 64 - 1) = (start - 1 + j) / (2 ^ 64 - 1)) by nia. lia.
Qed.

Lemma nth_id_range start j : 0 < nth_id start j < 2 ^ 64.
Proof. unfold nth_id. pose proof (Z.mod_pos_bound (start - 1 + j) (2 ^ 64 - 1) ltac:(lia)). lia. Qed.

Lemma nth_id_0 start : 0 < start < 2 ^ 64 -> nth_id start 0 = start.
Proof. intros. unfold nth_id. rewrite Z.mod_small by lia. lia. Qed.

(** At most as many identifiers are taken as there are entries. *)
Lemma ids_used (G : gmap Z Z) start j : Z.of_nat j <= 2 ^ 64 - 1 -> (forall i, (i < j)%nat -> is_Some (G !! nth_id start (Z.of_nat i))) -> (j <= size G)%nat.
Proof.
  intros Hj Hused. rewrite <- size_dom. unfold size, set_size. simpl.
  assert ((fun i => nth_id start (Z.of_nat i)) <$> seq 0 j ⊆+ elements (dom G)) as H.
  { apply NoDup_submseteq.
    - apply NoDup_fmap_2_strong; [|apply NoDup_seq]. intros i k Hi%elem_of_seq Hk%elem_of_seq E. apply nth_id_inj in E; lia.
    - intros x (i & -> & Hi%elem_of_seq)%list_elem_of_fmap. rewrite elem_of_elements, elem_of_dom. apply Hused. lia. }
  apply submseteq_length in H. by rewrite length_fmap, length_seq in H.
Qed.

Lemma take_id_ok D (G : gmap Z Z) start : 0 < start < 2 ^ 64 -> Z.of_nat (size G) <= 2 ^ 64 - 2 -> (forall id a, G !! id = Some a -> a <> 0) ->
  forall fuel j s, models D (open_files s) (umap G) -> (size G < fuel + j)%nat -> Z.of_nat j <= 2 ^ 64 - 1 ->
  (forall i, (i < j)%nat -> is_Some (G !! nth_id start (Z.of_nat i))) -> next_open_id s = nth_id start (Z.of_nat j) ->
  exists id next, take_open_id fuel start s = Some (id, set_next_open next s) /\ 0 < id < 2 ^ 64 /\ G !! id = None /\ 0 < next < 2 ^ 64.
Proof.
  intros Hst Hsz Hnz. induction fuel as [|fuel IH]; intros j s Hm Hf Hj Hused Hnext; pose proof (ids_used G start j Hj Hused) as Hle; [lia|].
  cbn [take_open_id]. rewrite Hnext, nth_id_next by lia. unfold bunix_u64_tree_get. cbn [open_files set_next_open].
  rewrite (get_ok _ _ _ _ Hm), umap_lookup. set (id := nth_id start (Z.of_nat j)).
  destruct (G !! id) as [a|] eqn:Hid; simpl.
  - pose proof (Hnz id a Hid). decide_tests. simpl.
    assert (forall i, (i < S j)%nat -> is_Some (G !! nth_id start (Z.of_nat i))) as Hused'.
    { intros i Hi. destruct (decide (i = j)) as [->|]; [by eexists|]. apply Hused. lia. }
    pose proof (ids_used G start (S j) ltac:(lia) Hused') as Hle'.
    assert (nth_id start (Z.of_nat j + 1) <> start) as Hne.
    { intros E. rewrite <- (nth_id_0 start Hst) in E at 2. apply nth_id_inj in E; lia. }
    decide_tests. replace (Z.of_nat j + 1) with (Z.of_nat (S j)) by lia.
    destruct (IH (S j) (set_next_open (nth_id start (Z.of_nat (S j))) s)) as (id' & next & H1 & H2); [done|lia|lia|done|done|].
    exists id', next. by rewrite H1.
  - eexists id, _. split; [done|]. split; [apply nth_id_range|]. split; [done|]. apply nth_id_range.
Qed.

Lemma ids_size X g s : inv X g s -> (size (go g) <= size (opens s))%nat.
Proof.
  intros Hinv. rewrite <- length_map_to_list, <- (size_dom (opens s)). unfold size, set_size. simpl. rewrite <- (length_fmap snd).
  apply submseteq_length, NoDup_submseteq.
  - apply NoDup_fmap_2_strong; [|apply NoDup_map_to_list]. intros [i a] [j b] Hi%elem_of_map_to_list Hj%elem_of_map_to_list. simpl. intros ->.
    apply (iv_open _ _ _ Hinv) in Hi as (o & Ho & <-), Hj as (o' & Ho' & <-). rewrite Ho in Ho'. by injection Ho' as <-.
  - intros a ([i b] & -> & (o & Ho & _)%elem_of_map_to_list%(iv_open _ _ _ Hinv))%list_elem_of_fmap. rewrite elem_of_elements, elem_of_dom. simpl. eauto.
Qed.

Lemma opens_bound X g s op : inv X g s -> fresh_at op s -> Z.of_nat (size (opens s)) <= 2 ^ 64 - 2.
Proof.
  intros Hinv []. unfold in_u64 in *. apply (dom_bound _ op); [|lia|done]. intros b Hb.
  assert (b <> 0) by (destruct (iv_null _ _ _ Hinv) as (_ & _ & N & _); intros ->; rewrite N in Hb; by destruct Hb).
  pose proof (models_range _ _ _ b (iv_opens _ _ _ Hinv)) as Hr. rewrite elem_of_dom in Hr. specialize (Hr Hb). unfold in_u64 in Hr. lia.
Qed.

Lemma register_ok g s0 s op o : inv ∅ g s0 -> opens s = opens s0 -> open_files s = open_files s0 -> next_open_id s = next_open_id s0 ->
  fresh_at op s0 -> (forall id, o_id (o id) = id) ->
  exists id next t', register_open op o s = Some (id, set_opens (<[op := o id]> (opens s)) t' (set_next_open next s)) /\
    0 < id < 2 ^ 64 /\ go g !! id = None /\ 0 < next < 2 ^ 64 /\ models (dom (<[op := o id]> (opens s))) t' (umap (<[id := op]> (go g))).
Proof.
  intros Hinv E1 E2 E3 Hfr Ho. pose proof Hfr as [Hop0 Hopr _ _ _ Hopn _]. destruct (iv_next _ _ _ Hinv) as [Hn _].
  pose proof (ids_size _ _ _ Hinv) as Hsz. pose proof (opens_bound _ _ _ op Hinv Hfr) as Hb.
  assert (forall id a, go g !! id = Some a -> a <> 0) as Hnz.
  { intros id a (o' & Ho' & _)%(iv_open _ _ _ Hinv) ->. destruct (iv_null _ _ _ Hinv) as (_ & _ & N & _). congruence. }
  unfold register_open. set (s1 := set_opens _ _ s).
  assert (models (dom (opens s1)) (open_files s1) (umap (go g))) as Hm.
  { simpl. rewrite dom_insert_L, (union_comm_L {[op]}), E1, E2. apply add_node_models; [apply (iv_opens _ _ _ Hinv)| |done]. by apply not_elem_of_dom. }
  destruct (take_id_ok (dom (opens s1)) (go g) (next_open_id s1)) with (fuel := S (size (opens s1))) (j := O) (s := s1)
    as (id & next & Hid & Hir & Hnone & Hnext); [by simpl; rewrite E3|lia|done|done| |lia|lia| |].
  { simpl. rewrite E1, map_size_insert_None by done. lia. }
  { rewrite nth_id_0; [done|]. simpl. by rewrite E3. }
  rewrite Hid. simpl. replace (id =? 0) with false by lia. rewrite insert_insert_eq.
  simpl in Hm. destruct (id_insert_ok (dom (<[op := o id]> (opens s))) (add_node op (open_files s)) (go g) op id) as (t' & Hins & Hmod).
  - rewrite dom_insert_L in *. done.
  - rewrite dom_insert_L. set_solver.
  - done.
  - lia.
  - intros q (o' & Ho' & _)%(iv_open _ _ _ Hinv). congruence.
  - done.
  - rewrite Hins. simpl. exists id, next, t'. split; [done|]. done.
Qed.

Lemma opens_of_insert a op o O : O !! op = None -> opens_of a (<[op := o]> O) = (if is_file o && (o_file o =? a) then 1 else 0) + opens_of a O.
Proof. intros H. unfold opens_of. by rewrite msum_insert. Qed.

Lemma opens_of_delete a op o O : O !! op = Some o -> opens_of a O = (if is_file o && (o_file o =? a) then 1 else 0) + opens_of a (delete op O).
Proof. intros H. unfold opens_of. by rewrite (msum_delete _ O op o). Qed.

Lemma add_open_inv g s op o next t' F' : inv ∅ g s -> fresh_at op s -> (String.length (o_path o) < 4096)%nat ->
  o_kind o = TMPFS_OPEN_DIR \/ o_kind o = TMPFS_OPEN_FILE /\ is_Some (files s !! o_file o) -> 0 < o_id o < 2 ^ 64 ->
  go g !! o_id o = None -> 0 < next < 2 ^ 64 -> models (dom (<[op := o]> (opens s))) t' (umap (<[o_id o := op]> (go g))) ->
  (forall a, F' !! a = (fun f => set_refs (f_refs f + if is_file o && (o_file o =? a) then 1 else 0) f) <$> files s !! a) ->
  inv ∅ (with_opens (<[o_id o := op]> (go g)) g) (set_opens (<[op := o]> (opens s)) t' (set_next_open next (set_files F' s))).
Proof.
  intros Hinv Hfr Hlen Hkind Hid Hnone Hnext Hm HF. pose proof Hfr as [Hop0 Hopr _ _ _ Hopn _]. apply inv_reopen; try done.
  - intros a. rewrite opens_of_insert, HF by done. destruct (files s !! a) as [f|] eqn:Hf; [|done]. cbn [fmap option_fmap option_map].
    destruct (iv_file _ _ _ Hinv a f Hf) as (_ & _ & ->). by rewrite Z.add_comm.
  - intros i b. destruct (decide (b = op)) as [->|Hb].
    + rewrite lookup_insert_eq. destruct (decide (i = o_id o)) as [->|]; [by rewrite lookup_insert_eq; split; eauto|].
      rewrite lookup_insert_ne, (iv_open _ _ _ Hinv) by done. split; [intros (o' & Ho' & _); congruence|intros (o' & [= <-] & <-); done].
    + rewrite (lookup_insert_ne (opens s)) by done. destruct (decide (i = o_id o)) as [->|]; [|by rewrite lookup_insert_ne, (iv_open _ _ _ Hinv)].
      rewrite lookup_insert_eq. split; [congruence|]. intros Hb'%(iv_open _ _ _ Hinv). congruence.
  - rewrite lookup_insert_ne by lia. apply (iv_id _ _ _ Hinv).
  - intros a o' [[<- <-]|[_ Ho']]%lookup_insert_Some; [done|]. by apply (iv_target _ _ _ Hinv a).
  - rewrite lookup_insert_ne by done. apply (iv_null _ _ _ Hinv).
Qed.

Lemma drop_open_inv g s op o t' F' : inv ∅ g s -> opens s !! op = Some o ->
  models (dom (opens s)) t' (umap (delete (o_id o) (go g))) ->
  (forall a, F' !! a = (fun f => set_refs (f_refs f - if is_file o && (o_file o =? a) then 1 else 0) f) <$> files s !! a) ->
  inv ∅ (with_opens (delete (o_id o) (go g)) g) (free_open op (set_opens (opens s) t' (set_files F' s))).
Proof.
  intros Hinv Ho Hm HF. assert (go g !! o_id o = Some op) as Hgo by (apply (iv_open _ _ _ Hinv); eauto).
  assert (forall i a, delete (o_id o) (go g) !! i = Some a <-> exists o', delete op (opens s) !! a = Some o' /\ o_id o' = i) as Hopen.
  { intros i b. rewrite lookup_delete_Some, (iv_open _ _ _ Hinv). split.
    - intros (Hne & o' & Ho' & <-). exists o'. split; [|done]. apply lookup_delete_Some. split; [|done]. intros <-. congruence.
    - intros (o' & [Hne Ho']%lookup_delete_Some & <-). split; [|eauto]. intros E. apply Hne.
      assert (go g !! o_id o' = Some b) by (apply (iv_open _ _ _ Hinv); eauto). congruence. }
  assert (inv ∅ (with_opens (delete (o_id o) (go g)) g)
    (set_opens (delete op (opens s)) (drop_node op t') (set_next_open (next_open_id s) (set_files F' s)))) as H; [|exact H].
  apply inv_reopen; try done.
  - intros a. rewrite HF. destruct (files s !! a) as [f|] eqn:Hf; [|done]. cbn [fmap option_fmap option_map].
    destruct (iv_file _ _ _ Hinv a f Hf) as (_ & _ & ->). rewrite (opens_of_delete a op o) by done. do 2 f_equal. lia.
  - rewrite dom_delete_L. apply drop_node_models; [done|]. intros k v. rewrite umap_lookup, fmap_Some. intros (b & Hb & [= <- _]).
    apply Hopen in Hb as (o' & Hb & _). by rewrite lookup_delete_eq in Hb.
  - rewrite lookup_delete_None. right. apply (iv_id _ _ _ Hinv).
  - intros a o' [_ Ho']%lookup_delete_Some. by apply (iv_target _ _ _ Hinv a).
  - rewrite lookup_delete_None. right. apply (iv_null _ _ _ Hinv).
  - apply (iv_next _ _ _ Hinv).
Qed.

(** ** Roots and callers *)

Definition with_groots (R : gmap string Z) (g : ghost) : ghost := mk_ghost (gp g) (gl g) R (go g) (gc g).
Definition with_gcallers (C : gmap Z Z) (g : ghost) : ghost := mk_ghost (gp g) (gl g) (gr g) (go g) C.

Lemma inv_roots X g s R t' rp : inv X g s -> models (dom rp) t' (tmap R) -> (forall p a, R !! p = Some a <-> rp !! a = Some p) -> rp !! 0 = None ->
  inv X (with_groots R g) (set_roots t' rp s).
Proof. intros [] Hm Hr H0. constructor; simpl; try done. destruct iv_null0 as (? & ? & ? & _). done. Qed.

Lemma inv_callers X g s C t' gr' : inv X g s -> models (dom (heap t')) t' (umap C) -> C !! 0 = None ->
  inv X (with_gcallers C g) (set_callers t' (set_grantor gr' s)).
Proof. intros [] Hm H0. constructor; simpl; done. Qed.

Lemma inv_grantor X g s gr' : inv X g s -> inv X g (set_grantor gr' s).
Proof. intros []. by constructor. Qed.
