(* ===== verification/TmpfsOps.v ===== *)
(** * The operations of the memory file system as changes of maps

    [abs] reads a file system of [TmpfsSpec] off a state of [Tmpfs].  The
    functions below the requests, creating, removing, linking, resizing,
    opening, closing, mounting and granting, change it as [TmpfsSpec] says. *)
From stdpp Require Import gmap list strings.
From Stdlib Require Import ZArith Lia ZifyBool Ascii.
From S2P Require Import Prelude Tree Buffer Dll Tmpfs TmpfsSpec TmpfsInv.

Open Scope Z_scope.
Open Scope machine_scope.

(** ** The abstraction *)

Definition node_of (n : tmpfs_inode) : anode :=
  mk_anode (take (Z.to_nat (i_size n)) (default [] (i_data n))) (i_type n) (i_ino n) (i_mode n) (i_uid n) (i_gid n)
    (i_atime n) (i_mtime n) (i_ctime n).

Definition inode_at (s : tmpfs) (a : Z) : Z := default 0 (f_inode <$> files s !! a).
Definition path_at (s : tmpfs) (a : Z) : string := default EmptyString (f_path <$> files s !! a).

Definition handle_of (s : tmpfs) (o : tmpfs_open) : ahandle :=
  if is_file o then AFile (o_owner o) (path_at s (o_file o)) else ADir (o_owner o) (o_path o).
Definition handle_at (s : tmpfs) (a : Z) : ahandle := default (ADir 0 EmptyString) (handle_of s <$> opens s !! a).

Definition abs (g : ghost) (s : tmpfs) : afs :=
  mk_afs (inode_at s <$> gp g) (path_at s <$> gl g) (node_of <$> inodes s) (handle_at s <$> go g)
    (dom (gr g)) (dom (gc g)) (vfs_caller_grantor s) (next_inode_id s).

Lemma abs_alloc g s l : abs g (set_alloc l s) = abs g s.
Proof. done. Qed.

Lemma abs_relinked g s s' : relinked s s' -> abs g s' = abs g s.
Proof.
  intros [Hal ->]. unfold abs. simpl.
  assert (forall F x t a, alike (files s) F -> inode_at (set_head x (set_files F (set_tree t s))) a = inode_at s a /\
    path_at (set_head x (set_files F (set_tree t s))) a = path_at s a) as Hat.
  { intros F x t a H. unfold inode_at, path_at. simpl. specialize (H a). destruct (files s !! a), (F !! a); simpl in *; try done.
    apply (inj Some), strip_parts in H as (-> & _ & _ & ->). done. }
  f_equal.
  - apply map_fmap_ext. intros p a _. by apply Hat.
  - apply list_fmap_ext. intros i a _. by apply Hat.
  - apply map_fmap_ext. intros id a _. unfold handle_at, handle_of. simpl. destruct (opens s !! a) as [o|]; simpl; [|done].
    destruct (is_file o); [|done]. f_equal. by apply Hat.
Qed.

Section Lookups.
Context (g : ghost) (s : tmpfs) (Hinv : inv ∅ g s).

Lemma path_at_entry p a : gp g !! p = Some a -> path_at s a = p.
Proof. intros (f & Hf & <- & _)%(iv_path _ _ _ Hinv). unfold path_at. by rewrite Hf. Qed.

Lemma abs_links_lookup p : a_links (abs g s) !! p = inode_at s <$> gp g !! p.
Proof. simpl. by rewrite lookup_fmap. Qed.

Lemma abs_node p : a_node (abs g s) p = node_of <$> g_node g s p.
Proof.
  unfold a_node, g_node. rewrite abs_links_lookup. destruct (gp g !! p) as [a|] eqn:Hp; simpl; [|done].
  destruct (inode_of_ok ∅ g s Hinv p a Hp) as (f & n & Hf & _ & Hn & ->). unfold inode_at. rewrite Hf. simpl. by rewrite lookup_fmap, Hn.
Qed.

Lemma abs_is_root p : a_is_root (abs g s) p = g_is_root g p.
Proof. unfold a_is_root, g_is_root. f_equal. apply bool_decide_ext. simpl. by rewrite elem_of_dom. Qed.

Lemma abs_parent p : a_parent (abs g s) p = node_of <$> g_parent g s p.
Proof.
  unfold a_parent, g_parent. destruct (path_parent_path p) as [q|]; simpl; [|done]. rewrite abs_is_root. destruct (g_is_root g q); [done|].
  apply abs_node.
Qed.

Lemma abs_access e task n mask : a_access e task (node_of <$> n) mask = may_access e task n mask.
Proof. by destruct n. Qed.
End Lookups.

(** ** Creating *)

(** The state after an entry has been added for a new inode, before it is
    linked in. *)
Definition made (a i : Z) (path : string) (n : tmpfs_inode) (next : Z) (s : tmpfs) : tmpfs :=
  set_inodes (<[i := n]> (inodes s)) (set_next_inode next
    (set_tree (add_node a (files_by_path s)) (set_files (<[a := mk_file 0 0 path 0 false true i]> (files s)) s))).

Lemma abs_made g s a i path n next : inv ∅ g s -> files s !! a = None ->
  abs (with_paths (<[path := a]> (gp g)) (a :: gl g) g) (made a i path n next s) =
  with_next_ino next (a_link path i (a_put i (node_of n) (abs g s))).
Proof.
  intros Hinv Ha. unfold abs, a_link, a_put, with_next_ino, with_links, with_nodes. simpl.
  assert (forall b, b <> a -> inode_at (made a i path n next s) b = inode_at s b /\ path_at (made a i path n next s) b = path_at s b) as Hother.
  { intros b Hb. unfold inode_at, path_at. simpl. by rewrite lookup_insert_ne. }
  assert (inode_at (made a i path n next s) a = i /\ path_at (made a i path n next s) a = path) as [Hi Hp].
  { unfold inode_at, path_at. simpl. by rewrite lookup_insert_eq. }
  f_equal.
  - rewrite fmap_insert, Hi. f_equal. apply map_fmap_ext. intros p b (f & Hf & _)%(iv_path _ _ _ Hinv). apply Hother. congruence.
  - rewrite Hp. f_equal. apply list_fmap_ext. intros k b Hb. apply Hother. apply list_elem_of_lookup_2, (iv_in _ _ _ Hinv) in Hb as [[? ?] _].
    congruence.
  - by rewrite fmap_insert.
  - apply map_fmap_ext. intros id b (o & Ho & _)%(iv_open _ _ _ Hinv). unfold handle_at, handle_of. simpl. rewrite Ho. simpl.
    destruct (is_file o) eqn:Ef; [|done]. f_equal. apply Hother. destruct (iv_target _ _ _ Hinv b o Ho) as (_ & [Hk|[_ [? ?]]]); [|congruence].
    unfold is_file in Ef. by rewrite Hk in Ef.
Qed.

Lemma attach_made g s a i path n next l : inv {[a]} g (set_tree (add_node a (files_by_path s)) (set_files (<[a := mk_file 0 0 path 0 false true 0]> (files s)) (set_alloc l s))) ->
  files s !! a = None -> i <> 0 -> inode_ok n -> i_refs n = links_to i (files s) + 1 -> 0 < i_refs n -> in_u64 next -> gp g !! path = None -> forall l',
  exists s', files_insert_file a (made a i path n next (set_alloc l' s)) = Some (0, s') /\ relinked (made a i path n next (set_alloc l' s)) s' /\
    inv ∅ (with_paths (<[path := a]> (gp g)) (a :: gl g) g) s'.
Proof.
  intros Hinv Hfa Hi0 Hok Hr Hpos Hnext Hp l'. set (f := mk_file 0 0 path 0 false true 0) in *.
  pose proof (inv_alloc _ _ _ l' Hinv) as Hinv1. apply (inv_next_inode _ _ _ next) in Hinv1; [|done].
  apply (link_entry _ _ _ a f i n) in Hinv1; [|set_solver|by simpl; rewrite lookup_insert_eq|done|done|done| |done].
  - destruct (attach_ok {[a]} g (made a i path n next (set_alloc l' s)) a (set_inode i f)) as (s' & H1 & H2 & H3).
    + simpl in Hinv1. unfold made. simpl. unfold f in Hinv1. by rewrite insert_insert_eq in Hinv1.
    + set_solver.
    + simpl. by rewrite lookup_insert_eq.
    + simpl. by rewrite lookup_insert_eq.
    + done.
    + exists s'. do 2 (split; [done|]). replace ({[a]} ∖ {[a]}) with (∅ : gset Z) in H3 by (apply set_eq; set_solver). done.
  - simpl. unfold links_to in *. rewrite msum_insert by done. cbn [f_inode f]. replace (0 =? i) with false by lia. lia.
Qed.

Lemma creatable_spec type : (negb (type =? BUNIX_VFS_TYPE_REGULAR) && negb (type =? BUNIX_VFS_TYPE_DIRECTORY) &&
     negb (type =? BUNIX_VFS_TYPE_SYMLINK) && negb (type =? BUNIX_VFS_TYPE_FIFO)) = negb (creatable type).
Proof. unfold creatable. by rewrite !negb_orb. Qed.

Lemma file_create_ok e g s path mode type task : inv ∅ g s -> (String.length path < 4096)%nat ->
  exists file st s' g' mem, file_create e path mode type task s = Some (file, st, s') /\ inv ∅ g' s' /\
    a_create e path mode type task mem (abs g s) st (abs g' s') /\ (mem = false -> ~ plenty 2 s) /\
    (forall n, plenty (2 + n) s -> plenty n s') /\
    (file = 0 /\ st <> 0 /\ g' = g \/
     file <> 0 /\ st = 0 /\ g' = with_paths (<[path := file]> (gp g)) (file :: gl g) g /\
     (exists n, inode_of file s' = Some n /\ i_data n = None) /\ opens_of file (opens s') = 0).
Proof.
  intros Hinv Hlen. unfold file_create. rewrite (path_parent_exists_ok ∅ g s Hinv) by done. simpl.
  assert (forall n, plenty (2 + n) s -> plenty n s) as Hkeep by (intros n; apply plenty_le; lia).
  destruct (g_parent g s path) as [pn|] eqn:Hpar; cycle 1.
  { simpl. eexists 0, _, s, g, true. split; [done|]. split; [done|]. split; [|split; [done|split; [done|by left]]].
    apply create_no_parent. intros n. by rewrite (abs_parent g s Hinv), Hpar. }
  assert (a_parent (abs g s) path = Some (node_of pn)) as Hap by (by rewrite (abs_parent g s Hinv), Hpar).
  destruct (i_type pn =? BUNIX_VFS_TYPE_DIRECTORY) eqn:Hdir; cycle 1.
  { simpl. eexists 0, _, s, g, true. split; [done|]. split; [done|]. split; [|split; [done|split; [done|by left]]].
    apply create_no_parent. intros n. rewrite Hap. by intros [= <-]. }
  simpl. rewrite (file_find_ok ∅ g s Hinv). simpl. destruct (gp g !! path) as [b|] eqn:Hp.
  { simpl. destruct (entry_live ∅ g s Hinv path b Hp) as (_ & _ & _ & _ & _ & Hb0 & _). decide_tests. simpl.
    eexists 0, _, s, g, true. split; [done|]. split; [done|]. split; [|split; [done|split; [done|by left]]].
    eapply create_exists; [done|done|]. rewrite abs_links_lookup, Hp. by eexists. }
  assert (a_links (abs g s) !! path = None) as Hal by (by rewrite abs_links_lookup, Hp).
  simpl. rewrite creatable_spec. destruct (creatable type) eqn:Hty; simpl; cycle 1.
  { eexists 0, _, s, g, true. split; [done|]. split; [done|]. split; [|split; [done|split; [done|by left]]]. by eapply create_bad_type. }
  destruct (entry_alloc_ok g s path Hinv Hlen) as (a & s1 & -> & [(-> & [l ->] & Hno)|(Hfr & Hinv1 & Hpl & [l Hs1] & Hfree)]).
  { simpl. eexists 0, _, _, g, false. split; [done|]. split; [by apply inv_alloc|]. split; [by eapply create_no_memory|].
    split; [intros _ H; by apply Hno; eapply plenty_le; [|done]; lia|]. split; [|by left].
    intros n H. destruct Hno. eapply plenty_le; [|done]. lia. }
  pose proof (fr_null _ _ Hfr) as Ha0. decide_tests. destruct (talloc_ok s1) as (l2 & Hs2 & Hcase). destruct (talloc s1) as [i s2]. simpl in *. subst s2.
  destruct Hcase as [[-> Hno]|[Hfi Hpl2]].
  { simpl. destruct (Hfree l2) as [l' ->]. eexists 0, _, _, g, false. split; [done|]. split; [by apply inv_alloc|].
    split; [by eapply create_no_memory|]. split; [intros _ H; by apply Hno, Hpl|]. split; [|by left].
    intros n H. destruct Hno. apply Hpl. eapply plenty_le; [|done]. lia. }
  pose proof (fr_null _ _ Hfi) as Hi0. decide_tests. 
  assert (take_ino (set_alloc l2 s1) = ((a_take_ino (abs g s)).1, set_next_inode (a_take_ino (abs g s)).2 (set_alloc l2 s1))) as ->.
  { unfold take_ino, a_take_ino. subst s1. simpl. by destruct (next_inode_id s =? 0). }
  destruct (a_take_ino (abs g s)) as [ino next] eqn:Hino. simpl. destruct (credential e task) as [uid gid] eqn:Hcr.
  set (n := mk_inode None 0 0 1 ino (u32 type) (Z.land mode 511) (u32 uid) (u32 gid) 0 0 0).
  assert (in_u64 next) as Hnext.
  { unfold a_take_ino in Hino. destruct (_ =? 0); injection Hino as <- <-; [unfold in_u64; lia|apply u64_range]. }
  assert (inodes s !! i = None) as Hin by (subst s1; apply (fr_inode _ _ Hfi)).
  rewrite Hs1 in Hinv1. destruct (attach_made g s a i path n next l Hinv1 (fr_file _ _ Hfr) Hi0) with (l' := l2) as (s' & Hins & Hrel & Hinv2); try done.
  { by rewrite (links_to_zero _ _ _ i Hinv Hi0 Hin). }
  match goal with |- context [files_insert_file a ?x] => replace x with (made a i path n next (set_alloc l2 s)) end; cycle 1.
  { subst s1. apply tmpfs_ext; try done. simpl. by rewrite alter_insert_eq. }
  rewrite Hins. simpl. exists a, 0, s'. eexists _, true. split; [done|]. split; [done|]. split; [|split; [done|split]].
  - rewrite (abs_relinked _ _ _ Hrel), (abs_made g (set_alloc l2 s)), abs_alloc; [|by apply inv_alloc|by apply (fr_file _ _ Hfr)].
    assert (a_create_at e path mode type task i (abs g s) = with_next_ino next (a_link path i (a_put i (node_of n) (abs g s)))) as <-.
    { unfold a_create_at. rewrite Hino. unfold new_node. by rewrite Hcr. }
    eapply create_done; try done. simpl. by rewrite lookup_fmap, Hin.
  - intros k Hk. apply (Hpl2 k); [by apply Hpl| |].
    + destruct Hrel as [_ ->]. done.
    + intros b Hb Hbf. assert (b <> a) as Hba. { intros ->. destruct Hbf as [_ _ _ Hbf _ _ _]. subst s1. simpl in Hbf. by rewrite lookup_insert_eq in Hbf. }
      subst s1. destruct Hbf, Hrel as [Hal2 ->]. constructor; simpl in *; try done; [by rewrite lookup_insert_ne|].
      destruct (files s' !! b) eqn:E; [|done]. specialize (Hal2 b). rewrite E in Hal2. simpl in Hal2. rewrite lookup_insert_ne in Hal2, fr_file by done.
      by rewrite fr_file in Hal2.
  - right. do 3 (split; [done|]). pose proof Hrel as [Hal2 _].
    destruct (alike_lookup _ _ a (mk_file 0 0 path 0 false true i) Hal2) as (f' & Hf' & _ & Hrf & _ & Hfi'); [simpl; by rewrite lookup_insert_eq|].
    split; [exists n; split; [|done]; unfold inode_of; rewrite Hf'; simpl; rewrite Hfi'; destruct Hrel as [_ ->]; simpl; by rewrite lookup_insert_eq|].
    by destruct (iv_file _ _ _ Hinv2 a f' Hf') as (_ & _ & <-).
Qed.

(** ** Counting links *)

Lemma count_links (h : Z -> Z) i F : forall P : gmap string Z,
  (forall p a, P !! p = Some a <-> exists f, F !! a = Some f /\ f_path f = p) -> (forall a f, F !! a = Some f -> h a = f_inode f) ->
  Z.of_nat (size (filter (fun x => x.2 = i) (h <$> P))) = links_to i F.
Proof.
  unfold links_to. induction F as [|a f F Ha IH] using map_ind; intros P HP Hh.
  { assert (P = ∅) as ->; [|by rewrite fmap_empty, map_filter_empty, map_size_empty]. apply map_empty. intros p. apply eq_None_not_Some.
    intros [a (f & Hf & _)%HP]. done. }
  rewrite msum_insert by done. assert (P !! f_path f = Some a) as Hp by (apply HP; exists f; by rewrite lookup_insert_eq).
  rewrite <- (insert_delete_id P (f_path f) a Hp), fmap_insert. assert (h a = f_inode f) as -> by (apply Hh; by rewrite lookup_insert_eq).
  assert ((h <$> delete (f_path f) P) !! f_path f = None) as Hnone by (by rewrite lookup_fmap, lookup_delete_eq).
  rewrite <- (IH (delete (f_path f) P)).
  - destruct (Z.eqb_spec (f_inode f) i) as [Hi|Hi].
    + rewrite map_filter_insert_True by done. rewrite map_size_insert_None; [lia|]. apply map_lookup_filter_None. by left.
    + rewrite map_filter_insert_False, delete_id by done. lia.
  - intros p b. rewrite lookup_delete_Some, HP. split.
    + intros (Hne & fb & [[<- <-]|[Hb Hfb]]%lookup_insert_Some & <-); [done|eauto].
    + intros (fb & Hfb & <-). assert (b <> a) by congruence. split; [|exists fb; by rewrite lookup_insert_ne].
      intros E. assert (P !! f_path fb = Some b) as Hb by (apply HP; exists fb; by rewrite lookup_insert_ne). congruence.
  - intros b fb Hfb. apply Hh. rewrite lookup_insert_ne; [done|congruence].
Qed.

Lemma abs_nlink g s i : inv ∅ g s -> a_nlink (abs g s) i = links_to i (files s).
Proof.
  intros Hinv. apply count_links.
  - intros p a. rewrite (iv_path _ _ _ Hinv). split; [intros (f & ? & ? & _)|intros (f & ? & ?)]; exists f; set_solver.
  - intros a f Hf. unfold inode_at. by rewrite Hf.
Qed.

Lemma abs_nlink_refs g s i n : inv ∅ g s -> inodes s !! i = Some n -> a_nlink (abs g s) i = i_refs n.
Proof. intros Hinv Hn. rewrite abs_nlink by done. by destruct (iv_inode _ _ _ Hinv i n Hn) as (_ & -> & _). Qed.

Lemma links_nonneg i F : 0 <= links_to i F.
Proof. apply msum_nonneg. intros k f _. by destruct (f_inode f =? i). Qed.

(** ** Removing *)

Lemma abs_without g s p a s' : inv ∅ g s -> gp g !! p = Some a -> (forall b, b <> a -> path_at s' b = path_at s b) ->
  path_at s' <$> without a (gl g) = filter (.≠ p) (path_at s <$> gl g).
Proof.
  intros Hinv Hp Hother. unfold without.
  assert (forall b, b ∈ gl g -> b <> a -> path_at s b <> p) as Hne.
  { intros b ([f Hf] & HX)%(iv_in _ _ _ Hinv) Hb E. unfold path_at in E. rewrite Hf in E. simpl in E.
    apply (entry_of_file ∅ g s Hinv) in Hf; [|done]. congruence. }
  assert (path_at s a = p) as Ha by (by apply (path_at_entry g s Hinv)). revert Hne. generalize (gl g). intros l Hne.
  induction l as [|b l IH]; [done|]. simpl. rewrite !filter_cons. destruct (decide (b = a)) as [->|Hb].
  - rewrite decide_False, decide_False by (intros H; by apply H). apply IH. set_solver.
  - rewrite decide_True, decide_True by (try done; apply Hne; set_solver). simpl. rewrite Hother by done. f_equal. apply IH. set_solver.
Qed.

Lemma unlink_file_ok g s p a : inv ∅ g s -> gp g !! p = Some a -> opens_of a (opens s) = 0 ->
  exists s', file_unlink a s = Some s' /\ inv ∅ (with_paths (delete p (gp g)) (without a (gl g)) g) s' /\
    abs (with_paths (delete p (gp g)) (without a (gl g)) g) s' = a_unlink p (abs g s) /\ (forall n, plenty n s -> plenty n s').
Proof.
  intros Hinv Hp Hop. destruct (entry_live ∅ g s Hinv p a Hp) as (f & n & Hf & Hfp & _ & Ha0 & _ & Hn & Hi0).
  destruct (file_unlink_ok g s p a f Hinv Hp Hf) as (s1 & Hrel & Hul & Hinv').
  { destruct (iv_file _ _ _ Hinv a f Hf) as (_ & _ & ->). done. }
  eexists. split; [done|]. split; [done|]. set (g' := with_paths _ _ _) in *. set (s' := free_file _ _) in *.
  pose proof (relinked_fields _ _ Hrel) as (_ & E1 & E2 & E3 & E4 & E5 & E6 & E7 & E8 & E9).
  assert (forall b, b <> a -> inode_at s' b = inode_at s b /\ path_at s' b = path_at s b) as Hother.
  { destruct Hrel as [Hal _]. intros b Hb. unfold inode_at, path_at. simpl. rewrite lookup_delete_ne by done. specialize (Hal b).
    destruct (files s !! b), (files s1 !! b); simpl in *; try done. apply (inj Some), strip_parts in Hal as (-> & _ & _ & ->). done. }
  split; cycle 1.
  { intros k. apply plenty_mono; [done|]. intros b Hb. pose proof (relinked_fresh _ _ b Hrel Hb) as []. destruct Hb.
    constructor; simpl; try done; [|by rewrite lookup_delete_None; right]. unfold release_link. rewrite Hn.
    destruct (i_refs n =? 1); [by rewrite lookup_delete_None; right|]. rewrite lookup_insert_ne; [done|congruence]. }
  assert (a_links (abs g s) !! p = Some (f_inode f)) as Hlk by (rewrite abs_links_lookup, Hp; simpl; unfold inode_at; by rewrite Hf).
  unfold a_unlink. rewrite Hlk. set (A' := with_links _ _ _).
  assert (abs g' s' = with_nodes (node_of <$> inodes s') A') as Habs.
  { unfold abs, A', with_links, with_nodes. simpl. rewrite E7, E8. f_equal.
    - rewrite <- fmap_delete. apply map_fmap_ext. intros q b [Hq Hb]%lookup_delete_Some. apply Hother. intros ->.
      apply Hq. by apply (entry_inj ∅ g s Hinv p q a).
    - apply abs_without; [done|done|]. intros b Hb. by apply Hother.
    - apply map_fmap_ext. intros id b (o & Ho & _)%(iv_open _ _ _ Hinv). unfold handle_at, handle_of. simpl. rewrite E3, Ho. simpl.
      destruct (is_file o) eqn:Ef; [|done]. f_equal. apply Hother. by apply opens_of_zero with (1 := Hop) (k := b). }
  assert (a_nlink A' (f_inode f) = links_to (f_inode f) (files s')) as ->.
  { rewrite <- (abs_nlink g' s') by done. unfold a_nlink. by rewrite Habs. }
  rewrite Habs. destruct (iv_inode _ _ _ Hinv (f_inode f) n Hn) as (_ & Hr & Hpos).
  assert (inodes s' = release_link (f_inode f) (inodes s)) as Hin by done. unfold release_link in Hin. rewrite Hn in Hin.
  destruct (Z.eqb_spec (i_refs n) 1) as [E|E].
  - rewrite (links_to_zero _ _ _ _ Hinv' Hi0), bool_decide_eq_true_2 by (try done; by rewrite Hin, lookup_delete_eq).
    by rewrite Hin, fmap_delete.
  - destruct (iv_inode _ _ _ Hinv' (f_inode f) (set_irefs (i_refs n - 1) n)) as (_ & H1 & H2); [by rewrite Hin, lookup_insert_eq|].
    rewrite bool_decide_eq_false_2 by lia. rewrite Hin, fmap_insert. unfold with_nodes, A', with_links. simpl. f_equal.
    apply insert_id. by rewrite lookup_fmap, Hn.
Qed.

(** ** Contents *)

Lemma grow_capacity_ok fuel : forall c size, 0 < c < 2 ^ 64 -> size <= 2 ^ 63 -> size <= c * 2 ^ (Z.of_nat fuel - 1) -> (0 < fuel)%nat ->
  exists c', grow_capacity fuel c size = Some c' /\ size <= c' < 2 ^ 64 /\ c <= c'.
Proof.
  induction fuel as [|fuel IH]; intros c size Hc Hs Hf H0; [lia|]. simpl grow_capacity. destruct (Z.ltb_spec c size) as [Hlt|Hge].
  - unfold u64. rewrite Z.mod_small by lia. destruct (IH (c * 2) size) as (c' & H1 & H2 & H3); [lia|done| | |exists c'; repeat split; try done; lia].
    + destruct fuel as [|fuel]; [simpl in Hf; lia|]. replace (Z.of_nat (S (S fuel)) - 1) with (Z.of_nat (S fuel) - 1 + 1) in Hf by lia.
      rewrite Z.pow_add_r in Hf by lia. lia.
    + destruct fuel; [simpl in Hf; lia|lia].
  - exists c. repeat split; try done; lia.
Qed.

#[local] Arguments grow_capacity : simpl never.
#[local] Arguments Z.to_nat : simpl never.

(** The entry at a path with its inode. *)
Lemma entry_ok g s p a : inv ∅ g s -> gp g !! p = Some a -> exists f n, a <> 0 /\ files s !! a = Some f /\ f_path f = p /\
  f_deleted f = false /\ f_inode f <> 0 /\ inodes s !! f_inode f = Some n /\ inode_of a s = Some n /\ inode_ok n /\
  a_links (abs g s) !! p = Some (f_inode f) /\ a_nodes (abs g s) !! f_inode f = Some (node_of n) /\ file_is_valid a s = Some true /\
  g_node g s p = Some n.
Proof.
  intros Hinv Hp. destruct (entry_live ∅ g s Hinv p a Hp) as (f & n & Hf & Hfp & HX & Ha0 & Hd & Hn & Hi0). exists f, n.
  split; [done|]. do 5 (split; [done|]). assert (inode_of a s = Some n) as Hio by (unfold inode_of; by rewrite Hf). split; [done|].
  split; [by apply (iv_inode _ _ _ Hinv _ n Hn)|]. split; [rewrite abs_links_lookup, Hp; simpl; unfold inode_at; by rewrite Hf|].
  split; [simpl; by rewrite lookup_fmap, Hn|]. split; [by apply (valid_ok ∅ g s Hinv a f)|]. unfold g_node. by rewrite Hp.
Qed.

(** A change of one inode. *)
Lemma put_ok g s i n n' : inv ∅ g s -> inodes s !! i = Some n -> inode_ok n' -> i_refs n' = i_refs n ->
  let s' := set_inodes (<[i := n']> (inodes s)) s in
  inv ∅ g s' /\ abs g s' = a_put i (node_of n') (abs g s) /\ (forall k, plenty k s -> plenty k s').
Proof.
  intros Hinv Hn Hok Hr. split; [by eapply inv_put|]. split; [unfold abs, a_put, with_nodes; simpl; by rewrite fmap_insert|].
  intros k. apply plenty_mono; [done|]. intros b []. constructor; simpl; try done. rewrite lookup_insert_ne; [done|congruence].
Qed.

Lemma resize_ok g s p a f n size : inv ∅ g s -> gp g !! p = Some a -> files s !! a = Some f -> inodes s !! f_inode f = Some n -> 0 <= size <= 2 ^ 63 ->
  exists rc s', file_resize a size s = Some (rc, s') /\
    (rc = -1 /\ (exists l, s' = set_alloc l s) /\ ~ plenty 1 s \/
     rc = 0 /\ exists l n', s' = set_inodes (<[f_inode f := n']> (inodes s)) (set_alloc l s) /\ inode_ok n' /\ i_refs n' = i_refs n /\
       size <= i_capacity n' /\ i_size n' = i_size n /\ node_of n' = node_of n).
Proof.
  intros Hinv Hp Hf Hn Hs. destruct (entry_ok g s p a Hinv Hp) as (f' & n' & _ & Hf' & _ & _ & _ & Hn' & _ & Hok & _ & _ & Hval & _).
  rewrite Hf in Hf'. injection Hf' as <-. rewrite Hn in Hn'. injection Hn' as <-. pose proof Hok as [Hd Hsz Hcap].
  unfold file_resize. rewrite Hval. simpl. rewrite Hf. simpl. rewrite Hn. simpl. destruct (Z.leb_spec size (i_capacity n)) as [Hle|Hgt].
  { exists 0, s. split; [done|]. right. split; [done|]. exists (t_alloc s), n. split; [|done]. apply tmpfs_ext; simpl; try done. by rewrite insert_id. }
  destruct (grow_capacity_ok 65 (if i_capacity n =? 0 then 64 else i_capacity n) size) as (c & -> & Hc & Hcc); [| | |lia|].
  { destruct (Z.eqb_spec (i_capacity n) 0); lia. }
  { lia. }
  { change (Z.of_nat 65 - 1) with 64. destruct (Z.eqb_spec (i_capacity n) 0); nia. }
  simpl. destruct (talloc_bytes_ok s) as (l & Hs' & Hcase). destruct (talloc_bytes s) as [ok s1]. simpl in *. subst s1.
  destruct Hcase as [[-> Hno]|[-> _]]; simpl; [exists (-1); eexists; split; [done|left; eauto]|].
  assert (Z.of_nat (length (default [] (i_data n))) = i_capacity n) as Hlen by (destruct (i_data n); simpl in *; lia).
  assert (i_capacity n <= c) as Hle by (destruct (Z.eqb_spec (i_capacity n) 0); lia).
  eexists 0, _. split; [done|]. right. split; [done|]. eexists l, _. split; [done|]. split; [|split; [done|split; [simpl; lia|split; [done|]]]].
  - constructor; simpl; [|lia|lia]. rewrite length_app, length_replicate. lia.
  - unfold node_of. simpl. f_equal. rewrite take_app_le by lia. done.
Qed.

Lemma resize_contents old size d : 0 <= old <= Z.of_nat (length d) -> 0 <= size <= Z.of_nat (length d) ->
  take (Z.to_nat size) (if old <? size then splice old (replicate (Z.to_nat (size - old)) 0) d else d) = a_resize size (take (Z.to_nat old) d).
Proof.
  intros Ho Hs. unfold a_resize. rewrite length_take. destruct (Z.ltb_spec old size) as [Hlt|Hge].
  - rewrite take_take. replace (Z.to_nat size `min` Z.to_nat old)%nat with (Z.to_nat old) by lia.
    unfold splice. rewrite app_assoc. rewrite take_app_le by (rewrite length_app, length_take, length_replicate; lia).
    rewrite take_ge by (rewrite length_app, length_take, length_replicate; lia). do 2 f_equal. lia.
  - rewrite take_take. replace (Z.to_nat size `min` Z.to_nat old)%nat with (Z.to_nat size) by lia.
    replace (Z.to_nat size - Z.to_nat old `min` length d)%nat with O by lia. by rewrite app_nil_r.
Qed.

Lemma set_size_ok g s p a f n size : inv ∅ g s -> gp g !! p = Some a -> files s !! a = Some f -> inodes s !! f_inode f = Some n -> 0 <= size <= 2 ^ 63 ->
  exists rc s', file_set_size a size s = Some (rc, s') /\ inv ∅ g s' /\
    (rc = -1 /\ abs g s' = abs g s /\ ~ plenty 1 s \/
     rc = 0 /\ abs g s' = a_put (f_inode f) (set_data (a_resize size (a_data (node_of n))) (node_of n)) (abs g s)).
Proof.
  intros Hinv Hp Hf Hn Hs. destruct (resize_ok g s p a f n size Hinv Hp Hf Hn Hs) as (rc & s' & Hrs & Hcase).
  assert (a <> 0) as Ha0 by (destruct (iv_null _ _ _ Hinv); congruence). unfold file_set_size. decide_tests. rewrite Hf. simpl. rewrite Hn. simpl.
  rewrite Hrs. simpl. destruct Hcase as [(-> & [l ->] & Hno)|(-> & l & n' & -> & Hok & Hr & Hcap & Hsz & Hnode)]; simpl.
  { eexists (-1), _. split; [done|]. split; [by apply inv_alloc|]. by left. }
  rewrite lookup_insert_eq. simpl. destruct Hok as [Hd Hs' Hc'].
  assert (exists d, Z.of_nat (length d) = i_capacity n' /\ default [] (i_data n') = d /\
    (if i_size n <? size then d0 ← i_data n'; Some (Some (splice (i_size n) (replicate (Z.to_nat (size - i_size n)) 0) d0)) else Some (i_data n')) =
    Some (if i_size n <? size then Some (splice (i_size n) (replicate (Z.to_nat (size - i_size n)) 0) d) else i_data n')) as (d & Hlen & Hdd & ->).
  { destruct (i_data n') as [d|]; [exists d; by destruct (i_size n <? size)|]. exists []. rewrite Hd. split; [done|]. split; [done|].
    destruct (Z.ltb_spec (i_size n) size); [lia|done]. }
  simpl. rewrite insert_insert_eq. set (n2 := set_contents _ _ _ _).
  assert (inode_ok n2) as Hok2.
  { constructor; simpl; [|lia|done]. destruct (i_size n <? size); [|done]. rewrite splice_length; [done|lia|]. rewrite length_replicate. lia. }
  destruct (put_ok g (set_alloc l s) (f_inode f) n n2 (inv_alloc _ _ _ l Hinv) Hn Hok2 Hr) as (H1 & H2 & _).
  eexists 0, _. split; [done|]. split; [exact H1|]. right. split; [done|]. etransitivity; [exact H2|]. rewrite abs_alloc. f_equal.
  unfold node_of, set_data in *. simpl in *. injection Hnode as E1 E2 E3 E4 E5 E6 E7 E8 E9. rewrite <- E1, E2, E3, E4, E5, E6, E7, E8, E9. f_equal.
  rewrite Hdd, Hsz. rewrite <- (resize_contents (i_size n) size d) by lia. destruct (i_size n <? size); [done|]. by rewrite Hdd.
Qed.

(** Writing a part of a block. *)
Lemma write_contents d size off src newsize : 0 <= size <= Z.of_nat (length d) -> 0 <= off -> off + Z.of_nat (length src) <= Z.of_nat (length d) ->
  newsize = size \/ newsize = Z.max size (off + Z.of_nat (length src)) ->
  exists gap, length gap = Z.to_nat (off - size) /\
    take (Z.to_nat newsize) (splice off src d) = take (Z.to_nat newsize) (a_write off src gap (take (Z.to_nat size) d)) /\
    length (a_write off src gap (take (Z.to_nat size) d)) = Z.to_nat (Z.max size (off + Z.of_nat (length src))).
Proof.
  intros Hs Ho Hl Hn. exists (take (Z.to_nat (off - size)) (drop (Z.to_nat size) d)). split; [rewrite length_take, length_drop; lia|].
  unfold a_write. rewrite take_take_drop.
  assert (take (Z.to_nat off) (take (Z.to_nat size + Z.to_nat (off - size)) d) = take (Z.to_nat off) d) as -> by (rewrite take_take; f_equal; lia).
  split; [|rewrite !length_app, length_drop, !length_take; lia]. unfold splice. rewrite !app_assoc.
  set (X := take (Z.to_nat off) d ++ src). assert (length X = (Z.to_nat off + length src)%nat) as HX
    by (unfold X; rewrite length_app, length_take; lia).
  rewrite <- HX. rewrite !take_app. f_equal. rewrite skipn_firstn_comm, take_take. f_equal. lia.
Qed.

(** ** Open files *)

Lemma abs_reopen g s O' G' t' next F' (r : Z -> tmpfs_file -> Z) : (forall a, F' !! a = (fun f => set_refs (r a f) f) <$> files s !! a) ->
  let s' := set_opens O' t' (set_next_open next (set_files F' s)) in
  abs (with_opens G' g) s' = with_handles ((fun b => default (ADir 0 EmptyString) (handle_of s <$> O' !! b)) <$> G') (abs g s) /\
  forall a, inode_of a s' = inode_of a s.
Proof.
  intros HF. assert (forall b, inode_at (set_opens O' t' (set_next_open next (set_files F' s))) b = inode_at s b /\
    path_at (set_opens O' t' (set_next_open next (set_files F' s))) b = path_at s b) as Hat.
  { intros b. unfold inode_at, path_at. simpl. rewrite HF. by destruct (files s !! b). }
  split; [|intros a; unfold inode_of; simpl; rewrite HF; by destruct (files s !! a)].
  unfold abs, with_handles. simpl. f_equal.
  - apply map_fmap_ext. intros p a _. apply Hat.
  - apply list_fmap_ext. intros i a _. apply Hat.
  - apply map_fmap_ext. intros id a _. unfold handle_at. simpl. destruct (O' !! a) as [o|]; simpl; [|done].
    unfold handle_of. destruct (is_file o); [|done]. f_equal. apply Hat.
Qed.

Lemma add_open_abs g s op o : inv ∅ g s -> opens s !! op = None ->
  (fun b => default (ADir 0 EmptyString) (handle_of s <$> <[op := o]> (opens s) !! b)) <$> <[o_id o := op]> (go g) =
  <[o_id o := handle_of s o]> (a_handles (abs g s)).
Proof.
  intros Hinv Hop. rewrite fmap_insert. simpl. rewrite lookup_insert_eq. simpl. f_equal. apply map_fmap_ext. intros id b Hb.
  apply (iv_open _ _ _ Hinv) in Hb as (o' & Ho' & _). unfold handle_at. rewrite lookup_insert_ne; [done|congruence].
Qed.

(** What opening does. *)
Definition opened (h : ahandle) (g : ghost) (s : tmpfs) (id : Z) (g' : ghost) (s' : tmpfs) : Prop :=
  inv ∅ g' s' /\ (forall a, inode_of a s' = inode_of a s) /\
  (id = 0 /\ abs g' s' = abs g s /\ ~ plenty 1 s \/
   0 < id < 2 ^ 64 /\ a_handles (abs g s) !! id = None /\ abs g' s' = with_handles (<[id := h]> (a_handles (abs g s))) (abs g s)).

Lemma opened_ok g s op o id next t' F' : inv ∅ g s -> fresh_at op s -> (String.length (o_path o) < 4096)%nat ->
  o_kind o = TMPFS_OPEN_DIR \/ o_kind o = TMPFS_OPEN_FILE /\ is_Some (files s !! o_file o) -> 0 < o_id o < 2 ^ 64 -> id = o_id o ->
  go g !! o_id o = None -> 0 < next < 2 ^ 64 -> models (dom (<[op := o]> (opens s))) t' (umap (<[o_id o := op]> (go g))) ->
  (forall a, F' !! a = (fun f => set_refs (f_refs f + if is_file o && (o_file o =? a) then 1 else 0) f) <$> files s !! a) ->
  opened (handle_of s o) g s id (with_opens (<[o_id o := op]> (go g)) g)
    (set_opens (<[op := o]> (opens s)) t' (set_next_open next (set_files F' s))).
Proof.
  intros Hinv Hfr Hlen Hkind Hid -> Hnone Hnext Hm HF. destruct (abs_reopen g s (<[op := o]> (opens s)) (<[o_id o := op]> (go g)) t' next F' _ HF) as [H1 H2].
  split; [by apply add_open_inv|]. split; [exact H2|]. right. split; [done|]. split; [simpl; by rewrite lookup_fmap, Hnone|].
  rewrite H1. by rewrite (add_open_abs g s op o Hinv (fr_open _ _ Hfr)).
Qed.

Lemma open_dir_ok g s path owner : inv ∅ g s -> (String.length path < 4096)%nat ->
  exists id s' g', open_dir path owner s = Some (id, s') /\ opened (ADir owner path) g s id g' s'.
Proof.
  intros Hinv Hlen. unfold open_dir. destruct (talloc_ok s) as (l & Hs & Hcase). destruct (talloc s) as [op s1]. simpl in *. subst s1.
  destruct Hcase as [[-> Hno]|[Hfr _]].
  { simpl. eexists 0, _, g. split; [done|]. split; [by apply inv_alloc|]. split; [done|]. by left. }
  pose proof (fr_null _ _ Hfr) as Hop0. decide_tests. set (o := fun id => mk_open id owner TMPFS_OPEN_DIR 0 path).
  assert (fresh_at op (set_alloc l s)) as Hfr' by (by destruct Hfr). pose proof (inv_alloc _ _ _ l Hinv) as Hinv'.
  destruct (register_ok g (set_alloc l s) (set_alloc l s) op o Hinv' eq_refl eq_refl eq_refl Hfr') as (id & next & t' & Hreg & Hid & Hnone & Hnext & Hm); [done|].
  rewrite Hreg. simpl. replace (id =? 0) with false by lia. simpl. eexists id, _, _. split; [done|].
  pose proof (opened_ok g (set_alloc l s) op (o id) id next t' (files s) Hinv' Hfr') as H. simpl in H. specialize (H Hlen (or_introl eq_refl) Hid eq_refl Hnone Hnext Hm).
  destruct H as (H1 & H2 & H3).
  { intros a. destruct (files s !! a) as [f|]; simpl; [|done]. rewrite Z.add_0_r. by destruct f. }
  split; [exact H1|]. split; [exact H2|]. destruct H3 as [(? & _)|H3]; [lia|right; exact H3].
Qed.

Lemma open_file_ok g s p a owner : inv ∅ g s -> gp g !! p = Some a ->
  exists id s' g', open_file a owner s = Some (id, s') /\ opened (AFile owner p) g s id g' s'.
Proof.
  intros Hinv Hp. destruct (entry_ok g s p a Hinv Hp) as (f & n & Ha0 & Hf & Hfp & Hdel & _). unfold open_file. decide_tests. rewrite Hf. simpl. rewrite Hdel.
  destruct (talloc_ok s) as (l & Hs & Hcase). destruct (talloc s) as [op s1]. simpl in *. subst s1.
  destruct Hcase as [[-> Hno]|[Hfr _]].
  { simpl. eexists 0, _, g. split; [done|]. split; [by apply inv_alloc|]. split; [done|]. by left. }
  pose proof (fr_null _ _ Hfr) as Hop0. decide_tests. set (o := fun id => mk_open id owner TMPFS_OPEN_FILE a EmptyString).
  assert (fresh_at op (set_alloc l s)) as Hfr' by (by destruct Hfr). pose proof (inv_alloc _ _ _ l Hinv) as Hinv'.
  set (F' := <[a := set_refs (f_refs f +w 1) f]> (files s)).
  destruct (register_ok g (set_alloc l s) (set_files F' (set_alloc l s)) op o Hinv' eq_refl eq_refl eq_refl Hfr')
    as (id & next & t' & Hreg & Hid & Hnone & Hnext & Hm); [done|].
  change (register_open _ _ _) with (register_open op o (set_files F' (set_alloc l s))).
  rewrite Hreg. simpl. replace (id =? 0) with false by lia. simpl. eexists id, _, _. split; [done|].
  pose proof (opened_ok g (set_alloc l s) op (o id) id next t' F' Hinv' Hfr') as H. simpl in H.
  specialize (H ltac:(lia) (or_intror (conj eq_refl (ex_intro _ f Hf))) Hid eq_refl Hnone Hnext Hm).
  destruct H as (H1 & H2 & H3).
  { intros b. unfold F'. destruct (decide (b = a)) as [->|Hb].
    - rewrite lookup_insert_eq, Hf, Z.eqb_refl. simpl. unfold u64. rewrite Z.mod_small; [done|].
      destruct (iv_file _ _ _ Hinv a f Hf) as (_ & _ & ->). pose proof (opens_of_nonneg a (opens s)).
      pose proof (opens_bound _ _ _ op Hinv Hfr). assert (opens_of a (opens s) <= Z.of_nat (size (opens s))); [|lia].
      apply msum_count. intros x. destruct (_ && _); lia.
    - rewrite lookup_insert_ne by done. destruct (files s !! b) as [fb|]; [|done]. cbn [fmap option_fmap option_map].
      replace (a =? b) with false by lia. rewrite Z.add_0_r. by destruct fb. }
  split; [exact H1|]. split; [exact H2|]. destruct H3 as [(? & _)|H3]; [lia|right]. destruct H3 as (? & ? & H3). split; [done|]. split; [done|].
  etransitivity; [exact H3|]. unfold handle_of. simpl. assert (path_at (set_alloc l s) a = p) as ->; [|done]. by apply (path_at_entry g s Hinv).
Qed.

(** The handle in a message. *)
Lemma open_from_message_ok g s m : inv ∅ g s ->
  exists oo, open_from_message (m_word0 m) (m_sender m) s = Some oo /\ own_handle m (abs g s) = handle_of s <$> oo /\
    match oo with
    | None => True
    | Some o => exists op, go g !! m_word0 m = Some op /\ opens s !! op = Some o /\ o_id o = m_word0 m /\ op <> 0 /\ o_owner o = m_sender m
    end.
Proof.
  intros Hinv. unfold open_from_message, open_from_handle, bunix_u64_tree_get, own_handle.
  rewrite (get_ok _ _ _ _ (iv_opens _ _ _ Hinv)), umap_lookup. simpl. rewrite lookup_fmap.
  destruct (go g !! m_word0 m) as [op|] eqn:Hop; simpl; [|by exists None].
  pose proof Hop as (o & Ho & Hid)%(iv_open _ _ _ Hinv). assert (op <> 0) as Hop0 by (destruct (iv_null _ _ _ Hinv) as (_ & _ & N & _); congruence).
  decide_tests. rewrite Ho. simpl. unfold handle_at. rewrite Ho. simpl.
  assert (a_owner (handle_of s o) = o_owner o) as -> by (unfold handle_of; by destruct (is_file o)).
  destruct (Z.eqb_spec (o_owner o) (m_sender m)); [|by exists None]. exists (Some o). split; [done|]. split; [done|]. exists op. done.
Qed.

Lemma opens_of_pos a op o O : O !! op = Some o -> is_file o = true -> o_file o = a -> 0 < opens_of a O.
Proof.
  intros Ho Hf Ha. pose proof (opens_of_nonneg a O). destruct (Z.eq_dec (opens_of a O) 0) as [E|]; [|lia].
  rewrite opens_of_zero in E. by destruct (E op o Ho Hf).
Qed.

Lemma close_handle_ok g s op o : inv ∅ g s -> opens s !! op = Some o -> op <> 0 ->
  exists s', close_handle (o_id o) (o_owner o) s = Some s' /\ inv ∅ (with_opens (delete (o_id o) (go g)) g) s' /\
    abs (with_opens (delete (o_id o) (go g)) g) s' = with_handles (delete (o_id o) (a_handles (abs g s))) (abs g s).
Proof.
  intros Hinv Ho Hop0. assert (go g !! o_id o = Some op) as Hgo by (apply (iv_open _ _ _ Hinv); eauto).
  unfold close_handle, open_from_handle, bunix_u64_tree_get. rewrite (get_ok _ _ _ _ (iv_opens _ _ _ Hinv)), umap_lookup, Hgo. simpl.
  decide_tests. rewrite Ho. simpl. rewrite Z.eqb_refl. simpl.
  assert (exists F', (if o_kind o =? TMPFS_OPEN_FILE then file_release (o_file o) s else Some s) = Some (set_files F' s) /\
    (forall a, F' !! a = (fun f => set_refs (f_refs f - if is_file o && (o_file o =? a) then 1 else 0) f) <$> files s !! a)) as (F' & -> & HF).
  { destruct (iv_target _ _ _ Hinv op o Ho) as (_ & [Hk|[Hk [f Hf]]]).
    - exists (files s). rewrite Hk. split; [by destruct s|]. intros a. unfold is_file. rewrite Hk. simpl.
      destruct (files s !! a) as [f|]; [|done]. simpl. rewrite Z.sub_0_r. by destruct f.
    - assert (is_file o = true) as Hif by (unfold is_file; by rewrite Hk). rewrite Hif. unfold is_file in Hif. rewrite Hif.
      destruct (iv_file _ _ _ Hinv (o_file o) f Hf) as (Hd & _ & Hr). pose proof (opens_of_pos (o_file o) op o (opens s) Ho Hif eq_refl).
      assert (o_file o <> 0) by (destruct (iv_null _ _ _ Hinv) as (N & _); congruence). unfold file_release. decide_tests. rewrite Hf. simpl.
      rewrite Hd, andb_false_r. replace (f_refs f =? 0) with false by lia. eexists. split; [done|]. intros a.
      destruct (decide (a = o_file o)) as [->|Hne]; [rewrite lookup_insert_eq, Hf, Z.eqb_refl; done|]. rewrite lookup_insert_ne by done.
      replace (o_file o =? a) with false by lia. destruct (files s !! a) as [fa|]; [|done]. simpl. rewrite Z.sub_0_r. by destruct fa. }
  simpl. destruct (id_remove_ok _ _ _ op (o_id o) (iv_opens _ _ _ Hinv) Hgo Hop0) as (t' & -> & Hm).
  { intros i (o' & Ho' & <-)%(iv_open _ _ _ Hinv). rewrite Ho in Ho'. by injection Ho' as ->. }
  simpl. eexists. split; [done|]. split; [by apply drop_open_inv|].
  destruct (abs_reopen g s (delete op (opens s)) (delete (o_id o) (go g)) (drop_node op t') (next_open_id s) F' _ HF) as [Habs _].
  etransitivity; [exact Habs|]. f_equal. simpl. rewrite <- fmap_delete. apply map_fmap_ext. intros i b [Hi Hb]%lookup_delete_Some.
  unfold handle_at. rewrite lookup_delete_ne; [done|]. intros <-. apply (iv_open _ _ _ Hinv) in Hb as (o' & Ho' & <-). congruence.
Qed.

(** ** Roots and callers *)

Lemma mount_ok e g s path : inv ∅ g s -> (String.length path < 4096)%nat ->
  exists rc s' g' mem, mount_root e path s = Some (rc, s') /\ inv ∅ g' s' /\ (mem = false -> ~ plenty 2 s) /\
    if negb (starts_with_slash path) then rc = -1 /\ abs g' s' = abs g s else
    if bool_decide (path ∈ a_roots (abs g s)) then rc = (if e_mount e path then 0 else -1) /\ abs g' s' = abs g s else
    if mem && e_mount e path then rc = 0 /\ abs g' s' = with_roots ({[path]} ∪ a_roots (abs g s)) (abs g s) else rc = -1 /\ abs g' s' = abs g s.
Proof.
  intros Hinv Hlen. unfold mount_root. destruct (starts_with_slash path); cbn [negb]; [|by exists (-1), s, g, true].
  rewrite (root_find_ok ∅ g s Hinv). simpl. destruct (gr g !! path) as [r|] eqn:Hr; simpl.
  { rewrite bool_decide_eq_true_2 by (apply elem_of_dom; eauto). apply (iv_root _ _ _ Hinv) in Hr.
    assert (r <> 0) by (destruct (iv_null _ _ _ Hinv) as (_ & _ & _ & N); congruence). decide_tests. simpl. by eexists _, s, g, true. }
  rewrite bool_decide_eq_false_2 by (rewrite elem_of_dom, Hr; by intros [? ?]).
  unfold recycle_stale_root. rewrite (root_find_ok ∅ g s Hinv), Hr. simpl.
  destruct (talloc_ok s) as (l & Hs & Hcase). destruct (talloc s) as [r s1]. simpl in *. subst s1.
  destruct Hcase as [[-> Hno]|[Hfr Hpl]].
  { simpl. eexists (-1), _, g, false. split; [done|]. split; [by apply inv_alloc|]. split; [|done].
    intros _ H. apply Hno. eapply plenty_le; [|done]. lia. }
  pose proof Hfr as [Hr0 Hrr _ _ Hrn _ _]. decide_tests. unfold str_dup. rewrite str_len_small by done. unfold TMPFS_MAX_PATH.
  replace (_ =? 4096) with false by lia. destruct (talloc_bytes_ok (set_alloc l s)) as (l2 & Hs2 & Hcase2).
  destruct (talloc_bytes (set_alloc l s)) as [ok s2]. simpl in *. subst s2. destruct Hcase2 as [[-> Hno]|[-> _]]; simpl.
  { eexists (-1), _, g, false. split; [done|]. split; [by apply inv_alloc, inv_alloc|]. split; [|done].
    intros _ H. apply Hno. apply (Hpl 1%nat); [done|done|]. by intros b _ []. }
  destruct (e_mount e path) eqn:Hm; simpl; cycle 1.
  { eexists (-1), _, g, true. split; [done|].
    match goal with |- inv _ _ ?x /\ _ => replace x with (set_alloc l2 s) end.
    - split; [by apply inv_alloc|]. done.
    - apply tmpfs_ext; simpl; try done; [|by rewrite delete_insert_id]. symmetry.
      apply (drop_add_node _ _ _ _ (iv_roots _ _ _ Hinv)). by apply not_elem_of_dom. }
  destruct (path_insert_ok ({[r]} ∪ dom (root_paths s)) (add_node r (roots s)) (gr g) r path) as (t' & -> & Hmod); simpl.
  - rewrite (union_comm_L {[r]}). apply add_node_models; [apply (iv_roots _ _ _ Hinv)|by apply not_elem_of_dom|done].
  - set_solver.
  - done.
  - intros q Hq%(iv_root _ _ _ Hinv). congruence.
  - done.
  - eexists 0, _, (with_groots (<[path := r]> (gr g)) g), true. split; [done|]. split; [|split; [done|]].
    + apply (inv_roots ∅ g (set_alloc l2 s)); [by apply inv_alloc|by rewrite dom_insert_L| |by rewrite lookup_insert_ne; [apply (iv_null _ _ _ Hinv)|]].
      intros p a. rewrite !lookup_insert_Some, (iv_root _ _ _ Hinv). split; [intros [[-> ->]|[Hne Ha]]|intros [[-> ->]|[Hne Ha]]]; [by left| |by left|].
      * right. split; [|done]. congruence.
      * right. split; [|done]. intros ->. apply (iv_root _ _ _ Hinv) in Ha. congruence.
    + split; [done|]. unfold abs, with_roots. simpl. by rewrite dom_insert_L.
Qed.

Lemma grant_ok g s sender task : inv ∅ g s ->
  exists rc s' g' mem, grant_vfs_caller_task sender task s = Some (rc, s') /\ inv ∅ g' s' /\ (mem = false -> ~ plenty 1 s) /\
    let A := abs g s in let A' := abs g' s' in
    if (sender =? 0) || negb (a_grantor A =? 0) && negb (sender =? a_grantor A) then rc = BUNIX_VFS_ERR_ACCESS /\ A' = A else
    let task := if task =? 0 then sender else task in
    if bool_decide (task ∈ a_callers A) then rc = 0 /\ A' = with_callers (a_callers A) sender A else
    if mem then rc = 0 /\ A' = with_callers ({[task]} ∪ a_callers A) sender A else rc = ERR /\ A' = with_callers (a_callers A) sender A.
Proof.
  intros Hinv. unfold grant_vfs_caller_task. cbn [a_grantor abs]. destruct (Z.eqb_spec sender 0) as [|Hs0]; [by eexists _, s, g, true|]. simpl orb.
  destruct (negb (vfs_caller_grantor s =? 0) && negb (sender =? vfs_caller_grantor s)) eqn:Hg; [by eexists _, s, g, true|].
  set (s1 := if vfs_caller_grantor s =? 0 then set_grantor sender s else s).
  assert (s1 = set_grantor sender s) as ->.
  { unfold s1. destruct (Z.eqb_spec (vfs_caller_grantor s) 0); [done|]. destruct (Z.eqb_spec sender (vfs_caller_grantor s)) as [->|]; [by destruct s|].
    simpl in Hg. done. }
  set (t := if task =? 0 then sender else task). assert (t <> 0) as Ht0 by (unfold t; by destruct (Z.eqb_spec task 0)).
  cbv zeta. fold t. unfold bunix_u64_tree_get. rewrite (get_ok _ _ _ _ (iv_callers _ _ _ Hinv)), umap_lookup. simpl.
  destruct (gc g !! t) as [c|] eqn:Hc; simpl.
  { rewrite bool_decide_eq_true_2 by (apply elem_of_dom; eauto).
    destruct (models_node _ _ _ t c c (iv_callers _ _ _ Hinv)) as (Hc0 & _); [by rewrite umap_lookup, Hc|]. decide_tests. simpl.
    eexists 0, _, g, true. split; [done|]. split; [by apply inv_grantor|]. done. }
  rewrite bool_decide_eq_false_2 by (rewrite elem_of_dom, Hc; by intros [? ?]).
  destruct (talloc_ok (set_grantor sender s)) as (l & Hs & Hcase). destruct (talloc (set_grantor sender s)) as [c s2]. simpl in *. subst s2.
  destruct Hcase as [[-> Hno]|[Hfr _]]; simpl.
  { eexists ERR, _, g, false. split; [done|]. split; [by apply inv_alloc, inv_grantor|]. split; [|done].
    intros _ H. apply Hno. revert H. apply plenty_mono; [done|]. by intros b []. }
  pose proof Hfr as [Hc0 Hcr _ _ _ _ Hcn]. simpl in Hcn. decide_tests.
  destruct (id_insert_ok (dom (heap (vfs_callers s)) ∪ {[c]}) (add_node c (vfs_callers s)) (gc g) c t) as (t' & Hins & Hmod).
  - apply add_node_models; [apply (iv_callers _ _ _ Hinv)|by apply not_elem_of_dom|done].
  - set_solver.
  - done.
  - done.
  - intros q Hq. destruct (models_key _ _ _ q c c (iv_callers _ _ _ Hinv)) as (n & Hn & _); [by rewrite umap_lookup, Hq|]. congruence.
  - done.
  - simpl. rewrite Hins. simpl. eexists 0, _, (with_gcallers (<[t := c]> (gc g)) g), true. split; [done|]. split; [|split; [done|]].
    + apply (inv_alloc _ _ (set_callers t' (set_grantor sender s))). apply inv_callers; [done| |rewrite lookup_insert_ne by done; apply (iv_caller _ _ _ Hinv)].
      pose proof Hmod as (u & _ & _ & _ & _ & _ & <- & _). done.
    + split; [done|]. unfold abs, with_callers. simpl. by rewrite dom_insert_L.
Qed.

(** ** Hard links *)

Lemma a_put_id i n A : a_nodes A !! i = Some n -> a_put i n A = A.
Proof. intros H. unfold a_put, with_nodes. rewrite insert_id by done. by destruct A. Qed.

Lemma files_bound X g s a : inv X g s -> fresh_at a s -> Z.of_nat (size (files s)) <= 2 ^ 64 - 2.
Proof.
  intros Hinv []. unfold in_u64 in *. apply (dom_bound _ a); [|lia|done]. intros b Hb.
  assert (b <> 0) by (destruct (iv_null _ _ _ Hinv) as (N & _); intros ->; rewrite N in Hb; by destruct Hb).
  pose proof (models_range _ _ _ b (iv_tree _ _ _ Hinv)) as Hr. rewrite elem_of_dom in Hr. specialize (Hr Hb). unfold in_u64 in Hr. lia.
Qed.

Lemma link_file_ok g s p a n new : inv ∅ g s -> gp g !! p = Some a -> inode_of a s = Some n -> (i_type n =? BUNIX_VFS_TYPE_DIRECTORY) = false ->
  gp g !! new = None -> (String.length new < 4096)%nat ->
  exists rc s' g' mem, file_link_to_path a new s = Some (rc, s') /\ inv ∅ g' s' /\ (mem = false -> ~ plenty 1 s) /\
    if negb (match a_parent (abs g s) new with Some q => is_dir q | None => false end) then rc = -1 /\ abs g' s' = abs g s else
    if mem then rc = 0 /\ abs g' s' = a_link new (inode_at s a) (abs g s) else rc = -1 /\ abs g' s' = abs g s.
Proof.
  intros Hinv Hp Hn Hdir Hnew Hlen. destruct (entry_ok g s p a Hinv Hp) as (f & n' & Ha0 & Hf & Hfp & Hdel & Hi0 & Hn' & Hio & Hok & _ & Hnode & _).
  rewrite Hn in Hio. injection Hio as <-. unfold file_link_to_path. decide_tests. rewrite Hf. simpl. rewrite Hdel. decide_tests. simpl.
  rewrite (file_find_ok ∅ g s Hinv), Hnew. simpl. rewrite (path_parent_exists_ok ∅ g s Hinv) by done. simpl.
  rewrite (abs_parent g s Hinv). replace (match node_of <$> g_parent g s new with Some q => is_dir q | None => false end) with
    (match g_parent g s new with Some n0 => i_type n0 =? BUNIX_VFS_TYPE_DIRECTORY | None => false end) by (by destruct (g_parent g s new)).
  destruct (match g_parent g s new with Some n0 => _ | None => false end); simpl; [|by eexists (-1), s, g, true].
  rewrite Hn'. simpl. rewrite Hdir.
  destruct (entry_alloc_ok g s new Hinv Hlen) as (b & s1 & -> & [(-> & [l ->] & Hno)|(Hfr & Hinv1 & _ & [l ->] & _)]).
  { simpl. eexists (-1), _, g, false. split; [done|]. split; [by apply inv_alloc|]. done. }
  pose proof (fr_null _ _ Hfr) as Hb0. decide_tests. destruct (iv_inode _ _ _ Hinv (f_inode f) n Hn') as (_ & Hrefs & Hpos).
  assert (i_refs n +w 1 = i_refs n + 1) as Hw.
  { unfold u64. apply Z.mod_small. pose proof (files_bound _ _ _ b Hinv Hfr).
    assert (links_to (f_inode f) (files s) <= Z.of_nat (size (files s))); [|lia]. apply msum_count. intros x. cbn beta. destruct (f_inode x =? f_inode f); lia. }
  set (n2 := set_irefs (i_refs n + 1) n).
  destruct (attach_made g s b (f_inode f) new n2 (next_inode_id s) l Hinv1 (fr_file _ _ Hfr) Hi0) with (l' := l) as (s' & Hins & Hrel & Hinv2); try done.
  { by destruct Hok. }
  { simpl. lia. }
  { simpl. lia. }
  { apply (iv_next _ _ _ Hinv). }
  match goal with |- context [files_insert_file b ?x] => replace x with (made b (f_inode f) new n2 (next_inode_id s) (set_alloc l s)) end; cycle 1.
  { apply tmpfs_ext; try done; simpl; [by rewrite Hw|by rewrite alter_insert_eq]. }
  rewrite Hins. simpl. eexists 0, s', _, true. split; [done|]. split; [done|]. split; [done|]. split; [done|].
  rewrite (abs_relinked _ _ _ Hrel), (abs_made g (set_alloc l s)), abs_alloc; [|by apply inv_alloc|apply (fr_file _ _ Hfr)].
  assert (node_of n2 = node_of n) as -> by done. rewrite a_put_id by done. unfold inode_at. rewrite Hf. done.
Qed.

(** Removing what was just made. *)
Lemma a_unlink_made e g s path mode type task i : inv ∅ g s -> a_links (abs g s) !! path = None -> a_nodes (abs g s) !! i = None -> i <> 0 ->
  a_unlink path (a_create_at e path mode type task i (abs g s)) = with_next_ino (a_take_ino (abs g s)).2 (abs g s).
Proof.
  intros Hinv Hl Hn Hi. unfold a_create_at. destruct (a_take_ino (abs g s)) as [ino next]. unfold a_unlink. cbn [a_links with_next_ino a_link with_links].
  rewrite lookup_insert_eq.
  assert (filter (.≠ path) (path :: a_order (abs g s)) = a_order (abs g s)) as Hord.
  { rewrite filter_cons_False by (intros H; by apply H). apply filter_keep. intros q (a & -> & Ha)%list_elem_of_fmap E.
    apply (iv_in _ _ _ Hinv) in Ha as ([f Hf] & HX). apply (entry_of_file ∅ g s Hinv) in Hf as Hp; [|done].
    rewrite abs_links_lookup in Hl. unfold path_at in E. rewrite Hf in E. simpl in E. rewrite <- E, Hp in Hl. done. }
  assert (a_nlink (abs g s) i = 0) as Hz.
  { rewrite abs_nlink by done. apply (links_to_zero ∅ g s); [done|done|]. simpl in Hn. rewrite lookup_fmap in Hn. by destruct (inodes s !! i). }
  rewrite bool_decide_eq_true_2.
  - unfold with_nodes, with_links, with_next_ino, a_link, a_put, with_links, with_nodes. cbn [a_links a_order a_nodes a_handles a_roots a_callers a_grantor a_next_ino].
    rewrite Hord. rewrite delete_insert_id by done. rewrite delete_insert_id by done. by destruct (abs g s).
  - unfold a_nlink in *. cbn [a_links with_links]. rewrite delete_insert_id by done. done.
Qed.
