(* ===== verification/TmpfsMove.v ===== *)
(** * Renaming in the memory file system

    Moving an entry, or a directory with all entries below it, takes the
    entries out of the tree and the list and puts them back under new paths. *)
From stdpp Require Import gmap list strings.
From Stdlib Require Import ZArith Lia ZifyBool Ascii.
From S2P Require Import Prelude Tree Buffer Dll Tmpfs TmpfsSpec TmpfsInv TmpfsOps.

Open Scope Z_scope.
Open Scope machine_scope.

#[local] Arguments Z.to_nat : simpl never.

Lemma relinked_refl s : relinked s s.
Proof. split; [by intros a|by destruct s]. Qed.

Lemma relinked_trans s1 s2 s3 : relinked s1 s2 -> relinked s2 s3 -> relinked s1 s3.
Proof. intros [A1 E1] [A2 E2]. split; [intros a; by rewrite (A1 a)|]. rewrite E2, E1. done. Qed.

Lemma filter_filter_eq {A} (P Q R : A -> Prop) `{!forall x, Decision (P x), !forall x, Decision (Q x), !forall x, Decision (R x)} (l : list A) :
  (forall x, P x /\ Q x <-> R x) -> filter P (filter Q l) = filter R l.
Proof. intros Hiff. rewrite list_filter_filter. by apply list_filter_iff. Qed.

Lemma remove_all_ok moved : forall X g s, inv X g s -> NoDup moved -> (forall a, a ∈ moved -> a ∈ gl g) ->
  exists s', remove_all moved s = Some s' /\ relinked s s' /\
    inv (X ∪ list_to_set moved) (with_paths (filter (fun x => x.2 ∉ moved) (gp g)) (filter (fun b => b ∉ moved) (gl g)) g) s'.
Proof.
  induction moved as [|a moved IH]; intros X g s Hinv Hnd Hin.
  { exists s. split; [done|]. split; [apply relinked_refl|].
    assert (with_paths (filter (fun x => x.2 ∉ ([] : list Z)) (gp g)) (filter (fun b => b ∉ []) (gl g)) g = g) as ->.
    { destruct g. unfold with_paths. simpl. f_equal; [|by apply filter_keep; set_solver].
      apply map_filter_id. set_solver. }
    by replace (X ∪ list_to_set []) with X by set_solver. }
  apply NoDup_cons in Hnd as [Ha Hnd]. assert (a ∈ gl g) as ([f Hf] & HX)%(iv_in _ _ _ Hinv) by (apply Hin; set_solver).
  pose proof (entry_of_file X g s Hinv a f Hf HX) as Hp. destruct (detach_file_ok X g s (f_path f) a f Hinv Hp Hf) as (s1 & Hrem & Hrel & Hinv1 & _).
  simpl. rewrite Hrem. simpl. destruct (IH _ _ s1 Hinv1 Hnd) as (s' & Hall & Hrel' & Hinv').
  { intros b Hb. simpl. apply list_elem_of_filter. split; [by intros ->|]. apply Hin. set_solver. }
  exists s'. split; [done|]. split; [by eapply relinked_trans|]. simpl in Hinv'. unfold with_paths in Hinv'. simpl in Hinv'.
  replace (X ∪ {[a]} ∪ list_to_set moved) with (X ∪ list_to_set (a :: moved)) in Hinv' by (simpl; set_solver).
  replace (filter (fun b => b ∉ a :: moved) (gl g)) with (filter (fun b => b ∉ moved) (without a (gl g))).
  - replace (filter (fun x => x.2 ∉ a :: moved) (gp g)) with (filter (fun x => x.2 ∉ moved) (delete (f_path f) (gp g))); [done|].
    apply map_eq. intros q. apply option_eq. intros b. rewrite !map_lookup_filter_Some, lookup_delete_Some. simpl. rewrite not_elem_of_cons. split.
    + intros ((Hq & Hb) & Hm). split; [done|]. split; [|done]. intros ->. apply Hq. by apply (entry_inj X g s Hinv (f_path f) q a).
    + intros (Hb & Hba & Hm). split; [|done]. split; [|done]. intros <-. congruence.
  - apply filter_filter_eq. intros x. rewrite not_elem_of_cons. tauto.
Qed.

(** The entries of [R] have new paths, and entries may be linked differently. *)
Definition repathed (R : gmap Z string) (s s' : tmpfs) : Prop :=
  (forall b, (fun f => (f_path f, f_inode f)) <$> files s' !! b = (fun f => (default (f_path f) (R !! b), f_inode f)) <$> files s !! b) /\
  s' = set_head (files_head s') (set_files (files s') (set_tree (files_by_path s') s)).

Lemma relinked_repathed s s' : relinked s s' -> repathed ∅ s s'.
Proof.
  intros [Hal Hs]. split; [|done]. intros b. rewrite lookup_empty. specialize (Hal b). destruct (files s !! b) as [f|], (files s' !! b) as [f'|]; try done.
  apply (inj Some), strip_parts in Hal as (E1 & _ & _ & E2). simpl. by rewrite E1, E2.
Qed.

Lemma repathed_trans R1 R2 s1 s2 s3 : R1 ##ₘ R2 -> repathed R1 s1 s2 -> repathed R2 s2 s3 -> repathed (R1 ∪ R2) s1 s3.
Proof.
  intros Hdis [H1 E1] [H2 E2]. split; [|by rewrite E2, E1]. intros b. rewrite H2. specialize (H1 b). rewrite lookup_union.
  destruct (files s2 !! b) as [f2|], (files s1 !! b) as [f1|]; try done. simpl in *. injection H1 as P1 P2. rewrite P1, P2.
  destruct (R1 !! b) as [x|] eqn:X1, (R2 !! b) as [y|] eqn:X2; simpl; try done. exfalso. eapply map_disjoint_spec; eauto.
Qed.

Lemma insert_all_ok moved : forall paths X g s, inv X g s -> length paths = length moved -> NoDup moved -> NoDup paths ->
  (forall a, a ∈ moved -> a ∈ X /\ exists f, files s !! a = Some f /\ is_Some (inodes s !! f_inode f)) ->
  (forall p, p ∈ paths -> gp g !! p = None /\ (String.length p < 4096)%nat) ->
  exists s', insert_all moved paths s = Some (0, s') /\ repathed (list_to_map (zip moved paths)) s s' /\
    inv (X ∖ list_to_set moved) (with_paths (list_to_map (zip paths moved) ∪ gp g) (reverse moved ++ gl g) g) s'.
Proof.
  induction moved as [|a moved IH]; intros [|p paths] X g s Hinv Hlen Hndm Hndp Hmv Hps; try done.
  { exists s. split; [done|]. split; [apply relinked_repathed, relinked_refl|]. simpl.
    replace (X ∖ ∅) with X by set_solver. assert (with_paths (∅ ∪ gp g) (gl g) g = g) as Hg by (destruct g; unfold with_paths; simpl; by rewrite (left_id_L ∅ (∪))).
    change (reverse [] ++ gl g) with (gl g). by rewrite Hg. }
  apply NoDup_cons in Hndm as [Ham Hndm], Hndp as [Hpp Hndp]. destruct (Hmv a) as (HaX & f & Hf & Hi); [by left|].
  destruct (Hps p) as [Hpn Hpl]; [by left|]. pose proof (repath_entry X g s a f p false Hinv HaX Hf Hpl) as Hinv1.
  set (s1 := set_files (<[a := set_path p false f]> (files s)) s) in *.
  destruct (attach_ok X g s1 a (set_path p false f) Hinv1 HaX) as (s2 & Hins & Hrel & Hinv2); [by simpl; rewrite lookup_insert_eq|done|done|].
  assert (alter (set_path p false) a (files s) = <[a := set_path p false f]> (files s)) as Halt.
  { apply map_eq. intros b. destruct (decide (b = a)) as [->|]; [by rewrite lookup_alter_eq, lookup_insert_eq, Hf|by rewrite lookup_alter_ne, lookup_insert_ne]. }
  simpl. rewrite Halt. fold s1. rewrite Hins. simpl.
  assert (repathed {[a := p]} s s2) as Hrp.
  { replace {[a := p]} with ({[a := p]} ∪ ∅ : gmap Z string) by (by rewrite (right_id_L ∅ (∪))).
    eapply repathed_trans; [apply map_disjoint_empty_r| |by apply relinked_repathed]. split; [|by destruct s]. intros b. simpl.
    destruct (decide (b = a)) as [->|]; [rewrite lookup_insert_eq, lookup_singleton_eq, Hf; done|].
    rewrite lookup_insert_ne, lookup_singleton_ne by done. by destruct (files s !! b). }
  destruct (IH paths _ _ s2 Hinv2) as (s' & Hall & Hrp' & Hinv'); [simpl in Hlen; lia|done|done| | |].
  - intros b Hb. destruct (Hmv b) as (HbX & fb & Hfb & Hib); [by right|].
    split; [apply elem_of_difference; split; [done|]; rewrite elem_of_singleton; by intros ->|]. destruct Hrp as [Hrp E].
    specialize (Hrp b). rewrite Hfb, lookup_singleton_ne in Hrp by (intros <-; done). destruct (files s2 !! b) as [f2|]; [|done].
    simpl in Hrp. injection Hrp as _ Hrp. exists f2. split; [done|]. rewrite Hrp, E. done.
  - intros q Hq. simpl. destruct (Hps q) as [Hqn Hql]; [by right|]. split; [|done]. rewrite lookup_insert_ne; [done|]. by intros <-.
  - exists s'. split; [done|]. split.
    + simpl. rewrite insert_union_singleton_l. eapply repathed_trans; [|done|done].
      apply map_disjoint_singleton_l. apply not_elem_of_list_to_map_1. intros ([b q] & -> & Hz%elem_of_zip_l)%list_elem_of_fmap. done.
    + simpl in Hinv'. unfold with_paths in *. simpl in *.
      replace (X ∖ ({[a]} ∪ list_to_set moved)) with (X ∖ {[a]} ∖ list_to_set moved) by (clear; set_solver).
      replace (<[p := a]> (list_to_map (zip paths moved)) ∪ gp g) with (list_to_map (zip paths moved) ∪ <[p := a]> (gp g)).
      * rewrite reverse_cons, <- app_assoc. done.
      * rewrite <- insert_union_r, <- insert_union_l; [done|].
        apply not_elem_of_list_to_map_1. intros ([q b] & -> & Hz%elem_of_zip_l)%list_elem_of_fmap. done.
Qed.

(** ** Paths below a directory *)

Lemma str_drop_app a b : str_drop (String.length a) (a ++ b) = b.
Proof. induction a as [|c a IH]; [by destruct b|]. simpl. done. Qed.

Lemma prefix_child_split p q : path_has_prefix_child p q = true <-> exists r, p = (q ++ String slash r)%string.
Proof.
  revert p. induction q as [|c q IH]; intros [|x p]; simpl; try (split; [done|by intros [? ?]]).
  - split; [|by intros [r [= -> ->]]; apply bool_decide_eq_true_2]. intros ->%bool_decide_eq_true_1. eauto.
  - rewrite andb_true_iff, IH, bool_decide_eq_true. split; [intros [-> [r ->]]; eauto|intros [r [= -> ->]]; eauto].
Qed.

Lemma string_app_nil_r a : (a ++ "")%string = a.
Proof. induction a as [|c a IH]; [done|]. change (String c (a ++ "") = String c a)%string. by rewrite IH. Qed.

Lemma str_drop_all a : str_drop (String.length a) a = EmptyString.
Proof. induction a as [|c a IH]; [done|]. exact IH. Qed.

Lemma inside_split dir old p : inside dir old p = true -> p = (old ++ str_drop (String.length old) p)%string.
Proof.
  unfold inside. rewrite orb_true_iff, bool_decide_eq_true, andb_true_iff. intros [->|[_ [r ->]%prefix_child_split]].
  - by rewrite str_drop_all, string_app_nil_r.
  - by rewrite str_drop_app.
Qed.

Lemma string_app_inj a b c : (a ++ b)%string = (a ++ c)%string -> b = c.
Proof. induction a as [|x a IH]; simpl; [done|]. intros [= H]. by apply IH. Qed.

Lemma moved_path_inj dir old new p q : inside dir old p = true -> inside dir old q = true -> moved_path old new p = moved_path old new q -> p = q.
Proof.
  intros Hp%inside_split Hq%inside_split H. apply string_app_inj in H. rewrite Hp, Hq. by rewrite H.
Qed.

Lemma moved_path_self old new : moved_path old new old = new.
Proof. unfold moved_path. by rewrite str_drop_all, string_app_nil_r. Qed.

(** ** Maps from lists *)

Lemma zip_fmap_r {A B} (h : A -> B) l : zip l (h <$> l) = (fun x => (x, h x)) <$> l.
Proof. induction l as [|x l IH]; [done|]. simpl. f_equal. exact IH. Qed.

Lemma zip_fmap_l {A B} (h : A -> B) l : zip (h <$> l) l = (fun x => (h x, x)) <$> l.
Proof. induction l as [|x l IH]; [done|]. simpl. f_equal. exact IH. Qed.

Lemma zip_r_lookup (h : Z -> string) l b : NoDup l -> (list_to_map (zip l (h <$> l)) : gmap Z string) !! b = if decide (b ∈ l) then Some (h b) else None.
Proof.
  intros Hnd. rewrite zip_fmap_r. assert (((fun x => (x, h x)) <$> l).*1 = l) as Hk by (rewrite <- list_fmap_compose; apply list_fmap_id).
  destruct (decide (b ∈ l)) as [Hb|Hb].
  - apply elem_of_list_to_map_1; [by rewrite Hk|]. apply list_elem_of_fmap. eauto.
  - apply not_elem_of_list_to_map_1. by rewrite Hk.
Qed.

Lemma zip_l_lookup (h : Z -> string) l p b : NoDup (h <$> l) -> (list_to_map (zip (h <$> l) l) : gmap string Z) !! p = Some b <-> b ∈ l /\ h b = p.
Proof.
  intros Hnd. rewrite zip_fmap_l. assert (((fun x => (h x, x)) <$> l).*1 = h <$> l) as Hk by (by rewrite <- list_fmap_compose).
  rewrite <- elem_of_list_to_map by (by rewrite Hk). rewrite list_elem_of_fmap. split.
  - intros (x & [= -> ->] & Hx). done.
  - intros [Hb <-]. eauto.
Qed.

(** [kmap] with a function that is injective on the keys. *)
Lemma kmap_lookup {A} (f : string -> string) (m : gmap string A) k v :
  (forall p q, is_Some (m !! p) -> is_Some (m !! q) -> f p = f q -> p = q) -> (kmap f m : gmap string A) !! k = Some v <-> exists p, f p = k /\ m !! p = Some v.
Proof.
  intros Hinj. unfold kmap. rewrite <- elem_of_list_to_map.
  - rewrite list_elem_of_fmap. split.
    + intros ([p x] & [= -> ->] & Hx%elem_of_map_to_list). eauto.
    + intros (p & <- & Hp). exists (p, v). split; [done|]. by apply elem_of_map_to_list.
  - rewrite <- list_fmap_compose. apply NoDup_fmap_2_strong; [|apply NoDup_map_to_list].
    intros [p x] [q y] Hp%elem_of_map_to_list Hq%elem_of_map_to_list E. simpl in E. assert (p = q) as -> by (apply Hinj; eauto). congruence.
Qed.

Lemma filter_fmap_comm {A B} (h : A -> B) (P : B -> Prop) {Hdec : forall x, Decision (P x)} (l : list A) :
  filter P (h <$> l) = h <$> filter (fun x => P (h x)) l.
Proof. induction l as [|x l IH]; [done|]. rewrite fmap_cons, !filter_cons, IH. by destruct (decide (P (h x))). Qed.

Lemma filter_ext_in {A} (P Q : A -> Prop) {HP : forall x, Decision (P x)} {HQ : forall x, Decision (Q x)} (l : list A) :
  (forall x, x ∈ l -> P x <-> Q x) -> filter P l = filter Q l.
Proof.
  induction l as [|x l IH]; intros H; [done|]. rewrite !filter_cons. rewrite IH by (intros y Hy; apply H; by right).
  assert (P x <-> Q x) as Hx by (apply H; by left). destruct (decide (P x)), (decide (Q x)); tauto.
Qed.

(** ** Moving entries *)

Section Move.
Context (g : ghost) (s : tmpfs) (Hinv : inv ∅ g s) (dir : bool) (old new : string).

Definition moving : list Z := filter (fun a => inside dir old (path_at s a) = true) (gl g).
Definition targets : list string := (fun a => moved_path old new (path_at s a)) <$> moving.

Lemma live_listed a f : files s !! a = Some f -> a ∈ gl g.
Proof. intros Hf. apply (iv_in _ _ _ Hinv). split; [eauto|set_solver]. Qed.

Lemma listed_entry a : a ∈ gl g -> gp g !! path_at s a = Some a.
Proof. intros ([f Hf] & HX)%(iv_in _ _ _ Hinv). unfold path_at. rewrite Hf. by apply (entry_of_file ∅ g s Hinv). Qed.

Lemma moving_spec a : a ∈ moving <-> a ∈ gl g /\ inside dir old (path_at s a) = true.
Proof. unfold moving. rewrite list_elem_of_filter. tauto. Qed.

Lemma moving_nodup : NoDup moving.
Proof. apply NoDup_filter. by destruct (iv_list _ _ _ Hinv) as (_ & ? & _). Qed.

Lemma targets_nodup : NoDup targets.
Proof.
  apply NoDup_fmap_2_strong; [|apply moving_nodup]. intros a b [Ha Ia]%moving_spec [Hb Ib]%moving_spec E.
  apply (moved_path_inj dir) in E; [|done|done]. apply listed_entry in Ha, Hb. congruence.
Qed.

Lemma targets_lookup p b : (list_to_map (zip targets moving) : gmap string Z) !! p = Some b <-> b ∈ moving /\ moved_path old new (path_at s b) = p.
Proof. apply (zip_l_lookup (fun a => moved_path old new (path_at s a))), targets_nodup. Qed.

Lemma moving_lookup b : (list_to_map (zip moving targets) : gmap Z string) !! b = if decide (b ∈ moving) then Some (moved_path old new (path_at s b)) else None.
Proof. apply (zip_r_lookup (fun a => moved_path old new (path_at s a))), moving_nodup. Qed.

(** The new paths are short and free once the entries are out of the way. *)
Definition clear_way : Prop := forall p, p ∈ targets -> (String.length p < 4096)%nat /\ (is_Some (gp g !! p) -> inside dir old p = true).

Hypothesis Hclear : clear_way.

Lemma renamed_inj p q : is_Some (gp g !! p) -> is_Some (gp g !! q) -> renamed dir old new p = renamed dir old new q -> p = q.
Proof.
  assert (forall p q, is_Some (gp g !! p) -> is_Some (gp g !! q) -> inside dir old p = true -> inside dir old q = false -> moved_path old new p <> q) as Hx.
  { intros p' q' [a Ha] Hq Hi Ho E. pose proof (path_at_entry g s Hinv p' a Ha) as Hpa. destruct (Hclear q') as [_ Hc].
    - unfold targets. apply list_elem_of_fmap. exists a. rewrite Hpa. split; [done|]. apply moving_spec. rewrite Hpa. split; [|done].
      apply (iv_path _ _ _ Hinv) in Ha as (f & Hf & _). by eapply live_listed.
    - specialize (Hc Hq). congruence. }
  intros Hp Hq. unfold renamed. destruct (inside dir old p) eqn:Ip, (inside dir old q) eqn:Iq; [by apply (moved_path_inj dir)| | |done].
  - intros E. by destruct (Hx p q Hp Hq Ip Iq).
  - intros E. by destruct (Hx q p Hq Hp Iq Ip).
Qed.

Definition moved_ghost : ghost :=
  with_paths (list_to_map (zip targets moving) ∪ filter (fun x => x.2 ∉ moving) (gp g)) (reverse moving ++ filter (fun b => b ∉ moving) (gl g)) g.

Lemma moved_ghost_path k b : gp moved_ghost !! k = Some b <-> exists q, renamed dir old new q = k /\ gp g !! q = Some b.
Proof.
  simpl. rewrite lookup_union_Some_raw, targets_lookup. split.
  - intros [[[Hb Ib]%moving_spec E]|[_ [Hk Hb]%map_lookup_filter_Some]].
    + exists (path_at s b). unfold renamed. rewrite Ib. split; [done|]. by apply listed_entry.
    + exists k. split; [|done]. unfold renamed. destruct (inside dir old k) eqn:Ik; [|done]. exfalso. apply Hb. simpl. apply moving_spec.
      rewrite (path_at_entry g s Hinv k b Hk). split; [|done]. apply (iv_path _ _ _ Hinv) in Hk as (f & Hf & _). by eapply live_listed.
  - intros (q & Hk & Hq). pose proof (path_at_entry g s Hinv q b Hq) as Hpb. pose proof Hq as (f & Hf & _)%(iv_path _ _ _ Hinv).
    unfold renamed in Hk. destruct (inside dir old q) eqn:Iq.
    + left. split; [|by rewrite Hpb]. apply moving_spec. rewrite Hpb. split; [by eapply live_listed|done].
    + subst q. right. split.
      * apply eq_None_not_Some. intros [c [Hc E]%targets_lookup].
        destruct (Hclear k) as [_ Hin]; [|rewrite Hin in Iq; [done|eauto]]. rewrite <- E. unfold targets. apply list_elem_of_fmap. eauto.
      * apply map_lookup_filter_Some. split; [done|]. simpl. intros [_ Ib]%moving_spec. rewrite Hpb in Ib. congruence.
Qed.

Lemma moved_path_at s' : repathed (list_to_map (zip moving targets)) s s' ->
  (forall b, inode_at s' b = inode_at s b) /\ (forall b, b ∈ gl g -> path_at s' b = renamed dir old new (path_at s b)).
Proof.
  intros [H _]. split.
  - intros b. specialize (H b). unfold inode_at. destruct (files s' !! b), (files s !! b); simpl in *; try done. by injection H.
  - intros b Hb. specialize (H b). rewrite moving_lookup in H.
    pose proof Hb as ([f Hf] & _)%(iv_in _ _ _ Hinv). rewrite Hf in H. unfold path_at at 1. destruct (files s' !! b) as [f'|]; [|done].
    simpl in *. injection H as H _. rewrite H. unfold renamed. destruct (decide (b ∈ moving)) as [[_ ->]%moving_spec|Hn]; [done|].
    destruct (inside dir old (path_at s b)) eqn:Ib; [by destruct Hn; apply moving_spec|]. simpl. unfold path_at. by rewrite Hf.
Qed.

Lemma abs_moved s' : repathed (list_to_map (zip moving targets)) s s' -> abs moved_ghost s' = a_rename dir old new (abs g s).
Proof.
  intros Hrp. destruct (moved_path_at s' Hrp) as [Hi Hp]. destruct Hrp as [_ Hs'].
  assert (opens s' = opens s /\ inodes s' = inodes s /\ vfs_caller_grantor s' = vfs_caller_grantor s /\ next_inode_id s' = next_inode_id s)
    as (E1 & E2 & E3 & E4) by (by rewrite Hs').
  unfold abs, a_rename, with_handles, with_links. cbn [a_links a_order a_nodes a_handles a_roots a_callers a_grantor a_next_ino].
  rewrite E2, E3, E4. f_equal.
  - apply map_eq. intros k. apply option_eq. intros v. rewrite kmap_lookup.
    + rewrite lookup_fmap, fmap_Some. setoid_rewrite moved_ghost_path. split.
      * intros (b & (q & <- & Hq) & ->). exists q. split; [done|]. by rewrite lookup_fmap, Hq, Hi.
      * intros (q & <- & Hq). rewrite lookup_fmap, fmap_Some in Hq. destruct Hq as (b & Hb & ->). exists b. rewrite Hi. eauto.
    + intros p q Hps Hqs. rewrite !lookup_fmap, !fmap_is_Some in *. by apply renamed_inj.
  - unfold moved_ghost, with_paths, rename_order. cbn [gl]. rewrite fmap_app. f_equal.
    + rewrite fmap_reverse. f_equal. rewrite filter_fmap_comm, <- list_fmap_compose. apply list_fmap_ext. intros i b Hb%list_elem_of_lookup_2.
      simpl. apply moving_spec in Hb as [Hb Ib]. rewrite Hp by done. unfold renamed. by rewrite Ib.
    + rewrite filter_fmap_comm. rewrite (filter_ext_in _ (fun b => inside dir old (path_at s b) = false)).
      * apply list_fmap_ext. intros i b Hb%list_elem_of_lookup_2. apply list_elem_of_filter in Hb as [Ib Hb]. rewrite Hp by done. unfold renamed. by rewrite Ib.
      * intros b Hb. rewrite moving_spec. destruct (inside dir old (path_at s b)); [split; [intros H; by destruct H|done]|]. split; [done|]. by intros _ [_ ?].
  - rewrite <- map_fmap_compose. apply map_fmap_ext. intros id b (o & Ho & _)%(iv_open _ _ _ Hinv). simpl. unfold handle_at. rewrite E1, Ho. simpl.
    unfold handle_of. destruct (is_file o) eqn:Ef; [|done]. simpl. f_equal. apply Hp. destruct (iv_target _ _ _ Hinv b o Ho) as (_ & [Hk|[_ [f Hf]]]);
      [unfold is_file in Ef; by rewrite Hk in Ef|]. by eapply live_listed.
Qed.

(** The entries taken out and put back. *)
Lemma move_ok : exists s1 s', remove_all moving s = Some s1 /\ insert_all moving targets s1 = Some (0, s') /\ inv ∅ moved_ghost s' /\
  abs moved_ghost s' = a_rename dir old new (abs g s).
Proof.
  destruct (remove_all_ok moving ∅ g s Hinv moving_nodup) as (s1 & Hrem & Hrel & Hinv1); [by intros a [? _]%moving_spec|].
  destruct (insert_all_ok moving targets _ _ s1 Hinv1) as (s' & Hins & Hrp & Hinv2).
  - unfold targets. by rewrite length_fmap.
  - apply moving_nodup.
  - apply targets_nodup.
  - intros a Ha. split; [rewrite elem_of_union, elem_of_list_to_set; by right|]. apply moving_spec in Ha as [([f Hf] & HX)%(iv_in _ _ _ Hinv) _].
    destruct (iv_linked _ _ _ Hinv a f Hf) as [[? _]|Hi]; [done|]. destruct (relinked_fields _ _ Hrel) as (-> & _). destruct Hrel as [Hal _].
    destruct (alike_lookup _ _ a f Hal Hf) as (f' & Hf' & _ & _ & _ & E). exists f'. by rewrite E.
  - intros p Hp. destruct (Hclear p Hp) as [Hlen Hin]. split; [|done]. simpl. apply map_lookup_filter_None. right. intros b Hb. simpl. intros Hn. apply Hn, moving_spec.
    rewrite (path_at_entry g s Hinv p b Hb). split; [|by eauto]. apply (iv_path _ _ _ Hinv) in Hb as (f & Hf & _). by eapply live_listed.
  - exists s1, s'. do 2 (split; [done|]). split.
    + simpl in Hinv2. unfold moved_ghost. unfold with_paths in *. simpl in *.
      replace ((∅ ∪ list_to_set moving) ∖ list_to_set moving) with (∅ : gset Z) in Hinv2 by (clear; apply set_eq; intros; set_solver). done.
    + apply abs_moved. rewrite <- (left_id_L ∅ (∪) (list_to_map _)). eapply repathed_trans; [apply map_disjoint_empty_l|by apply relinked_repathed|done].
Qed.
End Move.

Lemma moving_single g s p a : inv ∅ g s -> gp g !! p = Some a -> moving g s false p = [a].
Proof.
  intros Hinv Hp. assert (forall b, b ∈ gl g -> inside false p (path_at s b) = true <-> b = a) as Hiff.
  { intros b Hb. unfold inside. simpl. rewrite orb_false_r, bool_decide_eq_true. split.
    - intros E. apply (listed_entry g s Hinv) in Hb. congruence.
    - intros ->. by apply (path_at_entry g s Hinv). }
  unfold moving. rewrite (filter_ext_in _ (fun b => b = a)) by done.
  pose proof Hp as (f & Hf & _)%(iv_path _ _ _ Hinv). pose proof (live_listed g s Hinv a f Hf) as Hin.
  destruct (iv_list _ _ _ Hinv) as (_ & Hnd & _). clear -Hin Hnd. revert Hin Hnd. generalize (gl g). intros l (l1 & l2 & ->)%list_elem_of_split Hnd.
  assert (forall l, a ∉ l -> filter (fun b => b = a) l = []) as Hnil.
  { intros k Ha. induction k as [|b k IH]; [done|]. rewrite filter_cons_False; [apply IH|]; set_solver. }
  apply NoDup_app in Hnd as (_ & Hn & [Ha _]%NoDup_cons). rewrite filter_app, filter_cons_True, !Hnil; [done|done| |done].
  intros Hl. apply (Hn a Hl). set_solver.
Qed.

Lemma move_file_ok g s p a new : inv ∅ g s -> gp g !! p = Some a -> gp g !! new = None -> (String.length new < 4096)%nat ->
  exists rc s' g' mem, file_move_to_path a new s = Some (rc, s') /\ inv ∅ g' s' /\ (mem = false -> ~ plenty 1 s) /\
    if mem then rc = 0 /\ abs g' s' = a_rename false p new (abs g s) else rc = -1 /\ abs g' s' = abs g s.
Proof.
  intros Hinv Hp Hnew Hlen. pose proof (path_at_entry g s Hinv p a Hp) as Hpa. destruct (entry_ok g s p a Hinv Hp) as (f & _ & Ha0 & Hf & _).
  unfold file_move_to_path. decide_tests. rewrite (file_find_ok ∅ g s Hinv), Hnew. simpl. unfold str_dup. rewrite str_len_small by done.
  unfold TMPFS_MAX_PATH. replace (_ =? 4096) with false by lia. destruct (talloc_bytes_ok s) as (l & Hs & Hcase).
  destruct (talloc_bytes s) as [ok s1]. simpl in Hs, Hcase. subst s1. destruct Hcase as [[-> Hno]|[-> _]]; simpl.
  { eexists (-1), _, g, false. split; [done|]. split; [by apply inv_alloc|]. done. }
  rewrite Hf. simpl. pose proof (inv_alloc _ _ _ l Hinv) as Hinv'.
  assert (moving g (set_alloc l s) false p = [a]) as Hmv by (by apply moving_single).
  assert (targets g (set_alloc l s) false p new = [new]) as Htg.
  { unfold targets. rewrite Hmv. simpl. change (path_at (set_alloc l s) a) with (path_at s a). by rewrite Hpa, moved_path_self. }
  destruct (move_ok g (set_alloc l s) Hinv' false p new) as (s2 & s3 & Hrem & Hins & Hinv3 & Habs).
  { unfold clear_way. rewrite Htg. intros q ->%list_elem_of_singleton. split; [done|]. rewrite Hnew. by intros [? ?]. }
  rewrite Hmv, ?Htg in *. simpl in Hrem, Hins.
  destruct (files_remove_file a (set_alloc l s)) as [x|]; [|done]. simpl in *. injection Hrem as ->.
  destruct (files_insert_file a _) as [[rc y]|]; [|done]. simpl in *. destruct (Z.eqb_spec rc 0) as [->|]; simpl in *; [|done]. injection Hins as ->.
  eexists 0, s3, _, true. split; [done|]. split; [exact Hinv3|]. done.
Qed.

(** ** Walks over the list of entries *)

Section Walk.
Context (g : ghost) (s : tmpfs) (Hinv : inv ∅ g s).

Lemma walk_step l1 a l2 : gl g = l1 ++ a :: l2 -> exists f, a <> 0 /\ files s !! a = Some f /\ f_next f = hd 0 l2 /\ file_is_valid a s = Some true /\
  f_deleted f = false /\ f_path f = path_at s a /\ (String.length (path_at s a) < 4096)%nat.
Proof.
  intros Hl. assert (a ∈ gl g) as ([f Hf] & HX)%(iv_in _ _ _ Hinv) by (rewrite Hl; set_solver). exists f.
  destruct (iv_file _ _ _ Hinv a f Hf) as (Hd & Hlen & _). pose proof (iv_list _ _ _ Hinv) as Hdl. rewrite Hl in Hdl.
  destruct (dll_next _ _ _ _ _ Hdl) as (f' & Hf' & _ & Hn). rewrite Hf in Hf'. injection Hf' as <-.
  assert (path_at s a = f_path f) as -> by (unfold path_at; by rewrite Hf).
  split; [destruct (iv_null _ _ _ Hinv) as (N & _); congruence|]. repeat split; try done. by apply (valid_ok ∅ g s Hinv a f).
Qed.

Lemma order_size : length (gl g) = size (gp g).
Proof.
  rewrite <- length_map_to_list, <- (length_fmap snd). apply Permutation_length, NoDup_Permutation.
  - by destruct (iv_list _ _ _ Hinv) as (_ & ? & _).
  - apply NoDup_fmap_2_strong; [|apply NoDup_map_to_list]. intros [p a] [q b] Hp%elem_of_map_to_list Hq%elem_of_map_to_list E. simpl in E. subst b.
    f_equal. by apply (entry_inj ∅ g s Hinv p q a).
  - intros a. rewrite list_elem_of_fmap. split.
    + intros Ha. exists (path_at s a, a). split; [done|]. apply elem_of_map_to_list. by apply (listed_entry g s Hinv).
    + intros ([p b] & -> & Hp%elem_of_map_to_list). apply (iv_path _ _ _ Hinv) in Hp as (f & Hf & _). by eapply (live_listed g s Hinv).
Qed.

Lemma small_ok : a_small (abs g s) = (length (gl g) <? Z.to_nat TMPFS_TREE_WALK_LIMIT)%nat.
Proof.
  unfold a_small. simpl. rewrite map_size_fmap, <- order_size. unfold TMPFS_TREE_WALK_LIMIT.
  destruct (Nat.ltb_spec (length (gl g)) (Z.to_nat 8192)); [apply bool_decide_eq_true_2|apply bool_decide_eq_false_2]; lia.
Qed.

Lemma collect_ok old : (String.length old < 4096)%nat -> forall l2 l1 n, gl g = l1 ++ l2 ->
  collect_subtree n (hd 0 l2) old s =
    Some (if (length l2 <? n)%nat then Some (filter (fun a => inside true old (path_at s a) = true) l2) else None).
Proof.
  intros Hold. induction l2 as [|a l2 IH]; intros l1 n Hl; [by destruct n|].
  destruct (walk_step l1 a l2 Hl) as (f & Ha0 & Hf & Hn & Hval & Hdel & Hpath & Hlen). simpl hd.
  destruct n as [|n]; cbn [collect_subtree]; decide_tests; [done|]. rewrite Hval. simpl. unfold file_in_renamed_subtree. rewrite Hval. simpl.
  rewrite Hf. simpl. rewrite Hdel, Hn, Hpath. simpl. rewrite (IH (l1 ++ [a]) n) by (by rewrite <- app_assoc). simpl.
  rewrite str_eq_ok by done. fold (inside true old (path_at s a)). change (S (length l2) <? S n)%nat with (length l2 <? n)%nat.
  rewrite filter_cons. destruct (length l2 <? n)%nat; simpl; [|done].
  replace (bool_decide (path_at s a = old) || path_has_prefix_child (path_at s a) old) with (inside true old (path_at s a)) by done.
  destruct (inside true old (path_at s a)); [by rewrite decide_True|by rewrite decide_False].
Qed.
End Walk.

#[local] Arguments collect_subtree : simpl never.

(** ** Moving a directory *)

Section Subtree.
Context (g : ghost) (s0 : tmpfs) (Hinv0 : inv ∅ g s0) (old new : string).
Context (Hold : (String.length old < 4096)%nat) (Hnew : (String.length new < 4096)%nat).

Definition target (a : Z) : string := moved_path old new (path_at s0 a).
Definition good (a : Z) : Prop :=
  Z.of_nat (String.length (target a)) < TMPFS_MAX_PATH /\ (is_Some (gp g !! target a) -> inside true old (target a) = true).

#[local] Instance good_dec a : Decision (good a).
Proof. unfold good. apply _. Qed.

Lemma string_app_length a b : String.length (a ++ b) = (String.length a + String.length b)%nat.
Proof. induction a as [|c a IH]; [done|]. change (S (String.length (a ++ b)) = S (String.length a + String.length b)). by rewrite IH. Qed.

Lemma renamed_path_ok p : inside true old p = true ->
  tmpfs_renamed_subtree_path old new p =
    if decide (Z.of_nat (String.length (moved_path old new p)) < TMPFS_MAX_PATH) then Some (moved_path old new p) else None.
Proof.
  intros Hin. unfold tmpfs_renamed_subtree_path, moved_path. rewrite !str_len_small by done. rewrite Nat2Z.id, string_app_length.
  replace (TMPFS_MAX_PATH <=? Z.of_nat (String.length new)) with false by (unfold TMPFS_MAX_PATH; lia).
  replace (TMPFS_MAX_PATH <=? Z.of_nat (String.length old)) with false by (unfold TMPFS_MAX_PATH; lia). simpl orb.
  assert ((match str_drop (String.length old) p with EmptyString => false | String c _ => negb (bool_decide (c = slash)) end) = false) as ->.
  { unfold inside in Hin. rewrite orb_true_iff, bool_decide_eq_true in Hin. simpl in Hin. destruct Hin as [->|[r ->]%prefix_child_split].
    - by rewrite str_drop_all.
    - by rewrite str_drop_app. }
  case_decide; [rewrite (proj2 (Z.leb_gt _ _))|rewrite (proj2 (Z.leb_le _ _))]; try done; lia.
Qed.

Lemma subtree_paths_ok mv : (forall a, a ∈ mv -> a ∈ moving g s0 true old) -> forall l0, exists r l,
  subtree_paths mv (moving g s0 true old) old new (set_alloc l0 s0) = Some (r, set_alloc l s0) /\
  (r = Some (target <$> mv) /\ (forall a, a ∈ mv -> good a) \/
   r = None /\ ((exists a, a ∈ mv /\ ~ good a) \/ ~ plenty (length mv) (set_alloc l0 s0))).
Proof.
  induction mv as [|a mv IH]; intros Hmv l0.
  { exists (Some []), l0. split; [done|]. left. split; [done|]. intros a Ha. by apply elem_of_nil in Ha. }
  pose proof (Hmv a ltac:(by left)) as [Hag Hin]%moving_spec. pose proof Hag as ([f Hf] & _)%(iv_in _ _ _ Hinv0).
  assert (path_at s0 a = f_path f) as Hpa by (unfold path_at; by rewrite Hf). cbn [subtree_paths]. cbn [files set_alloc]. rewrite Hf. simpl.
  rewrite <- Hpa, renamed_path_ok by done. fold (target a). case_decide as Hlen; cycle 1.
  { exists None, l0. split; [done|]. right. split; [done|]. left. exists a. split; [by left|]. intros [? _]. done. }
  rewrite (file_find_ok ∅ g (set_alloc l0 s0)) by (by apply inv_alloc). simpl.
  assert (negb (default 0 (gp g !! target a) =? 0) && negb (tmpfs_file_ptr_in_set (moving g s0 true old) (default 0 (gp g !! target a))) =
    negb (bool_decide (good a))) as ->.
  { destruct (gp g !! target a) as [b|] eqn:Hb; simpl; [|by rewrite bool_decide_eq_true_2; [|split; [done|]; rewrite Hb; intros [? ?]]].
    destruct (entry_live ∅ g s0 Hinv0 _ b Hb) as (fb & _ & Hfb & _ & _ & Hb0 & _). decide_tests. simpl. f_equal. unfold tmpfs_file_ptr_in_set.
    apply bool_decide_ext. rewrite (moving_spec g s0 true old), (path_at_entry g s0 Hinv0 _ b Hb). split.
    - intros [_ Hi]. split; [done|]. done.
    - intros [_ Hi]. split; [by eapply (live_listed g s0 Hinv0)|]. apply Hi. by rewrite Hb. }
  destruct (bool_decide (good a)) eqn:Hgood; simpl; cycle 1.
  { apply bool_decide_eq_false_1 in Hgood. exists None, l0. split; [done|]. right. split; [done|]. left. exists a. split; [by left|done]. }
  apply bool_decide_eq_true_1 in Hgood. unfold str_dup. rewrite str_len_small by (unfold TMPFS_MAX_PATH in Hlen; lia). unfold TMPFS_MAX_PATH.
  replace (_ =? 4096) with false by (unfold TMPFS_MAX_PATH in Hlen; lia).
  destruct (talloc_bytes_ok (set_alloc l0 s0)) as (l1 & Hs1 & Hcase). destruct (talloc_bytes (set_alloc l0 s0)) as [ok s1]. simpl in Hs1, Hcase. subst s1.
  destruct Hcase as [[-> Hno]|[-> Hpl]]; simpl.
  { exists None, l1. split; [done|]. right. split; [done|]. right. intros H. apply Hno. eapply plenty_le; [|done]. simpl. lia. }
  change (set_alloc l1 (set_alloc l0 s0)) with (set_alloc l1 s0). destruct (IH ltac:(intros b Hb; apply Hmv; by right) l1) as (r & l & -> & Hr). simpl.
  destruct Hr as [[-> Hall]|[-> Hr]].
  - exists (Some (target a :: (target <$> mv))), l. split; [done|]. left. split; [done|]. intros b [->|Hb]%elem_of_cons; [done|by apply Hall].
  - exists None, l. split; [done|]. right. split; [done|]. destruct Hr as [(b & Hb & Hbad)|Hr]; [left; exists b; split; [by right|done]|right].
    intros H. apply Hr, (Hpl (length mv)); [done|done|]. by intros b [].
Qed.

Lemma movable_ok : a_movable old new (abs g s0) = true <-> forall a, a ∈ moving g s0 true old -> good a.
Proof.
  unfold a_movable. rewrite bool_decide_eq_true. unfold map_Forall. split.
  - intros H a [Ha Hin]%moving_spec. destruct (H (path_at s0 a) (inode_at s0 a)) as [H1 H2]; [|done|].
    + simpl. by rewrite lookup_fmap, (listed_entry g s0 Hinv0 a Ha).
    + split; [done|]. intros Hs. apply H2. simpl. by rewrite lookup_fmap, fmap_is_Some.
  - intros H p i Hp Hin. simpl in Hp. rewrite lookup_fmap, fmap_Some in Hp. destruct Hp as (a & Ha & _).
    pose proof (path_at_entry g s0 Hinv0 p a Ha) as Hpa. destruct (H a) as [H1 H2].
    + apply moving_spec. rewrite Hpa. split; [|done]. apply (iv_path _ _ _ Hinv0) in Ha as (f & Hf & _). by eapply (live_listed g s0 Hinv0).
    + unfold target in *. rewrite Hpa in *. split; [done|]. simpl. rewrite lookup_fmap, fmap_is_Some. done.
Qed.
End Subtree.

Lemma moving_length g s old : (length (moving g s true old) <= length (gl g))%nat.
Proof. unfold moving. generalize (gl g). intros l. induction l as [|a l IH]; [done|]. rewrite filter_cons. case_decide; simpl; lia. Qed.

Definition move_subtree (moved : list Z) (old new : string) (s : tmpfs) : option (Z * tmpfs) :=
  let '(ok1, s) := talloc_bytes s in
  let '(ok2, s) := talloc_bytes s in
  if negb ok1 || negb ok2 then Some (-1, s) else
  '(paths, s) ← subtree_paths moved moved old new s;
  match paths with
  | None => Some (-1, s)
  | Some paths => s ← remove_all moved s; insert_all moved paths s
  end.

Lemma move_subtree_ok g s p new : inv ∅ g s -> (String.length p < 4096)%nat -> (String.length new < 4096)%nat ->
  exists rc s' g' mem, move_subtree (moving g s true p) p new s = Some (rc, s') /\ inv ∅ g' s' /\ (mem = false -> ~ plenty (2 + length (gl g)) s) /\
    if negb (a_movable p new (abs g s)) then rc = -1 /\ abs g' s' = abs g s else
    if mem then rc = 0 /\ abs g' s' = a_rename true p new (abs g s) else rc = -1 /\ abs g' s' = abs g s.
Proof.
  intros Hinv Hplen Hlen. unfold move_subtree. pose proof (moving_length g s p) as Hml.
  destruct (talloc_bytes_ok s) as (l1 & Hs1 & Hcase1). destruct (talloc_bytes s) as [ok1 s1]. simpl in Hs1, Hcase1. subst s1.
  destruct (talloc_bytes_ok (set_alloc l1 s)) as (l2 & Hs2 & Hcase2). destruct (talloc_bytes (set_alloc l1 s)) as [ok2 s2]. simpl in Hs2, Hcase2. subst s2.
  change (set_alloc l2 (set_alloc l1 s)) with (set_alloc l2 s) in *.
  assert (forall mem, (mem = false -> ~ plenty (2 + length (gl g)) s) -> (mem = true -> a_movable p new (abs g s) = false) -> forall l,
    exists rc s' g' mem, Some (-1, set_alloc l s) = Some (rc, s') /\ inv ∅ g' s' /\ (mem = false -> ~ plenty (2 + length (gl g)) s) /\
    if negb (a_movable p new (abs g s)) then rc = -1 /\ abs g' s' = abs g s else
    if mem then rc = 0 /\ abs g' s' = a_rename true p new (abs g s) else rc = -1 /\ abs g' s' = abs g s) as Hfail.
  { intros mem Hm1 Hm2 l. exists (-1), (set_alloc l s), g, mem. split; [done|]. split; [by apply inv_alloc|]. split; [done|].
    destruct (a_movable p new (abs g s)); simpl; [|done]. destruct mem; [by specialize (Hm2 eq_refl)|done]. }
  destruct Hcase1 as [[-> Hno]|[-> Hpl1]].
  { simpl. apply (Hfail false); [|done]. intros _ H. apply Hno. eapply plenty_le; [|done]. lia. }
  destruct Hcase2 as [[-> Hno]|[-> Hpl2]].
  { simpl. apply (Hfail false); [|done]. intros _ H. apply Hno. apply (Hpl1 1%nat); [|done|by intros b []]. eapply plenty_le; [|done]. lia. }
  simpl. destruct (subtree_paths_ok g s Hinv p new Hplen Hlen (moving g s true p) ltac:(done) l2) as (r & l & -> & Hr). simpl.
  destruct Hr as [[-> Hgood]|[-> Hr]]; cycle 1.
  { destruct Hr as [(a & Ha & Hbad)|Hno].
    - apply (Hfail true); [done|]. intros _. apply not_true_is_false. intros H. apply Hbad. by apply (movable_ok g s Hinv p new).
    - apply (Hfail false); [|done]. intros _ H. apply Hno. eapply plenty_le; [exact Hml|]. apply (Hpl2 _ (set_alloc l2 s)); [|done|by intros b []].
      apply (Hpl1 _ (set_alloc l1 s)); [done|done|by intros b []]. }
  assert (a_movable p new (abs g s) = true) as -> by (by apply (movable_ok g s Hinv p new)). simpl.
  destruct (move_ok g (set_alloc l s) (inv_alloc _ _ _ l Hinv) true p new) as (s3 & s4 & Hrem & Hins & Hinv' & Habs).
  { intros q (a & -> & Ha)%list_elem_of_fmap. destruct (Hgood a Ha) as [H1 H2]. unfold TMPFS_MAX_PATH in H1. split; [|done].
    unfold target in H1. change (path_at (set_alloc l s) a) with (path_at s a). lia. }
  change (moving g (set_alloc l s) true p) with (moving g s true p) in *. rewrite Hrem. simpl.
  change (targets g (set_alloc l s) true p new) with (target s p new <$> moving g s true p) in Hins. rewrite Hins.
  eexists 0, s4, _, true. split; [done|]. split; [exact Hinv'|]. done.
Qed.

Lemma move_dir_ok g s p a n new : inv ∅ g s -> gp g !! p = Some a -> inode_of a s = Some n -> (i_type n =? BUNIX_VFS_TYPE_DIRECTORY) = true ->
  path_has_prefix_child new p = false -> (String.length new < 4096)%nat ->
  exists rc s' g' mem, file_move_subtree_to_path a new s = Some (rc, s') /\ inv ∅ g' s' /\ (mem = false -> ~ plenty (2 + Z.to_nat TMPFS_TREE_WALK_LIMIT) s) /\
    let A := abs g s in
    if negb (match a_parent A new with Some q => is_dir q | None => false end && a_small A && a_movable p new A) then rc = -1 /\ abs g' s' = A else
    if mem then rc = 0 /\ abs g' s' = a_rename true p new A else rc = -1 /\ abs g' s' = A.
Proof.
  intros Hinv Hp Hn Hdir Hpre Hlen. cbv zeta. destruct (entry_ok g s p a Hinv Hp) as (f & n' & Ha0 & Hf & Hfp & Hdel & Hi0 & Hn' & Hio & _).
  rewrite Hn in Hio. injection Hio as <-. assert (String.length p < 4096)%nat as Hplen by (rewrite <- Hfp; by apply (iv_file _ _ _ Hinv a f)).
  unfold file_move_subtree_to_path. decide_tests. rewrite Hf. simpl. rewrite Hn'. simpl. rewrite Hdel, Hdir. simpl.
  rewrite (path_parent_exists_ok ∅ g s Hinv) by done. rewrite (abs_parent g s Hinv). simpl.
  replace (match node_of <$> g_parent g s new with Some q => is_dir q | None => false end) with
    (match g_parent g s new with Some n0 => i_type n0 =? BUNIX_VFS_TYPE_DIRECTORY | None => false end) by (by destruct (g_parent g s new)).
  destruct (match g_parent g s new with Some n0 => _ | None => false end); simpl; [|by eexists (-1), s, g, true].
  rewrite Hfp, Hpre. rewrite str_len_small by done. unfold TMPFS_MAX_PATH. replace (4096 <=? _) with false by lia. simpl.
  assert (files_head s = hd 0 (gl g)) as -> by (by destruct (iv_list _ _ _ Hinv)).
  rewrite (collect_ok g s Hinv p Hplen (gl g) [] _ eq_refl). simpl. rewrite <- (small_ok g s Hinv). destruct (a_small (abs g s)) eqn:Hsm; simpl;
    [|by eexists (-1), s, g, true].
  fold (moving g s true p). pose proof (live_listed g s Hinv a f Hf) as Hal.
  assert (a ∈ moving g s true p) as Ham.
  { apply moving_spec. split; [done|]. rewrite (path_at_entry g s Hinv p a Hp). unfold inside. by rewrite bool_decide_eq_true_2. }
  destruct (move_subtree_ok g s p new Hinv Hplen Hlen) as (rc & s' & g' & mem & Hmv & Hinv' & Hpl & Hres). exists rc, s', g', mem.
  split; [|split; [done|split; [|done]]].
  - rewrite <- Hmv. destruct (moving g s true p); [by apply elem_of_nil in Ham|done].
  - intros Hm H. apply (Hpl Hm). eapply plenty_le; [|done]. rewrite (small_ok g s Hinv) in Hsm. apply Nat.ltb_lt in Hsm. lia.
Qed.

(** ** Listings *)

Section Listing.
Context (g : ghost) (s : tmpfs) (Hinv : inv ∅ g s) (dir : string) (Hdir : (String.length dir < 4096)%nat).

Lemma child_ok l1 a l2 : gl g = l1 ++ a :: l2 -> file_is_child_of a dir s = Some (child_of (path_at s a) dir).
Proof.
  intros Hl. destruct (walk_step g s Hinv l1 a l2 Hl) as (f & Ha0 & Hf & Hn & Hval & Hdel & Hpath & Hlen).
  unfold file_is_child_of. rewrite Hval. simpl. rewrite Hf. simpl. rewrite Hdel, Hpath. simpl. unfold child_of. rewrite str_len_small by done.
  replace (Z.to_nat (Z.of_nat (String.length dir) + 1)) with (String.length dir + 1)%nat by lia. by destruct (path_has_prefix_child _ _).
Qed.

Lemma empty_loop_ok l2 : forall l1 n, gl g = l1 ++ l2 ->
  directory_is_empty_loop n (hd 0 l2) dir s =
    Some ((length l2 <? n)%nat && bool_decide (filter (fun p => child_of p dir = true) (path_at s <$> l2) = [])).
Proof.
  induction l2 as [|a l2 IH]; intros l1 n Hl; [by destruct n|].
  destruct (walk_step g s Hinv l1 a l2 Hl) as (f & Ha0 & Hf & Hn & Hval & _). simpl hd. destruct n as [|n]; cbn [directory_is_empty_loop]; decide_tests; [done|].
  rewrite Hval. cbn [mbind option_bind negb]. rewrite (child_ok l1 a l2 Hl). cbn [mbind option_bind]. change (list_fmap Z string (path_at s) l2) with (path_at s <$> l2). rewrite filter_cons.
  destruct (child_of (path_at s a) dir) eqn:Hc.
  - rewrite decide_True by done. symmetry. f_equal. apply andb_false_r.
  - rewrite decide_False by done. rewrite Hf. simpl. rewrite Hn, (IH (l1 ++ [a]) n) by (by rewrite <- app_assoc). done.
Qed.

Lemma empty_ok : directory_is_empty dir s = Some (a_small (abs g s) && bool_decide (a_children (abs g s) dir = [])).
Proof.
  unfold directory_is_empty. assert (files_head s = hd 0 (gl g)) as -> by (by destruct (iv_list _ _ _ Hinv)).
  rewrite (empty_loop_ok (gl g) []) by done. by rewrite <- (small_ok g s Hinv).
Qed.
End Listing.
