(* ===== verification/TmpfsRefine.v ===== *)
(** * The memory file system keeps its promise

    Every request that [Tmpfs.serve] handles is one that [TmpfsSpec.fs_serve]
    allows, from a state that satisfies the invariant to another one. *)
From stdpp Require Import gmap list strings.
From Stdlib Require Import ZArith Lia ZifyBool Ascii.
From S2P Require Import Prelude Tree Buffer Dll Tmpfs TmpfsSpec TmpfsInv TmpfsOps TmpfsMove.

Open Scope Z_scope.
Open Scope machine_scope.

#[local] Arguments Z.to_nat : simpl never.
#[local] Arguments grow_capacity : simpl never.
#[local] Arguments bunix_buffer_read : simpl never.
#[local] Arguments bunix_buffer_write : simpl never.
#[local] Arguments stat_pack : simpl never.
#[local] Arguments bunix_load_u64_le : simpl never.
#[local] Arguments low32 : simpl never.
#[local] Arguments a_access : simpl never.
#[local] Arguments a_may_chmod : simpl never.
#[local] Arguments high32 : simpl never.

(** ** Messages *)

Record msg_ok (m : bunix_msg) : Prop := {
  mo_cap : match m_cap m with CBuffer b => buffer_wf b | _ => True end;
  mo_word0 : in_u64 (m_word0 m);
  mo_word1 : in_u64 (m_word1 m);
  mo_word2 : in_u64 (m_word2 m);
  mo_word3 : in_u64 (m_word3 m);
}.

Section Messages.
Context (m : bunix_msg) (Hm : msg_ok m).

Lemma mread_ok offset len : in_u64 offset -> in_u64 len ->
  exists rc bytes, bunix_buffer_read m offset len = Some (rc, bytes) /\ (rc = 0 /\ Z.of_nat (length bytes) = len \/ rc = -1 /\ Z.of_nat (length bytes) <= len).
Proof.
  intros Ho Hl. unfold bunix_buffer_read. pose proof (mo_cap m Hm) as Hc. unfold in_u64 in Hl.
  destruct (m_cap m) as [|b|]; [exists (-1), []; split; [done|right; simpl; lia]| |exists (-1), []; split; [done|right; simpl; lia]].
  destruct (has_right BUNIX_RIGHT_RECV m); [|exists (-1), []; split; [done|right; simpl; lia]].
  destruct (sys_read_ok b offset len Hc Ho Hl) as (k & Hk & -> & Hcase). eexists _, _. split; [done|]. destruct Hc as [Hc _]. unfold in_u64 in Ho.
  case_decide as Hd.
  - left. split; [done|]. subst k. destruct Hd as [->|Hd]; [done|]. rewrite slice_length; lia.
  - right. split; [done|]. unfold slice. rewrite length_take. lia.
Qed.

Lemma mwrite_ok offset src : in_u64 offset -> in_u64 (Z.of_nat (length src)) -> exists rc c, bunix_buffer_write m offset src = Some (rc, c).
Proof.
  intros Ho Hl. unfold bunix_buffer_write. pose proof (mo_cap m Hm) as Hc. destruct (m_cap m) as [|b|]; [eauto| |eauto].
  destruct (has_right BUNIX_RIGHT_SEND m); [|eauto]. destruct (sys_write_ok b offset src Hc Ho Hl) as (k & b' & _ & _ & _ & -> & _). simpl. eauto.
Qed.

Lemma path_at_ok offset len : in_u64 offset -> in_u64 len ->
  exists r, read_path_buffer_at m offset len = Some r /\
    forall bytes, r = Some bytes -> Z.of_nat (length bytes) = len /\ 0 < len <= TMPFS_MAX_PATH /\ (String.length (cstring bytes) < 4096)%nat.
Proof.
  intros Ho Hl. unfold read_path_buffer_at. destruct (cap_null m || (len =? 0) || (TMPFS_MAX_PATH <? len)) eqn:Hc; [by exists None|].
  destruct (mread_ok offset len Ho Hl) as (rc & bytes & -> & Hr). simpl.
  destruct (negb (rc =? 0) || negb (nth (Z.to_nat (len - 1)) bytes 0 =? 0)) eqn:Hz; [by exists None|]. exists (Some bytes). split; [done|].
  intros b [= <-]. unfold in_u64, TMPFS_MAX_PATH in *. assert (rc = 0) as -> by lia. destruct Hr as [[_ Hr]|[? _]]; [|lia].
  split; [done|]. split; [lia|]. assert (Z.to_nat (len - 1) < length bytes)%nat as Hlt by lia.
  pose proof (cstring_end bytes _ Hlt ltac:(lia)). lia.
Qed.

Lemma resolved_ok : exists r, read_resolved_path m = Some r /\ forall p, r = Some p -> (String.length p < 4096)%nat /\ starts_with_slash p = true.
Proof.
  unfold read_resolved_path. destruct (has_right BUNIX_RIGHT_RECV m); simpl; [|by exists None].
  destruct (path_at_ok 0 (m_word0 m)) as (r1 & -> & _); [unfold in_u64; lia|apply Hm|]. simpl. destruct r1 as [b1|]; [|by exists None].
  destruct (path_at_ok (m_word0 m) (m_word1 m)) as (r2 & -> & H2); [apply Hm|apply Hm|]. simpl. destruct r2 as [b2|]; [|by exists None].
  destruct (starts_with_slash (cstring b2)) eqn:Hs; [|by exists None]. exists (Some (cstring b2)). split; [done|]. intros p [= <-].
  by destruct (H2 b2 eq_refl) as (_ & _ & ?).
Qed.

Lemma low32_range w : in_u64 (low32 w).
Proof. unfold low32, in_u64. change 4294967295 with (Z.ones 32). rewrite Z.land_ones by lia. pose proof (Z.mod_pos_bound w (2 ^ 32) ltac:(lia)). lia. Qed.

Lemma high32_range w : in_u64 w -> in_u64 (high32 w) /\ high32 w < 2 ^ 32.
Proof.
  unfold high32, in_u64. intros Hw. rewrite Z.shiftr_div_pow2 by lia.
  assert (0 <= w / 2 ^ 32 < 2 ^ 32); [|lia]. split; [apply Z.div_pos; lia|]. apply Z.div_lt_upper_bound; lia.
Qed.

Lemma symlink_ok : exists r, read_symlink_buffer m = Some r /\ forall target path, r = Some (target, path) ->
  (String.length path < 4096)%nat /\ Z.of_nat (length target) = m_word0 m /\ 0 < m_word0 m <= TMPFS_MAX_PATH.
Proof.
  unfold read_symlink_buffer. destruct (has_right BUNIX_RIGHT_RECV m); simpl; [|by exists None].
  destruct (path_at_ok 0 (m_word0 m)) as (r1 & -> & H1); [unfold in_u64; lia|apply Hm|]. simpl. destruct r1 as [b1|]; [|by exists None].
  destruct (path_at_ok (m_word0 m) (m_word1 m)) as (r2 & -> & _); [apply Hm|apply Hm|]. simpl. destruct r2 as [b2|]; [|by exists None].
  destruct (path_at_ok (m_word0 m +w m_word1 m) (m_word2 m)) as (r3 & -> & H3); [apply u64_range|apply Hm|]. simpl. destruct r3 as [b3|]; [|by exists None].
  destruct (starts_with_slash (cstring b3) && _); [|by exists None]. eexists. split; [done|]. intros target path [= <- <-].
  destruct (H1 b1 eq_refl) as (? & ? & _), (H3 b3 eq_refl) as (_ & _ & ?). done.
Qed.

Lemma two_paths_ok : exists r, read_rename_buffer m = Some r /\ forall path new, r = Some (path, new) ->
  (String.length path < 4096)%nat /\ (String.length new < 4096)%nat.
Proof.
  unfold read_rename_buffer. destruct (has_right BUNIX_RIGHT_RECV m); simpl; [|by exists None].
  pose proof (low32_range (m_word1 m)) as R1. pose proof (low32_range (m_word2 m)) as R2.
  destruct (high32_range (m_word1 m) (mo_word1 m Hm)) as [R3 _]. destruct (high32_range (m_word2 m) (mo_word2 m Hm)) as [R4 _].
  destruct (path_at_ok 0 (low32 (m_word1 m))) as (r1 & -> & _); [unfold in_u64; lia|done|]. simpl. destruct r1 as [b1|]; [|by exists None].
  destruct (path_at_ok (low32 (m_word1 m)) (high32 (m_word1 m))) as (r2 & -> & H2); [done|done|]. simpl. destruct r2 as [b2|]; [|by exists None].
  destruct (path_at_ok (low32 (m_word1 m) +w high32 (m_word1 m)) (low32 (m_word2 m))) as (r3 & -> & _); [apply u64_range|done|]. simpl.
  destruct r3 as [b3|]; [|by exists None].
  destruct (path_at_ok (low32 (m_word1 m) +w high32 (m_word1 m) +w low32 (m_word2 m)) (high32 (m_word2 m))) as (r4 & -> & H4); [apply u64_range|done|].
  simpl. destruct r4 as [b4|]; [|by exists None]. destruct (starts_with_slash (cstring b2) && _); [|by exists None].
  eexists. split; [done|]. intros p n [= <- <-]. destruct (H2 b2 eq_refl) as (_ & _ & ?), (H4 b4 eq_refl) as (_ & _ & ?). done.
Qed.

Lemma path_cap_ok : exists r, bunix_read_path_cap m = Some r /\ forall p, r = Some p -> (String.length p < 4096)%nat.
Proof.
  unfold bunix_read_path_cap. destruct ((m_word0 m =? 0) || (TMPFS_MAX_PATH <? m_word0 m) || _) eqn:Hc; [by exists None|].
  destruct (mread_ok 0 (m_word0 m)) as (rc & bytes & -> & Hr); [unfold in_u64; lia|apply Hm|]. simpl.
  destruct (negb (rc =? 0) || _) eqn:Hz; [by exists None|]. eexists. split; [done|]. intros p [= <-]. unfold TMPFS_MAX_PATH in Hc.
  pose proof (mo_word0 m Hm) as Hw. unfold in_u64 in Hw. assert (rc = 0) as -> by lia. destruct Hr as [[_ Hr]|[? _]]; [|lia].
  assert (Z.to_nat (m_word0 m - 1) < length bytes)%nat as Hlt by lia. pose proof (cstring_end bytes _ Hlt ltac:(lia)). lia.
Qed.
End Messages.

(** No handle is open on the entry at a path. *)
Definition closed (A : afs) (path : string) : Prop := forall id owner, a_handles A !! id <> Some (AFile owner path).

Lemma closed_ok g s p a : inv ∅ g s -> gp g !! p = Some a -> closed (abs g s) p -> opens_of a (opens s) = 0.
Proof.
  intros Hinv Hp Hc. apply opens_of_zero. intros op o Ho Hf E. apply (Hc (o_id o) (o_owner o)). simpl. rewrite lookup_fmap.
  assert (go g !! o_id o = Some op) as -> by (apply (iv_open _ _ _ Hinv); eauto). simpl. unfold handle_at. rewrite Ho. simpl.
  unfold handle_of. rewrite Hf, E. do 2 f_equal. by apply (path_at_entry g s Hinv).
Qed.

(** ** What a request has to do *)

(** With this many allocations every request finds the memory it asks for. *)
Definition enough : nat := 2 + Z.to_nat TMPFS_TREE_WALK_LIMIT.

Lemma enough_le n s : Z.of_nat n <= 8194 -> plenty enough s -> plenty n s.
Proof. intros Hn. apply plenty_le. unfold enough, TMPFS_TREE_WALK_LIMIT. lia. Qed.
#[local] Opaque enough.

(** [mem] is false only when an allocation failed. *)
Definition fulfils (spec : bool -> outcome -> Prop) (g : ghost) (s : tmpfs) (r : option result) : Prop :=
  exists w c s' g' mem, r = Some (w, c, s') /\ inv ∅ g' s' /\ spec mem (w, c, abs g' s') /\ (mem = false -> ~ plenty enough s).

Lemma fulfils_same spec g s w c : inv ∅ g s -> spec true (w, c, abs g s) -> fulfils spec g s (Some (w, c, s)).
Proof. intros Hinv Hs. exists w, c, s, g, true. done. Qed.

Lemma fulfils_weaken (spec spec' : bool -> outcome -> Prop) g s r : (forall mem o, spec mem o -> spec' mem o) -> fulfils spec g s r -> fulfils spec' g s r.
Proof. intros H (w & c & s' & g' & mem & H1 & H2 & H3 & H4). exists w, c, s', g', mem. auto. Qed.

Lemma fulfils_from spec g s g1 s1 r : fulfils spec g1 s1 r -> (plenty enough s -> plenty enough s1) -> fulfils spec g s r.
Proof. intros (w & c & s' & g' & mem & H1 & H2 & H3 & H4) H. exists w, c, s', g', mem. do 3 (split; [done|]). intros Hmem Hp. apply (H4 Hmem), H, Hp. Qed.

Lemma rename_move_ok m g s path new a n : inv ∅ g s -> gp g !! path = Some a -> inode_of a s = Some n -> gp g !! new = None ->
  is_dir (node_of n) && path_has_prefix_child new path = false -> (String.length new < 4096)%nat ->
  fulfils (fun mem => sp_move m mem (abs g s) path new (is_dir (node_of n))) g s (rename_move m a (is_dir (node_of n)) new s).
Proof.
  intros Hinv Hp Hn Hnew Hpre Hlen. unfold rename_move, sp_move. destruct (is_dir (node_of n)) eqn:Hd; cbn [andb] in *.
  - destruct (move_dir_ok g s path a n new Hinv Hp Hn Hd Hpre Hlen) as (rc & s' & g' & mem & -> & Hinv' & Hpl & Hres). cbn [mbind option_bind].
    cbv zeta in Hres. eexists _, _, s', g', mem. split; [done|]. split; [done|]. split; [|done].
    destruct (negb _); [by destruct Hres as [-> ->]|]. destruct mem; by destruct Hres as [-> ->].
  - destruct (move_file_ok g s path a new Hinv Hp Hnew Hlen) as (rc & s' & g' & mem & -> & Hinv' & Hpl & Hres). cbn [mbind option_bind].
    eexists _, _, s', g', mem. split; [done|]. split; [done|]. split; [destruct mem; by destruct Hres as [-> ->]|].
    intros Hmem H. apply (Hpl Hmem). by apply (enough_le 1); [lia|].
Qed.

Lemma a_unlink_node A new p x : p <> new -> a_node (a_unlink new A) p = Some x -> a_node A p = Some x.
Proof.
  intros Hne. unfold a_node, a_unlink. destruct (a_links A !! new) as [i|]; [destruct (bool_decide _)|];
    cbn [a_links a_nodes with_links with_nodes]; rewrite lookup_delete_ne by done; [|done..].
  destruct (a_links A !! p) as [j|]; [|done]. simpl. by intros [_ ?]%lookup_delete_Some.
Qed.

Section Handlers.
Context (e : env) (m : bunix_msg) (Hm : msg_ok m) (g : ghost) (s : tmpfs) (Hinv : inv ∅ g s).
Notation A := (abs g s).

Lemma fulfils_fail spec w : spec true (status w, m_cap m, A) -> fulfils spec g s (fail m w s).
Proof. by apply fulfils_same. Qed.

Lemma on_path_ok (k' : bool -> string -> outcome -> Prop) k :
  (forall path, (String.length path < 4096)%nat -> fulfils (fun mem => k' mem path) g s (k path)) ->
  fulfils (fun mem => sp_path m A (k' mem)) g s (on_path m s k).
Proof.
  intros Hk. unfold on_path, sp_path. destruct (resolved_ok m Hm) as (r & -> & Hr). simpl. destruct r as [p|]; [|by apply fulfils_fail].
  apply Hk. by apply Hr.
Qed.

Lemma find_path_ok p : file_find p s = Some (default 0 (gp g !! p)).
Proof. by apply (file_find_ok ∅). Qed.

Lemma root_ok p : (String.length p < 4096)%nat -> path_is_root p s = Some (a_is_root A p).
Proof. intros Hp. rewrite (abs_is_root g s). by apply (path_is_root_ok ∅). Qed.

Lemma parent_access_ok p mask : (String.length p < 4096)%nat ->
  exists pf, parent_file_for_path p s = Some pf /\ task_can_access e (subject m) pf mask s = Some (a_access e (subject m) (a_parent A p) mask) /\
    (pf = PNull <-> a_parent A p = None).
Proof.
  intros Hp. destruct (can_access_ok ∅ g s Hinv e (subject m) p mask Hp) as (pf & H1 & H2 & H3). exists pf. split; [done|].
  rewrite (abs_parent g s Hinv), abs_access. split; [done|]. rewrite H3. by destruct (g_parent g s p).
Qed.

Lemma none_ok p : gp g !! p = None -> a_links A !! p = None /\ a_node A p = None.
Proof. intros Hp. unfold a_node. rewrite abs_links_lookup, Hp. done. Qed.

Lemma access_entry_ok p a n task mask : gp g !! p = Some a -> g_node g s p = Some n ->
  task_can_access e task (PFile a) mask s = Some (a_access e task (Some (node_of n)) mask).
Proof. intros Hp Hn. rewrite (entry_access ∅ g s Hinv e task p a mask Hp), Hn. done. Qed.

Lemma node_ok p a n : gp g !! p = Some a -> g_node g s p = Some n -> a_node A p = Some (node_of n).
Proof. intros Hp Hn. by rewrite (abs_node g s Hinv), Hn. Qed.

Lemma data_length n : inode_ok n -> Z.of_nat (length (a_data (node_of n))) = i_size n.
Proof. intros [Hd Hs _]. simpl. rewrite length_take. destruct (i_data n); simpl; lia. Qed.

Lemma handle_ok h size type id g' s' : opened h g s id g' s' ->
  fulfils (fun mem => sp_handle m mem A h size type) g s (Some (mk_words (if id =? 0 then ERR else 0) id size type, m_cap m, s')).
Proof.
  intros (H1 & H2 & [(-> & H3 & H4)|(H3 & H4 & H5)]).
  - eexists _, _, s', g', false. split; [done|]. split; [done|]. split; [simpl; by rewrite H3|]. intros _ H. apply H4. by apply (enough_le 1); [lia|].
  - replace (id =? 0) with false by lia. eexists _, _, s', g', true. split; [done|]. split; [done|]. split; [|done]. exists id.
    split; [lia|]. split; [unfold in_u64; lia|]. split; [done|]. by rewrite H5.
Qed.

Lemma open_ok : fulfils (fun mem => sp_open m mem A) g s (vfs_open_buffer m s).
Proof.
  apply on_path_ok. intros path Hlen. rewrite root_ok by done. simpl. destruct (a_is_root A path).
  { destruct (open_dir_ok g s path (m_sender m) Hinv Hlen) as (id & s' & g' & -> & Ho). simpl. by apply (handle_ok _ _ _ _ g'). }
  rewrite find_path_ok. simpl. destruct (gp g !! path) as [a|] eqn:Hp; cycle 1.
  { apply fulfils_fail. destruct (none_ok path Hp) as [_ ->]. done. }
  destruct (entry_ok g s path a Hinv Hp) as (f & n & Ha0 & Hf & _ & _ & _ & Hn & Hio & Hok & _ & _ & _ & Hg). simpl. decide_tests. rewrite Hio. simpl.
  rewrite (node_ok path a n Hp Hg), (data_length n Hok). unfold is_dir. cbn [a_type node_of].
  destruct (i_type n =? BUNIX_VFS_TYPE_DIRECTORY).
  - destruct (open_dir_ok g s path (m_sender m) Hinv Hlen) as (id & s' & g' & -> & Ho). simpl. pose proof Ho as (_ & Hio' & _).
    rewrite Hio', Hio. simpl. by apply (handle_ok _ _ _ _ g').
  - destruct (open_file_ok g s path a (m_sender m) Hinv Hp) as (id & s' & g' & -> & Ho). simpl. pose proof Ho as (_ & Hio' & _).
    rewrite Hio', Hio. simpl. by apply (handle_ok _ _ _ _ g').
Qed.

Lemma created_ok path mode type : (String.length path < 4096)%nat ->
  fulfils (fun mem => sp_created e m mem A path mode type) g s (created m (file_create e path mode type (subject m) s)).
Proof.
  intros Hlen. destruct (file_create_ok e g s path mode type (subject m) Hinv Hlen) as (file & st & s' & g' & mem & -> & Hinv' & Hc & Hpl & _).
  simpl. eexists _, _, s', g', mem. split; [done|]. split; [done|]. split; [by eexists _, _|]. intros Hmem H. apply (Hpl Hmem). by apply (enough_le 2); [lia|].
Qed.

Lemma create_ok : fulfils (fun mem => sp_create e m mem A) g s (vfs_create_buffer e m s).
Proof.
  apply on_path_ok. intros path Hlen. destruct (parent_access_ok path 3 Hlen) as (pf & -> & Hacc & _). simpl. rewrite Hacc. simpl.
  destruct (a_access e (subject m) (a_parent A path) 3); simpl; [|by apply fulfils_fail]. rewrite find_path_ok. simpl.
  destruct (gp g !! path) as [a|] eqn:Hp; simpl; cycle 1.
  { destruct (none_ok path Hp) as [_ ->]. by apply created_ok. }
  destruct (entry_ok g s path a Hinv Hp) as (f & n & Ha0 & Hf & _ & _ & _ & Hn & Hio & Hok & _ & _ & _ & Hg). decide_tests. rewrite Hio. simpl.
  rewrite (node_ok path a n Hp Hg). by apply fulfils_same.
Qed.

Lemma mkdir_ok : fulfils (fun mem => sp_mkdir e m mem A) g s (vfs_mkdir_buffer e m s).
Proof.
  apply on_path_ok. intros path Hlen. rewrite root_ok by done. simpl. destruct (a_is_root A path); simpl; [by apply fulfils_fail|].
  rewrite find_path_ok. simpl. rewrite lookup_fmap. destruct (gp g !! path) as [a|] eqn:Hp; simpl.
  { destruct (entry_ok g s path a Hinv Hp) as (f & n & Ha0 & _). decide_tests. by apply fulfils_fail. }
  destruct (parent_access_ok path 3 Hlen) as (pf & -> & Hacc & _). simpl. rewrite Hacc. simpl.
  destruct (a_access e (subject m) (a_parent A path) 3); simpl; [|by apply fulfils_fail]. by apply created_ok.
Qed.

Lemma mknod_ok : fulfils (fun mem => sp_mknod e m mem A) g s (vfs_mknod_buffer e m s).
Proof.
  apply on_path_ok. intros path Hlen. destruct (parent_access_ok path 3 Hlen) as (pf & -> & Hacc & _). simpl. rewrite Hacc. simpl.
  destruct (a_access e (subject m) (a_parent A path) 3); simpl; [|by apply fulfils_fail]. rewrite find_path_ok, lookup_fmap. simpl.
  destruct (gp g !! path) as [a|] eqn:Hp; simpl.
  { destruct (entry_ok g s path a Hinv Hp) as (f & n & Ha0 & _). decide_tests. by apply fulfils_fail. }
  by apply created_ok.
Qed.

Lemma symlink_request_ok : fulfils (fun mem => sp_symlink e m mem A) g s (vfs_symlink_buffer e m s).
Proof.
  unfold vfs_symlink_buffer, sp_symlink. destruct (symlink_ok m Hm) as (r & -> & Hr). simpl. destruct r as [[target path]|]; [|by apply fulfils_fail].
  destruct (Hr target path eq_refl) as (Hlen & Htl & Htr). unfold TMPFS_MAX_PATH in Htr.
  destruct (parent_access_ok path 3 Hlen) as (pf & -> & Hacc & _). simpl. rewrite Hacc. simpl.
  destruct (a_access e (subject m) (a_parent A path) 3); simpl; [|by apply fulfils_fail].
  destruct (file_create_ok e g s path 511 BUNIX_VFS_TYPE_SYMLINK (subject m) Hinv Hlen) as (a & st & s1 & g1 & mem & -> & Hinv1 & Hc & Hpl & Hpl1 & Hcase). simpl.
  destruct Hcase as [(-> & Hst & ->)|(Ha0 & -> & Hg1 & (n & Hio & Hdata) & Hop)].
  { simpl. replace (st =? 0) with false by lia. eexists _, _, s1, g, mem. split; [done|]. split; [done|]. split.
    - left. exists st, (abs g s1). split; [done|]. replace (st =? 0) with false by lia. done.
    - intros Hmem H. apply (Hpl Hmem). by apply (enough_le 2); [lia|]. }
  decide_tests. assert (gp g1 !! path = Some a) as Hp1 by (rewrite Hg1; simpl; by rewrite lookup_insert_eq).
  destruct (entry_ok g1 s1 path a Hinv1 Hp1) as (f & n' & _ & Hf & _ & _ & Hi0 & Hn & Hio' & Hok & Hlk & Hnode & _).
  rewrite Hio in Hio'. injection Hio' as <-.
  destruct (resize_ok g1 s1 path a f n (m_word0 m) Hinv1 Hp1 Hf Hn) as (rc & s2 & -> & Hres); [lia|]. simpl.
  destruct Hres as [(-> & [l ->] & Hno)|(-> & l & n2 & -> & Hok2 & Hr2 & Hcap & Hsz & Hnd)]; simpl.
  - destruct (unlink_file_ok g1 (set_alloc l s1) path a (inv_alloc _ _ _ l Hinv1) Hp1 Hop) as (s3 & -> & Hinv3 & Habs & _). simpl.
    eexists _, _, s3, _, false. split; [done|]. split; [exact Hinv3|]. split.
    + right. split; [done|]. do 2 f_equal. etransitivity; [exact Habs|]. rewrite abs_alloc. inversion Hc as [| | | |pn i H1 H2 H3 H4 H5 H6 H7 H8]; subst.
      apply a_unlink_made; try done. rewrite <- H8 in Hlk. unfold a_create_at in Hlk. destruct (a_take_ino A). simpl in Hlk.
      rewrite lookup_insert_eq in Hlk. injection Hlk as ->. done.
    + intros _ H. apply Hno, Hpl1. by apply (enough_le 3); [lia|].
  - destruct (i_data n2) as [data|] eqn:Hd2; [|pose proof (io_data _ Hok2) as Hx; rewrite Hd2 in Hx; lia].
    unfold inode_of. cbn [files set_inodes set_alloc inodes]. rewrite Hf. simpl. rewrite lookup_insert_eq. simpl. rewrite Hd2. simpl.
    pose proof Hok2 as [Hlen2 Hs2 Hc2]. rewrite Hd2 in Hlen2. replace (Z.of_nat (length data) <? m_word0 m) with false by lia.
    unfold upd_inode. cbn [files set_inodes set_alloc inodes]. rewrite Hf. simpl. rewrite lookup_insert_eq. simpl. rewrite insert_insert_eq.
    set (n3 := set_contents _ _ _ _). assert (inode_ok n3) as Hok3.
    { constructor; simpl; [|lia|lia]. rewrite splice_length; lia. }
    destruct (put_ok g1 (set_alloc l s1) (f_inode f) n n3 (inv_alloc _ _ _ l Hinv1) Hn Hok3 Hr2) as (H1 & H2 & _).
    eexists _, _, _, g1, mem. split; [done|]. split; [exact H1|]. split.
    + left. exists 0, (abs g1 s1). split; [done|]. simpl. exists (f_inode f), (node_of n). split; [done|]. split; [done|]. f_equal.
      etransitivity; [exact H2|]. rewrite abs_alloc. f_equal. unfold node_of, set_data in *. simpl in *. injection Hnd as E1 E2 E3 E4 E5 E6 E7 E8 E9.
      rewrite E2, E3, E4, E5, E6, E7, E8, E9. f_equal. unfold splice. simpl. rewrite take_app_le by lia. f_equal. lia.
    + intros Hmem H. apply (Hpl Hmem). by apply (enough_le 2); [lia|].
Qed.

(** *** Attributes *)

Lemma write_stat_ok by_path bytes : in_u64 (Z.of_nat (length bytes)) -> exists c, write_stat by_path m bytes = Some c.
Proof.
  intros Hl. unfold write_stat. destruct (cap_null m || _); [eauto|].
  destruct (mwrite_ok m Hm (stat_buffer_offset by_path m) bytes) as (rc & c & ->); [|done|eauto].
  unfold stat_buffer_offset. destruct by_path; [apply u64_range|apply Hm].
Qed.

Lemma stat_pack_length a b c d x f h i j k l n : length (stat_pack a b c d x f h i j k l n) = 96%nat.
Proof. done. Qed.

Lemma stat_root_ok by_path : exists w c, stat_dir by_path m = Some (w, c) /\ sp_stat m by_path A root_anode 1 root_stat_bytes (w, c, A).
Proof.
  unfold stat_dir. destruct (write_stat_ok by_path root_stat_bytes) as [c Hc]; [unfold root_stat_bytes; rewrite stat_pack_length; unfold in_u64; lia|].
  change (stat_pack 0 _ 0 _ _ _ 0 4096 0 0 0 0) with root_stat_bytes. rewrite Hc. simpl. eexists _, _. split; [done|]. exists c. done.
Qed.

Lemma stat_entry_ok by_path p a f n : gp g !! p = Some a -> files s !! a = Some f -> inodes s !! f_inode f = Some n ->
  exists w c, stat_file by_path m a s = Some (w, c) /\
    sp_stat m by_path A (node_of n) (a_nlink A (f_inode f)) (stat_bytes (node_of n) (a_nlink A (f_inode f))) (w, c, A).
Proof.
  intros Hp Hf Hn. destruct (iv_inode _ _ _ Hinv _ n Hn) as (Hok & _). rewrite (abs_nlink_refs g s _ n Hinv Hn).
  unfold stat_file, inode_of. rewrite Hf. simpl. rewrite Hn. simpl. unfold sp_stat, stat_bytes, stat_words. rewrite (data_length n Hok). cbn [w2 w3].
  match goal with |- context [write_stat by_path m ?b] => destruct (write_stat_ok by_path b) as [c Hc]; [rewrite stat_pack_length; unfold in_u64; lia|] end.
  rewrite Hc. simpl. eexists _, _. split; [done|]. exists c. done.
Qed.

Lemma upd_ok p a f n (h : tmpfs_inode -> tmpfs_inode) : gp g !! p = Some a -> files s !! a = Some f ->
  inodes s !! f_inode f = Some n -> inode_ok (h n) -> i_refs (h n) = i_refs n ->
  exists s', upd_inode a h s = Some s' /\ inv ∅ g s' /\ abs g s' = a_put (f_inode f) (node_of (h n)) A.
Proof.
  intros Hp Hf Hn Hok Hr. unfold upd_inode. rewrite Hf. simpl. rewrite Hn. simpl.
  destruct (put_ok g s (f_inode f) n (h n) Hinv Hn Hok Hr) as (H1 & H2 & _). eexists. split; [done|]. split; [exact H1|exact H2].
Qed.

Lemma fulfils_done (spec : bool -> outcome -> Prop) s' w c : inv ∅ g s' -> spec true (w, c, abs g s') -> fulfils spec g s (Some (w, c, s')).
Proof. intros H1 H2. exists w, c, s', g, true. done. Qed.

Lemma utimens_payload_ok : exists r, read_utimens_payload m = Some r.
Proof.
  unfold read_utimens_payload. destruct (cap_null m || _); [eauto|].
  destruct (mread_ok m Hm (m_word0 m +w m_word1 m) 16) as (rc & bytes & -> & _); [apply u64_range|unfold in_u64; lia|]. cbn [mbind option_bind].
  destruct (negb (rc =? 0)); eauto.
Qed.

Lemma readlink_ok p a f n : gp g !! p = Some a -> files s !! a = Some f -> inodes s !! f_inode f = Some n ->
  exists w c, reply_readlink m a s = Some (w, c) /\ sp_readlink m A (node_of n) (w, c, A).
Proof.
  intros Hp Hf Hn. destruct (iv_inode _ _ _ Hinv _ n Hn) as (Hok & _). pose proof (data_length n Hok) as Hdl. pose proof Hok as [Hd Hs Hc].
  unfold reply_readlink, inode_of. rewrite Hf. cbn [mbind option_bind]. rewrite Hn. cbn [mbind option_bind]. unfold sp_readlink. rewrite Hdl. cbn [a_type node_of a_data].
  destruct (i_data n) as [d|] eqn:Ed; cbn [from_option id]; cycle 1.
  { eexists _, _. split; [done|]. destruct (i_type n =? BUNIX_VFS_TYPE_SYMLINK); cbn [negb]; [|done]. left. split; [|done]. by rewrite take_nil. }
  destruct (i_type n =? BUNIX_VFS_TYPE_SYMLINK); cbn [negb]; [|by eexists _, _].
  set (cap := high32 (m_word3 m)). destruct ((cap =? 0) || cap_null m || negb (has_right BUNIX_RIGHT_SEND m)); [by eexists _, _; split; [done|right]|].
  destruct (high32_range (m_word3 m) (mo_word3 m Hm)) as [Hh _]. fold cap in Hh. unfold in_u64 in Hh.
  assert ((if cap <? i_size n then cap else i_size n) = Z.min cap (i_size n)) as -> by (destruct (Z.ltb_spec cap (i_size n)); lia).
  destruct (Z.eqb_spec (Z.min cap (i_size n)) 0) as [E|E]; [rewrite E; by eexists _, _; split; [done|right]|].
  assert (slice 0 (Z.min cap (i_size n)) (take (Z.to_nat (i_size n)) d) = slice 0 (Z.min cap (i_size n)) d) as Hsl.
  { unfold slice. rewrite !drop_0, take_take. f_equal. lia. }
  destruct (mwrite_ok m Hm (m_word0 m +w m_word1 m) (slice 0 (Z.min cap (i_size n)) d)) as (rc & c & Hw); [apply u64_range| |].
  { unfold slice, in_u64. rewrite drop_0, length_take. lia. }
  rewrite Hw. cbn [mbind option_bind]. eexists _, _. split; [done|]. right. exists rc, c. rewrite Hsl. split; [done|]. by destruct (rc =? 0).
Qed.

Lemma query_ok q : fulfils (fun mem => sp_query e m q A) g s (vfs_query_buffer e q m s).
Proof.
  unfold sp_query. apply on_path_ok. intros path Hlen. rewrite root_ok by done. cbn [mbind option_bind]. destruct (a_is_root A path).
  { destruct (stat_root_ok (match q with QStat => true | _ => false end)) as (w & c & -> & Hs). cbn [mbind option_bind]. by apply fulfils_same. }
  rewrite find_path_ok, abs_links_lookup. cbn [mbind option_bind]. destruct (gp g !! path) as [a|] eqn:Hp; cbn [from_option id fmap option_fmap option_map]; [|by apply fulfils_fail].
  destruct (entry_ok g s path a Hinv Hp) as (f & n & Ha0 & Hf & _ & _ & _ & Hn & Hio & Hok & Hlk & Hnode & _ & Hg). decide_tests.
  assert (inode_at s a = f_inode f) as Hia by (unfold inode_at; by rewrite Hf). rewrite Hia. simpl in Hnode.
  destruct q.
  - destruct (stat_entry_ok true path a f n Hp Hf Hn) as (w & c & -> & Hs). cbn [mbind option_bind]. apply fulfils_same; [done|]. exists (node_of n). done.
  - rewrite (access_entry_ok path a n) by done. cbn [mbind option_bind]. apply fulfils_same; [done|]. exists (node_of n). split; [done|].
    by destruct (a_access e (subject m) (Some (node_of n)) (high32 (m_word3 m))).
  - destruct (readlink_ok path a f n Hp Hf Hn) as (w & c & -> & Hs). cbn [mbind option_bind]. apply fulfils_same; [done|]. exists (node_of n). done.
  - unfold reply_utimens, sp_utimens. rewrite (access_entry_ok path a n) by done. cbn [mbind option_bind]. unfold subject in *.
    destruct (a_access e (low32 (m_word3 m)) (Some (node_of n)) 2) eqn:Hacc; cbn [negb].
    + destruct utimens_payload_ok as [[[at_ mt]|] Hpay]; rewrite Hpay; cbn [mbind option_bind]; cycle 1.
      { apply fulfils_same; [done|]. exists (node_of n). split; [done|]. rewrite Hacc. done. }
      match goal with |- context [upd_inode a ?h s] => destruct (upd_ok path a f n h Hp Hf Hn) as (s' & -> & Hinv' & Habs); [by destruct Hok|done|] end.
      cbn [mbind option_bind]. apply fulfils_done; [done|]. exists (node_of n). split; [done|]. rewrite Hacc, Habs. done.
    + apply fulfils_same; [done|]. exists (node_of n). split; [done|]. by rewrite Hacc.
Qed.

(** *** Requests on handles *)

(** The handle: none, a directory, or a file with its entry. *)
Lemma handle_cases :
  open_from_message (m_word0 m) (m_sender m) s = Some None /\ own_handle m A = None /\ own_file m A = None \/
  (exists o, open_from_message (m_word0 m) (m_sender m) s = Some (Some o) /\ is_file o = false /\ (o_kind o =? TMPFS_OPEN_DIR) = true /\
    own_handle m A = Some (ADir (o_owner o) (o_path o)) /\ own_file m A = None /\ (String.length (o_path o) < 4096)%nat) \/
  (exists o p f n, open_from_message (m_word0 m) (m_sender m) s = Some (Some o) /\ is_file o = true /\ (o_kind o =? TMPFS_OPEN_DIR) = false /\
    own_handle m A = Some (AFile (o_owner o) p) /\ own_file m A = Some (f_inode f, node_of n) /\ gp g !! p = Some (o_file o) /\
    files s !! o_file o = Some f /\ inodes s !! f_inode f = Some n).
Proof.
  destruct (open_from_message_ok g s m Hinv) as ([o|] & -> & Hown & Ho); [|left; unfold own_file; by rewrite Hown]. right.
  destruct Ho as (op & _ & Ho & _ & _). destruct (iv_target _ _ _ Hinv op o Ho) as (Hlen & [Hk|[Hk [f Hf]]]); unfold own_file; rewrite Hown;
    cbn [fmap option_fmap option_map mbind option_bind]; unfold handle_of, is_file; rewrite Hk; cbn [mbind option_bind].
  - left. exists o. by rewrite Hk.
  - right. assert (path_at s (o_file o) = f_path f) as Hpa by (unfold path_at; by rewrite Hf).
    assert (gp g !! f_path f = Some (o_file o)) as Hp by (apply (entry_of_file ∅ g s Hinv); [done|set_solver]).
    destruct (entry_ok g s _ _ Hinv Hp) as (f' & n & _ & Hf' & _ & _ & _ & Hn & _ & _ & Hlk & Hnode & _). rewrite Hf in Hf'. injection Hf' as <-.
    exists o, (f_path f), f, n. rewrite Hk. simpl Z.eqb. cbn [o_owner]. rewrite Hpa, Hlk. cbn [mbind option_bind]. rewrite Hnode. done.
Qed.

Lemma stat_meta_ok : fulfils (fun _ => sp_stat_meta m A) g s (vfs_stat_meta m s).
Proof.
  unfold vfs_stat_meta, sp_stat_meta.
  destruct handle_cases as [(-> & -> & _)|[(o & -> & Hif & Hk & -> & _)|(o & p & f & n & -> & Hif & Hk & -> & _ & Hp & Hf & Hn)]]; cbn [mbind option_bind].
  - by apply fulfils_fail.
  - rewrite Hk. destruct (stat_root_ok false) as (w & c & -> & Hs). by apply fulfils_same.
  - rewrite Hk. destruct (stat_entry_ok false p (o_file o) f n Hp Hf Hn) as (w & c & -> & Hs). cbn [mbind option_bind]. apply fulfils_same; [done|].
    destruct (entry_ok g s _ _ Hinv Hp) as (f' & n' & _ & Hf' & _ & _ & _ & Hn' & _ & _ & Hlk & Hnode & _). rewrite Hf in Hf'. injection Hf' as <-.
    rewrite Hn in Hn'. injection Hn' as <-. exists (f_inode f), (node_of n). done.
Qed.

Lemma read_ok beyond data : fulfils (fun _ => sp_read m A beyond data) g s (read_contents m (fun _ => beyond) data s).
Proof.
  unfold read_contents, sp_read.
  destruct handle_cases as [(-> & _ & ->)|[(o & -> & Hif & _ & _ & -> & _)|(o & p & f & n & -> & Hif & _ & _ & -> & Hp & Hf & Hn)]]; cbn [mbind option_bind].
  - by apply fulfils_fail.
  - rewrite Hif. by apply fulfils_fail.
  - rewrite Hif. cbn [negb orb]. destruct (cap_null m || negb (has_right BUNIX_RIGHT_SEND m)); [by apply fulfils_fail|].
    destruct (iv_inode _ _ _ Hinv _ n Hn) as (Hok & _). pose proof (data_length n Hok) as Hdl. pose proof Hok as [Hd Hs Hc].
    unfold inode_of. rewrite Hf. cbn [mbind option_bind]. rewrite Hn. cbn [mbind option_bind]. rewrite Hdl.
    pose proof (mo_word1 m Hm) as W1. pose proof (mo_word2 m Hm) as W2. unfold in_u64 in W1, W2.
    destruct (Z.leb_spec (i_size n) (m_word1 m)) as [Hle|Hgt].
    { apply fulfils_same; [done|]. by replace (i_size n - m_word1 m <=? 0) with true by lia. }
    replace (i_size n - m_word1 m <=? 0) with false by lia. set (left := i_size n - m_word1 m) in *.
    assert ((if m_word2 m <? left then m_word2 m else left) = Z.min left (m_word2 m)) as -> by (destruct (Z.ltb_spec (m_word2 m) left); lia).
    destruct (i_data n) as [d|] eqn:Ed; [|lia]. cbn [mbind option_bind].
    assert (slice (m_word1 m) (Z.min left (m_word2 m)) (a_data (node_of n)) = slice (m_word1 m) (Z.min left (m_word2 m)) d) as Hsl.
    { simpl. rewrite Ed. unfold slice. simpl. rewrite skipn_firstn_comm, take_take. f_equal. lia. }
    destruct (mwrite_ok m Hm 0 (slice (m_word1 m) (Z.min left (m_word2 m)) d)) as (rc & c & Hw); [unfold in_u64; lia| |].
    { unfold slice, in_u64. rewrite length_take. lia. }
    rewrite Hw. cbn [mbind option_bind]. apply fulfils_same; [done|]. exists rc, c. rewrite Hsl. done.
Qed.

Lemma close_request_ok : fulfils (fun _ => sp_close m A) g s (vfs_close m s).
Proof.
  unfold vfs_close, sp_close. destruct (open_from_message_ok g s m Hinv) as ([o|] & -> & Hown & Ho); rewrite Hown;
    cbn [mbind option_bind fmap option_fmap option_map]; [|by apply fulfils_fail].
  destruct Ho as (op & _ & Ho & Hid & Hop0 & Hsend). destruct (close_handle_ok g s op o Hinv Ho Hop0) as (s' & Hcl & Hinv' & Habs).
  rewrite <- Hid, <- Hsend, Hcl. cbn [mbind option_bind]. eexists _, _, s', _, true. split; [done|]. split; [exact Hinv'|]. split; [|done]. by rewrite Habs.
Qed.

Lemma write_block n2 off bytes : inode_ok n2 -> 0 <= off -> off + Z.of_nat (length bytes) <= i_capacity n2 ->
  exists dd, (if bool_decide (bytes = []) then Some (i_data n2) else d ← i_data n2;
      if Z.of_nat (length d) <? off + Z.of_nat (length bytes) then None else Some (Some (splice off bytes d))) = Some dd /\
    default [] dd = splice off bytes (default [] (i_data n2)) /\
    match dd with Some d => Z.of_nat (length d) = i_capacity n2 | None => i_capacity n2 = 0 end.
Proof.
  intros [Hd2 Hs2 Hc2] Ho Hl. destruct (decide (bytes = [])) as [->|Hb]; [rewrite bool_decide_eq_true_2 by done; exists (i_data n2); by rewrite splice_nil|].
  rewrite bool_decide_eq_false_2 by done. destruct bytes as [|x bytes]; [done|]. cbn [length] in *.
  destruct (i_data n2) as [d|]; [|lia]. cbn [mbind option_bind].
  replace (Z.of_nat (length d) <? _) with false by lia. eexists. split; [done|]. split; [done|]. rewrite splice_length; [done|lia|cbn [length]; lia].
Qed.

Lemma write_ok : m_word1 m + m_word2 m <= 2 ^ 63 -> fulfils (fun mem => sp_write e m mem A) g s (vfs_write_file_buffer e m s).
Proof.
  intros Hfit. unfold vfs_write_file_buffer, sp_write.
  destruct handle_cases as [(-> & _ & ->)|[(o & -> & Hif & _ & _ & -> & _)|(o & p & f & n & -> & Hif & _ & _ & -> & Hp & Hf & Hn)]]; cbn [mbind option_bind].
  - by apply fulfils_fail.
  - rewrite Hif. by apply fulfils_fail.
  - rewrite Hif. cbn [negb orb]. destruct (entry_ok g s _ _ Hinv Hp) as (f' & n' & _ & Hf' & _ & _ & _ & Hn' & _ & Hok & _ & _ & _ & Hg).
    rewrite Hf in Hf'. injection Hf' as <-. rewrite Hn in Hn'. injection Hn' as <-. rewrite (access_entry_ok p (o_file o) n) by done. cbn [mbind option_bind].
    destruct (negb (a_access e (m_word3 m) (Some (node_of n)) 2) || cap_null m || negb (has_right BUNIX_RIGHT_RECV m)); [by apply fulfils_fail|].
    pose proof (mo_word1 m Hm) as W1. pose proof (mo_word2 m Hm) as W2. unfold in_u64 in W1, W2.
    assert (m_word1 m +w m_word2 m = m_word1 m + m_word2 m) as -> by (unfold u64; apply Z.mod_small; lia). set (stop := m_word1 m + m_word2 m) in *.
    destruct (resize_ok g s p (o_file o) f n stop Hinv Hp Hf Hn) as (rc & s1 & -> & Hres); [lia|]. cbn [mbind option_bind].
    destruct Hres as [(-> & [l ->] & Hno)|(-> & l & n2 & -> & Hok2 & Hr2 & Hcap & Hsz & Hnd)]; cbn [negb Z.eqb].
    { eexists _, _, _, g, false. split; [done|]. split; [by apply inv_alloc|]. split; [by left|]. intros _ H. apply Hno. by apply (enough_le 1); [lia|]. }
    destruct (mread_ok m Hm 0 (m_word2 m)) as (rc & bytes & Hrd & Hr); [unfold in_u64; lia|apply Hm|]. rewrite Hrd. cbn [mbind option_bind].
    assert (Z.of_nat (length bytes) <= m_word2 m) as Hbl by lia. pose proof Hok2 as [Hd2 Hs2 Hc2].
    unfold inode_of. cbn [files set_inodes set_alloc inodes]. rewrite Hf. cbn [mbind option_bind]. rewrite lookup_insert_eq. cbn [mbind option_bind].
    destruct (write_block n2 (m_word1 m) bytes Hok2) as (dd & -> & Hdd & Hddl); [lia|lia|]. set (D := default [] (i_data n2)) in *.
    assert (Z.of_nat (length D) = i_capacity n2) as HD by (unfold D; destruct (i_data n2); simpl in *; lia).
    cbn [mbind option_bind]. unfold upd_inode. cbn [files set_inodes set_alloc inodes]. rewrite Hf. cbn [mbind option_bind]. rewrite lookup_insert_eq.
    cbn [mbind option_bind]. rewrite insert_insert_eq. set (n3 := set_contents _ _ _ _).
    destruct (write_contents D (i_size n) (m_word1 m) bytes (i_size n3)) as (gap & Hgap & Hw & Hwl); [lia|lia|lia| |].
    { simpl. rewrite Hsz. destruct Hr as [[-> Hbe]|[-> _]]; [right|by left]. simpl. destruct (Z.ltb_spec (i_size n) stop); lia. }
    assert (inode_ok n3) as Hok3.
    { constructor; simpl; [exact Hddl| |done]. destruct ((rc =? 0) && _); lia. }
    destruct (put_ok g (set_alloc l s) (f_inode f) n n3 (inv_alloc _ _ _ l Hinv) Hn Hok3 Hr2) as (H1 & H2 & _).
    assert (a_data (node_of n) = take (Z.to_nat (i_size n)) D) as Hda by (rewrite <- Hnd; simpl; by rewrite Hsz).
    eexists _, _, _, g, true. split; [done|]. split; [exact H1|]. split; [|done]. right. exists rc, bytes. split; [done|]. exists gap.
    split; [by rewrite data_length|]. cbv zeta.
    assert (node_of n3 = set_data (take (Z.to_nat (i_size n3)) (a_write (m_word1 m) bytes gap (a_data (node_of n)))) (node_of n)) as Hn3.
    { rewrite Hda, <- Hw. unfold node_of, set_data in *. simpl in *. injection Hnd as _ E2 E3 E4 E5 E6 E7 E8 E9.
      rewrite E2, E3, E4, E5, E6, E7, E8, E9. by rewrite Hdd. }
    change (set_inodes ?x (set_inodes _ ?z)) with (set_inodes x z). change (inodes (set_alloc l s)) with (inodes s) in H2. rewrite H2, abs_alloc, Hn3. rewrite <- Hda in Hwl. simpl i_size. rewrite Hsz. destruct Hr as [[-> Hbe]|[-> _]]; simpl Z.eqb; cbn [andb].
    + do 3 f_equal. rewrite take_ge; [done|]. rewrite Hwl. destruct (Z.ltb_spec (i_size n) stop); lia.
    + do 4 f_equal. rewrite <- (data_length n Hok). lia.
Qed.

Lemma resized_ok p a f n size : gp g !! p = Some a -> files s !! a = Some f -> inodes s !! f_inode f = Some n -> 0 <= size <= 2 ^ 63 ->
  fulfils (fun mem => sp_resize m mem A (f_inode f) (node_of n) size) g s (resized m (file_set_size a size s)).
Proof.
  intros Hp Hf Hn Hs. destruct (set_size_ok g s p a f n size Hinv Hp Hf Hn Hs) as (rc & s' & -> & Hinv' & Hcase). unfold resized. cbn [mbind option_bind].
  destruct Hcase as [(-> & Habs & Hno)|(-> & Habs)]; cbn [Z.eqb].
  - eexists _, _, s', g, false. split; [done|]. split; [done|]. split; [left; by rewrite Habs|]. intros _ H. apply Hno. by apply (enough_le 1); [lia|].
  - apply fulfils_done; [done|]. right. by rewrite Habs.
Qed.

Lemma truncate_ok : m_word1 m <= 2 ^ 63 -> fulfils (fun mem => sp_truncate e m mem A) g s (vfs_truncate e m s).
Proof.
  intros Hfit. unfold vfs_truncate, sp_truncate. destruct (cap_null m); cbn [negb].
  - destruct handle_cases as [(-> & _ & ->)|[(o & -> & Hif & _ & _ & -> & _)|(o & p & f & n & -> & Hif & _ & _ & -> & Hp & Hf & Hn)]]; cbn [mbind option_bind].
    + by apply fulfils_fail.
    + rewrite Hif. by apply fulfils_fail.
    + rewrite Hif. cbn [negb]. destruct (entry_ok g s _ _ Hinv Hp) as (f' & n' & _ & Hf' & _ & _ & _ & Hn' & _ & _ & _ & _ & _ & Hg).
      rewrite Hf in Hf'. injection Hf' as <-. rewrite Hn in Hn'. injection Hn' as <-. rewrite (access_entry_ok p (o_file o) n) by done. cbn [mbind option_bind].
      destruct (a_access e (m_word3 m) (Some (node_of n)) 2); cbn [negb]; [|by apply fulfils_fail].
      apply (resized_ok p); try done. pose proof (mo_word1 m Hm) as W. unfold in_u64 in W. lia.
  - apply on_path_ok. intros path Hlen. rewrite find_path_ok, abs_links_lookup. cbn [mbind option_bind].
    destruct (gp g !! path) as [a|] eqn:Hp; cbn [from_option id fmap option_fmap option_map]; [|by apply fulfils_fail].
    destruct (entry_ok g s _ _ Hinv Hp) as (f & n & Ha0 & Hf & _ & _ & _ & Hn & Hio & _ & _ & Hnode & _ & Hg). decide_tests. rewrite Hio. cbn [mbind option_bind].
    assert (inode_at s a = f_inode f) as -> by (unfold inode_at; by rewrite Hf). eapply fulfils_weaken; [intros mem o H; exists (node_of n); split; [done|exact H]|].
    cbn [a_type node_of]. destruct (i_type n =? BUNIX_VFS_TYPE_REGULAR); cbn [negb]; [|by apply fulfils_fail].
    rewrite (access_entry_ok path a n) by done. cbn [mbind option_bind].
    destruct (a_access e (subject m) (Some (node_of n)) 2); cbn [negb]; [|by apply fulfils_fail].
    apply (resized_ok path); try done. destruct (high32_range (m_word3 m) (mo_word3 m Hm)) as [W ?]. unfold in_u64 in W. lia.
Qed.

Lemma may_chmod_ok task a n : a <> 0 -> inode_of a s = Some n -> task_can_chmod e task a s = Some (a_may_chmod e task (node_of n)).
Proof.
  intros Ha Hn. unfold task_can_chmod, a_may_chmod. destruct (task =? 0); [done|]. decide_tests. destruct (e_euid e task); [|done].
  rewrite Hn. done.
Qed.

(** The common end of the requests that change attributes. *)
Lemma change_attrs_ok (spec : bool -> outcome -> Prop) p a f n mode uid gid : gp g !! p = Some a -> files s !! a = Some f ->
  inodes s !! f_inode f = Some n -> forall h, h n = set_attrs mode uid gid n ->
  spec true (status 0, m_cap m, a_put (f_inode f) (set_aattrs mode uid gid (node_of n)) A) ->
  fulfils spec g s (s' ← upd_inode a h s; Some (status 0, m_cap m, s')).
Proof.
  intros Hp Hf Hn h Hh Hs. destruct (iv_inode _ _ _ Hinv _ n Hn) as (Hok & _).
  destruct (upd_ok p a f n h Hp Hf Hn) as (s' & -> & Hinv' & Habs); [rewrite Hh; by destruct Hok|by rewrite Hh|].
  cbn [mbind option_bind]. apply fulfils_done; [done|]. rewrite Habs, Hh. done.
Qed.

Lemma chmod_buffer_ok : fulfils (fun _ => sp_chmod_buffer e m A) g s (vfs_chmod_buffer e m s).
Proof.
  unfold sp_chmod_buffer. apply on_path_ok. intros path Hlen. rewrite find_path_ok, abs_links_lookup. cbn [mbind option_bind].
  destruct (gp g !! path) as [a|] eqn:Hp; cbn [from_option id fmap option_fmap option_map]; [|by apply fulfils_fail].
  destruct (entry_ok g s _ _ Hinv Hp) as (f & n & Ha0 & Hf & _ & _ & _ & Hn & Hio & _ & _ & Hnode & _). decide_tests.
  rewrite (may_chmod_ok _ a n) by done. cbn [mbind option_bind]. assert (inode_at s a = f_inode f) as -> by (unfold inode_at; by rewrite Hf).
  eapply fulfils_weaken; [intros mem o H; exists (node_of n); split; [done|exact H]|].
  destruct (a_may_chmod e (subject m) (node_of n)); cbn [negb]; [|by apply fulfils_fail]. by eapply (change_attrs_ok _ path a f n).
Qed.

Lemma chown_buffer_ok : fulfils (fun _ => sp_chown_buffer e m A) g s (vfs_chown_buffer e m s).
Proof.
  unfold sp_chown_buffer. apply on_path_ok. intros path Hlen. rewrite find_path_ok, abs_links_lookup. cbn [mbind option_bind].
  destruct (gp g !! path) as [a|] eqn:Hp; cbn [from_option id fmap option_fmap option_map]; [|by apply fulfils_fail].
  destruct (entry_ok g s _ _ Hinv Hp) as (f & n & Ha0 & Hf & _ & _ & _ & Hn & Hio & _ & _ & Hnode & _). decide_tests.
  assert (inode_at s a = f_inode f) as -> by (unfold inode_at; by rewrite Hf).
  eapply fulfils_weaken; [intros mem o H; exists (node_of n); split; [done|exact H]|].
  destruct (task_can_chown e (subject m)); cbn [negb]; [|by apply fulfils_fail]. by eapply (change_attrs_ok _ path a f n).
Qed.

(** The entry a handle stands for. *)
Lemma open_entry_ok : 
  open_from_message (m_word0 m) (m_sender m) s = Some None /\ own_handle m A = None \/
  exists o h, open_from_message (m_word0 m) (m_sender m) s = Some (Some o) /\ own_handle m A = Some h /\
    negb (is_file o) && negb (o_kind o =? TMPFS_OPEN_DIR) = false /\ open_entry o s = Some (default 0 (gp g !! handle_path h)).
Proof.
  destruct handle_cases as [(-> & -> & _)|[(o & -> & Hif & Hk & -> & _ & Hlen)|(o & p & f & n & -> & Hif & Hk & -> & _ & Hp & Hf & Hn)]]; [by left|right..].
  - eexists o, _. split; [done|]. split; [done|]. rewrite Hif, Hk. split; [done|]. unfold open_entry. rewrite Hif. apply find_path_ok.
  - eexists o, _. split; [done|]. split; [done|]. rewrite Hif. split; [done|]. unfold open_entry. rewrite Hif. simpl. by rewrite Hp.
Qed.

Lemma chmod_ok : fulfils (fun _ => sp_chmod e m A) g s (vfs_chmod e m s).
Proof.
  unfold vfs_chmod, sp_chmod. destruct open_entry_ok as [(-> & ->)|(o & h & -> & -> & Hk & Ho)]; cbn [mbind option_bind]; [by apply fulfils_fail|].
  rewrite Hk, Ho. cbn [mbind option_bind]. rewrite abs_links_lookup.
  destruct (gp g !! handle_path h) as [a|] eqn:Hp; cbn [from_option id fmap option_fmap option_map]; [|by apply fulfils_fail].
  destruct (entry_ok g s _ _ Hinv Hp) as (f & n & Ha0 & Hf & _ & _ & _ & Hn & Hio & _ & _ & Hnode & _). decide_tests.
  rewrite (may_chmod_ok _ a n) by done. cbn [mbind option_bind]. assert (inode_at s a = f_inode f) as -> by (unfold inode_at; by rewrite Hf).
  eapply fulfils_weaken; [intros mem o' H; exists (node_of n); split; [done|exact H]|].
  destruct (a_may_chmod e (subject m) (node_of n)); cbn [negb]; [|by apply fulfils_fail]. by eapply (change_attrs_ok _ _ a f n).
Qed.

Lemma chown_ok : fulfils (fun _ => sp_chown e m A) g s (vfs_chown e m s).
Proof.
  unfold vfs_chown, sp_chown. destruct open_entry_ok as [(-> & ->)|(o & h & -> & -> & Hk & Ho)]; cbn [mbind option_bind]; [by apply fulfils_fail|].
  rewrite Hk, Ho. cbn [mbind option_bind]. rewrite abs_links_lookup.
  destruct (gp g !! handle_path h) as [a|] eqn:Hp; cbn [from_option id fmap option_fmap option_map]; [|by apply fulfils_fail].
  destruct (entry_ok g s _ _ Hinv Hp) as (f & n & Ha0 & Hf & _ & _ & _ & Hn & Hio & _ & _ & Hnode & _). decide_tests. cbn [orb].
  assert (inode_at s a = f_inode f) as -> by (unfold inode_at; by rewrite Hf).
  eapply fulfils_weaken; [intros mem o' H; exists (node_of n); split; [done|exact H]|].
  destruct (task_can_chown e (m_word3 m)); cbn [negb]; [|by apply fulfils_fail]. by eapply (change_attrs_ok _ _ a f n).
Qed.

(** *** Removing, renaming and linking *)

Lemma victim_ok (k' : bool -> string -> anode -> outcome -> Prop) k :
  (forall path a f n, gp g !! path = Some a -> files s !! a = Some f -> inodes s !! f_inode f = Some n -> read_resolved_path m = Some (Some path) ->
    (String.length path < 4096)%nat -> fulfils (fun mem => k' mem path (node_of n)) g s (k path a n)) ->
  fulfils (fun mem => sp_victim e m A (k' mem)) g s (with_victim e m s k).
Proof.
  intros Hk. unfold with_victim, sp_victim, on_path, sp_path. destruct (resolved_ok m Hm) as (r & Hrd & Hr). rewrite Hrd. cbn [mbind option_bind].
  destruct r as [path|]; [|by apply fulfils_fail]. destruct (Hr path eq_refl) as [Hlen _].
  destruct (parent_access_ok path 3 Hlen) as (pf & -> & Hacc & Hnull). cbn [mbind option_bind].
  destruct (a_parent A path) as [pn|] eqn:Hpar; [|by rewrite (proj2 Hnull) by done; apply fulfils_fail].
  assert (forall r1 r2 : option result, match pf with PNull => r1 | _ => r2 end = r2) as -> by (intros r1 r2; destruct pf; try done; by destruct Hnull as [Hx _]; discriminate Hx).
  rewrite Hacc. cbn [mbind option_bind]. destruct (a_access e (subject m) (Some pn) 3); cbn [negb]; [|by apply fulfils_fail].
  rewrite find_path_ok. cbn [mbind option_bind]. destruct (gp g !! path) as [a|] eqn:Hp; cbn [from_option id].
  - destruct (entry_ok g s _ _ Hinv Hp) as (f & n & Ha0 & Hf & _ & _ & _ & Hn & Hio & _ & _ & _ & _ & Hg). decide_tests. rewrite Hio. cbn [mbind option_bind].
    rewrite (node_ok path a n Hp Hg). by apply (Hk path a f n).
  - destruct (none_ok path Hp) as [_ ->]. by apply fulfils_fail.
Qed.

Lemma remove_path_ok (spec : bool -> outcome -> Prop) path a : gp g !! path = Some a -> closed A path ->
  spec true (status 0, m_cap m, a_unlink path A) -> fulfils spec g s (s' ← file_unlink a s; Some (status 0, m_cap m, s')).
Proof.
  intros Hp Hc Hs. destruct (unlink_file_ok g s path a Hinv Hp (closed_ok g s path a Hinv Hp Hc)) as (s' & -> & Hinv' & Habs & _). cbn [mbind option_bind].
  eexists _, _, s', _, true. split; [done|]. split; [exact Hinv'|]. split; [|done]. by rewrite Habs.
Qed.

Lemma unlink_request_ok : (forall path, read_resolved_path m = Some (Some path) -> closed A path) ->
  fulfils (fun _ => sp_unlink e m A) g s (vfs_unlink_buffer e m s).
Proof.
  intros Hc. unfold sp_unlink, vfs_unlink_buffer. apply (victim_ok (fun _ => _)). intros path a f n Hp Hf Hn Hrd Hlen. unfold is_dir. cbn [a_type node_of].
  destruct (i_type n =? BUNIX_VFS_TYPE_DIRECTORY); [by apply fulfils_fail|]. apply (remove_path_ok _ path a); auto. done.
Qed.

Lemma rmdir_ok : (forall path, read_resolved_path m = Some (Some path) -> closed A path) ->
  fulfils (fun _ => sp_rmdir e m A) g s (vfs_rmdir_buffer e m s).
Proof.
  intros Hc. unfold sp_rmdir, vfs_rmdir_buffer. apply (victim_ok (fun _ => _)). intros path a f n Hp Hf Hn Hrd Hlen. unfold is_dir. cbn [a_type node_of].
  destruct (i_type n =? BUNIX_VFS_TYPE_DIRECTORY); cbn [negb]; [|by apply fulfils_fail]. rewrite (empty_ok g s Hinv path Hlen). cbn [mbind option_bind].
  rewrite negb_andb. destruct (negb (a_small A) || negb (bool_decide (a_children A path = []))); [by apply fulfils_fail|].
  apply (remove_path_ok _ path a); auto. done.
Qed.

Lemma on_two_paths_ok (k' : bool -> string -> string -> Z -> anode -> outcome -> Prop) k :
  (forall path new a f n, gp g !! path = Some a -> files s !! a = Some f -> inodes s !! f_inode f = Some n ->
    read_rename_buffer m = Some (Some (path, new)) -> (String.length path < 4096)%nat -> (String.length new < 4096)%nat ->
    fulfils (fun mem => k' mem path new (f_inode f) (node_of n)) g s (k path new a)) ->
  fulfils (fun mem => sp_two_paths m A (k' mem)) g s (on_two_paths m s k).
Proof.
  intros Hk. unfold on_two_paths, sp_two_paths. destruct (two_paths_ok m Hm) as (r & Hrd & Hr). rewrite Hrd. cbn [mbind option_bind].
  destruct r as [[path new]|]; [|by apply fulfils_fail]. destruct (Hr path new eq_refl) as [Hlen Hlen'].
  rewrite (root_ok path) by done. cbn [mbind option_bind]. destruct (a_is_root A path); cbn [orb]; [by apply fulfils_fail|].
  rewrite (root_ok new) by done. cbn [mbind option_bind]. destruct (a_is_root A new); [by apply fulfils_fail|].
  rewrite find_path_ok, abs_links_lookup. cbn [mbind option_bind]. destruct (gp g !! path) as [a|] eqn:Hp; cbn [from_option id fmap option_fmap option_map];
    [|by apply fulfils_fail].
  destruct (entry_ok g s _ _ Hinv Hp) as (f & n & Ha0 & Hf & _ & _ & _ & Hn & Hio & _ & _ & Hnode & _). decide_tests.
  assert (inode_at s a = f_inode f) as -> by (unfold inode_at; by rewrite Hf).
  eapply fulfils_weaken; [intros mem o H; exists (node_of n); split; [done|exact H]|]. by apply (Hk path new a f n).
Qed.

Lemma link_request_ok : fulfils (fun mem => sp_link e m mem A) g s (vfs_link_buffer e m s).
Proof.
  unfold sp_link, vfs_link_buffer. apply on_two_paths_ok. intros path new a f n Hp Hf Hn Hrd Hlen Hlen'. rewrite find_path_ok, abs_links_lookup. cbn [mbind option_bind].
  destruct (gp g !! new) as [b|] eqn:Hnew; cbn [from_option id fmap option_fmap option_map].
  { destruct (entry_ok g s _ _ Hinv Hnew) as (_ & _ & Hb0 & _). decide_tests. by apply fulfils_fail. }
  rewrite bool_decide_eq_false_2 by (by intros [? ?]). cbn [Z.eqb negb]. assert (inode_of a s = Some n) as Hio by (unfold inode_of; by rewrite Hf).
  rewrite Hio. cbn [mbind option_bind]. unfold is_dir. cbn [a_type node_of]. destruct (i_type n =? BUNIX_VFS_TYPE_DIRECTORY) eqn:Hd; [by apply fulfils_fail|].
  destruct (parent_access_ok path 1 Hlen) as (pf1 & -> & Hacc1 & _). destruct (parent_access_ok new 3 Hlen') as (pf2 & -> & Hacc2 & _).
  cbn [mbind option_bind]. rewrite Hacc1. cbn [mbind option_bind]. rewrite Hacc2. cbn [mbind option_bind].
  destruct (negb (a_access e (subject m) (a_parent A path) 1) || negb (a_access e (subject m) (a_parent A new) 3)); [by apply fulfils_fail|].
  destruct (link_file_ok g s path a n new Hinv Hp Hio Hd Hnew Hlen') as (rc & s' & g' & mem & -> & Hinv' & Hpl & Hres). cbn [mbind option_bind].
  assert (inode_at s a = f_inode f) as Hia by (unfold inode_at; by rewrite Hf). rewrite Hia in Hres.
  eexists _, _, s', g', mem. split; [done|]. split; [done|]. split; [|intros Hmem H; apply (Hpl Hmem); by apply (enough_le 1); [lia|]].
  unfold is_dir in *. destruct (negb _); [by destruct Hres as [-> ->]|]. destruct mem; by destruct Hres as [-> ->].
Qed.

Lemma rename_ok : (forall path new, read_rename_buffer m = Some (Some (path, new)) -> closed A new) ->
  fulfils (fun mem => sp_rename e m mem A) g s (vfs_rename_buffer e m s).
Proof.
  intros Hc. unfold sp_rename, vfs_rename_buffer. apply on_two_paths_ok. intros path new a f n Hp Hf Hn Hrd Hlen Hlen'. rewrite str_eq_ok by done.
  destruct (decide (path = new)) as [->|Hne]; [rewrite bool_decide_eq_true_2 by done; by apply fulfils_same|]. rewrite bool_decide_eq_false_2 by done.
  destruct (parent_access_ok path 3 Hlen) as (pf1 & -> & Hacc1 & _). destruct (parent_access_ok new 3 Hlen') as (pf2 & -> & Hacc2 & _).
  cbn [mbind option_bind]. rewrite Hacc1. cbn [mbind option_bind]. rewrite Hacc2. cbn [mbind option_bind].
  destruct (negb (a_access e (subject m) (a_parent A path) 3) || negb (a_access e (subject m) (a_parent A new) 3)); [by apply fulfils_fail|].
  assert (inode_of a s = Some n) as Hio by (unfold inode_of; by rewrite Hf). rewrite Hio. cbn [mbind option_bind].
  change (i_type n =? BUNIX_VFS_TYPE_DIRECTORY) with (is_dir (node_of n)).
  destruct (is_dir (node_of n) && path_has_prefix_child new path) eqn:Hpre; [by apply fulfils_fail|]. rewrite find_path_ok. cbn [mbind option_bind].
  destruct (gp g !! new) as [b|] eqn:Hnew; cbn [from_option id]; cycle 1.
  { destruct (none_ok new Hnew) as [_ ->]. by apply rename_move_ok. }
  destruct (entry_ok g s _ _ Hinv Hnew) as (fb & t & Hb0 & Hfb & _ & _ & _ & Ht & Hiob & _ & _ & _ & _ & Hg).
  rewrite (proj2 (Z.eqb_neq b 0) Hb0), (node_ok new b t Hnew Hg).
  destruct (negb (Z.land (high32 (m_word3 m)) 1 =? 0)); [by apply fulfils_fail|]. rewrite Hiob. cbn [mbind option_bind].
  change (i_type t =? BUNIX_VFS_TYPE_DIRECTORY) with (is_dir (node_of t)).
  destruct (is_dir (node_of t) && negb (is_dir (node_of n))); [by apply fulfils_fail|].
  destruct (negb (is_dir (node_of t)) && is_dir (node_of n)); [by apply fulfils_fail|].
  assert ((if is_dir (node_of t) then directory_is_empty new s else Some true) =
    Some (negb (is_dir (node_of t) && (negb (a_small A) || negb (bool_decide (a_children A new = [])))))) as ->.
  { destruct (is_dir (node_of t)); [|done]. rewrite (empty_ok g s Hinv new Hlen'). cbn [andb]. by rewrite negb_orb, !negb_involutive. }
  cbn [mbind option_bind]. rewrite negb_involutive. destruct (is_dir (node_of t) && (negb (a_small A) || _)); [by apply fulfils_fail|].
  destruct (unlink_file_ok g s new b Hinv Hnew (closed_ok g s new b Hinv Hnew (Hc path new Hrd))) as (s1 & -> & Hinv1 & Habs & Hpl). cbn [mbind option_bind].
  set (g1 := with_paths _ _ _) in *. assert (gp g1 !! path = Some a) as Hp1 by (simpl; by rewrite lookup_delete_ne).
  destruct (entry_ok g1 s1 _ _ Hinv1 Hp1) as (_ & n1 & _ & _ & _ & _ & _ & _ & Hio1 & _ & _ & _ & _ & Hg1).
  assert (node_of n1 = node_of n) as Hnode.
  { pose proof (abs_node g1 s1 Hinv1 path) as Hx. rewrite Hg1, Habs in Hx. apply a_unlink_node in Hx; [|done]. rewrite (abs_node g s Hinv) in Hx.
    unfold g_node in Hx. rewrite Hp in Hx. cbn [mbind option_bind] in Hx. rewrite Hio in Hx. apply (inj Some) in Hx. done. }
  apply (fulfils_from _ g s g1 s1); [|by apply Hpl]. rewrite <- Hnode, <- Habs. apply rename_move_ok; try done.
  - simpl. by rewrite lookup_delete_eq.
  - by rewrite Hnode.
Qed.

(** *** Listing *)

Section Readdir.
Context (dir : string) (Hdir : (String.length dir < 4096)%nat).

Lemma str_drop_length k : forall p, (String.length (str_drop k p) <= String.length p)%nat.
Proof. induction k as [|k IH]; intros [|c p]; simpl; try lia. specialize (IH p). lia. Qed.

Lemma string_bytes_length p : length (string_bytes p) = String.length p.
Proof. induction p as [|c p IH]; simpl; lia. Qed.

Lemma dirent_ok a f last : files s !! a = Some f -> gp g !! f_path f = Some a -> (String.length (f_path f) < 4096)%nat ->
  exists w c, readdir_entry m dir f last s = Some (w, c) /\ (last = false -> sp_dirent m A dir (f_path f) (w, c, A)).
Proof.
  intros Hf Hp Hlen. destruct (entry_ok g s _ _ Hinv Hp) as (f' & n & _ & Hf' & _ & _ & _ & Hn & _ & _ & _ & _ & _ & Hg). rewrite Hf in Hf'. injection Hf' as <-.
  unfold readdir_entry, sp_dirent. rewrite Hn. cbn [mbind option_bind]. unfold path_name_in_dir.
  rewrite (str_len_small dir) by done. replace (Z.to_nat (Z.of_nat (String.length dir) + 1)) with (String.length dir + 1)%nat by lia.
  set (name := str_drop (String.length dir + 1) (f_path f)).
  assert (String.length name <= String.length (f_path f))%nat as Hnl by apply str_drop_length. rewrite (str_len_small name) by lia.
  pose proof (mo_word3 m Hm) as W3. unfold in_u64 in W3.
  assert ((if m_word3 m <? Z.of_nat (String.length name) then m_word3 m else Z.of_nat (String.length name)) = Z.min (m_word3 m) (Z.of_nat (String.length name))) as ->
    by (destruct (Z.ltb_spec (m_word3 m) (Z.of_nat (String.length name))); lia).
  set (written := Z.min _ _). destruct (Z.eqb_spec written 0) as [E|E].
  - cbn [mbind option_bind Z.eqb]. eexists _, _. split; [done|]. intros ->. exists (node_of n). split; [by apply (node_ok _ a)|]. fold name written.
    by rewrite E.
  - destruct (mwrite_ok m Hm (m_word2 m) (slice 0 written (string_bytes name))) as (rc & c & Hw); [apply Hm| |].
    { unfold slice, in_u64. rewrite length_take, drop_0, string_bytes_length. lia. }
    rewrite Hw. cbn [mbind option_bind]. eexists _, _. split; [done|]. intros ->. exists (node_of n). split; [by apply (node_ok _ a)|]. fold name written.
    exists rc, c. split; [done|]. by destruct (rc =? 0).
Qed.

Lemma readdir_loop_ok l2 : forall l1 n current, gl g = l1 ++ l2 -> 0 <= current <= m_word1 m ->
  exists w c, readdir_loop n (hd 0 l2) current m dir s = Some (w, c) /\
    ((length l2 < n)%nat ->
     match filter (fun p => child_of p dir = true) (path_at s <$> l2) !! Z.to_nat (m_word1 m - current) with
     | None => (w, c) = (status BUNIX_VFS_ERR_NOENT, m_cap m)
     | Some path => sp_dirent m A dir path (w, c, A)
     end).
Proof.
  induction l2 as [|a l2 IH]; intros l1 n current Hl Hcur.
  { destruct n; cbn [readdir_loop hd]; cbn [Z.eqb]; eexists _, _; (split; [done|]); intros _; done. }
  destruct (walk_step g s Hinv l1 a l2 Hl) as (f & Ha0 & Hf & Hnx & Hval & _ & Hpath & Hplen).
  assert (gp g !! path_at s a = Some a) as Hp by (apply (listed_entry g s Hinv); rewrite Hl; set_solver).
  destruct n as [|n]; cbn [readdir_loop hd]; rewrite (proj2 (Z.eqb_neq a 0) Ha0); [eexists _, _; split; [done|]; simpl; lia|].
  rewrite Hval. cbn [mbind option_bind negb]. rewrite (child_ok g s Hinv dir Hdir l1 a l2 Hl). cbn [mbind option_bind]. rewrite Hf. cbn [mbind option_bind].
  rewrite Hnx, fmap_cons, filter_cons. destruct (child_of (path_at s a) dir) eqn:Hc; cbn [negb].
  - rewrite decide_True by done. destruct (Z.eqb_spec current (m_word1 m)) as [->|Hne].
    + rewrite <- Hpath in Hp, Hplen |- *. destruct (dirent_ok a f (Nat.eqb n 0) Hf Hp Hplen) as (w & c & -> & Hs). eexists _, _. split; [done|].
      intros Hlt. rewrite Z.sub_diag. apply Hs. cbn [length] in Hlt. apply Nat.eqb_neq. intros ->.
      lia.
    + destruct (IH (l1 ++ [a]) n (current + 1)) as (w & c & -> & Hs); [by rewrite <- app_assoc|lia|]. eexists _, _. split; [done|]. intros Hlt.
      replace (Z.to_nat (m_word1 m - current)) with (S (Z.to_nat (m_word1 m - (current + 1)))) by lia. apply Hs. cbn [length] in Hlt. lia.
  - rewrite decide_False by done. destruct (IH (l1 ++ [a]) n current) as (w & c & -> & Hs); [by rewrite <- app_assoc|lia|]. eexists _, _. split; [done|].
    intros Hlt. apply Hs. cbn [length] in Hlt. lia.
Qed.
End Readdir.

Lemma readdir_ok : fulfils (fun _ => sp_readdir m A) g s (vfs_readdir_buffer m s).
Proof.
  unfold vfs_readdir_buffer, sp_readdir.
  destruct handle_cases as [(-> & -> & _)|[(o & -> & Hif & Hk & -> & _ & Hlen)|(o & p & f & n & -> & Hif & Hk & -> & _)]]; cbn [mbind option_bind].
  - by apply fulfils_fail.
  - rewrite Hk. cbn [negb]. destruct (cap_null m || negb (has_right BUNIX_RIGHT_SEND m)); [by apply fulfils_fail|].
    assert (files_head s = hd 0 (gl g)) as -> by (by destruct (iv_list _ _ _ Hinv)). pose proof (mo_word1 m Hm) as W1. unfold in_u64 in W1.
    destruct (readdir_loop_ok (o_path o) Hlen (gl g) [] (Z.to_nat TMPFS_TREE_WALK_LIMIT) 0 eq_refl) as (w & c & -> & Hres); [lia|].
    cbn [mbind option_bind]. apply fulfils_same; [done|]. rewrite (small_ok g s Hinv).
    destruct (Nat.ltb_spec (length (gl g)) (Z.to_nat TMPFS_TREE_WALK_LIMIT)) as [Hlt|Hge]; [right|by left]. specialize (Hres Hlt).
    rewrite Z.sub_0_r in Hres. unfold a_children. cbn [a_order abs]. destruct (_ !! Z.to_nat (m_word1 m)); [exact Hres|]. by injection Hres as -> ->.
  - rewrite Hk. by apply fulfils_fail.
Qed.
End Handlers.

(** ** Making directories with their parents *)

Lemma a_mkdir_p_rc e mem mode task path A rc A' : a_mkdir_p e mem mode task path A rc A' -> rc = 0 \/ rc = -1.
Proof. intros H. destruct H; try (by left); try (by right); [destruct (is_dir n)|destruct (_ || _)]; auto. Qed.

Lemma a_mkdir_p_mono e (mem mem' : bool) mode task path A rc A' : (mem' = true -> mem = true) -> a_mkdir_p e mem mode task path A rc A' ->
  a_mkdir_p e mem' mode task path A rc A'.
Proof.
  intros Hm H. induction H; [by eapply mkdir_p_relative|by eapply mkdir_p_root|by eapply mkdir_p_exists|by eapply mkdir_p_fails|].
  eapply mkdir_p_makes; eauto.
Qed.

Lemma str_take_len k : forall p, (String.length (str_take k p) <= k)%nat.
Proof. induction k as [|k IH]; intros [|c p]; simpl; try lia. specialize (IH p). lia. Qed.

Lemma last_slash_bound p : forall i last, (last < i)%nat -> (last_slash i last p < i + String.length p)%nat.
Proof.
  induction p as [|c p IH]; intros i last Hl; simpl; [lia|]. specialize (IH (S i) (if bool_decide (c = slash) then i else last)).
  destruct (bool_decide (c = slash)); lia.
Qed.

Lemma parent_shorter path parent : path <> "/"%string -> path_parent_path path = Some parent -> (String.length parent < String.length path)%nat.
Proof.
  intros Hne. unfold path_parent_path. destruct path as [|c rest]; [done|]. destruct (bool_decide (c = slash)) eqn:Hc; [|done].
  apply bool_decide_eq_true_1 in Hc as ->. pose proof (last_slash_bound rest 1 0 ltac:(lia)) as Hb.
  destruct (last_slash 1 0 rest) as [|k]; intros [= <-].
  - destruct rest; [done|]. simpl. lia.
  - pose proof (str_take_len (S k) (String slash rest)). simpl in *. lia.
Qed.

Lemma mkdir_p_ok e mode task fuel : forall path g s, inv ∅ g s -> (String.length path < 4096)%nat -> (String.length path < fuel)%nat ->
  exists rc s' g' mem, mkdir_p_path e fuel path mode task s = Some (rc, s') /\ inv ∅ g' s' /\ a_mkdir_p e mem mode task path (abs g s) rc (abs g' s') /\
    (mem = false -> ~ plenty (2 * String.length path) s) /\ (forall n, plenty (2 * String.length path + n) s -> plenty n s').
Proof.
  induction fuel as [|fuel IH]; intros path g s Hinv Hlen Hfuel; [lia|]. cbn [mkdir_p_path].
  assert (forall n, plenty (2 * String.length path + n) s -> plenty n s) as Hkeep by (intros n; apply plenty_le; lia).
  destruct (starts_with_slash path) eqn:Hs; cbn [negb]; cycle 1.
  { exists (-1), s, g, true. split; [done|]. split; [done|]. split; [by apply mkdir_p_relative|]. done. }
  rewrite (root_ok g s Hinv) by done. cbn [mbind option_bind]. destruct (a_is_root (abs g s) path) eqn:Hroot.
  { exists 0, s, g, true. split; [done|]. split; [done|]. split; [by apply mkdir_p_root|]. done. }
  rewrite (find_path_ok g s Hinv). cbn [mbind option_bind]. destruct (gp g !! path) as [a|] eqn:Hp; cbn [from_option id].
  { destruct (entry_ok g s _ _ Hinv Hp) as (f & n & Ha0 & _ & _ & _ & _ & _ & Hio & _ & _ & _ & _ & Hg). rewrite (proj2 (Z.eqb_neq a 0) Ha0), Hio.
    cbn [negb mbind option_bind]. eexists _, s, g, true. split; [done|]. split; [done|]. split; [|done].
    apply (mkdir_p_exists e true mode task path (abs g s) (node_of n)); try done. by apply (node_ok g s Hinv path a). }
  cbn [Z.eqb negb]. destruct (none_ok g s path Hp) as [Hl _].
  destruct (path_parent_path path) as [parent|] eqn:Hpar; cycle 1.
  { exfalso. unfold path_parent_path in Hpar. destruct path as [|c rest]; [done|]. simpl in Hs. rewrite Hs in Hpar. by destruct (last_slash 1 0 rest). }
  assert (path <> "/"%string) as Hne by (intros ->; done).
  pose proof (parent_shorter path parent Hne Hpar) as Hsh. destruct (IH parent g s Hinv) as (rc & s1 & g1 & mem1 & -> & Hinv1 & Hsub & Hpl1 & Hk1); [lia|lia|].
  cbn [mbind option_bind]. destruct (a_mkdir_p_rc _ _ _ _ _ _ _ _ Hsub) as [Hrc|Hrc]; subst rc; cbn [Z.eqb negb]; cycle 1.
  { exists (-1), s1, g1, mem1. split; [done|]. split; [done|]. split; [by eapply mkdir_p_fails|]. split.
    - intros Hm H. apply (Hpl1 Hm). eapply plenty_le; [|done]. lia.
    - intros n H. apply Hk1. eapply plenty_le; [|done]. lia. }
  destruct (file_create_ok e g1 s1 path mode BUNIX_VFS_TYPE_DIRECTORY task Hinv1 Hlen) as (file & st & s2 & g2 & mem2 & -> & Hinv2 & Hc & Hpl2 & Hk2 & Hcase).
  cbn [mbind option_bind]. exists (if (st =? 0) || (st =? BUNIX_VFS_ERR_EXIST) then 0 else -1), s2, g2, (mem1 && mem2). split.
  { do 2 f_equal. destruct Hcase as [(-> & Hst & _)|(Hfile & -> & _)]; [by rewrite (proj2 (Z.eqb_neq st 0) Hst)|by rewrite (proj2 (Z.eqb_neq file 0) Hfile)]. }
  split; [done|]. split; [|split].
  - eapply mkdir_p_makes; try done; [|by intros [_ ?]%andb_true_iff]. eapply a_mkdir_p_mono; [|done]. by intros [? _]%andb_true_iff.
  - intros [Hm|Hm]%andb_false_iff H; [apply (Hpl1 Hm)|apply (Hpl2 Hm), Hk1]; (eapply plenty_le; [|done]); lia.
  - intros n H. apply Hk2, Hk1. eapply plenty_le; [|done]. lia.
Qed.

(** ** Requests *)

(** What a client has to respect: offsets and sizes fit, and the entry that a
    request removes is not open. *)
Definition request_ok (r : request) (m : bunix_msg) (A : afs) : Prop :=
  match r with
  | VFS VFS_WRITE_FILE_BUFFER => m_word1 m + m_word2 m <= 2 ^ 63
  | VFS VFS_TRUNCATE => m_word1 m <= 2 ^ 63
  | VFS VFS_UNLINK_BUFFER | VFS VFS_RMDIR_BUFFER => forall path, read_resolved_path m = Some (Some path) -> closed A path
  | VFS VFS_RENAME_BUFFER => forall path new, read_rename_buffer m = Some (Some (path, new)) -> closed A new
  | _ => True
  end.

Lemma vfs_ok e t m g s : msg_ok m -> inv ∅ g s -> request_ok (VFS t) m (abs g s) ->
  fulfils (fun mem => sp_vfs e m mem t (abs g s)) g s (vfs_request e t m s).
Proof.
  intros Hm Hinv Hr. destruct t; simpl in Hr; cbn [vfs_request sp_vfs].
  - by apply read_ok.
  - by apply close_request_ok.
  - by apply stat_meta_ok.
  - by apply open_ok.
  - by apply query_ok.
  - by apply query_ok.
  - by apply query_ok.
  - by apply create_ok.
  - by apply write_ok.
  - by apply truncate_ok.
  - by apply unlink_request_ok.
  - by apply chmod_buffer_ok.
  - by apply chmod_ok.
  - by apply mkdir_ok.
  - by apply chown_buffer_ok.
  - by apply chown_ok.
  - by apply rmdir_ok.
  - by apply readdir_ok.
  - by apply symlink_request_ok.
  - by apply rename_ok.
  - by apply mknod_ok.
  - by apply link_request_ok.
  - by apply query_ok.
  - by apply read_ok.
  - by apply fulfils_fail.
Qed.

Section Serve.
Context (e : env) (m : bunix_msg) (Hm : msg_ok m) (g : ghost) (s : tmpfs) (Hinv : inv ∅ g s).
Notation A := (abs g s).

Lemma with_path_ok (k' : bool -> string -> outcome -> Prop) k :
  (forall path, (String.length path < 4096)%nat -> fulfils (fun mem => k' mem path) g s (k path)) ->
  fulfils (fun mem o => match bunix_read_path_cap m with Some (Some path) => k' mem path o | _ => refuse m A ERR o end) g s
    (path ← bunix_read_path_cap m; match path with None => fail m ERR s | Some path => k path end).
Proof.
  intros Hk. destruct (path_cap_ok m Hm) as (r & -> & Hr). cbn [mbind option_bind]. destruct r as [path|]; [by apply Hk, Hr|by apply (fulfils_fail m g s Hinv)].
Qed.

Lemma set_meta_ok path : fulfils (fun mem => sp_set_meta m A path) g s ('(w, s) ← reply_set_meta m path s; Some (w, m_cap m, s)).
Proof.
  unfold reply_set_meta, sp_set_meta. destruct (negb (m_word1 m =? BUNIX_FS_META_BYTES) || cap_null m || negb (has_right BUNIX_RIGHT_RECV m));
    [by apply (fulfils_fail m g s Hinv)|].
  destruct (mread_ok m Hm (m_word0 m) BUNIX_FS_META_BYTES) as (rc & payload & -> & Hr); [apply Hm|unfold in_u64, BUNIX_FS_META_BYTES; lia|].
  cbn [mbind option_bind]. destruct Hr as [[-> _]|[-> _]]; cbn [Z.eqb negb]; [|by apply (fulfils_fail m g s Hinv)].
  rewrite (find_path_ok g s Hinv), abs_links_lookup. cbn [mbind option_bind]. destruct (gp g !! path) as [a|] eqn:Hp; cbn [from_option id fmap option_fmap option_map];
    [|by apply (fulfils_fail m g s Hinv)].
  destruct (entry_ok g s _ _ Hinv Hp) as (f & n & Ha0 & Hf & _ & _ & _ & Hn & Hio & Hok & _ & Hnode & _). rewrite (proj2 (Z.eqb_neq a 0) Ha0), Hio.
  cbn [mbind option_bind]. assert (inode_at s a = f_inode f) as -> by (unfold inode_at; by rewrite Hf).
  eapply fulfils_weaken; [intros mem o H; exists (node_of n); split; [done|exact H]|]. cbv zeta. cbn [a_type node_of].
  destruct (negb (high32 (bunix_load_u64_le payload 0) =? i_type n)); [by apply (fulfils_fail m g s Hinv)|].
  match goal with |- context [upd_inode a ?h s] => destruct (upd_ok g s Hinv path a f n h Hp Hf Hn) as (s' & -> & Hinv' & Habs); [by destruct Hok|done|] end.
  cbn [mbind option_bind]. apply fulfils_done; [done|]. rewrite Habs. done.
Qed.

Lemma mount_request_ok path : (String.length path < 4096)%nat ->
  fulfils (fun mem => sp_mount e m mem A path) g s ('(rc, s) ← mount_root e path s; fail m (int_word rc) s).
Proof.
  intros Hlen. destruct (mount_ok e g s path Hinv Hlen) as (rc & s' & g' & mem & -> & Hinv' & Hpl & Hres). cbn [mbind option_bind].
  eexists _, _, s', g', mem. split; [done|]. split; [done|]. split; [|intros Hmem H; apply (Hpl Hmem); by apply (enough_le 2); [lia|]].
  unfold sp_mount. destruct (negb (starts_with_slash path)); [by destruct Hres as [-> ->]|].
  destruct (bool_decide (path ∈ a_roots A)); [by destruct Hres as [-> ->]|]. destruct (mem && e_mount e path); by destruct Hres as [-> ->].
Qed.

Lemma grant_request_ok : fulfils (fun mem => sp_grant m mem A) g s ('(rc, s) ← grant_vfs_caller_task (m_sender m) (m_word0 m) s; fail m rc s).
Proof.
  destruct (grant_ok g s (m_sender m) (m_word0 m) Hinv) as (rc & s' & g' & mem & -> & Hinv' & Hpl & Hres). cbn [mbind option_bind].
  eexists _, _, s', g', mem. split; [done|]. split; [done|]. split; [|intros Hmem H; apply (Hpl Hmem); by apply (enough_le 1); [lia|]].
  unfold sp_grant. cbv zeta in *. destruct (_ || _); [by destruct Hres as [-> ->]|]. destruct (bool_decide _); [by destruct Hres as [-> ->]|].
  destruct mem; by destruct Hres as [-> ->].
Qed.

Lemma caller_ok : sender_is_vfs_caller (m_sender m) s = Some (bool_decide (m_sender m ∈ a_callers A)).
Proof.
  unfold sender_is_vfs_caller. cbn [a_callers abs]. destruct (Z.eqb_spec (m_sender m) 0) as [->|H0].
  { symmetry. f_equal. apply bool_decide_eq_false_2. rewrite elem_of_dom, (iv_caller _ _ _ Hinv). by intros [? ?]. }
  unfold bunix_u64_tree_get. rewrite (get_ok _ _ _ _ (iv_callers _ _ _ Hinv)), umap_lookup. destruct (gc g !! m_sender m) as [c|] eqn:Hc.
  - rewrite bool_decide_eq_true_2 by (apply elem_of_dom; eauto). destruct (models_node _ _ _ (m_sender m) c c (iv_callers _ _ _ Hinv)) as (Hc0 & _);
      [by rewrite umap_lookup, Hc|]. simpl. by rewrite (proj2 (Z.eqb_neq c 0) Hc0).
  - rewrite bool_decide_eq_false_2 by (rewrite elem_of_dom, Hc; by intros [? ?]). done.
Qed.

Lemma serve_ok r : request_ok r m A -> fulfils (fun mem => fs_serve e m mem r A) g s (serve e r m s).
Proof.
  intros Hr. unfold serve, fs_serve. destruct r as [| | | | |t].
  - apply with_path_ok. apply mount_request_ok.
  - apply (with_path_ok (fun mem path o => exists rc A', a_mkdir_p e mem (m_word1 m) (m_word2 m) path A rc A' /\ refuse m A' (int_word rc) o)).
    intros path Hlen. destruct (mkdir_p_ok e (m_word1 m) (m_word2 m) (S (String.length path)) path g s Hinv Hlen ltac:(lia))
      as (rc & s' & g' & mem & -> & Hinv' & Hs & Hpl & _). cbn [mbind option_bind].
    eexists _, _, s', g', mem. split; [done|]. split; [done|]. split; [by eexists _, _|]. intros Hmem H. apply (Hpl Hmem). apply (enough_le); [|done]. lia.
  - apply (with_path_ok (fun _ path => sp_set_meta m A path)). intros path _. apply set_meta_ok.
  - by apply (fulfils_fail m g s Hinv).
  - apply grant_request_ok.
  - rewrite caller_ok. cbn [mbind option_bind]. destruct (bool_decide (m_sender m ∈ a_callers A)); cbn [negb]; [by apply vfs_ok|].
    by apply (fulfils_fail m g s Hinv).
Qed.
End Serve.
