(* ===== verification/TmpfsRun.v ===== *)
(** * Runs of the memory file system

    What clients of the server can rely on over a sequence of requests, what
    tasks without a grant can do, and the sequences that break it. *)
From stdpp Require Import gmap list strings.
From Stdlib Require Import ZArith Lia ZifyBool Ascii.
From S2P Require Import Prelude Tree Buffer Dll Tmpfs TmpfsSpec TmpfsInv TmpfsOps TmpfsMove TmpfsRefine.

Open Scope Z_scope.
Open Scope machine_scope.

#[local] Arguments Z.to_nat : simpl never.

(** ** Runs *)

Definition step : Type := env * request * bunix_msg.

(** The answers of the server. *)
Fixpoint run (steps : list step) (s : tmpfs) : option (list answer * tmpfs) :=
  match steps with
  | [] => Some ([], s)
  | (e, r, m) :: steps => '(w, c, s) ← serve e r m s; '(answers, s) ← run steps s; Some ((w, c) :: answers, s)
  end.

Inductive a_run : list step -> afs -> list answer -> afs -> Prop :=
  | a_run_nil A : a_run [] A [] A
  | a_run_cons e r m steps A mem w c A1 answers A2 : fs_serve e m mem r A (w, c, A1) -> a_run steps A1 answers A2 ->
      a_run ((e, r, m) :: steps) A ((w, c) :: answers) A2.

(** The clients respect [request_ok], whatever the answers are. *)
Fixpoint well_behaved (steps : list step) (A : afs) : Prop :=
  match steps with
  | [] => True
  | (e, r, m) :: steps => msg_ok m /\ request_ok r m A /\ forall mem o, fs_serve e m mem r A o -> well_behaved steps o.2
  end.

(** A state of the server and the file system it stands for. *)
Definition represents (A : afs) (s : tmpfs) : Prop := exists g, inv ∅ g s /\ abs g s = A.

Definition empty_afs : afs := mk_afs ∅ [] ∅ ∅ ∅ ∅ 0 2.

Lemma no_paths (D : gset Z) : D = ∅ -> models D (bunix_tree_init (mk_tree 0 0 ∅)) (tmap ∅).
Proof.
  intros ->. unfold tmap. rewrite fmap_empty, kmap_empty. pose proof (init_models (K := cstr) (mk_tree 0 0 ∅)) as H. simpl in H.
  rewrite dom_empty_L in H. apply H. set_solver.
Qed.

Lemma no_ids (D : gset Z) : D = ∅ -> models D (bunix_u64_tree_init (mk_tree 0 0 ∅)) (umap ∅).
Proof.
  intros ->. unfold umap. rewrite fmap_empty. pose proof (init_models (K := Z) (mk_tree 0 0 ∅)) as H. simpl in H.
  rewrite dom_empty_L in H. apply H. set_solver.
Qed.

Lemma tmpfs_start_ok alloc : represents empty_afs (tmpfs_start alloc).
Proof.
  exists (mk_ghost ∅ [] ∅ ∅ ∅). split; [|unfold abs, empty_afs; simpl; by rewrite !fmap_empty, !dom_empty_L].
  constructor; simpl; try done.
  - apply no_paths, dom_empty_L.
  - intros p a. split; [done|]. by intros (f & Hf & _).
  - split; [done|]. split; [constructor|]. split; [set_solver|done].
  - intros a. split; [by intros ?%elem_of_nil|by intros [[? ?] _]].
  - apply no_paths, dom_empty_L.
  - apply no_ids, dom_empty_L.
  - intros id a. split; [done|]. by intros (o & Ho & _).
  - apply no_ids, dom_empty_L.
Qed.

Lemma serve_represents e r m s A : represents A s -> msg_ok m -> request_ok r m A ->
  exists w c s' A' mem, serve e r m s = Some (w, c, s') /\ represents A' s' /\ fs_serve e m mem r A (w, c, A') /\ (plenty enough s -> mem = true).
Proof.
  intros (g & Hinv & <-) Hm Hr. destruct (serve_ok e m Hm g s Hinv r Hr) as (w & c & s' & g' & mem & H1 & H2 & H3 & H4).
  exists w, c, s', (abs g' s'), mem. split; [done|]. split; [by exists g'|]. split; [done|]. intros Hp. destruct mem; [done|]. by destruct (H4 eq_refl).
Qed.

Lemma run_represents steps : forall s A, represents A s -> well_behaved steps A ->
  exists answers s' A', run steps s = Some (answers, s') /\ a_run steps A answers A' /\ represents A' s'.
Proof.
  induction steps as [|[[e r] m] steps IH]; intros s A Hrep Hwb.
  { exists [], s, A. split; [done|]. split; [constructor|done]. }
  destruct Hwb as (Hm & Hr & Hnext). destruct (serve_represents e r m s A Hrep Hm Hr) as (w & c & s1 & A1 & mem & Hs & Hrep1 & Hfs & _).
  destruct (IH s1 A1 Hrep1 (Hnext mem _ Hfs)) as (answers & s2 & A2 & Hrun & Ha & Hrep2). exists ((w, c) :: answers), s2, A2.
  cbn [run]. rewrite Hs. cbn [mbind option_bind]. rewrite Hrun. split; [done|]. split; [by econstructor|done].
Qed.

(** C3: the memory file system implements its specification.  For every
    sequence of requests of well behaved clients, whatever the other servers and
    the allocator answer, the server answers every request, and the answers are
    those of a file system of paths, inodes and handles, with no trace of trees,
    lists, reference counts or addresses. *)
Theorem tmpfs_refines steps alloc : well_behaved steps empty_afs ->
  exists answers s' A', run steps (tmpfs_start alloc) = Some (answers, s') /\ a_run steps empty_afs answers A' /\ represents A' s'.
Proof. intros Hwb. apply run_represents; [apply tmpfs_start_ok|done]. Qed.

(** ** A small session *)

Definition all_env : env := mk_env (fun _ => Some 0) (fun _ => Some 0) (fun _ _ _ _ => true) (fun _ => true) 0.

(** A request on a path from task 7, with room for an answer behind the path. *)
Definition path_msg (path : string) (room : nat) (word2 word3 : Z) : bunix_msg :=
  let bytes := string_bytes "/" ++ [0] ++ string_bytes path ++ [0] in
  mk_msg 7 3 (CBuffer (mk_buffer (Z.of_nat (length bytes + room)) (bytes ++ replicate room 0))) 2 (Z.of_nat (String.length path) + 1) word2 word3.

(** A request on a handle with a buffer. *)
Definition handle_msg (word0 word1 word2 word3 : Z) (bytes : list Z) : bunix_msg :=
  mk_msg 7 3 (CBuffer (mk_buffer (Z.of_nat (length bytes)) bytes)) word0 word1 word2 word3.

Definition grant_step : step := (all_env, VFS_GRANT_SUBJECT_TASK, mk_msg 7 0 CNone 0 0 0 0).
Definition on (t : vfs_type) (m : bunix_msg) : step := (all_env, VFS t, m).

(** Create a file, open it, write five bytes and read them back. *)
Definition session : list step :=
  [grant_step; on VFS_CREATE_BUFFER (path_msg "/f" 0 0 0); on VFS_OPEN_BUFFER (path_msg "/f" 0 0 0);
   on VFS_WRITE_FILE_BUFFER (handle_msg 1 0 5 0 [104; 101; 108; 108; 111]);
   on VFS_READ_FILE_BUFFER (handle_msg 1 0 5 0 [0; 0; 0; 0; 0])].

Definition heap_of (n : nat) : list (option Z) := (fun i => Some (Z.of_nat i + 1)) <$> seq 0 n.

Lemma msg_ok_decide m : (match m_cap m with CBuffer b => (buf_size b =? Z.of_nat (length (buf_data b))) && (buf_size b <=? BUFFER_MAX_SIZE) | _ => true end &&
  forallb (fun w => (0 <=? w) && (w <? 2 ^ 64)) [m_word0 m; m_word1 m; m_word2 m; m_word3 m]) = true -> msg_ok m.
Proof.
  intros H. cbn [forallb] in H. bool_facts. constructor; unfold in_u64; try lia.
  destruct (m_cap m); try done. unfold buffer_wf. lia.
Qed.

Lemma tmpfs_refines_witness : well_behaved session empty_afs /\
  fst <$> run session (tmpfs_start (heap_of 10)) =
    Some [(status 0, CNone); (status 0, m_cap (path_msg "/f" 0 0 0)); (mk_words 0 1 0 1, m_cap (path_msg "/f" 0 0 0));
          (mk_words 0 5 0 0, m_cap (handle_msg 1 0 5 0 [104; 101; 108; 108; 111])); (mk_words 0 5 0 0, m_cap (handle_msg 1 0 5 0 [104; 101; 108; 108; 111]))] /\
  exists answers s' A', run session (tmpfs_start (heap_of 10)) = Some (answers, s') /\ a_run session empty_afs answers A' /\ represents A' s'.
Proof.
  assert (well_behaved session empty_afs) as Hwb.
  { repeat (cbn [well_behaved session grant_step on]; split; [by apply msg_ok_decide|split; [try done; simpl; lia|intros ? ? _]]). done. }
  split; [done|]. split; [by vm_compute|]. exact (tmpfs_refines session (heap_of 10) Hwb).
Defined.

(** ** The data structures stay sound *)

(** Inodes count the entries that lead to them and hold their contents inside
    their blocks; entries count their open handles, have different paths and
    lead to inodes; handles on files lead to entries. *)
Definition sound (s : tmpfs) : Prop :=
  (forall i n, inodes s !! i = Some n -> i_refs n = links_to i (files s) /\ 0 < i_refs n /\ 0 <= i_size n <= i_capacity n /\ i_capacity n < 2 ^ 64 /\
    Z.of_nat (length (default [] (i_data n))) = i_capacity n) /\
  (forall a f, files s !! a = Some f -> is_Some (inodes s !! f_inode f) /\ f_refs f = opens_of a (opens s) /\ f_deleted f = false /\
    Z.of_nat (String.length (f_path f)) < TMPFS_MAX_PATH) /\
  (forall a b f f', files s !! a = Some f -> files s !! b = Some f' -> f_path f = f_path f' -> a = b) /\
  (forall k o, opens s !! k = Some o -> o_kind o = TMPFS_OPEN_FILE -> is_Some (files s !! o_file o)).

Lemma represents_sound A s : represents A s -> sound s.
Proof.
  intros (g & Hinv & _). split; [|split; [|split]].
  - intros i n Hn. destruct (iv_inode _ _ _ Hinv i n Hn) as ([Hd Hs Hc] & Hr & Hp). split; [done|]. split; [done|]. split; [lia|]. split; [lia|].
    destruct (i_data n); simpl; lia.
  - intros a f Hf. destruct (iv_file _ _ _ Hinv a f Hf) as (Hd & Hl & Hr). unfold TMPFS_MAX_PATH. split; [|repeat split; try done; lia].
    destruct (iv_linked _ _ _ Hinv a f Hf) as [[? _]|?]; [set_solver|done].
  - intros a b f f' Hf Hf' E. assert (forall c, c ∉ (∅ : gset Z)) as Hno by (intros c; apply not_elem_of_empty).
    pose proof (entry_of_file ∅ g s Hinv a f Hf (Hno a)) as H1. pose proof (entry_of_file ∅ g s Hinv b f' Hf' (Hno b)) as H2. rewrite E in H1. congruence.
  - intros k o Ho Hk. destruct (iv_target _ _ _ Hinv k o Ho) as (_ & [H|[_ H]]); [|done]. rewrite Hk in H. done.
Qed.

(** C14: the data structures of the server stay sound.  After every sequence of
    requests of well behaved clients each inode counts exactly the entries that
    lead to it, its contents fit its block, each entry counts exactly its open
    handles, no two entries share a path, and no handle or entry dangles. *)
Theorem tmpfs_sound steps alloc answers s : well_behaved steps empty_afs -> run steps (tmpfs_start alloc) = Some (answers, s) -> sound s.
Proof.
  intros Hwb Hrun. destruct (run_represents steps _ _ (tmpfs_start_ok alloc) Hwb) as (x & s' & A' & H1 & _ & H2).
  rewrite Hrun in H1. injection H1 as _ <-. by eapply represents_sound.
Qed.

Lemma session_ok : well_behaved session empty_afs.
Proof.
  repeat (cbn [well_behaved session grant_step on]; split; [by apply msg_ok_decide|split; [try done; simpl; lia|intros ? ? _]]). done.
Qed.

Lemma tmpfs_sound_witness : exists answers s, run session (tmpfs_start (heap_of 10)) = Some (answers, s) /\ sound s /\
  (fun n => (i_size n, i_capacity n, i_refs n)) <$> inodes s !! 3 = Some (5, 64, 1).
Proof.
  assert ((r ← run session (tmpfs_start (heap_of 10)); n ← inodes r.2 !! 3; Some (i_size n, i_capacity n, i_refs n)) = Some (5, 64, 1)) as H by (by vm_compute).
  destruct (run session (tmpfs_start (heap_of 10))) as [[answers s]|] eqn:E; [|done]. exists answers, s. split; [done|].
  split; [exact (tmpfs_sound session (heap_of 10) answers s session_ok E)|]. simpl in H. destruct (inodes s !! 3); [|done]. exact H.
Defined.

(** ** Tasks that were not granted access *)

(** Entries stay and lead to the same inodes, inodes keep contents, type and
    number, a new entry is an empty directory of its own, and handles, granted
    tasks and the granting task are as before.  Modes, owners, times and mounts
    may differ. *)
Record keeps (A A' : afs) : Prop := {
  kp_links : forall p i, a_links A !! p = Some i -> a_links A' !! p = Some i;
  kp_new : forall p i, a_links A' !! p = Some i -> a_links A !! p = None -> a_nodes A !! i = None;
  kp_nodes : forall i n, a_nodes A !! i = Some n ->
    exists n', a_nodes A' !! i = Some n' /\ a_data n' = a_data n /\ a_type n' = a_type n /\ a_ino n' = a_ino n;
  kp_made : forall i n', a_nodes A' !! i = Some n' -> a_nodes A !! i = None ->
    a_data n' = [] /\ a_type n' = BUNIX_VFS_TYPE_DIRECTORY;
  kp_handles : a_handles A' = a_handles A;
  kp_callers : a_callers A' = a_callers A;
  kp_grantor : a_grantor A' = a_grantor A;
}.

Lemma keeps_refl A : keeps A A.
Proof. constructor; try done; [congruence| |congruence]. intros i n Hn. by exists n. Qed.

Lemma keeps_trans A B C : keeps A B -> keeps B C -> keeps A C.
Proof.
  intros [L1 N1 D1 M1 H1 C1 G1] [L2 N2 D2 M2 H2 C2 G2]. constructor; [auto|..|congruence|congruence|congruence].
  - intros p i Hp Hn. destruct (a_links B !! p) as [k|] eqn:Hk.
    + rewrite (L2 p k Hk) in Hp. injection Hp as ->. by apply (N1 p).
    + destruct (a_nodes A !! i) as [n|] eqn:Ha; [|done]. destruct (D1 i n Ha) as (n' & Hb & _).
      pose proof (N2 p i Hp Hk). congruence.
  - intros i n Hn. destruct (D1 i n Hn) as (n1 & Hn1 & ? & ? & ?). destruct (D2 i n1 Hn1) as (n2 & Hn2 & ? & ? & ?).
    exists n2. split_and!; congruence.
  - intros i n Hn Ha. destruct (a_nodes B !! i) as [n1|] eqn:Hb; [|by apply (M2 i)].
    destruct (M1 i n1 Hb Ha). destruct (D2 i n1 Hb) as (n2 & Hn2 & ? & ? & ?). split; congruence.
Qed.

Lemma keeps_put i n n' A : a_nodes A !! i = Some n -> a_data n' = a_data n -> a_type n' = a_type n -> a_ino n' = a_ino n ->
  keeps A (a_put i n' A).
Proof.
  intros Hn Hd Ht Hi. constructor; try done; cbn [a_put with_nodes a_links a_nodes]; [congruence|..].
  - intros j x Hx. destruct (decide (j = i)) as [->|]; [rewrite lookup_insert_eq|rewrite lookup_insert_ne by done; by exists x].
    rewrite Hn in Hx. injection Hx as <-. by exists n'.
  - intros j x Hx Hno. destruct (decide (j = i)) as [->|]; [congruence|]. rewrite lookup_insert_ne in Hx by done. congruence.
Qed.

Lemma keeps_create e path mode task mem A w A' : a_create e path mode BUNIX_VFS_TYPE_DIRECTORY task mem A w A' -> keeps A A'.
Proof.
  destruct 1 as [| | | |n i _ _ Hno _ _ Hi]; try apply keeps_refl. unfold a_create_at. destruct (a_take_ino A) as [ino next].
  constructor; try done; cbn [a_put a_link with_nodes with_links with_next_ino a_links a_nodes].
  - intros p j Hp. destruct (decide (p = path)) as [->|]; [congruence|]. by rewrite lookup_insert_ne.
  - intros p j Hp Hn. destruct (decide (p = path)) as [->|]; [|rewrite lookup_insert_ne in Hp by done; congruence].
    rewrite lookup_insert_eq in Hp. congruence.
  - intros j x Hx. destruct (decide (j = i)) as [->|]; [congruence|]. rewrite lookup_insert_ne by done. by exists x.
  - intros j x Hx Hn. destruct (decide (j = i)) as [->|]; [|rewrite lookup_insert_ne in Hx by done; congruence].
    rewrite lookup_insert_eq in Hx. injection Hx as <-. unfold new_node. by destruct (credential e task).
Qed.

Lemma keeps_mkdir_p e mem mode task path A rc A' : a_mkdir_p e mem mode task path A rc A' -> keeps A A'.
Proof. induction 1; try apply keeps_refl; [done|]. eapply keeps_trans; [done|]. by eapply keeps_create. Qed.

(** The three requests that are served to everyone. *)
Definition unguarded (r : request) : bool :=
  match r with TMPFS_MOUNT_ROOT | FS_MKDIR_P_BUFFER | FS_SET_META_BUFFER => true | _ => false end.

Lemma unguarded_keeps e m mem r A w c A' : unguarded r = true -> fs_serve e m mem r A (w, c, A') -> c = m_cap m /\ keeps A A'.
Proof.
  intros Hu Hs. assert (forall x, refuse m A x (w, c, A') -> c = m_cap m /\ keeps A A') as Hr.
  { intros x [= _ -> ->]. split; [done|apply keeps_refl]. }
  destruct r; try done; unfold fs_serve in Hs; destruct (bunix_read_path_cap m) as [[path|]|]; try (by eapply Hr).
  - unfold sp_mount in Hs. repeat case_match; try (by eapply Hr). injection Hs as _ -> ->. split; [done|].
    constructor; try done; cbn [with_roots a_links a_nodes]; [congruence| |congruence]. intros i n Hn. by exists n.
  - destruct Hs as (rc & A1 & Hmk & [= _ -> ->]). split; [done|]. by eapply keeps_mkdir_p.
  - unfold sp_set_meta in Hs. repeat case_match; try (by eapply Hr). destruct Hs as (n & Hn & Hs).
    case_match; [by eapply Hr|]. injection Hs as _ -> ->. split; [done|]. by apply (keeps_put _ n).
Qed.

(** C35: only granted callers reach the files.  From a task that was not granted
    access, every request of the file system protocol is answered with an
    access error, changes nothing and leaves the buffer of the message alone;
    so is a grant, unless the task is the one that grants or nobody granted
    yet, and an unknown request is refused in the same way.  The three requests
    that the server does not guard (mounting, making a directory with its
    parents, setting metadata) are served, and then no entry goes or leads
    elsewhere, no contents change, and no handle and no grant is made. *)
Theorem tmpfs_guarded e r m s A : represents A s -> msg_ok m -> m_sender m ∉ a_callers A ->
  exists w s', serve e r m s = Some (w, m_cap m, s') /\
    match r with
    | VFS _ => w = status BUNIX_VFS_ERR_ACCESS /\ s' = s
    | VFS_GRANT_SUBJECT_TASK => a_grantor A <> 0 -> m_sender m <> a_grantor A -> w = status BUNIX_VFS_ERR_ACCESS /\ s' = s
    | FS_UNKNOWN => w = status ERR /\ s' = s
    | _ => exists A', represents A' s' /\ keeps A A'
    end.
Proof.
  intros Hrep Hm Hno. destruct (unguarded r) eqn:Hu.
  { destruct (serve_represents e r m s A Hrep Hm) as (w & c & s' & A' & mem & Hs & Hr' & Hfs & _); [by destruct r|].
    destruct (unguarded_keeps _ _ _ _ _ _ _ _ Hu Hfs) as [-> Hk]. exists w, s'. split; [done|]. destruct r; try done; by exists A'. }
  destruct Hrep as (g & Hinv & <-). destruct r as [| | | | |t]; try done.
  - by eexists _, _.
  - destruct (serve_represents e VFS_GRANT_SUBJECT_TASK m s (abs g s)) as (w & c & s' & A' & mem & Hs & _ & Hfs & _);
      [by exists g|done..|]. assert (c = m_cap m) as ->.
    { simpl in Hfs. unfold sp_grant in Hfs. repeat case_match; by injection Hfs. }
    exists w, s'. split; [done|]. cbn [a_grantor abs]. intros Hg Hne. simpl in Hs. unfold grant_vfs_caller_task in Hs.
    rewrite (proj2 (Z.eqb_neq _ _) Hg), (proj2 (Z.eqb_neq _ _) Hne) in Hs. simpl in Hs.
    destruct (m_sender m =? 0); by injection Hs as <- <-.
  - unfold serve. rewrite (caller_ok m g s Hinv). cbn [mbind option_bind]. rewrite bool_decide_eq_false_2 by done.
    by eexists _, _.
Qed.

Lemma tmpfs_guarded_witness : represents empty_afs (tmpfs_start []) /\
  exists w s', serve all_env (VFS VFS_CREATE_BUFFER) (path_msg "/f" 0 0 0) (tmpfs_start []) = Some (w, m_cap (path_msg "/f" 0 0 0), s') /\
    w = status BUNIX_VFS_ERR_ACCESS /\ s' = tmpfs_start [].
Proof.
  split; [apply tmpfs_start_ok|]. apply (tmpfs_guarded all_env (VFS VFS_CREATE_BUFFER) (path_msg "/f" 0 0 0) (tmpfs_start []) empty_afs (tmpfs_start_ok [])).
  - by apply msg_ok_decide.
  - simpl. apply not_elem_of_empty.
Defined.

(** ** Reading what was written *)

Lemma slice_a_write off src gap d : 0 <= off -> length gap = Z.to_nat (off - Z.of_nat (length d)) ->
  slice off (Z.of_nat (length src)) (a_write off src gap d) = src /\ off + Z.of_nat (length src) <= Z.of_nat (length (a_write off src gap d)).
Proof.
  intros Ho Hg. unfold slice, a_write. assert (length (take (Z.to_nat off) (d ++ gap)) = Z.to_nat off) as Hl by (rewrite length_take, length_app; lia).
  split; [|rewrite !length_app, Hl; lia]. rewrite drop_app_length' by done. rewrite Nat2Z.id. by rewrite take_app_length.
Qed.

Lemma own_file_put m m' A i n n' : m_word0 m' = m_word0 m -> m_sender m' = m_sender m -> own_file m A = Some (i, n) ->
  own_file m' (a_put i n' A) = Some (i, n').
Proof.
  intros E1 E2. unfold own_file, own_handle. rewrite E1, E2. cbn [a_handles a_links a_nodes a_put with_nodes].
  destruct (a_handles A !! m_word0 m) as [h|]; [|done]. cbn [mbind option_bind]. destruct (a_owner h =? m_sender m); [|done]. cbn [mbind option_bind].
  destruct h as [|owner p]; [done|]. destruct (a_links A !! p) as [j|]; [|done]. cbn [mbind option_bind]. destruct (a_nodes A !! j) as [x|]; [|done].
  cbn [mbind option_bind]. intros [= -> ->]. by rewrite lookup_insert_eq.
Qed.

(** The effect of a write that succeeds. *)
Lemma write_effect e m b s A c s1 : represents A s -> msg_ok m -> m_cap m = CBuffer b -> m_word1 m + m_word2 m <= 2 ^ 63 ->
  serve e (VFS VFS_WRITE_FILE_BUFFER) m s = Some (mk_words 0 (m_word2 m) 0 0, c, s1) ->
  m_sender m ∈ a_callers A /\ exists i n gap, own_file m A = Some (i, n) /\ length gap = Z.to_nat (m_word1 m - Z.of_nat (length (a_data n))) /\
    Z.of_nat (length (slice 0 (m_word2 m) (buf_data b))) = m_word2 m /\
    represents (a_put i (set_data (a_write (m_word1 m) (slice 0 (m_word2 m) (buf_data b)) gap (a_data n)) n) A) s1.
Proof.
  intros Hrep Hm Hb Hfit Hs. destruct (serve_represents e (VFS VFS_WRITE_FILE_BUFFER) m s A Hrep Hm Hfit) as (w & c' & s' & A1 & mem & Hs' & Hrep1 & Hfs & _).
  rewrite Hs in Hs'. injection Hs' as <- <- <-. unfold fs_serve in Hfs. destruct (bool_decide (m_sender m ∈ a_callers A)) eqn:Hc; [|by inversion Hfs].
  apply bool_decide_eq_true_1 in Hc. split; [done|]. cbn [sp_vfs] in Hfs. unfold sp_write in Hfs. destruct (own_file m A) as [[i n]|]; [|by inversion Hfs].
  destruct (_ || _ || negb (has_right BUNIX_RIGHT_RECV m)) eqn:Hg; [by inversion Hfs|]. destruct Hfs as [[_ Hfs]|(rc & bytes & Hrd & gap & Hgap & Hfs)]; [by inversion Hfs|].
  destruct (Z.eqb_spec rc 0) as [->|]; [|by inversion Hfs]. injection Hfs as _ HA. unfold bunix_buffer_read in Hrd. rewrite Hb in Hrd.
  assert (has_right BUNIX_RIGHT_RECV m = true) as Hright by (destruct (has_right BUNIX_RIGHT_RECV m); [done|by rewrite orb_true_r in Hg]). rewrite Hright in Hrd.
  pose proof (mo_cap m Hm) as Hwf. rewrite Hb in Hwf. pose proof (mo_word2 m Hm) as W2.
  destruct (sys_read_ok b 0 (m_word2 m) Hwf ltac:(unfold in_u64; lia) W2) as (k & Hk & Hrd' & Hcase). rewrite Hrd' in Hrd. injection Hrd as Hrc Hbytes.
  case_decide as Hd; [|done]. subst k bytes. exists i, n, gap. split; [done|]. split; [done|]. split; [|by rewrite HA in Hrep1].
  unfold in_u64, buffer_wf in *. destruct Hd as [->|Hd]; [done|]. rewrite slice_length; lia.
Qed.

(** C25: a read returns what was written.  When a write of [len > 0] bytes at an
    offset of an open file succeeds, reading the same range through the same
    handle into a buffer that is large enough succeeds, reports [len] bytes, and
    leaves the bytes that were written in the buffer. *)
Theorem tmpfs_write_read e m1 m2 s A b1 b2 c s1 : represents A s -> msg_ok m1 -> msg_ok m2 -> m_cap m1 = CBuffer b1 -> m_cap m2 = CBuffer b2 ->
  m_word1 m1 + m_word2 m1 <= 2 ^ 63 -> serve e (VFS VFS_WRITE_FILE_BUFFER) m1 s = Some (mk_words 0 (m_word2 m1) 0 0, c, s1) ->
  m_sender m2 = m_sender m1 -> m_word0 m2 = m_word0 m1 -> m_word1 m2 = m_word1 m1 -> m_word2 m2 = m_word2 m1 -> 0 < m_word2 m1 ->
  has_right BUNIX_RIGHT_SEND m2 = true -> m_word2 m1 <= buf_size b2 ->
  exists b3 s2, serve e (VFS VFS_READ_FILE_BUFFER) m2 s1 = Some (mk_words 0 (m_word2 m1) 0 0, CBuffer b3, s2) /\
    slice 0 (m_word2 m1) (buf_data b3) = slice 0 (m_word2 m1) (buf_data b1).
Proof.
  intros Hrep Hm1 Hm2 Hb1 Hb2 Hfit Hs E1 E2 E3 E4 Hpos Hsend Hroom.
  destruct (write_effect e m1 b1 s A c s1 Hrep Hm1 Hb1 Hfit Hs) as (Hcall & i & n & gap & Hown & Hgap & Hsl & Hrep1).
  set (src := slice 0 (m_word2 m1) (buf_data b1)) in *. set (all := a_write _ src gap _) in *. set (A1 := a_put i (set_data all n) A) in *.
  pose proof (mo_word1 m1 Hm1) as W1. unfold in_u64 in W1. destruct (slice_a_write (m_word1 m1) src gap (a_data n) ltac:(lia) Hgap) as [Hread Hlen]. fold all in Hread, Hlen.
  destruct (serve_represents e (VFS VFS_READ_FILE_BUFFER) m2 s1 A1 Hrep1 Hm2 I) as (w & c' & s2 & A2 & mem & Hs2 & _ & Hfs & _).
  unfold fs_serve in Hfs. rewrite E1, bool_decide_eq_true_2 in Hfs by done. cbn [sp_vfs] in Hfs. unfold sp_read in Hfs.
  assert (own_file m2 A1 = Some (i, set_data all n)) as Hown2 by (by apply (own_file_put m1 m2 A i n)). rewrite Hown2 in Hfs. cbn [a_data set_data] in Hfs. unfold cap_null in Hfs. rewrite Hb2, Hsend in Hfs. cbn [negb orb] in Hfs.
  rewrite E3, E4 in Hfs. replace (Z.of_nat (length all) - m_word1 m1 <=? 0) with false in Hfs by lia. cbv zeta in Hfs.
  replace (Z.min (Z.of_nat (length all) - m_word1 m1) (m_word2 m1)) with (m_word2 m1) in Hfs by lia.
  rewrite Hsl in Hread. rewrite Hread in Hfs. destruct Hfs as (rc & c3 & Hw & Hfs).
  unfold bunix_buffer_write in Hw. rewrite Hb2, Hsend in Hw. pose proof (mo_cap m2 Hm2) as Hwf. rewrite Hb2 in Hwf. pose proof (mo_word2 m1 Hm1) as W2.
  destruct (sys_write_ok b2 0 src Hwf ltac:(unfold in_u64; lia) ltac:(by rewrite Hsl)) as (k & b3 & Hk & Hwf3 & Hsz & Hwr & Hdata & _ & Hcase).
  rewrite Hwr in Hw. cbn [mbind option_bind] in Hw. rewrite decide_True in Hw by (right; lia). rewrite decide_True in Hcase by (right; lia). injection Hw as <- <-. injection Hfs as -> -> ->.
  exists b3, s2. split; [done|]. rewrite Hdata, Hcase.
  assert (slice 0 (Z.of_nat (length src)) src = src) as -> by (unfold slice; rewrite drop_0, take_ge; [done|lia]).
  rewrite <- Hsl at 1. apply slice_splice; [lia|]. destruct Hwf as [Hwf _]. lia.
Qed.

(** The state of the session before the write. *)
Definition opened_state : tmpfs := match run (take 3 session) (tmpfs_start (heap_of 10)) with Some (_, s) => s | None => tmpfs_start [] end.

Lemma opened_state_ok : exists A, represents A opened_state.
Proof.
  destruct (run_represents (take 3 session) _ _ (tmpfs_start_ok (heap_of 10))) as (answers & s & A & Hrun & _ & Hrep).
  { repeat (cbn [well_behaved take session grant_step on]; split; [by apply msg_ok_decide|split; [done|intros ? ? _]]). done. }
  exists A. unfold opened_state. by rewrite Hrun.
Qed.

Lemma tmpfs_write_read_witness : exists s1 b3 s2,
  serve all_env (VFS VFS_WRITE_FILE_BUFFER) (handle_msg 1 3 2 0 [7; 8]) opened_state = Some (mk_words 0 2 0 0, m_cap (handle_msg 1 3 2 0 [7; 8]), s1) /\
  serve all_env (VFS VFS_READ_FILE_BUFFER) (handle_msg 1 3 2 0 [0; 0]) s1 = Some (mk_words 0 2 0 0, CBuffer b3, s2) /\
  slice 0 2 (buf_data b3) = [7; 8].
Proof.
  destruct opened_state_ok as [A Hrep]. set (m1 := handle_msg 1 3 2 0 [7; 8]).
  destruct (serve all_env (VFS VFS_WRITE_FILE_BUFFER) m1 opened_state) as [[[w c] s1]|] eqn:Hs; [|by vm_compute in Hs].
  assert (fst <$> serve all_env (VFS VFS_WRITE_FILE_BUFFER) m1 opened_state = Some (mk_words 0 2 0 0, m_cap m1)) as H by (by vm_compute).
  rewrite Hs in H. injection H as -> ->.
  destruct (tmpfs_write_read all_env m1 (handle_msg 1 3 2 0 [0; 0]) opened_state A (mk_buffer 2 [7; 8]) (mk_buffer 2 [0; 0]) (m_cap m1) s1 Hrep
    (msg_ok_decide m1 eq_refl) (msg_ok_decide (handle_msg 1 3 2 0 [0; 0]) eq_refl) eq_refl eq_refl ltac:(simpl; lia) Hs eq_refl eq_refl eq_refl eq_refl eq_refl eq_refl
    ltac:(simpl; lia)) as (b3 & s2 & H1 & H2).
  exists s1, b3, s2. exact (conj eq_refl (conj H1 H2)).
Defined.

(** ** What clients that are not well behaved obtain *)

(** The state after a run, for evaluation. *)
Definition state_after (steps : list step) (alloc : list (option Z)) : tmpfs := from_option snd (tmpfs_start []) (run steps (tmpfs_start alloc)).

Definition create_open : list step := take 3 session.
Definition dangling (s : tmpfs) : bool :=
  existsb (fun o => bool_decide (o_kind o = TMPFS_OPEN_FILE) && bool_decide (files s !! o_file o = None)) (snd <$> map_to_list (opens s)).

Definition unlinked : list step := create_open ++ [on VFS_UNLINK_BUFFER (path_msg "/f" 0 0 0)].

Lemma dangling_unsound s : dangling s = true -> ~ sound s.
Proof.
  intros Hd (_ & _ & _ & Hs). apply existsb_exists in Hd as (o & Hin & Hk). apply list_elem_of_In, list_elem_of_fmap in Hin as ([k o'] & -> & Hin).
  apply elem_of_map_to_list in Hin. apply andb_true_iff in Hk as [E%bool_decide_eq_true_1 Hk%bool_decide_eq_true_1].
  destruct (Hs k o' Hin E) as [f Hf]. simpl in Hk; by rewrite Hf in Hk.
Qed.

(** Unlinking an open file frees it under the handle.  The entry counts only
    its handles and [file_unlink] drops one of them: after create, open and
    unlink, each answered with success, the handle leads to a freed entry, and a
    read, a write or a stat through it uses freed memory. *)
Theorem tmpfs_unlink_open_dangles :
  (fun a : list answer * tmpfs => map (fun x => w0 x.1) a.1) <$> run unlinked (tmpfs_start (heap_of 10)) = Some [0; 0; 0; 0] /\
  ~ sound (state_after unlinked (heap_of 10)) /\
  serve all_env (VFS VFS_READ_FILE_BUFFER) (handle_msg 1 0 5 0 [0; 0; 0; 0; 0]) (state_after unlinked (heap_of 10)) = None /\
  serve all_env (VFS VFS_WRITE_FILE_BUFFER) (handle_msg 1 0 1 0 [7]) (state_after unlinked (heap_of 10)) = None /\
  serve all_env (VFS VFS_STAT_META) (handle_msg 1 0 0 0 [0]) (state_after unlinked (heap_of 10)) = None.
Proof.
  split; [by vm_compute|]. split; [apply dangling_unsound; by vm_compute|]. split; [by vm_compute|]. split; by vm_compute.
Qed.

(** Shortening a file does not clear what is cut off.  After five bytes are
    written, the file is truncated to nothing and one byte is written at offset
    four, a read of the whole file returns the old bytes in the gap. *)
Theorem tmpfs_truncate_keeps_bytes :
  (fun a => last a.1) <$> run (take 4 session ++ [on VFS_TRUNCATE (handle_msg 1 0 0 0 []); on VFS_WRITE_FILE_BUFFER (handle_msg 1 4 1 0 [33]);
    on VFS_READ_FILE_BUFFER (handle_msg 1 0 5 0 [0; 0; 0; 0; 0])]) (tmpfs_start (heap_of 10)) =
  Some (Some (mk_words 0 5 0 0, m_cap (handle_msg 1 0 5 0 [104; 101; 108; 108; 33]))).
Proof. by vm_compute. Qed.

(** A write whose end wraps is not refused.  The end of the range is computed
    modulo [2^64], so a write of sixteen bytes just below [2^64] to an existing
    file is let through and stores the bytes before the block of the file. *)
Theorem tmpfs_write_wraps :
  serve all_env (VFS VFS_WRITE_FILE_BUFFER) (handle_msg 1 (2 ^ 64 - 8) 16 0 (replicate 16 7)) (state_after (take 4 session) (heap_of 10)) = None.
Proof. by vm_compute. Qed.
